(* ===== verification/_CoqProject ===== *)
-Q . S2P
Prelude.v
Prog.v
Ownership.v
MediaSession.v
CoordData.v
Coordinator.v
CoordConcurrent.v
CoordMedia.v
CoordPlayback.v
CoordStop.v
CoordResources.v
MediaActor.v
MediaActorSystem.v
MediaActorInvariant.v
MirrorClock.v
MirrorClockSafety.v
CText.v
Buffers.v
Dns.v
DnsNames.v
DnsPackets.v
DnsService.v
Utf8.v
SeekTarget.v
Plist.v
PlistEncode.v
PlistDecode.v
PlistLayout.v
PlistTree.v
PlistRoundtrip.v
PlistSafety.v
Rtsp.v
RtspResponse.v
RtspGrammar.v
RtspFraming.v
RtspRoundtrip.v
RtspSession.v
LogicalSession.v
LogicalSessionInvariant.v
LogicalSessionView.v
MirrorAudio.v
MirrorAudioReorder.v
MirrorVideo.v
MirrorVideoStream.v
StreamRing.v
StreamBridge.v
StreamBridgeLog.v
SoapWriter.v
SoapXml.v
SoapText.v
PlayerTypes.v
DlnaState.v
DlnaView.v
PlayerCommands.v
ControllerSession.v
DlnaActions.v
DlnaControl.v
DlnaServer.v
DlnaStateFacts.v
DlnaSafety.v
DlnaSystem.v
DlnaReadback.v
PlayerBackend.v
MockBackend.v
PlayerSession.v
PlayerSystem.v
PlayerSafety.v
PlayerRun.v
CachePolicy.v
IptvUrl.v
PlayerUi.v
EventServer.v
EventSystem.v
RemoteHls.v
RemoteHlsText.v
RemoteHlsSession.v
