(* ===== verification/Prelude.v ===== *)
(** * NX-Cast: a verification library

    NX-Cast turns a game console into a media receiver: DLNA, AirPlay and IPTV
    compete for one player.  This library models the C code under src/source that
    decides who may use the player, the player itself, the state machines and message
    formats of the protocols, and the stores behind them, and proves what makes them
    correct.  A definition is translated from the lines its [src] note names.

    ** The program's parts and where they are modelled

    Who may play, and how commands reach the player:

    - [Ownership] - player/core/ownership.c.  The lease register: who owns the player,
      under which 32-bit generation.
    - [MediaSession] - app/protocol_media_session.c.  The state machine that turns
      tagged events into the published media session.
    - [CoordData], [Coordinator] - app/protocol_coordinator.c.  The coordinator starts
      and stops the services, moves the resources of the machine between them, hands
      out the player and publishes one snapshot.  [World] holds the coordinator's
      globals, the ownership register, a clock and the log of the callbacks made.
    - [MediaActor], [MediaActorSystem] - player/core/media_actor.c.  The bounded command
      queue over a heap of requests, then its threads as the step relation [actor_step].
    - [PlayerTypes], [PlayerCommands], [PlayerSession], [PlayerBackend], [MockBackend],
      [CachePolicy], [SeekTarget] - player/types.c, player/player.h, player/core/session.c,
      player/backend.h, player/backend/mock.c, player/cache_policy.c, player/seek_target.c.
      The player executes commands on a backend, which is a class; the mock backend is
      an instance of it.  [PlayerSystem] is the player as the media actor's owner.

    AirPlay, under protocol/airplay:

    - [Dns] - discovery/dns.c: announcements, answers and conflicts.
    - [Plist], [PlistEncode], [PlistDecode] - protocol/plist.c: binary property lists.
    - [Rtsp], [RtspResponse] - protocol/rtsp.c: requests, responses and the dispatch of
      a connection.
    - [LogicalSession] - protocol/logical_session.c: which connections belong together.
    - [MirrorClock], [MirrorAudio], [MirrorVideo] - mirror/clock.c, audio.c, video.c:
      one timeline, the reordering window, and Annex B access units.
    - [StreamRing], [StreamBridge] - media/stream_bridge.c: the queue of bytes between a
      mirrored stream and the player, and the container written into it.
    - [RemoteHls] - media/remote_hls.c: playlists handed over by a controller.

    DLNA, under protocol/dlna/control:

    - [SoapWriter], [SoapXml] - soap_writer.c, handler.c: the text of requests and answers.
    - [DlnaState], [DlnaView] - protocol_state.c: the state variables and the view of
      the renderer they are taken from.
    - [ControllerSession], [DlnaActions], [DlnaControl], [DlnaServer] -
      controller_session.c, action/, soap_router.c, soap_server.c: the actions, over the
      coordinator and the player.
    - [EventServer] - event_server.c: subscriptions and notifications.

    Around them:

    - [IptvUrl] - iptv/url.c; [Utf8] - player/ui/utf8.c; [PlayerUi] - player/ui/timeline.c,
      player/ui/layout.c.
    - [Prog] is the language of interleaved programs with its proof rules; [CText] the
      functions of the C library on texts; [Buffers] results, checked buffers and arrays
      of slots; this file holds record updates, machine-width integers and tactics.

    Protocols take the player through the coordinator, which calls the ownership
    register inside its claims and releases and posts the session's events; they submit
    commands to the media actor, which validates the lease again before the player
    executes them; the player's snapshot feeds the DLNA view, whose variables the SOAP
    actions answer from and the event server reports.  Callbacks, the backend, the
    allocator, files and the other ends of connections are the environment: arguments
    of the definitions, or classes ([Callbacks], [CallbacksKeep], [CallbacksPassive],
    [CallbacksSucceed], [RouteKeepsProtocol], the backend of [PlayerBackend]) that state what a theorem
    assumes of them.

    ** What the theorems show

    - Under every interleaving of any number of threads the coordinator's snapshot is
      consistent and every change of it advances the revision ([CoordConcurrent]).  Run
      without interference, the media operations refine a register that holds a single
      lease ([CoordMedia]); the end of a playback that was never seen active releases the
      player only after the grace period, and the bounded waits end ([CoordPlayback]); a stop is complete and in
      order ([CoordStop]); a resource transition reaches its target ([CoordResources]).
    - A lease that stopped being valid stays invalid until the 32-bit generation has
      gone round ([Ownership]); the session is well formed, honest about what changed,
      and deaf to other leases ([MediaSession]).
    - The media actor neither leaks nor reuses requests, serves commands once and in
      order, respects its capacity and reserved slots, and strands nobody when it stops
      ([MediaActor], [MediaActorInvariant]).  The player runs commands only under the
      lease they came with, its snapshot shows the current media, and a refused open
      leaves it alone ([PlayerSafety], [PlayerRun]).
    - Property lists survive encoding and decoding ([PlistLayout], [PlistTree],
      [PlistRoundtrip]) and any bytes are decoded safely ([PlistSafety]).  RTSP requests
      are cut out of a stream exactly by the grammar ([RtspGrammar], [RtspFraming]), what
      is sent is parsed back when it is of the kind that the parser accepts
      ([RtspRoundtrip]), and every request is answered with its number, or refused when it
      has none, by any route that keeps the protocol ([RtspSession]).  DNS packets are read and written within bounds and names
      are read exactly ([DnsNames], [DnsPackets], [DnsService]).
    - The registry of logical sessions stays consistent and joins the connections of a
      device ([LogicalSessionInvariant], [LogicalSessionView]).
    - Mirroring clocks that take over each other's timelines never overflow and present
      video in increasing order ([MirrorClockSafety]); audio leaves the window in order and complete up to the
      packets given up ([MirrorAudio], [MirrorAudioReorder]); video is always
      decodable ([MirrorVideo], [MirrorVideoStream]); the ring is a queue of bytes
      without lost wakeups ([StreamRing]) and the stream in it is valid
      ([StreamBridgeLog]).
    - A remote session is announced only when every playlist the player will ask for is
      served, and the playlists are rewritten exactly ([RemoteHlsText],
      [RemoteHlsSession]).
    - SOAP text is escaped and bounded ([SoapText]); the view always shows the state
      variables ([DlnaStateFacts], [DlnaSystem]); the player is asked only under a lease,
      which is given back only after it stopped ([DlnaSafety]); a controller reads back the uri it set ([DlnaReadback]);
      notifications are numbered without gaps, and report the change ([EventSystem]).
    - References are resolved by parts ([IptvUrl]); seek targets survive a round trip
      ([SeekTarget]); a touch seeks inside the media ([PlayerUi]); the UTF-8 copy is the
      longest prefix of whole characters that fits ([Utf8]).
    - Some theorems state defects, among them: a tick that races with a release
      republishes the lease ([CoordConcurrent]), a discovery callback that releases the
      player never returns, a failed start strands requests ([MediaActorInvariant]), a
      seek fraction is not checked past its fourth digit ([SeekTarget]), expired
      subscriptions fill the table ([EventSystem]), a byte order mark crashes the
      receiver ([RemoteHlsText]).

    ** Bounds, fuel and assumptions

    - A C mutex makes a critical section one step.  Starting and destroying the media
      actor are not concurrent with each other, as their callers ensure.
    - Sizes and positions that index allocated memory are natural numbers; counters,
      generations, lengths on the wire and times keep their 32 or 64 bits.  In
      [MirrorClock] every signed operation is checked.
    - Fuel is a bound the code has: [wait_resources_loop] takes one round per
      millisecond of the timeout, [reject_pending] one per queued request; loops over
      text ([split_lines], [split_tokens], [expand_params], [find_element], [find_close],
      [find_header], [parse_header_lines] and the like) one per character left;
      [READ_NAME_FUEL] is one more than the labels and pointers a name may have,
      [COLLECT_FUEL] and [DECODE_FUEL] exceed the depth of a property list, and the
      loops that double a capacity ([GROW_FUEL], [RESERVE_FUEL]) the 64 bits of a size.
      Where fuel runs out the model is [Stuck] or undefined, and the safety theorems
      exclude it.
    - Command ids are followed until they exceed 64 bits, the clocks for ten million calls
      with local times below 2^62 microseconds.

    ** Not modelled

    Calls into libraries: libmpv (player/backend/libmpv.c), FFmpeg, Dear ImGui, mbedtls
    and the vendored playfair.  Threads over sockets: the AirPlay receiver, its handlers
    and mirroring runtime, multicast discovery, the HTTP servers' loops, timing.c; their
    pure parts are the models above.  Rendering and input, logging, and main.c.
    The IPTV store and the guide (iptv.c, xmltv.c, fetch.c) are files and network.  The
    numeric branch of the seek parser (strtod on binary floating-point) is an argument of
    the definition. *)

From Stdlib Require Export ZArith Lia.
From stdpp Require Export base tactics option list numbers gmap strings relations.

#[export] Set Default Goal Selector "!".

(** ** Record updates

    [Eta R] names the constructor of a record applied to its own projections;
    from it the setter of any field is derived by replacing one projection. *)
Class Eta (R : Type) := eta : R -> R.

Class Setter {R T : Type} (get : R -> T) := upd : (T -> T) -> R -> R.
Arguments upd {R T} get {_} _ _.

Ltac derive_setter R T get :=
  let e := constr:(_ : Eta R) in
  let e' := eval hnf in e in
  exact (fun (f : T -> T) (r : R) =>
    ltac:(let b := eval cbv beta in (e' r) in
          lazymatch b with
          | context C [get r] => let b' := context C [f (get r)] in exact b'
          end)).

#[export] Hint Extern 1 (@Setter ?R ?T ?get) => derive_setter R T get : typeclass_instances.

Declare Scope nxcast_scope.
Delimit Scope nxcast_scope with nx.
Declare Custom Entry field_upd.

Notation "p := v" := (upd p (fun _ => v))
  (in custom field_upd at level 1, p constr at level 1, v constr at level 99).
Notation "p ::= f" := (upd p f)
  (in custom field_upd at level 1, p constr at level 1, f constr at level 99).
Notation "p -> q := v" := (upd p (upd q (fun _ => v)))
  (in custom field_upd at level 1, p constr at level 1, q constr at level 1,
   v constr at level 99).
Notation "p -> q ::= f" := (upd p (upd q f))
  (in custom field_upd at level 1, p constr at level 1, q constr at level 1,
   f constr at level 99).
Notation "{ r 'with' u }" := (u r)
  (at level 0, r at level 99, u custom field_upd at level 1) : nxcast_scope.
Notation "{ r 'with' u ; .. ; v ; w }" := (w (v .. (u r) ..))
  (at level 0, r at level 99, u custom field_upd at level 1,
   v custom field_upd at level 1, w custom field_upd at level 1) : nxcast_scope.
#[global] Open Scope nxcast_scope.

#[global] Open Scope Z_scope.

(** Reduces record updates. *)
Ltac rsimpl := unfold upd in *; cbn in *.

(** Reduces the projections of record updates one by one, without expanding the
    updates themselves: for large records. *)
Ltac rproj_step p R T q i f r :=
  lazymatch p with upd _ _ => fail | _ => idtac end;
  first
  [ constr_eq p q;
    let e := constr:(fun (f' : T -> T) (r' : R) => eq_refl : p (@upd R T q i f' r') = f' (p r')) in
    rewrite (e f r : p (@upd R T q i f r) = f (p r)); cbv beta
  | let e := constr:(fun (f' : T -> T) (r' : R) => eq_refl : p (@upd R T q i f' r') = p r') in
    rewrite (e f r : p (@upd R T q i f r) = p r) ].

Ltac rproj :=
  cbv beta;
  repeat match goal with
  | |- context [?p (@upd ?R ?T ?q ?i ?f ?r)] => rproj_step p R T q i f r
  end.

(** ** Fixed-width integers

    Unsigned values are kept in [0 .. 2^w - 1]; the conversions below are C's
    conversions to [uint32_t], [uint64_t], [int32_t] and [int64_t]. *)
Definition UINT32_MAX : Z := 4294967295.
Definition UINT64_MAX : Z := 18446744073709551615.
Definition INT32_MAX : Z := 2147483647.
Definition INT64_MAX : Z := 9223372036854775807.

Definition u8 (z : Z) : Z := z `mod` 256.
Definition u16 (z : Z) : Z := z `mod` 65536.
Definition u32 (z : Z) : Z := z `mod` 4294967296.
Definition u64 (z : Z) : Z := z `mod` 18446744073709551616.
Definition i32 (z : Z) : Z :=
  let r := u32 z in if r <=? INT32_MAX then r else r - 4294967296.
Definition i64 (z : Z) : Z :=
  let r := u64 z in if r <=? INT64_MAX then r else r - 18446744073709551616.

Definition is_u32 (z : Z) : Prop := 0 <= z <= UINT32_MAX.
Definition is_u64 (z : Z) : Prop := 0 <= z <= UINT64_MAX.
Definition is_i64 (z : Z) : Prop := - INT64_MAX - 1 <= z <= INT64_MAX.

(** A counter that skips zero when it wraps: [++x; if (x == 0u) ++x;]. *)
Definition bump32 (x : Z) : Z :=
  let x1 := u32 (x + 1) in if x1 =? 0 then u32 (x1 + 1) else x1.

(** [++] of a [uint64_t] counter, and of a [uint32_t] one. *)
Definition inc (x : Z) : Z := u64 (x + 1).
Definition inc32 (x : Z) : Z := u32 (x + 1).

(** Signed 64-bit arithmetic that must not overflow: [None] when it does. *)
Definition chk64 (z : Z) : option Z :=
  if (- INT64_MAX - 1 <=? z) && (z <=? INT64_MAX) then Some z else None.

(** ** C strings

    A string is the list of its bytes before the terminating NUL. *)
Definition cstring : Type := list Z.

Fixpoint bytes (s : string) : cstring :=
  match s with
  | EmptyString => []
  | String a s' => Z.of_N (Ascii.N_of_ascii a) :: bytes s'
  end.

(** The string a NUL-terminated buffer holds. *)
Fixpoint cstr_of (buffer : list Z) : cstring :=
  match buffer with
  | [] => []
  | b :: rest => if b =? 0 then [] else b :: cstr_of rest
  end.

(** ** Tactics *)

Ltac Zify.zify_post_hook ::= Z.div_mod_to_equations.

Ltac unfold_width :=
  unfold is_u32, is_u64, is_i64, i32, i64, u8, u16, u32, u64,
    UINT32_MAX, UINT64_MAX, INT32_MAX, INT64_MAX in *.

(** Decides goals of the width arithmetic: unfold, split the comparisons, [lia]. *)
Ltac width_lia :=
  unfold_width; cbv zeta in *;
  repeat match goal with
  | |- context [?a <=? ?b] => destruct (Z.leb_spec a b)
  | |- context [?a =? ?b] => destruct (Z.eqb_spec a b)
  | H : context [?a <=? ?b] |- _ => destruct (Z.leb_spec a b)
  | H : context [?a =? ?b] |- _ => destruct (Z.eqb_spec a b)
  end; lia.

(** Splits boolean conjunctions and disjunctions of the code's conditions. *)
Ltac bool_cases :=
  repeat match goal with
  | H : _ && _ = true |- _ => apply andb_true_iff in H as [? ?]
  | H : _ || _ = false |- _ => apply orb_false_iff in H as [? ?]
  | H : negb _ = true |- _ => apply negb_true_iff in H
  | H : negb _ = false |- _ => apply negb_false_iff in H
  end.

(** ** Width lemmas *)

Lemma u32_range z : is_u32 (u32 z).
Proof. width_lia. Qed.

Lemma u64_range z : is_u64 (u64 z).
Proof. width_lia. Qed.

Lemma i64_range z : is_i64 (i64 z).
Proof. width_lia. Qed.

Lemma u32_id z : is_u32 z -> u32 z = z.
Proof. width_lia. Qed.

Lemma u64_id z : is_u64 z -> u64 z = z.
Proof. width_lia. Qed.

Lemma chk64_some z : is_i64 z -> chk64 z = Some z.
Proof.
  unfold is_i64, chk64. intros [H1 H2]. apply Z.leb_le in H1, H2. by rewrite H1, H2.
Qed.

Lemma inc_range x : is_u64 (inc x).
Proof. apply u64_range. Qed.

Lemma bump32_range x : 1 <= bump32 x <= UINT32_MAX.
Proof. unfold bump32. width_lia. Qed.

Lemma bump32_nonzero x : bump32 x <> 0.
Proof. pose proof (bump32_range x). lia. Qed.

Lemma bump32_small x : 0 <= x < UINT32_MAX -> bump32 x = x + 1.
Proof. unfold bump32. width_lia. Qed.

Lemma bump32_max : bump32 UINT32_MAX = 1.
Proof. reflexivity. Qed.

Lemma bump32_neq x : bump32 x <> x.
Proof. unfold bump32. width_lia. Qed.

Create HintDb nx.
#[export] Hint Resolve u32_range u64_range i64_range bump32_range bump32_nonzero : nx.
