(* ===== verification/Prog.v ===== *)
(** * Programs of atomic actions

    A C function that several threads run is modelled as a program: a tree of
    atomic actions, one per critical section (the code between a lock and its
    unlock), per callback boundary and per blocking wait.  [run] executes a
    program alone; [pool_step] interleaves the actions of any number of
    threads.  [obeys] is the proof rule that makes an invariant and a step
    guarantee hold under every interleaving. *)

From S2P Require Import Prelude.

Section prog.
Context {S : Type}.

(** [Act g u k]: blocks until [g] holds of the state, then in one step changes
    it by [u] and goes on as [k] of the state the action read. *)
Inductive prog (A : Type) : Type :=
| Ret (a : A)
| Act (g : S -> bool) (u : S -> S) (k : S -> prog A).

End prog.
Arguments prog S A : clear implicits.
Arguments Ret {S A} a.
Arguments Act {S A} g u k.

Fixpoint prog_bind {S A B} (f : A -> prog S B) (p : prog S A) : prog S B :=
  match p with
  | Ret a => f a
  | Act g u k => Act g u (fun s => prog_bind f (k s))
  end.

#[export] Instance prog_ret S : MRet (prog S) := fun A a => Ret a.
#[export] Instance prog_mbind S : MBind (prog S) := fun A B f p => prog_bind f p.
#[export] Instance prog_fmap S : FMap (prog S) := fun A B f p => prog_bind (fun a => Ret (f a)) p.

Section actions.
Context {S : Type}.

Definition always : S -> bool := fun _ => true.

(** One critical section that returns a value. *)
Definition atomic {A} (f : S -> A * S) : prog S A :=
  Act always (fun s => (f s).2) (fun s => Ret (f s).1).

Definition gets {A} (f : S -> A) : prog S A := Act always id (fun s => Ret (f s)).

Definition modify (u : S -> S) : prog S unit := Act always u (fun _ => Ret tt).

(** Waits for a condition, then changes the state in the same step. *)
Definition await (g : S -> bool) (u : S -> S) : prog S unit := Act g u (fun _ => Ret tt).

(** A call through a NULL function pointer: no step is possible. *)
Definition stuck {A} (a : A) : prog S A := Act (fun _ => false) id (fun _ => Ret a).

(** A [for] loop over [l] whose body may leave the loop ([false]). *)
Fixpoint for_loop {X Acc} (l : list X) (acc : Acc)
    (body : X -> Acc -> prog S (Acc * bool)) : prog S (Acc * bool) :=
  match l with
  | [] => mret (acc, true)
  | x :: l' =>
      '(acc', continue) ← body x acc;
      if (continue : bool) then for_loop l' acc' body else mret (acc', false)
  end.

(** A [for] loop with no early exit. *)
Fixpoint for_each {X} (l : list X) (body : X -> prog S unit) : prog S unit :=
  match l with
  | [] => mret tt
  | x :: l' => body x ;; for_each l' body
  end.

(** ** Execution *)

(** The program run alone; [None] when it blocks for ever. *)
Fixpoint run {A} (p : prog S A) (s : S) : option (A * S) :=
  match p with
  | Ret a => Some (a, s)
  | Act g u k => if g s then run (k s) (u s) else None
  end.

Definition thread : Type := prog S unit.

(** Threads in any number; a thread of [spawn] may start at any time and the
    environment may take a step of [env] at any time. *)
Inductive pool_step (spawn : thread -> Prop) (env : S -> S -> Prop) :
    S * list thread -> S * list thread -> Prop :=
| pool_act i g u k s ts :
    ts !! i = Some (Act g u k) -> g s = true ->
    pool_step spawn env (s, ts) (u s, <[i := k s]> ts)
| pool_spawn t s ts :
    spawn t -> pool_step spawn env (s, ts) (s, ts ++ [t])
| pool_env s s' ts :
    env s s' -> pool_step spawn env (s, ts) (s', ts).

(** [obeys I R p Q]: every action of [p], taken in a state of [I], leads to a
    state of [I] related to the old one by [R], and results satisfy [Q]. *)
Fixpoint obeys {A} (I : S -> Prop) (R : S -> S -> Prop) (p : prog S A)
    (Q : A -> Prop) : Prop :=
  match p with
  | Ret a => Q a
  | Act g u k => forall s, I s -> g s = true -> I (u s) /\ R s (u s) /\ obeys I R (k s) Q
  end.

(** [wp p Q s]: run alone from [s], [p] never blocks and ends in [Q]. *)
Fixpoint wp {A} (p : prog S A) (Q : A -> S -> Prop) (s : S) : Prop :=
  match p with
  | Ret a => Q a s
  | Act g u k => g s = true /\ wp (k s) Q (u s)
  end.

End actions.
Arguments thread S : clear implicits.

(** ** Lemmas *)

Section lemmas.
Context {S : Type}.

Lemma run_bind {A B} (p : prog S A) (f : A -> prog S B) s :
  run (p ≫= f) s = '(a, s') ← run p s; run (f a) s'.
Proof.
  revert s. induction p as [a|g u k IH]; intros s; [done|].
  cbn. destruct (g s); [apply IH | done].
Qed.

Lemma wp_run {A} (p : prog S A) Q s :
  wp p Q s <-> exists a s', run p s = Some (a, s') /\ Q a s'.
Proof.
  revert s. induction p as [a|g u k IH]; intros s; cbn.
  - split; [eauto | by intros (? & ? & [= <- <-] & ?)].
  - destruct (g s); [rewrite IH; tauto |].
    split; [by intros [? _] | by intros (? & ? & ? & _)].
Qed.

Lemma wp_bind {A B} (p : prog S A) (f : A -> prog S B) Q s :
  wp (p ≫= f) Q s <-> wp p (fun a => wp (f a) Q) s.
Proof.
  revert s. induction p as [a|g u k IH]; intros s; [done|]. cbn.
  split; intros [? H]; (split; [done|]); by apply IH.
Qed.

Lemma wp_fmap {A B} (f : A -> B) (p : prog S A) Q s :
  wp (f <$> p) Q s <-> wp p (fun a => Q (f a)) s.
Proof. apply wp_bind. Qed.

Lemma wp_mono {A} (p : prog S A) (Q Q' : A -> S -> Prop) s :
  wp p Q s -> (forall a s', Q a s' -> Q' a s') -> wp p Q' s.
Proof.
  intros H HQ. revert s H. induction p as [a|g u k IH]; cbn; intros s H; [by apply HQ|].
  destruct H. split; [done|]. by apply IH.
Qed.

Lemma wp_conj {A} (p : prog S A) (Q Q' : A -> S -> Prop) s :
  wp p Q s -> wp p Q' s -> wp p (fun a s' => Q a s' /\ Q' a s') s.
Proof.
  revert s. induction p as [a|g u k IH]; cbn; intros s H H'; [done|].
  destruct H, H'. split; [done|]. by apply IH.
Qed.

(** A loop with no early exit, by an invariant on the part already done. *)
Lemma wp_for_each {X} (l : list X) (body : X -> prog S unit) (Inv : list X -> S -> Prop) s :
  (forall done x s', x ∈ l -> Inv done s' -> wp (body x) (fun _ => Inv (done ++ [x])) s') ->
  Inv [] s -> wp (for_each l body) (fun _ => Inv l) s.
Proof.
  intros Hb H0.
  enough (Hg : forall rest done s', l = done ++ rest -> Inv done s' ->
            wp (for_each rest body) (fun _ => Inv l) s') by by apply (Hg l []).
  intros rest. induction rest as [|x rest IH]; intros done s' Hl Hi; cbn.
  - rewrite app_nil_r in Hl. by subst.
  - apply wp_bind. eapply wp_mono; [apply (Hb done x s'); [|done] |].
    + rewrite Hl. apply elem_of_app. right. by left.
    + cbn beta. intros _ s'' Hi'. apply (IH (done ++ [x])); [|done]. by rewrite <- app_assoc.
Qed.

(** A loop whose body never leaves it; the element is not among those done. *)
Lemma wp_for_loop {X Acc} (l : list X) (acc : Acc) body
    (Inv : list X -> Acc -> S -> Prop) s :
  NoDup l ->
  (forall done x acc' s', x ∉ done -> Inv done acc' s' ->
     wp (body x acc') (fun r s'' => r.2 = true /\ Inv (done ++ [x]) r.1 s'') s') ->
  Inv [] acc s -> wp (for_loop l acc body) (fun r s' => r.2 = true /\ Inv l r.1 s') s.
Proof.
  intros Hnd Hb H0.
  enough (Hg : forall rest done acc' s', l = done ++ rest -> Inv done acc' s' ->
            wp (for_loop rest acc' body) (fun r s'' => r.2 = true /\ Inv l r.1 s'') s')
    by by apply (Hg l []).
  intros rest. induction rest as [|x rest IH]; intros done acc' s' Hl Hi; cbn.
  - rewrite app_nil_r in Hl. by subst.
  - apply wp_bind. eapply wp_mono; [apply (Hb done x acc' s'); [|done] |].
    + rewrite Hl in Hnd. apply NoDup_app in Hnd as (_ & Hx & _). intros Hin.
      apply (Hx x Hin). by left.
    + cbn beta. intros [acc'' []] s'' [Hc Hi']; [|done].
      apply (IH (done ++ [x])); [|done]. by rewrite <- app_assoc.
Qed.

Lemma obeys_mono {A} I R (p : prog S A) (Q Q' : A -> Prop) :
  obeys I R p Q -> (forall a, Q a -> Q' a) -> obeys I R p Q'.
Proof.
  intros H HQ. induction p as [a|g u k IH]; cbn in *; [by apply HQ|].
  intros s Hs Hg. destruct (H s Hs Hg) as (? & ? & ?). split_and!; [done..|]. by apply IH.
Qed.

Lemma obeys_bind {A B} I R (p : prog S A) (f : A -> prog S B) (P : A -> Prop) Q :
  obeys I R p P -> (forall a, P a -> obeys I R (f a) Q) -> obeys I R (p ≫= f) Q.
Proof.
  intros H Hf. induction p as [a|g u k IH]; cbn in *; [by apply Hf|].
  intros s Hs Hg. destruct (H s Hs Hg) as (? & ? & ?). split_and!; [done..|]. by apply IH.
Qed.

Lemma obeys_bind_ {A B} I R (p : prog S A) (f : A -> prog S B) Q :
  obeys I R p (fun _ => True) -> (forall a, obeys I R (f a) Q) -> obeys I R (p ≫= f) Q.
Proof. intros H Hf. eapply obeys_bind; [done | auto]. Qed.

(** A program that obeys the rule, run alone, keeps the invariant. *)
Lemma obeys_run {A} I R (p : prog S A) Q s a s' :
  obeys I R p Q -> I s -> run p s = Some (a, s') -> I s' /\ Q a.
Proof.
  revert s. induction p as [x|g u k IH]; cbn; intros s H Hs Hrun.
  - by injection Hrun as <- <-.
  - destruct (g s) eqn:Hg; [|done]. destruct (H s Hs Hg) as (? & _ & ?). by eapply IH.
Qed.

Lemma obeys_for_loop {X Acc} I R (l : list X) (acc : Acc) body :
  (forall x acc', obeys I R (body x acc') (fun _ => True)) ->
  obeys I R (for_loop (S := S) l acc body) (fun _ => True).
Proof.
  intros Hb. revert acc. induction l as [|x l IH]; intros acc; [done|].
  cbn. apply obeys_bind_; [apply Hb|]. intros [acc' []]; [apply IH | done].
Qed.

Lemma obeys_for_each {X} I R (l : list X) body :
  (forall x, obeys I R (body x) (fun _ => True)) ->
  obeys I R (for_each (S := S) l body) (fun _ => True).
Proof.
  intros Hb. induction l as [|x l IH]; [done|].
  cbn. apply obeys_bind_; [apply Hb | intros _; apply IH].
Qed.

(** *** Interleaving: the thread-modular rule *)

Context (spawn : thread S -> Prop) (env : S -> S -> Prop).
Context (I : S -> Prop) (R : S -> S -> Prop).
Hypothesis spawn_obeys : forall t, spawn t -> obeys I R t (fun _ => True).
Hypothesis env_obeys : forall s s', I s -> env s s' -> I s' /\ R s s'.
Hypothesis R_refl : forall s, R s s.

Definition pool_ok (c : S * list (thread S)) : Prop :=
  I c.1 /\ Forall (fun t => obeys I R t (fun _ => True)) c.2.

Lemma pool_step_ok c c' :
  pool_ok c -> pool_step spawn env c c' -> pool_ok c' /\ R c.1 c'.1.
Proof using spawn_obeys env_obeys R_refl.
  intros [HI Hts] Hstep. destruct Hstep as [i g u k s ts Hi Hg|t s ts Ht|s s' ts He];
    cbn in *; unfold pool_ok; cbn.
  - pose proof (proj1 (Forall_lookup _ _) Hts _ _ Hi s HI Hg) as (? & ? & ?).
    split_and!; [done| |done]. by apply Forall_insert.
  - split_and!; [done| |done]. apply Forall_app; split; [done|]. by repeat constructor; auto.
  - destruct (env_obeys _ _ HI He). by split_and!.
Qed.

Lemma pool_reachable_ok c c' :
  pool_ok c -> rtc (pool_step spawn env) c c' -> pool_ok c'.
Proof using spawn_obeys env_obeys R_refl.
  intros Hc Hr. induction Hr as [|c1 c2 c3 H12 _ IH]; [done|].
  apply IH. by apply (pool_step_ok c1 c2).
Qed.

End lemmas.

#[export] Hint Resolve obeys_bind_ obeys_for_loop obeys_for_each : nx.
