(* ===== verification/Ownership.v ===== *)
(** * Media ownership (player/core/ownership.c)

    The single lease that says which protocol owns the player.  The module
    state is the record [Ownership]; the programs act on any world that holds
    one ([HasOwnership]), so the coordinator reuses them in its own world.

    An out-parameter is a result; where the C code tests the pointer, the
    operation takes a flag that is [true] when it is not NULL. *)

From S2P Require Import Prelude Prog.

(* src: source/player/core/ownership.h PlayerMediaOwner *)
Inductive PlayerMediaOwner :=
| PLAYER_MEDIA_OWNER_NONE
| PLAYER_MEDIA_OWNER_DLNA
| PLAYER_MEDIA_OWNER_IPTV
| PLAYER_MEDIA_OWNER_AIRPLAY_VIDEO
| PLAYER_MEDIA_OWNER_AIRPLAY_MIRROR.

#[export] Instance PlayerMediaOwner_eq_dec : EqDecision PlayerMediaOwner.
Proof. solve_decision. Defined.

(* src: source/player/core/ownership.h PlayerOwnershipLease *)
Record PlayerOwnershipLease := mkLease {
  owner : PlayerMediaOwner;
  token : Z;
  generation : Z
}.

#[export] Instance PlayerOwnershipLease_eq_dec : EqDecision PlayerOwnershipLease.
Proof. solve_decision. Defined.
#[export] Instance eta_lease : Eta PlayerOwnershipLease :=
  fun l => mkLease (owner l) (token l) (generation l).

(** A zeroed lease. *)
Definition lease_zero : PlayerOwnershipLease := mkLease PLAYER_MEDIA_OWNER_NONE 0 0.

Definition owner_eqb (a b : PlayerMediaOwner) : bool := bool_decide (a = b).

(* src: source/player/core/ownership.c 13-17 g_current, g_next_generation, g_transition_mutex *)
Record Ownership := mkOwnership {
  g_current : PlayerOwnershipLease;
  g_next_generation : Z;
  g_ready : bool;
  (** whether some thread is between transition_begin and transition_end *)
  g_transition_held : bool
}.
#[export] Instance eta_ownership : Eta Ownership := fun o =>
  mkOwnership (g_current o) (g_next_generation o) (g_ready o) (g_transition_held o).

Definition ownership_zero : Ownership := mkOwnership lease_zero 0 false false.

(** A world that contains the module's static variables. *)
Class HasOwnership (W : Type) := {
  get_own : W -> Ownership;
  put_own : Ownership -> W -> W;
  get_put_own o w : get_own (put_own o w) = o;
  put_put_own o o' w : put_own o (put_own o' w) = put_own o w;
  put_get_own w : put_own (get_own w) w = w
}.

#[export] Instance HasOwnership_self : HasOwnership Ownership.
Proof. by refine {| get_own o := o; put_own o _ := o |}. Defined.

(** ** Operations on the module state *)

(* src: source/player/core/ownership.c next_generation *)
Definition next_generation (o : Ownership) : Z * Ownership :=
  let g := bump32 (g_next_generation o) in
  (g, { o with g_next_generation := g }).

(* src: source/player/core/ownership.c lease_equal *)
Definition lease_equal (left right : PlayerOwnershipLease) : bool :=
  owner_eqb (owner left) (owner right) && (token left =? token right) &&
  (generation left =? generation right).

(* src: source/player/core/ownership.c ownership_init *)
Definition ownership_init (o : Ownership) : Ownership :=
  if g_ready o then o else { o with g_ready := true }.

(** The critical section of [player_ownership_claim]. *)
(* src: source/player/core/ownership.c 93-100 player_ownership_claim *)
Definition claim_locked (ow : PlayerMediaOwner) (tk : Z) (o : Ownership)
    : (PlayerOwnershipLease * PlayerOwnershipLease) * Ownership :=
  let previous := g_current o in
  let '(g, o1) := next_generation o in
  let lease := mkLease ow tk g in
  ((lease, previous), { o1 with g_current := lease }).

(* src: source/player/core/ownership.c 146-152 player_ownership_release *)
Definition release_locked (l : PlayerOwnershipLease) (o : Ownership) : bool * Ownership :=
  if lease_equal l (g_current o) then (true, { o with g_current := lease_zero })
  else (false, o).

(* src: source/player/core/ownership.c 160-166 player_ownership_release_current *)
Definition release_current_locked (ow : PlayerMediaOwner) (tk : Z) (o : Ownership)
    : bool * Ownership :=
  if owner_eqb (owner (g_current o)) ow && (token (g_current o) =? tk)
  then (true, { o with g_current := lease_zero })
  else (false, o).

(* src: source/player/core/ownership.c 172-175 player_ownership_reset *)
Definition reset_locked (o : Ownership) : Ownership :=
  (next_generation { o with g_current := lease_zero }).2.

(** ** Programs *)

Section programs.
Context {W : Type} `{!HasOwnership W}.

(** The code between [ownership_lock] and [ownership_unlock]. *)
(* src: source/player/core/ownership.c 33-50 ownership_lock, ownership_unlock *)
Definition on_own {A} (f : Ownership -> A * Ownership) : prog W A :=
  atomic (fun w => let r := f (ownership_init (get_own w)) in (r.1, put_own r.2 w)).

(* src: source/player/core/ownership.c player_ownership_transition_begin *)
Definition player_ownership_transition_begin : prog W unit :=
  await (fun w => negb (g_transition_held (get_own w)))
    (fun w => put_own { ownership_init (get_own w) with g_transition_held := true } w).

(* src: source/player/core/ownership.c player_ownership_transition_end *)
Definition player_ownership_transition_end : prog W unit :=
  modify (fun w => put_own { get_own w with g_transition_held := false } w).

(** [Some (lease, previous)] when the claim succeeds. *)
(* src: source/player/core/ownership.c player_ownership_claim *)
Definition player_ownership_claim (ow : PlayerMediaOwner) (tk : Z) (lease_out : bool)
    : prog W (option (PlayerOwnershipLease * PlayerOwnershipLease)) :=
  if owner_eqb ow PLAYER_MEDIA_OWNER_NONE || negb lease_out then mret None
  else r ← on_own (claim_locked ow tk); mret (Some r).

(** The result and [*lease_out], which is written even when there is no owner. *)
(* src: source/player/core/ownership.c player_ownership_current *)
Definition player_ownership_current (lease_out : bool)
    : prog W (bool * PlayerOwnershipLease) :=
  if negb lease_out then mret (false, lease_zero)
  else
    lease ← on_own (fun o => (g_current o, o));
    mret (negb (owner_eqb (owner lease) PLAYER_MEDIA_OWNER_NONE), lease).

(* src: source/player/core/ownership.c player_ownership_validate *)
Definition player_ownership_validate (lease : option PlayerOwnershipLease) : prog W bool :=
  match lease with
  | None => mret false
  | Some l =>
      if owner_eqb (owner l) PLAYER_MEDIA_OWNER_NONE || (generation l =? 0)
      then mret false
      else on_own (fun o => (lease_equal l (g_current o), o))
  end.

(* src: source/player/core/ownership.c player_ownership_matches *)
Definition player_ownership_matches (ow : PlayerMediaOwner) (tk : Z) : prog W bool :=
  if owner_eqb ow PLAYER_MEDIA_OWNER_NONE then mret false
  else on_own (fun o =>
    (owner_eqb (owner (g_current o)) ow && (token (g_current o) =? tk), o)).

(* src: source/player/core/ownership.c player_ownership_release *)
Definition player_ownership_release (lease : option PlayerOwnershipLease) : prog W bool :=
  match lease with
  | None => mret false
  | Some l => on_own (release_locked l)
  end.

(* src: source/player/core/ownership.c player_ownership_release_current *)
Definition player_ownership_release_current (ow : PlayerMediaOwner) (tk : Z) : prog W bool :=
  on_own (release_current_locked ow tk).

(* src: source/player/core/ownership.c player_ownership_reset *)
Definition player_ownership_reset : prog W unit :=
  on_own (fun o => (tt, reset_locked o)).

End programs.

(* src: source/player/core/ownership.c player_media_owner_name *)
Definition player_media_owner_name (ow : PlayerMediaOwner) : string :=
  match ow with
  | PLAYER_MEDIA_OWNER_DLNA => "dlna"
  | PLAYER_MEDIA_OWNER_IPTV => "iptv"
  | PLAYER_MEDIA_OWNER_AIRPLAY_VIDEO => "airplay-video"
  | PLAYER_MEDIA_OWNER_AIRPLAY_MIRROR => "airplay-mirror"
  | PLAYER_MEDIA_OWNER_NONE => "none"
  end.

(** ** Sequences of ownership operations *)

(** The operations that change the owner, with arguments the callers choose. *)
Inductive OwnOp :=
| OpClaim (ow : PlayerMediaOwner) (tk : Z)
| OpRelease (l : option PlayerOwnershipLease)
| OpReleaseCurrent (ow : PlayerMediaOwner) (tk : Z)
| OpReset.

Definition own_op (op : OwnOp) : prog Ownership unit :=
  match op with
  | OpClaim ow tk => player_ownership_claim ow tk true ;; mret tt
  | OpRelease l => player_ownership_release l ;; mret tt
  | OpReleaseCurrent ow tk => player_ownership_release_current ow tk ;; mret tt
  | OpReset => player_ownership_reset
  end.

(** The module after an operation; none of these operations blocks. *)
Definition own_after (op : OwnOp) (o : Ownership) : Ownership :=
  match run (own_op op) o with Some (_, o') => o' | None => o end.

Definition own_after_all (ops : list OwnOp) (o : Ownership) : Ownership :=
  foldl (fun o op => own_after op o) o ops.

(** Whether the operation uses up a generation. *)
Definition takes_generation (op : OwnOp) : bool :=
  match op with
  | OpClaim ow _ => negb (owner_eqb ow PLAYER_MEDIA_OWNER_NONE)
  | OpReset => true
  | _ => false
  end.

Definition generations_taken (ops : list OwnOp) : nat :=
  length (filter (fun op => Is_true (takes_generation op)) ops).

(** An owner's lease carries the generation handed out last. *)
Definition own_inv (o : Ownership) : Prop :=
  is_u32 (g_next_generation o) /\
  (owner (g_current o) <> PLAYER_MEDIA_OWNER_NONE ->
   generation (g_current o) = g_next_generation o /\ g_next_generation o <> 0).

(** What [player_ownership_validate] answers for the lease. *)
Definition lease_valid_at (l : PlayerOwnershipLease) (o : Ownership) : bool :=
  negb (owner_eqb (owner l) PLAYER_MEDIA_OWNER_NONE) && negb (generation l =? 0) &&
  lease_equal l (g_current o).

(** ** Lemmas *)

Lemma owner_eqb_spec a b : owner_eqb a b = true <-> a = b.
Proof. apply bool_decide_eq_true. Qed.

Lemma lease_equal_spec l l' : lease_equal l l' = true <-> l = l'.
Proof.
  unfold lease_equal. rewrite !andb_true_iff, owner_eqb_spec, !Z.eqb_eq.
  destruct l, l'; cbn. split; [by intros [[-> ->] ->] | by intros [= -> -> ->]].
Qed.

Lemma ownership_init_current o : g_current (ownership_init o) = g_current o.
Proof. unfold ownership_init. by case_match. Qed.

Lemma ownership_init_next o : g_next_generation (ownership_init o) = g_next_generation o.
Proof. unfold ownership_init. by case_match. Qed.

(** The [k]-th generation after [g]. *)
Lemma bump32_closed k g :
  1 <= g <= UINT32_MAX ->
  Nat.iter k bump32 g = (g - 1 + Z.of_nat k) `mod` UINT32_MAX + 1.
Proof.
  intros Hg. induction k as [|k IH]; cbn [Nat.iter nat_rect].
  all: try change (nat_rect _ g (fun _ => bump32) k) with (Nat.iter k bump32 g).
  - unfold UINT32_MAX in *. rewrite Z.mod_small; cbn; lia.
  - rewrite IH. clear IH. rewrite Nat2Z.inj_succ. set (z := g - 1 + Z.of_nat k).
    replace (g - 1 + Z.succ (Z.of_nat k)) with (z + 1) by lia.
    unfold bump32, u32, UINT32_MAX. cbv zeta.
    pose proof (Z.mod_pos_bound z 4294967295 ltac:(lia)) as Hz.
    rewrite (Z.add_mod z 1) by lia. change (1 `mod` 4294967295) with 1.
    generalize dependent (z `mod` 4294967295). intros r Hr.
    destruct (decide (r = 4294967294)) as [->|Hn]; [reflexivity|].
    rewrite (Z.mod_small (r + 1 + 1)), (Z.mod_small (r + 1)) by lia.
    destruct (Z.eqb_spec (r + 1 + 1) 0); lia.
Qed.

Lemma bump32_no_repeat k g :
  1 <= g <= UINT32_MAX -> Nat.iter k bump32 g = g -> Z.of_nat k < UINT32_MAX -> k = 0%nat.
Proof.
  intros Hg Hk Hlt. rewrite bump32_closed in Hk by done. unfold UINT32_MAX in *. lia.
Qed.

(** What each operation does to the two variables that matter. *)
Lemma own_after_spec op o :
  g_next_generation (own_after op o) =
    (if takes_generation op then bump32 (g_next_generation o) else g_next_generation o) /\
  g_current (own_after op o) =
    match op with
    | OpClaim ow tk =>
        if owner_eqb ow PLAYER_MEDIA_OWNER_NONE then g_current o
        else mkLease ow tk (bump32 (g_next_generation o))
    | OpRelease (Some l) => if lease_equal l (g_current o) then lease_zero else g_current o
    | OpRelease None => g_current o
    | OpReleaseCurrent ow tk =>
        if owner_eqb (owner (g_current o)) ow && (token (g_current o) =? tk)
        then lease_zero else g_current o
    | OpReset => lease_zero
    end.
Proof.
  unfold own_after; destruct op as [ow tk|[l|]|ow tk|]; cbn.
  - unfold player_ownership_claim. rewrite orb_false_r.
    destruct (owner_eqb ow PLAYER_MEDIA_OWNER_NONE); cbn; by rewrite ?ownership_init_next.
  - unfold release_locked. rewrite ownership_init_current. case_match; cbn;
      by rewrite ?ownership_init_next, ?ownership_init_current.
  - done.
  - unfold release_current_locked. rewrite ownership_init_current. case_match; cbn;
      by rewrite ?ownership_init_next, ?ownership_init_current.
  - unfold reset_locked, next_generation. cbn. by rewrite ownership_init_next.
Qed.

Lemma own_inv_after op o : own_inv o -> own_inv (own_after op o).
Proof.
  intros [Hr Hg]. destruct (own_after_spec op o) as [Hn Hc]. unfold own_inv.
  rewrite Hn, Hc. pose proof (bump32_range (g_next_generation o)).
  split; [destruct (takes_generation op); unfold is_u32 in *; lia |].
  destruct op as [ow tk|[l|]|ow tk|]; cbn in *; repeat case_match; cbn in *; try done;
    intros Ho; split; (done || lia || by apply Hg).
Qed.

Lemma own_after_all_app ops1 ops2 o :
  own_after_all (ops1 ++ ops2) o = own_after_all ops2 (own_after_all ops1 o).
Proof. apply foldl_app. Qed.

Lemma own_inv_after_all ops o : own_inv o -> own_inv (own_after_all ops o).
Proof.
  revert o. induction ops as [|op ops IH]; intros o Ho; [done|].
  apply IH. by apply own_inv_after.
Qed.

Lemma own_after_all_next ops o :
  g_next_generation (own_after_all ops o) =
  Nat.iter (generations_taken ops) bump32 (g_next_generation o).
Proof.
  revert o. induction ops as [|op ops IH]; intros o; [done|].
  cbn [own_after_all foldl]. fold (own_after_all ops (own_after op o)).
  rewrite IH, (proj1 (own_after_spec op o)). unfold generations_taken.
  rewrite filter_cons. destruct (takes_generation op) eqn:E.
  - rewrite decide_True by done. cbn [length]. by rewrite Nat.iter_succ_r.
  - rewrite decide_False; [done | by intros []].
Qed.

(** Without a claim or a reset the owner can only go away. *)
Lemma own_after_all_no_claim ops o :
  generations_taken ops = 0%nat ->
  g_current (own_after_all ops o) = g_current o \/
  g_current (own_after_all ops o) = lease_zero.
Proof.
  revert o. induction ops as [|op ops IH]; intros o; [by left|].
  unfold generations_taken. rewrite filter_cons. case_decide as E; [done|]. intros Hk.
  cbn [own_after_all foldl]. fold (own_after_all ops (own_after op o)).
  destruct (IH (own_after op o) Hk) as [->| ->]; [|by right].
  rewrite (proj2 (own_after_spec op o)).
  destruct op as [ow tk|[l|]|ow tk|]; cbn in *; repeat case_match; auto; by destruct E.
Qed.


Lemma lease_valid_at_current l o : lease_valid_at l o = true -> g_current o = l.
Proof.
  unfold lease_valid_at. intros H. bool_cases.
  match goal with H : lease_equal _ _ = true |- _ => by apply lease_equal_spec in H end.
Qed.

Lemma validate_run l o :
  exists o', run (player_ownership_validate (Some l)) o = Some (lease_valid_at l o, o') /\
    g_current o' = g_current o.
Proof.
  unfold lease_valid_at. cbn.
  destruct (owner_eqb (owner l) PLAYER_MEDIA_OWNER_NONE || (generation l =? 0)) eqn:E; cbn.
  - apply orb_true_iff in E as [E|E]; rewrite E; cbn; eexists; split; try done.
    by rewrite andb_false_r.
  - apply orb_false_iff in E as [-> ->]. cbn. eexists. split; [|by rewrite ownership_init_current].
    by rewrite ownership_init_current.
Qed.

(** ** Properties *)

(** a claim with a real owner succeeds from any state: it returns the
    displaced lease, and the new lease, for the asked owner and token and with
    a non-zero generation, validates at once while the displaced one does not. *)
Theorem claim_then_validate (ow : PlayerMediaOwner) (tk : Z) (o : Ownership)
    (Hinv : own_inv o) (Hreal : ow <> PLAYER_MEDIA_OWNER_NONE) :
  exists l o',
    run (player_ownership_claim ow tk true) o = Some (Some (l, g_current o), o') /\
    owner l = ow /\ token l = tk /\ 1 <= generation l <= UINT32_MAX /\
    lease_valid_at l o' = true /\
    lease_valid_at (g_current o) o' = false /\
    own_inv o'.
Proof.
  unfold player_ownership_claim.
  assert (Hn : owner_eqb ow PLAYER_MEDIA_OWNER_NONE = false)
    by (apply not_true_iff_false; by rewrite owner_eqb_spec).
  rewrite Hn. cbn. unfold claim_locked, next_generation. cbn.
  rewrite ownership_init_current, ownership_init_next.
  pose proof (bump32_range (g_next_generation o)) as Hb.
  eexists _, _. split; [done|]. rsimpl. split_and!; try (done || lia).
  - unfold lease_valid_at. cbn. rewrite Hn.
    destruct (Z.eqb_spec (bump32 (g_next_generation o)) 0); [lia|]. by apply lease_equal_spec.
  - apply not_true_iff_false. intros Hv. pose proof (lease_valid_at_current _ _ Hv) as Hc.
    cbn in Hc. destruct Hinv as [Hr Hi]. rewrite <- Hc in Hi. destruct (Hi Hreal) as [Hg _].
    cbn in Hg. by apply bump32_neq in Hg.
  - split; cbn; [unfold is_u32; lia|]. intros _. split; [done|lia].
Qed.

Lemma claim_then_validate_witness :
  exists l o',
    run (player_ownership_claim PLAYER_MEDIA_OWNER_DLNA 7 true)
      (mkOwnership (mkLease PLAYER_MEDIA_OWNER_IPTV 3 UINT32_MAX) UINT32_MAX true false) =
      Some (Some (l, mkLease PLAYER_MEDIA_OWNER_IPTV 3 UINT32_MAX), o') /\
    owner l = PLAYER_MEDIA_OWNER_DLNA /\ token l = 7 /\ 1 <= generation l <= UINT32_MAX /\
    lease_valid_at l o' = true /\
    lease_valid_at (mkLease PLAYER_MEDIA_OWNER_IPTV 3 UINT32_MAX) o' = false /\
    own_inv o'.
Proof.
  apply (claim_then_validate PLAYER_MEDIA_OWNER_DLNA 7
    (mkOwnership (mkLease PLAYER_MEDIA_OWNER_IPTV 3 UINT32_MAX) UINT32_MAX true false)).
  - split; [unfold is_u32, UINT32_MAX; cbn; lia | intros _; cbn; split; [reflexivity|]].
    unfold UINT32_MAX; lia.
  - discriminate.
Defined.

(** C8: a lease that stopped being valid never validates again, whatever claims,
    releases and resets follow, as long as fewer than 2^32 - 1 generations are
    handed out in between: neither a release nor a claim with the same owner
    and token revives it. *)
Theorem stale_lease_never_revives (l : PlayerOwnershipLease) (o : Ownership)
    (op : OwnOp) (ops : list OwnOp)
    (Hinv : own_inv o) (Hvalid : lease_valid_at l o = true)
    (Hstale : lease_valid_at l (own_after op o) = false)
    (Hfew : Z.of_nat (generations_taken (op :: ops)) < UINT32_MAX) :
  forall o', run (player_ownership_validate (Some l)) (own_after_all (op :: ops) o)
               <> Some (true, o').
Proof.
  intros o' Hrun. destruct (validate_run l (own_after_all (op :: ops) o)) as (o2 & Hv & _).
  rewrite Hv in Hrun. injection Hrun as Hre _.
  pose proof (lease_valid_at_current _ _ Hvalid) as Hcur.
  assert (Hcur' : g_current (own_after_all (op :: ops) o) = l)
    by by apply lease_valid_at_current.
  assert (Hown : owner l <> PLAYER_MEDIA_OWNER_NONE).
  { unfold lease_valid_at in Hvalid. bool_cases. intros Heq.
    match goal with H : owner_eqb _ _ = false |- _ => rewrite Heq in H end. done. }
  pose proof (own_inv_after_all (op :: ops) o Hinv) as [_ Hi'].
  rewrite Hcur' in Hi'. destruct (Hi' Hown) as [Hg' _].
  destruct Hinv as [Hr Hi]. rewrite Hcur in Hi. destruct (Hi Hown) as [Hg Hnz].
  rewrite own_after_all_next in Hg'.
  assert (Hk : generations_taken (op :: ops) = 0%nat).
  { apply (bump32_no_repeat _ (g_next_generation o)); [unfold is_u32 in Hr; lia | congruence | done]. }
  assert (Hstep : g_current (own_after op o) = lease_zero).
  { unfold generations_taken in Hk. rewrite filter_cons in Hk. case_decide as E; [done|].
    destruct (own_after_all_no_claim [op] o) as [Hsame|Hz].
    - unfold generations_taken. rewrite filter_cons, decide_False by done. done.
    - exfalso. unfold lease_valid_at in Hvalid, Hstale. cbn in Hsame. rewrite Hsame in Hstale.
      rewrite Hstale in Hvalid. done.
    - done. }
  assert (Hk2 : generations_taken ops = 0%nat).
  { unfold generations_taken in *. rewrite filter_cons in Hk. by case_decide. }
  change (own_after_all (op :: ops) o) with (own_after_all ops (own_after op o)) in Hcur'.
  destruct (own_after_all_no_claim ops (own_after op o) Hk2) as [H|H];
    rewrite H in Hcur'; [rewrite Hstep in Hcur'|]; by rewrite <- Hcur' in Hown.
Qed.

Lemma stale_lease_never_revives_witness :
  lease_valid_at (mkLease PLAYER_MEDIA_OWNER_DLNA 7 5)
    (mkOwnership (mkLease PLAYER_MEDIA_OWNER_DLNA 7 5) 5 true false) = true /\
  forall o',
    run (player_ownership_validate (Some (mkLease PLAYER_MEDIA_OWNER_DLNA 7 5)))
      (own_after_all [OpRelease (Some (mkLease PLAYER_MEDIA_OWNER_DLNA 7 5));
                      OpClaim PLAYER_MEDIA_OWNER_DLNA 7]
        (mkOwnership (mkLease PLAYER_MEDIA_OWNER_DLNA 7 5) 5 true false)) <> Some (true, o').
Proof.
  split; [reflexivity|].
  apply (stale_lease_never_revives (mkLease PLAYER_MEDIA_OWNER_DLNA 7 5)
    (mkOwnership (mkLease PLAYER_MEDIA_OWNER_DLNA 7 5) 5 true false)
    (OpRelease (Some (mkLease PLAYER_MEDIA_OWNER_DLNA 7 5))) [OpClaim PLAYER_MEDIA_OWNER_DLNA 7]).
  - split; [unfold is_u32, UINT32_MAX; cbn; lia | intros _; cbn; split; [reflexivity | lia]].
  - reflexivity.
  - reflexivity.
  - vm_compute. reflexivity.
Defined.
