(* ===== verification/MediaSession.v ===== *)
(** * Protocol media session (app/protocol_media_session.c)

    The lifecycle of the media one lease owns, driven by lease-tagged events. *)

From S2P Require Import Prelude Ownership.

(* src: source/app/protocol_media_session.h ProtocolMediaSessionLifecycle *)
Inductive ProtocolMediaSessionLifecycle :=
| PROTOCOL_MEDIA_SESSION_IDLE
| PROTOCOL_MEDIA_SESSION_PREPARING
| PROTOCOL_MEDIA_SESSION_LOADING
| PROTOCOL_MEDIA_SESSION_ACTIVE
| PROTOCOL_MEDIA_SESSION_STOPPING
| PROTOCOL_MEDIA_SESSION_FAILED.

(* src: source/app/protocol_media_session.h ProtocolMediaPlaybackState *)
Inductive ProtocolMediaPlaybackState :=
| PROTOCOL_MEDIA_PLAYBACK_UNKNOWN
| PROTOCOL_MEDIA_PLAYBACK_PLAYING
| PROTOCOL_MEDIA_PLAYBACK_PAUSED.

(* src: source/app/protocol_media_session.h ProtocolMediaControlState *)
Inductive ProtocolMediaControlState :=
| PROTOCOL_MEDIA_CONTROL_UNKNOWN
| PROTOCOL_MEDIA_CONTROL_ATTACHED
| PROTOCOL_MEDIA_CONTROL_DETACHED.

(* src: source/app/protocol_media_session.h ProtocolMediaEventKind *)
Inductive ProtocolMediaEventKind :=
| PROTOCOL_MEDIA_EVENT_CLAIMED
| PROTOCOL_MEDIA_EVENT_LOAD_REQUESTED
| PROTOCOL_MEDIA_EVENT_ACTIVE
| PROTOCOL_MEDIA_EVENT_PLAYING
| PROTOCOL_MEDIA_EVENT_PAUSED
| PROTOCOL_MEDIA_EVENT_CONTROL_ATTACHED
| PROTOCOL_MEDIA_EVENT_CONTROL_DETACHED
| PROTOCOL_MEDIA_EVENT_STOP_REQUESTED
| PROTOCOL_MEDIA_EVENT_ENDED
| PROTOCOL_MEDIA_EVENT_FAILED
| PROTOCOL_MEDIA_EVENT_RELEASED
| PROTOCOL_MEDIA_EVENT_RESET.

(* src: source/app/protocol_media_session.h ProtocolMediaTransitionStatus *)
Inductive ProtocolMediaTransitionStatus :=
| PROTOCOL_MEDIA_TRANSITION_APPLIED
| PROTOCOL_MEDIA_TRANSITION_NO_CHANGE
| PROTOCOL_MEDIA_TRANSITION_STALE
| PROTOCOL_MEDIA_TRANSITION_INVALID.

#[export] Instance lifecycle_eq_dec : EqDecision ProtocolMediaSessionLifecycle.
Proof. solve_decision. Defined.
#[export] Instance playback_eq_dec : EqDecision ProtocolMediaPlaybackState.
Proof. solve_decision. Defined.
#[export] Instance control_eq_dec : EqDecision ProtocolMediaControlState.
Proof. solve_decision. Defined.
#[export] Instance event_kind_eq_dec : EqDecision ProtocolMediaEventKind.
Proof. solve_decision. Defined.
#[export] Instance transition_status_eq_dec : EqDecision ProtocolMediaTransitionStatus.
Proof. solve_decision. Defined.

(* src: source/app/protocol_media_session.h ProtocolMediaEvent *)
Record ProtocolMediaEvent := mkEvent {
  kind : ProtocolMediaEventKind;
  event_lease : PlayerOwnershipLease
}.

(* src: source/app/protocol_media_session.h ProtocolMediaSessionSnapshot *)
Record ProtocolMediaSessionSnapshot := mkSession {
  lease : PlayerOwnershipLease;
  lifecycle : ProtocolMediaSessionLifecycle;
  playback : ProtocolMediaPlaybackState;
  control : ProtocolMediaControlState;
  session_revision : Z
}.
#[export] Instance eta_session : Eta ProtocolMediaSessionSnapshot := fun s =>
  mkSession (lease s) (lifecycle s) (playback s) (control s) (session_revision s).

Definition session_zero : ProtocolMediaSessionSnapshot :=
  mkSession lease_zero PROTOCOL_MEDIA_SESSION_IDLE PROTOCOL_MEDIA_PLAYBACK_UNKNOWN
    PROTOCOL_MEDIA_CONTROL_UNKNOWN 0.

(** ** Operations *)

(* src: source/app/protocol_media_session.c lease_valid *)
Definition lease_valid (l : PlayerOwnershipLease) : bool :=
  negb (owner_eqb (owner l) PLAYER_MEDIA_OWNER_NONE) && negb (generation l =? 0).

(* src: source/app/protocol_media_session.c lease_equal *)
Definition session_lease_equal (left right : PlayerOwnershipLease) : bool :=
  owner_eqb (owner left) (owner right) && (token left =? token right) &&
  (generation left =? generation right).

(* src: source/app/protocol_media_session.c generation_newer *)
Definition generation_newer (candidate current : Z) : bool :=
  0 <? i32 (candidate - current).

(* src: source/app/protocol_media_session.c bump_revision *)
Definition bump_revision (s : ProtocolMediaSessionSnapshot) : ProtocolMediaSessionSnapshot :=
  { s with session_revision ::= bump32 }.

(* src: source/app/protocol_media_session.c apply_claim *)
Definition apply_claim (s : ProtocolMediaSessionSnapshot) (l : PlayerOwnershipLease)
    : ProtocolMediaTransitionStatus * ProtocolMediaSessionSnapshot :=
  if negb (lease_valid l) then (PROTOCOL_MEDIA_TRANSITION_INVALID, s)
  else if session_lease_equal (lease s) l then (PROTOCOL_MEDIA_TRANSITION_NO_CHANGE, s)
  else if negb (generation (lease s) =? 0) &&
          negb (generation_newer (generation l) (generation (lease s)))
  then (PROTOCOL_MEDIA_TRANSITION_STALE, s)
  else
    (PROTOCOL_MEDIA_TRANSITION_APPLIED,
     bump_revision
       { s with lease := l;
                lifecycle := PROTOCOL_MEDIA_SESSION_PREPARING;
                playback := PROTOCOL_MEDIA_PLAYBACK_UNKNOWN;
                control := PROTOCOL_MEDIA_CONTROL_UNKNOWN }).

(* src: source/app/protocol_media_session.c apply_reset *)
Definition apply_reset (s : ProtocolMediaSessionSnapshot)
    : ProtocolMediaTransitionStatus * ProtocolMediaSessionSnapshot :=
  if bool_decide (lifecycle s = PROTOCOL_MEDIA_SESSION_IDLE) &&
     owner_eqb (owner (lease s)) PLAYER_MEDIA_OWNER_NONE
  then (PROTOCOL_MEDIA_TRANSITION_NO_CHANGE, s)
  else
    (PROTOCOL_MEDIA_TRANSITION_APPLIED,
     bump_revision { session_zero with session_revision := session_revision s }).

(** [memset] of the session to zero; the argument is the old contents. *)
(* src: source/app/protocol_media_session.c protocol_media_session_init *)
Definition protocol_media_session_init (_ : ProtocolMediaSessionSnapshot)
    : ProtocolMediaSessionSnapshot :=
  { session_zero with lifecycle := PROTOCOL_MEDIA_SESSION_IDLE }.

Definition lifecycle_in (s : ProtocolMediaSessionSnapshot)
    (l : list ProtocolMediaSessionLifecycle) : bool := bool_decide (lifecycle s ∈ l).

(** The tail of the switch: nothing to report, or a new revision. *)
(* src: source/app/protocol_media_session.c 159-162 protocol_media_session_transition *)
Definition finish_transition (changed : bool) (s' : ProtocolMediaSessionSnapshot)
    : ProtocolMediaTransitionStatus * ProtocolMediaSessionSnapshot :=
  if negb changed then (PROTOCOL_MEDIA_TRANSITION_NO_CHANGE, s')
  else (PROTOCOL_MEDIA_TRANSITION_APPLIED, bump_revision s').

(** The events accepted only for the session's own lease. *)
(* src: source/app/protocol_media_session.c 89-162 protocol_media_session_transition *)
Definition lease_transition (s : ProtocolMediaSessionSnapshot) (k : ProtocolMediaEventKind)
    : ProtocolMediaTransitionStatus * ProtocolMediaSessionSnapshot :=
  let ended := lifecycle_in s [PROTOCOL_MEDIA_SESSION_STOPPING; PROTOCOL_MEDIA_SESSION_FAILED] in
  let invalid := (PROTOCOL_MEDIA_TRANSITION_INVALID, s) in
  match k with
  | PROTOCOL_MEDIA_EVENT_LOAD_REQUESTED =>
      if ended then invalid
      else finish_transition
        (bool_decide (lifecycle s <> PROTOCOL_MEDIA_SESSION_LOADING) ||
         bool_decide (playback s <> PROTOCOL_MEDIA_PLAYBACK_UNKNOWN))
        { s with lifecycle := PROTOCOL_MEDIA_SESSION_LOADING;
                 playback := PROTOCOL_MEDIA_PLAYBACK_UNKNOWN }
  | PROTOCOL_MEDIA_EVENT_ACTIVE =>
      if ended then invalid
      else finish_transition
        (bool_decide (lifecycle s <> PROTOCOL_MEDIA_SESSION_ACTIVE))
        { s with lifecycle := PROTOCOL_MEDIA_SESSION_ACTIVE }
  | PROTOCOL_MEDIA_EVENT_PLAYING =>
      if ended then invalid
      else finish_transition
        (bool_decide (lifecycle s <> PROTOCOL_MEDIA_SESSION_ACTIVE) ||
         bool_decide (playback s <> PROTOCOL_MEDIA_PLAYBACK_PLAYING))
        { s with lifecycle := PROTOCOL_MEDIA_SESSION_ACTIVE;
                 playback := PROTOCOL_MEDIA_PLAYBACK_PLAYING }
  | PROTOCOL_MEDIA_EVENT_PAUSED =>
      if ended then invalid
      else finish_transition
        (bool_decide (lifecycle s <> PROTOCOL_MEDIA_SESSION_ACTIVE) ||
         bool_decide (playback s <> PROTOCOL_MEDIA_PLAYBACK_PAUSED))
        { s with lifecycle := PROTOCOL_MEDIA_SESSION_ACTIVE;
                 playback := PROTOCOL_MEDIA_PLAYBACK_PAUSED }
  | PROTOCOL_MEDIA_EVENT_CONTROL_ATTACHED
  | PROTOCOL_MEDIA_EVENT_CONTROL_DETACHED =>
      let c := if decide (k = PROTOCOL_MEDIA_EVENT_CONTROL_ATTACHED)
               then PROTOCOL_MEDIA_CONTROL_ATTACHED
               else PROTOCOL_MEDIA_CONTROL_DETACHED in
      if ended then invalid
      else finish_transition (bool_decide (control s <> c)) { s with control := c }
  | PROTOCOL_MEDIA_EVENT_STOP_REQUESTED
  | PROTOCOL_MEDIA_EVENT_ENDED =>
      finish_transition (bool_decide (lifecycle s <> PROTOCOL_MEDIA_SESSION_STOPPING))
        { s with lifecycle := PROTOCOL_MEDIA_SESSION_STOPPING }
  | PROTOCOL_MEDIA_EVENT_FAILED =>
      if lifecycle_in s [PROTOCOL_MEDIA_SESSION_STOPPING] then invalid
      else finish_transition (bool_decide (lifecycle s <> PROTOCOL_MEDIA_SESSION_FAILED))
        { s with lifecycle := PROTOCOL_MEDIA_SESSION_FAILED }
  | PROTOCOL_MEDIA_EVENT_RELEASED => apply_reset s
  | PROTOCOL_MEDIA_EVENT_CLAIMED
  | PROTOCOL_MEDIA_EVENT_RESET => invalid
  end.

(** A NULL session cannot be updated, so it is not a case of this function; a
    NULL event is [None]. *)
(* src: source/app/protocol_media_session.c protocol_media_session_transition *)
Definition protocol_media_session_transition
    (s : ProtocolMediaSessionSnapshot) (event : option ProtocolMediaEvent)
    : ProtocolMediaTransitionStatus * ProtocolMediaSessionSnapshot :=
  match event with
  | None => (PROTOCOL_MEDIA_TRANSITION_INVALID, s)
  | Some e =>
      if decide (kind e = PROTOCOL_MEDIA_EVENT_RESET) then apply_reset s
      else if decide (kind e = PROTOCOL_MEDIA_EVENT_CLAIMED) then apply_claim s (event_lease e)
      else if negb (lease_valid (event_lease e)) ||
              negb (session_lease_equal (lease s) (event_lease e))
      then (PROTOCOL_MEDIA_TRANSITION_STALE, s)
      else lease_transition s (kind e)
  end.

(* src: source/app/protocol_media_session.c protocol_media_session_lifecycle_name *)
Definition protocol_media_session_lifecycle_name (l : ProtocolMediaSessionLifecycle) : string :=
  match l with
  | PROTOCOL_MEDIA_SESSION_IDLE => "idle"
  | PROTOCOL_MEDIA_SESSION_PREPARING => "preparing"
  | PROTOCOL_MEDIA_SESSION_LOADING => "loading"
  | PROTOCOL_MEDIA_SESSION_ACTIVE => "active"
  | PROTOCOL_MEDIA_SESSION_STOPPING => "stopping"
  | PROTOCOL_MEDIA_SESSION_FAILED => "failed"
  end.

(* src: source/app/protocol_media_session.c protocol_media_transition_status_name *)
Definition protocol_media_transition_status_name (s : ProtocolMediaTransitionStatus) : string :=
  match s with
  | PROTOCOL_MEDIA_TRANSITION_APPLIED => "applied"
  | PROTOCOL_MEDIA_TRANSITION_NO_CHANGE => "no-change"
  | PROTOCOL_MEDIA_TRANSITION_STALE => "stale"
  | PROTOCOL_MEDIA_TRANSITION_INVALID => "invalid"
  end.

(* src: source/app/protocol_media_session.c protocol_media_playback_state_name *)
Definition protocol_media_playback_state_name (p : ProtocolMediaPlaybackState) : string :=
  match p with
  | PROTOCOL_MEDIA_PLAYBACK_UNKNOWN => "unknown"
  | PROTOCOL_MEDIA_PLAYBACK_PLAYING => "playing"
  | PROTOCOL_MEDIA_PLAYBACK_PAUSED => "paused"
  end.

(* src: source/app/protocol_media_session.c protocol_media_control_state_name *)
Definition protocol_media_control_state_name (c : ProtocolMediaControlState) : string :=
  match c with
  | PROTOCOL_MEDIA_CONTROL_UNKNOWN => "unknown"
  | PROTOCOL_MEDIA_CONTROL_ATTACHED => "attached"
  | PROTOCOL_MEDIA_CONTROL_DETACHED => "detached"
  end.

(** ** Well-formed sessions *)

(** IDLE exactly when there is no owner; a zeroed lease then; an owner's lease
    has a generation; playback is known only once the media was active. *)
Record session_wf (s : ProtocolMediaSessionSnapshot) : Prop := {
  wf_idle : lifecycle s = PROTOCOL_MEDIA_SESSION_IDLE <->
            owner (lease s) = PLAYER_MEDIA_OWNER_NONE;
  wf_zero : owner (lease s) = PLAYER_MEDIA_OWNER_NONE ->
            lease s = lease_zero /\ control s = PROTOCOL_MEDIA_CONTROL_UNKNOWN;
  wf_generation : owner (lease s) <> PLAYER_MEDIA_OWNER_NONE -> generation (lease s) <> 0;
  wf_playback : playback s <> PROTOCOL_MEDIA_PLAYBACK_UNKNOWN ->
                lifecycle s ∈ [PROTOCOL_MEDIA_SESSION_ACTIVE; PROTOCOL_MEDIA_SESSION_STOPPING;
                               PROTOCOL_MEDIA_SESSION_FAILED]
}.

(** The session without its revision: what an observer compares. *)
Definition session_content (s : ProtocolMediaSessionSnapshot) :=
  (lease s, lifecycle s, playback s, control s).

(** The session after a sequence of events. *)
Definition session_after (s : ProtocolMediaSessionSnapshot) (events : list ProtocolMediaEvent)
    : ProtocolMediaSessionSnapshot :=
  foldl (fun s e => (protocol_media_session_transition s (Some e)).2) s events.

(** An event that neither hands the session over nor gives it back. *)
Definition keeps_lease (e : ProtocolMediaEvent) : Prop :=
  kind e <> PROTOCOL_MEDIA_EVENT_CLAIMED /\ kind e <> PROTOCOL_MEDIA_EVENT_RELEASED /\
  kind e <> PROTOCOL_MEDIA_EVENT_RESET.

(** ** Lemmas *)

Lemma owner_eqb_eq a b : owner_eqb a b = true <-> a = b.
Proof. apply bool_decide_eq_true. Qed.

Lemma session_lease_equal_eq l l' : session_lease_equal l l' = true <-> l = l'.
Proof.
  unfold session_lease_equal. rewrite !andb_true_iff, owner_eqb_eq, !Z.eqb_eq.
  destruct l, l'; cbn. split; [by intros [[-> ->] ->] | by intros [= -> -> ->]].
Qed.

Lemma lease_valid_spec l :
  lease_valid l = true <-> owner l <> PLAYER_MEDIA_OWNER_NONE /\ generation l <> 0.
Proof.
  unfold lease_valid. rewrite andb_true_iff, !negb_true_iff, Z.eqb_neq.
  unfold owner_eqb. by rewrite bool_decide_eq_false.
Qed.

Lemma session_zero_wf : session_wf session_zero.
Proof. split; cbn; naive_solver. Qed.

Lemma bump_revision_wf s : session_wf s -> session_wf (bump_revision s).
Proof. by intros []. Qed.

(** What a transition may do: report APPLIED with a new revision and other
    contents, or report something else and change nothing. *)
Definition honest_step (s : ProtocolMediaSessionSnapshot)
    (r : ProtocolMediaTransitionStatus * ProtocolMediaSessionSnapshot) : Prop :=
  (r.1 = PROTOCOL_MEDIA_TRANSITION_APPLIED /\
   session_revision r.2 = bump32 (session_revision s) /\
   session_content r.2 <> session_content s) \/
  (r.1 <> PROTOCOL_MEDIA_TRANSITION_APPLIED /\ r.2 = s).

Lemma finish_honest changed s s' :
  (changed = true -> session_content s' <> session_content s) ->
  (changed = false -> s' = s) ->
  session_revision s' = session_revision s ->
  honest_step s (finish_transition changed s').
Proof.
  unfold finish_transition, honest_step. destruct changed; cbn; intros Ht Hf Hr.
  - left. split_and!; [done | by rewrite Hr | by apply Ht].
  - right. split; [done | by apply Hf].
Qed.

Lemma reset_honest s : honest_step s (apply_reset s).
Proof.
  unfold apply_reset. case_match eqn:E; [by right|].
  left. split_and!; [done.. |]. unfold session_content; cbn. intros [= Hl Hc _ _].
  rewrite <- Hl, <- Hc in E. by vm_compute in E.
Qed.

Lemma claim_honest s l : honest_step s (apply_claim s l).
Proof.
  unfold apply_claim. case_match; [by right|]. case_match eqn:E; [by right|].
  case_match; [by right|]. left. split_and!; [done.. |].
  unfold session_content; cbn. intros [= Hl _ _ _].
  assert (session_lease_equal (lease s) l = true) by by apply session_lease_equal_eq.
  congruence.
Qed.

Lemma lease_transition_honest s k : honest_step s (lease_transition s k).
Proof.
  destruct k; try apply reset_honest; try by right.
  all: destruct s as [l lc pb ct rev]; destruct lc, pb, ct; cbn.
  all: try (by right).
  all: by apply finish_honest.
Qed.

Lemma transition_honest s e : honest_step s (protocol_media_session_transition s e).
Proof.
  unfold protocol_media_session_transition. destruct e as [e|]; [|by right].
  repeat case_decide; [apply reset_honest | apply claim_honest |].
  case_match; [by right | apply lease_transition_honest].
Qed.

Lemma reset_wf s : session_wf s -> session_wf (apply_reset s).2.
Proof.
  intros Hs. unfold apply_reset. case_match; [done|]. cbn. apply bump_revision_wf.
  split; cbn; naive_solver.
Qed.

Lemma claim_wf s l : session_wf s -> session_wf (apply_claim s l).2.
Proof.
  intros Hs. unfold apply_claim. destruct (lease_valid l) eqn:Hl; [|done]. cbn.
  do 2 (case_match; [done|]). cbn. apply bump_revision_wf.
  apply lease_valid_spec in Hl as [? ?]. split; cbn; naive_solver.
Qed.

(** Updates of an owned session that keep its lease. *)
Lemma owned_update_wf s lc pb ct rev :
  session_wf s -> owner (lease s) <> PLAYER_MEDIA_OWNER_NONE ->
  lc <> PROTOCOL_MEDIA_SESSION_IDLE ->
  (pb <> PROTOCOL_MEDIA_PLAYBACK_UNKNOWN ->
   lc ∈ [PROTOCOL_MEDIA_SESSION_ACTIVE; PROTOCOL_MEDIA_SESSION_STOPPING;
         PROTOCOL_MEDIA_SESSION_FAILED]) ->
  session_wf (mkSession (lease s) lc pb ct rev).
Proof. intros [Hi Hz Hg Hp] Ho Hl Hpb. by split; cbn. Qed.

Lemma finish_wf changed s : session_wf s -> session_wf (finish_transition changed s).2.
Proof. unfold finish_transition. by destruct changed; [apply bump_revision_wf |]. Qed.

Lemma lease_transition_wf s k :
  session_wf s -> owner (lease s) <> PLAYER_MEDIA_OWNER_NONE ->
  session_wf (lease_transition s k).2.
Proof.
  intros Hs Ho.
  assert (Hl : lifecycle s <> PROTOCOL_MEDIA_SESSION_IDLE) by (by rewrite (wf_idle _ Hs)).
  pose proof (wf_playback _ Hs) as Hp.
  unfold lease_transition; cbv zeta; destruct k; try done; try (case_match; [done|]);
    try (apply finish_wf; unfold upd; cbn; apply owned_update_wf; [done.. |];
      first [exact Hp | by intros [] | intros _; rewrite !elem_of_cons; by auto]).
  by apply reset_wf.
Qed.

(** Every transition of a well-formed session gives a well-formed session. *)
Lemma transition_wf s e : session_wf s -> session_wf (protocol_media_session_transition s e).2.
Proof.
  intros Hs. unfold protocol_media_session_transition. destruct e as [e|]; [|done].
  repeat case_decide; [by apply reset_wf | by apply claim_wf |].
  case_match eqn:Hc; [done|]. apply orb_false_iff in Hc as [Hv He].
  apply negb_false_iff in Hv, He. apply lease_valid_spec in Hv as [Ho _].
  apply session_lease_equal_eq in He. apply lease_transition_wf; congruence.
Qed.

Lemma session_after_cons s e events :
  session_after s (e :: events) =
  session_after (protocol_media_session_transition s (Some e)).2 events.
Proof. done. Qed.

Lemma session_after_wf s events : session_wf s -> session_wf (session_after s events).
Proof.
  revert s. induction events as [|e events IH]; intros s Hs; [done|].
  rewrite session_after_cons. by apply IH, transition_wf.
Qed.

Lemma stopping_step s e :
  lifecycle s = PROTOCOL_MEDIA_SESSION_STOPPING -> keeps_lease e ->
  (protocol_media_session_transition s (Some e)).2 = s.
Proof.
  intros Hl (Hc & Hr & Hs). unfold protocol_media_session_transition.
  repeat (case_decide; [done|]). case_match; [done|].
  destruct e as [k el]; cbn in *. destruct s as [l lc pb ct rev]; cbn in *; subst lc.
  by destruct k, pb, ct.
Qed.

(** ** Properties *)

(** C11: Starting from an initialised session, every sequence of events leaves the
    session well formed: it is IDLE exactly when no lease owns it, an idle
    session has a zeroed lease and control state, an owner's lease has a nonzero
    generation, and a playback state is only known once the media was active. *)
Theorem session_reachable_wf junk events :
  session_wf (session_after (protocol_media_session_init junk) events).
Proof. apply session_after_wf, session_zero_wf. Qed.

(** The status a transition returns is honest: APPLIED comes with a new nonzero
    revision and with contents an observer can tell apart, and any other status
    (no change, stale, invalid) leaves the whole session untouched. *)
Theorem session_transition_honest s event st s' :
  protocol_media_session_transition s event = (st, s') ->
  (st = PROTOCOL_MEDIA_TRANSITION_APPLIED <-> session_content s' <> session_content s) /\
  (st = PROTOCOL_MEDIA_TRANSITION_APPLIED ->
   session_revision s' = bump32 (session_revision s) /\ session_revision s' <> 0) /\
  (st <> PROTOCOL_MEDIA_TRANSITION_APPLIED -> s' = s).
Proof.
  intros Ht. pose proof (transition_honest s event) as Hh. rewrite Ht in Hh.
  unfold honest_step in Hh; cbn in Hh. destruct Hh as [(-> & Hr & Hc)|[Hst ->]].
  - split_and!; [done | intros _; rewrite Hr; auto with nx | done].
  - by split_and!.
Qed.

Lemma session_transition_honest_witness :
  let e := Some (mkEvent PROTOCOL_MEDIA_EVENT_CLAIMED (mkLease PLAYER_MEDIA_OWNER_DLNA 7 1)) in
  let r := protocol_media_session_transition session_zero e in
  (r.1 = PROTOCOL_MEDIA_TRANSITION_APPLIED <-> session_content r.2 <> session_content session_zero) /\
  (r.1 = PROTOCOL_MEDIA_TRANSITION_APPLIED ->
   session_revision r.2 = bump32 (session_revision session_zero) /\ session_revision r.2 <> 0) /\
  (r.1 <> PROTOCOL_MEDIA_TRANSITION_APPLIED -> r.2 = session_zero).
Proof.
  intros e r. apply (session_transition_honest session_zero e r.1 r.2). reflexivity.
Defined.

(** A session told to stop stays stopped: after STOPPING no sequence of load,
    play, pause, control, failure or further stop events, of any lease, changes
    anything; only releasing the lease, a newer claim or a reset ends it. *)
Theorem session_stopping_is_final s events :
  lifecycle s = PROTOCOL_MEDIA_SESSION_STOPPING -> Forall keeps_lease events ->
  session_after s events = s.
Proof.
  intros Hl Hk. induction Hk as [|e events He _ IH]; [done|].
  by rewrite session_after_cons, (stopping_step s e).
Qed.

Lemma session_stopping_is_final_witness :
  let l := mkLease PLAYER_MEDIA_OWNER_IPTV 3 9 in
  let s := mkSession l PROTOCOL_MEDIA_SESSION_STOPPING PROTOCOL_MEDIA_PLAYBACK_PLAYING
             PROTOCOL_MEDIA_CONTROL_UNKNOWN 5 in
  session_after s [mkEvent PROTOCOL_MEDIA_EVENT_PLAYING l;
                   mkEvent PROTOCOL_MEDIA_EVENT_FAILED l] = s.
Proof.
  intros l s. apply session_stopping_is_final; [reflexivity |].
  repeat constructor; discriminate.
Defined.

(** Events are lease tagged: an event that carries any lease but the session's
    own is rejected as stale and changes nothing, except a claim whose
    generation is newer and the coordinator's own reset. *)
Theorem session_foreign_event_rejected s e :
  event_lease e <> lease s -> kind e <> PROTOCOL_MEDIA_EVENT_RESET ->
  (kind e = PROTOCOL_MEDIA_EVENT_CLAIMED ->
   generation (lease s) <> 0 /\
   generation_newer (generation (event_lease e)) (generation (lease s)) = false) ->
  (protocol_media_session_transition s (Some e)).2 = s /\
  ((protocol_media_session_transition s (Some e)).1 = PROTOCOL_MEDIA_TRANSITION_STALE \/
   lease_valid (event_lease e) = false).
Proof.
  intros Hl Hr Hc. unfold protocol_media_session_transition. rewrite decide_False by done.
  assert (Hne : session_lease_equal (lease s) (event_lease e) = false).
  { apply not_true_is_false. rewrite session_lease_equal_eq. congruence. }
  case_decide as Hk.
  - destruct (Hc Hk) as [Hg Hn]. unfold apply_claim.
    destruct (lease_valid _); cbn; [|by auto].
    rewrite Hne, Hn, (proj2 (Z.eqb_neq _ _) Hg); cbn. by auto.
  - rewrite Hne, orb_true_r. by auto.
Qed.

Lemma session_foreign_event_rejected_witness :
  let s := (apply_claim session_zero (mkLease PLAYER_MEDIA_OWNER_DLNA 1 4)).2 in
  let e := mkEvent PROTOCOL_MEDIA_EVENT_CLAIMED (mkLease PLAYER_MEDIA_OWNER_IPTV 2 3) in
  (protocol_media_session_transition s (Some e)).2 = s /\
  ((protocol_media_session_transition s (Some e)).1 = PROTOCOL_MEDIA_TRANSITION_STALE \/
   lease_valid (event_lease e) = false).
Proof.
  intros s e. apply session_foreign_event_rejected; [discriminate.. |].
  intros _. split; [discriminate | reflexivity].
Defined.
