(* ===== verification/CoordData.v ===== *)
(** * Protocol coordinator: data (app/protocol_coordinator.h and .c)

    The enumerations, records and pure helpers of the coordinator.  An array
    indexed by [ProtocolService] is the record [PerService]; the sentinel
    [PROTOCOL_SERVICE_COUNT], and any value outside an enumeration, is [None]. *)

From S2P Require Import Prelude Prog Ownership MediaSession.

(** ** Enumerations *)

(* src: source/app/protocol_coordinator.h ProtocolCoordinatorState *)
Inductive ProtocolCoordinatorState :=
| PROTOCOL_COORDINATOR_STOPPED
| PROTOCOL_COORDINATOR_STARTING
| PROTOCOL_COORDINATOR_READY
| PROTOCOL_COORDINATOR_MEDIA_ACTIVE
| PROTOCOL_COORDINATOR_STOPPING
| PROTOCOL_COORDINATOR_FAILED.

(* src: source/app/protocol_coordinator.h ProtocolService *)
Inductive ProtocolService :=
| PROTOCOL_SERVICE_IPTV
| PROTOCOL_SERVICE_DLNA
| PROTOCOL_SERVICE_AIRPLAY.

(* src: source/app/protocol_coordinator.h ProtocolServiceState *)
Inductive ProtocolServiceState :=
| PROTOCOL_SERVICE_DISABLED
| PROTOCOL_SERVICE_STOPPED
| PROTOCOL_SERVICE_STARTING
| PROTOCOL_SERVICE_RUNNING
| PROTOCOL_SERVICE_FAILED.

(* src: source/app/protocol_coordinator.h ProtocolResourceMode *)
Inductive ProtocolResourceMode :=
| PROTOCOL_RESOURCE_MODE_HOME
| PROTOCOL_RESOURCE_MODE_IPTV_EXCLUSIVE
| PROTOCOL_RESOURCE_MODE_DLNA_EXCLUSIVE
| PROTOCOL_RESOURCE_MODE_AIRPLAY_EXCLUSIVE.

(* src: source/app/protocol_coordinator.h ProtocolDiscoverySuspensionPolicy *)
Inductive ProtocolDiscoverySuspensionPolicy :=
| PROTOCOL_DISCOVERY_SUSPEND_NONE
| PROTOCOL_DISCOVERY_SUSPEND_MEDIA_OWNERSHIP
| PROTOCOL_DISCOVERY_SUSPEND_PLAYBACK_ACTIVITY.

(* src: source/app/protocol_coordinator.c ProtocolLifecycle *)
Inductive ProtocolLifecycle :=
| PROTOCOL_LIFECYCLE_STOPPED
| PROTOCOL_LIFECYCLE_STARTING
| PROTOCOL_LIFECYCLE_RUNNING
| PROTOCOL_LIFECYCLE_STOPPING.

(* src: source/player/types.h PlayerState *)
Inductive PlayerState :=
| PLAYER_STATE_IDLE
| PLAYER_STATE_STOPPED
| PLAYER_STATE_LOADING
| PLAYER_STATE_BUFFERING
| PLAYER_STATE_SEEKING
| PLAYER_STATE_PLAYING
| PLAYER_STATE_PAUSED
| PLAYER_STATE_ERROR.

#[export] Instance coordinator_state_eq_dec : EqDecision ProtocolCoordinatorState.
Proof. solve_decision. Defined.
#[export] Instance service_eq_dec : EqDecision ProtocolService.
Proof. solve_decision. Defined.
#[export] Instance service_state_eq_dec : EqDecision ProtocolServiceState.
Proof. solve_decision. Defined.
#[export] Instance resource_mode_eq_dec : EqDecision ProtocolResourceMode.
Proof. solve_decision. Defined.
#[export] Instance discovery_policy_eq_dec : EqDecision ProtocolDiscoverySuspensionPolicy.
Proof. solve_decision. Defined.
#[export] Instance protocol_lifecycle_eq_dec : EqDecision ProtocolLifecycle.
Proof. solve_decision. Defined.
#[export] Instance player_state_eq_dec : EqDecision PlayerState.
Proof. solve_decision. Defined.

(** ** Arrays indexed by the service *)

Record PerService (T : Type) := mkPer { per_iptv : T; per_dlna : T; per_airplay : T }.
Arguments mkPer {T} _ _ _.
Arguments per_iptv {T} _.
Arguments per_dlna {T} _.
Arguments per_airplay {T} _.

Definition per_get {T} (a : PerService T) (s : ProtocolService) : T :=
  match s with
  | PROTOCOL_SERVICE_IPTV => per_iptv a
  | PROTOCOL_SERVICE_DLNA => per_dlna a
  | PROTOCOL_SERVICE_AIRPLAY => per_airplay a
  end.

Definition per_upd {T} (s : ProtocolService) (f : T -> T) (a : PerService T) : PerService T :=
  match s with
  | PROTOCOL_SERVICE_IPTV => mkPer (f (per_iptv a)) (per_dlna a) (per_airplay a)
  | PROTOCOL_SERVICE_DLNA => mkPer (per_iptv a) (f (per_dlna a)) (per_airplay a)
  | PROTOCOL_SERVICE_AIRPLAY => mkPer (per_iptv a) (per_dlna a) (f (per_airplay a))
  end.

Definition per_set {T} (s : ProtocolService) (v : T) : PerService T -> PerService T :=
  per_upd s (fun _ => v).

Definition per_all {T} (v : T) : PerService T := mkPer v v v.

(** The services in the order of their index. *)
Definition all_services : list ProtocolService :=
  [PROTOCOL_SERVICE_IPTV; PROTOCOL_SERVICE_DLNA; PROTOCOL_SERVICE_AIRPLAY].

Definition service_index (s : ProtocolService) : nat :=
  match s with
  | PROTOCOL_SERVICE_IPTV => 0
  | PROTOCOL_SERVICE_DLNA => 1
  | PROTOCOL_SERVICE_AIRPLAY => 2
  end%nat.

(** ** Records *)

(* src: source/app/protocol_coordinator.h ProtocolCoordinatorConfig *)
Record ProtocolCoordinatorConfig := mkConfig {
  enabled : PerService bool;
  config_serial_startup : bool;
  config_exclusive_media_resources : bool;
  (** [None]: a value outside the enumeration *)
  config_discovery_suspension_policy : option ProtocolDiscoverySuspensionPolicy
}.

(* src: source/app/protocol_coordinator.h ProtocolAirPlayStatus *)
Record ProtocolAirPlayStatus := mkAirPlay {
  airplay_running : bool;
  airplay_starting : bool;
  airplay_pin_visible : bool;
  (** [char pin[5]] and [char status[96]] *)
  airplay_pin : list Z;
  airplay_status : list Z
}.
#[export] Instance eta_airplay : Eta ProtocolAirPlayStatus := fun a =>
  mkAirPlay (airplay_running a) (airplay_starting a) (airplay_pin_visible a)
    (airplay_pin a) (airplay_status a).

Definition PROTOCOL_AIRPLAY_PIN_SIZE : nat := 5.
Definition PROTOCOL_AIRPLAY_STATUS_MAX : nat := 96.

Definition airplay_zero : ProtocolAirPlayStatus :=
  mkAirPlay false false false (replicate PROTOCOL_AIRPLAY_PIN_SIZE 0)
    (replicate PROTOCOL_AIRPLAY_STATUS_MAX 0).

(* src: source/app/protocol_coordinator.h ProtocolCoordinatorSnapshot *)
Record ProtocolCoordinatorSnapshot := mkSnapshot {
  state : ProtocolCoordinatorState;
  services : PerService ProtocolServiceState;
  service_worker_active : PerService bool;
  service_transition_age_ms : PerService Z;
  airplay : ProtocolAirPlayStatus;
  active_media : PlayerOwnershipLease;
  media_session : ProtocolMediaSessionSnapshot;
  desired_resource_mode : ProtocolResourceMode;
  applied_resource_mode : ProtocolResourceMode;
  resource_transition_active : bool;
  resource_transition_failed : bool;
  resource_transition_age_ms : Z;
  discovery_suspended : bool;
  revision : Z
}.
#[export] Instance eta_snapshot : Eta ProtocolCoordinatorSnapshot := fun s =>
  mkSnapshot (state s) (services s) (service_worker_active s) (service_transition_age_ms s)
    (airplay s) (active_media s) (media_session s) (desired_resource_mode s)
    (applied_resource_mode s) (resource_transition_active s) (resource_transition_failed s)
    (resource_transition_age_ms s) (discovery_suspended s) (revision s).

Definition snapshot_zero : ProtocolCoordinatorSnapshot :=
  mkSnapshot PROTOCOL_COORDINATOR_STOPPED (per_all PROTOCOL_SERVICE_DISABLED)
    (per_all false) (per_all 0) airplay_zero lease_zero session_zero
    PROTOCOL_RESOURCE_MODE_HOME PROTOCOL_RESOURCE_MODE_HOME false false 0 false 0.

(** Function pointers and the opaque context are addresses; NULL is [None]. *)
Definition fnptr : Type := Z.

(* src: source/app/protocol_coordinator.h ProtocolServiceOperations *)
Record ProtocolServiceOperations := mkServiceOps {
  start : option fnptr;
  request_stop : option fnptr;
  stop : option fnptr;
  stop_after_start_attempt : bool
}.

(* src: source/app/protocol_coordinator.h ProtocolCoordinatorOperations *)
Record ProtocolCoordinatorOperations := mkOps {
  context : Z;
  op_services : PerService ProtocolServiceOperations;
  airplay_get_status : option fnptr;
  airplay_release_active_media : option fnptr;
  set_discovery_suspended : option fnptr;
  set_background_network_suspended : option fnptr
}.

Definition ops_zero : ProtocolCoordinatorOperations :=
  mkOps 0 (per_all (mkServiceOps None None None false)) None None None None.

(* src: source/app/protocol_coordinator.h ProtocolMediaTransaction *)
Record ProtocolMediaTransaction := mkTransaction {
  transaction_active : bool;
  transaction_lease : PlayerOwnershipLease;
  transaction_previous : PlayerOwnershipLease
}.
#[export] Instance eta_transaction : Eta ProtocolMediaTransaction := fun t =>
  mkTransaction (transaction_active t) (transaction_lease t) (transaction_previous t).

(* src: source/app/protocol_coordinator.h ProtocolMediaGuard *)
Record ProtocolMediaGuard := mkGuard {
  guard_active : bool;
  guard_lease : PlayerOwnershipLease
}.
#[export] Instance eta_guard : Eta ProtocolMediaGuard := fun g =>
  mkGuard (guard_active g) (guard_lease g).

(* src: source/app/protocol_coordinator.c ProtocolServiceWorker *)
Record ProtocolServiceWorker := mkServiceWorker {
  worker_service : ProtocolService;
  worker_thread_started : bool;
  start_finished : bool;
  start_result : bool
}.
#[export] Instance eta_service_worker : Eta ProtocolServiceWorker := fun w =>
  mkServiceWorker (worker_service w) (worker_thread_started w) (start_finished w)
    (start_result w).

Definition service_worker_zero : ProtocolServiceWorker :=
  mkServiceWorker PROTOCOL_SERVICE_IPTV false false false.

(* src: source/app/protocol_coordinator.c ProtocolResourceWorker *)
Record ProtocolResourceWorker := mkResourceWorker {
  resource_thread_started : bool;
  finished : bool;
  result : bool;
  target : ProtocolResourceMode;
  (** [None] is PROTOCOL_SERVICE_COUNT *)
  current_service : option ProtocolService;
  start_call_active : bool
}.
#[export] Instance eta_resource_worker : Eta ProtocolResourceWorker := fun w =>
  mkResourceWorker (resource_thread_started w) (finished w) (result w) (target w)
    (current_service w) (start_call_active w).

Definition resource_worker_zero : ProtocolResourceWorker :=
  mkResourceWorker false false false PROTOCOL_RESOURCE_MODE_HOME
    (Some PROTOCOL_SERVICE_IPTV) false.

(* src: source/app/protocol_coordinator.c 63-87 ProtocolCoordinator *)
Record ProtocolCoordinator := mkCoordinator {
  mutex_ready : bool;
  coord_lifecycle : ProtocolLifecycle;
  runtime_active : bool;
  serial_startup : bool;
  exclusive_media_resources : bool;
  configured_enabled : PerService bool;
  background_network_suspended : bool;
  discovery_suspension_policy : ProtocolDiscoverySuspensionPolicy;
  next_service_to_start : nat;
  stop_required : PerService bool;
  workers : PerService ProtocolServiceWorker;
  resource_worker : ProtocolResourceWorker;
  service_transition_ms : PerService Z;
  resource_transition_ms : Z;
  resource_retry_due_ms : Z;
  media_claim_ms : Z;
  media_ready_ms : Z;
  playback_observed_generation : Z;
  playback_seen_active : bool;
  operations : ProtocolCoordinatorOperations;
  snapshot : ProtocolCoordinatorSnapshot
}.
#[export] Instance eta_coordinator : Eta ProtocolCoordinator := fun c =>
  mkCoordinator (mutex_ready c) (coord_lifecycle c) (runtime_active c) (serial_startup c)
    (exclusive_media_resources c) (configured_enabled c) (background_network_suspended c)
    (discovery_suspension_policy c) (next_service_to_start c) (stop_required c) (workers c)
    (resource_worker c) (service_transition_ms c) (resource_transition_ms c)
    (resource_retry_due_ms c) (media_claim_ms c) (media_ready_ms c)
    (playback_observed_generation c) (playback_seen_active c) (operations c) (snapshot c).

(** The zeroed static [g_coordinator]. *)
Definition coordinator_zero : ProtocolCoordinator :=
  mkCoordinator false PROTOCOL_LIFECYCLE_STOPPED false false false (per_all false) false
    PROTOCOL_DISCOVERY_SUSPEND_NONE 0 (per_all false) (per_all service_worker_zero)
    resource_worker_zero (per_all 0) 0 0 0 0 0 false ops_zero snapshot_zero.

(** ** Helpers on the coordinator's state *)

(* src: source/app/protocol_coordinator.c coordinator_bump_revision *)
Definition coordinator_bump_revision (c : ProtocolCoordinator) : ProtocolCoordinator :=
  { c with snapshot -> revision ::= bump32 }.

(* src: source/app/protocol_coordinator.c service_valid *)
Definition service_valid (service : option ProtocolService) : bool :=
  bool_decide (is_Some service).

(* src: source/app/protocol_coordinator.c service_state_valid *)
Definition service_state_valid (st : option ProtocolServiceState) : bool :=
  bool_decide (is_Some st).

(* src: source/app/protocol_coordinator.c resource_mode_valid *)
Definition resource_mode_valid (mode : option ProtocolResourceMode) : bool :=
  bool_decide (is_Some mode).

(* src: source/app/protocol_coordinator.c resource_mode_for_owner *)
Definition resource_mode_for_owner (ow : PlayerMediaOwner) : ProtocolResourceMode :=
  match ow with
  | PLAYER_MEDIA_OWNER_IPTV => PROTOCOL_RESOURCE_MODE_IPTV_EXCLUSIVE
  | PLAYER_MEDIA_OWNER_DLNA => PROTOCOL_RESOURCE_MODE_DLNA_EXCLUSIVE
  | PLAYER_MEDIA_OWNER_AIRPLAY_VIDEO
  | PLAYER_MEDIA_OWNER_AIRPLAY_MIRROR => PROTOCOL_RESOURCE_MODE_AIRPLAY_EXCLUSIVE
  | PLAYER_MEDIA_OWNER_NONE => PROTOCOL_RESOURCE_MODE_HOME
  end.

(* src: source/app/protocol_coordinator.c discovery_suspension_policy_valid *)
Definition discovery_suspension_policy_valid
    (policy : option ProtocolDiscoverySuspensionPolicy) : bool :=
  bool_decide (is_Some policy).

Definition non_null (f : option fnptr) : bool := bool_decide (is_Some f).

(* src: source/app/protocol_coordinator.c operations_valid *)
Definition operations_valid (config : option ProtocolCoordinatorConfig)
    (ops : option ProtocolCoordinatorOperations) : bool :=
  match config, ops with
  | Some config, Some ops =>
      if negb (discovery_suspension_policy_valid (config_discovery_suspension_policy config))
      then false
      else if bool_decide (config_discovery_suspension_policy config <>
                             Some PROTOCOL_DISCOVERY_SUSPEND_NONE) &&
              negb (non_null (set_discovery_suspended ops))
      then false
      else if config_exclusive_media_resources config &&
              negb (non_null (set_background_network_suspended ops))
      then false
      else if config_exclusive_media_resources config &&
              per_get (enabled config) PROTOCOL_SERVICE_AIRPLAY &&
              negb (non_null (airplay_release_active_media ops))
      then false
      else if existsb (fun index =>
                per_get (enabled config) index &&
                (negb (non_null (start (per_get (op_services ops) index))) ||
                 negb (non_null (stop (per_get (op_services ops) index))))) all_services
      then false
      else if per_get (enabled config) PROTOCOL_SERVICE_AIRPLAY &&
              negb (non_null (airplay_get_status ops))
      then false
      else true
  | _, _ => false
  end.

Definition has_service_in (c : ProtocolCoordinator) (st : ProtocolServiceState) : bool :=
  existsb (fun index => bool_decide (per_get (services (snapshot c)) index = st)) all_services.

(* src: source/app/protocol_coordinator.c coordinator_recompute_state *)
Definition coordinator_recompute_state (c : ProtocolCoordinator) : ProtocolCoordinator :=
  if decide (coord_lifecycle c = PROTOCOL_LIFECYCLE_STOPPED) then
    { c with snapshot -> state := PROTOCOL_COORDINATOR_STOPPED }
  else if decide (coord_lifecycle c = PROTOCOL_LIFECYCLE_STOPPING) then
    { c with snapshot -> state := PROTOCOL_COORDINATOR_STOPPING }
  else
    let has_running := has_service_in c PROTOCOL_SERVICE_RUNNING in
    let has_starting := has_service_in c PROTOCOL_SERVICE_STARTING in
    let has_failed := has_service_in c PROTOCOL_SERVICE_FAILED in
    if bool_decide (coord_lifecycle c = PROTOCOL_LIFECYCLE_STARTING) && has_starting then
      { c with snapshot -> state := PROTOCOL_COORDINATOR_STARTING }
    else
      let c1 := { c with coord_lifecycle := PROTOCOL_LIFECYCLE_RUNNING } in
      if negb (owner_eqb (owner (active_media (snapshot c1))) PLAYER_MEDIA_OWNER_NONE) then
        { c1 with snapshot -> state := PROTOCOL_COORDINATOR_MEDIA_ACTIVE }
      else if has_running then
        { c1 with snapshot -> state := PROTOCOL_COORDINATOR_READY }
      else if has_failed then
        { c1 with snapshot -> state := PROTOCOL_COORDINATOR_FAILED }
      else
        { c1 with snapshot -> state := PROTOCOL_COORDINATOR_READY }.

(* src: source/app/protocol_coordinator.c owner_is_airplay *)
Definition owner_is_airplay (ow : PlayerMediaOwner) : bool :=
  owner_eqb ow PLAYER_MEDIA_OWNER_AIRPLAY_VIDEO ||
  owner_eqb ow PLAYER_MEDIA_OWNER_AIRPLAY_MIRROR.

(* src: source/app/protocol_coordinator.c coordinator_resource_service_required *)
Definition coordinator_resource_service_required (mode : ProtocolResourceMode)
    (service : ProtocolService) (en : PerService bool) : bool :=
  if negb (service_valid (Some service)) || negb (per_get en service) then false
  else match service with
  | PROTOCOL_SERVICE_IPTV => true
  | PROTOCOL_SERVICE_DLNA =>
      bool_decide (mode = PROTOCOL_RESOURCE_MODE_HOME) ||
      bool_decide (mode = PROTOCOL_RESOURCE_MODE_DLNA_EXCLUSIVE)
  | PROTOCOL_SERVICE_AIRPLAY =>
      bool_decide (mode = PROTOCOL_RESOURCE_MODE_HOME) ||
      bool_decide (mode = PROTOCOL_RESOURCE_MODE_AIRPLAY_EXCLUSIVE)
  end.

(* src: source/app/protocol_coordinator.c 436-464 coordinator_resource_services_match_locked *)
Definition coordinator_resource_services_match_locked (mode : ProtocolResourceMode)
    (c : ProtocolCoordinator) : bool :=
  forallb (fun index =>
    let required := coordinator_resource_service_required mode index (configured_enabled c) in
    let st := per_get (services (snapshot c)) index in
    if negb (per_get (configured_enabled c) index)
    then bool_decide (st = PROTOCOL_SERVICE_DISABLED)
    else if required then bool_decide (st = PROTOCOL_SERVICE_RUNNING)
    else bool_decide (st = PROTOCOL_SERVICE_STOPPED)) all_services.

(* src: source/app/protocol_coordinator.c airplay_status_equal *)
Definition airplay_status_equal (left right : ProtocolAirPlayStatus) : bool :=
  Bool.eqb (airplay_running left) (airplay_running right) &&
  Bool.eqb (airplay_starting left) (airplay_starting right) &&
  Bool.eqb (airplay_pin_visible left) (airplay_pin_visible right) &&
  bool_decide (airplay_pin left = airplay_pin right) &&
  bool_decide (cstr_of (airplay_status left) = cstr_of (airplay_status right)).

(** The lifecycles in which media may be claimed. *)
(* src: source/app/protocol_coordinator.c 288-291 coordinator_accepts_media *)
Definition lifecycle_accepts (l : ProtocolLifecycle) : bool :=
  bool_decide (l = PROTOCOL_LIFECYCLE_STARTING) || bool_decide (l = PROTOCOL_LIFECYCLE_RUNNING).

(* src: source/app/protocol_coordinator.c protocol_coordinator_state_name *)
Definition protocol_coordinator_state_name (st : ProtocolCoordinatorState) : string :=
  match st with
  | PROTOCOL_COORDINATOR_STOPPED => "stopped"
  | PROTOCOL_COORDINATOR_STARTING => "starting"
  | PROTOCOL_COORDINATOR_READY => "ready"
  | PROTOCOL_COORDINATOR_MEDIA_ACTIVE => "media-active"
  | PROTOCOL_COORDINATOR_STOPPING => "stopping"
  | PROTOCOL_COORDINATOR_FAILED => "failed"
  end.

(* src: source/app/protocol_coordinator.c protocol_service_name *)
Definition protocol_service_name (service : option ProtocolService) : string :=
  match service with
  | Some PROTOCOL_SERVICE_IPTV => "iptv"
  | Some PROTOCOL_SERVICE_DLNA => "dlna"
  | Some PROTOCOL_SERVICE_AIRPLAY => "airplay"
  | None => "unknown"
  end.

(* src: source/app/protocol_coordinator.c protocol_service_state_name *)
Definition protocol_service_state_name (st : option ProtocolServiceState) : string :=
  match st with
  | Some PROTOCOL_SERVICE_DISABLED => "disabled"
  | Some PROTOCOL_SERVICE_STOPPED => "stopped"
  | Some PROTOCOL_SERVICE_STARTING => "starting"
  | Some PROTOCOL_SERVICE_RUNNING => "running"
  | Some PROTOCOL_SERVICE_FAILED => "failed"
  | None => "unknown"
  end.

(* src: source/app/protocol_coordinator.c protocol_resource_mode_name *)
Definition protocol_resource_mode_name (mode : option ProtocolResourceMode) : string :=
  match mode with
  | Some PROTOCOL_RESOURCE_MODE_HOME => "home"
  | Some PROTOCOL_RESOURCE_MODE_IPTV_EXCLUSIVE => "iptv-exclusive"
  | Some PROTOCOL_RESOURCE_MODE_DLNA_EXCLUSIVE => "dlna-exclusive"
  | Some PROTOCOL_RESOURCE_MODE_AIRPLAY_EXCLUSIVE => "airplay-exclusive"
  | None => "unknown"
  end.
