(* ===== verification/Coordinator.v ===== *)
(** * Protocol coordinator: operations (app/protocol_coordinator.c)

    Every function of the coordinator as a program over [World].  The code
    between [coordinator_lock] and [coordinator_unlock] is one atomic action;
    a callback runs between two actions, outside the coordinator's lock. *)

From S2P Require Import Prelude Prog Ownership MediaSession CoordData.

(** ** The world *)

(** What a started thread runs. *)
Inductive ThreadMain :=
| ServiceWorkerMain (service : ProtocolService)
| ResourceWorkerMain.

(** Calls that leave the coordinator, in the order they are made. *)
Inductive Call :=
| CallStart (service : ProtocolService)
| CallRequestStop (service : ProtocolService)
| CallStop (service : ProtocolService)
| CallGetStatus
| CallReleaseMedia (l : PlayerOwnershipLease)
| CallSetDiscovery (suspended : bool)
| CallSetBackground (suspended : bool)
| CallThreadCreate (main : ThreadMain).

#[export] Instance Call_eq_dec : EqDecision Call.
Proof. assert (EqDecision ThreadMain) by solve_decision. solve_decision. Defined.

(** The static variables of ownership.c and protocol_coordinator.c, the
    monotonic clock in milliseconds, and the calls made so far, each with
    whether the ownership transition lock was held. *)
Record World := mkWorld {
  w_own : Ownership;
  w_coord : ProtocolCoordinator;
  w_now : Z;
  w_calls : list (Call * bool)
}.
#[export] Instance eta_world : Eta World := fun w =>
  mkWorld (w_own w) (w_coord w) (w_now w) (w_calls w).

Definition world_zero : World := mkWorld ownership_zero coordinator_zero 0 [].

#[export] Instance HasOwnership_World : HasOwnership World.
Proof.
  by refine {| get_own := w_own; put_own o w := { w with w_own := o } |}; intros; destruct w.
Defined.

(** The functions behind the pointers of [ProtocolCoordinatorOperations], and
    the platform's thread creation. *)
Class Callbacks := {
  cb_start : fnptr -> Z -> prog World bool;
  cb_request_stop : fnptr -> Z -> prog World unit;
  cb_stop : fnptr -> Z -> prog World unit;
  cb_airplay_get_status : fnptr -> Z -> prog World (bool * ProtocolAirPlayStatus);
  cb_airplay_release_active_media : fnptr -> PlayerOwnershipLease -> Z -> prog World bool;
  cb_set_discovery_suspended : fnptr -> Z -> bool -> prog World unit;
  cb_set_background_network_suspended : fnptr -> Z -> bool -> prog World bool;
  thread_create : ThreadMain -> prog World bool
}.

(** ** Locks, clock and calls *)

(* src: source/app/protocol_coordinator.c coordinator_init *)
Definition coordinator_init (c : ProtocolCoordinator) : ProtocolCoordinator :=
  if mutex_ready c then c else { c with mutex_ready := true }.

(** The code between the lock and the unlock; it may read the clock. *)
(* src: source/app/protocol_coordinator.c 125-142 coordinator_lock, coordinator_unlock *)
Definition locked {A} (f : Z -> ProtocolCoordinator -> A * ProtocolCoordinator) : prog World A :=
  atomic (fun w => let r := f (w_now w) (coordinator_init (w_coord w)) in
                   (r.1, { w with w_coord := r.2 })).

Definition lock_read {A} (f : ProtocolCoordinator -> A) : prog World A :=
  locked (fun _ c => (f c, c)).

Definition lock_update (f : Z -> ProtocolCoordinator -> ProtocolCoordinator) : prog World unit :=
  locked (fun now c => (tt, f now c)).

(** A write of [g_coordinator] outside the lock. *)
Definition unlocked_update (f : ProtocolCoordinator -> ProtocolCoordinator) : prog World unit :=
  modify (fun w => { w with w_coord := f (w_coord w) }).

(* src: source/app/protocol_coordinator.c coordinator_monotonic_ms *)
Definition coordinator_monotonic_ms : prog World Z := gets w_now.

(* src: source/app/protocol_coordinator.c coordinator_sleep_ms *)
Definition coordinator_sleep_ms (duration_ms : Z) : prog World unit :=
  modify (fun w => { w with w_now := u64 (w_now w + duration_ms) }).

Definition log_call (c : Call) : prog World unit :=
  modify (fun w => { w with w_calls ::= fun l => l ++ [(c, g_transition_held (w_own w))] }).

Definition PROTOCOL_RESOURCE_RETRY_MS : Z := 1000.
Definition PROTOCOL_TERMINAL_RELEASE_GRACE_MS : Z := 1000.

Section coordinator.
Context `{!Callbacks}.

(** An indirect call; through a NULL pointer it never returns. *)
Definition call_start (s : ProtocolService) (f : option fnptr) (ctx : Z) : prog World bool :=
  match f with None => stuck false | Some f => log_call (CallStart s) ;; cb_start f ctx end.
Definition call_request_stop (s : ProtocolService) (f : option fnptr) (ctx : Z) : prog World unit :=
  match f with
  | None => stuck tt | Some f => log_call (CallRequestStop s) ;; cb_request_stop f ctx
  end.
Definition call_stop (s : ProtocolService) (f : option fnptr) (ctx : Z) : prog World unit :=
  match f with None => stuck tt | Some f => log_call (CallStop s) ;; cb_stop f ctx end.
Definition call_get_status (f : option fnptr) (ctx : Z)
    : prog World (bool * ProtocolAirPlayStatus) :=
  match f with
  | None => stuck (false, airplay_zero)
  | Some f => log_call CallGetStatus ;; cb_airplay_get_status f ctx
  end.
Definition call_release_media (f : fnptr) (l : PlayerOwnershipLease) (ctx : Z) : prog World bool :=
  log_call (CallReleaseMedia l) ;; cb_airplay_release_active_media f l ctx.
Definition call_set_discovery (f : fnptr) (ctx : Z) (b : bool) : prog World unit :=
  log_call (CallSetDiscovery b) ;; cb_set_discovery_suspended f ctx b.
Definition call_set_background (f : fnptr) (ctx : Z) (b : bool) : prog World bool :=
  log_call (CallSetBackground b) ;; cb_set_background_network_suspended f ctx b.
Definition call_thread_create (m : ThreadMain) : prog World bool :=
  log_call (CallThreadCreate m) ;; thread_create m.

(** ** Media events *)

(** The locked section of [coordinator_apply_media_event]. *)
(* src: source/app/protocol_coordinator.c 1380-1409 coordinator_apply_media_event *)
Definition apply_media_event_locked (event : ProtocolMediaEvent) (now : Z)
    (c : ProtocolCoordinator) : ProtocolMediaTransitionStatus * ProtocolCoordinator :=
  let previous_generation := generation (lease (media_session (snapshot c))) in
  let '(status, session) :=
    protocol_media_session_transition (media_session (snapshot c)) (Some event) in
  let c1 := { c with snapshot -> media_session := session } in
  if decide (status = PROTOCOL_MEDIA_TRANSITION_APPLIED) then
    let c2 := { c1 with snapshot -> active_media := lease session } in
    let c3 :=
      if decide (lifecycle session = PROTOCOL_MEDIA_SESSION_IDLE) then
        { c2 with playback_observed_generation := 0; playback_seen_active := false;
                  media_claim_ms := 0; media_ready_ms := 0 }
      else if negb (generation (lease session) =? previous_generation) then
        { c2 with playback_observed_generation := generation (lease session);
                  playback_seen_active := false; media_claim_ms := now;
                  media_ready_ms := 0 }
      else c2 in
    (status, coordinator_bump_revision (coordinator_recompute_state c3))
  else (status, c1).

Definition authority_event (k : ProtocolMediaEventKind) : bool :=
  bool_decide (k ∈ [PROTOCOL_MEDIA_EVENT_CLAIMED; PROTOCOL_MEDIA_EVENT_RELEASED;
                    PROTOCOL_MEDIA_EVENT_RESET]).

(* src: source/app/protocol_coordinator.c 1366-1411 coordinator_apply_media_event *)
Definition coordinator_apply_media_event (event : option ProtocolMediaEvent)
    (allow_authority_event : bool) : prog World ProtocolMediaTransitionStatus :=
  match event with
  | None => mret PROTOCOL_MEDIA_TRANSITION_INVALID
  | Some e =>
      if negb allow_authority_event && authority_event (kind e)
      then mret PROTOCOL_MEDIA_TRANSITION_INVALID
      else locked (apply_media_event_locked e)
  end.

(* src: source/app/protocol_coordinator.c protocol_coordinator_media_submit_event *)
Definition protocol_coordinator_media_submit_event (event : option ProtocolMediaEvent)
    : prog World ProtocolMediaTransitionStatus :=
  coordinator_apply_media_event event false.

(* src: source/app/protocol_coordinator.c coordinator_set_active_media *)
Definition coordinator_set_active_media (l : option PlayerOwnershipLease) : prog World unit :=
  event ← match l with
          | Some l => mret (mkEvent PROTOCOL_MEDIA_EVENT_CLAIMED l)
          | None =>
              lock_read (fun c =>
                mkEvent PROTOCOL_MEDIA_EVENT_RELEASED (lease (media_session (snapshot c))))
          end;
  coordinator_apply_media_event (Some event) true ;; mret tt.

(** ** Lifecycle queries *)

(* src: source/app/protocol_coordinator.c coordinator_accepts_media *)
Definition coordinator_accepts_media : prog World bool :=
  lock_read (fun c => lifecycle_accepts (coord_lifecycle c)).

(* src: source/app/protocol_coordinator.c coordinator_accepts_guard *)
Definition coordinator_accepts_guard (allow_stopping : bool) : prog World bool :=
  lock_read (fun c =>
    lifecycle_accepts (coord_lifecycle c) ||
    (allow_stopping && bool_decide (coord_lifecycle c = PROTOCOL_LIFECYCLE_STOPPING))).

(* src: source/app/protocol_coordinator.c coordinator_release_airplay_owner *)
Definition coordinator_release_airplay_owner (l : option PlayerOwnershipLease)
    : prog World bool :=
  match l with
  | None => mret false
  | Some l =>
      if negb (owner_is_airplay (owner l)) then mret false
      else
        '(callback, ctx) ← lock_read (fun c =>
           (airplay_release_active_media (operations c), context (operations c)));
        match callback with
        | None => mret false
        | Some f => call_release_media f l ctx
        end
  end.

(* src: source/app/protocol_coordinator.c coordinator_exclusive_resources_enabled *)
Definition coordinator_exclusive_resources_enabled : prog World bool :=
  lock_read exclusive_media_resources.

(** ** Resource mode, background network and discovery *)

(** The locked section: the new state, and the [request_stop] to call, if any. *)
(* src: source/app/protocol_coordinator.c 364-388 coordinator_set_desired_resource_mode *)
Definition set_desired_locked (mode : ProtocolResourceMode) (c : ProtocolCoordinator)
    : option (ProtocolService * option fnptr * Z) * ProtocolCoordinator :=
  let tgt := if exclusive_media_resources c then mode else PROTOCOL_RESOURCE_MODE_HOME in
  if decide (desired_resource_mode (snapshot c) = tgt) then (None, c)
  else
    let c1 := { c with snapshot -> desired_resource_mode := tgt;
                       snapshot -> resource_transition_failed := false;
                       resource_retry_due_ms := 0 } in
    let request :=
      if resource_transition_active (snapshot c1) &&
         bool_decide (target (resource_worker c1) <> tgt) &&
         start_call_active (resource_worker c1)
      then (fun s => (s, request_stop (per_get (op_services (operations c1)) s),
                      context (operations c1))) <$> current_service (resource_worker c1)
      else None in
    (request, coordinator_bump_revision c1).

(* src: source/app/protocol_coordinator.c coordinator_set_desired_resource_mode *)
Definition coordinator_set_desired_resource_mode (mode : option ProtocolResourceMode)
    : prog World unit :=
  let mode := default PROTOCOL_RESOURCE_MODE_HOME mode in
  request ← locked (fun _ c => set_desired_locked mode c);
  match request with
  | Some (s, Some f, ctx) => call_request_stop s (Some f) ctx
  | _ => mret tt
  end.

(* src: source/app/protocol_coordinator.c 399-413 coordinator_set_background_network_suspended *)
Definition set_background_locked (suspended : bool) (c : ProtocolCoordinator)
    : (bool * option fnptr * Z) * ProtocolCoordinator :=
  let ops := operations c in
  if negb (Bool.eqb (background_network_suspended c) suspended) then
    ((true, set_background_network_suspended ops, context ops),
     { c with background_network_suspended := suspended })
  else if suspended then
    ((false, set_background_network_suspended ops, context ops), c)
  else ((false, None, 0), c).

(* src: source/app/protocol_coordinator.c coordinator_set_background_network_suspended *)
Definition coordinator_set_background_network_suspended (suspended : bool) : prog World bool :=
  '(changed, callback, ctx) ← locked (fun _ c => set_background_locked suspended c);
  match callback with
  | Some f => if changed || suspended then call_set_background f ctx suspended else mret true
  | None => mret true
  end.

(* src: source/app/protocol_coordinator.c 475-492 coordinator_apply_discovery_suspension *)
Definition discovery_locked (suspended require_policy : bool)
    (required_policy : ProtocolDiscoverySuspensionPolicy) (c : ProtocolCoordinator)
    : option (option fnptr * Z * bool) * ProtocolCoordinator :=
  if require_policy && bool_decide (discovery_suspension_policy c <> required_policy)
  then (None, c)
  else
    let tgt := suspended && runtime_active c &&
               non_null (set_discovery_suspended (operations c)) in
    if negb (Bool.eqb (discovery_suspended (snapshot c)) tgt) then
      (Some (set_discovery_suspended (operations c), context (operations c), tgt),
       coordinator_bump_revision { c with snapshot -> discovery_suspended := tgt })
    else (None, c).

(* src: source/app/protocol_coordinator.c coordinator_apply_discovery_suspension *)
Definition coordinator_apply_discovery_suspension (suspended require_policy : bool)
    (required_policy : ProtocolDiscoverySuspensionPolicy) : prog World unit :=
  r ← locked (fun _ c => discovery_locked suspended require_policy required_policy c);
  match r with
  | Some (Some f, ctx, tgt) => call_set_discovery f ctx tgt
  | _ => mret tt
  end.

(* src: source/app/protocol_coordinator.c coordinator_set_discovery_suspended *)
Definition coordinator_set_discovery_suspended (suspended : bool) : prog World unit :=
  coordinator_apply_discovery_suspension suspended false PROTOCOL_DISCOVERY_SUSPEND_NONE.

(* src: source/app/protocol_coordinator.c coordinator_set_discovery_suspended_for_policy *)
Definition coordinator_set_discovery_suspended_for_policy
    (policy : ProtocolDiscoverySuspensionPolicy) (suspended : bool) : prog World unit :=
  coordinator_apply_discovery_suspension suspended true policy.

(* src: source/app/protocol_coordinator.c coordinator_sync_active_media *)
Definition coordinator_sync_active_media : prog World unit :=
  '(has_current, current) ← player_ownership_current true;
  observed ← lock_read (fun c => lease (media_session (snapshot c)));
  let changed :=
    if (has_current : bool)
    then negb (owner_eqb (owner observed) (owner current)) ||
         negb (token observed =? token current) ||
         negb (generation observed =? generation current)
    else negb (owner_eqb (owner observed) PLAYER_MEDIA_OWNER_NONE) in
  (if changed then
     coordinator_apply_media_event
       (Some (if has_current then mkEvent PROTOCOL_MEDIA_EVENT_CLAIMED current
              else mkEvent PROTOCOL_MEDIA_EVENT_RELEASED observed)) true ;; mret tt
   else mret tt) ;;
  coordinator_set_desired_resource_mode
    (Some (if has_current then resource_mode_for_owner (owner current)
           else PROTOCOL_RESOURCE_MODE_HOME)) ;;
  coordinator_set_discovery_suspended_for_policy
    PROTOCOL_DISCOVERY_SUSPEND_MEDIA_OWNERSHIP has_current.

(** ** Service states *)

(** The locked section of [protocol_coordinator_set_service_state]. *)
(* src: source/app/protocol_coordinator.c 1287-1302 protocol_coordinator_set_service_state *)
Definition set_service_state_locked (service : ProtocolService) (st : ProtocolServiceState)
    (now : Z) (c : ProtocolCoordinator) : bool * ProtocolCoordinator :=
  if decide (coord_lifecycle c = PROTOCOL_LIFECYCLE_STOPPED) then (false, c)
  else if decide (per_get (services (snapshot c)) service = st) then (true, c)
  else
    (true, coordinator_bump_revision (coordinator_recompute_state
       { c with snapshot -> services ::= per_set service st;
                service_transition_ms ::= per_set service now })).

(* src: source/app/protocol_coordinator.c protocol_coordinator_set_service_state *)
Definition protocol_coordinator_set_service_state (service : option ProtocolService)
    (st : option ProtocolServiceState) : prog World bool :=
  match service, st with
  | Some service, Some st => locked (set_service_state_locked service st)
  | _, _ => mret false
  end.

(** The same for arguments the C code does not need to check. *)
Definition set_service_state (service : ProtocolService) (st : ProtocolServiceState)
    : prog World unit :=
  protocol_coordinator_set_service_state (Some service) (Some st) ;; mret tt.

(* src: source/app/protocol_coordinator.c coordinator_set_stop_required *)
Definition coordinator_set_stop_required (service : ProtocolService) (required : bool)
    : prog World unit :=
  lock_update (fun _ c => { c with stop_required ::= per_set service required }).

(** ** The service start worker *)

(* src: source/app/protocol_coordinator.c 547-582 coordinator_service_worker_run *)
Definition coordinator_service_worker_run (service : ProtocolService) : prog World unit :=
  '(service_operations, ctx) ← lock_read (fun c =>
     (per_get (op_services (operations c)) service, context (operations c)));
  started ← call_start service (start service_operations) ctx;
  coordinator_set_stop_required service
    (started || stop_after_start_attempt service_operations) ;;
  set_service_state service
    (if (started : bool) then PROTOCOL_SERVICE_RUNNING else PROTOCOL_SERVICE_FAILED) ;;
  lock_update (fun _ c =>
    { c with workers ::= per_upd service (fun w =>
        { w with start_result := started; start_finished := true }) }).

(** ** The resource worker *)

(* src: source/app/protocol_coordinator.c coordinator_resource_transition_allowed *)
Definition coordinator_resource_transition_allowed : prog World bool :=
  lock_read (fun c =>
    runtime_active c &&
    bool_decide (coord_lifecycle c <> PROTOCOL_LIFECYCLE_STOPPING) &&
    bool_decide (coord_lifecycle c <> PROTOCOL_LIFECYCLE_STOPPED)).

(* src: source/app/protocol_coordinator.c coordinator_resource_target_current *)
Definition coordinator_resource_target_current (tgt : ProtocolResourceMode) : prog World bool :=
  lock_read (fun c => bool_decide (desired_resource_mode (snapshot c) = tgt)).

(* src: source/app/protocol_coordinator.c coordinator_set_resource_start_call *)
Definition coordinator_set_resource_start_call (service : ProtocolService) (active : bool)
    : prog World unit :=
  lock_update (fun _ c =>
    { c with resource_worker -> current_service := (if active then Some service else None);
             resource_worker -> start_call_active := active }).

(* src: source/app/protocol_coordinator.c coordinator_service_state *)
Definition coordinator_service_state (service : ProtocolService)
    : prog World ProtocolServiceState :=
  lock_read (fun c => per_get (services (snapshot c)) service).

(* src: source/app/protocol_coordinator.c coordinator_clear_airplay_runtime_status *)
Definition coordinator_clear_airplay_runtime_status : prog World unit :=
  lock_update (fun _ c =>
    let a := airplay (snapshot c) in
    if airplay_running a || airplay_starting a || airplay_pin_visible a
    then coordinator_bump_revision { c with snapshot -> airplay := airplay_zero }
    else c).

(* src: source/app/protocol_coordinator.c coordinator_resource_stop_service *)
Definition coordinator_resource_stop_service (service : ProtocolService)
    (ops : ProtocolCoordinatorOperations) : prog World unit :=
  required ← lock_read (fun c => per_get (stop_required c) service);
  (if non_null (request_stop (per_get (op_services ops) service))
   then call_request_stop service (request_stop (per_get (op_services ops) service))
          (context ops)
   else mret tt) ;;
  (if (required : bool)
   then call_stop service (stop (per_get (op_services ops) service)) (context ops)
   else mret tt) ;;
  coordinator_set_stop_required service false ;;
  set_service_state service PROTOCOL_SERVICE_STOPPED ;;
  if decide (service = PROTOCOL_SERVICE_AIRPLAY)
  then coordinator_clear_airplay_runtime_status else mret tt.

(* src: source/app/protocol_coordinator.c coordinator_resource_start_service *)
Definition coordinator_resource_start_service (service : ProtocolService)
    (ops : ProtocolCoordinatorOperations) : prog World bool :=
  cleanup_required ← lock_read (fun c => per_get (stop_required c) service);
  (if (cleanup_required : bool) then coordinator_resource_stop_service service ops
   else mret tt) ;;
  allowed ← coordinator_resource_transition_allowed;
  if negb allowed then mret false
  else
    set_service_state service PROTOCOL_SERVICE_STARTING ;;
    started ← call_start service (start (per_get (op_services ops) service)) (context ops);
    coordinator_set_stop_required service
      (started || stop_after_start_attempt (per_get (op_services ops) service)) ;;
    set_service_state service
      (if (started : bool) then PROTOCOL_SERVICE_RUNNING else PROTOCOL_SERVICE_FAILED) ;;
    mret started.

(** [allowed() && target_current()], as the loops test it. *)
(* src: source/app/protocol_coordinator.c 712-714 coordinator_resource_worker_run *)
Definition resource_transition_continues (tgt : ProtocolResourceMode) : prog World bool :=
  allowed ← coordinator_resource_transition_allowed;
  if negb allowed then mret false else coordinator_resource_target_current tgt.

(** The first loop: stop what the target does not need, last service first. *)
(* src: source/app/protocol_coordinator.c 707-720 coordinator_resource_worker_run *)
Definition resource_stop_phase (tgt : ProtocolResourceMode) (en : PerService bool)
    (ops : ProtocolCoordinatorOperations) : prog World bool :=
  '(_, completed) ← for_loop (rev all_services) tt (fun service _ =>
     st ← coordinator_service_state service;
     continues ← resource_transition_continues tgt;
     if negb continues then mret (tt, false)
     else if bool_decide (st = PROTOCOL_SERVICE_DISABLED) ||
             bool_decide (st = PROTOCOL_SERVICE_STOPPED) ||
             coordinator_resource_service_required tgt service en
     then mret (tt, true)
     else coordinator_resource_stop_service service ops ;; mret (tt, true));
  mret completed.

(** The second loop: start what the target needs; the accumulator is [success]. *)
(* src: source/app/protocol_coordinator.c 722-738 coordinator_resource_worker_run *)
Definition resource_start_phase (tgt : ProtocolResourceMode) (en : PerService bool)
    (ops : ProtocolCoordinatorOperations) (success : bool) : prog World (bool * bool) :=
  for_loop all_services success (fun service success =>
     st ← coordinator_service_state service;
     continues ← resource_transition_continues tgt;
     if negb continues then mret (success, false)
     else if negb (coordinator_resource_service_required tgt service en) ||
             bool_decide (st = PROTOCOL_SERVICE_RUNNING)
     then mret (success, true)
     else
       coordinator_set_resource_start_call service true ;;
       started ← coordinator_resource_start_service service ops;
       coordinator_set_resource_start_call service false ;;
       mret (success && started, true)).

(** The code at the label [finished]. *)
(* src: source/app/protocol_coordinator.c 747-765 coordinator_resource_worker_run *)
Definition resource_finished_locked (tgt : ProtocolResourceMode) (completed success : bool)
    (now : Z) (c : ProtocolCoordinator) : ProtocolCoordinator :=
  let c1 := { c with resource_worker -> result := completed && success;
                     resource_worker -> finished := true;
                     snapshot -> resource_transition_active := false } in
  let c2 :=
    if completed && success then
      { c1 with snapshot -> applied_resource_mode := tgt;
                snapshot -> resource_transition_failed := false;
                resource_retry_due_ms := 0 }
    else if completed then
      { c1 with snapshot -> resource_transition_failed := true;
                resource_retry_due_ms := u64 (now + PROTOCOL_RESOURCE_RETRY_MS) }
    else c1 in
  coordinator_bump_revision c2.

(* src: source/app/protocol_coordinator.c 688-779 coordinator_resource_worker_run *)
Definition coordinator_resource_worker_run : prog World unit :=
  '(ops, en, tgt) ← lock_read (fun c =>
     (operations c, configured_enabled c, target (resource_worker c)));
  success ←
    (if decide (tgt <> PROTOCOL_RESOURCE_MODE_HOME)
     then coordinator_set_background_network_suspended true else mret true);
  stopped ← resource_stop_phase tgt en ops;
  '(completed, success) ←
    (if negb stopped then mret (false, success)
     else
       '(success, started) ← resource_start_phase tgt en ops success;
       if negb started then mret (false, success)
       else
         current ← coordinator_resource_target_current tgt;
         if negb current then mret (false, success)
         else if decide (tgt = PROTOCOL_RESOURCE_MODE_HOME) then
           resumed ← coordinator_set_background_network_suspended false;
           mret (true, success && resumed)
         else mret (true, success));
  lock_update (fun now c => resource_finished_locked tgt completed success now c).

(** ** Launching and joining workers *)

(* src: source/app/protocol_coordinator.c coordinator_launch_service_worker *)
Definition coordinator_launch_service_worker (service : ProtocolService) : prog World bool :=
  unlocked_update (fun c =>
    { c with workers ::= per_set service { service_worker_zero with worker_service := service } }) ;;
  created ← call_thread_create (ServiceWorkerMain service);
  if negb created then mret false
  else
    lock_update (fun _ c =>
      { c with workers ::= per_upd service (fun w => { w with worker_thread_started := true }) }) ;;
    mret true.

(** [pthread_join] returns once the worker has run to its end, where it has set
    [start_finished]. *)
(* src: source/app/protocol_coordinator.c coordinator_join_service_worker *)
Definition coordinator_join_service_worker (service : ProtocolService) : prog World unit :=
  thread_started ← lock_read (fun c => worker_thread_started (per_get (workers c) service));
  if negb thread_started then mret tt
  else
    await (fun w => start_finished (per_get (workers (w_coord w)) service)) id ;;
    lock_update (fun _ c =>
      { c with workers ::= per_upd service (fun w => { w with worker_thread_started := false }) }).

(* src: source/app/protocol_coordinator.c coordinator_join_resource_worker *)
Definition coordinator_join_resource_worker : prog World unit :=
  thread_started ← lock_read (fun c => resource_thread_started (resource_worker c));
  if negb thread_started then mret tt
  else
    await (fun w => finished (resource_worker (w_coord w))) id ;;
    lock_update (fun _ c => { c with resource_worker -> resource_thread_started := false }).

(* src: source/app/protocol_coordinator.c coordinator_reap_finished_workers *)
Definition coordinator_reap_finished_workers : prog World unit :=
  finished_workers ← lock_read (fun c =>
    filter (fun index => Is_true
      (worker_thread_started (per_get (workers c) index) &&
       start_finished (per_get (workers c) index))) all_services);
  for_each finished_workers coordinator_join_service_worker ;;
  resource_finished ← lock_read (fun c =>
    resource_thread_started (resource_worker c) && finished (resource_worker c));
  if (resource_finished : bool) then coordinator_join_resource_worker else mret tt.

Definition any_worker_started (c : ProtocolCoordinator) : bool :=
  existsb (fun index => worker_thread_started (per_get (workers c) index)) all_services.

(* src: source/app/protocol_coordinator.c coordinator_service_worker_active *)
Definition coordinator_service_worker_active : prog World bool := lock_read any_worker_started.

(** The guard of the first locked section of [coordinator_launch_resource_worker]. *)
(* src: source/app/protocol_coordinator.c 911-925 coordinator_launch_resource_worker *)
Definition resource_launch_refused (now_ms : Z) (c : ProtocolCoordinator) : bool :=
  negb (runtime_active c) || negb (exclusive_media_resources c) ||
  resource_thread_started (resource_worker c) ||
  bool_decide (coord_lifecycle c = PROTOCOL_LIFECYCLE_STOPPING) ||
  bool_decide (coord_lifecycle c = PROTOCOL_LIFECYCLE_STOPPED) ||
  (bool_decide (desired_resource_mode (snapshot c) = applied_resource_mode (snapshot c)) &&
   coordinator_resource_services_match_locked (desired_resource_mode (snapshot c)) c) ||
  (resource_transition_failed (snapshot c) && (now_ms <? resource_retry_due_ms c)).

(* src: source/app/protocol_coordinator.c 904-973 coordinator_launch_resource_worker *)
Definition coordinator_launch_resource_worker : prog World bool :=
  now_ms ← coordinator_monotonic_ms;
  tgt ← lock_read (fun c =>
    if resource_launch_refused now_ms c then None else Some (desired_resource_mode (snapshot c)));
  match tgt with
  | None => mret false
  | Some tgt =>
      active ← coordinator_service_worker_active;
      if (active : bool) then mret false
      else
        unlocked_update (fun c =>
          { c with resource_worker :=
              { resource_worker_zero with target := tgt; current_service := None } }) ;;
        lock_update (fun _ c => coordinator_bump_revision
          { c with snapshot -> resource_transition_active := true;
                   snapshot -> resource_transition_failed := false;
                   resource_transition_ms := now_ms }) ;;
        created ← call_thread_create ResourceWorkerMain;
        if (created : bool) then
          lock_update (fun _ c => { c with resource_worker -> resource_thread_started := true }) ;;
          mret true
        else
          lock_update (fun _ c => coordinator_bump_revision
            { c with snapshot -> resource_transition_active := false;
                     snapshot -> resource_transition_failed := true;
                     resource_retry_due_ms := u64 (now_ms + PROTOCOL_RESOURCE_RETRY_MS) }) ;;
          mret false
  end.

(** [while (next < COUNT)]: the next service that is not disabled, and the new
    value of [next_service_to_start]. *)
(* src: source/app/protocol_coordinator.c 999-1008 coordinator_launch_next_serial_worker *)
Fixpoint next_serial (rest : list ProtocolService) (next : nat)
    (sts : PerService ProtocolServiceState) : option ProtocolService * nat :=
  match rest with
  | [] => (None, next)
  | s :: rest' =>
      if decide (per_get sts s <> PROTOCOL_SERVICE_DISABLED) then (Some s, Datatypes.S next)
      else next_serial rest' (Datatypes.S next) sts
  end.

(* src: source/app/protocol_coordinator.c 981-1010 coordinator_launch_next_serial_worker *)
Definition next_serial_locked (c : ProtocolCoordinator)
    : option ProtocolService * ProtocolCoordinator :=
  if negb (runtime_active c) || negb (serial_startup c) ||
     bool_decide (coord_lifecycle c = PROTOCOL_LIFECYCLE_STOPPING) ||
     bool_decide (coord_lifecycle c = PROTOCOL_LIFECYCLE_STOPPED)
  then (None, c)
  else if any_worker_started c then (None, c)
  else
    let '(s, next) :=
      next_serial (drop (next_service_to_start c) all_services) (next_service_to_start c)
        (services (snapshot c)) in
    (s, { c with next_service_to_start := next }).

(* src: source/app/protocol_coordinator.c 975-1020 coordinator_launch_next_serial_worker *)
Definition coordinator_launch_next_serial_worker : prog World bool :=
  service ← locked (fun _ c => next_serial_locked c);
  match service with
  | None => mret false
  | Some s =>
      launched ← coordinator_launch_service_worker s;
      (if negb launched then set_service_state s PROTOCOL_SERVICE_FAILED else mret tt) ;;
      mret true
  end.

(** ** Start and stop *)

(** The writes that put the media session and its bookkeeping back to zero. *)
(* src: source/app/protocol_coordinator.c 1246-1258 protocol_coordinator_begin_start *)
Definition clear_media (c : ProtocolCoordinator) : ProtocolCoordinator :=
  let session := protocol_media_session_init (media_session (snapshot c)) in
  { c with snapshot -> media_session := session;
           snapshot -> active_media := lease session;
           snapshot -> desired_resource_mode := PROTOCOL_RESOURCE_MODE_HOME;
           snapshot -> applied_resource_mode := PROTOCOL_RESOURCE_MODE_HOME;
           media_claim_ms := 0; media_ready_ms := 0;
           playback_observed_generation := 0; playback_seen_active := false }.

(* src: source/app/protocol_coordinator.c 1239-1277 protocol_coordinator_begin_start *)
Definition begin_start_locked (config : ProtocolCoordinatorConfig) (now : Z)
    (c : ProtocolCoordinator) : bool * ProtocolCoordinator :=
  if decide (coord_lifecycle c <> PROTOCOL_LIFECYCLE_STOPPED) then (false, c)
  else
    let st b := if (b : bool) then PROTOCOL_SERVICE_STARTING else PROTOCOL_SERVICE_DISABLED in
    let c1 :=
      { clear_media c with
          snapshot -> resource_transition_active := false;
          snapshot -> resource_transition_failed := false;
          exclusive_media_resources := config_exclusive_media_resources config;
          configured_enabled := enabled config;
          snapshot -> discovery_suspended := false;
          discovery_suspension_policy :=
            (* an invalid value matches no policy, as NONE does *)
            default PROTOCOL_DISCOVERY_SUSPEND_NONE (config_discovery_suspension_policy config);
          snapshot -> services :=
            mkPer (st (per_iptv (enabled config))) (st (per_dlna (enabled config)))
              (st (per_airplay (enabled config)));
          service_transition_ms := per_all now;
          coord_lifecycle := PROTOCOL_LIFECYCLE_STARTING } in
    (true, coordinator_bump_revision (coordinator_recompute_state c1)).

(* src: source/app/protocol_coordinator.c protocol_coordinator_begin_start *)
Definition protocol_coordinator_begin_start (config : option ProtocolCoordinatorConfig)
    : prog World bool :=
  match config with
  | None => mret false
  | Some config => locked (begin_start_locked config)
  end.

(* src: source/app/protocol_coordinator.c protocol_coordinator_start *)
Definition protocol_coordinator_start (config : option ProtocolCoordinatorConfig)
    (ops : option ProtocolCoordinatorOperations) : prog World bool :=
  if negb (operations_valid config ops) then mret false
  else
    begun ← protocol_coordinator_begin_start config;
    if negb begun then mret false
    else match config, ops with
    | Some config, Some ops =>
        lock_update (fun _ c =>
          { c with operations := ops; runtime_active := true;
                   serial_startup := config_serial_startup config;
                   exclusive_media_resources := config_exclusive_media_resources config;
                   configured_enabled := enabled config;
                   next_service_to_start := 0%nat }) ;;
        if config_serial_startup config then
          coordinator_launch_next_serial_worker ;; mret true
        else
          for_each all_services (fun index =>
            if negb (per_get (enabled config) index) then mret tt
            else
              launched ← coordinator_launch_service_worker index;
              if negb launched then set_service_state index PROTOCOL_SERVICE_FAILED
              else mret tt) ;;
          mret true
    | _, _ => mret false
    end.

(* src: source/app/protocol_coordinator.c protocol_coordinator_begin_stop *)
Definition protocol_coordinator_begin_stop : prog World bool :=
  locked (fun _ c =>
    if bool_decide (coord_lifecycle c = PROTOCOL_LIFECYCLE_STOPPED) ||
       bool_decide (coord_lifecycle c = PROTOCOL_LIFECYCLE_STOPPING)
    then (false, c)
    else (true, coordinator_bump_revision (coordinator_recompute_state
                  { c with coord_lifecycle := PROTOCOL_LIFECYCLE_STOPPING }))).

(** The loop of [finish_stop] over the services. *)
(* src: source/app/protocol_coordinator.c 1329-1337 protocol_coordinator_finish_stop *)
Definition stop_enabled_services (now : Z) (c : ProtocolCoordinator) : ProtocolCoordinator :=
  foldl (fun c index =>
    if decide (per_get (services (snapshot c)) index <> PROTOCOL_SERVICE_DISABLED) then
      { c with snapshot -> services ::= per_set index PROTOCOL_SERVICE_STOPPED;
               service_transition_ms ::= per_set index now }
    else c) c all_services.

(* src: source/app/protocol_coordinator.c 1328-1356 protocol_coordinator_finish_stop *)
Definition finish_stop_locked (now : Z) (c : ProtocolCoordinator) : ProtocolCoordinator :=
  let c1 :=
    { clear_media (stop_enabled_services now c) with
        snapshot -> resource_transition_active := false;
        snapshot -> resource_transition_failed := false;
        discovery_suspension_policy := PROTOCOL_DISCOVERY_SUSPEND_NONE;
        coord_lifecycle := PROTOCOL_LIFECYCLE_STOPPED } in
  coordinator_bump_revision (coordinator_recompute_state c1).

(* src: source/app/protocol_coordinator.c protocol_coordinator_finish_stop *)
Definition protocol_coordinator_finish_stop : prog World unit :=
  player_ownership_transition_begin ;;
  player_ownership_reset ;;
  coordinator_set_discovery_suspended false ;;
  lock_update finish_stop_locked ;;
  player_ownership_transition_end.

(* src: source/app/protocol_coordinator.c 1215-1229 protocol_coordinator_stop *)
Definition stop_cleanup_locked (c : ProtocolCoordinator) : ProtocolCoordinator :=
  { c with operations := ops_zero; stop_required := per_all false;
           runtime_active := false; serial_startup := false;
           exclusive_media_resources := false; configured_enabled := per_all false;
           resource_worker := resource_worker_zero;
           discovery_suspension_policy := PROTOCOL_DISCOVERY_SUSPEND_NONE;
           next_service_to_start := 0%nat }.

(* src: source/app/protocol_coordinator.c 1166-1230 protocol_coordinator_stop *)
Definition protocol_coordinator_stop : prog World unit :=
  begun ← protocol_coordinator_begin_stop;
  if negb begun then mret tt
  else
    '(ops, request) ← lock_read (fun c =>
       (operations c,
        fun index => runtime_active c &&
          bool_decide (per_get (services (snapshot c)) index <> PROTOCOL_SERVICE_DISABLED) &&
          non_null (request_stop (per_get (op_services (operations c)) index))));
    for_each (rev all_services) (fun index =>
      if (request index : bool)
      then call_request_stop index (request_stop (per_get (op_services ops) index)) (context ops)
      else mret tt) ;;
    coordinator_join_resource_worker ;;
    for_each all_services coordinator_join_service_worker ;;
    '(active, ops, required) ← lock_read (fun c =>
       (runtime_active c, operations c, stop_required c));
    for_each (rev all_services) (fun index =>
      if negb active || negb (per_get required index) then mret tt
      else
        call_stop index (stop (per_get (op_services ops) index)) (context ops) ;;
        set_service_state index PROTOCOL_SERVICE_STOPPED) ;;
    protocol_coordinator_finish_stop ;;
    coordinator_set_background_network_suspended false ;;
    lock_update (fun _ c => stop_cleanup_locked c).

(* src: source/app/protocol_coordinator.c 1045-1082 protocol_coordinator_reset *)
Definition reset_coordinator_locked (c : ProtocolCoordinator) : ProtocolCoordinator :=
  let rev := revision (snapshot c) in
  let session := protocol_media_session_init session_zero in
  coordinator_bump_revision
    { coordinator_zero with
        mutex_ready := mutex_ready c;
        snapshot -> media_session := session;
        snapshot -> active_media := lease session;
        snapshot -> revision := rev }.

(* src: source/app/protocol_coordinator.c 1032-1084 protocol_coordinator_reset *)
Definition protocol_coordinator_reset : prog World unit :=
  active ← lock_read runtime_active;
  (if (active : bool) then protocol_coordinator_stop else mret tt) ;;
  player_ownership_transition_begin ;;
  player_ownership_reset ;;
  lock_update (fun _ c => reset_coordinator_locked c) ;;
  player_ownership_transition_end.

(** [pin[sizeof pin - 1] = 0; status[sizeof status - 1] = 0] *)
(* src: source/app/protocol_coordinator.c 1150-1151 protocol_coordinator_tick *)
Definition airplay_terminate (a : ProtocolAirPlayStatus) : ProtocolAirPlayStatus :=
  { a with airplay_pin ::= fun l => <[pred PROTOCOL_AIRPLAY_PIN_SIZE := 0]> l;
           airplay_status ::= fun l => <[pred PROTOCOL_AIRPLAY_STATUS_MAX := 0]> l }.

(* src: source/app/protocol_coordinator.c 1126-1164 protocol_coordinator_tick *)
Definition protocol_coordinator_tick : prog World unit :=
  coordinator_reap_finished_workers ;;
  coordinator_launch_next_serial_worker ;;
  coordinator_sync_active_media ;;
  coordinator_launch_resource_worker ;;
  '(ops, poll_airplay) ← lock_read (fun c =>
     (operations c,
      runtime_active c && per_get (stop_required c) PROTOCOL_SERVICE_AIRPLAY &&
      bool_decide (coord_lifecycle c <> PROTOCOL_LIFECYCLE_STOPPING) &&
      bool_decide (coord_lifecycle c <> PROTOCOL_LIFECYCLE_STOPPED)));
  if negb poll_airplay then mret tt
  else
    '(ok, status) ← call_get_status (airplay_get_status ops) (context ops);
    if negb ok then mret tt
    else
      let status := airplay_terminate status in
      lock_update (fun _ c =>
        if negb (airplay_status_equal (airplay (snapshot c)) status)
        then coordinator_bump_revision { c with snapshot -> airplay := status }
        else c) ;;
      set_service_state PROTOCOL_SERVICE_AIRPLAY
        (if airplay_running status then PROTOCOL_SERVICE_RUNNING
         else if airplay_starting status then PROTOCOL_SERVICE_STARTING
         else PROTOCOL_SERVICE_FAILED).

(** ** Media transactions *)

(* src: source/app/protocol_coordinator.c protocol_coordinator_media_current *)
Definition protocol_coordinator_media_current (lease_out : bool)
    : prog World (bool * PlayerOwnershipLease) :=
  player_ownership_current lease_out.

(* src: source/app/protocol_coordinator.c protocol_coordinator_media_validate *)
Definition protocol_coordinator_media_validate (l : option PlayerOwnershipLease)
    : prog World bool :=
  player_ownership_validate l.

(** The takeover of another family's AirPlay owner: [false] rejects the claim. *)
(* src: source/app/protocol_coordinator.c 1604-1626 protocol_coordinator_media_begin *)
Definition takeover_airplay (ow : PlayerMediaOwner) : prog World bool :=
  exclusive ← coordinator_exclusive_resources_enabled;
  if negb exclusive then mret true
  else
    '(has_previous, previous) ← player_ownership_current true;
    if (has_previous : bool) && owner_is_airplay (owner previous) &&
       bool_decide (resource_mode_for_owner (owner previous) <> resource_mode_for_owner ow)
    then coordinator_release_airplay_owner (Some previous)
    else mret true.

(** What follows a successful change of the owner, inside the transition. *)
(* src: source/app/protocol_coordinator.c 1658-1661 protocol_coordinator_media_begin *)
Definition publish_claim (l : PlayerOwnershipLease) (ow : PlayerMediaOwner) : prog World unit :=
  coordinator_set_active_media (Some l) ;;
  coordinator_set_desired_resource_mode (Some (resource_mode_for_owner ow)) ;;
  coordinator_set_discovery_suspended_for_policy
    PROTOCOL_DISCOVERY_SUSPEND_MEDIA_OWNERSHIP true.

(* src: source/app/protocol_coordinator.c 1769-1772 protocol_coordinator_media_release *)
Definition publish_release : prog World unit :=
  coordinator_set_active_media None ;;
  coordinator_set_desired_resource_mode (Some PROTOCOL_RESOURCE_MODE_HOME) ;;
  coordinator_set_discovery_suspended_for_policy
    PROTOCOL_DISCOVERY_SUSPEND_MEDIA_OWNERSHIP false.

(** Whether the exclusive mode refuses [ow] while [previous] owns the player. *)
(* src: source/app/protocol_coordinator.c 1630-1633 protocol_coordinator_media_begin *)
Definition exclusive_conflict (exclusive has_previous : bool)
    (previous : PlayerOwnershipLease) (ow : PlayerMediaOwner) : bool :=
  exclusive && has_previous &&
  bool_decide (resource_mode_for_owner (owner previous) <> resource_mode_for_owner ow).

(* src: source/app/protocol_coordinator.c 1584-1674 protocol_coordinator_media_begin *)
Definition protocol_coordinator_media_begin (ow : PlayerMediaOwner) (tk : Z)
    (transaction_out : bool) : prog World (option ProtocolMediaTransaction) :=
  if negb transaction_out || owner_eqb ow PLAYER_MEDIA_OWNER_NONE then mret None
  else
    accepts ← coordinator_accepts_media;
    if negb accepts then mret None
    else
      taken ← takeover_airplay ow;
      if negb taken then mret None
      else
        player_ownership_transition_begin ;;
        '(has_previous, previous) ← player_ownership_current true;
        accepts ← coordinator_accepts_media;
        exclusive ← coordinator_exclusive_resources_enabled;
        if negb accepts || exclusive_conflict exclusive has_previous previous ow then
          player_ownership_transition_end ;; mret None
        else
          claimed ← player_ownership_claim ow tk true;
          match claimed with
          | None => player_ownership_transition_end ;; mret None
          | Some (lease, previous) =>
              publish_claim lease ow ;;
              player_ownership_transition_end ;;
              mret (Some (mkTransaction true lease previous))
          end.

(* src: source/app/protocol_coordinator.c protocol_coordinator_media_release *)
Definition protocol_coordinator_media_release (l : option PlayerOwnershipLease)
    : prog World bool :=
  player_ownership_transition_begin ;;
  released ← player_ownership_release l;
  (if (released : bool) then publish_release else mret tt) ;;
  player_ownership_transition_end ;;
  mret released.

(* src: source/app/protocol_coordinator.c protocol_coordinator_media_release_current *)
Definition protocol_coordinator_media_release_current (ow : PlayerMediaOwner) (tk : Z)
    : prog World bool :=
  player_ownership_transition_begin ;;
  released ← player_ownership_release_current ow tk;
  (if (released : bool) then publish_release else mret tt) ;;
  player_ownership_transition_end ;;
  mret released.

(** The transaction after the call. *)
(* src: source/app/protocol_coordinator.c protocol_coordinator_media_end *)
Definition protocol_coordinator_media_end (t : option ProtocolMediaTransaction)
    : option ProtocolMediaTransaction :=
  match t with
  | Some t => if negb (transaction_active t) then Some t
              else Some { t with transaction_active := false }
  | None => None
  end.

(* src: source/app/protocol_coordinator.c protocol_coordinator_media_abort *)
Definition protocol_coordinator_media_abort (t : option ProtocolMediaTransaction)
    : prog World (option ProtocolMediaTransaction) :=
  match t with
  | None => mret None
  | Some tr =>
      if negb (transaction_active tr) then mret t
      else
        player_ownership_transition_begin ;;
        released ← player_ownership_release (Some (transaction_lease tr));
        (if (released : bool) then publish_release else mret tt) ;;
        player_ownership_transition_end ;;
        mret (protocol_coordinator_media_end t)
  end.

(** ** Guards *)

(* src: source/app/protocol_coordinator.c protocol_coordinator_media_guard_begin *)
Definition protocol_coordinator_media_guard_begin (ow : PlayerMediaOwner) (tk : Z)
    (guard_out : bool) : prog World (option ProtocolMediaGuard) :=
  if negb guard_out || owner_eqb ow PLAYER_MEDIA_OWNER_NONE then mret None
  else
    accepts ← coordinator_accepts_media;
    if negb accepts then mret None
    else
      player_ownership_transition_begin ;;
      '(has_owner, l) ← player_ownership_current true;
      accepts ← coordinator_accepts_media;
      if negb accepts || negb has_owner || negb (owner_eqb (owner l) ow) ||
         negb (token l =? tk)
      then player_ownership_transition_end ;; mret None
      else player_ownership_transition_end ;; mret (Some (mkGuard true l)).

(* src: source/app/protocol_coordinator.c protocol_coordinator_media_unowned_or_owner_guard_begin *)
Definition protocol_coordinator_media_unowned_or_owner_guard_begin (ow : PlayerMediaOwner)
    (tk : Z) (guard_out : bool) : prog World (option ProtocolMediaGuard) :=
  if negb guard_out || owner_eqb ow PLAYER_MEDIA_OWNER_NONE then mret None
  else
    accepts ← coordinator_accepts_guard false;
    if negb accepts then mret None
    else
      player_ownership_transition_begin ;;
      '(has_owner, l) ← player_ownership_current true;
      accepts ← coordinator_accepts_guard false;
      if negb accepts ||
         ((has_owner : bool) && (negb (owner_eqb (owner l) ow) || negb (token l =? tk)))
      then player_ownership_transition_end ;; mret None
      else player_ownership_transition_end ;; mret (Some (mkGuard true l)).

(* src: source/app/protocol_coordinator.c protocol_coordinator_media_lease_guard_begin *)
Definition protocol_coordinator_media_lease_guard_begin (l : option PlayerOwnershipLease)
    (allow_stopping guard_out : bool) : prog World (option ProtocolMediaGuard) :=
  match l with
  | None => mret None
  | Some l =>
      if negb guard_out || owner_eqb (owner l) PLAYER_MEDIA_OWNER_NONE then mret None
      else
        accepts ← coordinator_accepts_guard allow_stopping;
        if negb accepts then mret None
        else
          player_ownership_transition_begin ;;
          accepts ← coordinator_accepts_guard allow_stopping;
          valid ← (if negb accepts then mret false else player_ownership_validate (Some l));
          if negb accepts || negb valid
          then player_ownership_transition_end ;; mret None
          else player_ownership_transition_end ;; mret (Some (mkGuard true l))
  end.

(* src: source/app/protocol_coordinator.c protocol_coordinator_media_barrier_begin *)
Definition protocol_coordinator_media_barrier_begin (guard_out : bool)
    : prog World (option ProtocolMediaGuard) :=
  if negb guard_out then mret None
  else
    player_ownership_transition_begin ;;
    '(_, l) ← player_ownership_current true;
    player_ownership_transition_end ;;
    mret (Some (mkGuard true l)).

(* src: source/app/protocol_coordinator.c protocol_coordinator_media_guard_end *)
Definition protocol_coordinator_media_guard_end (g : option ProtocolMediaGuard)
    : option ProtocolMediaGuard :=
  match g with
  | Some g => if negb (guard_active g) then Some g else Some { g with guard_active := false }
  | None => None
  end.

(** ** Playback observation *)

(* src: source/app/protocol_coordinator.c protocol_coordinator_set_playback_active *)
Definition protocol_coordinator_set_playback_active (active : bool) : prog World unit :=
  coordinator_set_discovery_suspended_for_policy
    PROTOCOL_DISCOVERY_SUSPEND_PLAYBACK_ACTIVITY active.

(** [resource_ready]: the exclusive service set of the owner is in place. *)
(* src: source/app/protocol_coordinator.c 1454-1460 protocol_coordinator_observe_playback *)
Definition resource_ready (c : ProtocolCoordinator) : bool :=
  bool_decide (desired_resource_mode (snapshot c) = applied_resource_mode (snapshot c)) &&
  negb (resource_transition_active (snapshot c)) &&
  negb (resource_transition_failed (snapshot c)) &&
  coordinator_resource_services_match_locked (desired_resource_mode (snapshot c)) c.

(** The locked section: the lease to release, if the playback is over. *)
(* src: source/app/protocol_coordinator.c 1434-1478 protocol_coordinator_observe_playback *)
Definition observe_playback_locked (active terminal : bool) (now_ms : Z)
    (c : ProtocolCoordinator) : option PlayerOwnershipLease * ProtocolCoordinator :=
  if exclusive_media_resources c &&
     negb (owner_eqb (owner (active_media (snapshot c))) PLAYER_MEDIA_OWNER_NONE)
  then
    let gen := generation (active_media (snapshot c)) in
    let c1 :=
      if negb (playback_observed_generation c =? gen) then
        { c with playback_observed_generation := gen; playback_seen_active := false;
                 media_claim_ms := now_ms }
      else c in
    let c2 :=
      if active then { c1 with playback_seen_active := true; media_ready_ms := 0 } else c1 in
    let seen_active := playback_seen_active c2 in
    let c3 :=
      if negb active && terminal && negb seen_active then
        if negb (resource_ready c2) then { c2 with media_ready_ms := 0 }
        else if media_ready_ms c2 =? 0 then { c2 with media_ready_ms := now_ms }
        else c2
      else c2 in
    if terminal &&
       (playback_seen_active c3 ||
        ((0 <? media_ready_ms c3) && (media_ready_ms c3 <=? now_ms) &&
         (PROTOCOL_TERMINAL_RELEASE_GRACE_MS <=? now_ms - media_ready_ms c3)))
    then (Some (active_media (snapshot c3)), c3)
    else (None, c3)
  else (None, c).

(* src: source/app/protocol_coordinator.c protocol_coordinator_observe_playback *)
Definition protocol_coordinator_observe_playback (active terminal : bool) : prog World unit :=
  now_ms ← coordinator_monotonic_ms;
  protocol_coordinator_set_playback_active active ;;
  (if active then
     '(has_current, l) ← protocol_coordinator_media_current true;
     if (has_current : bool) then
       protocol_coordinator_media_submit_event
         (Some (mkEvent PROTOCOL_MEDIA_EVENT_ACTIVE l)) ;; mret tt
     else mret tt
   else mret tt) ;;
  release ← locked (fun _ c => observe_playback_locked active terminal now_ms c);
  match release with
  | None => mret tt
  | Some l =>
      protocol_coordinator_media_submit_event
        (Some (mkEvent PROTOCOL_MEDIA_EVENT_ENDED l)) ;;
      protocol_coordinator_media_release (Some l) ;;
      mret tt
  end.

(** The event an owned player's state stands for, and [active] and [terminal]. *)
(* src: source/app/protocol_coordinator.c 1506-1539 protocol_coordinator_observe_player_state *)
Definition player_state_event (st : PlayerState)
    : option ProtocolMediaEventKind * bool * bool :=
  match st with
  | PLAYER_STATE_LOADING
  | PLAYER_STATE_BUFFERING => (Some PROTOCOL_MEDIA_EVENT_LOAD_REQUESTED, false, false)
  | PLAYER_STATE_SEEKING => (Some PROTOCOL_MEDIA_EVENT_ACTIVE, true, false)
  | PLAYER_STATE_PLAYING => (Some PROTOCOL_MEDIA_EVENT_PLAYING, true, false)
  | PLAYER_STATE_PAUSED => (Some PROTOCOL_MEDIA_EVENT_PAUSED, true, false)
  | PLAYER_STATE_ERROR => (Some PROTOCOL_MEDIA_EVENT_FAILED, false, true)
  | PLAYER_STATE_IDLE
  | PLAYER_STATE_STOPPED => (None, false, true)
  end.

(* src: source/app/protocol_coordinator.c protocol_coordinator_observe_player_state *)
Definition protocol_coordinator_observe_player_state (st : PlayerState) : prog World unit :=
  '(has_current, l) ← protocol_coordinator_media_current true;
  if (has_current : bool) then
    let '(event, active, terminal) := player_state_event st in
    (match event with
     | Some k => protocol_coordinator_media_submit_event (Some (mkEvent k l)) ;; mret tt
     | None => mret tt
     end) ;;
    protocol_coordinator_observe_playback active terminal
  else
    protocol_coordinator_observe_playback false
      (bool_decide (st = PLAYER_STATE_IDLE) || bool_decide (st = PLAYER_STATE_STOPPED) ||
       bool_decide (st = PLAYER_STATE_ERROR)).

(** ** The snapshot *)

(** [then > 0 && now >= then ? now - then : 0] *)
Definition age_ms (now_ms since_ms : Z) : Z :=
  if (0 <? since_ms) && (since_ms <=? now_ms) then now_ms - since_ms else 0.

(* src: source/app/protocol_coordinator.c 1560-1580 protocol_coordinator_get_snapshot *)
Definition snapshot_locked (now_ms : Z) (c : ProtocolCoordinator) : ProtocolCoordinatorSnapshot :=
  let active w := worker_thread_started w && negb (start_finished w) in
  let per {A B} (f : A -> B) (a : PerService A) :=
    mkPer (f (per_iptv a)) (f (per_dlna a)) (f (per_airplay a)) in
  { snapshot c with
      service_worker_active := per active (workers c);
      service_transition_age_ms := per (age_ms now_ms) (service_transition_ms c);
      resource_transition_age_ms :=
        (if resource_transition_active (snapshot c)
         then age_ms now_ms (resource_transition_ms c) else 0) }.

(* src: source/app/protocol_coordinator.c protocol_coordinator_get_snapshot *)
Definition protocol_coordinator_get_snapshot (snapshot_out : bool)
    : prog World (option ProtocolCoordinatorSnapshot) :=
  if negb snapshot_out then mret None
  else locked (fun now c => (Some (snapshot_locked now c), c)).

(** ** Waiting for resources *)

(** The locked section: (ready, failed, accepting). *)
(* src: source/app/protocol_coordinator.c 1707-1726 protocol_coordinator_media_wait_resources *)
Definition wait_status (l : PlayerOwnershipLease) (c : ProtocolCoordinator)
    : bool * bool * bool :=
  let expected := resource_mode_for_owner (owner l) in
  let ready :=
    owner_eqb (owner (active_media (snapshot c))) (owner l) &&
    (token (active_media (snapshot c)) =? token l) &&
    (generation (active_media (snapshot c)) =? generation l) &&
    (negb (exclusive_media_resources c) ||
     (bool_decide (applied_resource_mode (snapshot c) = expected) &&
      negb (resource_transition_active (snapshot c)) &&
      coordinator_resource_services_match_locked expected c)) in
  (ready, resource_transition_failed (snapshot c), lifecycle_accepts (coord_lifecycle c)).

(** [timeout_ms != UINT32_MAX && now - start >= timeout] *)
Definition wait_expired (timeout_ms start_ms : Z) : prog World bool :=
  if timeout_ms =? UINT32_MAX then mret false
  else
    now ← coordinator_monotonic_ms;
    mret (timeout_ms <=? u64 (now - start_ms)).

(** The [for (;;)] loop with [fuel] rounds; [None] when they are used up. *)
(* src: source/app/protocol_coordinator.c 1705-1736 protocol_coordinator_media_wait_resources *)
Fixpoint wait_resources_loop (fuel : nat) (l : PlayerOwnershipLease)
    (timeout_ms start_ms : Z) : prog World (option bool) :=
  match fuel with
  | O => mret None
  | Datatypes.S fuel' =>
      '(ready, failed, accepting) ← lock_read (wait_status l);
      if (ready : bool) then
        valid ← protocol_coordinator_media_validate (Some l); mret (Some valid)
      else
        valid ← (if negb accepting || failed then mret false
                 else protocol_coordinator_media_validate (Some l));
        if negb accepting || failed || negb valid then mret (Some false)
        else
          expired ← wait_expired timeout_ms start_ms;
          if (expired : bool) then mret (Some false)
          else coordinator_sleep_ms 1 ;; wait_resources_loop fuel' l timeout_ms start_ms
  end.

(* src: source/app/protocol_coordinator.c protocol_coordinator_media_wait_resources *)
Definition protocol_coordinator_media_wait_resources (fuel : nat)
    (l : option PlayerOwnershipLease) (timeout_ms : Z) : prog World (option bool) :=
  match l with
  | None => mret (Some false)
  | Some l =>
      if owner_eqb (owner l) PLAYER_MEDIA_OWNER_NONE then mret (Some false)
      else
        start_ms ← coordinator_monotonic_ms;
        wait_resources_loop fuel l timeout_ms start_ms
  end.

(* src: source/app/protocol_coordinator.c 1747-1758 protocol_coordinator_media_drive_resources *)
Fixpoint drive_resources_loop (fuel : nat) (l : PlayerOwnershipLease)
    (timeout_ms start_ms : Z) : prog World (option bool) :=
  match fuel with
  | O => mret None
  | Datatypes.S fuel' =>
      protocol_coordinator_tick ;;
      ready ← protocol_coordinator_media_wait_resources 1 (Some l) 0;
      if default false ready then mret (Some true)
      else
        valid ← protocol_coordinator_media_validate (Some l);
        if negb valid then mret (Some false)
        else
          expired ← wait_expired timeout_ms start_ms;
          if (expired : bool) then mret (Some false)
          else coordinator_sleep_ms 1 ;; drive_resources_loop fuel' l timeout_ms start_ms
  end.

(* src: source/app/protocol_coordinator.c protocol_coordinator_media_drive_resources *)
Definition protocol_coordinator_media_drive_resources (fuel : nat)
    (l : option PlayerOwnershipLease) (timeout_ms : Z) : prog World (option bool) :=
  match l with
  | None => mret (Some false)
  | Some l =>
      if owner_eqb (owner l) PLAYER_MEDIA_OWNER_NONE then mret (Some false)
      else
        start_ms ← coordinator_monotonic_ms;
        drive_resources_loop fuel l timeout_ms start_ms
  end.

End coordinator.
