(* ===== verification/CoordConcurrent.v ===== *)
(** * The coordinator under every interleaving

    What holds of the coordinator's published state after every step of every
    interleaving of its public functions, worker threads and callbacks. *)

From S2P Require Import Prelude Prog Ownership MediaSession CoordData Coordinator.

(** ** The published state *)

Definition any_service (sts : PerService ProtocolServiceState) (st : ProtocolServiceState)
    : Prop := exists s, per_get sts s = st.

Definition is_owned (l : PlayerOwnershipLease) : Prop := owner l <> PLAYER_MEDIA_OWNER_NONE.

(** What the published state says, by lifecycle, services and owner. *)
Inductive published (sts : PerService ProtocolServiceState) (l : PlayerOwnershipLease)
    : ProtocolLifecycle -> ProtocolCoordinatorState -> Prop :=
| pub_stopped :
    published sts l PROTOCOL_LIFECYCLE_STOPPED PROTOCOL_COORDINATOR_STOPPED
| pub_stopping :
    published sts l PROTOCOL_LIFECYCLE_STOPPING PROTOCOL_COORDINATOR_STOPPING
| pub_starting :
    any_service sts PROTOCOL_SERVICE_STARTING ->
    published sts l PROTOCOL_LIFECYCLE_STARTING PROTOCOL_COORDINATOR_STARTING
| pub_media :
    is_owned l ->
    published sts l PROTOCOL_LIFECYCLE_RUNNING PROTOCOL_COORDINATOR_MEDIA_ACTIVE
| pub_failed :
    ~ is_owned l -> ~ any_service sts PROTOCOL_SERVICE_RUNNING ->
    any_service sts PROTOCOL_SERVICE_FAILED ->
    published sts l PROTOCOL_LIFECYCLE_RUNNING PROTOCOL_COORDINATOR_FAILED
| pub_ready :
    ~ is_owned l ->
    any_service sts PROTOCOL_SERVICE_RUNNING \/ ~ any_service sts PROTOCOL_SERVICE_FAILED ->
    published sts l PROTOCOL_LIFECYCLE_RUNNING PROTOCOL_COORDINATOR_READY.

(** The lease shown to clients is the session's, and the session is well formed. *)
Definition session_ok (c : ProtocolCoordinator) : Prop :=
  active_media (snapshot c) = lease (media_session (snapshot c)) /\
  session_wf (media_session (snapshot c)).

Definition coord_ok (c : ProtocolCoordinator) : Prop :=
  session_ok c /\
  published (services (snapshot c)) (active_media (snapshot c)) (coord_lifecycle c)
    (state (snapshot c)).

(** A client that polls the revision sees every change of the snapshot. *)
Definition snap_rel (s s' : ProtocolCoordinatorSnapshot) : Prop :=
  s' = s \/ revision s' = bump32 (revision s).

Definition world_inv (w : World) : Prop := coord_ok (w_coord w) /\ own_inv (w_own w).

Definition world_rel (w w' : World) : Prop :=
  snap_rel (snapshot (w_coord w)) (snapshot (w_coord w')).

(** What a locked section must do. *)
Definition good_step (c c' : ProtocolCoordinator) : Prop :=
  coord_ok c' /\ snap_rel (snapshot c) (snapshot c').

(** A program that keeps the invariant at every step. *)
Definition keeps {A} (p : prog World A) : Prop := obeys world_inv world_rel p (fun _ => True).

(** The functions behind the operation pointers may call the coordinator again,
    but must not write its static variables themselves. *)
Class CallbacksKeep `{!Callbacks} : Prop := {
  keep_start f ctx : keeps (cb_start f ctx);
  keep_request_stop f ctx : keeps (cb_request_stop f ctx);
  keep_stop f ctx : keeps (cb_stop f ctx);
  keep_get_status f ctx : keeps (cb_airplay_get_status f ctx);
  keep_release_media f l ctx : keeps (cb_airplay_release_active_media f l ctx);
  keep_set_discovery f ctx b : keeps (cb_set_discovery_suspended f ctx b);
  keep_set_background f ctx b : keeps (cb_set_background_network_suspended f ctx b);
  keep_thread_create m : keeps (thread_create m)
}.

(** What a thread of the program may run, with arguments of its choice. *)
Inductive api `{!Callbacks} : thread World -> Prop :=
| api_reset : api protocol_coordinator_reset
| api_start config ops : api (protocol_coordinator_start config ops ;; mret tt)
| api_begin_start config : api (protocol_coordinator_begin_start config ;; mret tt)
| api_begin_stop : api (protocol_coordinator_begin_stop ;; mret tt)
| api_finish_stop : api protocol_coordinator_finish_stop
| api_stop : api protocol_coordinator_stop
| api_tick : api protocol_coordinator_tick
| api_set_service_state s st : api (protocol_coordinator_set_service_state s st ;; mret tt)
| api_submit_event e : api (protocol_coordinator_media_submit_event e ;; mret tt)
| api_observe_player_state st : api (protocol_coordinator_observe_player_state st)
| api_observe_playback a t : api (protocol_coordinator_observe_playback a t)
| api_set_playback_active a : api (protocol_coordinator_set_playback_active a)
| api_media_begin ow tk out : api (protocol_coordinator_media_begin ow tk out ;; mret tt)
| api_media_abort t : api (protocol_coordinator_media_abort t ;; mret tt)
| api_media_release l : api (protocol_coordinator_media_release l ;; mret tt)
| api_media_release_current ow tk :
    api (protocol_coordinator_media_release_current ow tk ;; mret tt)
| api_media_current out : api (protocol_coordinator_media_current out ;; mret tt)
| api_media_validate l : api (protocol_coordinator_media_validate l ;; mret tt)
| api_guard_begin ow tk out : api (protocol_coordinator_media_guard_begin ow tk out ;; mret tt)
| api_unowned_guard_begin ow tk out :
    api (protocol_coordinator_media_unowned_or_owner_guard_begin ow tk out ;; mret tt)
| api_lease_guard_begin l s out :
    api (protocol_coordinator_media_lease_guard_begin l s out ;; mret tt)
| api_barrier_begin out : api (protocol_coordinator_media_barrier_begin out ;; mret tt)
| api_get_snapshot out : api (protocol_coordinator_get_snapshot out ;; mret tt)
| api_wait_resources fuel l ms :
    api (protocol_coordinator_media_wait_resources fuel l ms ;; mret tt)
| api_drive_resources fuel l ms :
    api (protocol_coordinator_media_drive_resources fuel l ms ;; mret tt)
| api_service_worker s : api (coordinator_service_worker_run s)
| api_resource_worker : api coordinator_resource_worker_run.

(** The clock moves at any time. *)
Definition clock_step (w w' : World) : Prop := exists t, w' = { w with w_now := t }.

(** The states the program can reach: any number of threads, each running a
    function of [api], started at any time and interleaved in any way. *)
Definition coordinator_step `{!Callbacks} :
    World * list (thread World) -> World * list (thread World) -> Prop :=
  pool_step api clock_step.

(** ** Schedules and example runs *)

(** At most [n] actions of thread [i]. *)
Fixpoint run_thread (n i : nat) (c : World * list (thread World))
    : World * list (thread World) :=
  match n with
  | O => c
  | Datatypes.S n' =>
      match c.2 !! i with
      | Some (Act g u k) =>
          if g c.1 then run_thread n' i (u c.1, <[i := k c.1]> c.2) else c
      | _ => c
      end
  end.

Definition run_schedule (l : list (nat * nat)) (c : World * list (thread World)) :=
  foldl (fun c '(i, n) => run_thread n i c) c l.

(** Callbacks that return at once. *)
Definition quiet_callbacks : Callbacks := {|
  cb_start _ _ := mret true;
  cb_request_stop _ _ := mret tt;
  cb_stop _ _ := mret tt;
  cb_airplay_get_status _ _ := mret (true, airplay_zero);
  cb_airplay_release_active_media _ _ _ := mret true;
  cb_set_discovery_suspended _ _ _ := mret tt;
  cb_set_background_network_suspended _ _ _ := mret true;
  thread_create _ := mret true
|}.

(** Every service enabled, with exclusive resources. *)
Definition demo_config : ProtocolCoordinatorConfig :=
  mkConfig (per_all true) false true (Some PROTOCOL_DISCOVERY_SUSPEND_MEDIA_OWNERSHIP).
Definition demo_operations : ProtocolCoordinatorOperations :=
  mkOps 7 (per_all (mkServiceOps (Some 1) (Some 2) (Some 3) false)) (Some 4) (Some 5)
    (Some 6) (Some 8).
Definition demo_threads `{!Callbacks} : list (thread World) :=
  [protocol_coordinator_start (Some demo_config) (Some demo_operations) ;; mret tt;
   coordinator_service_worker_run PROTOCOL_SERVICE_IPTV;
   coordinator_service_worker_run PROTOCOL_SERVICE_DLNA;
   coordinator_service_worker_run PROTOCOL_SERVICE_AIRPLAY;
   protocol_coordinator_media_begin PLAYER_MEDIA_OWNER_DLNA 7 true ;; mret tt;
   protocol_coordinator_media_release (Some (mkLease PLAYER_MEDIA_OWNER_DLNA 7 1)) ;; mret tt;
   protocol_coordinator_tick].

(** The services start, a DLNA controller claims the player, and a tick reads
    the owner; the release then runs to its end before the tick goes on. *)
Definition race_schedule : list (nat * nat) :=
  [(0, 100); (1, 100); (2, 100); (3, 100); (4, 100); (6, 13); (5, 100); (6, 100)]%nat.

Definition quiet_run (l : list (nat * nat)) : World * list (thread World) := run_schedule l (world_zero, @demo_threads quiet_callbacks).

(** A discovery callback that gives the player back. *)
Definition releasing_callbacks : Callbacks := {|
  cb_start _ _ := mret true;
  cb_request_stop _ _ := mret tt;
  cb_stop _ _ := mret tt;
  cb_airplay_get_status _ _ := mret (true, airplay_zero);
  cb_airplay_release_active_media _ _ _ := mret true;
  cb_set_discovery_suspended _ _ _ :=
    @protocol_coordinator_media_release_current quiet_callbacks PLAYER_MEDIA_OWNER_DLNA 7 ;;
    mret tt;
  cb_set_background_network_suspended _ _ _ := mret true;
  thread_create _ := mret true
|}.

(** The world once the coordinator was started and its services run. *)
Definition demo_running : World := (quiet_run (take 4 race_schedule)).1.

(** ** Lemmas *)

Lemma has_service_in_spec c st :
  has_service_in c st = true <-> any_service (services (snapshot c)) st.
Proof.
  unfold has_service_in, any_service. rewrite existsb_exists. split.
  - intros (s & _ & H). exists s. by apply bool_decide_eq_true in H.
  - intros (s & H). exists s. split; [destruct s; cbn; auto | by apply bool_decide_eq_true].
Qed.

Lemma has_service_in_false c st :
  has_service_in c st = false <-> ~ any_service (services (snapshot c)) st.
Proof. by rewrite <- has_service_in_spec, not_true_iff_false. Qed.

Lemma owned_eqb l :
  negb (owner_eqb (owner l) PLAYER_MEDIA_OWNER_NONE) = true <-> is_owned l.
Proof. unfold is_owned. by rewrite negb_true_iff, <- not_true_iff_false, owner_eqb_eq. Qed.

(** What [coordinator_recompute_state] leaves alone. *)
Lemma recompute_snapshot c :
  exists st, snapshot (coordinator_recompute_state c) = { snapshot c with state := st }.
Proof.
  unfold coordinator_recompute_state. repeat case_match; rsimpl; by eexists.
Qed.

(** The recomputed state is the published one. *)
Lemma recompute_published c :
  let c' := coordinator_recompute_state c in
  published (services (snapshot c')) (active_media (snapshot c')) (coord_lifecycle c')
    (state (snapshot c')).
Proof.
  cbv zeta. unfold coordinator_recompute_state. case_decide as H1.
  { rsimpl. rewrite H1. constructor. }
  case_decide as H2. { rsimpl. rewrite H2. constructor. }
  case_match eqn:Hs.
  - apply andb_true_iff in Hs as [Hl Hs]. apply bool_decide_eq_true in Hl.
    apply has_service_in_spec in Hs. rsimpl. rewrite Hl. by constructor.
  - destruct (negb (owner_eqb (owner (active_media (snapshot c))) PLAYER_MEDIA_OWNER_NONE)) eqn:Ho.
    { unfold upd. cbn [active_media snapshot]. rewrite Ho. constructor. by apply owned_eqb. }
    assert (Hn : ~ is_owned (active_media (snapshot c))) by (rewrite <- owned_eqb; by rewrite Ho).
    unfold upd. cbn [active_media snapshot]. rewrite Ho.
    destruct (has_service_in c PROTOCOL_SERVICE_RUNNING) eqn:Hr.
    { apply has_service_in_spec in Hr. cbn -[has_service_in]. constructor; by auto. }
    apply has_service_in_false in Hr.
    destruct (has_service_in c PROTOCOL_SERVICE_FAILED) eqn:Hf.
    + apply has_service_in_spec in Hf. cbn -[has_service_in]. by constructor.
    + apply has_service_in_false in Hf. cbn -[has_service_in]. constructor; by auto.
Qed.

Lemma session_ok_recompute c : session_ok c -> session_ok (coordinator_recompute_state c).
Proof. unfold session_ok. destruct (recompute_snapshot c) as [st ->]. by rsimpl. Qed.

(** The ends of the locked sections: recompute the state, then bump. *)
Lemma recompute_bump_good c c' :
  session_ok c' -> revision (snapshot c') = revision (snapshot c) ->
  good_step c (coordinator_bump_revision (coordinator_recompute_state c')).
Proof.
  intros Hs Hr. apply session_ok_recompute in Hs. pose proof (recompute_published c') as Hp.
  cbv zeta in Hp. split; [by split|]. right. unfold coordinator_bump_revision. rsimpl. f_equal.
  destruct (recompute_snapshot c') as [st ->]. by rsimpl.
Qed.

(** Sections that leave alone what [coord_ok] reads, and bump the revision. *)
Definition core (c : ProtocolCoordinator) :=
  (coord_lifecycle c, state (snapshot c), services (snapshot c), active_media (snapshot c),
   media_session (snapshot c)).

Lemma coord_ok_core c c' : core c' = core c -> coord_ok c -> coord_ok c'.
Proof.
  unfold core, coord_ok, session_ok. intros [= Hl Hs Hsv Ha Hm]. by rewrite Hl, Hs, Hsv, Ha, Hm.
Qed.

Lemma frame_good c c' :
  coord_ok c -> core c' = core c -> snapshot c' = snapshot c -> good_step c c'.
Proof. intros H Hc Hs. split; [by apply (coord_ok_core c) | by left]. Qed.

Lemma frame_bump_good c c' :
  coord_ok c -> core c' = core c -> revision (snapshot c') = revision (snapshot c) ->
  good_step c (coordinator_bump_revision c').
Proof.
  intros H Hc Hr. split; [by apply (coord_ok_core c)|]. right.
  unfold coordinator_bump_revision. rsimpl. by rewrite Hr.
Qed.

Lemma good_refl c : coord_ok c -> good_step c c.
Proof. intros H. split; [done | by left]. Qed.

Lemma snap_rel_refl s : snap_rel s s.
Proof. by left. Qed.

(** *** The locked sections *)

Lemma apply_media_event_good e now c :
  coord_ok c -> good_step c (apply_media_event_locked e now c).2.
Proof.
  intros Hc. unfold apply_media_event_locked.
  pose proof (transition_honest (media_session (snapshot c)) (Some e)) as Hh.
  pose proof (transition_wf (media_session (snapshot c)) (Some e) (proj2 (proj1 Hc))) as Hw.
  destruct (protocol_media_session_transition _ _) as [st session] eqn:Et. cbn in Hw, Hh.
  case_decide as Hst; cbn [snd].
  - apply recompute_bump_good; unfold session_ok; repeat case_match; by rproj.
  - destruct Hh as [[? _]|[_ Hsame]]; [done|]. cbn in Hsame; subst session.
    apply frame_good; [done | by unfold core; rproj | rproj].
    unfold upd. by destruct (snapshot c).
Qed.

Lemma set_desired_good mode c : coord_ok c -> good_step c (set_desired_locked mode c).2.
Proof.
  intros Hc. unfold set_desired_locked. case_decide; cbn [snd]; [by apply good_refl|].
  by apply frame_bump_good.
Qed.

Lemma set_background_good b c : coord_ok c -> good_step c (set_background_locked b c).2.
Proof.
  intros Hc. unfold set_background_locked. repeat case_match; cbn [snd]; by apply frame_good.
Qed.

Lemma discovery_good b req pol c : coord_ok c -> good_step c (discovery_locked b req pol c).2.
Proof.
  intros Hc. unfold discovery_locked. case_match; cbn [snd]; [by apply good_refl|].
  case_match; cbn [snd]; [by apply frame_bump_good | by apply good_refl].
Qed.

Lemma set_service_state_good s st now c :
  coord_ok c -> good_step c (set_service_state_locked s st now c).2.
Proof.
  intros Hc. unfold set_service_state_locked. repeat (case_decide; [by apply good_refl|]).
  cbn [snd]. apply recompute_bump_good; [apply Hc | done].
Qed.

Lemma resource_finished_good tgt completed success now c :
  coord_ok c -> good_step c (resource_finished_locked tgt completed success now c).
Proof.
  intros Hc. unfold resource_finished_locked. cbv zeta.
  repeat case_match; by apply frame_bump_good.
Qed.

Lemma next_serial_good c : coord_ok c -> good_step c (next_serial_locked c).2.
Proof.
  intros Hc. unfold next_serial_locked. repeat (case_match; [by apply good_refl|]).
  case_match. cbn [snd]. by apply frame_good.
Qed.

Lemma stop_enabled_services_snapshot now c :
  revision (snapshot (stop_enabled_services now c)) = revision (snapshot c).
Proof.
  unfold stop_enabled_services. generalize all_services. intros l. revert c.
  induction l as [|s l IH]; intros c; [done|]. cbn [foldl]. rewrite IH.
  case_decide; by rproj.
Qed.

Lemma clear_media_ok c :
  session_ok (clear_media c) /\ revision (snapshot (clear_media c)) = revision (snapshot c).
Proof.
  unfold clear_media, session_ok. cbv zeta. rproj.
  split; [split; [done | apply session_zero_wf] | done].
Qed.

Lemma begin_start_good config now c :
  coord_ok c -> good_step c (begin_start_locked config now c).2.
Proof.
  intros Hc. unfold begin_start_locked. case_decide; [by apply good_refl|]. cbv zeta. cbn [snd].
  destruct (clear_media_ok c) as [Hs Hr]. revert Hs Hr. generalize (clear_media c).
  intros c2 Hs Hr. apply recompute_bump_good; [unfold session_ok; by rproj | by rproj].
Qed.

Lemma finish_stop_good now c : coord_ok c -> good_step c (finish_stop_locked now c).
Proof.
  intros _. unfold finish_stop_locked. cbv zeta.
  destruct (clear_media_ok (stop_enabled_services now c)) as [Hs Hr].
  rewrite stop_enabled_services_snapshot in Hr. revert Hs Hr.
  generalize (clear_media (stop_enabled_services now c)). intros c2 Hs Hr.
  apply recompute_bump_good; [unfold session_ok; by rproj | by rproj].
Qed.

Lemma reset_coordinator_good c : coord_ok c -> good_step c (reset_coordinator_locked c).
Proof.
  intros _. unfold reset_coordinator_locked, coordinator_bump_revision, good_step, coord_ok,
    session_ok, snap_rel. cbv zeta. rproj.
  split; [split; [split; [reflexivity | apply session_zero_wf] | constructor] | by right].
Qed.

Lemma observe_playback_good a t now c :
  coord_ok c -> good_step c (observe_playback_locked a t now c).2.
Proof.
  intros Hc. unfold observe_playback_locked. cbv zeta.
  repeat case_match; cbn [snd]; by apply frame_good.
Qed.

(** *** Primitive programs *)

Lemma keeps_locked {A} (f : Z -> ProtocolCoordinator -> A * ProtocolCoordinator) :
  (forall now c, coord_ok c -> good_step c (f now c).2) -> keeps (locked f).
Proof.
  intros Hf w [Hc Ho] _. cbn.
  assert (Hi : coord_ok (coordinator_init (w_coord w)) /\
               snapshot (coordinator_init (w_coord w)) = snapshot (w_coord w)).
  { unfold coordinator_init. case_match; [done|]. split; [by apply (coord_ok_core (w_coord w)) | done]. }
  destruct Hi as [Hi Hs]. destruct (Hf (w_now w) _ Hi) as [Hg Hr].
  unfold world_inv, world_rel. rsimpl. rewrite Hs in Hr. by split_and!.
Qed.

Lemma keeps_lock_read {A} (f : ProtocolCoordinator -> A) : keeps (lock_read f).
Proof. apply keeps_locked. intros. by apply good_refl. Qed.

Lemma keeps_lock_update f :
  (forall now c, coord_ok c -> good_step c (f now c)) -> keeps (lock_update f).
Proof. intros Hf. by apply keeps_locked. Qed.

Lemma keeps_unlocked_update f :
  (forall c, coord_ok c -> good_step c (f c)) -> keeps (unlocked_update f).
Proof.
  intros Hf w [Hc Ho] _. destruct (Hf _ Hc). unfold world_inv, world_rel. rsimpl. by split_and!.
Qed.

(** Steps that touch neither module. *)
Lemma keeps_frame {A} g u (k : World -> prog World A) :
  (forall w, own_inv (w_own w) -> w_coord (u w) = w_coord w /\ own_inv (w_own (u w))) ->
  (forall w, keeps (k w)) -> keeps (Act g u k).
Proof.
  intros Hu Hk w [Hc Ho] _. destruct (Hu w Ho) as [He Ho'].
  split_and!; [split; [by rewrite He | done] | left; by rewrite He | apply Hk].
Qed.

Lemma keeps_monotonic : keeps coordinator_monotonic_ms.
Proof. by apply keeps_frame. Qed.

Lemma keeps_sleep ms : keeps (coordinator_sleep_ms ms).
Proof. by apply keeps_frame. Qed.

Lemma keeps_log_call c : keeps (log_call c).
Proof. by apply keeps_frame. Qed.

Lemma keeps_stuck {A} (a : A) : keeps (stuck a).
Proof. by apply keeps_frame. Qed.

Lemma keeps_await g : keeps (await g id).
Proof. by apply keeps_frame. Qed.

Lemma own_inv_init o : own_inv o -> own_inv (ownership_init o).
Proof. unfold own_inv. by rewrite ownership_init_current, ownership_init_next. Qed.

Lemma keeps_transition_begin : keeps player_ownership_transition_begin.
Proof. apply keeps_frame; [|done]. intros w Ho. split; [done|]. by apply own_inv_init. Qed.

Lemma keeps_transition_end : keeps player_ownership_transition_end.
Proof. by apply keeps_frame. Qed.

Lemma keeps_on_own {A} (f : Ownership -> A * Ownership) :
  (forall o, own_inv o -> own_inv (f o).2) -> keeps (on_own f).
Proof.
  intros Hf. apply keeps_frame; [|done]. intros w Ho. split; [done|]. by apply Hf, own_inv_init.
Qed.

(** *** The ownership operations *)

Lemma claim_inv ow tk o : own_inv o -> own_inv (claim_locked ow tk o).2.
Proof.
  intros [Hr _]. unfold claim_locked, next_generation, own_inv. rsimpl.
  pose proof (bump32_range (g_next_generation o)). unfold is_u32. split; [lia|]. by auto with lia.
Qed.

Lemma release_inv l o : own_inv o -> own_inv (release_locked l o).2.
Proof. unfold release_locked. case_match; [|done]. intros [? _]. by split. Qed.

Lemma release_current_inv ow tk o : own_inv o -> own_inv (release_current_locked ow tk o).2.
Proof. unfold release_current_locked. case_match; [|done]. intros [? _]. by split. Qed.

Lemma reset_inv o : own_inv o -> own_inv (reset_locked o).
Proof.
  intros _. unfold reset_locked, next_generation, own_inv. rsimpl.
  pose proof (bump32_range (g_next_generation o)). unfold is_u32. split; [lia | done].
Qed.

Create HintDb keeps.
#[export] Hint Resolve keeps_lock_read keeps_monotonic keeps_sleep keeps_log_call keeps_stuck
  keeps_await keeps_transition_begin keeps_transition_end claim_inv release_inv
  release_current_inv reset_inv apply_media_event_good set_desired_good set_background_good
  discovery_good set_service_state_good resource_finished_good next_serial_good begin_start_good
  finish_stop_good reset_coordinator_good observe_playback_good good_refl : keeps.

(** Follows the structure of a program down to its actions. *)
Ltac keeps_step :=
  lazymatch goal with
  | |- keeps (prog_bind _ _) => apply obeys_bind_; [|intros ?]
  | |- keeps (_ ≫= _) => apply obeys_bind_; [|intros ?]
  | |- obeys world_inv world_rel ?p _ => change (keeps p)
  | |- keeps (mret _) => exact I
  | |- keeps (Ret _) => exact I
  | |- keeps (for_each _ _) => apply obeys_for_each; intros ?
  | |- keeps (for_loop _ _ _) => apply obeys_for_loop; intros ? ?
  | |- keeps (on_own _) => apply keeps_on_own; intros ? ?
  | |- keeps (locked _) => apply keeps_locked; intros ? ? ?
  | |- keeps (lock_update _) => apply keeps_lock_update; intros ? ? ?
  | |- keeps (unlocked_update _) => apply keeps_unlocked_update; intros ? ?
  | |- keeps (match _ with _ => _ end) => case_match
  | |- keeps (let _ := _ in _) => cbv zeta
  end.

(** A section that keeps [core] and the snapshot, or bumps the revision. *)
Ltac good_tac :=
  first [ apply frame_good; [assumption | unfold core; rproj; reflexivity | rproj; reflexivity]
        | apply frame_bump_good;
          [assumption | unfold core; rproj; reflexivity | rproj; reflexivity] ].

Ltac keeps_tac :=
  repeat first [ keeps_step | solve [eauto with keeps] ];
  try solve [eauto with keeps | done | good_tac].

Lemma keeps_current out : keeps (player_ownership_current out).
Proof. unfold player_ownership_current. keeps_tac. Qed.

Lemma keeps_claim ow tk out : keeps (player_ownership_claim ow tk out).
Proof. unfold player_ownership_claim. keeps_tac. Qed.

Lemma keeps_validate l : keeps (player_ownership_validate l).
Proof. unfold player_ownership_validate. keeps_tac. Qed.

Lemma keeps_release l : keeps (player_ownership_release l).
Proof. unfold player_ownership_release. keeps_tac. Qed.

Lemma keeps_release_current ow tk : keeps (player_ownership_release_current ow tk).
Proof. unfold player_ownership_release_current. keeps_tac. Qed.

Lemma keeps_reset : keeps player_ownership_reset.
Proof. unfold player_ownership_reset. keeps_tac. Qed.

#[export] Hint Resolve keeps_current keeps_claim keeps_validate keeps_release
  keeps_release_current keeps_reset : keeps.

(** *** The coordinator's programs *)

Section programs.
Context `{!Callbacks} `{!CallbacksKeep}.

Lemma keeps_call_start s f ctx : keeps (call_start s f ctx).
Proof. unfold call_start. pose proof keep_start. keeps_tac. Qed.

Lemma keeps_call_request_stop s f ctx : keeps (call_request_stop s f ctx).
Proof. unfold call_request_stop. pose proof keep_request_stop. keeps_tac. Qed.

Lemma keeps_call_stop s f ctx : keeps (call_stop s f ctx).
Proof. unfold call_stop. pose proof keep_stop. keeps_tac. Qed.

Lemma keeps_call_get_status f ctx : keeps (call_get_status f ctx).
Proof. unfold call_get_status. pose proof keep_get_status. keeps_tac. Qed.

Lemma keeps_call_release_media f l ctx : keeps (call_release_media f l ctx).
Proof. unfold call_release_media. pose proof keep_release_media. keeps_tac. Qed.

Lemma keeps_call_set_discovery f ctx b : keeps (call_set_discovery f ctx b).
Proof. unfold call_set_discovery. pose proof keep_set_discovery. keeps_tac. Qed.

Lemma keeps_call_set_background f ctx b : keeps (call_set_background f ctx b).
Proof. unfold call_set_background. pose proof keep_set_background. keeps_tac. Qed.

Lemma keeps_call_thread_create m : keeps (call_thread_create m).
Proof. unfold call_thread_create. pose proof keep_thread_create. keeps_tac. Qed.

#[local] Hint Resolve keeps_call_start keeps_call_request_stop keeps_call_stop
  keeps_call_get_status keeps_call_release_media keeps_call_set_discovery
  keeps_call_set_background keeps_call_thread_create : keeps.

Lemma keeps_apply_event e b : keeps (coordinator_apply_media_event e b).
Proof. unfold coordinator_apply_media_event. keeps_tac. Qed.
#[local] Hint Resolve keeps_apply_event : keeps.

Lemma keeps_submit e : keeps (protocol_coordinator_media_submit_event e).
Proof. apply keeps_apply_event. Qed.

Lemma keeps_set_active l : keeps (coordinator_set_active_media l).
Proof. unfold coordinator_set_active_media. keeps_tac. Qed.

Lemma keeps_accepts : keeps coordinator_accepts_media.
Proof. apply keeps_lock_read. Qed.

Lemma keeps_accepts_guard b : keeps (coordinator_accepts_guard b).
Proof. apply keeps_lock_read. Qed.

Lemma keeps_exclusive : keeps coordinator_exclusive_resources_enabled.
Proof. apply keeps_lock_read. Qed.

Lemma keeps_release_airplay l : keeps (coordinator_release_airplay_owner l).
Proof. unfold coordinator_release_airplay_owner. keeps_tac. Qed.

Lemma keeps_set_desired m : keeps (coordinator_set_desired_resource_mode m).
Proof. unfold coordinator_set_desired_resource_mode. keeps_tac. Qed.

Lemma keeps_set_background b : keeps (coordinator_set_background_network_suspended b).
Proof. unfold coordinator_set_background_network_suspended. keeps_tac. Qed.

Lemma keeps_discovery b r p : keeps (coordinator_apply_discovery_suspension b r p).
Proof. unfold coordinator_apply_discovery_suspension. keeps_tac. Qed.

Lemma keeps_discovery_policy p b : keeps (coordinator_set_discovery_suspended_for_policy p b).
Proof. apply keeps_discovery. Qed.

#[local] Hint Resolve keeps_submit keeps_set_active keeps_accepts keeps_accepts_guard
  keeps_exclusive keeps_release_airplay keeps_set_desired keeps_set_background keeps_discovery
  keeps_discovery_policy : keeps.

Lemma keeps_sync : keeps coordinator_sync_active_media.
Proof. unfold coordinator_sync_active_media. keeps_tac. Qed.

Lemma keeps_protocol_set_service_state s st : keeps (protocol_coordinator_set_service_state s st).
Proof. unfold protocol_coordinator_set_service_state. keeps_tac. Qed.
#[local] Hint Resolve keeps_sync keeps_protocol_set_service_state : keeps.

Lemma keeps_set_service_state s st : keeps (set_service_state s st).
Proof. unfold set_service_state. keeps_tac. Qed.

Lemma keeps_set_stop_required s b : keeps (coordinator_set_stop_required s b).
Proof. unfold coordinator_set_stop_required. keeps_tac. Qed.
#[local] Hint Resolve keeps_set_service_state keeps_set_stop_required : keeps.

Lemma keeps_service_worker s : keeps (coordinator_service_worker_run s).
Proof. unfold coordinator_service_worker_run. keeps_tac. Qed.

#[local] Hint Resolve keeps_service_worker : keeps.

Lemma keeps_transition_allowed : keeps coordinator_resource_transition_allowed.
Proof. apply keeps_lock_read. Qed.

Lemma keeps_target_current m : keeps (coordinator_resource_target_current m).
Proof. apply keeps_lock_read. Qed.

Lemma keeps_service_state s : keeps (coordinator_service_state s).
Proof. apply keeps_lock_read. Qed.

Lemma keeps_start_call s b : keeps (coordinator_set_resource_start_call s b).
Proof. unfold coordinator_set_resource_start_call. keeps_tac. Qed.

Lemma keeps_clear_airplay : keeps coordinator_clear_airplay_runtime_status.
Proof. unfold coordinator_clear_airplay_runtime_status. keeps_tac. case_match; keeps_tac. Qed.

#[local] Hint Resolve keeps_transition_allowed keeps_target_current keeps_service_state
  keeps_start_call keeps_clear_airplay : keeps.

Lemma keeps_continues m : keeps (resource_transition_continues m).
Proof. unfold resource_transition_continues. keeps_tac. Qed.

Lemma keeps_stop_service s ops : keeps (coordinator_resource_stop_service s ops).
Proof. unfold coordinator_resource_stop_service. keeps_tac. Qed.
#[local] Hint Resolve keeps_continues keeps_stop_service : keeps.

Lemma keeps_start_service s ops : keeps (coordinator_resource_start_service s ops).
Proof. unfold coordinator_resource_start_service. keeps_tac. Qed.
#[local] Hint Resolve keeps_start_service : keeps.

Lemma keeps_stop_phase m en ops : keeps (resource_stop_phase m en ops).
Proof. unfold resource_stop_phase. keeps_tac. Qed.

Lemma keeps_start_phase m en ops b : keeps (resource_start_phase m en ops b).
Proof. unfold resource_start_phase. keeps_tac. Qed.
#[local] Hint Resolve keeps_stop_phase keeps_start_phase : keeps.

Lemma keeps_resource_worker : keeps coordinator_resource_worker_run.
Proof. unfold coordinator_resource_worker_run. keeps_tac. Qed.

Lemma keeps_launch_service s : keeps (coordinator_launch_service_worker s).
Proof. unfold coordinator_launch_service_worker. keeps_tac. Qed.

Lemma keeps_join_service s : keeps (coordinator_join_service_worker s).
Proof. unfold coordinator_join_service_worker. keeps_tac. Qed.

Lemma keeps_join_resource : keeps coordinator_join_resource_worker.
Proof. unfold coordinator_join_resource_worker. keeps_tac. Qed.
#[local] Hint Resolve keeps_resource_worker keeps_launch_service keeps_join_service
  keeps_join_resource : keeps.

Lemma keeps_reap : keeps coordinator_reap_finished_workers.
Proof. unfold coordinator_reap_finished_workers. keeps_tac. Qed.

Lemma keeps_worker_active : keeps coordinator_service_worker_active.
Proof. apply keeps_lock_read. Qed.
#[local] Hint Resolve keeps_reap keeps_worker_active : keeps.

Lemma keeps_launch_resource : keeps coordinator_launch_resource_worker.
Proof. unfold coordinator_launch_resource_worker. keeps_tac. Qed.

Lemma keeps_next_serial : keeps coordinator_launch_next_serial_worker.
Proof. unfold coordinator_launch_next_serial_worker. keeps_tac. Qed.

Lemma keeps_begin_start config : keeps (protocol_coordinator_begin_start config).
Proof. unfold protocol_coordinator_begin_start. keeps_tac. Qed.
#[local] Hint Resolve keeps_launch_resource keeps_next_serial keeps_begin_start : keeps.

Lemma keeps_start config ops : keeps (protocol_coordinator_start config ops).
Proof. unfold protocol_coordinator_start. keeps_tac. Qed.

Lemma begin_stop_good c :
  coord_ok c ->
  good_step c (coordinator_bump_revision (coordinator_recompute_state
                 { c with coord_lifecycle := PROTOCOL_LIFECYCLE_STOPPING })).
Proof. intros Hc. apply recompute_bump_good; [|done]. unfold session_ok. rproj. apply Hc. Qed.
#[local] Hint Resolve begin_stop_good : keeps.

Lemma keeps_begin_stop : keeps protocol_coordinator_begin_stop.
Proof. unfold protocol_coordinator_begin_stop. keeps_tac. case_match; cbn [snd]; keeps_tac. Qed.

Lemma keeps_set_discovery_suspended b : keeps (coordinator_set_discovery_suspended b).
Proof. apply keeps_discovery. Qed.
#[local] Hint Resolve keeps_start keeps_begin_stop keeps_set_discovery_suspended : keeps.

Lemma keeps_finish_stop : keeps protocol_coordinator_finish_stop.
Proof. unfold protocol_coordinator_finish_stop. keeps_tac. Qed.

Lemma stop_cleanup_good c : coord_ok c -> good_step c (stop_cleanup_locked c).
Proof. intros Hc. unfold stop_cleanup_locked. good_tac. Qed.
#[local] Hint Resolve keeps_finish_stop stop_cleanup_good : keeps.

Lemma keeps_stop : keeps protocol_coordinator_stop.
Proof. unfold protocol_coordinator_stop. keeps_tac. Qed.
#[local] Hint Resolve keeps_stop : keeps.

Lemma keeps_coordinator_reset : keeps protocol_coordinator_reset.
Proof. unfold protocol_coordinator_reset. keeps_tac. Qed.

Lemma keeps_tick : keeps protocol_coordinator_tick.
Proof. unfold protocol_coordinator_tick. keeps_tac. case_match; keeps_tac. Qed.

Lemma keeps_publish_claim l ow : keeps (publish_claim l ow).
Proof. unfold publish_claim. keeps_tac. Qed.

Lemma keeps_publish_release : keeps publish_release.
Proof. unfold publish_release. keeps_tac. Qed.

Lemma keeps_takeover ow : keeps (takeover_airplay ow).
Proof. unfold takeover_airplay. keeps_tac. Qed.
#[local] Hint Resolve keeps_coordinator_reset keeps_tick keeps_publish_claim
  keeps_publish_release keeps_takeover : keeps.

Lemma keeps_media_begin ow tk out : keeps (protocol_coordinator_media_begin ow tk out).
Proof. unfold protocol_coordinator_media_begin. keeps_tac. Qed.

Lemma keeps_media_release l : keeps (protocol_coordinator_media_release l).
Proof. unfold protocol_coordinator_media_release. keeps_tac. Qed.

Lemma keeps_media_release_current ow tk :
  keeps (protocol_coordinator_media_release_current ow tk).
Proof. unfold protocol_coordinator_media_release_current. keeps_tac. Qed.

Lemma keeps_media_abort t : keeps (protocol_coordinator_media_abort t).
Proof. unfold protocol_coordinator_media_abort. keeps_tac. Qed.

Lemma keeps_media_current out : keeps (protocol_coordinator_media_current out).
Proof. apply keeps_current. Qed.

Lemma keeps_media_validate l : keeps (protocol_coordinator_media_validate l).
Proof. apply keeps_validate. Qed.
#[local] Hint Resolve keeps_media_begin keeps_media_release keeps_media_release_current
  keeps_media_abort keeps_media_current keeps_media_validate : keeps.

Lemma keeps_guard ow tk out : keeps (protocol_coordinator_media_guard_begin ow tk out).
Proof. unfold protocol_coordinator_media_guard_begin. keeps_tac. Qed.

Lemma keeps_unowned_guard ow tk out :
  keeps (protocol_coordinator_media_unowned_or_owner_guard_begin ow tk out).
Proof. unfold protocol_coordinator_media_unowned_or_owner_guard_begin. keeps_tac. Qed.

Lemma keeps_lease_guard l b out : keeps (protocol_coordinator_media_lease_guard_begin l b out).
Proof. unfold protocol_coordinator_media_lease_guard_begin. keeps_tac. Qed.

Lemma keeps_barrier out : keeps (protocol_coordinator_media_barrier_begin out).
Proof. unfold protocol_coordinator_media_barrier_begin. keeps_tac. Qed.

Lemma keeps_observe_playback a t : keeps (protocol_coordinator_observe_playback a t).
Proof.
  unfold protocol_coordinator_observe_playback, protocol_coordinator_set_playback_active.
  keeps_tac.
Qed.
#[local] Hint Resolve keeps_guard keeps_unowned_guard keeps_lease_guard keeps_barrier
  keeps_observe_playback : keeps.

Lemma keeps_observe_player_state st : keeps (protocol_coordinator_observe_player_state st).
Proof. unfold protocol_coordinator_observe_player_state. keeps_tac. Qed.

Lemma keeps_get_snapshot out : keeps (protocol_coordinator_get_snapshot out).
Proof. unfold protocol_coordinator_get_snapshot. keeps_tac. Qed.

Lemma keeps_wait_expired ms start : keeps (wait_expired ms start).
Proof. unfold wait_expired. keeps_tac. Qed.
#[local] Hint Resolve keeps_observe_player_state keeps_get_snapshot keeps_wait_expired : keeps.

Lemma keeps_wait_loop fuel l ms start : keeps (wait_resources_loop fuel l ms start).
Proof. induction fuel as [|fuel IH]; cbn [wait_resources_loop]; keeps_tac. Qed.
#[local] Hint Resolve keeps_wait_loop : keeps.

Lemma keeps_wait fuel l ms : keeps (protocol_coordinator_media_wait_resources fuel l ms).
Proof. unfold protocol_coordinator_media_wait_resources. keeps_tac. Qed.
#[local] Hint Resolve keeps_wait : keeps.

Lemma keeps_drive_loop fuel l ms start : keeps (drive_resources_loop fuel l ms start).
Proof. induction fuel as [|fuel IH]; cbn [drive_resources_loop]; keeps_tac. Qed.
#[local] Hint Resolve keeps_drive_loop : keeps.

Lemma keeps_drive fuel l ms : keeps (protocol_coordinator_media_drive_resources fuel l ms).
Proof. unfold protocol_coordinator_media_drive_resources. keeps_tac. Qed.
#[local] Hint Resolve keeps_drive : keeps.

(** Every program a thread may run keeps the invariant. *)
Lemma api_keeps t : api t -> keeps t.
Proof. intros []; unfold protocol_coordinator_set_playback_active; keeps_tac. Qed.

End programs.

(** *** Reachable states *)

Lemma world_zero_inv : world_inv world_zero.
Proof.
  split; [|split; [unfold is_u32, UINT32_MAX; cbn; lia | done]].
  split; [split; [done | apply session_zero_wf] | constructor].
Qed.

Lemma clock_step_keeps w w' : world_inv w -> clock_step w w' -> world_inv w' /\ world_rel w w'.
Proof. intros Hw [t ->]. split; [done | by left]. Qed.

Section reachable.
Context `{!Callbacks} `{!CallbacksKeep}.

Lemma reachable_ok w ts :
  rtc coordinator_step (world_zero, []) (w, ts) -> pool_ok world_inv world_rel (w, ts).
Proof.
  apply pool_reachable_ok; [apply api_keeps | apply clock_step_keeps | by left |].
  by split; [apply world_zero_inv | constructor].
Qed.

Lemma reachable_step_ok w ts w' ts' :
  rtc coordinator_step (world_zero, []) (w, ts) -> coordinator_step (w, ts) (w', ts') ->
  world_rel w w'.
Proof.
  intros Hr Hs. apply reachable_ok in Hr.
  by apply (pool_step_ok api clock_step world_inv world_rel api_keeps clock_step_keeps
              (fun s => snap_rel_refl _) _ _ Hr Hs).
Qed.
End reachable.

(** *** Schedules *)

Section schedules.
Context `{!Callbacks}.

Lemma run_thread_reachable n i c : rtc coordinator_step c (run_thread n i c).
Proof.
  revert c. induction n as [|n IH]; intros [w ts]; cbn; [done|].
  destruct (ts !! i) as [[?|g u k]|] eqn:Hi; [done | | done].
  destruct (g w) eqn:Hg; [|done]. eapply rtc_l; [by apply (pool_act _ _ i g u k) | apply IH].
Qed.

Lemma run_schedule_reachable l c : rtc coordinator_step c (run_schedule l c).
Proof.
  revert c. induction l as [|[i n] l IH]; intros c; [done|].
  etrans; [apply (run_thread_reachable n i) | apply IH].
Qed.

Lemma spawn_reachable w ts ts' : Forall api ts' -> rtc coordinator_step (w, ts) (w, ts ++ ts').
Proof.
  intros Hts. revert ts. induction Hts as [|t ts' Ht _ IH]; intros ts; [by rewrite app_nil_r|].
  eapply rtc_l; [by apply pool_spawn | rewrite (cons_middle t ts ts'), app_assoc; apply IH].
Qed.
End schedules.

#[local] Existing Instance quiet_callbacks.

#[local] Instance quiet_callbacks_keep : CallbacksKeep.
Proof. by split. Qed.

Lemma demo_threads_api : Forall api demo_threads.
Proof. repeat constructor. Qed.

Lemma quiet_run_reachable l : rtc coordinator_step (world_zero, []) (quiet_run l).
Proof.
  etrans; [apply (spawn_reachable world_zero [] demo_threads demo_threads_api)|].
  apply run_schedule_reachable.
Qed.

(** ** Properties *)

(** C1: Whatever the threads of the program do - start, stop and reset the
    coordinator, tick it, claim, guard and release the player, post media
    events, start and stop services, with callbacks that may call the
    coordinator again - and however their steps interleave: after every step
    the lease clients see is the media session's lease, the session is well
    formed, the coordinator state is the one the lifecycle, the services and
    the owner determine, and an owned lease carries the last generation handed
    out. *)
Theorem coordinator_state_consistent `{!Callbacks} `{!CallbacksKeep} w ts :
  rtc coordinator_step (world_zero, []) (w, ts) ->
  let snap := snapshot (w_coord w) in
  active_media snap = lease (media_session snap) /\
  session_wf (media_session snap) /\
  published (services snap) (active_media snap) (coord_lifecycle (w_coord w)) (state snap) /\
  own_inv (w_own w).
Proof. intros Hr. destruct (reachable_ok w ts Hr) as [[[[? ?] ?] ?] _]. by split_and!. Qed.

Lemma coordinator_state_consistent_witness :
  let w := (quiet_run (take 5 race_schedule)).1 in
  let snap := snapshot (w_coord w) in
  state snap = PROTOCOL_COORDINATOR_MEDIA_ACTIVE /\
  active_media snap = lease (media_session snap) /\
  session_wf (media_session snap) /\
  published (services snap) (active_media snap) (coord_lifecycle (w_coord w)) (state snap) /\
  own_inv (w_own w).
Proof.
  split; [vm_compute; reflexivity|].
  apply (coordinator_state_consistent (quiet_run (take 5 race_schedule)).1
           (quiet_run (take 5 race_schedule)).2).
  rewrite <- surjective_pairing. apply quiet_run_reachable.
Defined.

(** No change of the published snapshot goes unnoticed: every step of every
    interleaving either leaves the snapshot as it was or advances its revision
    to the next non-zero value, which differs from the old one. *)
Theorem coordinator_revision_tracks_changes `{!Callbacks} `{!CallbacksKeep} w ts w' ts' :
  rtc coordinator_step (world_zero, []) (w, ts) ->
  coordinator_step (w, ts) (w', ts') ->
  snapshot (w_coord w') <> snapshot (w_coord w) ->
  revision (snapshot (w_coord w')) = bump32 (revision (snapshot (w_coord w))) /\
  revision (snapshot (w_coord w')) <> revision (snapshot (w_coord w)) /\
  revision (snapshot (w_coord w')) <> 0.
Proof.
  intros Hr Hs Hne. destruct (reachable_step_ok w ts w' ts' Hr Hs) as [?|H1]; [done|].
  rewrite H1. split_and!; [done | apply bump32_neq | apply bump32_nonzero].
Qed.

Lemma coordinator_revision_tracks_changes_witness :
  let w := world_zero in
  let w' := (quiet_run [(0, 1)]%nat).1 in
  revision (snapshot (w_coord w')) = bump32 (revision (snapshot (w_coord w))) /\
  revision (snapshot (w_coord w')) <> revision (snapshot (w_coord w)) /\
  revision (snapshot (w_coord w')) <> 0.
Proof.
  apply (coordinator_revision_tracks_changes world_zero demo_threads (quiet_run [(0, 1)]%nat).1
           (quiet_run [(0, 1)]%nat).2).
  - apply (spawn_reachable world_zero [] demo_threads demo_threads_api).
  - refine (eq_rect _ (coordinator_step (world_zero, demo_threads))
      (pool_act api clock_step 0%nat _ _ _ world_zero demo_threads eq_refl eq_refl) _ _).
    reflexivity.
  - intros Heq. apply (f_equal state) in Heq. vm_compute in Heq. discriminate Heq.
Defined.

(** A tick that races with a release publishes a lease that is no longer
    owned: the tick reads the owner, a release then runs to its end, and the
    tick applies the claim it read.  All threads have ended, nobody owns the
    player, yet the snapshot shows the released lease as active media and the
    exclusive resource mode of its protocol as the desired one. *)
Theorem sync_can_republish_released_lease :
  exists w ts,
    rtc coordinator_step (world_zero, []) (w, ts) /\
    Forall (fun t => t = Ret tt) ts /\
    g_current (w_own w) = lease_zero /\ g_transition_held (w_own w) = false /\
    active_media (snapshot (w_coord w)) = mkLease PLAYER_MEDIA_OWNER_DLNA 7 1 /\
    state (snapshot (w_coord w)) = PROTOCOL_COORDINATOR_MEDIA_ACTIVE /\
    desired_resource_mode (snapshot (w_coord w)) = PROTOCOL_RESOURCE_MODE_DLNA_EXCLUSIVE.
Proof.
  exists (quiet_run race_schedule).1, (quiet_run race_schedule).2.
  split; [rewrite <- surjective_pairing; apply quiet_run_reachable|].
  split_and!; vm_compute; [repeat constructor | reflexivity..].
Qed.

(** The discovery callback runs inside the ownership transition: when it
    gives the player back through the public release function, the claim that
    triggered it never returns; with a callback that does nothing it does. *)
Theorem discovery_callback_cannot_release :
  run (@protocol_coordinator_media_begin releasing_callbacks PLAYER_MEDIA_OWNER_DLNA 7 true)
    demo_running = None /\
  (exists t w, run (@protocol_coordinator_media_begin quiet_callbacks PLAYER_MEDIA_OWNER_DLNA 7 true)
    demo_running = Some (Some t, w) /\ (CallSetDiscovery true, true) ∈ w_calls w).
Proof.
  split; [vm_compute; reflexivity|].
  eexists _, _. split; [vm_compute; reflexivity|]. vm_compute. set_solver.
Qed.
