(* ===== verification/CoordMedia.v ===== *)
(** * Media ownership through the coordinator

    The claim, release, abort and guard functions of protocol_coordinator.c,
    run one after the other, implement a register that holds one lease: the
    specification is [media_spec], the refinement is stated over every sequence
    of operations. *)

From S2P Require Import Prelude Prog Ownership MediaSession CoordData Coordinator CoordConcurrent.

(** ** Specification *)

(** The register: the lease in force and the generation handed out last. *)
Record Register := mkRegister { reg_lease : PlayerOwnershipLease; reg_generation : Z }.

(** What the operations read of the coordinator and do not change: exclusive
    resources, whether claims are accepted, whether a stop is under way,
    whether owning the player suspends discovery, and whether it can. *)
Record Mode := mkMode {
  mode_exclusive : bool;
  mode_accepts : bool;
  mode_stopping : bool;
  mode_ownership_policy : bool;
  mode_can_suspend : bool
}.

Inductive MediaOp :=
| MediaBegin (ow : PlayerMediaOwner) (tk : Z)
| MediaRelease (l : option PlayerOwnershipLease)
| MediaReleaseCurrent (ow : PlayerMediaOwner) (tk : Z)
| MediaAbort (t : option ProtocolMediaTransaction)
| MediaGuard (ow : PlayerMediaOwner) (tk : Z)
| MediaUnownedGuard (ow : PlayerMediaOwner) (tk : Z)
| MediaLeaseGuard (l : option PlayerOwnershipLease) (allow_stopping : bool)
| MediaBarrier
| MediaCurrent
| MediaValidate (l : option PlayerOwnershipLease).

Inductive MediaResult :=
| ResTransaction (t : option ProtocolMediaTransaction)
| ResReleased (b : bool)
| ResGuard (g : option ProtocolMediaGuard)
| ResCurrent (b : bool) (l : PlayerOwnershipLease)
| ResValid (b : bool).

(** Two owners of the same protocol family share the exclusive resources. *)
Definition same_family (a b : PlayerMediaOwner) : bool :=
  bool_decide (resource_mode_for_owner a = resource_mode_for_owner b).

Definition owned (l : PlayerOwnershipLease) : bool :=
  negb (owner_eqb (owner l) PLAYER_MEDIA_OWNER_NONE).

Definition in_force (l : PlayerOwnershipLease) (r : Register) : bool :=
  owned l && negb (generation l =? 0) && bool_decide (l = reg_lease r).

Definition held_by (ow : PlayerMediaOwner) (tk : Z) (r : Register) : bool :=
  owner_eqb (owner (reg_lease r)) ow && (token (reg_lease r) =? tk).

Definition reg_clear (r : Register) : Register := mkRegister lease_zero (reg_generation r).

Definition spec_release (l : PlayerOwnershipLease) (r : Register) : bool * Register :=
  if bool_decide (l = reg_lease r) then (true, reg_clear r) else (false, r).

Definition grant (b : bool) (r : Register) : MediaResult :=
  ResGuard (if b then Some (mkGuard true (reg_lease r)) else None).

Definition media_spec (m : Mode) (op : MediaOp) (r : Register) : MediaResult * Register :=
  match op with
  | MediaBegin ow tk =>
      if owner_eqb ow PLAYER_MEDIA_OWNER_NONE || negb (mode_accepts m) ||
         (mode_exclusive m && owned (reg_lease r) && negb (same_family (owner (reg_lease r)) ow))
      then (ResTransaction None, r)
      else
        let g := bump32 (reg_generation r) in
        (ResTransaction (Some (mkTransaction true (mkLease ow tk g) (reg_lease r))),
         mkRegister (mkLease ow tk g) g)
  | MediaRelease None => (ResReleased false, r)
  | MediaRelease (Some l) =>
      let '(b, r') := spec_release l r in (ResReleased b, r')
  | MediaReleaseCurrent ow tk =>
      if held_by ow tk r then (ResReleased true, reg_clear r) else (ResReleased false, r)
  | MediaAbort None => (ResTransaction None, r)
  | MediaAbort (Some t) =>
      if transaction_active t then
        (ResTransaction (Some (mkTransaction false (transaction_lease t) (transaction_previous t))),
         (spec_release (transaction_lease t) r).2)
      else (ResTransaction (Some t), r)
  | MediaGuard ow tk =>
      (grant (negb (owner_eqb ow PLAYER_MEDIA_OWNER_NONE) && mode_accepts m && held_by ow tk r) r, r)
  | MediaUnownedGuard ow tk =>
      (grant (negb (owner_eqb ow PLAYER_MEDIA_OWNER_NONE) && mode_accepts m &&
              (negb (owned (reg_lease r)) || held_by ow tk r)) r, r)
  | MediaLeaseGuard None _ => (ResGuard None, r)
  | MediaLeaseGuard (Some l) allow =>
      (grant (in_force l r && (mode_accepts m || (allow && mode_stopping m))) r, r)
  | MediaBarrier => (grant true r, r)
  | MediaCurrent => (ResCurrent (owned (reg_lease r)) (reg_lease r), r)
  | MediaValidate None => (ResValid false, r)
  | MediaValidate (Some l) => (ResValid (in_force l r), r)
  end.

Fixpoint media_spec_all (m : Mode) (ops : list MediaOp) (r : Register)
    : list MediaResult * Register :=
  match ops with
  | [] => ([], r)
  | op :: ops' =>
      let '(x, r1) := media_spec m op r in
      let '(xs, r2) := media_spec_all m ops' r1 in (x :: xs, r2)
  end.

(** ** The operations of the program *)

Definition media_op `{!Callbacks} (op : MediaOp) : prog World MediaResult :=
  match op with
  | MediaBegin ow tk => ResTransaction <$> protocol_coordinator_media_begin ow tk true
  | MediaRelease l => ResReleased <$> protocol_coordinator_media_release l
  | MediaReleaseCurrent ow tk => ResReleased <$> protocol_coordinator_media_release_current ow tk
  | MediaAbort t => ResTransaction <$> protocol_coordinator_media_abort t
  | MediaGuard ow tk => ResGuard <$> protocol_coordinator_media_guard_begin ow tk true
  | MediaUnownedGuard ow tk =>
      ResGuard <$> protocol_coordinator_media_unowned_or_owner_guard_begin ow tk true
  | MediaLeaseGuard l allow =>
      ResGuard <$> protocol_coordinator_media_lease_guard_begin l allow true
  | MediaBarrier => ResGuard <$> protocol_coordinator_media_barrier_begin true
  | MediaCurrent => '(b, l) ← protocol_coordinator_media_current true; mret (ResCurrent b l)
  | MediaValidate l => ResValid <$> protocol_coordinator_media_validate l
  end.

Fixpoint media_ops `{!Callbacks} (ops : list MediaOp) : prog World (list MediaResult) :=
  match ops with
  | [] => mret []
  | op :: ops' => x ← media_op op; xs ← media_ops ops'; mret (x :: xs)
  end.

(** A callback that returns, leaves both modules alone and does not call out. *)
Definition passive {A} (p : prog World A) : Prop :=
  forall w, wp p (fun _ w' =>
    w_own w' = w_own w /\ w_coord w' = w_coord w /\ w_calls w' = w_calls w) w.

Class CallbacksPassive `{!Callbacks} : Prop := {
  passive_start f ctx : passive (cb_start f ctx);
  passive_request_stop f ctx : passive (cb_request_stop f ctx);
  passive_stop f ctx : passive (cb_stop f ctx);
  passive_get_status f ctx : passive (cb_airplay_get_status f ctx);
  passive_release_media f l ctx : passive (cb_airplay_release_active_media f l ctx);
  passive_set_discovery f ctx b : passive (cb_set_discovery_suspended f ctx b);
  passive_set_background f ctx b : passive (cb_set_background_network_suspended f ctx b);
  passive_thread_create m : passive (thread_create m)
}.

(** ** Representation *)

Definition own_repr (held : bool) (r : Register) (o : Ownership) : Prop :=
  g_current o = reg_lease r /\ g_next_generation o = reg_generation r /\
  g_transition_held o = held /\ own_inv o.

Definition coord_mode (c : ProtocolCoordinator) : Mode :=
  mkMode (exclusive_media_resources c) (lifecycle_accepts (coord_lifecycle c))
    (bool_decide (coord_lifecycle c = PROTOCOL_LIFECYCLE_STOPPING))
    (bool_decide (discovery_suspension_policy c = PROTOCOL_DISCOVERY_SUSPEND_MEDIA_OWNERSHIP))
    (runtime_active c && non_null (set_discovery_suspended (operations c))).

(** The resource mode and the discovery suspension that go with an owner. *)
Definition wanted_mode (m : Mode) (l : PlayerOwnershipLease) : ProtocolResourceMode :=
  if mode_exclusive m then resource_mode_for_owner (owner l) else PROTOCOL_RESOURCE_MODE_HOME.

Definition wanted_suspension (m : Mode) (l : PlayerOwnershipLease) : bool :=
  owned l && mode_can_suspend m.

(** The session shows lease [ls], the desired mode is [lm]'s and the discovery
    suspension [ld]'s. *)
Definition coord_repr (m : Mode) (ls lm ld : PlayerOwnershipLease) (c : ProtocolCoordinator)
    : Prop :=
  session_ok c /\ lease (media_session (snapshot c)) = ls /\ coord_mode c = m /\
  desired_resource_mode (snapshot c) = wanted_mode m lm /\
  (mode_ownership_policy m = true ->
   discovery_suspended (snapshot c) = wanted_suspension m ld).

Definition repr (m : Mode) (held : bool) (r : Register) (ls lm ld : PlayerOwnershipLease)
    (w : World) : Prop :=
  own_repr held r (w_own w) /\ coord_repr m ls lm ld (w_coord w).

(** The world represents the register [r]: ownership, session, desired mode and
    discovery agree, and no transition is under way. *)
Definition represents (m : Mode) (r : Register) (w : World) : Prop :=
  repr m false r (reg_lease r) (reg_lease r) (reg_lease r) w.

(** ** Lemmas *)

Lemma owned_spec l : owned l = true <-> is_owned l.
Proof. apply owned_eqb. Qed.

Lemma owned_false l : owned l = false <-> owner l = PLAYER_MEDIA_OWNER_NONE.
Proof. unfold owned. by rewrite negb_false_iff, owner_eqb_eq. Qed.

(** The generation of a claim is always newer than the session's. *)
Lemma bump32_newer g : is_u32 g -> generation_newer (bump32 g) g = true.
Proof. unfold generation_newer, bump32. rewrite Z.ltb_lt. width_lia. Qed.

Lemma apply_claim_next s ow tk g :
  session_wf s -> is_u32 g -> ow <> PLAYER_MEDIA_OWNER_NONE ->
  (is_owned (lease s) -> generation (lease s) = g) ->
  exists s', apply_claim s (mkLease ow tk (bump32 g)) = (PROTOCOL_MEDIA_TRANSITION_APPLIED, s') /\
    lease s' = mkLease ow tk (bump32 g).
Proof.
  intros Hw Hg How Hs. unfold apply_claim.
  rewrite (proj2 (lease_valid_spec _)) by (split; [done | apply bump32_nonzero]). cbn [negb].
  assert (Hcase : lease s = lease_zero \/ generation (lease s) = g /\ g <> 0).
  { destruct (decide (owner (lease s) = PLAYER_MEDIA_OWNER_NONE)) as [Hn|Hn].
    - left. by apply (wf_zero s Hw).
    - right. split; [by apply Hs|]. rewrite <- Hs by done. by apply (wf_generation s Hw). }
  assert (Hne : session_lease_equal (lease s) (mkLease ow tk (bump32 g)) = false).
  { apply not_true_is_false. rewrite session_lease_equal_eq. intros He.
    destruct Hcase as [Hz|[Hgen _]]; rewrite He in *; [by injection Hz|].
    cbn in Hgen. by apply bump32_neq in Hgen. }
  rewrite Hne. destruct Hcase as [Hz|[Hgen Hnz]].
  - rewrite Hz. cbn. by eexists.
  - cbn [generation]. rewrite Hgen, bump32_newer by done. rewrite andb_false_r. by eexists.
Qed.

Lemma own_repr_init h r o : own_repr h r o -> own_repr h r (ownership_init o).
Proof.
  unfold own_repr. rewrite ownership_init_current, ownership_init_next.
  intros (? & ? & ? & ?). split_and!; [done.. | | by apply own_inv_init].
  unfold ownership_init. by case_match.
Qed.

Lemma coord_repr_init m l1 l2 l3 c : coord_repr m l1 l2 l3 c -> coord_repr m l1 l2 l3 (coordinator_init c).
Proof. unfold coordinator_init. by case_match. Qed.

Section specs.
Context (m : Mode).
Implicit Types (r : Register) (w : World) (l : PlayerOwnershipLease).

Lemma wp_locked {A} (f : Z -> ProtocolCoordinator -> A * ProtocolCoordinator)
    (Q : A -> World -> Prop) h r l1 l2 l3 w :
  repr m h r l1 l2 l3 w ->
  (forall now c, coord_repr m l1 l2 l3 c ->
     forall w', own_repr h r (w_own w') -> w_coord w' = (f now c).2 -> Q (f now c).1 w') ->
  wp (locked f) Q w.
Proof.
  intros [Ho Hc] H. split; [done|]. cbn. apply H; [by apply coord_repr_init | done | done].
Qed.

Lemma wp_lock_read {A} (f : ProtocolCoordinator -> A) (a : A) h r l1 l2 l3 w :
  repr m h r l1 l2 l3 w -> (forall c, coord_repr m l1 l2 l3 c -> f c = a) ->
  wp (lock_read f) (fun x w' => x = a /\ repr m h r l1 l2 l3 w') w.
Proof.
  intros Hw Hf. eapply wp_locked; [done|]. cbn. intros now c Hc w' Ho Hw'.
  split; [by apply Hf|]. split; [done | by rewrite Hw'].
Qed.

Lemma wp_accepts h r l1 l2 l3 w :
  repr m h r l1 l2 l3 w ->
  wp coordinator_accepts_media (fun x w' => x = mode_accepts m /\ repr m h r l1 l2 l3 w') w.
Proof. intros Hw. eapply wp_lock_read; [done|]. by intros c (_ & _ & <- & _). Qed.

Lemma wp_accepts_guard b h r l1 l2 l3 w :
  repr m h r l1 l2 l3 w ->
  wp (coordinator_accepts_guard b)
    (fun x w' => x = mode_accepts m || (b && mode_stopping m) /\ repr m h r l1 l2 l3 w') w.
Proof. intros Hw. eapply wp_lock_read; [done|]. by intros c (_ & _ & <- & _). Qed.

Lemma wp_exclusive h r l1 l2 l3 w :
  repr m h r l1 l2 l3 w ->
  wp coordinator_exclusive_resources_enabled
    (fun x w' => x = mode_exclusive m /\ repr m h r l1 l2 l3 w') w.
Proof. intros Hw. eapply wp_lock_read; [done|]. by intros c (_ & _ & <- & _). Qed.

Lemma wp_transition_begin r l1 l2 l3 w :
  repr m false r l1 l2 l3 w ->
  wp player_ownership_transition_begin (fun _ w' => repr m true r l1 l2 l3 w') w.
Proof.
  intros [Ho Hc]. split; [cbn; by destruct Ho as (_ & _ & -> & _)|]. cbn. split; [|done].
  apply own_repr_init in Ho. unfold own_repr in *. rsimpl. tauto.
Qed.

Lemma wp_transition_end r l1 l2 l3 w :
  repr m true r l1 l2 l3 w ->
  wp player_ownership_transition_end (fun _ w' => repr m false r l1 l2 l3 w') w.
Proof.
  intros [Ho Hc]. split; [done|]. cbn. split; [|done]. unfold own_repr in *. rsimpl. tauto.
Qed.

Lemma wp_on_own {A} (f : Ownership -> A * Ownership) (Q : A -> World -> Prop) h r l1 l2 l3 w :
  repr m h r l1 l2 l3 w ->
  (forall o, own_repr h r o ->
     forall w', w_own w' = (f o).2 -> coord_repr m l1 l2 l3 (w_coord w') -> Q (f o).1 w') ->
  wp (on_own f) Q w.
Proof.
  intros [Ho Hc] H. split; [done|]. cbn. apply H; [by apply own_repr_init | done | done].
Qed.

Lemma wp_current h r l1 l2 l3 w :
  repr m h r l1 l2 l3 w ->
  wp (player_ownership_current true)
    (fun x w' => x = (owned (reg_lease r), reg_lease r) /\ repr m h r l1 l2 l3 w') w.
Proof.
  intros Hw. apply wp_bind. eapply wp_on_own; [done|]. cbn. intros o Ho w' Hw' Hc.
  destruct Ho as (Hl & Ho). rewrite Hl. split; [done|]. split; [|done]. by rewrite Hw'.
Qed.

Lemma in_force_equal l r : owned l = true -> negb (generation l =? 0) = true ->
  lease_equal l (reg_lease r) = in_force l r.
Proof.
  intros H1 H2. unfold in_force. rewrite H1, H2. cbn. apply eq_true_iff_eq.
  by rewrite lease_equal_spec, bool_decide_eq_true.
Qed.

Lemma wp_validate l h r l1 l2 l3 w :
  repr m h r l1 l2 l3 w ->
  wp (player_ownership_validate (Some l))
    (fun x w' => x = in_force l r /\ repr m h r l1 l2 l3 w') w.
Proof.
  intros Hw. unfold player_ownership_validate. case_match eqn:E.
  - split; [|done]. unfold in_force, owned. apply orb_true_iff in E as [->| ->]; [done|].
    cbn. by rewrite andb_false_r.
  - apply orb_false_iff in E as [E1 E2]. eapply wp_on_own; [done|]. cbn. intros o Ho w' Hw' Hc.
    destruct Ho as (Hl & Ho). rewrite Hl, in_force_equal by (unfold owned; by rewrite ?E1, ?E2).
    split; [done|]. split; [|done]. by rewrite Hw'.
Qed.

Lemma wp_claim ow tk h r l1 l2 l3 w :
  ow <> PLAYER_MEDIA_OWNER_NONE -> repr m h r l1 l2 l3 w ->
  wp (player_ownership_claim ow tk true)
    (fun x w' => x = Some (mkLease ow tk (bump32 (reg_generation r)), reg_lease r) /\
       repr m h (mkRegister (mkLease ow tk (bump32 (reg_generation r)))
                   (bump32 (reg_generation r))) l1 l2 l3 w') w.
Proof.
  intros How Hw. unfold player_ownership_claim.
  assert (E : owner_eqb ow PLAYER_MEDIA_OWNER_NONE = false)
    by (apply not_true_is_false; by rewrite owner_eqb_eq).
  rewrite E. cbn [orb negb]. apply wp_bind. eapply wp_on_own; [done|].
  intros o (Hl & Hn & Hh & Hi) w' Hw' Hc. split; [cbn; by rewrite Hl, Hn|].
  split; [|done]. rewrite Hw'. unfold own_repr. cbn. rewrite Hn.
  split_and!; [done.. |]. rewrite <- Hn. by apply (claim_inv ow tk).
Qed.

Lemma wp_release l h r l1 l2 l3 w :
  repr m h r l1 l2 l3 w ->
  wp (player_ownership_release (Some l))
    (fun x w' => x = (spec_release l r).1 /\ repr m h (spec_release l r).2 l1 l2 l3 w') w.
Proof.
  intros Hw. eapply wp_on_own; [done|]. intros o (Hl & Hn & Hh & Hi) w' Hw' Hc.
  pose proof (release_inv l o Hi) as Hi'. revert Hw' Hi'. unfold release_locked, spec_release.
  assert (E : lease_equal l (g_current o) = bool_decide (l = reg_lease r)).
  { apply eq_true_iff_eq. by rewrite lease_equal_spec, bool_decide_eq_true, Hl. }
  rewrite E. case_match; intros Hw' Hi'; (split; [done|]; split; [|done]; rewrite Hw'; by split_and!).
Qed.

Lemma wp_release_current ow tk h r l1 l2 l3 w :
  repr m h r l1 l2 l3 w ->
  wp (player_ownership_release_current ow tk)
    (fun x w' => x = held_by ow tk r /\
       repr m h (if held_by ow tk r then reg_clear r else r) l1 l2 l3 w') w.
Proof.
  intros Hw. eapply wp_on_own; [done|]. intros o (Hl & Hn & Hh & Hi) w' Hw' Hc.
  pose proof (release_current_inv ow tk o Hi) as Hi'. revert Hw' Hi'.
  unfold release_current_locked, held_by. rewrite Hl.
  case_match; intros Hw' Hi'; (split; [done|]; split; [|done]; rewrite Hw'; by split_and!).
Qed.
End specs.

(** Runs the first part of a sequence by its specification. *)
Ltac wp_use lem :=
  apply wp_bind; eapply wp_mono; [eapply lem; eassumption | cbn beta].

(** *** The coordinator's sections *)

Lemma recompute_mode c : coord_mode (coordinator_recompute_state c) = coord_mode c.
Proof.
  unfold coordinator_recompute_state.
  case_decide as H1; [reflexivity|]. case_decide as H2; [reflexivity|].
  case_match; [reflexivity|]. cbv zeta.
  assert (Hl : coord_mode c = coord_mode { c with coord_lifecycle := PROTOCOL_LIFECYCLE_RUNNING }).
  { unfold coord_mode, upd. cbn. by destruct (coord_lifecycle c). }
  rewrite Hl. by repeat case_match.
Qed.

Section sections.
Context (m : Mode).

Lemma coord_repr_recompute_bump l1 l2 l3 c :
  coord_repr m l1 l2 l3 c ->
  coord_repr m l1 l2 l3 (coordinator_bump_revision (coordinator_recompute_state c)).
Proof.
  intros (Hs & Hl & Hm & Hd & Hp). apply session_ok_recompute in Hs.
  rewrite <- recompute_mode in Hm. destruct (recompute_snapshot c) as [st Hst].
  unfold coord_repr, coordinator_bump_revision, session_ok in *. rproj. rewrite Hst in *.
  revert Hs. rproj. intros Hs. split_and!; [apply Hs | apply Hs | done | | done | done].
  by rewrite <- Hm.
Qed.

Lemma apply_event_repr e now l1 l2 l3 c :
  coord_repr m l1 l2 l3 c ->
  coord_repr m (lease (protocol_media_session_transition (media_session (snapshot c)) (Some e)).2)
    l2 l3 (apply_media_event_locked e now c).2.
Proof.
  intros (Hs & Hl & Hm & Hd & Hp). unfold apply_media_event_locked.
  pose proof (transition_honest (media_session (snapshot c)) (Some e)) as Hh.
  pose proof (transition_wf _ (Some e) (proj2 Hs)) as Hw.
  destruct (protocol_media_session_transition _ _) as [st s']. cbn [fst snd] in *.
  case_decide as Hst; cbn [snd].
  - apply coord_repr_recompute_bump. unfold coord_repr, session_ok.
    repeat case_match; rproj; (split_and!; [done | done | done | | done | done]);
      by rewrite <- Hm.
  - destruct Hh as [[? _]|[_ Hsame]]; [done|]. cbn in Hsame. subst s'.
    unfold coord_repr, session_ok in *. rproj.
    split_and!; [apply Hs | apply Hs | done | | done | done].
    by rewrite <- Hm.
Qed.

Lemma set_desired_repr l l1 l2 l3 c :
  coord_repr m l1 l2 l3 c ->
  coord_repr m l1 l l3 (set_desired_locked (resource_mode_for_owner (owner l)) c).2.
Proof.
  intros (Hs & Hl & Hm & Hd & Hp). unfold set_desired_locked.
  assert (Ht : (if exclusive_media_resources c then resource_mode_for_owner (owner l)
                else PROTOCOL_RESOURCE_MODE_HOME) = wanted_mode m l) by (by rewrite <- Hm).
  rewrite Ht. case_decide as E; cbn [snd]; unfold coord_repr, session_ok in *; [by rewrite E|].
  unfold coordinator_bump_revision. rproj. split_and!; [apply Hs | apply Hs | done | | done | done].
  by rewrite <- Hm.
Qed.

Lemma discovery_repr l l1 l2 l3 c :
  coord_repr m l1 l2 l3 c ->
  coord_repr m l1 l2 l
    (discovery_locked (owned l) true PROTOCOL_DISCOVERY_SUSPEND_MEDIA_OWNERSHIP c).2.
Proof.
  intros (Hs & Hl & Hm & Hd & Hp). unfold discovery_locked.
  assert (Hpol : mode_ownership_policy m = true ->
    discovery_suspension_policy c = PROTOCOL_DISCOVERY_SUSPEND_MEDIA_OWNERSHIP).
  { rewrite <- Hm. cbn. by intros ?%bool_decide_eq_true. }
  cbn [andb]. case_bool_decide as E; cbn [snd].
  { unfold coord_repr. split_and!; try done. intros H. by apply Hpol in H. }
  assert (Ht : owned l && runtime_active c && non_null (set_discovery_suspended (operations c)) =
               wanted_suspension m l).
  { unfold wanted_suspension. rewrite <- Hm. cbn. by rewrite andb_assoc. }
  rewrite Ht. case_match eqn:Eq; cbn [snd]; unfold coord_repr, session_ok, coordinator_bump_revision in *.
  - rproj. split_and!; [apply Hs | apply Hs | done | | done | done].
    by rewrite <- Hm.
  - apply negb_false_iff, eqb_prop in Eq. by split_and!; try apply Hs.
Qed.

Context `{!Callbacks} `{!CallbacksPassive}.

Lemma wp_call {A} (c : Call) (p : prog World A) h r l1 l2 l3 w :
  passive p -> repr m h r l1 l2 l3 w ->
  wp (log_call c ;; p) (fun _ w' => repr m h r l1 l2 l3 w') w.
Proof.
  intros Hp [Ho Hc]. split; [done|]. cbn.
  eapply wp_mono; [apply Hp|]. cbn. intros _ w' (Ho' & Hc' & _).
  split; [by rewrite Ho' | by rewrite Hc'].
Qed.

Lemma wp_set_desired l h r l1 l2 l3 w :
  repr m h r l1 l2 l3 w ->
  wp (coordinator_set_desired_resource_mode (Some (resource_mode_for_owner (owner l))))
    (fun _ w' => repr m h r l1 l l3 w') w.
Proof.
  intros Hw. apply wp_bind. eapply wp_locked; [done|]. cbn [default]. intros _ c Hc w' Ho Hw'.
  assert (Hr : repr m h r l1 l l3 w') by (split; [done | rewrite Hw'; by eapply set_desired_repr]).
  repeat case_match; try done. apply wp_call; [apply passive_request_stop | done].
Qed.

Lemma wp_discovery l h r l1 l2 l3 w :
  repr m h r l1 l2 l3 w ->
  wp (coordinator_set_discovery_suspended_for_policy PROTOCOL_DISCOVERY_SUSPEND_MEDIA_OWNERSHIP
        (owned l)) (fun _ w' => repr m h r l1 l2 l w') w.
Proof.
  intros Hw. apply wp_bind. eapply wp_locked; [done|]. intros _ c Hc w' Ho Hw'.
  assert (Hr : repr m h r l1 l2 l w') by (split; [done | rewrite Hw'; by eapply discovery_repr]).
  repeat case_match; try done. apply wp_call; [apply passive_set_discovery | done].
Qed.

Lemma wp_apply_event e h r l1 l2 l3 w l' :
  (forall s, session_wf s -> lease s = l1 ->
     lease (protocol_media_session_transition s (Some e)).2 = l') ->
  repr m h r l1 l2 l3 w ->
  wp (coordinator_apply_media_event (Some e) true) (fun _ w' => repr m h r l' l2 l3 w') w.
Proof.
  intros Hl Hw. cbn [coordinator_apply_media_event negb andb]. eapply wp_locked; [done|].
  intros now c Hc w' Ho Hw'. split; [done|]. rewrite Hw'.
  rewrite <- (Hl (media_session (snapshot c))); [by eapply apply_event_repr | apply Hc | apply Hc].
Qed.

(** A released session shows the zeroed lease. *)
Lemma released_lease s :
  session_wf s ->
  lease (protocol_media_session_transition s
           (Some (mkEvent PROTOCOL_MEDIA_EVENT_RELEASED (lease s)))).2 = lease_zero.
Proof.
  intros Hw. unfold protocol_media_session_transition. cbn.
  destruct (decide (owner (lease s) = PLAYER_MEDIA_OWNER_NONE)) as [Hn|Hn].
  { destruct (wf_zero s Hw Hn) as [Hz _]. rewrite Hz. exact Hz. }
  rewrite (proj2 (lease_valid_spec (lease s))) by (split; [done | by apply wf_generation]).
  rewrite (proj2 (session_lease_equal_eq (lease s) (lease s))) by done. cbn.
  unfold apply_reset.
  assert (E : owner_eqb (owner (lease s)) PLAYER_MEDIA_OWNER_NONE = false)
    by (apply not_true_is_false; by rewrite owner_eqb_eq).
  rewrite E, andb_false_r. done.
Qed.

Lemma wp_publish_release h r l1 l2 l3 w :
  repr m h r l1 l2 l3 w ->
  wp publish_release (fun _ w' => repr m h r lease_zero lease_zero lease_zero w') w.
Proof.
  intros Hw. unfold publish_release. apply wp_bind, wp_bind.
  eapply wp_mono.
  { eapply (wp_lock_read m _ (mkEvent PROTOCOL_MEDIA_EVENT_RELEASED l1)); [done|].
    intros c Hc. f_equal. apply Hc. }
  cbn beta. intros e w1 [-> Hw1]. apply wp_bind. eapply wp_mono.
  { eapply wp_apply_event; [|done].
    intros s Hs <-. by apply released_lease. }
  cbn beta. intros _ w2 Hw2. wp_use (wp_set_desired lease_zero). intros _ w3 Hw3.
  by eapply (wp_discovery lease_zero).
Qed.

Lemma wp_publish_claim ow tk h g r l2 l3 w l1 :
  ow <> PLAYER_MEDIA_OWNER_NONE -> is_u32 g -> (is_owned l1 -> generation l1 = g) ->
  let l := mkLease ow tk (bump32 g) in
  repr m h r l1 l2 l3 w ->
  wp (publish_claim l ow) (fun _ w' => repr m h r l l l w') w.
Proof.
  intros How Hg Hl1 l Hw. unfold publish_claim. apply wp_bind, wp_bind. cbn [wp].
  apply wp_bind. eapply wp_mono.
  { eapply wp_apply_event; [|done]. intros s Hs <-. cbn.
    destruct (apply_claim_next s ow tk g Hs Hg How Hl1) as (s' & Ha & Hl). fold l in Ha. by rewrite Ha. }
  cbn beta. intros _ w2 Hw2. wp_use (wp_set_desired l). intros _ w3 Hw3. assert (Ho : owned l = true) by (by apply owned_spec).
  pose proof (wp_discovery l h r l l l3 w3 Hw3) as Hd. by rewrite Ho in Hd.
Qed.

(** *** The operations refine the register *)

Definition refines (op : MediaOp) : Prop := forall r w,
  represents m r w ->
  wp (media_op op) (fun x w' => x = (media_spec m op r).1 /\ represents m (media_spec m op r).2 w') w.

Lemma wp_release_airplay l r l1 l2 l3 w :
  repr m false r l1 l2 l3 w ->
  wp (coordinator_release_airplay_owner (Some l)) (fun _ w' => repr m false r l1 l2 l3 w') w.
Proof.
  intros Hw. unfold coordinator_release_airplay_owner. case_match; [done|].
  apply wp_bind. eapply wp_locked; [done|]. cbn. intros _ c Hc w' Ho Hw'.
  assert (Hr : repr m false r l1 l2 l3 w') by (split; [done | by rewrite Hw']).
  case_match; [|done]. by apply wp_call; [apply passive_release_media|].
Qed.

(** Whether the exclusive mode refuses the claim. *)
Definition conflict (ow : PlayerMediaOwner) (r : Register) : bool :=
  mode_exclusive m && owned (reg_lease r) && negb (same_family (owner (reg_lease r)) ow).

Lemma exclusive_conflict_spec ow r :
  exclusive_conflict (mode_exclusive m) (owned (reg_lease r)) (reg_lease r) ow = conflict ow r.
Proof.
  unfold exclusive_conflict, conflict, same_family. by rewrite bool_decide_not.
Qed.

(** The takeover goes ahead unless there is a conflict, and changes nothing. *)
Lemma wp_takeover ow r w :
  represents m r w ->
  wp (takeover_airplay ow) (fun b w' => (b = true \/ conflict ow r = true) /\ represents m r w') w.
Proof.
  intros Hw. unfold takeover_airplay. wp_use wp_exclusive. intros ex w1 [-> Hw1].
  case_match eqn:He; [split; [by left | done]|]. apply negb_false_iff in He.
  wp_use wp_current. intros x w2 [-> Hw2]. case_match eqn:Ht; [|split; [by left | done]].
  eapply wp_mono; [by eapply wp_release_airplay|]. cbn beta. intros b w3 Hw3. split; [|done].
  right. bool_cases. rewrite <- exclusive_conflict_spec, He. unfold exclusive_conflict.
  by apply andb_true_iff.
Qed.

Lemma refines_begin ow tk : refines (MediaBegin ow tk).
Proof.
  intros r w Hw. cbn [media_op media_spec]. apply wp_fmap.
  unfold protocol_coordinator_media_begin. cbn [negb orb]. case_match eqn:How; [by split|].
  assert (Hreal : ow <> PLAYER_MEDIA_OWNER_NONE).
  { intros ->. by vm_compute in How. }
  wp_use wp_accepts. intros ? w1 [-> Hw1]. case_match eqn:Ha; [by rewrite ?orb_true_l; split|].
  wp_use wp_takeover. intros b w2 [Hb Hw2]. rewrite orb_false_l. fold (conflict ow r).
  case_match eqn:Eb.
  { destruct Hb as [->| ->]; [done|]. by split. }
  wp_use wp_transition_begin. intros _ w3 Hw3.
  wp_use wp_current. intros ? w4 [-> Hw4]. cbn beta match.
  wp_use wp_accepts. intros ? w5 [-> Hw5].
  wp_use wp_exclusive. intros ? w6 [-> Hw6].
  rewrite exclusive_conflict_spec, Ha, orb_false_l.
  case_match eqn:Ec.
  { wp_use wp_transition_end. intros _ w7 Hw7. by split. }
  apply wp_bind. eapply wp_mono; [by eapply wp_claim|]. cbn beta. intros ? w7 [-> Hw7]. cbn beta match.
  destruct Hw1 as [(Hcur & Hnext & _ & Hu & Hgen) _].
  apply wp_bind. eapply wp_mono.
  { eapply (wp_publish_claim ow tk true (reg_generation r)); [done | by rewrite <- Hnext | | done].
    rewrite <- Hcur, <- Hnext. intros Ho. by apply Hgen. }
  cbn beta. intros _ w8 Hw8. wp_use wp_transition_end. intros _ w9 Hw9. by split.
Qed.

(** The common end of the release functions. *)
Lemma wp_finish_release (b : bool) r l w (A : Type) (a : A) :
  repr m true (if b then reg_clear r else r) l l l w ->
  l = reg_lease r ->
  wp ((if b then publish_release else mret tt) ;; player_ownership_transition_end ;; mret a)
    (fun x w' => x = a /\ represents m (if b then reg_clear r else r) w') w.
Proof.
  intros Hw ->. apply wp_bind. destruct b; cbn [wp].
  - eapply wp_mono; [by eapply wp_publish_release|]. cbn beta. intros _ w1 Hw1.
    wp_use wp_transition_end. intros _ w2 Hw2. by split.
  - wp_use wp_transition_end. intros _ w2 Hw2. by split.
Qed.

Lemma spec_release_eq l r :
  spec_release l r = ((spec_release l r).1, if (spec_release l r).1 then reg_clear r else r).
Proof. unfold spec_release. by case_match. Qed.

Lemma refines_release l : refines (MediaRelease l).
Proof.
  intros r w Hw. cbn [media_op]. apply wp_fmap. unfold protocol_coordinator_media_release.
  wp_use wp_transition_begin. intros _ w1 Hw1. apply wp_bind. destruct l as [l|]; cbn [media_spec].
  - eapply wp_mono; [by eapply wp_release|]. cbn beta. intros ? w2 [-> Hw2].
    rewrite (spec_release_eq l r) in Hw2 |- *. cbn [fst snd] in *.
    eapply wp_mono; [by eapply wp_finish_release|]. cbn beta. by intros ? ? [-> ?].
  - apply (wp_mono _ _ _ _ (wp_finish_release false r (reg_lease r) w1 bool false Hw1 eq_refl)).
    by intros ? ? [-> ?].
Qed.

Lemma refines_release_current ow tk : refines (MediaReleaseCurrent ow tk).
Proof.
  intros r w Hw. cbn [media_op]. apply wp_fmap. unfold protocol_coordinator_media_release_current.
  wp_use wp_transition_begin. intros _ w1 Hw1. wp_use wp_release_current. intros ? w2 [-> Hw2].
  eapply wp_mono; [by eapply wp_finish_release|]. cbn beta. cbn [media_spec].
  intros ? ? [-> ?]. by case_match.
Qed.

Lemma refines_abort t : refines (MediaAbort t).
Proof.
  intros r w Hw. cbn [media_op]. apply wp_fmap. destruct t as [t|]; [|by split].
  cbn [protocol_coordinator_media_abort media_spec]. destruct t as [act l prev]. cbn [transaction_active].
  destruct act; cbn [negb]; [|by split].
  wp_use wp_transition_begin. intros _ w1 Hw1. wp_use wp_release. intros ? w2 [-> Hw2].
  cbn [transaction_lease] in *. rewrite (spec_release_eq l r) in Hw2 |- *. cbn [fst snd] in *.
  eapply wp_mono; [by eapply wp_finish_release|]. cbn beta. by intros ? ? [-> ?].
Qed.

(** The common end of the guard functions. *)
Lemma wp_finish_guard (refused : bool) r w :
  repr m true r (reg_lease r) (reg_lease r) (reg_lease r) w ->
  wp (if refused then player_ownership_transition_end ;; mret None
      else player_ownership_transition_end ;; mret (Some (mkGuard true (reg_lease r))))
    (fun x w' => ResGuard x = grant (negb refused) r /\ represents m r w') w.
Proof.
  intros Hw. destruct refused; wp_use wp_transition_end; intros _ w' Hw'; by split.
Qed.


Lemma refines_guard ow tk : refines (MediaGuard ow tk).
Proof.
  intros r w Hw. cbn [media_op media_spec fst snd]. apply wp_fmap.
  unfold protocol_coordinator_media_guard_begin. cbn [negb orb]. case_match eqn:How; [by split|].
  wp_use wp_accepts. intros ? w1 [-> Hw1]. case_match eqn:Ha; [by rewrite (negb_true_iff _) in Ha; rewrite Ha; split|].
  wp_use wp_transition_begin. intros _ w2 Hw2. wp_use wp_current. intros ? w3 [-> Hw3].
  cbn beta match. wp_use wp_accepts. intros ? w4 [-> Hw4].
  eapply wp_mono; [by eapply wp_finish_guard|]. cbn beta. intros x w5 [Hx Hw5].
  split; [|done]. rewrite Hx. f_equal. apply negb_false_iff in Ha. rewrite Ha.
  unfold held_by. destruct (owned (reg_lease r)) eqn:Eo; cbn.
  - by destruct (owner_eqb _ ow), (token _ =? _).
  - apply owned_false in Eo. rewrite Eo.
    assert (E : owner_eqb PLAYER_MEDIA_OWNER_NONE ow = false).
    { apply not_true_is_false. rewrite owner_eqb_eq. intros <-. by vm_compute in How. }
    by rewrite E.
Qed.

Lemma refines_unowned_guard ow tk : refines (MediaUnownedGuard ow tk).
Proof.
  intros r w Hw. cbn [media_op media_spec fst snd]. apply wp_fmap.
  unfold protocol_coordinator_media_unowned_or_owner_guard_begin. cbn [negb orb].
  case_match eqn:How; [by split|].
  wp_use wp_accepts_guard. intros ? w1 [-> Hw1]. cbn [andb]. rewrite orb_false_r.
  case_match eqn:Ha; [by apply negb_true_iff in Ha; rewrite Ha; split|].
  wp_use wp_transition_begin. intros _ w2 Hw2. wp_use wp_current. intros ? w3 [-> Hw3].
  cbn beta match. wp_use wp_accepts_guard. intros ? w4 [-> Hw4].
  eapply wp_mono; [by eapply wp_finish_guard|]. cbn beta. intros x w5 [Hx Hw5].
  split; [|done]. rewrite Hx. f_equal. apply negb_false_iff in Ha. rewrite Ha.
  unfold held_by. by destruct (owned _), (owner_eqb _ ow), (token _ =? _).
Qed.

Lemma refines_lease_guard l allow : refines (MediaLeaseGuard l allow).
Proof.
  intros r w Hw. cbn [media_op]. apply wp_fmap. destruct l as [l|]; [|by split].
  cbn [protocol_coordinator_media_lease_guard_begin media_spec fst snd negb orb].
  case_match eqn:Hl.
  { split; [|done]. unfold in_force, owned. by rewrite Hl. }
  wp_use wp_accepts_guard. intros ? w1 [-> Hw1]. case_match eqn:Ha.
  { split; [|done]. apply negb_true_iff in Ha. by rewrite Ha, andb_false_r. }
  apply negb_false_iff in Ha.
  wp_use wp_transition_begin. intros _ w2 Hw2. wp_use wp_accepts_guard. intros ? w3 [-> Hw3].
  rewrite Ha. cbn [negb]. wp_use wp_validate. intros ? w4 [-> Hw4].
  rewrite orb_false_l, andb_true_r. destruct (in_force l r) eqn:Hf; cbn [negb].
  - unfold in_force in Hf. bool_cases.
    match goal with H : bool_decide _ = true |- _ => apply bool_decide_eq_true in H as -> end.
    eapply wp_mono; [by eapply (wp_finish_guard false)|]. by intros ? ? [Hx ?].
  - eapply wp_mono; [by eapply (wp_finish_guard true)|]. by intros ? ? [Hx ?].
Qed.

Lemma refines_barrier : refines MediaBarrier.
Proof.
  intros r w Hw. cbn [media_op]. apply wp_fmap. unfold protocol_coordinator_media_barrier_begin.
  cbn [negb]. wp_use wp_transition_begin. intros _ w1 Hw1. wp_use wp_current. intros ? w2 [-> Hw2].
  cbn beta match. eapply wp_mono; [by eapply (wp_finish_guard false)|]. by intros ? ? [Hx ?].
Qed.

Lemma refines_current : refines MediaCurrent.
Proof.
  intros r w Hw. cbn [media_op]. wp_use wp_current. intros ? w1 [-> Hw1]. by split.
Qed.

Lemma refines_validate l : refines (MediaValidate l).
Proof.
  intros r w Hw. cbn [media_op]. apply wp_fmap. destruct l as [l|]; [|by split].
  eapply wp_mono; [by eapply wp_validate|]. cbn beta. by intros ? ? [-> ?].
Qed.

Lemma media_op_refines op : refines op.
Proof.
  destruct op; [apply refines_begin | apply refines_release | apply refines_release_current
    | apply refines_abort | apply refines_guard | apply refines_unowned_guard
    | apply refines_lease_guard | apply refines_barrier | apply refines_current
    | apply refines_validate].
Qed.

Lemma media_ops_wp ops r w :
  represents m r w ->
  wp (media_ops ops) (fun xs w' => xs = (media_spec_all m ops r).1 /\
                        represents m (media_spec_all m ops r).2 w') w.
Proof.
  revert r w. induction ops as [|op ops IH]; intros r w Hw; [by split|].
  cbn [media_ops media_spec_all]. wp_use media_op_refines. intros ? w1 [-> Hw1].
  destruct (media_spec m op r) as [x r1]. cbn [fst snd] in *. wp_use IH. intros ? w2 [-> Hw2].
  destruct (media_spec_all m ops r1) as [xs r2]. by split.
Qed.

End sections.

#[local] Existing Instance quiet_callbacks.

#[local] Instance quiet_callbacks_passive : CallbacksPassive.
Proof. by split. Qed.

(** ** Properties *)

(** C2: Claiming, releasing, aborting, guarding and validating the player
    through the coordinator behaves, over every sequence of operations and with
    callbacks that leave the coordinator alone, exactly as one register that
    holds a single lease: each call returns, with the result the register
    prescribes (in exclusive mode a claim of another protocol family is refused
    and changes nothing; only the lease in force can be released, aborted or
    guarded), and afterwards the ownership module, the published media session,
    the desired resource mode and the discovery suspension all agree with the
    register and no transition is left open. *)
Theorem media_operations_refine_register `{!Callbacks} `{!CallbacksPassive}
    (m : Mode) (r : Register) (w : World) (ops : list MediaOp)
    (Hw : represents m r w) :
  exists w', run (media_ops ops) w = Some ((media_spec_all m ops r).1, w') /\
    represents m (media_spec_all m ops r).2 w'.
Proof.
  destruct (proj1 (wp_run _ _ _) (media_ops_wp m ops r w Hw)) as (xs & w' & Hrun & -> & Hr).
  by exists w'.
Qed.

(** The running coordinator of the example represents the empty register. *)
Lemma demo_running_represents :
  represents (mkMode true true false true true) (mkRegister lease_zero 0) demo_running.
Proof.
  split.
  - split_and!; [reflexivity..|]. split; [vm_compute; split; discriminate | done].
  - split_and!; try (vm_compute; reflexivity).
    split; [vm_compute; reflexivity|].
    replace (media_session (snapshot (w_coord demo_running))) with session_zero
      by (vm_compute; reflexivity).
    apply session_zero_wf.
Qed.

(** A DLNA claim, a refused IPTV claim, a stale release and the right one. *)
Definition demo_ops : list MediaOp :=
  [MediaBegin PLAYER_MEDIA_OWNER_DLNA 7; MediaBegin PLAYER_MEDIA_OWNER_IPTV 1;
   MediaRelease (Some (mkLease PLAYER_MEDIA_OWNER_DLNA 7 9));
   MediaRelease (Some (mkLease PLAYER_MEDIA_OWNER_DLNA 7 1)); MediaCurrent].

Lemma media_operations_refine_register_witness :
  exists w', run (media_ops demo_ops) demo_running =
      Some ([ResTransaction (Some (mkTransaction true (mkLease PLAYER_MEDIA_OWNER_DLNA 7 1) lease_zero));
             ResTransaction None; ResReleased false; ResReleased true;
             ResCurrent false lease_zero], w') /\
    represents (mkMode true true false true true) (mkRegister lease_zero 1) w'.
Proof.
  apply (media_operations_refine_register (mkMode true true false true true)
           (mkRegister lease_zero 0) demo_running demo_ops demo_running_represents).
Defined.
