(* ===== verification/CoordPlayback.v ===== *)
(** * Playback observation and waiting for resources

    When an observed end of playback gives the player back, and how the wait
    for a protocol's exclusive resources ends. *)

From S2P Require Import Prelude Prog Ownership MediaSession CoordData Coordinator CoordConcurrent CoordMedia.

(** ** Observations *)

(** One call of [protocol_coordinator_observe_playback], with the time it read
    and whether the exclusive resources were in place. *)
Record Observation := mkObservation {
  obs_active : bool;
  obs_terminal : bool;
  obs_now : Z;
  obs_ready : bool
}.

(** What the other threads leave alone while one lease stays in force. *)
Definition same_playback (c c' : ProtocolCoordinator) : Prop :=
  exclusive_media_resources c' = exclusive_media_resources c /\
  active_media (snapshot c') = active_media (snapshot c) /\
  playback_observed_generation c' = playback_observed_generation c /\
  playback_seen_active c' = playback_seen_active c /\
  media_ready_ms c' = media_ready_ms c.

(** The coordinator after the observations [tr], none of which released the
    player; between two observations the rest of it may change. *)
Inductive observed (c0 : ProtocolCoordinator) : list Observation -> ProtocolCoordinator -> Prop :=
| observed_nil : observed c0 [] c0
| observed_call tr c c' a t now :
    observed c0 tr c -> observe_playback_locked a t now c = (None, c') ->
    observed c0 (tr ++ [mkObservation a t now (resource_ready c)]) c'
| observed_env tr c c' :
    observed c0 tr c -> same_playback c c' -> observed c0 tr c'.

(** A lease was just claimed in exclusive mode. *)
Definition just_claimed (l : PlayerOwnershipLease) (c : ProtocolCoordinator) : Prop :=
  exclusive_media_resources c = true /\ active_media (snapshot c) = l /\ owned l = true /\
  playback_observed_generation c = generation l /\
  playback_seen_active c = false /\ media_ready_ms c = 0.

(** The end was observed at [t] with the resources in place, and they were in place at every
    end that was observed later. *)
Definition ended_since (t : Z) (tr : list Observation) : Prop :=
  exists before o after, tr = before ++ o :: after /\ obs_terminal o = true /\ obs_ready o = true /\ obs_now o = t /\
    Forall (fun o => obs_terminal o = true -> obs_ready o = true) after.

(** What the bookkeeping remembers of the observations. *)
Definition playback_inv (l : PlayerOwnershipLease) (tr : list Observation)
    (c : ProtocolCoordinator) : Prop :=
  exclusive_media_resources c = true /\ active_media (snapshot c) = l /\ owned l = true /\
  playback_observed_generation c = generation l /\
  (if playback_seen_active c then (exists o, o ∈ tr /\ obs_active o = true) /\ media_ready_ms c = 0
   else Forall (fun o => obs_active o = false) tr) /\
  (media_ready_ms c <> 0 -> ended_since (media_ready_ms c) tr).

(** ** Waiting *)

(** Whether the lease's resources are in place and the lease is in force. *)
Definition wait_result (l : PlayerOwnershipLease) (w : World) : bool :=
  (wait_status l (w_coord w)).1.1 && lease_valid_at l (w_own w).

(** ** Lemmas *)

Lemma inv_extend {A} (P : A -> Prop) (tr : list A) o :
  (exists x, x ∈ tr /\ P x) -> exists x, x ∈ tr ++ [o] /\ P x.
Proof. intros (x & Hx & HP). exists x. split; [apply elem_of_app; by left | done]. Qed.

Lemma inv_last {A} (P : A -> Prop) (tr : list A) o : P o -> exists x, x ∈ tr ++ [o] /\ P x.
Proof. intros HP. exists o. split; [apply elem_of_app; right; by apply list_elem_of_singleton | done]. Qed.

Lemma ended_extend t tr o : ended_since t tr -> (obs_terminal o = true -> obs_ready o = true) -> ended_since t (tr ++ [o]).
Proof.
  intros (before & o' & after & -> & H1 & H2 & H3 & H4) Ho. exists before, o', (after ++ [o]).
  rewrite <- app_assoc. split_and!; try done. apply Forall_app. split; [done|by apply Forall_singleton].
Qed.

Lemma ended_now tr a now : ended_since now (tr ++ [mkObservation a true now true]).
Proof. by exists tr, (mkObservation a true now true), []. Qed.

Lemma resource_ready_frame (c : ProtocolCoordinator) b r :
  resource_ready { c with playback_seen_active := b; media_ready_ms := r } = resource_ready c.
Proof. reflexivity. Qed.

(** The new values of [playback_seen_active] and [media_ready_ms]. *)
Lemma observe_playback_shape l a t now c :
  exclusive_media_resources c = true -> active_media (snapshot c) = l -> owned l = true ->
  playback_observed_generation c = generation l ->
  let seen := a || playback_seen_active c in
  let ready := if a then 0
               else if t && negb seen then
                 if negb (resource_ready c) then 0
                 else if media_ready_ms c =? 0 then now else media_ready_ms c
               else media_ready_ms c in
  let r := observe_playback_locked a t now c in
  r.1 = (if t && (seen || ((0 <? ready) && (ready <=? now) &&
                           (PROTOCOL_TERMINAL_RELEASE_GRACE_MS <=? now - ready)))
         then Some l else None) /\
  exclusive_media_resources r.2 = true /\ active_media (snapshot r.2) = l /\
  playback_observed_generation r.2 = generation l /\
  playback_seen_active r.2 = seen /\ media_ready_ms r.2 = ready.
Proof.
  intros Hx Hl Ho Hg. unfold observe_playback_locked. rewrite Hx, Hl. fold (owned l).
  rewrite Ho, Hg. cbn [andb]. rewrite Z.eqb_refl. cbn [negb]. cbv zeta.
  destruct a; cbn [orb negb andb].
  - rproj. cbn [orb]. destruct t; cbn [andb fst snd]; rproj; by rewrite ?Hl; split_and!.
  - destruct t; cbn [andb]; [|by rewrite ?Hl; split_and!].
    destruct (playback_seen_active c) eqn:Hs; cbn [negb].
    { rewrite Hs. cbn [orb fst snd]. by rewrite ?Hl; split_and!. }
    destruct (resource_ready c) eqn:Hr; cbn [negb].
    + destruct (media_ready_ms c =? 0) eqn:Hz; rproj; rewrite ?Hs; cbn [orb];
        case_match; cbn [fst snd]; rproj; by rewrite ?Hl; split_and!.
    + rproj. rewrite Hs. cbn. by rewrite ?Hl; split_and!.
Qed.

Lemma observe_playback_inv l tr a t now c :
  playback_inv l tr c ->
  playback_inv l (tr ++ [mkObservation a t now (resource_ready c)])
    (observe_playback_locked a t now c).2.
Proof.
  intros (Hx & Hl & Ho & Hg & Hseen & Hready).
  destruct (observe_playback_shape l a t now c Hx Hl Ho Hg) as (_ & Hx' & Hl' & Hg' & Hs' & Hr').
  unfold playback_inv. rewrite Hs', Hr'. split; [done|]. split; [done|]. split; [done|]. split; [done|]. split.
  - destruct a; cbn [orb andb negb]; [split; [by apply inv_last|done]|].
    destruct (playback_seen_active c); [rewrite andb_false_r; split; [by apply inv_extend, Hseen|apply Hseen]|].
    apply Forall_app. split; [done|by apply Forall_singleton].
  - destruct a; [done|]. cbn [orb]. destruct (playback_seen_active c) eqn:Es; cbn [negb].
    + rewrite andb_false_r. intros H. by destruct Hseen.
    + rewrite andb_true_r. destruct t; [|intros H; by apply ended_extend; [apply Hready|]].
      destruct (resource_ready c) eqn:Er; [|done]. cbn [negb].
      destruct (Z.eqb_spec (media_ready_ms c) 0); intros H; [apply ended_now|]. by apply ended_extend; [apply Hready|].
Qed.

Lemma observed_inv l c0 tr c : just_claimed l c0 -> observed c0 tr c -> playback_inv l tr c.
Proof.
  intros (Hx & Hl & Ho & Hg & Hs & Hr) Hobs.
  induction Hobs as [|tr c c' a t now _ IH Hc|tr c c' _ IH (H1 & H2 & H3 & H4 & H5)].
  - split_and!; rewrite ?Hs, ?Hr; done.
  - apply (observe_playback_inv l tr a t now c) in IH. by rewrite Hc in IH.
  - unfold playback_inv in *. by rewrite H1, H2, H3, H4, H5.
Qed.

(** *** Waiting *)

Lemma wait_status_init l c : wait_status l (coordinator_init c) = wait_status l c.
Proof. unfold coordinator_init. by case_match. Qed.

(** The two worlds agree on what the wait reads. *)
Definition same_view (l : PlayerOwnershipLease) (w w' : World) : Prop :=
  wait_status l (w_coord w') = wait_status l (w_coord w) /\
  g_current (w_own w') = g_current (w_own w).

Lemma same_view_trans l w1 w2 w3 : same_view l w1 w2 -> same_view l w2 w3 -> same_view l w1 w3.
Proof. intros [H1 H2] [H3 H4]. split; congruence. Qed.

Lemma same_view_result l w w' : same_view l w w' -> wait_result l w' = wait_result l w.
Proof. unfold wait_result, lease_valid_at. by intros [-> ->]. Qed.

Lemma wp_wait_status l w :
  wp (lock_read (wait_status l))
    (fun a w' => a = wait_status l (w_coord w) /\ same_view l w w' /\ w_now w' = w_now w) w.
Proof. split; [done|]. unfold same_view. cbn -[wait_status]. by rewrite wait_status_init. Qed.

Lemma wp_validate_view l w :
  wp (protocol_coordinator_media_validate (Some l))
    (fun b w' => b = lease_valid_at l (w_own w) /\ same_view l w w' /\ w_now w' = w_now w) w.
Proof.
  unfold protocol_coordinator_media_validate, player_ownership_validate, lease_valid_at.
  destruct (owner_eqb _ _); cbn -[wait_status]; [done|].
  destruct (generation l =? 0); cbn -[wait_status]; [done|].
  unfold same_view. cbn -[wait_status]. by rewrite ownership_init_current.
Qed.

Lemma u64_elapsed_next now start timeout :
  is_u64 now -> is_u64 start -> u64 (now - start) < timeout -> timeout < UINT32_MAX ->
  is_u64 (u64 (now + 1)) /\ u64 (u64 (now + 1) - start) = u64 (now - start) + 1.
Proof. width_lia. Qed.

(** With enough rounds the loop ends, in the state it started from and within
    the timeout. *)
Lemma wp_wait_loop fuel l timeout start w :
  0 <= timeout < UINT32_MAX -> is_u64 (w_now w) -> is_u64 start ->
  u64 (w_now w - start) <= timeout -> timeout < u64 (w_now w - start) + Z.of_nat fuel ->
  wp (wait_resources_loop fuel l timeout start)
    (fun r w' => r = Some (wait_result l w) /\ same_view l w w' /\
                 u64 (w_now w' - start) <= timeout) w.
Proof.
  intros Ht. revert w. induction fuel as [|fuel IH]; intros w Hn Hs He Hf; [lia|].
  cbn [wait_resources_loop]. apply wp_bind. eapply wp_mono; [apply wp_wait_status|].
  cbn beta. intros st w1 (-> & Hv1 & Hn1).
  destruct (wait_status l (w_coord w)) as [[ready failed] accepting] eqn:Est.
  rewrite <- (same_view_result l w w1 Hv1). unfold wait_result.
  rewrite (proj1 Hv1), Est. cbn [fst]. destruct ready; cbn [andb].
  { apply wp_bind. eapply wp_mono; [apply wp_validate_view|]. cbn beta.
    intros b w2 (-> & Hv2 & Hn2). cbn. rewrite Hn2, Hn1. by split_and!; [| eapply same_view_trans|]. }
  apply wp_bind. eapply (wp_mono _ (fun b w' => same_view l w w' /\ w_now w' = w_now w)).
  { case_match; [by split|]. eapply wp_mono; [apply wp_validate_view|]. cbn beta.
    intros b w2 (_ & Hv2 & Hn2). rewrite Hn2. split; [by eapply same_view_trans | done]. }
  cbn beta. intros valid w2 [Hv2 Hn2]. case_match; [cbn; by rewrite Hn2|].
  unfold wait_expired. rewrite (proj2 (Z.eqb_neq timeout UINT32_MAX)) by lia.
  apply wp_bind. split; [done|]. cbn [id prog_mbind prog_bind mret prog_ret wp].
  rewrite Hn2.
  destruct (Z.leb_spec timeout (u64 (w_now w - start))) as [Hle|Hlt]; [cbn; by rewrite Hn2|].
  apply wp_bind. split; [done|]. cbn [wp].
  destruct (u64_elapsed_next (w_now w) start timeout Hn Hs Hlt) as [Hn3 He3]; [lia|].
  set (w3 := { w2 with w_now := u64 (w_now w2 + 1) }).
  assert (Hw3 : w_now w3 = u64 (w_now w + 1)) by (unfold w3; rproj; by rewrite Hn2).
  assert (Hv3 : same_view l w w3) by exact Hv2.
  eapply wp_mono; [apply (IH w3); rewrite ?Hw3; [done | done | lia | lia]|].
  cbn beta. intros r w4 (-> & Hv4 & Hn4). rewrite (same_view_result l w w3 Hv3).
  unfold wait_result. rewrite Est. cbn [fst andb]. split_and!; [done | by eapply same_view_trans | done].
Qed.

#[local] Existing Instance quiet_callbacks.

(** ** Properties *)

(** C28: In exclusive mode an observed end of playback gives the player back only
    when playback was seen active under this lease; or else, when it was never seen active,
    if an earlier end was observed at least 1000 ms before with the owner's exclusive
    resources in place, and they were in place at every end observed since and are now.  Whatever else
    changes in the coordinator between the observations does not matter. *)
Theorem playback_end_releases_only_after_grace (l l' : PlayerOwnershipLease)
    (c0 c c' : ProtocolCoordinator) (tr : list Observation) (active terminal : bool) (now : Z)
    (Hclaim : just_claimed l c0) (Hobs : observed c0 tr c)
    (Hrel : observe_playback_locked active terminal now c = (Some l', c')) :
  l' = l /\ terminal = true /\
  (active = true \/ (exists o, o ∈ tr /\ obs_active o = true) \/
   (Forall (fun o => obs_active o = false) tr /\ resource_ready c = true /\
    exists t, ended_since t tr /\ t + PROTOCOL_TERMINAL_RELEASE_GRACE_MS <= now)).
Proof.
  destruct (observed_inv l c0 tr c Hclaim Hobs) as (Hx & Hl & Ho & Hg & Hseen & Hready).
  destruct (observe_playback_shape l active terminal now c Hx Hl Ho Hg) as (Hr & _).
  rewrite Hrel in Hr. cbn [fst] in Hr. case_match eqn:Hif; [|done]. injection Hr as ->.
  apply andb_true_iff in Hif as [-> Hif]. split_and!; [done..|].
  destruct active; [by left|]. right. cbn [orb andb negb] in Hif.
  destruct (playback_seen_active c); [left; by apply Hseen|]. right. cbn [orb negb] in Hif.
  bool_cases. rewrite Z.leb_le, Z.ltb_lt in *.
  destruct (resource_ready c); cbn [negb] in *; [|lia].
  destruct (Z.eqb_spec (media_ready_ms c) 0) as [?|Hnz]; [unfold PROTOCOL_TERMINAL_RELEASE_GRACE_MS in *; lia|].
  split; [done|]. split; [done|]. exists (media_ready_ms c). split; [by apply Hready|lia].
Qed.

(** An exclusive DLNA lease with its resources in place, seen twice at its end. *)
Definition demo_claimed : ProtocolCoordinator :=
  let c := w_coord (quiet_run (take 5 race_schedule)).1 in
  { c with snapshot -> applied_resource_mode := PROTOCOL_RESOURCE_MODE_DLNA_EXCLUSIVE;
           snapshot -> services := mkPer PROTOCOL_SERVICE_RUNNING PROTOCOL_SERVICE_RUNNING
                                     PROTOCOL_SERVICE_STOPPED }.

Lemma playback_end_releases_only_after_grace_witness :
  let l := mkLease PLAYER_MEDIA_OWNER_DLNA 7 1 in
  let o := mkObservation false true 500 true in
  let c1 := (observe_playback_locked false true 500 demo_claimed).2 in
  l = l /\ true = true /\
  (false = true \/ (exists o', o' ∈ [o] /\ obs_active o' = true) \/
   (Forall (fun o => obs_active o = false) [o] /\ resource_ready c1 = true /\
    exists t, ended_since t [o] /\ t + PROTOCOL_TERMINAL_RELEASE_GRACE_MS <= 1500)).
Proof.
  intros l o c1.
  apply (playback_end_releases_only_after_grace l l demo_claimed c1
           (observe_playback_locked false true 1500 c1).2 [o] false true 1500).
  - split_and!; vm_compute; reflexivity.
  - apply (observed_call demo_claimed [] demo_claimed c1 false true 500).
    + constructor.
    + vm_compute. reflexivity.
  - vm_compute. reflexivity.
Defined.

(** C29: Waiting for a lease's resources always ends, within the timeout: run
    alone with any finite timeout and one round per millisecond, the wait
    returns at most [timeout_ms] after it began, and it returns true exactly
    when the lease is published with its exclusive resources in place and is
    still the one in force. *)
Theorem wait_resources_terminates (l : PlayerOwnershipLease) (timeout_ms : Z) (w : World)
    (fuel : nat)
    (Hreal : owned l = true) (Ht : 0 <= timeout_ms < UINT32_MAX) (Hn : is_u64 (w_now w))
    (Hfuel : timeout_ms < Z.of_nat fuel) :
  exists w', run (protocol_coordinator_media_wait_resources fuel (Some l) timeout_ms) w =
               Some (Some (wait_result l w), w') /\
    u64 (w_now w' - w_now w) <= timeout_ms.
Proof.
  unfold protocol_coordinator_media_wait_resources.
  unfold owned in Hreal. apply negb_true_iff in Hreal. rewrite Hreal.
  assert (H0 : u64 (w_now w - w_now w) = 0) by width_lia.
  destruct (proj1 (wp_run _ _ _) (wp_wait_loop fuel l timeout_ms (w_now w) w Ht Hn Hn
              ltac:(lia) ltac:(lia))) as (r & w' & Hrun & -> & _ & He).
  exists w'. split; [exact Hrun | done].
Qed.

Lemma wait_resources_terminates_witness :
  let w := (quiet_run (take 5 race_schedule)).1 in
  let l := mkLease PLAYER_MEDIA_OWNER_DLNA 7 1 in
  exists w', run (protocol_coordinator_media_wait_resources 4 (Some l) 3) w =
               Some (Some (wait_result l w), w') /\
    u64 (w_now w' - w_now w) <= 3.
Proof.
  intros w l. apply (wait_resources_terminates l 3 w 4).
  - reflexivity.
  - unfold UINT32_MAX. lia.
  - vm_compute. split; discriminate.
  - lia.
Defined.
