(* ===== verification/CoordStop.v ===== *)
(** * Stopping the coordinator

    What [protocol_coordinator_stop] does, run alone once every worker has
    finished: the callbacks it makes, in order, and the state it leaves. *)

From S2P Require Import Prelude Prog Ownership MediaSession CoordData Coordinator CoordConcurrent CoordMedia.

(** ** Specification *)

(** The services in the order they are stopped. *)
Definition stop_order : list ProtocolService :=
  [PROTOCOL_SERVICE_AIRPLAY; PROTOCOL_SERVICE_DLNA; PROTOCOL_SERVICE_IPTV].

Definition service_on (c : ProtocolCoordinator) (s : ProtocolService) : bool :=
  bool_decide (per_get (services (snapshot c)) s <> PROTOCOL_SERVICE_DISABLED).

(** Every enabled service is first asked to stop, ... *)
Definition request_stop_calls (c : ProtocolCoordinator) (s : ProtocolService)
    : list (Call * bool) :=
  if runtime_active c && service_on c s &&
     non_null (request_stop (per_get (op_services (operations c)) s))
  then [(CallRequestStop s, false)] else [].

(** ... then the started ones are stopped, ... *)
Definition stop_calls (c : ProtocolCoordinator) (s : ProtocolService) : list (Call * bool) :=
  if runtime_active c && per_get (stop_required c) s then [(CallStop s, false)] else [].

(** ... discovery is resumed, inside the ownership transition, ... *)
Definition discovery_calls (c : ProtocolCoordinator) : list (Call * bool) :=
  if discovery_suspended (snapshot c) && non_null (set_discovery_suspended (operations c))
  then [(CallSetDiscovery false, true)] else [].

(** ... and so is the background network. *)
Definition background_calls (c : ProtocolCoordinator) : list (Call * bool) :=
  if background_network_suspended c &&
     non_null (set_background_network_suspended (operations c))
  then [(CallSetBackground false, false)] else [].

Definition expected_stop_calls (c : ProtocolCoordinator) : list (Call * bool) :=
  flat_map (request_stop_calls c) stop_order ++ flat_map (stop_calls c) stop_order ++
  discovery_calls c ++ background_calls c.

(** The state a stopped coordinator is in. *)
Record stopped_world (w0 w : World) : Prop := {
  st_lifecycle : coord_lifecycle (w_coord w) = PROTOCOL_LIFECYCLE_STOPPED;
  st_state : state (snapshot (w_coord w)) = PROTOCOL_COORDINATOR_STOPPED;
  st_services s : per_get (services (snapshot (w_coord w))) s =
    if service_on (w_coord w0) s then PROTOCOL_SERVICE_STOPPED else PROTOCOL_SERVICE_DISABLED;
  st_session : media_session (snapshot (w_coord w)) = session_zero;
  st_active : active_media (snapshot (w_coord w)) = lease_zero;
  st_inactive : runtime_active (w_coord w) = false;
  st_required : stop_required (w_coord w) = per_all false;
  st_discovery : discovery_suspended (snapshot (w_coord w)) = false;
  st_background : background_network_suspended (w_coord w) = false;
  st_owner : g_current (w_own w) = lease_zero;
  st_transition : g_transition_held (w_own w) = false
}.

(** Every worker thread has run to its end. *)
Definition workers_finished (c : ProtocolCoordinator) : Prop :=
  (forall s, worker_thread_started (per_get (workers c) s) = true ->
     start_finished (per_get (workers c) s) = true) /\
  (resource_thread_started (resource_worker c) = true -> finished (resource_worker c) = true).

(** A service that must be stopped is enabled and has a stop function. *)
Definition stoppable (c : ProtocolCoordinator) : Prop :=
  forall s, per_get (stop_required c) s = true ->
    service_on c s = true /\ non_null (stop (per_get (op_services (operations c)) s)) = true.

(** ** Lemmas *)

Lemma coordinator_init_eq c : coordinator_init c = { c with mutex_ready := true }.
Proof. unfold coordinator_init, upd. destruct c as [[]]; reflexivity. Qed.

Lemma wp_locked_now {A} (f : Z -> ProtocolCoordinator -> A * ProtocolCoordinator)
    (Q : A -> World -> Prop) w :
  (forall w', w_own w' = w_own w -> w_calls w' = w_calls w ->
     w_coord w' = (f (w_now w) (coordinator_init (w_coord w))).2 ->
     Q (f (w_now w) (coordinator_init (w_coord w))).1 w') ->
  wp (locked f) Q w.
Proof. intros H. split; [done|]. by apply H. Qed.

Lemma wp_log_call {A} (c : Call) (p : prog World A) (Q : A -> World -> Prop) w :
  passive p ->
  (forall a w', w_own w' = w_own w -> w_coord w' = w_coord w ->
     w_calls w' = w_calls w ++ [(c, g_transition_held (w_own w))] -> Q a w') ->
  wp (log_call c ;; p) Q w.
Proof.
  intros Hp H. split; [done|]. eapply wp_mono; [apply Hp|]. cbn. intros a w' (Ho & Hc & Hl).
  by apply H.
Qed.

(** While stopping, what is left of the coordinator [c0] that began to stop. *)
Record stopping (c0 c : ProtocolCoordinator) : Prop := {
  sg_lifecycle : coord_lifecycle c = PROTOCOL_LIFECYCLE_STOPPING;
  sg_operations : operations c = operations c0;
  sg_active : runtime_active c = runtime_active c0;
  sg_required : stop_required c = stop_required c0;
  sg_discovery : discovery_suspended (snapshot c) = discovery_suspended (snapshot c0);
  sg_background : background_network_suspended c = background_network_suspended c0;
  sg_services s : service_on c s = service_on c0 s;
  sg_workers : workers_finished c
}.

Definition stopping_world (w0 : World) (calls : list (Call * bool)) (w : World) : Prop :=
  stopping (w_coord w0) (w_coord w) /\ g_transition_held (w_own w) = false /\
  w_calls w = w_calls w0 ++ calls.

Lemma stopping_init c0 c : stopping c0 c -> stopping c0 (coordinator_init c).
Proof. intros [? ? ? ? ? ? Hs Hw]. unfold coordinator_init. case_match; [by split|]. split; by rproj. Qed.

Lemma wp_stopping_locked {A} (f : Z -> ProtocolCoordinator -> A * ProtocolCoordinator) w0 calls w
    (Q : A -> World -> Prop) :
  stopping_world w0 calls w ->
  (forall now c w', stopping (w_coord w0) c -> g_transition_held (w_own w') = false ->
     w_calls w' = w_calls w0 ++ calls -> w_coord w' = (f now c).2 -> Q (f now c).1 w') ->
  wp (locked f) Q w.
Proof.
  intros (Hc & Ho & Hl) H. apply wp_locked_now. intros w' Ho' Hl' Hc'.
  apply H; [by apply stopping_init | by rewrite Ho' | by rewrite Hl' | done].
Qed.

Lemma wp_stopping_call {A} c (p : prog World A) w0 calls w :
  passive p -> stopping_world w0 calls w ->
  wp (log_call c ;; p) (fun _ => stopping_world w0 (calls ++ [(c, false)])) w.
Proof.
  intros Hp (Hc & Ho & Hl). apply wp_log_call; [done|]. intros a w' Ho' Hc' Hl'.
  split_and!; [by rewrite Hc' | by rewrite Ho' | by rewrite Hl', Hl, Ho, app_assoc].
Qed.

Lemma recompute_stopping c :
  coord_lifecycle c = PROTOCOL_LIFECYCLE_STOPPING ->
  coordinator_recompute_state c = { c with snapshot -> state := PROTOCOL_COORDINATOR_STOPPING }.
Proof. intros H. unfold coordinator_recompute_state. rewrite H. by repeat case_decide. Qed.

Lemma service_on_set c s st f g :
  st <> PROTOCOL_SERVICE_DISABLED -> service_on c s = true ->
  forall s', service_on { c with snapshot -> services ::= per_set s st;
                                 service_transition_ms ::= f; snapshot -> state ::= g } s' =
             service_on c s'.
Proof.
  intros Hst Hs s'. unfold service_on in *. rproj. apply bool_decide_eq_true in Hs.
  apply bool_decide_ext. by destruct s, s'; cbn.
Qed.

Lemma stopping_set_service c0 c s now :
  stopping c0 c -> service_on c0 s = true ->
  stopping c0 (set_service_state_locked s PROTOCOL_SERVICE_STOPPED now c).2.
Proof.
  intros [Hl Ho Ha Hr Hd Hb Hs Hw] Hon. unfold set_service_state_locked.
  case_decide; [by split|]. case_decide; [by split|]. cbn [snd].
  rewrite recompute_stopping by done. unfold coordinator_bump_revision.
  split; try (rproj; done). intros s'. rewrite <- Hs in Hon |- *.
  by apply (service_on_set c s PROTOCOL_SERVICE_STOPPED).
Qed.

(** One round of the loop of [finish_stop]. *)
Lemma stop_enabled_round now c x s :
  let c' := if decide (per_get (services (snapshot c)) x <> PROTOCOL_SERVICE_DISABLED) then
              { c with snapshot -> services ::= per_set x PROTOCOL_SERVICE_STOPPED;
                       service_transition_ms ::= per_set x now }
            else c in
  per_get (services (snapshot c')) s =
    (if decide (x = s)
     then if service_on c s then PROTOCOL_SERVICE_STOPPED else PROTOCOL_SERVICE_DISABLED
     else per_get (services (snapshot c)) s) /\
  service_on c' s = service_on c s.
Proof.
  cbv zeta. unfold service_on. case_decide as E.
  - rproj. destruct (decide (x = s)) as [<-|Hne].
    + rewrite (bool_decide_eq_true_2 (per_get (services (snapshot c)) x <> _)) by done.
      by destruct x.
    + by destruct x, s.
  - split; [|done]. case_decide as Es; [subst s|done].
    by rewrite bool_decide_eq_false_2 by (intros Hn; by apply Hn).
Qed.

Lemma stop_enabled_services_get now c s :
  per_get (services (snapshot (stop_enabled_services now c))) s =
  if service_on c s then PROTOCOL_SERVICE_STOPPED else PROTOCOL_SERVICE_DISABLED.
Proof.
  unfold stop_enabled_services.
  enough (Hg : forall l c,
    per_get (services (snapshot (foldl (fun c index =>
      if decide (per_get (services (snapshot c)) index <> PROTOCOL_SERVICE_DISABLED) then
        { c with snapshot -> services ::= per_set index PROTOCOL_SERVICE_STOPPED;
                 service_transition_ms ::= per_set index now }
      else c) c l))) s =
    if decide (s ∈ l)
    then if service_on c s then PROTOCOL_SERVICE_STOPPED else PROTOCOL_SERVICE_DISABLED
    else per_get (services (snapshot c)) s).
  { rewrite Hg, decide_True; [done|]. destruct s; set_solver. }
  clear c. intros l. induction l as [|x l IH]; intros c; [done|]. cbn [foldl]. rewrite IH. clear IH.
  destruct (stop_enabled_round now c x s) as [Hs Hon]. cbv zeta in Hs, Hon. rewrite Hs, Hon.
  destruct (decide (x = s)) as [->|Hne].
  - rewrite (decide_True (P := s ∈ s :: l)) by by left. by destruct (decide (s ∈ l)).
  - destruct (decide (s ∈ l)) as [Hi|Hi]; [by rewrite decide_True by (apply elem_of_cons; by right)|].
    rewrite decide_False; [done|]. by intros [?|?]%elem_of_cons.
Qed.

(** What the loop of [finish_stop] does not touch. *)
Lemma stop_enabled_keeps {T} (p : ProtocolCoordinator -> T) now c :
  (forall c x, p { c with snapshot -> services ::= per_set x PROTOCOL_SERVICE_STOPPED;
                          service_transition_ms ::= per_set x now } = p c) ->
  p (stop_enabled_services now c) = p c.
Proof.
  intros Hp. unfold stop_enabled_services. generalize all_services. intros l. revert c.
  induction l as [|x l IH]; intros c; [done|]. cbn [foldl]. rewrite IH. case_decide; [apply Hp | done].
Qed.

Section stop.
Context `{!Callbacks} `{!CallbacksPassive}.

Lemma wp_join_service w0 calls w s :
  stopping_world w0 calls w ->
  wp (coordinator_join_service_worker s) (fun _ => stopping_world w0 calls) w.
Proof.
  intros Hw. apply wp_bind. eapply wp_stopping_locked; [done|]. cbn.
  intros _ c w1 Hc Ho Hl Hc1. assert (Hw1 : stopping_world w0 calls w1) by (by split_and!; [rewrite Hc1| |]).
  case_match eqn:Ht; [done|]. apply negb_false_iff in Ht.
  destruct Hc as [? ? ? ? ? ? Hs [Hfin Hres]].
  split; [rewrite Hc1; by apply Hfin|]. cbn [id]. eapply wp_stopping_locked; [done|]. cbn.
  intros _ c2 w2 Hc2 Ho2 Hl2 Hw2. split_and!; [rewrite Hw2 | done | done].
  destruct Hc2 as [? ? ? ? ? ? Hs2 [Hfin2 Hres2]]. split; try (rproj; done).
  split; [|by rproj]. rproj. intros s'. specialize (Hfin2 s').
  by destruct s, s'; cbn in *.
Qed.

Lemma wp_join_resource w0 calls w :
  stopping_world w0 calls w ->
  wp coordinator_join_resource_worker (fun _ => stopping_world w0 calls) w.
Proof.
  intros Hw. apply wp_bind. eapply wp_stopping_locked; [done|]. cbn.
  intros _ c w1 Hc Ho Hl Hc1. assert (Hw1 : stopping_world w0 calls w1) by (by split_and!; [rewrite Hc1| |]).
  case_match eqn:Ht; [done|]. apply negb_false_iff in Ht.
  destruct Hc as [? ? ? ? ? ? Hs [Hfin Hres]].
  split; [rewrite Hc1; by apply Hres|]. cbn [id]. eapply wp_stopping_locked; [done|]. cbn.
  intros _ c2 w2 Hc2 Ho2 Hl2 Hw2. split_and!; [rewrite Hw2 | done | done].
  destruct Hc2 as [? ? ? ? ? ? Hs2 [Hfin2 Hres2]]. split; try (rproj; done).
Qed.

Lemma wp_request_stops (request : ProtocolService -> bool) w0 w :
  (forall s, request s = runtime_active (w_coord w0) && service_on (w_coord w0) s &&
     non_null (request_stop (per_get (op_services (operations (w_coord w0))) s))) ->
  stopping_world w0 [] w ->
  wp (for_each (rev all_services) (fun index =>
        if request index
        then call_request_stop index
               (request_stop (per_get (op_services (operations (w_coord w0))) index))
               (context (operations (w_coord w0)))
        else mret tt))
    (fun _ => stopping_world w0 (flat_map (request_stop_calls (w_coord w0)) stop_order)) w.
Proof.
  intros Hreq Hw. apply (wp_for_each _ _
    (fun l => stopping_world w0 (flat_map (request_stop_calls (w_coord w0)) l))); [|done].
  intros done s w' _ Hw'. rewrite flat_map_app. cbn [flat_map]. rewrite app_nil_r.
  unfold request_stop_calls at 2. rewrite Hreq. case_match eqn:E; [|cbn; by rewrite app_nil_r].
  bool_cases. unfold call_request_stop.
  destruct (request_stop _); [|done]. by apply wp_stopping_call; [apply passive_request_stop|].
Qed.

Lemma wp_stops w0 calls w :
  stoppable (w_coord w0) -> stopping_world w0 calls w ->
  wp (for_each (rev all_services) (fun index =>
        if negb (runtime_active (w_coord w0)) || negb (per_get (stop_required (w_coord w0)) index)
        then mret tt
        else
          call_stop index (stop (per_get (op_services (operations (w_coord w0))) index))
            (context (operations (w_coord w0))) ;;
          set_service_state index PROTOCOL_SERVICE_STOPPED))
    (fun _ => stopping_world w0 (calls ++ flat_map (stop_calls (w_coord w0)) stop_order)) w.
Proof.
  intros Hst Hw. apply (wp_for_each _ _
    (fun l => stopping_world w0 (calls ++ flat_map (stop_calls (w_coord w0)) l)));
    [|by rewrite app_nil_r].
  intros done s w' _ Hw'. rewrite flat_map_app. cbn [flat_map]. rewrite app_nil_r.
  unfold stop_calls at 2. destruct (runtime_active (w_coord w0)); cbn [negb orb andb];
    [|cbn; by rewrite app_nil_r].
  destruct (per_get (stop_required (w_coord w0)) s) eqn:Er; cbn [negb];
    [|cbn; by rewrite app_nil_r].
  destruct (Hst s Er) as [Hon Hp]. unfold call_stop. destruct (stop _); [|done].
  apply wp_bind. eapply wp_mono; [by apply wp_stopping_call; [apply passive_stop|]|].
  cbn beta. rewrite <- app_assoc. intros _ w1 Hw1. apply wp_bind.
  eapply wp_stopping_locked; [done|]. intros now c w2 Hc Ho Hl Hc2.
  split_and!; [|done|done]. rewrite Hc2. by apply stopping_set_service.
Qed.

Lemma clear_media_keeps c :
  services (snapshot (clear_media c)) = services (snapshot c) /\
  media_session (snapshot (clear_media c)) = session_zero /\
  active_media (snapshot (clear_media c)) = lease_zero /\
  operations (clear_media c) = operations c /\
  background_network_suspended (clear_media c) = background_network_suspended c /\
  discovery_suspended (snapshot (clear_media c)) = discovery_suspended (snapshot c).
Proof. unfold clear_media. cbv zeta. rproj. by split_and!. Qed.

Lemma recompute_stopped c :
  coord_lifecycle c = PROTOCOL_LIFECYCLE_STOPPED ->
  coordinator_recompute_state c = { c with snapshot -> state := PROTOCOL_COORDINATOR_STOPPED }.
Proof. intros H1. unfold coordinator_recompute_state. by rewrite decide_True. Qed.

(** The coordinator inside [finish_stop], once discovery was resumed. *)
Definition resumed (c0 c : ProtocolCoordinator) : Prop :=
  coord_lifecycle c = PROTOCOL_LIFECYCLE_STOPPING /\ operations c = operations c0 /\
  discovery_suspended (snapshot c) = false /\
  background_network_suspended c = background_network_suspended c0 /\
  (forall s, service_on c s = service_on c0 s).

Lemma resumed_init c0 c : resumed c0 c -> resumed c0 (coordinator_init c).
Proof.
  intros (? & ? & ? & ? & Hs). unfold coordinator_init. case_match; [by split_and!|].
  unfold resumed. by split_and!.
Qed.

Lemma discovery_resumed c0 c r :
  stopping c0 c -> discovery_locked false false PROTOCOL_DISCOVERY_SUSPEND_NONE c = r ->
  resumed c0 r.2 /\
  r.1 = if discovery_suspended (snapshot c0)
        then Some (set_discovery_suspended (operations c0), context (operations c0), false) else None.
Proof.
  intros [Hl Ho Ha Hr Hd Hb Hs Hw] <-. unfold discovery_locked. cbn [andb].
  rewrite Hd, Ho. destruct (discovery_suspended (snapshot c0)) eqn:E; cbn [Bool.eqb negb fst snd].
  - split; [|done]. unfold resumed, coordinator_bump_revision, service_on in *. rproj. by split_and!.
  - split; [|done]. by split_and!.
Qed.

Lemma finish_stop_stopped now c0 c :
  resumed c0 c ->
  let c' := finish_stop_locked now c in
  coord_lifecycle c' = PROTOCOL_LIFECYCLE_STOPPED /\
  state (snapshot c') = PROTOCOL_COORDINATOR_STOPPED /\
  (forall s, per_get (services (snapshot c')) s =
     if service_on c0 s then PROTOCOL_SERVICE_STOPPED else PROTOCOL_SERVICE_DISABLED) /\
  media_session (snapshot c') = session_zero /\ active_media (snapshot c') = lease_zero /\
  discovery_suspended (snapshot c') = false /\
  operations c' = operations c0 /\
  background_network_suspended c' = background_network_suspended c0.
Proof.
  intros (Hl & Ho & Hd & Hb & Hs). unfold finish_stop_locked. cbv zeta.
  pose proof (stop_enabled_services_get now c) as Hsv.
  pose proof (stop_enabled_keeps operations now c (fun _ _ => eq_refl)) as Ho1.
  pose proof (stop_enabled_keeps background_network_suspended now c (fun _ _ => eq_refl)) as Hb1.
  pose proof (stop_enabled_keeps (fun c => discovery_suspended (snapshot c)) now c
                (fun _ _ => eq_refl)) as Hd1.
  revert Hsv Ho1 Hb1 Hd1. generalize (stop_enabled_services now c). intros c1 Hsv Ho1 Hb1 Hd1.
  cbn beta in Hd1. destruct (clear_media_keeps c1) as (Hs2 & Hm2 & Ha2 & Ho2 & Hb2 & Hd2).
  revert Hs2 Hm2 Ha2 Ho2 Hb2 Hd2. generalize (clear_media c1). intros c2 Hs2 Hm2 Ha2 Ho2 Hb2 Hd2.
  rewrite recompute_stopped by done. unfold coordinator_bump_revision. rproj.
  rewrite Hs2, Hm2, Ha2, Ho2, Hb2, Hd2.
  split_and!; try (done || congruence). intros s. by rewrite Hsv, Hs.
Qed.

Lemma wp_begin (Q : unit -> World -> Prop) w :
  g_transition_held (w_own w) = false ->
  (forall w', w_coord w' = w_coord w -> w_calls w' = w_calls w ->
     g_transition_held (w_own w') = true -> Q tt w') ->
  wp player_ownership_transition_begin Q w.
Proof. intros Hh HQ. split; [cbn; by rewrite Hh|]. by apply HQ. Qed.

Lemma wp_reset (Q : unit -> World -> Prop) w :
  (forall w', w_coord w' = w_coord w -> w_calls w' = w_calls w ->
     g_current (w_own w') = lease_zero ->
     g_transition_held (w_own w') = g_transition_held (w_own w) -> Q tt w') ->
  wp player_ownership_reset Q w.
Proof.
  intros HQ. split; [done|]. apply HQ; [done | done | done |].
  cbn. unfold reset_locked, next_generation, ownership_init. rsimpl. by case_match.
Qed.

Lemma wp_finish_stop w0 calls w :
  stopping_world w0 calls w ->
  wp protocol_coordinator_finish_stop (fun _ w' =>
    w_calls w' = w_calls w0 ++ calls ++ discovery_calls (w_coord w0) /\
    g_current (w_own w') = lease_zero /\ g_transition_held (w_own w') = false /\
    exists now c, resumed (w_coord w0) c /\ w_coord w' = finish_stop_locked now c) w.
Proof.
  intros (Hc & Hh & Hl). unfold protocol_coordinator_finish_stop.
  apply wp_bind, wp_begin; [done|]. intros wa Hca Hla Hha.
  apply wp_bind, wp_reset. intros w1 Hc1 Hl1 Hg1 Hh1.
  rewrite Hca in Hc1. rewrite Hla in Hl1. rewrite Hha in Hh1.
  apply wp_bind, wp_bind. apply wp_locked_now. intros w2 Ho2 Hl2 Hc2.
  rewrite Hc1 in Hc2 |- *. apply stopping_init in Hc.
  destruct (discovery_resumed _ _ _ Hc eq_refl) as [Hres Hreq]. rewrite Hreq. rewrite <- Hc2 in Hres.
  eapply (wp_mono _ (fun _ w3 => w_calls w3 = w_calls w0 ++ calls ++ discovery_calls (w_coord w0) /\
    w_own w3 = w_own w1 /\ w_coord w3 = w_coord w2)).
  { unfold discovery_calls. destruct (discovery_suspended (snapshot (w_coord w0))); cbn [andb].
    - destruct (set_discovery_suspended (operations (w_coord w0))); cbn [non_null].
      + apply wp_log_call; [apply passive_set_discovery|]. intros _ w3 Ho3 Hc3 Hl3.
        rewrite Hl3, Hl2, Hl1, Hl, Ho3, Ho2, Hh1, Hc3. by rewrite <- app_assoc.
      + cbn. by rewrite app_nil_r, Hl2, Hl1, Hl.
    - cbn. by rewrite app_nil_r, Hl2, Hl1, Hl. }
  cbn beta. intros _ w3 (Hl3 & Ho3 & Hc3). apply wp_bind. apply wp_locked_now.
  intros w4 Ho4 Hl4 Hc4. split; [done|]. cbn [wp].
  unfold upd. cbn. rewrite Ho4, Ho3, Hl4, Hl3. split_and!; [done.. |].
  eexists _, _. split; [|exact Hc4]. rewrite Hc3. by apply resumed_init.
Qed.

Lemma wp_resume_background c0 w calls :
  operations (w_coord w) = operations c0 ->
  background_network_suspended (w_coord w) = background_network_suspended c0 ->
  g_transition_held (w_own w) = false -> w_calls w = calls ->
  wp (coordinator_set_background_network_suspended false) (fun _ w' =>
    w_calls w' = calls ++ background_calls c0 /\ w_own w' = w_own w /\
    w_coord w' = { w_coord w with mutex_ready := true; background_network_suspended := false }) w.
Proof.
  intros Ho Hb Hh Hl. apply wp_bind. apply wp_locked_now. intros w1 Ho1 Hl1 Hc1.
  unfold set_background_locked in *. unfold background_calls.
  rewrite coordinator_init_eq in Hc1 |- *. revert Hc1. rproj. rewrite Ho, Hb.
  destruct (background_network_suspended c0) eqn:E; cbn [Bool.eqb negb fst snd andb]; intros Hc1.
  - destruct (set_background_network_suspended (operations c0)); cbn [non_null orb].
    + apply wp_log_call; [apply passive_set_background|]. intros _ w2 Ho2 Hc2 Hl2.
      rewrite Hl2, Hl1, Hl, Ho2, Ho1, Hh, Hc2, Hc1. done.
    + cbn. rewrite app_nil_r, Hl1, Ho1, Hc1. done.
  - cbn. rewrite app_nil_r, Hl1, Ho1, Hc1. split_and!; [done..|].
    unfold upd. destruct (w_coord w). cbn in Hb. by subst.
Qed.

Lemma wp_begin_stop w :
  workers_finished (w_coord w) -> g_transition_held (w_own w) = false ->
  lifecycle_accepts (coord_lifecycle (w_coord w)) = true ->
  wp protocol_coordinator_begin_stop (fun b w' => b = true /\ stopping_world w [] w') w.
Proof.
  intros Hw Hh Ha. apply wp_locked_now.
  rewrite coordinator_init_eq. rproj. intros w' Ho Hl Hc.
  assert (Hn : coord_lifecycle (w_coord w) <> PROTOCOL_LIFECYCLE_STOPPED /\
               coord_lifecycle (w_coord w) <> PROTOCOL_LIFECYCLE_STOPPING).
  { by destruct (coord_lifecycle (w_coord w)). }
  destruct Hn as [Hn1 Hn2]. revert Hc. rewrite !bool_decide_eq_false_2 by done. cbn [orb fst snd].
  intros Hc. split; [done|]. split_and!; [|by rewrite Ho | by rewrite app_nil_r, Hl].
  rewrite Hc. rewrite recompute_stopping by done. unfold coordinator_bump_revision.
  split; try (rproj; done).
Qed.

Lemma wp_stop w :
  workers_finished (w_coord w) -> stoppable (w_coord w) ->
  g_transition_held (w_own w) = false ->
  lifecycle_accepts (coord_lifecycle (w_coord w)) = true ->
  wp protocol_coordinator_stop (fun _ w' =>
    stopped_world w w' /\ w_calls w' = w_calls w ++ expected_stop_calls (w_coord w)) w.
Proof.
  intros Hwf Hst Hh Ha. unfold protocol_coordinator_stop. apply wp_bind.
  eapply wp_mono; [by apply wp_begin_stop|]. cbn beta. intros ? w1 [-> Hw1]. cbn [negb].
  apply wp_bind. eapply wp_stopping_locked; [done|]. cbn beta zeta match. intros _ c2 w2 Hc2 Hh2 Hl2 Hcc2.
  assert (Hw2 : stopping_world w [] w2) by (by split_and!; [rewrite Hcc2| |]).
  destruct Hc2 as [_ Hops Hact _ _ _ Hon _]. cbn [fst snd]. rewrite Hops, Hact.
  apply wp_bind. eapply wp_mono.
  { apply (wp_request_stops (fun s => runtime_active (w_coord w) && service_on c2 s &&
      non_null (request_stop (per_get (op_services (operations (w_coord w))) s)))); [|done].
    intros s. by rewrite Hon. }
  cbn beta. intros _ w3 Hw3. apply wp_bind. eapply wp_mono; [by apply wp_join_resource|].
  cbn beta. intros _ w4 Hw4. apply wp_bind. eapply wp_mono.
  { apply (wp_for_each _ _ (fun _ => stopping_world w
      (flat_map (request_stop_calls (w_coord w)) stop_order))); [|exact Hw4].
    intros done s w' _ Hw'. by apply wp_join_service. }
  cbn beta. intros _ w5 Hw5. apply wp_bind. eapply wp_stopping_locked; [done|].
  cbn beta zeta match. intros _ c6 w6 Hc6 Hh6 Hl6 Hcc6.
  assert (Hw6 : stopping_world w (flat_map (request_stop_calls (w_coord w)) stop_order) w6)
    by (by split_and!; [rewrite Hcc6| |]).
  destruct Hc6 as [_ Hops6 Hact6 Hreq6 _ _ _ _]. cbn [fst snd]. rewrite Hops6, Hact6, Hreq6.
  apply wp_bind. eapply wp_mono; [by apply wp_stops|]. cbn beta. intros _ w7 Hw7.
  apply wp_bind. eapply wp_mono; [by eapply wp_finish_stop|]. cbn beta.
  intros _ w8 (Hl8 & Hg8 & Hh8 & now & c8 & Hres & Hc8).
  destruct (finish_stop_stopped now (w_coord w) c8 Hres) as (F1 & F2 & F3 & F4 & F5 & F6 & F7 & F8).
  rewrite <- Hc8 in F1, F2, F3, F4, F5, F6, F7, F8.
  apply wp_bind. eapply wp_mono; [by eapply (wp_resume_background (w_coord w))|].
  cbn beta. intros _ w9 (Hl9 & Ho9 & Hc9). apply wp_locked_now. intros w10 Ho10 Hl10 Hc10.
  rewrite coordinator_init_eq, Hc9 in Hc10. cbn [snd] in Hc10. clear Hc8 Hc9. split.
  - unfold stop_cleanup_locked in Hc10.
    split; rewrite ?Hc10, ?Ho10, ?Ho9; rproj; try done.
  - rewrite Hl10, Hl9, ?Hl8. unfold expected_stop_calls. by rewrite !app_assoc.
Qed.
End stop.

#[local] Existing Instances quiet_callbacks quiet_callbacks_passive.

(** ** Properties *)

(** C5: Stopping a started coordinator always returns (once its workers have
    finished, with callbacks that return): it asks every enabled service to
    stop, last service first, then stops exactly the services that were
    started, in the same order, then resumes discovery and the background
    network if they were suspended, and makes no other call; it leaves the
    coordinator STOPPED with every enabled service STOPPED, the media session
    and the player's ownership cleared, and no transition open. *)
Theorem stop_is_complete_and_ordered `{!Callbacks} `{!CallbacksPassive} (w : World)
    (Hworkers : workers_finished (w_coord w)) (Hstop : stoppable (w_coord w))
    (Hfree : g_transition_held (w_own w) = false)
    (Hstarted : lifecycle_accepts (coord_lifecycle (w_coord w)) = true) :
  exists w', run protocol_coordinator_stop w = Some (tt, w') /\
    stopped_world w w' /\ w_calls w' = w_calls w ++ expected_stop_calls (w_coord w).
Proof.
  destruct (proj1 (wp_run _ _ _) (wp_stop w Hworkers Hstop Hfree Hstarted)) as ([] & w' & Hr & H').
  by exists w'.
Qed.

(** The example coordinator with a DLNA lease in force. *)
Lemma stop_is_complete_and_ordered_witness :
  let w := (quiet_run (take 5 race_schedule)).1 in
  exists w', run protocol_coordinator_stop w = Some (tt, w') /\
    stopped_world w w' /\
    w_calls w' = w_calls w ++
      [(CallRequestStop PROTOCOL_SERVICE_AIRPLAY, false);
       (CallRequestStop PROTOCOL_SERVICE_DLNA, false);
       (CallRequestStop PROTOCOL_SERVICE_IPTV, false);
       (CallStop PROTOCOL_SERVICE_AIRPLAY, false); (CallStop PROTOCOL_SERVICE_DLNA, false);
       (CallStop PROTOCOL_SERVICE_IPTV, false); (CallSetDiscovery false, true)].
Proof.
  intros w. apply (stop_is_complete_and_ordered w).
  - split; [intros []; vm_compute; reflexivity | vm_compute; discriminate].
  - intros []; vm_compute; intros _; split; reflexivity.
  - vm_compute. reflexivity.
  - vm_compute. reflexivity.
Defined.
