(* ===== verification/CoordResources.v ===== *)
(** * The exclusive resource worker

    What [coordinator_resource_worker_run] does, run alone with callbacks that
    succeed: which services it stops and starts, in which order, and the
    resource mode it reaches. *)

From S2P Require Import Prelude Prog Ownership MediaSession CoordData Coordinator CoordConcurrent CoordMedia CoordStop.

(** ** Specification *)

Definition required (c : ProtocolCoordinator) (s : ProtocolService) : bool :=
  coordinator_resource_service_required (target (resource_worker c)) s (configured_enabled c).

Definition service_state (c : ProtocolCoordinator) (s : ProtocolService) : ProtocolServiceState :=
  per_get (services (snapshot c)) s.

(** A service that is up in some form but not required by the target. *)
Definition needs_stop (c : ProtocolCoordinator) (s : ProtocolService) : bool :=
  negb (bool_decide (service_state c s = PROTOCOL_SERVICE_DISABLED) ||
        bool_decide (service_state c s = PROTOCOL_SERVICE_STOPPED) || required c s).

(** A required service that does not run yet. *)
Definition needs_start (c : ProtocolCoordinator) (s : ProtocolService) : bool :=
  required c s && negb (bool_decide (service_state c s = PROTOCOL_SERVICE_RUNNING)).

Definition stop_service_calls (c : ProtocolCoordinator) (h : bool) (s : ProtocolService)
    : list (Call * bool) :=
  (if non_null (request_stop (per_get (op_services (operations c)) s))
   then [(CallRequestStop s, h)] else []) ++
  (if per_get (stop_required c) s then [(CallStop s, h)] else []).

Definition stop_phase_calls (c : ProtocolCoordinator) (h : bool) (s : ProtocolService)
    : list (Call * bool) :=
  if needs_stop c s then stop_service_calls c h s else [].

(** A service left over from a failed start is cleaned up before it is started. *)
Definition start_phase_calls (c : ProtocolCoordinator) (h : bool) (s : ProtocolService)
    : list (Call * bool) :=
  if needs_start c s
  then (if per_get (stop_required c) s then stop_service_calls c h s else []) ++
       [(CallStart s, h)]
  else [].

(** The background network is suspended for an exclusive target. *)
Definition background_suspend_calls (c : ProtocolCoordinator) (h : bool) : list (Call * bool) :=
  if non_null (set_background_network_suspended (operations c))
  then [(CallSetBackground true, h)] else [].

(** The services of the target are all that is left. *)
Record resources_applied (c0 c : ProtocolCoordinator) : Prop := {
  ra_applied : applied_resource_mode (snapshot c) = target (resource_worker c0);
  ra_desired : desired_resource_mode (snapshot c) = target (resource_worker c0);
  ra_match : coordinator_resource_services_match_locked (target (resource_worker c0)) c = true;
  ra_idle : resource_transition_active (snapshot c) = false;
  ra_ok : resource_transition_failed (snapshot c) = false;
  ra_result : result (resource_worker c) = true;
  ra_finished : finished (resource_worker c) = true
}.

(** The worker was launched for the mode that is still desired. *)
Record transition_ready (c : ProtocolCoordinator) : Prop := {
  tr_active : runtime_active c = true;
  tr_lifecycle : lifecycle_accepts (coord_lifecycle c) = true;
  tr_target : desired_resource_mode (snapshot c) = target (resource_worker c);
  tr_enabled s : per_get (configured_enabled c) s = false <->
                 service_state c s = PROTOCOL_SERVICE_DISABLED;
  tr_start s : per_get (configured_enabled c) s = true ->
               non_null (start (per_get (op_services (operations c)) s)) = true;
  tr_stop s : per_get (stop_required c) s = true ->
              non_null (stop (per_get (op_services (operations c)) s)) = true
}.

(** A callback that succeeds and leaves the coordinator alone. *)
Definition succeeds (p : prog World bool) : Prop :=
  forall w, wp p (fun b w' => b = true /\ w_own w' = w_own w /\ w_coord w' = w_coord w /\
                     w_calls w' = w_calls w) w.

Class CallbacksSucceed `{!Callbacks} : Prop := {
  succeed_start f ctx : succeeds (cb_start f ctx);
  succeed_background f ctx b : succeeds (cb_set_background_network_suspended f ctx b)
}.

(** ** The world during a transition *)

Definition fn_set {T} (s : ProtocolService) (v : T) (f : ProtocolService -> T)
    : ProtocolService -> T := fun s' => if decide (s' = s) then v else f s'.

(** What the transition started from and does not change. *)
Record rframe (c0 c : ProtocolCoordinator) : Prop := {
  rf_active : runtime_active c = true;
  rf_lifecycle : lifecycle_accepts (coord_lifecycle c) = true;
  rf_desired : desired_resource_mode (snapshot c) = target (resource_worker c0);
  rf_operations : operations c = operations c0;
  rf_enabled : configured_enabled c = configured_enabled c0
}.

(** Services in the states [sv], [stop_required] as [rq], the calls so far. *)
Definition rworld (c0 : ProtocolCoordinator) (h : bool)
    (sv : ProtocolService -> ProtocolServiceState) (rq : ProtocolService -> bool)
    (calls : list (Call * bool)) (w : World) : Prop :=
  rframe c0 (w_coord w) /\ (forall s, service_state (w_coord w) s = sv s) /\
  (forall s, per_get (stop_required (w_coord w)) s = rq s) /\
  w_calls w = calls /\ g_transition_held (w_own w) = h.

(** ** Lemmas *)

Lemma per_get_set {T} (s s' : ProtocolService) (v : T) (a : PerService T) :
  per_get (per_set s v a) s' = if decide (s' = s) then v else per_get a s'.
Proof. by destruct s, s'. Qed.

Lemma set_service_state_lifecycle s st now c :
  lifecycle_accepts (coord_lifecycle c) = true ->
  let c' := (set_service_state_locked s st now c).2 in
  (forall s', service_state c' s' = if decide (s' = s) then st else service_state c s') /\
  lifecycle_accepts (coord_lifecycle c') = true /\
  stop_required c' = stop_required c /\ runtime_active c' = runtime_active c /\
  desired_resource_mode (snapshot c') = desired_resource_mode (snapshot c) /\
  operations c' = operations c /\ configured_enabled c' = configured_enabled c /\
  resource_worker c' = resource_worker c.
Proof.
  intros Hl. cbv zeta. unfold set_service_state_locked.
  rewrite decide_False by (by destruct (coord_lifecycle c)). case_decide as E; cbn [snd].
  { split_and!; try done. intros s'. case_decide; [by subst | done]. }
  set (c1 := { c with snapshot -> services ::= per_set s st; service_transition_ms ::= per_set s now }).
  assert (H1 : lifecycle_accepts (coord_lifecycle (coordinator_recompute_state c1)) = true).
  { pose proof (f_equal mode_accepts (recompute_mode c1)) as Hm. cbn in Hm. by rewrite Hm. }
  destruct (recompute_snapshot c1) as [st' Hs].
  assert (H2 : let c2 := coordinator_recompute_state c1 in
    stop_required c2 = stop_required c1 /\ runtime_active c2 = runtime_active c1 /\
    operations c2 = operations c1 /\ configured_enabled c2 = configured_enabled c1 /\
    resource_worker c2 = resource_worker c1).
  { cbv zeta. unfold coordinator_recompute_state. by repeat case_match. }
  cbv zeta in H2. destruct H2 as (H3 & H4 & H5 & H6 & H7). unfold coordinator_bump_revision, service_state.
  rproj. rewrite Hs, H3, H4, H5, H6, H7. unfold c1. rproj. split_and!; try done.
  intros s'. apply per_get_set.
Qed.

Lemma rframe_init c0 c : rframe c0 c -> rframe c0 (coordinator_init c).
Proof. rewrite coordinator_init_eq. intros []. by split. Qed.

Section worker.
Context `{!Callbacks} `{!CallbacksPassive} `{!CallbacksSucceed}.
Context (c0 : ProtocolCoordinator) (h : bool).
Implicit Types (sv : ProtocolService -> ProtocolServiceState) (rq : ProtocolService -> bool).

Lemma rworld_ext sv sv' rq rq' calls calls' w :
  rworld c0 h sv rq calls w -> (forall s, sv s = sv' s) -> (forall s, rq s = rq' s) ->
  calls = calls' -> rworld c0 h sv' rq' calls' w.
Proof.
  intros (Hf & Hs & Hr & Hc & Hh) E1 E2 <-. split_and!; try done; intros s; by rewrite <- ?E1, <- ?E2.
Qed.

Lemma wp_rworld_locked {A} (f : Z -> ProtocolCoordinator -> A * ProtocolCoordinator)
    (Q : A -> World -> Prop) sv rq calls w :
  rworld c0 h sv rq calls w ->
  (forall now c, rframe c0 c -> (forall s, service_state c s = sv s) ->
     (forall s, per_get (stop_required c) s = rq s) ->
     forall w', w_calls w' = calls -> g_transition_held (w_own w') = h ->
       w_coord w' = (f now c).2 -> Q (f now c).1 w') ->
  wp (locked f) Q w.
Proof.
  intros (Hf & Hs & Hr & Hc & Hh) HQ. apply wp_locked_now. intros w' Ho Hl Hc'.
  rewrite coordinator_init_eq in Hc' |- *.
  apply HQ; [rewrite <- coordinator_init_eq; by apply rframe_init | done | done | congruence.. ].
Qed.

Lemma wp_rworld_read {A} (f : ProtocolCoordinator -> A) (Q : A -> World -> Prop) sv rq calls w :
  rworld c0 h sv rq calls w ->
  (forall c w', rframe c0 c -> (forall s, service_state c s = sv s) ->
     (forall s, per_get (stop_required c) s = rq s) ->
     rworld c0 h sv rq calls w' -> Q (f c) w') ->
  wp (lock_read f) Q w.
Proof.
  intros Hw HQ. eapply wp_rworld_locked; [done|]. intros _ c Hf Hs Hr w' Hl Hh Hc.
  apply HQ; [done..|]. cbn in Hc. by rewrite <- Hc in Hf, Hs, Hr.
Qed.

Lemma wp_rworld_call {A} c (p : prog World A) sv rq calls w :
  passive p -> rworld c0 h sv rq calls w ->
  wp (log_call c ;; p) (fun _ => rworld c0 h sv rq (calls ++ [(c, h)])) w.
Proof.
  intros Hp (Hf & Hs & Hr & Hc & Hh). apply wp_log_call; [done|]. intros a w' Ho Hc' Hl.
  unfold rworld. rewrite Hc', Ho, Hl, Hc, Hh. by split_and!.
Qed.

Lemma wp_rworld_call_true c p sv rq calls w :
  succeeds p -> rworld c0 h sv rq calls w ->
  wp (log_call c ;; p) (fun b w' => b = true /\ rworld c0 h sv rq (calls ++ [(c, h)]) w') w.
Proof.
  intros Hp (Hf & Hs & Hr & Hc & Hh). split; [done|]. eapply wp_mono; [apply Hp|]. cbn.
  intros b w' (-> & Ho & Hc' & Hl). split; [done|].
  unfold rworld. rewrite Hc', Ho, Hl. rsimpl. rewrite Hc, Hh. by split_and!.
Qed.

Lemma wp_rworld_set_state s st sv rq calls w :
  rworld c0 h sv rq calls w ->
  wp (set_service_state s st) (fun _ => rworld c0 h (fn_set s st sv) rq calls) w.
Proof.
  intros Hw. apply wp_bind. eapply wp_rworld_locked; [done|].
  intros now c [Ha Hl Hd Ho He] Hs Hr w' Hc Hh Hw'.
  change (rworld c0 h (fn_set s st sv) rq calls w').
  destruct (set_service_state_lifecycle s st now c Hl) as (G1 & G2 & G3 & G4 & G5 & G6 & G7 & G8).
  unfold rworld. rewrite Hw'. split_and!; try done.
  - split; congruence.
  - intros s'. rewrite G1. unfold fn_set. by rewrite Hs.
  - intros s'. by rewrite G3.
Qed.

Lemma wp_rworld_set_required s b sv rq calls w :
  rworld c0 h sv rq calls w ->
  wp (coordinator_set_stop_required s b) (fun _ => rworld c0 h sv (fn_set s b rq) calls) w.
Proof.
  intros Hw. eapply wp_rworld_locked; [done|]. cbn [fst snd].
  intros now c [Ha Hl Hd Ho He] Hs Hr w' Hc Hh Hw'. unfold rworld. rewrite Hw'.
  split_and!; try done. intros s'. rproj. rewrite per_get_set. unfold fn_set. by rewrite Hr.
Qed.

Lemma wp_rworld_clear_airplay sv rq calls w :
  rworld c0 h sv rq calls w ->
  wp coordinator_clear_airplay_runtime_status (fun _ => rworld c0 h sv rq calls) w.
Proof.
  intros Hw. eapply wp_rworld_locked; [done|]. cbn [fst snd].
  intros now c [Ha Hl Hd Ho He] Hs Hr w' Hc Hh Hw'. unfold rworld. rewrite Hw'.
  unfold coordinator_bump_revision. case_match; by split_and!.
Qed.

Lemma wp_rworld_start_call s b sv rq calls w :
  rworld c0 h sv rq calls w ->
  wp (coordinator_set_resource_start_call s b) (fun _ => rworld c0 h sv rq calls) w.
Proof.
  intros Hw. eapply wp_rworld_locked; [done|]. cbn [fst snd].
  intros now c [Ha Hl Hd Ho He] Hs Hr w' Hc Hh Hw'. unfold rworld. rewrite Hw'.
  by split_and!.
Qed.

Lemma wp_continues sv rq calls w :
  rworld c0 h sv rq calls w ->
  wp (resource_transition_continues (target (resource_worker c0)))
    (fun b w' => b = true /\ rworld c0 h sv rq calls w') w.
Proof.
  intros Hw. apply wp_bind. eapply wp_rworld_read; [done|]. cbn beta.
  intros c w1 [Ha Hl Hd Ho He] _ _ Hw1.
  assert (E : runtime_active c && bool_decide (coord_lifecycle c <> PROTOCOL_LIFECYCLE_STOPPING) &&
    bool_decide (coord_lifecycle c <> PROTOCOL_LIFECYCLE_STOPPED) = true).
  { rewrite Ha. by destruct (coord_lifecycle c). }
  rewrite E. cbn [negb]. eapply wp_rworld_read; [done|]. cbn beta.
  intros c2 w2 [] _ _ Hw2. split; [by apply bool_decide_eq_true | done].
Qed.

Lemma wp_rworld_state s sv rq calls w :
  rworld c0 h sv rq calls w ->
  wp (coordinator_service_state s) (fun st w' => st = sv s /\ rworld c0 h sv rq calls w') w.
Proof. intros Hw. eapply wp_rworld_read; [done|]. intros c w1 _ Hs _ Hw1. by split; [apply Hs|]. Qed.

(** The calls of stopping [s] when [stop_required] is [rq]. *)
Definition stop_calls_for (rq : ProtocolService -> bool) (s : ProtocolService)
    : list (Call * bool) :=
  (if non_null (request_stop (per_get (op_services (operations c0)) s))
   then [(CallRequestStop s, h)] else []) ++
  (if rq s then [(CallStop s, h)] else []).

Lemma wp_stop_service s sv rq calls w :
  (rq s = true -> non_null (stop (per_get (op_services (operations c0)) s)) = true) ->
  rworld c0 h sv rq calls w ->
  wp (coordinator_resource_stop_service s (operations c0))
    (fun _ => rworld c0 h (fn_set s PROTOCOL_SERVICE_STOPPED sv) (fn_set s false rq)
                (calls ++ stop_calls_for rq s)) w.
Proof.
  intros Hp Hw. unfold coordinator_resource_stop_service.
  apply wp_bind. eapply wp_rworld_read; [done|]. intros c w1 _ _ Hr Hw1. rewrite Hr. clear c Hr.
  apply wp_bind. eapply (wp_mono _ (fun _ => rworld c0 h sv rq (calls ++
    (if non_null (request_stop (per_get (op_services (operations c0)) s))
     then [(CallRequestStop s, h)] else [])))).
  { unfold call_request_stop. destruct (request_stop _) eqn:E; cbn [non_null].
    - by apply wp_rworld_call; [apply passive_request_stop|].
    - cbn. by rewrite app_nil_r. }
  cbn beta. intros _ w2 Hw2. apply wp_bind.
  eapply (wp_mono _ (fun _ => rworld c0 h sv rq (calls ++ stop_calls_for rq s))).
  { unfold stop_calls_for. rewrite (app_assoc calls). destruct (rq s) eqn:E.
    - specialize (Hp eq_refl). unfold call_stop. destruct (stop _); [|done].
      by apply wp_rworld_call; [apply passive_stop|].
    - cbn. by rewrite app_nil_r. }
  cbn beta. intros _ w3 Hw3. wp_use wp_rworld_set_required. intros _ w4 Hw4.
  wp_use wp_rworld_set_state. intros _ w5 Hw5.
  case_decide; [by apply wp_rworld_clear_airplay | done].
Qed.

Lemma wp_start_service s sv rq calls w :
  (rq s = true -> non_null (stop (per_get (op_services (operations c0)) s)) = true) ->
  non_null (start (per_get (op_services (operations c0)) s)) = true ->
  rworld c0 h sv rq calls w ->
  wp (coordinator_resource_start_service s (operations c0))
    (fun b w' => b = true /\
       rworld c0 h (fn_set s PROTOCOL_SERVICE_RUNNING sv) (fn_set s true rq)
         (calls ++ (if rq s then stop_calls_for rq s else []) ++ [(CallStart s, h)]) w') w.
Proof.
  intros Hp Hst Hw. unfold coordinator_resource_start_service.
  apply wp_bind. eapply wp_rworld_read; [done|]. intros c w1 _ _ Hr Hw1. rewrite Hr. clear c Hr.
  apply wp_bind. eapply (wp_mono _ (fun _ w2 => exists sv' rq',
    rworld c0 h sv' rq' (calls ++ (if rq s then stop_calls_for rq s else [])) w2 /\
    (forall s', s' <> s -> sv' s' = sv s' /\ rq' s' = rq s'))).
  { destruct (rq s) eqn:E.
    - eapply wp_mono; [eapply (wp_stop_service s sv rq); [intros _; by apply Hp | exact Hw1]|]. cbn beta.
      intros _ w2 Hw2. eexists _, _.
      split; [exact Hw2|]. intros s' Hs'. unfold fn_set. by rewrite !decide_False.
    - exists sv, rq. by rewrite app_nil_r. }
  cbn beta. intros _ w2 (sv' & rq' & Hw2 & Heq).
  apply wp_bind. eapply wp_rworld_read; [done|]. intros c w3 [Ha Hl Hd Ho He] _ _ Hw3.
  assert (Eall : runtime_active c && bool_decide (coord_lifecycle c <> PROTOCOL_LIFECYCLE_STOPPING) &&
    bool_decide (coord_lifecycle c <> PROTOCOL_LIFECYCLE_STOPPED) = true).
  { rewrite Ha. by destruct (coord_lifecycle c). }
  rewrite Eall. cbn [negb]. clear c Ha Hl Hd Ho He Eall.
  wp_use wp_rworld_set_state. intros _ w4 Hw4. apply wp_bind.
  eapply (wp_mono _ (fun b w5 => b = true /\ rworld c0 h (fn_set s PROTOCOL_SERVICE_STARTING sv') rq'
    ((calls ++ (if rq s then stop_calls_for rq s else [])) ++ [(CallStart s, h)]) w5)).
  { unfold call_start. destruct (start _); [|done].
    by apply wp_rworld_call_true; [apply succeed_start|]. }
  cbn beta. intros ? w5 [-> Hw5]. cbn [orb]. wp_use wp_rworld_set_required. intros _ w6 Hw6.
  wp_use wp_rworld_set_state. intros _ w7 Hw7. split; [done|]. eapply rworld_ext; [exact Hw7|..].
  - intros s'. unfold fn_set. case_decide; [done|]. by apply Heq.
  - intros s'. unfold fn_set. case_decide; [done|]. by apply Heq.
  - by rewrite <- app_assoc.
Qed.

(** *** The two phases *)

Context (Hready : transition_ready c0).

Definition stop_done (done : list ProtocolService) (s : ProtocolService) : bool :=
  bool_decide (s ∈ done) && needs_stop c0 s.
Definition sv_stop (done : list ProtocolService) (s : ProtocolService) : ProtocolServiceState :=
  if stop_done done s then PROTOCOL_SERVICE_STOPPED else service_state c0 s.
Definition rq_stop (done : list ProtocolService) (s : ProtocolService) : bool :=
  if stop_done done s then false else per_get (stop_required c0) s.

Lemma stop_done_snoc done x s :
  stop_done (done ++ [x]) s = (stop_done done s || (bool_decide (s = x) && needs_stop c0 s)).
Proof.
  unfold stop_done. rewrite <- andb_orb_distrib_l. f_equal. apply eq_true_iff_eq.
  rewrite orb_true_iff, !bool_decide_eq_true, elem_of_app, list_elem_of_singleton. done.
Qed.

Lemma stop_done_fresh done x : x ∉ done -> stop_done done x = false.
Proof. intros Hx. unfold stop_done. by rewrite bool_decide_eq_false_2. Qed.

Lemma wp_stop_phase calls w :
  rworld c0 h (service_state c0) (per_get (stop_required c0)) calls w ->
  wp (resource_stop_phase (target (resource_worker c0)) (configured_enabled c0) (operations c0))
    (fun b w' => b = true /\ rworld c0 h (sv_stop (rev all_services)) (rq_stop (rev all_services))
       (calls ++ flat_map (stop_phase_calls c0 h) (rev all_services)) w') w.
Proof.
  intros Hw. unfold resource_stop_phase. apply wp_bind.
  eapply wp_mono; [apply (wp_for_loop _ _ _ (fun done (_ : unit) =>
    rworld c0 h (sv_stop done) (rq_stop done) (calls ++ flat_map (stop_phase_calls c0 h) done)))|].
  - vm_compute. repeat constructor; set_solver.
  - intros done x [] w1 Hx Hw1. wp_use wp_rworld_state. intros st w2 [Hst Hw2].
    assert (Hsv : sv_stop done x = service_state c0 x)
      by (unfold sv_stop; by rewrite (stop_done_fresh done x Hx)).
    rewrite Hsv in Hst. subst st.
    wp_use wp_continues. intros ? w3 [-> Hw3]. cbn [negb].
    rewrite flat_map_app. cbn [flat_map]. rewrite app_nil_r, app_assoc.
    unfold stop_phase_calls at 2. fold (required c0 x).
    destruct (needs_stop c0 x) eqn:En'; pose proof En' as En; unfold needs_stop in En.
    + apply negb_true_iff in En. rewrite En. apply wp_bind. eapply wp_mono.
      { apply wp_stop_service; [|exact Hw3]. unfold rq_stop. rewrite (stop_done_fresh done x Hx).
        apply (tr_stop c0 Hready). }
      cbn beta. intros _ w4 Hw4. split; [done|]. eapply rworld_ext; [exact Hw4|..].
      * intros s. unfold fn_set, sv_stop. rewrite stop_done_snoc.
        destruct (decide (s = x)) as [->|E].
        -- rewrite (bool_decide_eq_true_2 (x = x)) by done. by rewrite En', orb_true_r.
        -- by rewrite (bool_decide_eq_false_2 (s = x)), orb_false_r.
      * intros s. unfold fn_set, rq_stop. rewrite stop_done_snoc.
        destruct (decide (s = x)) as [->|E].
        -- rewrite (bool_decide_eq_true_2 (x = x)) by done. by rewrite En', orb_true_r.
        -- by rewrite (bool_decide_eq_false_2 (s = x)), orb_false_r.
      * unfold stop_calls_for, stop_service_calls, rq_stop. by rewrite (stop_done_fresh done x Hx).
    + apply negb_false_iff in En. rewrite En. split; [done|].
      assert (Hsame : forall s, stop_done (done ++ [x]) s = stop_done done s).
      { intros s. rewrite stop_done_snoc.
        destruct (decide (s = x)) as [->|E];
          [|by rewrite (bool_decide_eq_false_2 (s = x)), orb_false_r].
        by rewrite En', andb_false_r, orb_false_r. }
      eapply rworld_ext; [exact Hw3|..]; unfold sv_stop, rq_stop.
      * intros s. by rewrite Hsame.
      * intros s. by rewrite Hsame.
      * by rewrite app_nil_r.
  - cbn beta. by rewrite app_nil_r.
  - cbn beta. intros [[] b] w1 [Hb Hw1]. cbn in Hb. by subst.
Qed.

Notation stopped_all := (rev all_services).

Definition start_done (done : list ProtocolService) (s : ProtocolService) : bool :=
  bool_decide (s ∈ done) && needs_start c0 s.
Definition sv_start (done : list ProtocolService) (s : ProtocolService) : ProtocolServiceState :=
  if start_done done s then PROTOCOL_SERVICE_RUNNING else sv_stop stopped_all s.
Definition rq_start (done : list ProtocolService) (s : ProtocolService) : bool :=
  if start_done done s then true else rq_stop stopped_all s.

Lemma start_done_snoc done x s :
  start_done (done ++ [x]) s = (start_done done s || (bool_decide (s = x) && needs_start c0 s)).
Proof.
  unfold start_done. rewrite <- andb_orb_distrib_l. f_equal. apply eq_true_iff_eq.
  rewrite orb_true_iff, !bool_decide_eq_true, elem_of_app, list_elem_of_singleton. done.
Qed.

Lemma start_done_fresh done x : x ∉ done -> start_done done x = false.
Proof. intros Hx. unfold start_done. by rewrite bool_decide_eq_false_2. Qed.

(** The first phase leaves a required service alone. *)
Lemma required_untouched x :
  required c0 x = true ->
  sv_stop stopped_all x = service_state c0 x /\ rq_stop stopped_all x = per_get (stop_required c0) x.
Proof.
  intros Hr. unfold sv_stop, rq_stop, stop_done, needs_stop. rewrite Hr, orb_true_r.
  cbn [negb]. by rewrite andb_false_r.
Qed.

Lemma required_enabled x : required c0 x = true -> per_get (configured_enabled c0) x = true.
Proof.
  unfold required, coordinator_resource_service_required.
  destruct (per_get (configured_enabled c0) x); [done|]. by rewrite orb_true_r.
Qed.

Lemma wp_start_phase calls w :
  rworld c0 h (sv_stop stopped_all) (rq_stop stopped_all) calls w ->
  wp (resource_start_phase (target (resource_worker c0)) (configured_enabled c0) (operations c0) true)
    (fun r w' => r = (true, true) /\ rworld c0 h (sv_start all_services) (rq_start all_services)
       (calls ++ flat_map (start_phase_calls c0 h) all_services) w') w.
Proof.
  intros Hw. unfold resource_start_phase.
  eapply wp_mono; [apply (wp_for_loop _ _ _ (fun done (ok : bool) w' => ok = true /\
    rworld c0 h (sv_start done) (rq_start done)
      (calls ++ flat_map (start_phase_calls c0 h) done) w'))|].
  - vm_compute. repeat constructor; set_solver.
  - intros done x ok w1 Hx [-> Hw1]. wp_use wp_rworld_state. intros st w2 [Hst Hw2].
    wp_use wp_continues. intros ? w3 [-> Hw3]. cbn [negb]. fold (required c0 x).
    assert (Hsv : sv_start done x = sv_stop stopped_all x /\
                  rq_start done x = rq_stop stopped_all x)
      by (unfold sv_start, rq_start; by rewrite (start_done_fresh done x Hx)).
    destruct Hsv as [Hsv Hrq]. rewrite Hsv in Hst. subst st.
    rewrite flat_map_app. cbn [flat_map]. rewrite app_nil_r, app_assoc.
    unfold start_phase_calls at 2. destruct (needs_start c0 x) eqn:En.
    + assert (Hr : required c0 x = true) by (by apply andb_true_iff in En as [? _]).
      destruct (required_untouched x Hr) as [Hs1 Hs2].
      assert (Hnr : bool_decide (sv_stop stopped_all x = PROTOCOL_SERVICE_RUNNING) = false).
      { unfold needs_start in En. rewrite Hr in En. apply negb_true_iff, bool_decide_eq_false in En.
        apply bool_decide_eq_false_2. by rewrite Hs1. }
      rewrite Hr, Hnr. cbn [negb orb]. wp_use wp_rworld_start_call. intros _ w4 Hw4.
      apply wp_bind. eapply wp_mono.
      { apply wp_start_service; [| |exact Hw4].
        - rewrite Hrq, Hs2. apply (tr_stop c0 Hready).
        - by apply (tr_start c0 Hready), required_enabled. }
      cbn beta. intros ? w5 [-> Hw5]. wp_use wp_rworld_start_call. intros _ w6 Hw6.
      split; [done|]. split; [done|]. eapply rworld_ext; [exact Hw6|..].
      * intros s. unfold fn_set, sv_start. rewrite start_done_snoc.
        destruct (decide (s = x)) as [->|E].
        -- rewrite (bool_decide_eq_true_2 (x = x)) by done. by rewrite En, orb_true_r.
        -- by rewrite (bool_decide_eq_false_2 (s = x)), orb_false_r.
      * intros s. unfold fn_set, rq_start. rewrite start_done_snoc.
        destruct (decide (s = x)) as [->|E].
        -- rewrite (bool_decide_eq_true_2 (x = x)) by done. by rewrite En, orb_true_r.
        -- by rewrite (bool_decide_eq_false_2 (s = x)), orb_false_r.
      * unfold stop_calls_for, stop_service_calls. by rewrite Hrq, Hs2.
    + assert (Hskip : negb (required c0 x) ||
                bool_decide (sv_stop stopped_all x = PROTOCOL_SERVICE_RUNNING) = true).
      { unfold needs_start in En. destruct (required c0 x) eqn:Hr; [|done]. cbn [negb orb andb] in *.
        apply negb_false_iff, bool_decide_eq_true in En.
        apply bool_decide_eq_true. by rewrite (proj1 (required_untouched x Hr)). }
      rewrite Hskip. split; [done|]. split; [done|].
      assert (Hsame : forall s, start_done (done ++ [x]) s = start_done done s).
      { intros s. rewrite start_done_snoc. destruct (decide (s = x)) as [->|E];
          [|by rewrite (bool_decide_eq_false_2 (s = x)), orb_false_r].
        by rewrite En, andb_false_r, orb_false_r. }
      eapply rworld_ext; [exact Hw3|..]; unfold sv_start, rq_start.
      * intros s. by rewrite Hsame.
      * intros s. by rewrite Hsame.
      * by rewrite app_nil_r.
  - split; [done|]. cbn [flat_map]. by rewrite app_nil_r.
  - cbn beta. intros [ok b] w1 [Hb [Hok Hw1]]. cbn in Hb, Hok. by subst.
Qed.

(** Afterwards the services match the target. *)
Lemma services_match_after c :
  configured_enabled c = configured_enabled c0 ->
  (forall s, service_state c s = sv_start all_services s) ->
  coordinator_resource_services_match_locked (target (resource_worker c0)) c = true.
Proof.
  intros He Hs. unfold coordinator_resource_services_match_locked. apply forallb_forall.
  intros s _. fold (service_state c s). rewrite He. fold (required c0 s).
  assert (Hin : start_done all_services s = needs_start c0 s /\
                stop_done stopped_all s = needs_stop c0 s).
  { unfold start_done, stop_done. rewrite !bool_decide_eq_true_2; [done|..]; destruct s; set_solver. }
  destruct Hin as [H2 H3]. unfold sv_start, sv_stop in Hs. rewrite Hs, H2, H3. clear Hs H2 H3.
  unfold needs_start, needs_stop. pose proof (tr_enabled c0 Hready s) as Hen.
  destruct (per_get (configured_enabled c0) s) eqn:Ee; cbn [negb].
  - assert (Hnd : service_state c0 s <> PROTOCOL_SERVICE_DISABLED) by (intros E; by apply Hen in E).
    destruct (required c0 s); cbn [andb]; [|by destruct (service_state c0 s)].
    by destruct (service_state c0 s).
  - assert (Hd : service_state c0 s = PROTOCOL_SERVICE_DISABLED) by (by apply Hen).
    assert (Hr : required c0 s = false)
      by (apply not_true_is_false; intros Hr; apply required_enabled in Hr; congruence).
    by rewrite Hd, Hr.
Qed.

Lemma wp_background b sv rq calls w :
  rworld c0 h sv rq calls w ->
  wp (coordinator_set_background_network_suspended b)
    (fun ok w' => ok = true /\ exists extra, rworld c0 h sv rq (calls ++ extra) w' /\
       (extra = [] \/ extra = [(CallSetBackground b, h)]) /\
       (b = true -> extra = background_suspend_calls c0 h)) w.
Proof.
  intros Hw. apply wp_bind. eapply wp_rworld_locked; [done|].
  intros now c [Ha Hl Hd Ho He] Hs Hr w1 Hc Hh Hw1.
  assert (Hw1' : rworld c0 h sv rq calls w1).
  { unfold rworld. rewrite Hw1. unfold set_background_locked. repeat case_match; cbn [snd]; by split_and!. }
  unfold set_background_locked. rewrite Ho. unfold background_suspend_calls.
  destruct (Bool.eqb (background_network_suspended c) b); cbn [negb].
  - destruct b; cbn [fst].
    + destruct (set_background_network_suspended (operations c0)); cbn [orb non_null].
      * eapply wp_mono; [by apply wp_rworld_call_true; [apply succeed_background|]|].
        cbn beta. intros ? w2 [-> Hw2]. split; [done|]. eexists. split; [exact Hw2|]. split; [by right | done].
      * split; [done|]. exists []. rewrite app_nil_r. split_and!; [done | by left | done].
    + split; [done|]. exists []. rewrite app_nil_r. split_and!; [done | by left | done].
  - cbn [fst]. destruct (set_background_network_suspended (operations c0)); cbn [orb non_null].
    + eapply wp_mono; [by apply wp_rworld_call_true; [apply succeed_background|]|].
      cbn beta. intros ? w2 [-> Hw2]. split; [done|]. eexists. split; [exact Hw2|].
      split; [by right|]. by intros ->.
    + split; [done|]. exists []. rewrite app_nil_r. split_and!; [done | by left | done].
Qed.

Lemma finished_applied now sv rq c :
  rframe c0 c -> (forall s, service_state c s = sv_start all_services s) ->
  (forall s, per_get (stop_required c) s = rq s) -> sv = sv_start all_services ->
  resources_applied c0
    (resource_finished_locked (target (resource_worker c0)) true true now c).
Proof.
  intros [Ha Hl Hd Ho He] Hs _ _. unfold resource_finished_locked, coordinator_bump_revision.
  cbn [andb]. split; try (rproj; done). apply services_match_after; rproj; [done | exact Hs].
Qed.

Lemma wp_worker w :
  w_coord w = c0 -> g_transition_held (w_own w) = h ->
  wp coordinator_resource_worker_run (fun _ w' =>
    resources_applied c0 (w_coord w') /\
    exists resume, w_calls w' = w_calls w ++
      (if decide (target (resource_worker c0) = PROTOCOL_RESOURCE_MODE_HOME) then []
       else background_suspend_calls c0 h) ++
      flat_map (stop_phase_calls c0 h) stopped_all ++
      flat_map (start_phase_calls c0 h) all_services ++ resume /\
      (resume = [] \/ target (resource_worker c0) = PROTOCOL_RESOURCE_MODE_HOME /\
                       resume = [(CallSetBackground false, h)])) w.
Proof.
  intros Hc0 Hh. unfold coordinator_resource_worker_run.
  assert (Hw : rworld c0 h (service_state c0) (per_get (stop_required c0)) (w_calls w) w).
  { destruct Hready. unfold rworld. rewrite Hc0. by split_and!. }
  apply wp_bind. split; [done|]. cbn [wp]. rewrite Hc0, coordinator_init_eq. rproj.
  set (w1 := { w with w_coord := _ }).
  assert (Hw1 : rworld c0 h (service_state c0) (per_get (stop_required c0)) (w_calls w) w1).
  { unfold w1. destruct Hready. unfold rworld. rproj. by split_and!. }
  clearbody w1. cbn beta match.
  apply wp_bind. eapply (wp_mono _ (fun ok w2 => ok = true /\
    rworld c0 h (service_state c0) (per_get (stop_required c0)) (w_calls w ++
      (if decide (target (resource_worker c0) = PROTOCOL_RESOURCE_MODE_HOME) then []
       else background_suspend_calls c0 h)) w2)).
  { destruct (decide (target (resource_worker c0) = _)) as [E|E];
      [rewrite decide_False by (intros Hn; by apply Hn) | rewrite decide_True by done].
    - by rewrite app_nil_r.
    - eapply wp_mono; [by apply wp_background|]. cbn beta. intros ? w2 (-> & extra & Hw2 & _ & Hx).
      by rewrite <- Hx. }
  cbn beta. intros ? w2 [-> Hw2]. apply wp_bind. eapply wp_mono; [by apply wp_stop_phase|].
  cbn beta. intros ? w3 [-> Hw3]. cbn [negb].
  apply wp_bind. eapply (wp_mono _ (fun r w4 => r = (true, true) /\ exists resume,
    rworld c0 h (sv_start all_services) (rq_start all_services) (w_calls w ++
      (if decide (target (resource_worker c0) = PROTOCOL_RESOURCE_MODE_HOME) then []
       else background_suspend_calls c0 h) ++
      flat_map (stop_phase_calls c0 h) stopped_all ++
      flat_map (start_phase_calls c0 h) all_services ++ resume) w4 /\
      (resume = [] \/ target (resource_worker c0) = PROTOCOL_RESOURCE_MODE_HOME /\
                       resume = [(CallSetBackground false, h)]))).
  { apply wp_bind. eapply wp_mono; [by apply wp_start_phase|]. cbn beta. intros ? w4 [-> Hw4].
    cbn [negb]. apply wp_bind. eapply wp_rworld_read; [done|]. intros c w5 [] _ _ Hw5.
    rewrite bool_decide_eq_true_2 by done. cbn [negb]. case_decide as E.
    - apply wp_bind. eapply wp_mono; [by apply wp_background|]. cbn beta.
      intros ? w6 (-> & extra & Hw6 & Hx & _). split; [done|]. exists extra.
      split; [by rewrite !app_assoc in *|]. destruct Hx; by auto.
    - split; [done|]. exists []. rewrite app_nil_r, !app_assoc in *. by auto. }
  cbn beta. intros ? w4 (-> & resume & Hw4 & Hres). cbn beta match.
  eapply wp_rworld_locked; [done|]. cbn [fst snd]. intros now c Hf Hs Hr w5 Hl5 _ Hw5.
  split; [rewrite Hw5; by eapply finished_applied | by exists resume].
Qed.
End worker.

#[local] Existing Instances quiet_callbacks quiet_callbacks_passive.

#[local] Instance quiet_callbacks_succeed : CallbacksSucceed.
Proof. by split. Qed.

(** ** Properties *)

(** C6: A resource transition reaches its target: run alone with callbacks that
    succeed, the worker always ends, with the target as the applied mode, every
    enabled service running exactly when the target requires it and stopped
    otherwise, and the transition marked as done.  On the way it stops exactly
    the services the target does not need, AirPlay first, and only then starts
    the required ones that do not run; a required service that runs is not
    touched, and the background network is suspended before anything else when
    the target is exclusive. *)
Theorem resource_worker_applies_target `{!Callbacks} `{!CallbacksPassive} `{!CallbacksSucceed}
    (w : World) (Hready : transition_ready (w_coord w)) :
  let c := w_coord w in
  let h := g_transition_held (w_own w) in
  exists w' resume,
    run coordinator_resource_worker_run w = Some (tt, w') /\
    resources_applied c (w_coord w') /\
    w_calls w' = w_calls w ++
      (if decide (target (resource_worker c) = PROTOCOL_RESOURCE_MODE_HOME) then []
       else background_suspend_calls c h) ++
      flat_map (stop_phase_calls c h) (rev all_services) ++
      flat_map (start_phase_calls c h) all_services ++ resume /\
    (resume = [] \/ target (resource_worker c) = PROTOCOL_RESOURCE_MODE_HOME /\
                     resume = [(CallSetBackground false, h)]).
Proof.
  intros c h. destruct (proj1 (wp_run _ _ _) (wp_worker c h Hready w eq_refl eq_refl))
    as ([] & w' & Hrun & Hra & resume & Hcalls & Hres). by exists w', resume.
Qed.

(** The example coordinator with a DLNA lease, its resource worker launched. *)
Definition demo_transition : World :=
  let w := (quiet_run (take 5 race_schedule)).1 in
  { w with w_coord -> resource_worker :=
      { resource_worker_zero with target := PROTOCOL_RESOURCE_MODE_DLNA_EXCLUSIVE;
                                  current_service := None } }.

Lemma resource_worker_applies_target_witness :
  let c := w_coord demo_transition in
  let h := g_transition_held (w_own demo_transition) in
  flat_map (stop_phase_calls c h) (rev all_services) =
    [(CallRequestStop PROTOCOL_SERVICE_AIRPLAY, false); (CallStop PROTOCOL_SERVICE_AIRPLAY, false)] /\
  exists w' resume,
    run coordinator_resource_worker_run demo_transition = Some (tt, w') /\
    resources_applied c (w_coord w') /\
    w_calls w' = w_calls demo_transition ++
      (if decide (target (resource_worker c) = PROTOCOL_RESOURCE_MODE_HOME) then []
       else background_suspend_calls c h) ++
      flat_map (stop_phase_calls c h) (rev all_services) ++
      flat_map (start_phase_calls c h) all_services ++ resume /\
    (resume = [] \/ target (resource_worker c) = PROTOCOL_RESOURCE_MODE_HOME /\
                     resume = [(CallSetBackground false, h)]).
Proof.
  intros c h. split; [vm_compute; reflexivity|].
  apply (resource_worker_applies_target demo_transition). split.
  - vm_compute. reflexivity.
  - vm_compute. reflexivity.
  - vm_compute. reflexivity.
  - intros []; vm_compute; split; discriminate.
  - intros []; vm_compute; reflexivity.
  - intros []; vm_compute; reflexivity.
Defined.
