(* ===== verification/MediaActor.v ===== *)
(** * The media actor: operations (player/core/media_actor.c)

    A bounded queue of commands served by one worker thread.  A request is a
    heap object, reached by its address in [Heap]; the queue is the ring buffer
    of the source.  Each definition is one critical section, or the pure code
    between two of them; [MediaActorSystem] composes them into the steps of the
    worker and of the submitting threads.

    Sizes and positions of the ring buffer are natural numbers: [calloc] gave
    the buffer its [capacity] pointers, so no position can wrap.  The counters
    of [MediaActorHealth] are kept at 64 bits. *)

From S2P Require Import Prelude.

(** ** Commands *)

(* src: source/player/core/media_actor.h MediaActorCommandKind *)
Inductive MediaActorCommandKind :=
| MEDIA_ACTOR_COMMAND_OPEN
| MEDIA_ACTOR_COMMAND_PLAY
| MEDIA_ACTOR_COMMAND_PAUSE
| MEDIA_ACTOR_COMMAND_STOP
| MEDIA_ACTOR_COMMAND_STOP_ANY
| MEDIA_ACTOR_COMMAND_SEEK_TARGET
| MEDIA_ACTOR_COMMAND_SEEK_MS
| MEDIA_ACTOR_COMMAND_SET_VOLUME
| MEDIA_ACTOR_COMMAND_SET_MUTE
| MEDIA_ACTOR_COMMAND_SHOW_OSD
| MEDIA_ACTOR_COMMAND_BIND_STREAM
| MEDIA_ACTOR_COMMAND_RELEASE_LEASE
| MEDIA_ACTOR_COMMAND_QUIESCE
| MEDIA_ACTOR_COMMAND_SHUTDOWN.

#[export] Instance command_kind_eq_dec : EqDecision MediaActorCommandKind.
Proof. solve_decision. Defined.

(* src: source/player/core/media_actor.h MediaActorProducer *)
Inductive MediaActorProducer :=
| MEDIA_ACTOR_PRODUCER_UNKNOWN
| MEDIA_ACTOR_PRODUCER_APP
| MEDIA_ACTOR_PRODUCER_UI
| MEDIA_ACTOR_PRODUCER_DLNA
| MEDIA_ACTOR_PRODUCER_IPTV
| MEDIA_ACTOR_PRODUCER_AIRPLAY_VIDEO
| MEDIA_ACTOR_PRODUCER_AIRPLAY_MIRROR
| MEDIA_ACTOR_PRODUCER_TEST.

#[export] Instance producer_eq_dec : EqDecision MediaActorProducer.
Proof. solve_decision. Defined.

(** [None] for the kind is a value outside the enumeration; the pointers to the
    retain and release functions are only tested for NULL here. *)
(* src: source/player/core/media_actor.h MediaActorCommand *)
Record MediaActorCommand := mkCommand {
  command_id : Z;
  kind : option MediaActorCommandKind;
  producer : MediaActorProducer;
  session_token : Z;
  generation : Z;
  text : option cstring;
  metadata : option cstring;
  value : Z;
  flag : bool;
  opaque : option Z;
  opaque_retain : bool;
  opaque_release : bool
}.
#[export] Instance eta_command : Eta MediaActorCommand := fun c =>
  mkCommand (command_id c) (kind c) (producer c) (session_token c) (generation c) (text c)
    (metadata c) (value c) (flag c) (opaque c) (opaque_retain c) (opaque_release c).

(* src: source/player/core/media_actor.h MediaActorSubmitStatus *)
Inductive MediaActorSubmitStatus :=
| MEDIA_ACTOR_SUBMIT_ACCEPTED
| MEDIA_ACTOR_SUBMIT_EXECUTED
| MEDIA_ACTOR_SUBMIT_EXECUTION_FAILED
| MEDIA_ACTOR_SUBMIT_INVALID
| MEDIA_ACTOR_SUBMIT_NOT_RUNNING
| MEDIA_ACTOR_SUBMIT_QUEUE_FULL
| MEDIA_ACTOR_SUBMIT_NO_MEMORY
| MEDIA_ACTOR_SUBMIT_TIMEOUT
| MEDIA_ACTOR_SUBMIT_SHUTTING_DOWN
| MEDIA_ACTOR_SUBMIT_STALE.

#[export] Instance submit_status_eq_dec : EqDecision MediaActorSubmitStatus.
Proof. solve_decision. Defined.

(** Whether each function pointer is set; the functions are the environment. *)
(* src: source/player/core/media_actor.h MediaActorConfig *)
Record MediaActorConfig := mkActorConfig {
  capacity : nat;
  reserved_capacity : nat;
  max_command_burst : nat;
  idle_poll_ms : Z;
  start_suspended : bool;
  has_initialize : bool;
  has_finalize : bool;
  has_validate : bool;
  has_execute : bool;
  has_pump_events : bool;
  has_wakeup : bool
}.

(* src: source/player/core/media_actor.h MediaActorHealth *)
Record MediaActorHealth := mkHealth {
  h_running : bool;
  h_stopping : bool;
  h_accepting : bool;
  initializing : bool;
  ready : bool;
  initialization_failed : bool;
  dispatch_enabled : bool;
  pending : nat;
  max_depth : nat;
  submitted : Z;
  executed : Z;
  execution_failed : Z;
  rejected_full : Z;
  rejected_stopping : Z;
  rejected_stale : Z;
  coalesced : Z;
  timed_out : Z;
  last_command_id : Z;
  current_command_id : Z;
  (** [None] is the value 0, which is no kind *)
  current_command_kind : option MediaActorCommandKind;
  current_command_producer : MediaActorProducer;
  current_session_token : Z;
  current_generation : Z;
  last_completed_command_id : Z;
  current_command_age_ms : Z;
  heartbeat_age_ms : Z
}.
#[export] Instance eta_health : Eta MediaActorHealth := fun h =>
  mkHealth (h_running h) (h_stopping h) (h_accepting h) (initializing h) (ready h)
    (initialization_failed h) (dispatch_enabled h) (pending h) (max_depth h) (submitted h)
    (executed h) (execution_failed h) (rejected_full h) (rejected_stopping h)
    (rejected_stale h) (coalesced h) (timed_out h) (last_command_id h) (current_command_id h)
    (current_command_kind h) (current_command_producer h) (current_session_token h)
    (current_generation h) (last_completed_command_id h) (current_command_age_ms h)
    (heartbeat_age_ms h).

Definition health_zero : MediaActorHealth :=
  mkHealth false false false false false false false 0 0 0 0 0 0 0 0 0 0 0 0 None
    MEDIA_ACTOR_PRODUCER_UNKNOWN 0 0 0 0 0.

(** The strings of the command are the request's own copies. *)
(* src: source/player/core/media_actor.c MediaActorRequest *)
Record MediaActorRequest := mkRequest {
  command : MediaActorCommand;
  completion_status : MediaActorSubmitStatus;
  completed : bool;
  opaque_retained : bool;
  references : Z
}.
#[export] Instance eta_request : Eta MediaActorRequest := fun r =>
  mkRequest (command r) (completion_status r) (completed r) (opaque_retained r) (references r).

(** The address of a request. *)
Definition rid : Type := nat.

(* src: source/player/core/media_actor.c 33-57 MediaActor *)
Record MediaActor := mkActor {
  config : MediaActorConfig;
  queue : list (option rid);
  queue_head : nat;
  queue_count : nat;
  thread_started : bool;
  join_in_progress : bool;
  running : bool;
  stopping : bool;
  accepting : bool;
  dispatch_requested : bool;
  worker_identity_valid : bool;
  health : MediaActorHealth;
  current_command_started_ms : Z;
  last_heartbeat_ms : Z
}.
#[export] Instance eta_actor : Eta MediaActor := fun a =>
  mkActor (config a) (queue a) (queue_head a) (queue_count a) (thread_started a)
    (join_in_progress a) (running a) (stopping a) (accepting a) (dispatch_requested a)
    (worker_identity_valid a) (health a) (current_command_started_ms a) (last_heartbeat_ms a).

(** ** The heap *)

(** Calls of a command's [opaque_retain] and [opaque_release]. *)
Inductive OpaqueCall := Retain (o : Z) | Release (o : Z).

#[export] Instance OpaqueCall_eq_dec : EqDecision OpaqueCall.
Proof. solve_decision. Defined.

(** The live requests, the next fresh address, and the retain and release calls
    made so far.  [heap_fault] is set when the address of a freed request, or
    no address, is followed. *)
Record Heap := mkHeap {
  requests : gmap rid MediaActorRequest;
  next_rid : rid;
  opaque_calls : list OpaqueCall;
  heap_fault : bool
}.
#[export] Instance eta_heap : Eta Heap := fun h =>
  mkHeap (requests h) (next_rid h) (opaque_calls h) (heap_fault h).

Definition heap_empty : Heap := mkHeap ∅ 0%nat [] false.

Definition heap_alloc (r : MediaActorRequest) (h : Heap) : rid * Heap :=
  (next_rid h, { h with requests ::= <[next_rid h := r]>; next_rid ::= S }).

Definition heap_update (i : rid) (f : MediaActorRequest -> MediaActorRequest) (h : Heap) : Heap :=
  match requests h !! i with
  | Some r => { h with requests ::= <[i := f r]> }
  | None => { h with heap_fault := true }
  end.

(** [request_free]; a NULL request is [None]. *)
(* src: source/player/core/media_actor.c request_free *)
Definition request_free (i : option rid) (h : Heap) : Heap :=
  match i with
  | None => h
  | Some i =>
      match requests h !! i with
      | None => { h with heap_fault := true }
      | Some r =>
          let released :=
            if opaque_retained r && opaque_release (command r)
            then match opaque (command r) with Some o => [Release o] | None => [] end
            else [] in
          { h with requests ::= delete i; opaque_calls ::= fun l => l ++ released }
      end
  end.

(** The linked list of requests to free, head first. *)
(* src: source/player/core/media_actor.c request_free_list *)
Definition request_free_list (l : list rid) (h : Heap) : Heap :=
  foldl (fun h i => request_free (Some i) h) h l.

(** A copy; [allocated] is whether [malloc] succeeds. *)
(* src: source/player/core/media_actor.c duplicate_string *)
Definition duplicate_string (v : option cstring) (allocated : bool) : option cstring :=
  match v with
  | None => None
  | Some s => if allocated then Some s else None
  end.

(** The outcomes of the three allocations of [request_create]. *)
Record Allocations := mkAllocations {
  alloc_request : bool;
  alloc_text : bool;
  alloc_metadata : bool
}.

(** When a copy fails nothing was retained yet, and the request is freed. *)
(* src: source/player/core/media_actor.c request_create *)
Definition request_create (cmd : MediaActorCommand) (m : Allocations) (h : Heap)
    : option rid * Heap :=
  if negb (alloc_request m) then (None, h)
  else
    let text' := duplicate_string (text cmd) (alloc_text m) in
    let metadata' := duplicate_string (metadata cmd) (alloc_metadata m) in
    if (bool_decide (is_Some (text cmd)) && bool_decide (text' = None)) ||
       (bool_decide (is_Some (metadata cmd)) && bool_decide (metadata' = None))
    then (None, h)
    else
      let copy := { cmd with command_id := 0; text := text'; metadata := metadata' } in
      let retain := opaque_retain cmd in
      match opaque cmd with
      | Some o =>
          let '(i, h') := heap_alloc (mkRequest copy MEDIA_ACTOR_SUBMIT_ACCEPTED false retain 0) h in
          (Some i, if retain then { h' with opaque_calls ::= fun l => l ++ [Retain o] } else h')
      | None =>
          let '(i, h') := heap_alloc (mkRequest copy MEDIA_ACTOR_SUBMIT_ACCEPTED false false 0) h in
          (Some i, h')
      end.

(** ** Properties of commands *)

(** A NULL command is [None]. *)
(* src: source/player/core/media_actor.c command_valid *)
Definition command_valid (cmd : option MediaActorCommand) : bool :=
  match cmd with
  | None => false
  | Some c =>
      bool_decide (is_Some (kind c)) &&
      ((negb (opaque_retain c) && negb (opaque_release c)) ||
       (opaque_retain c && opaque_release c))
  end.

(* src: source/player/core/media_actor.c command_uses_reserved_slot *)
Definition command_uses_reserved_slot (k : option MediaActorCommandKind) : bool :=
  bool_decide (k = Some MEDIA_ACTOR_COMMAND_STOP_ANY) ||
  bool_decide (k = Some MEDIA_ACTOR_COMMAND_RELEASE_LEASE) ||
  bool_decide (k = Some MEDIA_ACTOR_COMMAND_QUIESCE) ||
  bool_decide (k = Some MEDIA_ACTOR_COMMAND_SHUTDOWN).

(* src: source/player/core/media_actor.c command_is_replaceable *)
Definition command_is_replaceable (k : option MediaActorCommandKind) : bool :=
  bool_decide (k = Some MEDIA_ACTOR_COMMAND_SEEK_MS) ||
  bool_decide (k = Some MEDIA_ACTOR_COMMAND_SET_VOLUME) ||
  bool_decide (k = Some MEDIA_ACTOR_COMMAND_SET_MUTE).

(* src: source/player/core/media_actor.c command_can_replace *)
Definition command_can_replace (queued replacement : MediaActorCommand) : bool :=
  bool_decide (kind queued = kind replacement) &&
  bool_decide (producer queued = producer replacement) &&
  (session_token queued =? session_token replacement) &&
  (generation queued =? generation replacement).

(** ** The ring buffer *)

(* src: source/player/core/media_actor.c queue_push_locked *)
Definition queue_push_locked (request : rid) (a : MediaActor) : MediaActor :=
  let tail := ((queue_head a + queue_count a) mod capacity (config a))%nat in
  let count := S (queue_count a) in
  let a1 := { a with queue ::= <[tail := Some request]>; queue_count := count;
                     health -> pending := count } in
  if (max_depth (health a1) <? count)%nat then { a1 with health -> max_depth := count } else a1.

(* src: source/player/core/media_actor.c queue_pop_locked *)
Definition queue_pop_locked (a : MediaActor) : option rid * MediaActor :=
  if (queue_count a =? 0)%nat then (None, a)
  else
    let request := default None (queue a !! queue_head a) in
    let count := pred (queue_count a) in
    (request,
     { a with queue ::= <[queue_head a := None]>;
              queue_head := ((queue_head a + 1) mod capacity (config a))%nat;
              queue_count := count;
              health -> pending := count }).

(** ** Completing requests *)

(** Marks the request completed and drops the queue's reference: the request to
    free when none is left. *)
(* src: source/player/core/media_actor.c request_complete_locked *)
Definition request_complete_locked (i : rid) (st : MediaActorSubmitStatus) (h : Heap)
    : option rid * Heap :=
  let h1 := heap_update i (fun r =>
    { r with completed := true; completion_status := st;
             references ::= fun n => if 0 <? n then n - 1 else n }) h in
  match requests h1 !! i with
  | Some r => ((if references r =? 0 then Some i else None), h1)
  | None => (None, h1)
  end.

(** [while (queue_pop_locked(actor) != NULL)], [fuel] rounds; the requests to
    free, the last popped first. *)
(* src: source/player/core/media_actor.c actor_reject_pending_locked *)
Fixpoint reject_pending (fuel : nat) (free_list : list rid) (a : MediaActor) (h : Heap)
    : list rid * MediaActor * Heap :=
  match fuel with
  | O => (free_list, a, h)
  | S fuel' =>
      match queue_pop_locked a with
      | (None, a1) => (free_list, a1, h)
      | (Some i, a1) =>
          let a2 := { a1 with health -> rejected_stopping ::= inc } in
          let '(freed, h2) := request_complete_locked i MEDIA_ACTOR_SUBMIT_SHUTTING_DOWN h in
          reject_pending fuel' (match freed with Some f => f :: free_list | None => free_list end) a2 h2
      end
  end.

(** One round per queued request empties the queue. *)
(* src: source/player/core/media_actor.c actor_reject_pending_locked *)
Definition actor_reject_pending_locked (a : MediaActor) (h : Heap)
    : list rid * MediaActor * Heap :=
  reject_pending (queue_count a) [] a h.

(** The pending requests are rejected, then freed outside the lock. *)
(* src: source/player/core/media_actor.c 704-707 media_actor_destroy *)
Definition reject_and_free (a : MediaActor) (h : Heap) : MediaActor * Heap :=
  let '(free_list, a1, h1) := actor_reject_pending_locked a h in
  (a1, request_free_list free_list h1).

(** ** The worker *)

(* src: source/player/core/media_actor.c 284-298 actor_execute_request *)
Definition execute_finished (cmd_id : Z) (valid ok : bool) (now : Z) (a : MediaActor) : MediaActor :=
  let a1 := if negb valid then { a with health -> rejected_stale ::= inc }
            else { a with health -> executed ::= inc } in
  let a2 := if valid && negb ok then { a1 with health -> execution_failed ::= inc } else a1 in
  { a2 with health -> last_completed_command_id := cmd_id;
            health -> current_command_id := 0;
            health -> current_command_kind := None;
            health -> current_command_producer := MEDIA_ACTOR_PRODUCER_UNKNOWN;
            health -> current_session_token := 0;
            health -> current_generation := 0;
            current_command_started_ms := 0;
            last_heartbeat_ms := now }.

Definition execution_status (valid ok : bool) : MediaActorSubmitStatus :=
  if negb valid then MEDIA_ACTOR_SUBMIT_STALE
  else if ok then MEDIA_ACTOR_SUBMIT_EXECUTED else MEDIA_ACTOR_SUBMIT_EXECUTION_FAILED.

(** The validate and execute callbacks answered [valid] and [ok]; without a
    validate callback every command is valid. *)
(* src: source/player/core/media_actor.c actor_execute_request *)
Definition actor_execute_request (i : rid) (valid ok : bool) (now : Z) (a : MediaActor) (h : Heap)
    : MediaActor * Heap :=
  let valid := negb (has_validate (config a)) || valid in
  match requests h !! i with
  | None => (a, { h with heap_fault := true })
  | Some r =>
      let a1 := execute_finished (command_id (command r)) valid ok now a in
      let '(freed, h1) := request_complete_locked i (execution_status valid ok) h in
      (a1, request_free freed h1)
  end.

(** The health after the initialize callback. *)
(* src: source/player/core/media_actor.c 335-347 actor_initialize_worker *)
Definition initialize_finished (initialized : bool) (now : Z) (a : MediaActor) : MediaActor :=
  let a1 := { a with health -> initializing := false;
                     health -> ready := initialized;
                     health -> initialization_failed := negb initialized;
                     health -> dispatch_enabled := initialized && dispatch_requested a;
                     last_heartbeat_ms := now } in
  if negb initialized then
    { a1 with running := false; accepting := false;
              health -> h_running := false; health -> h_accepting := false }
  else a1.

(** [initialize_result] is what the initialize callback returned. *)
(* src: source/player/core/media_actor.c actor_initialize_worker *)
Definition actor_initialize_worker (initialize_result : bool) (now : Z) (a : MediaActor) (h : Heap)
    : bool * MediaActor * Heap :=
  let initialized := negb (has_initialize (config a)) || initialize_result in
  let a1 := initialize_finished initialized now a in
  if negb initialized then
    let '(a2, h2) := reject_and_free a1 h in (false, a2, h2)
  else (true, a1, h).

(** The second locked section, after the finalize callback. *)
(* src: source/player/core/media_actor.c 367-379 actor_finish_worker *)
Definition finish_worker_locked (now : Z) (a : MediaActor) : MediaActor :=
  { a with running := false; accepting := false; dispatch_requested := false;
           worker_identity_valid := false;
           health -> h_running := false; health -> h_stopping := true;
           health -> h_accepting := false; health -> ready := false;
           health -> dispatch_enabled := false; last_heartbeat_ms := now }.

(** The popped command becomes the current one. *)
(* src: source/player/core/media_actor.c 413-424 actor_worker_run *)
Definition begin_command (c : MediaActorCommand) (now : Z) (a : MediaActor) : MediaActor :=
  { a with health -> current_command_id := command_id c;
           health -> current_command_kind := kind c;
           health -> current_command_producer := producer c;
           health -> current_session_token := session_token c;
           health -> current_generation := generation c;
           current_command_started_ms := now;
           last_heartbeat_ms := now }.

(** What the worker found in its locked section. *)
Inductive Fetched :=
| FetchStopping
| FetchDisabled
| FetchEmpty
| FetchRequest (i : rid).

(* src: source/player/core/media_actor.c 400-426 actor_worker_run *)
Definition worker_fetch_locked (now : Z) (a : MediaActor) (h : Heap)
    : Fetched * MediaActor * Heap :=
  if stopping a then (FetchStopping, a, h)
  else if negb (dispatch_enabled (health a)) then (FetchDisabled, a, h)
  else
    match queue_pop_locked a with
    | (None, a1) => (FetchEmpty, a1, h)
    | (Some i, a1) =>
        match requests h !! i with
        | None => (FetchRequest i, a1, { h with heap_fault := true })
        | Some r => (FetchRequest i, begin_command (command r) now a1, h)
        end
    end.

(** ** Life cycle *)

(* src: source/player/core/media_actor.c actor_mark_start_failed_locked *)
Definition actor_mark_start_failed_locked (a : MediaActor) : MediaActor :=
  { a with running := false; accepting := false; dispatch_requested := false;
           health -> h_running := false; health -> h_accepting := false;
           health -> initializing := false; health -> ready := false;
           health -> initialization_failed := true; health -> dispatch_enabled := false }.

(** [allocated]: the allocations and the mutex and condition initialisations
    all succeed. *)
(* src: source/player/core/media_actor.c media_actor_create *)
Definition media_actor_create (c : option MediaActorConfig) (allocated : bool) : option MediaActor :=
  match c with
  | None => None
  | Some c =>
      if negb (has_execute c) || (capacity c =? 0)%nat || (capacity c <=? reserved_capacity c)%nat ||
         (max_command_burst c =? 0)%nat || (idle_poll_ms c =? 0)
      then None
      else if negb allocated then None
      else Some (mkActor c (replicate (capacity c) None) 0 0 false false false false false false false
                   health_zero 0 0)
  end.

(** The locked section before the thread is created: [Some b] returns [b]. *)
(* src: source/player/core/media_actor.c 524-548 media_actor_start *)
Definition start_locked (now : Z) (a : MediaActor) : option bool * MediaActor :=
  if running a then (Some true, a)
  else if thread_started a || negb (queue_count a =? 0)%nat then (Some false, a)
  else
    let c := config a in
    (None,
     { a with stopping := false; accepting := true;
              dispatch_requested := negb (start_suspended c);
              running := true;
              health -> h_running := true; health -> h_stopping := false;
              health -> h_accepting := true;
              health -> initializing := has_initialize c;
              health -> ready := negb (has_initialize c);
              health -> initialization_failed := false;
              health -> dispatch_enabled := negb (has_initialize c) && negb (start_suspended c);
              last_heartbeat_ms := now }).

(** After thread creation: the result and the actor. *)
(* src: source/player/core/media_actor.c 550-581 media_actor_start *)
Definition start_finish_locked (created : bool) (a : MediaActor) : bool * MediaActor :=
  if created then (true, { a with thread_started := true })
  else (false, actor_mark_start_failed_locked a).

(* src: source/player/core/media_actor.c media_actor_activate *)
Definition media_actor_activate (a : MediaActor) : bool * MediaActor :=
  let active := running a && negb (stopping a) && negb (initialization_failed (health a)) in
  (active, if active then { a with dispatch_requested := true;
                                   health -> dispatch_enabled := ready (health a) }
           else a).

(* src: source/player/core/media_actor.c media_actor_quiesce *)
Definition media_actor_quiesce (a : MediaActor) : MediaActor :=
  { a with accepting := false; health -> h_accepting := false }.

(** The condition of [media_actor_wait_idle], which is also its result. *)
(* src: source/player/core/media_actor.c media_actor_wait_idle *)
Definition actor_idle (a : MediaActor) : bool :=
  (queue_count a =? 0)%nat && (current_command_id (health a) =? 0).

(** [media_actor_stop] on the worker's own thread. *)
(* src: source/player/core/media_actor.c 651-661 media_actor_stop *)
Definition stop_self_locked (a : MediaActor) : MediaActor :=
  { a with stopping := true; accepting := false;
           health -> h_stopping := true; health -> h_accepting := false }.

(** On another thread, once no other join is in progress: whether to join. *)
(* src: source/player/core/media_actor.c 662-677 media_actor_stop *)
Definition stop_begin_locked (a : MediaActor) : bool * MediaActor :=
  if negb (thread_started a) then (false, a)
  else (true, { a with join_in_progress := true; stopping := true; accepting := false;
                       health -> h_stopping := true; health -> h_accepting := false }).

(* src: source/player/core/media_actor.c 688-694 media_actor_stop *)
Definition stop_finish_locked (a : MediaActor) : MediaActor :=
  { a with thread_started := false; join_in_progress := false; running := false;
           health -> h_running := false }.

(** ** Submitting *)

(** The direct path of a submit from the worker's own thread: the new command
    id, or the status to return. *)
(* src: source/player/core/media_actor.c 729-754 actor_submit *)
Definition direct_begin_locked (a : MediaActor) : (Z + MediaActorSubmitStatus) * MediaActor :=
  if negb (running a) then (inr MEDIA_ACTOR_SUBMIT_NOT_RUNNING, a)
  else if stopping a || negb (accepting a) then
    (inr MEDIA_ACTOR_SUBMIT_SHUTTING_DOWN, { a with health -> rejected_stopping ::= inc })
  else
    let id := inc (last_command_id (health a)) in
    (inl id, { a with health -> last_command_id := id; health -> submitted ::= inc }).

(* src: source/player/core/media_actor.c 756-775 actor_submit *)
Definition direct_finish_locked (id : Z) (valid ok : bool) (now : Z) (a : MediaActor)
    : MediaActorSubmitStatus * MediaActor :=
  let valid := negb (has_validate (config a)) || valid in
  if negb valid then
    (MEDIA_ACTOR_SUBMIT_STALE,
     { a with health -> rejected_stale ::= inc; health -> last_completed_command_id := id;
              last_heartbeat_ms := now })
  else
    let a1 := { a with health -> executed ::= inc } in
    let a2 := if negb ok then { a1 with health -> execution_failed ::= inc } else a1 in
    ((if ok then MEDIA_ACTOR_SUBMIT_EXECUTED else MEDIA_ACTOR_SUBMIT_EXECUTION_FAILED),
     { a2 with health -> last_completed_command_id := id; last_heartbeat_ms := now }).

(** The queued request a new one replaces, and its place in the ring. *)
(* src: source/player/core/media_actor.c 798-806 actor_submit *)
Definition replaceable_tail (cmd : MediaActorCommand) (wait : bool) (a : MediaActor) (h : Heap)
    : option (nat * rid) * Heap :=
  if negb wait && command_is_replaceable (kind cmd) && negb (queue_count a =? 0)%nat then
    let tail := ((queue_head a + queue_count a - 1) mod capacity (config a))%nat in
    match default None (queue a !! tail) with
    | Some queued =>
        match requests h !! queued with
        | Some r => ((if (references r =? 1) && command_can_replace (command r) cmd
                      then Some (tail, queued) else None), h)
        | None => (None, { h with heap_fault := true })
        end
    | None => (None, { h with heap_fault := true })
    end
  else (None, h).

(* src: source/player/core/media_actor.c 823-827 actor_submit *)
Definition queue_full_for (cmd : MediaActorCommand) (a : MediaActor) : bool :=
  let normal_capacity := (capacity (config a) - reserved_capacity (config a))%nat in
  (capacity (config a) <=? queue_count a)%nat ||
  (negb (command_uses_reserved_slot (kind cmd)) && (normal_capacity <=? queue_count a)%nat).

(** How the locked section of a submit ends. *)
Inductive Submitted :=
| SubmitRefused (st : MediaActorSubmitStatus)
| SubmitCoalesced (i : rid) (replaced : rid)
| SubmitQueued (i : rid).

(** Gives the request its id and its references. *)
Definition stamp (id refs : Z) (r : MediaActorRequest) : MediaActorRequest :=
  { r with command -> command_id := id; references := refs }.

(** A refused request is freed at once; a replaced one when nobody waits for it. *)
(* src: source/player/core/media_actor.c 782-840 actor_submit *)
Definition submit_locked (i : rid) (cmd : MediaActorCommand) (wait : bool) (a : MediaActor) (h : Heap)
    : Submitted * MediaActor * Heap :=
  if negb (running a) then
    (SubmitRefused MEDIA_ACTOR_SUBMIT_NOT_RUNNING, a, request_free (Some i) h)
  else if stopping a || negb (accepting a) then
    (SubmitRefused MEDIA_ACTOR_SUBMIT_SHUTTING_DOWN,
     { a with health -> rejected_stopping ::= inc }, request_free (Some i) h)
  else
    match replaceable_tail cmd wait a h with
    | (Some (tail, queued), h) =>
        let id := inc (last_command_id (health a)) in
        let a1 := { a with health -> last_command_id := id; health -> submitted ::= inc;
                           health -> coalesced ::= inc; queue ::= <[tail := Some i]> } in
        let '(replaced, h1) :=
          request_complete_locked queued MEDIA_ACTOR_SUBMIT_ACCEPTED (heap_update i (stamp id 1) h) in
        (SubmitCoalesced i queued, a1, request_free replaced h1)
    | (None, h) =>
        if queue_full_for cmd a then
          (SubmitRefused MEDIA_ACTOR_SUBMIT_QUEUE_FULL,
           { a with health -> rejected_full ::= inc }, request_free (Some i) h)
        else
          let id := inc (last_command_id (health a)) in
          let a1 := { a with health -> last_command_id := id; health -> submitted ::= inc } in
          (SubmitQueued i, queue_push_locked i a1,
           heap_update i (stamp id (if wait then 2 else 1)) h)
    end.

(** Everything up to the wait: the command is checked, copied and queued. *)
(* src: source/player/core/media_actor.c 716-840 actor_submit *)
Definition actor_submit (cmd : option MediaActorCommand) (wait : bool) (m : Allocations)
    (a : MediaActor) (h : Heap) : Submitted * MediaActor * Heap :=
  if negb (command_valid cmd) then (SubmitRefused MEDIA_ACTOR_SUBMIT_INVALID, a, h)
  else
    match cmd with
    | None => (SubmitRefused MEDIA_ACTOR_SUBMIT_INVALID, a, h)
    | Some c =>
        match request_create c m h with
        | (None, h1) => (SubmitRefused MEDIA_ACTOR_SUBMIT_NO_MEMORY, a, h1)
        | (Some i, h1) => submit_locked i c wait a h1
        end
    end.

(** The end of the wait: the request is completed or the deadline has passed. *)
(* src: source/player/core/media_actor.c 866-881 actor_submit *)
Definition wait_finish_locked (i : rid) (a : MediaActor) (h : Heap)
    : MediaActorSubmitStatus * MediaActor * Heap :=
  match requests h !! i with
  | None => (MEDIA_ACTOR_SUBMIT_TIMEOUT, a, { h with heap_fault := true })
  | Some r =>
      let '(st, a1) :=
        if completed r then (completion_status r, a)
        else (MEDIA_ACTOR_SUBMIT_TIMEOUT, { a with health -> timed_out ::= inc }) in
      let refs := if 0 <? references r then references r - 1 else references r in
      let h1 := heap_update i (fun r => { r with references := refs }) h in
      (st, a1, if refs =? 0 then request_free (Some i) h1 else h1)
  end.

(** ** Queries *)

(* src: source/player/core/media_actor.c media_actor_get_health *)
Definition media_actor_get_health (now : Z) (a : MediaActor) : MediaActorHealth :=
  let age since := if (0 <? since) && (since <=? now) then now - since else 0 in
  { health a with current_command_age_ms := age (current_command_started_ms a);
                  heartbeat_age_ms := age (last_heartbeat_ms a) }.

(* src: source/player/core/media_actor.c media_actor_submit_status_name *)
Definition media_actor_submit_status_name (st : MediaActorSubmitStatus) : string :=
  match st with
  | MEDIA_ACTOR_SUBMIT_ACCEPTED => "accepted"
  | MEDIA_ACTOR_SUBMIT_EXECUTED => "executed"
  | MEDIA_ACTOR_SUBMIT_EXECUTION_FAILED => "execution-failed"
  | MEDIA_ACTOR_SUBMIT_INVALID => "invalid"
  | MEDIA_ACTOR_SUBMIT_NOT_RUNNING => "not-running"
  | MEDIA_ACTOR_SUBMIT_QUEUE_FULL => "queue-full"
  | MEDIA_ACTOR_SUBMIT_NO_MEMORY => "no-memory"
  | MEDIA_ACTOR_SUBMIT_TIMEOUT => "timeout"
  | MEDIA_ACTOR_SUBMIT_SHUTTING_DOWN => "shutting-down"
  | MEDIA_ACTOR_SUBMIT_STALE => "stale"
  end.

(** ** Lemmas: the ring buffer is a list *)

(** The ring holds [q], oldest request first, and nothing else. *)
Record ring_repr (a : MediaActor) (q : list rid) : Prop := {
  ring_length : length (queue a) = capacity (config a);
  ring_head : (queue_head a < capacity (config a))%nat;
  ring_count : queue_count a = length q;
  ring_bound : (length q <= capacity (config a))%nat;
  ring_slot k : (k < capacity (config a))%nat ->
    queue a !! ((queue_head a + k) mod capacity (config a))%nat = Some (q !! k)
}.

(** Positions of the ring that differ stay apart. *)
Lemma ring_index_inj cap head j k :
  (head < cap)%nat -> (j < cap)%nat -> (k < cap)%nat ->
  ((head + j) mod cap = (head + k) mod cap)%nat -> j = k.
Proof.
  intros Hh Hj Hk. assert (Hm : forall x, (x < cap)%nat ->
    ((head + x) mod cap = if decide (head + x < cap) then head + x else head + x - cap)%nat).
  { intros x Hx. case_decide; [by apply Nat.mod_small|].
    replace (head + x)%nat with ((head + x - cap) + 1 * cap)%nat at 1 by lia.
    rewrite Nat.Div0.mod_add. apply Nat.mod_small. lia. }
  rewrite !Hm by done. repeat case_decide; lia.
Qed.

Lemma ring_index_lt cap head k : (head < cap)%nat -> ((head + k) mod cap < cap)%nat.
Proof. intros H. apply Nat.mod_upper_bound. lia. Qed.

Lemma ring_repr_ext a a' q :
  ring_repr a q -> config a' = config a -> queue a' = queue a -> queue_head a' = queue_head a ->
  queue_count a' = queue_count a -> ring_repr a' q.
Proof. intros [H1 H2 H3 H4 H5] Hc Hq Hh Hn. split; by rewrite ?Hc, ?Hq, ?Hh, ?Hn. Qed.

Lemma queue_push_fields i a :
  let a' := queue_push_locked i a in
  config a' = config a /\
  queue a' = <[((queue_head a + queue_count a) mod capacity (config a))%nat := Some i]> (queue a) /\
  queue_head a' = queue_head a /\ queue_count a' = S (queue_count a).
Proof. cbv zeta. unfold queue_push_locked. by case_match. Qed.

Lemma queue_push_repr i a q :
  ring_repr a q -> (length q < capacity (config a))%nat ->
  ring_repr (queue_push_locked i a) (q ++ [i]).
Proof.
  intros [H1 H2 H3 H4 H5] Hlt. destruct (queue_push_fields i a) as (Ec & Eq & Eh & En).
  split; rewrite ?Ec, ?Eq, ?Eh, ?En, ?length_insert, ?length_app; cbn [length]; try lia.
  intros k Hk. rewrite H3. destruct (decide (k = length q)) as [->|Hne].
  - rewrite list_lookup_insert_eq by (rewrite H1; by apply ring_index_lt).
    by rewrite lookup_app_r, Nat.sub_diag by lia.
  - rewrite list_lookup_insert_ne.
    + rewrite H5 by done. f_equal. destruct (decide (k < length q)%nat).
      * by rewrite lookup_app_l by lia.
      * rewrite !lookup_ge_None_2; [done | rewrite length_app; cbn; lia | lia].
    + intros E. apply ring_index_inj in E; [lia | lia | lia | lia].
Qed.

Lemma queue_pop_repr i a q :
  ring_repr a (i :: q) ->
  exists a', queue_pop_locked a = (Some i, a') /\ ring_repr a' q /\
    config a' = config a /\ running a' = running a /\ stopping a' = stopping a /\
    (exists n, health a' = { health a with pending := n }).
Proof.
  intros [H1 H2 H3 H4 H5]. unfold queue_pop_locked. rewrite H3. cbn [length Nat.eqb].
  pose proof (H5 0%nat ltac:(lia)) as H0. rewrite Nat.add_0_r, Nat.mod_small in H0 by lia.
  rewrite H0. cbn [lookup list_lookup default]. eexists. split; [reflexivity|].
  split; [|by split_and!; [..|eexists]]. cbn in H4.
  split; rproj; rewrite ?length_insert; cbn [length pred] in *; try lia.
  { apply Nat.mod_upper_bound. lia. }
  intros k Hk. rewrite Nat.Div0.add_mod_idemp_l, <- Nat.add_assoc.
  change (1 + k)%nat with (S k).
  destruct (decide (S k = capacity (config a))) as [E|E].
  - rewrite E. rewrite <- Nat.Div0.add_mod_idemp_r, Nat.Div0.mod_same, Nat.add_0_r.
    rewrite Nat.mod_small, list_lookup_insert_eq by lia. f_equal.
    symmetry. apply lookup_ge_None_2. lia.
  - rewrite list_lookup_insert_ne.
    + by rewrite H5 by lia.
    + assert (E0 : queue_head a = ((queue_head a + 0) mod capacity (config a))%nat)
        by (rewrite Nat.add_0_r, Nat.mod_small; lia).
      intros E'. rewrite E0 in E' at 1. apply ring_index_inj in E'; lia.
Qed.

Lemma queue_pop_empty a : ring_repr a [] -> queue_pop_locked a = (None, a).
Proof. intros [_ _ H _ _]. unfold queue_pop_locked. by rewrite H. Qed.

(** The last request of the ring and its replacement. *)
Lemma queue_tail_repr a q j i :
  ring_repr a (q ++ [j]) ->
  let tail := ((queue_head a + queue_count a - 1) mod capacity (config a))%nat in
  queue a !! tail = Some (Some j) /\
  forall a', config a' = config a -> queue a' = <[tail := Some i]> (queue a) ->
    queue_head a' = queue_head a -> queue_count a' = queue_count a -> ring_repr a' (q ++ [i]).
Proof.
  intros [H1 H2 H3 H4 H5]. rewrite length_app in *. cbn in H3, H4. cbv zeta.
  replace (queue_head a + queue_count a - 1)%nat with (queue_head a + length q)%nat by lia.
  split; [rewrite H5 by lia; by rewrite lookup_app_r, Nat.sub_diag by lia|].
  intros a' Ec Eq Eh En. split; rewrite ?Ec, ?Eq, ?Eh, ?En, ?length_insert, ?length_app; cbn [length];
    try lia.
  intros k Hk. destruct (decide (k = length q)) as [->|Hne].
  - rewrite list_lookup_insert_eq by (rewrite H1; by apply ring_index_lt).
    by rewrite lookup_app_r, Nat.sub_diag by lia.
  - rewrite list_lookup_insert_ne.
    + rewrite H5 by done. f_equal. destruct (decide (k < length q)%nat).
      * by rewrite !lookup_app_l by lia.
      * by rewrite !lookup_ge_None_2 by (rewrite length_app; cbn; lia).
    + intros E. apply ring_index_inj in E; lia.
Qed.

Lemma request_create_ok cmd h :
  exists i h1, request_create cmd (mkAllocations true true true) h = (Some i, h1).
Proof.
  unfold request_create, duplicate_string. cbn [negb alloc_request alloc_text alloc_metadata].
  assert (E : forall v : option cstring,
    bool_decide (is_Some v) && bool_decide (match v with Some s => Some s | None => None end = None) = false).
  { intros [v|]; [|done]. rewrite andb_false_iff. right. by apply bool_decide_eq_false. }
  rewrite !E. cbn [orb]. destruct (opaque cmd); unfold heap_alloc; by eexists _, _.
Qed.

(** When a queued request is replaced it is the last one, has a single
    reference, and is of the same kind, producer, session and generation. *)
Lemma replaceable_tail_spec cmd wait a h q tail old h' :
  ring_repr a q -> replaceable_tail cmd wait a h = (Some (tail, old), h') ->
  exists q' ro, wait = false /\ q = q' ++ [old] /\ requests h !! old = Some ro /\
    command_can_replace (command ro) cmd = true /\ command_is_replaceable (kind cmd) = true /\
    h' = h /\ references ro = 1 /\
    tail = ((queue_head a + queue_count a - 1) mod capacity (config a))%nat.
Proof.
  intros Hr. unfold replaceable_tail. destruct (negb wait && _ && _) eqn:E; [|done].
  apply andb_true_iff in E as [E En]. apply andb_true_iff in E as [Ew Ek].
  destruct wait; [done|]. rewrite (ring_count a q Hr) in En.
  destruct q as [|j q' _] using rev_ind; [done|].
  destruct (queue_tail_repr a q' j j Hr) as [Hl _]. rewrite Hl. cbn [from_option id].
  destruct (requests h !! j) as [ro|] eqn:Ho; [|done].
  destruct (_ && _) eqn:E; [|done]. intros [= <- <- <-].
  apply andb_true_iff in E as [E1 E2]. apply Z.eqb_eq in E1. exists q', ro. by split_and!.
Qed.

(** ** Properties of the ring buffer *)

(** An enqueue guarded as in [actor_submit], and a dequeue. *)
Inductive RingOp := RingPush (i : rid) | RingPop.

Definition ring_op (op : RingOp) (a : MediaActor) : option rid * MediaActor :=
  match op with
  | RingPush i =>
      if (capacity (config a) <=? queue_count a)%nat then (None, a)
      else (Some i, queue_push_locked i a)
  | RingPop => queue_pop_locked a
  end.

(** The same on a list with room for [cap] elements. *)
Definition fifo_op (cap : nat) (op : RingOp) (q : list rid) : option rid * list rid :=
  match op with
  | RingPush i => if (cap <=? length q)%nat then (None, q) else (Some i, q ++ [i])
  | RingPop => match q with [] => (None, []) | i :: q' => (Some i, q') end
  end.

Fixpoint ring_ops (ops : list RingOp) (a : MediaActor) : list (option rid) * MediaActor :=
  match ops with
  | [] => ([], a)
  | op :: ops' =>
      let '(x, a1) := ring_op op a in let '(xs, a2) := ring_ops ops' a1 in (x :: xs, a2)
  end.

Fixpoint fifo_ops (cap : nat) (ops : list RingOp) (q : list rid)
    : list (option rid) * list rid :=
  match ops with
  | [] => ([], q)
  | op :: ops' =>
      let '(x, q1) := fifo_op cap op q in let '(xs, q2) := fifo_ops cap ops' q1 in (x :: xs, q2)
  end.

Lemma ring_op_refines op a q :
  ring_repr a q ->
  (ring_op op a).1 = (fifo_op (capacity (config a)) op q).1 /\
  ring_repr (ring_op op a).2 (fifo_op (capacity (config a)) op q).2 /\
  config (ring_op op a).2 = config a.
Proof.
  intros Hr. destruct op as [i|]; cbn [ring_op fifo_op].
  - rewrite (ring_count a q Hr). destruct (Nat.leb_spec (capacity (config a)) (length q)); [done|].
    split; [done|]. split; [by apply queue_push_repr | apply (queue_push_fields i a)].
  - destruct q as [|i q].
    + by rewrite queue_pop_empty.
    + destruct (queue_pop_repr i a q Hr) as (a' & -> & Hr' & Hc & _). by split_and!.
Qed.

Lemma ring_ops_refine ops a q :
  ring_repr a q ->
  (ring_ops ops a).1 = (fifo_ops (capacity (config a)) ops q).1 /\
  ring_repr (ring_ops ops a).2 (fifo_ops (capacity (config a)) ops q).2.
Proof.
  revert a q. induction ops as [|op ops IH]; intros a q Hr; [done|]. cbn [ring_ops fifo_ops].
  destruct (ring_op_refines op a q Hr) as (H1 & H2 & H3).
  destruct (ring_op op a) as [x a1], (fifo_op _ op q) as [y q1]. cbn in H1, H2, H3. subst y.
  destruct (IH a1 q1 H2) as [H4 H5]. rewrite H3 in H4, H5.
  destruct (ring_ops ops a1) as [xs a2], (fifo_ops _ ops q1) as [ys q2]. cbn in *. by subst.
Qed.

Lemma create_ring_repr c b a : media_actor_create (Some c) b = Some a -> ring_repr a [] /\ config a = c.
Proof.
  unfold media_actor_create. case_match eqn:E; [done|]. case_match; [done|]. intros [= <-].
  repeat (apply orb_false_iff in E as [E ?]). rewrite Nat.eqb_neq in *.
  split; [|done]. split; cbn.
  - apply length_replicate.
  - lia.
  - done.
  - lia.
  - intros k Hk. apply lookup_replicate_2, Nat.mod_upper_bound. lia.
Qed.

(** C9: The command queue is a bounded FIFO: on a created actor, every sequence
    of guarded enqueues and of dequeues of the ring buffer returns what a list
    with room for [capacity] elements returns, including the refusals when it
    is full and the empty dequeues, however often the positions wrap around. *)
Theorem command_queue_is_bounded_fifo (c : MediaActorConfig) (a : MediaActor) (ops : list RingOp)
    (Hcreate : media_actor_create (Some c) true = Some a) :
  (ring_ops ops a).1 = (fifo_ops (capacity c) ops []).1 /\
  queue_count (ring_ops ops a).2 = length (fifo_ops (capacity c) ops []).2.
Proof.
  destruct (create_ring_repr _ _ _ Hcreate) as [Hr <-].
  destruct (ring_ops_refine ops a [] Hr) as [H1 H2]. split; [done | by apply ring_count].
Qed.

Definition demo_actor_config : MediaActorConfig :=
  mkActorConfig 3 1 4 20 false false false true true false false.

Lemma command_queue_is_bounded_fifo_witness :
  let ops := [RingPush 1; RingPush 2; RingPop; RingPush 3; RingPush 4; RingPush 5; RingPop; RingPop]%nat in
  let a := mkActor demo_actor_config [None; None; None] 0 0 false false false false false false
             false health_zero 0 0 in
  (ring_ops ops a).1 = (fifo_ops 3 ops []).1 /\
  queue_count (ring_ops ops a).2 = length (fifo_ops 3 ops []).2.
Proof.
  intros ops a. apply (command_queue_is_bounded_fifo demo_actor_config a ops). reflexivity.
Defined.

(** Admission respects the reserved slots: on a running actor that accepts
    commands and is not stopping, a valid command for which memory is available
    is refused as full exactly when the queue has reached its capacity, or,
    unless it is one of the commands that may use the reserved slots, when only
    the reserved slots are left; a command that replaces the last queued one
    never is; an accepted command makes the queue one longer, a replacing one
    leaves its length unchanged, and a refused one leaves the queue alone. *)
Theorem submit_admission (cmd : MediaActorCommand) (wait : bool) (a : MediaActor) (h : Heap)
    (q : list rid)
    (Hring : ring_repr a q) (Hvalid : command_valid (Some cmd) = true)
    (Hrunning : running a = true) (Hopen : stopping a = false) (Haccept : accepting a = true) :
  exists i h1, request_create cmd (mkAllocations true true true) h = (Some i, h1) /\
  let '(r, a', _) := actor_submit (Some cmd) wait (mkAllocations true true true) a h in
  match r with
  | SubmitRefused st =>
      st = MEDIA_ACTOR_SUBMIT_QUEUE_FULL /\ queue a' = queue a /\ queue_count a' = queue_count a /\
      (length q = capacity (config a) \/
       command_uses_reserved_slot (kind cmd) = false /\
       (capacity (config a) - reserved_capacity (config a) <= length q)%nat)
  | SubmitQueued j =>
      j = i /\ (length q < capacity (config a))%nat /\ ring_repr a' (q ++ [i]) /\
      (command_uses_reserved_slot (kind cmd) = true \/
       (length q < capacity (config a) - reserved_capacity (config a))%nat)
  | SubmitCoalesced j old =>
      j = i /\ wait = false /\ exists q' ro, q = q' ++ [old] /\ ring_repr a' (q' ++ [i]) /\
      requests h1 !! old = Some ro /\ command_can_replace (command ro) cmd = true /\
      command_is_replaceable (kind cmd) = true
  end.
Proof.
  destruct (request_create_ok cmd h) as (i & h1 & Hc). exists i, h1. split; [done|].
  unfold actor_submit. rewrite Hvalid, Hc. cbn [negb].
  unfold submit_locked. rewrite Hrunning, Hopen, Haccept. cbn [negb orb].
  destruct (replaceable_tail cmd wait a h1) as [[[tail old]|] h2] eqn:Ht.
  - destruct (replaceable_tail_spec _ _ _ _ q _ _ _ Hring Ht) as (q' & ro & -> & -> & Hl & Hrep & Hk & -> & _ & ->).
    destruct (request_complete_locked _ _ _) as [fr h3].
    split; [done|]. split; [done|]. exists q', ro. split_and!; try done.
    by apply (proj2 (queue_tail_repr a q' old i Hring)).
  - assert (Hfull : queue_full_for cmd a = (capacity (config a) <=? length q)%nat ||
      (negb (command_uses_reserved_slot (kind cmd)) &&
       (capacity (config a) - reserved_capacity (config a) <=? length q)%nat))
      by (unfold queue_full_for; by rewrite (ring_count a q Hring)).
    rewrite Hfull. destruct (Nat.leb_spec (capacity (config a)) (length q)) as [Hf|Hf]; cbn [orb].
    { pose proof (ring_bound a q Hring). split_and!; try done. left. lia. }
    destruct (command_uses_reserved_slot (kind cmd)); cbn [negb andb].
    + split_and!; try done; [|by left]. apply queue_push_repr; [|done].
      by apply (ring_repr_ext a).
    + destruct (Nat.leb_spec (capacity (config a) - reserved_capacity (config a)) (length q)).
      * split_and!; try done. by right.
      * split_and!; try done; [|by right]. apply queue_push_repr; [|done]. by apply (ring_repr_ext a).
Qed.

Definition demo_command (k : MediaActorCommandKind) (v : Z) : MediaActorCommand :=
  mkCommand 0 (Some k) MEDIA_ACTOR_PRODUCER_UI 5 1 None None v false None false false.

(** Two ordinary commands fill the ordinary slots of three; a stop still enters. *)
Definition demo_full_actor : MediaActor :=
  mkActor demo_actor_config [Some 0%nat; Some 1%nat; None] 0 2 true false true false true true true
    health_zero 0 0.

Lemma submit_admission_witness :
  exists i h1, request_create (demo_command MEDIA_ACTOR_COMMAND_STOP_ANY 0)
                 (mkAllocations true true true) (mkHeap ∅ 2%nat [] false) = (Some i, h1) /\
  let '(r, a', _) := actor_submit (Some (demo_command MEDIA_ACTOR_COMMAND_STOP_ANY 0)) false
                       (mkAllocations true true true) demo_full_actor (mkHeap ∅ 2%nat [] false) in
  match r with
  | SubmitRefused st =>
      st = MEDIA_ACTOR_SUBMIT_QUEUE_FULL /\ queue a' = queue demo_full_actor /\
      queue_count a' = queue_count demo_full_actor /\
      (2%nat = 3%nat \/
       command_uses_reserved_slot (Some MEDIA_ACTOR_COMMAND_STOP_ANY) = false /\ (3 - 1 <= 2)%nat)
  | SubmitQueued j =>
      j = i /\ (2 < 3)%nat /\ ring_repr a' ([0; 1]%nat ++ [i]) /\
      (command_uses_reserved_slot (Some MEDIA_ACTOR_COMMAND_STOP_ANY) = true \/ (2 < 3 - 1)%nat)
  | SubmitCoalesced j old =>
      j = i /\ false = false /\ exists q' ro, [0; 1]%nat = q' ++ [old] /\ ring_repr a' (q' ++ [i]) /\
      requests h1 !! old = Some ro /\
      command_can_replace (command ro) (demo_command MEDIA_ACTOR_COMMAND_STOP_ANY 0) = true /\
      command_is_replaceable (Some MEDIA_ACTOR_COMMAND_STOP_ANY) = true
  end.
Proof.
  apply (submit_admission (demo_command MEDIA_ACTOR_COMMAND_STOP_ANY 0) false demo_full_actor
           (mkHeap ∅ 2%nat [] false) [0; 1]%nat).
  - split; cbn; try lia. intros k Hk. destruct k as [|[|[|k]]]; [reflexivity..|lia].
  - reflexivity.
  - reflexivity.
  - reflexivity.
  - reflexivity.
Defined.
