(* ===== verification/MediaActorSystem.v ===== *)
(** * The media actor: threads and steps (player/core/media_actor.c)

    The worker thread, the submitting threads and the threads that start and
    stop the actor, as a step relation: one rule per critical section.  Calls of
    [media_actor_start] and [media_actor_destroy] are made one at a time; every
    other call is made by any number of threads. *)

From S2P Require Import Prelude MediaActor.

(** ** The system *)

(** Where the worker thread is. *)
Inductive Worker :=
| WorkerNone
| WorkerCreated
| WorkerInitializing
| WorkerInitFailed
| WorkerLoop (processed : nat)
| WorkerExecuting (i : rid) (processed : nat)
| WorkerPump (processed : nat)
| WorkerFinishing
| WorkerFinalizing
| WorkerExited.

(** Where the call of [media_actor_start] is, if there is one. *)
Inductive Starter := StarterNone | StarterBegun | StarterCreated.

(** How a command ended. *)
Inductive Ending := EndedByWorker | EndedCoalesced | EndedRejected | EndedDirect.

#[export] Instance Worker_eq_dec : EqDecision Worker.
Proof. solve_decision. Defined.
#[export] Instance Starter_eq_dec : EqDecision Starter.
Proof. solve_decision. Defined.
#[export] Instance Ending_eq_dec : EqDecision Ending.
Proof. solve_decision. Defined.

(** [waiters] are the threads inside the wait of [media_actor_submit_wait], by
    the request each holds a reference to; [directs] the command ids of the
    direct submits the worker is executing, innermost first.  [issued] counts
    the command ids handed out and [history] lists the commands that ended:
    both are only observed, never read by the program. *)
Record System := mkSystem {
  actor : MediaActor;
  heap : Heap;
  worker : Worker;
  starter : Starter;
  waiters : list rid;
  directs : list Z;
  issued : Z;
  history : list (Z * Ending)
}.
#[export] Instance eta_system : Eta System := fun s =>
  mkSystem (actor s) (heap s) (worker s) (starter s) (waiters s) (directs s) (issued s) (history s).

Definition system_init (a : MediaActor) : System :=
  mkSystem a heap_empty WorkerNone StarterNone [] [] 0 [].

(** ** Steps *)

Definition id_of (h : Heap) (i : rid) : Z :=
  match requests h !! i with Some r => command_id (command r) | None => 0 end.

(** The requests the ring holds, oldest first. *)
Definition ring_contents (a : MediaActor) : list rid :=
  omap (fun k => default None (queue a !! ((queue_head a + k) mod capacity (config a))%nat))
    (seq 0 (queue_count a)).

(** [media_actor_submit_async] and [media_actor_submit_wait] up to the wait. *)
(* src: source/player/core/media_actor.c 884-894 media_actor_submit_async, media_actor_submit_wait *)
Definition submit_step (cmd : option MediaActorCommand) (wait : bool) (m : Allocations) (s : System)
    : System :=
  let '(r, a, h) := actor_submit cmd wait m (actor s) (heap s) in
  let s1 := { s with actor := a; heap := h } in
  match r with
  | SubmitRefused _ => s1
  | SubmitCoalesced _ old =>
      { s1 with issued ::= Z.succ;
                history ::= fun l => l ++ [(id_of (heap s) old, EndedCoalesced)] }
  | SubmitQueued i =>
      { s1 with issued ::= Z.succ; waiters ::= fun l => if wait then i :: l else l }
  end.

(** Rejecting all pending requests. *)
Definition rejected (s : System) : list (Z * Ending) :=
  map (fun i => (id_of (heap s) i, EndedRejected)) (ring_contents (actor s)).

Definition reject_step (s : System) : System :=
  let '(a, h) := reject_and_free (actor s) (heap s) in
  { s with actor := a; heap := h; history ::= fun l => l ++ rejected s }.

(** The end of the initialize callback. *)
(* src: source/player/core/media_actor.c 384-391 actor_worker_run *)
Definition initialized_step (result : bool) (now : Z) (s : System) : System :=
  let '(ok, a, h) := actor_initialize_worker result now (actor s) (heap s) in
  { s with actor := a; heap := h;
           worker := (if (ok : bool) then WorkerLoop 0 else WorkerInitFailed);
           history ::= fun l => if (ok : bool) then l else l ++ rejected s }.

(** One round of the command loop, [processed] commands into the burst. *)
(* src: source/player/core/media_actor.c 392-431 actor_worker_run *)
Definition loop_step (processed : nat) (now : Z) (s : System) : System :=
  if (max_command_burst (config (actor s)) <=? processed)%nat
  then { s with worker := WorkerPump processed }
  else
    let '(r, a, h) := worker_fetch_locked now (actor s) (heap s) in
    { s with actor := a; heap := h;
             worker := match r with
                       | FetchStopping => WorkerFinishing
                       | FetchDisabled | FetchEmpty => WorkerPump processed
                       | FetchRequest i => WorkerExecuting i processed
                       end }.

(** The end of a command: the callbacks answered [valid] and [ok]. *)
Definition executed_step (i : rid) (processed : nat) (valid ok : bool) (now : Z) (s : System)
    : System :=
  let '(a, h) := actor_execute_request i valid ok now (actor s) (heap s) in
  { s with actor := a; heap := h; worker := WorkerLoop (S processed);
           history ::= fun l => l ++ [(id_of (heap s) i, EndedByWorker)] }.

(** After the event pump, or the idle wait, the outer loop starts over. *)
(* src: source/player/core/media_actor.c 433-450 actor_worker_run *)
Definition pump_step (now : Z) (s : System) : System :=
  { s with actor -> last_heartbeat_ms := now; worker := WorkerLoop 0 }.

(** The wait of [media_actor_submit_wait] ends: the status it returns. *)
Definition wait_finish_step (i : rid) (s : System) : MediaActorSubmitStatus * System :=
  let '(st, a, h) := wait_finish_locked i (actor s) (heap s) in
  (st, { s with actor := a; heap := h; waiters ::= fun l => filter (fun j => j <> i) l }).

(** Whether code runs on the worker's thread: in a callback. *)
Definition in_callback (w : Worker) : bool :=
  match w with
  | WorkerInitializing | WorkerExecuting _ _ | WorkerPump _ | WorkerFinalizing => true
  | _ => false
  end.

(* src: source/player/core/media_actor.c 384-482 actor_worker_run, actor_thread_main *)
Inductive actor_step : System -> System -> Prop :=
(** submitting threads *)
| step_submit cmd wait m s :
    actor_step s (submit_step cmd wait m s)
| step_wait_finish i s :
    i ∈ waiters s ->
    actor_step s (wait_finish_step i s).2
| step_direct_begin s :
    in_callback (worker s) = true ->
    actor_step s
      match direct_begin_locked (actor s) with
      | (inl id, a) => { s with actor := a; issued ::= Z.succ; directs ::= fun l => id :: l }
      | (inr _, a) => { s with actor := a }
      end
| step_direct_finish id ids valid ok now s :
    directs s = id :: ids ->
    actor_step s
      { s with actor := (direct_finish_locked id valid ok now (actor s)).2; directs := ids;
               history ::= fun l => l ++ [(id, EndedDirect)] }
(** starting, activating, quiescing and stopping *)
| step_start now s :
    starter s = StarterNone ->
    actor_step s
      match start_locked now (actor s) with
      | (Some _, a) => { s with actor := a }
      | (None, a) => { s with actor := a; starter := StarterBegun }
      end
| step_thread_created s :
    starter s = StarterBegun -> worker s = WorkerNone ->
    actor_step s { s with starter := StarterCreated; worker := WorkerCreated }
| step_start_failed s :
    starter s = StarterBegun ->
    actor_step s { s with actor := (start_finish_locked false (actor s)).2; starter := StarterNone }
| step_start_finished s :
    starter s = StarterCreated ->
    actor_step s { s with actor := (start_finish_locked true (actor s)).2; starter := StarterNone }
| step_activate s :
    actor_step s { s with actor := (media_actor_activate (actor s)).2 }
| step_quiesce s :
    actor_step s { s with actor := media_actor_quiesce (actor s) }
| step_stop_self s :
    in_callback (worker s) = true ->
    actor_step s { s with actor := stop_self_locked (actor s) }
| step_stop_begin s :
    join_in_progress (actor s) = false ->
    actor_step s { s with actor := (stop_begin_locked (actor s)).2 }
| step_stop_finish s :
    join_in_progress (actor s) = true -> worker s = WorkerExited ->
    actor_step s { s with actor := stop_finish_locked (actor s); worker := WorkerNone }
| step_destroy s :
    thread_started (actor s) = false -> starter s = StarterNone -> worker s = WorkerNone ->
    actor_step s (reject_step s)
(** the worker *)
| step_thread_main s :
    worker s = WorkerCreated ->
    actor_step s { s with actor -> worker_identity_valid := true; worker := WorkerInitializing }
| step_initialized result now s :
    worker s = WorkerInitializing -> directs s = [] ->
    actor_step s (initialized_step result now s)
| step_init_failed s :
    worker s = WorkerInitFailed ->
    actor_step s { s with actor -> worker_identity_valid := false; worker := WorkerExited }
| step_loop processed now s :
    worker s = WorkerLoop processed ->
    actor_step s (loop_step processed now s)
| step_executed i processed valid ok now s :
    worker s = WorkerExecuting i processed -> directs s = [] ->
    actor_step s (executed_step i processed valid ok now s)
| step_pump processed now s :
    worker s = WorkerPump processed -> directs s = [] ->
    actor_step s (pump_step now s)
| step_finish_reject s :
    worker s = WorkerFinishing ->
    actor_step s { reject_step s with worker := WorkerFinalizing }
| step_finalized now s :
    worker s = WorkerFinalizing -> directs s = [] ->
    actor_step s { s with actor := finish_worker_locked now (actor s); worker := WorkerExited }.

(** The states of an actor created from [c]. *)
Definition reachable (c : MediaActorConfig) (s : System) : Prop :=
  exists a, media_actor_create (Some c) true = Some a /\ rtc actor_step (system_init a) s.

(** ** Invariants *)

(** The request the worker executes. *)
Definition executing (w : Worker) : list rid :=
  match w with WorkerExecuting i _ => [i] | _ => [] end.

(** The heap when the requests [op] still have to be completed and threads wait
    for the requests [ws]: exactly these are live, each has one reference for
    each, and it is completed exactly when it is no longer open. *)
Record mem_ok (op ws : list rid) (h : Heap) : Prop := {
  mo_open : NoDup op;
  mo_waiters : NoDup ws;
  mo_fault : heap_fault h = false;
  mo_live i : is_Some (requests h !! i) <-> i ∈ op \/ i ∈ ws;
  mo_fresh i : is_Some (requests h !! i) -> (i < next_rid h)%nat;
  mo_refs i r : requests h !! i = Some r ->
    references r = (if decide (i ∈ op) then 1 else 0) + (if decide (i ∈ ws) then 1 else 0);
  mo_completed i r : requests h !! i = Some r -> completed r = negb (bool_decide (i ∈ op))
}.

(** The system with the queue [q]: executing and queued requests are open. *)
Definition memory_inv (q : list rid) (s : System) : Prop :=
  ring_repr (actor s) q /\ mem_ok (executing (worker s) ++ q) (waiters s) (heap s).

(** Retains and releases of an opaque object, and the live requests that hold it. *)
Definition retains (o : Z) (l : list OpaqueCall) : nat :=
  length (filter (fun c => c = Retain o) l).
Definition releases (o : Z) (l : list OpaqueCall) : nat :=
  length (filter (fun c => c = Release o) l).
Definition holds (o : Z) (r : MediaActorRequest) : Prop :=
  opaque_retained r = true /\ opaque (command r) = Some o.
Definition holders (o : Z) (m : gmap rid MediaActorRequest) : nat :=
  size (filter (fun kv => holds o kv.2) m).

(** Every retained object is still held by a live request or was released. *)
Record opaque_ok (h : Heap) : Prop := {
  oo_release i r : requests h !! i = Some r -> opaque_retained r = true ->
    opaque_release (command r) = true /\ is_Some (opaque (command r));
  oo_balance o : retains o (opaque_calls h) = (releases o (opaque_calls h) + holders o (requests h))%nat
}.

(** ** Lemmas: completing and freeing requests *)

(** What completing a request does to it. *)
Definition done_request (st : MediaActorSubmitStatus) (r : MediaActorRequest) : MediaActorRequest :=
  { r with completed := true; completion_status := st;
           references ::= fun n => if 0 <? n then n - 1 else n }.

(** [h'] is [h] with the requests [l] completed and those freed that had a
    single reference. *)
Definition completes (st : MediaActorSubmitStatus) (l : list rid) (h h' : Heap) : Prop :=
  heap_fault h' = heap_fault h /\ next_rid h' = next_rid h /\
  forall j, requests h' !! j =
    if decide (j ∈ l)
    then r ← requests h !! j; if references r =? 1 then None else Some (done_request st r)
    else requests h !! j.

Lemma heap_update_lookup i f h r :
  requests h !! i = Some r ->
  requests (heap_update i f h) = <[i := f r]> (requests h) /\
  heap_fault (heap_update i f h) = heap_fault h /\ next_rid (heap_update i f h) = next_rid h /\
  opaque_calls (heap_update i f h) = opaque_calls h.
Proof. intros Hr. unfold heap_update. rewrite Hr. by rproj. Qed.

Lemma request_complete_spec i st h r :
  requests h !! i = Some r -> 1 <= references r ->
  exists h', request_complete_locked i st h = ((if references r =? 1 then Some i else None), h') /\
    requests h' = <[i := done_request st r]> (requests h) /\ heap_fault h' = heap_fault h /\
    next_rid h' = next_rid h /\ opaque_calls h' = opaque_calls h.
Proof.
  intros Hr Hn. destruct (heap_update_lookup i (done_request st) h r Hr) as (H1 & H2 & H3 & H4).
  exists (heap_update i (done_request st) h). split; [|by split_and!].
  unfold request_complete_locked. fold (done_request st).
  change (heap_update i (fun r0 => _) h) with (heap_update i (done_request st) h).
  cbv zeta. rewrite H1, lookup_insert_eq. f_equal. unfold done_request, upd. cbn.
  destruct (Z.ltb_spec 0 (references r)); [|lia].
  destruct (Z.eqb_spec (references r) 1), (Z.eqb_spec (references r - 1) 0); (done || lia).
Qed.

(** *** Freeing *)

Lemma request_free_spec i h r :
  requests h !! i = Some r ->
  requests (request_free (Some i) h) = delete i (requests h) /\
  heap_fault (request_free (Some i) h) = heap_fault h /\
  next_rid (request_free (Some i) h) = next_rid h.
Proof. intros Hr. unfold request_free. rewrite Hr. cbv zeta. by rproj. Qed.

Lemma request_free_list_spec l h :
  NoDup l -> (forall i, i ∈ l -> is_Some (requests h !! i)) ->
  let h' := request_free_list l h in
  (forall j, requests h' !! j = if decide (j ∈ l) then None else requests h !! j) /\
  heap_fault h' = heap_fault h /\ next_rid h' = next_rid h.
Proof.
  cbv zeta. intros Hnd. revert h. induction Hnd as [|i l Hi Hnd IH]; intros h Hl.
  { split; [|done]. intros j. by rewrite decide_False by apply not_elem_of_nil. }
  cbn [request_free_list foldl]. fold (request_free_list l (request_free (Some i) h)).
  destruct (Hl i) as [r Hr]; [by apply elem_of_cons; left|].
  destruct (request_free_spec i h r Hr) as (E1 & E2 & E3).
  destruct (IH (request_free (Some i) h)) as (F1 & F2 & F3).
  { intros j Hj. rewrite E1, lookup_delete_ne by set_solver. apply Hl. set_solver. }
  rewrite F2, F3, E2, E3. split; [|done]. intros j. rewrite F1, E1.
  destruct (decide (j = i)) as [->|Hne].
  - rewrite decide_False by done. rewrite decide_True by set_solver. by rewrite lookup_delete_eq.
  - rewrite lookup_delete_ne by done. destruct (decide (j ∈ l)).
    + by rewrite decide_True by set_solver.
    + by rewrite decide_False by set_solver.
Qed.

Lemma complete_and_free_spec i st h r :
  requests h !! i = Some r -> 1 <= references r ->
  completes st [i] h (let '(f, h1) := request_complete_locked i st h in request_free f h1).
Proof.
  intros Hr Hn. destruct (request_complete_spec i st h r Hr Hn) as (h1 & -> & H1 & H2 & H3 & _).
  destruct (Z.eqb_spec (references r) 1) as [E|E].
  - destruct (request_free_spec i h1 (done_request st r)) as (F1 & F2 & F3);
      [by rewrite H1, lookup_insert_eq|].
    split_and!; [congruence..|]. intros j. rewrite F1, H1.
    destruct (decide (j = i)) as [->|Hne].
    + rewrite lookup_delete_eq, decide_True by set_solver. rewrite Hr. cbn. by rewrite E.
    + rewrite lookup_delete_ne, lookup_insert_ne, decide_False by set_solver. done.
  - split_and!; [done..|]. intros j. cbn [request_free]. rewrite H1.
    destruct (decide (j = i)) as [->|Hne].
    + rewrite lookup_insert_eq, decide_True by set_solver. rewrite Hr. cbn.
      by rewrite (proj2 (Z.eqb_neq _ _) E).
    + rewrite lookup_insert_ne, decide_False by set_solver. done.
Qed.

(** *** Rejecting the pending requests *)

Lemma filter_ext_in {A} (f g : A -> bool) (l : list A) :
  (forall x, x ∈ l -> f x = g x) -> filter f l = filter g l.
Proof.
  induction l as [|x l IH]; intros H; [done|]. rewrite !filter_cons, (H x) by set_solver.
  case_decide; by rewrite IH by set_solver.
Qed.

(** The request has a single reference. *)
Definition single (h : Heap) (i : rid) : bool :=
  match requests h !! i with Some r => references r =? 1 | None => false end.

(** What a round of the rejection leaves alone. *)
Definition same_control (a a' : MediaActor) : Prop :=
  config a' = config a /\ running a' = running a /\ stopping a' = stopping a /\
  accepting a' = accepting a /\ thread_started a' = thread_started a /\
  join_in_progress a' = join_in_progress a /\ dispatch_requested a' = dispatch_requested a /\
  last_command_id (health a') = last_command_id (health a) /\
  current_command_id (health a') = current_command_id (health a).

Lemma same_control_trans a b c : same_control a b -> same_control b c -> same_control a c.
Proof.
  intros (? & ? & ? & ? & ? & ? & ? & ? & ?) (? & ? & ? & ? & ? & ? & ? & ? & ?).
  unfold same_control. split_and!; congruence.
Qed.

Lemma queue_pop_control i a q :
  ring_repr a (i :: q) ->
  exists a', queue_pop_locked a = (Some i, a') /\ ring_repr a' q /\ same_control a a'.
Proof.
  intros Hr. destruct (queue_pop_repr i a q Hr) as (a' & Hp & Hr' & _). exists a'.
  split_and!; [done..|]. unfold queue_pop_locked in Hp. case_match; [done|].
  injection Hp as _ <-. unfold same_control. by rproj.
Qed.

Lemma reject_pending_spec q a h fl :
  ring_repr a q -> NoDup q ->
  (forall i, i ∈ q -> exists r, requests h !! i = Some r /\ 1 <= references r) ->
  exists a' h', reject_pending (length q) fl a h = (reverse (filter (single h) q) ++ fl, a', h') /\
    ring_repr a' [] /\ same_control a a' /\
    heap_fault h' = heap_fault h /\ next_rid h' = next_rid h /\ opaque_calls h' = opaque_calls h /\
    forall j, requests h' !! j =
      if decide (j ∈ q) then done_request MEDIA_ACTOR_SUBMIT_SHUTTING_DOWN <$> requests h !! j
      else requests h !! j.
Proof.
  revert a h fl. induction q as [|i q IH]; intros a h fl Hr Hnd Hl.
  { exists a, h. by split_and!. }
  apply NoDup_cons in Hnd as [Hi Hnd]. cbn [length reject_pending].
  destruct (queue_pop_control i a q Hr) as (a1 & -> & Hr1 & Hc1).
  destruct (Hl i) as (r & Hri & Hn); [set_solver|].
  destruct (request_complete_spec i MEDIA_ACTOR_SUBMIT_SHUTTING_DOWN h r Hri Hn)
    as (h1 & -> & H1 & H2 & H3 & H4).
  set (a2 := { a1 with health -> rejected_stopping ::= inc }).
  assert (Hr2 : ring_repr a2 q) by (by apply (ring_repr_ext a1)).
  assert (Hother : forall j, j ∈ q -> requests h1 !! j = requests h !! j).
  { intros j Hj. rewrite H1, lookup_insert_ne; [done|]. intros ->. done. }
  set (fl' := match (if references r =? 1 then Some i else None) with Some f => f :: fl | None => fl end).
  destruct (IH a2 h1 fl' Hr2 Hnd) as (a' & h' & Hrej & Hr' & Hc' & F1 & F2 & F3 & F4).
  { intros j Hj. rewrite Hother by done. apply Hl. set_solver. }
  exists a', h'. split_and!; [| done | | congruence | congruence | congruence |].
  - rewrite Hrej. do 2 f_equal.
    assert (Hf : filter (single h1) q = filter (single h) q).
    { apply filter_ext_in. intros j Hj. unfold single. by rewrite Hother. }
    rewrite Hf. unfold fl'. rewrite filter_cons.
    assert (Hsi : single h i = (references r =? 1)) by (unfold single; by rewrite Hri).
    destruct (references r =? 1).
    + rewrite decide_True by by rewrite Hsi. by rewrite reverse_cons, <- app_assoc.
    + rewrite decide_False; [done|]. rewrite Hsi. by intros [].
  - eapply same_control_trans; [exact Hc1|]. by eapply same_control_trans.
  - intros j. rewrite F4. destruct (decide (j = i)) as [->|Hne].
    + rewrite decide_False by done. rewrite decide_True by set_solver.
      by rewrite H1, lookup_insert_eq, Hri.
    + rewrite H1, lookup_insert_ne by done. destruct (decide (j ∈ q)).
      * by rewrite decide_True by set_solver.
      * by rewrite decide_False by set_solver.
Qed.

Lemma reject_and_free_spec q a h :
  ring_repr a q -> NoDup q ->
  (forall i, i ∈ q -> exists r, requests h !! i = Some r /\ 1 <= references r) ->
  exists a' h', reject_and_free a h = (a', h') /\ ring_repr a' [] /\ same_control a a' /\
    completes MEDIA_ACTOR_SUBMIT_SHUTTING_DOWN q h h'.
Proof.
  intros Hr Hnd Hl. unfold reject_and_free, actor_reject_pending_locked.
  rewrite (ring_count a q Hr).
  destruct (reject_pending_spec q a h [] Hr Hnd Hl) as (a' & h1 & -> & Hr' & Hc & F1 & F2 & _ & F4).
  rewrite app_nil_r. eexists _, _. split; [reflexivity|]. split_and!; [done..|].
  assert (Hin : forall j, j ∈ reverse (filter (single h) q) <-> j ∈ q /\ single h j = true).
  { intros j. rewrite elem_of_reverse, list_elem_of_filter. rewrite Is_true_true. tauto. }
  destruct (request_free_list_spec (reverse (filter (single h) q)) h1) as (G1 & G2 & G3).
  { rewrite reverse_Permutation. by apply NoDup_filter. }
  { intros j [Hj _]%Hin. rewrite F4, decide_True by done.
    destruct (Hl j Hj) as (r & -> & _). by eexists. }
  unfold completes. rewrite G2, G3. split_and!; [done..|]. intros j. rewrite G1, F4.
  destruct (decide (j ∈ q)) as [Hj|Hj].
  - destruct (Hl j Hj) as (r & Hr0 & _). rewrite Hr0. cbn.
    assert (Hs : single h j = (references r =? 1)) by (unfold single; by rewrite Hr0).
    destruct (references r =? 1).
    + by rewrite decide_True by (apply Hin; by split).
    + rewrite decide_False; [done|]. intros [_ ?]%Hin. congruence.
  - rewrite decide_False; [done|]. by intros [? _]%Hin.
Qed.

(** *** The heap invariant *)

Lemma mem_ok_perm op op' ws h : op ≡ₚ op' -> mem_ok op ws h -> mem_ok op' ws h.
Proof.
  intros Hp [H1 H2 H3 H4 H5 H6 H7].
  assert (Hin : forall i, i ∈ op <-> i ∈ op') by (intros i; by rewrite Hp).
  split; try done.
  - by rewrite <- Hp.
  - intros i. by rewrite H4, Hin.
  - intros i r Hr. rewrite (H6 i r Hr). f_equal. destruct (decide (i ∈ op)) as [H|H].
    + by rewrite decide_True by by apply Hin.
    + rewrite decide_False; [done|]. by rewrite <- Hin.
  - intros i r Hr. rewrite (H7 i r Hr). f_equal. apply bool_decide_ext, Hin.
Qed.

(** A request that is open has a reference. *)
Lemma mem_ok_open_refs op ws h i :
  mem_ok op ws h -> i ∈ op -> exists r, requests h !! i = Some r /\ 1 <= references r /\
    references r = if decide (i ∈ ws) then 2 else 1.
Proof.
  intros Hm Hi. destruct (proj2 (mo_live _ _ _ Hm i)) as [r Hr]; [by left|].
  exists r. pose proof (mo_refs _ _ _ Hm i r Hr) as Hn. rewrite decide_True in Hn by done.
  split; [done|]. case_decide; lia.
Qed.

Lemma mem_ok_completes op op' ws st l h h' :
  op ≡ₚ l ++ op' -> mem_ok op ws h -> completes st l h h' -> mem_ok op' ws h'.
Proof.
  intros Hp Hm0 (C1 & C2 & C3). pose proof (mem_ok_perm _ _ _ _ Hp Hm0) as Hm. clear Hm0 Hp op.
  pose proof (mo_open _ _ _ Hm) as Hnd. apply NoDup_app in Hnd as (Hnl & Hdisj & Hnd).
  assert (Hdone : forall i r, i ∈ l -> requests h !! i = Some r ->
    (references r =? 1) = bool_decide (i ∉ ws)).
  { intros i r Hi Hr. destruct (mem_ok_open_refs _ _ _ i Hm) as (r' & Hr' & _ & Hn); [set_solver|].
    rewrite Hr in Hr'. injection Hr' as <-. rewrite Hn. case_decide; by case_bool_decide. }
  assert (Hlook : forall i r, requests h' !! i = Some r ->
    (i ∈ l /\ i ∈ ws /\ exists r0, requests h !! i = Some r0 /\ r = done_request st r0 /\ references r0 = 2) \/
    (i ∉ l /\ requests h !! i = Some r)).
  { intros i r Hr. rewrite C3 in Hr. destruct (decide (i ∈ l)) as [Hi|Hi]; [left|by right].
    destruct (mem_ok_open_refs _ _ _ i Hm) as (r0 & Hr0 & _ & Hn); [set_solver|].
    rewrite Hr0 in Hr. cbn in Hr. rewrite (Hdone i r0 Hi Hr0) in Hr.
    case_bool_decide as Hw; [done|]. rewrite decide_True in Hn by done.
    injection Hr as <-. split_and!; [done..|]. by exists r0. }
  split.
  - done.
  - by apply (mo_waiters _ _ _ Hm).
  - rewrite C1. by apply (mo_fault _ _ _ Hm).
  - intros i. split.
    + intros [r Hr]. destruct (Hlook i r Hr) as [(_ & ? & _)|[Hi Hr']]; [by right|].
      destruct (proj1 (mo_live _ _ _ Hm i)) as [H|H]; [by eexists | | by right].
      apply elem_of_app in H as [?|?]; [done | by left].
    + intros Hi. rewrite C3. destruct (decide (i ∈ l)) as [Hl|Hl].
      * assert (Hw : i ∈ ws) by (destruct Hi as [Hi|?]; [by destruct (Hdisj i Hl) | done]).
        destruct (mem_ok_open_refs _ _ _ i Hm) as (r0 & Hr0 & _ & Hn); [set_solver|].
        rewrite Hr0. cbn. rewrite (Hdone i r0 Hl Hr0). rewrite bool_decide_eq_false_2; [by eexists|].
        by intros ?.
      * apply (mo_live _ _ _ Hm). set_solver.
  - intros i [r Hr]. rewrite C2. apply (mo_fresh _ _ _ Hm).
    destruct (Hlook i r Hr) as [(_ & _ & r0 & ? & _)|[_ ?]]; by eexists.
  - intros i r Hr. destruct (Hlook i r Hr) as [(Hl & Hw & r0 & Hr0 & -> & Hn)|[Hl Hr0]].
    + rewrite (decide_True (P := i ∈ ws)) by done. rewrite decide_False by by apply Hdisj.
      unfold done_request, upd. cbn. by rewrite Hn.
    + rewrite (mo_refs _ _ _ Hm i r Hr0). f_equal. destruct (decide (i ∈ op')).
      * by rewrite decide_True by set_solver.
      * by rewrite decide_False by set_solver.
  - intros i r Hr. destruct (Hlook i r Hr) as [(Hl & Hw & r0 & Hr0 & -> & Hn)|[Hl Hr0]].
    + unfold done_request, upd. cbn. rewrite bool_decide_eq_false_2; [done|]. by apply Hdisj.
    + rewrite (mo_completed _ _ _ Hm i r Hr0). f_equal. apply bool_decide_ext. set_solver.
Qed.

(** A waiting thread gives its reference back. *)
Lemma mem_ok_wait_finish op ws h i a :
  mem_ok op ws h -> i ∈ ws ->
  exists r, requests h !! i = Some r /\
  let '(st, a', h') := wait_finish_locked i a h in
  st = (if completed r then completion_status r else MEDIA_ACTOR_SUBMIT_TIMEOUT) /\
  same_control a a' /\ queue a' = queue a /\ queue_head a' = queue_head a /\
  queue_count a' = queue_count a /\
  mem_ok op (filter (fun j => j <> i) ws) h' /\
  (forall j, j <> i -> requests h' !! j = requests h !! j) /\
  (i ∈ op -> command <$> requests h' !! i = Some (command r)).
Proof.
  intros Hm Hi. destruct (proj2 (mo_live _ _ _ Hm i)) as [r Hr]; [by right|]. exists r. split; [done|].
  unfold wait_finish_locked. rewrite Hr.
  pose proof (mo_refs _ _ _ Hm i r Hr) as Hn. rewrite (decide_True (P := i ∈ ws)) in Hn by done.
  set (p := if completed r then (completion_status r, a) else _).
  assert (Hp : p.1 = (if completed r then completion_status r else MEDIA_ACTOR_SUBMIT_TIMEOUT) /\
    same_control a p.2 /\ queue p.2 = queue a /\ queue_head p.2 = queue_head a /\
    queue_count p.2 = queue_count a).
  { unfold p. destruct (completed r); by split_and!. }
  destruct p as [st a1]. cbn [fst snd] in Hp. destruct Hp as (Hp1 & Hp2 & Hp3 & Hp4 & Hp5).
  assert (Hpos : 0 <? references r = true) by (apply Z.ltb_lt; case_decide; lia). rewrite Hpos.
  set (h1 := heap_update i _ h).
  destruct (heap_update_lookup i (fun r0 => { r0 with references := references r - 1 }) h r Hr)
    as (H1 & H2 & H3 & _). fold h1 in H1, H2, H3.
  assert (Hws : forall j, j ∈ filter (fun j => j <> i) ws <-> j <> i /\ j ∈ ws)
    by (intros j; by rewrite list_elem_of_filter).
  assert (Hndw : NoDup (filter (fun j => j <> i) ws)) by (apply NoDup_filter, (mo_waiters _ _ _ Hm)).
  destruct (decide (i ∈ op)) as [Hop|Hop].
  - rewrite (proj2 (Z.eqb_neq (references r - 1) 0)) by lia.
    split_and!; try done; [| |intros _; by rewrite H1, lookup_insert_eq].
    2: { intros j Hj. by rewrite H1, lookup_insert_ne. }
    destruct Hm as [M1 M2 M3 M4 M5 M6 M7]. split; try done; try congruence.
    + intros j. rewrite H1, Hws. destruct (decide (j = i)) as [->|Hj].
      * rewrite lookup_insert_eq. split; [by left | by eexists].
      * rewrite lookup_insert_ne, M4 by done. tauto.
    + intros j. rewrite H1, H3. destruct (decide (j = i)) as [->|Hj]; [|rewrite lookup_insert_ne by done; apply M5].
      intros _. apply M5. by eexists.
    + intros j r' Hr'. rewrite H1 in Hr'. destruct (decide (j = i)) as [->|Hj].
      * rewrite lookup_insert_eq in Hr'. injection Hr' as <-. unfold upd. cbn.
        rewrite decide_True by done. rewrite decide_False by (rewrite Hws; tauto). lia.
      * rewrite lookup_insert_ne in Hr' by done. rewrite (M6 j r' Hr'). f_equal.
        destruct (decide (j ∈ ws)); [by rewrite decide_True by (by apply Hws)|].
        rewrite decide_False; [done|]. rewrite Hws. tauto.
    + intros j r' Hr'. rewrite H1 in Hr'. destruct (decide (j = i)) as [->|Hj].
      * rewrite lookup_insert_eq in Hr'. injection Hr' as <-. exact (M7 i r Hr).
      * rewrite lookup_insert_ne in Hr' by done. by apply M7.
  - rewrite (proj2 (Z.eqb_eq (references r - 1) 0)) by lia.
    destruct (request_free_spec i h1 { r with references := references r - 1 }) as (F1 & F2 & F3);
      [by rewrite H1, lookup_insert_eq|].
    assert (Hl : forall j, requests (request_free (Some i) h1) !! j =
              if decide (j = i) then None else requests h !! j).
    { intros j. rewrite F1, H1. destruct (decide (j = i)) as [->|Hj]; [by rewrite lookup_delete_eq|].
      by rewrite lookup_delete_ne, lookup_insert_ne. }
    split_and!; try done; [|intros j Hj; by rewrite Hl, decide_False].
    destruct Hm as [M1 M2 M3 M4 M5 M6 M7]. split; try done; try congruence.
    + intros j. rewrite Hl, Hws. destruct (decide (j = i)) as [->|Hj].
      * split; [by intros [? ?] | intros [?|[? _]]; done].
      * rewrite M4. tauto.
    + intros j. rewrite Hl, F3, H3. case_decide; [by intros [? ?] | apply M5].
    + intros j r'. rewrite Hl. case_decide as Hj; [done|]. intros Hr'. rewrite (M6 j r' Hr'). f_equal.
      destruct (decide (j ∈ ws)); [by rewrite decide_True by (by apply Hws)|].
      rewrite decide_False; [done|]. rewrite Hws. tauto.
    + intros j r'. rewrite Hl. case_decide; [done|]. apply M7.
Qed.

Lemma mem_ok_ext op ws h h' :
  mem_ok op ws h -> requests h' = requests h -> heap_fault h' = heap_fault h ->
  (next_rid h <= next_rid h')%nat -> mem_ok op ws h'.
Proof.
  intros [M1 M2 M3 M4 M5 M6 M7] Hr Hf Hn. split; rewrite ?Hr, ?Hf; try done.
  intros i Hi. specialize (M5 i Hi). lia.
Qed.

(** A fresh request enters the queue, and its submitter may wait for it. *)
Lemma mem_ok_insert op ws h h' i r (wait : bool) :
  mem_ok op ws h -> i = next_rid h -> next_rid h' = S (next_rid h) ->
  requests h' = <[i := r]> (requests h) -> heap_fault h' = heap_fault h ->
  references r = (if wait then 2 else 1) -> completed r = false ->
  mem_ok (op ++ [i]) (if wait then i :: ws else ws) h'.
Proof.
  intros Hm -> Hn Hr Hf Hrefs Hcomp.
  assert (Hfresh : requests h !! next_rid h = None).
  { apply eq_None_not_Some. intros H. apply (mo_fresh _ _ _ Hm) in H. lia. }
  assert (Hno : next_rid h ∉ op /\ next_rid h ∉ ws).
  { split; intros H; assert (is_Some (requests h !! next_rid h)) as [? ?]
      by (apply (mo_live _ _ _ Hm); by auto); congruence. }
  destruct Hno as [Ho Hw]. destruct Hm as [M1 M2 M3 M4 M5 M6 M7].
  assert (Hws : forall j, j ∈ (if wait then next_rid h :: ws else ws) <->
                          (wait = true /\ j = next_rid h) \/ j ∈ ws).
  { intros j. destruct wait; rewrite ?elem_of_cons; naive_solver. }
  split.
  - apply NoDup_app. split_and!; [done | set_solver | by apply NoDup_singleton].
  - destruct wait; [by constructor | done].
  - congruence.
  - intros j. rewrite Hr, Hws, elem_of_app, list_elem_of_singleton.
    destruct (decide (j = next_rid h)) as [->|Hj].
    + rewrite lookup_insert_eq. split; [by auto | by eexists].
    + rewrite lookup_insert_ne, M4 by done. naive_solver.
  - intros j. rewrite Hr, Hn. destruct (decide (j = next_rid h)) as [->|Hj]; [lia|].
    rewrite lookup_insert_ne by done. intros Hs. specialize (M5 j Hs). lia.
  - intros j r'. rewrite Hr. destruct (decide (j = next_rid h)) as [->|Hj].
    + rewrite lookup_insert_eq. intros [= <-]. rewrite Hrefs, decide_True by set_solver.
      destruct wait.
      * by rewrite decide_True by set_solver.
      * by rewrite decide_False.
    + rewrite lookup_insert_ne by done. intros Hr'. rewrite (M6 j r' Hr'). f_equal.
      * destruct (decide (j ∈ op)); [by rewrite decide_True by set_solver|].
        by rewrite decide_False by set_solver.
      * destruct (decide (j ∈ ws)); [by rewrite decide_True by (rewrite Hws; by right)|].
        rewrite decide_False; [done|]. rewrite Hws. tauto.
  - intros j r'. rewrite Hr. destruct (decide (j = next_rid h)) as [->|Hj].
    + rewrite lookup_insert_eq. intros [= <-]. rewrite Hcomp.
      by rewrite bool_decide_eq_true_2 by set_solver.
    + rewrite lookup_insert_ne by done. intros Hr'. rewrite (M7 j r' Hr'). f_equal.
      apply bool_decide_ext. set_solver.
Qed.

(** *** Retains and releases *)

#[local] Instance holds_dec o r : Decision (holds o r).
Proof. apply _. Defined.

Lemma retains_app o l l' : retains o (l ++ l') = (retains o l + retains o l')%nat.
Proof. unfold retains. by rewrite filter_app, length_app. Qed.

Lemma releases_app o l l' : releases o (l ++ l') = (releases o l + releases o l')%nat.
Proof. unfold releases. by rewrite filter_app, length_app. Qed.

Lemma holders_insert o m i r :
  m !! i = None -> holders o (<[i := r]> m) = ((if decide (holds o r) then 1 else 0) + holders o m)%nat.
Proof.
  intros Hi. unfold holders. rewrite map_filter_insert. cbn.
  assert (Hn : filter (fun kv : rid * MediaActorRequest => holds o kv.2) m !! i = None)
    by (apply map_lookup_filter_None; by left).
  destruct (decide (holds o r)) as [H|H].
  - by rewrite map_size_insert_None.
  - by rewrite delete_id.
Qed.

Lemma holders_delete o m i r :
  m !! i = Some r -> holders o m = ((if decide (holds o r) then 1 else 0) + holders o (delete i m))%nat.
Proof.
  intros Hi. rewrite <- (insert_delete_id m i r Hi) at 1. apply holders_insert. apply lookup_delete_eq.
Qed.

Lemma holders_update o m i r r' :
  m !! i = Some r -> (holds o r' <-> holds o r) -> holders o (<[i := r']> m) = holders o m.
Proof.
  intros Hi Hh. rewrite (holders_delete o m i r Hi).
  rewrite <- insert_delete_eq, holders_insert by apply lookup_delete_eq. f_equal.
  destruct (decide (holds o r)), (decide (holds o r')); tauto.
Qed.

Lemma opaque_ok_update i f h :
  (forall r, opaque_retained (f r) = opaque_retained r /\
     opaque (command (f r)) = opaque (command r) /\
     opaque_release (command (f r)) = opaque_release (command r)) ->
  opaque_ok h -> opaque_ok (heap_update i f h).
Proof.
  intros Hf [O1 O2]. unfold heap_update. destruct (requests h !! i) as [r|] eqn:Hr; [|by split].
  destruct (Hf r) as (F1 & F2 & F3). split; rproj.
  - intros j r'. destruct (decide (j = i)) as [->|Hj].
    + rewrite lookup_insert_eq. intros [= <-]. rewrite F1, F2, F3. by apply (O1 i).
    + rewrite lookup_insert_ne by done. apply O1.
  - intros o. rewrite O2. f_equal. symmetry. apply (holders_update o _ i r); [done|].
    unfold holds. by rewrite F1, F2.
Qed.

Lemma opaque_ok_free i h : opaque_ok h -> opaque_ok (request_free i h).
Proof.
  intros [O1 O2]. unfold request_free. destruct i as [i|]; [|by split].
  destruct (requests h !! i) as [r|] eqn:Hr; [|by split]. cbv zeta. split; rproj.
  - intros j r'. rewrite lookup_delete_Some. intros [_ Hj]. by apply (O1 j).
  - intros o. rewrite retains_app, releases_app, O2, (holders_delete o _ i r Hr).
    destruct (opaque_retained r) eqn:Er; cbn [andb].
    + destruct (O1 i r Hr Er) as [-> [x Hx]]. rewrite Hx. unfold retains, releases. cbn [filter].
      destruct (decide (holds o r)) as [[_ Ho]|Hn].
      * rewrite Hx in Ho. injection Ho as ->. cbn. rewrite decide_False by done.
        rewrite decide_True by done. cbn. lia.
      * cbn. rewrite !decide_False; [cbn; lia | | done].
        intros [= ->]. apply Hn. by split.
    + rewrite decide_False by (intros [? _]; congruence). unfold retains, releases. cbn. lia.
Qed.

Lemma opaque_ok_free_list l h : opaque_ok h -> opaque_ok (request_free_list l h).
Proof.
  revert h. induction l as [|i l IH]; intros h Ho; [done|]. apply IH. by apply opaque_ok_free.
Qed.

Lemma opaque_ok_complete i st h : opaque_ok h -> opaque_ok (request_complete_locked i st h).2.
Proof.
  intros Ho. unfold request_complete_locked.
  assert (H1 : opaque_ok (heap_update i (done_request st) h)) by (by apply opaque_ok_update).
  cbv zeta. by case_match.
Qed.

Lemma opaque_ok_reject fuel fl a h : opaque_ok h -> opaque_ok (reject_pending fuel fl a h).2.
Proof.
  revert fl a h. induction fuel as [|fuel IH]; intros fl a h Ho; [done|]. cbn [reject_pending].
  destruct (queue_pop_locked a) as [[i|] a1]; [|done]. apply (opaque_ok_complete i MEDIA_ACTOR_SUBMIT_SHUTTING_DOWN) in Ho.
  destruct (request_complete_locked _ _ _) as [f h2]. by apply IH.
Qed.

Lemma opaque_ok_reject_and_free a h : opaque_ok h -> opaque_ok (reject_and_free a h).2.
Proof.
  intros Ho. unfold reject_and_free, actor_reject_pending_locked.
  apply (opaque_ok_reject (queue_count a) [] a) in Ho.
  destruct (reject_pending _ _ _ _) as [[fl a1] h1]. by apply opaque_ok_free_list.
Qed.

(** What [request_create] allocates. *)
Lemma request_create_spec cmd m h i h1 :
  request_create cmd m h = (Some i, h1) ->
  exists r, i = next_rid h /\ requests h1 = <[i := r]> (requests h) /\
    next_rid h1 = S (next_rid h) /\ heap_fault h1 = heap_fault h /\
    references r = 0 /\ completed r = false /\ kind (command r) = kind cmd /\
    text (command r) = text cmd /\ metadata (command r) = metadata cmd /\
    opaque (command r) = opaque cmd /\ opaque_release (command r) = opaque_release cmd /\
    opaque_retained r = (bool_decide (is_Some (opaque cmd)) && opaque_retain cmd) /\
    opaque_calls h1 = opaque_calls h ++
      (match opaque cmd with Some o => if opaque_retain cmd then [Retain o] else [] | None => [] end).
Proof.
  unfold request_create. case_match; [done|]. case_match eqn:E; [done|].
  apply orb_false_iff in E as [Et Em].
  assert (Ht : duplicate_string (text cmd) (alloc_text m) = text cmd).
  { destruct (text cmd); [|done]. cbn in *. destruct (alloc_text m); [done|]. by vm_compute in Et. }
  assert (Hm : duplicate_string (metadata cmd) (alloc_metadata m) = metadata cmd).
  { destruct (metadata cmd); [|done]. cbn in *. destruct (alloc_metadata m); [done|]. by vm_compute in Em. }
  rewrite Ht, Hm. destruct (opaque cmd) eqn:Eo; unfold heap_alloc; intros [= <- <-].
  - destruct (opaque_retain cmd); eexists; (split; [done|]); unfold upd; cbn; rewrite ?app_nil_r;
      by split_and!.
  - eexists. split; [done|]. unfold upd. cbn. rewrite app_nil_r. by split_and!.
Qed.

Lemma opaque_ok_create cmd m h :
  command_valid (Some cmd) = true -> requests h !! next_rid h = None -> opaque_ok h ->
  opaque_ok (request_create cmd m h).2.
Proof.
  intros Hv Hfresh [O1 O2]. destruct (request_create cmd m h) as [[i|] h1] eqn:Hc; cbn [snd].
  2: { unfold request_create, heap_alloc in Hc. repeat case_match; simplify_eq; by split. }
  destruct (request_create_spec _ _ _ _ _ Hc)
    as (r & -> & Hr & _ & _ & _ & _ & _ & _ & _ & Ho & Hrel & Hret & Hcalls).
  apply andb_true_iff in Hv as [_ Hv].
  split; rewrite Hr.
  - intros j r'. destruct (decide (j = next_rid h)) as [->|Hj].
    + rewrite lookup_insert_eq. intros [= <-]. rewrite Hret, Ho, Hrel. intros [Hs Hp]%andb_true_iff.
      apply bool_decide_eq_true in Hs. rewrite Hp in Hv. by destruct (opaque_release cmd).
    + rewrite lookup_insert_ne by done. apply O1.
  - intros o. rewrite Hcalls, retains_app, releases_app, O2, holders_insert by done.
    assert (Hh : holds o r <-> opaque_retain cmd = true /\ opaque cmd = Some o).
    { unfold holds. rewrite Hret, Ho, andb_true_iff, bool_decide_eq_true.
      split; [tauto | intros [? ->]; by split_and!]. }
    unfold retains, releases. destruct (opaque cmd) as [x|]; cbn.
    + destruct (opaque_retain cmd); cbn.
      * rewrite (decide_False (P := Retain x = Release o)) by done.
        destruct (decide (x = o)) as [->|Hx].
        -- rewrite (decide_True (P := holds o r)) by by apply Hh.
           rewrite (decide_True (P := Retain o = Retain o)) by done. cbn. lia.
        -- rewrite (decide_False (P := holds o r)) by (rewrite Hh; intros [_ [=]]; done).
           rewrite (decide_False (P := Retain x = Retain o)) by (intros [=]; done). cbn. lia.
      * rewrite (decide_False (P := holds o r)) by (rewrite Hh; intros [? _]; done). lia.
    + rewrite (decide_False (P := holds o r)) by (rewrite Hh; intros [_ ?]; done). lia.
Qed.

Lemma opaque_ok_submit_locked i c wait a h :
  opaque_ok h -> opaque_ok (submit_locked i c wait a h).2.
Proof.
  intros Ho. unfold submit_locked. case_match; [by apply opaque_ok_free|].
  case_match; [by apply opaque_ok_free|].
  assert (Ht : opaque_ok (replaceable_tail c wait a h).2).
  { unfold replaceable_tail. repeat case_match; cbn [snd]; try done; by destruct Ho. }
  destruct (replaceable_tail c wait a h) as [[[tail old]|] h2]; cbn [snd] in Ht.
  - apply (opaque_ok_update i (stamp (inc (last_command_id (health a))) 1)) in Ht; [|done].
    apply (opaque_ok_complete old MEDIA_ACTOR_SUBMIT_ACCEPTED) in Ht.
    destruct (request_complete_locked old _ _) as [f h3]. by apply opaque_ok_free.
  - case_match; [by apply opaque_ok_free|]. by apply opaque_ok_update.
Qed.

Lemma opaque_ok_submit cmd wait m a h :
  requests h !! next_rid h = None -> opaque_ok h -> opaque_ok (actor_submit cmd wait m a h).2.
Proof.
  intros Hf Ho. unfold actor_submit. destruct (command_valid cmd) eqn:Hv; [|done]. cbn [negb].
  destruct cmd as [c|]; [|done]. pose proof (opaque_ok_create c m h Hv Hf Ho) as Hc.
  destruct (request_create c m h) as [[i|] h1]; [|done]. by apply opaque_ok_submit_locked.
Qed.

Lemma opaque_ok_execute i valid ok now a h :
  opaque_ok h -> opaque_ok (actor_execute_request i valid ok now a h).2.
Proof.
  intros Ho. unfold actor_execute_request. case_match; [|by destruct Ho].
  apply (opaque_ok_complete i (execution_status (negb (has_validate (config a)) || valid) ok)) in Ho.
  destruct (request_complete_locked i _ _) as [f h1]. by apply opaque_ok_free.
Qed.

Lemma opaque_ok_wait_finish i a h : opaque_ok h -> opaque_ok (wait_finish_locked i a h).2.
Proof.
  intros Ho. unfold wait_finish_locked. destruct (requests h !! i) as [r|]; [|by destruct Ho].
  destruct (if completed r then _ else _). cbn [snd]. case_match.
  - apply opaque_ok_free. by apply opaque_ok_update.
  - by apply opaque_ok_update.
Qed.

(** *** Submitting *)

(** Freeing a request that was just allocated gives the old heap back. *)
Lemma free_fresh op ws h h1 i r :
  mem_ok op ws h -> i = next_rid h -> requests h1 = <[i := r]> (requests h) ->
  next_rid h1 = S (next_rid h) -> heap_fault h1 = heap_fault h ->
  mem_ok op ws (request_free (Some i) h1) /\
  requests (request_free (Some i) h1) = requests h.
Proof.
  intros Hm -> Hr Hn Hf.
  assert (Hfresh : requests h !! next_rid h = None).
  { apply eq_None_not_Some. intros H. apply (mo_fresh _ _ _ Hm) in H. lia. }
  destruct (request_free_spec (next_rid h) h1 r) as (F1 & F2 & F3); [by rewrite Hr, lookup_insert_eq|].
  assert (E : requests (request_free (Some (next_rid h)) h1) = requests h)
    by (by rewrite F1, Hr, delete_insert_id).
  split; [|done]. apply (mem_ok_ext _ _ h); [done | done | congruence | lia].
Qed.

(** The requests that were open before a submit keep their commands. *)
Definition keeps_ids (l : list rid) (h h' : Heap) : Prop := forall j, j ∈ l -> id_of h' j = id_of h j.

Lemma keeps_ids_lookup l h h' :
  (forall j, j ∈ l -> requests h' !! j = requests h !! j) -> keeps_ids l h h'.
Proof. intros H j Hj. unfold id_of. by rewrite H. Qed.

(** Submitting leaves the life cycle alone. *)
Definition same_flags (a a' : MediaActor) : Prop :=
  config a' = config a /\ running a' = running a /\ stopping a' = stopping a /\
  accepting a' = accepting a /\ thread_started a' = thread_started a /\
  join_in_progress a' = join_in_progress a /\ dispatch_requested a' = dispatch_requested a /\
  current_command_id (health a') = current_command_id (health a).

Lemma queue_push_flags i a : same_flags a (queue_push_locked i a) /\
  last_command_id (health (queue_push_locked i a)) = last_command_id (health a).
Proof. unfold queue_push_locked. case_match; by split_and!. Qed.

Lemma submit_locked_spec ex q ws i c wait a h h1 r :
  ring_repr a q -> mem_ok (ex ++ q) ws h ->
  i = next_rid h -> requests h1 = <[i := r]> (requests h) -> next_rid h1 = S (next_rid h) ->
  heap_fault h1 = heap_fault h -> completed r = false ->
  let '(res, a', h') := submit_locked i c wait a h1 in
  same_flags a a' /\
  match res with
  | SubmitRefused _ =>
      ring_repr a' q /\ mem_ok (ex ++ q) ws h' /\ requests h' = requests h /\
      last_command_id (health a') = last_command_id (health a)
  | SubmitCoalesced j old =>
      j = i /\ exists q1, q = q1 ++ [old] /\ ring_repr a' (q1 ++ [i]) /\
      mem_ok (ex ++ q1 ++ [i]) ws h' /\
      (forall k, k <> old -> k <> i -> requests h' !! k = requests h !! k) /\
      id_of h' i = inc (last_command_id (health a)) /\
      last_command_id (health a') = inc (last_command_id (health a))
  | SubmitQueued j =>
      j = i /\ ring_repr a' (q ++ [i]) /\
      mem_ok (ex ++ q ++ [i]) (if wait then i :: ws else ws) h' /\
      (forall k, k <> i -> requests h' !! k = requests h !! k) /\
      id_of h' i = inc (last_command_id (health a)) /\
      last_command_id (health a') = inc (last_command_id (health a))
  end.
Proof.
  intros Hring Hm Hi Hr Hn Hf Hcomp. unfold submit_locked.
  destruct (free_fresh _ _ _ _ _ _ Hm Hi Hr Hn Hf) as [Hfree1 Hfree2].
  destruct (negb (running a)); [by split_and!|].
  destruct (stopping a || negb (accepting a)).
  { split_and!; try done. by apply (ring_repr_ext a). }
  destruct (replaceable_tail c wait a h1) as [[[tail old]|] h2] eqn:Ht.
  - destruct (replaceable_tail_spec _ _ _ _ q _ _ _ Hring Ht)
      as (q1 & ro & -> & -> & Hl & _ & _ & -> & Hone & ->).
    set (id := inc (last_command_id (health a))).
    assert (Hi1 : requests h1 !! i = Some r) by (by rewrite Hr, lookup_insert_eq).
    destruct (heap_update_lookup i (stamp id 1) h1 r Hi1) as (U1 & U2 & U3 & _).
    assert (Hm1 : mem_ok ((ex ++ q1 ++ [old]) ++ [i]) ws (heap_update i (stamp id 1) h1)).
    { apply (mem_ok_insert (ex ++ q1 ++ [old]) ws h _ i (stamp id 1 r) false); try done; try congruence.
      by rewrite U1, Hr, insert_insert_eq. }
    assert (Hold : old ∈ ex ++ q1 ++ [old]) by set_solver.
    assert (Hne : old <> i).
    { intros ->. destruct (proj2 (mo_live _ _ _ Hm i)) as [x Hx]; [by left|].
      assert (Hlt : (i < next_rid h)%nat) by (apply (mo_fresh _ _ _ Hm); by eexists). lia. }
    assert (Hlo : requests (heap_update i (stamp id 1) h1) !! old = Some ro)
      by (by rewrite U1, lookup_insert_ne).
    pose proof (complete_and_free_spec old MEDIA_ACTOR_SUBMIT_ACCEPTED _ ro Hlo ltac:(lia)) as Hcf.
    destruct (request_complete_locked old _ _) as [f h3].
    pose proof Hcf as (_ & _ & Hlook).
    assert (Hi' : requests (request_free f h3) !! i = Some (stamp id 1 r)).
    { rewrite Hlook, decide_False by set_solver. by rewrite U1, lookup_insert_eq. }
    split; [by split_and!|]. split; [done|]. exists q1. split_and!.
    + done.
    + by apply (proj2 (queue_tail_repr a q1 old i Hring)).
    + eapply mem_ok_completes; [|exact Hm1|exact Hcf]. solve_Permutation.
    + intros k Hk1 Hk2. rewrite Hlook, decide_False by set_solver.
      by rewrite U1, Hr, !lookup_insert_ne.
    + unfold id_of. by rewrite Hi'.
    + done.
  - assert (Hh2 : h2 = h1).
    { unfold replaceable_tail in Ht. destruct (negb wait && _ && _) eqn:E; [|by injection Ht].
      apply andb_true_iff in E as [_ En]. rewrite (ring_count a q Hring) in En.
      destruct q as [|j q1 _] using rev_ind; [done|].
      destruct (queue_tail_repr a q1 j j Hring) as [Hl _]. rewrite Hl in Ht. cbn [from_option id] in Ht.
      destruct (proj2 (mo_live _ _ _ Hm j)) as [x Hx]; [left; set_solver|].
      destruct (requests h1 !! j) eqn:E1; [by injection Ht|].
      rewrite Hr in E1. destruct (decide (j = i)) as [->|?];
        [by rewrite lookup_insert_eq in E1 | rewrite lookup_insert_ne in E1; congruence]. }
    subst h2. destruct (queue_full_for c a) eqn:Hfull.
    { split_and!; try done. by apply (ring_repr_ext a). }
    set (id := inc (last_command_id (health a))).
    set (a1 := { a with health -> last_command_id := id; health -> submitted ::= inc }).
    assert (Hi1 : requests h1 !! i = Some r) by (by rewrite Hr, lookup_insert_eq).
    destruct (heap_update_lookup i (stamp id (if wait then 2 else 1)) h1 r Hi1) as (U1 & U2 & U3 & _).
    destruct (queue_push_flags i a1) as [Hfl Hlast].
    split; [exact Hfl|]. split; [done|]. split_and!.
    + apply queue_push_repr; [by apply (ring_repr_ext a)|]. unfold queue_full_for in Hfull.
      apply orb_false_iff in Hfull as [Hfull _]. rewrite (ring_count a q Hring) in Hfull.
      by apply Nat.leb_gt in Hfull.
    + rewrite (app_assoc ex). apply (mem_ok_insert (ex ++ q) ws h _ i (stamp id (if wait then 2 else 1) r) wait);
        try done; try congruence. by rewrite U1, Hr, insert_insert_eq.
    + intros k Hk. by rewrite U1, Hr, !lookup_insert_ne.
    + unfold id_of. by rewrite U1, lookup_insert_eq.
    + by rewrite Hlast.
Qed.
