(* ===== verification/MediaActorInvariant.v ===== *)
(** * The media actor: its invariant and its guarantees (player/core/media_actor.c)

    Every step of [MediaActorSystem] keeps the invariant [sys_inv]: the ring is a
    list of live requests, references match the queue and the waiting threads,
    and command ids are handed out, served and ended exactly once. *)

From Stdlib Require Import Sorted.
From S2P Require Import Prelude MediaActor MediaActorSystem.

(** ** The invariant of the system *)

Definition ids (h : Heap) (l : list rid) : list Z := map (id_of h) l.

(** The commands the worker ended, in the order it did. *)
Definition served (l : list (Z * Ending)) : list Z :=
  map fst (filter (fun x => x.2 = EndedByWorker) l).

(** Of the ids [1..n] handed out, every one is open, executing directly, or has
    ended, exactly once; the worker ended [sv], oldest first, and the open ones
    follow in the order they will be served. *)
Record id_split (sv op dir hist : list Z) (n : Z) : Prop := {
  sp_sorted : StronglySorted Z.lt (sv ++ op);
  sp_bound : Forall (fun x => 1 <= x <= n) (sv ++ op);
  sp_all : op ++ dir ++ hist ≡ₚ seqZ 1 n
}.

Record ids_ok (q : list rid) (s : System) : Prop := {
  io_last : last_command_id (health (actor s)) = issued s;
  io_split : id_split (served (history s)) (ids (heap s) (executing (worker s) ++ q)) (directs s)
               (map fst (history s)) (issued s);
  io_current : current_command_id (health (actor s)) =
               match executing (worker s) with i :: _ => id_of (heap s) i | [] => 0 end
}.

(** One worker thread at a time. *)
Definition control_ok (s : System) : Prop :=
  match starter s with
  | StarterNone => thread_started (actor s) = true <-> worker s <> WorkerNone
  | StarterBegun => thread_started (actor s) = false /\ worker s = WorkerNone
  | StarterCreated => thread_started (actor s) = false /\ worker s <> WorkerNone
  end /\
  (join_in_progress (actor s) = true -> thread_started (actor s) = true).

Record sys_inv (q : list rid) (s : System) : Prop := {
  si_memory : memory_inv q s;
  si_opaque : opaque_ok (heap s);
  si_control : control_ok s;
  si_issued : 0 <= issued s;
  si_ids : issued s <= UINT64_MAX -> ids_ok q s
}.

(** Steps that touch neither the requests nor the queue. *)
Lemma sys_inv_frame q s s' :
  sys_inv q s -> heap s' = heap s -> executing (worker s') = executing (worker s) ->
  waiters s' = waiters s -> directs s' = directs s -> issued s' = issued s ->
  history s' = history s ->
  config (actor s') = config (actor s) -> queue (actor s') = queue (actor s) ->
  queue_head (actor s') = queue_head (actor s) -> queue_count (actor s') = queue_count (actor s) ->
  last_command_id (health (actor s')) = last_command_id (health (actor s)) ->
  current_command_id (health (actor s')) = current_command_id (health (actor s)) ->
  control_ok s' -> sys_inv q s'.
Proof.
  intros [[Hr Hm] Ho Hc Hi0 Hi] E1 E2 E3 E4 E5 E6 F1 F2 F3 F4 F5 F6 Hc'.
  split; rewrite ?E1, ?E5; try done.
  - split; [by apply (ring_repr_ext (actor s)) | by rewrite E1, E2, E3].
  - intros Hle. destruct (Hi Hle) as [I1 I2 I3].
    split; rewrite ?E1, ?E2, ?E4, ?E5, ?E6, ?F5, ?F6; done.
Qed.

Lemma inc_small x : 0 <= x < UINT64_MAX -> inc x = x + 1.
Proof. unfold inc. intros H. apply u64_id. unfold is_u64. lia. Qed.

Lemma seqZ_snoc n : 0 <= n -> seqZ 1 (Z.succ n) = seqZ 1 n ++ [n + 1].
Proof. intros H. unfold Z.succ. rewrite seqZ_app by lia. by rewrite (Z.add_comm 1 n). Qed.

Lemma sorted_snoc l x :
  StronglySorted Z.lt l -> Forall (fun y => y < x) l -> StronglySorted Z.lt (l ++ [x]).
Proof.
  induction l as [|y l IH]; cbn; intros Hs Hf; [by repeat constructor|].
  apply StronglySorted_inv in Hs as [Hs Hy]. apply Forall_cons in Hf as [Hyx Hf].
  constructor; [by apply IH|]. apply Forall_app. split; [done | by repeat constructor].
Qed.

(** *** How the ids move *)

Lemma sorted_app_l (l l' : list Z) : StronglySorted Z.lt (l ++ l') -> StronglySorted Z.lt l.
Proof.
  induction l as [|x l IH]; cbn; intros Hs; [constructor|].
  apply StronglySorted_inv in Hs as [Hs Hx]. constructor; [by apply IH|].
  by apply Forall_app in Hx as [? _].
Qed.

Lemma split_bound_weaken l n : Forall (fun x => 1 <= x <= n) l -> Forall (fun x => 1 <= x <= Z.succ n) l.
Proof. intros H. eapply Forall_impl; [exact H|]. cbn. lia. Qed.

Lemma split_issue sv op dir hist n :
  0 <= n -> id_split sv op dir hist n -> id_split sv (op ++ [n + 1]) dir hist (Z.succ n).
Proof.
  intros Hn [S1 S2 S3]. split.
  - rewrite app_assoc. apply sorted_snoc; [done|]. eapply Forall_impl; [exact S2|]. cbn. lia.
  - rewrite app_assoc. apply Forall_app. split; [by apply split_bound_weaken|].
    repeat constructor; lia.
  - rewrite seqZ_snoc by done. rewrite <- S3. solve_Permutation.
Qed.

Lemma split_drop sv op l dir hist n :
  id_split sv (op ++ l) dir hist n -> id_split sv op dir (hist ++ l) n.
Proof.
  intros [S1 S2 S3]. rewrite app_assoc in S1, S2. split.
  - by apply sorted_app_l in S1.
  - by apply Forall_app in S2 as [? _].
  - rewrite <- S3. solve_Permutation.
Qed.

Lemma split_coalesce sv op x dir hist n :
  0 <= n -> id_split sv (op ++ [x]) dir hist n ->
  id_split sv (op ++ [n + 1]) dir (hist ++ [x]) (Z.succ n).
Proof. intros Hn Hs. apply split_issue; [done|]. by apply split_drop. Qed.

Lemma split_serve sv x op dir hist n :
  id_split sv (x :: op) dir hist n -> id_split (sv ++ [x]) op dir (hist ++ [x]) n.
Proof.
  intros [S1 S2 S3]. rewrite cons_middle, app_assoc in S1, S2. split; [done..|].
  rewrite <- S3. solve_Permutation.
Qed.

Lemma split_direct_begin sv op dir hist n :
  0 <= n -> id_split sv op dir hist n -> id_split sv op (n + 1 :: dir) hist (Z.succ n).
Proof.
  intros Hn [S1 S2 S3]. split; [done | by apply split_bound_weaken|].
  rewrite seqZ_snoc by done. rewrite <- S3. solve_Permutation.
Qed.

Lemma split_direct_finish sv op x dir hist n :
  id_split sv op (x :: dir) hist n -> id_split sv op dir (hist ++ [x]) n.
Proof. intros [S1 S2 S3]. split; [done..|]. rewrite <- S3. solve_Permutation. Qed.

Lemma ids_keep l h h' : keeps_ids l h h' -> ids h' l = ids h l.
Proof. intros H. unfold ids. apply map_ext_in. intros j Hj. apply H. by apply list_elem_of_In. Qed.

Lemma served_app l l' : served (l ++ l') = served l ++ served l'.
Proof. unfold served. by rewrite filter_app, map_app. Qed.

Lemma control_ok_frame s s' :
  control_ok s -> starter s' = starter s -> (worker s' = WorkerNone <-> worker s = WorkerNone) ->
  thread_started (actor s') = thread_started (actor s) ->
  join_in_progress (actor s') = join_in_progress (actor s) -> control_ok s'.
Proof.
  unfold control_ok. intros [H1 H2] -> Hw -> ->. split; [|done].
  destruct (starter s); by rewrite ?Hw.
Qed.

(** *** Submitting *)

Lemma mem_ok_fresh op ws h : mem_ok op ws h -> requests h !! next_rid h = None.
Proof. intros Hm. apply eq_None_not_Some. intros H. apply (mo_fresh _ _ _ Hm) in H. lia. Qed.

Lemma open_not_fresh op ws h j : mem_ok op ws h -> j ∈ op -> j <> next_rid h.
Proof.
  intros Hm Hj ->. destruct (proj2 (mo_live _ _ _ Hm (next_rid h))) as [r Hr]; [by left|].
  by rewrite (mem_ok_fresh _ _ _ Hm) in Hr.
Qed.

Lemma ids_snoc h l i : ids h (l ++ [i]) = ids h l ++ [id_of h i].
Proof. unfold ids. by rewrite map_app. Qed.

(** The executing request keeps its id when the open requests do. *)
Lemma current_keep (a a' : MediaActor) (h h' : Heap) (ex l : list rid) :
  current_command_id (health a') = current_command_id (health a) -> keeps_ids (ex ++ l) h h' ->
  current_command_id (health a) = match ex with i :: _ => id_of h i | [] => 0 end ->
  current_command_id (health a') = match ex with i :: _ => id_of h' i | [] => 0 end.
Proof. intros -> Hk ->. destruct ex; [done|]. symmetry. apply Hk. set_solver. Qed.

Lemma sys_inv_coalesced q1 old i s a' h' :
  sys_inv (q1 ++ [old]) s -> i = next_rid (heap s) ->
  ring_repr a' (q1 ++ [i]) -> mem_ok (executing (worker s) ++ q1 ++ [i]) (waiters s) h' ->
  opaque_ok h' -> same_flags (actor s) a' ->
  (forall k, k <> old -> k <> i -> requests h' !! k = requests (heap s) !! k) ->
  id_of h' i = inc (last_command_id (health (actor s))) ->
  last_command_id (health a') = inc (last_command_id (health (actor s))) ->
  sys_inv (q1 ++ [i])
    { s with actor := a'; heap := h'; issued ::= Z.succ;
             history ::= fun l => l ++ [(id_of (heap s) old, EndedCoalesced)] }.
Proof.
  intros [[Hr Hm] Ho Hc Hi0 Hi] Hfresh S1 S2 Ho' (F1 & F2 & F3 & F4 & F5 & F6 & F7 & F8) S3 S4 S5.
  pose proof (mo_open _ _ _ Hm) as Hnd. rewrite app_assoc in Hnd, Hm, S2.
  apply NoDup_app in Hnd as (_ & Hd & _).
  assert (Hk : keeps_ids (executing (worker s) ++ q1) (heap s) h').
  { apply keeps_ids_lookup. intros k Hk. apply S3.
    - intros ->. apply (Hd _ Hk). set_solver.
    - subst i. apply (open_not_fresh _ _ _ _ Hm). set_solver. }
  split; rproj; [split; rproj; [done | by rewrite app_assoc] | done
                | by apply (control_ok_frame s) | lia |].
  intros Hle. destruct (Hi ltac:(lia)) as [I1 I2 I3].
  rewrite I1, inc_small in S4, S5 by lia. split; rproj.
  - rewrite S5. lia.
  - rewrite served_app, map_app. unfold served at 2. cbn. rewrite app_nil_r.
    rewrite !app_assoc, ids_snoc in *. rewrite S4, (ids_keep _ _ _ Hk). by apply split_coalesce.
  - by apply (current_keep (actor s) a' (heap s) h' _ q1).
Qed.

Lemma sys_inv_queued q i s a' h' (wait : bool) :
  sys_inv q s -> i = next_rid (heap s) ->
  ring_repr a' (q ++ [i]) ->
  mem_ok (executing (worker s) ++ q ++ [i]) (if wait then i :: waiters s else waiters s) h' ->
  opaque_ok h' -> same_flags (actor s) a' ->
  (forall k, k <> i -> requests h' !! k = requests (heap s) !! k) ->
  id_of h' i = inc (last_command_id (health (actor s))) ->
  last_command_id (health a') = inc (last_command_id (health (actor s))) ->
  sys_inv (q ++ [i])
    { s with actor := a'; heap := h'; issued ::= Z.succ;
             waiters ::= fun l => if wait then i :: l else l }.
Proof.
  intros [[Hr Hm] Ho Hc Hi0 Hi] Hfresh S1 S2 Ho' (F1 & F2 & F3 & F4 & F5 & F6 & F7 & F8) S3 S4 S5.
  assert (Hk : keeps_ids (executing (worker s) ++ q) (heap s) h').
  { apply keeps_ids_lookup. intros k Hk. apply S3. subst i. by apply (open_not_fresh _ _ _ _ Hm). }
  split; rproj; try done; [by apply (control_ok_frame s) | lia |].
  intros Hle. destruct (Hi ltac:(lia)) as [I1 I2 I3].
  rewrite I1, inc_small in S4, S5 by lia. split; rproj.
  - rewrite S5. lia.
  - rewrite app_assoc, ids_snoc, S4, (ids_keep _ _ _ Hk). by apply split_issue.
  - by apply (current_keep (actor s) a' (heap s) h' _ q).
Qed.

Lemma submit_keeps q s cmd wait m :
  sys_inv q s -> exists q', sys_inv q' (submit_step cmd wait m s).
Proof.
  intros Hinv. pose proof Hinv as [[Hr Hm] Ho Hc Hi0 Hi]. unfold submit_step.
  pose proof (opaque_ok_submit cmd wait m (actor s) (heap s) (mem_ok_fresh _ _ _ Hm) Ho) as Ho'.
  unfold actor_submit in *.
  destruct (command_valid cmd); cbn [negb] in *; [|exists q; by apply (sys_inv_frame q s)].
  destruct cmd as [c|]; [|exists q; by apply (sys_inv_frame q s)].
  destruct (request_create c m (heap s)) as [[i|] h1] eqn:Hcr.
  2: { assert (E : h1 = heap s).
       { unfold request_create in Hcr. repeat case_match; simplify_eq; done. }
       subst h1. exists q. by apply (sys_inv_frame q s). }
  destruct (request_create_spec _ _ _ _ _ Hcr) as (r & Hfresh & R1 & R2 & R3 & _ & R4 & _).
  pose proof (submit_locked_spec (executing (worker s)) q (waiters s) i c wait (actor s) (heap s) h1 r
    Hr Hm Hfresh R1 R2 R3 R4) as Hs.
  destruct (submit_locked i c wait (actor s) h1) as [[res a'] h']. cbn [snd] in Ho'.
  destruct Hs as [Hflags Hs]. destruct res as [st|j old|j].
  - destruct Hs as (S1 & S2 & S3 & S4). exists q.
    pose proof Hflags as (F1 & F2 & F3 & F4 & F5 & F6 & F7 & F8).
    assert (Hk : keeps_ids (executing (worker s) ++ q) (heap s) h')
      by (apply keeps_ids_lookup; intros k _; by rewrite S3).
    split; rproj; try done; [by apply (control_ok_frame s)|].
    intros Hle. destruct (Hi Hle) as [I1 I2 I3]. split; rproj.
    + congruence.
    + by rewrite (ids_keep _ _ _ Hk).
    + by apply (current_keep (actor s) a' (heap s) h' _ q).
  - destruct Hs as (-> & q1 & -> & S1 & S2 & S3 & S4 & S5). exists (q1 ++ [i]).
    by apply sys_inv_coalesced.
  - destruct Hs as (-> & S1 & S2 & S3 & S4 & S5). exists (q ++ [i]). by apply sys_inv_queued.
Qed.

(** What most steps leave alone. *)
Definition same_core (a a' : MediaActor) : Prop :=
  config a' = config a /\ queue a' = queue a /\ queue_head a' = queue_head a /\
  queue_count a' = queue_count a /\ thread_started a' = thread_started a /\
  join_in_progress a' = join_in_progress a /\
  last_command_id (health a') = last_command_id (health a).

(** A step that keeps the core, the executing request and the worker's existence. *)
Lemma sys_inv_core q s s' :
  sys_inv q s -> same_core (actor s) (actor s') ->
  current_command_id (health (actor s')) = current_command_id (health (actor s)) ->
  heap s' = heap s -> executing (worker s') = executing (worker s) ->
  (worker s' = WorkerNone <-> worker s = WorkerNone) -> starter s' = starter s ->
  waiters s' = waiters s -> directs s' = directs s -> issued s' = issued s ->
  history s' = history s -> sys_inv q s'.
Proof.
  intros Hinv (E1 & E2 & E3 & E4 & E5 & E6 & E7) **. apply (sys_inv_frame q s); try done.
  apply (control_ok_frame s); try done. apply Hinv.
Qed.

(** *** Completing and rejecting *)

Lemma completes_keeps st l l' h h' :
  completes st l h h' -> (forall j, j ∈ l' -> j ∉ l) -> keeps_ids l' h h'.
Proof.
  intros (_ & _ & Hl) Hd. apply keeps_ids_lookup. intros j Hj. rewrite Hl.
  by rewrite decide_False by by apply Hd.
Qed.

Lemma executed_keeps q s i processed valid ok now :
  sys_inv q s -> worker s = WorkerExecuting i processed ->
  sys_inv q (executed_step i processed valid ok now s).
Proof.
  intros [[Hr Hm] Ho Hc Hi0 Hi] Hw. unfold executed_step.
  assert (He : executing (worker s) = [i]) by by rewrite Hw. rewrite He in Hm.
  destruct (mem_ok_open_refs _ _ _ i Hm) as (r & Hri & Hn & _); [set_solver|].
  pose proof (opaque_ok_execute i valid ok now (actor s) (heap s) Ho) as Ho'.
  unfold actor_execute_request in *. rewrite Hri in *.
  set (v := negb (has_validate (config (actor s))) || valid) in *.
  pose proof (complete_and_free_spec i (execution_status v ok) (heap s) r Hri Hn) as Hcf.
  destruct (request_complete_locked i (execution_status v ok) (heap s)) as [f h1].
  cbn [snd] in Ho'. set (h' := request_free f h1) in *.
  pose proof (mo_open _ _ _ Hm) as Hnd. apply NoDup_cons in Hnd as [Hni _].
  assert (Hk : keeps_ids q (heap s) h').
  { apply (completes_keeps _ _ _ _ _ Hcf). intros j Hj ->%list_elem_of_singleton. done. }
  assert (Ef : forall x, let a1 := execute_finished x v ok now (actor s) in
    same_core (actor s) a1 /\ current_command_id (health a1) = 0).
  { intros x. unfold execute_finished. destruct v, ok; by split_and!. }
  specialize (Ef (command_id (command r))). cbv zeta in Ef.
  set (a1 := execute_finished _ _ _ _ _) in *. clearbody a1.
  destruct Ef as [(E1 & E2 & E3 & E4 & E5 & E6 & E7) E8].
  split; rproj; try done.
  - split; rproj; [by apply (ring_repr_ext (actor s))|]. cbn [executing app].
    by apply (mem_ok_completes ([i] ++ q) q _ (execution_status v ok) [i] (heap s)).
  - apply (control_ok_frame s); rproj; by rewrite ?Hw.
  - intros Hle. destruct (Hi Hle) as [I1 I2 I3]. rewrite He in I2. split; rproj.
    + congruence.
    + rewrite served_app, map_app. cbn [executing app]. rewrite (ids_keep _ _ _ Hk). cbn.
      by apply split_serve.
    + done.
Qed.

Lemma ring_contents_repr a q : ring_repr a q -> ring_contents a = q.
Proof.
  intros [H1 H2 H3 H4 H5]. unfold ring_contents. rewrite H3.
  assert (Hg : forall l k, drop k q = l -> (k + length l = length q)%nat ->
    omap (fun k => default None (queue a !! ((queue_head a + k) mod capacity (config a))%nat))
      (seq k (length l)) = l).
  { induction l as [|x l IH]; intros k Hd Hk; [done|]. cbn [length seq omap list_omap].
    rewrite H5 by (cbn in Hk; lia).
    assert (Hx : q !! k = Some x) by (rewrite <- (Nat.add_0_r k), <- lookup_drop, Hd; done).
    rewrite Hx. cbn. f_equal. apply IH; [|cbn in Hk; lia].
    rewrite <- (Nat.add_1_r k), <- drop_drop, Hd. done. }
  by apply (Hg q 0%nat).
Qed.

Lemma reject_keeps q s : sys_inv q s -> sys_inv [] (reject_step s).
Proof.
  intros [[Hr Hm] Ho Hc Hi0 Hi]. unfold reject_step.
  pose proof (mo_open _ _ _ Hm) as Hnd. apply NoDup_app in Hnd as (_ & Hd & Hnd).
  destruct (reject_and_free_spec q (actor s) (heap s) Hr Hnd) as (a' & h' & Hrej & Hr' & Hsame & Hcf).
  { intros i Hi'. destruct (mem_ok_open_refs _ _ _ i Hm) as (r & ? & ? & _); [set_solver | by exists r]. }
  pose proof (opaque_ok_reject_and_free (actor s) (heap s) Ho) as Ho'. rewrite Hrej in *. cbn [snd] in Ho'.
  destruct Hsame as (E1 & _ & _ & _ & E2 & E3 & _ & E4 & E5).
  assert (Hk : keeps_ids (executing (worker s)) (heap s) h').
  { apply (completes_keeps _ _ _ _ _ Hcf). intros j Hj Hq. by apply (Hd j). }
  assert (Hrj : rejected s = map (fun i => (id_of (heap s) i, EndedRejected)) q)
    by (unfold rejected; by rewrite (ring_contents_repr _ _ Hr)).
  assert (Hsv : served (rejected s) = []).
  { rewrite Hrj. unfold served. clear. induction q as [|i q IH]; [done|]. cbn. done. }
  assert (Hfst : map fst (rejected s) = ids (heap s) q).
  { rewrite Hrj, map_map. done. }
  split; rproj; try done.
  - split; rproj; [done|]. rewrite app_nil_r.
    apply (mem_ok_completes (executing (worker s) ++ q) _ _ MEDIA_ACTOR_SUBMIT_SHUTTING_DOWN q (heap s));
      [solve_Permutation | done..].
  - by apply (control_ok_frame s).
  - intros Hle. destruct (Hi Hle) as [I1 I2 I3]. split; rproj.
    + congruence.
    + rewrite served_app, map_app, Hsv, Hfst, !app_nil_r, (ids_keep _ _ _ Hk).
      unfold ids in *. rewrite map_app in I2. by apply split_drop.
    + apply (current_keep (actor s) a' (heap s) h' _ []); [done | by rewrite app_nil_r | done].
Qed.

(** *** The worker takes a request *)

Lemma begin_command_core c now a :
  same_core a (begin_command c now a) /\
  current_command_id (health (begin_command c now a)) = command_id c.
Proof. unfold same_core. split_and!; reflexivity. Qed.

Lemma fetch_spec now a h q :
  ring_repr a q -> (forall i, i ∈ q -> is_Some (requests h !! i)) ->
  let '(r, a', h') := worker_fetch_locked now a h in
  h' = h /\
  match r with
  | FetchRequest i =>
      exists q', q = i :: q' /\ ring_repr a' q' /\ thread_started a' = thread_started a /\
      join_in_progress a' = join_in_progress a /\
      last_command_id (health a') = last_command_id (health a) /\
      current_command_id (health a') = id_of h i
  | _ => a' = a
  end.
Proof.
  intros Hr Hl. unfold worker_fetch_locked. destruct (stopping a); [done|].
  destruct (dispatch_enabled (health a)); [|done]. cbn [negb].
  destruct q as [|i q]; [by rewrite (queue_pop_empty _ Hr)|].
  destruct (queue_pop_control i a q Hr) as (a1 & -> & Hr1 & (E1 & _ & _ & _ & E2 & E3 & _ & E4 & E5)).
  destruct (Hl i) as [r Hri]; [set_solver|]. rewrite Hri. split; [done|]. exists q.
  destruct (begin_command_core (command r) now a1) as [(A1 & A2 & A3 & A4 & A5 & A6 & A7) A8].
  split_and!; [done | by apply (ring_repr_ext a1) | congruence.. |].
  unfold id_of. by rewrite Hri.
Qed.

Lemma loop_keeps q s processed now :
  sys_inv q s -> worker s = WorkerLoop processed -> exists q', sys_inv q' (loop_step processed now s).
Proof.
  intros Hinv Hw. pose proof Hinv as [[Hr Hm] Ho Hc Hi0 Hi]. unfold loop_step.
  destruct (_ <=? _)%nat.
  { exists q. apply (sys_inv_core q s); rproj; by rewrite ?Hw. }
  rewrite Hw in Hm. cbn [executing app] in Hm.
  pose proof (fetch_spec now (actor s) (heap s) q Hr) as Hf.
  destruct (worker_fetch_locked now (actor s) (heap s)) as [[f a'] h'].
  destruct Hf as [-> Hf]. { intros i Hi'. apply (mo_live _ _ _ Hm). by left. }
  destruct f as [| | |i]; [subst a'; exists q; apply (sys_inv_core q s); rproj; by rewrite ?Hw..|].
  destruct Hf as (q' & -> & Hr' & E1 & E2 & E3 & E4). exists q'.
  split; rproj; try done.
  - apply (control_ok_frame s); rproj; by rewrite ?Hw.
  - intros Hle. destruct (Hi Hle) as [I1 I2 I3]. rewrite Hw in I2. split; rproj; [congruence | done..].
Qed.

(** *** The other steps *)

Lemma wait_finish_keeps q s i :
  sys_inv q s -> i ∈ waiters s -> sys_inv q (wait_finish_step i s).2.
Proof.
  intros [[Hr Hm] Ho Hc Hi0 Hi] Hw. unfold wait_finish_step.
  destruct (mem_ok_wait_finish _ _ _ i (actor s) Hm Hw) as (r & Hri & Hs).
  pose proof (opaque_ok_wait_finish i (actor s) (heap s) Ho) as Ho'.
  destruct (wait_finish_locked i (actor s) (heap s)) as [[st a'] h']. cbn [snd] in *.
  destruct Hs as (_ & (E1 & _ & _ & _ & E2 & E3 & _ & E4 & E5) & F1 & F2 & F3 & M & L1 & L2).
  assert (Hk : keeps_ids (executing (worker s) ++ q) (heap s) h').
  { intros j Hj. unfold id_of. destruct (decide (j = i)) as [->|Hne]; [|by rewrite L1].
    specialize (L2 Hj). rewrite Hri. destruct (requests h' !! i); [|done]. cbn in L2. congruence. }
  split; rproj; try done.
  - split; rproj; [|done]. by apply (ring_repr_ext (actor s)).
  - by apply (control_ok_frame s).
  - intros Hle. destruct (Hi Hle) as [I1 I2 I3]. split; rproj.
    + congruence.
    + by rewrite (ids_keep _ _ _ Hk).
    + by apply (current_keep (actor s) a' (heap s) h' _ q).
Qed.

Lemma direct_begin_keeps q s :
  sys_inv q s ->
  sys_inv q match direct_begin_locked (actor s) with
            | (inl id, a) => { s with actor := a; issued ::= Z.succ; directs ::= fun l => id :: l }
            | (inr _, a) => { s with actor := a }
            end.
Proof.
  intros Hinv. unfold direct_begin_locked.
  destruct (negb (running _)); [by apply (sys_inv_frame q s), Hinv|].
  destruct (_ || _); [by apply (sys_inv_frame q s), Hinv|].
  destruct Hinv as [[Hr Hm] Ho Hc Hi0 Hi]. split; rproj; try done; [|lia|].
  - split; rproj; [|done]. by apply (ring_repr_ext (actor s)).
  - intros Hle. destruct (Hi ltac:(lia)) as [I1 I2 I3]. split; rproj.
    + rewrite I1, inc_small by lia. lia.
    + rewrite I1, inc_small by lia. by apply split_direct_begin.
    + done.
Qed.

Lemma direct_finish_keeps q s id ids valid ok now :
  sys_inv q s -> directs s = id :: ids ->
  sys_inv q { s with actor := (direct_finish_locked id valid ok now (actor s)).2; directs := ids;
                     history ::= fun l => l ++ [(id, EndedDirect)] }.
Proof.
  intros [[Hr Hm] Ho Hc Hi0 Hi] Hd. unfold direct_finish_locked.
  set (p := if negb _ then _ else _).
  assert (Hp : same_core (actor s) p.2 /\
    current_command_id (health p.2) = current_command_id (health (actor s))).
  { unfold p. destruct (negb (_ || _)), ok; by split_and!. }
  clearbody p. destruct p as [st a']. cbn [snd] in *. destruct Hp as [(E1 & E2 & E3 & E4 & E5 & E6 & E7) E8].
  split; rproj; try done.
  - split; rproj; [|done]. by apply (ring_repr_ext (actor s)).
  - by apply (control_ok_frame s).
  - intros Hle. destruct (Hi Hle) as [I1 I2 I3]. split; rproj; try congruence.
    rewrite served_app, map_app, app_nil_r. rewrite Hd in I2. by apply split_direct_finish.
Qed.

Lemma initialize_finished_core b now a :
  same_core a (initialize_finished b now a) /\
  current_command_id (health (initialize_finished b now a)) = current_command_id (health a).
Proof. unfold same_core. destruct b; split_and!; reflexivity. Qed.

Lemma initialized_keeps q s result now :
  sys_inv q s -> worker s = WorkerInitializing -> exists q', sys_inv q' (initialized_step result now s).
Proof.
  intros Hinv Hw. unfold initialized_step, actor_initialize_worker.
  set (ok := negb _ || result). destruct (initialize_finished_core ok now (actor s)) as [E E8].
  set (a2 := initialize_finished ok now (actor s)) in *. clearbody a2.
  destruct ok; cbn [negb].
  { exists q. apply (sys_inv_core q s); rproj; rewrite ?Hw; done. }
  set (s2 := { s with actor := a2; worker := WorkerInitFailed }).
  assert (H2 : sys_inv q s2) by (apply (sys_inv_core q s); unfold s2; rproj; rewrite ?Hw; done).
  destruct E as (E1 & E2 & E3 & E4 & _).
  assert (Hrj : rejected s2 = rejected s).
  { assert (Er : ring_contents a2 = ring_contents (actor s))
      by (unfold ring_contents; by rewrite E1, E2, E3, E4).
    unfold rejected, s2. rproj. by rewrite Er. }
  exists []. apply reject_keeps in H2. unfold reject_step in H2. rewrite Hrj in H2.
  change (actor s2) with a2 in H2. change (heap s2) with (heap s) in H2.
  destruct (reject_and_free a2 (heap s)) as [a3 h3]. unfold s2 in H2.
  apply (sys_inv_core _ _ _ H2); rproj; done.
Qed.

(** *** Starting and stopping *)

(** A step of the life cycle: it may change which threads exist. *)
Lemma sys_inv_control q s s' :
  sys_inv q s -> heap s' = heap s -> executing (worker s') = executing (worker s) ->
  waiters s' = waiters s -> directs s' = directs s -> issued s' = issued s ->
  history s' = history s ->
  same_core (actor s) { actor s' with thread_started := thread_started (actor s);
                                      join_in_progress := join_in_progress (actor s) } ->
  current_command_id (health (actor s')) = current_command_id (health (actor s)) ->
  control_ok s' -> sys_inv q s'.
Proof.
  intros Hinv ? ? ? ? ? ? (E1 & E2 & E3 & E4 & _ & _ & E7) ? ?.
  by apply (sys_inv_frame q s).
Qed.

Lemma start_keeps q s now :
  sys_inv q s -> starter s = StarterNone ->
  sys_inv q match start_locked now (actor s) with
            | (Some _, a) => { s with actor := a }
            | (None, a) => { s with actor := a; starter := StarterBegun }
            end.
Proof.
  intros Hinv Hs. unfold start_locked. destruct (running (actor s)); [by apply (sys_inv_core q s)|].
  destruct (thread_started (actor s)) eqn:Ht; cbn [orb]; [by apply (sys_inv_core q s)|].
  destruct (negb _); [by apply (sys_inv_core q s)|].
  apply (sys_inv_control q s); try done.
  pose proof (si_control _ _ Hinv) as [Hc1 Hc2]. rewrite Hs, Ht in Hc1.
  unfold control_ok. cbn. rewrite Ht. split; [|by rewrite Ht in Hc2].
  split; [done|]. destruct (decide (worker s = WorkerNone)) as [->|Hn]; [done|].
  destruct Hc1 as [_ Hc1]. by specialize (Hc1 Hn).
Qed.

Lemma stop_begin_keeps q s : sys_inv q s -> sys_inv q { s with actor := (stop_begin_locked (actor s)).2 }.
Proof.
  intros Hinv. unfold stop_begin_locked. destruct (thread_started (actor s)) eqn:Ht; cbn [negb snd].
  - apply (sys_inv_control q s); try done.
    pose proof (si_control _ _ Hinv) as [Hc1 Hc2]. split; [exact Hc1|]. intros _. exact Ht.
  - by apply (sys_inv_core q s).
Qed.

Lemma stop_finish_keeps q s :
  sys_inv q s -> join_in_progress (actor s) = true -> worker s = WorkerExited ->
  sys_inv q { s with actor := stop_finish_locked (actor s); worker := WorkerNone }.
Proof.
  intros Hinv Hj Hw. apply (sys_inv_control q s); rproj; rewrite ?Hw; try done.
  pose proof (si_control _ _ Hinv) as [Hc1 Hc2]. specialize (Hc2 Hj). rewrite Hc2 in Hc1.
  split; [|done]. unfold upd at 1. cbn. destruct (starter s); [done | by destruct Hc1..].
Qed.

Lemma actor_step_keeps s s' q : actor_step s s' -> sys_inv q s -> exists q', sys_inv q' s'.
Proof.
  intros Hstep Hinv. pose proof (si_control _ _ Hinv) as [Hc1 Hc2]. destruct Hstep.
  - by apply (submit_keeps q).
  - exists q. by apply wait_finish_keeps.
  - exists q. by apply direct_begin_keeps.
  - exists q. by apply direct_finish_keeps.
  - exists q. by apply start_keeps.
  - exists q. apply (sys_inv_control q s); rproj; try done; [by rewrite H0|].
    rewrite H in Hc1. split; [cbn; split; [apply Hc1 | done] | done].
  - exists q. apply (sys_inv_control q s); rproj; try done.
    rewrite H in Hc1. destruct Hc1 as [Ht Hw]. split; [|done]. cbn. by rewrite Ht, Hw.
  - exists q. apply (sys_inv_control q s); rproj; try done.
    rewrite H in Hc1. destruct Hc1 as [Ht Hw]. by split.
  - exists q. apply (sys_inv_core q s); try done; unfold media_actor_activate; by destruct (_ && _).
  - exists q. by apply (sys_inv_core q s).
  - exists q. by apply (sys_inv_core q s).
  - exists q. by apply stop_begin_keeps.
  - exists q. by apply stop_finish_keeps.
  - exists []. by apply (reject_keeps q).
  - exists q. apply (sys_inv_core q s); rproj; by rewrite ?H.
  - by apply (initialized_keeps q).
  - exists q. apply (sys_inv_core q s); rproj; by rewrite ?H.
  - by apply (loop_keeps q).
  - exists q. by apply executed_keeps.
  - exists q. unfold pump_step. apply (sys_inv_core q s); rproj; rewrite ?H; try done.
  - exists []. apply reject_keeps in Hinv.
    apply (sys_inv_core [] (reject_step s)); rproj; try done; unfold reject_step;
      destruct (reject_and_free _ _); rproj; by rewrite ?H.
  - exists q. apply (sys_inv_core q s); rproj; by rewrite ?H.
Qed.

Lemma init_inv c a : media_actor_create (Some c) true = Some a -> sys_inv [] (system_init a).
Proof.
  intros Hc. destruct (create_ring_repr _ _ _ Hc) as [Hr _].
  assert (Ha : last_command_id (health a) = 0 /\ current_command_id (health a) = 0 /\
    thread_started a = false /\ join_in_progress a = false).
  { unfold media_actor_create in Hc. by repeat (case_match; [done|]); simplify_eq. }
  destruct Ha as (A1 & A2 & A3 & A4). split.
  - split; [done|]. split; cbn; try done; try (by constructor).
    + intros i. rewrite lookup_empty, !elem_of_nil. split; [by intros [? ?] | tauto].
    + intros i [? ?]. done.
  - split; [done|]. intros o. unfold holders. cbn. by rewrite map_filter_empty, map_size_empty.
  - unfold control_ok. cbn. rewrite A3, A4. by split.
  - done.
  - intros _. split; [done | | done]. cbn. split; [constructor | constructor | done].
Qed.

Lemma reachable_inv c s : reachable c s -> exists q, sys_inv q s.
Proof.
  intros (a & Hc & Hs). pose proof (init_inv c a Hc) as H0. revert H0.
  generalize (@nil rid). induction Hs as [s|s s1 s' Hstep _ IH]; intros q Hq; [by exists q|].
  destruct (actor_step_keeps _ _ _ Hstep Hq) as [q1 Hq1]. by apply (IH q1).
Qed.

(** ** A stopped actor drains *)

(** Once the worker has seen the stop, or failed to initialize, no request is
    queued any more, and none can be. *)
Definition drained (s : System) : Prop :=
  match worker s with
  | WorkerFinishing => stopping (actor s) = true
  | WorkerInitFailed | WorkerFinalizing | WorkerExited =>
      queue_count (actor s) = 0%nat /\ (running (actor s) = false \/ stopping (actor s) = true)
  | _ => True
  end.

Lemma drained_frame s s' :
  drained s -> worker s' = worker s -> queue_count (actor s') = queue_count (actor s) ->
  (stopping (actor s) = true -> stopping (actor s') = true) ->
  (running (actor s) = false -> running (actor s') = false) -> drained s'.
Proof. unfold drained. intros H -> -> ? ?. destruct (worker s); naive_solver. Qed.

Lemma submit_closed cmd wait m s :
  running (actor s) = false \/ stopping (actor s) = true ->
  let s' := submit_step cmd wait m s in
  queue_count (actor s') = queue_count (actor s) /\ stopping (actor s') = stopping (actor s) /\
  running (actor s') = running (actor s) /\ worker s' = worker s /\ issued s' = issued s.
Proof.
  intros Hclosed. cbv zeta. unfold submit_step, actor_submit.
  destruct (negb (command_valid cmd)); [done|]. destruct cmd as [c|]; [|done].
  destruct (request_create c m (heap s)) as [[i|] h1]; [|done]. unfold submit_locked.
  destruct (negb (running (actor s))) eqn:Hr; [done|]. apply negb_false_iff in Hr.
  destruct Hclosed as [?|Hst]; [congruence|]. by rewrite Hst.
Qed.

Lemma reject_step_drains q s :
  sys_inv q s -> queue_count (actor (reject_step s)) = 0%nat /\
  same_control (actor s) (actor (reject_step s)).
Proof.
  intros [[Hr Hm] _ _ _ _]. unfold reject_step.
  pose proof (mo_open _ _ _ Hm) as Hnd. apply NoDup_app in Hnd as (_ & _ & Hnd).
  destruct (reject_and_free_spec q (actor s) (heap s) Hr Hnd) as (a' & h' & -> & Hr' & Hsame & _).
  { intros i Hi'. destruct (mem_ok_open_refs _ _ _ i Hm) as (r & ? & ? & _); [set_solver | by exists r]. }
  split; [by apply (ring_count _ _ Hr') | done].
Qed.

Lemma submit_drained cmd wait m s : drained s -> drained (submit_step cmd wait m s).
Proof.
  intros Hd. assert (Hw : worker (submit_step cmd wait m s) = worker s)
    by (unfold submit_step; by destruct (actor_submit _ _ _ _ _) as [[[] ?] ?]).
  unfold drained in *. rewrite Hw. destruct (worker s) eqn:E; try done.
  2: destruct (submit_closed cmd wait m s) as (_ & -> & _); [by right | done].
  all: destruct Hd as [Hq Hc]; destruct (submit_closed cmd wait m s Hc) as (-> & -> & -> & _); done.
Qed.

Lemma loop_drained processed now s : drained (loop_step processed now s).
Proof.
  unfold loop_step. destruct (_ <=? _)%nat; [done|]. unfold worker_fetch_locked.
  destruct (stopping (actor s)) eqn:Hs; [exact Hs|].
  destruct (negb _); [done|]. destruct (queue_pop_locked (actor s)) as [[i|] a1]; [|done].
  by destruct (requests (heap s) !! i).
Qed.

Lemma initialized_drained q result now s :
  sys_inv q s -> worker s = WorkerInitializing -> drained (initialized_step result now s).
Proof.
  intros Hinv Hw. unfold initialized_step, actor_initialize_worker.
  set (ok := negb _ || result). destruct (initialize_finished_core ok now (actor s)) as [E E8].
  assert (Hrun : ok = false -> running (initialize_finished ok now (actor s)) = false) by by intros ->.
  set (a2 := initialize_finished ok now (actor s)) in *. clearbody a2.
  destruct ok; cbn [negb]; [done|].
  set (s2 := { s with actor := a2; worker := WorkerInitFailed }).
  assert (H2 : sys_inv q s2) by (apply (sys_inv_core q s); unfold s2; rproj; rewrite ?Hw; done).
  destruct (reject_step_drains q _ H2) as [D1 D2]. unfold reject_step in D1, D2.
  change (actor s2) with a2 in D1, D2. change (heap s2) with (heap s) in D1, D2.
  destruct (reject_and_free a2 (heap s)) as [a3 h3]. split; [exact D1|]. left.
  destruct D2 as (_ & D2 & _). rewrite <- (Hrun eq_refl). exact D2.
Qed.

Lemma step_drained q s s' : actor_step s s' -> sys_inv q s -> drained s -> drained s'.
Proof.
  intros Hstep Hinv Hd. pose proof (si_control _ _ Hinv) as [Hc1 Hc2]. destruct Hstep.
  - by apply submit_drained.
  - destruct Hinv as [[Hr Hm] _ _ _ _]. unfold wait_finish_step.
    destruct (mem_ok_wait_finish _ _ _ i (actor s) Hm H) as (r & _ & Hs).
    destruct (wait_finish_locked i (actor s) (heap s)) as [[st a'] h'].
    destruct Hs as (_ & (_ & E1 & E2 & _) & _ & _ & E3 & _).
    apply (drained_frame s); try done; cbn; congruence.
  - unfold direct_begin_locked. destruct (negb _); [by apply (drained_frame s)|].
    destruct (_ || _); by apply (drained_frame s).
  - apply (drained_frame s); try done; unfold direct_finish_locked;
      destruct (negb (_ || _)), ok; done.
  - destruct (decide (worker s = WorkerNone)) as [Hw|Hw].
    + destruct (start_locked now (actor s)) as [[b|] a]; unfold drained; rproj; by rewrite Hw.
    + rewrite H in Hc1. unfold start_locked. destruct (running (actor s)); [by apply (drained_frame s)|].
      rewrite (proj2 Hc1 Hw). by apply (drained_frame s).
  - done.
  - by apply (drained_frame s).
  - by apply (drained_frame s).
  - apply (drained_frame s); try done; unfold media_actor_activate; by destruct (_ && _).
  - by apply (drained_frame s).
  - by apply (drained_frame s).
  - apply (drained_frame s); try done; unfold stop_begin_locked; by destruct (negb _).
  - done.
  - unfold drained. assert (worker (reject_step s) = WorkerNone) as ->; [|done].
    unfold reject_step. by destruct (reject_and_free _ _).
  - done.
  - by apply (initialized_drained q).
  - unfold drained in *. rewrite H in Hd. exact Hd.
  - apply loop_drained.
  - unfold executed_step. by destruct (actor_execute_request _ _ _ _ _ _).
  - done.
  - destruct (reject_step_drains q s Hinv) as [D1 (_ & _ & D2 & _)].
    unfold drained in Hd. rewrite H in Hd. split; [exact D1|]. right. rewrite <- Hd. exact D2.
  - unfold drained in Hd. rewrite H in Hd. destruct Hd as [Hd _]. split; [exact Hd | by left].
Qed.

Lemma reachable_drained c s : reachable c s -> exists q, sys_inv q s /\ drained s.
Proof.
  intros (a & Hc & Hs). pose proof (init_inv c a Hc) as H0.
  assert (Hd : drained (system_init a)) by done. revert H0 Hd.
  generalize (@nil rid). induction Hs as [s|s s1 s' Hstep _ IH]; intros q Hq Hd; [by exists q|].
  destruct (actor_step_keeps _ _ _ Hstep Hq) as [q1 Hq1]. apply (IH q1); [done|].
  by apply (step_drained q s).
Qed.

(** ** An example run *)

(** An example: two commands are submitted, the second by a waiting thread, and
    the worker has begun the first. *)
Definition demo_created : System :=
  system_init (mkActor demo_actor_config [None; None; None] 0 0 false false false false false
                 false false health_zero 0 0).
Definition demo_begun : System :=
  { demo_created with actor := (start_locked 10 (actor demo_created)).2; starter := StarterBegun }.
Definition demo_looping : System :=
  initialized_step true 20
    { demo_begun with actor -> thread_started := true; actor -> worker_identity_valid := true;
                      worker := WorkerInitializing; starter := StarterNone }.
Definition demo_cmd : MediaActorCommand :=
  mkCommand 0 (Some MEDIA_ACTOR_COMMAND_PLAY) MEDIA_ACTOR_PRODUCER_UI 5 1 None None 0 false
    (Some 77) true true.
Definition demo_queued : System :=
  submit_step (Some (demo_command MEDIA_ACTOR_COMMAND_PAUSE 0)) true (mkAllocations true true true)
    (submit_step (Some demo_cmd) false (mkAllocations true true true) demo_looping).
Definition demo_busy : System := loop_step 0 30 demo_queued.

(** Evaluates the current state of a run. *)
Ltac eval_state :=
  lazymatch goal with
  | |- rtc _ ?s _ =>
      let s' := eval vm_compute in s in
      replace s with s' by (vm_compute; reflexivity)
  end.
Ltac run_step c := eapply rtc_l; [apply c; reflexivity|]; eval_state.
Ltac run_done :=
  lazymatch goal with
  | |- rtc _ ?s ?t => replace t with s by (vm_compute; reflexivity); apply rtc_refl
  end.

Lemma demo_busy_reachable : reachable demo_actor_config demo_busy.
Proof.
  exists (actor demo_created). split; [reflexivity|].
  change (system_init _) with demo_created. eval_state.
  run_step (step_start 10). run_step step_thread_created. run_step step_start_finished.
  run_step step_thread_main. run_step (step_initialized true 20).
  run_step (step_submit (Some demo_cmd) false (mkAllocations true true true)).
  run_step (step_submit (Some (demo_command MEDIA_ACTOR_COMMAND_PAUSE 0)) true (mkAllocations true true true)).
  run_step (step_loop 0 30). run_done.
Qed.

Example demo_busy_state :
  worker demo_busy = WorkerExecuting 0%nat 0%nat /\ ring_contents (actor demo_busy) = [1%nat] /\
  waiters demo_busy = [1%nat] /\ issued demo_busy = 2 /\
  opaque_calls (heap demo_busy) = [Retain 77].
Proof. vm_compute. by split_and!. Qed.

(** The end of the run: both commands are served and the waiting thread returns. *)
Definition demo_idle : System :=
  (wait_finish_step 1%nat
    (executed_step 1%nat 1 true false 50
      (loop_step 1 45 (executed_step 0%nat 0 true true 40 demo_busy)))).2.

Lemma demo_idle_reachable : reachable demo_actor_config demo_idle.
Proof.
  destruct demo_busy_reachable as (a & Ha & Hs). exists a. split; [done|]. etrans; [exact Hs|].
  eval_state. run_step (step_executed 0%nat 0 true true 40). run_step (step_loop 1 45).
  run_step (step_executed 1%nat 1 true false 50).
  eapply rtc_l; [apply (step_wait_finish 1%nat); by apply list_elem_of_singleton|]. run_done.
Qed.

(** The same run stopped while the first command executes. *)
Definition demo_stopped : System :=
  let s := executed_step 0%nat 0 true true 40
             { demo_busy with actor := (stop_begin_locked (actor demo_busy)).2 } in
  let s1 := { reject_step (loop_step 1 45 s) with worker := WorkerFinalizing } in
  { s1 with actor := finish_worker_locked 50 (actor s1); worker := WorkerExited }.

Lemma demo_stopped_reachable : reachable demo_actor_config demo_stopped.
Proof.
  destruct demo_busy_reachable as (a & Ha & Hs). exists a. split; [done|]. etrans; [exact Hs|].
  eval_state. run_step step_stop_begin. run_step (step_executed 0%nat 0 true true 40).
  run_step (step_loop 1 45). run_step step_finish_reject. run_step (step_finalized 50). run_done.
Qed.

(** A start that fails to create the thread while a command is submitted. *)
Definition demo_start_failed : System :=
  let s := submit_step (Some demo_cmd) true (mkAllocations true true true) demo_begun in
  { s with actor := (start_finish_locked false (actor s)).2; starter := StarterNone }.

Lemma demo_start_failed_reachable : reachable demo_actor_config demo_start_failed.
Proof.
  exists (actor demo_created). split; [reflexivity|].
  change (system_init _) with demo_created. eval_state. run_step (step_start 10).
  run_step (step_submit (Some demo_cmd) true (mkAllocations true true true)).
  run_step step_start_failed. run_done.
Qed.

(** ** Guarantees *)

(** C4: Requests are neither leaked nor used after they are freed: in every
    reachable state no address of a freed request was ever followed, the live
    requests are exactly those the worker executes, the ring holds or a thread
    waits for, and each opaque object was retained exactly as often as it was
    released or is still held by a live request. *)
Theorem requests_memory_safe (c : MediaActorConfig) (s : System) (Hreach : reachable c s) :
  heap_fault (heap s) = false /\
  (forall i, is_Some (requests (heap s) !! i) <->
     i ∈ executing (worker s) \/ i ∈ ring_contents (actor s) \/ i ∈ waiters s) /\
  (forall o, retains o (opaque_calls (heap s)) =
     (releases o (opaque_calls (heap s)) + holders o (requests (heap s)))%nat) /\
  (executing (worker s) = [] -> ring_contents (actor s) = [] -> waiters s = [] ->
     requests (heap s) = ∅ /\
     forall o, retains o (opaque_calls (heap s)) = releases o (opaque_calls (heap s))).
Proof.
  destruct (reachable_inv c s Hreach) as [q [[Hr Hm] [_ Ho] _ _ _]].
  rewrite (ring_contents_repr _ _ Hr).
  assert (Hl : forall i, is_Some (requests (heap s) !! i) <->
    i ∈ executing (worker s) \/ i ∈ q \/ i ∈ waiters s)
    by (intros i; rewrite (mo_live _ _ _ Hm), elem_of_app; tauto).
  split; [by apply (mo_fault _ _ _ Hm)|]. split; [done|]. split; [done|]. intros E1 E2 E3.
  assert (He : requests (heap s) = ∅).
  { apply map_eq. intros i. rewrite lookup_empty. apply eq_None_not_Some. rewrite Hl, E1, E2, E3.
    rewrite !elem_of_nil. tauto. }
  split; [done|]. intros o. rewrite Ho, He. unfold holders.
  rewrite map_filter_empty, map_size_empty. lia.
Qed.

Lemma requests_memory_safe_witness :
  heap_fault (heap demo_busy) = false /\
  (forall i, is_Some (requests (heap demo_busy) !! i) <->
     i ∈ executing (worker demo_busy) \/ i ∈ ring_contents (actor demo_busy) \/ i ∈ waiters demo_busy) /\
  (forall o, retains o (opaque_calls (heap demo_busy)) =
     (releases o (opaque_calls (heap demo_busy)) + holders o (requests (heap demo_busy)))%nat) /\
  (executing (worker demo_busy) = [] -> ring_contents (actor demo_busy) = [] -> waiters demo_busy = [] ->
     requests (heap demo_busy) = ∅ /\
     forall o, retains o (opaque_calls (heap demo_busy)) = releases o (opaque_calls (heap demo_busy))).
Proof. exact (requests_memory_safe _ _ demo_busy_reachable). Defined.

(** C3: As long as command ids have not run out of 64 bits, every command that
    was given an id is executing, queued, being executed directly on the
    worker's thread, or has ended, and exactly one of these, once; and the
    worker serves the commands it ends in strictly increasing order of their
    ids, the executing and the queued ones being the next in that order. *)
Theorem commands_end_once_in_order (c : MediaActorConfig) (s : System)
    (Hreach : reachable c s) (Hissued : issued s <= UINT64_MAX) :
  let open := ids (heap s) (executing (worker s) ++ ring_contents (actor s)) in
  open ++ directs s ++ map fst (history s) ≡ₚ seqZ 1 (issued s) /\
  StronglySorted Z.lt (served (history s) ++ open).
Proof.
  cbv zeta. destruct (reachable_inv c s Hreach) as [q [[Hr _] _ _ _ Hi]].
  rewrite (ring_contents_repr _ _ Hr). by destruct (Hi Hissued) as [_ [? _ ?] _].
Qed.

Lemma commands_end_once_in_order_witness :
  let open := ids (heap demo_busy) (executing (worker demo_busy) ++ ring_contents (actor demo_busy)) in
  open ++ directs demo_busy ++ map fst (history demo_busy) ≡ₚ seqZ 1 (issued demo_busy) /\
  StronglySorted Z.lt (served (history demo_busy) ++ open).
Proof. apply (commands_end_once_in_order _ _ demo_busy_reachable). by vm_compute. Defined.

(** When [media_actor_wait_idle] returns true the actor is idle: the ring is
    empty, no command is being executed, and every request a thread still waits
    for has been completed; and it returns true whenever that is the case. *)
Theorem wait_idle_sound (c : MediaActorConfig) (s : System)
    (Hreach : reachable c s) (Hissued : issued s <= UINT64_MAX) :
  (actor_idle (actor s) = true <-> ring_contents (actor s) = [] /\ executing (worker s) = []) /\
  (actor_idle (actor s) = true -> forall i, i ∈ waiters s ->
     exists r, requests (heap s) !! i = Some r /\ completed r = true).
Proof.
  destruct (reachable_inv c s Hreach) as [q [[Hr Hm] _ _ _ Hi]].
  rewrite (ring_contents_repr _ _ Hr). destruct (Hi Hissued) as [_ [_ Hb _] Hcur].
  assert (Hidle : actor_idle (actor s) = true <-> q = [] /\ executing (worker s) = []).
  { unfold actor_idle. rewrite (ring_count _ _ Hr), Hcur, andb_true_iff, Nat.eqb_eq, Z.eqb_eq.
    rewrite length_zero_iff_nil. apply and_iff_compat_l.
    destruct (executing (worker s)) as [|i l]; [done|]. split; [|done]. intros E.
    apply Forall_app in Hb as [_ Hb]. apply Forall_cons in Hb as [Hb _]. lia. }
  split; [done|]. intros [-> E]%Hidle i Hi'. rewrite E in Hm.
  destruct (proj2 (mo_live _ _ _ Hm i)) as [r Hri]; [by right|]. exists r. split; [done|].
  rewrite (mo_completed _ _ _ Hm i r Hri). rewrite bool_decide_eq_false_2; [done|].
  apply not_elem_of_nil.
Qed.

Lemma wait_idle_sound_witness :
  (actor_idle (actor demo_idle) = true <->
     ring_contents (actor demo_idle) = [] /\ executing (worker demo_idle) = []) /\
  (actor_idle (actor demo_idle) = true -> forall i, i ∈ waiters demo_idle ->
     exists r, requests (heap demo_idle) !! i = Some r /\ completed r = true).
Proof. apply (wait_idle_sound _ _ demo_idle_reachable). by vm_compute. Defined.

(** C7: A stop drains the actor and strands nobody: when the worker has exited,
    whatever was submitted before, meanwhile or after the stop, the ring is empty
    and no command is executing, every request a thread still waits for has been
    completed, and a further submit, whatever the command, is refused without
    being queued or given an id. *)
Theorem stopped_actor_is_drained (c : MediaActorConfig) (s : System)
    (Hreach : reachable c s) (Hexited : worker s = WorkerExited) :
  ring_contents (actor s) = [] /\
  (forall i, i ∈ waiters s -> exists r, requests (heap s) !! i = Some r /\ completed r = true) /\
  (forall cmd wait m, exists st a' h',
     actor_submit cmd wait m (actor s) (heap s) = (SubmitRefused st, a', h') /\
     ring_contents a' = []).
Proof.
  destruct (reachable_drained c s Hreach) as (q & Hinv & Hd). pose proof Hinv as [[Hr Hm] _ _ _ _].
  unfold drained in Hd. rewrite Hexited in Hd, Hm. destruct Hd as [Hq Hclosed].
  rewrite (ring_count _ _ Hr) in Hq. apply length_zero_iff_nil in Hq as ->. cbn [executing app] in Hm.
  split; [by apply ring_contents_repr|]. split.
  - intros i Hi. destruct (proj2 (mo_live _ _ _ Hm i)) as [r Hri]; [by right|]. exists r.
    split; [done|]. rewrite (mo_completed _ _ _ Hm i r Hri). by rewrite bool_decide_eq_false_2 by set_solver.
  - intros cmd wait m. unfold actor_submit.
    destruct (negb (command_valid cmd)); [by eexists _, _, _; split; [|apply ring_contents_repr]|].
    destruct cmd as [k|]; [|by eexists _, _, _; split; [|apply ring_contents_repr]].
    destruct (request_create k m (heap s)) as [[i|] h1];
      [|by eexists _, _, _; split; [|apply ring_contents_repr]].
    unfold submit_locked. destruct (running (actor s)) eqn:Hrun; cbn [negb].
    + destruct Hclosed as [?|Hst]; [congruence|]. rewrite Hst. cbn [orb]. eexists _, _, _.
      split; [done|]. apply ring_contents_repr. by apply (ring_repr_ext (actor s)).
    + by eexists _, _, _; split; [|apply ring_contents_repr].
Qed.

Lemma stopped_actor_is_drained_witness :
  ring_contents (actor demo_stopped) = [] /\
  (forall i, i ∈ waiters demo_stopped ->
     exists r, requests (heap demo_stopped) !! i = Some r /\ completed r = true) /\
  (forall cmd wait m, exists st a' h',
     actor_submit cmd wait m (actor demo_stopped) (heap demo_stopped) = (SubmitRefused st, a', h') /\
     ring_contents a' = []).
Proof. apply (stopped_actor_is_drained _ _ demo_stopped_reachable). by vm_compute. Defined.

(** A failed start strands requests: a command submitted while
    [media_actor_start] creates the thread is queued, and when the creation fails
    it stays queued, not completed, with its thread waiting; stopping the actor
    then does nothing and starting it again is always refused, so that only
    destroying the actor completes the request. *)
Theorem failed_start_strands_requests :
  exists c s i r, reachable c s /\ worker s = WorkerNone /\ starter s = StarterNone /\
    running (actor s) = false /\ i ∈ waiters s /\ ring_contents (actor s) = [i] /\
    requests (heap s) !! i = Some r /\ completed r = false /\
    stop_begin_locked (actor s) = (false, actor s) /\
    forall now, start_locked now (actor s) = (Some false, actor s).
Proof.
  exists demo_actor_config, demo_start_failed, 0%nat,
    (mkRequest { demo_cmd with command_id := 1 } MEDIA_ACTOR_SUBMIT_ACCEPTED false true 2).
  split; [exact demo_start_failed_reachable|]. split_and!; try (vm_compute; reflexivity).
  by apply list_elem_of_singleton.
Qed.
