(* ===== verification/MirrorClock.v ===== *)
(** * The mirroring clock (protocol/airplay/mirror/clock.c)

    Maps the sender's NTP timestamps of video frames and RTP timestamps of audio
    packets to one presentation timeline of 90000 ticks a second.

    Signed 64-bit arithmetic is checked: a definition is [None] where the C code
    would overflow, and the theorems show that it does not.  The clock and the
    result pointers are never NULL here; the source refuses NULL in every
    function before it does anything else. *)

From S2P Require Import Prelude.

(** ** Constants and data *)

(* src: source/protocol/airplay/mirror/clock.h AIRPLAY_MIRROR_CLOCK_TIME_BASE *)
Definition AIRPLAY_MIRROR_CLOCK_TIME_BASE : Z := 90000.
(* src: source/protocol/airplay/mirror/clock.h AIRPLAY_MIRROR_CLOCK_MAX_SKEW_TICKS *)
Definition AIRPLAY_MIRROR_CLOCK_MAX_SKEW_TICKS : Z := 2 * AIRPLAY_MIRROR_CLOCK_TIME_BASE.
(* src: source/protocol/airplay/mirror/clock.c AIRPLAY_CLOCK_CORRECTION_DEADBAND_TICKS *)
Definition AIRPLAY_CLOCK_CORRECTION_DEADBAND_TICKS : Z := 90.
(* src: source/protocol/airplay/mirror/clock.c AIRPLAY_CLOCK_MAX_CORRECTION_TICKS *)
Definition AIRPLAY_CLOCK_MAX_CORRECTION_TICKS : Z := 450.
(* src: source/protocol/airplay/mirror/clock.c AIRPLAY_CLOCK_SYNC_JUMP_TICKS *)
Definition AIRPLAY_CLOCK_SYNC_JUMP_TICKS : Z := 22500.
(* src: source/protocol/airplay/mirror/clock.c AIRPLAY_CLOCK_VIDEO_BACKWARD_TICKS *)
Definition AIRPLAY_CLOCK_VIDEO_BACKWARD_TICKS : Z := 9000.
(* src: source/protocol/airplay/mirror/clock.c AIRPLAY_CLOCK_VIDEO_FORWARD_TICKS *)
Definition AIRPLAY_CLOCK_VIDEO_FORWARD_TICKS : Z := 900000.

(* src: source/protocol/airplay/mirror/clock.h AirPlayMirrorClockResult *)
Inductive AirPlayMirrorClockResult :=
| AIRPLAY_MIRROR_CLOCK_OK
| AIRPLAY_MIRROR_CLOCK_WAITING_FOR_SYNC
| AIRPLAY_MIRROR_CLOCK_DISCONTINUITY
| AIRPLAY_MIRROR_CLOCK_OUT_OF_RANGE.

(* src: source/protocol/airplay/mirror/clock.h 21-41 AirPlayMirrorClockStats *)
Record AirPlayMirrorClockStats := mkClockStats {
  st_generation : Z;
  audio_sync_updates : Z;
  audio_corrections : Z;
  discontinuities : Z;
  unsynced_audio_drops : Z;
  skew_audio_drops : Z;
  video_jitter_us : Z;
  audio_jitter_us : Z;
  av_skew_ticks : Z;
  max_abs_av_skew_ticks : Z;
  drift_ppm : Z;
  candidate_audio_pts : Z;
  st_last_video_pts : Z;
  st_video_anchor_ntp : Z;
  st_audio_sync_ntp : Z;
  st_audio_sync_rtp : Z;
  st_video_ready : bool;
  st_audio_sync_ready : bool
}.
#[export] Instance eta_clock_stats : Eta AirPlayMirrorClockStats := fun s =>
  mkClockStats (st_generation s) (audio_sync_updates s) (audio_corrections s) (discontinuities s)
    (unsynced_audio_drops s) (skew_audio_drops s) (video_jitter_us s) (audio_jitter_us s)
    (av_skew_ticks s) (max_abs_av_skew_ticks s) (drift_ppm s) (candidate_audio_pts s)
    (st_last_video_pts s) (st_video_anchor_ntp s) (st_audio_sync_ntp s) (st_audio_sync_rtp s)
    (st_video_ready s) (st_audio_sync_ready s).

Definition stats_zero : AirPlayMirrorClockStats :=
  mkClockStats 0 0 0 0 0 0 0 0 0 0 0 0 0 0 0 0 false false.

(* src: source/protocol/airplay/mirror/clock.c AirPlayClockArrival *)
Record AirPlayClockArrival := mkArrival {
  source_pts : Z;
  arrival_time_us : Z;
  jitter_us : Z;
  arrival_ready : bool
}.

Definition arrival_zero : AirPlayClockArrival := mkArrival 0 0 0 false.

(* src: source/protocol/airplay/mirror/clock.c 21-42 AirPlayMirrorClock *)
Record AirPlayMirrorClock := mkClock {
  sample_rate : Z;
  video_anchor_ntp : Z;
  video_anchor_pts : Z;
  last_video_ntp : Z;
  last_video_pts : Z;
  last_audio_pts : Z;
  audio_sync_rtp : Z;
  audio_sync_ntp : Z;
  audio_adjust_ticks : Z;
  previous_sync_rtp : Z;
  previous_sync_ntp : Z;
  video_arrival : AirPlayClockArrival;
  audio_arrival : AirPlayClockArrival;
  stats : AirPlayMirrorClockStats;
  video_ready : bool;
  audio_sync_ready : bool;
  audio_ready : bool;
  previous_sync_ready : bool;
  audio_only : bool
}.
#[export] Instance eta_clock : Eta AirPlayMirrorClock := fun c =>
  mkClock (sample_rate c) (video_anchor_ntp c) (video_anchor_pts c) (last_video_ntp c)
    (last_video_pts c) (last_audio_pts c) (audio_sync_rtp c) (audio_sync_ntp c)
    (audio_adjust_ticks c) (previous_sync_rtp c) (previous_sync_ntp c) (video_arrival c)
    (audio_arrival c) (stats c) (video_ready c) (audio_sync_ready c) (audio_ready c)
    (previous_sync_ready c) (audio_only c).

Definition clock_zero : AirPlayMirrorClock :=
  mkClock 0 0 0 0 0 0 0 0 0 0 0 arrival_zero arrival_zero stats_zero false false false false false.

(* src: source/protocol/airplay/mirror/clock.h 45-51 AirPlayMirrorVideoTimeline *)
Record AirPlayMirrorVideoTimeline := mkTimeline {
  anchor_ntp : Z;
  anchor_pts : Z;
  last_ntp : Z;
  last_pts : Z
}.

(** ** Operations *)

(* src: source/protocol/airplay/mirror/clock.c absolute_i64 *)
Definition absolute_i64 (value : Z) : Z :=
  if 0 <=? value then u64 value else u64 (u64 (- (value + 1)) + 1).

(** The difference wraps like the unsigned subtraction; the rest cannot
    overflow. *)
(* src: source/protocol/airplay/mirror/clock.c ntp_delta_to_90k *)
Definition ntp_delta_to_90k (timestamp anchor : Z) : option Z :=
  let delta := i64 (timestamp - anchor) in
  let seconds := Z.quot delta 4294967296 in
  let fraction := Z.rem delta 4294967296 in
  s ← chk64 (seconds * AIRPLAY_MIRROR_CLOCK_TIME_BASE);
  f ← chk64 (fraction * AIRPLAY_MIRROR_CLOCK_TIME_BASE);
  chk64 (s + Z.quot f 4294967296).

(* src: source/protocol/airplay/mirror/clock.c airplay_mirror_clock_ntp_to_90k *)
Definition airplay_mirror_clock_ntp_to_90k (ntp_timestamp : Z) : Z :=
  let seconds := Z.shiftr ntp_timestamp 32 in
  let fraction := Z.land ntp_timestamp UINT32_MAX in
  if INT64_MAX / AIRPLAY_MIRROR_CLOCK_TIME_BASE <? seconds then INT64_MAX
  else i64 (u64 (u64 (seconds * AIRPLAY_MIRROR_CLOCK_TIME_BASE) +
                 u64 (fraction * AIRPLAY_MIRROR_CLOCK_TIME_BASE) / 4294967296)).

(* src: source/protocol/airplay/mirror/clock.c update_jitter *)
Definition update_jitter (arrival : AirPlayClockArrival) (pts local_time_us : Z)
    : option AirPlayClockArrival :=
  jitter ←
    (if arrival_ready arrival && (arrival_time_us arrival <=? local_time_us) then
       source_delta ← chk64 (pts - source_pts arrival);
       let local_delta := u64 (local_time_us - arrival_time_us arrival) in
       source_scaled ← chk64 (source_delta * 1000000);
       let source_us := Z.quot source_scaled AIRPLAY_MIRROR_CLOCK_TIME_BASE in
       variation ← chk64 (i64 local_delta - source_us);
       Some (u64 (u64 (jitter_us arrival * 15) + absolute_i64 variation + 8) / 16)
     else Some (jitter_us arrival));
  Some (mkArrival pts local_time_us jitter true).

(* src: source/protocol/airplay/mirror/clock.c map_video_ntp *)
Definition map_video_ntp (clock : AirPlayMirrorClock) (ntp_timestamp : Z) : option Z :=
  delta ← ntp_delta_to_90k ntp_timestamp (video_anchor_ntp clock);
  chk64 (video_anchor_pts clock + delta).

(* src: source/protocol/airplay/mirror/clock.c update_skew *)
Definition update_skew (clock : AirPlayMirrorClock) : option AirPlayMirrorClock :=
  if negb (video_ready clock) || negb (audio_ready clock) then Some clock
  else
    skew ← chk64 (last_audio_pts clock - last_video_pts clock);
    let clock1 := { clock with stats -> av_skew_ticks := skew } in
    let absolute := absolute_i64 skew in
    Some (if u64 (max_abs_av_skew_ticks (stats clock1)) <? absolute
          then { clock1 with stats -> max_abs_av_skew_ticks :=
                   (if INT64_MAX <? absolute then INT64_MAX else absolute) }
          else clock1).

(* src: source/protocol/airplay/mirror/clock.c reset_audio_mapping *)
Definition reset_audio_mapping (clock : AirPlayMirrorClock) : AirPlayMirrorClock :=
  { clock with audio_sync_ready := false; audio_ready := false; previous_sync_ready := false;
               audio_adjust_ticks := 0; audio_arrival := arrival_zero }.

(** [calloc] succeeds when [allocated]. *)
(* src: source/protocol/airplay/mirror/clock.c airplay_mirror_clock_create *)
Definition airplay_mirror_clock_create (allocated : bool) : option AirPlayMirrorClock :=
  if allocated then Some { clock_zero with stats -> st_generation := 1 } else None.

(* src: source/protocol/airplay/mirror/clock.c airplay_mirror_clock_reset *)
Definition airplay_mirror_clock_reset (clock : AirPlayMirrorClock) : AirPlayMirrorClock :=
  let generation := inc32 (st_generation (stats clock)) in
  { clock_zero with sample_rate := sample_rate clock;
                    audio_only := audio_only clock;
                    stats -> st_generation := if generation =? 0 then 1 else generation }.

(* src: source/protocol/airplay/mirror/clock.c airplay_mirror_clock_set_audio_only *)
Definition airplay_mirror_clock_set_audio_only (audio_only' : bool) (clock : AirPlayMirrorClock)
    : AirPlayMirrorClock :=
  { clock with audio_only := audio_only' }.

(* src: source/protocol/airplay/mirror/clock.c airplay_mirror_clock_set_audio_rate *)
Definition airplay_mirror_clock_set_audio_rate (rate : Z) (clock : AirPlayMirrorClock)
    : bool * AirPlayMirrorClock :=
  if (rate <? 8000) || (192000 <? rate) then (false, clock)
  else
    let clock1 := if negb (sample_rate clock =? 0) && negb (sample_rate clock =? rate)
                  then reset_audio_mapping clock else clock in
    (true, { clock1 with sample_rate := rate }).

(** The time an audio packet was predicted to have, by the mapping in force. *)
(* src: source/protocol/airplay/mirror/clock.c 324-328 airplay_mirror_clock_map_audio *)
Definition predict_audio (clock : AirPlayMirrorClock) (rtp_timestamp : Z) : option Z :=
  let rtp_delta := i32 (rtp_timestamp - audio_sync_rtp clock) in
  base ← map_video_ntp clock (audio_sync_ntp clock);
  sum ← chk64 (base + audio_adjust_ticks clock);
  scaled ← chk64 (rtp_delta * AIRPLAY_MIRROR_CLOCK_TIME_BASE);
  chk64 (sum + Z.quot scaled (sample_rate clock)).

(** The adjustment after a new synchronisation point. *)
(* src: source/protocol/airplay/mirror/clock.c 197-231 airplay_mirror_clock_update_audio_sync *)
Definition correct_audio (rtp_timestamp ntp_timestamp : Z) (clock : AirPlayMirrorClock)
    : option (AirPlayMirrorClockResult * AirPlayMirrorClock) :=
  if audio_sync_ready clock && video_ready clock then
    predicted ← predict_audio clock rtp_timestamp;
    observed ← map_video_ntp clock ntp_timestamp;
    correction ← chk64 (observed - predicted);
    if AIRPLAY_CLOCK_SYNC_JUMP_TICKS <? absolute_i64 correction then
      Some (AIRPLAY_MIRROR_CLOCK_DISCONTINUITY,
            { clock with stats -> discontinuities ::= inc; stats -> st_generation ::= inc32;
                         audio_adjust_ticks := 0; audio_ready := false;
                         audio_arrival := arrival_zero })
    else if AIRPLAY_CLOCK_CORRECTION_DEADBAND_TICKS <? absolute_i64 correction then
      let applied :=
        if AIRPLAY_CLOCK_MAX_CORRECTION_TICKS <? correction then AIRPLAY_CLOCK_MAX_CORRECTION_TICKS
        else if correction <? - AIRPLAY_CLOCK_MAX_CORRECTION_TICKS
             then - AIRPLAY_CLOCK_MAX_CORRECTION_TICKS
        else correction in
      sum ← chk64 (predicted + applied);
      adjust ← chk64 (sum - observed);
      Some (AIRPLAY_MIRROR_CLOCK_OK,
            { clock with audio_adjust_ticks := adjust; stats -> audio_corrections ::= inc })
    else
      adjust ← chk64 (predicted - observed);
      Some (AIRPLAY_MIRROR_CLOCK_OK, { clock with audio_adjust_ticks := adjust })
  else Some (AIRPLAY_MIRROR_CLOCK_OK, clock).

(* src: source/protocol/airplay/mirror/clock.c 232-251 airplay_mirror_clock_update_audio_sync *)
Definition measure_drift (rtp_timestamp ntp_timestamp : Z) (clock : AirPlayMirrorClock)
    : option AirPlayMirrorClock :=
  if previous_sync_ready clock then
    let rtp_delta := i32 (rtp_timestamp - previous_sync_rtp clock) in
    ntp_delta ← ntp_delta_to_90k ntp_timestamp (previous_sync_ntp clock);
    if (0 <? rtp_delta) && (0 <? ntp_delta) &&
       (ntp_delta <? 60 * AIRPLAY_MIRROR_CLOCK_TIME_BASE) then
      product ← chk64 (ntp_delta * sample_rate clock);
      let expected := Z.quot product AIRPLAY_MIRROR_CLOCK_TIME_BASE in
      if 0 <? expected then
        difference ← chk64 (rtp_delta - expected);
        scaled ← chk64 (difference * 1000000);
        let observed_ppm := Z.quot scaled expected in
        weighted ← chk64 (drift_ppm (stats clock) * 7);
        total ← chk64 (weighted + observed_ppm);
        Some { clock with stats -> drift_ppm := Z.quot total 8 }
      else Some clock
    else Some clock
  else Some clock.

(** In audio-only mode the first synchronisation point anchors the timeline. *)
(* src: source/protocol/airplay/mirror/clock.c 189-196 airplay_mirror_clock_update_audio_sync *)
Definition anchor_audio_only (ntp_timestamp : Z) (clock : AirPlayMirrorClock) : AirPlayMirrorClock :=
  if audio_only clock && negb (video_ready clock) then
    { clock with video_anchor_ntp := ntp_timestamp; video_anchor_pts := 0;
                 last_video_ntp := ntp_timestamp; last_video_pts := 0; video_ready := true }
  else clock.

(* src: source/protocol/airplay/mirror/clock.c airplay_mirror_clock_update_audio_sync *)
Definition airplay_mirror_clock_update_audio_sync (rtp_timestamp ntp_timestamp : Z)
    (clock : AirPlayMirrorClock) : option (AirPlayMirrorClockResult * AirPlayMirrorClock) :=
  if (sample_rate clock =? 0) || (ntp_timestamp =? 0)
  then Some (AIRPLAY_MIRROR_CLOCK_OUT_OF_RANGE, clock)
  else
    '(result, clock1) ← correct_audio rtp_timestamp ntp_timestamp
                          (anchor_audio_only ntp_timestamp clock);
    clock2 ← measure_drift rtp_timestamp ntp_timestamp clock1;
    Some (result,
          { clock2 with previous_sync_rtp := rtp_timestamp; previous_sync_ntp := ntp_timestamp;
                        previous_sync_ready := true; audio_sync_rtp := rtp_timestamp;
                        audio_sync_ntp := ntp_timestamp; audio_sync_ready := true;
                        stats -> audio_sync_updates ::= inc }).

(** The presentation time of a frame, and the clock it is computed on. *)
(* src: source/protocol/airplay/mirror/clock.c 271-300 airplay_mirror_clock_map_video *)
Definition place_video (ntp_timestamp : Z) (clock : AirPlayMirrorClock)
    : option (AirPlayMirrorClockResult * Z * AirPlayMirrorClock) :=
  if negb (video_ready clock) then
    Some (AIRPLAY_MIRROR_CLOCK_OK, 0,
          { clock with video_anchor_ntp := ntp_timestamp; video_anchor_pts := 0; video_ready := true })
  else
    delta ← ntp_delta_to_90k ntp_timestamp (last_video_ntp clock);
    if (delta <? - AIRPLAY_CLOCK_VIDEO_BACKWARD_TICKS) ||
       (AIRPLAY_CLOCK_VIDEO_FORWARD_TICKS <? delta) then
      next ← chk64 (last_video_pts clock + 1);
      Some (AIRPLAY_MIRROR_CLOCK_DISCONTINUITY, next,
            { reset_audio_mapping { clock with video_anchor_ntp := ntp_timestamp;
                                               video_anchor_pts := next }
              with stats -> discontinuities ::= inc; stats -> st_generation ::= inc32 })
    else
      pts ← map_video_ntp clock ntp_timestamp;
      pts' ← (if pts <=? last_video_pts clock then chk64 (last_video_pts clock + 1) else Some pts);
      Some (AIRPLAY_MIRROR_CLOCK_OK, pts', clock).

(* src: source/protocol/airplay/mirror/clock.c airplay_mirror_clock_map_video *)
Definition airplay_mirror_clock_map_video (ntp_timestamp local_time_us : Z)
    (clock : AirPlayMirrorClock) : option (AirPlayMirrorClockResult * option Z * AirPlayMirrorClock) :=
  if ntp_timestamp =? 0 then Some (AIRPLAY_MIRROR_CLOCK_OUT_OF_RANGE, None, clock)
  else
    '(result, pts, clock1) ← place_video ntp_timestamp clock;
    let clock2 := { clock1 with last_video_ntp := ntp_timestamp; last_video_pts := pts } in
    arrival ← update_jitter (video_arrival clock2) pts local_time_us;
    clock3 ← update_skew { clock2 with video_arrival := arrival;
                                       stats -> video_jitter_us := jitter_us arrival };
    Some (result, Some pts, clock3).

(* src: source/protocol/airplay/mirror/clock.c airplay_mirror_clock_map_audio *)
Definition airplay_mirror_clock_map_audio (rtp_timestamp local_time_us : Z)
    (clock : AirPlayMirrorClock) : option (AirPlayMirrorClockResult * option Z * AirPlayMirrorClock) :=
  if sample_rate clock =? 0 then Some (AIRPLAY_MIRROR_CLOCK_OUT_OF_RANGE, None, clock)
  else if negb (video_ready clock) || negb (audio_sync_ready clock) then
    Some (AIRPLAY_MIRROR_CLOCK_WAITING_FOR_SYNC, None,
          { clock with stats -> unsynced_audio_drops ::= inc })
  else
    pts ← predict_audio clock rtp_timestamp;
    let clock1 := { clock with stats -> candidate_audio_pts := pts } in
    dropped ←
      (if pts <? 0 then Some true
       else
         skew ← chk64 (pts - last_video_pts clock);
         Some (video_ready clock && (AIRPLAY_MIRROR_CLOCK_MAX_SKEW_TICKS <? absolute_i64 skew)));
    if (dropped : bool) then
      Some (AIRPLAY_MIRROR_CLOCK_OUT_OF_RANGE, None, { clock1 with stats -> skew_audio_drops ::= inc })
    else
      next ← chk64 (if audio_ready clock && (pts <=? last_audio_pts clock)
                    then last_audio_pts clock + 1 else pts);
      let clock2 := { clock1 with last_audio_pts := next; audio_ready := true } in
      arrival ← update_jitter (audio_arrival clock2) next local_time_us;
      clock3 ← update_skew { clock2 with audio_arrival := arrival;
                                         stats -> audio_jitter_us := jitter_us arrival };
      Some (AIRPLAY_MIRROR_CLOCK_OK, Some next, clock3).

(* src: source/protocol/airplay/mirror/clock.c airplay_mirror_clock_get_stats *)
Definition airplay_mirror_clock_get_stats (clock : AirPlayMirrorClock) : AirPlayMirrorClockStats :=
  { stats clock with st_last_video_pts := last_video_pts clock;
                     st_video_anchor_ntp := video_anchor_ntp clock;
                     st_audio_sync_ntp := audio_sync_ntp clock;
                     st_audio_sync_rtp := audio_sync_rtp clock;
                     st_video_ready := video_ready clock;
                     st_audio_sync_ready := audio_sync_ready clock }.

(* src: source/protocol/airplay/mirror/clock.c airplay_mirror_clock_get_video_timeline *)
Definition airplay_mirror_clock_get_video_timeline (clock : AirPlayMirrorClock)
    : option AirPlayMirrorVideoTimeline :=
  if negb (video_ready clock) then None
  else Some (mkTimeline (video_anchor_ntp clock) (video_anchor_pts clock) (last_video_ntp clock)
               (last_video_pts clock)).

(* src: source/protocol/airplay/mirror/clock.c airplay_mirror_clock_set_video_timeline *)
Definition airplay_mirror_clock_set_video_timeline (timeline : AirPlayMirrorVideoTimeline)
    (clock : AirPlayMirrorClock) : AirPlayMirrorClock :=
  let clock1 :=
    if video_ready clock && (negb (video_anchor_ntp clock =? anchor_ntp timeline) ||
                             negb (video_anchor_pts clock =? anchor_pts timeline))
    then reset_audio_mapping clock else clock in
  { clock1 with audio_only := false; video_ready := true;
                video_anchor_ntp := anchor_ntp timeline; video_anchor_pts := anchor_pts timeline;
                last_video_ntp := last_ntp timeline; last_video_pts := last_pts timeline }.
