(* ===== verification/MirrorClockSafety.v ===== *)
(** * The mirroring clock is safe (protocol/airplay/mirror/clock.c)

    No sequence of calls on clocks that share their timelines overflows the signed
    arithmetic of [MirrorClock], video is presented in strictly increasing order, and
    synchronisation points correct audio smoothly. *)

From Stdlib Require Import Sorted.
From S2P Require Import Prelude MirrorClock.

(** ** Lemmas: timestamps *)

(** Ticks between two NTP timestamps, rounded towards zero. *)
Definition ticks (delta : Z) : Z := Z.quot (delta * 90000) 4294967296.

Ltac euclid := Z.to_euclidean_division_equations; lia.

Lemma chk64_ok z : - 9223372036854775808 <= z <= 9223372036854775807 -> chk64 z = Some z.
Proof. intros H. apply chk64_some. unfold is_i64, INT64_MAX. lia. Qed.

(** Removes the overflow checks that [lia] shows to pass. *)
Ltac chk := repeat (rewrite chk64_ok by (unfold AIRPLAY_MIRROR_CLOCK_TIME_BASE in *; lia); cbn [mbind option_bind]).

Lemma ticks_bound delta :
  - 9223372036854775808 <= delta <= 9223372036854775807 ->
  - 193273528320000 <= ticks delta <= 193273528320000.
Proof. unfold ticks. intros H. euclid. Qed.

Lemma ticks_split delta :
  ticks delta = Z.quot delta 4294967296 * 90000 + Z.quot (Z.rem delta 4294967296 * 90000) 4294967296.
Proof. unfold ticks. euclid. Qed.

Lemma ticks_add x y : ticks (x + y) <= ticks x + ticks y + 1.
Proof. unfold ticks. euclid. Qed.

Lemma ntp_delta_exact timestamp anchor :
  ntp_delta_to_90k timestamp anchor = Some (ticks (i64 (timestamp - anchor))).
Proof.
  pose proof (i64_range (timestamp - anchor)) as Hr. unfold is_i64, INT64_MAX in Hr.
  rewrite ticks_split. unfold ntp_delta_to_90k. generalize dependent (i64 (timestamp - anchor)). intros d Hd.
  assert (H1 : - 2147483648 <= Z.quot d 4294967296 <= 2147483648) by euclid.
  assert (H2 : - 4294967296 <= Z.rem d 4294967296 <= 4294967296) by euclid.
  assert (H3 : - 90000 <= Z.quot (Z.rem d 4294967296 * 90000) 4294967296 <= 90000) by euclid.
  chk. unfold AIRPLAY_MIRROR_CLOCK_TIME_BASE. chk. done.
Qed.

Lemma absolute_i64_abs z : is_i64 z -> absolute_i64 z = Z.abs z.
Proof. unfold absolute_i64, is_i64, INT64_MAX. intros H. destruct (Z.leb_spec 0 z); width_lia. Qed.

(** The conversion of an NTP timestamp is exact and never saturates: for
    every 64-bit timestamp it is the number of 90 kHz ticks rounded down, although
    the code computes it from the two halves and has a branch for overflow. *)
Theorem ntp_to_90k_exact (ntp : Z) (Hntp : is_u64 ntp) :
  airplay_mirror_clock_ntp_to_90k ntp = ntp * 90000 / 4294967296 /\
  airplay_mirror_clock_ntp_to_90k ntp < INT64_MAX.
Proof.
  assert (E : airplay_mirror_clock_ntp_to_90k ntp = ntp * 90000 / 4294967296).
  { unfold airplay_mirror_clock_ntp_to_90k, AIRPLAY_MIRROR_CLOCK_TIME_BASE.
    rewrite Z.shiftr_div_pow2 by lia. change (2 ^ 32) with 4294967296.
    change UINT32_MAX with (Z.ones 32). rewrite Z.land_ones by lia. change (2 ^ 32) with 4294967296.
    unfold is_u64, UINT64_MAX in Hntp.
    destruct (Z.ltb_spec (INT64_MAX / 90000) (ntp / 4294967296)) as [Hb|_].
    { unfold INT64_MAX in Hb. lia. }
    unfold i64, u64, INT64_MAX. cbv zeta.
    set (a := ntp / 4294967296) in *. set (b := ntp mod 4294967296).
    assert (Hab : ntp = a * 4294967296 + b) by lia.
    assert (Ha : 0 <= a < 4294967296) by lia. assert (Hb : 0 <= b < 4294967296) by lia.
    rewrite !(Z.mod_small _ 18446744073709551616) by lia. rewrite Hab.
    destruct (Z.leb_spec (a * 90000 + b * 90000 / 4294967296) 9223372036854775807); lia. }
  split; [done|]. rewrite E. unfold is_u64, UINT64_MAX, INT64_MAX in *. lia.
Qed.

Lemma ntp_to_90k_exact_witness :
  airplay_mirror_clock_ntp_to_90k UINT64_MAX = UINT64_MAX * 90000 / 4294967296 /\
  airplay_mirror_clock_ntp_to_90k UINT64_MAX < INT64_MAX.
Proof. apply (ntp_to_90k_exact UINT64_MAX). vm_compute. split; discriminate. Defined.

(** ** Lemmas: jitter and skew *)

Definition time_ok (t : Z) : Prop := 0 <= t <= 4611686018427387904.

Lemma update_jitter_ok arrival pts t :
  (arrival_ready arrival = true ->
     - 9223372036854 <= pts - source_pts arrival <= 9223372036854 /\ time_ok (arrival_time_us arrival)) ->
  time_ok t ->
  exists j, update_jitter arrival pts t = Some (mkArrival pts t j true).
Proof.
  intros Ha Ht. unfold update_jitter.
  destruct (arrival_ready arrival) eqn:Hr; cbn [andb]; [|by eexists].
  destruct (Z.leb_spec (arrival_time_us arrival) t) as [Hle|]; [|by eexists].
  destruct (Ha eq_refl) as [Hd Hta]. unfold time_ok in *.
  assert (Hl : i64 (u64 (t - arrival_time_us arrival)) = t - arrival_time_us arrival) by width_lia.
  rewrite Hl. set (d := pts - source_pts arrival) in *.
  assert (Hq : - 102481911520608 <= Z.quot (d * 1000000) 90000 <= 102481911520608) by euclid.
  rewrite (chk64_ok d) by lia. cbn [mbind option_bind].
  rewrite (chk64_ok (d * 1000000)) by lia. cbn [mbind option_bind].
  unfold AIRPLAY_MIRROR_CLOCK_TIME_BASE. rewrite chk64_ok by lia. by eexists.
Qed.

(** Two clocks that differ in statistics and arrivals only. *)
Definition same_mapping (c c' : AirPlayMirrorClock) : Prop :=
  sample_rate c' = sample_rate c /\ video_anchor_ntp c' = video_anchor_ntp c /\
  video_anchor_pts c' = video_anchor_pts c /\ last_video_ntp c' = last_video_ntp c /\
  last_video_pts c' = last_video_pts c /\ last_audio_pts c' = last_audio_pts c /\
  audio_sync_rtp c' = audio_sync_rtp c /\ audio_sync_ntp c' = audio_sync_ntp c /\
  audio_adjust_ticks c' = audio_adjust_ticks c /\ previous_sync_ntp c' = previous_sync_ntp c /\
  video_arrival c' = video_arrival c /\ audio_arrival c' = audio_arrival c /\
  video_ready c' = video_ready c /\ audio_sync_ready c' = audio_sync_ready c /\
  audio_ready c' = audio_ready c /\ previous_sync_ready c' = previous_sync_ready c.

Lemma update_skew_ok c :
  (video_ready c = true -> audio_ready c = true -> is_i64 (last_audio_pts c - last_video_pts c)) ->
  exists c', update_skew c = Some c' /\ same_mapping c c' /\
    drift_ppm (stats c') = drift_ppm (stats c).
Proof.
  intros Hs. unfold update_skew. destruct (video_ready c), (audio_ready c); cbn [negb orb];
    try (eexists; split; [done|]; split; [by repeat split | done]).
  rewrite chk64_some by (by apply Hs). cbn [mbind option_bind]. eexists. split; [done|].
  unfold same_mapping. case_match; rproj; by split_and!.
Qed.

(** ** The invariant *)

(** The timestamps of one run lie in half of the range that starts at [lo]. *)
Definition in_window (lo ntp : Z) : Prop := lo <= ntp < lo + 9223372036854775808.

Lemma window_delta lo x y :
  in_window lo x -> in_window lo y -> ntp_delta_to_90k x y = Some (ticks (x - y)).
Proof.
  unfold in_window. intros Hx Hy. rewrite ntp_delta_exact. do 2 f_equal. width_lia.
Qed.

(** The largest time stamp after [k] calls. *)
Definition reach (k : Z) : Z := 900002 * k + 180000.

(** Of a clock after at most [k] calls. *)
Record clock_inv (lo k : Z) (c : AirPlayMirrorClock) : Prop := {
  ci_count : 0 <= k;
  ci_rate : sample_rate c = 0 \/ 8000 <= sample_rate c <= 192000;
  ci_video : video_ready c = true ->
    in_window lo (video_anchor_ntp c) /\ in_window lo (last_video_ntp c) /\
    0 <= video_anchor_pts c <= last_video_pts c /\ last_video_pts c <= 900002 * k /\
    video_anchor_pts c + ticks (last_video_ntp c - video_anchor_ntp c) <= last_video_pts c;
  ci_sync : audio_sync_ready c = true -> in_window lo (audio_sync_ntp c);
  ci_previous : previous_sync_ready c = true -> in_window lo (previous_sync_ntp c);
  ci_adjust : - 22500 <= audio_adjust_ticks c <= 22500;
  ci_audio : audio_ready c = true -> video_ready c = true /\ 0 <= last_audio_pts c <= reach k;
  ci_video_arrival : arrival_ready (video_arrival c) = true ->
    0 <= source_pts (video_arrival c) <= reach k /\ time_ok (arrival_time_us (video_arrival c));
  ci_audio_arrival : arrival_ready (audio_arrival c) = true ->
    0 <= source_pts (audio_arrival c) <= reach k /\ time_ok (arrival_time_us (audio_arrival c));
  ci_drift : - 3000000000000000 <= drift_ppm (stats c) <= 3000000000000000
}.

(** Ten million calls: the time stamps stay in the range of the arithmetic. *)
Definition max_calls : Z := 10000000.

Lemma clock_inv_mono lo k k' c : clock_inv lo k c -> k <= k' -> clock_inv lo k' c.
Proof.
  intros [H1 H2 H3 H4 H5 H6 H7 H8 H9 H10] Hk. unfold reach in *.
  split; try done; unfold reach; try lia.
  - intros Hv. destruct (H3 Hv) as (? & ? & ? & ? & ?). split_and!; try done; lia.
  - intros Ha. destruct (H7 Ha). split; [done | lia].
  - intros Ha. destruct (H8 Ha). split; [lia | done].
  - intros Ha. destruct (H9 Ha). split; [lia | done].
Qed.

Lemma clock_inv_same lo k c c' :
  clock_inv lo k c -> same_mapping c c' ->
  - 3000000000000000 <= drift_ppm (stats c') <= 3000000000000000 -> clock_inv lo k c'.
Proof.
  intros [H1 H2 H3 H4 H5 H6 H7 H8 H9 H10]
    (E1 & E2 & E3 & E4 & E5 & E6 & E7 & E8 & E9 & E10 & E11 & E12 & E13 & E14 & E15 & E16) Hd.
  split; rewrite ?E1, ?E2, ?E3, ?E4, ?E5, ?E6, ?E7, ?E8, ?E9, ?E10, ?E11, ?E12, ?E13, ?E14, ?E15, ?E16;
    done.
Qed.

Lemma map_video_ok lo k c ntp :
  clock_inv lo k c -> k <= max_calls -> video_ready c = true -> in_window lo ntp ->
  map_video_ntp c ntp = Some (video_anchor_pts c + ticks (ntp - video_anchor_ntp c)).
Proof.
  intros Hi Hk Hv Hw. destruct (ci_video _ _ _ Hi Hv) as (Ha & _ & Hp & Hl & _).
  unfold map_video_ntp. rewrite (window_delta lo) by done. cbn [mbind option_bind].
  unfold in_window, max_calls in *.
  pose proof (ticks_bound (ntp - video_anchor_ntp c) ltac:(lia)). by chk.
Qed.

(** The prediction for an audio packet, without the checks. *)
Definition audio_time (c : AirPlayMirrorClock) (rtp : Z) : Z :=
  video_anchor_pts c + ticks (audio_sync_ntp c - video_anchor_ntp c) + audio_adjust_ticks c +
  Z.quot (i32 (rtp - audio_sync_rtp c) * 90000) (sample_rate c).

Lemma i32_range z : - 2147483648 <= i32 z <= 2147483647.
Proof. width_lia. Qed.

Lemma quot_rate_bound x rate :
  8000 <= rate -> - 193273528320000 <= x <= 193273528320000 ->
  - 193273528320000 <= Z.quot x rate <= 193273528320000.
Proof. intros Hr Hx. Z.to_euclidean_division_equations; nia. Qed.

Lemma audio_time_bound lo k c rtp :
  clock_inv lo k c -> k <= max_calls -> video_ready c = true -> audio_sync_ready c = true ->
  sample_rate c <> 0 -> - 400000000000000 <= audio_time c rtp <= 410000000000000.
Proof.
  intros Hi Hk Hv Hs Hr. destruct (ci_video _ _ _ Hi Hv) as (Ha & _ & Hp & Hl & _).
  pose proof (ci_sync _ _ _ Hi Hs) as Hw. destruct (ci_rate _ _ _ Hi) as [?|Hrate]; [done|].
  pose proof (ci_adjust _ _ _ Hi). unfold audio_time, in_window, max_calls in *.
  pose proof (ticks_bound (audio_sync_ntp c - video_anchor_ntp c) ltac:(lia)).
  pose proof (i32_range (rtp - audio_sync_rtp c)).
  pose proof (quot_rate_bound (i32 (rtp - audio_sync_rtp c) * 90000) (sample_rate c) ltac:(lia) ltac:(lia)).
  lia.
Qed.

Lemma predict_audio_ok lo k c rtp :
  clock_inv lo k c -> k <= max_calls -> video_ready c = true -> audio_sync_ready c = true ->
  sample_rate c <> 0 -> predict_audio c rtp = Some (audio_time c rtp).
Proof.
  intros Hi Hk Hv Hs Hr. pose proof (audio_time_bound lo k c rtp Hi Hk Hv Hs Hr) as Hb.
  destruct (ci_video _ _ _ Hi Hv) as (Ha & _ & Hp & Hl & _).
  pose proof (ci_sync _ _ _ Hi Hs) as Hw. pose proof (ci_adjust _ _ _ Hi).
  unfold predict_audio. rewrite (map_video_ok lo k) by done. cbn [mbind option_bind].
  unfold in_window, max_calls in *.
  pose proof (ticks_bound (audio_sync_ntp c - video_anchor_ntp c) ltac:(lia)).
  pose proof (i32_range (rtp - audio_sync_rtp c)).
  chk. rewrite chk64_ok; [done|]. unfold audio_time, AIRPLAY_MIRROR_CLOCK_TIME_BASE in *. lia.
Qed.

(** *** Synchronisation points *)

(** The part of a correction that is applied at once. *)
Definition applied_correction (correction : Z) : Z :=
  if Z.abs correction <=? 90 then 0 else Z.max (- 450) (Z.min 450 correction).

Lemma correct_audio_ok lo k c rtp ntp :
  clock_inv lo k c -> k <= max_calls -> sample_rate c <> 0 -> in_window lo ntp ->
  exists r c', correct_audio rtp ntp c = Some (r, c') /\ clock_inv lo k c' /\
    sample_rate c' = sample_rate c /\ video_ready c' = video_ready c /\
    video_anchor_ntp c' = video_anchor_ntp c /\ video_anchor_pts c' = video_anchor_pts c /\
    last_video_pts c' = last_video_pts c /\
    (audio_sync_ready c = true -> video_ready c = true ->
     let observed := video_anchor_pts c + ticks (ntp - video_anchor_ntp c) in
     let correction := observed - audio_time c rtp in
     (22500 < Z.abs correction -> r = AIRPLAY_MIRROR_CLOCK_DISCONTINUITY /\ audio_adjust_ticks c' = 0) /\
     (Z.abs correction <= 22500 -> r = AIRPLAY_MIRROR_CLOCK_OK /\
      audio_adjust_ticks c' = audio_time c rtp + applied_correction correction - observed)).
Proof.
  intros Hi Hk Hr Hw. unfold correct_audio.
  destruct (audio_sync_ready c) eqn:Hs, (video_ready c) eqn:Hv; cbn [andb];
    try (by eexists _, _; split_and!).
  rewrite (predict_audio_ok lo k), (map_video_ok lo k) by done. cbn [mbind option_bind].
  pose proof (audio_time_bound lo k c rtp Hi Hk Hv Hs Hr) as Hb.
  destruct (ci_video _ _ _ Hi Hv) as (Ha & _ & Hp & Hl & _).
  assert (Ht : - 193273528320000 <= ticks (ntp - video_anchor_ntp c) <= 193273528320000)
    by (apply ticks_bound; unfold in_window in *; lia).
  unfold max_calls in *.
  set (o := video_anchor_pts c + ticks (ntp - video_anchor_ntp c)) in *. set (p := audio_time c rtp) in *.
  rewrite (chk64_ok (o - p)) by lia. cbn [mbind option_bind].
  rewrite absolute_i64_abs by (unfold is_i64, INT64_MAX; lia).
  unfold AIRPLAY_CLOCK_SYNC_JUMP_TICKS, AIRPLAY_CLOCK_CORRECTION_DEADBAND_TICKS,
    AIRPLAY_CLOCK_MAX_CORRECTION_TICKS.
  destruct (Z.ltb_spec 22500 (Z.abs (o - p))) as [Hj|Hj].
  { eexists _, _. split; [done|]. rproj. split_and!; try done; [|intros _ _; split; [done | lia]].
    destruct Hi as [H1 H2 H3 H4 H5 H6 H7 H8 H9 H10]. by split. }
  destruct (Z.ltb_spec 90 (Z.abs (o - p))) as [Hd|Hd].
  - set (ap := if 450 <? o - p then 450 else _).
    assert (Hap : ap = applied_correction (o - p)).
    { unfold ap, applied_correction. destruct (Z.leb_spec (Z.abs (o - p)) 90); [lia|].
      destruct (Z.ltb_spec 450 (o - p)), (Z.ltb_spec (o - p) (- (450))); lia. }
    assert (Hapb : - 450 <= ap <= 450 /\ Z.abs (ap - (o - p)) <= Z.abs (o - p)).
    { rewrite Hap. unfold applied_correction. destruct (Z.leb_spec (Z.abs (o - p)) 90); lia. }
    rewrite (chk64_ok (p + ap)) by lia. cbn [mbind option_bind].
    rewrite (chk64_ok (p + ap - o)) by lia. cbn [mbind option_bind].
    eexists _, _. split; [done|]. rproj. split_and!; try done; [|intros _ _; split; [lia|by rewrite Hap]].
    destruct Hi as [H1 H2 H3 H4 H5 H6 H7 H8 H9 H10]. split; rproj; try done. lia.
  - rewrite (chk64_ok (p - o)) by lia. cbn [mbind option_bind].
    assert (Hap : applied_correction (o - p) = 0).
    { unfold applied_correction. destruct (Z.leb_spec (Z.abs (o - p)) 90); lia. }
    eexists _, _. split; [done|]. rproj. split_and!; try done;
      [|intros _ _; split; [lia | rewrite Hap; split; [done | lia]]].
    destruct Hi as [H1 H2 H3 H4 H5 H6 H7 H8 H9 H10]. split; rproj; try done. lia.
Qed.

Lemma drift_value_ok rtp_delta product rate drift :
  - 2147483648 <= rtp_delta <= 2147483647 -> 0 < product < 5400000 * 192000 + 1 ->
  rate = Z.quot product 90000 -> 0 < rate ->
  - 3000000000000000 <= drift <= 3000000000000000 ->
  - 2300000000000000 <= Z.quot ((rtp_delta - rate) * 1000000) rate <= 2300000000000000.
Proof.
  intros H1 H2 -> H3 H4. set (e := Z.quot product 90000) in *.
  assert (He : 0 < e <= 11520001) by (split; [done | unfold e; euclid]).
  assert (Hx : - 2200000000000000 <= (rtp_delta - e) * 1000000 <= 2200000000000000) by lia.
  generalize dependent ((rtp_delta - e) * 1000000). intros x Hx.
  clearbody e. Z.to_euclidean_division_equations; nia.
Qed.

Lemma measure_drift_ok lo k c rtp ntp :
  clock_inv lo k c -> in_window lo ntp ->
  exists c', measure_drift rtp ntp c = Some c' /\ same_mapping c c' /\ clock_inv lo k c'.
Proof.
  intros Hi Hw. unfold measure_drift.
  assert (Hsame : exists c', Some c = Some c' /\ same_mapping c c' /\ clock_inv lo k c')
    by (exists c; split; [done | by split; [by repeat split|]]).
  destruct (previous_sync_ready c) eqn:Hp; [|done].
  rewrite (window_delta lo) by (try done; by apply (ci_previous _ _ _ Hi)). cbn [mbind option_bind].
  generalize (ticks (ntp - previous_sync_ntp c)). intros d.
  destruct ((0 <? i32 (rtp - previous_sync_rtp c)) && (0 <? d) && _) eqn:E; [|done].
  bool_cases. rewrite ?Z.ltb_lt in *. unfold AIRPLAY_MIRROR_CLOCK_TIME_BASE in *.
  pose proof (i32_range (rtp - previous_sync_rtp c)) as Hrtp.
  assert (Hrate : 0 <= sample_rate c <= 192000) by (destruct (ci_rate _ _ _ Hi); lia).
  assert (Hprod : 0 <= d * sample_rate c < 5400000 * 192000 + 1).
  { split; [apply Z.mul_nonneg_nonneg; lia|].
    apply (Z.le_lt_trans _ (5400000 * 192000)); [apply Z.mul_le_mono_nonneg|]; lia. }
  rewrite (chk64_ok (d * sample_rate c)) by lia. cbn [mbind option_bind].
  destruct (Z.ltb_spec 0 (Z.quot (d * sample_rate c) 90000)) as [He|]; [|done].
  assert (Hpos : 0 < d * sample_rate c).
  { destruct (Z.eqb_spec (d * sample_rate c) 0) as [E0|]; [|lia]. rewrite E0 in He. done. }
  pose proof (ci_drift _ _ _ Hi) as Hdr.
  pose proof (drift_value_ok _ _ _ (drift_ppm (stats c)) Hrtp (conj Hpos (proj2 Hprod)) eq_refl He Hdr) as Hq.
  assert (Heb : Z.quot (d * sample_rate c) 90000 <= 11520001) by euclid.
  set (e := Z.quot (d * sample_rate c) 90000) in *. set (q := Z.quot ((_ - e) * 1000000) e) in *.
  rewrite (chk64_ok (_ - e)) by lia. cbn [mbind option_bind].
  rewrite (chk64_ok ((_ - e) * 1000000)) by lia. cbn [mbind option_bind]. fold q.
  rewrite (chk64_ok (_ * 7)) by lia. cbn [mbind option_bind].
  rewrite (chk64_ok (_ + q)) by lia. cbn [mbind option_bind].
  eexists. split; [done|]. assert (Hsm : same_mapping c { c with stats -> drift_ppm :=
    Z.quot (drift_ppm (stats c) * 7 + q) 8 }) by (unfold same_mapping; by rproj).
  split; [exact Hsm|]. apply (clock_inv_same lo k c _ Hi Hsm). rproj. euclid.
Qed.

Lemma anchor_audio_only_ok lo k c ntp :
  clock_inv lo k c -> in_window lo ntp -> clock_inv lo k (anchor_audio_only ntp c) /\
  sample_rate (anchor_audio_only ntp c) = sample_rate c.
Proof.
  intros Hi Hw. unfold anchor_audio_only.
  destruct (audio_only c), (video_ready c) eqn:Hv; cbn [andb negb]; try done.
  split; [|done]. destruct Hi as [H1 H2 H3 H4 H5 H6 H7 H8 H9 H10]. split; rproj; try done.
  - intros _. rewrite Z.sub_diag. split_and!; try done; lia.
  - intros Ha. destruct (H7 Ha). congruence.
Qed.

Lemma anchor_audio_only_id c ntp : video_ready c = true -> anchor_audio_only ntp c = c.
Proof. intros Hv. unfold anchor_audio_only. rewrite Hv. by destruct (audio_only c). Qed.

Lemma sync_ok lo k c rtp ntp :
  clock_inv lo k c -> k <= max_calls -> in_window lo ntp ->
  exists r c', airplay_mirror_clock_update_audio_sync rtp ntp c = Some (r, c') /\ clock_inv lo k c' /\
    (video_ready c = true -> last_video_pts c' = last_video_pts c /\ video_ready c' = true) /\
    (video_ready c = true -> audio_sync_ready c = true -> sample_rate c <> 0 -> ntp <> 0 ->
     let observed := video_anchor_pts c + ticks (ntp - video_anchor_ntp c) in
     let correction := observed - audio_time c rtp in
     map_video_ntp c ntp = Some observed /\ predict_audio c rtp = Some (audio_time c rtp) /\
     predict_audio c' rtp = Some (audio_time c' rtp) /\
     (22500 < Z.abs correction ->
      r = AIRPLAY_MIRROR_CLOCK_DISCONTINUITY /\ audio_time c' rtp = observed) /\
     (Z.abs correction <= 22500 -> r = AIRPLAY_MIRROR_CLOCK_OK /\
      audio_time c' rtp = audio_time c rtp + applied_correction correction)).
Proof.
  intros Hi Hk Hw. unfold airplay_mirror_clock_update_audio_sync.
  destruct (Z.eqb_spec (sample_rate c) 0) as [Hr|Hr]; cbn [orb].
  { eexists _, _. split; [done|]. split; [done|]. split; by intros. }
  destruct (Z.eqb_spec ntp 0) as [Hn|Hn].
  { eexists _, _. split; [done|]. split; [done|]. split; by intros. }
  destruct (anchor_audio_only_ok lo k c ntp Hi Hw) as [Hi0 Hr0].
  destruct (correct_audio_ok lo k _ rtp ntp Hi0 Hk ltac:(congruence) Hw)
    as (r & c1 & Hc & Hi1 & E1 & E2 & E3 & E4 & E5 & Hcorr).
  rewrite Hc. cbn [mbind option_bind].
  destruct (measure_drift_ok lo k c1 rtp ntp Hi1 Hw) as (c2 & Hd & Hsm & Hi2).
  rewrite Hd. cbn [mbind option_bind]. eexists _, _. split; [done|].
  set (c3 := upd _ _ _).
  assert (Hc3 : clock_inv lo k c3).
  { destruct Hi2 as [H1 H2 H3 H4 H5 H6 H7 H8 H9 H10]. by split. }
  destruct Hsm as (D1 & D2 & D3 & D4 & D5 & D6 & D7 & D8 & D9 & D10 & D11 & D12 & D13 & D14 & D15 & D16).
  assert (F : sample_rate c3 = sample_rate c2 /\ video_anchor_ntp c3 = video_anchor_ntp c2 /\
    video_anchor_pts c3 = video_anchor_pts c2 /\ last_video_pts c3 = last_video_pts c2 /\
    video_ready c3 = video_ready c2 /\ audio_adjust_ticks c3 = audio_adjust_ticks c2 /\
    audio_sync_rtp c3 = rtp /\ audio_sync_ntp c3 = ntp /\ audio_sync_ready c3 = true) by by split_and!.
  clearbody c3. destruct F as (F1 & F2 & F3 & F4 & F5 & F6 & F7 & F8 & F9).
  split; [done|]. split.
  { intros Hv. rewrite (anchor_audio_only_id c ntp Hv) in *. split; congruence. }
  intros Hv Hs _ _. rewrite (anchor_audio_only_id c ntp Hv) in *.
  specialize (Hcorr Hs Hv). cbv zeta in *. destruct Hcorr as [Hj Hsmall].
  assert (Ht : audio_time c3 rtp =
    video_anchor_pts c + ticks (ntp - video_anchor_ntp c) + audio_adjust_ticks c1).
  { unfold audio_time. rewrite F7, F8, Z.sub_diag. change (i32 0 * 90000) with 0.
    rewrite Z.quot_0_l by congruence. rewrite F3, F2, F6, D2, D3, D9, E3, E4. lia. }
  split_and!; [by apply (map_video_ok lo k) | by apply (predict_audio_ok lo k) |
    apply (predict_audio_ok lo k); congruence | |].
  - intros [-> Ha]%Hj. split; [done|]. rewrite Ht, Ha. lia.
  - intros [-> Ha]%Hsmall. split; [done|]. rewrite Ht, Ha. lia.
Qed.

(** *** Video frames *)

Lemma place_video_ok lo k c ntp :
  clock_inv lo k c -> k < max_calls -> in_window lo ntp ->
  exists r pts c', place_video ntp c = Some (r, pts, c') /\
    (video_ready c = true -> last_video_pts c < pts) /\ video_ready c' = true /\
    clock_inv lo (k + 1) { c' with last_video_ntp := ntp; last_video_pts := pts }.
Proof.
  intros Hi Hk Hw. unfold place_video. pose proof (ci_count _ _ _ Hi) as Hk0.
  pose proof (clock_inv_mono lo k (k + 1) c Hi ltac:(lia)) as Hi1. unfold max_calls in Hk.
  destruct (video_ready c) eqn:Hv; cbn [negb].
  - destruct (ci_video _ _ _ Hi Hv) as (Ha & Hl & Hp & Hb & Hmap).
    rewrite (window_delta lo) by done. cbn [mbind option_bind].
    unfold AIRPLAY_CLOCK_VIDEO_BACKWARD_TICKS, AIRPLAY_CLOCK_VIDEO_FORWARD_TICKS.
    destruct ((ticks (ntp - last_video_ntp c) <? - (9000)) || _) eqn:E.
    + rewrite chk64_ok by lia. cbn [mbind option_bind]. eexists _, _, _. split; [done|].
      split; [lia|]. split; [done|]. unfold reset_audio_mapping.
      destruct Hi1 as [H1 H2 H3 H4 H5 H6 H7 H8 H9 H10]. split; try done; rproj; try done; try lia.
      intros _. rewrite Z.sub_diag. change (ticks 0) with 0. split_and!; try done; lia.
    + apply orb_false_iff in E as [E1 E2]. apply Z.ltb_ge in E1, E2.
      rewrite (map_video_ok lo k) by (done || (unfold max_calls; lia)). cbn [mbind option_bind].
      assert (Hadd : ticks (ntp - video_anchor_ntp c) <=
        ticks (ntp - last_video_ntp c) + ticks (last_video_ntp c - video_anchor_ntp c) + 1).
      { etrans; [|apply ticks_add]. apply Z.eq_le_incl. f_equal. lia. }
      set (m := video_anchor_pts c + ticks (ntp - video_anchor_ntp c)) in *.
      assert (Hpts : exists pts, (if m <=? last_video_pts c then chk64 (last_video_pts c + 1) else Some m) = Some pts
        /\ last_video_pts c < pts <= last_video_pts c + 900001 /\ m <= pts).
      { destruct (Z.leb_spec m (last_video_pts c)).
        - rewrite chk64_ok by lia. eexists. split; [done | lia].
        - eexists. split; [done | lia]. }
      destruct Hpts as (pts & -> & Hpts & Hm). cbn [mbind option_bind]. eexists _, _, _.
      split; [done|]. split; [lia|]. split; [done|].
      destruct Hi1 as [H1 H2 H3 H4 H5 H6 H7 H8 H9 H10]. split; try done; rproj; try done; try lia.
      intros _. split_and!; try done; lia.
  - eexists _, _, _. split; [done|]. split; [done|]. split; [done|].
    destruct Hi1 as [H1 H2 H3 H4 H5 H6 H7 H8 H9 H10]. split; try done; rproj; try done; try lia.
    intros _. rewrite Z.sub_diag. change (ticks 0) with 0. split_and!; try done; lia.
Qed.

(** A new arrival and the skew after it. *)
Lemma arrival_and_skew_ok lo k c (video : bool) t :
  clock_inv lo k c -> k <= max_calls -> time_ok t -> video_ready c = true ->
  (video = false -> audio_ready c = true) ->
  let pts := if video then last_video_pts c else last_audio_pts c in
  exists a c', update_jitter (if video then video_arrival c else audio_arrival c) pts t = Some a /\
    update_skew (if video then { c with video_arrival := a; stats -> video_jitter_us := jitter_us a }
                 else { c with audio_arrival := a; stats -> audio_jitter_us := jitter_us a }) = Some c' /\
    clock_inv lo k c' /\ video_ready c' = true /\ last_video_pts c' = last_video_pts c /\
    last_audio_pts c' = last_audio_pts c /\ audio_ready c' = audio_ready c.
Proof.
  intros Hi Hk Ht Hv Hav pts. pose proof (ci_count _ _ _ Hi) as Hk0. unfold max_calls in Hk.
  destruct (ci_video _ _ _ Hi Hv) as (Ha & Hl & Hp & Hb & _).
  assert (Hpts : 0 <= pts <= reach k).
  { unfold pts, reach in *. destruct video; [lia|]. destruct (ci_audio _ _ _ Hi); [by apply Hav | done]. }
  assert (Harr : exists j, update_jitter (if video then video_arrival c else audio_arrival c) pts t
                           = Some (mkArrival pts t j true)).
  { apply update_jitter_ok; [|done]. unfold reach in *.
    destruct video; intros Har; [destruct (ci_video_arrival _ _ _ Hi Har) as [Hs ?]
                                |destruct (ci_audio_arrival _ _ _ Hi Har) as [Hs ?]];
      unfold reach in Hs; (split; [lia | done]). }
  destruct Harr as [j ->]. exists (mkArrival pts t j true).
  set (c1 := if video then _ else _).
  assert (Hi1 : clock_inv lo k c1 /\ video_ready c1 = true /\ last_video_pts c1 = last_video_pts c /\
    last_audio_pts c1 = last_audio_pts c /\ audio_ready c1 = audio_ready c).
  { destruct Hi as [H1 H2 H3 H4 H5 H6 H7 H8 H9 H10].
    unfold c1. destruct video; rproj; (split; [|done]); by split. }
  destruct Hi1 as (Hi1 & E1 & E2 & E3 & E4).
  destruct (update_skew_ok c1) as (c' & Hs & Hsm & Hd).
  { intros _ Har. destruct (ci_audio _ _ _ Hi1 Har) as [_ Hla]. unfold is_i64, INT64_MAX, reach in *. lia. }
  exists c'. split; [done|]. split; [exact Hs|].
  split; [apply (clock_inv_same lo k c1 c' Hi1 Hsm); rewrite Hd; by apply (ci_drift _ _ _ Hi1)|].
  destruct Hsm as (_ & _ & _ & _ & D5 & D6 & _ & _ & _ & _ & _ & _ & D13 & _ & D15 & _).
  split_and!; congruence.
Qed.

Lemma map_video_step lo k c ntp t :
  clock_inv lo k c -> k < max_calls -> in_window lo ntp -> time_ok t ->
  exists r out c', airplay_mirror_clock_map_video ntp t c = Some (r, out, c') /\
    clock_inv lo (k + 1) c' /\
    match out with
    | None => c' = c
    | Some pts => last_video_pts c' = pts /\ video_ready c' = true /\ 0 <= pts /\
                  (video_ready c = true -> last_video_pts c < pts)
    end.
Proof.
  intros Hi Hk Hw Ht. unfold airplay_mirror_clock_map_video. destruct (ntp =? 0).
  { eexists _, _, _. split; [done|]. split; [|done]. apply (clock_inv_mono lo k); [done | lia]. }
  destruct (place_video_ok lo k c ntp Hi Hk Hw) as (r & pts & c1 & -> & Hlt & Hv & Hi1).
  cbn [mbind option_bind]. set (c2 := { c1 with last_video_ntp := ntp; last_video_pts := pts }) in *.
  destruct (arrival_and_skew_ok lo (k + 1) c2 true t Hi1 ltac:(lia) Ht Hv ltac:(done))
    as (a & c3 & Ha & Hs & Hi3 & E1 & E2 & _).
  cbv zeta in Ha. change (last_video_pts c2) with pts in Ha, E2. rewrite Ha. cbn [mbind option_bind].
  rewrite Hs. cbn [mbind option_bind]. eexists _, _, _. split; [done|]. split; [done|].
  destruct (ci_video _ _ _ Hi3 E1) as (_ & _ & Hb & _). rewrite E2 in Hb. split_and!; [done..|lia|done].
Qed.

(** *** Audio packets *)

Lemma map_audio_step lo k c rtp t :
  clock_inv lo k c -> k < max_calls -> time_ok t ->
  exists r out c', airplay_mirror_clock_map_audio rtp t c = Some (r, out, c') /\
    clock_inv lo (k + 1) c' /\ last_video_pts c' = last_video_pts c /\
    video_ready c' = video_ready c /\
    match out with
    | None => last_audio_pts c' = last_audio_pts c /\ audio_ready c' = audio_ready c
    | Some pts => last_audio_pts c' = pts /\ audio_ready c' = true /\ 0 <= pts /\
                  (audio_ready c = true -> last_audio_pts c < pts) /\
                  (audio_ready c = false -> Z.abs (pts - last_video_pts c) <= 180000)
    end.
Proof.
  intros Hi Hk Ht. pose proof (ci_count _ _ _ Hi) as Hk0.
  pose proof (clock_inv_mono lo k (k + 1) c Hi ltac:(lia)) as Hi1. unfold max_calls in Hk.
  unfold airplay_mirror_clock_map_audio.
  destruct (Z.eqb_spec (sample_rate c) 0) as [|Hr]; [by eexists _, _, _|].
  destruct (video_ready c) eqn:Hv, (audio_sync_ready c) eqn:Hs; cbn [negb orb];
    try (eexists _, _, _; split; [done|]; split; [|done]; destruct Hi1; by split).
  rewrite (predict_audio_ok lo k) by (done || (unfold max_calls; lia)). cbn [mbind option_bind].
  pose proof (audio_time_bound lo k c rtp Hi ltac:(unfold max_calls; lia) Hv Hs Hr) as Hb.
  set (p := audio_time c rtp) in *. destruct (ci_video _ _ _ Hi Hv) as (_ & _ & Hp & Hl & _).
  assert (Hdrop : exists b, (if p <? 0 then Some true
      else skew ← chk64 (p - last_video_pts c);
           Some (true && (AIRPLAY_MIRROR_CLOCK_MAX_SKEW_TICKS <? absolute_i64 skew))) = Some b /\
    (b = false -> 0 <= p /\ Z.abs (p - last_video_pts c) <= 180000)).
  { destruct (Z.ltb_spec p 0); [by exists true|]. rewrite chk64_ok by lia. cbn [mbind option_bind].
    rewrite absolute_i64_abs by (unfold is_i64, INT64_MAX; lia).
    unfold AIRPLAY_MIRROR_CLOCK_MAX_SKEW_TICKS, AIRPLAY_MIRROR_CLOCK_TIME_BASE.
    eexists. split; [done|]. cbn [andb]. rewrite Z.ltb_ge. intros. split; lia. }
  destruct Hdrop as (b & -> & Hb'). cbn [mbind option_bind].
  destruct b; [eexists _, _, _; split; [done|]; split; [|done]; destruct Hi1; by split|].
  destruct (Hb' eq_refl) as [Hp0 Hskew]. clear Hb'.
  set (n := if audio_ready c && (p <=? last_audio_pts c) then last_audio_pts c + 1 else p).
  assert (Hn : 0 <= n <= reach (k + 1) /\ (audio_ready c = true -> last_audio_pts c < n) /\
    (audio_ready c = false -> n = p)).
  { unfold n, reach. destruct (audio_ready c) eqn:Har; cbn [andb]; [|split_and!; (done || lia)].
    destruct (ci_audio _ _ _ Hi Har) as [_ Ha]. unfold reach in Ha.
    destruct (Z.leb_spec p (last_audio_pts c)); split_and!; (done || lia). }
  destruct Hn as (Hn & Hlt & Heq). rewrite (chk64_ok n) by (unfold reach in Hn; lia).
  cbn [mbind option_bind].
  set (c2 := { { c with stats -> candidate_audio_pts := p } with last_audio_pts := n; audio_ready := true }).
  assert (Hi2 : clock_inv lo (k + 1) c2) by (destruct Hi1; by split).
  destruct (arrival_and_skew_ok lo (k + 1) c2 false t Hi2 ltac:(unfold max_calls; lia) Ht Hv ltac:(done))
    as (a & c3 & Ha & Hsk & Hi3 & E1 & E2 & E3 & E4).
  cbv zeta in Ha. change (last_audio_pts c2) with n in Ha, E3. rewrite Ha. cbn [mbind option_bind].
  rewrite Hsk. cbn [mbind option_bind]. eexists _, _, _. split; [done|]. split; [done|].
  split_and!; try done; lia.
Qed.

(** ** One call *)

Inductive ClockOp :=
| OpSync (rtp ntp t : Z)
| OpVideo (ntp t : Z)
| OpAudio (rtp t : Z)
| OpRate (rate : Z)
| OpAudioOnly (b : bool)
| OpReset
| OpTimeline (timeline : AirPlayMirrorVideoTimeline).

Inductive ClockOutput := OutVideo (pts : Z) | OutAudio (pts : Z).

(** One call: what it outputs, or nothing at all if the arithmetic overflows. *)
Definition clock_op (op : ClockOp) (c : AirPlayMirrorClock)
    : option (list ClockOutput * AirPlayMirrorClock) :=
  match op with
  | OpSync rtp ntp _ =>
      '(_, c') ← airplay_mirror_clock_update_audio_sync rtp ntp c; Some ([], c')
  | OpVideo ntp t =>
      '(_, out, c') ← airplay_mirror_clock_map_video ntp t c;
      Some (match out with Some pts => [OutVideo pts] | None => [] end, c')
  | OpAudio rtp t =>
      '(_, out, c') ← airplay_mirror_clock_map_audio rtp t c;
      Some (match out with Some pts => [OutAudio pts] | None => [] end, c')
  | OpRate rate => Some ([], (airplay_mirror_clock_set_audio_rate rate c).2)
  | OpAudioOnly b => Some ([], airplay_mirror_clock_set_audio_only b c)
  | OpReset => Some ([], airplay_mirror_clock_reset c)
  | OpTimeline timeline => Some ([], airplay_mirror_clock_set_video_timeline timeline c)
  end.

(** The timeline of a clock after at most [k] calls. *)
Definition timeline_ok (lo k : Z) (t : AirPlayMirrorVideoTimeline) : Prop :=
  in_window lo (anchor_ntp t) /\ in_window lo (last_ntp t) /\ 0 <= anchor_pts t <= last_pts t /\
  last_pts t <= 900002 * k /\ anchor_pts t + ticks (last_ntp t - anchor_ntp t) <= last_pts t.

(** NTP timestamps lie in one half of their range, local times below 2^62 us, and a
    timeline is that of a clock. *)
Definition op_ok (lo k : Z) (op : ClockOp) : Prop :=
  match op with
  | OpSync _ ntp _ => in_window lo ntp
  | OpVideo ntp t => in_window lo ntp /\ time_ok t
  | OpAudio _ t => time_ok t
  | OpTimeline t => timeline_ok lo k t
  | _ => True
  end.

(** The calls that take a clock off its own timeline. *)
Definition moves_timeline (op : ClockOp) : bool :=
  match op with OpReset | OpTimeline _ => true | _ => false end.

Definition video_times (outs : list ClockOutput) : list Z :=
  omap (fun o => match o with OutVideo p => Some p | OutAudio _ => None end) outs.
Definition audio_times (outs : list ClockOutput) : list Z :=
  omap (fun o => match o with OutAudio p => Some p | OutVideo _ => None end) outs.

(** What one call does to the video times. *)
Definition video_progress (c : AirPlayMirrorClock) (outs : list ClockOutput) (c' : AirPlayMirrorClock)
    : Prop :=
  (video_ready c = true -> video_ready c' = true) /\
  match video_times outs with
  | [] => video_ready c = true -> last_video_pts c' = last_video_pts c
  | p :: l => l = [] /\ last_video_pts c' = p /\ video_ready c' = true /\
              (video_ready c = true -> last_video_pts c < p)
  end.

Lemma timeline_mono lo k k' t : timeline_ok lo k t -> k <= k' -> timeline_ok lo k' t.
Proof. intros (H1 & H2 & H3 & H4 & H5) Hk. unfold timeline_ok. split_and!; try done; lia. Qed.

Lemma get_timeline_ok lo k c t :
  clock_inv lo k c -> airplay_mirror_clock_get_video_timeline c = Some t -> timeline_ok lo k t.
Proof.
  intros Hi. unfold airplay_mirror_clock_get_video_timeline. destruct (video_ready c) eqn:Hv; [|done].
  intros [= <-]. destruct (ci_video _ _ _ Hi Hv) as (H1 & H2 & H3 & H4 & H5). exact (conj H1 (conj H2 (conj H3 (conj H4 H5)))).
Qed.

Lemma set_timeline_inv lo k c t :
  clock_inv lo k c -> timeline_ok lo k t ->
  clock_inv lo (k + 1) (airplay_mirror_clock_set_video_timeline t c).
Proof.
  intros Hi Ht. apply (clock_inv_mono lo (k + 1)); [|lia]. apply (timeline_mono _ _ (k + 1)) in Ht; [|lia].
  apply (clock_inv_mono lo k (k + 1)) in Hi; [|lia].
  destruct Hi as [H1 H2 H3 H4 H5 H6 H7 H8 H9 H10]. destruct Ht as (T1 & T2 & T3 & T4 & T5).
  unfold airplay_mirror_clock_set_video_timeline. cbv zeta.
  destruct (video_ready c && _); split; rproj; try done; cbn; lia || (intros Ha; split; [done|by apply H7]).
Qed.

Lemma clock_op_step lo k c op :
  clock_inv lo k c -> k < max_calls -> op_ok lo k op ->
  exists outs c', clock_op op c = Some (outs, c') /\ clock_inv lo (k + 1) c' /\
    Forall (fun p => 0 <= p) (video_times outs ++ audio_times outs) /\
    (moves_timeline op = false -> video_progress c outs c').
Proof.
  intros Hi Hk Ho. pose proof (ci_count _ _ _ Hi) as Hk0.
  pose proof (clock_inv_mono lo k (k + 1) c Hi ltac:(lia)) as Hi1.
  destruct op as [rtp ntp t|ntp t|rtp t|rate|b| |tl]; cbn [clock_op op_ok moves_timeline] in *.
  - destruct (sync_ok lo k c rtp ntp Hi ltac:(lia) Ho) as (r & c' & -> & Hi' & Hv & _).
    eexists _, _. split; [done|]. split; [apply (clock_inv_mono lo k); [done | lia]|].
    split; [constructor|]. intros _. split; intros Hr; by destruct (Hv Hr).
  - destruct Ho as [Hw Ht]. destruct (map_video_step lo k c ntp t Hi Hk Hw Ht) as (r & out & c' & -> & Hi' & Hout).
    eexists _, _. split; [done|]. split; [done|]. destruct out as [pts|].
    + destruct Hout as (H1 & H2 & H3 & H4). split; [by repeat constructor|]. intros _. by split.
    + subst c'. split; [constructor|]. intros _. by split.
  - destruct (map_audio_step lo k c rtp t Hi Hk Ho) as (r & out & c' & -> & Hi' & H1 & H2 & Hout).
    eexists _, _. split; [done|]. split; [done|]. destruct out as [pts|].
    + destruct Hout as (_ & _ & H3 & _). split; [by repeat constructor|]. intros _. split; [congruence | by cbn].
    + split; [constructor|]. intros _. split; [congruence | by cbn].
  - eexists _, _. split; [done|]. unfold airplay_mirror_clock_set_audio_rate.
    destruct ((rate <? 8000) || (192000 <? rate)) eqn:E; [split; [done|]; split; [constructor|done]|].
    apply orb_false_iff in E as [E1 E2]. apply Z.ltb_ge in E1, E2.
    split; [|split; [constructor|]; intros _; by destruct (negb _ && negb _)].
    destruct Hi1 as [H1 H2 H3 H4 H5 H6 H7 H8 H9 H10].
    destruct (negb _ && negb _); split; try done; cbn; lia.
  - eexists _, _. split; [done|]. split; [|split; [constructor | done]]. destruct Hi1. by split.
  - eexists _, _. split; [done|]. split; [|split; [constructor | done]].
    unfold airplay_mirror_clock_reset. destruct Hi1 as [H1 H2 _ _ _ _ _ _ _ _]. split; cbn; (done || lia).
  - eexists _, _. split; [done|]. split; [|split; [constructor | done]]. by apply set_timeline_inv.
Qed.

(** ** Clocks that share timelines *)

(** Several clocks, and the timelines that were read and not used yet or again: the bridge
    reads the timeline of the video clock under one lock and gives it to the audio clock
    under another, and both may be called in between. *)
Record Clocks := mkClocks { cl_clocks : list AirPlayMirrorClock; cl_timelines : list AirPlayMirrorVideoTimeline }.
#[export] Instance eta_clocks : Eta Clocks := fun s => mkClocks (cl_clocks s) (cl_timelines s).

Inductive ClockCall :=
| CallClock (i : nat) (op : ClockOp)
| CallGetTimeline (i : nat)
| CallSetTimeline (i j : nat).

(** A call of clock [i], or none when there is no such clock or timeline. *)
Definition clock_call (call : ClockCall) (s : Clocks) : option (list (nat * ClockOutput) * Clocks) :=
  let on i op :=
    match cl_clocks s !! i with
    | Some c => '(outs, c') ← clock_op op c; Some (map (pair i) outs, { s with cl_clocks ::= <[i := c']> })
    | None => Some ([], s)
    end in
  match call with
  | CallClock i op => on i op
  | CallGetTimeline i =>
      match cl_clocks s !! i ≫= airplay_mirror_clock_get_video_timeline with
      | Some t => Some ([], { s with cl_timelines ::= fun l => l ++ [t] })
      | None => Some ([], s)
      end
  | CallSetTimeline i j => match cl_timelines s !! j with Some t => on i (OpTimeline t) | None => Some ([], s) end
  end.

Fixpoint clock_run (calls : list ClockCall) (s : Clocks) : option (list (nat * ClockOutput) * Clocks) :=
  match calls with
  | [] => Some ([], s)
  | call :: calls' =>
      '(outs, s1) ← clock_call call s;
      '(outs', s2) ← clock_run calls' s1;
      Some (outs ++ outs', s2)
  end.

(** Timelines come from the clocks only. *)
Definition call_ok (lo : Z) (call : ClockCall) : Prop :=
  match call with CallClock _ (OpTimeline _) => False | CallClock _ op => op_ok lo 0 op | _ => True end.

(** The call leaves clock [i] on its timeline. *)
Definition keeps_timeline (i : nat) (call : ClockCall) : bool :=
  match call with
  | CallClock i' op => negb ((i' =? i)%nat && moves_timeline op)
  | CallSetTimeline i' _ => negb (i' =? i)%nat
  | CallGetTimeline _ => true
  end.

(** What clock [i] outputs. *)
Definition of_clock (i : nat) (outs : list (nat * ClockOutput)) : list ClockOutput :=
  omap (fun o => if (o.1 =? i)%nat then Some o.2 else None) outs.

Definition clocks_inv (lo k : Z) (s : Clocks) : Prop :=
  Forall (clock_inv lo k) (cl_clocks s) /\ Forall (timeline_ok lo k) (cl_timelines s).

Lemma clocks_inv_mono lo k k' s : clocks_inv lo k s -> k <= k' -> clocks_inv lo k' s.
Proof.
  intros [H1 H2] Hk. split; (eapply Forall_impl; [eassumption|]); intros x Hx;
    [by apply (clock_inv_mono lo k)|by apply (timeline_mono lo k)].
Qed.

Lemma of_clock_same i outs : of_clock i (map (pair i) outs) = outs.
Proof. induction outs as [|o outs IH]; [done|]. cbn. rewrite Nat.eqb_refl. by rewrite <- IH at 2. Qed.

Lemma of_clock_other i i' outs : i' <> i -> of_clock i (map (pair i') outs) = [].
Proof. intros H. induction outs as [|o outs IH]; [done|]. cbn. by rewrite (proj2 (Nat.eqb_neq i' i) H). Qed.

(** What one call does to clock [i]. *)
Definition clock_progress (i : nat) (s : Clocks) (outs : list (nat * ClockOutput)) (s' : Clocks) : Prop :=
  forall c, cl_clocks s !! i = Some c -> exists c', cl_clocks s' !! i = Some c' /\ video_progress c (of_clock i outs) c'.

Definition output_time (o : ClockOutput) : Z := match o with OutVideo p | OutAudio p => p end.

Lemma output_times outs : Forall (fun p => 0 <= p) (video_times outs ++ audio_times outs) -> Forall (fun o => 0 <= output_time o) outs.
Proof.
  rewrite Forall_app. unfold video_times, audio_times. induction outs as [|[p|p] outs IH]; intros [H1 H2]; cbn in H1, H2; [constructor| |].
  - apply Forall_cons in H1 as [? ?]. constructor; auto.
  - apply Forall_cons in H2 as [? ?]. constructor; auto.
Qed.

Lemma video_progress_none c : video_progress c [] c.
Proof. by split. Qed.

(** A call of one clock. *)
Lemma clock_on_step lo k s i op : clocks_inv lo k s -> k < max_calls -> op_ok lo k op ->
  exists outs s', match cl_clocks s !! i with
    | Some c => '(outs, c') ← clock_op op c; Some (map (pair i) outs, { s with cl_clocks ::= <[i := c']> })
    | None => Some ([], s)
    end = Some (outs, s') /\ clocks_inv lo (k + 1) s' /\ Forall (fun o => 0 <= output_time o.2) outs /\
    forall i', negb ((i =? i')%nat && moves_timeline op) = true -> clock_progress i' s outs s'.
Proof.
  intros [Hc Ht] Hk Ho. destruct (cl_clocks s !! i) as [c|] eqn:Ei.
  - pose proof (proj1 (Forall_lookup _ _) Hc i c Ei) as Hi. destruct (clock_op_step lo k c op Hi Hk Ho) as (outs & c' & -> & Hi' & Hpos & Hp).
    cbn [mbind option_bind]. destruct (clocks_inv_mono lo k (k + 1) s (conj Hc Ht) ltac:(lia)) as [Hc1 Ht1].
    eexists _, _. split; [done|]. split; [split; [by apply Forall_insert|done]|]. split; [by apply Forall_fmap, output_times|].
    intros i' Hm d Hd. destruct (decide (i' = i)) as [E|Hne].
    + rewrite E in *. rewrite Nat.eqb_refl in Hm. rewrite Ei in Hd. injection Hd as <-. exists c'. rproj. split; [apply list_lookup_insert_eq; by eapply lookup_lt_Some|].
      rewrite of_clock_same. apply Hp. by destruct (moves_timeline op).
    + exists d. rproj. split; [by rewrite list_lookup_insert_ne|]. rewrite of_clock_other by done. apply video_progress_none.
  - eexists _, _. split; [done|]. split; [apply (clocks_inv_mono lo k); [by split|lia]|]. split; [constructor|].
    intros i' _ d Hd. exists d. split; [done|apply video_progress_none].
Qed.

Lemma clock_call_step lo k s call : clocks_inv lo k s -> k < max_calls -> call_ok lo call ->
  exists outs s', clock_call call s = Some (outs, s') /\ clocks_inv lo (k + 1) s' /\ Forall (fun o => 0 <= output_time o.2) outs /\
    forall i, keeps_timeline i call = true -> clock_progress i s outs s'.
Proof.
  intros Hs Hk Ho. pose proof (clocks_inv_mono lo k (k + 1) s Hs ltac:(lia)) as Hs1.
  assert (Hsame : forall s', cl_clocks s' = cl_clocks s -> clocks_inv lo (k + 1) s' ->
    clocks_inv lo (k + 1) s' /\ Forall (fun o => 0 <= output_time o.2) (@nil (nat * ClockOutput)) /\
    forall i, keeps_timeline i call = true -> clock_progress i s [] s').
  { intros s' E Hi. split; [done|]. split; [constructor|]. intros i _ c Hc. exists c. rewrite E. split; [done|apply video_progress_none]. }
  destruct call as [i op|i|i j]; cbn [clock_call].
  - destruct (clock_on_step lo k s i op Hs Hk) as (outs & s' & H); [by destruct op|]. by exists outs, s'.
  - destruct (cl_clocks s !! i ≫= _) as [t|] eqn:Et; (eexists _, _; split; [reflexivity|]); [|by apply Hsame].
    apply bind_Some in Et as (c & Hc & Et). apply Hsame; [done|]. destruct Hs1 as [Hs1 Ht1]. split; [done|]. apply Forall_app. split; [done|].
    apply Forall_singleton, (get_timeline_ok lo _ c); [|done]. by eapply Forall_lookup_1.
  - destruct (cl_timelines s !! j) as [t|] eqn:Et; [|eexists _, _; split; [done|]; by apply Hsame].
    destruct (clock_on_step lo k s i (OpTimeline t) Hs Hk) as (outs & s' & E & H1 & H2 & H3); [by apply (Forall_lookup_1 (timeline_ok lo k) (cl_timelines s) j); [apply Hs|]|].
    exists outs, s'. split; [exact E|]. split; [done|]. split; [done|]. intros i' Hi'. apply H3. cbn in *. by rewrite andb_true_r.
Qed.

Lemma clock_run_ok lo calls k s :
  clocks_inv lo k s -> k + Z.of_nat (length calls) <= max_calls -> Forall (call_ok lo) calls ->
  exists outs s', clock_run calls s = Some (outs, s') /\ clocks_inv lo (k + Z.of_nat (length calls)) s' /\
    Forall (fun o => 0 <= output_time o.2) outs /\
    forall i c, cl_clocks s !! i = Some c -> Forall (fun call => keeps_timeline i call = true) calls ->
      StronglySorted Z.lt (video_times (of_clock i outs)) /\
      (video_ready c = true -> Forall (fun p => last_video_pts c < p) (video_times (of_clock i outs))).
Proof.
  revert k s. induction calls as [|call calls IH]; intros k s Hs Hk Hcalls; cbn [clock_run length] in *.
  { rewrite Z.add_0_r. eexists _, _. split; [done|]. split; [done|]. split; [constructor|].
    intros i c _ _. split; constructor. }
  apply Forall_cons in Hcalls as [Ho Hcalls].
  destruct (clock_call_step lo k s call Hs ltac:(lia) Ho) as (outs1 & s1 & -> & Hs1 & Hpos & Hprog).
  destruct (IH (k + 1) s1 Hs1 ltac:(lia) Hcalls) as (outs2 & s2 & Hrun & Hs2 & Hpos2 & Hsorted).
  cbn [mbind option_bind]. rewrite Hrun. cbn [mbind option_bind]. eexists _, _. split; [done|].
  replace (k + Z.of_nat (S (length calls))) with (k + 1 + Z.of_nat (length calls)) by lia. split; [done|].
  split; [by apply Forall_app|]. intros i c Hc Hkeeps. apply Forall_cons in Hkeeps as [Hkeep Hkeeps].
  destruct (Hprog i Hkeep c Hc) as (c1 & Hc1 & Hv1 & Hv). destruct (Hsorted i c1 Hc1 Hkeeps) as [Hsort Hf].
  unfold of_clock in *. rewrite omap_app. unfold video_times in *. rewrite omap_app.
  destruct (omap _ (omap _ outs1)) as [|p l].
  - cbn. split; [done|]. intros Hr. rewrite <- (Hv Hr). by apply Hf, Hv1.
  - destruct Hv as (-> & Hl & Hr1 & Hlt). specialize (Hf Hr1). rewrite Hl in Hf. cbn. split.
    + by constructor.
    + intros Hr. constructor; [by apply Hlt|]. eapply Forall_impl; [exact Hf|]. cbn. specialize (Hlt Hr). lia.
Qed.

Definition clock_created : AirPlayMirrorClock := { clock_zero with stats -> st_generation := 1 }.

Lemma clock_created_inv lo : clock_inv lo 0 clock_created.
Proof. split; cbn; (done || lia). Qed.

(** [n] new clocks. *)
Definition clocks_created (n : nat) : Clocks := mkClocks (replicate n clock_created) [].

Lemma clocks_created_inv lo n : clocks_inv lo 0 (clocks_created n).
Proof. split; [|constructor]. apply Forall_replicate, clock_created_inv. Qed.

(** A clock that at most [m] calls have reached. *)
Definition clock_reached (lo m : Z) (c : AirPlayMirrorClock) : Prop :=
  exists n calls outs s i, Forall (call_ok lo) calls /\ Z.of_nat (length calls) <= m /\
    clock_run calls (clocks_created n) = Some (outs, s) /\ cl_clocks s !! i = Some c.

Lemma clock_reached_inv lo m c : clock_reached lo m c -> m <= max_calls -> clock_inv lo m c.
Proof.
  intros (n & calls & outs & s & i & Ho & Hn & Hr & Hc) Hm.
  destruct (clock_run_ok lo calls 0 (clocks_created n) (clocks_created_inv lo n) ltac:(lia) Ho)
    as (outs' & s' & Hr' & Hs & _). rewrite Hr in Hr'. injection Hr' as _ <-.
  apply (clock_inv_mono lo (0 + Z.of_nat (length calls))); [|done]. by eapply Forall_lookup_1; [apply Hs|].
Qed.

(** ** Properties *)

(** C10: Mirroring sessions never overflow the clock's signed arithmetic and
    present video in order: any ten million calls on any number of new clocks, which may
    read each other's timelines and take them over at any later time, with NTP timestamps
    from one half of their range and local times below 2^62 microseconds, all return;
    every time a clock outputs is non-negative; and, as long as a clock is not reset and
    takes over no timeline, its video times are strictly increasing, through every
    discontinuity and every frame that is stamped late. *)
Theorem clock_run_is_safe (lo : Z) (n : nat) (calls : list ClockCall)
    (Hcalls : Forall (call_ok lo) calls) (Hmax : Z.of_nat (length calls) <= max_calls) :
  exists outs s, clock_run calls (clocks_created n) = Some (outs, s) /\
    Forall (fun o => 0 <= output_time o.2) outs /\
    forall i, (i < n)%nat -> Forall (fun call => keeps_timeline i call = true) calls ->
      StronglySorted Z.lt (video_times (of_clock i outs)).
Proof.
  destruct (clock_run_ok lo calls 0 (clocks_created n) (clocks_created_inv lo n) ltac:(lia) Hcalls)
    as (outs & s & Hr & _ & Hp & Hs).
  exists outs, s. split_and!; [done..|]. intros i Hi Hkeep. eapply Hs; [|exact Hkeep]. by apply lookup_replicate_2.
Qed.

(** A video frame at 10 s, a synchronisation point, audio, a frame stamped 20 ms
    early and one a minute later; the second clock takes the timeline of the first one
    over and presents audio by it. *)
Definition demo_calls : list ClockCall :=
  [CallClock 0 (OpRate 44100); CallClock 0 (OpVideo 42949672960 1000); CallClock 0 (OpSync 0 42949672960 1000); CallClock 0 (OpAudio 441 2000);
   CallClock 0 (OpVideo 42863773615 3000); CallGetTimeline 0; CallClock 0 (OpVideo 300647710720 4000);
   CallClock 1 (OpRate 48000); CallClock 1 (OpAudioOnly true); CallSetTimeline 1 0; CallClock 1 (OpSync 0 42949672960 5000); CallClock 1 (OpAudio 480 6000)].

Example demo_calls_output :
  (fun r => r.1) <$> clock_run demo_calls (clocks_created 2) =
    Some [(0%nat, OutVideo 0); (0%nat, OutAudio 900); (0%nat, OutVideo 1); (0%nat, OutVideo 2); (1%nat, OutAudio 900)].
Proof. vm_compute. reflexivity. Qed.

Lemma clock_run_is_safe_witness :
  exists outs s, clock_run demo_calls (clocks_created 2) = Some (outs, s) /\
    Forall (fun o => 0 <= output_time o.2) outs /\
    forall i, (i < 2)%nat -> Forall (fun call => keeps_timeline i call = true) demo_calls ->
      StronglySorted Z.lt (video_times (of_clock i outs)).
Proof.
  apply (clock_run_is_safe 0 2 demo_calls).
  - repeat constructor; vm_compute; (discriminate || reflexivity).
  - vm_compute. discriminate.
Defined.

(** Resynchronisation is smooth: a synchronisation point on a clock that is
    anchored and synchronised moves the time predicted for its audio packet by at
    most 450 ticks (5 ms), towards the observed time and never past it, and not at
    all within the dead band of 90 ticks; only a jump of more than 22500 ticks
    (250 ms) is reported as a discontinuity, and then the prediction becomes the
    observed time. *)
Theorem sync_correction_is_smooth (lo : Z) (c : AirPlayMirrorClock) (rtp ntp : Z)
    (Hc : clock_reached lo max_calls c) (Hw : in_window lo ntp) (Hntp : ntp <> 0)
    (Hrate : sample_rate c <> 0) (Hv : video_ready c = true) (Hs : audio_sync_ready c = true) :
  exists r c' observed predicted corrected,
    airplay_mirror_clock_update_audio_sync rtp ntp c = Some (r, c') /\
    map_video_ntp c ntp = Some observed /\ predict_audio c rtp = Some predicted /\
    predict_audio c' rtp = Some corrected /\
    (r = AIRPLAY_MIRROR_CLOCK_DISCONTINUITY <-> 22500 < Z.abs (observed - predicted)) /\
    (r = AIRPLAY_MIRROR_CLOCK_DISCONTINUITY -> corrected = observed) /\
    (r <> AIRPLAY_MIRROR_CLOCK_DISCONTINUITY ->
       Z.abs (corrected - predicted) <= 450 /\
       Z.abs (observed - corrected) + Z.abs (corrected - predicted) = Z.abs (observed - predicted) /\
       (Z.abs (observed - predicted) <= 90 -> corrected = predicted)).
Proof.
  pose proof (clock_reached_inv lo max_calls c Hc ltac:(lia)) as Hi.
  destruct (sync_ok lo max_calls c rtp ntp Hi ltac:(lia) Hw) as (r & c' & Hu & _ & _ & H).
  destruct (H Hv Hs Hrate Hntp) as (Ho & Hp & Hp' & Hj & Hsm). clear H.
  set (o := video_anchor_pts c + _) in *. set (p := audio_time c rtp) in *.
  exists r, c', o, p, (audio_time c' rtp). split_and!; try done.
  - split; [intros -> | by intros [? _]%Hj]. destruct (Z.ltb_spec 22500 (Z.abs (o - p))); [done|].
    by destruct (Hsm ltac:(lia)).
  - intros ->. destruct (Z.ltb_spec 22500 (Z.abs (o - p))); [by apply Hj|]. by destruct (Hsm ltac:(lia)).
  - intros Hr. destruct (Z.ltb_spec 22500 (Z.abs (o - p))) as [Hl|Hl].
    { by destruct (Hj Hl). }
    destruct (Hsm Hl) as [_ ->]. unfold applied_correction.
    destruct (Z.leb_spec (Z.abs (o - p)) 90); split_and!; lia.
Qed.

Definition demo_synced : AirPlayMirrorClock :=
  match clock_run (take 3 demo_calls) (clocks_created 1) with Some (_, mkClocks (c :: _) _) => c | _ => clock_zero end.

(** A synchronisation point that observes audio 10 ms later than predicted. *)
Lemma sync_correction_is_smooth_witness :
  exists r c' observed predicted corrected,
    airplay_mirror_clock_update_audio_sync 44100 47287796087 demo_synced = Some (r, c') /\
    map_video_ntp demo_synced 47287796087 = Some observed /\
    predict_audio demo_synced 44100 = Some predicted /\
    predict_audio c' 44100 = Some corrected /\
    (r = AIRPLAY_MIRROR_CLOCK_DISCONTINUITY <-> 22500 < Z.abs (observed - predicted)) /\
    (r = AIRPLAY_MIRROR_CLOCK_DISCONTINUITY -> corrected = observed) /\
    (r <> AIRPLAY_MIRROR_CLOCK_DISCONTINUITY ->
       Z.abs (corrected - predicted) <= 450 /\
       Z.abs (observed - corrected) + Z.abs (corrected - predicted) = Z.abs (observed - predicted) /\
       (Z.abs (observed - predicted) <= 90 -> corrected = predicted)).
Proof.
  apply (sync_correction_is_smooth 0 demo_synced 44100 47287796087).
  - exists 1%nat, (take 3 demo_calls), [(0%nat, OutVideo 0)], (mkClocks [demo_synced] []), 0%nat.
    split; [|split; [vm_compute; discriminate|split; [vm_compute; reflexivity|reflexivity]]].
    repeat constructor; vm_compute; (discriminate || reflexivity).
  - split; vm_compute; (discriminate || reflexivity).
  - discriminate.
  - vm_compute. discriminate.
  - reflexivity.
  - reflexivity.
Defined.
