(* ===== verification/CText.v ===== *)
(** * Characters and strings of the C library

    The functions of the C library that the text parsers call, in the C locale,
    searching, runs of characters, decimal numbers, and texts with double quotes. *)

From S2P Require Import Prelude.

(** ** Characters *)

Definition isspace (c : Z) : bool := ((9 <=? c) && (c <=? 13)) || (c =? 32).
Definition isdigit (c : Z) : bool := (48 <=? c) && (c <=? 57).

(** [memchr]: the position of the first [c]. *)
Fixpoint memchr (c : Z) (l : list Z) : option nat :=
  match l with
  | [] => None
  | x :: l' => if x =? c then Some 0%nat else S <$> memchr c l'
  end.

Definition isalpha (c : Z) : bool := ((65 <=? c) && (c <=? 90)) || ((97 <=? c) && (c <=? 122)).
Definition isalnum (c : Z) : bool := isalpha c || isdigit c.
Definition tolower (c : Z) : Z := if (65 <=? c) && (c <=? 90) then c + 32 else c.

(** [strcasecmp(left, right) == 0] *)
Definition strcasecmp_equal (left right : cstring) : bool :=
  bool_decide (map tolower left = map tolower right).

(** [strstr(text, needle) != NULL] *)
Fixpoint strstr (text needle : cstring) : bool :=
  bool_decide (take (length needle) text = needle) ||
  match text with [] => false | _ :: text' => strstr text' needle end.

(** ** Numbers *)

(** The decimal digits of a number below [10 ^ fuel]. *)
Fixpoint decimal (fuel : nat) (n : Z) : list Z :=
  match fuel with
  | O => []
  | S fuel' => if n <? 10 then [48 + n] else decimal fuel' (n / 10) ++ [48 + n mod 10]
  end.

(** [%u], [%zu] and [%d] of a number that is not negative. *)
Definition format_u (n : Z) : cstring := decimal 20 n.

(** [%0nx]: [width] digits. *)
Fixpoint format_hex (width : nat) (n : Z) : cstring :=
  match width with
  | O => []
  | S width' => format_hex width' (n / 16) ++ [if n `mod` 16 <? 10 then 48 + n `mod` 16 else 87 + n `mod` 16]
  end.

(** ** Lemmas *)

Lemma memchr_app c l1 l2 : c ∉ l1 -> memchr c (l1 ++ c :: l2) = Some (length l1).
Proof.
  induction l1 as [|x l1 IH]; cbn; intros H; [by rewrite Z.eqb_refl|].
  rewrite (proj2 (Z.eqb_neq x c)) by set_solver. by rewrite IH by set_solver.
Qed.

Lemma memchr_none c l : c ∉ l -> memchr c l = None.
Proof.
  induction l as [|x l IH]; cbn; intros H; [done|].
  rewrite (proj2 (Z.eqb_neq x c)) by set_solver. by rewrite IH by set_solver.
Qed.

Lemma memchr_some c l i :
  memchr c l = Some i -> l = take i l ++ c :: drop (S i) l /\ c ∉ take i l.
Proof.
  revert i. induction l as [|x l IH]; cbn; intros i H; [done|].
  destruct (Z.eqb_spec x c) as [->|Hne].
  - injection H as <-. cbn. split; [done | apply not_elem_of_nil].
  - destruct (memchr c l) as [j|]; [|done]. injection H as <-. destruct (IH j eq_refl) as [H1 H2].
    cbn [take drop]. split; [cbn; by f_equal | set_solver].
Qed.

Definition all_digits (l : list Z) : Prop := Forall (fun c => 48 <= c <= 57) l.

(** The number that decimal digits spell. *)
Definition decimal_value (l : list Z) : Z := foldl (fun v c => v * 10 + (c - 48)) 0 l.

Lemma isdigit_spec c : isdigit c = true <-> 48 <= c <= 57.
Proof. unfold isdigit. rewrite andb_true_iff, !Z.leb_le. done. Qed.


Lemma decimal_digits fuel : forall n, 0 <= n -> all_digits (decimal fuel n).
Proof.
  induction fuel as [|fuel IH]; intros n Hn; cbn [decimal]; [constructor|]. destruct (Z.ltb_spec n 10).
  - constructor; [lia|constructor].
  - apply Forall_app. split; [apply IH; lia|]. constructor; [lia|constructor].
Qed.

Lemma digits_without c l : all_digits l -> (c < 48 \/ 57 < c) -> c ∉ l.
Proof. intros Hl Hc Hin. unfold all_digits in Hl. rewrite Forall_forall in Hl. specialize (Hl _ Hin). lia. Qed.

Lemma decimal_value_app l c : decimal_value (l ++ [c]) = decimal_value l * 10 + (c - 48).
Proof. unfold decimal_value. by rewrite foldl_app. Qed.

Lemma decimal_spec fuel n :
  0 <= n < 10 ^ Z.of_nat fuel -> n < 10 ^ Z.of_nat fuel ->
  (fuel <> 0)%nat -> decimal fuel n <> [] /\ all_digits (decimal fuel n) /\ decimal_value (decimal fuel n) = n /\
    (length (decimal fuel n) <= fuel)%nat.
Proof.
  revert n. induction fuel as [|fuel IH]; intros n Hn _ Hf; [done|]. cbn [decimal].
  destruct (Z.ltb_spec n 10) as [Hlt|Hge].
  - split_and!; [done|by repeat constructor; lia|unfold decimal_value; cbn; lia|cbn; lia].
  - rewrite Nat2Z.inj_succ, Z.pow_succ_r in Hn by lia. destruct fuel as [|fuel]; [cbn in Hn; lia|].
    destruct (IH (n / 10)) as (H1 & H2 & H3 & H4); [lia..|]. split_and!.
    + intros E. by apply app_eq_nil in E as [_ ?].
    + apply Forall_app. split; [done|]. repeat constructor; lia.
    + rewrite decimal_value_app, H3. lia.
    + rewrite length_app. cbn [length]. lia.
Qed.

(** ** Searching C strings

    A pointer into a string is the rest of the string from there on.  The searches of
    the C library that parsers of headers and XML use, and runs of characters. *)

(** ** Texts *)

(** The characters of a text, with double quotes for its apostrophes. *)
Definition quoted (text : string) : cstring := map (fun c => if c =? 39 then 34 else c) (bytes text).
Definition crlf : cstring := [13; 10].

(** ** Searches *)

(** [strchr]: the rest of the string from the first [c] on. *)
Definition strchr (c : Z) (l : cstring) : option cstring := i ← memchr c l; Some (drop i l).

(** [strstr]: the position of the first occurrence. *)
Fixpoint strstr_at (text needle : cstring) : option nat :=
  if bool_decide (take (length needle) text = needle) then Some 0%nat
  else match text with [] => None | _ :: text' => S <$> strstr_at text' needle end.

(** [strrchr]: the rest of the string after the last [c]. *)
Fixpoint after_last (c : Z) (l : cstring) : option cstring :=
  match l with
  | [] => None
  | x :: l' => match after_last c l' with Some r => Some r | None => if x =? c then Some l' else None end
  end.

(** The position of the last [c]. *)
Fixpoint last_index (c : Z) (l : cstring) : option nat :=
  match l with
  | [] => None
  | x :: l' => match last_index c l' with Some i => Some (S i) | None => if x =? c then Some 0%nat else None end
  end.

(** [strncasecmp(text, word, strlen(word)) == 0] *)
Definition has_prefix_nocase (text word : cstring) : bool :=
  bool_decide (map tolower (take (length word) text) = map tolower word).

(** The text from the first occurrence of [needle] on, in any case. *)
Fixpoint find_nocase (text needle : list Z) : option (list Z) :=
  match text with
  | [] => None
  | _ :: text' => if has_prefix_nocase text needle then Some text else find_nocase text' needle
  end.

(** [strncmp(text, prefix, strlen(prefix)) == 0] *)
Definition has_prefix (text prefix : cstring) : bool := bool_decide (take (length prefix) text = prefix).

(** [while (p( *s )) ++s]: what is passed over, and the rest. *)
Fixpoint span (p : Z -> bool) (l : cstring) : cstring * cstring :=
  match l with
  | [] => ([], [])
  | x :: l' => if p x then let '(a, b) := span p l' in (x :: a, b) else ([], l)
  end.

Definition skip (p : Z -> bool) (l : cstring) : cstring := (span p l).2.

(** Removes the characters of [p] at the end, then those at the start. *)
Definition trim (p : Z -> bool) (l : cstring) : cstring := skip p (rev (skip p (rev l))).

(** ** Lemmas *)

Lemma span_app p l : span p l = ((span p l).1, (span p l).2) /\ l = (span p l).1 ++ (span p l).2.
Proof.
  induction l as [|x l [_ IH]]; [done|]. cbn. destruct (p x); [|done]. destruct (span p l) as [a b]. cbn in *. by rewrite IH at 1.
Qed.

Lemma span_stop p l1 l2 : Forall (fun x => p x = true) l1 -> match l2 with [] => True | x :: _ => p x = false end ->
  span p (l1 ++ l2) = (l1, l2).
Proof.
  intros H1 H2. induction l1 as [|x l1 IH]; cbn.
  - destruct l2 as [|x l2]; [done|]. cbn. by rewrite H2.
  - apply Forall_cons in H1 as [Hx H1]. by rewrite Hx, (IH H1).
Qed.

Lemma skip_none p l : match l with [] => True | x :: _ => p x = false end -> skip p l = l.
Proof. intros H. unfold skip. destruct l as [|x l]; [done|]. cbn. by rewrite H. Qed.

Lemma skip_all p l : Forall (fun x => p x = true) l -> skip p l = [].
Proof. intros H. unfold skip. rewrite <- (app_nil_r l), span_stop; done. Qed.

Lemma skip_app p l1 l2 : Forall (fun x => p x = true) l1 -> skip p (l1 ++ l2) = skip p l2.
Proof. unfold skip. intros H. induction H as [|x l1 Hx H IH]; [done|]. cbn. rewrite Hx. by destruct (span p (l1 ++ l2)). Qed.

Lemma strchr_app c l1 l2 : c ∉ l1 -> strchr c (l1 ++ c :: l2) = Some (c :: l2).
Proof. intros H. unfold strchr. rewrite memchr_app by done. cbn. by rewrite drop_app_length. Qed.

Lemma strchr_none c l : c ∉ l -> strchr c l = None.
Proof. intros H. unfold strchr. by rewrite memchr_none. Qed.

(** The first occurrence of a string of two characters. *)
Lemma strstr_two a b l1 l2 : a ∉ l1 -> strstr_at (l1 ++ a :: b :: l2) [a; b] = Some (length l1).
Proof.
  induction l1 as [|x l1 IH]; intros H; cbn [app strstr_at length].
  - by rewrite bool_decide_eq_true_2.
  - rewrite bool_decide_eq_false_2; [|intros Heq; cbn in Heq; set_solver]. by rewrite IH by set_solver.
Qed.

Lemma bool_decide_no (P : Prop) `{Decision P} : ~ P -> bool_decide P = false.
Proof. apply bool_decide_eq_false_2. Qed.

Lemma last_index_app c l1 l2 : c ∉ l2 -> last_index c (l1 ++ c :: l2) = Some (length l1).
Proof.
  intros H. assert (Hn : last_index c l2 = None).
  { induction l2 as [|x l2 IH]; [done|]. cbn. rewrite IH by set_solver. by rewrite (proj2 (Z.eqb_neq x c)) by set_solver. }
  induction l1 as [|x l1 IH]; cbn; [by rewrite Hn, Z.eqb_refl|by rewrite IH].
Qed.

Lemma last_index_none c l : c ∉ l -> last_index c l = None.
Proof. intros H. induction l as [|x l IH]; [done|]. cbn. rewrite IH by set_solver. by rewrite (proj2 (Z.eqb_neq x c)) by set_solver. Qed.
