(* ===== verification/Buffers.v ===== *)
(** * Buffers and fallible operations

    What the modelled parsers and encoders share: byte buffers whose every access
    is checked against their length, the results of functions that may refuse their
    input, and arrays of slots that are searched, counted and updated by index. *)

From S2P Require Import Prelude.

(** ** Results

    A function returns a result ([Done]), refuses its input ([Refused]: the C
    function returns [false] or a null pointer) or does something that C does not
    define, such as an access outside of an object ([Stuck]). *)
Inductive outcome (A : Type) : Type :=
  | Done (a : A)
  | Refused
  | Stuck.
Arguments Done {A} a.
Arguments Refused {A}.
Arguments Stuck {A}.

#[export] Instance outcome_ret : MRet outcome := fun A a => Done a.
#[export] Instance outcome_bind : MBind outcome := fun A B f m =>
  match m with Done a => f a | Refused => Refused | Stuck => Stuck end.

(** An access that must be inside its object. *)
Definition checked {A} (o : option A) : outcome A :=
  match o with Some a => Done a | None => Stuck end.

(** [if (!b) return false]. *)
Definition ensure (b : bool) : outcome unit := if b then Done tt else Refused.

(** [m] does nothing undefined, and its result, if it has one, satisfies [Q]. *)
Definition safe {A} (m : outcome A) (Q : A -> Prop) : Prop :=
  match m with Done a => Q a | Refused => True | Stuck => False end.

Lemma safe_bind {A B} (m : outcome A) (k : A -> outcome B) (P : A -> Prop) (Q : B -> Prop) :
  safe m P -> (forall a, P a -> safe (k a) Q) -> safe (m ≫= k) Q.
Proof. destruct m; cbn; auto. Qed.

Lemma safe_mono {A} (m : outcome A) (P Q : A -> Prop) :
  safe m P -> (forall a, P a -> Q a) -> safe m Q.
Proof. destruct m; cbn; auto. Qed.

Lemma safe_not_stuck {A} (m : outcome A) (P : A -> Prop) : safe m P -> m <> Stuck.
Proof. by destruct m. Qed.

Lemma ensure_true b : b = true -> ensure b = Done tt.
Proof. by intros ->. Qed.

Lemma bind_done {A B} (m : outcome A) (k : A -> outcome B) b :
  m ≫= k = Done b -> exists a, m = Done a /\ k a = Done b.
Proof. destruct m; [|done..]. cbn. by eexists. Qed.

Lemma ensure_done b u : ensure b = Done u -> b = true.
Proof. by destruct b. Qed.

Lemma checked_done {A} (o : option A) a : checked o = Done a -> o = Some a.
Proof. by destruct o; intros [= ->]. Qed.

(** Takes apart a hypothesis that says a sequence of operations succeeded. *)
Ltac done_inv :=
  repeat match goal with
  | H : _ ≫= _ = Done _ |- _ =>
      let a := fresh "a" in let Ha := fresh "E" in
      apply bind_done in H as (a & Ha & H); cbn beta in H
  | H : ensure _ = Done ?u |- _ => apply ensure_done in H; try clear u
  | H : checked _ = Done _ |- _ => apply checked_done in H
  | H : Done _ = Done _ |- _ => injection H as H
  | H : mret _ = Done _ |- _ => injection H as H
  end.

(** ** Bytes *)

(** The size of a list, in the integers. *)
Definition size {A} (l : list A) : Z := Z.of_nat (length l).

Definition is_byte (b : Z) : Prop := 0 <= b < 256.

(** The bytes of a string with its terminating NUL. *)
Definition with_nul (s : cstring) : list Z := s ++ [0].

(** [n] bytes from [off] on, [None] when some are outside. *)
Definition buf_read (off n : nat) (buf : list Z) : option (list Z) :=
  if (off + n <=? length buf)%nat then Some (take n (drop off buf)) else None.

(** [memcpy] to a buffer, [None] when it would write outside. *)
Definition buf_write (off : nat) (l buf : list Z) : option (list Z) :=
  if (off + length l <=? length buf)%nat
  then Some (take off buf ++ l ++ drop (off + length l) buf) else None.

(** Numbers in network byte order. *)
Definition be16 (v : Z) : list Z := [u8 (Z.shiftr v 8); u8 v].
Definition be32 (v : Z) : list Z :=
  [u8 (Z.shiftr v 24); u8 (Z.shiftr v 16); u8 (Z.shiftr v 8); u8 v].

(** ** Lemmas *)

Lemma size_app {A} (l l' : list A) : size (l ++ l') = size l + size l'.
Proof. unfold size. rewrite length_app. lia. Qed.

Lemma size_nonneg {A} (l : list A) : 0 <= size l.
Proof. unfold size. lia. Qed.

Lemma size_cons {A} (x : A) l : size (x :: l) = 1 + size l.
Proof. unfold size. cbn [length]. lia. Qed.

Lemma lookup_at {A} (pre : list A) x post : (pre ++ x :: post) !! length pre = Some x.
Proof. by rewrite lookup_app_r, Nat.sub_diag by lia. Qed.

Lemma lookup_next {A} (pre : list A) x y post : (pre ++ x :: y :: post) !! S (length pre) = Some y.
Proof.
  rewrite lookup_app_r by lia. by replace (S (length pre) - length pre)%nat with 1%nat by lia.
Qed.

Lemma buf_read_spec off n buf :
  (off + n <= length buf)%nat ->
  buf_read off n buf = Some (take n (drop off buf)) /\ length (take n (drop off buf)) = n.
Proof.
  intros H. unfold buf_read. rewrite (proj2 (Nat.leb_le _ _) H). split; [done|].
  rewrite length_take, length_drop. lia.
Qed.

Lemma buf_read_app pre l post : buf_read (length pre) (length l) (pre ++ l ++ post) = Some l.
Proof.
  unfold buf_read. rewrite (proj2 (Nat.leb_le _ _)) by (rewrite !length_app; lia).
  by rewrite drop_app_length, take_app_length.
Qed.

Lemma buf_write_spec off l buf :
  (off + length l <= length buf)%nat ->
  exists buf', buf_write off l buf = Some buf' /\ length buf' = length buf /\
    take (off + length l) buf' = take off buf ++ l /\ (l <> [] -> buf' !! off = head l).
Proof.
  intros H. unfold buf_write. rewrite (proj2 (Nat.leb_le _ _) H). eexists. split; [done|].
  assert (Ho : length (take off buf) = off) by (rewrite length_take; lia). split_and!.
  - rewrite !length_app, length_take, length_drop. lia.
  - rewrite app_assoc, take_app_le by (rewrite length_app; lia).
    apply take_ge. rewrite length_app. lia.
  - intros Hl. rewrite lookup_app_r, Ho, Nat.sub_diag by lia. by destruct l.
Qed.

Lemma buf_write_app pre old post l :
  length old = length l ->
  buf_write (length pre) l (pre ++ old ++ post) = Some (pre ++ l ++ post).
Proof.
  intros H. unfold buf_write. rewrite (proj2 (Nat.leb_le _ _)) by (rewrite !length_app; lia).
  rewrite take_app_length, <- H. f_equal. f_equal. f_equal.
  by rewrite <- drop_drop, drop_app_length, drop_app_length.
Qed.

(** The string a buffer holds, when a NUL was written after [l]. *)
Lemma cstr_of_prefix l buf :
  Forall (fun b => b <> 0) l -> take (length l) buf = l -> buf !! length l = Some 0 -> cstr_of buf = l.
Proof.
  revert buf. induction l as [|b l IH]; intros buf Hf Ht Hl.
  - destruct buf; [done|]. injection Hl as ->. done.
  - destruct buf as [|x buf]; [done|]. cbn in Ht. injection Ht as -> Ht.
    apply Forall_cons in Hf as [Hb Hf]. cbn. rewrite (proj2 (Z.eqb_neq _ _) Hb). f_equal. by apply IH.
Qed.

Lemma length_be16 v : length (be16 v) = 2%nat.
Proof. done. Qed.

Lemma be16_bytes v : Forall is_byte (be16 v).
Proof. unfold be16, is_byte. repeat constructor; width_lia. Qed.

Lemma be32_bytes v : Forall is_byte (be32 v).
Proof. unfold be32, is_byte. repeat constructor; width_lia. Qed.

(** What holds of every byte can be checked byte by byte. *)
Lemma byte_cases (P : Z -> bool) :
  forallb P (seqZ 0 256) = true -> forall b, is_byte b -> P b = true.
Proof.
  intros H b Hb. rewrite forallb_forall in H. apply H, list_elem_of_In, elem_of_seqZ.
  unfold is_byte in Hb. lia.
Qed.

(** Joining digits of [n] bits with shifts and ors. *)
Lemma lor_shiftl hi lo n : 0 <= n -> 0 <= lo < 2 ^ n -> Z.lor (Z.shiftl hi n) lo = hi * 2 ^ n + lo.
Proof.
  intros Hn Hlo. rewrite Z.shiftl_mul_pow2 by done.
  assert (H0 : Z.land (hi * 2 ^ n) lo = 0).
  { replace lo with (lo mod 2 ^ n) by (by apply Z.mod_small). rewrite <- Z.land_ones by done.
    rewrite (Z.land_comm lo), Z.land_assoc, Z.land_ones, Z.mod_mul by lia. done. }
  rewrite <- Z.lxor_lor by done. by rewrite <- Z.add_nocarry_lxor.
Qed.

Lemma be16_value v : 0 <= v < 65536 -> Z.lor (Z.shiftl (u8 (Z.shiftr v 8)) 8) (u8 v) = v.
Proof.
  intros Hv. rewrite lor_shiftl by (cbn; width_lia).
  unfold u8. rewrite Z.shiftr_div_pow2 by lia. change (2 ^ 8) with 256. lia.
Qed.

(** ** Arrays of slots

    Arrays whose entries are in use or free: searching them, counting in them and
    changing one entry. *)

(** The first index whose entry satisfies [P]. *)
Definition find_entry {A} (P : A -> bool) (l : list A) : option nat := fst <$> list_find P l.

Fixpoint count {A} (P : A -> bool) (l : list A) : Z :=
  match l with [] => 0 | x :: l' => Z.b2z (P x) + count P l' end.

Lemma count_bounds {A} (P : A -> bool) l : 0 <= count P l <= size l.
Proof. induction l as [|x l IH]; cbn [count]; [done|]. rewrite size_cons. destruct (P x); cbn; lia. Qed.

Lemma count_alter {A} (P : A -> bool) f i l x :
  l !! i = Some x -> count P (alter f i l) = count P l - Z.b2z (P x) + Z.b2z (P (f x)).
Proof.
  revert i. induction l as [|y l IH]; intros i H; [done|]. destruct i as [|i]; cbn in H.
  - injection H as ->. cbn. lia.
  - change (alter f (S i) (y :: l)) with (y :: alter f i l). cbn [count]. rewrite (IH i) by done. lia.
Qed.

Lemma count_same {A} (P : A -> bool) f i l :
  (forall x, l !! i = Some x -> P (f x) = P x) -> count P (alter f i l) = count P l.
Proof.
  revert i. induction l as [|y l IH]; intros [|i] H; [done..| |].
  - change (alter f 0%nat (y :: l)) with (f y :: l). cbn [count]. by rewrite (H y).
  - change (alter f (S i) (y :: l)) with (y :: alter f i l). cbn [count]. by rewrite IH.
Qed.

Lemma count_pos {A} (P : A -> bool) l : 0 < count P l <-> exists i x, l !! i = Some x /\ P x = true.
Proof.
  induction l as [|y l IH]; cbn [count].
  - split; [lia|]. by intros (i & x & Hx & _).
  - pose proof (count_bounds P l). destruct (P y) eqn:Hy; cbn [Z.b2z].
    + split; [|lia]. intros _. by exists 0%nat, y.
    + rewrite Z.add_0_l, IH. split.
      * intros (i & x & Hx & HP). by exists (S i), x.
      * intros ([|i] & x & Hx & HP); cbn in Hx; [congruence|]. by exists i, x.
Qed.

Lemma alter_lookup {A} (f : A -> A) (i j : nat) (l : list A) y :
  alter f i l !! j = Some y <-> (j = i /\ exists x, l !! i = Some x /\ y = f x) \/ (j <> i /\ l !! j = Some y).
Proof.
  destruct (decide (j = i)) as [->|Hne].
  - rewrite list_lookup_alter_eq. destruct (l !! i) as [x|]; cbn; split.
    + intros [= <-]. left. split; [done|]. by exists x.
    + intros [(_ & x' & [= <-] & ->)|[? _]]; done.
    + done.
    + intros [(_ & x' & ? & _)|[? _]]; done.
  - rewrite list_lookup_alter_ne by done. split; [by right|]. by intros [[? _]|[_ H]].
Qed.

Lemma find_entry_some {A} (P : A -> bool) l i :
  find_entry P l = Some i -> exists x, l !! i = Some x /\ P x = true.
Proof.
  unfold find_entry. intros ([j x] & H & ->)%fmap_Some. apply list_find_Some in H as (Hx & HP & _).
  exists x. split; [done|]. by apply Is_true_true.
Qed.

Lemma find_entry_none {A} (P : A -> bool) l :
  find_entry P l = None -> forall i x, l !! i = Some x -> P x = false.
Proof.
  unfold find_entry. rewrite fmap_None, list_find_None, list.Forall_forall. intros H i x Hx.
  apply list_elem_of_lookup_2 in Hx. apply H in Hx. by apply Is_true_false.
Qed.

Lemma find_entry_unique {A} (P : A -> bool) l i x :
  l !! i = Some x -> P x = true -> (forall j y, l !! j = Some y -> P y = true -> j = i) -> find_entry P l = Some i.
Proof.
  intros Hx HP Hu. destruct (find_entry P l) as [j|] eqn:E.
  - apply find_entry_some in E as (y & Hy & HPy). by rewrite (Hu j y).
  - pose proof (find_entry_none _ _ E i x Hx). congruence.
Qed.

Lemma alter_id {A} (i : nat) (l : list A) : alter id i l = l.
Proof. revert i. induction l as [|x l IH]; intros [|i]; [done..|]. change (x :: alter id i l = x :: l). by rewrite IH. Qed.

Lemma alter_alter {A} (f g : A -> A) (i : nat) (l : list A) : alter f i (alter g i l) = alter (fun x => f (g x)) i l.
Proof.
  revert i. induction l as [|x l IH]; intros [|i]; [done..|].
  change (x :: alter f i (alter g i l) = x :: alter (fun x => f (g x)) i l). by rewrite IH.
Qed.

Lemma in_altered {A} (f : A -> A) (i : nat) (l : list A) x : l !! i = Some x -> f x ∈ alter f i l.
Proof. intros H. apply list_elem_of_lookup. exists i. apply alter_lookup. left. split; [done|]. by exists x. Qed.

Lemma count_insert {A} (P : A -> bool) (l : list A) (i : nat) x y :
  l !! i = Some x -> count P (<[i := y]> l) = count P l - Z.b2z (P x) + Z.b2z (P y).
Proof.
  revert i. induction l as [|z l IH]; intros i H; [done|]. destruct i as [|i]; cbn in H.
  - injection H as ->. cbn. lia.
  - change (<[S i := y]> (z :: l)) with (z :: <[i := y]> l). cbn [count]. rewrite (IH i) by done. lia.
Qed.

Lemma count_repeat {A} (P : A -> bool) x n : P x = false -> count P (repeat x n) = 0.
Proof. intros H. induction n as [|n IH]; [done|]. cbn [repeat count]. by rewrite H, IH. Qed.

Lemma lookup_repeat {A} (x y : A) n i : repeat x n !! i = Some y -> y = x.
Proof. revert i. induction n as [|n IH]; intros [|i]; cbn; [done|done|by intros [= ->]|apply IH]. Qed.
