(* ===== verification/Dns.v ===== *)
(** * DNS messages (protocol/airplay/discovery/dns.c)

    The receiver announces itself with multicast DNS: it writes a message with
    four records, answers queries and watches for other hosts that claim its
    names.  A packet is the list of the bytes of its buffer, with the size the
    source passes beside it; every read and write is checked, and one outside of
    its buffer is [Stuck].  On refusal the caller does not look at the buffers, so
    their contents are not part of the result.  Pointers are those of objects,
    except the service and the packet of the public functions, which may be null. *)

From S2P Require Import Prelude CText Buffers.

Definition DNS_HEADER_SIZE : nat := 12.
Definition DNS_MAX_QUESTIONS : Z := 32.
Definition DNS_MAX_RECORDS : Z := 64.
Definition DNS_MAX_COMPRESSION_JUMPS : nat := 16.
Definition AIRPLAY_DNS_PACKET_MAX : nat := 1500.
Definition AIRPLAY_DNS_NAME_MAX : nat := 255.
Definition AIRPLAY_DNS_TXT_MAX : nat := 512.
Definition AIRPLAY_DNS_TYPE_A : Z := 1.
Definition AIRPLAY_DNS_TYPE_PTR : Z := 12.
Definition AIRPLAY_DNS_TYPE_TXT : Z := 16.
Definition AIRPLAY_DNS_TYPE_SRV : Z := 33.
Definition AIRPLAY_DNS_TYPE_ANY : Z := 255.

(* src: source/protocol/airplay/discovery/dns.c 17-17 g_default_service_name *)
Definition g_default_service_name : cstring := bytes "_airplay._tcp.local".

(** ** Data *)

(** The character arrays are the strings they hold; [ipv4_address] is in network
    byte order, so that its bytes in the memory of the little-endian target are
    those of the address; [txt] is the whole array. *)
(* src: source/protocol/airplay/discovery/dns.h AirPlayDnsService *)
Record AirPlayDnsService := mkService {
  service_name_field : cstring;
  instance_name : cstring;
  host_name : cstring;
  port : Z;
  ipv4_address : Z;
  txt : list Z;
  txt_size : nat
}.

(** The bytes of a [uint32_t] in memory. *)
Definition memory32 (v : Z) : list Z := rev (be32 v).

(** ** The writer *)

(* src: source/protocol/airplay/discovery/dns.c DnsWriter *)
Record DnsWriter := mkDnsWriter {
  data : list Z;
  capacity : nat;
  offset : nat
}.
#[export] Instance eta_DnsWriter : Eta DnsWriter :=
  fun w => mkDnsWriter (data w) (capacity w) (offset w).

(* src: source/protocol/airplay/discovery/dns.c read_u16 *)
Definition read_u16 (packet : list Z) (off : nat) : outcome Z :=
  b0 ← checked (packet !! off);
  b1 ← checked (packet !! S off);
  Done (u16 (Z.lor (Z.shiftl b0 8) b1)).

(* src: source/protocol/airplay/discovery/dns.c write_bytes *)
Definition write_bytes (source : list Z) (writer : DnsWriter) : outcome DnsWriter :=
  ensure (negb ((capacity writer <? offset writer)%nat ||
                (capacity writer - offset writer <? length source)%nat));;
  data' ← match source with
          | [] => Done (data writer)
          | _ => checked (buf_write (offset writer) source (data writer))
          end;
  Done { writer with data := data'; offset := (offset writer + length source)%nat }.

(* src: source/protocol/airplay/discovery/dns.c write_u8 *)
Definition write_u8 (value : Z) (writer : DnsWriter) : outcome DnsWriter :=
  write_bytes [value] writer.

(* src: source/protocol/airplay/discovery/dns.c write_u16 *)
Definition write_u16 (value : Z) (writer : DnsWriter) : outcome DnsWriter :=
  write_bytes (be16 value) writer.

(* src: source/protocol/airplay/discovery/dns.c write_u32 *)
Definition write_u32 (value : Z) (writer : DnsWriter) : outcome DnsWriter :=
  write_bytes (be32 value) writer.

(* src: source/protocol/airplay/discovery/dns.c patch_u16 *)
Definition patch_u16 (off : nat) (value : Z) (writer : DnsWriter) : outcome DnsWriter :=
  ensure (negb ((capacity writer <? off)%nat || (offset writer <? off)%nat ||
                (capacity writer - off <? 2)%nat || (offset writer - off <? 2)%nat));;
  data' ← checked (buf_write off (be16 value) (data writer));
  Done { writer with data := data' }.

(* src: source/protocol/airplay/discovery/dns.c write_label *)
Definition write_label (label : list Z) (writer : DnsWriter) : outcome DnsWriter :=
  ensure ((0 <? length label)%nat && (length label <=? 63)%nat);;
  writer ← write_u8 (u8 (Z.of_nat (length label))) writer;
  write_bytes label writer.

(** The loop: [label] are the bytes between the source's [label] and [cursor]. *)
(* src: source/protocol/airplay/discovery/dns.c 86-98 write_name *)
Fixpoint write_name_loop (label : list Z) (cursor : cstring) (total : nat) (writer : DnsWriter)
    : outcome DnsWriter :=
  match cursor with
  | [] =>
      writer ← write_label label writer;
      ensure (total + (length label + 1) <=? AIRPLAY_DNS_NAME_MAX)%nat;;
      Done writer
  | c :: cursor' =>
      if c =? 46 then
        writer ← write_label label writer;
        ensure (total + (length label + 1) <=? AIRPLAY_DNS_NAME_MAX)%nat;;
        write_name_loop [] cursor' (total + (length label + 1)) writer
      else write_name_loop (label ++ [c]) cursor' total writer
  end.

(* src: source/protocol/airplay/discovery/dns.c write_name *)
Definition write_name (name : cstring) (writer : DnsWriter) : outcome DnsWriter :=
  ensure (negb (bool_decide (name = [])));;
  writer ← write_name_loop [] name 1 writer;
  write_u8 0 writer.

(* src: source/protocol/airplay/discovery/dns.c write_pointer *)
Definition write_pointer (off : nat) (writer : DnsWriter) : outcome DnsWriter :=
  ensure (Z.of_nat off <? 0xc000);;
  write_u16 (u16 (Z.lor 0xc000 (Z.of_nat off))) writer.

(** ** Reading a name *)

(** The loop: [None] for [next_offset] until the first jump.  A round either jumps
    or adds a label to the output, so that [read_name]'s fuel is never used up. *)
(* src: source/protocol/airplay/discovery/dns.c 120-160 read_name *)
Fixpoint read_name_loop (fuel : nat) (packet : list Z) (packet_size cursor : nat)
    (next_offset : option nat) (jumps output_size : nat) (output : list Z)
    : outcome (nat * list Z) :=
  match fuel with
  | O => Stuck
  | S fuel' =>
      ensure (cursor <? packet_size)%nat;;
      len ← checked (packet !! cursor);
      let cursor := S cursor in
      if Z.land len 0xc0 =? 0xc0 then
        ensure ((cursor <? packet_size)%nat && (S jumps <=? DNS_MAX_COMPRESSION_JUMPS)%nat);;
        low ← checked (packet !! cursor);
        let pointer := Z.to_nat (u16 (Z.lor (Z.shiftl (Z.land len 0x3f) 8) low)) in
        let cursor := S cursor in
        ensure (negb ((packet_size <=? pointer)%nat || (cursor - 2 <=? pointer)%nat));;
        let next_offset := match next_offset with Some n => n | None => cursor end in
        read_name_loop fuel' packet packet_size pointer (Some next_offset) (S jumps) output_size output
      else
        ensure (negb (negb (Z.land len 0xc0 =? 0) || (63 <? len) ||
                      (packet_size - cursor <? Z.to_nat len)%nat));;
        if len =? 0 then
          output ← checked (buf_write output_size [0] output);
          Done (match next_offset with Some n => n | None => cursor end, output)
        else
          '(output_size, output) ←
            (if (output_size =? 0)%nat then Done (output_size, output)
             else
               ensure (negb (AIRPLAY_DNS_NAME_MAX <=? output_size)%nat);;
               output ← checked (buf_write output_size [46] output);
               Done (S output_size, output));
          ensure (negb (AIRPLAY_DNS_NAME_MAX - output_size <? Z.to_nat len)%nat);;
          label ← checked (buf_read cursor (Z.to_nat len) packet);
          output ← checked (buf_write output_size label output);
          read_name_loop fuel' packet packet_size (cursor + Z.to_nat len) next_offset jumps
            (output_size + Z.to_nat len) output
  end.

Definition READ_NAME_FUEL : nat :=
  S (S (AIRPLAY_DNS_NAME_MAX + DNS_MAX_COMPRESSION_JUMPS)).

(** An automatic array of [AIRPLAY_DNS_NAME_MAX + 1] characters. *)
Definition name_array : list Z := replicate (S AIRPLAY_DNS_NAME_MAX) 0.

(** The new offset and the contents of the output array. *)
(* src: source/protocol/airplay/discovery/dns.c read_name *)
Definition read_name (packet : list Z) (packet_size off : nat) (output : list Z)
    : outcome (nat * list Z) :=
  ensure (off <? packet_size)%nat;;
  read_name_loop READ_NAME_FUEL packet packet_size off None 0 0 output.

(** ** Services *)

(* src: source/protocol/airplay/discovery/dns.c service_valid *)
Definition service_valid (service : option AirPlayDnsService) : bool :=
  match service with
  | None => false
  | Some service =>
      negb (bool_decide (instance_name service = [])) && negb (bool_decide (host_name service = [])) &&
      negb (port service =? 0) && negb (ipv4_address service =? 0) &&
      (0 <? txt_size service)%nat && (txt_size service <=? AIRPLAY_DNS_TXT_MAX)%nat
  end.

(* src: source/protocol/airplay/discovery/dns.c service_name *)
Definition service_name (service : AirPlayDnsService) : cstring :=
  if negb (bool_decide (service_name_field service = [])) then service_name_field service
  else g_default_service_name.

(* src: source/protocol/airplay/discovery/dns.c make_instance_full *)
Definition make_instance_full (service : AirPlayDnsService) (output : list Z) : outcome (list Z) :=
  let service_full_name := service_name service in
  let service_size := length service_full_name in
  let instance_size := length (instance_name service) in
  ensure (negb ((instance_size =? 0)%nat || (63 <? instance_size)%nat ||
                (AIRPLAY_DNS_NAME_MAX <? instance_size + 1 + service_size)%nat));;
  output ← checked (buf_write 0 (instance_name service) output);
  output ← checked (buf_write instance_size [46] output);
  checked (buf_write (instance_size + 1) (with_nul service_full_name) output).

(* src: source/protocol/airplay/discovery/dns.c make_host_full *)
Definition make_host_full (service : AirPlayDnsService) (output : list Z) : outcome (list Z) :=
  let suffix := bytes ".local" in
  let host_size := length (host_name service) in
  ensure (negb ((host_size =? 0)%nat || (63 <? host_size)%nat ||
                (AIRPLAY_DNS_NAME_MAX <? host_size + (length (with_nul suffix)) - 1)%nat));;
  output ← checked (buf_write 0 (host_name service) output);
  checked (buf_write host_size (with_nul suffix) output).

(** ** Messages *)

(** The offsets of the record's length and data. *)
(* src: source/protocol/airplay/discovery/dns.c write_record_header *)
Definition write_record_header (owner_offset : nat) (type : Z) (unique : bool) (ttl : Z)
    (writer : DnsWriter) : outcome (nat * nat * DnsWriter) :=
  writer ← write_pointer owner_offset writer;
  writer ← write_u16 type writer;
  writer ← write_u16 (u16 (Z.lor 1 (if unique then 0x8000 else 0))) writer;
  writer ← write_u32 ttl writer;
  let length_offset := offset writer in
  writer ← write_u16 0 writer;
  Done (length_offset, offset writer, writer).

(** [patch_u16(&writer, length_offset, (uint16_t)(writer.offset - rdata_offset))] *)
Definition patch_length (length_offset rdata_offset : nat) (writer : DnsWriter) : outcome DnsWriter :=
  patch_u16 length_offset (u16 (Z.of_nat (offset writer - rdata_offset))) writer.

(** The packet and [*output_size]. *)
(* src: source/protocol/airplay/discovery/dns.c build_record_set *)
Definition build_record_set (service : option AirPlayDnsService) (id ttl : Z) (output : list Z)
    : outcome (list Z * nat) :=
  ensure (service_valid service);;
  service ← (match service with Some s => Done s | None => Refused end);
  let service_full_name := service_name service in
  instance_full ← make_instance_full service name_array;
  host_full ← make_host_full service name_array;
  output ← checked (buf_write 0 (replicate AIRPLAY_DNS_PACKET_MAX 0) output);
  let writer := mkDnsWriter output AIRPLAY_DNS_PACKET_MAX 0 in
  writer ← write_u16 id writer;
  writer ← write_u16 0x8400 writer;
  writer ← write_u16 0 writer;
  writer ← write_u16 4 writer;
  writer ← write_u16 0 writer;
  writer ← write_u16 0 writer;
  let service_offset := offset writer in
  writer ← write_name service_full_name writer;
  writer ← write_u16 AIRPLAY_DNS_TYPE_PTR writer;
  writer ← write_u16 1 writer;
  writer ← write_u32 ttl writer;
  let length_offset := offset writer in
  writer ← write_u16 0 writer;
  let rdata_offset := offset writer in
  let instance_offset := offset writer in
  writer ← write_label (instance_name service) writer;
  writer ← write_pointer service_offset writer;
  writer ← patch_length length_offset rdata_offset writer;
  '(length_offset, rdata_offset, writer) ←
    write_record_header instance_offset AIRPLAY_DNS_TYPE_SRV true ttl writer;
  writer ← write_u16 0 writer;
  writer ← write_u16 0 writer;
  writer ← write_u16 (port service) writer;
  let host_offset := offset writer in
  writer ← write_name (cstr_of host_full) writer;
  writer ← patch_length length_offset rdata_offset writer;
  '(length_offset, rdata_offset, writer) ←
    write_record_header instance_offset AIRPLAY_DNS_TYPE_TXT true ttl writer;
  text ← checked (buf_read 0 (txt_size service) (txt service));
  writer ← write_bytes text writer;
  writer ← patch_length length_offset rdata_offset writer;
  '(length_offset, rdata_offset, writer) ←
    write_record_header host_offset AIRPLAY_DNS_TYPE_A true ttl writer;
  writer ← write_bytes (memory32 (ipv4_address service)) writer;
  writer ← patch_length length_offset rdata_offset writer;
  Done (data writer, offset writer).

(* src: source/protocol/airplay/discovery/dns.c airplay_dns_build_announcement *)
Definition airplay_dns_build_announcement (service : option AirPlayDnsService) (ttl : Z)
    (output : list Z) : outcome (list Z * nat) :=
  build_record_set service 0 ttl output.

(* src: source/protocol/airplay/discovery/dns.c name_matches *)
Definition name_matches (left right : cstring) : bool := strcasecmp_equal left right.

(** Whether a question of class IN asks for one of the service's records. *)
(* src: source/protocol/airplay/discovery/dns.c 358-367 airplay_dns_build_query_response *)
Definition question_relevant (service_full_name instance_full host_full name : cstring) (type : Z) : bool :=
  if name_matches name service_full_name &&
     ((type =? AIRPLAY_DNS_TYPE_PTR) || (type =? AIRPLAY_DNS_TYPE_ANY)) then true
  else if name_matches name instance_full &&
     ((type =? AIRPLAY_DNS_TYPE_SRV) || (type =? AIRPLAY_DNS_TYPE_TXT) || (type =? AIRPLAY_DNS_TYPE_ANY))
  then true
  else name_matches name host_full &&
     ((type =? AIRPLAY_DNS_TYPE_A) || (type =? AIRPLAY_DNS_TYPE_ANY)).

(** The loop over the [count] questions that remain. *)
(* src: source/protocol/airplay/discovery/dns.c 343-371 airplay_dns_build_query_response *)
Fixpoint scan_questions (query : list Z) (query_size : nat)
    (service_full_name instance_full host_full : cstring)
    (count off : nat) (relevant unicast : bool) : outcome (bool * bool) :=
  match count with
  | O => Done (relevant, unicast)
  | S count' =>
      '(off, name) ← read_name query query_size off name_array;
      ensure (negb ((query_size <? off)%nat || (query_size - off <? 4)%nat));;
      type ← read_u16 query off;
      dns_class ← read_u16 query (off + 2);
      let off := (off + 4)%nat in
      if negb (Z.land dns_class 0x7fff =? 1) then
        scan_questions query query_size service_full_name instance_full host_full count' off relevant unicast
      else
        let q := question_relevant service_full_name instance_full host_full (cstr_of name) type in
        scan_questions query query_size service_full_name instance_full host_full count' off
          (relevant || q)
          (if q && negb (Z.land dns_class 0x8000 =? 0) then true else unicast)
  end.

(** [*unicast_response], the packet and [*output_size].  On refusal the first is
    [false] or belongs to a packet that could not be built, and the last is 0. *)
(* src: source/protocol/airplay/discovery/dns.c airplay_dns_build_query_response *)
Definition airplay_dns_build_query_response (service : option AirPlayDnsService)
    (query : option (list Z)) (query_size : nat) (ttl : Z) (output : list Z)
    : outcome (bool * (list Z * nat)) :=
  ensure (service_valid service);;
  valid_service ← (match service with Some s => Done s | None => Refused end);
  query ← (match query with Some q => Done q | None => Refused end);
  ensure (negb ((query_size <? DNS_HEADER_SIZE)%nat || (AIRPLAY_DNS_PACKET_MAX <? query_size)%nat));;
  instance_full ← make_instance_full valid_service name_array;
  host_full ← make_host_full valid_service name_array;
  id ← read_u16 query 0;
  flags ← read_u16 query 2;
  question_count ← read_u16 query 4;
  ensure (negb (negb (Z.land flags 0x8000 =? 0) || (question_count =? 0) ||
                (DNS_MAX_QUESTIONS <? question_count)));;
  '(relevant, unicast) ←
    scan_questions query query_size (service_name valid_service) (cstr_of instance_full)
      (cstr_of host_full) (Z.to_nat question_count) DNS_HEADER_SIZE false false;
  ensure (relevant : bool);;
  result ← build_record_set service (if unicast : bool then id else 0) ttl output;
  Done (unicast : bool, result).

(** ** Conflicts *)

(* src: source/protocol/airplay/discovery/dns.c 385-392 skip_questions *)
Fixpoint skip_questions_loop (packet : list Z) (packet_size count off : nat) : outcome nat :=
  match count with
  | O => Done off
  | S count' =>
      '(off, _) ← read_name packet packet_size off name_array;
      ensure (negb ((packet_size <? off)%nat || (packet_size - off <? 4)%nat));;
      skip_questions_loop packet packet_size count' (off + 4)
  end.

(* src: source/protocol/airplay/discovery/dns.c skip_questions *)
Definition skip_questions (packet : list Z) (packet_size : nat) (count : Z) (off : nat) : outcome nat :=
  ensure (negb (DNS_MAX_QUESTIONS <? count));;
  skip_questions_loop packet packet_size (Z.to_nat count) off.

(** A call whose refusal is an answer: the C function returns a [bool] that the
    caller uses as a condition. *)
Definition holds (m : outcome bool) : outcome bool :=
  match m with Refused => Done false | _ => m end.

(* src: source/protocol/airplay/discovery/dns.c srv_rdata_matches *)
Definition srv_rdata_matches (service : AirPlayDnsService) (packet : list Z)
    (packet_size rdata_offset : nat) (rdata_size : Z) : outcome bool :=
  ensure (negb ((rdata_size <? 7) || (packet_size <? rdata_offset)%nat ||
                (Z.of_nat (packet_size - rdata_offset) <? rdata_size)));;
  priority ← read_u16 packet rdata_offset;
  ensure (priority =? 0);;
  weight ← read_u16 packet (rdata_offset + 2);
  ensure (weight =? 0);;
  target_port ← read_u16 packet (rdata_offset + 4);
  ensure (target_port =? port service);;
  host_full ← make_host_full service name_array;
  '(target_offset, target) ← read_name packet packet_size (rdata_offset + 6) name_array;
  ensure (target_offset =? rdata_offset + Z.to_nat rdata_size)%nat;;
  Done (name_matches (cstr_of target) (cstr_of host_full)).

(** [memcmp(...) != 0] *)
Definition bytes_differ (packet : list Z) (off : nat) (other : list Z) (n : nat) : outcome bool :=
  a ← checked (buf_read off n packet);
  b ← checked (buf_read 0 n other);
  Done (negb (bool_decide (a = b))).

(** The conditions of one record: [true] when it claims a name of the service
    with other data. *)
(* src: source/protocol/airplay/discovery/dns.c 452-462 airplay_dns_packet_conflicts *)
Definition record_conflicts (service : AirPlayDnsService) (instance_full host_full owner : cstring)
    (packet : list Z) (packet_size : nat) (type : Z) (rdata_offset : nat) (rdata_size : Z) : outcome bool :=
  a ← (if name_matches owner host_full && (type =? AIRPLAY_DNS_TYPE_A) then
         if negb (rdata_size =? 4) then Done true
         else bytes_differ packet rdata_offset (memory32 (ipv4_address service)) 4
       else Done false);
  if a : bool then Done true else
  t ← (if name_matches owner instance_full && (type =? AIRPLAY_DNS_TYPE_TXT) then
         if negb (rdata_size =? Z.of_nat (txt_size service)) then Done true
         else bytes_differ packet rdata_offset (txt service) (txt_size service)
       else Done false);
  if t : bool then Done true else
  if name_matches owner instance_full && (type =? AIRPLAY_DNS_TYPE_SRV) then
    ok ← holds (srv_rdata_matches service packet packet_size rdata_offset rdata_size);
    Done (negb ok)
  else Done false.

(** The loop over the [count] records that remain. *)
(* src: source/protocol/airplay/discovery/dns.c 437-465 airplay_dns_packet_conflicts *)
Fixpoint scan_records (service : AirPlayDnsService) (instance_full host_full : cstring)
    (packet : list Z) (packet_size count off : nat) : outcome bool :=
  match count with
  | O => Done false
  | S count' =>
      '(off, owner) ← read_name packet packet_size off name_array;
      ensure (negb ((packet_size <? off)%nat || (packet_size - off <? 10)%nat));;
      type ← read_u16 packet off;
      rdata_size ← read_u16 packet (off + 8);
      let rdata_offset := (off + 10)%nat in
      ensure (negb (Z.of_nat (packet_size - rdata_offset) <? rdata_size));;
      conflict ← record_conflicts service instance_full host_full (cstr_of owner) packet packet_size
                   type rdata_offset rdata_size;
      if conflict : bool then Done true
      else scan_records service instance_full host_full packet packet_size count'
             (rdata_offset + Z.to_nat rdata_size)
  end.

(** A packet that cannot be read is no conflict: [Refused] is [false]. *)
(* src: source/protocol/airplay/discovery/dns.c airplay_dns_packet_conflicts *)
Definition airplay_dns_packet_conflicts (service : option AirPlayDnsService)
    (packet : option (list Z)) (packet_size : nat) : outcome bool :=
  holds (
    ensure (service_valid service);;
    service ← (match service with Some s => Done s | None => Refused end);
    packet ← (match packet with Some p => Done p | None => Refused end);
    ensure (negb ((packet_size <? DNS_HEADER_SIZE)%nat || (AIRPLAY_DNS_PACKET_MAX <? packet_size)%nat));;
    instance_full ← make_instance_full service name_array;
    host_full ← make_host_full service name_array;
    questions ← read_u16 packet 4;
    c1 ← read_u16 packet 6;
    c2 ← read_u16 packet 8;
    c3 ← read_u16 packet 10;
    let record_count := u32 (c1 + c2 + c3) in
    ensure (negb (DNS_MAX_RECORDS <? record_count));;
    off ← skip_questions packet packet_size questions DNS_HEADER_SIZE;
    scan_records service (cstr_of instance_full) (cstr_of host_full) packet packet_size
      (Z.to_nat record_count) off).
