(* ===== verification/DnsNames.v ===== *)
(** * DNS names: what the reader accepts

    [dns_name] says which labels a packet holds at an offset, compression
    included; the reader of [Dns] accepts those names, within its limits on jumps
    and length, and nothing else, and the writer is its inverse. *)

From S2P Require Import Prelude Buffers Dns.

(** ** The reference: labels at an offset *)

Section relation.
Context (packet : list Z) (packet_size : nat).

(** [dns_name j off labels next]: the labels from [off] on, after [j] jumps; the
    bytes after the name start at [next]. *)
Inductive dns_name : nat -> nat -> list (list Z) -> nat -> Prop :=
  | name_end off :
      (off < packet_size)%nat -> packet !! off = Some 0 -> dns_name 0 off [] (S off)
  | name_label j off len label labels next :
      packet !! off = Some (Z.of_nat len) -> (1 <= len <= 63)%nat ->
      (S off + len <= packet_size)%nat -> buf_read (S off) len packet = Some label ->
      dns_name j (S off + len) labels next ->
      dns_name j off (label :: labels) next
  | name_jump j off hi lo labels next :
      (S off < packet_size)%nat -> packet !! off = Some hi -> 192 <= hi ->
      packet !! S off = Some lo -> (Z.to_nat ((hi - 192) * 256 + lo) < off)%nat ->
      dns_name j (Z.to_nat ((hi - 192) * 256 + lo)) labels next ->
      dns_name (S j) off labels (off + 2).
End relation.

(** The text of a name: its labels with dots between them. *)
Definition add_label (text label : list Z) : list Z :=
  match text with [] => label | _ => text ++ 46 :: label end.
Definition dotted (labels : list (list Z)) : list Z := foldl add_label [] labels.

(** The array after a name and its NUL were written to it. *)
Definition set_name (name output : list Z) : list Z := name ++ 0 :: drop (S (length name)) output.

(** ** Lemmas *)

Lemma land_c0 b : is_byte b ->
  (Z.land b 0xc0 =? 0xc0) = (192 <=? b) /\ (Z.land b 0xc0 =? 0) = (b <=? 63).
Proof.
  intros Hb. split; apply eqb_prop; revert b Hb; apply byte_cases; vm_compute; reflexivity.
Qed.

Lemma pointer_value hi lo : 192 <= hi < 256 -> is_byte lo ->
  u16 (Z.lor (Z.shiftl (Z.land hi 0x3f) 8) lo) = (hi - 192) * 256 + lo.
Proof.
  intros Hh Hl. change 0x3f with (Z.ones 6). rewrite Z.land_ones by lia.
  change (2 ^ 6) with 64. unfold is_byte in Hl. rewrite lor_shiftl by (cbn; lia).
  change (2 ^ 8) with 256. width_lia.
Qed.

(** Appending to the text at the front of an array. *)
Lemma write_after text l output :
  (length text + length l <= length output)%nat ->
  buf_write (length text) l (text ++ drop (length text) output) =
    Some ((text ++ l) ++ drop (length (text ++ l)) output).
Proof.
  intros H. rewrite <- (take_drop (length l) (drop (length text) output)).
  rewrite buf_write_app by (rewrite length_take, length_drop; lia).
  by rewrite drop_drop, length_app, app_assoc.
Qed.

Lemma add_label_length text label :
  length (add_label text label) =
    (length text + length label + (if length text =? 0 then 0 else 1))%nat.
Proof. destruct text; cbn; [lia|]. rewrite length_app. cbn. lia. Qed.

Lemma foldl_add_label_length text labels : (length text <= length (foldl add_label text labels))%nat.
Proof.
  revert text. induction labels as [|l labels IH]; intros text; cbn; [lia|].
  etrans; [|apply IH]. rewrite add_label_length. lia.
Qed.

(** The two writes of one label. *)
Lemma write_label_text text label output :
  (length text <= 255)%nat -> length output = 256%nat -> label <> [] ->
  (length (add_label text label) <= 255)%nat ->
  (if (length text =? 0)%nat then Done (length text, text ++ drop (length text) output)
   else ensure (negb (AIRPLAY_DNS_NAME_MAX <=? length text)%nat);;
        out ← checked (buf_write (length text) [46] (text ++ drop (length text) output));
        Done (S (length text), out)) =
  let pre := match text with [] => [] | _ => text ++ [46] end in
  Done (length pre, pre ++ drop (length pre) output).
Proof.
  intros Ht Ho Hl Ha. unfold AIRPLAY_DNS_NAME_MAX. destruct text as [|c text]; [done|].
  set (t := c :: text) in *. rewrite add_label_length in Ha.
  assert (Hne : (length t =? 0)%nat = false) by done. rewrite Hne in *.
  destruct label; [done|]. cbn [length] in Ha.
  rewrite (proj2 (Nat.leb_gt _ _)) by lia. cbn [negb ensure mbind outcome_bind].
  rewrite write_after by (cbn [length]; lia). cbn [checked mbind outcome_bind].
  cbv zeta. change (match t with [] => [] | _ => t ++ [46] end) with (t ++ [46]).
  rewrite length_app. cbn [length]. by rewrite Nat.add_1_r.
Qed.

Section reader.
Context (packet : list Z) (packet_size : nat) (output : list Z).
Hypothesis (Hbytes : Forall is_byte packet).
Hypothesis (Hsize : (packet_size <= length packet)%nat).
Hypothesis (Houtput : length output = 256%nat).

(** The reader in the state reached after [text]. *)
Definition reading fuel cursor nxt jumps text :=
  read_name_loop fuel packet packet_size cursor nxt jumps (length text)
    (text ++ drop (length text) output).

Lemma byte_in off : (off < packet_size)%nat -> exists b, packet !! off = Some b /\ is_byte b.
Proof.
  intros H. destruct (lookup_lt_is_Some_2 packet off) as [b Hb]; [lia|].
  exists b. split; [done|]. by apply (proj1 (Forall_lookup _ _) Hbytes off).
Qed.

(** One round of the loop, on the byte that [Hb] says is at the cursor. *)
Ltac round Hb :=
  unfold reading at 1; cbn [read_name_loop];
  match type of Hb with packet !! ?c = _ => rewrite (proj2 (Nat.ltb_lt c packet_size)) by lia end;
  cbn [ensure mbind outcome_bind]; rewrite Hb; cbn [checked mbind outcome_bind].

Lemma reading_end fuel cursor nxt jumps text :
  (cursor < packet_size)%nat -> packet !! cursor = Some 0 -> (length text <= 255)%nat ->
  reading (S fuel) cursor nxt jumps text = Done (default (S cursor) nxt, set_name text output).
Proof.
  intros Hc H0 Ht. round H0. cbn.
  rewrite write_after by (cbn; rewrite Houtput; lia). cbn [checked outcome_bind].
  rewrite length_app, <- app_assoc. cbn [length app]. unfold set_name. rewrite Nat.add_1_r.
  by destruct nxt.
Qed.

Lemma reading_label fuel cursor nxt jumps text len label :
  packet !! cursor = Some (Z.of_nat len) -> (1 <= len <= 63)%nat -> (S cursor + len <= packet_size)%nat ->
  buf_read (S cursor) len packet = Some label -> (length text <= 255)%nat ->
  reading (S fuel) cursor nxt jumps text =
    if (length (add_label text label) <=? 255)%nat
    then reading fuel (S cursor + len) nxt jumps (add_label text label) else Refused.
Proof.
  intros Hp Hlen Hin Hread Ht.
  assert (Hll : length label = len).
  { destruct (buf_read_spec (S cursor) len packet) as [E El]; [lia|].
    rewrite Hread in E. injection E as ->. done. }
  round Hp.
  destruct (land_c0 (Z.of_nat len)) as [-> ->]; [unfold is_byte; lia|].
  rewrite (proj2 (Z.leb_gt 192 _)), (proj2 (Z.leb_le _ 63)), (proj2 (Z.ltb_ge 63 _)), Nat2Z.id by lia.
  rewrite (proj2 (Nat.ltb_ge (packet_size - S cursor) len)) by lia.
  rewrite (proj2 (Z.eqb_neq _ _)) by lia. cbn [negb orb ensure mbind outcome_bind].
  destruct (Nat.leb_spec (length (add_label text label)) 255) as [Hfit|Hfit].
  - assert (Hne : label <> []) by (intros ->; cbn in Hll; lia).
    rewrite (write_label_text text label output Ht Houtput Hne Hfit).
    cbn [mbind outcome_bind]. set (pre := match text with [] => [] | _ => text ++ [46] end).
    assert (Hpre : pre ++ label = add_label text label)
      by (unfold pre; destruct text; cbn; [done | by rewrite <- app_assoc]).
    assert (Hpl : (length pre + len <= 255)%nat) by (rewrite <- Hpre, length_app in Hfit; lia).
    unfold AIRPLAY_DNS_NAME_MAX. rewrite (proj2 (Nat.ltb_ge _ _)) by lia.
    cbn [negb ensure mbind outcome_bind]. rewrite Hread. cbn [checked mbind outcome_bind].
    rewrite write_after by lia. cbn [checked mbind outcome_bind]. rewrite Hpre.
    unfold reading. f_equal. rewrite <- Hpre, length_app. lia.
  - rewrite add_label_length, Hll in Hfit. unfold AIRPLAY_DNS_NAME_MAX.
    destruct (Nat.eqb_spec (length text) 0); [lia|].
    destruct (Nat.leb_spec 255 (length text)); [done|]. cbn [negb ensure mbind outcome_bind].
    rewrite write_after by (cbn; lia). cbn [checked mbind outcome_bind].
    rewrite (proj2 (Nat.ltb_lt _ _)) by lia. done.
Qed.

Lemma reading_jump fuel cursor nxt jumps text hi lo :
  (S cursor < packet_size)%nat -> packet !! cursor = Some hi -> 192 <= hi -> packet !! S cursor = Some lo ->
  reading (S fuel) cursor nxt jumps text =
    if (S jumps <=? 16)%nat && (Z.to_nat ((hi - 192) * 256 + lo) <? cursor)%nat
    then reading fuel (Z.to_nat ((hi - 192) * 256 + lo)) (Some (default (cursor + 2)%nat nxt)) (S jumps) text
    else Refused.
Proof.
  intros Hin Hhi H192 Hlo.
  assert (Bh : is_byte hi) by by apply (proj1 (Forall_lookup _ _) Hbytes cursor).
  assert (Bl : is_byte lo) by by apply (proj1 (Forall_lookup _ _) Hbytes (S cursor)).
  round Hhi. destruct (land_c0 hi Bh) as [-> _].
  rewrite (proj2 (Z.leb_le 192 hi)) by done. rewrite (proj2 (Nat.ltb_lt (S cursor) packet_size)) by lia.
  unfold DNS_MAX_COMPRESSION_JUMPS. cbn [andb]. destruct (S jumps <=? 16)%nat; [|done].
  cbn [ensure mbind outcome_bind]. rewrite Hlo. cbn [checked mbind outcome_bind].
  rewrite pointer_value by (unfold is_byte in *; (lia || done)).
  set (p := Z.to_nat _). destruct (Nat.ltb_spec p cursor).
  - rewrite (proj2 (Nat.leb_gt _ _)), (proj2 (Nat.leb_gt _ _)) by lia.
    cbn [orb negb ensure mbind outcome_bind]. unfold reading. f_equal. f_equal.
    destruct nxt; cbn; [done|]. lia.
  - replace (packet_size <=? p)%nat with (packet_size <=? p)%nat by done.
    rewrite (proj2 (Nat.leb_le (S (S cursor) - 2) p)) by lia. by rewrite orb_true_r.
Qed.

(** Every name within the limits is read. *)
Lemma reading_complete j cursor labels next fuel nxt jumps text :
  dns_name packet packet_size j cursor labels next ->
  (jumps + j <= 16)%nat -> (length (foldl add_label text labels) <= 255)%nat ->
  (S (255 - length text) + (16 - jumps) < fuel)%nat ->
  reading fuel cursor nxt jumps text =
    Done (default next nxt, set_name (foldl add_label text labels) output).
Proof.
  intros Hn. revert fuel nxt jumps text.
  induction Hn as [off Hoff H0 | j off len label labels next Hp Hlen Hin Hread Hn IH
    | j off hi lo labels next Hin Hhi H192 Hlo Hback Hn IH]; intros fuel nxt jumps text Hj Ht Hf;
    (destruct fuel as [|fuel]; [lia|]).
  - by apply reading_end.
  - cbn [foldl] in *. pose proof (foldl_add_label_length (add_label text label) labels).
    assert (Hll : length label = len).
    { destruct (buf_read_spec (S off) len packet) as [E El]; [lia|]. congruence. }
    pose proof (add_label_length text label).
    erewrite reading_label; [|done..|lia]. rewrite (proj2 (Nat.leb_le _ _)) by lia.
    apply IH; [done | done |]. destruct (length text =? 0)%nat; lia.
  - erewrite reading_jump; [|done..]. rewrite (proj2 (Nat.leb_le _ _)), (proj2 (Nat.ltb_lt _ _)) by lia.
    cbn [andb]. rewrite IH; [|lia|done|lia]. by destruct nxt.
Qed.

(** Whatever the packet holds, the reader returns, and what it reads is a name. *)
Lemma reading_sound fuel cursor nxt jumps text :
  (length text <= 255)%nat -> (jumps <= 16)%nat ->
  (S (255 - length text) + (16 - jumps) < fuel)%nat ->
  safe (reading fuel cursor nxt jumps text) (fun _ =>
    exists j labels next, dns_name packet packet_size j cursor labels next /\
      (jumps + j <= 16)%nat /\ (length (foldl add_label text labels) <= 255)%nat).
Proof.
  revert cursor nxt jumps text. induction fuel as [|fuel IH]; intros cursor nxt jumps text Ht Hj Hf; [lia|].
  destruct (Nat.lt_ge_cases cursor packet_size) as [Hc|Hc]; cycle 1.
  { unfold reading. cbn [read_name_loop]. by rewrite (proj2 (Nat.ltb_ge cursor packet_size)) by done. }
  destruct (byte_in cursor Hc) as (b & Hb & Br). pose proof Br as [B0 B1].
  destruct (Z.eq_dec b 0) as [->|Hb0].
  { rewrite reading_end by done. exists 0%nat, [], (S cursor). split_and!; [by constructor | lia | done]. }
  destruct (Z.leb_spec b 63) as [H63|H63].
  { destruct (Nat.le_gt_cases (S cursor + Z.to_nat b) packet_size) as [Hin|Hin].
    - destruct (buf_read_spec (S cursor) (Z.to_nat b) packet) as [Hr Hrl]; [lia|].
      set (label := take _ _) in *.
      assert (Hb' : packet !! cursor = Some (Z.of_nat (Z.to_nat b))) by by rewrite Z2Nat.id by lia.
      erewrite reading_label; [|done|lia|lia|done|done].
      destruct (Nat.leb_spec (length (add_label text label)) 255); [|done].
      pose proof (add_label_length text label).
      eapply safe_mono; [apply IH; [done|done|]; destruct (length text =? 0)%nat; lia|].
      intros _ (j & labels & next & Hn & H1 & H2).
      exists j, (label :: labels), next. split_and!; [|done|done].
      eapply name_label; try done; lia.
    - round Hb.
      destruct (land_c0 b Br) as [-> ->].
      rewrite (proj2 (Z.leb_gt 192 b)), (proj2 (Nat.ltb_lt (packet_size - S cursor) _)) by lia.
      by rewrite !orb_true_r. }
  destruct (Z.leb_spec 192 b) as [H192|H192].
  { destruct (Nat.lt_ge_cases (S cursor) packet_size) as [Hin|Hin].
    - destruct (byte_in (S cursor) Hin) as (lo & Hlo & _).
      erewrite reading_jump; [|done..].
      destruct ((S jumps <=? 16)%nat && _) eqn:E; [|done].
      apply andb_true_iff in E as [E1%Nat.leb_le E2%Nat.ltb_lt].
      eapply safe_mono; [apply IH; [done|lia|lia]|]. intros _ (j & labels & next & Hn & H1 & H2).
      exists (S j), labels, (cursor + 2)%nat. split_and!; [|lia|done]. by econstructor.
    - round Hb.
      destruct (land_c0 b Br) as [-> _]. rewrite (proj2 (Z.leb_le 192 b)) by done.
      by rewrite (proj2 (Nat.ltb_ge (S cursor) packet_size)) by done. }
  round Hb.
  destruct (land_c0 b Br) as [-> ->]. by rewrite (proj2 (Z.leb_gt 192 b)), (proj2 (Z.leb_gt b 63)) by done.
Qed.
End reader.

Lemma read_name_reading packet packet_size off output :
  length output = 256%nat -> (off < packet_size)%nat ->
  read_name packet packet_size off output = reading packet packet_size output READ_NAME_FUEL off None 0 [].
Proof. intros Ho H. unfold read_name. by rewrite (proj2 (Nat.ltb_lt _ _)) by done. Qed.

Lemma dns_name_offset packet packet_size j off labels next :
  dns_name packet packet_size j off labels next -> (off < next <= packet_size)%nat.
Proof. induction 1; lia. Qed.

(** A name within the limits is read, whatever comes after it. *)
Lemma read_name_complete packet packet_size j off labels next output :
  Forall is_byte packet -> (packet_size <= length packet)%nat -> length output = 256%nat ->
  dns_name packet packet_size j off labels next -> (j <= 16)%nat -> (length (dotted labels) <= 255)%nat ->
  read_name packet packet_size off output = Done (next, set_name (dotted labels) output).
Proof.
  intros Hb Hs Ho Hn Hj Hl. pose proof (dns_name_offset _ _ _ _ _ _ Hn).
  assert (Hof : (off < packet_size)%nat) by (destruct Hn; lia).
  rewrite read_name_reading by done.
  apply (reading_complete packet packet_size output Hb Hs Ho j off labels next); try done.
  vm_compute. lia.
Qed.

(** The reader never goes out of bounds, and it returns. *)
Lemma read_name_safe packet packet_size off output :
  Forall is_byte packet -> (packet_size <= length packet)%nat -> length output = 256%nat ->
  safe (read_name packet packet_size off output) (fun r =>
    exists j labels, dns_name packet packet_size j off labels (fst r) /\ (j <= 16)%nat /\
      (length (dotted labels) <= 255)%nat /\ snd r = set_name (dotted labels) output).
Proof.
  intros Hb Hs Ho. destruct (Nat.lt_ge_cases off packet_size) as [H|H]; cycle 1.
  { unfold read_name. by rewrite (proj2 (Nat.ltb_ge _ _)) by done. }
  rewrite read_name_reading by done.
  pose proof (reading_sound packet packet_size output Hb Hs Ho READ_NAME_FUEL off None 0 []) as Hsafe.
  specialize (Hsafe ltac:(cbn; lia) ltac:(lia) ltac:(vm_compute; lia)). cbn [length] in Hsafe.
  destruct (reading _ _ _ _ _ _ _ _) as [[n out]| |] eqn:E; cbn [safe fst snd] in *; [|done..].
  destruct Hsafe as (j & labels & next & Hn & Hj & Hl). exists j, labels.
  pose proof (read_name_complete packet packet_size j off labels next output Hb Hs Ho Hn Hj Hl) as Hc.
  rewrite read_name_reading, E in Hc by done. injection Hc as -> ->. by split_and!.
Qed.

(** ** Writing names *)

(** A writer that wrote [text] over the buffer [output]. *)
Definition writing (output : list Z) (cap : nat) (text : list Z) : DnsWriter :=
  mkDnsWriter (text ++ drop (length text) output) cap (length text).

Definition encode_label (label : list Z) : list Z := Z.of_nat (length label) :: label.
Definition encode_labels (labels : list (list Z)) : list Z := concat (map encode_label labels) ++ [0].

(** The labels of a name: its parts between dots. *)
Fixpoint split_dots (label : list Z) (name : cstring) : list (list Z) :=
  match name with
  | [] => [label]
  | c :: name' => if c =? 46 then label :: split_dots [] name' else split_dots (label ++ [c]) name'
  end.

Definition label_ok (label : list Z) : Prop := (1 <= length label <= 63)%nat.

(** The names that can be written. *)
Definition name_ok (name : cstring) : Prop :=
  Forall label_ok (split_dots [] name) /\ (length name <= 253)%nat.

#[export] Instance label_ok_dec label : Decision (label_ok label).
Proof. unfold label_ok. apply _. Defined.
#[export] Instance name_ok_dec name : Decision (name_ok name).
Proof. unfold name_ok. apply _. Defined.

Lemma write_bytes_writing output cap text l :
  (cap <= length output)%nat ->
  write_bytes l (writing output cap text) =
    if (length text + length l <=? cap)%nat then Done (writing output cap (text ++ l)) else Refused.
Proof.
  intros Hc. unfold write_bytes. cbn [writing capacity offset data].
  destruct (Nat.leb_spec (length text + length l) cap) as [H|H].
  - rewrite (proj2 (Nat.ltb_ge cap (length text))), (proj2 (Nat.ltb_ge (cap - length text) _)) by lia.
    cbn [orb negb ensure mbind outcome_bind].
    assert (E : match l with [] => Done (text ++ drop (length text) output)
      | _ => checked (buf_write (length text) l (text ++ drop (length text) output)) end =
      Done ((text ++ l) ++ drop (length (text ++ l)) output)).
    { rewrite write_after by lia. destruct l; [by rewrite app_nil_r | done]. }
    rewrite E. cbn [mbind outcome_bind]. unfold writing. by rewrite length_app.
  - destruct (Nat.ltb_spec cap (length text)); [done|].
    by rewrite (proj2 (Nat.ltb_lt (cap - length text) _)) by lia.
Qed.

Lemma write_label_writing output cap text label :
  (cap <= length output)%nat ->
  write_label label (writing output cap text) =
    if bool_decide (label_ok label) && (length text + (length label + 1) <=? cap)%nat
    then Done (writing output cap (text ++ encode_label label)) else Refused.
Proof.
  intros Hc. unfold write_label, write_u8, label_ok. case_bool_decide as Hl; cycle 1.
  { destruct (Nat.ltb_spec 0 (length label)), (Nat.leb_spec (length label) 63); (done || lia). }
  rewrite (proj2 (Nat.ltb_lt 0 _)), (proj2 (Nat.leb_le _ 63)) by lia.
  cbn [andb ensure mbind outcome_bind]. rewrite write_bytes_writing by done. cbn [length].
  destruct (Nat.leb_spec (length text + (length label + 1)) cap) as [H|H].
  - rewrite (proj2 (Nat.leb_le _ cap)) by lia. cbn [mbind outcome_bind].
    rewrite write_bytes_writing, length_app by done. cbn [length].
    rewrite (proj2 (Nat.leb_le _ cap)) by lia. rewrite <- app_assoc. unfold encode_label.
    by replace (u8 (Z.of_nat (length label))) with (Z.of_nat (length label)) by width_lia.
  - destruct (Nat.leb_spec (length text + 1) cap); [|done]. cbn [mbind outcome_bind].
    rewrite write_bytes_writing, length_app by done. cbn [length].
    by rewrite (proj2 (Nat.leb_gt _ cap)) by lia.
Qed.

Lemma encode_labels_length label name :
  length (encode_labels (split_dots label name)) = (length label + length name + 2)%nat.
Proof.
  unfold encode_labels. revert label. induction name as [|c name IH]; intros label; cbn [split_dots].
  - cbn. rewrite !length_app. cbn. lia.
  - destruct (c =? 46); cbn [map concat].
    + specialize (IH []). rewrite length_app in IH |- *. rewrite length_app.
      unfold encode_label at 1. cbn [length] in *. lia.
    + rewrite IH, length_app. cbn. lia.
Qed.

Lemma write_name_loop_writing output cap label name total text :
  (cap <= length output)%nat ->
  (w ← write_name_loop label name total (writing output cap text); write_u8 0 w) =
    if bool_decide (Forall label_ok (split_dots label name)) &&
       (total + length label + length name + 1 <=? 255)%nat &&
       (length text + length label + length name + 2 <=? cap)%nat
    then Done (writing output cap (text ++ encode_labels (split_dots label name))) else Refused.
Proof.
  intros Hc. revert label total text.
  induction name as [|c name IH]; intros label total text; cbn [write_name_loop split_dots].
  - rewrite write_label_writing by done. unfold encode_labels. cbn [map concat length app].
    rewrite app_nil_r. rewrite (bool_decide_ext _ _ (list.Forall_singleton _ _)).
    destruct (bool_decide (label_ok label)); [|done]. cbn [andb]. unfold AIRPLAY_DNS_NAME_MAX.
    destruct (Nat.leb_spec (length text + (length label + 1)) cap) as [H|H]; cycle 1.
    { by rewrite (proj2 (Nat.leb_gt _ cap)), andb_false_r by lia. }
    cbn [mbind outcome_bind].
    replace (total + length label + 0 + 1)%nat with (total + (length label + 1))%nat by lia.
    destruct (total + (length label + 1) <=? 255)%nat; [|done]. cbn [ensure mbind outcome_bind andb].
    unfold write_u8. rewrite write_bytes_writing, length_app by done. unfold encode_label. cbn [length].
    replace (length text + S (length label) + 1)%nat with (length text + length label + 0 + 2)%nat by lia.
    destruct (_ <=? cap)%nat; [|done]. by rewrite <- app_assoc.
  - destruct (Z.eqb_spec c 46) as [->|Hne]; cycle 1.
    { rewrite IH, length_app. cbn [length].
      replace (total + (length label + 1) + length name + 1)%nat
        with (total + length label + S (length name) + 1)%nat by lia.
      by replace (length text + (length label + 1) + length name + 2)%nat
        with (length text + length label + S (length name) + 2)%nat by lia. }
    rewrite write_label_writing by done. cbn [length].
    destruct (decide (label_ok label)) as [Hl|Hl]; cycle 1.
    { rewrite (bool_decide_eq_false_2 (label_ok label)) by done.
      rewrite bool_decide_eq_false_2 by (intros [? _]%Forall_cons; done). done. }
    rewrite (bool_decide_eq_true_2 (label_ok label)) by done. cbn [andb]. unfold AIRPLAY_DNS_NAME_MAX in *.
    assert (E : bool_decide (Forall label_ok (label :: split_dots [] name)) =
                bool_decide (Forall label_ok (split_dots [] name))).
    { apply bool_decide_ext. rewrite Forall_cons. tauto. }
    rewrite E. destruct (Nat.leb_spec (length text + (length label + 1)) cap) as [H|H]; cycle 1.
    { by rewrite (proj2 (Nat.leb_gt _ cap)), andb_false_r by lia. }
    cbn [mbind outcome_bind].
    destruct (Nat.leb_spec (total + (length label + 1)) 255) as [Ht|Ht]; cycle 1.
    { by rewrite (proj2 (Nat.leb_gt (total + length label + _ + 1) 255)), andb_false_r by lia. }
    cbn [ensure mbind outcome_bind]. rewrite IH. unfold encode_label at 1. rewrite !length_app. cbn [length].
    replace (total + (length label + 1) + 0 + length name + 1)%nat
      with (total + length label + S (length name) + 1)%nat by lia.
    replace (length text + S (length label) + 0 + length name + 2)%nat
      with (length text + length label + S (length name) + 2)%nat by lia.
    destruct (_ && _ && _); [|done]. unfold encode_labels. cbn [map concat]. by rewrite <- !app_assoc.
Qed.

(** The bytes of a name on the wire. *)
Definition encode_name (name : cstring) : list Z := encode_labels (split_dots [] name).

Lemma encode_name_length name : length (encode_name name) = (length name + 2)%nat.
Proof. apply encode_labels_length. Qed.

Lemma write_name_writing output cap name text :
  (cap <= length output)%nat ->
  write_name name (writing output cap text) =
    if bool_decide (name_ok name) && (length text + length name + 2 <=? cap)%nat
    then Done (writing output cap (text ++ encode_name name)) else Refused.
Proof.
  intros Hc. unfold write_name. destruct name as [|c name].
  { rewrite (bool_decide_eq_false_2 (name_ok [])); [done|]. intros [H _]. cbn in H.
    apply Forall_cons in H as [[H _] _]. cbn [length] in H. lia. }
  rewrite (bool_decide_eq_false_2 (c :: name = [])) by done. cbn [negb ensure mbind outcome_bind].
  pose proof (write_name_loop_writing output cap [] (c :: name) 1 text Hc) as E.
  cbn [mbind outcome_bind length Nat.add] in E |- *. rewrite E.
  assert (Eb : bool_decide (name_ok (c :: name)) =
    bool_decide (Forall label_ok (split_dots [] (c :: name))) && (S (S (length name)) <=? 254)%nat).
  { apply eq_true_iff_eq. rewrite andb_true_iff, !bool_decide_eq_true, Nat.leb_le.
    unfold name_ok. cbn [length]. split; intros [? ?]; (split; [done|lia]). }
  rewrite Eb. replace (S (S (length name + 1)) <=? 255)%nat with (S (S (length name)) <=? 254)%nat.
  2: { apply eq_true_iff_eq. rewrite !Nat.leb_le. lia. }
  by replace (length text + 0 + S (length name) + 2)%nat with (length text + S (length name) + 2)%nat by lia.
Qed.

(** ** Reading what was written *)

(** Encoded labels are the labels, up to a name that follows them. *)
Lemma dns_name_labels pre labels rest packet_size j last next :
  Forall label_ok labels ->
  (length (pre ++ concat (map encode_label labels)) <= packet_size)%nat ->
  dns_name (pre ++ concat (map encode_label labels) ++ rest) packet_size j
    (length (pre ++ concat (map encode_label labels))) last next ->
  dns_name (pre ++ concat (map encode_label labels) ++ rest) packet_size j (length pre)
    (labels ++ last) next.
Proof.
  intros Hok. revert pre. induction Hok as [|label labels Hl Hok IH]; intros pre Hs Hn.
  { cbn in *. by rewrite app_nil_r in Hn. }
  cbn [map concat app] in *. unfold encode_label at 1. cbn [app].
  specialize (IH (pre ++ encode_label label)). rewrite <- !app_assoc in IH. rewrite <- !app_assoc in Hn |- *.
  eapply (name_label _ _ _ _ (length label) label); [| exact Hl | | |].
  - rewrite lookup_app_r, Nat.sub_diag by lia. done.
  - rewrite !length_app in Hs. unfold encode_label at 1 in Hs. cbn [length] in Hs. lia.
  - pose proof (buf_read_app (pre ++ [Z.of_nat (length label)]) label
      (concat (map encode_label labels) ++ rest)) as E.
    rewrite length_app, <- app_assoc in E. cbn [length app] in E. by rewrite Nat.add_1_r in E.
  - replace (S (length pre) + length label)%nat with (length (pre ++ encode_label label))
      by (rewrite length_app; cbn; lia).
    apply IH; [exact Hs | exact Hn].
Qed.

(** The text of labels that were found by splitting it. *)
Lemma dotted_split text label name :
  Forall label_ok (split_dots label name) ->
  foldl add_label text (split_dots label name) = add_label text (label ++ name).
Proof.
  revert text label. induction name as [|c name IH]; intros text label; cbn [split_dots].
  { by rewrite app_nil_r. }
  destruct (Z.eqb_spec c 46) as [->|Hne]; cycle 1.
  { intros H. rewrite IH by done. by rewrite <- app_assoc. }
  intros [Hl H]%Forall_cons. cbn [foldl]. rewrite IH by done. unfold label_ok in Hl.
  destruct label as [|x label]; [cbn in Hl; lia|]. destruct text; cbn; [done|]. by rewrite <- app_assoc.
Qed.

Lemma encode_name_bytes name : Forall is_byte name -> name_ok name -> Forall is_byte (encode_name name).
Proof.
  unfold encode_name, encode_labels. intros Hb [Hok _]. apply Forall_app. split; [|by repeat constructor].
  assert (Hlabels : forall label, Forall is_byte label -> Forall (Forall is_byte) (split_dots label name)).
  { clear Hok. induction Hb as [|c name Hc Hb IH]; intros label Hl; cbn; [by constructor|].
    destruct (c =? 46); [by constructor; auto|]. apply IH, Forall_app. split; [done | by constructor]. }
  specialize (Hlabels [] ltac:(constructor)).
  induction Hok as [|label labels Hl Hok IH]; cbn; [done|]. apply Forall_cons in Hlabels as [H1 H2].
  constructor; [unfold is_byte, label_ok in *; lia|]. apply Forall_app. split; [done | by apply IH].
Qed.

(** A written name is read, wherever it is. *)
Lemma dns_name_written pre name rest packet_size :
  name_ok name -> (length (pre ++ encode_name name) <= packet_size)%nat ->
  dns_name (pre ++ encode_name name ++ rest) packet_size 0 (length pre) (split_dots [] name)
    (length (pre ++ encode_name name)).
Proof.
  intros [Hok _] Hs. unfold encode_name, encode_labels in *. rewrite app_assoc, length_app in Hs. cbn in Hs.
  rewrite <- app_assoc.
  replace (split_dots [] name) with (split_dots [] name ++ []) at 2 by apply app_nil_r.
  apply dns_name_labels; [done | lia |].
  set (enc := concat _) in *. rewrite (app_assoc pre enc [0]), (length_app (pre ++ enc) [0]). cbn [length].
  rewrite Nat.add_1_r. constructor; [lia|]. by rewrite app_assoc, lookup_app_r, Nat.sub_diag by lia.
Qed.

Lemma dotted_name name : name_ok name -> dotted (split_dots [] name) = name.
Proof. intros [H _]. unfold dotted. by rewrite dotted_split. Qed.

(** The name in the reader's array, as a C string. *)
Lemma cstr_of_set_name name output : Forall (fun b => b <> 0) name -> cstr_of (set_name name output) = name.
Proof.
  intros H. apply cstr_of_prefix; [done | apply take_app_length |].
  unfold set_name. by rewrite lookup_app_r, Nat.sub_diag by lia.
Qed.

(** ** Properties *)

(** The reader of names accepts exactly the well-formed names: on any packet
    of bytes, wherever the name starts, it returns without reading outside the
    packet or writing outside its 256-byte array and never runs for ever; and it
    returns an offset and an array if and only if the packet holds at that place,
    possibly through backward compression pointers, at most sixteen of them, labels
    whose dotted text has at most 255 bytes: then the array holds that text with
    a NUL, and the offset is the one after the name. *)
Theorem read_name_exact (packet output : list Z) (packet_size off : nat)
    (Hbytes : Forall is_byte packet) (Hsize : (packet_size <= length packet)%nat)
    (Houtput : length output = 256%nat) :
  read_name packet packet_size off output <> Stuck /\
  (forall next output', read_name packet packet_size off output = Done (next, output') <->
     exists j labels, dns_name packet packet_size j off labels next /\ (j <= 16)%nat /\
       (length (dotted labels) <= 255)%nat /\ output' = set_name (dotted labels) output).
Proof.
  pose proof (read_name_safe packet packet_size off output Hbytes Hsize Houtput) as Hs.
  split; [by eapply safe_not_stuck|]. intros next output'. split.
  - intros E. by rewrite E in Hs.
  - intros (j & labels & Hn & Hj & Hl & ->). by eapply read_name_complete.
Qed.

(** A packet with a compressed name: at 9, "b" and a pointer to "a.c" at 0. *)
Definition demo_packet : list Z := [1; 97; 1; 99; 0; 7; 7; 7; 7; 1; 98; 192; 0; 5].

Lemma read_name_exact_witness :
  read_name demo_packet 14 9 name_array = Done (13%nat, set_name (bytes "b.a.c") name_array) /\
  read_name demo_packet 14 9 name_array <> Stuck /\
  (forall next output', read_name demo_packet 14 9 name_array = Done (next, output') <->
     exists j labels, dns_name demo_packet 14 j 9 labels next /\ (j <= 16)%nat /\
       (length (dotted labels) <= 255)%nat /\ output' = set_name (dotted labels) name_array).
Proof.
  split; [vm_compute; reflexivity|].
  apply (read_name_exact demo_packet name_array 14 9); [|cbn; lia|reflexivity].
  repeat constructor; unfold is_byte; lia.
Defined.

(** Names survive a round trip: whenever [write_name] accepts a name, with
    any room and after any text, the bytes that it appended are read back as that
    same name, and the reader stops where the writer did. *)
Theorem name_roundtrip (name output text : list Z) (cap : nat) (w : DnsWriter)
    (Hcap : (cap <= length output)%nat) (Hname : Forall (fun b => 0 < b < 256) name)
    (Hbytes : Forall is_byte (text ++ drop (length text) output))
    (Hwrite : write_name name (writing output cap text) = Done w) :
  exists array, read_name (data w) (offset w) (length text) name_array = Done (offset w, array) /\
       cstr_of array = name.
Proof.
  rewrite write_name_writing in Hwrite by done.
  destruct (bool_decide (name_ok name)) eqn:Hok; [|done]. apply bool_decide_eq_true in Hok.
  destruct (Nat.leb_spec (length text + length name + 2) cap) as [Hfit|]; [|done].
  injection Hwrite as <-. cbn [writing data offset].
  assert (Hb : Forall is_byte name) by (eapply Forall_impl; [exact Hname|]; unfold is_byte; cbn; lia).
  exists (set_name name name_array). split.
  - rewrite <- (dotted_name name Hok) at 5. apply read_name_complete with 0%nat; try done.
    + apply Forall_app in Hbytes as [H1 H2]. rewrite !Forall_app. split_and!; [done | by apply encode_name_bytes |].
      rewrite length_app, <- drop_drop. by apply Forall_drop.
    + rewrite !length_app. lia.
    + rewrite <- app_assoc. by apply dns_name_written.
    + lia.
    + rewrite dotted_name by done. destruct Hok. lia.
  - apply cstr_of_set_name. eapply Forall_impl; [exact Hname|]. cbn. lia.
Qed.

Lemma name_roundtrip_witness :
  exists array,
    read_name (data (writing name_array 200 ([1; 2; 3] ++ encode_name (bytes "tv.local"))))
      13 3 name_array = Done (13%nat, array) /\ cstr_of array = bytes "tv.local".
Proof.
  apply (name_roundtrip (bytes "tv.local") name_array [1; 2; 3] 200
           (writing name_array 200 ([1; 2; 3] ++ encode_name (bytes "tv.local")))).
  - vm_compute. lia.
  - repeat constructor.
  - apply (bool_decide_unpack _). vm_compute. exact I.
  - vm_compute. reflexivity.
Defined.
