(* ===== verification/DnsPackets.v ===== *)
(** * DNS packets: what is written, answered and seen as a conflict

    The announcement is the concatenation of four records; the queries it answers
    and the packets it takes for a conflict are characterised on the records and
    questions themselves. *)

From S2P Require Import Prelude Buffers Dns DnsNames.

(** ** The reference: the announcement as records *)

Definition pointer_to (off : nat) : list Z := be16 (0xc000 + Z.of_nat off).

Definition record_bytes (owner : list Z) (type class ttl : Z) (rdata : list Z) : list Z :=
  owner ++ be16 type ++ be16 class ++ be32 ttl ++ be16 (Z.of_nat (length rdata)) ++ rdata.

Definition instance_full (s : AirPlayDnsService) : cstring := instance_name s ++ 46 :: service_name s.
Definition host_full (s : AirPlayDnsService) : cstring := host_name s ++ bytes ".local".
Definition text_of (s : AirPlayDnsService) : list Z := take (txt_size s) (txt s).

Definition instance_offset (s : AirPlayDnsService) : nat := 24 + length (service_name s).
Definition host_offset (s : AirPlayDnsService) : nat := instance_offset s + length (instance_name s) + 21.

Definition message_header (id : Z) : list Z :=
  be16 id ++ be16 0x8400 ++ be16 0 ++ be16 4 ++ be16 0 ++ be16 0.
Definition ptr_record (s : AirPlayDnsService) (ttl : Z) : list Z :=
  record_bytes (encode_name (service_name s)) AIRPLAY_DNS_TYPE_PTR 1 ttl
    (encode_label (instance_name s) ++ pointer_to 12).
Definition srv_data (s : AirPlayDnsService) : list Z :=
  be16 0 ++ be16 0 ++ be16 (port s) ++ encode_name (host_full s).
Definition srv_record (s : AirPlayDnsService) (ttl : Z) : list Z :=
  record_bytes (pointer_to (instance_offset s)) AIRPLAY_DNS_TYPE_SRV 0x8001 ttl (srv_data s).
Definition txt_record (s : AirPlayDnsService) (ttl : Z) : list Z :=
  record_bytes (pointer_to (instance_offset s)) AIRPLAY_DNS_TYPE_TXT 0x8001 ttl (text_of s).
Definition a_record (s : AirPlayDnsService) (ttl : Z) : list Z :=
  record_bytes (pointer_to (host_offset s)) AIRPLAY_DNS_TYPE_A 0x8001 ttl (memory32 (ipv4_address s)).

Definition announcement (s : AirPlayDnsService) (id ttl : Z) : list Z :=
  message_header id ++ ptr_record s ttl ++ srv_record s ttl ++ txt_record s ttl ++ a_record s ttl.

(** What the C type says of a service: the arrays' sizes and the integers' ranges. *)
Record service_typed (s : AirPlayDnsService) : Prop := {
  typed_service_name : (length (service_name_field s) <= 31)%nat;
  typed_instance : (length (instance_name s) <= 63)%nat;
  typed_host : (length (host_name s) <= 63)%nat;
  typed_txt : length (txt s) = AIRPLAY_DNS_TXT_MAX;
  typed_service_chars : Forall (fun b => 0 < b < 256) (service_name_field s);
  typed_instance_chars : Forall (fun b => 0 < b < 256) (instance_name s);
  typed_host_chars : Forall (fun b => 0 < b < 256) (host_name s);
  typed_txt_bytes : Forall is_byte (txt s);
  typed_port : 0 <= port s < 65536;
  typed_address : is_u32 (ipv4_address s)
}.

(** A service that can be announced: its fields are there and its names are made
    of labels. *)
Record announceable (s : AirPlayDnsService) : Prop := {
  ann_typed : service_typed s;
  ann_valid : service_valid (Some s) = true;
  ann_service_name : name_ok (service_name s);
  ann_host : name_ok (host_full s)
}.

(** ** Lemmas: sizes *)

Create HintDb nxlen.
#[export] Hint Rewrite @length_app @length_take @length_drop @length_replicate encode_name_length : nxlen.

(** Normalises the length of a concatenation. *)
Ltac len := autorewrite with nxlen; cbn [length].

Lemma length_be32 v : length (be32 v) = 4%nat.
Proof. done. Qed.
Lemma length_encode_label l : length (encode_label l) = S (length l).
Proof. done. Qed.
Lemma length_pointer_to off : length (pointer_to off) = 2%nat.
Proof. done. Qed.
Lemma length_memory32 v : length (memory32 v) = 4%nat.
Proof. done. Qed.
#[export] Hint Rewrite length_be16 length_be32 length_encode_label length_pointer_to length_memory32 : nxlen.

Lemma length_record owner type class ttl rdata :
  length (record_bytes owner type class ttl rdata) = (length owner + 10 + length rdata)%nat.
Proof. unfold record_bytes. len. lia. Qed.
Lemma length_header id : length (message_header id) = 12%nat.
Proof. done. Qed.
Lemma length_srv_data s : length (srv_data s) = (8 + length (host_full s))%nat.
Proof. unfold srv_data. len. lia. Qed.
Lemma length_host_full s : length (host_full s) = (length (host_name s) + 6)%nat.
Proof. unfold host_full. len. done. Qed.
Lemma length_instance_full s : length (instance_full s) = (length (instance_name s) + 1 + length (service_name s))%nat.
Proof. unfold instance_full. len. lia. Qed.
#[export] Hint Rewrite length_record length_header length_srv_data length_host_full length_instance_full : nxlen.

Section service.
Context (s : AirPlayDnsService) (Hs : service_typed s) (Hv : service_valid (Some s) = true).

Lemma service_name_length : (1 <= length (service_name s) <= 31)%nat.
Proof.
  destruct Hs. unfold service_name. case_bool_decide as E; cbn [negb]; [cbn; lia|].
  destruct (service_name_field s); [done|]. cbn [length] in *. lia.
Qed.

Lemma valid_fields :
  (1 <= length (instance_name s) <= 63)%nat /\ (1 <= length (host_name s) <= 63)%nat /\
  (1 <= txt_size s <= 512)%nat /\ length (text_of s) = txt_size s.
Proof.
  destruct Hs. cbn in Hv. bool_cases.
  repeat match goal with H : bool_decide _ = false |- _ => apply bool_decide_eq_false in H end.
  assert (Ht : (txt_size s <= 512)%nat) by (apply Nat.leb_le; done).
  assert (Ht0 : (0 < txt_size s)%nat) by (apply Nat.ltb_lt; done).
  unfold text_of. rewrite length_take. unfold AIRPLAY_DNS_TXT_MAX in *.
  destruct (instance_name s), (host_name s); try done. cbn [length] in *. split_and!; lia.
Qed.

Lemma service_chars :
  Forall (fun b => 0 < b < 256) (service_name s) /\ Forall (fun b => 0 < b < 256) (instance_full s) /\
  Forall (fun b => 0 < b < 256) (host_full s).
Proof.
  assert (H : Forall (fun b => 0 < b < 256) (service_name s)).
  { unfold service_name. case_bool_decide; cbn [negb]; [by repeat constructor | apply Hs]. }
  split_and!; [done| |].
  - apply Forall_app. split; [apply Hs|]. constructor; [lia | done].
  - apply Forall_app. split; [apply Hs|]. by repeat constructor.
Qed.

Lemma length_announcement id ttl :
  length (announcement s id ttl) = (host_offset s + length (host_full s) + txt_size s + 30)%nat /\
  (length (announcement s id ttl) <= 750)%nat.
Proof.
  pose proof service_name_length. destruct valid_fields as (H1 & H2 & H3 & H4).
  unfold announcement, ptr_record, srv_record, txt_record, a_record, host_offset, instance_offset.
  len. rewrite H4. lia.
Qed.

(** ** Lemmas: full names *)

Lemma write_array text l :
  (length text + length l <= 256)%nat ->
  buf_write (length text) l (text ++ drop (length text) name_array) =
    Some ((text ++ l) ++ drop (length (text ++ l)) name_array).
Proof. intros H. by apply write_after. Qed.

Lemma write_array_start l :
  (length l <= 256)%nat -> buf_write 0 l name_array = Some (l ++ drop (length l) name_array).
Proof. apply (write_array []). Qed.

Lemma make_instance_full_eq : make_instance_full s name_array = Done (set_name (instance_full s) name_array).
Proof.
  pose proof service_name_length. destruct valid_fields as (H1 & _).
  unfold make_instance_full. set (n := length (instance_name s)) in *.
  rewrite (proj2 (Nat.eqb_neq n 0)), (proj2 (Nat.ltb_ge 63 n)) by lia. unfold AIRPLAY_DNS_NAME_MAX.
  rewrite (proj2 (Nat.ltb_ge 255 _)) by lia. cbn [orb negb ensure mbind outcome_bind].
  rewrite write_array_start by lia. cbn [checked mbind outcome_bind]. fold n.
  pose proof (write_array (instance_name s) [46]) as E2. fold n in E2. cbn [length] in E2.
  rewrite E2 by lia. cbn [checked mbind outcome_bind].
  pose proof (write_array (instance_name s ++ [46]) (with_nul (service_name s))) as E3.
  unfold with_nul in *. rewrite !length_app in *. cbn [length] in *. fold n in E3 |- *.
  rewrite E3 by lia. cbn [checked]. unfold set_name. f_equal.
  unfold instance_full. rewrite <- !app_assoc, !length_app. cbn [app length]. do 5 f_equal. fold n. lia.
Qed.

Lemma make_host_full_eq : make_host_full s name_array = Done (set_name (host_full s) name_array).
Proof.
  destruct valid_fields as (_ & H2 & _).
  unfold make_host_full. set (n := length (host_name s)) in *.
  rewrite (proj2 (Nat.eqb_neq n 0)), (proj2 (Nat.ltb_ge 63 n)) by lia.
  change (length (with_nul (bytes ".local"))) with 7%nat. unfold AIRPLAY_DNS_NAME_MAX.
  rewrite (proj2 (Nat.ltb_ge 255 (n + 7 - 1))) by lia. cbn [orb negb ensure mbind outcome_bind].
  rewrite write_array_start by lia. cbn [checked mbind outcome_bind]. fold n.
  pose proof (write_array (host_name s) (with_nul (bytes ".local"))) as E2. fold n in E2.
  rewrite E2 by (cbn; lia). cbn [checked]. unfold set_name, host_full. f_equal.
  unfold with_nul. rewrite <- !app_assoc, !length_app.
  change (length (bytes ".local")) with 6%nat. fold n. cbn [length].
  by replace (S (n + 6)) with (n + (6 + 1))%nat by lia.
Qed.

Lemma full_names_read :
  cstr_of (set_name (instance_full s) name_array) = instance_full s /\
  cstr_of (set_name (host_full s) name_array) = host_full s.
Proof.
  destruct service_chars as (_ & H1 & H2).
  split; apply cstr_of_set_name; eapply Forall_impl; try eassumption; cbn; lia.
Qed.
End service.

(** ** Lemmas: writing records *)

(** What a record holds before its data. *)
Definition record_head (owner : list Z) (type class ttl : Z) : list Z :=
  owner ++ be16 type ++ be16 class ++ be32 ttl.

Lemma record_bytes_head owner type class ttl rdata :
  record_bytes owner type class ttl rdata =
    record_head owner type class ttl ++ be16 (Z.of_nat (length rdata)) ++ rdata.
Proof. unfold record_bytes, record_head. by rewrite <- !app_assoc. Qed.

Lemma length_record_head owner type class ttl :
  length (record_head owner type class ttl) = (length owner + 8)%nat.
Proof. unfold record_head. len. lia. Qed.

Section writer.
Context (output : list Z) (cap : nat) (Hcap : (cap <= length output)%nat).

Lemma write_fits text l :
  (length text + length l <= cap)%nat ->
  write_bytes l (writing output cap text) = Done (writing output cap (text ++ l)).
Proof. intros H. rewrite write_bytes_writing by done. by rewrite (proj2 (Nat.leb_le _ _)) by done. Qed.

Lemma write_u16_fits text v :
  (length text + 2 <= cap)%nat ->
  write_u16 v (writing output cap text) = Done (writing output cap (text ++ be16 v)).
Proof. apply (write_fits text (be16 v)). Qed.

Lemma write_pointer_fits text off :
  Z.of_nat off < 0x4000 -> (length text + 2 <= cap)%nat ->
  write_pointer off (writing output cap text) = Done (writing output cap (text ++ pointer_to off)).
Proof.
  intros Ho H. unfold write_pointer. rewrite (proj2 (Z.ltb_lt _ _)) by lia.
  cbn [ensure mbind outcome_bind]. unfold write_u16, pointer_to.
  assert (E : u16 (Z.lor 0xc000 (Z.of_nat off)) = 0xc000 + Z.of_nat off).
  { pose proof (lor_shiftl 3 (Z.of_nat off) 14) as E. change (Z.shiftl 3 14) with 0xc000 in E.
    change (2 ^ 14) with 16384 in E. rewrite E by lia. width_lia. }
  rewrite E. by apply write_fits.
Qed.

Lemma patch_writing pre old post v :
  length old = 2%nat -> (length (pre ++ old ++ post) <= cap)%nat ->
  patch_u16 (length pre) v (writing output cap (pre ++ old ++ post)) =
    Done (writing output cap (pre ++ be16 v ++ post)).
Proof.
  intros Ho H. unfold patch_u16. cbn [writing capacity offset data]. rewrite !length_app, Ho in *.
  rewrite (proj2 (Nat.ltb_ge cap _)), (proj2 (Nat.ltb_ge (_ + _) _)), (proj2 (Nat.ltb_ge (cap - _) _)),
    (proj2 (Nat.ltb_ge (_ - _) _)) by lia.
  cbn [orb negb ensure mbind outcome_bind]. rewrite <- !app_assoc, buf_write_app by done.
  cbn [checked mbind outcome_bind]. unfold writing.
  by rewrite !length_app, length_be16, Ho, <- !app_assoc.
Qed.

Lemma patch_length_writing pre old rdata :
  length old = 2%nat -> (length (pre ++ old ++ rdata) <= cap)%nat -> Z.of_nat (length rdata) < 65536 ->
  patch_length (length pre) (length pre + 2) (writing output cap (pre ++ old ++ rdata)) =
    Done (writing output cap (pre ++ be16 (Z.of_nat (length rdata)) ++ rdata)).
Proof.
  intros Ho H Hr. unfold patch_length. cbn [writing offset].
  replace (length (pre ++ old ++ rdata) - (length pre + 2))%nat with (length rdata) by (len; lia).
  replace (u16 (Z.of_nat (length rdata))) with (Z.of_nat (length rdata)) by width_lia.
  by apply patch_writing.
Qed.

Lemma write_record_header_fits text off type ttl :
  Z.of_nat off < 0x4000 -> (length text + 12 <= cap)%nat ->
  let head := text ++ record_head (pointer_to off) type 0x8001 ttl in
  write_record_header off type true ttl (writing output cap text) =
    Done (length head, (length head + 2)%nat, writing output cap (head ++ be16 0)).
Proof.
  intros Ho H. cbv zeta. unfold write_record_header.
  rewrite write_pointer_fits by (done || lia). cbn [mbind outcome_bind].
  change (u16 (Z.lor 1 0x8000)) with 0x8001. unfold write_u16, write_u32.
  rewrite write_fits by (len; lia). cbn [mbind outcome_bind].
  rewrite write_fits by (len; lia). cbn [mbind outcome_bind].
  rewrite write_fits by (len; lia). cbn [mbind outcome_bind].
  rewrite write_fits by (len; lia). cbn [mbind outcome_bind writing offset].
  unfold record_head. rewrite <- !app_assoc. do 3 f_equal; len; lia.
Qed.
End writer.

(** The packet buffer after a message was built in it. *)
Definition in_packet (message output : list Z) : list Z :=
  message ++ drop (length message)
    (replicate AIRPLAY_DNS_PACKET_MAX 0 ++ drop AIRPLAY_DNS_PACKET_MAX output).

(** A service that can be announced is: the message is the announcement. *)
Section build.
Context (s : AirPlayDnsService) (Ha : announceable s).

Lemma build_offsets :
  (1 <= length (service_name s) <= 31)%nat /\ (1 <= length (instance_name s) <= 63)%nat /\
  (1 <= length (host_name s) <= 63)%nat /\ (1 <= txt_size s <= 512)%nat /\ length (text_of s) = txt_size s.
Proof.
  destruct Ha as [Ht Hv _ _]. pose proof (service_name_length s Ht).
  pose proof (valid_fields s Ht Hv) as (? & ? & ? & ?). split_and!; (done || lia).
Qed.

Section stages.
Context (output : list Z) (Hout : (AIRPLAY_DNS_PACKET_MAX <= length output)%nat) (ttl : Z).
Let wr := writing output AIRPLAY_DNS_PACKET_MAX.

(** The pointer record, written after the header. *)
Lemma build_ptr pre :
  length pre = 12%nat ->
  (w ← write_name (service_name s) (wr pre);
   w ← write_u16 AIRPLAY_DNS_TYPE_PTR w;
   w ← write_u16 1 w;
   w ← write_u32 ttl w;
   let length_offset := offset w in
   w ← write_u16 0 w;
   let rdata_offset := offset w in
   let instance_offset := offset w in
   w ← write_label (instance_name s) w;
   w ← write_pointer 12 w;
   w ← patch_length length_offset rdata_offset w;
   Done (instance_offset, w)) = Done (instance_offset s, wr (pre ++ ptr_record s ttl)).
Proof.
  intros Hp. destruct build_offsets as (H1 & H2 & H3 & H4 & H5). unfold AIRPLAY_DNS_PACKET_MAX in *.
  unfold wr, write_u16, write_u32. rewrite write_name_writing by done.
  rewrite bool_decide_eq_true_2 by apply Ha. rewrite (proj2 (Nat.leb_le _ _)) by lia.
  cbn [andb mbind outcome_bind].
  do 3 (rewrite write_fits by (done || (len; lia)); cbn [mbind outcome_bind]).
  cbn [writing offset].
  rewrite <- !app_assoc. fold (record_head (encode_name (service_name s)) AIRPLAY_DNS_TYPE_PTR 1 ttl).
  set (head := pre ++ record_head _ _ _ _).
  assert (Hh : length head = (22 + length (service_name s))%nat)
    by (unfold head; rewrite length_app, length_record_head; len; lia).
  rewrite write_fits by (done || (len; lia)). cbn [mbind outcome_bind writing offset].
  rewrite write_label_writing by done. rewrite bool_decide_eq_true_2 by (unfold label_ok; lia).
  rewrite (proj2 (Nat.leb_le _ _)) by (len; lia). cbn [andb mbind outcome_bind].
  rewrite write_pointer_fits by (done || lia || (len; lia)). cbn [mbind outcome_bind].
  rewrite <- !app_assoc, length_app, length_be16.
  rewrite patch_length_writing by (done || (len; lia)). cbn [mbind outcome_bind].
  unfold ptr_record. rewrite record_bytes_head. unfold instance_offset.
  do 2 f_equal; [lia|]. unfold head. by rewrite <- !app_assoc.
Qed.

(** The state after a record's header was written after [pre]. *)
Lemma header_written pre owner type rdata :
  Z.of_nat owner < 0x4000 -> (length pre + 12 + length rdata <= 1500)%nat ->
  exists head,
    write_record_header owner type true ttl (wr pre) =
      Done (length head, (length head + 2)%nat, wr (head ++ be16 0)) /\
    length head = (length pre + 10)%nat /\
    patch_length (length head) (length head + 2) (wr (head ++ be16 0 ++ rdata)) =
      Done (wr (pre ++ record_bytes (pointer_to owner) type 0x8001 ttl rdata)).
Proof.
  intros Ho Hl. unfold wr, AIRPLAY_DNS_PACKET_MAX in *.
  exists (pre ++ record_head (pointer_to owner) type 0x8001 ttl).
  assert (Hh : length (pre ++ record_head (pointer_to owner) type 0x8001 ttl) = (length pre + 10)%nat)
    by (rewrite length_app, length_record_head; len; lia).
  split_and!; [apply write_record_header_fits; (done || lia) | done |].
  rewrite patch_length_writing by (done || lia || (rewrite length_app, Hh; len; lia)).
  rewrite record_bytes_head. by rewrite <- !app_assoc.
Qed.

(** The records that follow, each written after [pre]. *)
Lemma build_srv pre :
  (length pre <= 200)%nat -> length (host_full s) = (length (host_name s) + 6)%nat ->
  ('(length_offset, rdata_offset, w) ←
     write_record_header (instance_offset s) AIRPLAY_DNS_TYPE_SRV true ttl (wr pre);
   w ← write_u16 0 w;
   w ← write_u16 0 w;
   w ← write_u16 (port s) w;
   let host_offset := offset w in
   w ← write_name (host_full s) w;
   w ← patch_length length_offset rdata_offset w;
   Done (host_offset, w)) = Done ((length pre + 18)%nat, wr (pre ++ srv_record s ttl)).
Proof.
  intros Hp Hlh. destruct build_offsets as (H1 & H2 & H3 & H4 & H5). unfold AIRPLAY_DNS_PACKET_MAX in *.
  destruct (header_written pre (instance_offset s) AIRPLAY_DNS_TYPE_SRV (srv_data s))
    as (head & -> & L & P); [unfold instance_offset; lia | len; lia |]. cbn [mbind outcome_bind].
  unfold wr in *. do 3 (rewrite write_u16_fits by (done || (len; lia)); cbn [mbind outcome_bind]).
  rewrite write_name_writing, bool_decide_eq_true_2 by (done || apply Ha).
  rewrite (proj2 (Nat.leb_le _ _)) by (len; lia). cbn [andb mbind outcome_bind writing offset].
  unfold srv_data in P. rewrite <- !app_assoc, P. cbn [mbind outcome_bind]. do 2 f_equal. len. lia.
Qed.

Lemma build_txt pre :
  (length pre <= 400)%nat ->
  ('(length_offset, rdata_offset, w) ←
     write_record_header (instance_offset s) AIRPLAY_DNS_TYPE_TXT true ttl (wr pre);
   w ← write_bytes (text_of s) w;
   w ← patch_length length_offset rdata_offset w;
   Done w) = Done (wr (pre ++ txt_record s ttl)).
Proof.
  intros Hp. destruct build_offsets as (H1 & H2 & H3 & H4 & H5). unfold AIRPLAY_DNS_PACKET_MAX in *.
  destruct (header_written pre (instance_offset s) AIRPLAY_DNS_TYPE_TXT (text_of s))
    as (head & -> & L & P); [unfold instance_offset; lia | lia |]. cbn [mbind outcome_bind].
  unfold wr in *. rewrite write_fits by (done || (len; lia)). cbn [mbind outcome_bind].
  by rewrite <- !app_assoc, P.
Qed.

Lemma build_a pre :
  (length pre <= 1000)%nat ->
  ('(length_offset, rdata_offset, w) ←
     write_record_header (host_offset s) AIRPLAY_DNS_TYPE_A true ttl (wr pre);
   w ← write_bytes (memory32 (ipv4_address s)) w;
   w ← patch_length length_offset rdata_offset w;
   Done w) = Done (wr (pre ++ a_record s ttl)).
Proof.
  intros Hp. destruct build_offsets as (H1 & H2 & H3 & H4 & H5). unfold AIRPLAY_DNS_PACKET_MAX in *.
  destruct (header_written pre (host_offset s) AIRPLAY_DNS_TYPE_A (memory32 (ipv4_address s)))
    as (head & -> & L & P); [unfold host_offset, instance_offset; lia | len; lia |].
  cbn [mbind outcome_bind]. unfold wr in *. rewrite write_fits by (done || (len; lia)).
  cbn [mbind outcome_bind]. by rewrite <- !app_assoc, P.
Qed.
End stages.

(** Takes apart a stage that succeeded, and replays its operations in the goal. *)
Ltac open_stage E :=
  repeat (let a := fresh "a" in let Ea := fresh "Ea" in
          apply bind_done in E as (a & Ea & E);
          lazymatch type of a with (_ * _)%type => destruct a as [[? ?] ?] | _ => idtac end).
Ltac replay :=
  repeat (match goal with H : ?m = Done _ |- context [?m ≫= _] => rewrite H end; cbn [mbind outcome_bind]).

Lemma build_record_set_eq output id ttl :
  (AIRPLAY_DNS_PACKET_MAX <= length output)%nat ->
  build_record_set (Some s) id ttl output =
    Done (in_packet (announcement s id ttl) output, length (announcement s id ttl)).
Proof.
  intros Hout. destruct build_offsets as (H1 & H2 & H3 & H4 & H5). destruct Ha as [Ht Hv Hn Hh].
  destruct (length_announcement s Ht Hv id ttl) as [_ Hann].
  unfold build_record_set. rewrite Hv. cbn [ensure mbind outcome_bind].
  rewrite make_instance_full_eq, make_host_full_eq by done. cbn [mbind outcome_bind].
  set (buf := replicate AIRPLAY_DNS_PACKET_MAX 0 ++ drop AIRPLAY_DNS_PACKET_MAX output).
  assert (Ebuf : buf_write 0 (replicate AIRPLAY_DNS_PACKET_MAX 0) output = Some buf).
  { unfold buf_write. by rewrite length_replicate, (proj2 (Nat.leb_le _ _)), take_0. }
  rewrite Ebuf. cbn [checked mbind outcome_bind].
  assert (Hbuf : (AIRPLAY_DNS_PACKET_MAX <= length buf)%nat) by (unfold buf; len; lia).
  change (mkDnsWriter buf AIRPLAY_DNS_PACKET_MAX 0) with (writing buf AIRPLAY_DNS_PACKET_MAX []).
  unfold announcement in *. remember (message_header id) as m0 eqn:Hm0.
  assert (Lm : length m0 = 12%nat) by by rewrite Hm0.
  pose proof (build_ptr buf Hbuf ttl m0 Lm) as Eptr.
  assert (Htext : buf_read 0 (txt_size s) (txt s) = Some (text_of s)).
  { apply buf_read_spec. rewrite typed_txt by done. unfold AIRPLAY_DNS_TXT_MAX. lia. }
  do 6 (rewrite write_u16_fits by (done || (len; unfold AIRPLAY_DNS_PACKET_MAX; lia)); cbn [mbind outcome_bind]).
  match goal with |- context [writing buf _ ?t] => change t with (message_header id) end.
  rewrite <- Hm0. cbn [writing offset]. rewrite Lm.
  open_stage Eptr. injection Eptr as Eio ->. replay. rewrite Eio.
  assert (L0 : length (m0 ++ ptr_record s ttl) = (length (service_name s) + length (instance_name s) + 27)%nat)
    by (unfold ptr_record; len; lia).
  pose proof (build_srv buf Hbuf ttl (m0 ++ ptr_record s ttl) ltac:(lia) (length_host_full s)) as Esrv.
  assert (L1 : length (srv_record s ttl) = (length (host_name s) + 26)%nat)
    by (unfold srv_record; len; lia).
  open_stage Esrv. injection Esrv as Eho ->. rewrite (proj2 (full_names_read s Ht)). replay. rewrite Eho.
  rewrite Htext. cbn [checked mbind outcome_bind].
  pose proof (build_txt buf Hbuf ttl ((m0 ++ ptr_record s ttl) ++ srv_record s ttl)
    ltac:(rewrite length_app; lia)) as Etxt.
  open_stage Etxt. injection Etxt as ->. replay.
  replace (length (m0 ++ ptr_record s ttl) + 18)%nat with (host_offset s)
    by (rewrite L0; unfold host_offset, instance_offset; lia).
  assert (L2 : length (txt_record s ttl) = (txt_size s + 12)%nat) by (unfold txt_record; len; lia).
  pose proof (build_a buf Hbuf ttl (((m0 ++ ptr_record s ttl) ++ srv_record s ttl) ++ txt_record s ttl)
    ltac:(rewrite !(length_app (_ ++ _)); lia)) as Ea_.
  open_stage Ea_. injection Ea_ as ->. replay. cbn [writing data offset]. unfold in_packet. by rewrite <- !app_assoc.
Qed.
End build.
