(* ===== verification/DnsService.v ===== *)
(** * The service on the network: conflicts, answers and memory safety

    What [Dns] does with packets of other hosts: which packets are conflicts, which
    queries are answered and with what, and that no packet makes the receiver read
    or write out of bounds. *)

From S2P Require Import Prelude CText Buffers Dns DnsNames DnsPackets.

(** ** The reference: conflicts and questions *)

(** Another host's announcement claims a name of [s] with other data. *)
Definition claims_other (s other : AirPlayDnsService) : bool :=
  (name_matches (host_full other) (host_full s) && negb (ipv4_address other =? ipv4_address s)) ||
  (name_matches (instance_full other) (instance_full s) &&
   (negb ((port other =? port s) && name_matches (host_full other) (host_full s)) ||
    negb (bool_decide (text_of other = text_of s)))).

(** A question: its name as a C string, its type and its class. *)
Record question := mkQuestion { q_name : cstring; q_type : Z; q_class : Z }.

(** The questions that a packet holds from an offset on. *)
Inductive questions_at (packet : list Z) (packet_size : nat) : nat -> list question -> Prop :=
  | questions_none off : questions_at packet packet_size off []
  | questions_more off j labels next type class qs :
      dns_name packet packet_size j off labels next -> (j <= 16)%nat -> (length (dotted labels) <= 255)%nat ->
      (next + 4 <= packet_size)%nat ->
      read_u16 packet next = Done type -> read_u16 packet (next + 2) = Done class ->
      questions_at packet packet_size (next + 4) qs ->
      questions_at packet packet_size off
        (mkQuestion (cstr_of (with_nul (dotted labels))) type class :: qs).

(** A question about one of the service's records, and one that asks for a direct
    answer. *)
Definition asks_for (s : AirPlayDnsService) (q : question) : bool :=
  (Z.land (q_class q) 0x7fff =? 1) &&
  question_relevant (service_name s) (instance_full s) (host_full s) (q_name q) (q_type q).
Definition asks_directly (s : AirPlayDnsService) (q : question) : bool :=
  asks_for s q && negb (Z.land (q_class q) 0x8000 =? 0).

(** ** Lemmas: reading *)

Lemma read_u16_at pre v post : 0 <= v < 65536 -> read_u16 (pre ++ be16 v ++ post) (length pre) = Done v.
Proof.
  intros Hv. unfold read_u16. cbn [be16 app]. rewrite lookup_at. cbn [checked mbind outcome_bind].
  rewrite lookup_next. cbn [checked mbind outcome_bind]. rewrite be16_value by done. f_equal. width_lia.
Qed.

(** The same, where the position is known by its value. *)
Lemma read_u16_eq packet off pre v post :
  packet = pre ++ be16 v ++ post -> off = length pre -> 0 <= v < 65536 -> read_u16 packet off = Done v.
Proof. intros -> -> H. by apply read_u16_at. Qed.

Lemma buf_read_eq packet off n pre l post :
  packet = pre ++ l ++ post -> off = length pre -> n = length l -> buf_read off n packet = Some l.
Proof. intros -> -> ->. apply buf_read_app. Qed.

Lemma dns_name_pointer packet packet_size j pre off post labels next :
  packet = pre ++ pointer_to off ++ post -> (off < length pre)%nat -> Z.of_nat off < 0x4000 ->
  (length pre + 2 <= packet_size)%nat ->
  dns_name packet packet_size j off labels next ->
  dns_name packet packet_size (S j) (length pre) labels (length pre + 2).
Proof.
  intros -> Hback Hoff Hs Hn. set (v := 0xc000 + Z.of_nat off).
  assert (Hhi : u8 (Z.shiftr v 8) = 192 + Z.of_nat off / 256).
  { unfold v. rewrite Z.shiftr_div_pow2 by lia. change (2 ^ 8) with 256. width_lia. }
  assert (Hp : Z.to_nat ((u8 (Z.shiftr v 8) - 192) * 256 + u8 v) = off).
  { rewrite Hhi. unfold v. width_lia. }
  apply (name_jump _ _ _ _ (u8 (Z.shiftr v 8)) (u8 v) labels next); try lia.
  - apply lookup_at.
  - apply lookup_next.
  - by rewrite Hp.
Qed.

Lemma cstr_of_set_with_nul name output : cstr_of (set_name name output) = cstr_of (with_nul name).
Proof.
  unfold set_name, with_nul. generalize (drop (S (length name)) output). intros rest.
  induction name as [|c name IH]; cbn; [done|].
  destruct (c =? 0); [done|]. by f_equal.
Qed.

(** ** Lemmas: the names of an announcement *)

Section announcement.
Context (o : AirPlayDnsService) (Ho : announceable o) (id ttl : Z) (pad : list Z).
Let packet := announcement o id ttl ++ pad.
Let size := length (announcement o id ttl).

Lemma announcement_size : (size <= length packet)%nat.
Proof. unfold size, packet. rewrite length_app. lia. Qed.

(** Shows that the packet is a concatenation of the given parts. *)
Ltac parts :=
  unfold packet, announcement, ptr_record, srv_record, txt_record, a_record, srv_data, record_bytes;
  rewrite <- !app_assoc; reflexivity.

(** Shows that a part ends inside the packet. *)
Ltac inside :=
  unfold size, announcement, ptr_record, srv_record, txt_record, a_record, host_offset, instance_offset;
  len; lia.

Lemma service_name_at :
  dns_name packet size 0 12 (split_dots [] (service_name o)) (14 + length (service_name o)).
Proof.
  assert (E : exists rest, packet = message_header id ++ encode_name (service_name o) ++ rest)
    by (eexists; parts).
  destruct E as [rest ->].
  pose proof (dns_name_written (message_header id) (service_name o) rest size (ann_service_name o Ho)) as H.
  rewrite length_app, length_header, encode_name_length in H.
  replace (14 + length (service_name o))%nat with (12 + (length (service_name o) + 2))%nat by lia.
  apply H. inside.
Qed.

(** The position of the instance's label. *)
Definition before_instance : list Z :=
  message_header id ++ encode_name (service_name o) ++ be16 AIRPLAY_DNS_TYPE_PTR ++ be16 1 ++ be32 ttl ++
  be16 (Z.of_nat (length (encode_label (instance_name o) ++ pointer_to 12))).

Lemma length_before_instance : length before_instance = instance_offset o.
Proof. unfold before_instance, instance_offset. len. lia. Qed.

Lemma instance_name_at :
  dns_name packet size 1 (instance_offset o) (instance_name o :: split_dots [] (service_name o))
    (instance_offset o + length (instance_name o) + 3).
Proof.
  destruct (build_offsets o Ho) as (H1 & H2 & H3 & H4 & H5).
  assert (E : exists rest, packet = before_instance ++ encode_label (instance_name o) ++ pointer_to 12 ++ rest)
    by (eexists; unfold before_instance; parts).
  destruct E as [rest E]. rewrite <- length_before_instance.
  pose proof length_before_instance as Hl. unfold instance_offset in Hl.
  assert (Hsz : (length before_instance + length (instance_name o) + 3 <= size)%nat)
    by (rewrite Hl; inside).
  apply (name_label _ _ 1 _ (length (instance_name o)) (instance_name o)); try lia.
  - rewrite E. apply lookup_at.
  - apply (buf_read_eq packet _ _ (before_instance ++ [Z.of_nat (length (instance_name o))]) _
      (pointer_to 12 ++ rest)); [|len; lia|done].
    rewrite E. unfold encode_label. by rewrite <- !app_assoc.
  - pose proof (dns_name_pointer packet size 0 (before_instance ++ encode_label (instance_name o)) 12 rest
      (split_dots [] (service_name o)) (14 + length (service_name o))) as H.
    rewrite length_app, length_encode_label in H.
    replace (S (length before_instance) + length (instance_name o))%nat
      with (length before_instance + S (length (instance_name o)))%nat by lia.
    replace (length before_instance + length (instance_name o) + 3)%nat
      with (length before_instance + S (length (instance_name o)) + 2)%nat by lia.
    apply H; [by rewrite E, <- app_assoc | lia | lia | lia | apply service_name_at].
Qed.

(** The position of the host's name. *)
Definition before_host : list Z :=
  message_header id ++ ptr_record o ttl ++ pointer_to (instance_offset o) ++ be16 AIRPLAY_DNS_TYPE_SRV ++
  be16 0x8001 ++ be32 ttl ++ be16 (Z.of_nat (length (srv_data o))) ++ be16 0 ++ be16 0 ++ be16 (port o).

Lemma length_before_host : length before_host = host_offset o.
Proof. unfold before_host, ptr_record, host_offset, instance_offset. len. lia. Qed.

Lemma host_name_at :
  dns_name packet size 0 (host_offset o) (split_dots [] (host_full o))
    (host_offset o + length (host_full o) + 2).
Proof.
  assert (E : exists rest, packet = before_host ++ encode_name (host_full o) ++ rest)
    by (eexists; unfold before_host; parts).
  destruct E as [rest ->].
  pose proof (dns_name_written before_host (host_full o) rest size (ann_host o Ho)) as H.
  rewrite length_app, length_before_host, encode_name_length in H.
  replace (host_offset o + length (host_full o) + 2)%nat
    with (host_offset o + (length (host_full o) + 2))%nat by lia.
  apply H. inside.
Qed.

(** The records that start after [pre]: the owner is a pointer to one of the names. *)
Lemma owner_at pre off post j labels next :
  packet = pre ++ pointer_to off ++ post -> (off < length pre)%nat -> (length pre + 2 <= size)%nat ->
  dns_name packet size j off labels next ->
  dns_name packet size (S j) (length pre) labels (length pre + 2).
Proof.
  intros E Hoff Hsz Hn. eapply dns_name_pointer; try done.
  destruct Ho as [Ht Hv _ _]. destruct (length_announcement o Ht Hv id ttl) as [_ Hb]. unfold size in *. lia.
Qed.
End announcement.

(** ** Lemmas: records *)

Section scan.
Context (s : AirPlayDnsService) (Hs : service_typed s) (Hv : service_valid (Some s) = true).
Context (packet : list Z) (packet_size : nat).
Hypothesis (Hbytes : Forall is_byte packet) (Hsize : (packet_size <= length packet)%nat).

Lemma scan_record n inst host pre owner type class ttl rdata post j labels :
  packet = pre ++ record_bytes owner type class ttl rdata ++ post ->
  dns_name packet packet_size j (length pre) labels (length pre + length owner) ->
  (j <= 16)%nat -> (length (dotted labels) <= 255)%nat ->
  0 <= type < 65536 -> Z.of_nat (length rdata) < 65536 ->
  (length (pre ++ record_bytes owner type class ttl rdata) <= packet_size)%nat ->
  scan_records s inst host packet packet_size (S n) (length pre) =
    (c ← record_conflicts s inst host (cstr_of (with_nul (dotted labels))) packet packet_size type
           (length pre + length owner + 10) (Z.of_nat (length rdata));
     if c : bool then Done true
     else scan_records s inst host packet packet_size n (length (pre ++ record_bytes owner type class ttl rdata))).
Proof.
  intros E Hn Hj Hl Ht Hr Hin. rewrite length_app, length_record in *. cbn [scan_records].
  rewrite (read_name_complete packet packet_size j (length pre) labels (length pre + length owner)) by done.
  cbn [mbind outcome_bind]. set (next := (length pre + length owner)%nat) in *.
  rewrite (proj2 (Nat.ltb_ge packet_size next)), (proj2 (Nat.ltb_ge (packet_size - next) 10)) by lia.
  cbn [orb negb ensure mbind outcome_bind].
  rewrite (read_u16_eq packet next (pre ++ owner) type
    (be16 class ++ be32 ttl ++ be16 (Z.of_nat (length rdata)) ++ rdata ++ post)); [| |len; done|done].
  2: { rewrite E. unfold record_bytes. by rewrite <- !app_assoc. }
  cbn [mbind outcome_bind].
  rewrite (read_u16_eq packet (next + 8) (pre ++ owner ++ be16 type ++ be16 class ++ be32 ttl)
    (Z.of_nat (length rdata)) (rdata ++ post)); [| |len; lia|lia].
  2: { rewrite E. unfold record_bytes. by rewrite <- !app_assoc. }
  cbn [mbind outcome_bind].
  rewrite (proj2 (Z.ltb_ge _ _)) by lia. cbn [negb ensure mbind outcome_bind].
  rewrite cstr_of_set_with_nul, Nat2Z.id.
  by replace (next + 10 + length rdata)%nat with (length pre + (length owner + 10 + length rdata))%nat by lia.
Qed.

(** Records of other types are passed over. *)
Lemma record_other owner inst host type off n :
  type <> AIRPLAY_DNS_TYPE_A -> type <> AIRPLAY_DNS_TYPE_TXT -> type <> AIRPLAY_DNS_TYPE_SRV ->
  record_conflicts s inst host owner packet packet_size type off n = Done false.
Proof.
  intros H1 H2 H3. unfold record_conflicts.
  rewrite (proj2 (Z.eqb_neq type _) H1), (proj2 (Z.eqb_neq type _) H2), (proj2 (Z.eqb_neq type _) H3).
  by rewrite !andb_false_r.
Qed.

Lemma bytes_differ_eq off rdata pre post other :
  packet = pre ++ rdata ++ post -> off = length pre -> (length rdata <= length other)%nat ->
  bytes_differ packet off other (length rdata) = Done (negb (bool_decide (rdata = take (length rdata) other))).
Proof.
  intros E Ho Hl. unfold bytes_differ. rewrite (buf_read_eq packet off _ pre rdata post) by done.
  destruct (buf_read_spec 0 (length rdata) other) as [Er _]; [lia|]. by rewrite Er.
Qed.

Lemma record_a owner off rdata pre post :
  packet = pre ++ rdata ++ post -> off = length pre -> length rdata = 4%nat ->
  record_conflicts s (instance_full s) (host_full s) owner packet packet_size AIRPLAY_DNS_TYPE_A off 4 =
    Done (name_matches owner (host_full s) && negb (bool_decide (rdata = memory32 (ipv4_address s)))).
Proof.
  intros E Ho Hl. unfold record_conflicts. cbn [Z.eqb Pos.eqb AIRPLAY_DNS_TYPE_A AIRPLAY_DNS_TYPE_TXT AIRPLAY_DNS_TYPE_SRV negb].
  destruct (name_matches owner (host_full s)); cbn [andb]; cycle 1.
  { cbn. by rewrite !andb_false_r. }
  rewrite <- Hl, (bytes_differ_eq off rdata pre post) by (done || (rewrite Hl; done)). rewrite Hl.
  change (take 4 (memory32 (ipv4_address s))) with (memory32 (ipv4_address s)).
  cbn [mbind outcome_bind]. destruct (negb _); [done|]. by rewrite !andb_false_r.
Qed.

Lemma record_txt owner off rdata pre post :
  packet = pre ++ rdata ++ post -> off = length pre ->
  record_conflicts s (instance_full s) (host_full s) owner packet packet_size AIRPLAY_DNS_TYPE_TXT off
    (Z.of_nat (length rdata)) =
    Done (name_matches owner (instance_full s) && negb (bool_decide (rdata = text_of s))).
Proof.
  intros E Ho. destruct (valid_fields s Hs Hv) as (_ & _ & Hn & Hl). unfold record_conflicts.
  cbn [Z.eqb Pos.eqb AIRPLAY_DNS_TYPE_A AIRPLAY_DNS_TYPE_TXT AIRPLAY_DNS_TYPE_SRV].
  rewrite !andb_false_r. cbn [mbind outcome_bind].
  destruct (name_matches owner (instance_full s)); cbn [andb mbind outcome_bind]; [|done].
  destruct (Z.eqb_spec (Z.of_nat (length rdata)) (Z.of_nat (txt_size s))) as [H|H]; cbn [negb].
  - apply Nat2Z.inj in H. rewrite <- H, (bytes_differ_eq off rdata pre post); try done.
    2: { rewrite typed_txt by done. unfold AIRPLAY_DNS_TXT_MAX. lia. }
    unfold text_of. rewrite H. cbn [mbind outcome_bind]. by destruct (negb _).
  - rewrite bool_decide_eq_false_2; [done|]. intros ->. congruence.
Qed.

Lemma record_srv owner off rdata_size j labels p pre post :
  packet = pre ++ (be16 0 ++ be16 0 ++ be16 p) ++ post -> off = length pre ->
  (7 <= rdata_size)%nat -> (off + rdata_size <= packet_size)%nat -> 0 <= p < 65536 ->
  dns_name packet packet_size j (off + 6) labels (off + rdata_size) -> (j <= 16)%nat ->
  (length (dotted labels) <= 255)%nat ->
  record_conflicts s (instance_full s) (host_full s) owner packet packet_size AIRPLAY_DNS_TYPE_SRV off
    (Z.of_nat rdata_size) =
    Done (name_matches owner (instance_full s) &&
          negb ((p =? port s) && name_matches (cstr_of (with_nul (dotted labels))) (host_full s))).
Proof.
  intros E Ho H7 Hin Hp Hn Hj Hl. unfold record_conflicts.
  cbn [Z.eqb Pos.eqb AIRPLAY_DNS_TYPE_A AIRPLAY_DNS_TYPE_TXT AIRPLAY_DNS_TYPE_SRV].
  rewrite !andb_false_r. cbn [mbind outcome_bind].
  destruct (name_matches owner (instance_full s)); cbn [andb mbind outcome_bind]; [|done].
  unfold srv_rdata_matches.
  rewrite (proj2 (Z.ltb_ge _ 7)), (proj2 (Nat.ltb_ge packet_size off)), (proj2 (Z.ltb_ge _ (Z.of_nat rdata_size))) by lia.
  cbn [orb negb ensure mbind outcome_bind].
  rewrite (read_u16_eq packet off pre 0 (be16 0 ++ be16 p ++ post)); [|by rewrite E, <- !app_assoc|done|lia].
  cbn [mbind outcome_bind Z.eqb ensure].
  rewrite (read_u16_eq packet (off + 2) (pre ++ be16 0) 0 (be16 p ++ post));
    [|by rewrite E, <- !app_assoc|len; lia|lia].
  cbn [mbind outcome_bind Z.eqb ensure].
  rewrite (read_u16_eq packet (off + 4) (pre ++ be16 0 ++ be16 0) p post);
    [|by rewrite E, <- !app_assoc|len; lia|lia].
  cbn [mbind outcome_bind]. destruct (p =? port s); [|done]. cbn [ensure mbind outcome_bind].
  rewrite make_host_full_eq by done. cbn [mbind outcome_bind].
  rewrite (read_name_complete packet packet_size j (off + 6) labels (off + rdata_size)) by done.
  cbn [mbind outcome_bind]. rewrite Nat2Z.id, Nat.eqb_refl. cbn [ensure mbind outcome_bind holds].
  rewrite cstr_of_set_with_nul. by rewrite (proj2 (full_names_read s Hs)).
Qed.
End scan.

(** ** Lemmas: the conflict check on an announcement *)

Lemma chars_are_bytes l : Forall (fun b => 0 < b < 256) l -> Forall is_byte l.
Proof. intros H. eapply Forall_impl; [exact H|]. unfold is_byte. cbn. lia. Qed.

Lemma record_is_bytes owner type class ttl rdata :
  Forall is_byte owner -> Forall is_byte rdata -> Forall is_byte (record_bytes owner type class ttl rdata).
Proof.
  intros H1 H2. unfold record_bytes. rewrite !Forall_app.
  split_and!; (done || apply be16_bytes || apply be32_bytes).
Qed.

Lemma announcement_is_bytes o id ttl : announceable o -> Forall is_byte (announcement o id ttl).
Proof.
  intros Ho. pose proof Ho as [Ht Hv Hn Hh]. destruct (service_chars o Ht) as (C1 & _ & C3).
  destruct (build_offsets o Ho) as (H1 & H2 & _).
  assert (M : Forall is_byte (memory32 (ipv4_address o))) by (apply Forall_rev, be32_bytes).
  unfold announcement, message_header, ptr_record, srv_record, txt_record, a_record, srv_data, pointer_to.
  rewrite !Forall_app. split_and!; try apply be16_bytes; apply record_is_bytes; try apply be16_bytes; try done.
  - by apply encode_name_bytes; [apply chars_are_bytes|].
  - apply Forall_app. split; [|apply be16_bytes]. constructor; [unfold is_byte; lia|].
    apply chars_are_bytes, Ht.
  - rewrite !Forall_app. split_and!; try apply be16_bytes.
    by apply encode_name_bytes; [apply chars_are_bytes|].
  - unfold text_of. apply Forall_take, Ht.
Qed.

Lemma memory32_inj a b : is_u32 a -> is_u32 b -> memory32 a = memory32 b -> a = b.
Proof.
  unfold memory32, be32. intros Ha Hb E. cbn in E. injection E as E0 E1 E2 E3.
  rewrite !Z.shiftr_div_pow2 in * by lia.
  change (2 ^ 8) with 256 in *. change (2 ^ 16) with 65536 in *. change (2 ^ 24) with 16777216 in *.
  unfold u8, is_u32, UINT32_MAX in *. lia.
Qed.

Section conflict.
Context (s o : AirPlayDnsService) (Hs : service_typed s) (Hv : service_valid (Some s) = true).
Context (Ho : announceable o) (id ttl : Z) (pad : list Z) (Hpad : Forall is_byte pad).
Let packet := announcement o id ttl ++ pad.
Let size := length (announcement o id ttl).

Lemma packet_is_bytes : Forall is_byte packet.
Proof. unfold packet. apply Forall_app. split; [by apply announcement_is_bytes | done]. Qed.

Lemma text_no_nul l : Forall (fun b => 0 < b < 256) l -> cstr_of (with_nul l) = l.
Proof.
  intros H. rewrite <- (cstr_of_set_with_nul l []). apply cstr_of_set_name.
  eapply Forall_impl; [exact H|]. cbn. lia.
Qed.

(** The texts of the two owners. *)
Lemma owner_texts :
  dotted (instance_name o :: split_dots [] (service_name o)) = instance_full o /\
  dotted (split_dots [] (host_full o)) = host_full o /\
  (length (instance_full o) <= 255)%nat /\ (length (host_full o) <= 255)%nat /\
  cstr_of (with_nul (instance_full o)) = instance_full o /\ cstr_of (with_nul (host_full o)) = host_full o.
Proof.
  destruct (build_offsets o Ho) as (H1 & H2 & H3 & _). pose proof Ho as [Ht Hvo [Hn Hn'] Hh].
  destruct (service_chars o Ht) as (C1 & C2 & C3).
  split_and!; [| by apply dotted_name | len; lia | len; lia | by apply text_no_nul | by apply text_no_nul].
  unfold dotted. cbn [foldl]. rewrite dotted_split by done. unfold instance_full.
  destruct (instance_name o); [cbn in H2; lia | done].
Qed.

Let p1 := message_header id ++ ptr_record o ttl.
Let p2 := p1 ++ srv_record o ttl.
Let p3 := p2 ++ txt_record o ttl.
Let rest := a_record o ttl ++ pad.

Lemma layout :
  packet = message_header id ++ ptr_record o ttl ++ (srv_record o ttl ++ txt_record o ttl ++ rest) /\
  packet = p1 ++ srv_record o ttl ++ (txt_record o ttl ++ rest) /\
  packet = p2 ++ txt_record o ttl ++ rest /\ packet = p3 ++ a_record o ttl ++ pad.
Proof.
  unfold packet, announcement, p3, p2, p1, rest. split_and!; by rewrite <- !app_assoc.
Qed.

Lemma layout_sizes :
  length p1 = (instance_offset o + length (instance_name o) + 3)%nat /\
  length p2 = (length p1 + length (host_full o) + 20)%nat /\
  length p3 = (length p2 + txt_size o + 12)%nat /\ size = (length p3 + 16)%nat /\ (size <= length packet)%nat.
Proof.
  destruct (build_offsets o Ho) as (H1 & H2 & H3 & H4 & H5).
  split_and!; [| | | |apply announcement_size];
    unfold p3, p2, p1, size, announcement, ptr_record, srv_record, txt_record, a_record, instance_offset;
    repeat (rewrite ?length_app, ?length_record, ?length_header, ?encode_name_length, ?length_encode_label,
      ?length_srv_data, ?length_pointer_to, ?length_memory32, ?H5); lia.
Qed.

(** Each record in turn. *)
Lemma scan_ptr inst host :
  scan_records s inst host packet size 4 12 = scan_records s inst host packet size 3 (length p1).
Proof.
  destruct (build_offsets o Ho) as (H1 & H2 & H3 & H4 & H5). destruct layout as (E & _).
  destruct layout_sizes as (S1 & S2 & S3 & S4 & S5).
  change 12%nat with (length (message_header id)).
  rewrite (scan_record s packet size packet_is_bytes S5 3 _ _ (message_header id) _ _ _ _ _ _ 0
    (split_dots [] (service_name o)) E); [| |lia| |done|len; lia|].
  - rewrite record_other by done. cbn [mbind outcome_bind]. done.
  - rewrite length_header, encode_name_length. replace (12 + _)%nat with (14 + length (service_name o))%nat by lia.
    by apply service_name_at.
  - rewrite dotted_name by apply Ho. lia.
  - change (record_bytes _ _ 1 _ _) with (ptr_record o ttl). fold p1. lia.
Qed.

Lemma scan_srv :
  scan_records s (instance_full s) (host_full s) packet size 3 (length p1) =
    if name_matches (instance_full o) (instance_full s) &&
       negb ((port o =? port s) && name_matches (host_full o) (host_full s))
    then Done true else scan_records s (instance_full s) (host_full s) packet size 2 (length p2).
Proof.
  destruct (build_offsets o Ho) as (H1 & H2 & H3 & H4 & H5). destruct layout as (_ & E & _).
  destruct layout_sizes as (S1 & S2 & S3 & S4 & S5). destruct owner_texts as (T1 & T2 & L1 & L2 & C1 & C2).
  pose proof (length_srv_data o) as Hd. rewrite length_host_full in Hd, S2.
  rewrite (scan_record s packet size packet_is_bytes S5 2 _ _ p1 _ _ _ _ _ _ 2
    (instance_name o :: split_dots [] (service_name o)) E); [| |lia|by rewrite T1|done|lia|].
  - change (record_bytes _ AIRPLAY_DNS_TYPE_SRV _ _ _) with (srv_record o ttl). fold p2. rewrite T1, C1.
    rewrite (record_srv s Hs Hv packet size packet_is_bytes S5 (instance_full o) _ (length (srv_data o)) 0
      (split_dots [] (host_full o)) (port o)
      (p1 ++ record_head (pointer_to (instance_offset o)) AIRPLAY_DNS_TYPE_SRV 0x8001 ttl ++
        be16 (Z.of_nat (length (srv_data o))))
      (encode_name (host_full o) ++ txt_record o ttl ++ rest)).
    + rewrite T2, C2. cbn [mbind outcome_bind]. by destruct (_ && _).
    + rewrite E. unfold srv_record. rewrite record_bytes_head. unfold srv_data at 2. by rewrite <- !app_assoc.
    + rewrite !length_app, length_record_head. len. lia.
    + lia.
    + len. lia.
    + apply Ho.
    + rewrite Hd. pose proof (host_name_at o Ho id ttl pad) as Hn. fold packet size in Hn.
      rewrite length_host_full in Hn. len. unfold host_offset in Hn.
      replace (length p1 + 2 + 10 + 6)%nat with (instance_offset o + length (instance_name o) + 21)%nat by lia.
      by replace (length p1 + 2 + 10 + (8 + (length (host_name o) + 6)))%nat
        with (instance_offset o + length (instance_name o) + 21 + (length (host_name o) + 6) + 2)%nat by lia.
    + lia.
    + by rewrite T2.
  - eapply owner_at; [done | | | | by apply instance_name_at].
    + fold packet. rewrite E. unfold srv_record, record_bytes. rewrite <- !app_assoc. reflexivity.
    + lia.
    + fold size. lia.
  - change (record_bytes _ AIRPLAY_DNS_TYPE_SRV _ _ _) with (srv_record o ttl). fold p2. lia.
Qed.

Lemma scan_txt :
  scan_records s (instance_full s) (host_full s) packet size 2 (length p2) =
    if name_matches (instance_full o) (instance_full s) && negb (bool_decide (text_of o = text_of s))
    then Done true else scan_records s (instance_full s) (host_full s) packet size 1 (length p3).
Proof.
  destruct (build_offsets o Ho) as (H1 & H2 & H3 & H4 & H5). destruct layout as (_ & _ & E & _).
  destruct layout_sizes as (S1 & S2 & S3 & S4 & S5). destruct owner_texts as (T1 & T2 & L1 & L2 & C1 & C2).
  rewrite (scan_record s packet size packet_is_bytes S5 1 _ _ p2 _ _ _ _ _ _ 2
    (instance_name o :: split_dots [] (service_name o)) E); [| |lia|by rewrite T1|done|lia|].
  - change (record_bytes _ AIRPLAY_DNS_TYPE_TXT _ _ _) with (txt_record o ttl). fold p3. rewrite T1, C1.
    rewrite (record_txt s Hs Hv packet size S5 (instance_full o) _ (text_of o)
      (p2 ++ record_head (pointer_to (instance_offset o)) AIRPLAY_DNS_TYPE_TXT 0x8001 ttl ++
        be16 (Z.of_nat (length (text_of o)))) rest).
    + cbn [mbind outcome_bind]. by destruct (_ && _).
    + rewrite E. unfold txt_record. rewrite record_bytes_head. by rewrite <- !app_assoc.
    + rewrite !length_app, length_record_head. len. lia.
  - eapply owner_at; [done | | | | by apply instance_name_at].
    + fold packet. rewrite E. unfold txt_record, record_bytes. rewrite <- !app_assoc. reflexivity.
    + lia.
    + fold size. lia.
  - change (record_bytes _ AIRPLAY_DNS_TYPE_TXT _ _ _) with (txt_record o ttl). fold p3. lia.
Qed.

Lemma scan_a :
  scan_records s (instance_full s) (host_full s) packet size 1 (length p3) =
    Done (name_matches (host_full o) (host_full s) && negb (ipv4_address o =? ipv4_address s)).
Proof.
  destruct (build_offsets o Ho) as (H1 & H2 & H3 & H4 & H5). destruct layout as (_ & _ & _ & E).
  destruct layout_sizes as (S1 & S2 & S3 & S4 & S5). destruct owner_texts as (T1 & T2 & L1 & L2 & C1 & C2).
  rewrite (scan_record s packet size packet_is_bytes S5 0 _ _ p3 _ _ _ _ _ _ 1
    (split_dots [] (host_full o)) E); [| |lia|by rewrite T2|done|done|].
  - rewrite T2, C2. change (Z.of_nat (length (memory32 _))) with 4.
    rewrite (record_a s packet size S5 (host_full o) _ (memory32 (ipv4_address o))
      (p3 ++ record_head (pointer_to (host_offset o)) AIRPLAY_DNS_TYPE_A 0x8001 ttl ++ be16 4) pad).
    + cbn [mbind outcome_bind scan_records].
      replace (bool_decide (memory32 (ipv4_address o) = memory32 (ipv4_address s)))
        with (ipv4_address o =? ipv4_address s); [by destruct (_ && _)|].
      apply eq_true_iff_eq. rewrite Z.eqb_eq, bool_decide_eq_true. split; [congruence|].
      apply memory32_inj; [apply Ho | apply Hs].
    + rewrite E. unfold a_record. rewrite record_bytes_head. by rewrite <- !app_assoc.
    + rewrite !length_app, length_record_head. len. lia.
    + done.
  - eapply owner_at; [done | | | | by apply host_name_at].
    + fold packet. rewrite E. unfold a_record, record_bytes. rewrite <- !app_assoc. reflexivity.
    + unfold host_offset. rewrite length_host_full in *. lia.
    + fold size. lia.
  - rewrite length_app, length_record. len. lia.
Qed.

Lemma scan_announcement :
  scan_records s (instance_full s) (host_full s) packet size 4 12 = Done (claims_other s o).
Proof.
  rewrite scan_ptr, scan_srv, scan_txt, scan_a. unfold claims_other.
  destruct (name_matches (instance_full o) (instance_full s)), (negb (_ && _)), (negb (bool_decide _)),
    (_ && negb (ipv4_address o =? _)); reflexivity.
Qed.
End conflict.

(** ** Lemmas: memory safety *)

Section safety.
Context (packet : list Z) (packet_size : nat).
Hypothesis (Hbytes : Forall is_byte packet) (Hsize : (packet_size <= length packet)%nat).

Lemma read_u16_done off :
  (off + 2 <= packet_size)%nat -> exists v, read_u16 packet off = Done v /\ 0 <= v < 65536.
Proof.
  intros H. unfold read_u16. destruct (lookup_lt_is_Some_2 packet off) as [a Ha]; [lia|].
  destruct (lookup_lt_is_Some_2 packet (S off)) as [b Hb]; [lia|]. rewrite Ha. cbn. rewrite Hb.
  eexists. split; [reflexivity|]. unfold u16. lia.
Qed.

Lemma read_u16_safe off :
  (off + 2 <= packet_size)%nat -> safe (read_u16 packet off) (fun v => 0 <= v < 65536).
Proof. intros H. by destruct (read_u16_done off H) as (v & -> & Hv). Qed.

(** A name and [n] bytes after it. *)
Lemma read_name_then {B} off n (k : nat * list Z -> outcome B) Q :
  (forall next name, (off < next)%nat -> (next + n <= packet_size)%nat -> safe (k (next, name)) Q) ->
  safe ('(off, name) ← read_name packet packet_size off name_array;
        ensure (negb ((packet_size <? off)%nat || (packet_size - off <? n)%nat));; k (off, name)) Q.
Proof.
  intros Hk. eapply safe_bind; [by apply read_name_safe|]. intros [next name] (j & labels & Hn & _).
  cbn [fst] in Hn. apply dns_name_offset in Hn.
  destruct (Nat.ltb_spec packet_size next), (Nat.ltb_spec (packet_size - next) n); cbn; try done.
  apply Hk; lia.
Qed.

Lemma scan_questions_safe svc inst host count off r u :
  safe (scan_questions packet packet_size svc inst host count off r u) (fun _ => True).
Proof.
  revert off r u. induction count as [|count IH]; intros off r u; [done|]. cbn [scan_questions].
  apply (read_name_then off 4 (fun '(off, name) => type ← read_u16 packet off; _)).
  intros next name H1 H2. eapply safe_bind; [apply read_u16_safe; lia|]. intros type _.
  eapply safe_bind; [apply read_u16_safe; lia|]. intros class _. case_match; apply IH.
Qed.

Lemma skip_questions_safe count off :
  safe (skip_questions packet packet_size count off) (fun _ => True).
Proof.
  unfold skip_questions. destruct (negb _); [|done]. cbn [ensure mbind outcome_bind].
  generalize (Z.to_nat count). intros n. revert off.
  induction n as [|n IH]; intros off; [done|]. cbn [skip_questions_loop].
  apply (read_name_then off 4 (fun '(off, _) => skip_questions_loop packet packet_size n (off + 4))).
  intros. apply IH.
Qed.

Lemma bytes_differ_safe off other n :
  (off + n <= packet_size)%nat -> (n <= length other)%nat ->
  safe (bytes_differ packet off other n) (fun _ => True).
Proof.
  intros H1 H2. unfold bytes_differ. destruct (buf_read_spec off n packet) as [-> _]; [lia|].
  by destruct (buf_read_spec 0 n other) as [-> _].
Qed.

Lemma holds_safe m : safe m (fun _ => True) -> safe (holds m) (fun _ => True).
Proof. by destruct m. Qed.

Context (s : AirPlayDnsService) (Hs : service_typed s) (Hv : service_valid (Some s) = true).

Lemma srv_rdata_safe off n : 0 <= n -> safe (srv_rdata_matches s packet packet_size off n) (fun _ => True).
Proof.
  intros Hn. unfold srv_rdata_matches.
  destruct (Z.ltb_spec n 7), (Nat.ltb_spec packet_size off), (Z.ltb_spec (Z.of_nat (packet_size - off)) n);
    try done. cbn [orb negb ensure mbind outcome_bind].
  eapply safe_bind; [apply read_u16_safe; lia|]. intros prio _. destruct (prio =? 0); [|done]. cbn.
  eapply safe_bind; [apply read_u16_safe; lia|]. intros weight _. destruct (weight =? 0); [|done]. cbn.
  eapply safe_bind; [apply read_u16_safe; lia|]. intros p _. destruct (p =? port s); [|done].
  cbn [ensure mbind outcome_bind]. rewrite make_host_full_eq by done. cbn [mbind outcome_bind].
  eapply safe_bind; [by apply read_name_safe|]. intros [next name] _. by destruct (_ =? _)%nat.
Qed.

Lemma record_safe inst host owner type off n :
  0 <= n -> (off + Z.to_nat n <= packet_size)%nat ->
  safe (record_conflicts s inst host owner packet packet_size type off n) (fun _ => True).
Proof.
  intros Hn Hin. destruct (valid_fields s Hs Hv) as (_ & _ & Ht & _). unfold record_conflicts.
  eapply (safe_bind _ _ (fun _ => True)).
  { destruct (_ && _); [|done]. destruct (Z.eqb_spec n 4) as [->|]; [|done]. cbn [negb].
    apply bytes_differ_safe; [exact Hin | by rewrite length_memory32]. }
  intros [] _; [done|]. eapply (safe_bind _ _ (fun _ => True)).
  { destruct (_ && _); [|done]. destruct (Z.eqb_spec n (Z.of_nat (txt_size s))) as [->|]; [|done]. cbn [negb].
    rewrite Nat2Z.id in Hin. apply bytes_differ_safe; [exact Hin|].
    rewrite typed_txt by done. unfold AIRPLAY_DNS_TXT_MAX. lia. }
  intros [] _; [done|]. destruct (_ && _); [|done].
  eapply safe_bind; [by apply holds_safe, srv_rdata_safe | done].
Qed.

Lemma scan_records_safe inst host count off :
  safe (scan_records s inst host packet packet_size count off) (fun _ => True).
Proof.
  revert off. induction count as [|count IH]; intros off; [done|]. cbn [scan_records].
  apply (read_name_then off 10 (fun '(off, owner) => type ← read_u16 packet off; _)).
  intros next name H1 H2. eapply safe_bind; [apply read_u16_safe; lia|]. intros type _.
  eapply safe_bind; [apply read_u16_safe; lia|]. intros n Hn. cbn beta in Hn.
  destruct (Z.ltb_spec (Z.of_nat (packet_size - (next + 10))) n); [done|]. cbn [negb ensure mbind outcome_bind].
  eapply safe_bind; [apply record_safe; lia|]. intros [] _; [done | apply IH].
Qed.
End safety.

(** A writer whose capacity its buffer has. *)
Definition sound (w : DnsWriter) : Prop := (capacity w <= length (data w))%nat.

Lemma write_bytes_safe l w : sound w -> safe (write_bytes l w) sound.
Proof.
  intros Hw. unfold write_bytes, sound in *.
  destruct (Nat.ltb_spec (capacity w) (offset w)), (Nat.ltb_spec (capacity w - offset w) (length l)); try done.
  cbn [orb negb ensure mbind outcome_bind]. destruct l as [|c l]; [done|].
  destruct (buf_write_spec (offset w) (c :: l) (data w)) as (d & -> & Hd & _); [lia|]. cbn. by rewrite Hd.
Qed.

Lemma patch_length_safe a b w : sound w -> safe (patch_length a b w) sound.
Proof.
  intros Hw. unfold patch_length, patch_u16, sound in *.
  destruct (Nat.ltb_spec (capacity w) a), (Nat.ltb_spec (offset w) a), (Nat.ltb_spec (capacity w - a) 2),
    (Nat.ltb_spec (offset w - a) 2); try done. cbn [orb negb ensure mbind outcome_bind].
  destruct (buf_write_spec a (be16 (u16 (Z.of_nat (offset w - b)))) (data w)) as (d & -> & Hd & _);
    [rewrite length_be16; lia|]. cbn. by rewrite Hd.
Qed.

Lemma write_label_safe l w : sound w -> safe (write_label l w) sound.
Proof.
  intros Hw. unfold write_label. destruct (_ && _); [|done]. cbn [ensure mbind outcome_bind].
  eapply safe_bind; [by apply write_bytes_safe|]. intros. by apply write_bytes_safe.
Qed.

Lemma write_pointer_safe off w : sound w -> safe (write_pointer off w) sound.
Proof. intros Hw. unfold write_pointer. destruct (_ <? _); [|done]. by apply write_bytes_safe. Qed.

Lemma write_name_loop_safe label name total w : sound w -> safe (write_name_loop label name total w) sound.
Proof.
  revert label total w. induction name as [|c name IH]; intros label total w Hw; cbn [write_name_loop].
  { eapply safe_bind; [by apply write_label_safe|]. intros. by destruct (_ <=? _)%nat. }
  destruct (c =? 46); [|by apply IH]. eapply safe_bind; [by apply write_label_safe|].
  intros w' Hw'. destruct (_ <=? _)%nat; [|done]. by apply IH.
Qed.

Lemma write_name_safe name w : sound w -> safe (write_name name w) sound.
Proof.
  intros Hw. unfold write_name. case_bool_decide; [done|]. cbn [negb ensure mbind outcome_bind].
  eapply safe_bind; [by apply write_name_loop_safe|]. intros. by apply write_bytes_safe.
Qed.

Lemma write_record_header_safe off type unique ttl w :
  sound w -> safe (write_record_header off type unique ttl w) (fun '(_, _, w') => sound w').
Proof.
  intros Hw. unfold write_record_header, write_u16, write_u32.
  eapply safe_bind; [by apply write_pointer_safe|]. intros.
  do 4 (eapply safe_bind; [by apply write_bytes_safe|]; intros). done.
Qed.

(** One operation on a sound writer, then the rest. *)
Ltac safe_op :=
  eapply safe_bind;
  [ unfold write_u8, write_u16, write_u32;
    first [ apply write_bytes_safe | apply write_name_safe | apply write_label_safe | apply write_pointer_safe
          | apply patch_length_safe | apply write_record_header_safe ]; eassumption
  | ].

Lemma build_record_set_safe s id ttl output :
  (forall service, s = Some service -> service_typed service) ->
  (AIRPLAY_DNS_PACKET_MAX <= length output)%nat ->
  safe (build_record_set s id ttl output) (fun _ => True).
Proof.
  intros Hs Hout. unfold build_record_set. destruct (service_valid s) eqn:Hv; [|done].
  destruct s as [s|]; [|done]. specialize (Hs s eq_refl). cbn [ensure mbind outcome_bind].
  destruct (valid_fields s Hs Hv) as (_ & _ & Ht & _).
  rewrite make_instance_full_eq, make_host_full_eq by done. cbn [mbind outcome_bind].
  destruct (buf_write_spec 0 (replicate AIRPLAY_DNS_PACKET_MAX 0) output) as (buf & -> & Hb & _);
    [by rewrite length_replicate|]. cbn [checked mbind outcome_bind].
  assert (Hw : sound (mkDnsWriter buf AIRPLAY_DNS_PACKET_MAX 0)) by (unfold sound; cbn [data capacity]; lia).
  do 14 (safe_op; intros ? ?).
  safe_op; intros [[? ?] ?] ?. do 5 (safe_op; intros ? ?).
  safe_op; intros [[? ?] ?] ?.
  destruct (buf_read_spec 0 (txt_size s) (txt s)) as [-> _].
  { rewrite typed_txt by done. unfold AIRPLAY_DNS_TXT_MAX. lia. }
  cbn [checked mbind outcome_bind]. do 2 (safe_op; intros ? ?).
  safe_op; intros [[? ?] ?] ?. do 2 (safe_op; intros ? ?). done.
Qed.

(** ** Lemmas: questions *)

Section questions.
Context (s : AirPlayDnsService) (packet : list Z) (packet_size : nat).
Hypothesis (Hbytes : Forall is_byte packet) (Hsize : (packet_size <= length packet)%nat).

Lemma scan_questions_eq off qs r u :
  questions_at packet packet_size off qs ->
  scan_questions packet packet_size (service_name s) (instance_full s) (host_full s) (length qs) off r u =
    Done (r || existsb (asks_for s) qs, u || existsb (asks_directly s) qs).
Proof.
  intros H. revert r u. induction H as [off | off j labels next type class qs Hn Hj Hl Hin Ht Hc Hqs IH];
    intros r u; [by rewrite !orb_false_r|]. cbn [length scan_questions existsb].
  rewrite (read_name_complete packet packet_size j off labels next) by done. cbn [mbind outcome_bind].
  rewrite (proj2 (Nat.ltb_ge packet_size next)), (proj2 (Nat.ltb_ge (packet_size - next) 4)) by lia.
  cbn [orb negb ensure mbind outcome_bind]. rewrite Ht. cbn [mbind outcome_bind]. rewrite Hc.
  cbn [mbind outcome_bind]. rewrite !IH, cstr_of_set_with_nul.
  set (name := cstr_of _).
  change (asks_directly s (mkQuestion name type class)) with
    (asks_for s (mkQuestion name type class) && negb (Z.land class 0x8000 =? 0)).
  change (asks_for s (mkQuestion name type class)) with ((Z.land class 0x7fff =? 1) &&
    question_relevant (service_name s) (instance_full s) (host_full s) name type).
  destruct (Z.land class 0x7fff =? 1); cbn [negb andb]; [|done].
  set (q := question_relevant _ _ _ _ _). destruct q, (negb (Z.land class 32768 =? 0)), r, u; reflexivity.
Qed.

Lemma scan_questions_inv off n r u ru :
  scan_questions packet packet_size (service_name s) (instance_full s) (host_full s) n off r u = Done ru ->
  exists qs, length qs = n /\ questions_at packet packet_size off qs.
Proof.
  revert off r u. induction n as [|n IH]; intros off r u; cbn [scan_questions].
  { intros _. exists []. split; [done | constructor]. }
  pose proof (read_name_safe packet packet_size off name_array Hbytes Hsize eq_refl) as Hs.
  destruct (read_name _ _ _ _) as [[next name]| |]; [|done..]. cbn [safe fst snd mbind outcome_bind] in *.
  destruct Hs as (j & labels & Hn & Hj & Hl & ->).
  destruct (Nat.ltb_spec packet_size next), (Nat.ltb_spec (packet_size - next) 4); try done.
  cbn [orb negb ensure mbind outcome_bind].
  destruct (read_u16 packet next) as [type| |] eqn:Et; [|done..]. cbn [mbind outcome_bind].
  destruct (read_u16 packet (next + 2)) as [class| |] eqn:Ec; [|done..]. cbn [mbind outcome_bind].
  assert (Hex : forall r' u', scan_questions packet packet_size (service_name s) (instance_full s)
      (host_full s) n (next + 4) r' u' = Done ru ->
    exists qs, length qs = S n /\ questions_at packet packet_size off qs).
  { intros r' u' E. destruct (IH _ _ _ E) as (qs & <- & Hqs).
    exists (mkQuestion (cstr_of (with_nul (dotted labels))) type class :: qs).
    split; [done|]. econstructor; try done; lia. }
  case_match; apply Hex.
Qed.

(** The questions at an offset are determined by their number. *)
Lemma questions_unique off qs qs' :
  questions_at packet packet_size off qs -> questions_at packet packet_size off qs' ->
  length qs = length qs' -> qs = qs'.
Proof.
  intros H. revert qs'. induction H as [off | off j labels next type class qs Hn Hj Hl Hin Ht Hc Hqs IH];
    intros qs' H' Hlen.
  - by destruct qs'.
  - destruct H' as [|off j' labels' next' type' class' qs' Hn' Hj' Hl' Hin' Ht' Hc' Hqs']; [done|].
    pose proof (read_name_complete packet packet_size j off labels next name_array Hbytes Hsize eq_refl Hn Hj Hl) as E.
    rewrite (read_name_complete packet packet_size j' off labels' next' name_array Hbytes Hsize eq_refl Hn' Hj' Hl') in E.
    injection E as -> E. rewrite Ht in Ht'. injection Ht' as ->. rewrite Hc in Hc'. injection Hc' as ->.
    f_equal; [|apply IH; [done | by injection Hlen]].
    f_equal. rewrite <- !(cstr_of_set_with_nul _ name_array). by rewrite E.
Qed.
End questions.

Lemma header_counts o ttl pad :
  let packet := announcement o 0 ttl ++ pad in
  read_u16 packet 4 = Done 0 /\ read_u16 packet 6 = Done 4 /\ read_u16 packet 8 = Done 0 /\
  read_u16 packet 10 = Done 0.
Proof. cbv zeta. unfold announcement. by split_and!. Qed.

(** ** Properties *)

(** The conflict check says the truth about other announcements: for any two
    services, the announcement of one, a message of at most 750 bytes, is taken
    for a conflict by the other exactly when it claims the other's host name (in
    any case) with another address, or the other's instance name with another
    port, host or text; so a host never takes its own announcement for one. *)
Theorem conflict_iff_claims (s o : AirPlayDnsService) (ttl : Z) (output : list Z)
    (Hs : service_typed s) (Hv : service_valid (Some s) = true) (Ho : announceable o)
    (Hout : (AIRPLAY_DNS_PACKET_MAX <= length output)%nat) (Hbytes : Forall is_byte output) :
  exists packet size,
    airplay_dns_build_announcement (Some o) ttl output = Done (packet, size) /\ (size <= 750)%nat /\
    airplay_dns_packet_conflicts (Some s) (Some packet) size = Done (claims_other s o) /\
    claims_other o o = false.
Proof.
  pose proof Ho as [Ht Hvo _ _]. destruct (length_announcement o Ht Hvo 0 ttl) as [Hlen Hmax].
  eexists _, _. split; [by apply build_record_set_eq|]. split; [done|]. split; cycle 1.
  { unfold claims_other. rewrite !Z.eqb_refl. unfold name_matches, strcasecmp_equal.
    rewrite !(bool_decide_eq_true_2 (_ = _)) by done. done. }
  unfold in_packet. set (pad := drop _ _).
  assert (Hpad : Forall is_byte pad).
  { apply Forall_drop, Forall_app. split; [|by apply Forall_drop].
    apply Forall_replicate. unfold is_byte. lia. }
  unfold airplay_dns_packet_conflicts. rewrite Hv. cbn [ensure mbind outcome_bind].
  rewrite (proj2 (Nat.ltb_ge _ DNS_HEADER_SIZE)), (proj2 (Nat.ltb_ge AIRPLAY_DNS_PACKET_MAX _)).
  2: { unfold AIRPLAY_DNS_PACKET_MAX. lia. }
  2: { rewrite Hlen. unfold DNS_HEADER_SIZE, host_offset, instance_offset. lia. }
  cbn [orb negb ensure mbind outcome_bind]. rewrite make_instance_full_eq, make_host_full_eq by done.
  cbn [mbind outcome_bind]. destruct (header_counts o ttl pad) as (-> & -> & -> & ->).
  cbn [mbind outcome_bind]. change (u32 (4 + 0 + 0)) with 4. cbn [ensure mbind outcome_bind].
  destruct (full_names_read s Hs) as [-> ->].
  change (Z.to_nat 4) with 4%nat.
  assert (E : skip_questions (announcement o 0 ttl ++ pad) (length (announcement o 0 ttl)) 0 DNS_HEADER_SIZE
    = Done 12%nat) by done.
  unfold DNS_MAX_RECORDS. cbn [Z.ltb Z.compare Pos.compare Pos.compare_cont negb ensure mbind outcome_bind].
  rewrite E. cbn [mbind outcome_bind]. by rewrite (scan_announcement s o Hs Hv Ho 0 ttl pad Hpad).
Qed.

(** A concrete service, and the announcement of a rival that took its host name. *)
Definition demo_service : AirPlayDnsService :=
  mkService [] (bytes "Switch") (bytes "nx-cast") 7000 16820416
    (bytes "deviceid=02" ++ replicate 501 0) 11.
Definition demo_rival : AirPlayDnsService :=
  mkService [] (bytes "Other") (bytes "NX-Cast") 7000 33597632
    (bytes "deviceid=03" ++ replicate 501 0) 11.

Lemma demo_service_announceable : announceable demo_service.
Proof.
  constructor; [constructor| | |]; try (apply (bool_decide_unpack _); vm_compute; exact I); reflexivity.
Qed.

Lemma demo_rival_announceable : announceable demo_rival.
Proof.
  constructor; [constructor| | |]; try (apply (bool_decide_unpack _); vm_compute; exact I); reflexivity.
Qed.

Lemma conflict_iff_claims_witness :
  claims_other demo_service demo_rival = true /\
  exists packet size,
    airplay_dns_build_announcement (Some demo_rival) 120 (replicate 1500 7) = Done (packet, size) /\
    (size <= 750)%nat /\
    airplay_dns_packet_conflicts (Some demo_service) (Some packet) size =
      Done (claims_other demo_service demo_rival) /\
    claims_other demo_rival demo_rival = false.
Proof.
  split; [vm_compute; reflexivity|].
  apply (conflict_iff_claims demo_service demo_rival 120 (replicate 1500 7)).
  - apply demo_service_announceable.
  - vm_compute. reflexivity.
  - apply demo_rival_announceable.
  - vm_compute. lia.
  - apply Forall_replicate. unfold is_byte. lia.
Defined.

(** The part of the answer after the header was read. *)
Lemma query_answer (s : AirPlayDnsService) (query output : list Z) (size : nat) (ttl : Z)
    (Hs : announceable s) (Hquery : Forall is_byte query) (Hsize : (size <= length query)%nat)
    (Hout : (AIRPLAY_DNS_PACKET_MAX <= length output)%nat) id flags count :
  0 <= count < 65536 -> (12 <= size <= 1500)%nat ->
  let answer :=
    ensure (negb (negb (Z.land flags 0x8000 =? 0) || (count =? 0) || (DNS_MAX_QUESTIONS <? count)));;
    '(relevant, unicast) ←
      scan_questions query size (service_name s) (instance_full s) (host_full s) (Z.to_nat count) 12 false false;
    ensure (relevant : bool);;
    result ← build_record_set (Some s) (if unicast : bool then id else 0) ttl output;
    Done (unicast : bool, result) in
  answer <> Stuck /\
  forall unicast packet n, answer = Done (unicast, (packet, n)) <->
    exists id' flags' questions,
      (12 <= size <= 1500)%nat /\ Done id = Done id' /\ Done flags = Done flags' /\ Z.land flags' 0x8000 = 0 /\
      Done count = Done (Z.of_nat (length questions)) /\ (1 <= length questions <= 32)%nat /\
      questions_at query size 12 questions /\ existsb (asks_for s) questions = true /\
      unicast = existsb (asks_directly s) questions /\
      n = length (announcement s (if unicast then id' else 0) ttl) /\
      packet = in_packet (announcement s (if unicast then id' else 0) ttl) output.
Proof.
  intros Hcount Hsz answer. subst answer.
  destruct (negb _) eqn:Eg; cycle 1.
  { split; [done|]. intros u p n. split; [done|]. intros (id' & flags' & qs & _ & _ & [= <-] & Hf & [= ->] & Hl & _).
    apply negb_false_iff in Eg. rewrite Hf in Eg. cbn in Eg. apply orb_true_iff in Eg as [E|E].
    - apply Z.eqb_eq in E. lia.
    - unfold DNS_MAX_QUESTIONS in E. apply Z.ltb_lt in E. lia. }
  apply negb_true_iff in Eg. rewrite !orb_false_iff in Eg. destruct Eg as [[Ef Ec] Em].
  apply negb_false_iff, Z.eqb_eq in Ef. apply Z.eqb_neq in Ec. unfold DNS_MAX_QUESTIONS in Em. apply Z.ltb_ge in Em.
  cbn [ensure mbind outcome_bind].
  pose proof (scan_questions_safe query size Hquery Hsize (service_name s) (instance_full s) (host_full s)
    (Z.to_nat count) 12 false false) as Hsafe.
  destruct (scan_questions _ _ _ _ _ _ _ _ _) as [[r u]| |] eqn:Escan; [| |done]; cbn [mbind outcome_bind].
  - destruct (scan_questions_inv s query size Hquery Hsize _ _ _ _ _ Escan) as (qs & Hl & Hqs).
    rewrite <- Hl, (scan_questions_eq s query size Hquery Hsize 12 qs) in Escan by done.
    injection Escan as <- <-. cbn [orb].
    destruct (existsb (asks_for s) qs) eqn:Er; cbn [ensure mbind outcome_bind].
    + rewrite build_record_set_eq by done. cbn [mbind outcome_bind]. split; [done|]. intros u p n. split.
      * intros [= <- <- <-]. exists id, flags, qs. split_and!; try done; try lia. f_equal. lia.
      * intros (id' & flags' & qs' & _ & [= <-] & _ & _ & [= ->] & _ & Hqs' & _ & -> & -> & ->).
        assert (E : qs' = qs) by (apply (questions_unique query size Hquery Hsize 12 qs' qs Hqs' Hqs); lia). by subst qs'.
    + split; [done|]. intros u p n. split; [done|].
      intros (id' & flags' & qs' & _ & _ & _ & _ & [= ->] & _ & Hqs' & Hr & _).
      assert (E : qs' = qs) by (apply (questions_unique query size Hquery Hsize 12 qs' qs Hqs' Hqs); lia). congruence.
  - split; [done|]. intros u p n. split; [done|].
    intros (id' & flags' & qs & _ & _ & _ & _ & [= ->] & _ & Hqs & _).
    rewrite Nat2Z.id in Escan. by rewrite (scan_questions_eq s query size Hquery Hsize 12 qs) in Escan.
Qed.

(** A query is answered exactly when it should be, and with the service's
    records: for any packet of bytes the answer never reads or writes out of
    bounds; and there is one if and only if the packet is a query of at most 1500
    bytes with between one and thirty-two questions, all readable, of which at
    least one asks, in class IN, for a record of the service under its name; the
    answer is then the announcement, sent to the asker alone, with the query's
    identifier, if and only if such a question wants a direct answer. *)
Theorem query_answered_iff_asked (s : AirPlayDnsService) (query output : list Z) (size : nat) (ttl : Z)
    (Hs : announceable s) (Hquery : Forall is_byte query) (Hsize : (size <= length query)%nat)
    (Hout : (AIRPLAY_DNS_PACKET_MAX <= length output)%nat) :
  airplay_dns_build_query_response (Some s) (Some query) size ttl output <> Stuck /\
  forall unicast packet n,
    airplay_dns_build_query_response (Some s) (Some query) size ttl output = Done (unicast, (packet, n)) <->
    exists id flags questions,
      (12 <= size <= 1500)%nat /\ read_u16 query 0 = Done id /\
      read_u16 query 2 = Done flags /\ Z.land flags 0x8000 = 0 /\
      read_u16 query 4 = Done (Z.of_nat (length questions)) /\ (1 <= length questions <= 32)%nat /\
      questions_at query size 12 questions /\ existsb (asks_for s) questions = true /\
      unicast = existsb (asks_directly s) questions /\
      n = length (announcement s (if unicast then id else 0) ttl) /\
      packet = in_packet (announcement s (if unicast then id else 0) ttl) output.
Proof.
  pose proof Hs as [Ht Hv _ _]. unfold airplay_dns_build_query_response. rewrite Hv.
  cbn [ensure mbind outcome_bind].
  destruct (Nat.ltb_spec size DNS_HEADER_SIZE) as [Hsz|Hsz]; cbn [orb negb ensure mbind outcome_bind].
  { split; [done|]. intros u p n. split; [done|]. intros (id & flags & qs & Hz & _).
    unfold DNS_HEADER_SIZE in *. lia. }
  destruct (Nat.ltb_spec AIRPLAY_DNS_PACKET_MAX size) as [Hmx|Hmx]; cbn [orb negb ensure mbind outcome_bind].
  { split; [done|]. intros u p n. split; [done|]. intros (id & flags & qs & Hz & _).
    unfold AIRPLAY_DNS_PACKET_MAX in *. lia. }
  rewrite make_instance_full_eq, make_host_full_eq by done. cbn [mbind outcome_bind].
  destruct (full_names_read s Ht) as [-> ->]. unfold DNS_HEADER_SIZE in *.
  destruct (read_u16_done query size Hsize 0 ltac:(lia)) as (id & -> & _).
  destruct (read_u16_done query size Hsize 2 ltac:(lia)) as (flags & -> & _).
  destruct (read_u16_done query size Hsize 4 ltac:(lia)) as (count & -> & R4). cbn [mbind outcome_bind].
  apply (query_answer s query output size ttl Hs Hquery Hsize Hout id flags count R4).
  unfold AIRPLAY_DNS_PACKET_MAX in Hmx. lia.
Qed.

(** A query for the service's type that wants a direct answer, as a packet. *)
Definition demo_query : list Z :=
  be16 77 ++ be16 0 ++ be16 1 ++ be16 0 ++ be16 0 ++ be16 0 ++
  encode_name (bytes "_AirPlay._TCP.local") ++ be16 12 ++ be16 0x8001.

Lemma query_answered_iff_asked_witness :
  (exists packet n, airplay_dns_build_query_response (Some demo_service) (Some demo_query) 37 120
     (replicate 1500 7) = Done (true, (packet, n)) /\ take 2 packet = [0; 77]) /\
  airplay_dns_build_query_response (Some demo_service) (Some demo_query) 37 120 (replicate 1500 7) <> Stuck /\
  forall unicast packet n,
    airplay_dns_build_query_response (Some demo_service) (Some demo_query) 37 120 (replicate 1500 7) =
      Done (unicast, (packet, n)) <->
    exists id flags questions,
      (12 <= 37 <= 1500)%nat /\ read_u16 demo_query 0 = Done id /\
      read_u16 demo_query 2 = Done flags /\ Z.land flags 0x8000 = 0 /\
      read_u16 demo_query 4 = Done (Z.of_nat (length questions)) /\ (1 <= length questions <= 32)%nat /\
      questions_at demo_query 37 12 questions /\ existsb (asks_for demo_service) questions = true /\
      unicast = existsb (asks_directly demo_service) questions /\
      n = length (announcement demo_service (if unicast then id else 0) 120) /\
      packet = in_packet (announcement demo_service (if unicast then id else 0) 120) (replicate 1500 7).
Proof.
  split; [eexists _, _; split; vm_compute; reflexivity|].
  apply (query_answered_iff_asked demo_service demo_query (replicate 1500 7) 37 120).
  - apply demo_service_announceable.
  - apply (bool_decide_unpack _). vm_compute. exact I.
  - vm_compute. lia.
  - vm_compute. lia.
Defined.

(** C25: No packet harms the receiver: for any service of the C type, whatever
    its fields, and any packet of bytes of the stated size, the conflict check
    and the answer to a query read and write only inside the packet, the name
    arrays and the output buffer, and return. *)
Theorem packets_are_safe (service : option AirPlayDnsService) (packet : option (list Z)) (size : nat)
    (output : list Z) (ttl : Z)
    (Hservice : forall s, service = Some s -> service_typed s)
    (Hpacket : forall p, packet = Some p -> Forall is_byte p /\ (size <= length p)%nat)
    (Hout : (AIRPLAY_DNS_PACKET_MAX <= length output)%nat) :
  airplay_dns_packet_conflicts service packet size <> Stuck /\
  airplay_dns_build_query_response service packet size ttl output <> Stuck.
Proof.
  unfold airplay_dns_packet_conflicts, airplay_dns_build_query_response.
  destruct (service_valid service) eqn:Hv; [|done]. destruct service as [s|]; [|done].
  destruct packet as [p|]; [|done]. specialize (Hservice s eq_refl). destruct (Hpacket p eq_refl) as [Hb Hsz].
  cbn [ensure mbind outcome_bind].
  destruct (Nat.ltb_spec size DNS_HEADER_SIZE) as [H12|H12], (Nat.ltb_spec AIRPLAY_DNS_PACKET_MAX size);
    try done. cbn [orb negb ensure mbind outcome_bind]. unfold DNS_HEADER_SIZE in *.
  rewrite make_instance_full_eq, make_host_full_eq by done. cbn [mbind outcome_bind].
  assert (R : forall off, (off + 2 <= 12)%nat -> safe (read_u16 p off) (fun _ => True)).
  { intros off Ho. eapply safe_mono; [apply (read_u16_safe p size Hsz); lia | done]. }
  split; eapply (safe_not_stuck _ (fun _ => True)).
  - apply holds_safe. do 4 (eapply safe_bind; [apply R; lia|]; intros ? _).
    destruct (negb _); [|done]. cbn [ensure mbind outcome_bind].
    eapply safe_bind; [by apply skip_questions_safe|]. intros off _. by apply scan_records_safe.
  - do 3 (eapply safe_bind; [apply R; lia|]; intros ? _).
    destruct (negb _); [|done]. cbn [ensure mbind outcome_bind].
    eapply safe_bind; [by apply scan_questions_safe|]. intros [[] u] _; [|done]. cbn [ensure mbind outcome_bind].
    eapply safe_bind; [|done]. apply build_record_set_safe; [by intros ? [= <-] | done].
Qed.

Lemma packets_are_safe_witness :
  airplay_dns_packet_conflicts (Some demo_service) (Some (replicate 20 255)) 20 <> Stuck /\
  airplay_dns_build_query_response (Some demo_service) (Some (replicate 20 255)) 20 120 (replicate 1500 0) <> Stuck.
Proof.
  apply (packets_are_safe (Some demo_service) (Some (replicate 20 255)) 20 (replicate 1500 0) 120).
  - intros s [= <-]. apply demo_service_announceable.
  - intros p [= <-]. split; [apply (Forall_replicate is_byte 20 255); unfold is_byte; lia | vm_compute; lia].
  - vm_compute. lia.
Defined.
