(* ===== verification/Utf8.v ===== *)
(** * UTF-8 prefixes (player/ui/utf8.c)

    The browser and the overlay cut titles to the room they have without
    splitting a character.  Buffers and strings are lists of bytes; a read or a
    write outside of them is [None]. *)

From S2P Require Import Prelude Buffers.

(** ** Operations *)

(** The loop over the continuation bytes at positions [index .. length - 1]. *)
(* src: source/player/ui/utf8.c 36-41 utf8_sequence_length *)
Fixpoint continuation_bytes (input : list Z) (index count : nat) (codepoint : Z) : option (option Z) :=
  match count with
  | O => Some (Some codepoint)
  | S count' =>
      b ← input !! index;
      if negb (Z.land b 0xc0 =? 0x80) then Some None
      else continuation_bytes input (S index) count'
             (Z.lor (u32 (Z.shiftl codepoint 6)) (Z.land b 0x3f))
  end.

(** [input] are the bytes from the pointer on. *)
(* src: source/player/ui/utf8.c utf8_sequence_length *)
Definition utf8_sequence_length (input : list Z) (available : nat) : option nat :=
  b0 ← input !! 0%nat;
  if b0 <? 0x80 then Some 1%nat
  else
    let lead :=
      if (0xc2 <=? b0) && (b0 <=? 0xdf) then Some (Z.land b0 0x1f, 2%nat)
      else if (0xe0 <=? b0) && (b0 <=? 0xef) then Some (Z.land b0 0x0f, 3%nat)
      else if (0xf0 <=? b0) && (b0 <=? 0xf4) then Some (Z.land b0 0x07, 4%nat)
      else None in
    match lead with
    | None => Some 0%nat
    | Some (codepoint, length) =>
        if (available <? length)%nat then Some 0%nat
        else
          r ← continuation_bytes input 1 (length - 1) codepoint;
          Some match r with
               | None => 0%nat
               | Some codepoint =>
                   if ((length =? 3)%nat && (codepoint <? 0x800)) ||
                      ((length =? 4)%nat && (codepoint <? 0x10000)) ||
                      ((0xd800 <=? codepoint) && (codepoint <=? 0xdfff)) ||
                      (0x10ffff <? codepoint)
                   then 0%nat else length
               end
    end.

(** The loop, [fuel] rounds; each consumes at least one byte of the input. *)
(* src: source/player/ui/utf8.c 63-76 player_utf8_copy_prefix *)
Fixpoint copy_sequences (fuel : nat) (input : cstring) (input_byte_limit : nat)
    (input_offset output_offset : nat) (output : list Z) : option (nat * list Z) :=
  match fuel with
  | O => None
  | S fuel' =>
      if (input_offset <? length input)%nat && (input_offset <? input_byte_limit)%nat then
        let available := (length input - input_offset)%nat in
        sequence_length ← utf8_sequence_length (drop input_offset (with_nul input)) available;
        if (sequence_length =? 0)%nat ||
           (input_byte_limit <? input_offset + sequence_length)%nat ||
           (length output <=? output_offset + sequence_length)%nat
        then Some (output_offset, output)
        else
          output' ← buf_write output_offset (take sequence_length (drop input_offset (with_nul input))) output;
          copy_sequences fuel' input input_byte_limit (input_offset + sequence_length)
            (output_offset + sequence_length) output'
      else Some (output_offset, output)
  end.

(** The result and the output buffer, whose size is its length; a NULL output
    is [None], as is a NULL input. *)
(* src: source/player/ui/utf8.c player_utf8_copy_prefix *)
Definition player_utf8_copy_prefix (output : option (list Z)) (input : option cstring)
    (input_byte_limit : nat) : option (nat * option (list Z)) :=
  match output with
  | None => Some (0%nat, None)
  | Some out =>
      if (length out =? 0)%nat then Some (0%nat, output)
      else
        out0 ← buf_write 0 [0] out;
        match input with
        | None => Some (0%nat, Some out0)
        | Some s =>
            '(offset, out1) ← copy_sequences (S (length s)) s input_byte_limit 0 0 out0;
            out2 ← buf_write offset [0] out1;
            Some (offset, Some out2)
        end
  end.

(** ** Reference: what UTF-8 is *)

Definition scalar_value (cp : Z) : Prop :=
  0 <= cp <= 0x10ffff /\ ~ (0xd800 <= cp <= 0xdfff).

(** The encoding of a code point, by arithmetic. *)
Definition utf8_encode (cp : Z) : list Z :=
  if cp <? 0x80 then [cp]
  else if cp <? 0x800 then [0xc0 + cp / 64; 0x80 + cp mod 64]
  else if cp <? 0x10000 then [0xe0 + cp / 4096; 0x80 + cp / 64 mod 64; 0x80 + cp mod 64]
  else [0xf0 + cp / 262144; 0x80 + cp / 4096 mod 64; 0x80 + cp / 64 mod 64; 0x80 + cp mod 64].

(** ** Lemmas: bit operations on bytes *)

Lemma land_continuation b : is_byte b -> (Z.land b 0xc0 =? 0x80) = (0x80 <=? b) && (b <? 0xc0).
Proof.
  intros Hb. apply eqb_prop. revert b Hb. apply byte_cases. vm_compute. reflexivity.
Qed.

Lemma land_ones_mod b n : 0 <= n -> Z.land b (Z.ones n) = b mod 2 ^ n.
Proof. intros. by apply Z.land_ones. Qed.

Lemma land_3f b : Z.land b 0x3f = b mod 64.
Proof. by apply (land_ones_mod b 6). Qed.
Lemma land_1f b : Z.land b 0x1f = b mod 32.
Proof. by apply (land_ones_mod b 5). Qed.
Lemma land_0f b : Z.land b 0x0f = b mod 16.
Proof. by apply (land_ones_mod b 4). Qed.
Lemma land_07 b : Z.land b 0x07 = b mod 8.
Proof. by apply (land_ones_mod b 3). Qed.

Lemma shift_in cp x : 0 <= cp < 67108864 -> 0 <= x < 64 -> Z.lor (u32 (Z.shiftl cp 6)) x = cp * 64 + x.
Proof.
  intros Hc Hx. rewrite u32_id; [by apply (lor_shiftl cp x 6)|].
  rewrite Z.shiftl_mul_pow2 by lia. width_lia.
Qed.

(** ** Lemmas: one sequence *)

(** A continuation byte is consumed, anything else ends the sequence. *)
Lemma continuation_step input index count cp b :
  input !! index = Some b -> is_byte b -> 0 <= cp < 67108864 ->
  continuation_bytes input index (S count) cp =
    if (0x80 <=? b) && (b <? 0xc0)
    then continuation_bytes input (S index) count (cp * 64 + b mod 64) else Some None.
Proof.
  intros Hb Hr Hc. cbn [continuation_bytes]. rewrite Hb. cbn [mbind option_bind].
  rewrite land_continuation by done. destruct ((0x80 <=? b) && (b <? 0xc0)); cbn [negb]; [|done].
  rewrite land_3f, shift_in by lia. done.
Qed.

(** The bytes of [input] from the first on. *)
Ltac byte_at H b :=
  let Hb := fresh "Hb" in
  assert (Hb : is_byte b) by (apply (proj1 (Forall_lookup _ _) H _ b eq_refl)); unfold is_byte in Hb.

Lemma encode_length cp : (1 <= length (utf8_encode cp) <= 4)%nat.
Proof. unfold utf8_encode. repeat case_match; cbn; lia. Qed.

(** A valid sequence at the front is recognised. *)
Lemma sequence_complete input available cp :
  scalar_value cp -> (length (utf8_encode cp) <= available)%nat ->
  take (length (utf8_encode cp)) input = utf8_encode cp ->
  utf8_sequence_length input available = Some (length (utf8_encode cp)).
Proof.
  intros [Hc Hs] Ha Ht. rewrite <- (take_drop (length (utf8_encode cp)) input), Ht. clear Ht.
  generalize (drop (length (utf8_encode cp)) input). intros rest. revert Ha.
  unfold utf8_encode, utf8_sequence_length.
  destruct (Z.ltb_spec cp 0x80); [|destruct (Z.ltb_spec cp 0x800); [|destruct (Z.ltb_spec cp 0x10000)]];
    cbn [app length lookup list_lookup mbind option_bind]; intros Ha.
  - by rewrite (proj2 (Z.ltb_lt cp 0x80)).
  - rewrite (proj2 (Z.ltb_ge _ 0x80)), (proj2 (Z.leb_le 0xc2 _)), (proj2 (Z.leb_le _ 0xdf)) by lia.
    cbn [andb Nat.sub]. rewrite (proj2 (Nat.ltb_ge _ _)) by lia.
    erewrite continuation_step; [|done|unfold is_byte; lia|rewrite land_1f; lia].
    rewrite (proj2 (Z.leb_le 0x80 _)), (proj2 (Z.ltb_lt _ 0xc0)) by lia. cbn [andb continuation_bytes mbind option_bind].
    rewrite land_1f. set (v := _ * 64 + _). assert (Hv : v = cp) by (unfold v; lia). rewrite Hv.
    cbn [Nat.eqb andb orb].
    destruct (Z.leb_spec 0xd800 cp), (Z.leb_spec cp 0xdfff), (Z.ltb_spec 0x10ffff cp); cbn; (done || lia).
  - rewrite (proj2 (Z.ltb_ge _ 0x80)) by lia.
    replace ((0xc2 <=? 0xe0 + cp / 4096) && (0xe0 + cp / 4096 <=? 0xdf)) with false
      by (symmetry; apply andb_false_iff; right; apply Z.leb_gt; lia).
    rewrite (proj2 (Z.leb_le 0xe0 _)), (proj2 (Z.leb_le _ 0xef)) by lia.
    cbn [andb Nat.sub]. rewrite (proj2 (Nat.ltb_ge _ _)) by lia. rewrite land_0f.
    do 2 (erewrite continuation_step; [|done|unfold is_byte; lia|lia];
      rewrite (proj2 (Z.leb_le 0x80 _)), (proj2 (Z.ltb_lt _ 0xc0)) by lia; cbn [andb]).
    cbn [continuation_bytes mbind option_bind].
    set (v := _ * 64 + _). assert (Hv : v = cp) by (unfold v; lia). rewrite Hv.
    cbn [Nat.eqb andb orb]. rewrite (proj2 (Z.ltb_ge cp 0x800)) by lia.
    destruct (Z.leb_spec 0xd800 cp), (Z.leb_spec cp 0xdfff), (Z.ltb_spec 0x10ffff cp); cbn; (done || lia).
  - rewrite (proj2 (Z.ltb_ge _ 0x80)) by lia.
    replace ((0xc2 <=? 0xf0 + cp / 262144) && (0xf0 + cp / 262144 <=? 0xdf)) with false
      by (symmetry; apply andb_false_iff; right; apply Z.leb_gt; lia).
    replace ((0xe0 <=? 0xf0 + cp / 262144) && (0xf0 + cp / 262144 <=? 0xef)) with false
      by (symmetry; apply andb_false_iff; right; apply Z.leb_gt; lia).
    rewrite (proj2 (Z.leb_le 0xf0 _)), (proj2 (Z.leb_le _ 0xf4)) by lia.
    cbn [andb Nat.sub]. rewrite (proj2 (Nat.ltb_ge _ _)) by lia. rewrite land_07.
    do 3 (erewrite continuation_step; [|done|unfold is_byte; lia|lia];
      rewrite (proj2 (Z.leb_le 0x80 _)), (proj2 (Z.ltb_lt _ 0xc0)) by lia; cbn [andb]).
    cbn [continuation_bytes mbind option_bind].
    set (v := _ * 64 + _). assert (Hv : v = cp) by (unfold v; lia). rewrite Hv.
    cbn [Nat.eqb andb orb]. rewrite (proj2 (Z.ltb_ge cp 0x10000)) by lia.
    destruct (Z.leb_spec 0xd800 cp), (Z.leb_spec cp 0xdfff), (Z.ltb_spec 0x10ffff cp); cbn; (done || lia).
Qed.

(** The continuation loop: it stays in the input, and when it succeeds the bytes
    are continuation bytes that spell out the result. *)
Lemma continuation_sound input index count cp :
  Forall is_byte input -> (index + count <= length input)%nat -> (count <= 3)%nat ->
  0 <= cp < 32 ->
  exists r, continuation_bytes input index count cp = Some r /\
    forall cp', r = Some cp' -> exists l, take count (drop index input) = l /\
      Forall (fun b => 0x80 <= b < 0xc0) l /\ length l = count /\
      cp' = foldl (fun acc b => acc * 64 + b mod 64) cp l.
Proof.
  intros Hin Hlen Hc Hcp.
  assert (Hcp' : 0 <= cp < 32 * 64 ^ (3 - Z.of_nat count)).
  { assert (1 <= 64 ^ (3 - Z.of_nat count)); [|lia].
    apply (Z.pow_le_mono_r 64 0 (3 - Z.of_nat count)); lia. }
  clear Hcp. revert index cp Hlen Hc Hcp'. induction count as [|count IH]; intros index cp Hlen Hc Hcp.
  { eexists. split; [done|]. intros cp' [= <-]. exists []. by repeat constructor. }
  destruct (lookup_lt_is_Some_2 input index) as [b Hb]; [lia|].
  pose proof (proj1 (Forall_lookup _ _) Hin _ _ Hb) as Hbyte.
  assert (Hcap : 0 <= cp < 67108864).
  { assert (64 ^ (3 - Z.of_nat (S count)) <= 64 ^ 2) by (apply Z.pow_le_mono_r; lia). lia. }
  rewrite (continuation_step _ _ _ _ b Hb Hbyte Hcap).
  destruct ((0x80 <=? b) && (b <? 0xc0)) eqn:E; [|by eexists].
  bool_cases. rewrite Z.leb_le, Z.ltb_lt in *.
  destruct (IH (S index) (cp * 64 + b mod 64)) as (r & Hr & Hsound); [lia|lia| |].
  { replace (3 - Z.of_nat count) with (1 + (3 - Z.of_nat (S count))) by lia.
    rewrite Z.pow_add_r by lia. lia. }
  exists r. split; [done|]. intros cp' ->. destruct (Hsound cp' eq_refl) as (l & Hl & Hf & Hn & Hv).
  exists (b :: l). rewrite (drop_S _ _ _ Hb). cbn [take]. rewrite Hl. split_and!; try done; [|cbn; lia].
  by constructor.
Qed.

(** Which leading byte announces how many bytes, and their first bits. *)
Definition leads (b0 cp : Z) (n : nat) : Prop :=
  (n = 2%nat /\ 0xc2 <= b0 <= 0xdf /\ cp = b0 - 0xc0) \/
  (n = 3%nat /\ 0xe0 <= b0 <= 0xef /\ cp = b0 - 0xe0) \/
  (n = 4%nat /\ 0xf0 <= b0 <= 0xf4 /\ cp = b0 - 0xf0).

(** A decoded code point that passes the range checks is encoded by the bytes. *)
Lemma decoded_encode b0 cp n l cp' :
  leads b0 cp n -> Forall (fun b => 0x80 <= b < 0xc0) l -> length l = (n - 1)%nat ->
  cp' = foldl (fun acc b => acc * 64 + b mod 64) cp l ->
  (n <> 3%nat \/ 0x800 <= cp') -> (n <> 4%nat \/ 0x10000 <= cp') ->
  (cp' < 0xd800 \/ 0xdfff < cp') -> cp' <= 0x10ffff ->
  scalar_value cp' /\ length (utf8_encode cp') = n /\ b0 :: l = utf8_encode cp'.
Proof.
  intros Hlead Hf Hll Hv H3 H4 Hsur Hmax.
  destruct Hlead as [(-> & Hb & ->)|[(-> & Hb & ->)|(-> & Hb & ->)]]; cbn in Hll;
    (destruct l as [|b1 [|b2 [|b3 [|? ?]]]]; try discriminate Hll);
    rewrite !Forall_cons in Hf; cbn [foldl] in Hv.
  - assert (Hcp : cp' = (b0 - 0xc0) * 64 + (b1 - 0x80)) by lia.
    split; [unfold scalar_value; lia|]. unfold utf8_encode.
    rewrite (proj2 (Z.ltb_ge cp' 0x80)), (proj2 (Z.ltb_lt cp' 0x800)) by lia.
    split; [done|]. repeat f_equal; lia.
  - assert (Hcp : cp' = (b0 - 0xe0) * 4096 + (b1 - 0x80) * 64 + (b2 - 0x80)) by lia.
    split; [unfold scalar_value; lia|]. unfold utf8_encode.
    rewrite (proj2 (Z.ltb_ge cp' 0x80)), (proj2 (Z.ltb_ge cp' 0x800)), (proj2 (Z.ltb_lt cp' 0x10000)) by lia.
    split; [done|]. repeat f_equal; lia.
  - assert (Hcp : cp' = (b0 - 0xf0) * 262144 + (b1 - 0x80) * 4096 + (b2 - 0x80) * 64 + (b3 - 0x80)) by lia.
    split; [unfold scalar_value; lia|]. unfold utf8_encode.
    rewrite (proj2 (Z.ltb_ge cp' 0x80)), (proj2 (Z.ltb_ge cp' 0x800)), (proj2 (Z.ltb_ge cp' 0x10000)) by lia.
    split; [done|]. repeat f_equal; lia.
Qed.

(** What is recognised is a valid sequence, and nothing outside is read. *)
Lemma sequence_sound input available :
  Forall is_byte input -> (0 < available <= length input)%nat ->
  exists n, utf8_sequence_length input available = Some n /\
    (n <> 0%nat -> (n <= available)%nat /\
     exists cp, scalar_value cp /\ length (utf8_encode cp) = n /\ take n input = utf8_encode cp).
Proof.
  intros Hin Ha. destruct input as [|b0 rest]; [cbn in Ha; lia|].
  apply Forall_cons in Hin as [Hb0 Hrest]. unfold is_byte in Hb0.
  unfold utf8_sequence_length. cbn [lookup list_lookup mbind option_bind].
  destruct (Z.ltb_spec b0 0x80) as [H0|H0].
  { eexists. split; [done|]. intros _. split; [lia|]. exists b0. unfold scalar_value, utf8_encode.
    rewrite (proj2 (Z.ltb_lt b0 0x80)) by lia. split_and!; try done; lia. }
  set (lead := if (0xc2 <=? b0) && (b0 <=? 0xdf) then _ else _).
  assert (Hlead : forall cp n, lead = Some (cp, n) -> leads b0 cp n).
  { unfold lead, leads. rewrite land_1f, land_0f, land_07. intros cp n.
    destruct (Z.leb_spec 0xc2 b0), (Z.leb_spec b0 0xdf), (Z.leb_spec 0xe0 b0), (Z.leb_spec b0 0xef),
      (Z.leb_spec 0xf0 b0), (Z.leb_spec b0 0xf4); cbn [andb]; intros [= <- <-]; lia. }
  destruct lead as [[cp n]|]; [|by eexists]. specialize (Hlead cp n eq_refl).
  destruct (Nat.ltb_spec available n) as [Hn|Hn]; [by eexists|].
  destruct (continuation_sound (b0 :: rest) 1 (n - 1) cp) as (r & -> & Hr);
    [by constructor | unfold leads in Hlead; cbn in *; lia.. |]. cbn [mbind option_bind].
  destruct r as [cp'|]; [|by eexists]. destruct (Hr cp' eq_refl) as (l & Hl & Hf & Hll & Hv).
  cbn [drop] in Hl. eexists. split; [done|]. case_match eqn:Hchk; [done|]. intros _. split; [done|].
  repeat (apply orb_false_iff in Hchk as [Hchk ?]).
  rewrite ?andb_false_iff, ?Z.ltb_ge, ?Z.leb_gt, ?Nat.eqb_neq in *.
  exists cp'. assert (Hn1 : (1 < n)%nat) by (unfold leads in Hlead; lia). assert (Htake : take n (b0 :: rest) = b0 :: l).
  { replace n with (S (n - 1)) by lia. cbn [take]. by rewrite <- Hl, drop_0. }
  rewrite Htake.
  by apply (decoded_encode b0 cp n l); tauto.
Qed.

(** ** The copy *)

Section copy.
Context (s : cstring) (limit : nat).
Hypothesis s_bytes : Forall (fun b => 0 < b < 256) s.

(** What is copied up to [n]: whole sequences. *)
Definition copied (n : nat) (out : list Z) : Prop :=
  (n <= length s)%nat /\ (n <= limit)%nat /\ (n < length out)%nat /\ take n out = take n s /\
  exists cps, Forall scalar_value cps /\ take n s = concat (map utf8_encode cps).

(** No further sequence fits. *)
Definition maximal (n size : nat) : Prop :=
  forall cp, scalar_value cp -> utf8_encode cp `prefix_of` drop n s ->
    (limit < n + length (utf8_encode cp))%nat \/ (size <= n + length (utf8_encode cp))%nat.

Lemma prefix_at_end n cp : (length s <= n)%nat -> ~ utf8_encode cp `prefix_of` drop n s.
Proof using.
  intros Hn Hp. rewrite drop_ge in Hp by done. apply prefix_nil_inv in Hp.
  pose proof (encode_length cp) as Hl. rewrite Hp in Hl. cbn in Hl. lia.
Qed.

Lemma with_nul_bytes n : (n <= length s)%nat -> Forall is_byte (drop n (with_nul s)).
Proof using s_bytes.
  intros Hn. apply Forall_drop. apply Forall_app. split; [|by repeat constructor].
  eapply Forall_impl; [exact s_bytes|]. unfold is_byte. cbn. lia.
Qed.

Lemma take_with_nul n k : (n + k <= length s)%nat -> take k (drop n (with_nul s)) = take k (drop n s).
Proof using.
  intros H. unfold with_nul. rewrite drop_app_le by lia. apply take_app_le. rewrite length_drop. lia.
Qed.

Lemma copy_sequences_ok fuel n out :
  copied n out -> (length s - n < fuel)%nat ->
  exists n' out', copy_sequences fuel s limit n n out = Some (n', out') /\
    copied n' out' /\ length out' = length out /\ maximal n' (length out).
Proof using s_bytes.
  revert n out. induction fuel as [|fuel IH]; intros n out Hc Hf; [lia|]. cbn [copy_sequences].
  pose proof Hc as (Hs & Hl & Hout & Ht & cps & Hcps & Hcat).
  destruct (Nat.ltb_spec n (length s)) as [Hn|Hn]; cbn [andb].
  2: { exists n, out. split_and!; try done. intros cp _ Hp. by destruct (prefix_at_end n cp Hn). }
  destruct (Nat.ltb_spec n limit) as [Hnl|Hnl].
  2: { exists n, out. split_and!; try done. intros cp _ _. left. pose proof (encode_length cp). lia. }
  assert (Hlen : length (drop n (with_nul s)) = S (length s - n))
    by (unfold with_nul; rewrite length_drop, length_app; cbn; lia).
  destruct (sequence_sound (drop n (with_nul s)) (length s - n)) as (k & Hk & Hsound);
    [by apply with_nul_bytes, Nat.lt_le_incl | lia |].
  rewrite Hk. cbn [mbind option_bind].
  assert (Hcomplete : forall cp, scalar_value cp -> utf8_encode cp `prefix_of` drop n s ->
    k = length (utf8_encode cp)).
  { intros cp Hsc [l Hp]. assert (Hlp : (length (utf8_encode cp) <= length s - n)%nat).
    { rewrite <- length_drop, Hp, length_app. lia. }
    pose proof (sequence_complete (drop n (with_nul s)) (length s - n) cp Hsc Hlp) as Hx.
    rewrite Hk in Hx. rewrite take_with_nul in Hx by lia. rewrite Hp, take_app_length in Hx.
    specialize (Hx eq_refl). by injection Hx. }
  destruct (Nat.eqb_spec k 0) as [Hk0|Hk0]; cbn [orb].
  { exists n, out. split_and!; try done. intros cp Hsc Hp. pose proof (encode_length cp).
    specialize (Hcomplete cp Hsc Hp). lia. }
  destruct (Nat.ltb_spec limit (n + k)) as [H1|H1]; cbn [orb].
  { exists n, out. split_and!; try done. intros cp Hsc Hp. left. by rewrite <- (Hcomplete cp Hsc Hp). }
  destruct (Nat.leb_spec (length out) (n + k)) as [H2|H2].
  { exists n, out. split_and!; try done. intros cp Hsc Hp. right. by rewrite <- (Hcomplete cp Hsc Hp). }
  destruct (Hsound Hk0) as (Hka & cp & Hsc & Hkl & Htk). rewrite take_with_nul in * by lia.
  destruct (buf_write_spec n (take k (drop n s)) out) as (out' & -> & Hlo & Hto & _).
  { rewrite Htk. lia. }
  cbn [mbind option_bind]. rewrite Htk, Hkl in Hto.
  assert (Hadd : take (n + k) s = take n s ++ utf8_encode cp)
    by (rewrite <- Htk; by rewrite take_take_drop).
  destruct (IH (n + k)%nat out') as (n' & out2 & Hr & Hc' & Hl' & Hm); [|lia|].
  { split_and!; [lia | lia | lia | by rewrite Hto, Hadd, Ht |]. exists (cps ++ [cp]).
    split; [apply Forall_app; split; [done | by constructor]|].
    rewrite Hadd, Hcat, map_app, concat_app. cbn. by rewrite app_nil_r. }
  exists n', out2. rewrite Hr, Hlo in *. by split_and!.
Qed.
End copy.

(** The copied prefix is whole, safe and as long as possible: for every
    C string and every non-empty buffer the copy returns without reading or
    writing outside them; the buffer then holds, NUL-terminated, the first [n]
    bytes of the input, [n] being the result; they are a sequence of complete
    UTF-8 encodings of Unicode scalar values, within the byte limit; and no
    further encoding of the input would have fitted the limit and the buffer. *)
Theorem utf8_prefix_whole_and_maximal (out : list Z) (s : cstring) (limit : nat)
    (Hs : Forall (fun b => 0 < b < 256) s) (Hout : out <> []) :
  exists n out' cps,
    player_utf8_copy_prefix (Some out) (Some s) limit = Some (n, Some out') /\
    length out' = length out /\ cstr_of out' = take n s /\ (n <= length s)%nat /\
    Forall scalar_value cps /\ take n s = concat (map utf8_encode cps) /\
    (n <= limit)%nat /\ (n < length out)%nat /\
    forall cp, scalar_value cp -> utf8_encode cp `prefix_of` drop n s ->
      (limit < n + length (utf8_encode cp))%nat \/ (length out <= n + length (utf8_encode cp))%nat.
Proof.
  unfold player_utf8_copy_prefix. assert (Hl : (0 < length out)%nat) by (destruct out; [done | cbn; lia]).
  rewrite (proj2 (Nat.eqb_neq (length out) 0)) by lia.
  destruct (buf_write_spec 0 [0] out ltac:(cbn; lia)) as (out0 & -> & Hl0 & _). cbn [mbind option_bind].
  destruct (copy_sequences_ok s limit Hs (S (length s)) 0 out0) as (n & out1 & -> & Hc & Hl1 & Hm).
  { split_and!; [lia | lia | lia | done |]. exists []. by split. }
  { lia. }
  cbn [mbind option_bind]. destruct Hc as (H1 & H2 & H3 & H4 & cps & H5 & H6).
  destruct (buf_write_spec n [0] out1 ltac:(cbn; lia)) as (out2 & -> & Hl2 & Ht2 & Hn2).
  cbn [mbind option_bind]. exists n, out2, cps. rewrite Hl0 in Hm. split_and!; try done; try congruence; try lia.
  assert (Hlt : length (take n s) = n) by (rewrite length_take; lia).
  apply cstr_of_prefix.
  - apply Forall_take. eapply Forall_impl; [exact Hs|]. cbn. lia.
  - rewrite Hlt. rewrite <- H4. apply (f_equal (take n)) in Ht2. rewrite take_take in Ht2.
    rewrite Nat.min_l in Ht2 by (cbn; lia). rewrite Ht2, take_app_le by (rewrite length_take; lia).
    by rewrite take_take, Nat.min_id.
  - rewrite Hlt. by apply Hn2.
Qed.

(** Two characters of three bytes, a buffer for five bytes and the NUL. *)
Lemma utf8_prefix_whole_and_maximal_witness :
  let s := [0xe6; 0x97; 0xa5; 0xe6; 0x9c; 0xac] in
  let out := [7; 7; 7; 7; 7; 7] in
  exists n out' cps,
    player_utf8_copy_prefix (Some out) (Some s) 100 = Some (n, Some out') /\
    length out' = length out /\ cstr_of out' = take n s /\ (n <= length s)%nat /\
    Forall scalar_value cps /\ take n s = concat (map utf8_encode cps) /\
    (n <= 100)%nat /\ (n < length out)%nat /\
    forall cp, scalar_value cp -> utf8_encode cp `prefix_of` drop n s ->
      (100 < n + length (utf8_encode cp))%nat \/ (length out <= n + length (utf8_encode cp))%nat.
Proof.
  intros s out. apply (utf8_prefix_whole_and_maximal out s 100); [repeat constructor; lia | discriminate].
Defined.
