(* ===== verification/SeekTarget.v ===== *)
(** * Seek targets (player/seek_target.c)

    Parses the seek targets of the control protocols, "h:m:s.f", and formats
    positions the same way.  A range [start, end) of the source is the list of
    its bytes; [int] and [long long] values are integers whose bounds the
    definitions check where the source does. *)

From S2P Require Import Prelude CText.

Definition LLONG_MAX : Z := 9223372036854775807.
Definition INT_MAX : Z := 2147483647.

(** ** Parsing *)

(* src: source/player/seek_target.c skip_spaces *)
Fixpoint skip_spaces (text : cstring) : cstring :=
  match text with
  | c :: text' => if isspace c then skip_spaces text' else text
  | [] => []
  end.

(** The range up to the trimmed end. *)
(* src: source/player/seek_target.c trim_end *)
Definition trim_end (start : cstring) : cstring := reverse (skip_spaces (reverse start)).

(* src: source/player/seek_target.c 34-44 parse_unsigned_ll *)
Fixpoint parse_unsigned_loop (range : list Z) (value : Z) : option Z :=
  match range with
  | [] => Some value
  | c :: range' =>
      if negb (isdigit c) then None
      else
        let digit := c - 48 in
        if Z.quot (LLONG_MAX - digit) 10 <? value then None
        else parse_unsigned_loop range' (value * 10 + digit)
  end.

(* src: source/player/seek_target.c parse_unsigned_ll *)
Definition parse_unsigned_ll (range : list Z) : option Z :=
  match range with
  | [] => None
  | _ => parse_unsigned_loop range 0
  end.

(** The loop over the digits: milliseconds, number of digits, rounding. *)
(* src: source/player/seek_target.c 64-78 parse_fraction_ms *)
Fixpoint parse_fraction_loop (range : list Z) (millis : Z) (digits : nat) : option (Z * nat * bool) :=
  match range with
  | [] => Some (millis, digits, false)
  | c :: range' =>
      if negb (isdigit c) then None
      else if (digits <? 3)%nat then parse_fraction_loop range' (millis * 10 + (c - 48)) (S digits)
      else Some (millis, digits, 53 <=? c)
  end.

(* src: source/player/seek_target.c parse_fraction_ms *)
Definition parse_fraction_ms (range : list Z) : option Z :=
  match range with
  | [] => Some 0
  | _ =>
      '(millis, digits, round_up) ← parse_fraction_loop range 0 0;
      let scaled := match digits with
                    | 1%nat => millis * 100
                    | 2%nat => millis * 10
                    | _ => millis
                    end in
      Some (if (round_up : bool) then scaled + 1 else scaled)
  end.

(** The sum, refused as soon as it exceeds [INT_MAX]. *)
(* src: source/player/seek_target.c 128-141 parse_hhmmss_ms *)
Definition total_milliseconds (hour minute second fraction_ms : Z) : option Z :=
  if Z.quot INT_MAX 3600000 <? hour then None
  else
    let total := hour * 3600000 in
    if Z.quot (INT_MAX - total) 60000 <? minute then None
    else
      let total := total + minute * 60000 in
      if Z.quot (INT_MAX - total) 1000 <? second then None
      else
        let total := total + second * 1000 in
        if INT_MAX - total <? fraction_ms then None
        else Some (total + fraction_ms).

(* src: source/player/seek_target.c parse_hhmmss_ms *)
Definition parse_hhmmss_ms (range : list Z) : option Z :=
  first_colon ← memchr 58 range;
  let after_first := drop (S first_colon) range in
  second_colon ← memchr 58 after_first;
  let after_second := drop (S second_colon) after_first in
  if bool_decide (is_Some (memchr 58 after_second)) then None
  else
    let dot := memchr 46 after_second in
    let seconds := match dot with Some d => take d after_second | None => after_second end in
    hour ← parse_unsigned_ll (take first_colon range);
    minute ← parse_unsigned_ll (take second_colon after_first);
    second ← parse_unsigned_ll seconds;
    fraction_ms ← match dot with
                  | Some d => parse_fraction_ms (drop (S d) after_second)
                  | None => Some 0
                  end;
    total_milliseconds hour minute second fraction_ms.

(** [parse_numeric_seconds_ms] reads the range with [strtod]; the binary
    floating-point of the C library is an argument here.  A NULL target is
    [None]. *)
(* src: source/player/seek_target.c player_seek_target_parse_ms *)
Definition player_seek_target_parse_ms (parse_numeric_seconds_ms : list Z -> option Z)
    (target : option cstring) : option Z :=
  match target with
  | None => None
  | Some target =>
      match skip_spaces target with
      | [] => None
      | start =>
          match trim_end start with
          | [] => None
          | range =>
              if bool_decide (is_Some (memchr 58 range)) then parse_hhmmss_ms range
              else parse_numeric_seconds_ms range
          end
      end
  end.

(** ** Formatting *)

(** [%02d] of a non-negative [int]. *)
Definition format_02d (n : Z) : list Z :=
  let d := decimal 10 n in if (length d <? 2)%nat then 48 :: d else d.

(** [None] when the allocation fails. *)
(* src: source/player/seek_target.c player_seek_target_format_hhmmss_alloc *)
Definition player_seek_target_format_hhmmss_alloc (position_ms : Z) (allocated : bool) : option cstring :=
  let position_ms := if position_ms <? 0 then 0 else position_ms in
  let total_seconds := Z.quot position_ms 1000 in
  let hour := Z.quot total_seconds 3600 in
  let minute := Z.quot (Z.rem total_seconds 3600) 60 in
  let second := Z.rem total_seconds 60 in
  if (allocated : bool)
  then Some (format_02d hour ++ 58 :: format_02d minute ++ 58 :: format_02d second) else None.

(** ** Lemmas *)

Lemma parse_unsigned_loop_sound l v r :
  0 <= v -> parse_unsigned_loop l v = Some r ->
  all_digits l /\ r = foldl (fun v c => v * 10 + (c - 48)) v l /\ v <= r.
Proof.
  revert v. induction l as [|c l IH]; cbn; intros v Hv H.
  { injection H as <-. split_and!; [constructor | done | lia]. }
  destruct (isdigit c) eqn:Hd; cbn in H; [|done]. apply isdigit_spec in Hd.
  destruct (_ <? v); [done|]. destruct (IH (v * 10 + (c - 48))) as (H1 & H2 & H3); [lia | done |].
  split_and!; [by constructor | done | lia].
Qed.

Lemma parse_unsigned_sound l r :
  parse_unsigned_ll l = Some r -> l <> [] /\ all_digits l /\ r = decimal_value l /\ 0 <= r.
Proof.
  unfold parse_unsigned_ll. destruct l as [|c l]; [done|]. intros H.
  destruct (parse_unsigned_loop_sound _ 0 r ltac:(lia) H) as (H1 & H2 & H3). by split_and!.
Qed.

Lemma fraction_loop_range l millis digits m d r :
  parse_fraction_loop l millis digits = Some (m, d, r) ->
  0 <= millis < 10 ^ Z.of_nat digits -> (digits <= 3)%nat ->
  0 <= m < 10 ^ Z.of_nat d /\ (d <= 3)%nat /\ (l <> [] -> 0 < d)%nat /\ (r = true -> d = 3%nat).
Proof.
  revert millis digits. induction l as [|c l IH]; cbn [parse_fraction_loop]; intros millis digits H Hm Hd.
  { injection H as <- <- <-. destruct Hm. by split_and!. }
  destruct (isdigit c) eqn:Hdig; cbn [negb] in H; [|done]. apply isdigit_spec in Hdig.
  destruct (Nat.ltb_spec digits 3).
  - destruct (IH (millis * 10 + (c - 48)) (S digits) H) as (H1 & H2 & H3 & H4); [|lia|].
    { rewrite Nat2Z.inj_succ, Z.pow_succ_r by lia. lia. }
    split_and!; try done; try lia. intros _. destruct l; [|by apply H3].
    cbn in H. injection H as _ <- _. lia.
  - injection H as <- <- <-. destruct Hm. split_and!; try done; lia.
Qed.

Lemma fraction_range l f : parse_fraction_ms l = Some f -> 0 <= f <= 1000.
Proof.
  unfold parse_fraction_ms. destruct l as [|c l]; [intros [= <-]; lia|].
  destruct (parse_fraction_loop (c :: l) 0 0) as [[[m d] r]|] eqn:E; [|done].
  destruct (fraction_loop_range _ _ _ _ _ _ E ltac:(lia) ltac:(lia)) as (H1 & H2 & H3 & H4).
  cbn [mbind option_bind]. intros [= <-]. specialize (H3 ltac:(discriminate)).
  destruct d as [|[|[|[|?]]]]; try lia; change (10 ^ Z.of_nat 1) with 10 in *;
    change (10 ^ Z.of_nat 2) with 100 in *; change (10 ^ Z.of_nat 3) with 1000 in *;
    destruct r; try lia; by specialize (H4 eq_refl).
Qed.

Lemma total_milliseconds_sound h m s f ms :
  0 <= h -> 0 <= m -> 0 <= s -> 0 <= f -> total_milliseconds h m s f = Some ms ->
  ms = ((h * 60 + m) * 60 + s) * 1000 + f /\ 0 <= ms <= INT_MAX.
Proof.
  intros Hh Hm Hs Hf. unfold total_milliseconds.
  destruct (_ <? h); [done|]. destruct (_ <? m); [done|]. destruct (_ <? s); [done|].
  destruct (Z.ltb_spec (INT_MAX - (h * 3600000 + m * 60000 + s * 1000)) f); [done|].
  intros [= <-]. lia.
Qed.

Lemma total_milliseconds_complete h m s f :
  0 <= h -> 0 <= m -> 0 <= s -> 0 <= f -> ((h * 60 + m) * 60 + s) * 1000 + f <= INT_MAX ->
  total_milliseconds h m s f = Some (((h * 60 + m) * 60 + s) * 1000 + f).
Proof.
  intros Hh Hm Hs Hf Hmax. unfold total_milliseconds, INT_MAX in *.
  rewrite (proj2 (Z.ltb_ge _ h)) by (Z.to_euclidean_division_equations; lia).
  rewrite (proj2 (Z.ltb_ge _ m)) by (Z.to_euclidean_division_equations; lia).
  rewrite (proj2 (Z.ltb_ge _ s)) by (Z.to_euclidean_division_equations; lia).
  rewrite (proj2 (Z.ltb_ge _ f)) by lia. f_equal. lia.
Qed.

(** *** Formatted numbers *)

(** What the round trip needs of the text of a component. *)
Definition component_ok (n : Z) : bool :=
  forallb isdigit (format_02d n) && bool_decide (parse_unsigned_ll (format_02d n) = Some n).

Lemma components_ok : forallb component_ok (seqZ 0 597) = true.
Proof. vm_compute. reflexivity. Qed.

Lemma component_spec n :
  0 <= n < 597 ->
  all_digits (format_02d n) /\ parse_unsigned_ll (format_02d n) = Some n.
Proof.
  intros Hn. pose proof components_ok as H. rewrite forallb_forall in H.
  assert (Hin : n ∈ seqZ 0 597) by (apply elem_of_seqZ; lia).
  apply list_elem_of_In in Hin. specialize (H n Hin).
  unfold component_ok in H. apply andb_true_iff in H as [H1 H2].
  split; [|by apply bool_decide_eq_true in H2].
  apply Forall_forall. intros c Hc. rewrite forallb_forall in H1. apply isdigit_spec, H1.
  by apply list_elem_of_In.
Qed.

Lemma digits_not_in c l : all_digits l -> (c < 48 \/ 57 < c) -> c ∉ l.
Proof. intros Hd Hc Hin. apply (proj1 (list.Forall_forall _ _) Hd) in Hin. lia. Qed.

Lemma skip_spaces_digits c l : 48 <= c <= 58 -> skip_spaces (c :: l) = c :: l.
Proof.
  intros Hc. cbn. unfold isspace. rewrite (proj2 (Z.leb_gt c 13)) by lia.
  rewrite (proj2 (Z.eqb_neq c 32)) by lia. by rewrite andb_false_r.
Qed.

Lemma format_02d_cons n : 0 <= n < 597 -> exists c l, format_02d n = c :: l /\ 48 <= c <= 57.
Proof.
  intros Hn. destruct (component_spec n Hn) as [Hd Hp]. destruct (format_02d n) as [|c l]; [done|].
  exists c, l. split; [done|]. by apply Forall_cons in Hd as [? _].
Qed.

(** A text whose last byte is a digit ends where it ends. *)
Lemma trim_end_digits l d : d <> [] -> all_digits d -> trim_end (l ++ d) = l ++ d.
Proof.
  intros Hne Hd. unfold trim_end. rewrite reverse_app. destruct (reverse d) as [|x t] eqn:Er.
  { by apply (f_equal reverse) in Er; rewrite reverse_involutive in Er. }
  assert (Hx : x ∈ d) by (rewrite <- elem_of_reverse, Er; by left).
  apply (proj1 (list.Forall_forall _ _) Hd) in Hx. cbn [app].
  rewrite skip_spaces_digits by lia. rewrite app_comm_cons, <- Er, <- reverse_app. apply reverse_involutive.
Qed.

Lemma drop_past (l r : list Z) c : drop (S (length l)) (l ++ c :: r) = r.
Proof. by induction l. Qed.

(** A text of three components and no fraction. *)
Lemma parse_hhmmss_complete (H M S : list Z) h m s :
  58 ∉ H -> 58 ∉ M -> 58 ∉ S -> 46 ∉ S ->
  parse_unsigned_ll H = Some h -> parse_unsigned_ll M = Some m -> parse_unsigned_ll S = Some s ->
  parse_hhmmss_ms (H ++ 58 :: M ++ 58 :: S) = total_milliseconds h m s 0.
Proof.
  intros H1 H2 H3 H4 Ph Pm Ps. unfold parse_hhmmss_ms. rewrite memchr_app by done.
  cbn [mbind option_bind]. rewrite take_app_length.
  rewrite drop_past.
  rewrite memchr_app by done. cbn [mbind option_bind]. rewrite take_app_length.
  rewrite drop_past.
  rewrite !memchr_none by done. rewrite bool_decide_eq_false_2 by by intros [].
  by rewrite Ph, Pm, Ps.
Qed.

(** A text of three formatted components is parsed back. *)
Lemma parse_components h m s numeric :
  0 <= h < 597 -> 0 <= m < 60 -> 0 <= s < 60 -> ((h * 60 + m) * 60 + s) * 1000 <= INT_MAX ->
  player_seek_target_parse_ms numeric
    (Some (format_02d h ++ 58 :: format_02d m ++ 58 :: format_02d s)) =
    Some (((h * 60 + m) * 60 + s) * 1000).
Proof.
  intros Hh Hm Hs Hmax. destruct (component_spec h Hh) as [Dh Ph].
  destruct (component_spec m ltac:(lia)) as [Dm Pm]. destruct (component_spec s ltac:(lia)) as [Ds Ps].
  destruct (format_02d_cons h Hh) as (c & l & Eh & Hcd).
  destruct (format_02d_cons s ltac:(lia)) as (c' & l' & Es & _).
  unfold player_seek_target_parse_ms. set (text := format_02d h ++ _).
  assert (Hskip : skip_spaces text = text)
    by (unfold text; rewrite Eh; cbn [app]; apply skip_spaces_digits; lia).
  assert (Htrim : trim_end text = text).
  { unfold text. rewrite cons_middle, app_assoc, (cons_middle 58 (format_02d m)), !app_assoc.
    apply trim_end_digits; [by rewrite Es | done]. }
  assert (Hne : exists x t, text = x :: t) by (unfold text; rewrite Eh; by eexists _, _).
  destruct Hne as (x & t & Hxt). rewrite Hskip, Hxt, <- Hxt, Htrim, Hxt, <- Hxt.
  rewrite bool_decide_eq_true_2.
  - unfold text. rewrite (parse_hhmmss_complete _ _ _ h m s); try done;
      try (apply digits_not_in; (done || lia)).
    rewrite total_milliseconds_complete by lia. f_equal. lia.
  - unfold text. rewrite memchr_app by (apply digits_not_in; (done || lia)). by eexists.
Qed.

(** ** Properties *)

(** Seek targets survive a round trip: the text made from any non-negative
    position is accepted by the parser, whatever the numeric parser does, and
    denotes the position rounded down to a second. *)
Theorem seek_target_roundtrip (ms : Z) (numeric : list Z -> option Z) (Hms : 0 <= ms <= INT_MAX) :
  exists text, player_seek_target_format_hhmmss_alloc ms true = Some text /\
    player_seek_target_parse_ms numeric (Some text) = Some (ms / 1000 * 1000).
Proof.
  unfold player_seek_target_format_hhmmss_alloc. rewrite (proj2 (Z.ltb_ge ms 0)) by lia.
  eexists. split; [done|]. unfold INT_MAX in *.
  assert (Hdiv : Z.quot ms 1000 = ms / 1000) by (apply Z.quot_div_nonneg; lia). rewrite Hdiv.
  set (t := ms / 1000). assert (Ht : 0 <= t <= 2147483) by lia.
  rewrite parse_components; unfold INT_MAX; [f_equal|..]; Z.to_euclidean_division_equations; lia.
Qed.

Lemma seek_target_roundtrip_witness :
  exists text, player_seek_target_format_hhmmss_alloc 3723999 true = Some text /\
    player_seek_target_parse_ms (fun _ => None) (Some text) = Some (3723999 / 1000 * 1000).
Proof. apply (seek_target_roundtrip 3723999). unfold INT_MAX. lia. Defined.

(** A clock text that is accepted has the value it spells: the parser accepts
    only three non-empty groups of decimal digits separated by colons, perhaps
    with a fraction after the seconds, and returns hours, minutes, seconds and a
    fraction of at most a second added up in milliseconds, never more than
    [INT_MAX]: no accepted target overflows. *)
Theorem seek_target_value (range : list Z) (ms : Z) (Hparse : parse_hhmmss_ms range = Some ms) :
  exists H M S rest f,
    range = H ++ 58 :: M ++ 58 :: S ++ rest /\
    H <> [] /\ M <> [] /\ S <> [] /\ all_digits H /\ all_digits M /\ all_digits S /\
    (rest = [] /\ f = 0 \/ head rest = Some 46 /\ 0 <= f <= 1000) /\
    ms = ((decimal_value H * 60 + decimal_value M) * 60 + decimal_value S) * 1000 + f /\
    0 <= ms <= INT_MAX.
Proof.
  unfold parse_hhmmss_ms in Hparse.
  destruct (memchr 58 range) as [i|] eqn:Ei; [|done]. cbn [mbind option_bind] in Hparse.
  destruct (memchr_some _ _ _ Ei) as [Hr1 _]. set (r1 := drop (S i) range) in *.
  destruct (memchr 58 r1) as [j|] eqn:Ej; [|done]. cbn [mbind option_bind] in Hparse.
  destruct (memchr_some _ _ _ Ej) as [Hr2 _]. set (r2 := drop (S j) r1) in *.
  destruct (bool_decide (is_Some (memchr 58 r2))); [done|].
  destruct (parse_unsigned_ll (take i range)) as [h|] eqn:Ph; [|done]. cbn [mbind option_bind] in Hparse.
  destruct (parse_unsigned_ll (take j r1)) as [m|] eqn:Pm; [|done]. cbn [mbind option_bind] in Hparse.
  destruct (parse_unsigned_sound _ _ Ph) as (Nh & Dh & -> & Hh).
  destruct (parse_unsigned_sound _ _ Pm) as (Nm & Dm & -> & Hm).
  assert (Hend : exists S rest f s, r2 = S ++ rest /\ parse_unsigned_ll S = Some s /\
    (rest = [] /\ f = 0 \/ head rest = Some 46 /\ 0 <= f <= 1000) /\ 0 <= f /\
    total_milliseconds (decimal_value (take i range)) (decimal_value (take j r1)) s f = Some ms).
  { destruct (memchr 46 r2) as [d|] eqn:Ed.
    - destruct (parse_unsigned_ll (take d r2)) as [s|] eqn:Ps; [|done]. cbn [mbind option_bind] in Hparse.
      destruct (parse_fraction_ms (drop (S d) r2)) as [f|] eqn:Pf; [|done]. cbn [mbind option_bind] in Hparse.
      pose proof (fraction_range _ _ Pf). destruct (memchr_some _ _ _ Ed) as [Hr3 _].
      exists (take d r2), (46 :: drop (S d) r2), f, s. split_and!; try done; [by right | lia].
    - destruct (parse_unsigned_ll r2) as [s|] eqn:Ps; [|done]. cbn [mbind option_bind] in Hparse.
      exists r2, [], 0, s. rewrite app_nil_r. split_and!; try done. by left. }
  destruct Hend as (Sec & rest & f & s & -> & Ps & Hrest & Hf & Htot).
  destruct (parse_unsigned_sound _ _ Ps) as (Ns & Ds & -> & Hs).
  destruct (total_milliseconds_sound _ _ _ _ _ Hh Hm Hs Hf Htot) as [-> Hb].
  destruct Hb as [Hb1 Hb2].
  exists (take i range), (take j r1), Sec, rest, f. rewrite <- Hr2, <- Hr1. by split_and!.
Qed.

Lemma seek_target_value_witness :
  exists H M S rest f,
    bytes "1:02:03.5" = H ++ 58 :: M ++ 58 :: S ++ rest /\
    H <> [] /\ M <> [] /\ S <> [] /\ all_digits H /\ all_digits M /\ all_digits S /\
    (rest = [] /\ f = 0 \/ head rest = Some 46 /\ 0 <= f <= 1000) /\
    3723500 = ((decimal_value H * 60 + decimal_value M) * 60 + decimal_value S) * 1000 + f /\
    0 <= 3723500 <= INT_MAX.
Proof. apply (seek_target_value (bytes "1:02:03.5") 3723500). vm_compute. reflexivity. Defined.

(** The fraction is not checked past its fourth digit: any bytes after it,
    a colon apart, are ignored and the target is accepted. *)
Theorem seek_target_ignores_fraction_tail (tail : list Z) (Htail : 58 ∉ tail) :
  parse_hhmmss_ms (bytes "0:00:01.0000" ++ tail) = Some 1000.
Proof.
  change (bytes "0:00:01.0000" ++ tail) with
    ([48] ++ 58 :: [48; 48] ++ 58 :: [48; 49] ++ 46 :: [48; 48; 48; 48] ++ tail).
  unfold parse_hhmmss_ms. rewrite memchr_app by set_solver. cbn [mbind option_bind]. rewrite drop_past.
  rewrite memchr_app by set_solver. cbn [mbind option_bind]. rewrite drop_past.
  rewrite memchr_none by set_solver. rewrite bool_decide_eq_false_2 by by intros [].
  rewrite memchr_app by set_solver. rewrite !take_app_length, drop_past. vm_compute. reflexivity.
Qed.

Lemma seek_target_ignores_fraction_tail_witness :
  parse_hhmmss_ms (bytes "0:00:01.0000" ++ bytes "junk") = Some 1000.
Proof. apply (seek_target_ignores_fraction_tail (bytes "junk")). vm_compute. set_solver. Defined.
