(* ===== verification/Plist.v ===== *)
(** * Binary property lists (protocol/airplay/protocol/plist.c)

    The values of AirPlay's messages, their constructors and containers, and the
    encoder.  A value is a tree: the source's nodes belong to one container at
    most, so that the guards on [parent] never meet an attached node here.  [alloc]
    says which allocations succeed, by their size; an access outside of an object
    is [Undefined].  Sizes of this file are natural numbers: they are those of
    existing objects. *)

From S2P Require Import Prelude Buffers Utf8.

(* src: source/protocol/airplay/protocol/plist.h AirPlayPlistType *)
Inductive AirPlayPlistType :=
  | AIRPLAY_PLIST_TYPE_INVALID
  | AIRPLAY_PLIST_TYPE_BOOL
  | AIRPLAY_PLIST_TYPE_UINT
  | AIRPLAY_PLIST_TYPE_REAL
  | AIRPLAY_PLIST_TYPE_STRING
  | AIRPLAY_PLIST_TYPE_DATA
  | AIRPLAY_PLIST_TYPE_ARRAY
  | AIRPLAY_PLIST_TYPE_DICT.

(* src: source/protocol/airplay/protocol/plist.h AirPlayPlistError *)
Inductive AirPlayPlistError :=
  | AIRPLAY_PLIST_OK
  | AIRPLAY_PLIST_ERROR_INVALID_ARGUMENT
  | AIRPLAY_PLIST_ERROR_INVALID_FORMAT
  | AIRPLAY_PLIST_ERROR_UNSUPPORTED_TYPE
  | AIRPLAY_PLIST_ERROR_LIMIT_EXCEEDED
  | AIRPLAY_PLIST_ERROR_OUT_OF_MEMORY.

Definition AIRPLAY_PLIST_MAX_BYTES : Z := 1024 * 1024.
Definition AIRPLAY_PLIST_MAX_DEPTH : nat := 32.
Definition AIRPLAY_PLIST_MAX_NODES : Z := 4096.
Definition AIRPLAY_PLIST_MAX_CONTAINER_ITEMS : Z := 1024.
Definition AIRPLAY_PLIST_MAX_STRING_BYTES : Z := 64 * 1024.
Definition AIRPLAY_PLIST_MAX_DATA_BYTES : Z := 512 * 1024.

(** A real number is the bits of its binary64 representation. *)
(* src: source/protocol/airplay/protocol/plist.c 13-39 AirPlayPlistValue *)
Inductive AirPlayPlistValue :=
  | PlistBool (boolean : bool)
  | PlistUint (integer : Z)
  | PlistReal (bits : Z)
  | PlistString (string : cstring)
  | PlistData (bytes : list Z)
  | PlistArray (items : list AirPlayPlistValue)
  | PlistDict (entries : list (cstring * AirPlayPlistValue)).

(** ** Answers *)

Inductive answer (A : Type) : Type :=
  | Returns (a : A)
  | Fails (e : AirPlayPlistError)
  | Undefined.
Arguments Returns {A} a.
Arguments Fails {A} e.
Arguments Undefined {A}.

#[export] Instance answer_ret : MRet answer := fun A a => Returns a.
#[export] Instance answer_bind : MBind answer := fun A B f m =>
  match m with Returns a => f a | Fails e => Fails e | Undefined => Undefined end.

(** [if (!m) { error = e; return false; }] *)
Definition or_fail {A} (e : AirPlayPlistError) (m : outcome A) : answer A :=
  match m with Done a => Returns a | Refused => Fails e | Stuck => Undefined end.

(** [if (!b) { error = e; return false; }] *)
Definition require (b : bool) (e : AirPlayPlistError) : answer unit :=
  if b then Returns tt else Fails e.

(** The sizes that are allocated, on a 64-bit target. *)
Definition sizeof_value : Z := 32.
Definition sizeof_entry : Z := 16.
Definition sizeof_pointer : Z := 8.
Definition sizeof_encode_object : Z := 40.

(** ** UTF-8 *)

(** The loop over the continuation bytes. *)
(* src: source/protocol/airplay/protocol/plist.c 466-472 plist_utf8_next *)
Fixpoint plist_continuation (text : list Z) (position count : nat) (codepoint : Z) : outcome Z :=
  match count with
  | O => Done codepoint
  | S count' =>
      next ← checked (text !! position);
      ensure (Z.land next 0xc0 =? 0x80);;
      plist_continuation text (S position) count' (Z.lor (u32 (Z.shiftl codepoint 6)) (Z.land next 0x3f))
  end.

(** The code point at [index] and the index after it. *)
(* src: source/protocol/airplay/protocol/plist.c plist_utf8_next *)
Definition plist_utf8_next (text : list Z) (len index : nat) : outcome (Z * nat) :=
  ensure (index <? len)%nat;;
  first ← checked (text !! index);
  if first <? 0x80 then
    ensure (negb (first =? 0));;
    Done (first, S index)
  else
    '(codepoint, count) ←
      (if Z.land first 0xe0 =? 0xc0 then
         ensure (negb (Z.land first 0x1f <? 2));; Done (Z.land first 0x1f, 1%nat)
       else if Z.land first 0xf0 =? 0xe0 then Done (Z.land first 0x0f, 2%nat)
       else if Z.land first 0xf8 =? 0xf0 then
         ensure (negb (4 <? Z.land first 0x07));; Done (Z.land first 0x07, 3%nat)
       else Refused);
    ensure (negb (len - index - 1 <? count)%nat);;
    codepoint ← plist_continuation text (S index) count codepoint;
    ensure (negb (((count =? 2)%nat && (codepoint <? 0x800)) ||
                  ((count =? 3)%nat && (codepoint <? 0x10000)) ||
                  (0x10ffff <? codepoint) || ((0xd800 <=? codepoint) && (codepoint <=? 0xdfff))));;
    Done (codepoint, (index + count + 1)%nat).

(** The loop, [fuel] rounds; each takes at least one byte. *)
(* src: source/protocol/airplay/protocol/plist.c 496-506 plist_utf8_measure *)
Fixpoint plist_measure_loop (fuel : nat) (text : cstring) (index : nat) (units : Z) (ascii : bool)
    : outcome (Z * bool) :=
  match fuel with
  | O => Stuck
  | S fuel' =>
      if negb (index <? length text)%nat then Done (units, ascii)
      else
        '(codepoint, index) ← plist_utf8_next (with_nul text) (length text) index;
        let ascii := if 0x80 <=? codepoint then false else ascii in
        let units := units + (if 0x10000 <=? codepoint then 2 else 1) in
        ensure (negb (AIRPLAY_PLIST_MAX_STRING_BYTES <? units));;
        plist_measure_loop fuel' text index units ascii
  end.

(** The number of UTF-16 units and whether the text is ASCII. *)
(* src: source/protocol/airplay/protocol/plist.c plist_utf8_measure *)
Definition plist_utf8_measure (text : cstring) : outcome (Z * bool) :=
  ensure (negb (AIRPLAY_PLIST_MAX_STRING_BYTES <? size text));;
  '(units, ascii) ← plist_measure_loop (S (length text)) text 0 0 true;
  ensure (negb (negb ascii && (AIRPLAY_PLIST_MAX_STRING_BYTES / 2 <? units)));;
  Done (units, ascii : bool).

Section allocation.
Context (alloc : Z -> bool).

(** ** Values *)

(* src: source/protocol/airplay/protocol/plist.c plist_string_duplicate *)
Definition plist_string_duplicate (value : cstring) : outcome cstring :=
  ensure (negb (AIRPLAY_PLIST_MAX_STRING_BYTES <? size value));;
  ensure (alloc (size value + 1));;
  Done value.

(* src: source/protocol/airplay/protocol/plist.c plist_new_value *)
Definition plist_new_value (v : AirPlayPlistValue) : outcome AirPlayPlistValue :=
  ensure (alloc sizeof_value);; Done v.

(* src: source/protocol/airplay/protocol/plist.c airplay_plist_new_bool *)
Definition airplay_plist_new_bool (value : bool) : outcome AirPlayPlistValue :=
  plist_new_value (PlistBool value).

(* src: source/protocol/airplay/protocol/plist.c airplay_plist_new_uint *)
Definition airplay_plist_new_uint (value : Z) : outcome AirPlayPlistValue :=
  plist_new_value (PlistUint value).

(* src: source/protocol/airplay/protocol/plist.c airplay_plist_new_real *)
Definition airplay_plist_new_real (bits : Z) : outcome AirPlayPlistValue :=
  plist_new_value (PlistReal bits).

(* src: source/protocol/airplay/protocol/plist.c airplay_plist_new_string *)
Definition airplay_plist_new_string (value : cstring) : outcome AirPlayPlistValue :=
  _ ← plist_utf8_measure value;
  copy ← plist_string_duplicate value;
  plist_new_value (PlistString copy).

(* src: source/protocol/airplay/protocol/plist.c airplay_plist_new_data *)
Definition airplay_plist_new_data (bytes : list Z) : outcome AirPlayPlistValue :=
  ensure (negb (AIRPLAY_PLIST_MAX_DATA_BYTES <? size bytes));;
  ensure (bool_decide (bytes = []) || alloc (size bytes));;
  plist_new_value (PlistData bytes).

(* src: source/protocol/airplay/protocol/plist.c airplay_plist_new_array *)
Definition airplay_plist_new_array : outcome AirPlayPlistValue := plist_new_value (PlistArray []).

(* src: source/protocol/airplay/protocol/plist.c airplay_plist_new_dict *)
Definition airplay_plist_new_dict : outcome AirPlayPlistValue := plist_new_value (PlistDict []).

(* src: source/protocol/airplay/protocol/plist.c airplay_plist_type *)
Definition airplay_plist_type (value : option AirPlayPlistValue) : AirPlayPlistType :=
  match value with
  | None => AIRPLAY_PLIST_TYPE_INVALID
  | Some (PlistBool _) => AIRPLAY_PLIST_TYPE_BOOL
  | Some (PlistUint _) => AIRPLAY_PLIST_TYPE_UINT
  | Some (PlistReal _) => AIRPLAY_PLIST_TYPE_REAL
  | Some (PlistString _) => AIRPLAY_PLIST_TYPE_STRING
  | Some (PlistData _) => AIRPLAY_PLIST_TYPE_DATA
  | Some (PlistArray _) => AIRPLAY_PLIST_TYPE_ARRAY
  | Some (PlistDict _) => AIRPLAY_PLIST_TYPE_DICT
  end.

(* src: source/protocol/airplay/protocol/plist.c airplay_plist_get_bool *)
Definition airplay_plist_get_bool (value : option AirPlayPlistValue) : option bool :=
  match value with Some (PlistBool b) => Some b | _ => None end.

(* src: source/protocol/airplay/protocol/plist.c airplay_plist_get_uint *)
Definition airplay_plist_get_uint (value : option AirPlayPlistValue) : option Z :=
  match value with Some (PlistUint n) => Some n | _ => None end.

(* src: source/protocol/airplay/protocol/plist.c airplay_plist_get_real *)
Definition airplay_plist_get_real (value : option AirPlayPlistValue) : option Z :=
  match value with Some (PlistReal bits) => Some bits | _ => None end.

(* src: source/protocol/airplay/protocol/plist.c airplay_plist_get_string *)
Definition airplay_plist_get_string (value : option AirPlayPlistValue) : option cstring :=
  match value with Some (PlistString s) => Some s | _ => None end.

(** Empty data has no memory: the pointer is null. *)
(* src: source/protocol/airplay/protocol/plist.c airplay_plist_get_data *)
Definition airplay_plist_get_data (value : option AirPlayPlistValue) : option (list Z) :=
  match value with Some (PlistData (b :: l)) => Some (b :: l) | _ => None end.

(** The array after the call. *)
(* src: source/protocol/airplay/protocol/plist.c airplay_plist_array_append *)
Definition airplay_plist_array_append (array item : option AirPlayPlistValue) : outcome AirPlayPlistValue :=
  match array, item with
  | Some (PlistArray items), Some item =>
      ensure (negb (AIRPLAY_PLIST_MAX_CONTAINER_ITEMS <=? size items));;
      ensure (alloc ((size items + 1) * sizeof_pointer));;
      Done (PlistArray (items ++ [item]))
  | _, _ => Refused
  end.

(* src: source/protocol/airplay/protocol/plist.c airplay_plist_array_size *)
Definition airplay_plist_array_size (array : option AirPlayPlistValue) : nat :=
  match array with Some (PlistArray items) => length items | _ => 0 end.

(* src: source/protocol/airplay/protocol/plist.c airplay_plist_array_get *)
Definition airplay_plist_array_get (array : option AirPlayPlistValue) (index : nat)
    : option AirPlayPlistValue :=
  match array with Some (PlistArray items) => items !! index | _ => None end.

(** The loop of [plist_dict_find] from [index] on. *)
(* src: source/protocol/airplay/protocol/plist.c 334-339 plist_dict_find *)
Fixpoint find_key (entries : list (cstring * AirPlayPlistValue)) (key : cstring) : option nat :=
  match entries with
  | [] => None
  | (k, _) :: entries' => if bool_decide (k = key) then Some 0%nat else S <$> find_key entries' key
  end.

(* src: source/protocol/airplay/protocol/plist.c plist_dict_find *)
Definition plist_dict_find (dict : option AirPlayPlistValue) (key : cstring) : option nat :=
  match dict with Some (PlistDict entries) => find_key entries key | _ => None end.

(** The dictionary after the call. *)
(* src: source/protocol/airplay/protocol/plist.c airplay_plist_dict_set *)
Definition airplay_plist_dict_set (dict : option AirPlayPlistValue) (key : cstring)
    (value : option AirPlayPlistValue) : outcome AirPlayPlistValue :=
  match dict, value with
  | Some (PlistDict entries), Some value =>
      _ ← plist_utf8_measure key;
      key_copy ← plist_string_duplicate key;
      match plist_dict_find dict key with
      | Some index =>
          Done (PlistDict (alter (fun '(k, _) => (k, value)) index entries))
      | None =>
          ensure (negb (AIRPLAY_PLIST_MAX_CONTAINER_ITEMS <=? size entries));;
          ensure (alloc ((size entries + 1) * sizeof_entry));;
          Done (PlistDict (entries ++ [(key_copy, value)]))
      end
  | _, _ => Refused
  end.

(* src: source/protocol/airplay/protocol/plist.c airplay_plist_dict_size *)
Definition airplay_plist_dict_size (dict : option AirPlayPlistValue) : nat :=
  match dict with Some (PlistDict entries) => length entries | _ => 0 end.

(* src: source/protocol/airplay/protocol/plist.c airplay_plist_dict_key_at *)
Definition airplay_plist_dict_key_at (dict : option AirPlayPlistValue) (index : nat) : option cstring :=
  match dict with Some (PlistDict entries) => fst <$> entries !! index | _ => None end.

(* src: source/protocol/airplay/protocol/plist.c airplay_plist_dict_value_at *)
Definition airplay_plist_dict_value_at (dict : option AirPlayPlistValue) (index : nat)
    : option AirPlayPlistValue :=
  match dict with Some (PlistDict entries) => snd <$> entries !! index | _ => None end.

(* src: source/protocol/airplay/protocol/plist.c airplay_plist_dict_get *)
Definition airplay_plist_dict_get (dict : option AirPlayPlistValue) (key : cstring)
    : option AirPlayPlistValue :=
  index ← plist_dict_find dict key;
  airplay_plist_dict_value_at dict index.
End allocation.
