(* ===== verification/PlistEncode.v ===== *)
(** * The property list encoder (plist.c, airplay_plist_encode)

    The encoder numbers the objects of a tree in depth-first order, writes them to
    a growing buffer, then their offsets and a trailer.  Its buffer is the bytes
    written so far and the size of the allocation behind them. *)

From S2P Require Import Prelude Buffers Plist.

Definition SIZE_MAX : Z := UINT64_MAX.

(* src: source/protocol/airplay/protocol/plist.c plist_size_add *)
Definition plist_size_add (left right : Z) : option Z :=
  if SIZE_MAX - left <? right then None else Some (left + right).

(* src: source/protocol/airplay/protocol/plist.c plist_size_multiply *)
Definition plist_size_multiply (left right : Z) : option Z :=
  if negb (left =? 0) && (SIZE_MAX / left <? right) then None else Some (left * right).

(** ** The buffer *)

(* src: source/protocol/airplay/protocol/plist.c 41-47 PlistBuffer *)
Record PlistBuffer := mkBuffer {
  contents : list Z;
  room : Z
}.

(** Doubling the capacity; [fuel] rounds are enough from 128 to the limit. *)
(* src: source/protocol/airplay/protocol/plist.c 529-537 plist_buffer_reserve *)
Fixpoint plist_buffer_grow (fuel : nat) (capacity required : Z) : answer Z :=
  match fuel with
  | O => Undefined
  | S fuel' =>
      if negb (capacity <? required) then Returns capacity
      else if AIRPLAY_PLIST_MAX_BYTES / 2 <? capacity then Returns AIRPLAY_PLIST_MAX_BYTES
      else plist_buffer_grow fuel' (capacity * 2) required
  end.

(** The bytes of [value], most significant first. *)
(* src: source/protocol/airplay/protocol/plist.c 571-572 plist_buffer_write_uint *)
Fixpoint uint_bytes (width : nat) (value : Z) : list Z :=
  match width with
  | O => []
  | S width' => u8 (Z.shiftr value (8 * Z.of_nat width')) :: uint_bytes width' value
  end.

(* src: source/protocol/airplay/protocol/plist.c plist_uint_width *)
Definition plist_uint_width (value : Z) : nat :=
  if value <=? 255 then 1 else if value <=? 65535 then 2 else if value <=? UINT32_MAX then 4 else 8.

(* src: source/protocol/airplay/protocol/plist.c plist_width_exponent *)
Definition plist_width_exponent (width : nat) : Z :=
  match width with 1%nat => 0 | 2%nat => 1 | 4%nat => 2 | _ => 3 end.

(** ** Objects *)

(** A numbered object: the key of a dictionary, or a value with the numbers of its
    children. *)
(* src: source/protocol/airplay/protocol/plist.c 49-56 PlistEncodeObject *)
Inductive PlistEncodeObject :=
  | KeyObject (key : cstring)
  | ValueObject (value : AirPlayPlistValue) (references : list Z).

Section allocation.
Context (alloc : Z -> bool).

(* src: source/protocol/airplay/protocol/plist.c plist_buffer_reserve *)
Definition plist_buffer_reserve (additional : Z) (buffer : PlistBuffer) : answer PlistBuffer :=
  required ← or_fail AIRPLAY_PLIST_ERROR_LIMIT_EXCEEDED
               (match plist_size_add (size (contents buffer)) additional with
                | Some required => ensure (negb (AIRPLAY_PLIST_MAX_BYTES <? required));; Done required
                | None => Refused
                end);
  if required <=? room buffer then Returns buffer
  else
    capacity ← plist_buffer_grow 16 (if room buffer =? 0 then 128 else room buffer) required;
    require (alloc capacity) AIRPLAY_PLIST_ERROR_OUT_OF_MEMORY;;
    Returns (mkBuffer (contents buffer) capacity).

(* src: source/protocol/airplay/protocol/plist.c plist_buffer_write *)
Definition plist_buffer_write (bytes : list Z) (buffer : PlistBuffer) : answer PlistBuffer :=
  buffer ← plist_buffer_reserve (size bytes) buffer;
  if room buffer <? size (contents buffer) + size bytes then Undefined
  else Returns (mkBuffer (contents buffer ++ bytes) (room buffer)).

(* src: source/protocol/airplay/protocol/plist.c plist_buffer_write_byte *)
Definition plist_buffer_write_byte (value : Z) (buffer : PlistBuffer) : answer PlistBuffer :=
  plist_buffer_write [value] buffer.

(** A width that is not between 1 and 8 sets no error; the encoder then reports
    an invalid format. *)
(* src: source/protocol/airplay/protocol/plist.c plist_buffer_write_uint *)
Definition plist_buffer_write_uint (value : Z) (width : nat) (buffer : PlistBuffer) : answer PlistBuffer :=
  require (negb ((width =? 0)%nat || (8 <? width)%nat)) AIRPLAY_PLIST_ERROR_INVALID_FORMAT;;
  plist_buffer_write (uint_bytes width value) buffer.

(* src: source/protocol/airplay/protocol/plist.c plist_buffer_write_marker_length *)
Definition plist_buffer_write_marker_length (marker len : Z) (buffer : PlistBuffer) : answer PlistBuffer :=
  if len <? 15 then plist_buffer_write_byte (u8 (Z.lor marker (u8 len))) buffer
  else
    let width := plist_uint_width len in
    buffer ← plist_buffer_write_byte (u8 (Z.lor marker 0x0f)) buffer;
    buffer ← plist_buffer_write_byte (u8 (Z.lor 0x10 (plist_width_exponent width))) buffer;
    plist_buffer_write_uint len width buffer.

(** The UTF-16 units of the text from [index] on, [fuel] code points at most. *)
(* src: source/protocol/airplay/protocol/plist.c 634-655 plist_encode_string *)
Fixpoint plist_encode_utf16 (fuel : nat) (text : cstring) (index : nat) (buffer : PlistBuffer)
    : answer PlistBuffer :=
  match fuel with
  | O => Undefined
  | S fuel' =>
      if negb (index <? length text)%nat then Returns buffer
      else
        '(codepoint, index) ← or_fail AIRPLAY_PLIST_ERROR_INVALID_ARGUMENT
                                (plist_utf8_next (with_nul text) (length text) index);
        buffer ←
          (if codepoint <? 0x10000 then plist_buffer_write_uint codepoint 2 buffer
           else
             let adjusted := codepoint - 0x10000 in
             let high := u16 (Z.lor 0xd800 (Z.shiftr adjusted 10)) in
             let low := u16 (Z.lor 0xdc00 (Z.land adjusted 0x3ff)) in
             buffer ← plist_buffer_write_uint high 2 buffer;
             plist_buffer_write_uint low 2 buffer);
        plist_encode_utf16 fuel' text index buffer
  end.

(* src: source/protocol/airplay/protocol/plist.c plist_encode_string *)
Definition plist_encode_string (text : cstring) (buffer : PlistBuffer) : answer PlistBuffer :=
  '(utf16_units, ascii) ← or_fail AIRPLAY_PLIST_ERROR_INVALID_ARGUMENT (plist_utf8_measure text);
  if ascii : bool then
    buffer ← plist_buffer_write_marker_length 0x50 (size text) buffer;
    plist_buffer_write text buffer
  else
    buffer ← plist_buffer_write_marker_length 0x60 utf16_units buffer;
    plist_encode_utf16 (S (length text)) text 0 buffer.

(** The number of the new object and the objects after it. *)
(* src: source/protocol/airplay/protocol/plist.c plist_encode_add_key *)
Definition plist_encode_add_key (key : cstring) (objects : list PlistEncodeObject)
    : answer (Z * list PlistEncodeObject) :=
  _ ← or_fail AIRPLAY_PLIST_ERROR_INVALID_ARGUMENT (plist_utf8_measure key);
  require (negb (AIRPLAY_PLIST_MAX_NODES <=? size objects)) AIRPLAY_PLIST_ERROR_LIMIT_EXCEEDED;;
  Returns (size objects, objects ++ [KeyObject key]).

(** The loops over the items, the keys and the values: one number for each. *)
(* src: source/protocol/airplay/protocol/plist.c 740-768 plist_encode_collect_value *)
Fixpoint collect_all {A} (collect : A -> list PlistEncodeObject -> answer (Z * list PlistEncodeObject))
    (items : list A) (objects : list PlistEncodeObject) : answer (list Z * list PlistEncodeObject) :=
  match items with
  | [] => Returns ([], objects)
  | item :: items' =>
      '(reference, objects) ← collect item objects;
      '(references, objects) ← collect_all collect items' objects;
      Returns (reference :: references, objects)
  end.

(** Every level takes one round, and deeper levels than the limit are refused. *)
(* src: source/protocol/airplay/protocol/plist.c plist_encode_collect_value *)
Fixpoint plist_encode_collect_value (fuel : nat) (value : AirPlayPlistValue) (depth : nat)
    (objects : list PlistEncodeObject) : answer (Z * list PlistEncodeObject) :=
  match fuel with
  | O => Undefined
  | S fuel' =>
      require (negb ((AIRPLAY_PLIST_MAX_DEPTH <? depth)%nat || (AIRPLAY_PLIST_MAX_NODES <=? size objects)))
        AIRPLAY_PLIST_ERROR_LIMIT_EXCEEDED;;
      let object_id := size objects in
      let objects := objects ++ [ValueObject value []] in
      reference_count ← or_fail AIRPLAY_PLIST_ERROR_LIMIT_EXCEEDED
        (match value with
         | PlistArray items => Done (size items)
         | PlistDict entries =>
             match plist_size_multiply (size entries) 2 with Some n => Done n | None => Refused end
         | _ => Done 0
         end);
      if reference_count =? 0 then Returns (object_id, objects)
      else
        require (negb (AIRPLAY_PLIST_MAX_CONTAINER_ITEMS * 2 <? reference_count))
          AIRPLAY_PLIST_ERROR_LIMIT_EXCEEDED;;
        require (alloc (reference_count * sizeof_pointer)) AIRPLAY_PLIST_ERROR_OUT_OF_MEMORY;;
        let collect item objects := plist_encode_collect_value fuel' item (S depth) objects in
        '(references, objects) ←
          match value with
          | PlistArray items => collect_all collect items objects
          | PlistDict entries =>
              '(keys, objects) ← collect_all plist_encode_add_key (map fst entries) objects;
              '(values, objects) ← collect_all collect (map snd entries) objects;
              Returns (keys ++ values, objects)
          | _ => Returns ([], objects)
          end;
        Returns (object_id, <[Z.to_nat object_id := ValueObject value references]> objects)
  end.

(* src: source/protocol/airplay/protocol/plist.c 808-812 plist_encode_object *)
Fixpoint write_references (references : list Z) (reference_size : nat) (buffer : PlistBuffer)
    : answer PlistBuffer :=
  match references with
  | [] => Returns buffer
  | reference :: references' =>
      buffer ← plist_buffer_write_uint reference reference_size buffer;
      write_references references' reference_size buffer
  end.

(* src: source/protocol/airplay/protocol/plist.c plist_encode_object *)
Definition plist_encode_object (object : PlistEncodeObject) (reference_size : nat) (buffer : PlistBuffer)
    : answer PlistBuffer :=
  match object with
  | KeyObject key => plist_encode_string key buffer
  | ValueObject value references =>
      match value with
      | PlistBool boolean => plist_buffer_write_byte (if boolean then 0x09 else 0x08) buffer
      | PlistUint integer =>
          let width := plist_uint_width integer in
          buffer ← plist_buffer_write_byte (u8 (Z.lor 0x10 (plist_width_exponent width))) buffer;
          plist_buffer_write_uint integer width buffer
      | PlistReal bits =>
          buffer ← plist_buffer_write_byte 0x23 buffer;
          plist_buffer_write_uint bits 8 buffer
      | PlistString string => plist_encode_string string buffer
      | PlistData bytes =>
          buffer ← plist_buffer_write_marker_length 0x40 (size bytes) buffer;
          plist_buffer_write bytes buffer
      | PlistArray items =>
          buffer ← plist_buffer_write_marker_length 0xa0 (size items) buffer;
          write_references references reference_size buffer
      | PlistDict entries =>
          buffer ← plist_buffer_write_marker_length 0xd0 (size entries) buffer;
          write_references references reference_size buffer
      end
  end.

(** Writing the objects: the offset of each. *)
(* src: source/protocol/airplay/protocol/plist.c 880-885 airplay_plist_encode *)
Fixpoint write_objects (objects : list PlistEncodeObject) (reference_size : nat) (buffer : PlistBuffer)
    : answer (list Z * PlistBuffer) :=
  match objects with
  | [] => Returns ([], buffer)
  | object :: objects' =>
      let offset := size (contents buffer) in
      buffer ← plist_encode_object object reference_size buffer;
      '(offsets, buffer) ← write_objects objects' reference_size buffer;
      Returns (offset :: offsets, buffer)
  end.

(** [plist_write_uint_to_bytes] writes eight bytes. *)
(* src: source/protocol/airplay/protocol/plist.c plist_write_uint_to_bytes *)
Definition plist_write_uint_to_bytes (value : Z) : list Z := uint_bytes 8 value.

Definition COLLECT_FUEL : nat := S (S AIRPLAY_PLIST_MAX_DEPTH).

(** The bytes, when the encoder succeeds. *)
(* src: source/protocol/airplay/protocol/plist.c airplay_plist_encode *)
Definition airplay_plist_encode (value : option AirPlayPlistValue) : answer (list Z) :=
  match value with
  | None => Fails AIRPLAY_PLIST_ERROR_INVALID_ARGUMENT
  | Some value =>
      require (alloc (AIRPLAY_PLIST_MAX_NODES * sizeof_encode_object)) AIRPLAY_PLIST_ERROR_OUT_OF_MEMORY;;
      '(root_object, objects) ← plist_encode_collect_value COLLECT_FUEL value 0 [];
      require (alloc (size objects * 8)) AIRPLAY_PLIST_ERROR_OUT_OF_MEMORY;;
      let reference_size := plist_uint_width (size objects - 1) in
      buffer ← plist_buffer_write (bytes "bplist00") (mkBuffer [] 0);
      '(offsets, buffer) ← write_objects objects reference_size buffer;
      let offset_table_offset := size (contents buffer) in
      let offset_size := plist_uint_width offset_table_offset in
      buffer ← write_references offsets offset_size buffer;
      let trailer := replicate 6 0 ++ [Z.of_nat offset_size; Z.of_nat reference_size] ++
        plist_write_uint_to_bytes (size objects) ++ plist_write_uint_to_bytes root_object ++
        plist_write_uint_to_bytes offset_table_offset in
      buffer ← plist_buffer_write trailer buffer;
      Returns (contents buffer)
  end.
End allocation.

(** A message with one key, encoded. *)
Example encode_demo :
  airplay_plist_encode (fun _ => true) (Some (PlistDict [(bytes "a", PlistUint 300)])) =
    Returns (bytes "bplist00" ++ [0xd1; 1; 2] ++ [0x51; 97] ++ [0x11; 1; 44] ++ [8; 11; 13] ++
      [0; 0; 0; 0; 0; 0; 1; 1] ++ [0; 0; 0; 0; 0; 0; 0; 3] ++ [0; 0; 0; 0; 0; 0; 0; 0] ++
      [0; 0; 0; 0; 0; 0; 0; 16]).
Proof. vm_compute. reflexivity. Qed.
