(* ===== verification/PlistDecode.v ===== *)
(** * The property list decoder (plist.c, airplay_plist_decode)

    The decoder reads the trailer and the table of offsets, then the tree from the
    top object on, following references.  Its context is split into the part that
    is fixed once the trailer was read and the part that changes.  An error ends
    the decoding: the first one recorded is the one reported, which is what an
    error result does here.  Subtractions of sizes wrap as they do in C. *)

From S2P Require Import Prelude Buffers Plist PlistEncode.

(* src: source/protocol/airplay/protocol/plist.c 65-78 PlistDecodeContext *)
Record PlistDecodeContext := mkContext {
  input : list Z;
  input_length : Z;
  object_table_end : Z;
  offset_table_offset : Z;
  offset_size : Z;
  reference_size : Z;
  object_count : Z;
  top_object : Z
}.

(** The objects on the path to the current one, and the number of nodes so far. *)
Record DecodeState := mkDecodeState {
  active_objects : list bool;
  decoded_nodes : Z
}.
#[export] Instance eta_DecodeState : Eta DecodeState :=
  fun s => mkDecodeState (active_objects s) (decoded_nodes s).

(** [a - b] of type [size_t]. *)
Definition sub64 (a b : Z) : Z := u64 (a - b).

Definition INVALID := AIRPLAY_PLIST_ERROR_INVALID_FORMAT.
Definition LIMIT := AIRPLAY_PLIST_ERROR_LIMIT_EXCEEDED.
Definition MEMORY := AIRPLAY_PLIST_ERROR_OUT_OF_MEMORY.

(** An overflowing computation is a failure. *)
Definition no_overflow {A} (e : AirPlayPlistError) (o : option A) : answer A :=
  match o with Some a => Returns a | None => Fails e end.

(** [bytes[off]] *)
Definition deref (bytes : list Z) (off : Z) : outcome Z := checked (bytes !! Z.to_nat off).

(* src: source/protocol/airplay/protocol/plist.c 939-940 plist_read_uint *)
Fixpoint read_uint_loop (bytes : list Z) (off : Z) (count : nat) (value : Z) : outcome Z :=
  match count with
  | O => Done value
  | S count' =>
      b ← deref bytes off;
      read_uint_loop bytes (off + 1) count' (Z.lor (u64 (Z.shiftl value 8)) b)
  end.

(** Reads [width] bytes from [off] on. *)
(* src: source/protocol/airplay/protocol/plist.c plist_read_uint *)
Definition plist_read_uint (bytes : list Z) (off available width : Z) : outcome Z :=
  ensure (negb ((width =? 0) || (8 <? width) || (available <? width)));;
  read_uint_loop bytes off (Z.to_nat width) 0.

(* src: source/protocol/airplay/protocol/plist.c plist_decode_offset *)
Definition plist_decode_offset (context : PlistDecodeContext) (object_id : Z) : outcome Z :=
  ensure (negb ((object_count context <=? object_id) || (SIZE_MAX <? object_id)));;
  table_index ← (match plist_size_multiply object_id (offset_size context) with
                 | Some n => Done n | None => Refused end);
  byte_offset ← (match plist_size_add (offset_table_offset context) table_index with
                 | Some n => Done n | None => Refused end);
  offset ← plist_read_uint (input context) byte_offset (sub64 (input_length context) byte_offset)
             (offset_size context);
  ensure (negb ((offset <? 8) || (object_table_end context <=? offset) || (SIZE_MAX <? offset)));;
  Done offset.

(** The number of items of an object and the size of its header. *)
(* src: source/protocol/airplay/protocol/plist.c plist_decode_length *)
Definition plist_decode_length (context : PlistDecodeContext) (object_offset marker : Z)
    : answer (Z * Z) :=
  let low := Z.land marker 0x0f in
  if low <? 0x0f then Returns (low, 1)
  else
    integer_offset ← no_overflow INVALID (plist_size_add object_offset 1);
    require (negb (object_table_end context <=? integer_offset)) INVALID;;
    integer_marker ← or_fail INVALID (deref (input context) integer_offset);
    require (Z.land integer_marker 0xf0 =? 0x10) INVALID;;
    let exponent := Z.land integer_marker 0x0f in
    require (negb (3 <? exponent)) LIMIT;;
    let width := u8 (Z.shiftl 1 exponent) in
    header_size ← no_overflow INVALID (plist_size_add 2 width);
    require (negb (sub64 (object_table_end context) object_offset <? header_size)) INVALID;;
    len ← or_fail INVALID
      (plist_read_uint (input context) (integer_offset + 1)
         (sub64 (sub64 (object_table_end context) integer_offset) 1) width);
    require (negb (SIZE_MAX <? len)) INVALID;;
    Returns (len, header_size).

(** [output] are the bytes used so far. *)
(* src: source/protocol/airplay/protocol/plist.c plist_utf8_append *)
Definition plist_utf8_append (output : list Z) (output_size codepoint : Z) : option (list Z) :=
  if (codepoint =? 0) || (0x10ffff <? codepoint) || ((0xd800 <=? codepoint) && (codepoint <=? 0xdfff))
  then None
  else
    let required := if codepoint <? 0x80 then 1 else if codepoint <? 0x800 then 2
                    else if codepoint <? 0x10000 then 3 else 4 in
    if (output_size <? size output) || (output_size - size output <? required) then None
    else if required =? 1 then Some (output ++ [u8 codepoint])
    else if required =? 2 then
      Some (output ++ [u8 (Z.lor 0xc0 (Z.shiftr codepoint 6)); u8 (Z.lor 0x80 (Z.land codepoint 0x3f))])
    else if required =? 3 then
      Some (output ++ [u8 (Z.lor 0xe0 (Z.shiftr codepoint 12));
                       u8 (Z.lor 0x80 (Z.land (Z.shiftr codepoint 6) 0x3f));
                       u8 (Z.lor 0x80 (Z.land codepoint 0x3f))])
    else
      Some (output ++ [u8 (Z.lor 0xf0 (Z.shiftr codepoint 18));
                       u8 (Z.lor 0x80 (Z.land (Z.shiftr codepoint 12) 0x3f));
                       u8 (Z.lor 0x80 (Z.land (Z.shiftr codepoint 6) 0x3f));
                       u8 (Z.lor 0x80 (Z.land codepoint 0x3f))]).

(** [float] to [double]: the conversion of the bits of a binary32 number. *)
Definition widen32 (bits : Z) : Z :=
  let sign := Z.shiftl (Z.shiftr bits 31) 63 in
  let exponent := Z.land (Z.shiftr bits 23) 0xff in
  let mantissa := Z.land bits 0x7fffff in
  if exponent =? 255 then
    Z.lor sign (Z.lor (Z.shiftl 0x7ff 52)
      (if mantissa =? 0 then 0 else Z.lor (Z.shiftl 1 51) (Z.shiftl mantissa 29)))
  else if exponent =? 0 then
    if mantissa =? 0 then sign
    else
      let k := Z.log2 mantissa in
      Z.lor sign (Z.lor (Z.shiftl (k + 874) 52) (Z.shiftl (mantissa - Z.shiftl 1 k) (52 - k)))
  else Z.lor sign (Z.lor (Z.shiftl (exponent + 896) 52) (Z.shiftl mantissa 29)).

Section allocation.
Context (alloc : Z -> bool).

(* src: source/protocol/airplay/protocol/plist.c 1066-1075 plist_decode_ascii_string *)
Fixpoint ascii_bytes (bytes : list Z) (off : Z) (count : nat) : answer (list Z) :=
  match count with
  | O => Returns []
  | S count' =>
      b ← or_fail INVALID (deref bytes off);
      require (negb ((b =? 0) || (0x80 <=? b))) INVALID;;
      rest ← ascii_bytes bytes (off + 1) count';
      Returns (b :: rest)
  end.

(* src: source/protocol/airplay/protocol/plist.c plist_decode_ascii_string *)
Definition plist_decode_ascii_string (bytes : list Z) (off len : Z) : answer AirPlayPlistValue :=
  require (negb (AIRPLAY_PLIST_MAX_STRING_BYTES <? len)) LIMIT;;
  require (alloc (len + 1)) MEMORY;;
  text ← ascii_bytes bytes off (Z.to_nat len);
  or_fail MEMORY (airplay_plist_new_string alloc text).

(** A UTF-16 unit: [bytes[index * 2] << 8 | bytes[index * 2 + 1]]. *)
Definition utf16_unit (bytes : list Z) (off index : Z) : outcome Z :=
  hi ← deref bytes (off + index * 2);
  lo ← deref bytes (off + index * 2 + 1);
  Done (u16 (Z.lor (Z.shiftl hi 8) lo)).

(** The loop, one unit or two in a round. *)
(* src: source/protocol/airplay/protocol/plist.c 1108-1134 plist_decode_utf16_string *)
Fixpoint utf16_text (fuel : nat) (bytes : list Z) (off index unit_count maximum_bytes : Z)
    (text : list Z) : answer (list Z) :=
  match fuel with
  | O => Undefined
  | S fuel' =>
      if negb (index <? unit_count) then Returns text
      else
        first ← or_fail INVALID (utf16_unit bytes off index);
        let index := index + 1 in
        '(codepoint, index) ←
          (if (0xd800 <=? first) && (first <=? 0xdbff) then
             require (negb (unit_count <=? index)) INVALID;;
             second ← or_fail INVALID (utf16_unit bytes off index);
             require (negb ((second <? 0xdc00) || (0xdfff <? second))) INVALID;;
             Returns (0x10000 + Z.shiftl (first - 0xd800) 10 + (second - 0xdc00), index + 1)
           else
             require (negb ((0xdc00 <=? first) && (first <=? 0xdfff))) INVALID;;
             Returns (first, index));
        require (negb (codepoint =? 0)) INVALID;;
        text ← no_overflow LIMIT (plist_utf8_append text maximum_bytes codepoint);
        utf16_text fuel' bytes off index unit_count maximum_bytes text
  end.

(* src: source/protocol/airplay/protocol/plist.c plist_decode_utf16_string *)
Definition plist_decode_utf16_string (bytes : list Z) (off unit_count : Z) : answer AirPlayPlistValue :=
  require (negb (AIRPLAY_PLIST_MAX_STRING_BYTES / 2 <? unit_count)) LIMIT;;
  maximum_bytes ← no_overflow LIMIT (plist_size_multiply unit_count 3);
  let maximum_bytes := if AIRPLAY_PLIST_MAX_STRING_BYTES <? maximum_bytes
                       then AIRPLAY_PLIST_MAX_STRING_BYTES else maximum_bytes in
  require (alloc (maximum_bytes + 1)) MEMORY;;
  text ← utf16_text (S (Z.to_nat unit_count)) bytes off 0 unit_count maximum_bytes [];
  or_fail MEMORY (airplay_plist_new_string alloc text).

(* src: source/protocol/airplay/protocol/plist.c plist_decode_reference *)
Definition plist_decode_reference (context : PlistDecodeContext) (off : Z) : answer Z :=
  require (negb (object_table_end context <=? off)) INVALID;;
  reference ← or_fail INVALID
    (plist_read_uint (input context) off (sub64 (object_table_end context) off) (reference_size context));
  require (negb (object_count context <=? reference)) INVALID;;
  Returns reference.

(** Numbers. *)
(* src: source/protocol/airplay/protocol/plist.c 1193-1239 plist_decode_object *)
Definition plist_decode_number (context : PlistDecodeContext) (object_offset high low : Z)
    : answer AirPlayPlistValue :=
  let available := sub64 (sub64 (object_table_end context) object_offset) 1 in
  if high =? 0x10 then
    require (negb (3 <? low)) LIMIT;;
    let width := u8 (Z.shiftl 1 low) in
    require (negb (available <? width)) INVALID;;
    integer ← or_fail INVALID (plist_read_uint (input context) (object_offset + 1) available width);
    or_fail MEMORY (airplay_plist_new_uint alloc integer)
  else
    let width := if low <=? 3 then u8 (Z.shiftl 1 low) else 0 in
    require (negb ((negb (width =? 4) && negb (width =? 8)) || (available <? width))) INVALID;;
    bits ← or_fail INVALID (plist_read_uint (input context) (object_offset + 1) available width);
    or_fail MEMORY (airplay_plist_new_real alloc (if width =? 4 then widen32 (u32 bits) else bits)).

(** Data and strings. *)
(* src: source/protocol/airplay/protocol/plist.c 1247-1270 plist_decode_object *)
Definition plist_decode_bytes (context : PlistDecodeContext) (high item_length payload_offset : Z)
    : answer AirPlayPlistValue :=
  let available := sub64 (object_table_end context) payload_offset in
  if high =? 0x40 then
    require (negb (AIRPLAY_PLIST_MAX_DATA_BYTES <? item_length)) LIMIT;;
    require (negb (available <? item_length)) INVALID;;
    bytes ← or_fail INVALID
      (checked (buf_read (Z.to_nat payload_offset) (Z.to_nat item_length) (input context)));
    or_fail MEMORY (airplay_plist_new_data alloc bytes)
  else if high =? 0x50 then
    require (negb (available <? item_length)) INVALID;;
    plist_decode_ascii_string (input context) payload_offset item_length
  else
    payload_bytes ← no_overflow INVALID (plist_size_multiply item_length 2);
    require (negb (available <? payload_bytes)) INVALID;;
    plist_decode_utf16_string (input context) payload_offset item_length.

Section containers.
(** Decodes a child: [plist_decode_object] one level deeper. *)
Context (decode : Z -> DecodeState -> answer (AirPlayPlistValue * DecodeState)).
Context (context : PlistDecodeContext).

(** The loop over the items of an array, [index] of which are in [value]. *)
(* src: source/protocol/airplay/protocol/plist.c 1287-1305 plist_decode_object *)
Fixpoint plist_decode_items (count : nat) (payload_offset index : Z) (value : AirPlayPlistValue)
    (state : DecodeState) : answer (AirPlayPlistValue * DecodeState) :=
  match count with
  | O => Returns (value, state)
  | S count' =>
      reference ← plist_decode_reference context (payload_offset + index * reference_size context);
      '(item, state) ← decode reference state;
      value ← or_fail MEMORY (airplay_plist_array_append alloc (Some value) (Some item));
      plist_decode_items count' payload_offset (index + 1) value state
  end.

(** The loop over the entries of a dictionary. *)
(* src: source/protocol/airplay/protocol/plist.c 1325-1367 plist_decode_object *)
Fixpoint plist_decode_entries (count : nat) (payload_offset references_bytes index : Z)
    (value : AirPlayPlistValue) (state : DecodeState) : answer (AirPlayPlistValue * DecodeState) :=
  match count with
  | O => Returns (value, state)
  | S count' =>
      key_reference ← plist_decode_reference context (payload_offset + index * reference_size context);
      value_reference ← plist_decode_reference context
        (payload_offset + references_bytes + index * reference_size context);
      '(key_node, state) ← decode key_reference state;
      key ← no_overflow INVALID (airplay_plist_get_string (Some key_node));
      require (bool_decide (airplay_plist_dict_get (Some value) key = None)) INVALID;;
      '(item, state) ← decode value_reference state;
      value ← or_fail MEMORY (airplay_plist_dict_set alloc (Some value) key (Some item));
      plist_decode_entries count' payload_offset references_bytes (index + 1) value state
  end.

(* src: source/protocol/airplay/protocol/plist.c 1271-1368 plist_decode_object *)
Definition plist_decode_container (high item_length payload_offset : Z) (state : DecodeState)
    : answer (AirPlayPlistValue * DecodeState) :=
  let available := sub64 (object_table_end context) payload_offset in
  require (negb (AIRPLAY_PLIST_MAX_CONTAINER_ITEMS <? item_length)) LIMIT;;
  references_bytes ← no_overflow INVALID (plist_size_multiply item_length (reference_size context));
  if high =? 0xa0 then
    require (negb (available <? references_bytes)) INVALID;;
    value ← or_fail MEMORY (airplay_plist_new_array alloc);
    plist_decode_items (Z.to_nat item_length) payload_offset 0 value state
  else
    payload_bytes ← no_overflow INVALID (plist_size_multiply references_bytes 2);
    require (negb (available <? payload_bytes)) INVALID;;
    value ← or_fail MEMORY (airplay_plist_new_dict alloc);
    plist_decode_entries (Z.to_nat item_length) payload_offset references_bytes 0 value state.

(** What is at [object_offset]. *)
(* src: source/protocol/airplay/protocol/plist.c 1187-1374 plist_decode_object *)
Definition plist_decode_body (object_offset : Z) (state : DecodeState)
    : answer (AirPlayPlistValue * DecodeState) :=
  marker ← or_fail INVALID (deref (input context) object_offset);
  let high := Z.land marker 0xf0 in
  let low := Z.land marker 0x0f in
  if (marker =? 0x08) || (marker =? 0x09) then
    value ← or_fail MEMORY (airplay_plist_new_bool alloc (marker =? 0x09));
    Returns (value, state)
  else if (high =? 0x10) || (high =? 0x20) then
    value ← plist_decode_number context object_offset high low;
    Returns (value, state)
  else if (high =? 0x40) || (high =? 0x50) || (high =? 0x60) || (high =? 0xa0) || (high =? 0xd0) then
    '(item_length, header_size) ← plist_decode_length context object_offset marker;
    payload_offset ← no_overflow INVALID (plist_size_add object_offset header_size);
    if (high =? 0x40) || (high =? 0x50) || (high =? 0x60) then
      value ← plist_decode_bytes context high item_length payload_offset;
      Returns (value, state)
    else plist_decode_container high item_length payload_offset state
  else Fails AIRPLAY_PLIST_ERROR_UNSUPPORTED_TYPE.
End containers.

(** Every level takes one round, and deeper levels than the limit are refused. *)
(* src: source/protocol/airplay/protocol/plist.c plist_decode_object *)
Fixpoint plist_decode_object (fuel : nat) (context : PlistDecodeContext) (object_id : Z) (depth : nat)
    (state : DecodeState) : answer (AirPlayPlistValue * DecodeState) :=
  match fuel with
  | O => Undefined
  | S fuel' =>
      require (negb ((AIRPLAY_PLIST_MAX_DEPTH <? depth)%nat ||
                     (AIRPLAY_PLIST_MAX_NODES <=? decoded_nodes state))) LIMIT;;
      require (negb (object_count context <=? object_id)) INVALID;;
      active ← or_fail INVALID (checked (active_objects state !! Z.to_nat object_id));
      require (negb active) INVALID;;
      object_offset ← or_fail INVALID (plist_decode_offset context object_id);
      let state := { state with active_objects ::= <[Z.to_nat object_id := true]>;
                                decoded_nodes ::= Z.add 1 } in
      '(value, state) ← plist_decode_body
        (fun reference state => plist_decode_object fuel' context reference (S depth) state)
        context object_offset state;
      Returns (value, { state with active_objects ::= <[Z.to_nat object_id := false]> })
  end.

(** Every entry of the offset table must be an offset. *)
(* src: source/protocol/airplay/protocol/plist.c 1453-1461 airplay_plist_decode *)
Fixpoint check_offsets (context : PlistDecodeContext) (count : nat) (index : Z) : answer unit :=
  match count with
  | O => Returns tt
  | S count' =>
      _ ← or_fail INVALID (plist_decode_offset context index);
      check_offsets context count' (index + 1)
  end.

Definition is_width (n : Z) : bool := (n =? 1) || (n =? 2) || (n =? 4) || (n =? 8).

(** The context that the trailer describes. *)
(* src: source/protocol/airplay/protocol/plist.c 1412-1451 airplay_plist_decode *)
Definition plist_read_trailer (bytes : list Z) (len : Z) : answer PlistDecodeContext :=
  let trailer := len - 32 in
  zeros ← or_fail INVALID (checked (buf_read (Z.to_nat trailer) 6 bytes));
  require (bool_decide (zeros = replicate 6 0)) INVALID;;
  offset_size ← or_fail INVALID (deref bytes (trailer + 6));
  reference_size ← or_fail INVALID (deref bytes (trailer + 7));
  object_count ← or_fail INVALID (plist_read_uint bytes (trailer + 8) 24 8);
  top_object ← or_fail INVALID (plist_read_uint bytes (trailer + 16) 16 8);
  offset_table_offset ← or_fail INVALID (plist_read_uint bytes (trailer + 24) 8 8);
  require (negb (negb (is_width offset_size) || negb (is_width reference_size) ||
                 (object_count =? 0) || (AIRPLAY_PLIST_MAX_NODES <? object_count) ||
                 (object_count <=? top_object) || (SIZE_MAX <? offset_table_offset) ||
                 (offset_table_offset <? 8) || (trailer <=? offset_table_offset) ||
                 (UINT64_MAX / offset_size <? object_count)))
    (if AIRPLAY_PLIST_MAX_NODES <? object_count then LIMIT else INVALID);;
  let offset_table_bytes := u64 (object_count * offset_size) in
  require (negb (trailer <? u64 (offset_table_offset + offset_table_bytes))) INVALID;;
  Returns (mkContext bytes len offset_table_offset offset_table_offset offset_size reference_size
             object_count top_object).

Definition DECODE_FUEL : nat := S (S AIRPLAY_PLIST_MAX_DEPTH).

(** [bytes] is the object behind the pointer, [len] the length that is passed. *)
(* src: source/protocol/airplay/protocol/plist.c airplay_plist_decode *)
Definition airplay_plist_decode (bytes : option (list Z)) (len : Z) : answer AirPlayPlistValue :=
  match bytes with
  | None => Fails AIRPLAY_PLIST_ERROR_INVALID_ARGUMENT
  | Some bytes =>
      require (negb (AIRPLAY_PLIST_MAX_BYTES <? len)) LIMIT;;
      require (negb (len <? 40)) INVALID;;
      header ← or_fail INVALID (checked (buf_read 0 8 bytes));
      require (bool_decide (header = Prelude.bytes "bplist00")) INVALID;;
      context ← plist_read_trailer bytes len;
      check_offsets context (Z.to_nat (object_count context)) 0;;
      require (alloc (object_count context)) MEMORY;;
      '(value, _) ←
        plist_decode_object DECODE_FUEL context (top_object context) 0
          (mkDecodeState (replicate (Z.to_nat (object_count context)) false) 0);
      Returns value
  end.
End allocation.

Example decode_demo :
  airplay_plist_decode (fun _ => true) (Some (bytes "bplist00" ++ [0xd1; 1; 2] ++ [0x51; 97] ++ [0x11; 1; 44] ++
      [8; 11; 13] ++ [0; 0; 0; 0; 0; 0; 1; 1] ++ [0; 0; 0; 0; 0; 0; 0; 3] ++ [0; 0; 0; 0; 0; 0; 0; 0] ++
      [0; 0; 0; 0; 0; 0; 0; 16])) 51 =
    Returns (PlistDict [(bytes "a", PlistUint 300)]).
Proof. vm_compute. reflexivity. Qed.

(** 1.5 as a [float]. *)
Example widen_demo : widen32 0x3fc00000 = 0x3ff8000000000000.
Proof. reflexivity. Qed.
