(* ===== verification/PlistLayout.v ===== *)
(** * The layout of an encoded property list

    What the encoder's writers append to the buffer, as a relation between an
    object and its bytes, and that they stay inside of the allocation: they fail
    exactly when an allocation fails or the limit on the size would be passed. *)

From S2P Require Import Prelude Buffers Utf8 Plist PlistEncode PlistDecode.

(** ** The text of property lists

    The decoding of UTF-8 in [Plist] and the UTF-16 form in which other than ASCII
    text is stored: both are described by the code points of the text. *)

(** ** The reference: texts as code points *)

Definition text_of (cps : list Z) : list Z := concat (map utf8_encode cps).
Definition valid_cp (cp : Z) : Prop := scalar_value cp /\ cp <> 0.

(** Code units of UTF-16. *)
Definition utf16_units (cp : Z) : list Z :=
  if cp <? 0x10000 then [cp] else [0xd800 + (cp - 0x10000) / 1024; 0xdc00 + (cp - 0x10000) mod 1024].
Definition units_of (cps : list Z) : Z := size (concat (map utf16_units cps)).
Definition all_ascii (cps : list Z) : bool := forallb (fun cp => cp <? 0x80) cps.

(** A text that the property lists can hold. *)
Record text_ok (s : cstring) (cps : list Z) : Prop := {
  ok_cps : Forall valid_cp cps;
  ok_text : s = text_of cps;
  ok_size : size s <= AIRPLAY_PLIST_MAX_STRING_BYTES;
  ok_units : all_ascii cps = true \/ units_of cps <= AIRPLAY_PLIST_MAX_STRING_BYTES / 2
}.

Definition chars (s : list Z) : Prop := Forall (fun b => 0 < b < 256) s.

(** ** Lemmas: one code point *)

Lemma lead_bits b : is_byte b ->
  (Z.land b 0xe0 =? 0xc0) = (0xc0 <=? b) && (b <=? 0xdf) /\
  (Z.land b 0xf0 =? 0xe0) = (0xe0 <=? b) && (b <=? 0xef) /\
  (Z.land b 0xf8 =? 0xf0) = (0xf0 <=? b) && (b <=? 0xf7).
Proof.
  intros Hb. split_and!; apply eqb_prop; revert b Hb; apply byte_cases; vm_compute; reflexivity.
Qed.

Lemma plist_continuation_eq text position count cp :
  plist_continuation text position count cp =
    match continuation_bytes text position count cp with
    | Some (Some cp') => Done cp'
    | Some None => Refused
    | None => Stuck
    end.
Proof.
  revert position cp. induction count as [|count IH]; intros position cp; [done|].
  cbn [plist_continuation continuation_bytes]. destruct (text !! position) as [b|]; [|done].
  cbn [checked mbind outcome_bind option_bind]. destruct (Z.land b 192 =? 128); [|done].
  cbn [negb ensure mbind outcome_bind]. apply IH.
Qed.

Lemma encode_not_nil cp : utf8_encode cp <> [].
Proof. pose proof (encode_length cp) as H. intros E. rewrite E in H. cbn in H. lia. Qed.

(** *** Moving to the front of the text *)

Lemma lookup_shift {A} (pre t : list A) i : (pre ++ t) !! (length pre + i)%nat = t !! i.
Proof. rewrite lookup_app_r by lia. f_equal. lia. Qed.

Lemma continuation_shift pre t i count cp :
  plist_continuation (pre ++ t) (length pre + i) count cp = plist_continuation t i count cp.
Proof.
  revert i cp. induction count as [|count IH]; intros i cp; [done|]. cbn [plist_continuation].
  rewrite lookup_shift. destruct (t !! i); [|done]. cbn [checked mbind outcome_bind].
  destruct (_ =? _); [|done]. cbn [ensure mbind outcome_bind].
  replace (S (length pre + i)) with (length pre + S i)%nat by lia. apply IH.
Qed.

Lemma next_shift pre t n :
  plist_utf8_next (pre ++ t) (length pre + n) (length pre) =
    ('(cp, k) ← plist_utf8_next t n 0; Done (cp, (length pre + k)%nat)).
Proof.
  unfold plist_utf8_next.
  replace (length pre <? length pre + n)%nat with (0 <? n)%nat
    by (destruct (Nat.ltb_spec 0 n), (Nat.ltb_spec (length pre) (length pre + n)); (done || lia)).
  destruct (0 <? n)%nat; [|done]. cbn [ensure mbind outcome_bind].
  pose proof (lookup_shift pre t 0) as L. rewrite Nat.add_0_r in L. rewrite L.
  destruct (t !! 0%nat) as [b|]; [|done]. cbn [checked mbind outcome_bind].
  destruct (b <? 128). { destruct (negb (b =? 0)); [|done]. cbn. do 2 f_equal. lia. }
  match goal with |- ?m ≫= _ = _ => destruct m as [[cp count]| |] end; [|done..].
  cbn [mbind outcome_bind]. replace (length pre + n - length pre - 1)%nat with (n - 0 - 1)%nat by lia.
  destruct (negb (n - 0 - 1 <? count)%nat); [|done]. cbn [ensure mbind outcome_bind].
  replace (S (length pre)) with (length pre + 1)%nat by lia. rewrite continuation_shift.
  destruct (plist_continuation t 1 count cp) as [cp'| |]; [|done..]. cbn [mbind outcome_bind].
  destruct (negb _); [|done]. cbn. do 2 f_equal. lia.
Qed.

(** *** A code point at the front *)

Lemma next_front cp rest n :
  valid_cp cp -> (length (utf8_encode cp) <= n)%nat ->
  plist_utf8_next (utf8_encode cp ++ rest) n 0 = Done (cp, length (utf8_encode cp)).
Proof.
  intros [[Hr Hs] H0] Hn. unfold plist_utf8_next. pose proof (encode_length cp) as He.
  rewrite (proj2 (Nat.ltb_lt 0 n)) by lia. cbn [ensure mbind outcome_bind]. revert Hn.
  unfold utf8_encode.
  destruct (Z.ltb_spec cp 0x80); [|destruct (Z.ltb_spec cp 0x800); [|destruct (Z.ltb_spec cp 0x10000)]];
    cbn [app length lookup list_lookup checked mbind outcome_bind]; intros Hn.
  { rewrite (proj2 (Z.ltb_lt cp 0x80)), (proj2 (Z.eqb_neq cp 0)) by done. done. }
  all: rewrite (proj2 (Z.ltb_ge _ 0x80)) by lia;
    match goal with |- context [Z.land ?b 0xe0] =>
      destruct (lead_bits b) as (-> & -> & ->); [unfold is_byte; lia|];
      destruct (Z.leb_spec 0xc0 b), (Z.leb_spec b 0xdf), (Z.leb_spec 0xe0 b), (Z.leb_spec b 0xef),
        (Z.leb_spec 0xf0 b), (Z.leb_spec b 0xf7); try lia end;
    cbn [andb]; rewrite ?land_1f, ?land_0f, ?land_07.
  - rewrite (proj2 (Z.ltb_ge _ 2)) by lia. cbn [negb ensure mbind outcome_bind].
    rewrite (proj2 (Nat.ltb_ge (n - 0 - 1) 1)) by lia. cbn [negb ensure mbind outcome_bind].
    rewrite plist_continuation_eq. erewrite continuation_step; [|done|unfold is_byte; lia|lia].
    rewrite (proj2 (Z.leb_le 0x80 _)), (proj2 (Z.ltb_lt _ 0xc0)) by lia. cbn [andb continuation_bytes mbind outcome_bind].
    set (v := _ * 64 + _). assert (Hv : v = cp) by (unfold v; lia). rewrite Hv. cbn [Nat.eqb andb orb].
    destruct (Z.leb_spec 0xd800 cp), (Z.leb_spec cp 0xdfff), (Z.ltb_spec 0x10ffff cp); cbn; (done || lia).
  - cbn [negb ensure mbind outcome_bind].
    rewrite (proj2 (Nat.ltb_ge (n - 0 - 1) 2)) by lia. cbn [negb ensure mbind outcome_bind].
    rewrite plist_continuation_eq. do 2 (erewrite continuation_step; [|done|unfold is_byte; lia|lia];
      rewrite (proj2 (Z.leb_le 0x80 _)), (proj2 (Z.ltb_lt _ 0xc0)) by lia; cbn [andb]).
    cbn [continuation_bytes mbind outcome_bind].
    set (v := _ * 64 + _). assert (Hv : v = cp) by (unfold v; lia). rewrite Hv. cbn [Nat.eqb andb orb].
    rewrite (proj2 (Z.ltb_ge cp 0x800)) by lia.
    destruct (Z.leb_spec 0xd800 cp), (Z.leb_spec cp 0xdfff), (Z.ltb_spec 0x10ffff cp); cbn; (done || lia).
  - rewrite (proj2 (Z.ltb_ge 4 _)) by lia. cbn [negb ensure mbind outcome_bind].
    rewrite (proj2 (Nat.ltb_ge (n - 0 - 1) 3)) by lia. cbn [negb ensure mbind outcome_bind].
    rewrite plist_continuation_eq. do 3 (erewrite continuation_step; [|done|unfold is_byte; lia|lia];
      rewrite (proj2 (Z.leb_le 0x80 _)), (proj2 (Z.ltb_lt _ 0xc0)) by lia; cbn [andb]).
    cbn [continuation_bytes mbind outcome_bind].
    set (v := _ * 64 + _). assert (Hv : v = cp) by (unfold v; lia). rewrite Hv. cbn [Nat.eqb andb orb].
    rewrite (proj2 (Z.ltb_ge cp 0x10000)) by lia.
    destruct (Z.leb_spec 0xd800 cp), (Z.leb_spec cp 0xdfff), (Z.ltb_spec 0x10ffff cp); cbn; (done || lia).
Qed.

(** What is accepted is a code point, and nothing outside of the text is read. *)
Lemma next_sound t n :
  Forall is_byte t -> (n <= length t)%nat ->
  safe (plist_utf8_next t n 0) (fun '(cp, k) =>
    valid_cp cp /\ k = length (utf8_encode cp) /\ (k <= n)%nat /\ take k t = utf8_encode cp).
Proof.
  intros Hin Hn. unfold plist_utf8_next. destruct (Nat.ltb_spec 0 n) as [Hp|]; [|done].
  cbn [ensure mbind outcome_bind]. destruct t as [|b0 rest]; [cbn in Hn; lia|].
  pose proof Hin as [Hb0 Hrest]%Forall_cons. unfold is_byte in Hb0.
  cbn [lookup list_lookup checked mbind outcome_bind].
  destruct (Z.ltb_spec b0 0x80) as [H0|H0].
  { destruct (Z.eqb_spec b0 0); [done|]. cbn. unfold valid_cp, scalar_value, utf8_encode.
    rewrite (proj2 (Z.ltb_lt b0 0x80)) by lia. split_and!; (done || lia). }
  destruct (lead_bits b0) as (-> & -> & ->); [done|]. rewrite land_1f, land_0f, land_07.
  match goal with |- safe (?m ≫= _) _ => set (lead := m) end.
  assert (Hlead : safe lead (fun '(cp, count) => leads b0 cp (S count))).
  { unfold lead, leads.
    destruct (Z.leb_spec 0xc0 b0), (Z.leb_spec b0 0xdf), (Z.leb_spec 0xe0 b0), (Z.leb_spec b0 0xef),
      (Z.leb_spec 0xf0 b0), (Z.leb_spec b0 0xf7); cbn [andb]; try done; try lia;
      repeat match goal with |- context [?a <? ?b] => destruct (Z.ltb_spec a b) end; cbn; try done; lia. }
  destruct lead as [[cp count]| |]; [|done..]. cbn [safe mbind outcome_bind] in *.
  destruct (Nat.ltb_spec (n - 0 - 1) count) as [Hc|Hc]; [done|]. cbn [negb ensure mbind outcome_bind].
  rewrite plist_continuation_eq.
  destruct (continuation_sound (b0 :: rest) 1 count cp) as (r & -> & Hr);
    [done | unfold leads in Hlead; cbn in *; lia.. |].
  destruct r as [cp'|]; [|done]. cbn [mbind outcome_bind].
  destruct (Hr cp' eq_refl) as (l & Hl & Hf & Hll & Hv). cbn [drop] in Hl.
  destruct (negb _) eqn:Hchk; [|done]. apply negb_true_iff in Hchk. cbn [safe ensure mbind outcome_bind].
  rewrite !orb_false_iff, ?andb_false_iff, ?Z.ltb_ge, ?Z.leb_gt, ?Nat.eqb_neq in Hchk.
  destruct Hchk as [[[H2 H3] Hm] Hsur].
  destruct (decoded_encode b0 cp (S count) l cp') as (S1 & S2 & S3); try done; try lia.
  cbn [Nat.add]. rewrite Nat.add_1_r. split_and!; try done; try lia.
  - split; [done|]. intros ->. cbn in S3. unfold leads in Hlead. injection S3 as -> _. lia.
  - cbn [take]. rewrite drop_0 in Hl. by rewrite Hl, S3.
Qed.

(** ** Lemmas: measuring a text *)

Lemma text_of_cons cp cps : text_of (cp :: cps) = utf8_encode cp ++ text_of cps.
Proof. done. Qed.

Lemma text_of_app l l' : text_of (l ++ l') = text_of l ++ text_of l'.
Proof. unfold text_of. by rewrite map_app, concat_app. Qed.

Lemma units_of_cons cp cps : units_of (cp :: cps) = (if 0x10000 <=? cp then 2 else 1) + units_of cps.
Proof.
  unfold units_of. cbn [map concat]. rewrite size_app. f_equal. unfold utf16_units.
  destruct (Z.ltb_spec cp 0x10000), (Z.leb_spec 0x10000 cp); (done || lia).
Qed.

Lemma units_of_nonneg cps : 0 <= units_of cps.
Proof. apply size_nonneg. Qed.

Lemma units_of_bound cps : units_of cps <= size (text_of cps).
Proof.
  induction cps as [|cp cps IH]; [done|]. rewrite units_of_cons, text_of_cons, size_app.
  assert ((if 0x10000 <=? cp then 2 else 1) <= size (utf8_encode cp)); [|lia].
  unfold utf8_encode, size. destruct (Z.leb_spec 0x10000 cp).
  - rewrite !(proj2 (Z.ltb_ge cp _)) by lia. cbn. lia.
  - pose proof (encode_length cp). unfold utf8_encode in *. lia.
Qed.

Lemma cps_length cps : (length cps <= length (text_of cps))%nat.
Proof.
  induction cps as [|cp cps IH]; [done|]. rewrite text_of_cons, length_app.
  pose proof (encode_length cp). cbn [length]. lia.
Qed.

Lemma encode_chars cp : valid_cp cp -> chars (utf8_encode cp).
Proof.
  intros [[Hr Hs] H0]. unfold chars, utf8_encode.
  destruct (Z.ltb_spec cp 0x80); [|destruct (Z.ltb_spec cp 0x800); [|destruct (Z.ltb_spec cp 0x10000)]];
    repeat constructor; lia.
Qed.

Lemma text_chars cps : Forall valid_cp cps -> chars (text_of cps).
Proof.
  induction 1 as [|cp cps Hcp H IH]; [constructor|]. rewrite text_of_cons. apply Forall_app.
  split; [by apply encode_chars | done].
Qed.

Lemma chars_bytes s : chars s -> Forall is_byte s.
Proof. intros H. eapply Forall_impl; [exact H|]. unfold is_byte. cbn. lia. Qed.

(** The next code point of a text, in the middle of it. *)
Lemma next_of_text pre cp cps :
  valid_cp cp ->
  plist_utf8_next (with_nul (pre ++ text_of (cp :: cps))) (length (pre ++ text_of (cp :: cps))) (length pre) =
    Done (cp, length (pre ++ utf8_encode cp)).
Proof.
  intros Hcp. unfold with_nul. rewrite <- app_assoc, length_app, next_shift.
  rewrite text_of_cons, <- app_assoc, next_front; [|done|rewrite length_app; lia].
  cbn [mbind outcome_bind]. by rewrite length_app.
Qed.

Lemma measure_loop_complete fuel pre cps units ascii :
  Forall valid_cp cps -> (length cps < fuel)%nat ->
  units + units_of cps <= AIRPLAY_PLIST_MAX_STRING_BYTES ->
  plist_measure_loop fuel (pre ++ text_of cps) (length pre) units ascii =
    Done (units + units_of cps, ascii && all_ascii cps).
Proof.
  intros Hv. revert fuel pre units ascii. induction Hv as [|cp cps Hcp Hv IH];
    intros fuel pre units ascii Hf Hu; (destruct fuel as [|fuel]; [cbn in Hf; lia|]); cbn [plist_measure_loop].
  - cbn [text_of map concat]. rewrite app_nil_r, (proj2 (Nat.ltb_ge (length pre) (length pre))) by lia.
    cbn [negb all_ascii forallb]. change (units_of []) with 0. by rewrite andb_true_r, Z.add_0_r.
  - rewrite next_of_text by done. pose proof (encode_length cp).
    rewrite (proj2 (Nat.ltb_lt (length pre) _)) by (rewrite text_of_cons, !length_app; lia).
    cbn [negb mbind outcome_bind]. rewrite units_of_cons in *. pose proof (units_of_nonneg cps).
    rewrite (proj2 (Z.ltb_ge AIRPLAY_PLIST_MAX_STRING_BYTES _)) by lia.
    cbn [negb ensure mbind outcome_bind]. rewrite text_of_cons, app_assoc, IH; [|cbn in Hf; lia|lia].
    rewrite Z.add_assoc. f_equal. f_equal. cbn [all_ascii forallb].
    destruct (Z.leb_spec 0x80 cp), (Z.ltb_spec cp 0x80); try lia; by destruct ascii.
Qed.

Lemma measure_loop_sound fuel pre rest units ascii :
  chars (pre ++ rest) -> (length rest < fuel)%nat ->
  safe (plist_measure_loop fuel (pre ++ rest) (length pre) units ascii) (fun '(units', ascii') =>
    exists cps, Forall valid_cp cps /\ rest = text_of cps /\ units' = units + units_of cps /\
      ascii' = ascii && all_ascii cps).
Proof.
  intros Hc. revert pre rest units ascii Hc. induction fuel as [|fuel IH]; intros pre rest units ascii Hc Hf; [lia|].
  cbn [plist_measure_loop]. rewrite length_app.
  destruct (Nat.ltb_spec (length pre) (length pre + length rest)) as [Hn|Hn]; cbn [negb]; cycle 1.
  { exists []. destruct rest; [|cbn in Hn; lia]. change (units_of []) with 0. rewrite andb_true_r. split_and!; (done || lia). }
  unfold with_nul at 1. rewrite <- app_assoc, next_shift.
  pose proof (next_sound (rest ++ [0]) (length rest)) as Hs.
  assert (Hb : Forall is_byte (rest ++ [0])).
  { apply Forall_app. split; [|by repeat constructor]. apply chars_bytes. by apply Forall_app in Hc as [_ ?]. }
  specialize (Hs Hb ltac:(rewrite length_app; cbn; lia)).
  destruct (plist_utf8_next _ _ _) as [[cp k]| |]; [|done..]. cbn [safe mbind outcome_bind] in *.
  destruct Hs as (Hv & -> & Hk & Ht). rewrite take_app_le in Ht by done.
  destruct (negb _); [|done]. cbn [ensure mbind outcome_bind].
  assert (Hr : rest = utf8_encode cp ++ drop (length (utf8_encode cp)) rest)
    by (rewrite <- Ht at 1; by rewrite take_drop).
  set (rest' := drop _ rest) in *. pose proof (encode_length cp).
  rewrite Hr, app_assoc in Hc. rewrite Hr, app_assoc, <- (length_app pre).
  eapply safe_mono; [apply IH; [done | rewrite Hr, length_app in Hf; lia]|].
  intros [u a] (cps & H1 & H2 & H3 & H4). exists (cp :: cps).
  split_and!; [by constructor | by rewrite text_of_cons, H2 | rewrite units_of_cons; lia |].
  rewrite H4. cbn [all_ascii forallb].
  destruct (Z.leb_spec 0x80 cp), (Z.ltb_spec cp 0x80); try lia; by destruct ascii.
Qed.

(** The measure of a text that is fine, and of any other it is refused. *)
Lemma measure_complete s cps :
  text_ok s cps -> plist_utf8_measure s = Done (units_of cps, all_ascii cps).
Proof.
  intros [Hv -> Hsz Hu]. unfold plist_utf8_measure. rewrite (proj2 (Z.ltb_ge _ (size _))) by done.
  cbn [negb ensure mbind outcome_bind]. pose proof (units_of_bound cps).
  pose proof (measure_loop_complete (S (length (text_of cps))) [] cps 0 true Hv) as E.
  cbn [app length] in E. rewrite E; [|pose proof (cps_length cps); lia|lia]. cbn [mbind outcome_bind andb].
  destruct (all_ascii cps); [done|]. destruct Hu as [|Hu]; [done|]. cbn [negb andb].
  by rewrite (proj2 (Z.ltb_ge _ (0 + units_of cps))).
Qed.

Lemma measure_sound s :
  chars s -> safe (plist_utf8_measure s) (fun '(units, ascii) =>
    exists cps, text_ok s cps /\ units = units_of cps /\ ascii = all_ascii cps).
Proof.
  intros Hc. unfold plist_utf8_measure. destruct (Z.ltb_spec AIRPLAY_PLIST_MAX_STRING_BYTES (size s)); [done|].
  cbn [negb ensure mbind outcome_bind].
  pose proof (measure_loop_sound (S (length s)) [] s 0 true Hc ltac:(lia)) as Hs. cbn [app length] in Hs.
  destruct (plist_measure_loop _ _ _ _ _) as [[u a]| |]; [|done..]. cbn [safe mbind outcome_bind] in *.
  destruct Hs as (cps & H1 & H2 & -> & ->). cbn [andb].
  destruct (negb _) eqn:E; [|done]. cbn. exists cps. split_and!; try done. constructor; try done.
  destruct (all_ascii cps); [by left|]. right. apply negb_true_iff, Z.ltb_ge in E. lia.
Qed.

(** ** Results of operations that fail with an error *)

Definition ans {A} (m : answer A) (Q : A -> Prop) : Prop :=
  match m with Returns a => Q a | Fails _ => True | Undefined => False end.

Lemma ans_bind {A B} (m : answer A) (k : A -> answer B) (P : A -> Prop) (Q : B -> Prop) :
  ans m P -> (forall a, P a -> ans (k a) Q) -> ans (m ≫= k) Q.
Proof. destruct m; cbn; auto. Qed.

Lemma ans_mono {A} (m : answer A) (P Q : A -> Prop) : ans m P -> (forall a, P a -> Q a) -> ans m Q.
Proof. destruct m; cbn; auto. Qed.

Lemma ans_guard {B} b e (k : unit -> answer B) (Q : B -> Prop) :
  (b = true -> ans (k tt) Q) -> ans (require b e ≫= k) Q.
Proof. destruct b; cbn; auto. Qed.

Lemma ans_or_fail {A} e (m : outcome A) (Q : A -> Prop) : safe m Q -> ans (or_fail e m) Q.
Proof. by destruct m. Qed.

Lemma ans_no_overflow {A} e (o : option A) (Q : A -> Prop) : (forall a, o = Some a -> Q a) -> ans (no_overflow e o) Q.
Proof. destruct o; cbn; auto. Qed.

(** ** Lemmas: UTF-16 *)

Definition utf16_bytes (cps : list Z) : list Z := concat (map be16 (concat (map utf16_units cps))).

Lemma utf16_bytes_cons cp cps : utf16_bytes (cp :: cps) = concat (map be16 (utf16_units cp)) ++ utf16_bytes cps.
Proof. unfold utf16_bytes. cbn [map concat]. by rewrite map_app, concat_app. Qed.

Lemma utf16_bytes_size cps : size (utf16_bytes cps) = 2 * units_of cps.
Proof.
  unfold utf16_bytes, units_of. induction (concat (map utf16_units cps)) as [|u l IH]; [done|].
  cbn [map concat]. rewrite size_app. change (u :: l) with ([u] ++ l). rewrite size_app, IH.
  change (size (be16 u)) with 2. change (size [u]) with 1. lia.
Qed.

Lemma be16_size u : size (be16 u) = 2.
Proof. done. Qed.

Lemma deref_at bytes pre b post off :
  bytes = pre ++ b :: post -> off = size pre -> deref bytes off = Done b.
Proof. intros -> ->. unfold deref, size. by rewrite Nat2Z.id, lookup_at. Qed.

Lemma deref_in bytes off :
  0 <= off < size bytes -> exists b, deref bytes off = Done b /\ bytes !! Z.to_nat off = Some b.
Proof.
  intros H. unfold deref. destruct (lookup_lt_is_Some_2 bytes (Z.to_nat off)) as [b Hb];
    [unfold size in H; lia|]. exists b. by rewrite Hb.
Qed.

Lemma utf16_unit_at bytes pre u post off index :
  bytes = pre ++ be16 u ++ post -> off + index * 2 = size pre -> 0 <= u < 65536 ->
  utf16_unit bytes off index = Done u.
Proof.
  intros E Ho Hu. unfold utf16_unit.
  rewrite (deref_at bytes pre (u8 (Z.shiftr u 8)) (u8 u :: post) (off + index * 2)); [|by rewrite E|exact Ho].
  cbn [mbind outcome_bind].
  rewrite (deref_at bytes (pre ++ [u8 (Z.shiftr u 8)]) (u8 u) post (off + index * 2 + 1));
    [|by rewrite E, <- app_assoc | rewrite size_app; change (size [u8 (Z.shiftr u 8)]) with 1; lia].
  cbn [mbind outcome_bind]. rewrite be16_value by done. f_equal. width_lia.
Qed.

(** Bits of a byte that are added to a marker. *)
Lemma lor_marker hi n x : 0 <= n -> 0 <= x < 2 ^ n -> Z.lor (hi * 2 ^ n) x = hi * 2 ^ n + x.
Proof. intros. rewrite <- lor_shiftl by done. by rewrite Z.shiftl_mul_pow2. Qed.

Lemma append_complete out max cp :
  valid_cp cp -> size out + size (utf8_encode cp) <= max ->
  plist_utf8_append out max cp = Some (out ++ utf8_encode cp).
Proof.
  intros [[Hr Hs] H0] Hfit. unfold plist_utf8_append. rewrite (proj2 (Z.eqb_neq cp 0)) by done.
  rewrite (proj2 (Z.ltb_ge 0x10ffff cp)) by lia.
  assert (Hsur : (0xd800 <=? cp) && (cp <=? 0xdfff) = false).
  { destruct (Z.leb_spec 0xd800 cp), (Z.leb_spec cp 0xdfff); (done || lia). }
  rewrite Hsur. cbn [orb]. pose proof (size_nonneg (utf8_encode cp)).
  rewrite (proj2 (Z.ltb_ge max (size out))) by lia. revert Hfit.
  pose proof (lor_marker 3 6) as L3. pose proof (lor_marker 2 6) as L2.
  pose proof (lor_marker 14 4) as L14. pose proof (lor_marker 30 3) as L30.
  change (3 * 2 ^ 6) with 0xc0 in L3. change (2 * 2 ^ 6) with 0x80 in L2.
  change (14 * 2 ^ 4) with 0xe0 in L14. change (30 * 2 ^ 3) with 0xf0 in L30.
  change (2 ^ 6) with 64 in *. change (2 ^ 4) with 16 in *. change (2 ^ 3) with 8 in *.
  unfold utf8_encode.
  destruct (Z.ltb_spec cp 0x80); [|destruct (Z.ltb_spec cp 0x800); [|destruct (Z.ltb_spec cp 0x10000)]];
    intros Hfit; unfold size in Hfit; cbn [length] in Hfit; cbn [orb];
    (rewrite (proj2 (Z.ltb_ge (max - _) _)) by (unfold size; lia)); cbn [Z.eqb Pos.eqb]; do 2 f_equal;
    rewrite ?land_3f, ?Z.shiftr_div_pow2 by lia;
    change (2 ^ 6) with 64; change (2 ^ 12) with 4096; change (2 ^ 18) with 262144;
    rewrite ?L2, ?L3, ?L14, ?L30 by lia; repeat f_equal; width_lia.
Qed.

(** Decoding what was encoded. *)
Lemma utf16_text_complete fuel bytes off index max text pre cps post :
  bytes = pre ++ utf16_bytes cps ++ post -> off + index * 2 = size pre ->
  Forall valid_cp cps -> (length cps < fuel)%nat -> size (text ++ text_of cps) <= max ->
  utf16_text fuel bytes off index (index + units_of cps) max text = Returns (text ++ text_of cps).
Proof.
  intros E Ho Hv. revert fuel index text pre E Ho.
  induction Hv as [|cp cps Hcp Hv IH]; intros fuel index text pre E Ho Hf Hmax;
    (destruct fuel as [|fuel]; [cbn in Hf; lia|]); cbn [utf16_text].
  { change (units_of []) with 0. rewrite Z.add_0_r, Z.ltb_irrefl. cbn. by rewrite app_nil_r. }
  pose proof Hcp as [[Hr Hs] H0]. rewrite utf16_bytes_cons in E. rewrite units_of_cons.
  rewrite text_of_cons, !size_app in Hmax. pose proof (units_of_nonneg cps). pose proof (size_nonneg (text_of cps)).
  rewrite (proj2 (Z.ltb_lt index _)) by (destruct (Z.leb_spec 0x10000 cp); lia). cbn [negb].
  unfold utf16_units in E. destruct (Z.ltb_spec cp 0x10000) as [Hb|Hb]; cbn [map concat] in E;
    rewrite app_nil_r, <- !app_assoc in E.
  - rewrite (utf16_unit_at bytes pre cp (utf16_bytes cps ++ post) off index) by (done || lia).
    cbn [or_fail mbind answer_bind].
    destruct (Z.leb_spec 0xd800 cp), (Z.leb_spec cp 0xdbff); try lia; cbn [andb];
      (destruct (Z.leb_spec 0xdc00 cp), (Z.leb_spec cp 0xdfff); try lia);
      cbn [andb negb require mbind answer_bind];
      rewrite (proj2 (Z.eqb_neq cp 0)) by done; cbn [negb require mbind answer_bind];
      rewrite append_complete by (done || lia); cbn [no_overflow mbind answer_bind];
      (destruct (Z.leb_spec 0x10000 cp); [lia|]); rewrite Z.add_assoc;
      (rewrite (IH fuel (index + 1) _ (pre ++ be16 cp)); [by rewrite text_of_cons, <- app_assoc
        | by rewrite E, <- app_assoc | rewrite size_app; rewrite be16_size; lia | cbn in Hf; lia | rewrite !size_app; lia]).
  - set (hi := 0xd800 + (cp - 0x10000) / 1024) in *. set (lo := 0xdc00 + (cp - 0x10000) mod 1024) in *.
    assert (Hhi : 0xd800 <= hi <= 0xdbff) by (unfold hi; lia).
    assert (Hlo : 0xdc00 <= lo <= 0xdfff) by (unfold lo; lia).
    rewrite (utf16_unit_at bytes pre hi (be16 lo ++ utf16_bytes cps ++ post) off index);
      [|exact E|done|lia].
    cbn [or_fail mbind answer_bind]. rewrite (proj2 (Z.leb_le 0xd800 hi)), (proj2 (Z.leb_le hi 0xdbff)) by lia.
    destruct (Z.leb_spec 0x10000 cp); [|lia].
    cbn [andb]. rewrite (proj2 (Z.leb_gt (index + _) _)) by lia. cbn [negb require mbind answer_bind].
    rewrite (utf16_unit_at bytes (pre ++ be16 hi) lo (utf16_bytes cps ++ post) off (index + 1));
      [|by rewrite E, <- app_assoc|rewrite size_app; rewrite be16_size; lia|lia].
    cbn [or_fail mbind answer_bind]. rewrite (proj2 (Z.ltb_ge lo 0xdc00)), (proj2 (Z.ltb_ge 0xdfff lo)) by lia.
    cbn [orb negb require mbind answer_bind].
    assert (Hcode : 0x10000 + Z.shiftl (hi - 0xd800) 10 + (lo - 0xdc00) = cp).
    { rewrite Z.shiftl_mul_pow2 by lia. change (2 ^ 10) with 1024. unfold hi, lo. lia. }
    rewrite Hcode, (proj2 (Z.eqb_neq cp 0)) by done. cbn [negb require mbind answer_bind].
    rewrite append_complete by (done || lia). cbn [no_overflow mbind answer_bind].
    replace (index + (2 + units_of cps)) with (index + 1 + 1 + units_of cps) by lia.
    rewrite (IH fuel (index + 1 + 1) _ (pre ++ be16 hi ++ be16 lo)).
    + by rewrite text_of_cons, <- app_assoc.
    + by rewrite E, <- !app_assoc.
    + rewrite !size_app, !be16_size. lia.
    + cbn in Hf. lia.
    + rewrite !size_app. lia.
Qed.

(** ** Lemmas: decoding any text *)

Lemma encode_size cp : valid_cp cp ->
  size (utf8_encode cp) = (if cp <? 0x80 then 1 else if cp <? 0x800 then 2 else if cp <? 0x10000 then 3 else 4).
Proof. intros _. unfold utf8_encode. by repeat destruct (_ <? _). Qed.

Lemma append_sound out max cp out' :
  0 <= cp -> plist_utf8_append out max cp = Some out' -> valid_cp cp /\ out' = out ++ utf8_encode cp.
Proof.
  intros Hp Ha. pose proof Ha as Hg. unfold plist_utf8_append in Hg.
  destruct ((cp =? 0) || (0x10ffff <? cp) || ((0xd800 <=? cp) && (cp <=? 0xdfff))) eqn:Hc; [done|].
  rewrite !orb_false_iff, andb_false_iff, Z.eqb_neq, Z.ltb_ge, !Z.leb_gt in Hc.
  assert (Hv : valid_cp cp) by (unfold valid_cp, scalar_value; lia). split; [done|].
  cbn zeta in Hg. rewrite <- encode_size in Hg by done.
  destruct ((max <? size out) || (max - size out <? size (utf8_encode cp))) eqn:Hf; [done|].
  rewrite orb_false_iff, !Z.ltb_ge in Hf. rewrite append_complete in Ha by (done || lia). congruence.
Qed.

Lemma deref_byte bytes off : Forall is_byte bytes -> 0 <= off < size bytes -> safe (deref bytes off) is_byte.
Proof.
  intros Hb H. destruct (deref_in bytes off H) as (b & -> & Hl). cbn.
  by eapply list.Forall_lookup_1.
Qed.

Lemma utf16_unit_safe bytes off index :
  Forall is_byte bytes -> 0 <= off + index * 2 -> off + index * 2 + 2 <= size bytes ->
  safe (utf16_unit bytes off index) (fun u => 0 <= u < 65536).
Proof.
  intros Hb H1 H2. unfold utf16_unit. eapply safe_bind; [apply deref_byte; [done|lia]|]. intros hi _.
  eapply safe_bind; [apply deref_byte; [done|lia]|]. intros lo _. cbn. unfold u16. lia.
Qed.

Lemma ascii_bytes_safe bytes off count :
  Forall is_byte bytes -> 0 <= off -> off + Z.of_nat count <= size bytes ->
  ans (ascii_bytes bytes off count) chars.
Proof.
  intros Hb. revert off. induction count as [|count IH]; intros off H1 H2; [constructor|]. cbn [ascii_bytes].
  eapply ans_bind; [apply ans_or_fail, deref_byte; [done|lia]|]. intros b Hr.
  apply ans_guard. intros Hc.
  rewrite negb_true_iff, orb_false_iff, Z.eqb_neq, Z.leb_gt in Hc.
  eapply ans_bind; [apply IH; lia|]. intros rest Hrest. constructor; [unfold is_byte in Hr; lia | done].
Qed.

Lemma ascii_bytes_complete bytes pre text post off :
  bytes = pre ++ text ++ post -> off = size pre -> Forall (fun b => 0 < b < 0x80) text ->
  ascii_bytes bytes off (length text) = Returns text.
Proof.
  intros E Ho Ht. revert pre off E Ho. induction Ht as [|b text Hb Ht IH]; intros pre off E Ho; [done|].
  cbn [length ascii_bytes]. rewrite (deref_at bytes pre b (text ++ post) off) by done.
  cbn [or_fail mbind answer_bind]. rewrite (proj2 (Z.eqb_neq b 0)), (proj2 (Z.leb_gt 0x80 b)) by lia.
  cbn [orb negb require mbind answer_bind]. rewrite (IH (pre ++ [b])).
  - done.
  - by rewrite E, <- app_assoc.
  - rewrite size_app. change (size [b]) with 1. lia.
Qed.

Lemma utf16_text_safe fuel bytes off index count max text :
  Forall is_byte bytes -> 0 <= off -> 0 <= index -> off + count * 2 <= size bytes ->
  (Z.to_nat (count - index) < fuel)%nat -> chars text ->
  ans (utf16_text fuel bytes off index count max text) chars.
Proof.
  intros Hb Ho. revert index text. induction fuel as [|fuel IH]; intros index text Hi Hs Hf Ht; [lia|].
  cbn [utf16_text]. destruct (Z.ltb_spec index count) as [Hc|Hc]; cbn [negb]; [|done].
  eapply ans_bind; [apply ans_or_fail, utf16_unit_safe; (done || lia)|]. intros first Hfirst. cbn beta in Hfirst.
  eapply ans_bind with (P := fun '(cp, index') => 0 <= cp /\ index < index').
  { destruct ((0xd800 <=? first) && (first <=? 0xdbff)) eqn:Hsur.
    - rewrite andb_true_iff, !Z.leb_le in Hsur.
      apply ans_guard. intros E.
      rewrite negb_true_iff, Z.leb_gt in E.
      eapply ans_bind; [apply ans_or_fail, utf16_unit_safe; (done || lia)|]. intros second H2. cbn beta in H2.
      apply ans_guard. intros E2. cbn.
      rewrite negb_true_iff, orb_false_iff, !Z.ltb_ge in E2. rewrite Z.shiftl_mul_pow2 by lia. lia.
    - apply ans_guard. intros _. cbn. lia. }
  intros [cp index'] [Hcp Hi']. apply ans_guard. intros _.
  eapply ans_bind with (P := chars); [|intros text' Ht'; apply IH; (done || lia)].
  apply ans_no_overflow. intros text' [Hv ->]%append_sound; [|done].
  apply Forall_app. split; [done | by apply encode_chars].
Qed.

(** ** The layout of an encoded property list *)

(** ** The layout *)

(** [bs] are the bytes at [off]. *)
Definition holds (bytes : list Z) (off : Z) (bs : list Z) : Prop :=
  exists pre post, bytes = pre ++ bs ++ post /\ off = size pre.

Definition marker_length (marker len : Z) : list Z :=
  if len <? 15 then [marker + len]
  else [marker + 15; 0x10 + plist_width_exponent (plist_uint_width len)] ++
    uint_bytes (plist_uint_width len) len.

Definition string_layout (s : cstring) (bs : list Z) : Prop :=
  exists cps, text_ok s cps /\
    bs = if all_ascii cps then marker_length 0x50 (size s) ++ s
         else marker_length 0x60 (units_of cps) ++ utf16_bytes cps.

Definition object_layout (reference_size : nat) (object : PlistEncodeObject) (bs : list Z) : Prop :=
  match object with
  | KeyObject key => string_layout key bs
  | ValueObject (PlistBool boolean) _ => bs = [if boolean then 0x09 else 0x08]
  | ValueObject (PlistUint integer) _ =>
      bs = (0x10 + plist_width_exponent (plist_uint_width integer)) ::
        uint_bytes (plist_uint_width integer) integer
  | ValueObject (PlistReal bits) _ => bs = 0x23 :: uint_bytes 8 bits
  | ValueObject (PlistString s) _ => string_layout s bs
  | ValueObject (PlistData data) _ => bs = marker_length 0x40 (size data) ++ data
  | ValueObject (PlistArray items) references =>
      bs = marker_length 0xa0 (size items) ++ concat (map (uint_bytes reference_size) references)
  | ValueObject (PlistDict entries) references =>
      bs = marker_length 0xd0 (size entries) ++ concat (map (uint_bytes reference_size) references)
  end.

(** Where consecutive pieces start. *)
Fixpoint starts (position : Z) (chunks : list (list Z)) : list Z :=
  match chunks with
  | [] => []
  | chunk :: chunks' => position :: starts (position + size chunk) chunks'
  end.

(** The values that the constructors of [Plist] make. *)
Inductive plist_ok : AirPlayPlistValue -> Prop :=
  | ok_bool b : plist_ok (PlistBool b)
  | ok_uint n : is_u64 n -> plist_ok (PlistUint n)
  | ok_real n : is_u64 n -> plist_ok (PlistReal n)
  | ok_string s cps : text_ok s cps -> plist_ok (PlistString s)
  | ok_data l : Forall is_byte l -> size l <= AIRPLAY_PLIST_MAX_DATA_BYTES -> plist_ok (PlistData l)
  | ok_array items : size items <= AIRPLAY_PLIST_MAX_CONTAINER_ITEMS -> Forall plist_ok items ->
      plist_ok (PlistArray items)
  | ok_dict entries : size entries <= AIRPLAY_PLIST_MAX_CONTAINER_ITEMS -> NoDup (map fst entries) ->
      Forall (fun key => exists cps, text_ok key cps) (map fst entries) ->
      Forall plist_ok (map snd entries) -> plist_ok (PlistDict entries).

(** An object that can be written: the table has at most 4096 of them. *)
Definition object_ok (object : PlistEncodeObject) : Prop :=
  match object with
  | KeyObject key => exists cps, text_ok key cps
  | ValueObject value references => plist_ok value
  end.

(** ** Lemmas: numbers *)

Lemma uint_width_cases n : plist_uint_width n = 1%nat \/ plist_uint_width n = 2%nat \/
  plist_uint_width n = 4%nat \/ plist_uint_width n = 8%nat.
Proof. unfold plist_uint_width. repeat destruct (_ <=? _); auto. Qed.

Lemma uint_width_bound n : (1 <= plist_uint_width n <= 8)%nat.
Proof. pose proof (uint_width_cases n). lia. Qed.

Lemma width_exponent_bound w : 0 <= plist_width_exponent w <= 3.
Proof. unfold plist_width_exponent. destruct w as [|[|[|[|[|w]]]]]; lia. Qed.

Lemma marker_or_small marker n :
  In marker [0x10; 0x40; 0x50; 0x60; 0xa0; 0xd0] -> 0 <= n < 16 -> u8 (Z.lor marker n) = marker + n.
Proof.
  intros Hm Hn. assert (Hk : exists k, 0 <= k < 16 /\ marker = k * 2 ^ 4).
  { exists (marker / 16). cbn in Hm. repeat destruct Hm as [<-|Hm]; (split; [cbn; lia|done]) || done. }
  destruct Hk as (k & Hk & ->). rewrite lor_marker by (cbn; lia). cbn. unfold u8. lia.
Qed.

Lemma uint_bytes_2 v : uint_bytes 2 v = be16 v.
Proof. unfold be16. cbn. by rewrite Z.shiftr_0_r. Qed.

Lemma surrogates cp : 0x10000 <= cp <= 0x10ffff ->
  u16 (Z.lor 0xd800 (Z.shiftr (cp - 0x10000) 10)) = 0xd800 + (cp - 0x10000) / 1024 /\
  u16 (Z.lor 0xdc00 (Z.land (cp - 0x10000) 0x3ff)) = 0xdc00 + (cp - 0x10000) mod 1024.
Proof.
  intros H. change 0x3ff with (Z.ones 10). rewrite Z.land_ones, Z.shiftr_div_pow2 by lia.
  pose proof (lor_marker 54 10) as L1. pose proof (lor_marker 55 10) as L2.
  change (54 * 2 ^ 10) with 0xd800 in L1. change (55 * 2 ^ 10) with 0xdc00 in L2.
  change (2 ^ 10) with 1024 in *. rewrite L1, L2 by lia. unfold u16. lia.
Qed.

(** ** Writers *)

Section writers.
Context (alloc : Z -> bool).

(** The buffer's bytes are inside of its allocation, which is within the limit. *)
Record buffer_ok (b : PlistBuffer) : Prop := {
  buffer_fits : size (contents b) <= room b;
  buffer_room : room b = 0 \/ 128 <= room b;
  buffer_max : room b <= AIRPLAY_PLIST_MAX_BYTES
}.

(** [m] appends [bs], or fails for want of memory or because of the limit. *)
Definition writes (m : PlistBuffer -> answer PlistBuffer) (bs : list Z) : Prop :=
  forall b, buffer_ok b ->
    match m b with
    | Returns b' => buffer_ok b' /\ contents b' = contents b ++ bs
    | Fails e => e = AIRPLAY_PLIST_ERROR_OUT_OF_MEMORY /\ (exists n, alloc n = false) \/
        e = AIRPLAY_PLIST_ERROR_LIMIT_EXCEEDED /\ AIRPLAY_PLIST_MAX_BYTES < size (contents b ++ bs)
    | Undefined => False
    end.

Lemma plist_buffer_grow_ok fuel capacity required :
  128 <= capacity <= AIRPLAY_PLIST_MAX_BYTES -> required <= AIRPLAY_PLIST_MAX_BYTES -> (0 < fuel)%nat ->
  AIRPLAY_PLIST_MAX_BYTES < capacity * 2 ^ Z.of_nat fuel ->
  exists c, plist_buffer_grow fuel capacity required = Returns c /\
    required <= c <= AIRPLAY_PLIST_MAX_BYTES /\ 128 <= c.
Proof.
  revert capacity. induction fuel as [|fuel IH]; intros capacity Hc Hr Hf Hp; [lia|].
  cbn [plist_buffer_grow]. destruct (Z.ltb_spec capacity required); cbn [negb]; [|exists capacity; split; [done|lia]].
  change (AIRPLAY_PLIST_MAX_BYTES / 2) with 524288. unfold AIRPLAY_PLIST_MAX_BYTES in *.
  destruct (Z.ltb_spec 524288 capacity); [eexists; split; [done|lia]|].
  rewrite Nat2Z.inj_succ, Z.pow_succ_r in Hp by lia.
  assert (0 < fuel)%nat by (destruct fuel; [cbn in Hp; lia|lia]).
  apply IH; lia.
Qed.

Lemma reserve_ok additional b :
  buffer_ok b -> 0 <= additional ->
  match plist_buffer_reserve alloc additional b with
  | Returns b' => buffer_ok b' /\ contents b' = contents b /\ size (contents b) + additional <= room b'
  | Fails e => e = AIRPLAY_PLIST_ERROR_OUT_OF_MEMORY /\ (exists n, alloc n = false) \/
      e = AIRPLAY_PLIST_ERROR_LIMIT_EXCEEDED /\ AIRPLAY_PLIST_MAX_BYTES < size (contents b) + additional
  | Undefined => False
  end.
Proof.
  intros [Hf Hr Hm] Ha. unfold plist_buffer_reserve, plist_size_add. pose proof (size_nonneg (contents b)).
  destruct (Z.ltb_spec (SIZE_MAX - size (contents b)) additional) as [Ho|Ho].
  { right. split; [done|]. unfold SIZE_MAX, UINT64_MAX, AIRPLAY_PLIST_MAX_BYTES in *. lia. }
  destruct (Z.ltb_spec AIRPLAY_PLIST_MAX_BYTES (size (contents b) + additional)) as [Hl|Hl]; [by right|].
  cbn [negb ensure mbind outcome_bind or_fail answer_bind].
  destruct (Z.leb_spec (size (contents b) + additional) (room b)) as [He|He]; [done|].
  destruct (plist_buffer_grow_ok 16 (if room b =? 0 then 128 else room b) (size (contents b) + additional))
    as (c & -> & Hc); [| | lia | |].
  - destruct (Z.eqb_spec (room b) 0); unfold AIRPLAY_PLIST_MAX_BYTES in *; lia.
  - done.
  - change (2 ^ Z.of_nat 16) with 65536. destruct (Z.eqb_spec (room b) 0); unfold AIRPLAY_PLIST_MAX_BYTES in *; lia.
  - cbn [mbind answer_bind]. destruct (alloc c) eqn:Hall; cbn [require mbind answer_bind]; [|left; eauto].
    cbn. split_and!; [constructor; cbn; lia | done | lia].
Qed.

Lemma writes_bytes bs : writes (plist_buffer_write alloc bs) bs.
Proof.
  intros b Hb. unfold plist_buffer_write. pose proof (reserve_ok (size bs) b Hb (size_nonneg bs)) as H.
  rewrite size_app. destruct (plist_buffer_reserve alloc (size bs) b) as [b'|e|]; cbn [mbind answer_bind]; [|done..].
  destruct H as ([Hf Hr Hm] & Hc & Hs). rewrite Hc, (proj2 (Z.ltb_ge (room b') _)) by done.
  cbn. split; [|done]. constructor; cbn; rewrite ?size_app; done.
Qed.

Lemma writes_nil : writes Returns [].
Proof. intros b Hb. cbn. by rewrite app_nil_r. Qed.

Lemma writes_seq m k bs bs' :
  writes m bs -> writes k bs' -> writes (fun b => m b ≫= k) (bs ++ bs').
Proof.
  intros Hm Hk b Hb. specialize (Hm b Hb). destruct (m b) as [b'|e|]; cbn [mbind answer_bind]; [| |done].
  - destruct Hm as [Hb' Hc]. specialize (Hk b' Hb'). rewrite Hc, <- app_assoc in Hk. done.
  - destruct Hm as [|[-> Hl]]; [by left|right]. split; [done|]. rewrite app_assoc, size_app.
    pose proof (size_nonneg bs'). lia.
Qed.

Lemma writes_ext m m' bs : (forall b, m b = m' b) -> writes m bs -> writes m' bs.
Proof. intros E H b Hb. rewrite <- E. by apply H. Qed.

Lemma writes_byte v : writes (plist_buffer_write_byte alloc v) [v].
Proof. apply writes_bytes. Qed.

Lemma writes_uint v width :
  (1 <= width <= 8)%nat -> writes (plist_buffer_write_uint alloc v width) (uint_bytes width v).
Proof.
  intros Hw b Hb. unfold plist_buffer_write_uint.
  rewrite (proj2 (Nat.eqb_neq width 0)), (proj2 (Nat.ltb_ge 8 width)) by lia. by apply writes_bytes.
Qed.

Lemma writes_marker_length marker len :
  In marker [0x40; 0x50; 0x60; 0xa0; 0xd0] -> 0 <= len ->
  writes (plist_buffer_write_marker_length alloc marker len) (marker_length marker len).
Proof.
  intros Hm Hl. unfold plist_buffer_write_marker_length, marker_length.
  assert (Hm' : In marker [0x10; 0x40; 0x50; 0x60; 0xa0; 0xd0]) by (right; done).
  destruct (Z.ltb_spec len 15) as [Hs|Hs].
  - replace (u8 len) with len by (unfold u8; lia). rewrite marker_or_small by (done || lia). apply writes_byte.
  - pose proof (width_exponent_bound (plist_uint_width len)). rewrite !marker_or_small by (cbn; auto || lia).
    apply (writes_seq _ _ [_]); [apply writes_byte|].
    apply (writes_seq _ _ [_]); [apply writes_byte|]. apply writes_uint, uint_width_bound.
Qed.
Lemma writes_unit v : writes (plist_buffer_write_uint alloc v 2) (be16 v).
Proof. rewrite <- uint_bytes_2. apply writes_uint. lia. Qed.

Lemma writes_utf16 fuel pre cps :
  Forall valid_cp cps -> (length cps < fuel)%nat ->
  writes (plist_encode_utf16 alloc fuel (pre ++ text_of cps) (length pre)) (utf16_bytes cps).
Proof.
  intros Hv. revert fuel pre. induction Hv as [|cp cps Hcp Hv IH]; intros fuel pre Hf;
    (destruct fuel as [|fuel]; [cbn in Hf; lia|]).
  { eapply writes_ext; [|apply writes_nil]. intros b. cbn [plist_encode_utf16].
    change (text_of []) with (@nil Z). by rewrite app_nil_r, (proj2 (Nat.ltb_ge _ (length pre))) by lia. }
  rewrite utf16_bytes_cons. pose proof Hcp as [[Hr _] _].
  eapply writes_ext; [|apply writes_seq; [|apply (IH fuel (pre ++ utf8_encode cp)); cbn in Hf; lia]].
  - intros b. cbn [plist_encode_utf16]. rewrite next_of_text by done. pose proof (encode_length cp).
    rewrite (proj2 (Nat.ltb_lt (length pre) _)) by (rewrite text_of_cons, !length_app; lia).
    cbn [negb or_fail mbind answer_bind]. rewrite text_of_cons, app_assoc. reflexivity.
  - unfold utf16_units. destruct (Z.ltb_spec cp 0x10000) as [Hb|Hb]; cbn [map concat]; rewrite app_nil_r.
    { apply writes_unit. }
    destruct (surrogates cp) as [-> ->]; [lia|]. apply writes_seq; apply writes_unit.
Qed.

Lemma writes_string s cps : text_ok s cps ->
  writes (plist_encode_string alloc s)
    (if all_ascii cps then marker_length 0x50 (size s) ++ s
     else marker_length 0x60 (units_of cps) ++ utf16_bytes cps).
Proof.
  intros H. unfold plist_encode_string. rewrite (measure_complete s cps) by done.
  destruct H as [Hv -> _ _]. cbn [or_fail mbind answer_bind].
  destruct (all_ascii cps); (apply writes_seq; [apply writes_marker_length; [cbn; auto 10|]|]).
  - apply size_nonneg.
  - apply writes_bytes.
  - apply units_of_nonneg.
  - apply (writes_utf16 _ []); [done|]. pose proof (cps_length cps). lia.
Qed.

Lemma writes_references references width : (1 <= width <= 8)%nat ->
  writes (write_references alloc references width) (concat (map (uint_bytes width) references)).
Proof.
  intros Hw. induction references as [|r rs IH]; [apply writes_nil|]. cbn [map concat].
  apply (writes_seq (plist_buffer_write_uint alloc r width)); [by apply writes_uint | done].
Qed.

Lemma writes_object object width : object_ok object -> (1 <= width <= 8)%nat ->
  exists bs, object_layout width object bs /\ writes (plist_encode_object alloc object width) bs.
Proof.
  intros Ho Hw. destruct object as [key|value references].
  { destruct Ho as [cps Ht]. eexists. split; [by exists cps|]. by apply writes_string. }
  cbn in Ho. destruct Ho as [b|n Hn|n Hn|s cps Ht|l Hl Hs|items Hs _|entries Hs _ _ _]; cbn [object_layout].
  - eexists. split; [done|]. apply writes_byte.
  - eexists. split; [done|]. unfold plist_encode_object.
    pose proof (width_exponent_bound (plist_uint_width n)). rewrite marker_or_small by (cbn; auto || lia).
    apply (writes_seq _ _ [_]); [apply writes_byte|]. apply writes_uint, uint_width_bound.
  - eexists. split; [done|]. apply (writes_seq _ _ [_]); [apply writes_byte|]. apply writes_uint. lia.
  - eexists. split; [by exists cps|]. by apply writes_string.
  - eexists. split; [done|]. apply writes_seq; [apply writes_marker_length; [cbn; auto|apply size_nonneg]|].
    apply writes_bytes.
  - eexists. split; [done|]. apply writes_seq; [apply writes_marker_length; [cbn; auto|apply size_nonneg]|].
    by apply writes_references.
  - eexists. split; [done|]. apply writes_seq; [apply writes_marker_length; [cbn; auto 10|apply size_nonneg]|].
    by apply writes_references.
Qed.

Lemma write_objects_ok objects width :
  Forall object_ok objects -> (1 <= width <= 8)%nat ->
  exists chunks, Forall2 (object_layout width) objects chunks /\
    forall b, buffer_ok b ->
      match write_objects alloc objects width b with
      | Returns (offsets, b') => buffer_ok b' /\ contents b' = contents b ++ concat chunks /\
          offsets = starts (size (contents b)) chunks
      | Fails e => e = AIRPLAY_PLIST_ERROR_OUT_OF_MEMORY /\ (exists n, alloc n = false) \/
          e = AIRPLAY_PLIST_ERROR_LIMIT_EXCEEDED /\
            AIRPLAY_PLIST_MAX_BYTES < size (contents b ++ concat chunks)
      | Undefined => False
      end.
Proof.
  intros Ho Hw. induction Ho as [|object objects Hobj Ho (chunks & Hl & IH)].
  { exists []. split; [constructor|]. intros b Hb. cbn. by rewrite app_nil_r. }
  destruct (writes_object object width Hobj Hw) as (bs & Hbs & Hm). exists (bs :: chunks).
  split; [by constructor|]. intros b Hb. cbn [write_objects concat starts]. specialize (Hm b Hb).
  destruct (plist_encode_object alloc object width b) as [b1|e|]; cbn [mbind answer_bind]; [| |done].
  - destruct Hm as [Hb1 Hc1]. specialize (IH b1 Hb1).
    destruct (write_objects alloc objects width b1) as [[offs b2]|e|]; cbn [mbind answer_bind]; [| |done].
    + destruct IH as (Hb2 & Hc2 & ->). rewrite Hc2, Hc1, size_app, <- app_assoc. done.
    + by rewrite Hc1, <- app_assoc in IH.
  - destruct Hm as [|[-> Hlim]]; [by left|right]. split; [done|]. rewrite app_assoc, size_app.
    pose proof (size_nonneg (concat chunks)). lia.
Qed.
End writers.
