(* ===== verification/PlistTree.v ===== *)
(** * The table of objects of a tree

    The numbering of the encoder: in a table that has the objects of a tree, every
    reference leads to a later object, and the objects of the tree are as many as
    its nodes, keys included. *)

From S2P Require Import Prelude Buffers Plist PlistEncode PlistDecode PlistLayout.

(** The sum over a list. *)
Definition total {A} (f : A -> Z) : list A -> Z :=
  fix total (l : list A) : Z := match l with [] => 0 | a :: l' => f a + total l' end.

(** The nodes of a tree: values and keys. *)
Fixpoint plist_nodes (value : AirPlayPlistValue) : Z :=
  match value with
  | PlistArray items => 1 + total plist_nodes items
  | PlistDict entries => 1 + total (fun entry => 1 + plist_nodes (snd entry)) entries
  | _ => 1
  end.

(** The levels below a value. *)
Fixpoint plist_depth (value : AirPlayPlistValue) : nat :=
  match value with
  | PlistArray [] | PlistDict [] => 0
  | PlistArray items => S (foldr (fun item d => Nat.max (plist_depth item) d) 0%nat items)
  | PlistDict entries => S (foldr (fun entry d => Nat.max (plist_depth (snd entry)) d) 0%nat entries)
  | _ => 0
  end.

(** More bytes than the objects of a tree and their entries in the tables take. *)
Fixpoint plist_weight (value : AirPlayPlistValue) : Z :=
  match value with
  | PlistString s => 20 + 2 * size s
  | PlistData l => 20 + size l
  | PlistArray items => 20 + total (fun item => 2 + plist_weight item) items
  | PlistDict entries =>
      20 + total (fun entry : cstring * AirPlayPlistValue => 2 + (20 + 2 * size (fst entry)) + (2 + plist_weight (snd entry))) entries
  | _ => 20
  end.

Lemma total_nonneg {A} (f : A -> Z) l : (forall a, 0 <= f a) -> 0 <= total f l.
Proof. intros H. induction l as [|a l IH]; cbn; [lia|]. pose proof (H a). lia. Qed.

Lemma total_app {A} (f : A -> Z) l l' : total f (l ++ l') = total f l + total f l'.
Proof. induction l as [|a l IH]; cbn; [done|]. lia. Qed.

Lemma total_map {A B} (f : B -> Z) (g : A -> B) l : total f (map g l) = total (fun a => f (g a)) l.
Proof. induction l as [|a l IH]; cbn; [done|]. lia. Qed.

Lemma total_add {A} (f g : A -> Z) l : total (fun a => f a + g a) l = total f l + total g l.
Proof. induction l as [|a l IH]; cbn; [done|]. lia. Qed.

Lemma total_const {A} (c : Z) (l : list A) : total (fun _ => c) l = c * size l.
Proof. unfold size. induction l as [|a l IH]; cbn [total length]; lia. Qed.

Lemma plist_nodes_pos : forall value, 1 <= plist_nodes value.
Proof.
  fix IH 1. intros [| | | | |items|entries]; cbn [plist_nodes]; try lia.
  - cut (0 <= total plist_nodes items); [lia|].
    induction items as [|i items IHl]; cbn [total]; [lia|]. pose proof (IH i). lia.
  - cut (0 <= total (fun entry => 1 + plist_nodes (snd entry)) entries); [lia|].
    induction entries as [|[k v] entries IHl]; cbn [total snd]; [lia|]. pose proof (IH v). lia.
Qed.

(** [value] is in the table under the number [id], in at most [levels] levels. *)
Fixpoint stored (objects : list PlistEncodeObject) (levels : nat) (value : AirPlayPlistValue) (id : Z) : Prop :=
  match levels with
  | O => False
  | S levels' =>
      0 <= id /\
      exists references, objects !! Z.to_nat id = Some (ValueObject value references) /\
        match value with
        | PlistArray items =>
            Forall2 (fun item reference => id < reference /\ stored objects levels' item reference)
              items references
        | PlistDict entries =>
            exists keys values, references = keys ++ values /\
              Forall2 (fun entry reference =>
                id < reference /\ objects !! Z.to_nat reference = Some (KeyObject (fst entry))) entries keys /\
              Forall2 (fun entry reference => id < reference /\ stored objects levels' (snd entry) reference)
                entries values
        | _ => references = []
        end
  end.

(** What the numbering of items of a kind is about: the number of objects, a bound
    on their bytes, items that are too deep, and that an item is in a table. *)
Record Numbering (A : Type) := mkNumbering {
  cost : A -> Z;
  weight : A -> Z;
  deep : A -> Prop;
  within : A -> list PlistEncodeObject -> Z -> Prop
}.
Arguments mkNumbering {A}.
Arguments cost {A}.
Arguments weight {A}.
Arguments deep {A}.
Arguments within {A}.

Definition object_weight (object : PlistEncodeObject) : Z :=
  match object with
  | KeyObject key => 20 + 2 * size key
  | ValueObject value references =>
      match value with PlistString s => 20 + 2 * size s | PlistData l => 20 + size l | _ => 20 end +
        2 * size references
  end.

Lemma size_multiply_exact a b : 0 <= a -> 0 < b -> a * b <= UINT64_MAX -> plist_size_multiply a b = Some (a * b).
Proof.
  intros Ha Hb Hab. unfold plist_size_multiply, SIZE_MAX. destruct (Z.eqb_spec a 0); [done|].
  rewrite (proj2 (Z.ltb_ge (UINT64_MAX / a) b)); [done|]. apply Z.div_le_lower_bound; lia.
Qed.

Section collect.
Context (alloc : Z -> bool).

(** The failures of the numbering. *)
Definition collect_error (too_large : Prop) (e : AirPlayPlistError) : Prop :=
  e = AIRPLAY_PLIST_ERROR_OUT_OF_MEMORY /\ (exists n, alloc n = false) \/
  e = AIRPLAY_PLIST_ERROR_LIMIT_EXCEEDED /\ too_large.

(** What a step of the numbering does for one item: it adds objects that make up
    the item wherever they are in a table at the same place. *)
Definition numbered {A} (k : Numbering A) (item : A) (objects : list PlistEncodeObject)
    (m : answer (Z * list PlistEncodeObject)) : Prop :=
  match m with
  | Returns (id, objects') => id = size objects /\
      exists added, objects' = objects ++ added /\ size added = cost k item /\
        total object_weight added = weight k item /\ Forall object_ok added /\
        size objects' <= AIRPLAY_PLIST_MAX_NODES /\
        forall pre post, length pre = length objects -> within k item (pre ++ added ++ post) id
  | Fails e => collect_error (AIRPLAY_PLIST_MAX_NODES < size objects + cost k item \/ deep k item) e
  | Undefined => False
  end.

Definition numbers {A} (k : Numbering A) (collect : A -> list PlistEncodeObject -> answer (Z * list PlistEncodeObject))
    (item : A) : Prop :=
  forall objects, size objects <= AIRPLAY_PLIST_MAX_NODES -> numbered k item objects (collect item objects).

Lemma collect_all_ok {A} (k : Numbering A) collect (items : list A) objects :
  (forall item, 0 <= cost k item) ->
  Forall (numbers k collect) items -> size objects <= AIRPLAY_PLIST_MAX_NODES ->
  match collect_all collect items objects with
  | Returns (references, objects') =>
      exists added, objects' = objects ++ added /\ size added = total (cost k) items /\
        total object_weight added = total (weight k) items /\
        Forall object_ok added /\ size objects' <= AIRPLAY_PLIST_MAX_NODES /\
        forall pre post, length pre = length objects ->
          Forall2 (fun item reference => size objects <= reference /\
            within k item (pre ++ added ++ post) reference) items references
  | Fails e => collect_error (AIRPLAY_PLIST_MAX_NODES < size objects + total (cost k) items \/
      Exists (deep k) items) e
  | Undefined => False
  end.
Proof.
  intros Hpos Hi. revert objects. induction Hi as [|item items Hitem Hi IH]; intros objects Hs; cbn [collect_all].
  { exists []. rewrite app_nil_r. by split_and!. }
  specialize (Hitem objects Hs). unfold numbered in Hitem. pose proof (total_nonneg _ items Hpos) as Hp.
  destruct (collect item objects) as [[id objects1]|e|]; [| |done].
  2: { destruct Hitem as [|[-> [H|H]]]; [by left|right..]; (split; [done|]).
       - left. cbn [total]. lia.
       - right. by left. }
  cbn [mbind answer_bind].
  destruct Hitem as (-> & added1 & -> & Hc1 & Hx1 & Ho1 & Hm1 & Hw1). specialize (IH _ Hm1).
  destruct (collect_all collect items (objects ++ added1)) as [[refs objects2]|e|]; [| |done].
  2: { destruct IH as [|[-> [H|H]]]; [by left|right..]; (split; [done|]).
       - left. cbn [total]. rewrite size_app in H. lia.
       - right. by right. }
  cbn [mbind answer_bind]. destruct IH as (added2 & -> & Hc2 & Hx2 & Ho2 & Hm2 & Hw2).
  exists (added1 ++ added2). rewrite <- app_assoc in *. split_and!.
  - done.
  - rewrite size_app. cbn [total]. lia.
  - rewrite total_app. cbn [total]. lia.
  - by apply Forall_app.
  - done.
  - intros pre post Hp1. constructor.
    + split; [lia|]. rewrite <- app_assoc. by apply Hw1.
    + rewrite size_app in Hw2. pose proof (size_nonneg added1).
      specialize (Hw2 (pre ++ added1) post ltac:(rewrite !length_app; lia)). rewrite <- !app_assoc in *.
      eapply Forall2_impl; [exact Hw2|]. cbn. intros a r [H1 H2]. split; [lia|done].
Qed.

Definition key_numbering : Numbering cstring :=
  mkNumbering (fun _ => 1) (fun key => 20 + 2 * size key) (fun _ => False)
    (fun key table id => table !! Z.to_nat id = Some (KeyObject key)).

Definition value_numbering (levels : nat) : Numbering AirPlayPlistValue :=
  mkNumbering plist_nodes plist_weight (fun value => (levels <= plist_depth value)%nat)
    (fun value table id => stored table levels value id).

(** A key is one object. *)
Lemma add_key_ok key : (exists cps, text_ok key cps) -> numbers key_numbering plist_encode_add_key key.
Proof.
  intros [cps Ht] objects Hs. unfold plist_encode_add_key. rewrite (measure_complete _ _ Ht).
  cbn [or_fail mbind answer_bind]. destruct (Z.leb_spec AIRPLAY_PLIST_MAX_NODES (size objects)) as [Hn|Hn];
    cbn [negb require mbind answer_bind numbered key_numbering cost weight deep within].
  { right. split; [done|]. left. lia. }
  split; [done|]. exists [KeyObject key]. split_and!; try done.
  - cbn [total object_weight]. lia.
  - constructor; [by exists cps | constructor].
  - rewrite size_app. change (size [KeyObject key]) with 1. lia.
  - intros pre post Hp. cbn [app]. unfold size. by rewrite Nat2Z.id, <- Hp, lookup_at.
Qed.

Lemma insert_at {A} (pre : list A) x y post : <[length pre := y]> (pre ++ x :: post) = pre ++ y :: post.
Proof. rewrite insert_app_r_alt by lia. by rewrite Nat.sub_diag. Qed.

Lemma Forall2_map_l {A B C} (R : B -> C -> Prop) (f : A -> B) l l' :
  Forall2 R (map f l) l' -> Forall2 (fun a => R (f a)) l l'.
Proof.
  revert l'. induction l as [|a l IH]; intros l' H; inversion H; subst; constructor; auto.
Qed.

(** The value goes to its place once its references are known. *)
Lemma numbered_place value levels objects added references :
  plist_ok value -> size objects + 1 + size added <= AIRPLAY_PLIST_MAX_NODES ->
  Forall object_ok added -> 1 + size added = plist_nodes value ->
  object_weight (ValueObject value references) + total object_weight added = plist_weight value ->
  (forall pre post, length pre = length objects ->
     stored (pre ++ (ValueObject value references :: added) ++ post) levels value (size objects)) ->
  numbered (value_numbering levels) value objects
    (Returns (size objects, <[Z.to_nat (size objects) := ValueObject value references]>
      (objects ++ [ValueObject value []] ++ added))).
Proof.
  intros Hv Hm Ho Hn Hx Hs. cbn [numbered value_numbering cost weight within]. split; [done|].
  exists (ValueObject value references :: added). cbn [app].
  assert (Hins : <[Z.to_nat (size objects) := ValueObject value references]>
    (objects ++ ValueObject value [] :: added) = objects ++ ValueObject value references :: added).
  { unfold size. by rewrite Nat2Z.id, insert_at. }
  rewrite !Hins, size_app, size_cons. split_and!; try done; try lia.
  by constructor.
Qed.

Lemma collect_leaf value levels objects :
  match value with PlistArray (_ :: _) | PlistDict (_ :: _) => False | _ => True end ->
  plist_ok value -> size objects < AIRPLAY_PLIST_MAX_NODES ->
  numbered (value_numbering (S levels)) value objects (Returns (size objects, objects ++ [ValueObject value []])).
Proof.
  intros Hl Hv Hs. replace (objects ++ [ValueObject value []]) with
    (<[Z.to_nat (size objects) := ValueObject value []]> (objects ++ [ValueObject value []] ++ []))
    by (rewrite app_nil_r; unfold size; by rewrite Nat2Z.id, insert_at).
  apply numbered_place.
  - done.
  - change (size []) with 0. lia.
  - constructor.
  - by destruct value as [| | | | |[]|[]].
  - destruct value as [| | | | |[]|[]]; try done; cbn [object_weight plist_weight total];
      change (size []) with 0; lia.
  - intros pre post Hpre. cbn [stored]. split; [apply size_nonneg|]. exists []. unfold size.
    rewrite Nat2Z.id, <- Hpre. split; [apply lookup_at|]. destruct value as [| | | | |[]|[]]; try done.
    exists [], []. by split_and!.
Qed.

Lemma foldr_map {A B C} (f : B -> C -> C) (g : A -> B) (c : C) l :
  foldr f c (map g l) = foldr (fun a => f (g a)) c l.
Proof. induction l as [|a l IH]; [done|]. cbn. by rewrite IH. Qed.

Lemma deep_items {A} (f : A -> nat) levels items :
  Exists (fun item => (levels <= f item)%nat) items ->
  (levels <= foldr (fun item d => Nat.max (f item) d) 0%nat items)%nat.
Proof. induction 1; cbn; lia. Qed.

Lemma lookup_place {A} pre (x : A) added post objects :
  length pre = length objects -> (pre ++ (x :: added) ++ post) !! Z.to_nat (@size A objects) = Some x.
Proof. intros H. unfold size. rewrite Nat2Z.id, <- H. apply lookup_at. Qed.
(** The children of a value are numbered before the value's own place is filled. *)
Lemma collect_array levels collect items objects :
  Forall (numbers (value_numbering levels) collect) items -> plist_ok (PlistArray items) ->
  items <> [] -> size objects < AIRPLAY_PLIST_MAX_NODES ->
  numbered (value_numbering (S levels)) (PlistArray items) objects
    ('(references, objects') ← collect_all collect items (objects ++ [ValueObject (PlistArray items) []]);
     Returns (size objects,
       <[Z.to_nat (size objects) := ValueObject (PlistArray items) references]> objects')).
Proof.
  intros Hitems Hok Hne Hs. assert (Hs1 : size (objects ++ [ValueObject (PlistArray items) []]) <= AIRPLAY_PLIST_MAX_NODES)
    by (rewrite size_app, size_cons; change (size []) with 0; lia).
  assert (Hpos : forall item, 0 <= cost (value_numbering levels) item).
  { intros item. cbn. pose proof (plist_nodes_pos item). lia. }
  pose proof (collect_all_ok _ collect items _ Hpos Hitems Hs1) as Hc.
  destruct (collect_all collect items _) as [[refs objects']|e|]; cbn [mbind answer_bind]; [| |done].
  2: { destruct Hc as [|[-> Hc]]; [by left|right]. split; [done|]. destruct Hc as [Hc|Hc]; [left|right].
       - rewrite size_app, size_cons in Hc. change (size []) with 0 in Hc. cbn in *. lia.
       - apply deep_items in Hc. cbn [deep value_numbering plist_depth]. destruct items; [done|]. lia. }
  destruct Hc as (added & -> & Hn & Hx & Ho & Hm & Hw). cbn [cost weight within value_numbering] in *.
  assert (Hlen : size refs = size items).
  { unfold size. by rewrite <- (Forall2_length _ _ _ (Hw _ [] eq_refl)). }
  rewrite <- app_assoc in *. rewrite !size_app, size_cons in *. change (size []) with 0 in *.
  apply numbered_place; try done; try (cbn [plist_nodes]; lia).
  - cbn [object_weight plist_weight]. rewrite (total_add (fun _ => 2) plist_weight), total_const. lia.
  - intros pre post Hpre. cbn [stored]. split; [apply size_nonneg|]. exists refs. split; [by apply lookup_place|].
    specialize (Hw (pre ++ [ValueObject (PlistArray items) refs]) post ltac:(rewrite !length_app; cbn; lia)).
    rewrite <- app_assoc in Hw. eapply Forall2_impl; [exact Hw|]. cbn beta. intros item r [H1 H2].
    split; [lia|done].
Qed.

Lemma collect_dict levels collect entries objects :
  Forall (numbers (value_numbering levels) collect) (map snd entries) -> plist_ok (PlistDict entries) ->
  Forall (fun key => exists cps, text_ok key cps) (map fst entries) ->
  entries <> [] -> size objects < AIRPLAY_PLIST_MAX_NODES ->
  numbered (value_numbering (S levels)) (PlistDict entries) objects
    ('(references, objects') ←
       ('(keys, objects') ← collect_all plist_encode_add_key (map fst entries)
                              (objects ++ [ValueObject (PlistDict entries) []]);
        '(values, objects') ← collect_all collect (map snd entries) objects';
        Returns (keys ++ values, objects'));
     Returns (size objects,
       <[Z.to_nat (size objects) := ValueObject (PlistDict entries) references]> objects')).
Proof.
  intros Hitems Hok Hkeys Hne Hs.
  assert (Hs1 : size (objects ++ [ValueObject (PlistDict entries) []]) <= AIRPLAY_PLIST_MAX_NODES)
    by (rewrite size_app, size_cons; change (size []) with 0; lia).
  assert (Hpos : forall item, 0 <= cost (value_numbering levels) item).
  { intros item. cbn. pose proof (plist_nodes_pos item). lia. }
  assert (Hkeys' : Forall (numbers key_numbering plist_encode_add_key) (map fst entries))
    by (eapply Forall_impl; [exact Hkeys|]; intros; by apply add_key_ok).
  assert (Hnodes : plist_nodes (PlistDict entries) =
    1 + total (cost key_numbering) (map fst entries) + total plist_nodes (map snd entries)).
  { cbn [plist_nodes cost key_numbering]. rewrite !total_map, (total_add (fun _ => 1)). lia. }
  pose proof (total_nonneg _ (map snd entries) Hpos) as Hge. cbn [cost value_numbering] in Hge.
  pose proof (collect_all_ok key_numbering _ _ _ ltac:(done) Hkeys' Hs1) as Hc.
  destruct (collect_all plist_encode_add_key _ _) as [[keys objects1]|e|]; cbn [mbind answer_bind]; [| |done].
  2: { destruct Hc as [|[-> Hc]]; [by left|right]. split; [done|]. destruct Hc as [Hc|Hc].
       - left. rewrite size_app, size_cons in Hc. change (size []) with 0 in Hc. cbn [cost value_numbering]. lia.
       - apply Exists_exists in Hc as (? & _ & []). }
  destruct Hc as (added1 & -> & Hn1 & Hx1 & Ho1 & Hm1 & Hw1).
  pose proof (collect_all_ok _ collect (map snd entries) _ Hpos Hitems Hm1) as Hc.
  destruct (collect_all collect _ _) as [[values objects2]|e|]; cbn [mbind answer_bind]; [| |done].
  2: { destruct Hc as [|[-> Hc]]; [by left|right]. split; [done|]. destruct Hc as [Hc|Hc]; [left|right].
       - rewrite !size_app, size_cons in Hc. change (size []) with 0 in Hc. cbn [cost value_numbering] in *. lia.
       - apply deep_items in Hc. cbn [deep value_numbering plist_depth]. destruct entries; [done|].
         rewrite foldr_map in Hc. lia. }
  destruct Hc as (added2 & -> & Hn2 & Hx2 & Ho2 & Hm2 & Hw2). cbn [cost weight within value_numbering] in *.
  assert (Hlk : size keys = size entries).
  { unfold size. by rewrite <- (Forall2_length _ _ _ (Hw1 _ [] eq_refl)), length_map. }
  assert (Hlv : size values = size entries).
  { unfold size. by rewrite <- (Forall2_length _ _ _ (Hw2 _ [] eq_refl)), length_map. }
  rewrite <- !app_assoc in *. rewrite !size_app, size_cons in *. change (size []) with 0 in *.
  apply (numbered_place _ _ _ (added1 ++ added2)); try done.
  - rewrite size_app. lia.
  - by apply Forall_app.
  - rewrite size_app. lia.
  - cbn [object_weight plist_weight]. rewrite size_app, total_app, Hx1, Hx2, !total_map.
    cbn [weight key_numbering].
    rewrite (total_add (fun entry : cstring * AirPlayPlistValue => 2 + (20 + 2 * size (fst entry)))),
      !(total_add (A := cstring * AirPlayPlistValue) (fun _ => 2)), !total_const. lia.
  - intros pre post Hpre. cbn [stored]. split; [apply size_nonneg|]. exists (keys ++ values).
    split; [by apply lookup_place|]. exists keys, values. split; [done|].
    set (head := ValueObject (PlistDict entries) (keys ++ values)).
    specialize (Hw1 (pre ++ [head]) (added2 ++ post) ltac:(rewrite !length_app; cbn; lia)).
    specialize (Hw2 (pre ++ [head] ++ added1) post ltac:(rewrite !length_app; cbn; lia)).
    rewrite <- !app_assoc in *. cbn [app] in *. rewrite <- !app_assoc in *.
    apply Forall2_map_l in Hw1, Hw2. cbn [within key_numbering] in Hw1. pose proof (size_nonneg added1). split.
    + eapply Forall2_impl; [exact Hw1|]. cbn beta. intros item r [H1 H2]. split; [lia|done].
    + eapply Forall2_impl; [exact Hw2|]. cbn beta. intros item r [H1 H2]. split; [lia|done].
Qed.

Lemma collect_value_ok levels depth value :
  plist_ok value -> (levels + depth)%nat = S AIRPLAY_PLIST_MAX_DEPTH ->
  numbers (value_numbering levels) (fun value => plist_encode_collect_value alloc (S levels) value depth) value.
Proof.
  revert value depth. induction levels as [|levels IH]; intros value depth Hv Hd objects Hs.
  { cbn [plist_encode_collect_value]. rewrite (proj2 (Nat.ltb_lt _ depth)) by lia.
    right. split; [done|]. right. cbn. lia. }
  remember (S levels) as fuel eqn:Hfuel. cbn [plist_encode_collect_value]. subst fuel.
  rewrite (proj2 (Nat.ltb_ge _ depth)) by lia. cbn [orb].
  destruct (Z.leb_spec AIRPLAY_PLIST_MAX_NODES (size objects)) as [|Hlt]; cbn [negb require mbind answer_bind].
  { right. split; [done|]. left. cbn. pose proof (plist_nodes_pos value). lia. }
  assert (Hitems : forall items, Forall plist_ok items -> Forall (numbers (value_numbering levels)
    (fun item objects => plist_encode_collect_value alloc (S levels) item (S depth) objects)) items).
  { intros items Hok. eapply Forall_impl; [exact Hok|]. cbn beta. intros item Hitem. apply IH; (done || lia). }
  pose proof (fun H => collect_leaf value levels objects H Hv Hlt) as Hleaf.
  inversion Hv as [| | | | |items Hi Hok|entries Hi Hnd Hkeys Hok]; subst; cbn [or_fail mbind answer_bind];
    try exact (Hleaf I).
  - destruct (Z.eqb_spec (size items) 0) as [He|He].
    { destruct items as [|x items]; [exact (Hleaf I)|unfold size in He; cbn in He; lia]. }
    unfold AIRPLAY_PLIST_MAX_CONTAINER_ITEMS in *. rewrite (proj2 (Z.ltb_ge (1024 * 2) _)) by lia.
    cbn [negb require mbind answer_bind]. destruct (alloc _) eqn:Hall; [|left; eauto].
    cbn [require mbind answer_bind]. apply collect_array; auto. by intros ->.
  - unfold AIRPLAY_PLIST_MAX_CONTAINER_ITEMS in *. pose proof (size_nonneg entries).
    rewrite size_multiply_exact by (unfold UINT64_MAX; lia). cbn [or_fail mbind answer_bind].
    destruct (Z.eqb_spec (size entries * 2) 0) as [He|He].
    { destruct entries as [|x entries]; [exact (Hleaf I)|unfold size in He; cbn in He; lia]. }
    rewrite (proj2 (Z.ltb_ge (1024 * 2) _)) by lia.
    cbn [negb require mbind answer_bind]. destruct (alloc _) eqn:Hall; [|left; eauto].
    cbn [require mbind answer_bind]. apply collect_dict; auto. by intros ->.
Qed.
End collect.
