(* ===== verification/PlistRoundtrip.v ===== *)
(** * Encoding and decoding property lists

    Every value that the constructors make is either refused by the encoder, for
    want of memory or because it is too large, or encoded to bytes that the decoder
    turns into the same value. *)

From S2P Require Import Prelude Buffers Utf8 Plist PlistEncode PlistDecode PlistLayout PlistTree.

(** ** Reading what the layout says *)

Lemma holds_app bytes off a b : holds bytes off (a ++ b) -> holds bytes off a /\ holds bytes (off + size a) b.
Proof.
  intros (pre & post & -> & ->). split.
  - exists pre, (b ++ post). by rewrite <- app_assoc.
  - exists (pre ++ a), post. by rewrite size_app, <- !app_assoc.
Qed.

Lemma holds_cons bytes off b bs : holds bytes off (b :: bs) -> deref bytes off = Done b /\ holds bytes (off + 1) bs.
Proof.
  intros H. split; [|exact (proj2 (holds_app bytes off [b] bs H))].
  destruct H as (pre & post & E & Ho). by eapply deref_at.
Qed.

Lemma holds_range bytes off bs : holds bytes off bs -> 0 <= off /\ off + size bs <= size bytes.
Proof.
  intros (pre & post & -> & ->). rewrite !size_app. pose proof (size_nonneg pre).
  pose proof (size_nonneg post). lia.
Qed.

Lemma uint_bytes_size width value : size (uint_bytes width value) = Z.of_nat width.
Proof. unfold size. f_equal. induction width as [|width IH]; cbn; [done|by rewrite IH]. Qed.

Lemma read_uint_loop_ok bytes off width value acc :
  holds bytes off (uint_bytes width value) -> 0 <= acc -> 0 <= value ->
  (acc + 1) * 2 ^ (8 * Z.of_nat width) <= 2 ^ 64 ->
  read_uint_loop bytes off width acc =
    Done (acc * 2 ^ (8 * Z.of_nat width) + value mod 2 ^ (8 * Z.of_nat width)).
Proof.
  revert off acc. induction width as [|width IH]; intros off acc Hh Ha Hv Hb.
  { cbn. f_equal. rewrite Z.mod_1_r. lia. }
  cbn [uint_bytes] in Hh. apply holds_cons in Hh as [Hd Hh]. cbn [read_uint_loop]. rewrite Hd.
  cbn [mbind outcome_bind]. set (p := 2 ^ (8 * Z.of_nat width)) in *.
  assert (Hp : 0 < p) by (unfold p; lia).
  assert (Ep : 2 ^ (8 * Z.of_nat (S width)) = 256 * p).
  { unfold p. replace (8 * Z.of_nat (S width)) with (8 + 8 * Z.of_nat width) by lia.
    by rewrite Z.pow_add_r by lia. }
  rewrite Ep in *. unfold u8. rewrite Z.shiftr_div_pow2 by lia. fold p. set (d := value / p mod 256).
  assert (Hd' : 0 <= d < 256) by (apply Z.mod_pos_bound; lia).
  assert (Hacc : acc + 1 <= 2 ^ 56) by (assert (1 <= p) by lia; nia).
  replace (u64 (Z.shiftl acc 8)) with (Z.shiftl acc 8).
  2: { unfold u64. rewrite Z.mod_small; [done|]. rewrite Z.shiftl_mul_pow2 by lia.
       change (2 ^ 8) with 256. change (2 ^ 56) with 72057594037927936 in Hacc. lia. }
  rewrite lor_shiftl by (change (2 ^ 8) with 256; lia). change (2 ^ 8) with 256.
  rewrite IH; [|done|lia|done|nia]. f_equal. rewrite (Z.mul_comm 256 p), Z.rem_mul_r by lia.
  unfold d. lia.
Qed.

Lemma read_uint_ok bytes off available width value :
  holds bytes off (uint_bytes width value) -> (1 <= width <= 8)%nat -> Z.of_nat width <= available ->
  0 <= value < 2 ^ (8 * Z.of_nat width) ->
  plist_read_uint bytes off available (Z.of_nat width) = Done value.
Proof.
  intros Hh Hw Ha Hv. unfold plist_read_uint. rewrite (proj2 (Z.eqb_neq (Z.of_nat width) 0)) by lia.
  rewrite (proj2 (Z.ltb_ge 8 _)), (proj2 (Z.ltb_ge available _)) by lia. cbn [orb negb ensure mbind outcome_bind].
  rewrite Nat2Z.id, (read_uint_loop_ok _ _ _ value); try done; [|lia|].
  - f_equal. rewrite Z.mod_small by done. lia.
  - rewrite Z.add_0_l, Z.mul_1_l. apply Z.pow_le_mono_r; lia.
Qed.

Lemma uint_width_fits n : 0 <= n <= UINT64_MAX -> 0 <= n < 2 ^ (8 * Z.of_nat (plist_uint_width n)).
Proof.
  intros H. unfold plist_uint_width, UINT64_MAX, UINT32_MAX in *.
  destruct (Z.leb_spec n 255); [cbn; lia|]. destruct (Z.leb_spec n 65535); [cbn; lia|].
  destruct (Z.leb_spec n 4294967295); cbn; lia.
Qed.

Lemma exponent_width n :
  u8 (Z.shiftl 1 (plist_width_exponent (plist_uint_width n))) = Z.of_nat (plist_uint_width n).
Proof. destruct (uint_width_cases n) as [-> | [-> | [-> | ->]]]; reflexivity. Qed.

Lemma sub64_exact a b : 0 <= b <= a -> a <= UINT64_MAX -> sub64 a b = a - b.
Proof. intros. unfold sub64. apply u64_id. unfold is_u64. lia. Qed.

(** ** The context of a decoding *)

(** What the decoder can rely on once it has read the trailer of encoded bytes. *)
Record readable (context : PlistDecodeContext) (objects : list PlistEncodeObject) (width : nat) : Prop := {
  read_size : object_table_end context <= size (input context) <= AIRPLAY_PLIST_MAX_BYTES;
  read_width : (1 <= width <= 8)%nat;
  read_reference_size : reference_size context = Z.of_nat width;
  read_count : object_count context = size objects;
  read_small : size objects <= AIRPLAY_PLIST_MAX_NODES /\ size objects <= 2 ^ (8 * Z.of_nat width);
  read_object : forall id object, 0 <= id -> objects !! Z.to_nat id = Some object ->
    exists off bs, plist_decode_offset context id = Done off /\ object_layout width object bs /\
      holds (input context) off bs /\ off + size bs <= object_table_end context
}.

(** The two digits of a marker. *)
Lemma marker_digits b : is_byte b -> Z.land b 0xf0 = b / 16 * 16 /\ Z.land b 0x0f = b mod 16.
Proof.
  intros Hb. split; apply Z.eqb_eq; revert b Hb; apply byte_cases; vm_compute; reflexivity.
Qed.

Lemma marker_split m n : In m [0x10; 0x20; 0x40; 0x50; 0x60; 0xa0; 0xd0] -> 0 <= n < 16 ->
  Z.land (m + n) 0xf0 = m /\ Z.land (m + n) 0x0f = n.
Proof.
  intros Hm Hn. assert (Hr : m mod 16 = 0 /\ 0 <= m <= 240).
  { cbn in Hm. repeat destruct Hm as [<-|Hm]; (split; [done|lia]) || done. }
  destruct (marker_digits (m + n)) as [-> ->]; [unfold is_byte; lia|]. lia.
Qed.

Section reading.
Context (context : PlistDecodeContext) (objects : list PlistEncodeObject) (width : nat).
Hypothesis Hctx : readable context objects width.
Notation alloc := (fun _ : Z => true).

Lemma end_bound : object_table_end context <= AIRPLAY_PLIST_MAX_BYTES.
Proof. destruct (read_size _ _ _ Hctx). lia. Qed.

Lemma decode_length_ok off m len rest :
  In m [0x40; 0x50; 0x60; 0xa0; 0xd0] -> 0 <= len <= AIRPLAY_PLIST_MAX_BYTES ->
  holds (input context) off (marker_length m len ++ rest) ->
  off + size (marker_length m len ++ rest) <= object_table_end context ->
  exists n, 0 <= n < 16 /\ deref (input context) off = Done (m + n) /\
    plist_decode_length context off (m + n) = Returns (len, size (marker_length m len)) /\
    no_overflow INVALID (plist_size_add off (size (marker_length m len))) =
      Returns (off + size (marker_length m len)).
Proof.
  intros Hm Hl Hh He. pose proof (holds_range _ _ _ Hh) as [H0 _]. pose proof end_bound as Hend.
  assert (Hm' : In m [0x10; 0x20; 0x40; 0x50; 0x60; 0xa0; 0xd0]) by (right; right; done).
  unfold AIRPLAY_PLIST_MAX_BYTES in *. rewrite size_app in He. pose proof (size_nonneg rest).
  assert (Hadd : no_overflow INVALID (plist_size_add off (size (marker_length m len))) =
      Returns (off + size (marker_length m len))).
  { unfold plist_size_add, SIZE_MAX, UINT64_MAX. by rewrite (proj2 (Z.ltb_ge _ (size _))) by lia. }
  assert (Hcase : exists n, 0 <= n < 16 /\ deref (input context) off = Done (m + n) /\
    plist_decode_length context off (m + n) = Returns (len, size (marker_length m len))); [|naive_solver].
  clear Hadd. unfold plist_decode_length, marker_length in *. destruct (Z.ltb_spec len 15) as [Hs|Hs].
  - exists len. split; [lia|]. destruct (marker_split m len Hm' ltac:(lia)) as [_ ->].
    rewrite (proj2 (Z.ltb_lt len 15)) by done. cbn [app] in Hh. by apply holds_cons in Hh as [-> _].
  - exists 15. split; [lia|]. destruct (marker_split m 15 Hm' ltac:(lia)) as [_ ->].
    set (w := plist_uint_width len) in *. set (x := plist_width_exponent w) in *. pose proof (uint_width_bound len) as Hw.
    fold w in Hw. rewrite <- app_assoc in Hh. cbn [app] in Hh, He.
    apply holds_cons in Hh as [-> Hh]. apply holds_cons in Hh as [Hd Hh]. apply holds_app in Hh as [Hh _].
    split; [done|]. change (15 <? 0x0f) with false. cbn beta iota zeta.
    assert (Esz : size (m + 15 :: 16 + x :: uint_bytes w len) = 2 + Z.of_nat w).
    { rewrite <- (uint_bytes_size w len). unfold size. cbn [length]. lia. }
    cbn [app]. rewrite Esz in *. unfold plist_size_add, SIZE_MAX, UINT64_MAX in *.
    rewrite (proj2 (Z.ltb_ge _ 1)) by lia. cbn [no_overflow mbind answer_bind].
    rewrite (proj2 (Z.leb_gt _ (off + 1))) by lia. cbn [negb require mbind answer_bind].
    rewrite Hd. cbn [or_fail mbind answer_bind].
    pose proof (width_exponent_bound w) as Hx. fold x in Hx.
    destruct (marker_split 0x10 x ltac:(cbn; auto) ltac:(lia)) as [-> ->].
    cbn [Z.eqb Pos.eqb require mbind answer_bind]. rewrite (proj2 (Z.ltb_ge 3 x)) by lia.
    cbn [negb require mbind answer_bind]. unfold x, w. rewrite exponent_width. fold w.
    rewrite (proj2 (Z.ltb_ge _ (Z.of_nat w))) by lia. cbn [no_overflow mbind answer_bind].
    rewrite (sub64_exact _ off), (sub64_exact (object_table_end context) (off + 1)), (sub64_exact (_ - _) 1)
      by (unfold UINT64_MAX; lia).
    rewrite (proj2 (Z.ltb_ge _ (2 + Z.of_nat w))) by lia. cbn [negb require mbind answer_bind].
    rewrite (read_uint_ok _ _ _ w len); [|done|done|lia|apply uint_width_fits; unfold UINT64_MAX; lia].
    cbn [or_fail mbind answer_bind]. rewrite (proj2 (Z.ltb_ge _ len)) by lia. done.
Qed.
Lemma new_string_ok s cps : text_ok s cps -> airplay_plist_new_string alloc s = Done (PlistString s).
Proof.
  intros Ht. unfold airplay_plist_new_string, plist_string_duplicate. rewrite (measure_complete _ _ Ht).
  destruct Ht as [_ _ Hs _]. cbn [mbind outcome_bind]. rewrite (proj2 (Z.ltb_ge _ (size s))) by done. done.
Qed.

Lemma ascii_text cps : Forall valid_cp cps -> all_ascii cps = true ->
  Forall (fun b => 0 < b < 0x80) (text_of cps).
Proof.
  induction 1 as [|cp cps Hcp Hv IH]; intros Ha; [constructor|]. cbn in Ha.
  apply andb_true_iff in Ha as [Hc Ha]. rewrite text_of_cons. apply Forall_app. split; [|auto].
  unfold utf8_encode. rewrite Hc. constructor; [|constructor]. destruct Hcp as [[? ?] ?]. lia.
Qed.

Lemma units_text_bound cps : Forall valid_cp cps -> size (text_of cps) <= units_of cps * 3.
Proof.
  induction 1 as [|cp cps Hcp Hv IH]; [done|]. rewrite units_of_cons, text_of_cons, size_app, encode_size by done.
  destruct (Z.leb_spec 0x10000 cp), (Z.ltb_spec cp 0x80), (Z.ltb_spec cp 0x800), (Z.ltb_spec cp 0x10000); lia.
Qed.

Lemma cps_units cps : Z.of_nat (length cps) <= units_of cps.
Proof.
  induction cps as [|cp cps IH]; [done|]. rewrite units_of_cons. cbn [length].
  destruct (_ <=? cp); lia.
Qed.

(** The marker decides which of the branches is taken. *)
Lemma marker_cases m n : In m [0x40; 0x50; 0x60; 0xa0; 0xd0] -> 0 <= n < 16 ->
  (m + n =? 0x08) || (m + n =? 0x09) = false.
Proof.
  intros Hm Hn. cbn in Hm.
  destruct (Z.eqb_spec (m + n) 8), (Z.eqb_spec (m + n) 9); try done; intuition lia.
Qed.

(** Objects with a length. *)
Lemma body_sized decode off m len rest st :
  In m [0x40; 0x50; 0x60; 0xa0; 0xd0] -> 0 <= len <= AIRPLAY_PLIST_MAX_BYTES ->
  holds (input context) off (marker_length m len ++ rest) ->
  off + size (marker_length m len ++ rest) <= object_table_end context ->
  let payload := off + size (marker_length m len) in
  plist_decode_body alloc decode context off st =
    (if (m =? 0x40) || (m =? 0x50) || (m =? 0x60) then
       value ← plist_decode_bytes alloc context m len payload; Returns (value, st)
     else plist_decode_container alloc decode context m len payload st) /\
  holds (input context) payload rest /\ payload + size rest <= object_table_end context /\
  sub64 (object_table_end context) payload = object_table_end context - payload.
Proof.
  intros Hm Hl Hh He. pose proof (holds_range _ _ _ Hh) as [Hoff _]. pose proof end_bound as Hend.
  destruct (decode_length_ok off m len rest Hm Hl Hh He) as (n & Hn & Hd & Hlen & Hadd).
  cbv zeta. apply holds_app in Hh as [_ Hh]. rewrite size_app in He.
  pose proof (size_nonneg (marker_length m len)). pose proof (size_nonneg rest). split_and!.
  - unfold plist_decode_body. rewrite Hd. cbn [or_fail mbind answer_bind]. rewrite marker_cases by done.
    destruct (marker_split m n) as [-> ->]; [by do 2 right|done|]. rewrite Hlen. cbn [mbind answer_bind].
    rewrite Hadd. cbn [mbind answer_bind]. cbn in Hm. repeat destruct Hm as [<-|Hm]; done.
  - done.
  - lia.
  - apply sub64_exact; unfold AIRPLAY_PLIST_MAX_BYTES, UINT64_MAX in *; lia.
Qed.

Lemma body_string decode off bs s st :
  string_layout s bs -> holds (input context) off bs -> off + size bs <= object_table_end context ->
  plist_decode_body alloc decode context off st = Returns (PlistString s, st).
Proof.
  intros (cps & Ht & ->) Hh He. pose proof (new_string_ok _ _ Ht) as Hnew. destruct Ht as [Hv -> Hs Hu].
  pose proof (size_nonneg (text_of cps)). pose proof (units_of_nonneg cps).
  change (AIRPLAY_PLIST_MAX_STRING_BYTES / 2) with (32 * 1024) in Hu. unfold AIRPLAY_PLIST_MAX_STRING_BYTES in *.
  destruct (all_ascii cps) eqn:Ha.
  - destruct (body_sized decode off 0x50 (size (text_of cps)) (text_of cps) st) as (-> & Hp & Hpe & Hsub);
      [cbn; auto | unfold AIRPLAY_PLIST_MAX_BYTES; lia | done.. |].
    unfold plist_decode_bytes. cbn [Z.eqb Pos.eqb orb]. rewrite Hsub, (proj2 (Z.ltb_ge _ (size (text_of cps)))) by lia.
    unfold plist_decode_ascii_string, AIRPLAY_PLIST_MAX_STRING_BYTES.
    cbn [negb require mbind answer_bind]. rewrite (proj2 (Z.ltb_ge _ (size (text_of cps)))) by done.
    cbn [negb require mbind answer_bind]. destruct Hp as (pre & post & E & Hp).
    replace (Z.to_nat (size (text_of cps))) with (length (text_of cps)) by (unfold size; lia).
    rewrite (ascii_bytes_complete _ pre _ post); [|done..|by apply ascii_text].
    cbn [mbind answer_bind]. by rewrite Hnew.
  - destruct Hu as [Hu|Hu]; [done|]. pose proof (units_text_bound cps Hv). pose proof (cps_units cps).
    destruct (body_sized decode off 0x60 (units_of cps) (utf16_bytes cps) st) as (-> & Hp & Hpe & Hsub);
      [cbn; auto | unfold AIRPLAY_PLIST_MAX_BYTES; lia | done.. |]. rewrite utf16_bytes_size in Hpe.
    unfold plist_decode_bytes. cbn [Z.eqb Pos.eqb orb].
    rewrite Hsub, size_multiply_exact by (unfold UINT64_MAX; lia). cbn [no_overflow mbind answer_bind].
    rewrite (proj2 (Z.ltb_ge _ (units_of cps * 2))) by lia. cbn [negb require mbind answer_bind].
    unfold plist_decode_utf16_string. change (AIRPLAY_PLIST_MAX_STRING_BYTES / 2) with (32 * 1024).
    rewrite (proj2 (Z.ltb_ge _ (units_of cps))) by done. cbn [negb require mbind answer_bind].
    rewrite size_multiply_exact by (unfold UINT64_MAX; lia). cbn [no_overflow mbind answer_bind].
    unfold AIRPLAY_PLIST_MAX_STRING_BYTES. destruct Hp as (pre & post & E & Hp).
    set (payload := off + size (marker_length 0x60 (units_of cps))) in *. set (max := if 64 * 1024 <? _ then _ else _).
    assert (Hmax : size (text_of cps) <= max) by (unfold max; destruct (Z.ltb_spec (64 * 1024) (units_of cps * 3)); lia).
    pose proof (utf16_text_complete (S (Z.to_nat (units_of cps))) (input context) payload 0 max [] pre cps post E
      ltac:(rewrite Z.mul_0_l; lia) Hv ltac:(lia) Hmax) as Hdec.
    rewrite Z.add_0_l in Hdec. rewrite Hdec. cbn [app mbind answer_bind]. by rewrite Hnew.
Qed.

Lemma marker_number m n : In m [0x10; 0x20] -> 0 <= n < 16 ->
  (m + n =? 0x08) || (m + n =? 0x09) = false /\ (m =? 0x10) || (m =? 0x20) = true.
Proof.
  intros Hm Hn. cbn in Hm. split; [|intuition subst; done].
  destruct (Z.eqb_spec (m + n) 8), (Z.eqb_spec (m + n) 9); try done; intuition lia.
Qed.

(** Numbers: a marker with the exponent of the width, then the bytes. *)
Lemma body_number decode off m n w rest st :
  In m [0x10; 0x20] -> 0 <= n <= 3 -> u8 (Z.shiftl 1 n) = Z.of_nat w -> (1 <= w <= 8)%nat ->
  0 <= rest < 2 ^ (8 * Z.of_nat w) -> (m = 0x10 \/ w = 4%nat \/ w = 8%nat) ->
  holds (input context) off ((m + n) :: uint_bytes w rest) ->
  off + 1 + Z.of_nat w <= object_table_end context ->
  plist_decode_body alloc decode context off st =
    Returns (if m =? 0x10 then PlistUint rest
             else PlistReal (if (Z.of_nat w =? 4) then widen32 (u32 rest) else rest), st).
Proof.
  intros Hm Hn Hw Hwb Hr Hok Hh He. pose proof (holds_range _ _ _ Hh) as [Hoff _]. pose proof end_bound as Hend.
  apply holds_cons in Hh as [Hd Hh]. unfold plist_decode_body. rewrite Hd. cbn [or_fail mbind answer_bind].
  destruct (marker_number m n Hm) as [-> Hm']; [lia|].
  destruct (marker_split m n) as [-> ->]; [cbn in *; intuition|lia|]. rewrite Hm'.
  unfold plist_decode_number. unfold AIRPLAY_PLIST_MAX_BYTES in *.
  rewrite (sub64_exact _ off), sub64_exact by (unfold UINT64_MAX; lia). rewrite Hw.
  destruct (Z.eqb_spec m 0x10) as [E|E].
  - rewrite (proj2 (Z.ltb_ge 3 n)), (proj2 (Z.ltb_ge _ (Z.of_nat w))) by lia. cbn [negb require mbind answer_bind].
    by rewrite (read_uint_ok _ _ _ w rest) by (done || lia).
  - rewrite (proj2 (Z.leb_le n 3)) by lia. rewrite (proj2 (Z.ltb_ge _ (Z.of_nat w))), orb_false_r by lia.
    destruct Hok as [Hok|Hok]; [done|].
    replace (negb (Z.of_nat w =? 4) && negb (Z.of_nat w =? 8)) with false by (by destruct Hok as [-> | ->]).
    cbn [negb require mbind answer_bind]. by rewrite (read_uint_ok _ _ _ w rest) by (done || lia).
Qed.

Lemma buf_read_holds bytes off bs :
  holds bytes off bs -> buf_read (Z.to_nat off) (Z.to_nat (size bs)) bytes = Some bs.
Proof. intros (pre & post & -> & ->). unfold size. rewrite !Nat2Z.id. apply buf_read_app. Qed.

Definition is_container (value : AirPlayPlistValue) : bool :=
  match value with PlistArray _ | PlistDict _ => true | _ => false end.

Lemma body_leaf decode off bs value references st :
  plist_ok value -> is_container value = false -> object_layout width (ValueObject value references) bs ->
  holds (input context) off bs -> off + size bs <= object_table_end context ->
  plist_decode_body alloc decode context off st = Returns (value, st).
Proof.
  intros Hok Hc Hl Hh He. destruct Hok as [b|n Hn|n Hn|s cps Ht|l Hb Hs|items|entries]; cbn in Hl; try done.
  - subst bs. apply holds_cons in Hh as [Hd _]. unfold plist_decode_body. rewrite Hd. by destruct b.
  - subst bs. pose proof (uint_width_fits n Hn). pose proof (width_exponent_bound (plist_uint_width n)).
    erewrite (body_number decode off 0x10 (plist_width_exponent (plist_uint_width n))); [done|..]; try done.
    + cbn; auto.
    + apply exponent_width.
    + apply uint_width_bound.
    + by left.
    + unfold size in He. cbn [length] in He. pose proof (uint_bytes_size (plist_uint_width n) n) as Hu.
      unfold size in Hu. lia.
  - subst bs. erewrite (body_number decode off 0x20 3 8 n); [done|..]; try done; try lia.
    + cbn; auto.
    + unfold is_u64, UINT64_MAX in Hn. cbn. lia.
    + unfold size in He. cbn [length] in He. lia.
  - by eapply body_string.
  - subst bs. unfold AIRPLAY_PLIST_MAX_DATA_BYTES in Hs. pose proof (size_nonneg l).
    destruct (body_sized decode off 0x40 (size l) l st) as (-> & Hp & Hpe & Hsub);
      [cbn; auto | unfold AIRPLAY_PLIST_MAX_BYTES; lia | done.. |].
    unfold plist_decode_bytes. cbn [Z.eqb Pos.eqb orb]. unfold AIRPLAY_PLIST_MAX_DATA_BYTES.
    rewrite (proj2 (Z.ltb_ge (512 * 1024) (size l))) by done. cbn [negb require mbind answer_bind].
    rewrite Hsub, (proj2 (Z.ltb_ge _ (size l))) by lia. cbn [negb require mbind answer_bind].
    rewrite (buf_read_holds _ _ _ Hp).
    cbn [checked or_fail mbind answer_bind]. unfold airplay_plist_new_data, AIRPLAY_PLIST_MAX_DATA_BYTES.
    rewrite (proj2 (Z.ltb_ge _ (size l))) by done. cbn [negb ensure mbind outcome_bind].
    by rewrite orb_true_r.
Qed.
(** *** Containers *)

Lemma decode_reference_ok off r :
  holds (input context) off (uint_bytes width r) -> 0 <= r < size objects ->
  off + Z.of_nat width <= object_table_end context ->
  plist_decode_reference context off = Returns r.
Proof.
  intros Hh Hr He. pose proof (holds_range _ _ _ Hh) as [Hoff _]. pose proof end_bound as Hend.
  destruct Hctx as [_ Hw Hrs Hcount [Hn Hp] _]. unfold plist_decode_reference, AIRPLAY_PLIST_MAX_BYTES in *.
  rewrite (proj2 (Z.leb_gt _ off)) by lia. cbn [negb require mbind answer_bind].
  rewrite sub64_exact by (unfold UINT64_MAX; lia). rewrite Hrs, (read_uint_ok _ _ _ width r) by (done || lia).
  cbn [or_fail mbind answer_bind]. by rewrite Hcount, (proj2 (Z.leb_gt _ r)) by lia.
Qed.

Lemma references_size refs : size (concat (map (uint_bytes width) refs)) = size refs * Z.of_nat width.
Proof.
  induction refs as [|r refs IH]; [done|]. cbn [map concat]. rewrite size_app, IH, uint_bytes_size.
  unfold size. cbn [length]. lia.
Qed.

(** What the loops need of the decoding of a child. *)
Definition child_ok (decode : Z -> DecodeState -> answer (AirPlayPlistValue * DecodeState)) (active : list bool)
    (item : AirPlayPlistValue) (r : Z) : Prop :=
  0 <= r < size objects /\
  forall n, 0 <= n -> n + plist_nodes item <= AIRPLAY_PLIST_MAX_NODES ->
    decode r (mkDecodeState active n) = Returns (item, mkDecodeState active (n + plist_nodes item)).

Lemma decode_items_ok decode active items refs done payload n :
  Forall2 (child_ok decode active) items refs ->
  holds (input context) (payload + size done * Z.of_nat width) (concat (map (uint_bytes width) refs)) ->
  payload + (size done + size items) * Z.of_nat width <= object_table_end context ->
  size done + size items <= AIRPLAY_PLIST_MAX_CONTAINER_ITEMS ->
  0 <= n -> n + total plist_nodes items <= AIRPLAY_PLIST_MAX_NODES ->
  plist_decode_items alloc decode context (length items) payload (size done) (PlistArray done)
    (mkDecodeState active n) =
    Returns (PlistArray (done ++ items),
      mkDecodeState active (n + total plist_nodes items)).
Proof.
  intros Hc. revert done n. induction Hc as [|item r items refs [Hr Hd] Hc IH]; intros done n Hh He Hs H0 Hn.
  { cbn. by rewrite app_nil_r, Z.add_0_r. }
  cbn [length plist_decode_items total map concat] in *. apply holds_app in Hh as [Hr1 Hh].
  rewrite uint_bytes_size in Hh. destruct Hctx as [_ Hw Hrs _ _ _]. rewrite Hrs.
  change (item :: items) with ([item] ++ items) in *. rewrite size_app in *. change (size [item]) with 1 in *.
  pose proof (size_nonneg items). pose proof (total_nonneg plist_nodes items) as Hnn.
  pose proof plist_nodes_pos as Hpos.
  assert (0 <= total plist_nodes items) by (apply Hnn; intros a; specialize (Hpos a); lia).
  rewrite (decode_reference_ok _ r) by (done || lia || nia). cbn [mbind answer_bind].
  rewrite Hd by (done || lia). cbn [mbind answer_bind airplay_plist_array_append].
  rewrite (proj2 (Z.leb_gt _ (size done))) by lia. cbn [negb ensure or_fail mbind outcome_bind answer_bind].
  replace (size done + 1) with (size (done ++ [item])) by (by rewrite size_app).
  rewrite (IH (done ++ [item])).
  - by rewrite <- app_assoc, Z.add_assoc.
  - rewrite size_app. change (size [item]) with 1.
    by replace (payload + (size done + 1) * Z.of_nat width) with (payload + size done * Z.of_nat width + Z.of_nat width) by lia.
  - rewrite size_app. change (size [item]) with 1. lia.
  - rewrite size_app. change (size [item]) with 1. lia.
  - specialize (Hpos item). lia.
  - lia.
Qed.

Lemma find_key_none entries key : key ∉ map fst entries -> find_key entries key = None.
Proof.
  induction entries as [|[k v] entries IH]; [done|]. cbn. intros [Hk Hin]%not_elem_of_cons.
  rewrite bool_decide_eq_false_2 by done. by rewrite IH.
Qed.

Lemma dict_set_new entries key value cps :
  key ∉ map fst entries -> text_ok key cps -> size entries < AIRPLAY_PLIST_MAX_CONTAINER_ITEMS ->
  airplay_plist_dict_get (Some (PlistDict entries)) key = None /\
  airplay_plist_dict_set alloc (Some (PlistDict entries)) key (Some value) =
    Done (PlistDict (entries ++ [(key, value)])).
Proof.
  intros Hk Ht Hs. pose proof (find_key_none _ _ Hk) as Hf.
  unfold airplay_plist_dict_get, airplay_plist_dict_set, plist_dict_find, plist_string_duplicate.
  rewrite Hf, (measure_complete _ _ Ht). destruct Ht as [_ _ Hsz _]. split; [done|].
  cbn [mbind outcome_bind]. rewrite (proj2 (Z.ltb_ge _ (size key))) by done.
  cbn [negb ensure mbind outcome_bind]. by rewrite (proj2 (Z.leb_gt _ (size entries))) by done.
Qed.

Lemma decode_entries_ok decode active entries keys values done payload bytes n :
  Forall2 (fun entry r => child_ok decode active (PlistString (fst entry)) r) entries keys ->
  Forall2 (fun entry r => child_ok decode active (snd entry) r) entries values ->
  Forall (fun key => exists cps, text_ok key cps) (map fst entries) -> NoDup (map fst (done ++ entries)) ->
  holds (input context) (payload + size done * Z.of_nat width) (concat (map (uint_bytes width) keys)) ->
  holds (input context) (payload + bytes + size done * Z.of_nat width) (concat (map (uint_bytes width) values)) ->
  0 <= bytes -> payload + bytes + (size done + size entries) * Z.of_nat width <= object_table_end context ->
  size done + size entries <= AIRPLAY_PLIST_MAX_CONTAINER_ITEMS ->
  0 <= n -> n + total (fun entry => 1 + plist_nodes (snd entry)) entries <= AIRPLAY_PLIST_MAX_NODES ->
  plist_decode_entries alloc decode context (length entries) payload bytes (size done) (PlistDict done)
    (mkDecodeState active n) =
    Returns (PlistDict (done ++ entries),
      mkDecodeState active (n + total (fun entry => 1 + plist_nodes (snd entry)) entries)).
Proof.
  intros Hk Hv. revert values done n Hv.
  induction Hk as [|[key item] rk entries keys [Hrk Hdk] Hk IH]; intros values done n Hv Ht Hnd Hhk Hhv Hb He Hs H0 Hn.
  { cbn. by rewrite app_nil_r, Z.add_0_r. }
  inversion Hv as [|? rv ? values' [Hrv Hdv] Hv']; subst. cbn [fst snd] in *.
  cbn [length plist_decode_entries total map concat fst snd] in *. apply holds_app in Hhk as [Hk1 Hhk].
  apply holds_app in Hhv as [Hv1 Hhv]. apply Forall_cons in Ht as [[cps Ht] Hts].
  rewrite uint_bytes_size in Hhk, Hhv. pose proof (read_width _ _ _ Hctx) as Hw.
  rewrite (read_reference_size _ _ _ Hctx).
  change ((key, item) :: entries) with ([(key, item)] ++ entries) in *. rewrite size_app in *.
  change (size [(key, item)]) with 1 in *. pose proof (size_nonneg entries). pose proof (plist_nodes_pos item).
  assert (0 <= total (fun entry => 1 + plist_nodes (snd entry)) entries).
  { apply (total_nonneg (fun entry => 1 + plist_nodes (snd entry))). intros a. pose proof (plist_nodes_pos (snd a)). lia. }
  assert (Hnew : key ∉ map fst done).
  { rewrite !map_app in Hnd. apply NoDup_app in Hnd as (_ & Hnd & _). intros Hin. apply (Hnd key Hin). left. }
  assert (0 <= size entries * Z.of_nat width) by lia.
  rewrite (decode_reference_ok (payload + size done * Z.of_nat width) rk) by (done || lia). cbn [mbind answer_bind].
  rewrite (decode_reference_ok (payload + bytes + size done * Z.of_nat width) rv) by (done || lia). cbn [mbind answer_bind].
  rewrite Hdk by (cbn; lia). cbn [mbind answer_bind airplay_plist_get_string no_overflow].
  destruct (dict_set_new done key item cps Hnew Ht) as [-> Hset]; [lia|].
  rewrite bool_decide_eq_true_2 by done. cbn [require mbind answer_bind].
  rewrite Hdv by (cbn; lia). cbn [mbind answer_bind]. rewrite Hset. cbn [or_fail mbind answer_bind].
  replace (size done + 1) with (size (done ++ [(key, item)])) by (by rewrite size_app).
  cbn [plist_nodes] in *. rewrite (IH values' (done ++ [(key, item)])).
  - rewrite <- app_assoc. cbn [app]. do 3 f_equal. lia.
  - done.
  - done.
  - by rewrite <- app_assoc.
  - rewrite size_app. change (size [_]) with 1.
    by replace (payload + (size done + 1) * Z.of_nat width) with (payload + size done * Z.of_nat width + Z.of_nat width) by lia.
  - rewrite size_app. change (size [_]) with 1.
    by replace (payload + bytes + (size done + 1) * Z.of_nat width)
      with (payload + bytes + size done * Z.of_nat width + Z.of_nat width) by lia.
  - done.
  - rewrite size_app. change (size [_]) with 1. lia.
  - rewrite size_app. change (size [_]) with 1. lia.
  - lia.
  - lia.
Qed.

(** *** Objects *)

Lemma decode_object_enter fuel id depth active n off value n' :
  (depth <= AIRPLAY_PLIST_MAX_DEPTH)%nat -> n < AIRPLAY_PLIST_MAX_NODES -> 0 <= id < size objects ->
  active !! Z.to_nat id = Some false -> plist_decode_offset context id = Done off ->
  plist_decode_body alloc (fun reference state => plist_decode_object alloc fuel context reference (S depth) state)
    context off (mkDecodeState (<[Z.to_nat id := true]> active) (n + 1)) =
    Returns (value, mkDecodeState (<[Z.to_nat id := true]> active) n') ->
  plist_decode_object alloc (S fuel) context id depth (mkDecodeState active n) =
    Returns (value, mkDecodeState active n').
Proof.
  intros Hd Hn Hid Ha Hoff Hb. cbn [plist_decode_object decoded_nodes active_objects].
  rewrite (proj2 (Nat.ltb_ge _ depth)) by lia. rewrite (proj2 (Z.leb_gt _ n)) by lia.
  cbn [orb negb require mbind answer_bind]. rewrite (read_count _ _ _ Hctx), (proj2 (Z.leb_gt _ id)) by lia.
  cbn [negb require mbind answer_bind]. rewrite Ha. cbn [checked or_fail mbind answer_bind negb require].
  rewrite Hoff. cbn [or_fail mbind answer_bind]. rsimpl. rewrite (Z.add_comm 1 n) in *.
  setoid_rewrite Hb. cbn. do 3 f_equal. by rewrite list_insert_insert_eq, list_insert_id.
Qed.
Lemma id_in_table {A} (l : list A) id x : 0 <= id -> l !! Z.to_nat id = Some x -> id < size l.
Proof. intros Hi Hl. apply lookup_lt_Some in Hl. unfold size. lia. Qed.

(** The objects that were not reached yet. *)
Definition inactive_from (active : list bool) (id : Z) : Prop :=
  forall j, id <= j < size objects -> active !! Z.to_nat j = Some false.

Lemma inactive_below active id r : 0 <= id -> id < r -> inactive_from active id ->
  inactive_from (<[Z.to_nat id := true]> active) r.
Proof. intros H0 Hr Ha j Hj. rewrite list_lookup_insert_ne by lia. apply Ha. lia. Qed.

Lemma child_key fuel depth active key r :
  0 <= r -> objects !! Z.to_nat r = Some (KeyObject key) -> (depth <= AIRPLAY_PLIST_MAX_DEPTH)%nat ->
  inactive_from active r ->
  child_ok (fun reference state => plist_decode_object alloc (S fuel) context reference depth state)
    active (PlistString key) r.
Proof.
  intros H0 Hl Hd Ha. pose proof (id_in_table _ _ _ H0 Hl) as Hr. split; [done|]. intros n Hn Hm. cbn [plist_nodes] in *.
  destruct (read_object _ _ _ Hctx r _ H0 Hl) as (off & bs & Hoff & Hlay & Hh & He).
  eapply decode_object_enter; [done|lia|done|by apply Ha|done|]. by apply (body_string _ _ bs).
Qed.

Lemma container_array decode items references off st n :
  size items <= AIRPLAY_PLIST_MAX_CONTAINER_ITEMS ->
  Forall2 (child_ok decode st) items references ->
  holds (input context) off (marker_length 0xa0 (size items) ++ concat (map (uint_bytes width) references)) ->
  off + size (marker_length 0xa0 (size items) ++ concat (map (uint_bytes width) references)) <= object_table_end context ->
  0 <= n -> n + total plist_nodes items <= AIRPLAY_PLIST_MAX_NODES ->
  plist_decode_body alloc decode context off (mkDecodeState st n) =
    Returns (PlistArray items, mkDecodeState st (n + total plist_nodes items)).
Proof.
  intros Hs Hc Hh He H0 Hn. pose proof (size_nonneg items). pose proof (read_width _ _ _ Hctx) as Hw.
  unfold AIRPLAY_PLIST_MAX_CONTAINER_ITEMS in *.
  destruct (body_sized decode off 0xa0 (size items) _ (mkDecodeState st n) ltac:(cbn; auto 10)
    ltac:(unfold AIRPLAY_PLIST_MAX_BYTES; lia) Hh He) as (-> & Hp & Hpe & Hsub).
  assert (Hlen : size references = size items) by (unfold size; by rewrite (Forall2_length _ _ _ Hc)).
  rewrite references_size, Hlen in Hpe. cbn [Z.eqb Pos.eqb orb]. unfold plist_decode_container, AIRPLAY_PLIST_MAX_CONTAINER_ITEMS.
  rewrite (proj2 (Z.ltb_ge 1024 (size items))) by done. cbn [negb require mbind answer_bind Z.eqb Pos.eqb].
  rewrite (read_reference_size _ _ _ Hctx), size_multiply_exact by (unfold UINT64_MAX; nia).
  cbn [no_overflow mbind answer_bind]. rewrite Hsub, (proj2 (Z.ltb_ge _ (size items * _))) by lia.
  cbn [negb require mbind answer_bind airplay_plist_new_array plist_new_value ensure outcome_bind or_fail].
  replace (Z.to_nat (size items)) with (length items) by (unfold size; lia).
  rewrite <- (Z.add_0_r (off + _)) in Hp.
  apply (decode_items_ok decode st items references [] _ n Hc); done.
Qed.

Lemma container_dict decode entries keys values off st n :
  size entries <= AIRPLAY_PLIST_MAX_CONTAINER_ITEMS ->
  Forall2 (fun entry r => child_ok decode st (PlistString (fst entry)) r) entries keys ->
  Forall2 (fun entry r => child_ok decode st (snd entry) r) entries values ->
  Forall (fun key => exists cps, text_ok key cps) (map fst entries) -> NoDup (map fst entries) ->
  holds (input context) off (marker_length 0xd0 (size entries) ++ concat (map (uint_bytes width) (keys ++ values))) ->
  off + size (marker_length 0xd0 (size entries) ++ concat (map (uint_bytes width) (keys ++ values)))
    <= object_table_end context ->
  0 <= n -> n + total (fun entry => 1 + plist_nodes (snd entry)) entries <= AIRPLAY_PLIST_MAX_NODES ->
  plist_decode_body alloc decode context off (mkDecodeState st n) =
    Returns (PlistDict entries,
      mkDecodeState st (n + total (fun entry => 1 + plist_nodes (snd entry)) entries)).
Proof.
  intros Hs Hk Hv Ht Hnd Hh He H0 Hn. pose proof (size_nonneg entries). pose proof (read_width _ _ _ Hctx) as Hw.
  unfold AIRPLAY_PLIST_MAX_CONTAINER_ITEMS in *.
  destruct (body_sized decode off 0xd0 (size entries) _ (mkDecodeState st n) ltac:(cbn; auto 10)
    ltac:(unfold AIRPLAY_PLIST_MAX_BYTES; lia) Hh He) as (-> & Hp & Hpe & Hsub).
  assert (Hlk : size keys = size entries) by (unfold size; by rewrite (Forall2_length _ _ _ Hk)).
  assert (Hlv : size values = size entries) by (unfold size; by rewrite (Forall2_length _ _ _ Hv)).
  rewrite map_app, concat_app in *. apply holds_app in Hp as [Hpk Hpv].
  rewrite size_app, !references_size, Hlk, Hlv in Hpe. rewrite references_size, Hlk in Hpv.
  cbn [Z.eqb Pos.eqb orb]. unfold plist_decode_container, AIRPLAY_PLIST_MAX_CONTAINER_ITEMS.
  rewrite (proj2 (Z.ltb_ge 1024 (size entries))) by done. cbn [negb require mbind answer_bind Z.eqb Pos.eqb].
  rewrite (read_reference_size _ _ _ Hctx), size_multiply_exact by (unfold UINT64_MAX; nia).
  cbn [no_overflow mbind answer_bind]. rewrite size_multiply_exact by (unfold UINT64_MAX; nia).
  cbn [no_overflow mbind answer_bind]. rewrite Hsub, (proj2 (Z.ltb_ge _ (size entries * _ * 2))) by lia.
  cbn [negb require mbind answer_bind airplay_plist_new_dict plist_new_value ensure outcome_bind or_fail].
  replace (Z.to_nat (size entries)) with (length entries) by (unfold size; lia).
  rewrite <- (Z.add_0_r (off + _)) in Hpk. rewrite <- (Z.add_0_r (off + _ + _)) in Hpv.
  apply (decode_entries_ok decode st entries keys values [] _ _ n); try done; [lia|].
  change (size []) with 0. rewrite Z.add_0_l. lia.
Qed.

Lemma Forall2_impl_Forall_l {A B} (P : A -> Prop) (R R' : A -> B -> Prop) l l' :
  Forall2 R l l' -> Forall P l -> (forall a b, P a -> R a b -> R' a b) -> Forall2 R' l l'.
Proof. induction 1; intros Hp H'; inversion Hp; subst; constructor; auto. Qed.

Lemma child_stored levels depth active id item r :
  (forall item r active n, plist_ok item -> stored objects levels item r -> inactive_from active r -> 0 <= n ->
     n + plist_nodes item <= AIRPLAY_PLIST_MAX_NODES ->
     plist_decode_object alloc (S levels) context r depth (mkDecodeState active n) =
       Returns (item, mkDecodeState active (n + plist_nodes item))) ->
  0 <= id -> inactive_from active id -> plist_ok item -> id < r /\ stored objects levels item r ->
  child_ok (fun reference state => plist_decode_object alloc (S levels) context reference depth state)
    (<[Z.to_nat id := true]> active) item r.
Proof.
  intros IH H0 Ha Hok [Hr Hst]. assert (Hin : 0 <= r < size objects).
  { destruct levels; [done|]. destruct Hst as (Hr0 & refs & Hl & _). split; [done|]. by eapply id_in_table. }
  split; [done|]. intros n Hn Hm. apply IH; try done. by apply inactive_below.
Qed.

(** A tree that is in the table is decoded. *)
Lemma decode_stored levels value id depth active n :
  (levels + depth = S AIRPLAY_PLIST_MAX_DEPTH)%nat -> plist_ok value -> stored objects levels value id ->
  inactive_from active id -> 0 <= n -> n + plist_nodes value <= AIRPLAY_PLIST_MAX_NODES ->
  plist_decode_object alloc (S levels) context id depth (mkDecodeState active n) =
    Returns (value, mkDecodeState active (n + plist_nodes value)).
Proof.
  revert value id depth active n. induction levels as [|levels IH]; intros value id depth active n Hd Hok Hst Ha Hn Hm; [done|].
  destruct Hst as (H0 & refs & Hl & Hst). pose proof (id_in_table _ _ _ H0 Hl) as Hid.
  destruct (read_object _ _ _ Hctx id _ H0 Hl) as (off & bs & Hoff & Hlay & Hh & He).
  pose proof (plist_nodes_pos value) as Hpos.
  eapply decode_object_enter; [lia|lia|done|by apply Ha|done|].
  assert (IH' : forall item r active n, plist_ok item -> stored objects levels item r -> inactive_from active r ->
     0 <= n -> n + plist_nodes item <= AIRPLAY_PLIST_MAX_NODES ->
     plist_decode_object alloc (S levels) context r (S depth) (mkDecodeState active n) =
       Returns (item, mkDecodeState active (n + plist_nodes item))).
  { intros item r active' n'. apply IH. lia. }
  assert (Hactive : forall r, id < r -> inactive_from (<[Z.to_nat id := true]> active) r).
  { intros r Hr. by apply inactive_below. }
  destruct (is_container value) eqn:Hc.
  2: { replace (n + plist_nodes value) with (n + 1) by (by destruct value). by eapply body_leaf. }
  destruct value as [| | | | |items|entries]; try done; cbn in Hlay; subst bs; cbn [plist_nodes] in *;
    inversion Hok as [| | | | |? Hs Hoks|? Hs Hnd Hkeys Hoks]; subst; rewrite Z.add_assoc.
  - apply (container_array _ _ refs); try done; try lia.
    eapply Forall2_impl_Forall_l; [exact Hst|exact Hoks|]. intros item r Hitem Hr. by apply child_stored.
  - destruct Hst as (keys & values & -> & Hk & Hv).
    assert (Hdeep : entries <> [] -> (S depth <= AIRPLAY_PLIST_MAX_DEPTH)%nat).
    { destruct Hv as [|e r es rs [_ Hsv] _]; [done|]. intros _. destruct levels; [done|lia]. }
    apply (proj1 (Forall_map snd plist_ok entries)) in Hoks.
    apply (container_dict _ _ keys values); try done; try lia.
    + destruct entries as [|e es]; [inversion Hk; constructor|]. specialize (Hdeep ltac:(done)).
      eapply Forall2_impl; [exact Hk|]. cbn beta. intros [key item] r [Hr Hkey].
      apply child_key; try done; [lia|by apply Hactive].
    + eapply Forall2_impl_Forall_l; [exact Hv|exact Hoks|]. intros item r Hitem Hr. by apply child_stored.
Qed.
End reading.

(** ** The whole file *)

Definition trailer_bytes (offset_width reference_width : nat) (count top table : Z) : list Z :=
  replicate 6 0 ++ [Z.of_nat offset_width; Z.of_nat reference_width] ++
    plist_write_uint_to_bytes count ++ plist_write_uint_to_bytes top ++ plist_write_uint_to_bytes table.

(** The parts of an encoded file, one after the other. *)
Definition file_layout (objects : list PlistEncodeObject) (chunks : list (list Z)) (bs : list Z) : Prop :=
  let width := plist_uint_width (size objects - 1) in
  let table := 8 + size (concat chunks) in
  let offset_width := plist_uint_width table in
  Forall2 (object_layout width) objects chunks /\
  bs = bytes "bplist00" ++ concat chunks ++ concat (map (uint_bytes offset_width) (starts 8 chunks)) ++
         trailer_bytes offset_width width (size objects) 0 table.

Lemma table_size width l : size (concat (map (uint_bytes width) l)) = size l * Z.of_nat width.
Proof.
  induction l as [|r l IH]; [done|]. cbn [map concat]. rewrite size_app, IH, uint_bytes_size.
  unfold size. cbn [length]. lia.
Qed.

Lemma starts_length position chunks : length (starts position chunks) = length chunks.
Proof. revert position. induction chunks as [|c chunks IH]; intros p; [done|]. cbn. by rewrite IH. Qed.

(** A value that is over the encoder's limits: too deep, of too many nodes, or it
    might take too many bytes. *)
Definition over_limits (value : AirPlayPlistValue) : Prop :=
  (AIRPLAY_PLIST_MAX_DEPTH < plist_depth value)%nat \/ AIRPLAY_PLIST_MAX_NODES < plist_nodes value \/
  AIRPLAY_PLIST_MAX_BYTES < 40 + plist_weight value.

Lemma marker_length_size m len : size (marker_length m len) <= 10.
Proof.
  unfold marker_length. destruct (_ <? _); [done|]. rewrite size_app, uint_bytes_size.
  change (size [_; _]) with 2. pose proof (uint_width_bound len). lia.
Qed.

Lemma chunk_size width object chunk : (width <= 2)%nat -> object_layout width object chunk ->
  size chunk + 8 <= object_weight object.
Proof.
  intros Hw. assert (Hrefs : forall m len refs,
    size (marker_length m len ++ concat (map (uint_bytes width) refs)) + 8 <= 20 + 2 * size refs).
  { intros m len refs. rewrite size_app, table_size. pose proof (marker_length_size m len).
    pose proof (size_nonneg refs). nia. }
  assert (Hs : forall s bs, string_layout s bs -> size bs + 8 <= 20 + 2 * size s).
  { intros s bs (cps & [_ -> _ _] & ->). pose proof (units_of_bound cps). pose proof (size_nonneg (text_of cps)).
    destruct (all_ascii cps); rewrite size_app, ?utf16_bytes_size.
    - pose proof (marker_length_size 0x50 (size (text_of cps))). lia.
    - pose proof (marker_length_size 0x60 (units_of cps)). lia. }
  destruct object as [key|[b|n|n|s|l|items|entries] refs]; cbn [object_layout object_weight];
    try pose proof (size_nonneg refs).
  - apply Hs.
  - intros ->. change (size [_]) with 1. lia.
  - intros ->. rewrite size_cons, uint_bytes_size. pose proof (uint_width_bound n). lia.
  - intros ->. rewrite size_cons, uint_bytes_size. lia.
  - intros H2. specialize (Hs _ _ H2). lia.
  - intros ->. rewrite size_app. pose proof (marker_length_size 0x40 (size l)). lia.
  - intros ->. apply Hrefs.
  - intros ->. apply Hrefs.
Qed.

Lemma chunks_size width objects chunks : (width <= 2)%nat -> Forall2 (object_layout width) objects chunks ->
  size (concat chunks) + 8 * size objects <= total object_weight objects.
Proof.
  intros Hw. induction 1 as [|object chunk objects chunks Hl _ IH]; [done|].
  cbn [concat total]. rewrite size_app, size_cons. pose proof (chunk_size _ _ _ Hw Hl). lia.
Qed.

Lemma encode_file alloc value : plist_ok value ->
  match airplay_plist_encode alloc (Some value) with
  | Returns bs => exists objects chunks, file_layout objects chunks bs /\ size bs <= AIRPLAY_PLIST_MAX_BYTES /\
      size objects = plist_nodes value /\ size objects <= AIRPLAY_PLIST_MAX_NODES /\
      stored objects (S AIRPLAY_PLIST_MAX_DEPTH) value 0
  | Fails e => collect_error alloc (over_limits value) e
  | Undefined => False
  end.
Proof.
  intros Hok. unfold airplay_plist_encode. destruct (alloc (_ * _)) eqn:Ha; cbn [require mbind answer_bind]; [|left; eauto].
  pose proof (collect_value_ok alloc (S AIRPLAY_PLIST_MAX_DEPTH) 0 value Hok eq_refl [] ltac:(vm_compute; congruence)) as Hc.
  cbn beta in Hc.
  unfold COLLECT_FUEL. destruct (plist_encode_collect_value _ _ _ _ _) as [[root objects]|e|]; cbn [mbind answer_bind]; [| |done].
  2: { destruct Hc as [|[-> Hc]]; [by left|right]. split; [done|]. unfold over_limits.
       cbn [cost deep value_numbering] in Hc. destruct Hc as [Hc|Hc]; [right; left; exact Hc|left; lia]. }
  destruct Hc as (-> & added & -> & Hn & Hx & Hobj & Hmax & Hst). cbn [app cost weight within value_numbering] in *.
  specialize (Hst [] [] eq_refl). cbn [app] in Hst. rewrite app_nil_r in Hst. change (size []) with 0 in *.
  destruct (alloc (size added * 8)) eqn:Ha2; cbn [require mbind answer_bind]; [|left; eauto].
  destruct (write_objects_ok alloc added (plist_uint_width (size added - 1)) Hobj (uint_width_bound _))
    as (chunks & Hlay & Hw).
  assert (Hw2 : (plist_uint_width (size added - 1) <= 2)%nat).
  { unfold plist_uint_width, AIRPLAY_PLIST_MAX_NODES in *. destruct (_ <=? 255); [lia|].
    rewrite (proj2 (Z.leb_le _ 65535)) by lia. lia. }
  pose proof (chunks_size _ _ _ Hw2 Hlay) as Htotal. rewrite Hx in Htotal.
  set (table := 8 + size (concat chunks)).
  assert (Hbytes : size (concat (map (uint_bytes (plist_uint_width table)) (starts 8 chunks))) <= 8 * size added).
  { rewrite table_size. unfold size at 1. rewrite starts_length, <- (Forall2_length _ _ _ Hlay). fold (size added).
    pose proof (uint_width_bound table). pose proof (size_nonneg added). nia. }
  assert (Hover : forall l, size l <= 40 + plist_weight value -> AIRPLAY_PLIST_MAX_BYTES < size (l : list Z) ->
    over_limits value) by (unfold over_limits; intros; right; right; lia).
  pose proof (size_nonneg (concat chunks)) as Hcn. pose proof (size_nonneg added) as Han.
  assert (Hb0 : buffer_ok (mkBuffer [] 0)).
  { constructor; cbn; [done|by left|]. unfold AIRPLAY_PLIST_MAX_BYTES. lia. }
  pose proof (writes_bytes alloc (bytes "bplist00") _ Hb0) as H1.
  destruct (plist_buffer_write _ _ _) as [b1|e|]; cbn [mbind answer_bind]; [| |done].
  2: { destruct H1 as [|[-> H1]]; [by left|right]. split; [done|]. eapply Hover; [|exact H1].
       change (size _) with 8. lia. }
  destruct H1 as [Hb1 Hc1]. specialize (Hw b1 Hb1). cbn [contents app] in Hc1. rewrite Hc1 in Hw.
  destruct (write_objects _ _ _ b1) as [[offsets b2]|e|]; cbn [mbind answer_bind]; [| |done].
  2: { destruct Hw as [|[-> H2]]; [by left|right]. split; [done|]. eapply Hover; [|exact H2].
       rewrite size_app. change (size (bytes "bplist00")) with 8. lia. }
  destruct Hw as (Hb2 & Hc2 & ->). change (size (bytes "bplist00")) with 8.
  assert (Ht : size (contents b2) = table) by (rewrite Hc2, size_app; done).
  rewrite Ht. pose proof (writes_references alloc (starts 8 chunks) _ (uint_width_bound table) b2 Hb2) as H3.
  destruct (write_references _ _ _ b2) as [b3|e|]; cbn [mbind answer_bind]; [| |done].
  2: { destruct H3 as [|[-> H3]]; [by left|right]. split; [done|]. eapply Hover; [|exact H3].
       rewrite size_app, Ht. unfold table in *. lia. }
  destruct H3 as [Hb3 Hc3].
  match goal with |- context [plist_buffer_write alloc ?t b3] => pose proof (writes_bytes alloc t b3 Hb3) as H4 end.
  destruct (plist_buffer_write _ _ b3) as [b4|e|]; cbn [mbind answer_bind]; [| |done].
  2: { destruct H4 as [|[-> H4]]; [by left|right]. split; [done|]. eapply Hover; [|exact H4].
       rewrite size_app, Hc3, size_app, Ht. change (size (replicate 6 0 ++ _)) with 32. unfold table in *. lia. }
  destruct H4 as [[Hf _ Hm] Hc4]. exists added, chunks. split_and!; try done.
  - by rewrite Hc4, Hc3, Hc2, <- !app_assoc.
  - lia.
Qed.

Lemma layout_pos width object bs : object_layout width object bs -> 1 <= size bs.
Proof.
  assert (Hm : forall m len rest, 1 <= size (marker_length m len ++ rest)).
  { intros m len rest. rewrite size_app. pose proof (size_nonneg rest). unfold marker_length, size.
    destruct (_ <? _); cbn; lia. }
  assert (Hs : forall s bs, string_layout s bs -> 1 <= size bs).
  { intros s bs' (cps & _ & ->). by destruct (all_ascii cps). }
  destruct object as [key|[b|n|n|s|l|items|entries] refs]; cbn; eauto; intros ->; eauto; unfold size; cbn; lia.
Qed.

Lemma starts_lookup bytes position chunks i chunk :
  chunks !! i = Some chunk -> holds bytes position (concat chunks) ->
  exists off, starts position chunks !! i = Some off /\ position <= off /\
    off + size chunk <= position + size (concat chunks) /\ holds bytes off chunk.
Proof.
  revert position chunks. induction i as [|i IH]; intros position [|c chunks] Hl Hh; try done; cbn in *.
  - injection Hl as ->. exists position. apply holds_app in Hh as [Hh _]. rewrite size_app.
    pose proof (size_nonneg (concat chunks)). split_and!; (done || lia).
  - apply holds_app in Hh as [_ Hh]. destruct (IH _ _ Hl Hh) as (off & H1 & H2 & H3 & H4).
    exists off. rewrite size_app. pose proof (size_nonneg c). split_and!; (done || lia).
Qed.

Lemma table_lookup bytes off width l i x :
  l !! i = Some x -> holds bytes off (concat (map (uint_bytes width) l)) ->
  holds bytes (off + Z.of_nat i * Z.of_nat width) (uint_bytes width x).
Proof.
  revert off l. induction i as [|i IH]; intros off [|y l] Hl Hh; try done; cbn [map concat lookup list_lookup] in *;
    apply holds_app in Hh as [H1 H2].
  - injection Hl as ->. by replace (off + Z.of_nat 0 * Z.of_nat width) with off by lia.
  - rewrite uint_bytes_size in H2. specialize (IH _ _ Hl H2).
    by replace (off + Z.of_nat (S i) * Z.of_nat width) with (off + Z.of_nat width + Z.of_nat i * Z.of_nat width) by lia.
Qed.


Section file.
Context (objects : list PlistEncodeObject) (chunks : list (list Z)) (bs : list Z).
Hypothesis Hfile : file_layout objects chunks bs.
Hypothesis Hmax : size bs <= AIRPLAY_PLIST_MAX_BYTES.
Hypothesis Hcount : 0 < size objects <= AIRPLAY_PLIST_MAX_NODES.
Notation alloc := (fun _ : Z => true).
Let width := plist_uint_width (size objects - 1).
Let table := 8 + size (concat chunks).
Let offset_width := plist_uint_width table.
Let trailer := table + size objects * Z.of_nat offset_width.

Definition file_context : PlistDecodeContext :=
  mkContext bs (size bs) table table (Z.of_nat offset_width) (Z.of_nat width) (size objects) 0.

Lemma chunks_count : size (starts 8 chunks) = size objects.
Proof. unfold size. by rewrite starts_length, <- (Forall2_length _ _ _ (proj1 Hfile)). Qed.

Lemma file_parts :
  holds bs 0 (bytes "bplist00") /\ holds bs 8 (concat chunks) /\
  holds bs table (concat (map (uint_bytes offset_width) (starts 8 chunks))) /\
  holds bs trailer (trailer_bytes offset_width width (size objects) 0 table) /\
  size bs = trailer + 32.
Proof.
  destruct Hfile as [_ E]. fold width table offset_width in E. rewrite E.
  assert (Hh : forall l : list Z, holds l 0 l) by (intros l; exists [], []; by rewrite app_nil_r).
  pose proof (Hh bs) as H. rewrite E in H at 2. apply holds_app in H as [H1 H].
  apply holds_app in H as [H2 H]. apply holds_app in H as [H3 H]. rewrite table_size, chunks_count in H.
  rewrite E in H1, H2, H3, H. split_and!; try done.
  rewrite !size_app, table_size, chunks_count. change (size (bytes "bplist00")) with 8.
  change (size (trailer_bytes _ _ _ _ _)) with 32. unfold trailer, table. lia.
Qed.

Lemma table_bounds : 8 <= table <= AIRPLAY_PLIST_MAX_BYTES /\ 0 <= table < 2 ^ (8 * Z.of_nat offset_width) /\
  (1 <= offset_width <= 8)%nat.
Proof.
  destruct file_parts as (_ & _ & _ & _ & Hs). pose proof (size_nonneg (concat chunks)).
  assert (Hb : 8 <= table <= AIRPLAY_PLIST_MAX_BYTES) by (unfold trailer, table in *; lia).
  split_and!; try lia; try (apply uint_width_bound).
  apply uint_width_fits. unfold AIRPLAY_PLIST_MAX_BYTES, UINT64_MAX in *. lia.
Qed.

Lemma file_offset id object : 0 <= id -> objects !! Z.to_nat id = Some object ->
  exists off chunk, plist_decode_offset file_context id = Done off /\ object_layout width object chunk /\
    holds bs off chunk /\ off + size chunk <= table.
Proof.
  intros H0 Hl. pose proof (id_in_table _ _ _ H0 Hl) as Hid. destruct file_parts as (_ & Hc & Ht & _ & Hs).
  destruct table_bounds as (Hb & Hf & Hw). unfold AIRPLAY_PLIST_MAX_BYTES, AIRPLAY_PLIST_MAX_NODES in *.
  destruct (Forall2_lookup_l _ _ _ _ _ (proj1 Hfile) Hl) as (chunk & Hchunk & Hlay).
  destruct (starts_lookup _ _ _ _ _ Hchunk Hc) as (off & Hoff & Ho1 & Ho2 & Hh). fold table in Ho2.
  pose proof (layout_pos _ _ _ Hlay) as Hpos. exists off, chunk. split_and!; try done.
  pose proof (table_lookup _ _ _ _ _ _ Hoff Ht) as Hentry. rewrite Z2Nat.id in Hentry by done.
  unfold plist_decode_offset. cbn [file_context object_count offset_size offset_table_offset input input_length object_table_end].
  unfold SIZE_MAX, UINT64_MAX, plist_size_add. rewrite (proj2 (Z.leb_gt _ id)), (proj2 (Z.ltb_ge _ id)) by lia.
  cbn [orb negb ensure mbind outcome_bind]. rewrite size_multiply_exact by (unfold UINT64_MAX; nia).
  cbn [mbind outcome_bind]. unfold SIZE_MAX, UINT64_MAX.
  assert (Hroom : table + id * Z.of_nat offset_width + Z.of_nat offset_width <= size bs).
  { rewrite Hs. unfold trailer. nia. }
  rewrite (proj2 (Z.ltb_ge _ (id * _))) by nia. cbn [mbind outcome_bind].
  rewrite (read_uint_ok _ _ _ offset_width off);
    [|done|done|rewrite sub64_exact; unfold UINT64_MAX; nia|lia].
  cbn [mbind outcome_bind]. rewrite (proj2 (Z.ltb_ge off 8)), (proj2 (Z.leb_gt _ off)), (proj2 (Z.ltb_ge _ off)) by lia.
  done.
Qed.

Lemma file_readable : readable file_context objects width.
Proof.
  destruct file_parts as (_ & _ & _ & _ & Hs). destruct table_bounds as (Hb & Hf & Hw).
  unfold trailer in *. unfold AIRPLAY_PLIST_MAX_NODES, AIRPLAY_PLIST_MAX_BYTES in *.
  constructor; cbn [file_context input object_table_end reference_size object_count];
    unfold AIRPLAY_PLIST_MAX_NODES, AIRPLAY_PLIST_MAX_BYTES; try done.
  - nia.
  - apply uint_width_bound.
  - pose proof (uint_width_fits (size objects - 1)) as Hn. fold width in Hn. unfold UINT64_MAX in Hn. lia.
  - apply file_offset.
Qed.

Lemma file_check_offsets count index :
  0 <= index -> index + Z.of_nat count <= size objects -> check_offsets file_context count index = Returns tt.
Proof.
  revert index. induction count as [|count IH]; intros index H0 Hc; [done|]. cbn [check_offsets].
  destruct (lookup_lt_is_Some_2 objects (Z.to_nat index)) as [o Ho]; [unfold size in Hc; lia|].
  destruct (file_offset _ _ H0 Ho) as (off & c & -> & _). cbn [or_fail mbind answer_bind]. apply IH; lia.
Qed.

Lemma is_width_uint n : is_width (Z.of_nat (plist_uint_width n)) = true.
Proof. by destruct (uint_width_cases n) as [-> | [-> | [-> | ->]]]. Qed.

Lemma file_trailer : plist_read_trailer bs (size bs) = Returns file_context.
Proof.
  destruct file_parts as (_ & _ & _ & Ht & Hs). destruct table_bounds as (Hb & Hf & Hw).
  assert (Htr : size bs - 32 = trailer) by lia. unfold plist_read_trailer. rewrite Htr.
  unfold trailer_bytes in Ht. apply holds_app in Ht as [Hz Ht].
  pose proof (buf_read_holds _ _ _ Hz) as Hzr. change (Z.to_nat (size (replicate 6 0))) with 6%nat in Hzr.
  change (size (replicate 6 0)) with 6 in Ht. rewrite Hzr. cbn [checked or_fail mbind answer_bind].
  rewrite bool_decide_eq_true_2 by done. cbn [require mbind answer_bind app] in *.
  apply holds_cons in Ht as [Hd6 Ht]. apply holds_cons in Ht as [Hd7 Ht].
  replace (trailer + 6 + 1) with (trailer + 7) in * by lia. replace (trailer + 7 + 1) with (trailer + 8) in * by lia.
  unfold plist_write_uint_to_bytes in Ht. apply holds_app in Ht as [H8 Ht]. apply holds_app in Ht as [H16 H24].
  rewrite !uint_bytes_size in *. replace (trailer + 8 + Z.of_nat 8) with (trailer + 16) in * by lia.
  replace (trailer + 16 + Z.of_nat 8) with (trailer + 24) in * by lia.
  rewrite Hd6. cbn [or_fail mbind answer_bind]. rewrite Hd7. cbn [or_fail mbind answer_bind].
  unfold AIRPLAY_PLIST_MAX_BYTES, AIRPLAY_PLIST_MAX_NODES in *.
  assert (E1 : plist_read_uint bs (trailer + 8) 24 8 = Done (size objects))
    by (apply (read_uint_ok bs _ 24 8); [done|lia|lia|cbn; lia]).
  assert (E2 : plist_read_uint bs (trailer + 16) 16 8 = Done 0)
    by (apply (read_uint_ok bs _ 16 8); [done|lia|lia|cbn; lia]).
  assert (E3 : plist_read_uint bs (trailer + 24) 8 8 = Done table)
    by (apply (read_uint_ok bs _ 8 8); [done|lia|lia|cbn; lia]).
  rewrite E1. cbn [or_fail mbind answer_bind]. rewrite E2. cbn [or_fail mbind answer_bind].
  rewrite E3. cbn [or_fail mbind answer_bind]. unfold offset_width, width. rewrite !is_width_uint. cbn [negb orb].
  fold offset_width width. unfold AIRPLAY_PLIST_MAX_NODES, SIZE_MAX, UINT64_MAX.
  assert (Hdiv : (18446744073709551615 / Z.of_nat offset_width <? size objects) = false).
  { apply Z.ltb_ge, Z.div_le_lower_bound; nia. }
  rewrite (proj2 (Z.eqb_neq (size objects) 0)), (proj2 (Z.ltb_ge 4096 (size objects))),
    (proj2 (Z.leb_gt (size objects) 0)), (proj2 (Z.ltb_ge 18446744073709551615 table)),
    (proj2 (Z.ltb_ge table 8)), (proj2 (Z.leb_gt trailer table)), Hdiv by (unfold trailer; nia).
  cbn [orb negb require mbind answer_bind].
  rewrite (u64_id (_ * _)) by (unfold is_u64, UINT64_MAX; nia). fold trailer.
  rewrite (u64_id trailer), Z.ltb_irrefl by (unfold is_u64, UINT64_MAX, trailer; nia). done.
Qed.

Lemma decode_file value :
  plist_ok value -> stored objects (S AIRPLAY_PLIST_MAX_DEPTH) value 0 -> size objects = plist_nodes value ->
  airplay_plist_decode alloc (Some bs) (size bs) = Returns value.
Proof.
  intros Hok Hst Hn. destruct file_parts as (Hh & _ & _ & _ & Hs). destruct table_bounds as (Hb & Hf & Hw).
  unfold airplay_plist_decode. rewrite (proj2 (Z.ltb_ge _ (size bs))) by done.
  cbn [negb require mbind answer_bind]. rewrite (proj2 (Z.ltb_ge (size bs) 40)) by (rewrite Hs; unfold trailer; nia).
  cbn [negb require mbind answer_bind]. pose proof (buf_read_holds _ _ _ Hh) as Hhr.
  change (Z.to_nat 0) with 0%nat in Hhr. change (Z.to_nat (size (bytes "bplist00"))) with 8%nat in Hhr.
  rewrite Hhr. cbn [checked or_fail mbind answer_bind]. rewrite bool_decide_eq_true_2 by done.
  cbn [require mbind answer_bind]. rewrite file_trailer. cbn [mbind answer_bind].
  cbn [file_context object_count top_object]. rewrite file_check_offsets by (lia || (unfold size; lia)).
  cbn [mbind answer_bind require]. unfold DECODE_FUEL.
  rewrite (decode_stored _ _ _ file_readable (S AIRPLAY_PLIST_MAX_DEPTH) value); try done; try lia.
  intros j Hj. apply lookup_replicate_2. unfold size in *. lia.
Qed.
End file.

(** C13: A value that the constructors make is encoded to bytes from which the
    decoder, with enough memory, makes the same value.  The encoder fails only for
    want of memory or because the value is over its limits, and in no case is
    anything outside of its buffer written. *)
Theorem encode_decode_roundtrip (alloc : Z -> bool) (value : AirPlayPlistValue) :
  plist_ok value ->
  match airplay_plist_encode alloc (Some value) with
  | Returns bs => size bs <= AIRPLAY_PLIST_MAX_BYTES /\
      airplay_plist_decode (fun _ => true) (Some bs) (size bs) = Returns value
  | Fails e => e = AIRPLAY_PLIST_ERROR_OUT_OF_MEMORY /\ (exists n, alloc n = false) \/
      e = AIRPLAY_PLIST_ERROR_LIMIT_EXCEEDED /\ over_limits value
  | Undefined => False
  end.
Proof.
  intros Hok. pose proof (encode_file alloc value Hok) as H.
  destruct (airplay_plist_encode alloc (Some value)) as [bs|e|]; [|done..].
  destruct H as (objects & chunks & Hf & Hs & Hn & Hm & Hst). split; [done|].
  pose proof (plist_nodes_pos value). apply (decode_file objects chunks); (done || lia).
Qed.

Definition demo_value : AirPlayPlistValue :=
  PlistDict [(bytes "a", PlistArray [PlistUint 300; PlistString [0xc3; 0xa9]; PlistBool true]);
             ([0xc3; 0xa9], PlistReal 0x3ff8000000000000); (bytes "data", PlistData [1; 2; 3])].

Lemma text_ok_intro cps :
  forallb (fun cp => (0 <? cp) && (cp <=? 0x10ffff) && negb ((0xd800 <=? cp) && (cp <=? 0xdfff))) cps = true ->
  (size (text_of cps) <=? 32 * 1024) = true -> text_ok (text_of cps) cps.
Proof.
  intros Hc Hs. apply Z.leb_le in Hs. pose proof (units_of_bound cps). constructor; try done.
  - apply Forall_forall. intros cp Hin. apply (proj1 (forallb_forall _ _)) with (x := cp) in Hc;
      [|by apply list_elem_of_In]. bool_cases. unfold valid_cp, scalar_value.
    destruct (Z.leb_spec 0xd800 cp), (Z.leb_spec cp 0xdfff), (Z.ltb_spec 0 cp), (Z.leb_spec cp 0x10ffff);
      try done; lia.
  - unfold AIRPLAY_PLIST_MAX_STRING_BYTES. lia.
  - right. change (AIRPLAY_PLIST_MAX_STRING_BYTES / 2) with (32 * 1024). lia.
Qed.

Lemma demo_value_ok : plist_ok demo_value.
Proof.
  assert (Ha : text_ok (bytes "a") [97]) by (apply (text_ok_intro [97]); reflexivity).
  assert (He : text_ok [0xc3; 0xa9] [0xe9]) by (apply (text_ok_intro [0xe9]); reflexivity).
  assert (Hd : text_ok (bytes "data") [100; 97; 116; 97]) by (apply (text_ok_intro [100; 97; 116; 97]); reflexivity).
  constructor; [done| | |].
  - apply (bool_decide_unpack _). vm_compute. exact I.
  - repeat constructor; eauto.
  - repeat constructor; try (by eapply ok_string); unfold is_u64, UINT64_MAX, is_byte; try lia; done.
Qed.

Lemma encode_decode_roundtrip_witness :
  plist_ok demo_value /\
  (exists bs, airplay_plist_encode (fun _ => true) (Some demo_value) = Returns bs) /\
  match airplay_plist_encode (fun _ => true) (Some demo_value) with
  | Returns bs => size bs <= AIRPLAY_PLIST_MAX_BYTES /\
      airplay_plist_decode (fun _ => true) (Some bs) (size bs) = Returns demo_value
  | Fails e => e = AIRPLAY_PLIST_ERROR_OUT_OF_MEMORY /\ (exists n, (fun _ : Z => true) n = false) \/
      e = AIRPLAY_PLIST_ERROR_LIMIT_EXCEEDED /\ over_limits demo_value
  | Undefined => False
  end.
Proof.
  split; [exact demo_value_ok|]. split; [eexists; vm_compute; reflexivity|].
  exact (encode_decode_roundtrip (fun _ => true) demo_value demo_value_ok).
Defined.
