(* ===== verification/PlistSafety.v ===== *)
(** * Decoding any bytes

    Whatever the bytes are, the decoder reads nothing outside of them, ends, and a
    value it returns is one that the constructors could have made, within the
    limits on depth and nodes. *)

From S2P Require Import Prelude Buffers Utf8 Plist PlistEncode PlistDecode PlistLayout PlistTree PlistRoundtrip.

(** ** Numbers *)

Lemma lor_byte value b : 0 <= value -> is_byte b -> is_u64 (Z.lor (u64 (Z.shiftl value 8)) b).
Proof.
  intros Hv Hb. assert (E : u64 (Z.shiftl value 8) = Z.shiftl (value mod 2 ^ 56) 8).
  { unfold u64. rewrite !Z.shiftl_mul_pow2 by lia. change 18446744073709551616 with (2 ^ 56 * 2 ^ 8).
    by rewrite Z.mul_mod_distr_r by lia. }
  rewrite E, lor_shiftl; [|lia|exact Hb]. unfold is_byte in Hb.
  assert (0 <= value mod 2 ^ 56 < 2 ^ 56) by (apply Z.mod_pos_bound; lia).
  change (2 ^ 56) with 72057594037927936 in *. change (2 ^ 8) with 256. unfold is_u64, UINT64_MAX. lia.
Qed.

Lemma read_uint_loop_safe bytes off count value :
  Forall is_byte bytes -> 0 <= off -> off + Z.of_nat count <= size bytes -> is_u64 value ->
  safe (read_uint_loop bytes off count value) is_u64.
Proof.
  intros Hb. revert off value. induction count as [|count IH]; intros off value H0 Hs Hv; [done|].
  cbn [read_uint_loop]. eapply safe_bind; [apply deref_byte; [done|lia]|]. intros b Hbyte.
  apply IH; [lia|lia|]. apply lor_byte; [unfold is_u64 in Hv; lia|done].
Qed.

Lemma read_uint_safe bytes off available width :
  Forall is_byte bytes -> 0 <= off -> off + available <= size bytes -> 0 <= width ->
  safe (plist_read_uint bytes off available width) (fun v => is_u64 v /\ 1 <= width <= available).
Proof.
  intros Hb H0 Hs Hw. unfold plist_read_uint.
  destruct (Z.eqb_spec width 0), (Z.ltb_spec 8 width), (Z.ltb_spec available width); try done.
  cbn [orb negb ensure mbind outcome_bind].
  eapply safe_mono; [apply read_uint_loop_safe; [done|lia|lia|unfold is_u64, UINT64_MAX; lia]|].
  intros v Hv. split; [done|lia].
Qed.

Lemma lor_bound a b n : 0 <= n -> 0 <= a < 2 ^ n -> 0 <= b < 2 ^ n -> 0 <= Z.lor a b < 2 ^ n.
Proof.
  intros Hn Ha Hb. replace (Z.lor a b) with (Z.lor a b mod 2 ^ n); [apply Z.mod_pos_bound; lia|].
  rewrite <- Z.land_ones, Z.land_lor_distr_l, !Z.land_ones by done. by rewrite !Z.mod_small.
Qed.

Lemma shiftl_bound a m n : 0 <= n -> 0 <= m -> 0 <= a < 2 ^ m -> 0 <= Z.shiftl a n < 2 ^ (m + n).
Proof. intros Hn Hm Ha. rewrite Z.shiftl_mul_pow2, Z.pow_add_r by done. nia. Qed.

Lemma land_bound a n : 0 <= n -> 0 <= Z.land a (Z.ones n) < 2 ^ n.
Proof. intros Hn. rewrite Z.land_ones by done. apply Z.mod_pos_bound. lia. Qed.

Lemma widen32_range bits : 0 <= bits < 2 ^ 32 -> is_u64 (widen32 bits).
Proof.
  intros H. cut (0 <= widen32 bits < 2 ^ 64).
  { change (2 ^ 64) with 18446744073709551616. unfold is_u64, UINT64_MAX. lia. }
  assert (Hs : 0 <= Z.shiftl (Z.shiftr bits 31) 63 < 2 ^ 64).
  { apply (shiftl_bound _ 1); [lia..|]. rewrite Z.shiftr_div_pow2 by lia.
    change (2 ^ 32) with 4294967296 in H; change (2 ^ 31) with 2147483648. change (2 ^ 1) with 2. lia. }
  assert (Hexp : forall e, 0 <= e < 2 ^ 11 -> 0 <= Z.shiftl e 52 < 2 ^ 64).
  { intros e He. pose proof (shiftl_bound e 11 52 ltac:(lia) ltac:(lia) He) as Hb.
    change (2 ^ (11 + 52)) with (2 ^ 63) in Hb. assert (2 ^ 63 < 2 ^ 64) by done. lia. }
  unfold widen32. change (Z.land bits 0x7fffff) with (Z.land bits (Z.ones 23)).
  change (Z.land (Z.shiftr bits 23) 0xff) with (Z.land (Z.shiftr bits 23) (Z.ones 8)).
  pose proof (land_bound (Z.shiftr bits 23) 8 ltac:(lia)) as He. pose proof (land_bound bits 23 ltac:(lia)) as Hm.
  set (mantissa := Z.land bits _) in *. set (exponent := Z.land _ _) in *.
  assert (Hshift : 0 <= Z.shiftl mantissa 29 < 2 ^ 64).
  { pose proof (shiftl_bound mantissa 23 29 ltac:(lia) ltac:(lia) Hm) as Hb.
    assert (2 ^ (23 + 29) < 2 ^ 64) by done. lia. }
  change (2 ^ 8) with 256 in He. change (2 ^ 11) with 2048 in Hexp.
  destruct (Z.eqb_spec exponent 255) as [E|E]; [|destruct (Z.eqb_spec exponent 0) as [E0|E0]].
  - apply lor_bound; [lia|done|]. apply lor_bound; [lia|by apply Hexp|].
    destruct (mantissa =? 0); [by split|]. by apply lor_bound.
  - destruct (Z.eqb_spec mantissa 0) as [|Hz]; [done|].
    destruct (Z.log2_spec mantissa) as [Hl1 Hl2]; [lia|]. pose proof (Z.log2_nonneg mantissa) as Hk.
    assert (Hk2 : Z.log2 mantissa < 23) by (apply Z.log2_lt_pow2; lia).
    set (k := Z.log2 mantissa) in *. rewrite Z.pow_succ_r in Hl2 by done.
    apply lor_bound; [lia|done|]. apply lor_bound; [lia|apply Hexp; lia|].
    rewrite (Z.shiftl_1_l k). pose proof (shiftl_bound (mantissa - 2 ^ k) k (52 - k) ltac:(lia) ltac:(lia) ltac:(lia)) as Hb.
    replace (k + (52 - k)) with 52 in Hb by lia. assert (2 ^ 52 < 2 ^ 64) by done. lia.
  - apply lor_bound; [lia|done|]. apply lor_bound; [lia|apply Hexp; lia|done].
Qed.

Lemma size_add_exact a b : a + b <= UINT64_MAX -> plist_size_add a b = Some (a + b).
Proof. intros H. unfold plist_size_add, SIZE_MAX. by rewrite (proj2 (Z.ltb_ge _ b)) by lia. Qed.

(** ** The context *)

(** What the decoder has checked of the trailer. *)
Record decodable (context : PlistDecodeContext) : Prop := {
  dec_bytes : Forall is_byte (input context);
  dec_length : 0 <= input_length context <= size (input context) /\ input_length context <= AIRPLAY_PLIST_MAX_BYTES;
  dec_end : offset_table_offset context = object_table_end context /\ 8 <= object_table_end context;
  dec_count : 0 < object_count context <= AIRPLAY_PLIST_MAX_NODES;
  dec_widths : 1 <= offset_size context <= 8 /\ 1 <= reference_size context <= 8;
  dec_table : offset_table_offset context + object_count context * offset_size context <= input_length context
}.

Section decoding.
Context (context : PlistDecodeContext).
Hypothesis Hctx : decodable context.

Lemma end_inside : 8 <= object_table_end context < input_length context /\ input_length context <= size (input context) /\
  input_length context <= AIRPLAY_PLIST_MAX_BYTES.
Proof. destruct Hctx as [_ Hl [He1 He2] Hc [Hw _] Ht]. rewrite He1 in Ht. nia. Qed.

Lemma decode_offset_safe id :
  0 <= id -> safe (plist_decode_offset context id) (fun off => 8 <= off < object_table_end context).
Proof.
  intros H0. pose proof end_inside as (He & Hi & Hm). destruct Hctx as [Hb Hl [He1 He2] Hc [Hw _] Ht].
  unfold plist_decode_offset. destruct (Z.leb_spec (object_count context) id) as [|Hid]; [done|].
  unfold AIRPLAY_PLIST_MAX_BYTES, AIRPLAY_PLIST_MAX_NODES in *.
  destruct (Z.ltb_spec SIZE_MAX id); [done|]. cbn [orb negb ensure mbind outcome_bind].
  rewrite size_multiply_exact by (unfold UINT64_MAX; nia). cbn [mbind outcome_bind].
  unfold plist_size_add. destruct (_ <? _); [done|]. cbn [mbind outcome_bind].
  eapply safe_bind.
  - apply read_uint_safe; [done|nia| |lia]. rewrite sub64_exact by (unfold UINT64_MAX; nia). lia.
  - cbn beta. intros off [Hoff _]. destruct (Z.ltb_spec off 8), (Z.leb_spec (object_table_end context) off),
      (Z.ltb_spec SIZE_MAX off); cbn; try done; lia.
Qed.

Lemma decode_reference_safe off :
  0 <= off -> ans (plist_decode_reference context off) (fun r => 0 <= r < object_count context).
Proof.
  intros H0. pose proof end_inside as (He & Hi & Hm). destruct Hctx as [Hb Hl [He1 He2] Hc [_ Hw] Ht].
  unfold plist_decode_reference, AIRPLAY_PLIST_MAX_BYTES in *. apply ans_guard. intros Ho. bool_cases. apply Z.leb_gt in Ho.
  eapply ans_bind.
  { apply ans_or_fail, read_uint_safe; [done|lia| |lia]. rewrite sub64_exact by (unfold UINT64_MAX; lia). lia. }
  cbn beta. intros r [Hr _]. apply ans_guard. intros Hlt. bool_cases. apply Z.leb_gt in Hlt.
  unfold is_u64 in Hr. cbn. lia.
Qed.

(** The header of an object with a length ends before the table. *)
Lemma decode_length_safe off marker :
  0 <= off < object_table_end context -> is_byte marker ->
  ans (plist_decode_length context off marker) (fun '(len, header) =>
    is_u64 len /\ 1 <= header /\ off + header <= object_table_end context).
Proof.
  intros Ho Hmk. pose proof end_inside as (He & Hi & Hm). destruct Hctx as [Hb _ _ _ _ _].
  unfold plist_decode_length, AIRPLAY_PLIST_MAX_BYTES in *. destruct (marker_digits marker Hmk) as [_ ->].
  destruct (Z.ltb_spec (marker mod 16) 15) as [Hs|Hs].
  { cbn. unfold is_u64, UINT64_MAX. lia. }
  rewrite (size_add_exact off 1) by (unfold UINT64_MAX; lia).
  cbn [no_overflow mbind answer_bind]. apply ans_guard. intros H1. bool_cases. apply Z.leb_gt in H1.
  eapply ans_bind; [apply ans_or_fail, deref_byte; [done|lia]|]. intros im Him.
  apply ans_guard. intros _. apply ans_guard. intros Hx. bool_cases. apply Z.ltb_ge in Hx.
  set (w := u8 _). assert (Hw : 0 <= w < 256) by (unfold w, u8; lia).
  rewrite (size_add_exact 2 w) by (unfold UINT64_MAX; lia).
  cbn [no_overflow mbind answer_bind]. apply ans_guard. intros Hroom. bool_cases. apply Z.ltb_ge in Hroom.
  rewrite sub64_exact in Hroom by (unfold UINT64_MAX; lia).
  rewrite (sub64_exact _ (off + 1)), sub64_exact by (unfold UINT64_MAX; lia).
  eapply ans_bind; [apply ans_or_fail, read_uint_safe; (done || lia)|]. cbn beta. intros len [Hlen _].
  apply ans_guard. intros _. cbn. split; [done|lia].
Qed.
(** ** Objects without children *)

Context (alloc : Z -> bool).

Definition leaf_ok (v : AirPlayPlistValue) : Prop := plist_ok v /\ is_container v = false.

Lemma new_value_ok v : leaf_ok v -> safe (plist_new_value alloc v) leaf_ok.
Proof. intros Hv. unfold plist_new_value. by destruct (alloc _). Qed.

Lemma new_string_safe s : chars s -> safe (airplay_plist_new_string alloc s) leaf_ok.
Proof.
  intros Hs. unfold airplay_plist_new_string, plist_string_duplicate.
  eapply safe_bind; [by apply measure_sound|]. intros [units ascii] (cps & Ht & _).
  destruct (_ <? _); [done|]. cbn [negb ensure mbind outcome_bind]. destruct (alloc _); [|done].
  cbn [ensure mbind outcome_bind]. apply new_value_ok. split; [by eapply ok_string|done].
Qed.

Lemma number_safe off high low :
  0 <= off < object_table_end context -> 0 <= low < 16 ->
  ans (plist_decode_number alloc context off high low) leaf_ok.
Proof.
  intros Ho Hlow. pose proof end_inside as (He & Hi & Hm). pose proof (dec_bytes _ Hctx) as Hb.
  unfold plist_decode_number, AIRPLAY_PLIST_MAX_BYTES in *.
  rewrite (sub64_exact _ off), sub64_exact by (unfold UINT64_MAX; lia).
  assert (Hu8 : forall x, 0 <= u8 x) by (intros; unfold u8; lia).
  destruct (high =? 0x10).
  - apply ans_guard. intros _. apply ans_guard. intros _.
    eapply ans_bind; [apply ans_or_fail, read_uint_safe; [done|lia|lia|apply Hu8]|]. cbn beta. intros n [Hn _].
    apply ans_or_fail, new_value_ok. split; [by constructor|done].
  - apply ans_guard. intros _. set (w := if low <=? 3 then _ else 0).
    assert (Hw : 0 <= w) by (unfold w; destruct (low <=? 3); [apply Hu8|lia]).
    eapply ans_bind; [apply ans_or_fail, read_uint_safe; (done || lia)|]. cbn beta. intros bits [Hn _].
    apply ans_or_fail, new_value_ok. split; [|done]. constructor. destruct (w =? 4); [|done].
    apply widen32_range. pose proof (u32_range bits). unfold is_u32, UINT32_MAX in *.
    change (2 ^ 32) with 4294967296. lia.
Qed.

Lemma bytes_safe high len payload :
  is_u64 len -> 0 <= payload <= object_table_end context ->
  ans (plist_decode_bytes alloc context high len payload) leaf_ok.
Proof.
  intros Hlen Hp. pose proof end_inside as (He & Hi & Hm). pose proof (dec_bytes _ Hctx) as Hb.
  unfold is_u64 in Hlen. unfold plist_decode_bytes, AIRPLAY_PLIST_MAX_BYTES in *.
  rewrite sub64_exact by (unfold UINT64_MAX; lia). destruct (high =? 0x40); [|destruct (high =? 0x50)].
  - apply ans_guard. intros Hd. apply ans_guard. intros Ha. bool_cases. apply Z.ltb_ge in Hd, Ha.
    destruct (buf_read_spec (Z.to_nat payload) (Z.to_nat len) (input context)) as [-> Hl]; [unfold size in *; lia|].
    cbn [checked or_fail mbind answer_bind]. unfold airplay_plist_new_data. apply ans_or_fail.
    assert (Hs : size (take (Z.to_nat len) (drop (Z.to_nat payload) (input context))) = len)
      by (unfold size; rewrite Hl; lia).
    rewrite Hs. destruct (_ <? _); [done|]. cbn [negb ensure mbind outcome_bind].
    destruct (_ || _); [|done]. cbn [ensure mbind outcome_bind]. apply new_value_ok. split; [|done]. constructor; [|lia].
    by apply Forall_take, Forall_drop.
  - apply ans_guard. intros Ha. bool_cases. apply Z.ltb_ge in Ha. unfold plist_decode_ascii_string.
    apply ans_guard. intros _. apply ans_guard. intros _.
    eapply ans_bind; [apply ascii_bytes_safe; (done || lia)|]. intros text Ht.
    by apply ans_or_fail, new_string_safe.
  - destruct (plist_size_multiply len 2) as [total|] eqn:Et; [|done]. cbn [no_overflow mbind answer_bind].
    assert (total = len * 2) as ->.
    { unfold plist_size_multiply in Et. destruct (_ && _); [done|]. by injection Et. }
    apply ans_guard. intros Ha. bool_cases. apply Z.ltb_ge in Ha. unfold plist_decode_utf16_string.
    apply ans_guard. intros _. destruct (plist_size_multiply len 3); [|done]. cbn [no_overflow mbind answer_bind].
    apply ans_guard. intros _.
    eapply ans_bind; [apply utf16_text_safe; try done; try lia; constructor|]. intros text Ht.
    by apply ans_or_fail, new_string_safe.
Qed.

(** ** Containers *)

(** The result of decoding at some depth: a value, and the nodes it has. *)
Definition decoded (depth : nat) (state : DecodeState) (result : AirPlayPlistValue * DecodeState) : Prop :=
  let '(value, state') := result in
  plist_ok value /\ (depth + plist_depth value <= AIRPLAY_PLIST_MAX_DEPTH)%nat /\
  length (active_objects state') = length (active_objects state) /\
  decoded_nodes state' = decoded_nodes state + plist_nodes value /\ decoded_nodes state' <= AIRPLAY_PLIST_MAX_NODES.

Section children.
Context (decode : Z -> DecodeState -> answer (AirPlayPlistValue * DecodeState)) (depth : nat) (actives : nat).
Hypothesis Hdecode : forall r state, 0 <= r < object_count context -> length (active_objects state) = actives ->
  ans (decode r state) (decoded (S depth) state).

Lemma reference_at payload index : 0 <= payload -> 0 <= index -> 0 <= payload + index * reference_size context.
Proof. destruct (dec_widths _ Hctx) as [_ Hw]. nia. Qed.

Lemma append_ok array item :
  Forall plist_ok (array ++ [item]) ->
  safe (airplay_plist_array_append alloc (Some (PlistArray array)) (Some item)) (fun v =>
    v = PlistArray (array ++ [item]) /\ plist_ok v).
Proof.
  intros Hok. cbn [airplay_plist_array_append].
  destruct (Z.leb_spec AIRPLAY_PLIST_MAX_CONTAINER_ITEMS (size array)); [done|]. cbn [negb ensure mbind outcome_bind].
  destruct (alloc _); [|done]. cbn [ensure mbind outcome_bind safe]. split; [done|]. constructor; [|done].
  rewrite size_app. change (size [item]) with 1. lia.
Qed.

(** A container that is being filled. *)
Definition filled (value : AirPlayPlistValue) (state : DecodeState) (start : Z) : Prop :=
  plist_ok value /\ (depth + plist_depth value <= AIRPLAY_PLIST_MAX_DEPTH)%nat /\
  length (active_objects state) = actives /\ decoded_nodes state + 1 = start + plist_nodes value /\
  decoded_nodes state <= AIRPLAY_PLIST_MAX_NODES.

Lemma depth_array array item :
  (depth + plist_depth (PlistArray array) <= AIRPLAY_PLIST_MAX_DEPTH)%nat ->
  (S depth + plist_depth item <= AIRPLAY_PLIST_MAX_DEPTH)%nat ->
  (depth + plist_depth (PlistArray (array ++ [item])) <= AIRPLAY_PLIST_MAX_DEPTH)%nat.
Proof.
  intros Ha Hi. assert (E : plist_depth (PlistArray (array ++ [item])) =
    S (foldr (fun item d => Nat.max (plist_depth item) d) 0%nat (array ++ [item]))) by (by destruct array).
  rewrite E. clear E. assert (H : (foldr (fun item d => Nat.max (plist_depth item) d) 0%nat array + S depth <=
    AIRPLAY_PLIST_MAX_DEPTH)%nat \/ array = []).
  { destruct array; [by right|left]. cbn [plist_depth] in Ha. lia. }
  destruct H as [H| ->]; [|cbn; lia]. revert H. generalize AIRPLAY_PLIST_MAX_DEPTH Hi. clear.
  intros limit Hi H. induction array as [|a array IH]; cbn in *; [lia|]. specialize (IH ltac:(lia)). lia.
Qed.

Lemma items_safe count payload index array state start :
  0 <= payload -> 0 <= index -> filled (PlistArray array) state start ->
  ans (plist_decode_items alloc decode context count payload index (PlistArray array) state)
    (fun '(value, state') => filled value state' start).
Proof.
  intros Hp. revert index array state. induction count as [|count IH]; intros index array state Hi Hf; [done|].
  cbn [plist_decode_items]. destruct Hf as (Hok & Hdepth & Hlen & Hn & Hmax).
  eapply ans_bind; [apply decode_reference_safe; by apply reference_at|]. cbn beta. intros r Hr.
  eapply ans_bind; [by apply Hdecode|]. intros [item state'] (Hok' & Hd' & Hl' & Hn' & Hm').
  inversion Hok as [| | | | |? Hs Hoks|]; subst.
  eapply ans_bind; [apply ans_or_fail, append_ok; apply Forall_app; split; [done|by constructor]|]. intros value [-> Hv].
  apply IH; [lia|]. split_and!; try done.
  - by apply depth_array.
  - congruence.
  - cbn [plist_nodes] in *. rewrite total_app. cbn [total]. lia.
Qed.

Lemma find_key_some entries key : find_key entries key = None -> key ∉ map fst entries.
Proof.
  induction entries as [|[k v] entries IH]; cbn; intros H; [by apply not_elem_of_nil|].
  case_bool_decide; [done|]. apply not_elem_of_cons. split; [done|]. apply IH. by destruct (find_key entries key).
Qed.

Lemma find_key_lookup entries key i : find_key entries key = Some i -> exists v, entries !! i = Some (key, v).
Proof.
  revert i. induction entries as [|[k v] entries IH]; intros i Hf; [done|]. cbn in Hf. case_bool_decide as Hk.
  - injection Hf as <-. exists v. by subst.
  - destruct (find_key entries key) as [j|]; [|done]. injection Hf as <-. by apply IH.
Qed.

Lemma dict_set_safe entries key item cps :
  text_ok key cps -> airplay_plist_dict_get (Some (PlistDict entries)) key = None ->
  plist_ok (PlistDict entries) -> plist_ok item ->
  safe (airplay_plist_dict_set alloc (Some (PlistDict entries)) key (Some item)) (fun v =>
    v = PlistDict (entries ++ [(key, item)]) /\ plist_ok v).
Proof.
  intros Ht Hnone Hok Hitem. inversion Hok as [| | | | | |? Hs Hnd Hkeys Hoks]; subst.
  assert (Hf : find_key entries key = None).
  { unfold airplay_plist_dict_get, plist_dict_find in Hnone. destruct (find_key entries key) as [i|] eqn:Ef; [|done].
    destruct (find_key_lookup _ _ _ Ef) as [v Hv]. cbn in Hnone. by rewrite Hv in Hnone. }
  cbn [airplay_plist_dict_set]. rewrite (measure_complete _ _ Ht). cbn [mbind outcome_bind].
  unfold plist_string_duplicate. destruct (_ <? size key); [done|]. cbn [negb ensure mbind outcome_bind].
  destruct (alloc (size key + 1)); [|done]. cbn [ensure mbind outcome_bind plist_dict_find]. rewrite Hf.
  destruct (Z.leb_spec AIRPLAY_PLIST_MAX_CONTAINER_ITEMS (size entries)); [done|]. cbn [negb ensure mbind outcome_bind].
  destruct (alloc _); [|done]. cbn [ensure mbind outcome_bind safe]. split; [done|].
  apply find_key_some in Hf. constructor; rewrite ?map_app, ?size_app.
  - change (size [(key, item)]) with 1. lia.
  - apply NoDup_app. split_and!; [done| |by apply NoDup_singleton].
    intros k Hk Hin. apply list_elem_of_singleton in Hin. by subst.
  - apply Forall_app. split; [done|]. constructor; [by exists cps|constructor].
  - apply Forall_app. split; [done|]. by constructor.
Qed.

Lemma depth_dict entries key item :
  (depth + plist_depth (PlistDict entries) <= AIRPLAY_PLIST_MAX_DEPTH)%nat ->
  (S depth + plist_depth item <= AIRPLAY_PLIST_MAX_DEPTH)%nat ->
  (depth + plist_depth (PlistDict (entries ++ [(key, item)])) <= AIRPLAY_PLIST_MAX_DEPTH)%nat.
Proof.
  intros Ha Hi. pose proof (depth_array (map snd entries) item) as H.
  assert (E : forall l : list (cstring * AirPlayPlistValue), plist_depth (PlistArray (map snd l)) = plist_depth (PlistDict l)).
  { intros [|[k v] l]; [done|]. cbn [map snd plist_depth foldr]. by rewrite foldr_map. }
  rewrite E in H. specialize (H Ha Hi). rewrite <- E, map_app. exact H.
Qed.

Lemma entries_safe count payload bytes index entries state start :
  0 <= payload -> 0 <= bytes -> 0 <= index -> filled (PlistDict entries) state start ->
  ans (plist_decode_entries alloc decode context count payload bytes index (PlistDict entries) state)
    (fun '(value, state') => filled value state' start).
Proof.
  intros Hp Hbs. revert index entries state. induction count as [|count IH]; intros index entries state Hi Hf; [done|].
  cbn [plist_decode_entries]. destruct Hf as (Hok & Hdepth & Hlen & Hn & Hmax).
  eapply ans_bind; [apply decode_reference_safe; by apply reference_at|]. cbn beta. intros rk Hrk.
  eapply ans_bind; [apply decode_reference_safe; apply reference_at; lia|]. cbn beta. intros rv Hrv.
  eapply ans_bind; [by apply Hdecode|]. intros [key_node state1] (Hok1 & Hd1 & Hl1 & Hn1 & Hm1).
  destruct key_node as [| | |key| | |]; try done. cbn [airplay_plist_get_string no_overflow mbind answer_bind].
  inversion Hok1 as [| | |? cps Ht| | |]; subst. apply ans_guard. intros Hnew. apply bool_decide_eq_true in Hnew.
  eapply ans_bind; [apply Hdecode; [done|congruence]|]. intros [item state2] (Hok2 & Hd2 & Hl2 & Hn2 & Hm2).
  eapply ans_bind; [apply ans_or_fail; by eapply dict_set_safe|]. intros value [-> Hv].
  apply IH; [lia|]. split_and!; try done.
  - by apply depth_dict.
  - congruence.
  - cbn [plist_nodes] in *. rewrite total_app. cbn [total snd]. lia.
Qed.

Lemma container_safe high len payload state :
  is_u64 len -> 0 <= payload <= object_table_end context -> (depth <= AIRPLAY_PLIST_MAX_DEPTH)%nat ->
  length (active_objects state) = actives -> decoded_nodes state <= AIRPLAY_PLIST_MAX_NODES ->
  ans (plist_decode_container alloc decode context high len payload state)
    (fun '(value, state') => filled value state' (decoded_nodes state)).
Proof.
  intros Hlen Hp Hd Ha Hn. unfold plist_decode_container. pose proof (dec_widths _ Hctx) as [_ Hw].
  apply ans_guard. intros _. destruct (plist_size_multiply len _) as [references|] eqn:Er; [|done].
  cbn [no_overflow mbind answer_bind]. unfold is_u64 in Hlen.
  assert (Hr : 0 <= references).
  { unfold plist_size_multiply in Er. destruct (_ && _); [done|]. injection Er as <-. nia. }
  assert (Hnew : forall v, plist_ok v -> plist_nodes v = 1 -> plist_depth v = 0%nat ->
    filled v state (decoded_nodes state)).
  { intros v Hok E1 E2. unfold filled. rewrite E1, E2. split_and!; (done || lia). }
  destruct (high =? 0xa0).
  - apply ans_guard. intros _. unfold airplay_plist_new_array, plist_new_value.
    destruct (alloc _); [|done]. cbn [ensure or_fail mbind outcome_bind answer_bind].
    apply items_safe; [lia|lia|]. apply Hnew; try done. by constructor.
  - destruct (plist_size_multiply references 2); [|done]. cbn [no_overflow mbind answer_bind].
    apply ans_guard. intros _. unfold airplay_plist_new_dict, plist_new_value.
    destruct (alloc _); [|done]. cbn [ensure or_fail mbind outcome_bind answer_bind].
    apply entries_safe; try lia. apply Hnew; try done. constructor; try done; constructor.
Qed.

(** The value at an offset.  Its own node was counted by the caller. *)
Lemma body_safe off state :
  0 <= off < object_table_end context -> (depth <= AIRPLAY_PLIST_MAX_DEPTH)%nat ->
  length (active_objects state) = actives -> decoded_nodes state <= AIRPLAY_PLIST_MAX_NODES ->
  ans (plist_decode_body alloc decode context off state)
    (fun '(value, state') => filled value state' (decoded_nodes state)).
Proof.
  intros Ho Hd Ha Hn. pose proof end_inside as (He & Hi & Hm).
  assert (Hleaf : forall v, leaf_ok v -> filled v state (decoded_nodes state)).
  { intros v [Hok Hc]. unfold filled. destruct v; try done; split_and!; try done; cbn; lia. }
  unfold plist_decode_body. eapply ans_bind; [apply ans_or_fail, deref_byte; [apply dec_bytes, Hctx|lia]|].
  intros marker Hmk. destruct (marker_digits marker Hmk) as [_ ->].
  destruct (_ || _).
  { unfold airplay_plist_new_bool, plist_new_value. destruct (alloc _); [|done].
    cbn [ensure or_fail mbind outcome_bind answer_bind ans]. apply Hleaf. split; [constructor|done]. }
  destruct (_ || _).
  { eapply ans_bind; [apply number_safe; (done || lia)|]. intros v Hv. cbn. by apply Hleaf. }
  destruct (_ || _); [|done].
  eapply ans_bind; [by apply decode_length_safe|]. intros [len header] (Hl & Hh & Hroom).
  eapply ans_bind; [apply ans_no_overflow; intros p Hp; exact Hp|]. cbn beta. intros payload Hpay.
  unfold plist_size_add in Hpay. destruct (_ <? header); [done|]. injection Hpay as <-.
  destruct (_ || _).
  - eapply ans_bind; [apply bytes_safe; (done || lia)|]. intros v Hv. cbn. by apply Hleaf.
  - apply container_safe; (done || lia).
Qed.
End children.

(** Every level of the recursion decodes, or refuses what is too deep. *)
Lemma object_safe fuel id depth state :
  (fuel + depth = DECODE_FUEL)%nat -> (0 < fuel)%nat -> 0 <= id < object_count context ->
  size (active_objects state) = object_count context ->
  ans (plist_decode_object alloc fuel context id depth state) (decoded depth state).
Proof.
  revert id depth state. induction fuel as [|fuel IH]; intros id depth state Hf Hpos Hid Hlen; [lia|].
  cbn [plist_decode_object]. apply ans_guard. intros Hlim. bool_cases.
  match goal with H : (_ <? depth)%nat = false |- _ => apply Nat.ltb_ge in H as Hd end.
  match goal with H : (_ <=? decoded_nodes state) = false |- _ => apply Z.leb_gt in H as Hn end.
  unfold DECODE_FUEL in *. apply ans_guard. intros _.
  destruct (lookup_lt_is_Some_2 (active_objects state) (Z.to_nat id)) as [active ->]; [unfold size in Hlen; lia|].
  cbn [checked or_fail mbind answer_bind]. apply ans_guard. intros _.
  eapply ans_bind; [apply ans_or_fail, decode_offset_safe; lia|]. cbn beta. intros off Hoff.
  match goal with |- context [plist_decode_body _ _ _ off ?s] => set (entered := s) end.
  assert (Hcount : decoded_nodes entered = decoded_nodes state + 1) by (unfold entered, upd; cbn [decoded_nodes active_objects]; lia).
  assert (Hact : length (active_objects entered) = length (active_objects state))
    by (unfold entered, upd; cbn [decoded_nodes active_objects]; apply length_insert).
  eapply ans_bind.
  - apply (body_safe _ depth (length (active_objects state))); [|lia|done|done|lia].
    intros r state' Hr Hl. apply IH; [lia| |done|unfold size in *; lia].
    unfold AIRPLAY_PLIST_MAX_DEPTH in *. lia.
  - intros [value state'] (Hok & Hdepth & Hl & Hcnt & Hmax). unfold upd. cbn [ans decoded decoded_nodes active_objects].
    rewrite length_insert. split_and!; (done || lia).
Qed.
End decoding.

(** ** The file *)

Lemma check_offsets_safe context count index :
  decodable context -> 0 <= index -> ans (check_offsets context count index) (fun _ => True).
Proof.
  intros Hctx. revert index. induction count as [|count IH]; intros index H0; [done|]. cbn [check_offsets].
  eapply ans_bind; [apply ans_or_fail; by apply decode_offset_safe|]. intros _ _. apply IH. lia.
Qed.

Lemma trailer_safe bytes len :
  Forall is_byte bytes -> 40 <= len <= size bytes -> len <= AIRPLAY_PLIST_MAX_BYTES ->
  ans (plist_read_trailer bytes len) (fun context => decodable context /\ 0 <= top_object context < object_count context).
Proof.
  intros Hb Hl Hm. unfold plist_read_trailer. set (trailer := len - 32).
  destruct (buf_read_spec (Z.to_nat trailer) 6 bytes) as [-> _]; [unfold size, trailer in *; lia|].
  cbn [checked or_fail mbind answer_bind]. apply ans_guard. intros _.
  eapply ans_bind; [apply ans_or_fail, deref_byte; [done|unfold trailer; lia]|]. intros ow How.
  eapply ans_bind; [apply ans_or_fail, deref_byte; [done|unfold trailer; lia]|]. intros rw Hrw.
  eapply ans_bind; [apply ans_or_fail, read_uint_safe; (done || (unfold trailer; lia))|]. cbn beta. intros count [Hc _].
  eapply ans_bind; [apply ans_or_fail, read_uint_safe; (done || (unfold trailer; lia))|]. cbn beta. intros top [Htop _].
  eapply ans_bind; [apply ans_or_fail, read_uint_safe; (done || (unfold trailer; lia))|]. cbn beta. intros table [Ht _].
  apply ans_guard. intros Hok. bool_cases.
  repeat match goal with
  | H : (_ =? 0) = false |- _ => apply Z.eqb_neq in H
  | H : (_ <=? _) = false |- _ => apply Z.leb_gt in H
  | H : (_ <? _) = false |- _ => apply Z.ltb_ge in H
  end.
  assert (Hw : forall n, is_width n = true -> 1 <= n <= 8).
  { intros n Hn. unfold is_width in Hn. rewrite !orb_true_iff, !Z.eqb_eq in Hn. lia. }
  assert (H1ow : 1 <= ow <= 8) by auto. assert (H1rw : 1 <= rw <= 8) by auto.
  unfold is_u64, AIRPLAY_PLIST_MAX_NODES, AIRPLAY_PLIST_MAX_BYTES, trailer in *.
  rewrite (u64_id (count * ow)) by (unfold is_u64, UINT64_MAX; nia).
  rewrite u64_id by (unfold is_u64, UINT64_MAX; nia). apply ans_guard. intros Hend. bool_cases. apply Z.ltb_ge in Hend.
  cbn. split; [|lia]. constructor; cbn; unfold AIRPLAY_PLIST_MAX_NODES, AIRPLAY_PLIST_MAX_BYTES; try done; lia.
Qed.

Lemma decode_spec alloc bytes len :
  Forall is_byte bytes -> len <= size bytes ->
  ans (airplay_plist_decode alloc (Some bytes) len) (fun value =>
    plist_ok value /\ (plist_depth value <= AIRPLAY_PLIST_MAX_DEPTH)%nat /\
    plist_nodes value <= AIRPLAY_PLIST_MAX_NODES).
Proof.
  intros Hb Hl. unfold airplay_plist_decode. apply ans_guard. intros Hm. apply ans_guard. intros H40.
  bool_cases. apply Z.ltb_ge in Hm, H40.
  destruct (buf_read_spec 0 8 bytes) as [-> _]; [unfold size in *; lia|].
  cbn [checked or_fail mbind answer_bind]. apply ans_guard. intros _.
  eapply ans_bind; [apply trailer_safe; (done || lia)|]. cbn beta. intros context [Hctx Htop].
  eapply ans_bind; [apply check_offsets_safe; (done || lia)|]. intros _ _. apply ans_guard. intros _.
  pose proof (dec_count _ Hctx) as Hcount. eapply ans_bind.
  - apply object_safe; try done; try (unfold DECODE_FUEL; lia). cbn [active_objects]. unfold size.
    rewrite length_replicate. lia.
  - intros [value state] (Hok & Hd & _ & Hn & Hmax). cbn [decoded_nodes ans] in *. split_and!; (done || lia).
Qed.

(** C12: For any bytes, any length that is not greater than theirs, and any failures
    of the allocator, the decoder ends without a read outside of the bytes, and a
    value it returns is well formed: its strings are UTF-8 text without NUL and of
    limited size, its dictionaries have distinct keys, its numbers are in range, and
    it is not deeper or larger than the limits. *)
Theorem decode_any_bytes_is_safe (alloc : Z -> bool) (bytes : list Z) (len : Z) :
  Forall is_byte bytes -> len <= size bytes ->
  match airplay_plist_decode alloc (Some bytes) len with
  | Returns value => plist_ok value /\ (plist_depth value <= AIRPLAY_PLIST_MAX_DEPTH)%nat /\
      plist_nodes value <= AIRPLAY_PLIST_MAX_NODES
  | Fails _ => True
  | Undefined => False
  end.
Proof. apply decode_spec. Qed.

(** An array that contains itself is refused, as is a length behind the end. *)
Definition cyclic_file : list Z :=
  Prelude.bytes "bplist00" ++ [0xa1; 0] ++ [8] ++ [0; 0; 0; 0; 0; 0; 1; 1] ++ [0; 0; 0; 0; 0; 0; 0; 1] ++
    [0; 0; 0; 0; 0; 0; 0; 0] ++ [0; 0; 0; 0; 0; 0; 0; 10].

Lemma decode_any_bytes_is_safe_witness :
  Forall is_byte cyclic_file /\ size cyclic_file = 43 /\
  airplay_plist_decode (fun _ => true) (Some cyclic_file) 43 = Fails AIRPLAY_PLIST_ERROR_INVALID_FORMAT /\
  match airplay_plist_decode (fun _ => true) (Some cyclic_file) 43 with
  | Returns value => plist_ok value /\ (plist_depth value <= AIRPLAY_PLIST_MAX_DEPTH)%nat /\
      plist_nodes value <= AIRPLAY_PLIST_MAX_NODES
  | Fails _ => True
  | Undefined => False
  end.
Proof.
  assert (Hb : Forall is_byte cyclic_file) by (unfold is_byte; apply (bool_decide_unpack _); vm_compute; exact I).
  split; [exact Hb|]. split; [reflexivity|]. split; [vm_compute; reflexivity|].
  apply (decode_any_bytes_is_safe (fun _ => true) cyclic_file 43 Hb). vm_compute. congruence.
Defined.
