(* ===== verification/Rtsp.v ===== *)
(** * RTSP requests (protocol/airplay/protocol/rtsp.c)

    The parser of the requests of a controller.  [bytes] is the buffer of the
    connection and [len] the number of bytes that were received so far; every read
    is checked against the buffer.  [alloc] says which allocations succeed.  A field
    of a request that is a character array is the string it holds. *)

From S2P Require Import Prelude CText Buffers.

(* src: source/protocol/airplay/protocol/rtsp.h AirPlayRtspError *)
Inductive AirPlayRtspError :=
  | AIRPLAY_RTSP_ERROR_NONE
  | AIRPLAY_RTSP_ERROR_INVALID_ARGUMENT
  | AIRPLAY_RTSP_ERROR_INVALID_FORMAT
  | AIRPLAY_RTSP_ERROR_LIMIT_EXCEEDED
  | AIRPLAY_RTSP_ERROR_OUT_OF_MEMORY.

Definition AIRPLAY_RTSP_MAX_HEADER_BYTES : Z := 32 * 1024.
Definition AIRPLAY_RTSP_MAX_BODY_BYTES : Z := 1024 * 1024.
Definition AIRPLAY_RTSP_MAX_RESPONSE_BODY_BYTES : Z := 4 * 1024 * 1024.
Definition AIRPLAY_RTSP_MAX_MESSAGE_BYTES : Z := AIRPLAY_RTSP_MAX_HEADER_BYTES + AIRPLAY_RTSP_MAX_BODY_BYTES.
Definition AIRPLAY_RTSP_MAX_RESPONSE_MESSAGE_BYTES : Z :=
  AIRPLAY_RTSP_MAX_HEADER_BYTES + AIRPLAY_RTSP_MAX_RESPONSE_BODY_BYTES.
Definition AIRPLAY_RTSP_MAX_HEADERS : Z := 48.
Definition AIRPLAY_RTSP_MAX_METHOD_BYTES : Z := 31.
Definition AIRPLAY_RTSP_MAX_URI_BYTES : Z := 1023.
Definition AIRPLAY_RTSP_MAX_PROTOCOL_BYTES : Z := 15.
Definition AIRPLAY_RTSP_MAX_HEADER_NAME_BYTES : Z := 63.
Definition AIRPLAY_RTSP_MAX_HEADER_VALUE_BYTES : Z := 2047.

(* src: source/protocol/airplay/protocol/rtsp.h AirPlayRtspHeader *)
Record AirPlayRtspHeader := mkHeader {
  name : cstring;
  value : cstring
}.

(** The number of headers is the length of their list. *)
(* src: source/protocol/airplay/protocol/rtsp.h AirPlayRtspRequest *)
Record AirPlayRtspRequest := mkRequest {
  method : cstring;
  uri : cstring;
  protocol : cstring;
  headers : list AirPlayRtspHeader;
  body : list Z;
  body_length : Z;
  has_cseq : bool;
  cseq : Z
}.

(** The result of parsing, with the error that is reported. *)
(* src: source/protocol/airplay/protocol/rtsp.h AirPlayRtspParseResult *)
Inductive parse_result (A : Type) : Type :=
  | PARSE_OK (a : A)
  | PARSE_NEED_MORE
  | PARSE_ERROR (e : AirPlayRtspError)
  | PARSE_UNDEFINED.
Arguments PARSE_OK {A} a.
Arguments PARSE_NEED_MORE {A}.
Arguments PARSE_ERROR {A} e.
Arguments PARSE_UNDEFINED {A}.

#[export] Instance parse_result_ret : MRet parse_result := fun A a => PARSE_OK a.
#[export] Instance parse_result_bind : MBind parse_result := fun A B f m =>
  match m with
  | PARSE_OK a => f a
  | PARSE_NEED_MORE => PARSE_NEED_MORE
  | PARSE_ERROR e => PARSE_ERROR e
  | PARSE_UNDEFINED => PARSE_UNDEFINED
  end.

(** [if (!m) goto e;] *)
Definition or_goto {A} (e : AirPlayRtspError) (m : outcome A) : parse_result A :=
  match m with Done a => PARSE_OK a | Refused => PARSE_ERROR e | Stuck => PARSE_UNDEFINED end.

Definition invalid_format := AIRPLAY_RTSP_ERROR_INVALID_FORMAT.
Definition limit_exceeded := AIRPLAY_RTSP_ERROR_LIMIT_EXCEEDED.
Definition out_of_memory := AIRPLAY_RTSP_ERROR_OUT_OF_MEMORY.

(** ** Characters *)

(* src: source/protocol/airplay/protocol/rtsp.c rtsp_size_add *)
Definition rtsp_size_add (left right : Z) : outcome Z :=
  ensure (negb (UINT64_MAX - left <? right));; Done (left + right).

(* src: source/protocol/airplay/protocol/rtsp.c rtsp_is_token_character *)
Definition rtsp_is_token_character (c : Z) : bool :=
  isalnum c || existsb (Z.eqb c) [33; 35; 36; 37; 38; 39; 42; 43; 45; 46; 94; 95; 96; 124; 126].

(* src: source/protocol/airplay/protocol/rtsp.c rtsp_valid_token *)
Definition rtsp_valid_token (text : cstring) : bool :=
  negb (bool_decide (text = [])) && forallb rtsp_is_token_character text.

(* src: source/protocol/airplay/protocol/rtsp.c rtsp_valid_header_value *)
Definition rtsp_valid_header_value (text : cstring) : bool :=
  forallb (fun c => negb ((c =? 13) || (c =? 10) || ((c <? 0x20) && negb (c =? 9)) || (c =? 0x7f))) text.

(* src: source/protocol/airplay/protocol/rtsp.c rtsp_valid_uri *)
Definition rtsp_valid_uri (text : cstring) : bool :=
  negb (bool_decide (text = [])) &&
  forallb (fun c => negb ((c <? 0x21) || (0x7e <? c))) text &&
  negb (AIRPLAY_RTSP_MAX_URI_BYTES <? size text).

(** Copies to an array of [destination_size] bytes. *)
(* src: source/protocol/airplay/protocol/rtsp.c rtsp_copy_slice *)
Definition rtsp_copy_slice (destination_size : Z) (bytes : list Z) (start len : nat) : outcome cstring :=
  ensure (negb (destination_size <=? Z.of_nat len));;
  slice ← checked (buf_read start len bytes);
  Done (cstr_of slice).

(** ** Lines *)

(** [bytes[index] == c], and [a && b]. *)
Definition byte_is (bytes : list Z) (index : nat) (c : Z) : outcome bool :=
  b ← checked (bytes !! index); Done (b =? c).
Definition both (a b : outcome bool) : outcome bool := x ← a; if x : bool then b else Done false.

(** The loop, [count] indices from [index] on. *)
(* src: source/protocol/airplay/protocol/rtsp.c 121-128 rtsp_find_crlf *)
Fixpoint find_crlf_loop (count : nat) (bytes : list Z) (index : nat) : outcome nat :=
  match count with
  | O => Refused
  | S count' =>
      found ← both (byte_is bytes index 13) (byte_is bytes (index + 1) 10);
      if found : bool then Done index else find_crlf_loop count' bytes (S index)
  end.

(* src: source/protocol/airplay/protocol/rtsp.c rtsp_find_crlf *)
Definition rtsp_find_crlf (bytes : list Z) (start limit : nat) : outcome nat :=
  ensure (negb (limit <? start)%nat);;
  find_crlf_loop (limit - 1 - start) bytes start.

(* src: source/protocol/airplay/protocol/rtsp.c 138-146 rtsp_find_header_end *)
Fixpoint find_header_end_loop (count : nat) (bytes : list Z) (index : nat) : outcome nat :=
  match count with
  | O => Refused
  | S count' =>
      found ← both (byte_is bytes index 13) (both (byte_is bytes (index + 1) 10)
                (both (byte_is bytes (index + 2) 13) (byte_is bytes (index + 3) 10)));
      if found : bool then Done (index + 4)%nat else find_header_end_loop count' bytes (S index)
  end.

(* src: source/protocol/airplay/protocol/rtsp.c rtsp_find_header_end *)
Definition rtsp_find_header_end (bytes : list Z) (len : nat) : outcome nat :=
  find_header_end_loop (len - 3) bytes 0.

(* src: source/protocol/airplay/protocol/rtsp.c 157-167 rtsp_parse_decimal *)
Fixpoint parse_decimal_loop (text : cstring) (maximum value : Z) : option Z :=
  match text with
  | [] => Some value
  | c :: text' =>
      if negb (isdigit c) then None
      else
        let digit := c - 48 in
        if u64 (maximum - digit) / 10 <? value then None
        else parse_decimal_loop text' maximum (u64 (value * 10 + digit))
  end.

(* src: source/protocol/airplay/protocol/rtsp.c rtsp_parse_decimal *)
Definition rtsp_parse_decimal (text : cstring) (maximum : Z) : option Z :=
  match text with [] => None | _ => parse_decimal_loop text maximum 0 end.

(* src: source/protocol/airplay/protocol/rtsp.c rtsp_decimal_syntax_valid *)
Definition rtsp_decimal_syntax_valid (text : cstring) : bool :=
  negb (bool_decide (text = [])) && forallb isdigit text.

(* src: source/protocol/airplay/protocol/rtsp.c rtsp_header_name_equal *)
Definition rtsp_header_name_equal (left right : cstring) : bool := strcasecmp_equal left right.

(* src: source/protocol/airplay/protocol/rtsp.c 198-203 airplay_rtsp_request_header *)
Fixpoint find_header (headers : list AirPlayRtspHeader) (key : cstring) : option cstring :=
  match headers with
  | [] => None
  | header :: headers' =>
      if rtsp_header_name_equal (name header) key then Some (value header) else find_header headers' key
  end.

(* src: source/protocol/airplay/protocol/rtsp.c airplay_rtsp_request_header *)
Definition airplay_rtsp_request_header (request : AirPlayRtspRequest) (key : cstring) : option cstring :=
  find_header (headers request) key.

(** The loop over the line: the first two spaces. *)
(* src: source/protocol/airplay/protocol/rtsp.c 224-237 rtsp_parse_request_line *)
Fixpoint scan_spaces (count : nat) (bytes : list Z) (index : nat) (first_space second_space : option nat)
    : outcome (option nat * option nat) :=
  match count with
  | O => Done (first_space, second_space)
  | S count' =>
      b ← checked (bytes !! index);
      if b =? 32 then
        match first_space, second_space with
        | None, _ => scan_spaces count' bytes (S index) (Some index) second_space
        | Some _, None => scan_spaces count' bytes (S index) first_space (Some index)
        | Some _, Some _ => Refused
        end
      else
        ensure (negb ((b <? 0x21) || (0x7e <? b)));;
        scan_spaces count' bytes (S index) first_space second_space
  end.

Definition CRLF : list Z := [13; 10].

Definition is_protocol (text : cstring) : bool :=
  bool_decide (text = bytes "RTSP/1.0") || bool_decide (text = bytes "HTTP/1.1").

(** The method, the URI and the protocol. *)
(* src: source/protocol/airplay/protocol/rtsp.c rtsp_parse_request_line *)
Definition rtsp_parse_request_line (bytes : list Z) (line_length : nat) : outcome (cstring * cstring * cstring) :=
  ensure (negb (line_length =? 0)%nat);;
  '(first_space, second_space) ← scan_spaces line_length bytes 0 None None;
  match first_space, second_space with
  | Some first_space, Some second_space =>
      ensure (negb ((first_space =? 0)%nat || (second_space <=? first_space + 1)%nat ||
                    (line_length <=? second_space + 1)%nat));;
      method ← rtsp_copy_slice (AIRPLAY_RTSP_MAX_METHOD_BYTES + 1) bytes 0 first_space;
      uri ← rtsp_copy_slice (AIRPLAY_RTSP_MAX_URI_BYTES + 1) bytes (first_space + 1)
              (second_space - first_space - 1);
      protocol ← rtsp_copy_slice (AIRPLAY_RTSP_MAX_PROTOCOL_BYTES + 1) bytes (second_space + 1)
                   (line_length - second_space - 1);
      ensure (rtsp_valid_token method && is_protocol protocol);;
      Done (method, uri, protocol)
  | _, _ => Refused
  end.

(** The loop over the line of a header: the first colon.  [base] is where the line
    starts. *)
(* src: source/protocol/airplay/protocol/rtsp.c 272-284 rtsp_parse_header_line *)
Fixpoint scan_colon (count : nat) (bytes : list Z) (base index : nat) (colon : option nat)
    : outcome (option nat) :=
  match count with
  | O => Done colon
  | S count' =>
      b ← checked (bytes !! (base + index)%nat);
      match colon, b =? 58 with
      | None, true => scan_colon count' bytes base (S index) (Some index)
      | _, _ =>
          ensure (negb ((b =? 0) || (b =? 13) || (b =? 10) || ((b <? 0x20) && negb (b =? 9)) || (b =? 0x7f)));;
          scan_colon count' bytes base (S index) colon
      end
  end.

(* src: source/protocol/airplay/protocol/rtsp.c 287-289 rtsp_parse_header_line *)
Fixpoint skip_blanks (count : nat) (bytes : list Z) (base value_start : nat) : outcome nat :=
  match count with
  | O => Done value_start
  | S count' =>
      b ← checked (bytes !! (base + value_start)%nat);
      if (b =? 32) || (b =? 9) then skip_blanks count' bytes base (S value_start) else Done value_start
  end.

(* src: source/protocol/airplay/protocol/rtsp.c 290-291 rtsp_parse_header_line *)
Fixpoint trim_blanks (count : nat) (bytes : list Z) (base value_end : nat) : outcome nat :=
  match count with
  | O => Done value_end
  | S count' =>
      b ← checked (bytes !! (base + value_end - 1)%nat);
      if (b =? 32) || (b =? 9) then trim_blanks count' bytes base (value_end - 1) else Done value_end
  end.

(** The headers with the one of the line. *)
(* src: source/protocol/airplay/protocol/rtsp.c rtsp_parse_header_line *)
Definition rtsp_parse_header_line (bytes : list Z) (base line_length : nat) (headers : list AirPlayRtspHeader)
    : outcome (list AirPlayRtspHeader) :=
  ensure (negb ((line_length =? 0)%nat || (AIRPLAY_RTSP_MAX_HEADERS <=? size headers)));;
  colon ← scan_colon line_length bytes base 0 None;
  match colon with
  | Some colon =>
      ensure (negb (colon =? 0)%nat);;
      value_start ← skip_blanks (line_length - (colon + 1)) bytes base (colon + 1);
      value_end ← trim_blanks (line_length - value_start) bytes base line_length;
      name ← rtsp_copy_slice (AIRPLAY_RTSP_MAX_HEADER_NAME_BYTES + 1) bytes base colon;
      value ← rtsp_copy_slice (AIRPLAY_RTSP_MAX_HEADER_VALUE_BYTES + 1) bytes (base + value_start)
                (value_end - value_start);
      ensure (rtsp_valid_token name && rtsp_valid_header_value value);;
      Done (headers ++ [mkHeader name value])
  | None => Refused
  end.

(** The loop over the lines of the headers; every line takes one round and has at
    least two bytes. *)
(* src: source/protocol/airplay/protocol/rtsp.c 360-366 airplay_rtsp_parse_request *)
Fixpoint parse_header_lines (fuel : nat) (bytes : list Z) (cursor header_end : nat)
    (headers : list AirPlayRtspHeader) : outcome (list AirPlayRtspHeader * nat) :=
  match fuel with
  | O => Stuck
  | S fuel' =>
      if negb (cursor + 2 <? header_end)%nat then Done (headers, cursor)
      else
        line_end ← rtsp_find_crlf bytes cursor header_end;
        ensure (negb (line_end =? cursor)%nat);;
        headers ← rtsp_parse_header_line bytes cursor (line_end - cursor) headers;
        parse_header_lines fuel' bytes (line_end + 2) header_end headers
  end.

Definition TRANSFER_ENCODING : cstring := bytes "Transfer-Encoding".
Definition CONTENT_LENGTH : cstring := bytes "Content-Length".
Definition CSEQ : cstring := bytes "CSeq".

(** Neither a transfer encoding nor a second length or sequence number. *)
(* src: source/protocol/airplay/protocol/rtsp.c 370-386 airplay_rtsp_parse_request *)
Fixpoint headers_acceptable (headers : list AirPlayRtspHeader) : bool :=
  match headers with
  | [] => true
  | header :: later =>
      if rtsp_header_name_equal (name header) TRANSFER_ENCODING then false
      else if negb (rtsp_header_name_equal (name header) CONTENT_LENGTH) &&
              negb (rtsp_header_name_equal (name header) CSEQ)
      then headers_acceptable later
      else negb (existsb (fun other => rtsp_header_name_equal (name header) (name other)) later) &&
           headers_acceptable later
  end.

(** The part of a request before its body: what it is and the end of the headers. *)
(* src: source/protocol/airplay/protocol/rtsp.c 355-386 airplay_rtsp_parse_request *)
Definition parse_head (bytes : list Z) (header_end : nat)
    : outcome (cstring * cstring * cstring * list AirPlayRtspHeader) :=
  line_end ← rtsp_find_crlf bytes 0 header_end;
  line ← rtsp_parse_request_line bytes line_end;
  '(headers, cursor) ← parse_header_lines (S header_end) bytes (line_end + 2) header_end [];
  ensure (cursor =? header_end - 2)%nat;;
  ensure (headers_acceptable headers);;
  Done (line, headers).

(** The length of the body that the headers announce. *)
(* src: source/protocol/airplay/protocol/rtsp.c 388-396 airplay_rtsp_parse_request *)
Definition content_length (headers : list AirPlayRtspHeader) : parse_result Z :=
  match find_header headers CONTENT_LENGTH with
  | None => PARSE_OK 0
  | Some text =>
      if negb (rtsp_decimal_syntax_valid text) then PARSE_ERROR invalid_format
      else
        match rtsp_parse_decimal text AIRPLAY_RTSP_MAX_BODY_BYTES with
        | None => PARSE_ERROR limit_exceeded
        | Some n => PARSE_OK n
        end
  end.

(* src: source/protocol/airplay/protocol/rtsp.c 406-414 airplay_rtsp_parse_request *)
Definition sequence_number (headers : list AirPlayRtspHeader) : parse_result (bool * Z) :=
  match find_header headers CSEQ with
  | None => PARSE_OK (false, 0)
  | Some text =>
      if negb (rtsp_decimal_syntax_valid text) then PARSE_ERROR invalid_format
      else
        match rtsp_parse_decimal text UINT32_MAX with
        | None => PARSE_ERROR invalid_format
        | Some n => PARSE_OK (true, u32 n)
        end
  end.

Section allocation.
Context (alloc : Z -> bool).

Definition sizeof_request : Z := 102480.

(** The bytes of a connection, behind a pointer that is not null. *)
(* src: source/protocol/airplay/protocol/rtsp.c 328-427 airplay_rtsp_parse_request *)
Definition parse_received (bytes : list Z) (len : nat) : parse_result (AirPlayRtspRequest * nat) :=
  if AIRPLAY_RTSP_MAX_MESSAGE_BYTES <? Z.of_nat len then PARSE_ERROR limit_exceeded
  else
    match rtsp_find_header_end bytes len with
    | Stuck => PARSE_UNDEFINED
    | Refused =>
        if AIRPLAY_RTSP_MAX_HEADER_BYTES <=? Z.of_nat len then PARSE_ERROR limit_exceeded else PARSE_NEED_MORE
    | Done header_end =>
        if AIRPLAY_RTSP_MAX_HEADER_BYTES <? Z.of_nat header_end then PARSE_ERROR limit_exceeded
        else if negb (alloc sizeof_request) then PARSE_ERROR out_of_memory
        else
          '(method, uri, protocol, headers) ← or_goto invalid_format (parse_head bytes header_end);
          body_length ← content_length headers;
          total_length ← or_goto limit_exceeded (rtsp_size_add (Z.of_nat header_end) body_length);
          if AIRPLAY_RTSP_MAX_MESSAGE_BYTES <? total_length then PARSE_ERROR limit_exceeded
          else if Z.of_nat len <? total_length then PARSE_NEED_MORE
          else
            '(has_cseq, cseq) ← sequence_number headers;
            body ←
              (if negb (body_length =? 0) then
                 if negb (alloc body_length) then PARSE_ERROR out_of_memory
                 else or_goto invalid_format (checked (buf_read header_end (Z.to_nat body_length) bytes))
               else PARSE_OK []);
            PARSE_OK (mkRequest method uri protocol headers body body_length has_cseq cseq, Z.to_nat total_length)
    end.

(** The request and the number of bytes it took. *)
(* src: source/protocol/airplay/protocol/rtsp.c airplay_rtsp_parse_request *)
Definition airplay_rtsp_parse_request (bytes : option (list Z)) (len : nat)
    : parse_result (AirPlayRtspRequest * nat) :=
  match bytes with
  | Some bytes => parse_received bytes len
  | None =>
      if negb (len =? 0)%nat then PARSE_ERROR AIRPLAY_RTSP_ERROR_INVALID_ARGUMENT else PARSE_NEED_MORE
  end.
End allocation.

Definition demo_request : list Z :=
  bytes "SETUP rtsp://x/1 RTSP/1.0" ++ [13; 10] ++ bytes "CSeq:  7 " ++ [13; 10] ++
    bytes "Content-Length: 3" ++ [13; 10; 13; 10] ++ bytes "abc".

Example parse_demo :
  airplay_rtsp_parse_request (fun _ => true) (Some (demo_request ++ bytes "OPTIONS")) (length demo_request) =
    PARSE_OK (mkRequest (bytes "SETUP") (bytes "rtsp://x/1") (bytes "RTSP/1.0")
      [mkHeader (bytes "CSeq") (bytes "7"); mkHeader (bytes "Content-Length") (bytes "3")]
      (bytes "abc") 3 true 7, length demo_request).
Proof. vm_compute. reflexivity. Qed.
