(* ===== verification/RtspResponse.v ===== *)
(** * RTSP responses, outbound requests and dispatch (protocol/airplay/protocol/rtsp.c)

    The responses to a controller, the requests that the receiver sends over the
    reverse connection, and the default handling of a session's requests.  An
    output buffer is the list of the bytes written to it, with its size. *)

From S2P Require Import Prelude CText Buffers Rtsp.

(* src: source/protocol/airplay/protocol/rtsp.h AirPlayRtspResponse *)
Record AirPlayRtspResponse := mkResponse {
  response_protocol : cstring;
  status_code : Z;
  reason : cstring;
  response_headers : list AirPlayRtspHeader;
  response_body : list Z;
  close_connection : bool;
  register_reverse_connection : bool
}.
#[export] Instance eta_AirPlayRtspResponse : Eta AirPlayRtspResponse := fun r =>
  mkResponse (response_protocol r) (status_code r) (reason r) (response_headers r) (response_body r)
    (close_connection r) (register_reverse_connection r).

(* src: source/protocol/airplay/protocol/rtsp.h AirPlayRtspOutboundRequest *)
Record AirPlayRtspOutboundRequest := mkOutbound {
  outbound_method : cstring;
  outbound_uri : cstring;
  outbound_protocol : cstring;
  outbound_headers : list AirPlayRtspHeader;
  outbound_body : list Z
}.

(* src: source/protocol/airplay/protocol/rtsp.h AirPlayRtspSessionState *)
Inductive AirPlayRtspSessionState :=
  | AIRPLAY_RTSP_SESSION_CONNECTED
  | AIRPLAY_RTSP_SESSION_SETUP
  | AIRPLAY_RTSP_SESSION_RECORDING
  | AIRPLAY_RTSP_SESSION_CLOSED.
#[export] Instance eq_AirPlayRtspSessionState : EqDecision AirPlayRtspSessionState.
Proof. solve_decision. Defined.

(* src: source/protocol/airplay/protocol/rtsp.h AirPlayRtspSession *)
Record AirPlayRtspSession := mkSession {
  id : Z;
  logical_session_id : Z;
  request_count : Z;
  peer_ipv4_address : Z;
  state : AirPlayRtspSessionState;
  security_context : Z;
  protocol_context : Z
}.
#[export] Instance eta_AirPlayRtspSession : Eta AirPlayRtspSession := fun s =>
  mkSession (id s) (logical_session_id s) (request_count s) (peer_ipv4_address s) (state s)
    (security_context s) (protocol_context s).

(** ** Responses *)

(* src: source/protocol/airplay/protocol/rtsp.c rtsp_reason_phrase *)
Definition rtsp_reason_phrase (status : Z) : cstring :=
  if status =? 101 then bytes "Switching Protocols"
  else if status =? 200 then bytes "OK"
  else if status =? 400 then bytes "Bad Request"
  else if status =? 405 then bytes "Method Not Allowed"
  else if status =? 409 then bytes "Conflict"
  else if status =? 404 then bytes "Not Found"
  else if status =? 408 then bytes "Request Timeout"
  else if status =? 413 then bytes "Content Too Large"
  else if status =? 421 then bytes "Misdirected Request"
  else if status =? 455 then bytes "Method Not Valid in This State"
  else if status =? 461 then bytes "Unsupported Transport"
  else if status =? 500 then bytes "Internal Server Error"
  else if status =? 501 then bytes "Not Implemented"
  else if status =? 503 then bytes "Service Unavailable"
  else bytes "Error".

(** The response after the call.  [snprintf] keeps 63 bytes of the phrase. *)
(* src: source/protocol/airplay/protocol/rtsp.c airplay_rtsp_response_set_status *)
Definition airplay_rtsp_response_set_status (response : AirPlayRtspResponse) (status : Z)
    : outcome AirPlayRtspResponse :=
  ensure (negb ((status <? 100) || (999 <? status)));;
  Done { response with status_code := status; reason := take 63 (rtsp_reason_phrase status) }.

Definition cleared_response : AirPlayRtspResponse := mkResponse [] 0 [] [] [] false false.

(* src: source/protocol/airplay/protocol/rtsp.c airplay_rtsp_response_init *)
Definition airplay_rtsp_response_init (protocol : cstring) (status : Z) : outcome AirPlayRtspResponse :=
  ensure (is_protocol protocol);;
  airplay_rtsp_response_set_status { cleared_response with response_protocol := protocol } status.

(* src: source/protocol/airplay/protocol/rtsp.c airplay_rtsp_response_add_header *)
Definition airplay_rtsp_response_add_header (response : AirPlayRtspResponse) (key text : cstring)
    : outcome AirPlayRtspResponse :=
  ensure (rtsp_valid_token key && rtsp_valid_header_value text &&
          negb (rtsp_header_name_equal key CONTENT_LENGTH) &&
          negb (AIRPLAY_RTSP_MAX_HEADERS <=? size (response_headers response)));;
  ensure (negb ((AIRPLAY_RTSP_MAX_HEADER_NAME_BYTES <? size key) ||
                (AIRPLAY_RTSP_MAX_HEADER_VALUE_BYTES <? size text)));;
  ensure (forallb (fun header => negb (rtsp_header_name_equal (name header) key)) (response_headers response));;
  Done { response with response_headers ::= fun headers => headers ++ [mkHeader key text] }.

(** [snprintf] to the array [line]: the text must fit. *)
Definition sizeof_line : Z := AIRPLAY_RTSP_MAX_HEADER_NAME_BYTES + AIRPLAY_RTSP_MAX_HEADER_VALUE_BYTES + 8.
Definition format_line (text : list Z) : outcome (list Z) :=
  ensure (negb (sizeof_line <=? size text));; Done text.

Definition status_line (response : AirPlayRtspResponse) : list Z :=
  response_protocol response ++ [32] ++ format_u (status_code response) ++ [32] ++ reason response ++ CRLF.
Definition header_line (header : AirPlayRtspHeader) : list Z :=
  name header ++ [58; 32] ++ value header ++ CRLF.
Definition content_length_line (len : Z) : list Z := bytes "Content-Length: " ++ format_u len ++ CRLF.
Definition connection_close : list Z := bytes "Connection: close" ++ CRLF.

(** The total size with the lines added. *)
(* src: source/protocol/airplay/protocol/rtsp.c 600-606 airplay_rtsp_response_encode *)
Fixpoint add_lines (lines : list (list Z)) (total : Z) : outcome Z :=
  match lines with
  | [] => Done total
  | text :: lines' =>
      line ← format_line text;
      total ← rtsp_size_add total (size line);
      add_lines lines' total
  end.

(* src: source/protocol/airplay/protocol/rtsp.c rtsp_encoded_append *)
Definition rtsp_encoded_append (output_size : Z) (output text : list Z) : outcome (list Z) :=
  ensure (negb ((output_size <? size output) || (output_size - size output <? size text)));;
  Done (output ++ text).

(* src: source/protocol/airplay/protocol/rtsp.c 629-635 airplay_rtsp_response_encode *)
Fixpoint append_lines (output_size : Z) (lines : list (list Z)) (output : list Z) : outcome (list Z) :=
  match lines with
  | [] => Done output
  | text :: lines' =>
      output ← rtsp_encoded_append output_size output text;
      append_lines output_size lines' output
  end.

Section allocation.
Context (alloc : Z -> bool).

(** The old body is freed when the new one is in place. *)
(* src: source/protocol/airplay/protocol/rtsp.c airplay_rtsp_response_set_body *)
Definition airplay_rtsp_response_set_body (response : AirPlayRtspResponse) (body : list Z)
    (content_type : option cstring) : outcome AirPlayRtspResponse :=
  ensure (negb (AIRPLAY_RTSP_MAX_RESPONSE_BODY_BYTES <? size body));;
  ensure (bool_decide (body = []) || alloc (size body));;
  response ← match content_type with
             | Some text => airplay_rtsp_response_add_header response (bytes "Content-Type") text
             | None => Done response
             end;
  Done { response with response_body := body }.

(* src: source/protocol/airplay/protocol/rtsp.c airplay_rtsp_response_encode *)
Definition airplay_rtsp_response_encode (response : AirPlayRtspResponse) : outcome (list Z) :=
  ensure (negb ((status_code response <? 100) ||
                (AIRPLAY_RTSP_MAX_RESPONSE_BODY_BYTES <? size (response_body response))));;
  let lines := status_line response :: map header_line (response_headers response) ++
               [content_length_line (size (response_body response))] in
  total ← add_lines lines 0;
  total ← (if close_connection response then rtsp_size_add total (size connection_close) else Done total);
  total ← rtsp_size_add total 2;
  total ← rtsp_size_add total (size (response_body response));
  ensure (negb (AIRPLAY_RTSP_MAX_RESPONSE_MESSAGE_BYTES <? total));;
  ensure (alloc (total + 1));;
  output ← append_lines total lines [];
  output ← (if close_connection response then rtsp_encoded_append total output connection_close else Done output);
  output ← rtsp_encoded_append total output CRLF;
  output ← rtsp_encoded_append total output (response_body response);
  ensure (size output =? total);;
  Done output.

(** The checks of the headers and the size of their lines. *)
(* src: source/protocol/airplay/protocol/rtsp.c 690-717 airplay_rtsp_outbound_request_encode *)
Fixpoint add_outbound_headers (headers : list AirPlayRtspHeader) (total : Z) : outcome Z :=
  match headers with
  | [] => Done total
  | header :: later =>
      ensure (rtsp_valid_token (name header) && rtsp_valid_header_value (value header) &&
              negb (AIRPLAY_RTSP_MAX_HEADER_NAME_BYTES <? size (name header)) &&
              negb (AIRPLAY_RTSP_MAX_HEADER_VALUE_BYTES <? size (value header)) &&
              negb (rtsp_header_name_equal (name header) CONTENT_LENGTH));;
      ensure (forallb (fun other => negb (rtsp_header_name_equal (name header) (name other))) later);;
      line ← format_line (header_line header);
      total ← rtsp_size_add total (size line);
      add_outbound_headers later total
  end.

Definition request_line (request : AirPlayRtspOutboundRequest) : list Z :=
  outbound_method request ++ [32] ++ outbound_uri request ++ [32] ++ outbound_protocol request ++ CRLF.

(* src: source/protocol/airplay/protocol/rtsp.c airplay_rtsp_outbound_request_encode *)
Definition airplay_rtsp_outbound_request_encode (request : AirPlayRtspOutboundRequest) : outcome (list Z) :=
  ensure (rtsp_valid_token (outbound_method request) && rtsp_valid_uri (outbound_uri request) &&
          bool_decide (outbound_protocol request = bytes "HTTP/1.1") &&
          negb (AIRPLAY_RTSP_MAX_HEADERS <? size (outbound_headers request)) &&
          negb (AIRPLAY_RTSP_MAX_BODY_BYTES <? size (outbound_body request)));;
  line ← format_line (request_line request);
  total ← rtsp_size_add 0 (size line);
  total ← add_outbound_headers (outbound_headers request) total;
  total ← add_lines [content_length_line (size (outbound_body request))] total;
  total ← rtsp_size_add total 2;
  total ← rtsp_size_add total (size (outbound_body request));
  ensure (negb (AIRPLAY_RTSP_MAX_MESSAGE_BYTES <? total));;
  ensure (alloc (total + 1));;
  output ← append_lines total
    (request_line request :: map header_line (outbound_headers request) ++
     [content_length_line (size (outbound_body request))]) [];
  output ← rtsp_encoded_append total output CRLF;
  output ← rtsp_encoded_append total output (outbound_body request);
  ensure (size output =? total);;
  Done output.
End allocation.

(** ** Sessions *)

(* src: source/protocol/airplay/protocol/rtsp.c airplay_rtsp_session_init *)
Definition airplay_rtsp_session_init (id : Z) : AirPlayRtspSession :=
  mkSession id id 0 0 AIRPLAY_RTSP_SESSION_CONNECTED 0 0.

(* src: source/protocol/airplay/protocol/rtsp.c airplay_rtsp_session_set_peer_ipv4 *)
Definition airplay_rtsp_session_set_peer_ipv4 (session : AirPlayRtspSession) (address : Z) : AirPlayRtspSession :=
  { session with peer_ipv4_address := address }.

(** A handler's result: whether it handled the request, the session and the response. *)
Definition handled : Type := bool * AirPlayRtspSession * AirPlayRtspResponse.

(** [return f(response, ...)]: a failure leaves the response as it is. *)
Definition answer_with (session : AirPlayRtspSession) (response : AirPlayRtspResponse)
    (m : outcome AirPlayRtspResponse) : handled :=
  match m with Done response' => (true, session, response') | _ => (false, session, response) end.

(* src: source/protocol/airplay/protocol/rtsp.c airplay_rtsp_default_route *)
Definition airplay_rtsp_default_route (session : AirPlayRtspSession) (request : AirPlayRtspRequest)
    (response : AirPlayRtspResponse) : handled :=
  let method_is text := bool_decide (method request = bytes text) in
  let in_state s := bool_decide (state session = s) in
  let status code := answer_with session response (airplay_rtsp_response_set_status response code) in
  if method_is "OPTIONS"%string then
    answer_with session response (airplay_rtsp_response_add_header response (bytes "Public")
      (bytes "OPTIONS, GET, POST, SETUP, RECORD, GET_PARAMETER, SET_PARAMETER, TEARDOWN"))
  else if method_is "SETUP"%string then
    if negb (in_state AIRPLAY_RTSP_SESSION_CONNECTED) then status 455
    else (true, { session with state := AIRPLAY_RTSP_SESSION_SETUP }, response)
  else if method_is "RECORD"%string then
    if negb (in_state AIRPLAY_RTSP_SESSION_SETUP) then status 455
    else (true, { session with state := AIRPLAY_RTSP_SESSION_RECORDING }, response)
  else if method_is "GET_PARAMETER"%string || method_is "SET_PARAMETER"%string then
    if negb (in_state AIRPLAY_RTSP_SESSION_SETUP) && negb (in_state AIRPLAY_RTSP_SESSION_RECORDING) then status 455
    else (true, session, response)
  else if method_is "TEARDOWN"%string then
    if in_state AIRPLAY_RTSP_SESSION_CLOSED then status 455
    else (true, { session with state := AIRPLAY_RTSP_SESSION_CLOSED }, { response with close_connection := true })
  else status (if method_is "GET"%string || method_is "POST"%string then 404 else 501).

(* src: source/protocol/airplay/protocol/rtsp.c rtsp_add_control_response_headers *)
Definition rtsp_add_control_response_headers (response : AirPlayRtspResponse) (request : AirPlayRtspRequest)
    : outcome AirPlayRtspResponse :=
  response ← airplay_rtsp_response_add_header response (bytes "Server") (bytes "AirTunes/220.68");
  if negb (has_cseq request) then Done response
  else
    response ← airplay_rtsp_response_add_header response CSEQ (take 15 (format_u (cseq request)));
    if bool_decide (protocol request = bytes "RTSP/1.0") && negb (bool_decide (method request = bytes "RECORD")) then
      airplay_rtsp_response_add_header response (bytes "Audio-Jack-Status") (bytes "connected; type=digital")
    else Done response.

Definition discovery_request (request : AirPlayRtspRequest) : bool :=
  bool_decide (method request = bytes "GET") &&
  (strstr (uri request) (bytes "txtAirPlay") || strstr (uri request) (bytes "txtRAOP")).

Definition secondary_pair_verify (request : AirPlayRtspRequest) : bool :=
  bool_decide (method request = bytes "POST") && bool_decide (uri request = bytes "/pair-verify").

(** The session and the response after the call; [None] when it returns [false],
    with the session as it then is. *)
(* src: source/protocol/airplay/protocol/rtsp.c airplay_rtsp_dispatch *)
Definition airplay_rtsp_dispatch (session : AirPlayRtspSession) (request : AirPlayRtspRequest)
    (handler : option (AirPlayRtspSession -> AirPlayRtspRequest -> AirPlayRtspResponse -> handled))
    : AirPlayRtspSession * option AirPlayRtspResponse :=
  let finish session m := match m with Done response => (session, Some response) | _ => (session, None) end in
  if bool_decide (state session = AIRPLAY_RTSP_SESSION_CLOSED) then (session, None)
  else
    match airplay_rtsp_response_init (protocol request) 200 with
    | Done response =>
        if bool_decide (protocol request = bytes "RTSP/1.0") && negb (has_cseq request) &&
           negb (discovery_request request) && negb (secondary_pair_verify request) then
          finish session (airplay_rtsp_response_set_status { response with close_connection := true } 400)
        else
          match rtsp_add_control_response_headers response request with
          | Done response =>
              let session := { session with request_count ::= inc32 } in
              let '(handled, session, response) :=
                match handler with
                | Some handler => handler session request response
                | None => airplay_rtsp_default_route session request response
                end in
              if (handled : bool) then (session, Some response)
              else
                finish session
                  (response ← airplay_rtsp_response_init (protocol request) 500;
                   rtsp_add_control_response_headers response request)
          | _ => (session, None)
          end
    | _ => (session, None)
    end.

Example response_demo :
  (response ← airplay_rtsp_response_init (bytes "RTSP/1.0") 200;
   response ← airplay_rtsp_response_add_header response CSEQ (bytes "7");
   response ← airplay_rtsp_response_set_body (fun _ => true) response (bytes "ok") (Some (bytes "text/plain"));
   airplay_rtsp_response_encode (fun _ => true) response) =
    Done (bytes "RTSP/1.0 200 OK" ++ CRLF ++ bytes "CSeq: 7" ++ CRLF ++ bytes "Content-Type: text/plain" ++ CRLF ++
      bytes "Content-Length: 2" ++ CRLF ++ CRLF ++ bytes "ok").
Proof. vm_compute. reflexivity. Qed.
