(* ===== verification/RtspGrammar.v ===== *)
(** * The grammar of RTSP requests

    What a request looks like, as a relation between a request and its bytes, and
    that the lines of [Rtsp] are parsed according to it: whatever is accepted has
    this form, what has this form is accepted, and nothing is read behind the end. *)

From S2P Require Import Prelude CText Buffers Rtsp.

(** ** The grammar *)

Definition blank (c : Z) : Prop := c = 32 \/ c = 9.
Definition graphic (c : Z) : Prop := 0x21 <= c <= 0x7e.

(** No blank at either end. *)
Definition trimmed (text : list Z) : Prop :=
  (forall c rest, text = c :: rest -> ~ blank c) /\ (forall c rest, text = rest ++ [c] -> ~ blank c).

Record header_ok (h : AirPlayRtspHeader) : Prop := {
  ok_name : rtsp_valid_token (name h) = true;
  ok_name_size : size (name h) <= AIRPLAY_RTSP_MAX_HEADER_NAME_BYTES;
  ok_value : rtsp_valid_header_value (value h) = true;
  ok_value_size : size (value h) <= AIRPLAY_RTSP_MAX_HEADER_VALUE_BYTES;
  ok_trimmed : trimmed (value h)
}.

(** A header line: the value may have blanks around it. *)
Definition header_text (h : AirPlayRtspHeader) (bs : list Z) : Prop :=
  exists before after, Forall blank before /\ Forall blank after /\
    bs = name h ++ [58] ++ before ++ value h ++ after.

Record line_ok (method uri protocol : cstring) : Prop := {
  ok_method : rtsp_valid_token method = true;
  ok_method_size : size method <= AIRPLAY_RTSP_MAX_METHOD_BYTES;
  ok_uri : rtsp_valid_uri uri = true;
  ok_protocol : is_protocol protocol = true
}.

Definition line_text (method uri protocol : cstring) : list Z := method ++ [32] ++ uri ++ [32] ++ protocol.

(** Lines with their ends. *)
Definition lines_text (lines : list (list Z)) : list Z := concat (map (fun line => line ++ CRLF) lines).

(** ** Searching for the ends of lines *)

Fixpoint crlf_at (l : list Z) : option nat :=
  match l with
  | [] => None
  | b :: l' => if (b =? 13) && bool_decide (head l' = Some 10) then Some 0%nat else S <$> crlf_at l'
  end.

Fixpoint blank_line_at (l : list Z) : option nat :=
  match l with
  | [] => None
  | _ :: l' => if bool_decide (take 4 l = CRLF ++ CRLF) then Some 0%nat else S <$> blank_line_at l'
  end.

Lemma lookup_drop_0 {A} (pre t : list A) i : (pre ++ t) !! (length pre + i)%nat = t !! i.
Proof. rewrite lookup_app_r by lia. f_equal. lia. Qed.

Lemma byte_is_at pre t i c :
  byte_is (pre ++ t) (length pre + i) c = byte_is t i c.
Proof. unfold byte_is. by rewrite lookup_drop_0. Qed.

Lemma find_crlf_loop_eq count pre t :
  (S count <= length t)%nat ->
  find_crlf_loop count (pre ++ t) (length pre) =
    match crlf_at (take (S count) t) with Some i => Done (length pre + i)%nat | None => Refused end.
Proof.
  revert pre t. induction count as [|count IH]; intros pre t Hl.
  { destruct t as [|b t]; [cbn in Hl; lia|]. cbn. by rewrite andb_false_r. }
  destruct t as [|b [|b' t]]; cbn in Hl; try lia. cbn [find_crlf_loop].
  replace (length pre) with (length pre + 0)%nat at 1 by lia. rewrite !byte_is_at.
  change (take (S (S count)) (b :: b' :: t)) with (b :: take (S count) (b' :: t)).
  cbn [byte_is lookup list_lookup checked mbind outcome_bind both crlf_at].
  assert (Hn : find_crlf_loop count (pre ++ b :: b' :: t) (S (length pre)) =
    match crlf_at (take (S count) (b' :: t)) with
    | Some i => Done (length pre + S i)%nat | None => Refused end).
  { pose proof (IH (pre ++ [b]) (b' :: t)) as IHn. rewrite <- app_assoc, length_app in IHn. cbn [app length] in IHn.
    replace (length pre + 1)%nat with (S (length pre)) in IHn by lia. rewrite IHn by (cbn; lia).
    destruct (crlf_at _); [|done]. f_equal. lia. }
  destruct (b =? 13); cbn [andb].
  - change (head (take (S count) (b' :: t))) with (Some b'). destruct (Z.eqb_spec b' 10) as [->|Hb].
    + rewrite bool_decide_eq_true_2 by done. cbn. by rewrite Nat.add_0_r.
    + rewrite bool_decide_eq_false_2 by congruence. cbn [mbind outcome_bind]. rewrite Hn. by destruct (crlf_at _).
  - cbn [mbind outcome_bind]. rewrite Hn. by destruct (crlf_at _).
Qed.

Lemma blank_line_short l : (length l < 4)%nat -> blank_line_at l = None.
Proof.
  induction l as [|b l IH]; intros Hl; [done|]. cbn [blank_line_at]. rewrite bool_decide_eq_false_2.
  - rewrite IH by (cbn in Hl; lia). done.
  - intros E. apply (f_equal length) in E. rewrite length_take in E.
    change (length (CRLF ++ CRLF)) with 4%nat in E. cbn [length] in *. lia.
Qed.

Lemma find_header_end_loop_eq count pre t :
  (count + 3 <= length t)%nat ->
  find_header_end_loop count (pre ++ t) (length pre) =
    match blank_line_at (take (count + 3) t) with Some i => Done (length pre + i + 4)%nat | None => Refused end.
Proof.
  revert pre t. induction count as [|count IH]; intros pre t Hl.
  { rewrite blank_line_short; [done|]. rewrite length_take. lia. }
  destruct t as [|b0 [|b1 [|b2 [|b3 t]]]]; cbn in Hl; try lia. cbn [find_header_end_loop].
  replace (length pre) with (length pre + 0)%nat at 1 by lia. rewrite !byte_is_at.
  change (take (S count + 3) (b0 :: b1 :: b2 :: b3 :: t)) with (b0 :: take (count + 3) (b1 :: b2 :: b3 :: t)).
  cbn [byte_is lookup list_lookup checked mbind outcome_bind both blank_line_at].
  assert (Hn : find_header_end_loop count (pre ++ b0 :: b1 :: b2 :: b3 :: t) (S (length pre)) =
    match blank_line_at (take (count + 3) (b1 :: b2 :: b3 :: t)) with
    | Some i => Done (length pre + S i + 4)%nat | None => Refused end).
  { pose proof (IH (pre ++ [b0]) (b1 :: b2 :: b3 :: t)) as IHn. rewrite <- app_assoc, length_app in IHn.
    cbn [app length] in IHn. replace (length pre + 1)%nat with (S (length pre)) in IHn by lia.
    rewrite IHn by (cbn; lia). destruct (blank_line_at _); [|done]. f_equal. lia. }
  assert (E : take 4 (b0 :: take (count + 3) (b1 :: b2 :: b3 :: t)) = [b0; b1; b2; b3]).
  { replace (count + 3)%nat with (S (S (S count))) by lia. done. }
  rewrite E. clear E. unfold CRLF. cbn [app].
  destruct (Z.eqb_spec b0 13) as [->|]; [destruct (Z.eqb_spec b1 10) as [->|];
    [destruct (Z.eqb_spec b2 13) as [->|]; [destruct (Z.eqb_spec b3 10) as [->|]|]|]|].
  { rewrite bool_decide_eq_true_2 by done. cbn. by rewrite Nat.add_0_r. }
  all: rewrite bool_decide_eq_false_2 by congruence; cbn [mbind outcome_bind]; rewrite Hn; by destruct (blank_line_at _).
Qed.

Lemma crlf_at_sound l i : crlf_at l = Some i -> exists rest, l = take i l ++ CRLF ++ rest /\ (i + 2 <= length l)%nat.
Proof.
  revert i. induction l as [|b l IH]; intros i H; [done|]. cbn [crlf_at] in H.
  destruct (Z.eqb_spec b 13) as [->|Hb]; cbn [andb] in H.
  - case_bool_decide as Hh.
    + injection H as <-. destruct l as [|b' l]; [done|]. injection Hh as ->. exists l. split; [done|]. cbn. lia.
    + destruct (crlf_at l) as [j|]; [|done]. injection H as <-. destruct (IH j eq_refl) as (rest & E & Hl).
      exists rest. cbn [take app length]. split; [by f_equal|lia].
  - destruct (crlf_at l) as [j|]; [|done]. injection H as <-. destruct (IH j eq_refl) as (rest & E & Hl).
    exists rest. cbn [take app length]. split; [by f_equal|lia].
Qed.

Lemma crlf_at_line line rest : 13 ∉ line -> crlf_at (line ++ CRLF ++ rest) = Some (length line).
Proof.
  induction line as [|b line IH]; intros H; [done|]. apply not_elem_of_cons in H as [Hb H].
  cbn [app crlf_at length]. rewrite (proj2 (Z.eqb_neq b 13)) by congruence. cbn [andb]. by rewrite IH.
Qed.

Lemma find_crlf_sound bytes start limit :
  (start <= limit <= length bytes)%nat ->
  safe (rtsp_find_crlf bytes start limit) (fun e => exists line rest,
    drop start bytes = line ++ CRLF ++ rest /\ e = (start + length line)%nat /\ (e + 2 <= limit)%nat).
Proof.
  intros Hl. unfold rtsp_find_crlf. rewrite (proj2 (Nat.ltb_ge limit start)) by lia.
  cbn [negb ensure mbind outcome_bind]. destruct (decide (limit = start)) as [->|Hne].
  { by replace (start - 1 - start)%nat with 0%nat by lia. }
  pose proof (find_crlf_loop_eq (limit - 1 - start) (take start bytes) (drop start bytes)) as E.
  rewrite take_drop, length_take, Nat.min_l in E by lia. rewrite length_drop in E. rewrite E by lia.
  destruct (crlf_at _) as [i|] eqn:Hc; [|done]. cbn. apply crlf_at_sound in Hc as (rest & Hr & Hi).
  rewrite length_take, length_drop in Hi. rewrite take_take in Hr.
  exists (take i (drop start bytes)), (rest ++ drop (S (limit - 1 - start)) (drop start bytes)).
  rewrite Nat.min_l in Hr by lia. split_and!.
  - rewrite <- (take_drop (S (limit - 1 - start)) (drop start bytes)) at 1. rewrite Hr. by rewrite <- !app_assoc.
  - rewrite length_take, length_drop. lia.
  - lia.
Qed.

Lemma find_crlf_complete pre line rest limit :
  13 ∉ line -> (length pre + length line + 2 <= limit <= length (pre ++ line ++ CRLF ++ rest))%nat ->
  rtsp_find_crlf (pre ++ line ++ CRLF ++ rest) (length pre) limit = Done (length pre + length line)%nat.
Proof.
  intros Hc Hl. unfold rtsp_find_crlf. rewrite (proj2 (Nat.ltb_ge limit _)) by lia.
  cbn [negb ensure mbind outcome_bind]. rewrite length_app in Hl. rewrite find_crlf_loop_eq by lia.
  replace (S (limit - 1 - length pre)) with (length line + S (S (limit - length pre - length line - 2)))%nat by lia.
  rewrite take_app_add. change (take (S (S ?n)) (CRLF ++ rest)) with (CRLF ++ take n rest).
  by rewrite crlf_at_line.
Qed.

(** *** The end of the headers *)

Lemma blank_line_sound l i : blank_line_at l = Some i ->
  (i + 4 <= length l)%nat /\ take 4 (drop i l) = CRLF ++ CRLF.
Proof.
  revert i. induction l as [|b l IH]; intros i H; [done|]. cbn [blank_line_at] in H. case_bool_decide as Hc.
  - injection H as <-. rewrite drop_0. split; [|done]. apply (f_equal length) in Hc. rewrite length_take in Hc.
    change (length (CRLF ++ CRLF)) with 4%nat in Hc. lia.
  - destruct (blank_line_at l) as [j|]; [|done]. injection H as <-. destruct (IH j eq_refl) as [H1 H2].
    cbn [length drop]. split; [lia|done].
Qed.

(** The first blank line of a longer and of a shorter piece of the same bytes. *)
Lemma blank_line_take l i m :
  blank_line_at l = Some i -> (m <= length l)%nat ->
  blank_line_at (take m l) = if (m <? i + 4)%nat then None else Some i.
Proof.
  revert i m. induction l as [|b l IH]; intros i m H Hm; [done|]. destruct m as [|m].
  { by rewrite (proj2 (Nat.ltb_lt 0 _)) by lia. }
  cbn [blank_line_at] in H. cbn [length] in Hm. change (take (S m) (b :: l)) with (b :: take m l).
  cbn [blank_line_at]. change (b :: take m l) with (take (S m) (b :: l)). rewrite take_take. case_bool_decide as Hc.
  - injection H as <-. destruct (Nat.ltb_spec (S m) (0 + 4)) as [Hlt|Hge].
    + rewrite bool_decide_eq_false_2.
      * by rewrite blank_line_short by (rewrite length_take; lia).
      * intros E. apply (f_equal length) in E. rewrite length_take in E.
        change (length (CRLF ++ CRLF)) with 4%nat in E. lia.
    + rewrite Nat.min_l by lia. by rewrite bool_decide_eq_true_2.
  - destruct (blank_line_at l) as [j|]; [|done]. injection H as <-. rewrite (IH j m eq_refl) by lia.
    rewrite bool_decide_eq_false_2.
    + replace (S m <? S j + 4)%nat with (m <? j + 4)%nat; [by destruct (m <? j + 4)%nat|].
      destruct (Nat.ltb_spec m (j + 4)), (Nat.ltb_spec (S m) (S j + 4)); (done || lia).
    + intros E. apply Hc. rewrite <- E. destruct (decide (4 <= S m)%nat); [by rewrite Nat.min_l by lia|].
      apply (f_equal length) in E. rewrite length_take in E. change (length (CRLF ++ CRLF)) with 4%nat in E. lia.
Qed.

Lemma blank_line_skip a l : 13 ∉ a -> blank_line_at (a ++ l) = Nat.add (length a) <$> blank_line_at l.
Proof.
  induction a as [|b a IH]; intros H; [cbn [app length]; by destruct (blank_line_at l)|]. apply not_elem_of_cons in H as [Hb H].
  cbn [app blank_line_at]. rewrite bool_decide_eq_false_2 by (intros E; cbn in E; congruence). rewrite IH by done.
  by destruct (blank_line_at l).
Qed.

Lemma lines_text_cons line lines : lines_text (line :: lines) = line ++ CRLF ++ lines_text lines.
Proof. unfold lines_text. cbn [map concat]. by rewrite <- app_assoc. Qed.

Lemma lines_text_app l l' : lines_text (l ++ l') = lines_text l ++ lines_text l'.
Proof. unfold lines_text. by rewrite map_app, concat_app. Qed.

Definition plain_line (line : list Z) : Prop := line <> [] /\ 13 ∉ line.

Lemma blank_line_lines lines rest :
  lines <> [] -> Forall plain_line lines ->
  blank_line_at (lines_text lines ++ CRLF ++ rest) = Some (length (lines_text lines) - 2)%nat.
Proof.
  intros Hne H. induction H as [|line lines [Hl Hc] H IH]; [done|]. rewrite lines_text_cons.
  rewrite <- app_assoc, blank_line_skip by done. destruct lines as [|line' lines].
  { change (lines_text []) with (@nil Z). cbn [app CRLF blank_line_at].
    rewrite bool_decide_eq_true_2 by done. rewrite length_app. cbn. f_equal. lia. }
  specialize (IH ltac:(done)). set (tail := lines_text (line' :: lines)) in *.
  assert (Htail : exists c t, tail = c :: t /\ c <> 13).
  { apply Forall_cons in H as [[Hl' Hc'] _]. destruct line' as [|c line']; [done|].
    exists c, (line' ++ CRLF ++ lines_text lines). split; [unfold tail; by rewrite lines_text_cons|].
    intros ->. apply Hc'. left. }
  destruct Htail as (c & t & Ht & Hc13).
  assert (E : blank_line_at ((CRLF ++ tail) ++ CRLF ++ rest) = Nat.add 2 <$> blank_line_at (tail ++ CRLF ++ rest)).
  { rewrite Ht. cbn [app CRLF blank_line_at]. rewrite !bool_decide_eq_false_2 by (unfold CRLF; cbn; congruence).
    match goal with |- _ = Nat.add 2 <$> ?x => by destruct x end. }
  rewrite E, IH, !length_app. change (length CRLF) with 2%nat. cbn [fmap option_fmap option_map]. f_equal.
  assert (2 <= length tail)%nat; [|lia]. unfold tail.
  rewrite lines_text_cons, !length_app. change (length CRLF) with 2%nat. lia.
Qed.

(** ** The request line *)

Lemma graphic_spec c : negb ((c <? 0x21) || (0x7e <? c)) = true <-> graphic c.
Proof. unfold graphic. destruct (Z.ltb_spec c 0x21), (Z.ltb_spec 0x7e c); cbn; split; (done || lia). Qed.

Lemma span (P : Z -> bool) l : exists a t, l = a ++ t /\ Forall (fun c => P c = true) a /\
  (t = [] \/ exists b t', t = b :: t' /\ P b = false).
Proof.
  induction l as [|c l (a & t & -> & Ha & Ht)]; [by exists [], []; eauto|]. destruct (P c) eqn:Hc.
  - exists (c :: a), t. split_and!; try done. by constructor.
  - exists [], (c :: a ++ t). split_and!; [done|constructor|]. right. by exists c, (a ++ t).
Qed.

Lemma scan_run pre a t n f s :
  Forall graphic a ->
  scan_spaces (length a + n) (pre ++ a ++ t) (length pre) f s =
    scan_spaces n (pre ++ a ++ t) (length (pre ++ a)) f s.
Proof.
  intros Ha. revert pre. induction Ha as [|c a Hc Ha IH]; intros pre; [by rewrite app_nil_r|].
  cbn [length Nat.add scan_spaces app]. rewrite lookup_at. cbn [checked mbind outcome_bind].
  rewrite (proj2 (Z.eqb_neq c 32)) by (unfold graphic in Hc; lia). apply graphic_spec in Hc. rewrite Hc.
  cbn [ensure mbind outcome_bind]. specialize (IH (pre ++ [c])). rewrite length_app, <- !app_assoc in IH.
  cbn [app length] in IH. by rewrite Nat.add_1_r in IH.
Qed.

Lemma scan_space pre t n f s :
  scan_spaces (S n) (pre ++ 32 :: t) (length pre) f s =
    match f, s with
    | None, _ => scan_spaces n (pre ++ 32 :: t) (length (pre ++ [32])) (Some (length pre)) s
    | Some _, None => scan_spaces n (pre ++ 32 :: t) (length (pre ++ [32])) f (Some (length pre))
    | Some _, Some _ => Refused
    end.
Proof.
  cbn [scan_spaces]. rewrite lookup_at. cbn [checked mbind outcome_bind Z.eqb Pos.eqb].
  rewrite length_app. cbn [length]. by rewrite Nat.add_1_r.
Qed.

Lemma scan_other pre b t n f s :
  b <> 32 -> ~ graphic b -> scan_spaces (S n) (pre ++ b :: t) (length pre) f s = Refused.
Proof.
  intros Hb Hg. cbn [scan_spaces]. rewrite lookup_at. cbn [checked mbind outcome_bind].
  rewrite (proj2 (Z.eqb_neq b 32)) by done. destruct (negb _) eqn:E; [|done]. by apply graphic_spec in E.
Qed.

(** One stretch of the line: up to its end, to a space, or to a character that is refused. *)
Lemma scan_stretch pre line rest f s :
  exists a t, line = a ++ t /\ Forall graphic a /\
    (t = [] /\ scan_spaces (length line) (pre ++ line ++ rest) (length pre) f s = Done (f, s) \/
     (exists t', t = 32 :: t' /\
        scan_spaces (length line) (pre ++ line ++ rest) (length pre) f s =
        match f, s with
        | None, _ => scan_spaces (length t') ((pre ++ a ++ [32]) ++ t' ++ rest) (length (pre ++ a ++ [32]))
                       (Some (length (pre ++ a))) s
        | Some _, None => scan_spaces (length t') ((pre ++ a ++ [32]) ++ t' ++ rest) (length (pre ++ a ++ [32]))
                            f (Some (length (pre ++ a)))
        | Some _, Some _ => Refused
        end) \/
     scan_spaces (length line) (pre ++ line ++ rest) (length pre) f s = Refused).
Proof.
  destruct (span (fun c => negb ((c <? 0x21) || (0x7e <? c))) line) as (a & t & -> & Ha & Ht).
  assert (Hga : Forall graphic a) by (eapply Forall_impl; [exact Ha|]; intros c; apply graphic_spec).
  exists a, t. split; [done|]. split; [done|]. rewrite length_app, <- app_assoc, scan_run by done.
  destruct Ht as [->|(b & t' & -> & Hb)]; [by left|right].
  assert (Hng : ~ graphic b) by (intros Hg; apply graphic_spec in Hg; congruence).
  rewrite app_assoc. cbn [app length]. destruct (decide (b = 32)) as [->|Hne]; [left|right].
  - exists t'. split; [done|]. rewrite scan_space. by rewrite <- !app_assoc.
  - by apply scan_other.
Qed.

Lemma scan_spaces_sound line rest :
  match scan_spaces (length line) (line ++ rest) 0 None None with
  | Done (Some i, Some j) => exists a b c, line = line_text a b c /\
      Forall graphic a /\ Forall graphic b /\ Forall graphic c /\
      i = length a /\ j = (length a + 1 + length b)%nat
  | Stuck => False
  | _ => True
  end.
Proof.
  destruct (scan_stretch [] line rest None None) as (a & t & -> & Ha & [[-> E]|[(t' & -> & E)|E]]);
    cbn [app] in E; change (@length Z []) with 0%nat in E; rewrite E; [done| |done].
  destruct (scan_stretch (a ++ [32]) t' rest (Some (length a)) None) as (b & t2 & -> & Hb & [[-> E2]|[(t3 & -> & E2)|E2]]);
    rewrite E2; [done| |done].
  destruct (scan_stretch ((a ++ [32]) ++ b ++ [32]) t3 rest (Some (length a)) (Some (length ((a ++ [32]) ++ b))))
    as (c & t4 & -> & Hc & [[-> E3]|[(t5 & -> & E3)|E3]]); rewrite E3; [|done..].
  exists a, b, c. unfold line_text. split_and!; try done.
  - by rewrite app_nil_r.
  - rewrite !length_app. cbn. lia.
Qed.

Lemma scan_spaces_complete a b c rest :
  Forall graphic a -> Forall graphic b -> Forall graphic c ->
  scan_spaces (length (line_text a b c)) (line_text a b c ++ rest) 0 None None =
    Done (Some (length a), Some (length a + 1 + length b)%nat).
Proof.
  intros Ha Hb Hc. unfold line_text.
  pose proof (scan_run [] a ([32] ++ b ++ [32] ++ c ++ rest) (S (length b + S (length c))) None None Ha) as E1.
  pose proof (scan_space a (b ++ [32] ++ c ++ rest) (length b + S (length c)) None None) as E2.
  pose proof (scan_run (a ++ [32]) b ([32] ++ c ++ rest) (S (length c)) (Some (length a)) None Hb) as E3.
  pose proof (scan_space ((a ++ [32]) ++ b) (c ++ rest) (length c) (Some (length a)) None) as E4.
  pose proof (scan_run (((a ++ [32]) ++ b) ++ [32]) c rest 0 (Some (length a)) (Some (length ((a ++ [32]) ++ b))) Hc) as E5.
  rewrite <- !app_assoc in *. cbn [app length] in *.
  replace (length (a ++ 32 :: b ++ 32 :: c)) with (length a + S (length b + S (length c)))%nat
    by (rewrite length_app; cbn [length]; rewrite length_app; done).
  rewrite E1, E2, E3, E4. rewrite Nat.add_0_r in E5. rewrite E5. cbn [scan_spaces]. do 3 f_equal.
  rewrite !length_app. cbn [length]. lia.
Qed.

(** *** Copies *)

Lemma cstr_of_id s : Forall (fun c => c <> 0) s -> cstr_of s = s.
Proof.
  induction 1 as [|c s Hc Hs IH]; [done|]. cbn. rewrite (proj2 (Z.eqb_neq c 0)) by done. by rewrite IH.
Qed.

Lemma copy_slice_eq n pre s post :
  rtsp_copy_slice n (pre ++ s ++ post) (length pre) (length s) =
    if n <=? size s then Refused else Done (cstr_of s).
Proof.
  unfold rtsp_copy_slice. fold (size s). destruct (n <=? size s); [done|]. cbn [negb ensure mbind outcome_bind].
  by rewrite buf_read_app.
Qed.

Lemma graphic_nonzero s : Forall graphic s -> Forall (fun c => c <> 0) s.
Proof. intros H. eapply Forall_impl; [exact H|]. unfold graphic. cbn. lia. Qed.

Lemma token_char c : rtsp_is_token_character c = true -> graphic c /\ c <> 58.
Proof.
  unfold rtsp_is_token_character, isalnum, isalpha, isdigit, graphic. cbn [existsb].
  rewrite !orb_true_iff, !andb_true_iff, !Z.leb_le, !Z.eqb_eq. lia.
Qed.

Lemma valid_token_spec s : rtsp_valid_token s = true <->
  s <> [] /\ Forall (fun c => rtsp_is_token_character c = true) s.
Proof.
  unfold rtsp_valid_token. rewrite andb_true_iff, negb_true_iff, bool_decide_eq_false, forallb_forall, list.Forall_forall.
  by setoid_rewrite list_elem_of_In.
Qed.

Lemma token_graphic s : rtsp_valid_token s = true -> Forall graphic s.
Proof. intros [_ H]%valid_token_spec. eapply Forall_impl; [exact H|]. intros c Hc. by apply token_char. Qed.

Lemma valid_uri_spec s : rtsp_valid_uri s = true <->
  s <> [] /\ Forall graphic s /\ size s <= AIRPLAY_RTSP_MAX_URI_BYTES.
Proof.
  unfold rtsp_valid_uri.
  rewrite !andb_true_iff, !negb_true_iff, bool_decide_eq_false, Z.ltb_ge, forallb_forall, list.Forall_forall.
  setoid_rewrite list_elem_of_In. setoid_rewrite graphic_spec. tauto.
Qed.

Lemma protocol_graphic s : is_protocol s = true -> Forall graphic s /\ size s <= AIRPLAY_RTSP_MAX_PROTOCOL_BYTES /\ s <> [].
Proof.
  unfold is_protocol. rewrite orb_true_iff, !bool_decide_eq_true.
  intros [-> | ->]; (split; [repeat constructor; done|split; [vm_compute; congruence|done]]).
Qed.

Lemma line_text_length a b c : length (line_text a b c) = (length a + 1 + length b + 1 + length c)%nat.
Proof. unfold line_text. rewrite !length_app. cbn [length]. lia. Qed.

Lemma length_zero_nil {A} (l : list A) : l <> [] -> (0 < length l)%nat.
Proof. destruct l; [done|cbn; lia]. Qed.

Lemma request_line_copies a b c rest n1 n2 n3 :
  rtsp_copy_slice n1 (line_text a b c ++ rest) 0 (length a) = (if n1 <=? size a then Refused else Done (cstr_of a)) /\
  rtsp_copy_slice n2 (line_text a b c ++ rest) (length a + 1) (length b) =
    (if n2 <=? size b then Refused else Done (cstr_of b)) /\
  rtsp_copy_slice n3 (line_text a b c ++ rest) (length a + 1 + length b + 1) (length c) =
    (if n3 <=? size c then Refused else Done (cstr_of c)).
Proof.
  unfold line_text. pose proof (copy_slice_eq n1 [] a ([32] ++ b ++ [32] ++ c ++ rest)) as E1.
  pose proof (copy_slice_eq n2 (a ++ [32]) b ([32] ++ c ++ rest)) as E2.
  pose proof (copy_slice_eq n3 (((a ++ [32]) ++ b) ++ [32]) c rest) as E3.
  rewrite !length_app in E2, E3. cbn [length] in E2, E3. rewrite <- !app_assoc in *.
  change (@length Z []) with 0%nat in E1. cbn [app] in *. split_and!; [done..|].
  rewrite <- E3. f_equal. rewrite ?length_app. cbn [length]. lia.
Qed.

Lemma request_line_sound line rest :
  safe (rtsp_parse_request_line (line ++ rest) (length line)) (fun '(m, u, p) =>
    line = line_text m u p /\ line_ok m u p).
Proof.
  unfold rtsp_parse_request_line. destruct (Nat.eqb_spec (length line) 0); [done|]. cbn [negb ensure mbind outcome_bind].
  pose proof (scan_spaces_sound line rest) as Hs.
  destruct (scan_spaces _ _ _ _ _) as [[[i|] [j|]]| |]; try done. cbn [mbind outcome_bind].
  destruct Hs as (a & b & c & -> & Ha & Hb & Hc & -> & ->). rewrite line_text_length.
  destruct (Nat.eqb_spec (length a) 0); [done|]. destruct (Nat.leb_spec (length a + 1 + length b) (length a + 1)); [done|].
  destruct (Nat.leb_spec (length a + 1 + length b + 1 + length c) (length a + 1 + length b + 1)); [done|].
  cbn [orb negb ensure mbind outcome_bind].
  destruct (request_line_copies a b c rest (AIRPLAY_RTSP_MAX_METHOD_BYTES + 1) (AIRPLAY_RTSP_MAX_URI_BYTES + 1)
    (AIRPLAY_RTSP_MAX_PROTOCOL_BYTES + 1)) as (E1 & E2 & E3).
  replace (length a + 1 + length b - length a - 1)%nat with (length b) by lia.
  replace (length a + 1 + length b + 1 + length c - (length a + 1 + length b) - 1)%nat with (length c) by lia.
  rewrite E1. destruct (Z.leb_spec (AIRPLAY_RTSP_MAX_METHOD_BYTES + 1) (size a)) as [|H1]; [done|]. cbn [mbind outcome_bind].
  rewrite E2. destruct (Z.leb_spec (AIRPLAY_RTSP_MAX_URI_BYTES + 1) (size b)) as [|H2]; [done|]. cbn [mbind outcome_bind].
  rewrite E3. destruct (Z.leb_spec (AIRPLAY_RTSP_MAX_PROTOCOL_BYTES + 1) (size c)) as [|H3]; [done|]. cbn [mbind outcome_bind].
  rewrite !cstr_of_id by (by apply graphic_nonzero).
  destruct (rtsp_valid_token a && is_protocol c) eqn:Hv; [|done]. apply andb_true_iff in Hv as [Hv1 Hv2].
  cbn. split; [done|]. constructor; try done; [lia|]. apply valid_uri_spec. split_and!; [|done|lia].
  intros ->. cbn in *. lia.
Qed.

Lemma request_line_complete m u p rest :
  line_ok m u p -> rtsp_parse_request_line (line_text m u p ++ rest) (length (line_text m u p)) = Done (m, u, p).
Proof.
  intros [Hm Hms Hu Hp]. pose proof (token_graphic _ Hm) as Hgm.
  pose proof (proj1 (valid_token_spec m) Hm) as [Hm0%length_zero_nil _].
  pose proof (proj1 (valid_uri_spec u) Hu) as (Hu0%length_zero_nil & Hgu & Hus).
  destruct (protocol_graphic _ Hp) as (Hgp & Hps & Hp0%length_zero_nil).
  unfold rtsp_parse_request_line. rewrite scan_spaces_complete by done. rewrite line_text_length.
  rewrite (proj2 (Nat.eqb_neq _ 0)) by lia. cbn [negb ensure mbind outcome_bind].
  rewrite (proj2 (Nat.eqb_neq (length m) 0)), !(proj2 (Nat.leb_gt _ _)) by lia. cbn [orb negb ensure mbind outcome_bind].
  destruct (request_line_copies m u p rest (AIRPLAY_RTSP_MAX_METHOD_BYTES + 1) (AIRPLAY_RTSP_MAX_URI_BYTES + 1)
    (AIRPLAY_RTSP_MAX_PROTOCOL_BYTES + 1)) as (E1 & E2 & E3).
  replace (length m + 1 + length u - length m - 1)%nat with (length u) by lia.
  replace (length m + 1 + length u + 1 + length p - (length m + 1 + length u) - 1)%nat with (length p) by lia.
  rewrite E1, (proj2 (Z.leb_gt _ (size m))) by lia. cbn [mbind outcome_bind].
  rewrite E2, (proj2 (Z.leb_gt _ (size u))) by lia. cbn [mbind outcome_bind].
  rewrite E3, (proj2 (Z.leb_gt _ (size p))) by lia. cbn [mbind outcome_bind].
  rewrite !cstr_of_id by (by apply graphic_nonzero). by rewrite Hm, Hp.
Qed.

(** ** Header lines *)

Definition text_char (c : Z) : bool :=
  negb ((c =? 0) || (c =? 13) || (c =? 10) || ((c <? 0x20) && negb (c =? 9)) || (c =? 0x7f)).
Definition is_blank (c : Z) : bool := (c =? 32) || (c =? 9).

Lemma is_blank_spec c : is_blank c = true <-> blank c.
Proof. unfold is_blank, blank. by rewrite orb_true_iff, !Z.eqb_eq. Qed.

Lemma lookup_at_2 {A} (pre a : list A) x t : (pre ++ a ++ x :: t) !! (length pre + length a)%nat = Some x.
Proof. by rewrite lookup_drop_0, lookup_at. Qed.

Lemma colon_run pre seen a t n colon :
  Forall (fun c => text_char c = true /\ (colon = None -> c <> 58)) a ->
  scan_colon (length a + n) (pre ++ seen ++ a ++ t) (length pre) (length seen) colon =
    scan_colon n (pre ++ seen ++ a ++ t) (length pre) (length (seen ++ a)) colon.
Proof.
  intros Ha. revert seen. induction Ha as [|c a [Hc Hn] Ha IH]; intros seen; [by rewrite app_nil_r|].
  cbn [length Nat.add scan_colon app]. rewrite lookup_at_2. cbn [checked mbind outcome_bind].
  specialize (IH (seen ++ [c])). rewrite length_app, <- !app_assoc in IH. cbn [app length] in IH.
  rewrite Nat.add_1_r in IH. unfold text_char in Hc.
  destruct colon as [k|]; [|rewrite (proj2 (Z.eqb_neq c 58)) by auto]; rewrite Hc; cbn [ensure mbind outcome_bind];
    exact IH.
Qed.

Lemma scan_colon_at pre a b rest :
  Forall (fun c => text_char c = true /\ c <> 58) a -> Forall (fun c => text_char c = true) b ->
  scan_colon (length (a ++ 58 :: b)) (pre ++ (a ++ 58 :: b) ++ rest) (length pre) 0 None = Done (Some (length a)).
Proof.
  intros Ha Hb. pose proof (colon_run pre [] a (58 :: b ++ rest) (S (length b)) None) as E1.
  pose proof (colon_run pre (a ++ [58]) b rest 0 (Some (length a))) as E2.
  rewrite <- !app_assoc in *. cbn [app length] in *. rewrite length_app. cbn [length]. rewrite E1.
  2: { eapply Forall_impl; [exact Ha|]. cbn. naive_solver. }
  cbn [scan_colon]. rewrite lookup_at_2. cbn [checked mbind outcome_bind Z.eqb Pos.eqb].
  rewrite length_app in E2. cbn [length] in E2. rewrite Nat.add_0_r, Nat.add_1_r in E2. rewrite E2; [done|].
  eapply Forall_impl; [exact Hb|]. cbn. naive_solver.
Qed.

Lemma scan_colon_sound pre line rest :
  safe (scan_colon (length line) (pre ++ line ++ rest) (length pre) 0 None) (fun colon =>
    match colon with
    | None => True
    | Some k => exists a b, line = a ++ 58 :: b /\ k = length a /\
        Forall (fun c => text_char c = true /\ c <> 58) a /\ Forall (fun c => text_char c = true) b
    end).
Proof.
  destruct (span (fun c => text_char c && negb (c =? 58)) line) as (a & t & -> & Ha & Ht).
  assert (Ha' : Forall (fun c => text_char c = true /\ c <> 58) a).
  { eapply Forall_impl; [exact Ha|]. cbn. intros c [H1 H2]%andb_true_iff. split; [done|].
    by apply negb_true_iff, Z.eqb_neq in H2. }
  assert (Ha2 : Forall (fun c => text_char c = true /\ (@None nat = None -> c <> 58)) a).
  { eapply Forall_impl; [exact Ha'|]. cbn. naive_solver. }
  rewrite length_app, <- app_assoc.
  pose proof (colon_run pre [] a (t ++ rest) (length t) None Ha2) as E. cbn [app length] in E. rewrite E.
  destruct Ht as [->|(c & b & -> & Hc)]; [done|].
  cbn [length scan_colon app]. rewrite lookup_at_2. cbn [checked mbind outcome_bind].
  destruct (Z.eqb_spec c 58) as [->|Hne]; cycle 1.
  { rewrite andb_true_r in Hc. unfold text_char in Hc. rewrite Hc. done. }
  destruct (span text_char b) as (b1 & b2 & -> & Hb1 & Hb2).
  pose proof (colon_run pre (a ++ [58]) b1 (b2 ++ rest) (length b2) (Some (length a))) as E2.
  rewrite <- !app_assoc in *. rewrite !length_app in *. cbn [app length] in *. rewrite Nat.add_1_r in E2. rewrite E2.
  2: { eapply Forall_impl; [exact Hb1|]. cbn. naive_solver. }
  destruct Hb2 as [->|(x & b3 & -> & Hx)].
  - cbn. exists a, b1. rewrite app_nil_r. split_and!; done.
  - cbn [length scan_colon app]. pose proof (lookup_at_2 pre (a ++ 58 :: b1) x (b3 ++ rest)) as L.
    rewrite <- app_assoc, length_app in L. cbn [app length] in L.
    change (S (length b1)) with (1 + length b1)%nat in L. rewrite L. cbn [checked mbind outcome_bind]. unfold text_char in Hx. rewrite Hx. done.
Qed.

(** *** Blanks around the value *)

Lemma skip_blanks_eq pre before t rest :
  Forall blank before -> (forall c t', t = c :: t' -> ~ blank c) ->
  forall seen, skip_blanks (length (before ++ t)) (pre ++ seen ++ (before ++ t) ++ rest) (length pre) (length seen) =
    Done (length seen + length before)%nat.
Proof.
  intros Hb Ht. induction Hb as [|c before Hc Hb IH]; intros seen.
  - cbn [app length]. rewrite Nat.add_0_r. destruct t as [|c t]; [done|]. cbn [length skip_blanks app].
    rewrite lookup_at_2. cbn [checked mbind outcome_bind]. fold (is_blank c).
    destruct (is_blank c) eqn:E; [|done]. apply is_blank_spec in E. by destruct (Ht c t eq_refl).
  - cbn [app length skip_blanks]. rewrite lookup_at_2. cbn [checked mbind outcome_bind]. fold (is_blank c).
    rewrite (proj2 (is_blank_spec c) Hc). specialize (IH (seen ++ [c])).
    rewrite <- app_assoc, (length_app seen [c]) in IH. cbn [app length] in IH. rewrite Nat.add_1_r in IH. rewrite IH.
    f_equal. lia.
Qed.

Lemma trim_blanks_eq pre seen t after rest :
  (forall c t', t = t' ++ [c] -> ~ blank c) -> Forall blank after ->
  trim_blanks (length (t ++ after)) (pre ++ seen ++ (t ++ after) ++ rest) (length pre)
    (length seen + length (t ++ after)) = Done (length seen + length t)%nat.
Proof.
  intros Ht. revert rest. induction after as [|c after IH] using rev_ind; intros rest Ha.
  - rewrite app_nil_r. destruct t as [|c t _] using rev_ind; [cbn; f_equal; lia|].
    rewrite length_app. cbn [length]. rewrite Nat.add_1_r. cbn [trim_blanks].
    replace (length pre + (length seen + S (length t)) - 1)%nat with (length (pre ++ seen ++ t))
      by (rewrite !length_app; lia).
    replace (pre ++ seen ++ (t ++ [c]) ++ rest) with ((pre ++ seen ++ t) ++ c :: rest) by (by rewrite <- !app_assoc).
    rewrite lookup_at. cbn [checked mbind outcome_bind]. fold (is_blank c).
    destruct (is_blank c) eqn:E; [|done]. apply is_blank_spec in E. by destruct (Ht c t eq_refl).
  - apply Forall_app in Ha as [Ha Hc]. apply Forall_cons in Hc as [Hc _]. specialize (IH (c :: rest) Ha).
    rewrite app_assoc, length_app. cbn [length]. rewrite Nat.add_1_r. cbn [trim_blanks].
    replace (length pre + (length seen + S (length (t ++ after))) - 1)%nat with (length (pre ++ seen ++ t ++ after))
      by (rewrite !length_app; lia).
    replace (pre ++ seen ++ ((t ++ after) ++ [c]) ++ rest) with ((pre ++ seen ++ t ++ after) ++ c :: rest)
      by (by rewrite <- !app_assoc).
    rewrite lookup_at. cbn [checked mbind outcome_bind]. fold (is_blank c). rewrite (proj2 (is_blank_spec c) Hc).
    rewrite <- !app_assoc in *. cbn [app] in *.
    replace (length seen + S (length (t ++ after)) - 1)%nat with (length seen + length (t ++ after))%nat by lia.
    exact IH.
Qed.

(** *** A header line *)

Lemma valid_value_spec s : rtsp_valid_header_value s = true <-> Forall (fun c => text_char c = true) s.
Proof.
  unfold rtsp_valid_header_value. rewrite forallb_forall, list.Forall_forall. setoid_rewrite list_elem_of_In.
  assert (E : forall c, negb ((c =? 13) || (c =? 10) || ((c <? 0x20) && negb (c =? 9)) || (c =? 0x7f)) = text_char c).
  { intros c. unfold text_char. destruct (Z.eqb_spec c 0) as [->|]; done. }
  by setoid_rewrite E.
Qed.

Lemma text_char_spec c : text_char c = true -> c <> 0 /\ c <> 13.
Proof.
  unfold text_char. rewrite negb_true_iff, !orb_false_iff, !Z.eqb_neq. tauto.
Qed.

Lemma text_nonzero s : Forall (fun c => text_char c = true) s -> Forall (fun c => c <> 0) s.
Proof. intros H. eapply Forall_impl; [exact H|]. intros c Hc. by apply text_char_spec. Qed.

Lemma text_no_cr s : Forall (fun c => text_char c = true) s -> 13 ∉ s.
Proof. intros H Hin. rewrite list.Forall_forall in H. apply H, text_char_spec in Hin. tauto. Qed.

Lemma token_text s : rtsp_valid_token s = true -> Forall (fun c => text_char c = true /\ c <> 58) s.
Proof.
  intros [_ H]%valid_token_spec. eapply Forall_impl; [exact H|]. intros c [Hg Hc]%token_char. split; [|done].
  unfold text_char, graphic in *. destruct (Z.eqb_spec c 0), (Z.eqb_spec c 13), (Z.eqb_spec c 10), (Z.ltb_spec c 32),
    (Z.eqb_spec c 127); try lia; done.
Qed.

Lemma blank_text s : Forall blank s -> Forall (fun c => text_char c = true) s.
Proof. intros H. eapply Forall_impl; [exact H|]. by intros c [-> | ->]. Qed.

(** Every text has a trimmed part. *)
Lemma trim_exists l : exists before v after, l = before ++ v ++ after /\ Forall blank before /\ Forall blank after /\
  trimmed v.
Proof.
  destruct (span is_blank l) as (before & t & -> & Hb & Ht).
  destruct (span is_blank (reverse t)) as (ra & rv & Hr & Ha & Hv).
  assert (Hblank : forall s, Forall (fun c => is_blank c = true) s -> Forall blank s).
  { intros s H. eapply Forall_impl; [exact H|]. intros c. apply is_blank_spec. }
  assert (Hn : forall c, is_blank c = false -> ~ blank c).
  { intros c Hc Hbl. apply is_blank_spec in Hbl. congruence. }
  exists before, (reverse rv), (reverse ra).
  assert (Et : t = reverse rv ++ reverse ra) by (by rewrite <- reverse_app, <- Hr, reverse_involutive).
  split_and!; [by rewrite Et | by apply Hblank | apply Hblank; by apply Forall_reverse |]. split.
  - intros c rest E. destruct Ht as [->|(c' & t' & -> & Hc)].
    + apply (f_equal length) in Et. rewrite length_app, E in Et. cbn in Et. lia.
    + rewrite E in Et. injection Et as -> _. by apply Hn.
  - intros c rest E. apply (f_equal reverse) in E. rewrite reverse_involutive, reverse_app in E. cbn in E.
    destruct Hv as [->|(c' & t' & -> & Hc)]; [done|]. injection E as -> _. by apply Hn.
Qed.

(** The parts of a line, as the parser finds them. *)
Lemma header_parts pre n before v after rest :
  Forall blank before -> Forall blank after -> trimmed v ->
  let line := n ++ 58 :: before ++ v ++ after in
  exists value_start value_end,
    skip_blanks (length line - (length n + 1)) (pre ++ line ++ rest) (length pre) (length n + 1) = Done value_start /\
    trim_blanks (length line - value_start) (pre ++ line ++ rest) (length pre) (length line) = Done value_end /\
    forall sz, rtsp_copy_slice sz (pre ++ line ++ rest) (length pre + value_start) (value_end - value_start) =
      if sz <=? size v then Refused else Done (cstr_of v).
Proof.
  intros Hb Ha [Ht1 Ht2] line.
  assert (Hlen : length line = (length n + 1 + length before + length v + length after)%nat).
  { unfold line. rewrite !length_app. cbn [length]. rewrite !length_app. lia. }
  destruct v as [|c v].
  - (* an empty value: every blank is before it *)
    exists (length line), (length line). split_and!.
    + pose proof (skip_blanks_eq pre (before ++ after) [] rest ltac:(by apply Forall_app) ltac:(done) (n ++ [58])) as E.
      rewrite app_nil_r, !length_app in E. rewrite <- !app_assoc in E. cbn [app length] in E, Hlen.
      unfold line at 2. rewrite <- !app_assoc. cbn [app]. rewrite Hlen.
      replace (length n + 1 + length before + 0 + length after - (length n + 1))%nat
        with (length before + length after)%nat by lia.
      rewrite <- !app_assoc. rewrite E. f_equal. lia.
    + by rewrite Nat.sub_diag.
    + intros sz. rewrite Nat.sub_diag. rewrite <- length_app.
      pose proof (copy_slice_eq sz (pre ++ line) [] rest) as E. cbn [app] in E. rewrite <- app_assoc in E. exact E.
  - exists (length n + 1 + length before)%nat, (length n + 1 + length before + length (c :: v))%nat. split_and!.
    + pose proof (skip_blanks_eq pre before ((c :: v) ++ after) rest Hb) as E.
      specialize (E ltac:(intros c' t' E'; injection E' as -> _; by apply (Ht1 c' v)) (n ++ [58])).
      rewrite (length_app n) in E. rewrite <- !app_assoc in E. cbn [app length] in E.
      unfold line at 2. rewrite <- !app_assoc. cbn [app].
      replace (length line - (length n + 1))%nat with (length (before ++ (c :: v) ++ after))
        by (rewrite Hlen, !length_app; cbn [length]; lia).
      rewrite <- !app_assoc. cbn [app]. rewrite <- ?app_assoc. exact E.
    + pose proof (trim_blanks_eq pre (n ++ 58 :: before) (c :: v) after rest) as E.
      specialize (E ltac:(intros c' t' E'; by apply (Ht2 c' t')) Ha).
      assert (El : pre ++ (n ++ 58 :: before) ++ ((c :: v) ++ after) ++ rest = pre ++ line ++ rest).
      { unfold line. repeat (rewrite <- ?app_assoc; cbn [app]). done. }
      rewrite El in E.
      assert (E1 : length (n ++ 58 :: before) = (length n + 1 + length before)%nat) by (rewrite length_app; cbn; lia).
      rewrite E1 in E. replace (length line - (length n + 1 + length before))%nat with (length ((c :: v) ++ after))
        by (rewrite Hlen, length_app; lia).
      replace (length line) with (length n + 1 + length before + length ((c :: v) ++ after))%nat
        by (rewrite Hlen, length_app; lia). exact E.
    + intros sz. replace (length n + 1 + length before + length (c :: v) - (length n + 1 + length before))%nat
        with (length (c :: v)) by lia.
      pose proof (copy_slice_eq sz (pre ++ n ++ 58 :: before) (c :: v) (after ++ rest)) as E.
      assert (El : (pre ++ n ++ 58 :: before) ++ (c :: v) ++ after ++ rest = pre ++ line ++ rest).
      { unfold line. repeat (rewrite <- ?app_assoc; cbn [app]). done. }
      rewrite El in E. rewrite <- E. f_equal. rewrite !length_app. cbn [length]. lia.
Qed.

Lemma header_line_sound pre line rest hs :
  safe (rtsp_parse_header_line (pre ++ line ++ rest) (length pre) (length line) hs) (fun hs' =>
    exists h, hs' = hs ++ [h] /\ header_text h line /\ header_ok h /\ size hs < AIRPLAY_RTSP_MAX_HEADERS /\ 13 ∉ line).
Proof.
  unfold rtsp_parse_header_line. destruct (_ || _) eqn:Hlim; [done|]. cbn [negb ensure mbind outcome_bind].
  bool_cases. match goal with H : (_ <=? _) = false |- _ => apply Z.leb_gt in H as Hcount end.
  eapply safe_bind; [apply scan_colon_sound|]. intros [k|] Hk; [|done]. cbn beta iota in Hk.
  destruct Hk as (n & b & -> & -> & Hn & Hb). destruct (Nat.eqb_spec (length n) 0); [done|].
  cbn [negb ensure mbind outcome_bind].
  destruct (trim_exists b) as (before & v & after & -> & Hbe & Haf & Htr).
  destruct (header_parts pre n before v after rest Hbe Haf Htr) as (vs & ve & Es & Ee & Ev).
  rewrite Es. cbn [mbind outcome_bind]. rewrite Ee. cbn [mbind outcome_bind].
  pose proof (copy_slice_eq (AIRPLAY_RTSP_MAX_HEADER_NAME_BYTES + 1) pre n ((58 :: before ++ v ++ after) ++ rest)) as E.
  assert (El : pre ++ n ++ (58 :: before ++ v ++ after) ++ rest = pre ++ (n ++ 58 :: before ++ v ++ after) ++ rest)
    by (by rewrite <- !app_assoc).
  rewrite El in E. rewrite E. destruct (Z.leb_spec (AIRPLAY_RTSP_MAX_HEADER_NAME_BYTES + 1) (size n)) as [|Hns]; [done|].
  cbn [mbind outcome_bind]. rewrite Ev.
  destruct (Z.leb_spec (AIRPLAY_RTSP_MAX_HEADER_VALUE_BYTES + 1) (size v)) as [|Hvs]; [done|]. cbn [mbind outcome_bind].
  assert (Hnt : Forall (fun c => text_char c = true) n) by (eapply Forall_impl; [exact Hn|]; cbn; tauto).
  pose proof Hb as (_ & (Hvt & _)%Forall_app)%Forall_app. rewrite !cstr_of_id by (by apply text_nonzero).
  destruct (rtsp_valid_token n && rtsp_valid_header_value v) eqn:Hv; [|done]. apply andb_true_iff in Hv as [Hv1 Hv2].
  cbn. exists (mkHeader n v). split_and!; try done.
  - by exists before, after.
  - constructor; cbn; try done; lia.
  - apply text_no_cr, Forall_app. split; [done|]. by constructor.
Qed.

Lemma header_line_complete pre h line rest hs :
  header_text h line -> header_ok h -> size hs < AIRPLAY_RTSP_MAX_HEADERS ->
  rtsp_parse_header_line (pre ++ line ++ rest) (length pre) (length line) hs = Done (hs ++ [h]).
Proof.
  intros (before & after & Hbe & Haf & ->) [Hn Hns Hv Hvs Htr] Hcount. cbn [app]. unfold rtsp_parse_header_line.
  pose proof (proj1 (valid_token_spec (name h)) Hn) as [Hn0%length_zero_nil _].
  pose proof (proj1 (valid_value_spec (value h)) Hv) as Hvt. pose proof (token_text _ Hn) as Hnt.
  assert (Hnt' : Forall (fun c => text_char c = true) (name h)) by (eapply Forall_impl; [exact Hnt|]; cbn; tauto).
  rewrite (proj2 (Nat.eqb_neq _ 0)) by (rewrite length_app; lia). rewrite (proj2 (Z.leb_gt _ (size hs))) by done.
  cbn [orb negb ensure mbind outcome_bind]. rewrite scan_colon_at; [|done|].
  2: { apply Forall_app. split; [by apply blank_text|]. apply Forall_app. split; [done|by apply blank_text]. }
  cbn [mbind outcome_bind]. rewrite (proj2 (Nat.eqb_neq (length (name h)) 0)) by lia. cbn [negb ensure mbind outcome_bind].
  destruct (header_parts pre (name h) before (value h) after rest Hbe Haf Htr) as (vs & ve & Es & Ee & Ev).
  rewrite Es. cbn [mbind outcome_bind]. rewrite Ee. cbn [mbind outcome_bind].
  pose proof (copy_slice_eq (AIRPLAY_RTSP_MAX_HEADER_NAME_BYTES + 1) pre (name h)
    ((58 :: before ++ value h ++ after) ++ rest)) as E.
  rewrite (app_assoc (name h)) in E. rewrite E, (proj2 (Z.leb_gt _ (size (name h)))) by lia.
  cbn [mbind outcome_bind]. rewrite Ev, (proj2 (Z.leb_gt _ (size (value h)))) by lia. cbn [mbind outcome_bind].
  rewrite !cstr_of_id by (by apply text_nonzero). rewrite Hn, Hv. by destruct h.
Qed.

(** ** The head of a request *)

Ltac lens := repeat rewrite length_app in *; change (length CRLF) with 2%nat in *; cbn [length] in *.

Lemma header_lines_sound fuel pre t header_end hs :
  (header_end <= length (pre ++ t))%nat -> (header_end - length pre < fuel)%nat ->
  size hs <= AIRPLAY_RTSP_MAX_HEADERS ->
  safe (parse_header_lines fuel (pre ++ t) (length pre) header_end hs) (fun '(hs', cursor) =>
    exists new lines t', hs' = hs ++ new /\ t = lines_text lines ++ t' /\ Forall2 header_text new lines /\
      Forall header_ok new /\ Forall plain_line lines /\ size hs' <= AIRPLAY_RTSP_MAX_HEADERS /\
      cursor = (length pre + length (lines_text lines))%nat).
Proof.
  revert pre t hs. induction fuel as [|fuel IH]; intros pre t hs Hend Hf Hhs; [lia|]. cbn [parse_header_lines].
  destruct (Nat.ltb_spec (length pre + 2) header_end) as [Hlt|Hge]; cbn [negb]; cycle 1.
  { exists [], [], t. rewrite app_nil_r. cbn [lines_text map concat length]. split_and!; try done; try constructor. }
  eapply safe_bind; [apply find_crlf_sound; lia|]. cbn beta. intros line_end (line & rest & Hd & -> & Hle).
  rewrite drop_app_length in Hd. subst t.
  destruct (Nat.eqb_spec (length pre + length line) (length pre)); [done|]. cbn [negb ensure mbind outcome_bind].
  replace (length pre + length line - length pre)%nat with (length line) by lia.
  eapply safe_bind; [apply header_line_sound|]. cbn beta. intros hs1 (h & -> & Ht & Hok & Hcount & Hcr).
  assert (Ep : pre ++ line ++ CRLF ++ rest = (pre ++ line ++ CRLF) ++ rest) by (by rewrite <- !app_assoc).
  assert (El : (length pre + length line + 2)%nat = length (pre ++ line ++ CRLF))
    by (rewrite !length_app; change (length CRLF) with 2%nat; lia).
  rewrite Ep in Hend |- *. rewrite El. eapply safe_mono.
  - apply IH; [done|rewrite <- El; lia|]. rewrite size_app. change (size [h]) with 1. lia.
  - intros [hs' cursor] (new & lines & t' & -> & -> & H1 & H2 & H3 & H4 & ->).
    exists (h :: new), (line :: lines), t'. rewrite lines_text_cons. rewrite <- !app_assoc in *. cbn [app] in *.
    split_and!; try done.
    + by constructor.
    + by constructor.
    + constructor; [|done]. split; [|done]. intros ->. cbn in *. lia.
    + rewrite !length_app. lia.
Qed.

Lemma header_lines_complete fuel pre hs new lines rest header_end :
  Forall2 header_text new lines -> Forall header_ok new -> Forall plain_line lines ->
  size (hs ++ new) <= AIRPLAY_RTSP_MAX_HEADERS -> (length lines < fuel)%nat ->
  header_end = (length (pre ++ lines_text lines) + 2)%nat ->
  (header_end <= length (pre ++ lines_text lines ++ rest))%nat ->
  parse_header_lines fuel (pre ++ lines_text lines ++ rest) (length pre) header_end hs =
    Done (hs ++ new, length (pre ++ lines_text lines)).
Proof.
  intros Ht. revert fuel pre hs. induction Ht as [|h line new lines Hh Ht IH];
    intros fuel pre hs Hok Hpl Hs Hf Hend Hle; (destruct fuel as [|fuel]; [cbn in Hf; lia|]); cbn [parse_header_lines].
  { cbn [lines_text map concat app] in *. rewrite !app_nil_r in *.
    rewrite (proj2 (Nat.ltb_ge (length pre + 2) header_end)) by lia. done. }
  apply Forall_cons in Hok as [Hh_ok Hok]. apply Forall_cons in Hpl as [[Hne Hcr] Hpl].
  pose proof (length_zero_nil _ Hne) as Hpos. rewrite lines_text_cons in *.
  assert (Hlen : (length pre + length line + 2 + length (lines_text lines) + 2 = header_end)%nat) by (lens; lia).
  rewrite (proj2 (Nat.ltb_lt (length pre + 2) header_end)) by lia. cbn [negb].
  rewrite <- !app_assoc. rewrite find_crlf_complete; [|done|lens; lia].
  cbn [mbind outcome_bind]. rewrite (proj2 (Nat.eqb_neq _ (length pre))) by lia. cbn [negb ensure mbind outcome_bind].
  replace (length pre + length line - length pre)%nat with (length line) by lia.
  rewrite size_app in Hs. change (h :: new) with ([h] ++ new) in *. rewrite size_app in Hs.
  change (size [h]) with 1 in Hs. pose proof (size_nonneg new).
  rewrite (header_line_complete pre h) by (done || lia). cbn [mbind outcome_bind].
  assert (Ep : pre ++ line ++ CRLF ++ lines_text lines ++ rest = (pre ++ line ++ CRLF) ++ lines_text lines ++ rest)
    by (by rewrite <- !app_assoc).
  assert (El : (length pre + length line + 2)%nat = length (pre ++ line ++ CRLF))
    by (rewrite !length_app; change (length CRLF) with 2%nat; lia).
  rewrite Ep, El, IH; try done.
  - by rewrite <- !app_assoc.
  - rewrite !size_app. change (size [h]) with 1. lia.
  - cbn in Hf. lia.
  - lens. lia.
  - lens. lia.
Qed.

(** What the head of a request is. *)
Record head_ok (method uri protocol : cstring) (headers : list AirPlayRtspHeader) (lines : list (list Z)) : Prop := {
  head_line : line_ok method uri protocol;
  head_texts : Forall2 header_text headers lines;
  head_headers : Forall header_ok headers;
  head_plain : Forall plain_line lines;
  head_count : size headers <= AIRPLAY_RTSP_MAX_HEADERS;
  head_acceptable : headers_acceptable headers = true
}.

(** Its bytes, up to and with the blank line. *)
Definition head_text (method uri protocol : cstring) (lines : list (list Z)) : list Z :=
  line_text method uri protocol ++ CRLF ++ lines_text lines ++ CRLF.

Lemma line_plain m u p : line_ok m u p -> plain_line (line_text m u p).
Proof.
  intros [Hm _ Hu Hp]. split.
  - unfold line_text. apply valid_token_spec in Hm as [Hm _]. destruct m; [done|]. discriminate.
  - apply token_graphic in Hm. apply valid_uri_spec in Hu as (_ & Hu & _). apply protocol_graphic in Hp as (Hp & _).
    assert (Hg : forall s, Forall graphic s -> 13 ∉ s).
    { intros s Hs Hin. rewrite list.Forall_forall in Hs. apply Hs in Hin. unfold graphic in Hin. lia. }
    unfold line_text. rewrite !not_elem_of_app. split_and!; auto; intros H%list_elem_of_singleton; done.
Qed.

Lemma parse_head_sound bytes header_end :
  (4 <= header_end <= length bytes)%nat -> take 4 (drop (header_end - 4) bytes) = CRLF ++ CRLF ->
  safe (parse_head bytes header_end) (fun '(m, u, p, hs) =>
    exists lines, head_ok m u p hs lines /\ header_end = length (head_text m u p lines) /\
      take header_end bytes = head_text m u p lines).
Proof.
  intros Hend Hblank. unfold parse_head. eapply safe_bind; [apply find_crlf_sound; lia|].
  cbn beta. intros line_end (line & rest & Hd & -> & Hle). rewrite drop_0 in Hd. subst bytes. cbn [Nat.add] in *.
  eapply safe_bind; [apply request_line_sound|]. intros [[m u] p] [-> Hline]. set (line := line_text m u p) in *.
  assert (Ep : line ++ CRLF ++ rest = (line ++ CRLF) ++ rest) by (by rewrite <- !app_assoc).
  assert (El : (length line + 2)%nat = length (line ++ CRLF)) by (rewrite length_app; done).
  rewrite Ep in Hend, Hblank |- *. rewrite El.
  eapply safe_bind; [apply header_lines_sound; [lia|lia|done]|].
  intros [hs cursor] (new & lines & t' & -> & -> & H1 & H2 & H3 & H4 & ->). cbn [app] in *.
  destruct (Nat.eqb_spec (length (line ++ CRLF) + length (lines_text lines)) (header_end - 2)) as [Hc|]; [|done].
  cbn [ensure mbind outcome_bind]. destruct (headers_acceptable new) eqn:Hacc; [|done]. cbn.
  assert (Hlen : header_end = length (head_text m u p lines)).
  { unfold head_text. fold line. rewrite !length_app in *. change (length CRLF) with 2%nat in *. lia. }
  exists lines. split_and!; [by constructor|done|]. unfold head_text. fold line.
  assert (Ht' : take 2 t' = CRLF).
  { apply (f_equal (drop 2)) in Hblank. rewrite skipn_firstn_comm, drop_drop in Hblank. cbn [Nat.sub] in Hblank.
    replace (header_end - 4 + 2)%nat with (length ((line ++ CRLF) ++ lines_text lines)) in Hblank
      by (rewrite length_app; lia).
    rewrite app_assoc, drop_app_length in Hblank. exact Hblank. }
  rewrite <- (take_drop 2 t'), Ht'.
  replace ((line ++ CRLF) ++ lines_text lines ++ CRLF ++ drop 2 t') with
    (head_text m u p lines ++ drop 2 t') by (unfold head_text; fold line; by rewrite <- !app_assoc).
  rewrite Hlen, take_app_length. done.
Qed.

Lemma parse_head_complete m u p hs lines rest :
  head_ok m u p hs lines ->
  parse_head (head_text m u p lines ++ rest) (length (head_text m u p lines)) = Done (m, u, p, hs).
Proof.
  intros [Hl Ht Hok Hpl Hc Hacc]. destruct (line_plain _ _ _ Hl) as [_ Hcr]. unfold parse_head.
  set (line := line_text m u p) in *.
  assert (E : head_text m u p lines ++ rest = line ++ CRLF ++ lines_text lines ++ CRLF ++ rest)
    by (unfold head_text; fold line; by rewrite <- !app_assoc).
  assert (Hlen : length (head_text m u p lines) = (length line + 2 + length (lines_text lines) + 2)%nat)
    by (unfold head_text; fold line; rewrite !length_app; change (length CRLF) with 2%nat; lia).
  rewrite E, Hlen. pose proof (find_crlf_complete [] line (lines_text lines ++ CRLF ++ rest)
    (length line + 2 + length (lines_text lines) + 2) Hcr) as Ef.
  cbn [app length Nat.add] in Ef. rewrite Ef; [|rewrite !length_app; change (length CRLF) with 2%nat; lia].
  cbn [mbind outcome_bind]. pose proof (request_line_complete m u p (CRLF ++ lines_text lines ++ CRLF ++ rest) Hl) as Er.
  fold line in Er. rewrite Er.
  cbn [mbind outcome_bind].
  pose proof (header_lines_complete (S (length line + 2 + length (lines_text lines) + 2)) (line ++ CRLF) [] hs lines
    (CRLF ++ rest) (length line + 2 + length (lines_text lines) + 2) Ht Hok Hpl Hc) as Eh.
  rewrite <- !app_assoc, !length_app in Eh. change (length CRLF) with 2%nat in Eh. cbn [app] in Eh.
  rewrite Eh; [| |lia|lia].
  2: { assert (length lines <= length (lines_text lines))%nat; [|lia]. clear. unfold lines_text.
       induction lines as [|l lines IHl]; [done|]. cbn [map concat length]. rewrite !length_app.
       change (length CRLF) with 2%nat. lia. }
  cbn [mbind outcome_bind]. rewrite (proj2 (Nat.eqb_eq _ _)) by lia. cbn [ensure mbind outcome_bind]. by rewrite Hacc.
Qed.
