(* ===== verification/RtspFraming.v ===== *)
(** * What is accepted as an RTSP request, and how a stream is cut into requests

    The grammar of whole requests; that exactly it is accepted, with no read outside
    of the buffer; and that the requests of a stream do not depend on how its bytes
    arrive. *)

From S2P Require Import Prelude CText Buffers Rtsp RtspGrammar.

(** ** Whole requests *)

(** The first header of the name, if there is one, is the decimal number [n] of at
    most [maximum]; without one it is 0. *)
Definition announces (headers : list AirPlayRtspHeader) (key : cstring) (maximum n : Z) : Prop :=
  match find_header headers key with
  | Some text => text <> [] /\ all_digits text /\ n = decimal_value text /\ n <= maximum
  | None => n = 0
  end.

(** The request [r] has the bytes [bs]. *)
Record request_text (r : AirPlayRtspRequest) (bs : list Z) : Prop := {
  text_layout : exists lines, head_ok (method r) (uri r) (protocol r) (headers r) lines /\
    bs = head_text (method r) (uri r) (protocol r) lines ++ body r /\
    size (head_text (method r) (uri r) (protocol r) lines) <= AIRPLAY_RTSP_MAX_HEADER_BYTES;
  text_body : body_length r = size (body r);
  text_announced : announces (headers r) CONTENT_LENGTH AIRPLAY_RTSP_MAX_BODY_BYTES (body_length r);
  text_cseq : announces (headers r) CSEQ UINT32_MAX (cseq r);
  text_has_cseq : has_cseq r = bool_decide (is_Some (find_header (headers r) CSEQ))
}.

(** ** Numbers *)

Lemma parse_decimal_loop_spec text maximum v :
  9 <= maximum <= UINT32_MAX -> 0 <= v <= maximum -> Forall (fun c => isdigit c = true) text ->
  parse_decimal_loop text maximum v =
    let n := foldl (fun v c => v * 10 + (c - 48)) v text in if n <=? maximum then Some n else None.
Proof.
  intros Hm Hv Hd. revert v Hv. induction Hd as [|c text Hc Hd IH]; intros v Hv; cbn [parse_decimal_loop foldl].
  { cbv zeta. by rewrite (proj2 (Z.leb_le v maximum)) by lia. }
  rewrite Hc. apply isdigit_spec in Hc. cbn [negb]. rewrite u64_id by (unfold is_u64, UINT32_MAX, UINT64_MAX in *; lia).
  assert (Hmono : forall l w, maximum < w -> Forall (fun c => isdigit c = true) l ->
    maximum < foldl (fun v c => v * 10 + (c - 48)) w l).
  { clear -Hm. intros l w Hw Hl. revert w Hw. induction Hl as [|c l Hc Hl IH]; intros w Hw; [done|].
    cbn. apply IH. apply isdigit_spec in Hc. lia. }
  destruct (Z.ltb_spec ((maximum - (c - 48)) / 10) v) as [Hlt|Hge].
  - cbv zeta. rewrite (proj2 (Z.leb_gt _ _)); [done|]. apply Hmono; [lia|done].
  - rewrite u64_id by (unfold is_u64, UINT32_MAX, UINT64_MAX in *; lia). apply IH. lia.
Qed.

Lemma decimal_syntax_spec text : rtsp_decimal_syntax_valid text = true <->
  text <> [] /\ Forall (fun c => isdigit c = true) text.
Proof.
  unfold rtsp_decimal_syntax_valid.
  rewrite andb_true_iff, negb_true_iff, bool_decide_eq_false, forallb_forall, list.Forall_forall.
  by setoid_rewrite list_elem_of_In.
Qed.

Lemma digits_spec text : Forall (fun c => isdigit c = true) text <-> all_digits text.
Proof. unfold all_digits. rewrite !list.Forall_forall. by setoid_rewrite isdigit_spec. Qed.

Lemma parse_decimal_spec text maximum :
  9 <= maximum <= UINT32_MAX -> rtsp_decimal_syntax_valid text = true ->
  rtsp_parse_decimal text maximum = if decimal_value text <=? maximum then Some (decimal_value text) else None.
Proof.
  intros Hm [Hne Hd]%decimal_syntax_spec. destruct text as [|c text]; [done|].
  unfold rtsp_parse_decimal. by rewrite parse_decimal_loop_spec by (done || lia).
Qed.

Lemma decimal_value_nonneg text : all_digits text -> 0 <= decimal_value text.
Proof.
  unfold decimal_value. enough (forall v, 0 <= v -> all_digits text -> 0 <= foldl (fun v c => v * 10 + (c - 48)) v text)
    by auto with lia.
  induction text as [|c text IH]; intros v Hv H; [done|]. apply Forall_cons in H as [Hc H]. cbn. apply IH; [lia|done].
Qed.

(** What the headers announce is what the parser takes from them. *)
Lemma decimal_announces hs key maximum text :
  9 <= maximum <= UINT32_MAX -> find_header hs key = Some text -> rtsp_decimal_syntax_valid text = true ->
  match rtsp_parse_decimal text maximum with
  | Some n => 0 <= n <= maximum /\ forall n', announces hs key maximum n' <-> n' = n
  | None => forall n, ~ announces hs key maximum n
  end.
Proof.
  intros Hm Hf Hs. unfold announces. rewrite Hf, parse_decimal_spec by done.
  apply decimal_syntax_spec in Hs as [Hne Hd%digits_spec]. pose proof (decimal_value_nonneg _ Hd).
  destruct (Z.leb_spec (decimal_value text) maximum) as [Hle|Hgt]; [split; [lia|]|].
  - intros n'. split; [tauto|]. by intros ->.
  - intros n (_ & _ & -> & H'). lia.
Qed.

Lemma not_decimal_announces hs key maximum text n :
  find_header hs key = Some text -> rtsp_decimal_syntax_valid text = false -> ~ announces hs key maximum n.
Proof.
  unfold announces. intros -> Hs (H1 & H2 & _). enough (rtsp_decimal_syntax_valid text = true) by congruence.
  apply decimal_syntax_spec. by rewrite digits_spec.
Qed.

Lemma content_length_spec hs :
  match content_length hs with
  | PARSE_OK n => 0 <= n <= AIRPLAY_RTSP_MAX_BODY_BYTES /\
      forall n', announces hs CONTENT_LENGTH AIRPLAY_RTSP_MAX_BODY_BYTES n' <-> n' = n
  | PARSE_ERROR _ => forall n, ~ announces hs CONTENT_LENGTH AIRPLAY_RTSP_MAX_BODY_BYTES n
  | _ => False
  end.
Proof.
  unfold content_length. destruct (find_header hs CONTENT_LENGTH) as [text|] eqn:Hf; cycle 1.
  { unfold announces. rewrite Hf. done. }
  destruct (rtsp_decimal_syntax_valid text) eqn:Hs; cbn [negb].
  - pose proof (decimal_announces hs _ AIRPLAY_RTSP_MAX_BODY_BYTES text ltac:(done) Hf Hs). by destruct (rtsp_parse_decimal _ _).
  - intros n. by apply (not_decimal_announces _ _ _ text).
Qed.

Lemma sequence_number_spec hs :
  match sequence_number hs with
  | PARSE_OK (has, n) => has = bool_decide (is_Some (find_header hs CSEQ)) /\
      forall n', announces hs CSEQ UINT32_MAX n' <-> n' = n
  | PARSE_ERROR _ => forall n, ~ announces hs CSEQ UINT32_MAX n
  | _ => False
  end.
Proof.
  unfold sequence_number. destruct (find_header hs CSEQ) as [text|] eqn:Hf; cycle 1.
  { unfold announces. rewrite Hf. split; [done|]. done. }
  destruct (rtsp_decimal_syntax_valid text) eqn:Hs; cbn [negb].
  - pose proof (decimal_announces hs _ UINT32_MAX text ltac:(done) Hf Hs) as H. destruct (rtsp_parse_decimal _ _) as [n|]; [|done].
    destruct H as [Hn H]. rewrite u32_id by done. split; [|done]. by rewrite bool_decide_eq_true_2 by (by eexists).
  - intros n. by apply (not_decimal_announces _ _ _ text).
Qed.

(** ** The end of the headers *)

Lemma find_header_end_eq bs len :
  (len <= length bs)%nat ->
  rtsp_find_header_end bs len =
    match blank_line_at (take len bs) with Some i => Done (i + 4)%nat | None => Refused end.
Proof.
  intros Hl. unfold rtsp_find_header_end. destruct (decide (len < 3)%nat).
  { rewrite blank_line_short by (rewrite length_take; lia). by replace (len - 3)%nat with 0%nat by lia. }
  pose proof (find_header_end_loop_eq (len - 3) [] bs ltac:(lia)) as E. cbn [app length Nat.add] in E.
  by replace (len - 3 + 3)%nat with len in E by lia.
Qed.

Lemma head_text_lines m u p lines : head_text m u p lines = lines_text (line_text m u p :: lines) ++ CRLF.
Proof. unfold head_text. rewrite lines_text_cons. by rewrite <- !app_assoc. Qed.

Lemma head_text_size m u p lines : (4 <= length (head_text m u p lines))%nat.
Proof. unfold head_text. rewrite !length_app. change (length CRLF) with 2%nat. lia. Qed.

Lemma head_blank_line m u p hs lines rest :
  head_ok m u p hs lines ->
  blank_line_at (head_text m u p lines ++ rest) = Some (length (head_text m u p lines) - 4)%nat.
Proof.
  intros [Hl _ _ Hp _ _]. rewrite head_text_lines, <- app_assoc, blank_line_lines; [|done|].
  - f_equal. rewrite length_app. change (length CRLF) with 2%nat. lia.
  - constructor; [by apply (line_plain m u p)|done].
Qed.

(** The head that was found is one of the grammar. *)
Lemma header_end_sound bs len e :
  (len <= length bs)%nat -> rtsp_find_header_end bs len = Done e ->
  (4 <= e <= len)%nat /\ safe (parse_head bs e) (fun '(m, u, p, hs) =>
    exists lines, head_ok m u p hs lines /\ take e bs = head_text m u p lines).
Proof.
  intros Hl. rewrite find_header_end_eq by done. destruct (blank_line_at _) as [i|] eqn:Hb; [|done]. intros [= <-].
  apply blank_line_sound in Hb as [Hi Hb]. rewrite length_take in Hi. split; [lia|].
  eapply safe_mono; [apply parse_head_sound|].
  - lia.
  - replace (i + 4 - 4)%nat with i by lia. rewrite <- Hb, skipn_firstn_comm, take_take. f_equal. lia.
  - intros [[[m u] p] hs] (lines & Hok & _ & Ht). by exists lines.
Qed.

Lemma header_end_complete bs len m u p hs lines :
  head_ok m u p hs lines -> (length (head_text m u p lines) <= len <= length bs)%nat ->
  take (length (head_text m u p lines)) bs = head_text m u p lines ->
  rtsp_find_header_end bs len = Done (length (head_text m u p lines)) /\
    parse_head bs (length (head_text m u p lines)) = Done (m, u, p, hs).
Proof.
  intros Hok Hl Ht. pose proof (head_text_size m u p lines). set (e := length (head_text m u p lines)) in *.
  rewrite <- (take_drop e bs), Ht. split; [|by apply parse_head_complete].
  rewrite find_header_end_eq by (rewrite length_app, length_drop; fold e; lia).
  replace len with (e + (len - e))%nat by lia. unfold e. rewrite take_app_add. fold e.
  rewrite (head_blank_line m u p hs) by done. fold e. f_equal. lia.
Qed.

Lemma blank_line_extend l l' i :
  l `prefix_of` l' -> blank_line_at l = Some i -> blank_line_at l' = Some i.
Proof.
  intros [k ->]. revert i. induction l as [|b l IH]; intros i H; [done|]. pose proof (blank_line_sound _ _ H) as [Hl Hb].
  cbn [blank_line_at] in H. cbn [app blank_line_at]. change (b :: l ++ k) with ((b :: l) ++ k).
  destruct (decide (4 <= length (b :: l))%nat) as [H4|H4]; [|lia]. rewrite take_app_le by done. case_bool_decide; [done|].
  destruct (blank_line_at l) as [j|]; [|done]. injection H as <-. by rewrite (IH j eq_refl).
Qed.

(** ** The whole request *)

Ltac psimpl := cbn [mbind parse_result_bind outcome_bind or_goto checked].

(** What follows the head. *)
Definition after_head (alloc : Z -> bool) (bs : list Z) (len e : nat) (n : Z) (m u p : cstring)
    (hs : list AirPlayRtspHeader) : parse_result (AirPlayRtspRequest * nat) :=
  if Z.of_nat len <? Z.of_nat e + n then PARSE_NEED_MORE
  else
    '(has_cseq, cseq) ← sequence_number hs;
    body ← (if negb (n =? 0) && negb (alloc n) then PARSE_ERROR out_of_memory
            else PARSE_OK (take (Z.to_nat n) (drop e bs)));
    PARSE_OK (mkRequest m u p hs body n has_cseq cseq, (e + Z.to_nat n)%nat).

Lemma parse_received_head alloc bs len e m u p hs n :
  (len <= length bs)%nat -> Z.of_nat len <= AIRPLAY_RTSP_MAX_MESSAGE_BYTES ->
  rtsp_find_header_end bs len = Done e -> Z.of_nat e <= AIRPLAY_RTSP_MAX_HEADER_BYTES ->
  alloc sizeof_request = true -> parse_head bs e = Done (m, u, p, hs) -> content_length hs = PARSE_OK n ->
  parse_received alloc bs len = after_head alloc bs len e n m u p hs.
Proof.
  intros Hl Hlen He Hel Ha Hh Hn. unfold parse_received, after_head. pose proof (content_length_spec hs) as Hs.
  rewrite Hn in Hs. destruct Hs as [Hs _].
  rewrite (proj2 (Z.ltb_ge _ (Z.of_nat len))), He by done. cbv iota beta.
  rewrite (proj2 (Z.ltb_ge _ (Z.of_nat e))), Ha, Hh by done. cbn [negb]. psimpl.
  rewrite Hn. psimpl. unfold rtsp_size_add, AIRPLAY_RTSP_MAX_MESSAGE_BYTES, AIRPLAY_RTSP_MAX_BODY_BYTES,
    AIRPLAY_RTSP_MAX_HEADER_BYTES in *.
  rewrite (proj2 (Z.ltb_ge (UINT64_MAX - Z.of_nat e) n)) by (unfold UINT64_MAX; lia). cbn [negb ensure]. psimpl.
  rewrite (proj2 (Z.ltb_ge _ (Z.of_nat e + n))) by lia.  destruct (Z.ltb_spec (Z.of_nat len) (Z.of_nat e + n)) as [|Hge]; [done|].
  destruct (sequence_number hs) as [[has c]| | |]; psimpl; try done.
  replace (Z.to_nat (Z.of_nat e + n)) with (e + Z.to_nat n)%nat by lia.
  destruct (Z.eqb_spec n 0) as [->|Hn0]; cbn [negb andb]; [by rewrite take_0|]. destruct (alloc n); cbn [negb]; [|done].
  unfold buf_read. rewrite (proj2 (Nat.leb_le _ (length bs))) by lia. done.
Qed.

(** The outcomes of a call. *)
Lemma parse_received_cases alloc bs len :
  (len <= length bs)%nat ->
  (exists e m u p hs n, parse_received alloc bs len = after_head alloc bs len e n m u p hs /\
     Z.of_nat len <= AIRPLAY_RTSP_MAX_MESSAGE_BYTES /\ rtsp_find_header_end bs len = Done e /\
     Z.of_nat e <= AIRPLAY_RTSP_MAX_HEADER_BYTES /\ alloc sizeof_request = true /\
     parse_head bs e = Done (m, u, p, hs) /\ content_length hs = PARSE_OK n) \/
  (parse_received alloc bs len = PARSE_NEED_MORE /\ rtsp_find_header_end bs len = Refused) \/
  exists err, parse_received alloc bs len = PARSE_ERROR err.
Proof.
  intros Hl. destruct (Z.ltb_spec AIRPLAY_RTSP_MAX_MESSAGE_BYTES (Z.of_nat len)) as [Hm|Hm].
  { right; right. unfold parse_received. rewrite (proj2 (Z.ltb_lt _ _) Hm). by eexists. }
  destruct (rtsp_find_header_end bs len) as [e| |] eqn:He.
  2: { right. unfold parse_received. rewrite (proj2 (Z.ltb_ge _ _) Hm), He. destruct (_ <=? _); [right; by eexists|by left]. }
  2: { rewrite find_header_end_eq in He by done. by destruct (blank_line_at _). }
  destruct (Z.ltb_spec AIRPLAY_RTSP_MAX_HEADER_BYTES (Z.of_nat e)) as [Hel|Hel].
  { right; right. unfold parse_received. rewrite (proj2 (Z.ltb_ge _ _) Hm), He; cbv iota beta; rewrite (proj2 (Z.ltb_lt _ _) Hel). by eexists. }
  destruct (alloc sizeof_request) eqn:Ha.
  2: { right; right. unfold parse_received. rewrite (proj2 (Z.ltb_ge _ _) Hm), He; cbv iota beta; rewrite (proj2 (Z.ltb_ge _ _) Hel), Ha. by eexists. }
  pose proof (header_end_sound bs len e Hl He) as [_ Hs]. destruct (parse_head bs e) as [[[[m u] p] hs]| |] eqn:Hh; [|clear Hs|done].
  2: { right; right. unfold parse_received. rewrite (proj2 (Z.ltb_ge _ _) Hm), He; cbv iota beta; rewrite (proj2 (Z.ltb_ge _ _) Hel), Ha. cbn [negb].
       rewrite Hh. by eexists. }
  pose proof (content_length_spec hs) as Hc. destruct (content_length hs) as [n| |err|] eqn:Hn; [|done| |done].
  - left. exists e, m, u, p, hs, n. split; [|done]. by apply parse_received_head.
  - right; right. unfold parse_received. rewrite (proj2 (Z.ltb_ge _ _) Hm), He; cbv iota beta; rewrite (proj2 (Z.ltb_ge _ _) Hel), Ha. cbn [negb].
    rewrite Hh. psimpl. rewrite Hn. by eexists.
Qed.

Lemma after_head_cases alloc bs len e n m u p hs :
  match after_head alloc bs len e n m u p hs with
  | PARSE_OK (r, c) => exists has k, Z.of_nat e + n <= Z.of_nat len /\ sequence_number hs = PARSE_OK (has, k) /\
      r = mkRequest m u p hs (take (Z.to_nat n) (drop e bs)) n has k /\ c = (e + Z.to_nat n)%nat
  | PARSE_UNDEFINED => False
  | _ => True
  end.
Proof.
  unfold after_head. destruct (Z.ltb_spec (Z.of_nat len) (Z.of_nat e + n)); [done|].
  pose proof (sequence_number_spec hs) as Hs. destruct (sequence_number hs) as [[has k]| | |]; psimpl; try done.
  destruct (negb (n =? 0) && negb (alloc n)); psimpl; [done|]. by exists has, k.
Qed.

Lemma parse_sound alloc received len r c :
  (len <= length received)%nat -> parse_received alloc received len = PARSE_OK (r, c) ->
  request_text r (take c received) /\ (c <= len)%nat /\ Z.of_nat len <= AIRPLAY_RTSP_MAX_MESSAGE_BYTES.
Proof.
  intros Hl Hr.
  destruct (parse_received_cases alloc received len Hl) as
    [(e & m & u & p & hs & n & E & Hlen & He & Hel & _ & Hh & Hn)|[[E _]|[err E]]]; rewrite E in Hr; [|done..].
  pose proof (after_head_cases alloc received len e n m u p hs) as Hc. rewrite Hr in Hc.
  destruct Hc as (has & k & Htot & Hseq & -> & ->). destruct (header_end_sound received len e Hl He) as [He' Hs].
  rewrite Hh in Hs. destruct Hs as (lines & Hok & Ht).
  pose proof (content_length_spec hs) as Hc. rewrite Hn in Hc. destruct Hc as [Hn' Hc].
  pose proof (sequence_number_spec hs) as Hq. rewrite Hseq in Hq. destruct Hq as [Hq1 Hq2].
  split; [|split; [lia|done]]. constructor; cbn [method uri protocol headers body body_length has_cseq cseq].
  + exists lines. split; [done|]. split.
    * by rewrite <- Ht, take_take_drop.
    * rewrite <- Ht. unfold size. rewrite length_take. lia.
  + unfold size. rewrite length_take, length_drop. lia.
  + by apply Hc.
  + by apply Hq2.
  + done.
Qed.

Lemma parse_complete alloc received len r c :
  (len <= length received)%nat -> request_text r (take c received) -> (c <= len)%nat ->
  Z.of_nat len <= AIRPLAY_RTSP_MAX_MESSAGE_BYTES -> (forall n, alloc n = true) ->
  parse_received alloc received len = PARSE_OK (r, c).
Proof.
  intros Hl [(lines & Hok & Ht & Hsz) Hb Hn Hq Hhas] Hc Hlen Ha. set (h := head_text _ _ _ _) in *.
  assert (Hlc : length (take c received) = (length h + length (body r))%nat) by (rewrite Ht, length_app; done).
  rewrite length_take in Hlc.
  assert (Hth : take (length h) received = h).
  { rewrite <- (take_app_length h (body r)) at 2. rewrite <- Ht, take_take. f_equal. lia. }
  destruct (header_end_complete received len (method r) (uri r) (protocol r) (headers r) lines Hok) as [He Hh].
  { fold h. lia. } { done. } fold h in He, Hh.
  pose proof (content_length_spec (headers r)) as Hcl. destruct (content_length (headers r)) as [n| |err|] eqn:Hcn; try done.
  2: { by destruct (Hcl (body_length r)). }
  destruct Hcl as [Hn' Hcl]. apply Hcl in Hn.
  rewrite (parse_received_head alloc received len (length h) (method r) (uri r) (protocol r) (headers r) n) by (done || apply Ha || lia).
  unfold after_head. rewrite (proj2 (Z.ltb_ge _ _)) by (unfold size in *; lia).
  pose proof (sequence_number_spec (headers r)) as Hsq.
  destruct (sequence_number (headers r)) as [[has k]| |err|] eqn:Hsn; try done; [|by destruct (Hsq (cseq r))].
  destruct Hsq as [Hs1 Hs2]. apply Hs2 in Hq. psimpl. rewrite Ha, andb_false_r. psimpl.
  assert (Hn2 : Z.to_nat n = length (body r)) by (unfold size in *; lia). rewrite Hn2.
  assert (Hbody : take (length (body r)) (drop (length h) received) = body r).
  { rewrite <- (drop_app_length h (body r)) at 2. rewrite <- Ht, skipn_firstn_comm. f_equal. lia. }
  rewrite Hbody, <- Hn, <- Hq, Hs1, <- Hhas. do 2 f_equal; [by destruct r|lia].
Qed.

(** C14: the parser accepts exactly the requests of the grammar.  Whatever bytes have
    been received, it reads none behind them; a request it returns is the one that
    the bytes it consumed spell, within the limits on sizes and counts; and, when
    memory suffices, it returns every request that starts the buffer and is complete. *)
Theorem parses_exactly_the_grammar alloc received len :
  (len <= length received)%nat ->
  airplay_rtsp_parse_request alloc (Some received) len <> PARSE_UNDEFINED /\
  (forall r c, airplay_rtsp_parse_request alloc (Some received) len = PARSE_OK (r, c) ->
     request_text r (take c received) /\ (c <= len)%nat /\ Z.of_nat len <= AIRPLAY_RTSP_MAX_MESSAGE_BYTES) /\
  (forall r c, request_text r (take c received) -> (c <= len)%nat -> Z.of_nat len <= AIRPLAY_RTSP_MAX_MESSAGE_BYTES ->
     (forall n, alloc n = true) -> airplay_rtsp_parse_request alloc (Some received) len = PARSE_OK (r, c)).
Proof.
  intros Hl. cbn [airplay_rtsp_parse_request]. split; [|split].
  - destruct (parse_received_cases alloc received len Hl) as [(e & m & u & p & hs & n & -> & _)|[[-> _]|[err ->]]]; try done.
    pose proof (after_head_cases alloc received len e n m u p hs). by destruct (after_head _ _ _ _ _ _ _ _ _).
  - intros r c. by apply parse_sound.
  - intros r c Hr Hc Hlen Ha. by apply parse_complete.
Qed.

Lemma demo_request_text :
  request_text (mkRequest (bytes "SETUP") (bytes "rtsp://x/1") (bytes "RTSP/1.0")
      [mkHeader (bytes "CSeq") (bytes "7"); mkHeader (bytes "Content-Length") (bytes "3")]
      (bytes "abc") 3 true 7) demo_request.
Proof.
  pose proof (parse_sound (fun _ => true) demo_request (length demo_request)) as H.
  specialize (H _ _ ltac:(done) ltac:(vm_compute; reflexivity)) as [H _]. exact H.
Qed.

Lemma parses_exactly_the_grammar_witness :
  airplay_rtsp_parse_request (fun _ => true) (Some demo_request) (length demo_request) =
    PARSE_OK (mkRequest (bytes "SETUP") (bytes "rtsp://x/1") (bytes "RTSP/1.0")
      [mkHeader (bytes "CSeq") (bytes "7"); mkHeader (bytes "Content-Length") (bytes "3")]
      (bytes "abc") 3 true 7, length demo_request).
Proof.
  destruct (parses_exactly_the_grammar (fun _ => true) demo_request (length demo_request) ltac:(done)) as (_ & _ & H).
  apply H; [exact demo_request_text|done|vm_compute; congruence|done].
Defined.

(** the requests of a stream do not depend on how its bytes arrive.  When the
    bytes received so far start with a request, then after every other number of
    bytes the parser says that it needs more, up to the end of the request, and
    returns the same request from there on, whatever follows it. *)
Theorem framing_ignores_arrival alloc stream len r c :
  (len <= length stream)%nat ->
  airplay_rtsp_parse_request alloc (Some stream) len = PARSE_OK (r, c) ->
  forall len', (len' <= length stream)%nat -> Z.of_nat len' <= AIRPLAY_RTSP_MAX_MESSAGE_BYTES ->
    airplay_rtsp_parse_request alloc (Some stream) len' =
      if (len' <? c)%nat then PARSE_NEED_MORE else PARSE_OK (r, c).
Proof.
  cbn [airplay_rtsp_parse_request]. intros Hl Hr len' Hl' Hm.
  destruct (parse_received_cases alloc stream len Hl) as
    [(e & m & u & p & hs & n & E & Hlen & He & Hel & Ha & Hh & Hn)|[[E _]|[err E]]]; rewrite E in Hr; [|done..].
  pose proof (after_head_cases alloc stream len e n m u p hs) as Hc. rewrite Hr in Hc.
  destruct Hc as (has & k & Htot & Hseq & -> & ->). destruct (header_end_sound stream len e Hl He) as [He' _].
  pose proof (content_length_spec hs) as Hc. rewrite Hn in Hc. destruct Hc as [Hn' _].
  assert (Hend : rtsp_find_header_end stream len' = if (len' <? e)%nat then Refused else Done e).
  { rewrite find_header_end_eq in He |- * by done. destruct (blank_line_at (take len stream)) as [i|] eqn:Hb; [|done].
    injection He as <-. destruct (Nat.le_ge_cases len' len) as [Hle|Hge].
    - apply (blank_line_take _ _ len') in Hb; [|rewrite length_take; lia]. rewrite take_take, Nat.min_l in Hb by lia.
      rewrite Hb. by destruct (len' <? i + 4)%nat.
    - rewrite (proj2 (Nat.ltb_ge _ _)) by lia. rewrite (blank_line_extend (take len stream) _ i); [done| |done].
      exists (drop len (take len' stream)). rewrite <- (take_drop len (take len' stream)) at 1. by rewrite take_take, Nat.min_l. }
  destruct (Nat.ltb_spec len' e) as [Hlt|Hge].
  - rewrite (proj2 (Nat.ltb_lt len' _)) by lia. unfold parse_received.
    rewrite (proj2 (Z.ltb_ge _ _) Hm), Hend, (proj2 (Z.leb_gt _ _)) by lia. done.
  - rewrite (parse_received_head alloc stream len' e m u p hs n) by done.
    unfold after_head in Hr |- *. rewrite (proj2 (Z.ltb_ge (Z.of_nat len) _)) in Hr by lia.
    destruct (Z.ltb_spec (Z.of_nat len') (Z.of_nat e + n)).
    + by rewrite (proj2 (Nat.ltb_lt len' _)) by lia.
    + by rewrite (proj2 (Nat.ltb_ge len' _)) by lia.
Qed.

Lemma framing_ignores_arrival_witness :
  airplay_rtsp_parse_request (fun _ => true) (Some (demo_request ++ bytes "OPTIONS")) 40 = PARSE_NEED_MORE /\
  airplay_rtsp_parse_request (fun _ => true) (Some (demo_request ++ bytes "OPTIONS"))
      (length (demo_request ++ bytes "OPTIONS")) =
    PARSE_OK (mkRequest (bytes "SETUP") (bytes "rtsp://x/1") (bytes "RTSP/1.0")
      [mkHeader (bytes "CSeq") (bytes "7"); mkHeader (bytes "Content-Length") (bytes "3")]
      (bytes "abc") 3 true 7, length demo_request).
Proof.
  pose proof (framing_ignores_arrival (fun _ => true) (demo_request ++ bytes "OPTIONS") (length demo_request) _ _
    ltac:(vm_compute; lia) ltac:(vm_compute; reflexivity)) as H. split.
  - apply (H 40%nat); [vm_compute; lia|vm_compute; congruence].
  - apply (H (length (demo_request ++ bytes "OPTIONS"))); [done|vm_compute; congruence].
Defined.
