(* ===== verification/RtspRoundtrip.v ===== *)
(** * Requests that the receiver sends can be parsed

    The bytes that [airplay_rtsp_outbound_request_encode] produces, and that the
    parser reads the same request from them. *)

From S2P Require Import Prelude CText Buffers Rtsp RtspResponse RtspGrammar RtspFraming.

(** ** Decimal numbers *)

Lemma format_u_spec n : 0 <= n < 10 ^ 20 ->
  format_u n <> [] /\ all_digits (format_u n) /\ decimal_value (format_u n) = n /\ size (format_u n) <= 20.
Proof.
  intros Hn. unfold format_u. destruct (decimal_spec 20 n) as (H1 & H2 & H3 & H4); [done|lia|done|].
  unfold size. split_and!; (done || lia).
Qed.

(** ** What is encoded *)

(** A header that can be sent. *)
Definition sendable (h : AirPlayRtspHeader) : Prop :=
  rtsp_valid_token (name h) = true /\ rtsp_valid_header_value (value h) = true /\
  size (name h) <= AIRPLAY_RTSP_MAX_HEADER_NAME_BYTES /\ size (value h) <= AIRPLAY_RTSP_MAX_HEADER_VALUE_BYTES /\
  rtsp_header_name_equal (name h) CONTENT_LENGTH = false.

(** No name twice. *)
Fixpoint distinct_names (hs : list AirPlayRtspHeader) : Prop :=
  match hs with
  | [] => True
  | h :: later => forallb (fun other => negb (rtsp_header_name_equal (name h) (name other))) later = true /\ distinct_names later
  end.

Lemma format_line_done text line : format_line text = Done line -> line = text.
Proof. unfold format_line. intros H. done_inv. done. Qed.

Lemma size_add_done a b c : rtsp_size_add a b = Done c -> c = a + b.
Proof. unfold rtsp_size_add. intros H. done_inv. done. Qed.

Lemma add_outbound_headers_done hs total total' :
  add_outbound_headers hs total = Done total' -> Forall sendable hs /\ distinct_names hs.
Proof.
  revert total. induction hs as [|h hs IH]; intros total H; cbn [add_outbound_headers] in H; [done|].
  done_inv. bool_cases. apply IH in H as [IH1 IH2]. split; [|by split].
  constructor; [|done]. repeat match goal with H : (_ <? _) = false |- _ => apply Z.ltb_ge in H end. by split_and!.
Qed.

Lemma append_done n output text output' : rtsp_encoded_append n output text = Done output' -> output' = output ++ text.
Proof. unfold rtsp_encoded_append. intros H. done_inv. done. Qed.

Lemma append_lines_done n lines output output' :
  append_lines n lines output = Done output' -> output' = output ++ concat lines.
Proof.
  revert output. induction lines as [|line lines IH]; intros output H; cbn [append_lines] in H.
  - done_inv. by rewrite app_nil_r.
  - done_inv. apply append_done in E. apply IH in H. subst. cbn. by rewrite <- app_assoc.
Qed.

(** The headers of the message: the length of the body is added. *)
Definition sent_headers (request : AirPlayRtspOutboundRequest) : list AirPlayRtspHeader :=
  outbound_headers request ++ [mkHeader CONTENT_LENGTH (format_u (size (outbound_body request)))].

Definition sent_line (h : AirPlayRtspHeader) : list Z := name h ++ [58; 32] ++ value h.

Lemma header_line_text h : header_line h = sent_line h ++ CRLF.
Proof. unfold header_line, sent_line. by rewrite <- !app_assoc. Qed.

Lemma sent_lines_text hs : concat (map header_line hs) = lines_text (map sent_line hs).
Proof.
  unfold lines_text. f_equal. rewrite map_map. apply map_ext. apply header_line_text.
Qed.

Lemma outbound_encode_done alloc request output :
  airplay_rtsp_outbound_request_encode alloc request = Done output ->
  rtsp_valid_token (outbound_method request) = true /\ rtsp_valid_uri (outbound_uri request) = true /\
  outbound_protocol request = bytes "HTTP/1.1" /\
  Forall sendable (outbound_headers request) /\ distinct_names (outbound_headers request) /\
  size (outbound_body request) <= AIRPLAY_RTSP_MAX_BODY_BYTES /\ size output <= AIRPLAY_RTSP_MAX_MESSAGE_BYTES /\
  output = head_text (outbound_method request) (outbound_uri request) (outbound_protocol request)
             (map sent_line (sent_headers request)) ++ outbound_body request.
Proof.
  unfold airplay_rtsp_outbound_request_encode. intros H. done_inv. bool_cases.
  repeat match goal with
  | H : (_ <? _) = false |- _ => apply Z.ltb_ge in H
  | H : (_ =? _) = true |- _ => apply Z.eqb_eq in H
  | H : bool_decide _ = true |- _ => apply bool_decide_eq_true in H
  | H : add_outbound_headers _ _ = Done _ |- _ => apply add_outbound_headers_done in H as [? ?]
  | H : append_lines _ _ _ = Done _ |- _ => apply append_lines_done in H
  | H : rtsp_encoded_append _ _ _ = Done _ |- _ => apply append_done in H
  end. subst output. split_and!; try done; [lia|]. subst. cbn [app concat].
  rewrite concat_app, sent_lines_text. unfold head_text, sent_headers.
  rewrite map_app, lines_text_app. unfold request_line, line_text, content_length_line. cbn [map concat].
  rewrite lines_text_cons. change (lines_text []) with (@nil Z).
  unfold sent_line at 3. cbn [name value]. change (bytes "Content-Length: ") with (CONTENT_LENGTH ++ [58; 32]).
  repeat (rewrite <- ?app_assoc, ?app_nil_r; cbn [app]). done.
Qed.

(** ** The headers that are read back *)

Lemma name_equal_sym a b : rtsp_header_name_equal a b = rtsp_header_name_equal b a.
Proof. unfold rtsp_header_name_equal, strcasecmp_equal. by apply bool_decide_ext. Qed.

Lemma name_equal_trans a b c :
  rtsp_header_name_equal a b = true -> rtsp_header_name_equal b c = rtsp_header_name_equal a c.
Proof. unfold rtsp_header_name_equal, strcasecmp_equal. intros ->%bool_decide_eq_true. done. Qed.

Lemma find_header_app hs h key :
  find_header (hs ++ [h]) key =
    match find_header hs key with
    | Some v => Some v
    | None => if rtsp_header_name_equal (name h) key then Some (value h) else None
    end.
Proof. induction hs as [|h' hs IH]; cbn; [done|]. by destruct (rtsp_header_name_equal (name h') key). Qed.

Lemma find_header_none hs key :
  Forall (fun h => rtsp_header_name_equal (name h) key = false) hs -> find_header hs key = None.
Proof. induction 1 as [|h hs Hh Hs IH]; cbn; [done|]. by rewrite Hh. Qed.

Lemma sent_acceptable hs v :
  Forall sendable hs -> distinct_names hs -> find_header hs TRANSFER_ENCODING = None ->
  headers_acceptable (hs ++ [mkHeader CONTENT_LENGTH v]) = true.
Proof.
  intros Hs. induction Hs as [|h hs (_ & _ & _ & _ & Hcl) Hs IH]; intros Hd Ht; [done|]. destruct Hd as [Hd1 Hd2].
  cbn [find_header] in Ht. cbn [app headers_acceptable]. destruct (rtsp_header_name_equal (name h) TRANSFER_ENCODING); [done|].
  rewrite Hcl, IH by done. cbn [negb andb]. destruct (rtsp_header_name_equal (name h) CSEQ); cbn [negb]; [|done].
  rewrite andb_true_r, negb_true_iff, existsb_app. cbn [existsb name]. rewrite Hcl, !orb_false_r.
  destruct (existsb _ hs) eqn:E; [|done]. apply existsb_exists in E as (other & Hin & He).
  rewrite forallb_forall in Hd1. apply Hd1 in Hin. by rewrite He in Hin.
Qed.

Lemma digits_value l : all_digits l -> rtsp_valid_header_value l = true /\ forall c, c ∈ l -> ~ blank c.
Proof.
  intros H. split.
  - apply valid_value_spec. eapply Forall_impl; [exact H|]. cbn. intros c Hc. unfold text_char.
    destruct (Z.eqb_spec c 0), (Z.eqb_spec c 13), (Z.eqb_spec c 10), (Z.ltb_spec c 32), (Z.eqb_spec c 127); (lia || done).
  - intros c Hc. unfold all_digits in H. rewrite list.Forall_forall in H. apply H in Hc. unfold blank. lia.
Qed.

Lemma length_header_ok n : 0 <= n <= AIRPLAY_RTSP_MAX_BODY_BYTES -> header_ok (mkHeader CONTENT_LENGTH (format_u n)).
Proof.
  intros Hn. destruct (format_u_spec n) as (H1 & H2 & H3 & H4); [unfold AIRPLAY_RTSP_MAX_BODY_BYTES in Hn; lia|].
  destruct (digits_value _ H2) as [Hv Hb]. constructor; cbn [name value]; try done.
  - unfold AIRPLAY_RTSP_MAX_HEADER_VALUE_BYTES. lia.
  - split; intros c rest E; apply Hb; rewrite E; set_solver.
Qed.

Lemma sent_line_ok h : header_ok h -> header_text h (sent_line h) /\ plain_line (sent_line h).
Proof.
  intros [Hn _ Hv _ _]. split.
  - exists [32], []. split_and!; [by constructor; [left|]|done|]. unfold sent_line. by rewrite app_nil_r.
  - unfold sent_line, plain_line. split.
    + apply valid_token_spec in Hn as [Hn _]. destruct (name h); [done|]. discriminate.
    + apply valid_value_spec in Hv. apply token_text in Hn. rewrite !not_elem_of_app. split_and!.
      * apply text_no_cr. eapply Forall_impl; [exact Hn|]. cbn. tauto.
      * set_solver.
      * by apply text_no_cr.
Qed.

(** What the encoder does not check: that the request can be one that is received. *)
Record receivable (request : AirPlayRtspOutboundRequest) (has_cseq : bool) (cseq : Z) : Prop := {
  short_method : size (outbound_method request) <= AIRPLAY_RTSP_MAX_METHOD_BYTES;
  room_for_length : size (outbound_headers request) < AIRPLAY_RTSP_MAX_HEADERS;
  trimmed_values : Forall (fun h => trimmed (value h)) (outbound_headers request);
  no_transfer_encoding : find_header (outbound_headers request) TRANSFER_ENCODING = None;
  small_head : size (head_text (outbound_method request) (outbound_uri request) (outbound_protocol request)
    (map sent_line (sent_headers request))) <= AIRPLAY_RTSP_MAX_HEADER_BYTES;
  numeric_cseq : announces (outbound_headers request) CSEQ UINT32_MAX cseq;
  cseq_present : has_cseq = bool_decide (is_Some (find_header (outbound_headers request) CSEQ))
}.

(** The request that is read back. *)
Definition as_received (request : AirPlayRtspOutboundRequest) (has_cseq : bool) (cseq : Z) : AirPlayRtspRequest :=
  mkRequest (outbound_method request) (outbound_uri request) (outbound_protocol request) (sent_headers request)
    (outbound_body request) (size (outbound_body request)) has_cseq cseq.

Lemma encoded_text alloc request output has_cseq cseq :
  airplay_rtsp_outbound_request_encode alloc request = Done output -> receivable request has_cseq cseq ->
  request_text (as_received request has_cseq cseq) output /\ size output <= AIRPLAY_RTSP_MAX_MESSAGE_BYTES.
Proof.
  intros (Hm & Hu & Hp & Hs & Hd & Hb & Hout & ->)%outbound_encode_done [Hms Hroom Htr Hte Hhead Hcs Hhas].
  split; [|done]. pose proof (size_nonneg (outbound_body request)) as Hb0.
  assert (Hok : Forall header_ok (sent_headers request)).
  { apply Forall_app. split; [|constructor; [by apply length_header_ok|done]].
    rewrite list.Forall_forall in Hs, Htr |- *. intros h Hin. destruct (Hs h Hin) as (? & ? & ? & ? & _).
    constructor; try done. by apply Htr. }
  assert (Hlines : Forall2 header_text (sent_headers request) (map sent_line (sent_headers request)) /\
    Forall plain_line (map sent_line (sent_headers request))).
  { clear -Hok. induction Hok as [|h hs Hh Hs [IH1 IH2]]; [done|]. cbn [map].
    destruct (sent_line_ok h Hh). split; by constructor. }
  assert (Hnocl : find_header (outbound_headers request) CONTENT_LENGTH = None).
  { apply find_header_none. eapply Forall_impl; [exact Hs|]. unfold sendable. cbn. tauto. }
  assert (Hcseq : find_header (sent_headers request) CSEQ = find_header (outbound_headers request) CSEQ).
  { unfold sent_headers. rewrite find_header_app. by destruct (find_header _ CSEQ). }
  constructor; cbn [as_received method uri protocol headers body body_length Rtsp.has_cseq Rtsp.cseq].
  - exists (map sent_line (sent_headers request)). split; [|done]. constructor; try done.
    + constructor; try done. rewrite Hp. done.
    + apply Hlines.
    + apply Hlines.
    + unfold sent_headers. rewrite size_app. unfold size at 2. cbn [length]. lia.
    + by apply sent_acceptable.
  - done.
  - unfold announces, sent_headers. rewrite find_header_app, Hnocl.
    destruct (format_u_spec (size (outbound_body request))) as (H1 & H2 & H3 & _);
      [unfold AIRPLAY_RTSP_MAX_BODY_BYTES in Hb; lia|]. cbn. by split_and!.
  - unfold announces. by rewrite Hcseq.
  - by rewrite Hcseq.
Qed.

(** C15: the parser reads back an encoded request of the kind that it accepts: one whose
    method has at most 31 bytes, with fewer than 48 headers (the length of the body takes
    one), whose values have no blanks at their ends, without a [Transfer-Encoding], with a
    head of at most 32 KiB, and whose [CSeq], if it has one, is a decimal number of 32 bits;
    the encoder does not check these.  The bytes that the encoder produces for it, with
    anything received behind them while the buffer has room, are parsed as the same method,
    URI, headers and body; the only addition is the length of the body, and exactly the bytes
    of the message are consumed. *)
Theorem outbound_roundtrip alloc request output later has_cseq cseq :
  airplay_rtsp_outbound_request_encode alloc request = Done output ->
  receivable request has_cseq cseq ->
  size (output ++ later) <= AIRPLAY_RTSP_MAX_MESSAGE_BYTES ->
  airplay_rtsp_parse_request (fun _ => true) (Some (output ++ later)) (length (output ++ later)) =
    PARSE_OK (as_received request has_cseq cseq, length output).
Proof.
  intros Henc Hrec Hlen. destruct (encoded_text _ _ _ _ _ Henc Hrec) as [Ht _].
  apply parse_complete; [done| |rewrite length_app; lia|done|done]. by rewrite take_app_length.
Qed.

Definition demo_outbound : AirPlayRtspOutboundRequest :=
  mkOutbound (bytes "POST") (bytes "/event") (bytes "HTTP/1.1")
    [mkHeader (bytes "X-Apple-Session-ID") (bytes "5a-1"); mkHeader (bytes "CSeq") (bytes "12")] (bytes "<plist/>").

Lemma trimmed_ends text :
  (forall c, head text = Some c -> is_blank c = false) -> (forall c, last text = Some c -> is_blank c = false) -> trimmed text.
Proof.
  intros Hh Hl. split; intros c rest -> Hb%is_blank_spec.
  - specialize (Hh c eq_refl). congruence.
  - rewrite last_snoc in Hl. specialize (Hl c eq_refl). congruence.
Qed.

Lemma outbound_roundtrip_witness :
  exists output, airplay_rtsp_outbound_request_encode (fun _ => true) demo_outbound = Done output /\
    airplay_rtsp_parse_request (fun _ => true) (Some (output ++ bytes "HTTP")) (length (output ++ bytes "HTTP")) =
      PARSE_OK (as_received demo_outbound true 12, length output).
Proof.
  eexists. split; [vm_compute; reflexivity|]. apply (outbound_roundtrip (fun _ => true)).
  - vm_compute. reflexivity.
  - constructor; try (vm_compute; (reflexivity || congruence)).
    + constructor; [|constructor; [|constructor]]; apply trimmed_ends; by intros c [= <-].
    + split_and!; [done| |done|vm_compute; congruence]. repeat constructor; done.
  - vm_compute. congruence.
Defined.

(** The encoder takes 48 headers, and with the length of the body the parser refuses them. *)
Definition demo_full : AirPlayRtspOutboundRequest :=
  mkOutbound (bytes "POST") (bytes "/event") (bytes "HTTP/1.1")
    (map (fun i => mkHeader (bytes "X-" ++ format_u (Z.of_nat i)) (bytes "1")) (seq 0 48)) [].

Example encoded_but_not_received :
  match airplay_rtsp_outbound_request_encode (fun _ => true) demo_full with
  | Done output => match airplay_rtsp_parse_request (fun _ => true) (Some output) (length output) with PARSE_OK _ => false | _ => true end
  | _ => false
  end = true.
Proof. vm_compute. reflexivity. Qed.
