(* ===== verification/RtspSession.v ===== *)
(** * Sessions answer their requests

    That responses are encoded as their lines, and that the dispatcher, with the default
    route or with another one that keeps the protocol ([RouteKeepsProtocol]), answers each
    request of a session and follows its states. *)

From S2P Require Import Prelude CText Buffers Rtsp RtspResponse RtspGrammar RtspFraming RtspRoundtrip.

(** ** Responses *)

(** What the functions that build a response keep. *)
Record response_ok (r : AirPlayRtspResponse) : Prop := {
  ok_protocol_r : is_protocol (response_protocol r) = true;
  ok_status : 100 <= status_code r <= 999;
  ok_reason : size (reason r) <= 63;
  ok_headers : Forall sendable (response_headers r);
  ok_count : size (response_headers r) <= AIRPLAY_RTSP_MAX_HEADERS;
  ok_body : size (response_body r) <= AIRPLAY_RTSP_MAX_RESPONSE_BODY_BYTES
}.

(** The lines of a response, and its bytes. *)
Definition response_lines (r : AirPlayRtspResponse) : list (list Z) :=
  status_line r :: map header_line (response_headers r) ++ [content_length_line (size (response_body r))].
Definition response_bytes (r : AirPlayRtspResponse) : list Z :=
  concat (response_lines r) ++ (if close_connection r then connection_close else []) ++ CRLF ++ response_body r.

Lemma set_status_ok r status :
  response_ok r -> 100 <= status <= 999 ->
  exists r', airplay_rtsp_response_set_status r status = Done r' /\ response_ok r' /\
    status_code r' = status /\ response_headers r' = response_headers r /\ response_protocol r' = response_protocol r /\
    close_connection r' = close_connection r /\ response_body r' = response_body r.
Proof.
  intros [H1 H2 H3 H4 H5 H6] Hs. unfold airplay_rtsp_response_set_status.
  rewrite (proj2 (Z.ltb_ge status 100)), (proj2 (Z.ltb_ge 999 status)) by lia. cbn [orb negb ensure mbind outcome_bind].
  eexists. split; [done|]. split; [|done]. constructor; try done. cbn -[rtsp_reason_phrase]. unfold size. rewrite length_take. lia.
Qed.

Lemma response_init_ok protocol status :
  is_protocol protocol = true -> 100 <= status <= 999 ->
  exists r, airplay_rtsp_response_init protocol status = Done r /\ response_ok r /\ status_code r = status /\
    response_headers r = [] /\ response_protocol r = protocol /\ close_connection r = false /\ response_body r = [].
Proof.
  intros Hp Hs. unfold airplay_rtsp_response_init. rewrite Hp. cbn [ensure mbind outcome_bind].
  unfold airplay_rtsp_response_set_status.
  rewrite (proj2 (Z.ltb_ge status 100)), (proj2 (Z.ltb_ge 999 status)) by lia. cbn [orb negb ensure mbind outcome_bind].
  eexists. split; [done|]. split; [|done]. constructor; try done; cbn -[rtsp_reason_phrase].
  unfold size. rewrite length_take. lia.
Qed.

Lemma add_header_ok r key text :
  response_ok r -> sendable (mkHeader key text) -> size (response_headers r) < AIRPLAY_RTSP_MAX_HEADERS ->
  find_header (response_headers r) key = None ->
  exists r', airplay_rtsp_response_add_header r key text = Done r' /\ response_ok r' /\
    response_headers r' = response_headers r ++ [mkHeader key text] /\ status_code r' = status_code r /\
    response_protocol r' = response_protocol r /\ close_connection r' = close_connection r /\
    response_body r' = response_body r.
Proof.
  intros [H1 H2 H3 H4 H5 H6] Hs Hc Hf. pose proof Hs as (Hk & Ht & Hks & Hts & Hcl). cbn [name value] in *.
  unfold airplay_rtsp_response_add_header. rewrite Hk, Ht, Hcl, (proj2 (Z.leb_gt _ (size (response_headers r)))) by done.
  cbn [andb negb ensure mbind outcome_bind].
  rewrite (proj2 (Z.ltb_ge _ (size key))), (proj2 (Z.ltb_ge _ (size text))) by done. cbn [orb negb ensure mbind outcome_bind].
  assert (Hn : forallb (fun header => negb (rtsp_header_name_equal (name header) key)) (response_headers r) = true).
  { clear -Hf. induction (response_headers r) as [|h hs IH]; cbn in *; [done|].
    destruct (rtsp_header_name_equal (name h) key); [done|]. by apply IH. }
  rewrite Hn. cbn [ensure mbind outcome_bind]. eexists. split; [done|]. split; [|done].
  constructor; try done; cbn.
  - apply Forall_app. split; [done|]. by constructor.
  - rewrite size_app. unfold size at 2. cbn [length]. lia.
Qed.

(** *** Encoding *)

Lemma add_lines_eq lines total :
  Forall (fun line => size line < sizeof_line) lines -> 0 <= total -> total + size (concat lines) <= UINT32_MAX ->
  add_lines lines total = Done (total + size (concat lines)).
Proof.
  intros Hl. revert total. induction Hl as [|line lines Hs Hl IH]; intros total Ht Hb; cbn [add_lines concat] in *.
  { f_equal. unfold size. cbn. lia. }
  rewrite size_app in *. pose proof (size_nonneg line). pose proof (size_nonneg (concat lines)).
  unfold format_line. rewrite (proj2 (Z.leb_gt _ (size line))) by done. cbn [negb ensure mbind outcome_bind].
  unfold rtsp_size_add. rewrite (proj2 (Z.ltb_ge _ (size line))) by (unfold UINT32_MAX, UINT64_MAX in *; lia).
  cbn [negb ensure mbind outcome_bind]. rewrite IH by lia. f_equal. lia.
Qed.

Lemma append_eq n output text :
  size output + size text <= n -> rtsp_encoded_append n output text = Done (output ++ text).
Proof.
  intros H. unfold rtsp_encoded_append. pose proof (size_nonneg text).
  rewrite !(proj2 (Z.ltb_ge _ _)) by lia. done.
Qed.

Lemma append_lines_eq n lines output :
  size output + size (concat lines) <= n -> append_lines n lines output = Done (output ++ concat lines).
Proof.
  revert output. induction lines as [|line lines IH]; intros output H; cbn [append_lines concat] in *.
  - by rewrite app_nil_r.
  - rewrite size_app in H. pose proof (size_nonneg (concat lines)). rewrite append_eq by lia. cbn [mbind outcome_bind].
    rewrite IH by (rewrite size_app; lia). by rewrite <- app_assoc.
Qed.

Lemma format_u_size n : 0 <= n < 10 ^ 20 -> size (format_u n) <= 20.
Proof. intros H. by apply format_u_spec. Qed.

Lemma lines_fit r : response_ok r -> Forall (fun line => size line < sizeof_line) (response_lines r).
Proof.
  intros [H1 H2 H3 H4 H5 H6]. unfold response_lines, sizeof_line, AIRPLAY_RTSP_MAX_HEADER_NAME_BYTES,
    AIRPLAY_RTSP_MAX_HEADER_VALUE_BYTES. pose proof (size_nonneg (response_body r)).
  constructor; [|apply Forall_app; split; [|constructor; [|done]]].
  - unfold status_line. pose proof (format_u_size (status_code r) ltac:(lia)).
    apply protocol_graphic in H1 as (_ & H1 & _). unfold AIRPLAY_RTSP_MAX_PROTOCOL_BYTES in H1.
    rewrite !size_app. change (size [32]) with 1. change (size CRLF) with 2. lia.
  - rewrite Forall_map. eapply Forall_impl; [exact H4|]. intros h (_ & _ & Hn & Hv & _). cbn. unfold header_line.
    unfold AIRPLAY_RTSP_MAX_HEADER_NAME_BYTES, AIRPLAY_RTSP_MAX_HEADER_VALUE_BYTES in *.
    rewrite !size_app. change (size [58; 32]) with 2. change (size CRLF) with 2. lia.
  - unfold content_length_line. unfold AIRPLAY_RTSP_MAX_RESPONSE_BODY_BYTES in H6.
    pose proof (format_u_size (size (response_body r)) ltac:(lia)).
    rewrite !size_app. change (size CRLF) with 2. change (size (bytes "Content-Length: ")) with 16. lia.
Qed.

(** A response that is not too long is encoded as its bytes. *)
Lemma response_encode_eq r :
  response_ok r -> size (response_bytes r) <= AIRPLAY_RTSP_MAX_RESPONSE_MESSAGE_BYTES ->
  airplay_rtsp_response_encode (fun _ => true) r = Done (response_bytes r).
Proof.
  intros Hok Hs. pose proof (lines_fit r Hok) as Hfit. destruct Hok as [H1 H2 H3 H4 H5 H6].
  unfold airplay_rtsp_response_encode. fold (response_lines r). cbv zeta.
  rewrite (proj2 (Z.ltb_ge _ 100)), (proj2 (Z.ltb_ge _ (size (response_body r)))) by lia. cbn [orb negb ensure mbind outcome_bind].
  unfold response_bytes in *. set (lines := concat (response_lines r)) in *. rewrite !size_app in Hs.
  change (size CRLF) with 2 in Hs. unfold AIRPLAY_RTSP_MAX_RESPONSE_MESSAGE_BYTES, AIRPLAY_RTSP_MAX_HEADER_BYTES,
    AIRPLAY_RTSP_MAX_RESPONSE_BODY_BYTES in *.
  pose proof (size_nonneg lines). pose proof (size_nonneg (response_body r)).
  rewrite add_lines_eq by (try done; fold lines; unfold UINT32_MAX; destruct (close_connection r);
    try change (size connection_close) with 19 in *; try change (size (@nil Z)) with 0 in *; lia).
  fold lines. cbn [mbind outcome_bind Z.add].
  assert (Hadd : forall a b, 0 <= a -> 0 <= b <= 8388608 -> a <= 8388608 -> rtsp_size_add a b = Done (a + b)).
  { intros a b Ha Hb Hab. unfold rtsp_size_add. rewrite (proj2 (Z.ltb_ge _ b)) by (unfold UINT64_MAX; lia). done. }
  destruct (close_connection r); change (size connection_close) with 19 in *; change (size (@nil Z)) with 0 in *;
    (repeat (cbn [mbind outcome_bind]; rewrite Hadd by lia)); cbn [mbind outcome_bind];
    rewrite (proj2 (Z.ltb_ge _ _)) by lia; cbn [negb ensure mbind outcome_bind].
  - rewrite append_lines_eq by (fold lines; unfold size at 1; cbn [length]; lia). fold lines. cbn [app mbind outcome_bind].
    rewrite append_eq by (change (size connection_close) with 19; lia). cbn [mbind outcome_bind].
    rewrite append_eq by (rewrite size_app; change (size connection_close) with 19; change (size CRLF) with 2; lia).
    cbn [mbind outcome_bind].
    rewrite append_eq by (rewrite !size_app; change (size connection_close) with 19; change (size CRLF) with 2; lia).
    cbn [mbind outcome_bind]. rewrite (proj2 (Z.eqb_eq _ _)).
    2: { rewrite !size_app; change (size connection_close) with 19; change (size CRLF) with 2; lia. }
    cbn [ensure mbind outcome_bind]. by rewrite <- !app_assoc.
  - rewrite append_lines_eq by (fold lines; unfold size at 1; cbn [length]; lia). fold lines. cbn [app mbind outcome_bind].
    rewrite append_eq by (change (size CRLF) with 2; lia). cbn [mbind outcome_bind].
    rewrite append_eq by (rewrite size_app; change (size CRLF) with 2; lia). cbn [mbind outcome_bind].
    rewrite (proj2 (Z.eqb_eq _ _)) by (rewrite !size_app; change (size CRLF) with 2; lia).
    cbn [ensure mbind outcome_bind]. by rewrite <- !app_assoc.
Qed.

(** ** Sessions *)

(** A route handles a request, or leaves it; the route of the configuration may be missing. *)
Definition Route : Type := AirPlayRtspSession -> AirPlayRtspRequest -> AirPlayRtspResponse -> handled.

(** Requests of a session that are handled one after the other, with the answers. *)
Fixpoint serve (handler : option Route) (session : AirPlayRtspSession) (requests : list AirPlayRtspRequest)
    : AirPlayRtspSession * list (AirPlayRtspRequest * option AirPlayRtspResponse) :=
  match requests with
  | [] => (session, [])
  | request :: later =>
      let '(session, answer) := airplay_rtsp_dispatch session request handler in
      let '(session, answers) := serve handler session later in
      (session, (request, answer) :: answers)
  end.

(** A request that the parser can return. *)
Definition parsed (request : AirPlayRtspRequest) : Prop :=
  is_protocol (protocol request) = true /\ is_u32 (cseq request).

(** The changes of a session that have been agreed to. *)
Definition is_control (m : cstring) : bool :=
  bool_decide (m = bytes "SETUP") || bool_decide (m = bytes "RECORD") || bool_decide (m = bytes "TEARDOWN").
Definition agreed (answer : AirPlayRtspRequest * option AirPlayRtspResponse) : list cstring :=
  match answer with
  | (request, Some response) =>
      if is_control (method request) && (status_code response =? 200) then [method request] else []
  | (_, None) => []
  end.

(** The way to a state: set up, then record, and torn down at any time. *)
Definition history (s : AirPlayRtspSessionState) (changes : list cstring) : Prop :=
  match s with
  | AIRPLAY_RTSP_SESSION_CONNECTED => changes = []
  | AIRPLAY_RTSP_SESSION_SETUP => changes = [bytes "SETUP"]
  | AIRPLAY_RTSP_SESSION_RECORDING => changes = [bytes "SETUP"; bytes "RECORD"]
  | AIRPLAY_RTSP_SESSION_CLOSED => exists before, changes = before ++ [bytes "TEARDOWN"] /\
      before ∈ [[]; [bytes "SETUP"]; [bytes "SETUP"; bytes "RECORD"]]
  end.

(** An RTSP request needs a number, but for the two that controllers send without one. *)
Definition unnumbered (request : AirPlayRtspRequest) : bool :=
  bool_decide (protocol request = bytes "RTSP/1.0") && negb (has_cseq request) &&
  negb (discovery_request request) && negb (secondary_pair_verify request).

(** A proper answer: it can be sent; a request without the number that it needs is refused
    and the connection closed; and every other one gets its number back. *)
Definition proper_answer (handler : option Route) (request : AirPlayRtspRequest) (response : AirPlayRtspResponse) : Prop :=
  response_ok response /\ response_protocol response = protocol request /\
  airplay_rtsp_response_encode (fun _ => true) response = Done (response_bytes response) /\
  (if unnumbered request then status_code response = 400 /\ close_connection response = true
   else (has_cseq request = true -> find_header (response_headers response) CSEQ = Some (format_u (cseq request))) /\
        (handler = None -> status_code response <> 400)).

(** The response that a route is given: it is agreed to, and has the headers of every
    answer and no body. *)
Definition prepared (request : AirPlayRtspRequest) (response : AirPlayRtspResponse) : Prop :=
  response_ok response /\ status_code response = 200 /\ size (response_headers response) <= 3 /\
  find_header (response_headers response) (bytes "Public") = None /\ response_body response = [] /\
  response_protocol response = protocol request.

(** What the dispatcher relies on: a route that handles a request leaves a response that can
    be sent and still carries the number, and changes the session only in the order of the
    protocol; one that does not handle it leaves the state alone. *)
Class RouteKeepsProtocol (route : Route) : Prop := route_keeps : forall session request response,
  parsed request -> state session <> AIRPLAY_RTSP_SESSION_CLOSED -> prepared request response ->
  match route session request response with
  | (true, session', response') =>
      response_ok response' /\ size (response_bytes response') <= AIRPLAY_RTSP_MAX_RESPONSE_MESSAGE_BYTES /\
      response_protocol response' = response_protocol response /\
      find_header (response_headers response') CSEQ = find_header (response_headers response) CSEQ /\
      forall changes, history (state session) changes ->
        history (state session') (changes ++ agreed (request, Some response'))
  | (false, session', _) => state session' = state session
  end.

Lemma concat_size (lines : list (list Z)) n :
  0 <= n -> Forall (fun line => size line < n) lines -> size (concat lines) <= size lines * n.
Proof.
  intros Hn. induction 1 as [|line lines Hl Hs IH]; cbn [concat]; [done|]. rewrite size_app, size_cons. lia.
Qed.

Lemma short_response_fits r : response_ok r -> response_body r = [] -> size (response_headers r) <= 8 ->
  size (response_bytes r) <= AIRPLAY_RTSP_MAX_RESPONSE_MESSAGE_BYTES.
Proof.
  intros Hok Hb Hh. unfold response_bytes. rewrite Hb, !size_app.
  pose proof (concat_size _ sizeof_line ltac:(done) (lines_fit r Hok)) as Hc.
  assert (Hn : size (response_lines r) <= 10).
  { unfold response_lines, size in *. cbn [length]. rewrite length_app, length_map. cbn [length]. lia. }
  change (size CRLF) with 2. change (size (@nil Z)) with 0.
  assert (@size Z (if close_connection r then connection_close else []) <= 19) by (destruct (close_connection r); vm_compute; congruence).
  unfold sizeof_line, AIRPLAY_RTSP_MAX_HEADER_NAME_BYTES, AIRPLAY_RTSP_MAX_HEADER_VALUE_BYTES,
    AIRPLAY_RTSP_MAX_RESPONSE_MESSAGE_BYTES, AIRPLAY_RTSP_MAX_HEADER_BYTES, AIRPLAY_RTSP_MAX_RESPONSE_BODY_BYTES in *. lia.
Qed.

Lemma short_response_encodes r :
  response_ok r -> response_body r = [] -> size (response_headers r) <= 8 ->
  airplay_rtsp_response_encode (fun _ => true) r = Done (response_bytes r).
Proof. intros. apply response_encode_eq; [done|by apply short_response_fits]. Qed.

Lemma decimal_short k fuel n :
  (0 < k <= fuel)%nat -> 0 <= n < 10 ^ Z.of_nat k -> (length (decimal fuel n) <= k)%nat.
Proof.
  revert fuel n. induction k as [|k IH]; intros fuel n Hk Hn; [lia|]. destruct fuel as [|fuel]; [lia|]. cbn [decimal].
  destruct (Z.ltb_spec n 10); [cbn; lia|]. rewrite Nat2Z.inj_succ, Z.pow_succ_r in Hn by lia.
  destruct k as [|k]; [cbn in Hn; lia|]. rewrite length_app. cbn [length].
  specialize (IH fuel (n / 10) ltac:(lia) ltac:(lia)). lia.
Qed.

Lemma cseq_sendable n : is_u32 n ->
  take 15 (format_u n) = format_u n /\ sendable (mkHeader CSEQ (format_u n)).
Proof.
  unfold is_u32, UINT32_MAX. intros Hn.
  assert (Hl : (length (format_u n) <= 10)%nat) by (apply decimal_short; [lia|change (10 ^ Z.of_nat 10) with 10000000000; lia]).
  destruct (format_u_spec n ltac:(lia)) as (_ & Hd & _). split; [by rewrite take_ge by lia|].
  split_and!; try done; cbn [name value]; [by apply digits_value|]. unfold size, AIRPLAY_RTSP_MAX_HEADER_VALUE_BYTES. lia.
Qed.

(** The headers of every answer. *)
Lemma control_headers_ok response request :
  response_ok response -> response_headers response = [] -> is_u32 (cseq request) ->
  exists r', rtsp_add_control_response_headers response request = Done r' /\ response_ok r' /\
    size (response_headers r') <= 3 /\ find_header (response_headers r') (bytes "Public") = None /\
    (has_cseq request = true -> find_header (response_headers r') CSEQ = Some (format_u (cseq request))) /\
    status_code r' = status_code response /\ response_protocol r' = response_protocol response /\
    close_connection r' = close_connection response /\ response_body r' = response_body response.
Proof.
  intros Hok Hh Hu. unfold rtsp_add_control_response_headers.
  destruct (add_header_ok response (bytes "Server") (bytes "AirTunes/220.68") Hok) as (r1 & -> & Hok1 & Hh1 & Hs1 & Hp1 & Hc1 & Hb1).
  { by split_and!. } { by rewrite Hh. } { by rewrite Hh. }
  rewrite Hh in Hh1. cbn [app mbind outcome_bind] in *. destruct (has_cseq request) eqn:Hcs; cbn [negb]; cycle 1.
  { exists r1. rewrite Hh1. split_and!; done. }
  destruct (cseq_sendable _ Hu) as [-> Hsend].
  destruct (add_header_ok r1 CSEQ (format_u (cseq request)) Hok1 Hsend) as (r2 & -> & Hok2 & Hh2 & Hs2 & Hp2 & Hc2 & Hb2).
  { by rewrite Hh1. } { by rewrite Hh1. }
  rewrite Hh1 in Hh2. cbn [app mbind outcome_bind] in *.
  destruct (_ && _); cycle 1.
  { exists r2. rewrite Hh2. split_and!; (done || congruence). }
  destruct (add_header_ok r2 (bytes "Audio-Jack-Status") (bytes "connected; type=digital") Hok2)
    as (r3 & -> & Hok3 & Hh3 & Hs3 & Hp3 & Hc3 & Hb3).
  { by split_and!. } { by rewrite Hh2. } { by rewrite Hh2. }
  exists r3. rewrite Hh3, Hh2. split_and!; (done || congruence).
Qed.

(** *** One request *)

(** The cases of [strcmp(request->method, name)]. *)
Ltac method_case request m :=
  let H := fresh "Hm" in
  destruct (decide (method request = bytes m)) as [H|H];
    [rewrite H; repeat match goal with
     | |- context [bool_decide (bytes ?a = bytes ?b)] =>
         let x := eval vm_compute in (bool_decide (bytes a = bytes b)) in
         change (bool_decide (bytes a = bytes b)) with x
     end
    |rewrite !(bool_decide_eq_false_2 _ H)].

(** Comparisons of known states. *)
Ltac decided :=
  repeat match goal with |- context [bool_decide (?a = ?b :> AirPlayRtspSessionState)] =>
    let x := eval vm_compute in (bool_decide (a = b)) in change (bool_decide (a = b)) with x end; cbn [andb negb].
Ltac refuse H :=
  match goal with |- context [answer_with ?s ?r (airplay_rtsp_response_set_status ?r ?c)] =>
    let r' := fresh "r'" in let Hs := fresh "Hs" in
    destruct (H c ltac:(done)) as (r' & -> & ? & ? & ? & ? & Hs & ?); exists s, r';
    rewrite Hs; split_and!; try done; intros changes; rewrite app_nil_r;
    match goal with Hst : state s = _ |- _ => by rewrite Hst end
  end.
Ltac destruct_response :=
  match goal with H : response_ok _ |- _ => by destruct H; constructor end.
Ltac accept H :=
  eexists _, _; split; [done|]; rproj; cbn [status_code response_headers response_body response_protocol]; rewrite H;
  split_and!; [assumption || (by destruct_response)|lia|done|done|done|done|]; intros changes; cbn -[bytes].

(** What the default route does: the response is kept up to its status, one header
    and whether the connection closes. *)
Lemma route_ok session request response :
  response_ok response -> status_code response = 200 -> size (response_headers response) <= 3 ->
  find_header (response_headers response) (bytes "Public") = None ->
  state session <> AIRPLAY_RTSP_SESSION_CLOSED ->
  exists session' r', airplay_rtsp_default_route session request response = (true, session', r') /\
    response_ok r' /\ size (response_headers r') <= 4 /\ response_body r' = response_body response /\
    response_protocol r' = response_protocol response /\ status_code r' <> 400 /\
    find_header (response_headers r') CSEQ = find_header (response_headers response) CSEQ /\
    forall changes, history (state session) changes -> history (state session') (changes ++ agreed (request, Some r')).
Proof.
  intros Hok H200 Hsz Hpub Hopen. unfold airplay_rtsp_default_route, agreed, is_control.
  assert (Hstatus : forall code, 100 <= code <= 999 -> exists r', answer_with session response
      (airplay_rtsp_response_set_status response code) = (true, session, r') /\
    response_ok r' /\ size (response_headers r') <= 4 /\ response_body r' = response_body response /\
    response_protocol r' = response_protocol response /\ status_code r' = code /\
    find_header (response_headers r') CSEQ = find_header (response_headers response) CSEQ).
  { intros code Hc. destruct (set_status_ok response code Hok Hc) as (r' & -> & Hok' & Hs & Hh & Hp & Hcl & Hb).
    exists r'. rewrite Hh. split_and!; (done || lia). }
  cbv zeta. method_case request "OPTIONS"%string; [|method_case request "SETUP"%string; [|method_case request "RECORD"%string;
    [|method_case request "GET_PARAMETER"%string; [|method_case request "SET_PARAMETER"%string;
      [|method_case request "TEARDOWN"%string]]]]]; cbn [orb andb negb].
  - destruct (add_header_ok response (bytes "Public")
      (bytes "OPTIONS, GET, POST, SETUP, RECORD, GET_PARAMETER, SET_PARAMETER, TEARDOWN") Hok)
      as (r' & -> & Hok' & Hh & Hs & Hp & _ & Hb); [by split_and!|unfold AIRPLAY_RTSP_MAX_HEADERS; lia|done|].
    exists session, r'. rewrite Hh, Hs, H200, size_app, find_header_app. split_and!; try done.
    + unfold size in *. cbn [length]. lia.
    + by destruct (find_header _ CSEQ).
    + intros changes. by rewrite app_nil_r.
  - destruct (state session) eqn:Hst; try done; decided; try refuse Hstatus. accept H200. by intros ->.
  - destruct (state session) eqn:Hst; try done; decided; try refuse Hstatus. accept H200. by intros ->.
  - destruct (state session) eqn:Hst; try done; decided; try refuse Hstatus; accept H200; by rewrite Hst, app_nil_r.
  - destruct (state session) eqn:Hst; try done; decided; try refuse Hstatus; accept H200; by rewrite Hst, app_nil_r.
  - destruct (state session) eqn:Hst; try done; decided; accept H200; intros ->.
    + exists []. by split; [|left].
    + exists [bytes "SETUP"]. by split; [|right; left].
    + exists [bytes "SETUP"; bytes "RECORD"]. by split; [|right; right; left].
  - destruct (Hstatus (if bool_decide (method request = bytes "GET") || bool_decide (method request = bytes "POST")
      then 404 else 501)) as (r' & -> & Hok' & Hs1 & Hb & Hp & Hs & Hq); [by destruct (_ || _)|].
    exists session, r'. split_and!; (done || (try by rewrite Hs; destruct (_ || _))). intros changes. by rewrite app_nil_r.
Qed.

(** The default route is such a route. *)
#[export] Instance default_route_keeps_protocol : RouteKeepsProtocol airplay_rtsp_default_route.
Proof.
  intros session request response _ Hopen (Hok & H200 & Hn & Hpub & Hb & Hp).
  destruct (route_ok session request response Hok H200 Hn Hpub Hopen) as (s' & r' & -> & Hok' & Hn' & Hb' & Hp' & _ & Hq & Hh).
  split_and!; try done. apply short_response_fits; [done|congruence|lia].
Qed.

(** The route that the dispatcher takes. *)
Definition route_of (handler : option Route) : Route :=
  match handler with Some route => route | None => airplay_rtsp_default_route end.

Definition handler_ok (handler : option Route) : Prop :=
  match handler with Some route => RouteKeepsProtocol route | None => True end.

Lemma route_of_keeps handler : handler_ok handler -> RouteKeepsProtocol (route_of handler).
Proof. destruct handler; [done|]. intros _. apply _. Qed.

Lemma dispatch_ok handler session request :
  handler_ok handler -> parsed request -> state session <> AIRPLAY_RTSP_SESSION_CLOSED ->
  exists session' response, airplay_rtsp_dispatch session request handler = (session', Some response) /\
    proper_answer handler request response /\
    forall changes, history (state session) changes ->
      history (state session') (changes ++ agreed (request, Some response)).
Proof.
  intros Hh [Hp Hu] Hopen. unfold airplay_rtsp_dispatch. rewrite bool_decide_eq_false_2 by done.
  destruct (response_init_ok (protocol request) 200 Hp ltac:(done)) as (r0 & -> & Hok & Hs & Hnil & Hpr & Hc & Hb).
  fold (unnumbered request). unfold proper_answer. destruct (unnumbered request) eqn:Hmiss.
  - assert (Hok' : response_ok { r0 with close_connection := true }) by (by destruct Hok; constructor).
    destruct (set_status_ok _ 400 Hok' ltac:(done)) as (r1 & -> & Hok1 & Hs1 & Hh1 & Hp1 & Hc1 & Hb1).
    exists session, r1. split; [done|].
    change (response_protocol r1 = response_protocol r0) in Hp1. change (response_headers r1 = response_headers r0) in Hh1.
    change (response_body r1 = response_body r0) in Hb1. split.
    + split_and!; try done; [congruence|]. apply short_response_encodes; [done|congruence|by rewrite Hh1, Hnil].
    + intros changes. unfold agreed. rewrite Hs1, andb_false_r. by rewrite app_nil_r.
  - destruct (control_headers_ok r0 request Hok Hnil Hu) as (r1 & -> & Hok1 & Hn1 & Hpub & Hq1 & Hs1 & Hp1 & Hc1 & Hb1). cbv zeta.
    set (s1 := { session with request_count ::= inc32 }).
    assert (Hprep : prepared request r1) by (split_and!; [done|congruence|done|done|congruence|congruence]).
    match goal with |- context [match ?m with pair _ _ => _ end] => replace m with (route_of handler s1 request r1) by by destruct handler end.
    pose proof (route_of_keeps handler Hh s1 request r1 (conj Hp Hu) Hopen Hprep) as Hroute.
    assert (Hdefault : handler = None -> status_code (route_of handler s1 request r1).2 <> 400).
    { intros ->. cbn [route_of]. destruct (route_ok s1 request r1 Hok1 ltac:(congruence) Hn1 Hpub Hopen) as (s' & r' & E & _ & _ & _ & _ & Hne & _). by rewrite E. }
    destruct (route_of handler s1 request r1) as [[[] s2] r2].
    + destruct Hroute as (Hok2 & Hfit & Hp2 & Hq2 & Hhist). exists s2, r2. split; [done|]. split; [|exact Hhist].
      split_and!; [done|congruence|by apply response_encode_eq| |done]. by rewrite Hq2.
    + destruct (response_init_ok (protocol request) 500 Hp ltac:(done)) as (r3 & -> & Hok3 & Hs3 & Hnil3 & Hpr3 & Hc3 & Hb3). cbn [mbind outcome_bind].
      destruct (control_headers_ok r3 request Hok3 Hnil3 Hu) as (r4 & -> & Hok4 & Hn4 & _ & Hq4 & Hs4 & Hp4 & Hc4 & Hb4).
      exists s2, r4. split; [done|]. split.
      * split_and!; [done|congruence|apply short_response_encodes; [done|congruence|lia]|done|intros _; rewrite Hs4, Hs3; done].
      * intros changes Hh0. unfold agreed. rewrite Hs4, Hs3, andb_false_r, app_nil_r, Hroute. exact Hh0.
Qed.

Lemma dispatch_closed session request handler :
  state session = AIRPLAY_RTSP_SESSION_CLOSED -> airplay_rtsp_dispatch session request handler = (session, None).
Proof. intros H. unfold airplay_rtsp_dispatch. by rewrite bool_decide_eq_true_2. Qed.

Lemma serve_closed handler session requests :
  state session = AIRPLAY_RTSP_SESSION_CLOSED ->
  serve handler session requests = (session, map (fun request => (request, None)) requests).
Proof.
  intros H. induction requests as [|request requests IH]; [done|]. cbn [serve map]. by rewrite dispatch_closed, IH.
Qed.

Lemma serve_ok handler session requests changes :
  handler_ok handler -> Forall parsed requests -> history (state session) changes ->
  exists session' answered ignored,
    serve handler session requests = (session', map (fun '(q, r) => (q, Some r)) answered ++ map (fun q => (q, None)) ignored) /\
    requests = map fst answered ++ ignored /\ Forall (fun '(q, r) => proper_answer handler q r) answered /\
    (ignored <> [] -> state session' = AIRPLAY_RTSP_SESSION_CLOSED) /\
    history (state session') (changes ++ concat (map (fun '(q, r) => agreed (q, Some r)) answered)).
Proof.
  intros Hok Hq. revert session changes. induction Hq as [|request requests Hr Hq IH]; intros session changes Hh.
  { exists session, [], []. cbn. rewrite app_nil_r. split_and!; done. }
  destruct (decide (state session = AIRPLAY_RTSP_SESSION_CLOSED)) as [Hc|Hc].
  - exists session, [], (request :: requests). rewrite serve_closed by done. cbn [map app concat]. rewrite app_nil_r. split_and!; done.
  - destruct (dispatch_ok handler session request Hok Hr Hc) as (s1 & response & Hd & Hp & Hstep).
    destruct (IH s1 (changes ++ agreed (request, Some response)) ltac:(by apply Hstep))
      as (s2 & answered & ignored & Hs & -> & Hall & Hig & Hhist).
    exists s2, ((request, response) :: answered), ignored. cbn [serve]. rewrite Hd, Hs. rewrite <- app_assoc in Hhist.
    split_and!; try done. by constructor.
Qed.

(** C16: a session answers every request and follows the protocol, with the default
    route or with any route that keeps the protocol itself.  Whatever requests arrive, each
    one up to the first accepted [TEARDOWN] gets an answer that can be encoded; an RTSP
    request without the number that it needs is always answered with status 400 and the
    connection closed, and every other request that has a number gets it back, also when the
    route does not handle it; the default route never answers 400; later requests are
    ignored; and the changes of the session that were agreed to are its one way to the state
    it is in: set up, then record, torn down once and last. *)
Theorem session_follows_protocol session_id handler requests :
  handler_ok handler -> Forall parsed requests ->
  exists session answered ignored,
    serve handler (airplay_rtsp_session_init session_id) requests =
      (session, map (fun '(q, r) => (q, Some r)) answered ++ map (fun q => (q, None)) ignored) /\
    requests = map fst answered ++ ignored /\
    Forall (fun '(q, r) => proper_answer handler q r) answered /\
    (ignored <> [] -> state session = AIRPLAY_RTSP_SESSION_CLOSED) /\
    history (state session) (concat (map (fun '(q, r) => agreed (q, Some r)) answered)).
Proof. intros Hh Hq. by apply (serve_ok handler (airplay_rtsp_session_init session_id) requests []). Qed.

(** A route that handles no [GET] and passes the others on. *)
Definition demo_route : Route := fun session request response =>
  if bool_decide (method request = bytes "GET") then (false, session, response) else airplay_rtsp_default_route session request response.

Lemma demo_route_keeps : RouteKeepsProtocol demo_route.
Proof.
  intros session request response Hp Ho Hprep. unfold demo_route. destruct (bool_decide _); [done|].
  exact (route_keeps session request response Hp Ho Hprep).
Qed.

Definition demo_call (m : cstring) (n : Z) : AirPlayRtspRequest :=
  mkRequest m (bytes "rtsp://x/1") (bytes "RTSP/1.0") [] [] 0 true n.
Definition demo_calls : list AirPlayRtspRequest :=
  [demo_call (bytes "RECORD") 1; demo_call (bytes "SETUP") 2; demo_call (bytes "RECORD") 3; demo_call (bytes "GET") 4;
   mkRequest (bytes "OPTIONS") (bytes "*") (bytes "RTSP/1.0") [] [] 0 false 0;
   demo_call (bytes "TEARDOWN") 5; demo_call (bytes "SETUP") 6].

Lemma session_follows_protocol_witness :
  let '(session, answers) := serve (Some demo_route) (airplay_rtsp_session_init 1) demo_calls in
  map (fun a => status_code <$> snd a) answers = [Some 455; Some 200; Some 200; Some 500; Some 400; Some 200; None] /\
  history (state session) (concat (map agreed answers)).
Proof.
  destruct (session_follows_protocol 1 (Some demo_route) demo_calls) as (session & answered & ignored & E & _ & _ & _ & H).
  { exact demo_route_keeps. }
  { repeat constructor; vm_compute; congruence. }
  rewrite E. split.
  - change (map (fun a => status_code <$> snd a) (snd (session, map (fun '(q, r) => (q, Some r)) answered ++
      map (fun q => (q, None)) ignored)) = [Some 455; Some 200; Some 200; Some 500; Some 400; Some 200; None]).
    rewrite <- E. vm_compute. reflexivity.
  - rewrite map_app, concat_app, !map_map. replace (concat (map _ ignored)) with (@nil cstring).
    + rewrite app_nil_r. replace (map _ answered) with (map (fun '(q, r) => agreed (q, Some r)) answered); [done|].
      apply map_ext. by intros [].
    + clear. by induction ignored.
Defined.
