(* ===== verification/LogicalSession.v ===== *)
(** * Logical sessions of AirPlay (protocol/airplay/protocol/logical_session.c)

    The registry that joins the TCP connections of one sender to one media session.
    The mutex of the registry makes every function one step on its state; a pointer
    to an entry is its index in the array. *)

From S2P Require Import Prelude CText Buffers Rtsp.

Definition AIRPLAY_SESSION_APPLE_ID_MAX : Z := 128.
Definition AIRPLAY_SESSION_MAX_CONNECTIONS : nat := 8.
Definition AIRPLAY_SESSION_MAX_LOGICAL_SESSIONS : nat := 8.
(** [UINT64_C(0x8000000000000000)] *)
Definition FIRST_LOGICAL_ID : Z := 9223372036854775808.

(* src: source/protocol/airplay/protocol/logical_session.h AirPlayConnectionKind *)
Inductive AirPlayConnectionKind :=
  | AIRPLAY_CONNECTION_UNKNOWN
  | AIRPLAY_CONNECTION_RAOP
  | AIRPLAY_CONNECTION_AIRPLAY
  | AIRPLAY_CONNECTION_BLE.
#[export] Instance eq_AirPlayConnectionKind : EqDecision AirPlayConnectionKind.
Proof. solve_decision. Defined.

(* src: source/protocol/airplay/protocol/logical_session.h AirPlaySessionObserveResult *)
Inductive AirPlaySessionObserveResult :=
  | AIRPLAY_SESSION_OBSERVE_OK
  | AIRPLAY_SESSION_OBSERVE_INVALID_ARGUMENT
  | AIRPLAY_SESSION_OBSERVE_INVALID_SESSION_ID
  | AIRPLAY_SESSION_OBSERVE_CONFLICT
  | AIRPLAY_SESSION_OBSERVE_UNBOUND_MEDIA
  | AIRPLAY_SESSION_OBSERVE_CAPACITY.
#[export] Instance eq_AirPlaySessionObserveResult : EqDecision AirPlaySessionObserveResult.
Proof. solve_decision. Defined.

(* src: source/protocol/airplay/protocol/logical_session.h AirPlaySessionSnapshot *)
Record AirPlaySessionSnapshot := mkSnapshot {
  s_connection_id : Z;
  s_logical_session_id : Z;
  s_connection_kind : AirPlayConnectionKind;
  s_logical_connection_count : Z;
  s_logical_session_bound : bool
}.

(* src: source/protocol/airplay/protocol/logical_session.h AirPlaySessionCloseResult *)
Record AirPlaySessionCloseResult := mkCloseResult {
  r_connection_id : Z;
  r_logical_session_id : Z;
  r_logical_session_bound : bool;
  r_last_logical_connection : bool;
  r_terminal_media_session_id : Z
}.

(* src: source/protocol/airplay/protocol/logical_session.c AirPlayConnectionEntry *)
Record AirPlayConnectionEntry := mkConnection {
  c_connection_id : Z;
  c_logical_session_id : Z;
  c_kind : AirPlayConnectionKind;
  c_client_id : list Z;
  c_client_id_bound : bool;
  c_logical_session_bound : bool;
  c_used : bool
}.
#[export] Instance eta_AirPlayConnectionEntry : Eta AirPlayConnectionEntry := fun r =>
  mkConnection (c_connection_id r) (c_logical_session_id r) (c_kind r) (c_client_id r) (c_client_id_bound r)
    (c_logical_session_bound r) (c_used r).

(* src: source/protocol/airplay/protocol/logical_session.c AirPlayLogicalSessionEntry *)
Record AirPlayLogicalSessionEntry := mkLogical {
  l_apple_session_id : cstring;
  l_logical_session_id : Z;
  l_connection_count : Z;
  l_media_reference_count : Z;
  l_client_id : list Z;
  l_client_id_bound : bool;
  l_transport_terminated : bool;
  l_used : bool
}.
#[export] Instance eta_AirPlayLogicalSessionEntry : Eta AirPlayLogicalSessionEntry := fun r =>
  mkLogical (l_apple_session_id r) (l_logical_session_id r) (l_connection_count r) (l_media_reference_count r)
    (l_client_id r) (l_client_id_bound r) (l_transport_terminated r) (l_used r).

(* src: source/protocol/airplay/protocol/logical_session.c AirPlaySessionManager *)
Record AirPlaySessionManager := mkManager {
  connections : list AirPlayConnectionEntry;
  logical_sessions : list AirPlayLogicalSessionEntry;
  next_logical_session_id : Z
}.
#[export] Instance eta_AirPlaySessionManager : Eta AirPlaySessionManager := fun r =>
  mkManager (connections r) (logical_sessions r) (next_logical_session_id r).

(** What [memset] to zero makes of an entry. *)
Definition zero_client : list Z := repeat 0 32.
Definition zero_connection : AirPlayConnectionEntry :=
  mkConnection 0 0 AIRPLAY_CONNECTION_UNKNOWN zero_client false false false.
Definition zero_logical : AirPlayLogicalSessionEntry := mkLogical [] 0 0 0 zero_client false false false.

(** [manager->connections[i]] and [manager->logical_sessions[i]]. *)
Definition connection_at (m : AirPlaySessionManager) (i : nat) : AirPlayConnectionEntry :=
  default zero_connection (connections m !! i).
Definition logical_at (m : AirPlaySessionManager) (i : nat) : AirPlayLogicalSessionEntry :=
  default zero_logical (logical_sessions m !! i).
Definition set_connection (m : AirPlaySessionManager) (i : nat) (f : AirPlayConnectionEntry -> AirPlayConnectionEntry) :=
  { m with connections ::= alter f i }.
Definition set_logical (m : AirPlaySessionManager) (i : nat) (f : AirPlayLogicalSessionEntry -> AirPlayLogicalSessionEntry) :=
  { m with logical_sessions ::= alter f i }.

(** ** Requests *)

(** [length <= maximum && value[length] != 0]; a string ends with a NUL. *)
(* src: source/protocol/airplay/protocol/logical_session.c bounded_length *)
Fixpoint bounded_length (value : cstring) (maximum length : Z) : Z :=
  match value with
  | [] => length
  | _ :: value' => if maximum <? length then length else bounded_length value' maximum (length + 1)
  end.

(* src: source/protocol/airplay/protocol/logical_session.c valid_apple_session_id *)
Definition valid_apple_session_id (value : cstring) : bool :=
  let length := bounded_length value AIRPLAY_SESSION_APPLE_ID_MAX 0 in
  if (length =? 0) || (AIRPLAY_SESSION_APPLE_ID_MAX <? length) then false
  else forallb (fun c => negb ((c <? 0x21) || (0x7e <? c))) (take (Z.to_nat length) value).

(* src: source/protocol/airplay/protocol/logical_session.c uri_is_ble_info *)
Definition uri_is_ble_info (uri : cstring) : bool :=
  strstr uri (bytes "txtAirPlay") || strstr uri (bytes "txtRAOP").

Definition is_text (text : cstring) (s : string) : bool := bool_decide (text = bytes s).
(** [strncmp(text, s, strlen(s)) == 0] *)
Definition starts_with (text : cstring) (s : string) : bool :=
  bool_decide (take (length (bytes s)) text = bytes s).

(* src: source/protocol/airplay/protocol/logical_session.c uri_is_pairing *)
Definition uri_is_pairing (uri : cstring) : bool :=
  is_text uri "/pair-pin-start" || is_text uri "/pair-setup-pin" || is_text uri "/pair-setup" ||
  is_text uri "/pair-verify".

(* src: source/protocol/airplay/protocol/logical_session.c airplay_session_request_is_remote_video *)
Definition airplay_session_request_is_remote_video (request : AirPlayRtspRequest) : bool :=
  let uri := uri request in
  is_text uri "/play" || is_text uri "/stop" || is_text uri "/playback-info" || is_text uri "/action" ||
  is_text uri "/rate" || starts_with uri "/rate?" || is_text uri "/scrub" || starts_with uri "/scrub?".

(* src: source/protocol/airplay/protocol/logical_session.c airplay_session_request_requires_logical_binding *)
Definition airplay_session_request_requires_logical_binding (request : AirPlayRtspRequest) : bool :=
  airplay_session_request_is_remote_video request || is_text (uri request) "/reverse".

(* src: source/protocol/airplay/protocol/logical_session.c classify_request *)
Definition classify_request (request : AirPlayRtspRequest) (apple_session_id : option cstring) : AirPlayConnectionKind :=
  if uri_is_ble_info (uri request) && negb (has_cseq request) && is_text (protocol request) "RTSP/1.0" then
    AIRPLAY_CONNECTION_BLE
  else if has_cseq request then AIRPLAY_CONNECTION_RAOP
  else if bool_decide (is_Some apple_session_id) || is_text (protocol request) "HTTP/1.1" ||
          uri_is_pairing (uri request)
  then AIRPLAY_CONNECTION_AIRPLAY
  else AIRPLAY_CONNECTION_UNKNOWN.

(** ** Entries *)

(* src: source/protocol/airplay/protocol/logical_session.c find_connection *)
Definition find_connection (m : AirPlaySessionManager) (id : Z) : option nat :=
  find_entry (fun e => c_used e && (c_connection_id e =? id)) (connections m).

(* src: source/protocol/airplay/protocol/logical_session.c find_free_connection *)
Definition find_free_connection (m : AirPlaySessionManager) : option nat :=
  find_entry (fun e => negb (c_used e)) (connections m).

(* src: source/protocol/airplay/protocol/logical_session.c find_logical_by_apple_id *)
Definition find_logical_by_apple_id (m : AirPlaySessionManager) (id : cstring) : option nat :=
  find_entry (fun e => l_used e && bool_decide (l_apple_session_id e = id)) (logical_sessions m).

(* src: source/protocol/airplay/protocol/logical_session.c find_logical_by_id *)
Definition find_logical_by_id (m : AirPlaySessionManager) (id : Z) : option nat :=
  find_entry (fun e => l_used e && (l_logical_session_id e =? id)) (logical_sessions m).

(* src: source/protocol/airplay/protocol/logical_session.c find_free_logical *)
Definition find_free_logical (m : AirPlaySessionManager) : option nat :=
  find_entry (fun e => negb (l_used e)) (logical_sessions m).

(* src: source/protocol/airplay/protocol/logical_session.c release_logical_if_unreferenced *)
Definition release_logical_if_unreferenced (l : AirPlayLogicalSessionEntry) : AirPlayLogicalSessionEntry :=
  if (l_connection_count l =? 0) && (l_media_reference_count l =? 0) then zero_logical else l.

(** [count--] where it is above zero. *)
Definition drop_connection (l : AirPlayLogicalSessionEntry) : AirPlayLogicalSessionEntry :=
  if 0 <? l_connection_count l then { l with l_connection_count ::= Z.pred } else l.

(* src: source/protocol/airplay/protocol/logical_session.c bind_connection *)
Definition bind_connection (m : AirPlaySessionManager) (ci li : nat) : AirPlaySessionManager :=
  let connection := connection_at m ci in
  let logical := logical_at m li in
  if c_logical_session_bound connection && (c_logical_session_id connection =? l_logical_session_id logical) then m
  else
    let m :=
      if c_logical_session_bound connection then
        match find_logical_by_id m (c_logical_session_id connection) with
        | Some previous => set_logical m previous drop_connection
        | None => m
        end
      else m in
    let m := set_connection m ci (fun c =>
      { c with c_logical_session_id := l_logical_session_id logical; c_logical_session_bound := true }) in
    let m := set_logical m li (fun l => { l with l_connection_count ::= inc32 }) in
    if c_client_id_bound connection && negb (l_client_id_bound logical) then
      set_logical m li (fun l => { l with l_client_id := c_client_id connection; l_client_id_bound := true })
    else m.

(** The loop of the attempts. *)
(* src: source/protocol/airplay/protocol/logical_session.c 274-282 allocate_logical_id *)
Fixpoint allocate_attempts (attempts : nat) (m : AirPlaySessionManager) : Z * AirPlaySessionManager :=
  match attempts with
  | O => (0, m)
  | S attempts' =>
      let candidate := next_logical_session_id m in
      let next := inc candidate in
      let m := { m with next_logical_session_id := if next <? FIRST_LOGICAL_ID then FIRST_LOGICAL_ID else next } in
      if negb (candidate =? 0) && bool_decide (find_logical_by_id m candidate = None) then (candidate, m)
      else allocate_attempts attempts' m
  end.

(* src: source/protocol/airplay/protocol/logical_session.c allocate_logical_id *)
Definition allocate_logical_id (m : AirPlaySessionManager) : Z * AirPlaySessionManager :=
  allocate_attempts (S AIRPLAY_SESSION_MAX_LOGICAL_SESSIONS) m.

(* src: source/protocol/airplay/protocol/logical_session.c fill_snapshot *)
Definition fill_snapshot (connection : AirPlayConnectionEntry) (logical : option AirPlayLogicalSessionEntry)
    : AirPlaySessionSnapshot :=
  mkSnapshot (c_connection_id connection) (c_logical_session_id connection) (c_kind connection)
    (match logical with Some l => l_connection_count l | None => 1 end) (c_logical_session_bound connection).

(** ** Operations *)

(* src: source/protocol/airplay/protocol/logical_session.c airplay_session_manager_create *)
Definition airplay_session_manager_create (alloc_ok mutex_ok : bool) : option AirPlaySessionManager :=
  if alloc_ok && mutex_ok then
    Some (mkManager (repeat zero_connection AIRPLAY_SESSION_MAX_CONNECTIONS)
            (repeat zero_logical AIRPLAY_SESSION_MAX_LOGICAL_SESSIONS) FIRST_LOGICAL_ID)
  else None.

Definition APPLE_SESSION_ID : cstring := bytes "X-Apple-Session-ID".

(** The entry of the connection and whether it is new. *)
(* src: source/protocol/airplay/protocol/logical_session.c 345-363 airplay_session_manager_observe *)
Definition observed_connection (m : AirPlaySessionManager) (connection_id : Z) (observed_kind : AirPlayConnectionKind)
    : AirPlaySessionObserveResult + nat * bool :=
  match find_connection m connection_id with
  | None =>
      match find_free_connection m with
      | None => inl AIRPLAY_SESSION_OBSERVE_CAPACITY
      | Some i => inr (i, true)
      end
  | Some i =>
      let kind := c_kind (connection_at m i) in
      if negb (bool_decide (observed_kind = AIRPLAY_CONNECTION_UNKNOWN)) &&
         negb (bool_decide (kind = AIRPLAY_CONNECTION_UNKNOWN)) && negb (bool_decide (kind = observed_kind))
      then inl AIRPLAY_SESSION_OBSERVE_CONFLICT
      else inr (i, false)
  end.

(** The entry of the logical session, if the request has one. *)
(* src: source/protocol/airplay/protocol/logical_session.c 365-395 airplay_session_manager_observe *)
Definition observed_logical (m : AirPlaySessionManager) (connection : AirPlayConnectionEntry)
    (apple_session_id : option cstring) : AirPlaySessionObserveResult + option nat :=
  match apple_session_id with
  | Some id =>
      if c_logical_session_bound connection then
        match find_logical_by_id m (c_logical_session_id connection) with
        | Some i =>
            if bool_decide (l_apple_session_id (logical_at m i) = id) then inr (Some i)
            else inl AIRPLAY_SESSION_OBSERVE_CONFLICT
        | None => inl AIRPLAY_SESSION_OBSERVE_CONFLICT
        end
      else
        match find_logical_by_apple_id m id with
        | Some i => inr (Some i)
        | None =>
            match find_free_logical m with
            | Some i => inr (Some i)
            | None => inl AIRPLAY_SESSION_OBSERVE_CAPACITY
            end
        end
  | None =>
      if c_logical_session_bound connection then
        match find_logical_by_id m (c_logical_session_id connection) with
        | Some i => inr (Some i)
        | None => inl AIRPLAY_SESSION_OBSERVE_CONFLICT
        end
      else inr None
  end.

(** The connection is registered or classified. *)
(* src: source/protocol/airplay/protocol/logical_session.c 403-414 airplay_session_manager_observe *)
Definition register_connection (m : AirPlaySessionManager) (ci : nat) (new_connection : bool) (connection_id : Z)
    (observed_kind : AirPlayConnectionKind) : AirPlaySessionManager :=
  set_connection m ci (fun c =>
    if new_connection then
      { zero_connection with c_used := true; c_connection_id := connection_id;
                             c_logical_session_id := connection_id; c_kind := observed_kind }
    else if bool_decide (c_kind c = AIRPLAY_CONNECTION_UNKNOWN) then { c with c_kind := observed_kind }
    else c).

(** The connection joins its logical session, which is created when it is new. *)
(* src: source/protocol/airplay/protocol/logical_session.c 416-444 airplay_session_manager_observe *)
Definition join_session (m : AirPlaySessionManager) (ci li : nat) (new_connection : bool) (apple_session_id : cstring)
    : AirPlaySessionObserveResult * AirPlaySessionManager :=
  let forget m := if new_connection then set_connection m ci (fun _ => zero_connection) else m in
  let connection := connection_at m ci in
  let logical := logical_at m li in
  if c_client_id_bound connection && l_client_id_bound logical &&
     negb (bool_decide (c_client_id connection = l_client_id logical)) then
    (AIRPLAY_SESSION_OBSERVE_CONFLICT, forget m)
  else if negb (l_used logical) then
    let m := set_logical m li (fun _ => zero_logical) in
    let '(id, m) := allocate_logical_id m in
    let m := set_logical m li (fun l => { l with l_logical_session_id := id }) in
    if id =? 0 then (AIRPLAY_SESSION_OBSERVE_CAPACITY, forget m)
    else
      let m := set_logical m li (fun l => { l with l_apple_session_id := apple_session_id; l_used := true }) in
      (AIRPLAY_SESSION_OBSERVE_OK, bind_connection m ci li)
  else (AIRPLAY_SESSION_OBSERVE_OK, bind_connection m ci li).

Definition no_snapshot : AirPlaySessionSnapshot := mkSnapshot 0 0 AIRPLAY_CONNECTION_UNKNOWN 0 false.

(** The critical section of [observe]. *)
(* src: source/protocol/airplay/protocol/logical_session.c 343-448 airplay_session_manager_observe *)
Definition observe_locked (m : AirPlaySessionManager) (connection_id : Z) (request : AirPlayRtspRequest)
    (apple_session_id : option cstring)
    : AirPlaySessionObserveResult * AirPlaySessionSnapshot * AirPlaySessionManager :=
  let observed_kind := classify_request request apple_session_id in
  match observed_connection m connection_id observed_kind with
  | inl e => (e, no_snapshot, m)
  | inr (ci, new_connection) =>
      match observed_logical m (connection_at m ci) apple_session_id with
      | inl e => (e, no_snapshot, m)
      | inr logical =>
          if airplay_session_request_requires_logical_binding request && bool_decide (logical = None) then
            (AIRPLAY_SESSION_OBSERVE_UNBOUND_MEDIA, no_snapshot, m)
          else
            let m := register_connection m ci new_connection connection_id observed_kind in
            let '(result, m) :=
              match apple_session_id, logical with
              | Some id, Some li =>
                  if c_logical_session_bound (connection_at m ci) then (AIRPLAY_SESSION_OBSERVE_OK, m)
                  else join_session m ci li new_connection id
              | _, _ => (AIRPLAY_SESSION_OBSERVE_OK, m)
              end in
            if bool_decide (result = AIRPLAY_SESSION_OBSERVE_OK) then
              (AIRPLAY_SESSION_OBSERVE_OK, fill_snapshot (connection_at m ci) (logical_at m <$> logical), m)
            else (result, no_snapshot, m)
      end
  end.

(** The result, the snapshot and the registry after the call. *)
(* src: source/protocol/airplay/protocol/logical_session.c airplay_session_manager_observe *)
Definition airplay_session_manager_observe (m : AirPlaySessionManager) (connection_id : Z) (request : AirPlayRtspRequest)
    : AirPlaySessionObserveResult * AirPlaySessionSnapshot * AirPlaySessionManager :=
  if connection_id =? 0 then (AIRPLAY_SESSION_OBSERVE_INVALID_ARGUMENT, no_snapshot, m)
  else
    let apple_session_id := airplay_rtsp_request_header request APPLE_SESSION_ID in
    if match apple_session_id with Some id => negb (valid_apple_session_id id) | None => false end then
      (AIRPLAY_SESSION_OBSERVE_INVALID_SESSION_ID, no_snapshot, m)
    else if has_cseq request && bool_decide (is_Some apple_session_id) then
      (AIRPLAY_SESSION_OBSERVE_CONFLICT, no_snapshot, m)
    else observe_locked m connection_id request apple_session_id.

(** The result, when the connection was known, and the registry. *)
(* src: source/protocol/airplay/protocol/logical_session.c airplay_session_manager_close *)
Definition airplay_session_manager_close (m : AirPlaySessionManager) (connection_id : Z)
    : option AirPlaySessionCloseResult * AirPlaySessionManager :=
  if connection_id =? 0 then (None, m)
  else
    match find_connection m connection_id with
    | None => (None, m)
    | Some ci =>
        let connection := connection_at m ci in
        let '(last, terminal, m) :=
          if c_logical_session_bound connection then
            match find_logical_by_id m (c_logical_session_id connection) with
            | Some li =>
                if 0 <? l_connection_count (logical_at m li) then
                  let m := set_logical m li (fun l => { l with l_connection_count ::= Z.pred }) in
                  let logical := logical_at m li in
                  if l_connection_count logical =? 0 then
                    (true,
                     if l_transport_terminated logical && (0 <? l_media_reference_count logical)
                     then l_logical_session_id logical else 0,
                     set_logical m li release_logical_if_unreferenced)
                  else (false, 0, m)
                else (false, 0, m)
            | None => (false, 0, m)
            end
          else (false, 0, m) in
        (Some (mkCloseResult connection_id (c_logical_session_id connection) (c_logical_session_bound connection)
                 last terminal),
         set_connection m ci (fun _ => zero_connection))
    end.

(* src: source/protocol/airplay/protocol/logical_session.c airplay_session_manager_bind_client *)
Definition airplay_session_manager_bind_client (m : AirPlaySessionManager) (connection_id : Z) (client_id : list Z)
    : bool * AirPlaySessionManager :=
  if connection_id =? 0 then (false, m)
  else
    match find_connection m connection_id with
    | None => (false, m)
    | Some ci =>
        let connection := connection_at m ci in
        if c_client_id_bound connection && negb (bool_decide (c_client_id connection = client_id)) then (false, m)
        else
          let bind m := set_connection m ci (fun c => { c with c_client_id := client_id; c_client_id_bound := true }) in
          if c_logical_session_bound connection then
            match find_logical_by_id m (c_logical_session_id connection) with
            | None => (false, m)
            | Some li =>
                let logical := logical_at m li in
                if l_client_id_bound logical && negb (bool_decide (l_client_id logical = client_id)) then (false, m)
                else
                  let m := bind m in
                  (true, if negb (l_client_id_bound logical) then
                           set_logical m li (fun l => { l with l_client_id := client_id; l_client_id_bound := true })
                         else m)
            end
          else (true, bind m)
    end.

(** The sessions with media of the client. *)
Definition client_media (client_id : list Z) (l : AirPlayLogicalSessionEntry) : bool :=
  negb (negb (l_used l) || negb (l_client_id_bound l) || (l_media_reference_count l =? 0) ||
        negb (bool_decide (l_client_id l = client_id))).

(** The loop over the sessions: [None] when there are two. *)
(* src: source/protocol/airplay/protocol/logical_session.c 555-567 airplay_session_manager_mark_transport_teardown *)
Fixpoint matching_session (client_id : list Z) (l : list AirPlayLogicalSessionEntry) (index : nat) (matching : option nat)
    : option (option nat) :=
  match l with
  | [] => Some matching
  | logical :: l' =>
      if client_media client_id logical then
        match matching with
        | Some _ => None
        | None => matching_session client_id l' (S index) (Some index)
        end
      else matching_session client_id l' (S index) matching
  end.

(** Whether it was marked, and the session whose media have to be ended at once (0
    for none). *)
(* src: source/protocol/airplay/protocol/logical_session.c airplay_session_manager_mark_transport_teardown *)
Definition airplay_session_manager_mark_transport_teardown (m : AirPlaySessionManager) (connection_id : Z)
    : bool * Z * AirPlaySessionManager :=
  if connection_id =? 0 then (false, 0, m)
  else
    match find_connection m connection_id with
    | None => (false, 0, m)
    | Some ci =>
        let connection := connection_at m ci in
        if negb (bool_decide (c_kind connection = AIRPLAY_CONNECTION_RAOP)) || negb (c_client_id_bound connection)
        then (false, 0, m)
        else
          match matching_session (c_client_id connection) (logical_sessions m) 0 None with
          | None => (false, 0, m)
          | Some None => (true, 0, m)
          | Some (Some li) =>
              let logical := logical_at m li in
              (true, if l_connection_count logical =? 0 then l_logical_session_id logical else 0,
               set_logical m li (fun l => { l with l_transport_terminated := true }))
          end
    end.

(* src: source/protocol/airplay/protocol/logical_session.c airplay_session_manager_retain_media *)
Definition airplay_session_manager_retain_media (m : AirPlaySessionManager) (id : Z) : bool * AirPlaySessionManager :=
  if id =? 0 then (false, m)
  else
    match find_logical_by_id m id with
    | Some li =>
        if l_media_reference_count (logical_at m li) <? UINT32_MAX
        then (true, set_logical m li (fun l => { l with l_media_reference_count ::= Z.succ })) else (false, m)
    | None => (false, m)
    end.

(* src: source/protocol/airplay/protocol/logical_session.c airplay_session_manager_release_media *)
Definition airplay_session_manager_release_media (m : AirPlaySessionManager) (id : Z) : bool * AirPlaySessionManager :=
  if id =? 0 then (false, m)
  else
    match find_logical_by_id m id with
    | Some li =>
        if 0 <? l_media_reference_count (logical_at m li)
        then (true, set_logical m li (fun l =>
               release_logical_if_unreferenced { l with l_media_reference_count ::= Z.pred }))
        else (false, m)
    | None => (false, m)
    end.
