(* ===== verification/LogicalSessionInvariant.v ===== *)
(** * The registry of logical sessions stays consistent

    The invariant of the registry: reference counts are exact, identifiers are
    unique, a connection is bound to a live session only, and the connections of a
    session that have proved who they are belong to one client. *)

From S2P Require Import Prelude CText Buffers Rtsp LogicalSession.

(** ** The invariant *)

(** The connections of a session. *)
Definition bound_to (id : Z) (c : AirPlayConnectionEntry) : bool :=
  c_used c && c_logical_session_bound c && (c_logical_session_id c =? id).

Definition session_of_connection (m : AirPlaySessionManager) (c : AirPlayConnectionEntry) (l : AirPlayLogicalSessionEntry) : Prop :=
  l ∈ logical_sessions m /\ l_used l = true /\ l_logical_session_id l = c_logical_session_id c.

Definition connection_ok (m : AirPlaySessionManager) (c : AirPlayConnectionEntry) : Prop :=
  if c_used c then
    c_connection_id c <> 0 /\
    if c_logical_session_bound c then
      exists l, session_of_connection m c l /\
        (c_client_id_bound c = true -> l_client_id_bound l = true /\ l_client_id l = c_client_id c)
    else c_logical_session_id c = c_connection_id c
  else c = zero_connection.

Definition session_ok (m : AirPlaySessionManager) (l : AirPlayLogicalSessionEntry) : Prop :=
  if l_used l then
    FIRST_LOGICAL_ID <= l_logical_session_id l <= UINT64_MAX /\
    valid_apple_session_id (l_apple_session_id l) = true /\
    l_connection_count l = count (bound_to (l_logical_session_id l)) (connections m) /\
    0 <= l_media_reference_count l <= UINT32_MAX
  else l = zero_logical.

Definition referenced (l : AirPlayLogicalSessionEntry) : Prop :=
  l_used l = true -> 0 < l_connection_count l \/ 0 < l_media_reference_count l.

Record registry_core (m : AirPlaySessionManager) : Prop := {
  ok_connection_slots : length (connections m) = AIRPLAY_SESSION_MAX_CONNECTIONS;
  ok_session_slots : length (logical_sessions m) = AIRPLAY_SESSION_MAX_LOGICAL_SESSIONS;
  ok_next : FIRST_LOGICAL_ID <= next_logical_session_id m <= UINT64_MAX;
  ok_connections : forall i c, connections m !! i = Some c -> connection_ok m c;
  ok_sessions : forall i l, logical_sessions m !! i = Some l -> session_ok m l;
  ok_connection_ids : forall i j c c', connections m !! i = Some c -> connections m !! j = Some c' ->
    c_used c = true -> c_used c' = true -> c_connection_id c = c_connection_id c' -> i = j;
  ok_session_ids : forall i j l l', logical_sessions m !! i = Some l -> logical_sessions m !! j = Some l' ->
    l_used l = true -> l_used l' = true ->
    l_logical_session_id l = l_logical_session_id l' \/ l_apple_session_id l = l_apple_session_id l' -> i = j
}.

(** Every session is in use by a connection or by media. *)
Definition registry_ok (m : AirPlaySessionManager) : Prop :=
  registry_core m /\ forall i l, logical_sessions m !! i = Some l -> referenced l.

Lemma connection_at_lookup m i c : connections m !! i = Some c -> connection_at m i = c.
Proof. unfold connection_at. by intros ->. Qed.

Lemma logical_at_lookup m i l : logical_sessions m !! i = Some l -> logical_at m i = l.
Proof. unfold logical_at. by intros ->. Qed.

Lemma created_ok m : airplay_session_manager_create true true = Some m -> registry_ok m.
Proof.
  intros [= <-]. split; [constructor|]; cbn; try done.
  - intros i c Hc%list_elem_of_lookup_2. apply list_elem_of_In, (repeat_spec 8) in Hc. by subst.
  - intros i l Hl%list_elem_of_lookup_2. apply list_elem_of_In, (repeat_spec 8) in Hl. by subst.
  - intros i j c c' Hc%list_elem_of_lookup_2. apply list_elem_of_In, (repeat_spec 8) in Hc. by subst.
  - intros i j l l' Hl%list_elem_of_lookup_2. apply list_elem_of_In, (repeat_spec 8) in Hl. by subst.
  - intros i l Hl%list_elem_of_lookup_2. apply list_elem_of_In, (repeat_spec 8) in Hl. by subst.
Qed.

(** ** Updates of one connection and one session *)

(** What an update must keep. *)
Record update_ok (m m' : AirPlaySessionManager) (ci li : nat) (c c' : AirPlayConnectionEntry)
    (l l' : AirPlayLogicalSessionEntry) : Prop := {
  up_connection : connections m !! ci = Some c;
  up_session : logical_sessions m !! li = Some l;
  up_connections : exists f, connections m' = alter f ci (connections m) /\ f c = c';
  up_sessions : exists g, logical_sessions m' = alter g li (logical_sessions m) /\ g l = l';
  up_next : FIRST_LOGICAL_ID <= next_logical_session_id m' <= UINT64_MAX;
  up_connection_ok : connection_ok m' c';
  up_session_ok : session_ok m' l';
  up_bound : forall j d, j <> ci -> connections m !! j = Some d -> c_used d = true -> c_logical_session_bound d = true ->
    l_used l = true -> l_logical_session_id l = c_logical_session_id d ->
    l_used l' = true /\ l_logical_session_id l' = l_logical_session_id l /\
    (c_client_id_bound d = true -> l_client_id_bound l' = true /\ l_client_id l' = c_client_id d);
  up_counts : forall j k, j <> li -> logical_sessions m !! j = Some k -> l_used k = true ->
    bound_to (l_logical_session_id k) c' = bound_to (l_logical_session_id k) c;
  up_connection_id : c_used c' = true -> forall j d, j <> ci -> connections m !! j = Some d -> c_used d = true ->
    c_connection_id d <> c_connection_id c';
  up_session_id : l_used l' = true -> forall j k, j <> li -> logical_sessions m !! j = Some k -> l_used k = true ->
    l_logical_session_id k <> l_logical_session_id l' /\ l_apple_session_id k <> l_apple_session_id l'
}.

Lemma update_core m m' ci li c c' l l' :
  registry_core m -> update_ok m m' ci li c c' l l' -> registry_core m'.
Proof.
  intros [H1 H2 H3 H4 H5 H6 H7] [Hc Hl (f & Hf & <-) (g & Hg & <-) Hn Hco Hso Hb Hcnt Hci Hli].
  constructor; rewrite ?Hf, ?Hg, ?length_alter; try done.
  - intros i d [(-> & x & Hx & ->)|[Hne Hd]]%alter_lookup; [congruence|].
    pose proof (H4 i d Hd) as Hok. unfold connection_ok in *. destruct (c_used d) eqn:Hu; [|done].
    destruct Hok as [Hid Hok]. split; [done|]. destruct (c_logical_session_bound d) eqn:Hbd; [|done].
    destruct Hok as (k & (Hk & Hku & Hkid) & Hcl). apply list_elem_of_lookup_1 in Hk as [j Hj].
    destruct (decide (j = li)) as [->|Hjne].
    + assert (k = l) as -> by congruence. destruct (Hb i d) as (Hu' & Hid' & Hcl'); try done.
      exists (g l). split; [|done]. split_and!; [|done|congruence].
      rewrite Hg. apply list_elem_of_lookup. exists li. apply alter_lookup. left. by split; [|exists l].
    + exists k. split; [|done]. split_and!; try done.
      rewrite Hg. apply list_elem_of_lookup. exists j. apply alter_lookup. by right.
  - intros i k [(-> & x & Hx & ->)|[Hne Hk]]%alter_lookup; [congruence|].
    pose proof (H5 i k Hk) as Hok. unfold session_ok in *. destruct (l_used k) eqn:Hu; [|done].
    destruct Hok as (Hr & Ha & Hct & Hm). split_and!; try done; try lia. rewrite Hct, Hf. symmetry. apply count_same.
    intros x Hx. assert (x = c) as -> by congruence. by apply (Hcnt i).
  - intros i j d e [(-> & x & Hx & ->)|[Hne Hd]]%alter_lookup [(-> & y & Hy & ->)|[Hne' He]]%alter_lookup Hu Hu' Heq.
    + done.
    + assert (x = c) as -> by congruence. by destruct (Hci Hu j e Hne' He Hu').
    + assert (y = c) as -> by congruence. by destruct (Hci Hu' i d Hne Hd Hu).
    + by apply (H6 i j d e).
  - intros i j d e [(-> & x & Hx & ->)|[Hne Hd]]%alter_lookup [(-> & y & Hy & ->)|[Hne' He]]%alter_lookup Hu Hu' Heq.
    + done.
    + assert (x = l) as -> by congruence. destruct (Hli Hu j e Hne' He Hu'). destruct Heq; congruence.
    + assert (y = l) as -> by congruence. destruct (Hli Hu' i d Hne Hd Hu). destruct Heq; congruence.
    + by apply (H7 i j d e).
Qed.

Lemma update_referenced m m' ci li c c' l l' :
  update_ok m m' ci li c c' l l' -> (forall i k, i <> li -> logical_sessions m !! i = Some k -> referenced k) ->
  referenced l' -> forall i k, logical_sessions m' !! i = Some k -> referenced k.
Proof.
  intros Hu Hr Hr' i k. destruct (up_sessions _ _ _ _ _ _ _ _ Hu) as (g & -> & Hg). pose proof (up_session _ _ _ _ _ _ _ _ Hu) as Hl.
  intros [(-> & x & Hx & ->)|[Hne Hk]]%alter_lookup; [|by apply (Hr i)]. assert (x = l) as -> by congruence. by rewrite Hg.
Qed.

(** ** New identifiers *)

(** The identifier after [id]. *)
Definition next_id (id : Z) : Z := if inc id <? FIRST_LOGICAL_ID then FIRST_LOGICAL_ID else inc id.
Definition in_use (m : AirPlaySessionManager) (id : Z) : Prop :=
  exists i l, logical_sessions m !! i = Some l /\ l_used l = true /\ l_logical_session_id l = id.

Lemma next_id_range id : FIRST_LOGICAL_ID <= id <= UINT64_MAX -> FIRST_LOGICAL_ID <= next_id id <= UINT64_MAX.
Proof. unfold next_id, inc, FIRST_LOGICAL_ID, UINT64_MAX, u64. intros H. destruct (Z.ltb_spec ((id + 1) `mod` 18446744073709551616) 9223372036854775808); lia. Qed.

Lemma find_logical_none m id : find_logical_by_id m id = None <-> ~ in_use m id.
Proof.
  unfold find_logical_by_id, in_use. split.
  - intros H (i & l & Hl & Hu & Hid). pose proof (find_entry_none _ _ H i l Hl) as Hf. cbn beta in Hf.
    rewrite Hu, (proj2 (Z.eqb_eq _ _) Hid) in Hf. done.
  - intros H. destruct (find_entry _ _) as [i|] eqn:E; [|done]. apply find_entry_some in E as (l & Hl & HP).
    apply andb_true_iff in HP as [Hu Hid%Z.eqb_eq]. destruct H. by exists i, l.
Qed.

Lemma attempts_spec n m :
  FIRST_LOGICAL_ID <= next_logical_session_id m <= UINT64_MAX ->
  exists id next, allocate_attempts n m = (id, { m with next_logical_session_id := next }) /\
    FIRST_LOGICAL_ID <= next <= UINT64_MAX /\
    ((FIRST_LOGICAL_ID <= id <= UINT64_MAX /\ ~ in_use m id) \/
     (forall k, (k < n)%nat -> in_use m (Nat.iter k next_id (next_logical_session_id m)))).
Proof.
  revert m. induction n as [|n IH]; intros m Hn; cbn [allocate_attempts].
  { exists 0, (next_logical_session_id m). split_and!; [by destruct m|lia..|]. right. lia. }
  fold (next_id (next_logical_session_id m)). set (m1 := { m with next_logical_session_id := _ }).
  rewrite (proj2 (Z.eqb_neq _ 0)) by (unfold FIRST_LOGICAL_ID in Hn; lia). cbn [negb andb].
  case_bool_decide as Hf.
  - exists (next_logical_session_id m), (next_id (next_logical_session_id m)). split; [done|]. split; [by apply next_id_range|].
    left. split; [done|]. by apply find_logical_none in Hf.
  - destruct (IH m1) as (id & next & E & Hr & Hor); [by apply next_id_range|].
    exists id, next. split; [rewrite E; done|]. split; [done|]. destruct Hor as [Hid|Hall]; [by left|right].
    intros [|k] Hk.
    + destruct (find_logical_by_id m1 (next_logical_session_id m)) as [i|] eqn:Hi; [|done].
      apply find_entry_some in Hi as (l & Hl & HP). apply andb_true_iff in HP as [Hu Hid%Z.eqb_eq]. by exists i, l.
    + rewrite Nat.iter_succ_r. apply Hall. lia.
Qed.

(** Fewer than 2^63 identifiers in a row are different. *)
Lemma iter_next_id id k :
  FIRST_LOGICAL_ID <= id <= UINT64_MAX ->
  Nat.iter k next_id id = FIRST_LOGICAL_ID + (id - FIRST_LOGICAL_ID + Z.of_nat k) `mod` FIRST_LOGICAL_ID.
Proof.
  intros Hid. induction k as [|k IH].
  - change (Nat.iter 0 next_id id) with id. unfold FIRST_LOGICAL_ID, UINT64_MAX in *. rewrite Z.mod_small by lia. lia.
  - rewrite Nat.iter_succ, IH. unfold next_id, inc, FIRST_LOGICAL_ID, u64 in *.
    destruct (Z.ltb_spec ((9223372036854775808 + (id - 9223372036854775808 + Z.of_nat k) `mod` 9223372036854775808 + 1)
      `mod` 18446744073709551616) 9223372036854775808); lia.
Qed.

(** More slots than sessions in use leave an identifier free. *)
Lemma attempts_find m :
  length (logical_sessions m) = AIRPLAY_SESSION_MAX_LOGICAL_SESSIONS ->
  FIRST_LOGICAL_ID <= next_logical_session_id m <= UINT64_MAX ->
  exists id next, allocate_logical_id m = (id, { m with next_logical_session_id := next }) /\
    FIRST_LOGICAL_ID <= next <= UINT64_MAX /\ FIRST_LOGICAL_ID <= id <= UINT64_MAX /\ ~ in_use m id.
Proof.
  intros Hlen Hn. unfold allocate_logical_id.
  destruct (attempts_spec (S AIRPLAY_SESSION_MAX_LOGICAL_SESSIONS) m Hn) as (id & next & E & Hr & [[Hid Hu]|Hall]).
  { by exists id, next. }
  exfalso. set (ids := map (fun k => Nat.iter k next_id (next_logical_session_id m)) (seq 0 9)).
  assert (Hnd : List.NoDup ids).
  { apply (NoDup_map_inv (fun z => z)). rewrite map_id. apply NoDup_ListNoDup. apply NoDup_fmap_2_strong.
    - intros x y Hx%elem_of_seq Hy%elem_of_seq. rewrite !iter_next_id by done. unfold FIRST_LOGICAL_ID. lia.
    - apply NoDup_seq. }
  assert (Hincl : List.incl ids (map l_logical_session_id (logical_sessions m))).
  { intros x Hx. apply in_map_iff in Hx as (k & <- & Hk%in_seq). destruct (Hall k ltac:(unfold AIRPLAY_SESSION_MAX_LOGICAL_SESSIONS; lia)) as (i & l & Hl & _ & Hid).
    rewrite <- Hid. apply in_map, list_elem_of_In. by eapply list_elem_of_lookup_2. }
  pose proof (NoDup_incl_length Hnd Hincl) as Hle. unfold ids in Hle. rewrite !length_map, length_seq, Hlen in Hle.
  unfold AIRPLAY_SESSION_MAX_LOGICAL_SESSIONS in Hle. lia.
Qed.

(** ** Finding entries *)

Lemma found_connection m id ci :
  find_connection m id = Some ci ->
  exists c, connections m !! ci = Some c /\ connection_at m ci = c /\ c_used c = true /\ c_connection_id c = id.
Proof.
  intros (c & Hc & HP)%find_entry_some. apply andb_true_iff in HP as [Hu Hid%Z.eqb_eq]. exists c.
  by rewrite (connection_at_lookup _ _ _ Hc).
Qed.

Lemma found_logical m id li :
  find_logical_by_id m id = Some li ->
  exists l, logical_sessions m !! li = Some l /\ logical_at m li = l /\ l_used l = true /\ l_logical_session_id l = id.
Proof.
  intros (l & Hl & HP)%find_entry_some. apply andb_true_iff in HP as [Hu Hid%Z.eqb_eq]. exists l.
  by rewrite (logical_at_lookup _ _ _ Hl).
Qed.

Lemma find_logical_at m li l :
  registry_core m -> logical_sessions m !! li = Some l -> l_used l = true ->
  find_logical_by_id m (l_logical_session_id l) = Some li.
Proof.
  intros Hm Hl Hu. unfold find_logical_by_id. apply (find_entry_unique _ _ li l Hl).
  - by rewrite Hu, Z.eqb_refl.
  - intros j k Hk [Hku Hid%Z.eqb_eq]%andb_true_iff. apply (ok_session_ids m Hm j li k l); auto.
Qed.

(** The session of a bound connection. *)
Lemma bound_session m ci c :
  registry_core m -> connections m !! ci = Some c -> c_used c = true -> c_logical_session_bound c = true ->
  exists li l, find_logical_by_id m (c_logical_session_id c) = Some li /\ logical_sessions m !! li = Some l /\
    l_used l = true /\ l_logical_session_id l = c_logical_session_id c /\ 0 < l_connection_count l /\
    (c_client_id_bound c = true -> l_client_id_bound l = true /\ l_client_id l = c_client_id c).
Proof.
  intros Hm Hc Hu Hb. pose proof (ok_connections m Hm ci c Hc) as Hok. unfold connection_ok in Hok. rewrite Hu, Hb in Hok.
  destruct Hok as (_ & l & (Hl & Hlu & Hid) & Hcl). apply list_elem_of_lookup_1 in Hl as [li Hl].
  exists li, l. rewrite <- Hid. split_and!; try done; [by apply find_logical_at|].
  pose proof (ok_sessions m Hm li l Hl) as Hs. unfold session_ok in Hs. rewrite Hlu in Hs. destruct Hs as (_ & _ & -> & _).
  apply count_pos. exists ci, c. split; [done|]. unfold bound_to. by rewrite Hu, Hb, Hid, Z.eqb_refl.
Qed.

Lemma first_connection m : registry_core m -> exists c, connections m !! 0%nat = Some c.
Proof. intros Hm. apply lookup_lt_is_Some. rewrite (ok_connection_slots m Hm). unfold AIRPLAY_SESSION_MAX_CONNECTIONS. lia. Qed.

(** *** Changes of a session alone *)

Record keeps_session (l l' : AirPlayLogicalSessionEntry) : Prop := {
  keeps_used : l_used l' = true;
  keeps_id : l_logical_session_id l' = l_logical_session_id l;
  keeps_apple : l_apple_session_id l' = l_apple_session_id l;
  keeps_count : l_connection_count l' = l_connection_count l;
  keeps_client : l_client_id_bound l = true -> l_client_id_bound l' = true /\ l_client_id l' = l_client_id l
}.

Lemma session_update_ok m li g l c0 :
  registry_core m -> connections m !! 0%nat = Some c0 -> logical_sessions m !! li = Some l -> l_used l = true ->
  keeps_session l (g l) -> 0 <= l_media_reference_count (g l) <= UINT32_MAX ->
  update_ok m (set_logical m li g) 0 li c0 c0 l (g l).
Proof.
  intros Hm Hc Hl Hu [K1 K2 K3 K4 K5] Hmed. pose proof (ok_sessions m Hm li l Hl) as Hs. unfold session_ok in Hs.
  rewrite Hu in Hs. destruct Hs as (Hr & Ha & Hct & _). constructor; try done.
  - exists id. by rewrite alter_id.
  - by exists g.
  - apply (ok_next m Hm).
  - pose proof (ok_connections m Hm 0%nat c0 Hc) as Hok. unfold connection_ok in *. destruct (c_used c0); [|done].
    destruct Hok as [Hid Hok]. split; [done|]. destruct (c_logical_session_bound c0); [|done].
    destruct Hok as (k & (Hk & Hku & Hkid) & Hcl). apply list_elem_of_lookup_1 in Hk as [j Hj].
    destruct (decide (j = li)) as [->|Hne].
    + assert (k = l) as -> by congruence. exists (g l). split; [split_and!|]; try congruence.
      * apply list_elem_of_lookup. exists li. apply alter_lookup. left. split; [done|]. by exists l.
      * intros Hb. destruct (Hcl Hb) as [Hb1 Hb2]. destruct (K5 Hb1). split; congruence.
    + exists k. split; [|done]. split_and!; try done. apply list_elem_of_lookup. exists j. apply alter_lookup. by right.
  - unfold session_ok. rewrite K1, K2, K3, K4. exact (conj Hr (conj Ha (conj Hct Hmed))).
  - intros j d _ Hd Hdu Hdb _ Hid. split_and!; try done. intros Hb.
    destruct (bound_session m j d Hm Hd Hdu Hdb) as (lj & k & Hf & Hk & Hku & Hkid & _ & Hkc).
    destruct (Hkc Hb) as [Hk1 Hk2]. rewrite <- Hid, (find_logical_at m li l) in Hf by done. injection Hf as <-.
    assert (k = l) as -> by congruence. destruct (K5 Hk1). split; congruence.
  - intros Hcu j d Hj Hd Hdu Heq. apply Hj. by apply (ok_connection_ids m Hm j 0%nat d c0).
  - intros _ j k Hj Hk Hku. rewrite K2, K3. split; intros Heq; apply Hj; apply (ok_session_ids m Hm j li k l); auto.
Qed.

Lemma session_update_registry m li g l :
  registry_ok m -> logical_sessions m !! li = Some l -> l_used l = true ->
  keeps_session l (g l) -> 0 <= l_media_reference_count (g l) <= UINT32_MAX -> referenced (g l) ->
  registry_ok (set_logical m li g).
Proof.
  intros [Hm Hr] Hl Hu Hk Hmed Href. destruct (first_connection m Hm) as [c0 Hc].
  pose proof (session_update_ok m li g l c0 Hm Hc Hl Hu Hk Hmed) as Hup. split; [by eapply update_core|].
  eapply update_referenced; [exact Hup| |done]. intros i k _. apply Hr.
Qed.

(** *** Changes of a connection alone *)

Lemma first_session m : registry_core m -> exists l, logical_sessions m !! 0%nat = Some l.
Proof. intros Hm. apply lookup_lt_is_Some. rewrite (ok_session_slots m Hm). unfold AIRPLAY_SESSION_MAX_LOGICAL_SESSIONS. lia. Qed.

Lemma bound_session_at m ci c li l :
  registry_core m -> connections m !! ci = Some c -> c_used c = true -> c_logical_session_bound c = true ->
  logical_sessions m !! li = Some l -> l_used l = true -> l_logical_session_id l = c_logical_session_id c ->
  0 < l_connection_count l /\
  (c_client_id_bound c = true -> l_client_id_bound l = true /\ l_client_id l = c_client_id c).
Proof.
  intros Hm Hc Hu Hb Hl Hlu Hid. destruct (bound_session m ci c Hm Hc Hu Hb) as (lj & k & Hf & Hk & Hku & Hkid & H1 & H2).
  rewrite <- Hid, (find_logical_at m li l) in Hf by done. injection Hf as <-. by assert (k = l) as -> by congruence.
Qed.

Definition fresh_connection (m : AirPlaySessionManager) (id : Z) : Prop :=
  forall j d, connections m !! j = Some d -> c_used d = true -> c_connection_id d <> id.

Lemma connection_update_registry m ci f c :
  registry_ok m -> connections m !! ci = Some c ->
  connection_ok m (f c) -> (forall id, bound_to id (f c) = bound_to id c) ->
  (c_used (f c) = true -> c_used c = true /\ c_connection_id (f c) = c_connection_id c \/ fresh_connection m (c_connection_id (f c))) ->
  registry_ok (set_connection m ci f).
Proof.
  intros [Hm Hr] Hc Hok Hb Hid. destruct (first_session m Hm) as [l0 Hl]. pose proof (ok_sessions m Hm 0%nat l0 Hl) as Hs.
  assert (Hup : update_ok m (set_connection m ci f) ci 0 c (f c) l0 l0).
  { constructor; try done.
    - by exists f.
    - exists id. by rewrite alter_id.
    - apply (ok_next m Hm).
    - unfold session_ok in *. destruct (l_used l0); [|done]. destruct Hs as (H1 & H2 & H3 & H4).
      split; [done|split; [done|split; [|done]]]. rewrite H3. symmetry. apply count_same. intros x Hx. by assert (x = c) as -> by congruence.
    - intros j d _ Hd Hdu Hdb Hlu Hlid. split_and!; try done.
      by apply (bound_session_at m j d 0%nat l0).
    - intros Hu j d Hj Hd Hdu Heq. destruct (Hid Hu) as [[Hcu Heq']|Hfresh]; [|by apply (Hfresh j d)].
      apply Hj. apply (ok_connection_ids m Hm j ci d c); try done. congruence.
    - intros Hu j k Hj Hk Hku. split; intros Heq; apply Hj; apply (ok_session_ids m Hm j 0%nat k l0); auto. }
  split; [by eapply update_core|]. eapply update_referenced; [exact Hup| |by apply (Hr 0%nat)]. intros i k _. apply Hr.
Qed.

(** ** The operations keep the invariant *)

Lemma session_facts m li l :
  registry_core m -> logical_sessions m !! li = Some l -> l_used l = true ->
  FIRST_LOGICAL_ID <= l_logical_session_id l <= UINT64_MAX /\ valid_apple_session_id (l_apple_session_id l) = true /\
  l_connection_count l = count (bound_to (l_logical_session_id l)) (connections m) /\
  0 <= l_media_reference_count l <= UINT32_MAX /\ 0 <= l_connection_count l <= 8.
Proof.
  intros Hm Hl Hu. pose proof (ok_sessions m Hm li l Hl) as Hs. unfold session_ok in Hs. rewrite Hu in Hs.
  destruct Hs as (H1 & H2 & H3 & H4). split; [done|split; [done|split; [done|split; [done|]]]].
  pose proof (count_bounds (bound_to (l_logical_session_id l)) (connections m)). unfold size in H.
  rewrite (ok_connection_slots m Hm) in H. unfold AIRPLAY_SESSION_MAX_CONNECTIONS in H. lia.
Qed.

Lemma retain_ok m id : registry_ok m -> registry_ok (airplay_session_manager_retain_media m id).2.
Proof.
  intros Hm. unfold airplay_session_manager_retain_media. destruct (id =? 0); [done|].
  destruct (find_logical_by_id m id) as [li|] eqn:Hf; [|done]. apply found_logical in Hf as (l & Hl & -> & Hu & Hid).
  destruct (session_facts m li l (proj1 Hm) Hl Hu) as (_ & _ & _ & H4 & H5).
  destruct (Z.ltb_spec (l_media_reference_count l) UINT32_MAX) as [Hlt|]; [|done]. cbn [snd].
  apply (session_update_registry m li _ l Hm Hl Hu).
  - by constructor.
  - cbn. lia.
  - intros _. right. cbn. lia.
Qed.

Lemma matching_session_some client l index matching li :
  matching_session client l index matching = Some (Some li) ->
  matching = Some li \/ exists k x, l !! k = Some x /\ li = (index + k)%nat /\ client_media client x = true.
Proof.
  revert index matching. induction l as [|x l IH]; intros index matching H; cbn [matching_session] in H.
  - left. congruence.
  - destruct (client_media client x) eqn:Hx.
    + destruct matching; [done|]. apply IH in H as [[= <-]|(k & y & Hk & -> & Hy)].
      * right. exists 0%nat, x. split_and!; (done || lia).
      * right. exists (S k), y. split_and!; (done || lia).
    + apply IH in H as [->|(k & y & Hk & -> & Hy)]; [by left|]. right. exists (S k), y. split_and!; (done || lia).
Qed.

(** The entry that is marked. *)
Lemma marked_session m client li :
  matching_session client (logical_sessions m) 0 None = Some (Some li) ->
  exists l, logical_sessions m !! li = Some l /\ logical_at m li = l /\ l_used l = true /\ l_client_id_bound l = true /\
    l_media_reference_count l <> 0 /\ l_client_id l = client.
Proof.
  intros H. apply matching_session_some in H as [?|(k & l & Hl & -> & HP)]; [done|]. exists l.
  cbn [Nat.add]. rewrite (logical_at_lookup m _ l Hl). unfold client_media in HP. bool_cases.
  repeat match goal with H : negb _ = false |- _ => apply negb_false_iff in H end.
  split_and!; try done.
  - by apply Z.eqb_neq.
  - match goal with H : bool_decide _ = true |- _ => by apply bool_decide_eq_true in H end.
Qed.

Lemma mark_ok m cid : registry_ok m -> registry_ok (airplay_session_manager_mark_transport_teardown m cid).2.
Proof.
  intros Hm. unfold airplay_session_manager_mark_transport_teardown. destruct (cid =? 0); [done|].
  destruct (find_connection m cid) as [ci|]; [|done]. destruct (_ || _); [done|].
  destruct (matching_session _ _ _ _) as [[li|]|] eqn:Hmt; [|done..]. apply marked_session in Hmt as (l & Hl & -> & Hu & _ & Hmd & _).
  destruct (session_facts m li l (proj1 Hm) Hl Hu) as (_ & _ & _ & H4 & H5). cbn [snd].
  apply (session_update_registry m li _ l Hm Hl Hu); [by constructor|done|]. intros _. right. cbn. lia.
Qed.

(** A session that goes has no connection. *)
Lemma free_session_ok m li g l :
  registry_ok m -> logical_sessions m !! li = Some l -> l_used l = true -> l_connection_count l = 0 ->
  g l = zero_logical -> registry_ok (set_logical m li g).
Proof.
  intros [Hm Hr] Hl Hu Hct Hg. destruct (first_connection m Hm) as [c0 Hc].
  assert (Hnone : forall j d, connections m !! j = Some d -> c_used d = true -> c_logical_session_bound d = true ->
    l_logical_session_id l <> c_logical_session_id d).
  { intros j d Hd Hdu Hdb Hid. destruct (bound_session_at m j d li l Hm Hd Hdu Hdb Hl Hu Hid). lia. }
  assert (Hup : update_ok m (set_logical m li g) 0 li c0 c0 l zero_logical).
  { constructor; try done.
    - exists id. by rewrite alter_id.
    - by exists g.
    - apply (ok_next m Hm).
    - pose proof (ok_connections m Hm 0%nat c0 Hc) as Hok. unfold connection_ok in *. destruct (c_used c0) eqn:Hcu; [|done].
      destruct Hok as [Hid Hok]. split; [done|]. destruct (c_logical_session_bound c0) eqn:Hcb; [|done].
      destruct Hok as (k & (Hk & Hku & Hkid) & Hcl). apply list_elem_of_lookup_1 in Hk as [j Hj]. exists k. split; [|done].
      split_and!; try done. apply list_elem_of_lookup. exists j. apply alter_lookup. right. split; [|done].
      intros ->. assert (k = l) as -> by congruence. by apply (Hnone 0%nat c0).
    - intros j d _ Hd Hdu Hdb _ Hid. by destruct (Hnone j d).
    - intros Hcu j d Hj Hd Hdu Heq. apply Hj. by apply (ok_connection_ids m Hm j 0%nat d c0). }
  split; [by eapply update_core|]. eapply update_referenced; [exact Hup| |done]. intros i k _. apply Hr.
Qed.

Lemma release_ok m id : registry_ok m -> registry_ok (airplay_session_manager_release_media m id).2.
Proof.
  intros Hm. unfold airplay_session_manager_release_media. destruct (id =? 0); [done|].
  destruct (find_logical_by_id m id) as [li|] eqn:Hf; [|done]. apply found_logical in Hf as (l & Hl & -> & Hu & Hid).
  destruct (session_facts m li l (proj1 Hm) Hl Hu) as (_ & _ & _ & H4 & H5).
  destruct (Z.ltb_spec 0 (l_media_reference_count l)) as [Hlt|]; [|done]. cbn [snd].
  set (g := fun l => release_logical_if_unreferenced _).
  assert (Hg : g l = if (l_connection_count l =? 0) && (Z.pred (l_media_reference_count l) =? 0) then zero_logical
    else { l with l_media_reference_count ::= Z.pred }) by done.
  destruct (Z.eqb_spec (l_connection_count l) 0) as [Hc|Hc]; [destruct (Z.eqb_spec (Z.pred (l_media_reference_count l)) 0) as [Hmd|Hmd]|];
    cbn [andb] in Hg.
  - by apply (free_session_ok m li g l).
  - apply (session_update_registry m li g l Hm Hl Hu); rewrite Hg; [by constructor|cbn; lia|]. intros _. right. cbn. lia.
  - apply (session_update_registry m li g l Hm Hl Hu); rewrite Hg; [by constructor|cbn; lia|]. intros _. left. cbn. lia.
Qed.

(** *** Closing *)

Lemma connection_zero_ok m : connection_ok m zero_connection.
Proof. done. Qed.

(** A connection leaves its session. *)
Lemma leave_update_ok m m' ci li c l l' :
  registry_ok m -> connections m !! ci = Some c -> c_used c = true -> c_logical_session_bound c = true ->
  logical_sessions m !! li = Some l -> l_used l = true -> l_logical_session_id l = c_logical_session_id c ->
  connections m' = alter (fun _ => zero_connection) ci (connections m) ->
  (exists g, logical_sessions m' = alter g li (logical_sessions m) /\ g l = l') ->
  next_logical_session_id m' = next_logical_session_id m ->
  (l_connection_count l = 1 /\ l_media_reference_count l = 0 /\ l' = zero_logical \/
   (l_connection_count l <> 1 \/ l_media_reference_count l <> 0) /\ l' = { l with l_connection_count ::= Z.pred }) ->
  registry_ok m'.
Proof.
  intros [Hm Hr] Hc Hcu Hcb Hl Hlu Hid Hcs Hls Hn Hl'.
  destruct (session_facts m li l Hm Hl Hlu) as (H1 & H2 & H3 & H4 & H5).
  destruct (bound_session_at m ci c li l Hm Hc Hcu Hcb Hl Hlu Hid) as [Hpos _].
  assert (Hct : count (bound_to (l_logical_session_id l)) (connections m') = l_connection_count l - 1).
  { rewrite Hcs, (count_alter _ _ _ _ c Hc), <- H3. unfold bound_to. rewrite Hcu, Hcb, Hid, Z.eqb_refl. cbn. lia. }
  assert (Hup : update_ok m m' ci li c zero_connection l l').
  { constructor; try done.
    - by exists (fun _ => zero_connection).
    - rewrite Hn. apply (ok_next m Hm).
    - destruct Hl' as [(_ & _ & ->)|[_ ->]]; [done|]. unfold session_ok. cbn. rewrite Hlu, Hct.
      split; [done|split; [done|split; [lia|done]]].
    - intros j d Hj Hd Hdu Hdb _ Hlid. destruct Hl' as [(Hone & _ & _)|[_ ->]].
      + exfalso. assert (0 < count (bound_to (l_logical_session_id l)) (connections m')); [|lia]. apply count_pos.
        exists j, d. split; [rewrite Hcs; apply alter_lookup; by right|]. unfold bound_to. by rewrite Hdu, Hdb, Hlid, Z.eqb_refl.
      + split; [done|split; [done|]]. cbn. by apply (bound_session_at m j d li l).
    - intros j k Hj Hk Hku. unfold bound_to at 1. cbn [zero_connection c_used andb]. unfold bound_to. rewrite Hcu, Hcb.
      cbn [andb]. symmetry. apply Z.eqb_neq. intros Heq. apply Hj. apply (ok_session_ids m Hm j li k l); auto. left. congruence.
    - intros Hu j k Hj Hk Hku. destruct Hl' as [(_ & _ & ->)|[_ ->]]; [done|]. cbn.
      split; intros Heq; apply Hj; apply (ok_session_ids m Hm j li k l); auto. }
  split; [by eapply update_core|]. eapply update_referenced; [exact Hup|intros i k _; apply Hr|].
  destruct Hl' as [(_ & _ & ->)|[Hor ->]]; [done|]. intros _. cbn. lia.
Qed.

Lemma manager_eq m m' : connections m = connections m' -> logical_sessions m = logical_sessions m' ->
  next_logical_session_id m = next_logical_session_id m' -> m = m'.
Proof. destruct m, m'. cbn. by intros -> -> ->. Qed.

Lemma set_logical_twice m li f g : set_logical (set_logical m li f) li g = set_logical m li (fun l => g (f l)).
Proof. apply manager_eq; [done| |done]. apply alter_alter. Qed.

(** What a close does, given the session of the connection. *)
Lemma close_bound m ci li c l cid :
  registry_core m -> cid <> 0 -> find_connection m cid = Some ci -> connections m !! ci = Some c ->
  c_logical_session_bound c = true -> find_logical_by_id m (c_logical_session_id c) = Some li ->
  logical_sessions m !! li = Some l -> l_logical_session_id l = c_logical_session_id c -> 0 < l_connection_count l ->
  let last := l_connection_count l =? 1 in
  airplay_session_manager_close m cid =
    (Some (mkCloseResult cid (c_logical_session_id c) true last
       (if last && l_transport_terminated l && (0 <? l_media_reference_count l) then c_logical_session_id c else 0)),
     set_connection (set_logical m li (fun l =>
       let l := { l with l_connection_count ::= Z.pred } in if last then release_logical_if_unreferenced l else l))
       ci (fun _ => zero_connection)).
Proof.
  intros Hm Hcid Hf Hc Hb Hfl Hl Hid Hpos last. unfold airplay_session_manager_close.
  rewrite (proj2 (Z.eqb_neq cid 0) Hcid), Hf, (connection_at_lookup m ci c Hc), Hb, Hfl, (logical_at_lookup m li l Hl).
  rewrite (proj2 (Z.ltb_lt 0 _) Hpos). cbv zeta.
  assert (Hat : logical_at (set_logical m li (fun l => { l with l_connection_count ::= Z.pred })) li =
    { l with l_connection_count ::= Z.pred }).
  { apply logical_at_lookup. apply alter_lookup. left. split; [done|]. by exists l. }
  rewrite Hat. change (l_connection_count { l with l_connection_count ::= Z.pred }) with (Z.pred (l_connection_count l)).
  replace (Z.pred (l_connection_count l) =? 0) with last.
  2: { unfold last. destruct (Z.eqb_spec (l_connection_count l) 1), (Z.eqb_spec (Z.pred (l_connection_count l)) 0); (done || lia). }
  destruct last; cbn [andb].
  - change (l_transport_terminated { l with l_connection_count ::= Z.pred }) with (l_transport_terminated l).
    change (l_media_reference_count { l with l_connection_count ::= Z.pred }) with (l_media_reference_count l).
    change (l_logical_session_id { l with l_connection_count ::= Z.pred }) with (l_logical_session_id l). rewrite Hid.
    by rewrite set_logical_twice.
  - done.
Qed.

Lemma close_ok m cid : registry_ok m -> registry_ok (airplay_session_manager_close m cid).2.
Proof.
  intros Hm. destruct (Z.eqb_spec cid 0) as [->|Hcid]; [done|].
  destruct (find_connection m cid) as [ci|] eqn:Hf.
  2: { unfold airplay_session_manager_close. by rewrite (proj2 (Z.eqb_neq cid 0) Hcid), Hf. }
  destruct (found_connection m cid ci Hf) as (c & Hc & Hat & Hcu & Hci). destruct (c_logical_session_bound c) eqn:Hb.
  - destruct (bound_session m ci c (proj1 Hm) Hc Hcu Hb) as (li & l & Hfl & Hl & Hlu & Hlid & Hpos & _).
    rewrite (close_bound m ci li c l cid (proj1 Hm)) by done. cbn [snd].
    apply (leave_update_ok m _ ci li c l (let l := { l with l_connection_count ::= Z.pred } in
      if l_connection_count l =? 0 then release_logical_if_unreferenced l else l)); try done.
    + eexists. split; [done|]. cbv beta zeta.
      change (l_connection_count { l with l_connection_count ::= Z.pred }) with (Z.pred (l_connection_count l)).
      replace (Z.pred (l_connection_count l) =? 0) with (l_connection_count l =? 1); [done|].
      destruct (Z.eqb_spec (l_connection_count l) 1), (Z.eqb_spec (Z.pred (l_connection_count l)) 0); (done || lia).
    + cbv zeta. unfold release_logical_if_unreferenced.
      change (l_connection_count { l with l_connection_count ::= Z.pred }) with (Z.pred (l_connection_count l)).
      change (l_media_reference_count { l with l_connection_count ::= Z.pred }) with (l_media_reference_count l).
      destruct (Z.eqb_spec (Z.pred (l_connection_count l)) 0), (Z.eqb_spec (l_media_reference_count l) 0); cbn [andb];
        [left|right..]; (split; [lia|]); [split; [lia|]|..]; done.
  - unfold airplay_session_manager_close. rewrite (proj2 (Z.eqb_neq cid 0) Hcid), Hf, Hat, Hb. cbn [snd].
    apply (connection_update_registry m ci _ c Hm Hc); try done. intros id. unfold bound_to. rewrite Hb. by destruct (c_used c).
Qed.

(** *** Clients *)

Lemma bind_client_ok m cid client : registry_ok m -> registry_ok (airplay_session_manager_bind_client m cid client).2.
Proof.
  intros Hm. unfold airplay_session_manager_bind_client. destruct (cid =? 0); [done|].
  destruct (find_connection m cid) as [ci|] eqn:Hf; [|done].
  destruct (found_connection m cid ci Hf) as (c & Hc & -> & Hcu & Hci). destruct (_ && negb _) eqn:Hconf; [done|]. cbv zeta.
  set (f := fun c => { c with c_client_id := client; c_client_id_bound := true }).
  pose proof (ok_connections m (proj1 Hm) ci c Hc) as Hcok. unfold connection_ok in Hcok. rewrite Hcu in Hcok.
  destruct (c_logical_session_bound c) eqn:Hb; cycle 1.
  { cbn [snd]. apply (connection_update_registry m ci f c Hm Hc); [|done|by left].
    unfold connection_ok. cbn. by rewrite Hcu, Hb. }
  destruct (bound_session m ci c (proj1 Hm) Hc Hcu Hb) as (li & l & -> & Hl & Hlu & Hlid & Hpos & Hcl).
  rewrite (logical_at_lookup m li l Hl). destruct (l_client_id_bound l && _) eqn:Hlconf; [done|]. cbn [snd].
  set (g := fun l => if negb (l_client_id_bound l) then { l with l_client_id := client; l_client_id_bound := true } else l).
  assert (Hg : l_used (g l) = true /\ l_logical_session_id (g l) = l_logical_session_id l /\
    l_apple_session_id (g l) = l_apple_session_id l /\ l_connection_count (g l) = l_connection_count l /\
    l_media_reference_count (g l) = l_media_reference_count l /\ l_client_id_bound (g l) = true /\ l_client_id (g l) = client /\
    (l_client_id_bound l = true -> l_client_id l = client)).
  { unfold g. destruct (l_client_id_bound l) eqn:Hlb; cbn; [|by rewrite Hlu].
    apply negb_false_iff, bool_decide_eq_true in Hlconf. by rewrite Hlb. }
  destruct Hg as (G1 & G2 & G3 & G4 & G5 & G6 & G7 & G8).
  destruct (session_facts m li l (proj1 Hm) Hl Hlu) as (H1 & H2 & H3 & H4 & H5).
  set (m' := if negb (l_client_id_bound l) then _ else _).
  assert (Hcs : connections m' = alter f ci (connections m)) by (unfold m'; by destruct (l_client_id_bound l)).
  assert (Hls : exists g', logical_sessions m' = alter g' li (logical_sessions m) /\ g' l = g l).
  { unfold m', g. destruct (l_client_id_bound l); [|by eexists]. exists id. by rewrite alter_id. }
  assert (Hup : update_ok m m' ci li c (f c) l (g l)).
  { constructor; try done.
    - by exists f.
    - unfold m'. destruct (l_client_id_bound l); apply (ok_next m (proj1 Hm)).
    - unfold connection_ok. cbn. rewrite Hcu, Hb. destruct Hcok as [Hid0 _]. split; [done|]. exists (g l). split; [|done].
      split_and!; [|done|by rewrite G2]. destruct Hls as (g' & -> & <-). by apply in_altered.
    - unfold session_ok. rewrite G1, G2, G3, G4, G5, Hcs, H3. split; [done|split; [done|split; [|done]]].
      symmetry. apply count_same. intros x Hx. by assert (x = c) as -> by congruence.
    - intros j d Hj Hd Hdu Hdb _ Hid. split; [done|split; [done|]]. intros Hdc.
      destruct (bound_session_at m j d li l (proj1 Hm) Hd Hdu Hdb Hl Hlu Hid) as [_ Hx]. destruct (Hx Hdc) as [Hx1 Hx2].
      split; [done|]. rewrite G7, <- Hx2. symmetry. by apply G8.
    - intros _ j d Hj Hd Hdu Heq. apply Hj. by apply (ok_connection_ids m (proj1 Hm) j ci d c).
    - intros _ j k Hj Hk Hku. rewrite G2, G3. split; intros Heq; apply Hj; apply (ok_session_ids m (proj1 Hm) j li k l); auto. }
  split; [eapply update_core; [apply Hm|exact Hup]|]. eapply update_referenced; [exact Hup|intros i k _; apply Hm|].
  intros _. rewrite G4. by left.
Qed.

(** *** Joining a session *)

(** The entry a connection joins: of its Apple session, or a free one. *)
Definition joinable (m : AirPlaySessionManager) (li : nat) (l : AirPlayLogicalSessionEntry) (apple : cstring) : Prop :=
  logical_sessions m !! li = Some l /\
  (l_used l = true /\ l_apple_session_id l = apple \/
   l = zero_logical /\ forall j k, logical_sessions m !! j = Some k -> l_used k = true -> l_apple_session_id k <> apple).

(** The registry after a bind. *)
Definition join_connection (id : Z) (c : AirPlayConnectionEntry) : AirPlayConnectionEntry :=
  { c with c_logical_session_id := id; c_logical_session_bound := true }.
Definition join_logical (c : AirPlayConnectionEntry) (l : AirPlayLogicalSessionEntry) : AirPlayLogicalSessionEntry :=
  let l' := { l with l_connection_count ::= inc32 } in
  if c_client_id_bound c && negb (l_client_id_bound l) then
    { l' with l_client_id := c_client_id c; l_client_id_bound := true } else l'.

Lemma bind_unbound m ci li c l :
  connections m !! ci = Some c -> c_logical_session_bound c = false -> logical_sessions m !! li = Some l ->
  exists g, bind_connection m ci li =
      mkManager (alter (join_connection (l_logical_session_id l)) ci (connections m)) (alter g li (logical_sessions m))
        (next_logical_session_id m) /\ g l = join_logical c l.
Proof.
  intros Hc Hb Hl. unfold bind_connection, join_logical.
  rewrite (connection_at_lookup m ci c Hc), (logical_at_lookup m li l Hl), Hb. cbn [andb]. cbv zeta.
  destruct (c_client_id_bound c && negb (l_client_id_bound l)).
  - rewrite set_logical_twice. eexists. split; [by apply manager_eq|done].
  - eexists. split; [by apply manager_eq|done].
Qed.

(** The session that is joined: an old one, or a new one with a fresh identifier. *)
Definition session_base (m : AirPlaySessionManager) (li : nat) (l l0 : AirPlayLogicalSessionEntry) (apple : cstring) : Prop :=
  l_used l0 = true /\ l_apple_session_id l0 = apple /\
  (l_used l = true /\ l0 = l \/
   l = zero_logical /\ FIRST_LOGICAL_ID <= l_logical_session_id l0 <= UINT64_MAX /\ ~ in_use m (l_logical_session_id l0) /\
   l_connection_count l0 = 0 /\ l_media_reference_count l0 = 0 /\ l_client_id_bound l0 = false).

Lemma unused_count m id :
  registry_core m -> ~ in_use m id -> count (bound_to id) (connections m) = 0.
Proof.
  intros Hm Hn. pose proof (count_bounds (bound_to id) (connections m)).
  destruct (decide (0 < count (bound_to id) (connections m))) as [Hp|]; [|lia]. exfalso. apply Hn.
  apply count_pos in Hp as (i & c & Hc & HP). unfold bound_to in HP. bool_cases.
  match goal with H : (_ =? id) = true |- _ => apply Z.eqb_eq in H as Hid end.
  destruct (bound_session m i c Hm Hc) as (li & l & _ & Hl & Hu & Hlid & _); [done..|]. exists li, l. split_and!; try done. congruence.
Qed.

Lemma join_update_ok m m' ci li c l l0 apple :
  registry_ok m -> connections m !! ci = Some c -> c_used c = true -> c_logical_session_bound c = false ->
  joinable m li l apple -> valid_apple_session_id apple = true -> session_base m li l l0 apple ->
  (c_client_id_bound c = true -> l_client_id_bound l0 = true -> c_client_id c = l_client_id l0) ->
  connections m' = alter (join_connection (l_logical_session_id l0)) ci (connections m) ->
  (exists g, logical_sessions m' = alter g li (logical_sessions m) /\ g l = join_logical c l0) ->
  FIRST_LOGICAL_ID <= next_logical_session_id m' <= UINT64_MAX ->
  update_ok m m' ci li c (join_connection (l_logical_session_id l0) c) l (join_logical c l0).
Proof.
  intros [Hm Hr] Hc Hcu Hcb [Hl Hj] Hv (Hu0 & Ha0 & Hbase) Hcl Hcs Hls Hn.
  pose proof (ok_connections m Hm ci c Hc) as Hcok. unfold connection_ok in Hcok. rewrite Hcu in Hcok. destruct Hcok as [Hid0 _].
  assert (HJ : l_used (join_logical c l0) = true /\ l_logical_session_id (join_logical c l0) = l_logical_session_id l0 /\
    l_apple_session_id (join_logical c l0) = apple /\ l_connection_count (join_logical c l0) = inc32 (l_connection_count l0) /\
    l_media_reference_count (join_logical c l0) = l_media_reference_count l0 /\
    (l_client_id_bound l0 = true -> l_client_id_bound (join_logical c l0) = true /\ l_client_id (join_logical c l0) = l_client_id l0) /\
    (c_client_id_bound c = true -> l_client_id_bound (join_logical c l0) = true /\ l_client_id (join_logical c l0) = c_client_id c)).
  { unfold join_logical. destruct (c_client_id_bound c) eqn:E1, (l_client_id_bound l0) eqn:E2; cbn;
      rewrite ?Hu0, ?E2; split_and!; try done; intros; split_and!; try done. symmetry. by apply Hcl. }
  destruct HJ as (J1 & J2 & J3 & J4 & J5 & J6 & J7).
  assert (Hnot : forall id, bound_to id c = false) by (intros id; unfold bound_to; rewrite Hcb; by destruct (c_used c)).
  assert (Hdist : forall j k, j <> li -> logical_sessions m !! j = Some k -> l_used k = true ->
    l_logical_session_id k <> l_logical_session_id l0 /\ l_apple_session_id k <> apple).
  { intros j k Hji Hk Hku. destruct Hbase as [[Hlu ->]|(-> & _ & Hniu & _)].
    - rewrite <- Ha0. split; intros Heq; apply Hji; apply (ok_session_ids m Hm j li k l); auto.
    - split; [intros Heq; apply Hniu; by exists j, k|]. destruct Hj as [[? _]|[_ Hj]]; [done|]. by apply (Hj j). }
  constructor; try done.
  - by eexists.
  - unfold connection_ok. cbn. rewrite Hcu. split; [done|]. exists (join_logical c l0). split; [|done].
    split_and!; [|done|done]. destruct Hls as (g & -> & <-). by apply in_altered.
  - unfold session_ok. rewrite J1, J2, J3, J4, J5, Hcs, (count_alter _ _ _ _ c Hc), Hnot.
    unfold bound_to. cbn. rewrite Hcu, Z.eqb_refl. cbn. fold (bound_to (l_logical_session_id l0)).
    destruct Hbase as [[Hlu ->]|(-> & Hr0 & Hniu & H0 & Hm0 & _)].
    + destruct (session_facts m li l Hm Hl Hlu) as (F1 & F2 & F3 & F4 & F5).
      split; [done|split; [done|split; [|done]]]. rewrite <- F3. unfold inc32. rewrite u32_id by (unfold is_u32, UINT32_MAX; lia). lia.
    + rewrite H0, Hm0, (unused_count m _ Hm Hniu). split; [done|split; [done|split; [done|done]]].
  - intros j d Hji Hd Hdu Hdb Hlu Hid. split; [done|]. destruct Hbase as [[_ ->]|(-> & _)]; [|done].
    split; [done|]. intros Hdc. destruct (bound_session_at m j d li l Hm Hd Hdu Hdb Hl Hlu Hid) as [_ Hx].
    destruct (Hx Hdc) as [Hx1 Hx2]. destruct (J6 Hx1) as [-> ->]. done.
  - intros j k Hji Hk Hku. rewrite Hnot. unfold bound_to. cbn. rewrite Hcu. cbn. apply Z.eqb_neq. intros Heq.
    by destruct (Hdist j k Hji Hk Hku).
  - intros _ j d Hji Hd Hdu Heq. apply Hji. by apply (ok_connection_ids m Hm j ci d c).
  - intros _ j k Hji Hk Hku. rewrite J2, J3. by apply (Hdist j k).
Qed.

Definition compatible (c : AirPlayConnectionEntry) (l : AirPlayLogicalSessionEntry) : bool :=
  negb (c_client_id_bound c && l_client_id_bound l && negb (bool_decide (c_client_id c = l_client_id l))).

Lemma compatible_spec c l : compatible c l = true ->
  c_client_id_bound c = true -> l_client_id_bound l = true -> c_client_id c = l_client_id l.
Proof.
  unfold compatible. intros H H1 H2. rewrite H1, H2 in H. cbn in H. rewrite negb_involutive in H. by apply bool_decide_eq_true in H.
Qed.

Lemma in_use_same m m' id :
  (forall i, l_used (logical_at m i) = l_used (logical_at m' i) /\ l_logical_session_id (logical_at m i) = l_logical_session_id (logical_at m' i)) ->
  (forall i, is_Some (logical_sessions m !! i) <-> is_Some (logical_sessions m' !! i)) ->
  in_use m' id -> in_use m id.
Proof.
  intros H1 H2 (i & l & Hl & Hu & Hid). destruct (proj2 (H2 i)) as [k Hk]; [by eexists|]. exists i, k.
  pose proof (H1 i) as H. rewrite (logical_at_lookup m i k Hk), (logical_at_lookup m' i l Hl) in H. destruct H. split_and!; congruence.
Qed.

Lemma join_session_spec m ci li c l new_connection apple :
  registry_ok m -> connections m !! ci = Some c -> c_used c = true -> c_logical_session_bound c = false ->
  joinable m li l apple -> valid_apple_session_id apple = true ->
  if compatible c l then
    exists m' l0, join_session m ci li new_connection apple = (AIRPLAY_SESSION_OBSERVE_OK, m') /\
      session_base m li l l0 apple /\
      update_ok m m' ci li c (join_connection (l_logical_session_id l0) c) l (join_logical c l0)
  else join_session m ci li new_connection apple =
    (AIRPLAY_SESSION_OBSERVE_CONFLICT, if new_connection then set_connection m ci (fun _ => zero_connection) else m).
Proof.
  intros Hm Hc Hcu Hcb Hj Hv. pose proof Hj as [Hl Hjl]. unfold join_session. cbv zeta.
  rewrite (connection_at_lookup m ci c Hc), (logical_at_lookup m li l Hl).
  pose proof (compatible_spec c l) as Hcomp. unfold compatible in *. destruct (_ && negb _); cbn [negb] in *; [done|].
  destruct Hjl as [[Hlu Ha]|[-> Hfresh]].
  - rewrite Hlu. cbn [negb]. destruct (bind_unbound m ci li c l Hc Hcb Hl) as (g & -> & Hg). eexists _, l. split; [done|].
    assert (Hb : session_base m li l l apple) by (split_and!; [done|done|by left]). split; [done|].
    apply (join_update_ok m _ ci li c l l apple Hm Hc Hcu Hcb Hj Hv Hb); [by apply Hcomp|done|by exists g|].
    apply (ok_next m (proj1 Hm)).
  - cbn [zero_logical l_used negb].
    set (m1 := set_logical m li (fun _ => zero_logical)).
    destruct (attempts_find m1) as (id & next & -> & Hnext & Hid & Hniu).
    { unfold m1. change (length (alter (fun _ => zero_logical) li (logical_sessions m)) = AIRPLAY_SESSION_MAX_LOGICAL_SESSIONS).
      rewrite length_alter. apply (ok_session_slots m (proj1 Hm)). }
    { apply (ok_next m (proj1 Hm)). }
    rewrite (proj2 (Z.eqb_neq id 0)) by (unfold FIRST_LOGICAL_ID in Hid; lia).
    unfold m1. set (m3 := set_logical (set_logical _ li _) li _).
    set (l0 := mkLogical apple id 0 0 zero_client false false true).
    assert (Hs3 : logical_sessions m3 = alter (fun _ => l0) li (logical_sessions m)).
    { change (logical_sessions m3) with (alter (fun l => { l with l_apple_session_id := apple; l_used := true }) li
        (alter (fun l => { l with l_logical_session_id := id }) li (alter (fun _ => zero_logical) li (logical_sessions m)))).
      by rewrite !alter_alter. }
    assert (Hl3 : logical_sessions m3 !! li = Some l0).
    { rewrite Hs3. apply alter_lookup. left. split; [done|]. by exists zero_logical. }
    destruct (bind_unbound m3 ci li c l0 Hc Hcb Hl3) as (g & -> & Hg). eexists _, l0. split; [done|].
    assert (Hb : session_base m li zero_logical l0 apple).
    { split_and!; [done|done|]. right. split_and!; try done; try (cbn; lia).
      intros Hiu. apply Hniu. cbn in Hiu. revert Hiu. apply in_use_same.
      - intros i. unfold logical_at. change (logical_sessions m1) with (alter (fun _ => zero_logical) li (logical_sessions m)).
        destruct (decide (i = li)) as [->|Hne]; [by rewrite list_lookup_alter_eq, Hl|by rewrite list_lookup_alter_ne by congruence].
      - intros i. change (logical_sessions m1) with (alter (fun _ => zero_logical) li (logical_sessions m)).
        destruct (decide (i = li)) as [->|Hne]; [by rewrite list_lookup_alter_eq, Hl|by rewrite list_lookup_alter_ne by congruence]. }
    split; [done|].
    apply (join_update_ok m _ ci li c zero_logical l0 apple Hm Hc Hcu Hcb Hj Hv Hb); [done|done| |done].
    exists (fun l => g l0). split; [|done]. cbn [logical_sessions]. rewrite Hs3, alter_alter. done.
Qed.

Lemma join_registry m m' ci li c l l0 apple :
  registry_ok m -> c_used c = true -> session_base m li l l0 apple ->
  update_ok m m' ci li c (join_connection (l_logical_session_id l0) c) l (join_logical c l0) -> registry_ok m'.
Proof.
  intros [Hm Hr] Hcu (Hu0 & _ & Hb) Hup. split; [by eapply update_core|]. eapply update_referenced; [exact Hup|intros i k _; apply Hr|].
  intros _. left. pose proof (up_session_ok _ _ _ _ _ _ _ _ Hup) as Hs. unfold session_ok in Hs.
  assert (Hj : l_used (join_logical c l0) = true /\ l_logical_session_id (join_logical c l0) = l_logical_session_id l0)
    by (unfold join_logical; destruct (_ && _); done).
  destruct Hj as [J1 J2]. rewrite J1, J2 in Hs. destruct Hs as (_ & _ & -> & _). apply count_pos.
  destruct (up_connections _ _ _ _ _ _ _ _ Hup) as (f & Hf & Hfc). exists ci, (f c).
  pose proof (up_connection _ _ _ _ _ _ _ _ Hup) as Hc. split.
  - rewrite Hf. apply alter_lookup. left. split; [done|]. by exists c.
  - rewrite Hfc. unfold bound_to. cbn. by rewrite Hcu, Z.eqb_refl.
Qed.

(** *** Requests *)

Lemma free_connection m ci :
  registry_core m -> find_free_connection m = Some ci -> connections m !! ci = Some zero_connection.
Proof.
  intros Hm (c & Hc & Hu%negb_true_iff)%find_entry_some. pose proof (ok_connections m Hm ci c Hc) as Hok.
  unfold connection_ok in Hok. rewrite Hu in Hok. by subst.
Qed.

Lemma free_logical m li :
  registry_core m -> find_free_logical m = Some li -> logical_sessions m !! li = Some zero_logical.
Proof.
  intros Hm (l & Hl & Hu%negb_true_iff)%find_entry_some. pose proof (ok_sessions m Hm li l Hl) as Hok.
  unfold session_ok in Hok. rewrite Hu in Hok. by subst.
Qed.

(** The entry of the connection before and after it is registered. *)
Lemma register_spec m ci new_connection cid kind kind' :
  registry_ok m -> cid <> 0 -> observed_connection m cid kind' = inr (ci, new_connection) ->
  exists c c', connections m !! ci = Some c /\
    register_connection m ci new_connection cid kind = set_connection m ci (fun c =>
      if new_connection then { zero_connection with c_used := true; c_connection_id := cid;
                                                    c_logical_session_id := cid; c_kind := kind }
      else if bool_decide (c_kind c = AIRPLAY_CONNECTION_UNKNOWN) then { c with c_kind := kind } else c) /\
    registry_ok (register_connection m ci new_connection cid kind) /\
    connections (register_connection m ci new_connection cid kind) !! ci = Some c' /\
    c_used c' = true /\ c_connection_id c' = cid /\ c_logical_session_bound c' = c_logical_session_bound c /\
    c_client_id_bound c' = c_client_id_bound c /\ c_client_id c' = c_client_id c /\
    (if new_connection then c = zero_connection /\ fresh_connection m cid
     else c_used c = true /\ c_connection_id c = cid /\ c_logical_session_id c' = c_logical_session_id c).
Proof.
  intros Hm Hcid Hob. unfold observed_connection in Hob.
  set (f := fun c => if new_connection then _ else _).
  assert (Hlook : forall c, connections m !! ci = Some c ->
    connections (register_connection m ci new_connection cid kind) !! ci = Some (f c)).
  { intros c Hc. apply alter_lookup. left. split; [done|]. by exists c. }
  destruct (find_connection m cid) as [i|] eqn:Hf.
  - destruct (_ && negb _); [done|]. injection Hob as <- <-.
    destruct (found_connection m cid i Hf) as (c & Hc & _ & Hcu & Hci). exists c, (f c). split; [done|]. split; [done|].
    assert (Hfc : c_used (f c) = true /\ c_connection_id (f c) = cid /\
      c_logical_session_bound (f c) = c_logical_session_bound c /\ c_client_id_bound (f c) = c_client_id_bound c /\
      c_client_id (f c) = c_client_id c /\ c_logical_session_id (f c) = c_logical_session_id c).
    { unfold f. case_bool_decide; split_and!; done. }
    destruct Hfc as (F1 & F2 & F3 & F4 & F5 & F6). split.
    + apply (connection_update_registry m i f c Hm Hc).
      * pose proof (ok_connections m (proj1 Hm) i c Hc) as Hok. unfold connection_ok, session_of_connection in *.
        rewrite F1, F2, F3, F4, F5, F6. rewrite Hcu, Hci in Hok. exact Hok.
      * intros id. unfold bound_to. by rewrite F1, F3, F6, Hcu.
      * intros _. left. split; [done|congruence].
    + split_and!; (done || by apply Hlook).
  - destruct (find_free_connection m) as [i|] eqn:Hfree; [|done]. injection Hob as <- <-.
    pose proof (free_connection m i (proj1 Hm) Hfree) as Hc. exists zero_connection, (f zero_connection). split; [done|]. split; [done|].
    assert (Hfresh : fresh_connection m cid).
    { intros j d Hd Hdu Hid. pose proof (find_entry_none _ _ Hf j d Hd) as Hn. cbn beta in Hn.
      by rewrite Hdu, (proj2 (Z.eqb_eq _ _) Hid) in Hn. }
    split; [|split_and!; (done || by apply Hlook)].
    apply (connection_update_registry m i f zero_connection Hm Hc); [done|done|]. intros _. by right.
Qed.

(** The entry of the session of a request. *)
Lemma observed_logical_spec m ci c apple logical :
  registry_core m -> connections m !! ci = Some c -> (c_used c = true \/ c = zero_connection) ->
  observed_logical m c apple = inr logical ->
  match logical with
  | None => apple = None /\ c_logical_session_bound c = false
  | Some li =>
      if c_logical_session_bound c then
        exists l, logical_sessions m !! li = Some l /\ l_used l = true /\ l_logical_session_id l = c_logical_session_id c /\
          (forall a, apple = Some a -> l_apple_session_id l = a)
      else exists a l, apple = Some a /\ joinable m li l a
  end.
Proof.
  intros Hm Hc Hu Hob. unfold observed_logical in Hob. destruct (c_logical_session_bound c) eqn:Hb.
  - destruct Hu as [Hu| ->]; [|done]. destruct (bound_session m ci c Hm Hc Hu Hb) as (li & l & Hf & Hl & Hlu & Hlid & _).
    rewrite Hf in Hob. destruct apple as [a|].
    + rewrite (logical_at_lookup m li l Hl) in Hob. case_bool_decide as Ha; [|done]. injection Hob as <-.
      exists l. split_and!; try done. by intros a' [= <-].
    + injection Hob as <-. exists l. by split_and!.
  - destruct apple as [a|]; [|injection Hob as <-; done]. destruct (find_logical_by_apple_id m a) as [li|] eqn:Hf.
    + injection Hob as <-. apply find_entry_some in Hf as (l & Hl & HP). apply andb_true_iff in HP as [Hlu Ha%bool_decide_eq_true].
      exists a, l. split; [done|]. split; [done|]. by left.
    + destruct (find_free_logical m) as [li|] eqn:Hfree; [|done]. injection Hob as <-.
      exists a, zero_logical. split; [done|]. split; [by apply free_logical|]. right. split; [done|].
      intros j k Hk Hku Hka. pose proof (find_entry_none _ _ Hf j k Hk) as Hn. cbn beta in Hn.
      rewrite Hku, bool_decide_eq_true_2 in Hn by done. done.
Qed.

(** ** Announced identifiers

    The abstract view of the registry: which Apple session identifier a connection
    has announced. *)

Definition announced (m : AirPlaySessionManager) (cid : Z) (a : cstring) : Prop :=
  exists ci c li l, connections m !! ci = Some c /\ c_used c = true /\ c_connection_id c = cid /\
    c_logical_session_bound c = true /\ logical_sessions m !! li = Some l /\ l_used l = true /\
    l_logical_session_id l = c_logical_session_id c /\ l_apple_session_id l = a.

Lemma announced_unique m cid a b : registry_core m -> announced m cid a -> announced m cid b -> a = b.
Proof.
  intros Hm (i & c & li & l & Hc & Hu & Hid & Hb & Hl & Hlu & Hlid & <-) (j & d & lj & k & Hd & Hdu & Hdid & Hdb & Hk & Hku & Hkid & <-).
  assert (i = j) as -> by (apply (ok_connection_ids m Hm i j c d); auto; congruence). assert (c = d) as -> by congruence.
  assert (li = lj) as -> by (apply (ok_session_ids m Hm li lj l k); auto; left; congruence). congruence.
Qed.

(** Entries that agree on what binds a connection. *)
Definition same_binding (c d : AirPlayConnectionEntry) : Prop :=
  c_used d = c_used c /\ c_connection_id d = c_connection_id c /\
  c_logical_session_bound d = c_logical_session_bound c /\ c_logical_session_id d = c_logical_session_id c.

Lemma announced_keep m m' cid :
  registry_core m -> registry_core m' ->
  (forall j d, connections m !! j = Some d -> c_used d = true -> c_connection_id d = cid ->
     exists d', connections m' !! j = Some d' /\ same_binding d d') ->
  (forall d', (exists j, connections m' !! j = Some d') -> c_used d' = true -> c_connection_id d' = cid ->
     c_logical_session_bound d' = true -> exists j d, connections m !! j = Some d /\ same_binding d d') ->
  (forall j d lj k, connections m !! j = Some d -> c_used d = true -> c_connection_id d = cid ->
     c_logical_session_bound d = true -> logical_sessions m !! lj = Some k -> l_used k = true ->
     l_logical_session_id k = c_logical_session_id d ->
     exists k', logical_sessions m' !! lj = Some k' /\ l_used k' = true /\
       l_logical_session_id k' = l_logical_session_id k /\ l_apple_session_id k' = l_apple_session_id k) ->
  forall a, announced m' cid a <-> announced m cid a.
Proof.
  intros Hm Hm' Hfw Hbw Hs a.
  assert (Hone : forall b, announced m cid b -> announced m' cid b).
  { intros b (j & d & lj & k & Hd & Hu & Hid & Hb & Hk & Hku & Hkid & <-).
    destruct (Hfw j d Hd Hu Hid) as (d' & Hd' & E1 & E2 & E3 & E4).
    destruct (Hs j d lj k Hd Hu Hid Hb Hk Hku Hkid) as (k' & Hk' & K1 & K2 & K3).
    exists j, d', lj, k'. split_and!; congruence. }
  split; [|apply Hone]. intros Ha. pose proof Ha as (j & d' & lj & k' & Hd' & Hu & Hid & Hb & _).
  destruct (Hbw d') as (i & d & Hd & E1 & E2 & E3 & E4); [by exists j|done..|].
  destruct (bound_session m i d Hm Hd ltac:(congruence) ltac:(congruence)) as (li & l & _ & Hl & Hlu & Hlid & _).
  assert (Hann : announced m cid (l_apple_session_id l)) by (exists i, d, li, l; split_and!; congruence).
  by rewrite (announced_unique m' cid a (l_apple_session_id l) Hm' Ha (Hone _ Hann)).
Qed.

(** Changing one entry of another connection and, at most, one session that stays. *)
Lemma announced_other m m' ci cid :
  registry_core m -> registry_core m' ->
  (exists f, connections m' = alter f ci (connections m) /\
     forall c, connections m !! ci = Some c -> (c_used c = true -> c_connection_id c <> cid) /\
       (c_used (f c) = true -> c_connection_id (f c) <> cid)) ->
  (exists li g, logical_sessions m' = alter g li (logical_sessions m) /\
     forall l, logical_sessions m !! li = Some l -> l_used l = true ->
       (forall j d, j <> ci -> connections m !! j = Some d -> c_used d = true -> c_logical_session_bound d = true ->
          c_logical_session_id d = l_logical_session_id l ->
          l_used (g l) = true /\ l_logical_session_id (g l) = l_logical_session_id l /\
          l_apple_session_id (g l) = l_apple_session_id l)) ->
  forall a, announced m' cid a <-> announced m cid a.
Proof.
  intros Hm Hm' (f & Hf & Hfc) (li & g & Hg & Hgl). apply announced_keep; [done|done|..].
  - intros j d Hd Hu Hid. exists d. split; [|by split_and!]. rewrite Hf. apply alter_lookup. right. split; [|done].
    intros ->. by destruct (Hfc d Hd) as [H _]; destruct (H Hu).
  - intros d' [j Hj] Hu Hid _. rewrite Hf in Hj. apply alter_lookup in Hj as [(-> & x & Hx & ->)|[Hne Hd]].
    + by destruct (Hfc x Hx) as [_ H]; destruct (H Hu).
    + exists j, d'. split; [done|]. by split_and!.
  - intros j d lj k Hd Hu Hid Hb Hk Hku Hkid. assert (Hj : j <> ci) by (intros ->; by destruct (Hfc d Hd) as [H _]; destruct (H Hu)).
    rewrite Hg. destruct (decide (lj = li)) as [->|Hne].
    + exists (g k). split; [apply alter_lookup; left; split; [done|by exists k]|]. by apply (Hgl k Hk Hku j d).
    + exists k. split; [apply alter_lookup; by right|]. by split_and!.
Qed.

Lemma register_announced m ci new_connection cid kind kind' :
  registry_ok m -> cid <> 0 -> observed_connection m cid kind' = inr (ci, new_connection) ->
  forall other a, announced (register_connection m ci new_connection cid kind) other a <-> announced m other a.
Proof.
  intros Hm Hcid Hob other. destruct (register_spec m ci new_connection cid kind kind' Hm Hcid Hob)
    as (c & c' & Hc & Hreg & Hm1 & Hc' & Hu & Hid & Hb & _ & _ & Hnew).
  set (m1 := register_connection _ _ _ _ _) in *.
  assert (Hne : forall j, j <> ci -> connections m1 !! j = connections m !! j).
  { intros j Hj. rewrite Hreg. unfold set_connection. apply list_lookup_alter_ne. congruence. }
  assert (Hsame : new_connection = false -> same_binding c c').
  { intros ->. destruct Hnew as (H1 & H2 & H3). split_and!; congruence. }
  apply announced_keep; [apply Hm|apply Hm1|..].
  - intros j d Hd Hdu Hdid. destruct (decide (j = ci)) as [->|Hj]; [|exists d; rewrite Hne by done; split; [done|by split_and!]].
    assert (d = c) as -> by congruence. exists c'. split; [done|]. apply Hsame. destruct new_connection; [|done]. destruct Hnew as [-> _]. done.
  - intros d' [j Hd'] Hdu Hdid Hdb. destruct (decide (j = ci)) as [->|Hj].
    + assert (d' = c') as -> by congruence. exists ci, c. split; [done|]. apply Hsame. destruct new_connection; [|done].
      destruct Hnew as [-> _]. by rewrite Hdb in Hb.
    + exists j, d'. rewrite <- Hne by done. split; [done|by split_and!].
  - intros j d lj k _ _ _ _ Hk Hku _. exists k. rewrite Hreg. by split_and!.
Qed.

(** What joining does. *)
Lemma joined_ok m m' ci li c l l0 a :
  registry_ok m -> connections m !! ci = Some c -> logical_sessions m !! li = Some l -> c_used c = true ->
  session_base m li l l0 a ->
  update_ok m m' ci li c (join_connection (l_logical_session_id l0) c) l (join_logical c l0) ->
  registry_ok m' /\
  (forall other b, other <> c_connection_id c -> announced m' other b <-> announced m other b) /\
  (forall b, announced m' (c_connection_id c) b <-> b = a) /\
  exists c', connections m' !! ci = Some c' /\ c_used c' = true /\ c_connection_id c' = c_connection_id c.
Proof.
  intros Hm Hc Hl Hu Hbase Hup. pose proof (join_registry m m' ci li c l l0 a Hm Hu Hbase Hup) as Hm'. split; [done|].
  destruct (up_connections _ _ _ _ _ _ _ _ Hup) as (f & Hf & Hfc).
  destruct (up_sessions _ _ _ _ _ _ _ _ Hup) as (g & Hg & Hgl).
  assert (Hg' : l_used (g l) = true /\ l_logical_session_id (g l) = l_logical_session_id l0 /\ l_apple_session_id (g l) = a).
  { rewrite Hgl. destruct Hbase as (B1 & B2 & _). unfold join_logical. destruct (_ && _); cbn; by rewrite B1. }
  destruct Hg' as (G1 & G2 & G3).
  assert (Hci' : connections m' !! ci = Some (f c)) by (rewrite Hf; apply alter_lookup; left; split; [done|by exists c]).
  split; [|split].
  - intros other b Hother. apply (announced_other m m' ci other (proj1 Hm) (proj1 Hm')).
    + exists f. split; [done|]. intros x Hx. assert (x = c) as -> by congruence. rewrite Hfc. cbn. split; congruence.
    + exists li, g. split; [done|]. intros x Hx Hxu _ _ _ _ _ _ _. assert (x = l) as -> by congruence.
      destruct Hbase as (_ & B2 & [[_ ->]|(-> & _)]); [|done]. split_and!; congruence.
  - assert (Ha : announced m' (c_connection_id c) a).
    { exists ci, (f c), li, (g l). split; [done|]. rewrite Hfc. cbn. split_and!; try done.
      rewrite Hg. apply alter_lookup. left. split; [done|]. by exists l. }
    intros b. split; [|by intros ->]. intros Hb'. by apply (announced_unique m' (c_connection_id c) b a (proj1 Hm')).
  - exists (f c). split; [done|]. rewrite Hfc. by split_and!.
Qed.

(** What a request does to the registry. *)
Lemma observe_locked_ok m cid request apple :
  registry_ok m -> cid <> 0 -> (forall a, apple = Some a -> valid_apple_session_id a = true) ->
  let '(result, snapshot, m') := observe_locked m cid request apple in
  registry_ok m' /\ (forall other a, other <> cid -> announced m' other a <-> announced m other a) /\
  (result <> AIRPLAY_SESSION_OBSERVE_OK ->
     logical_sessions m' = logical_sessions m /\ forall a, announced m' cid a <-> announced m cid a) /\
  (result = AIRPLAY_SESSION_OBSERVE_OK ->
     (forall a, announced m' cid a <-> match apple with Some a' => a = a' | None => announced m cid a end) /\
     exists ci c, connections m' !! ci = Some c /\ c_used c = true /\ c_connection_id c = cid /\
       s_logical_session_id snapshot = c_logical_session_id c /\
       s_logical_session_bound snapshot = c_logical_session_bound c).
Proof.
  intros Hm Hcid Hv. unfold observe_locked. set (kind := classify_request request apple).
  destruct (observed_connection m cid kind) as [e|[ci new_connection]] eqn:Hob.
  { split; [done|split; [done|split; [done|]]]. intros ->. unfold observed_connection in Hob. exfalso.
    repeat (case_match; try done). }
  destruct (register_spec m ci new_connection cid kind kind Hm Hcid Hob)
    as (c & c' & Hc & Hreg & Hm1 & Hc' & Hu & Hid & Hb & Hcb & Hcc & Hnew).
  pose proof (register_announced m ci new_connection cid kind kind Hm Hcid Hob) as Hann.
  rewrite (connection_at_lookup m ci c Hc).
  destruct (observed_logical m c apple) as [e|logical] eqn:Hol.
  { split; [done|split; [done|split; [done|]]]. intros ->. unfold observed_logical in Hol. exfalso. repeat (case_match; try done). }
  destruct (_ && bool_decide (logical = None)); [by split_and!|].
  assert (Huc : c_used c = true \/ c = zero_connection) by (destruct new_connection; [right|left]; apply Hnew).
  pose proof (observed_logical_spec m ci c apple logical (proj1 Hm) Hc Huc Hol) as Hlog.
  set (m1 := register_connection m ci new_connection cid kind) in *.
  assert (Hls1 : logical_sessions m1 = logical_sessions m) by (by rewrite Hreg).
  rewrite (connection_at_lookup m1 ci c' Hc').
  assert (Hstay : forall snapshot, s_logical_session_id snapshot = c_logical_session_id c' ->
    s_logical_session_bound snapshot = c_logical_session_bound c' ->
    (forall a, announced m1 cid a <-> match apple with Some a' => a = a' | None => announced m cid a end) ->
    registry_ok m1 /\ (forall other a, other <> cid -> announced m1 other a <-> announced m other a) /\
    (AIRPLAY_SESSION_OBSERVE_OK <> AIRPLAY_SESSION_OBSERVE_OK ->
       logical_sessions m1 = logical_sessions m /\ forall a, announced m1 cid a <-> announced m cid a) /\
    (AIRPLAY_SESSION_OBSERVE_OK = AIRPLAY_SESSION_OBSERVE_OK ->
       (forall a, announced m1 cid a <-> match apple with Some a' => a = a' | None => announced m cid a end) /\
       exists ci c, connections m1 !! ci = Some c /\ c_used c = true /\ c_connection_id c = cid /\
         s_logical_session_id snapshot = c_logical_session_id c /\
         s_logical_session_bound snapshot = c_logical_session_bound c)).
  { intros snapshot E1 E2 Ha. split; [done|split; [intros; apply Hann|split; [done|]]]. intros _. split; [done|].
    exists ci, c'. by split_and!. }
  destruct apple as [a|]; cycle 1.
  { apply Hstay; [by rewrite (connection_at_lookup m1 ci c' Hc')..|]. intros a. apply Hann. }
  destruct logical as [li|]; [|by destruct Hlog]. rewrite <- Hb in Hlog.
  destruct (c_logical_session_bound c') eqn:Hcb'.
  { (* the connection has announced its session before *)
    apply Hstay; [by rewrite (connection_at_lookup m1 ci c' Hc')..|].
    destruct Hlog as (l & Hl & Hlu & Hlid & Hla). specialize (Hla a eq_refl). subst a.
    destruct new_connection; [destruct Hnew as [-> _]; cbn in Hb; congruence|]. destruct Hnew as (Hn1 & Hn2 & Hn3).
    assert (Ha : announced m1 cid (l_apple_session_id l)).
    { exists ci, c', li, l. rewrite Hls1. split_and!; congruence. }
    intros a. split; [|by intros ->]. intros Ha'. by apply (announced_unique m1 cid _ _ (proj1 Hm1)). }
  destruct Hlog as (a' & l & [= <-] & Hl & Hjl).
  assert (Hj1 : joinable m1 li l a) by (split; rewrite Hls1; done).
  pose proof (join_session_spec m1 ci li c' l new_connection a Hm1 Hc' Hu Hcb' Hj1 (Hv a eq_refl)) as Hjoin.
  destruct (compatible c' l) eqn:Hcomp.
  - destruct Hjoin as (m' & l0 & -> & Hbase & Hup). cbn [bool_decide]. rewrite bool_decide_eq_true_2 by done.
    destruct (joined_ok m1 m' ci li c' l l0 a Hm1 Hc' (proj1 Hj1) Hu Hbase Hup) as (Hm' & Hothers & Hsame & c2 & Hc2 & Hu2 & Hid2).
    rewrite Hid in *. split; [done|]. split; [intros other b Hne; by rewrite Hothers|]. split; [done|]. intros _. split; [done|].
    rewrite (connection_at_lookup m' ci c2 Hc2). exists ci, c2. by split_and!.
  - rewrite Hjoin. rewrite bool_decide_eq_false_2 by done.
    assert (Hold : new_connection = false).
    { destruct new_connection; [|done]. destruct Hnew as [-> _]. unfold compatible in Hcomp. by rewrite Hcb in Hcomp. }
    rewrite Hold. split; [done|]. split; [intros; apply Hann|]. split; [|done]. intros _. split; [done|]. intros b. apply Hann.
Qed.
