(* ===== verification/LogicalSessionView.v ===== *)
(** * What the registry of logical sessions promises

    The theorems on the registry: it is consistent after any calls, a connection is
    in the session it announced, and closing tells when a session has no connection
    left. *)

From S2P Require Import Prelude CText Buffers Rtsp LogicalSession LogicalSessionInvariant.

(** ** Runs *)

Inductive session_call :=
  | CallObserve (connection_id : Z) (request : AirPlayRtspRequest)
  | CallClose (connection_id : Z)
  | CallBindClient (connection_id : Z) (client_id : list Z)
  | CallTeardown (connection_id : Z)
  | CallRetain (logical_session_id : Z)
  | CallRelease (logical_session_id : Z).

Definition session_step (m : AirPlaySessionManager) (call : session_call) : AirPlaySessionManager :=
  match call with
  | CallObserve cid request => (airplay_session_manager_observe m cid request).2
  | CallClose cid => (airplay_session_manager_close m cid).2
  | CallBindClient cid client => (airplay_session_manager_bind_client m cid client).2
  | CallTeardown cid => (airplay_session_manager_mark_transport_teardown m cid).2
  | CallRetain id => (airplay_session_manager_retain_media m id).2
  | CallRelease id => (airplay_session_manager_release_media m id).2
  end.

(** A call of [observe], by its arguments. *)
Lemma observe_cases m cid request :
  (exists e, airplay_session_manager_observe m cid request = (e, no_snapshot, m) /\ e <> AIRPLAY_SESSION_OBSERVE_OK) \/
  (cid <> 0 /\ (forall a, airplay_rtsp_request_header request APPLE_SESSION_ID = Some a -> valid_apple_session_id a = true) /\
   airplay_session_manager_observe m cid request =
     observe_locked m cid request (airplay_rtsp_request_header request APPLE_SESSION_ID)).
Proof.
  unfold airplay_session_manager_observe. destruct (Z.eqb_spec cid 0); [left; by eexists|].
  destruct (airplay_rtsp_request_header request APPLE_SESSION_ID) as [a|].
  - destruct (valid_apple_session_id a) eqn:Hv; cbn [negb]; [|left; by eexists].
    destruct (has_cseq request && _); [left; by eexists|]. right. split; [done|]. split; [|done]. by intros b [= <-].
  - rewrite andb_false_r by done. right. done.
Qed.

Lemma observe_ok m cid request : registry_ok m -> registry_ok (airplay_session_manager_observe m cid request).2.
Proof.
  intros Hm. destruct (observe_cases m cid request) as [(e & -> & _)|(Hcid & Hv & ->)]; [done|].
  pose proof (observe_locked_ok m cid request _ Hm Hcid Hv) as H. destruct (observe_locked _ _ _ _) as [[res snap] m']. apply H.
Qed.

Lemma session_step_ok m call : registry_ok m -> registry_ok (session_step m call).
Proof.
  destruct call; cbn [session_step];
    [apply observe_ok|apply close_ok|apply bind_client_ok|apply mark_ok|apply retain_ok|apply release_ok].
Qed.

(** A registry with two connections of one Apple session, for the examples. *)
Definition demo_observe (header : cstring) : AirPlayRtspRequest :=
  mkRequest (bytes "POST") (bytes "/reverse") (bytes "HTTP/1.1") [mkHeader APPLE_SESSION_ID header] [] 0 false 0.
Definition demo_session_calls : list session_call :=
  [CallObserve 1 (demo_observe (bytes "A-1")); CallBindClient 1 (repeat 7 32); CallObserve 2 (demo_observe (bytes "A-1"));
   CallRetain FIRST_LOGICAL_ID; CallObserve 3 (demo_observe (bytes "B-2"))].
Definition demo_registry : AirPlaySessionManager :=
  fold_left session_step demo_session_calls
    (mkManager (repeat zero_connection 8) (repeat zero_logical 8) FIRST_LOGICAL_ID).

Lemma run_ok m calls : registry_ok m -> registry_ok (fold_left session_step calls m).
Proof. revert m. induction calls as [|call calls IH]; intros m Hm; [done|]. by apply IH, session_step_ok. Qed.

Lemma demo_registry_ok : registry_ok demo_registry.
Proof. apply run_ok, created_ok. reflexivity. Qed.



(** ** Announcements *)

Lemma header_cases (header : option cstring) a (P : Prop) :
  match header with Some a' => a = a' | None => P end <-> header = Some a \/ header = None /\ P.
Proof.
  destruct header as [b|]; split.
  - intros ->. by left.
  - intros [[= ->]|[? _]]; done.
  - by right.
  - intros [?|[_ ?]]; done.
Qed.

(** The connections that share a session. *)
Lemma session_members m ci c a :
  registry_ok m -> connections m !! ci = Some c -> c_used c = true -> announced m (c_connection_id c) a ->
  c_logical_session_bound c = true /\
  forall other, announced m other a <-> exists j d, connections m !! j = Some d /\ c_used d = true /\
    c_connection_id d = other /\ c_logical_session_bound d = true /\ c_logical_session_id d = c_logical_session_id c.
Proof.
  intros [Hm _] Hc Hu (i & e & li & l & He & Heu & Heid & Heb & Hl & Hlu & Hlid & Hla).
  assert (i = ci) as -> by (apply (ok_connection_ids m Hm i ci e c); auto). assert (e = c) as -> by congruence.
  split; [done|]. intros other. split.
  - intros (j & d & lj & k & Hd & Hdu & Hdid & Hdb & Hk & Hku & Hkid & Hka). exists j, d. split_and!; try done.
    assert (li = lj) as -> by (apply (ok_session_ids m Hm li lj l k); auto; right; congruence).
    assert (k = l) as -> by congruence. congruence.
  - intros (j & d & Hd & Hdu & Hdid & Hdb & Hdl). exists j, d, li, l. split_and!; (done || congruence).
Qed.

(** C18: a connection is in the session it announced, and nobody else's.  A request
    that is accepted changes the announcement of its own connection only, to the
    Apple session identifier of its header if there is one; and the connections with
    the logical session that it is told are exactly those that announced the same
    identifier.  A request that is refused changes no announcement. *)
Theorem observe_joins_the_announced_session m connection_id request result snapshot m' :
  registry_ok m ->
  airplay_session_manager_observe m connection_id request = (result, snapshot, m') ->
  let header := airplay_rtsp_request_header request APPLE_SESSION_ID in
  (forall other a, announced m' other a <->
     if bool_decide (other = connection_id /\ result = AIRPLAY_SESSION_OBSERVE_OK)
     then header = Some a \/ header = None /\ announced m other a else announced m other a) /\
  (result = AIRPLAY_SESSION_OBSERVE_OK -> forall a, announced m' connection_id a ->
     s_logical_session_bound snapshot = true /\
     forall other, announced m' other a <-> exists j d, connections m' !! j = Some d /\ c_used d = true /\
       c_connection_id d = other /\ c_logical_session_bound d = true /\
       c_logical_session_id d = s_logical_session_id snapshot).
Proof.
  intros Hm Hob header. destruct (observe_cases m connection_id request) as [(e & E & He)|(Hcid & Hv & E)]; rewrite E in Hob.
  { injection Hob as <- <- <-. split; [|done]. intros other a. rewrite bool_decide_eq_false_2 by naive_solver. done. }
  fold header in Hob, Hv. pose proof (observe_locked_ok m connection_id request header Hm Hcid Hv) as H. rewrite Hob in H.
  destruct H as (Hm' & Hothers & Hno & Hyes). split.
  - intros other a. case_bool_decide as Hd.
    + destruct Hd as [-> Hres]. destruct (Hyes Hres) as [Ha _]. rewrite Ha. apply header_cases.
    + destruct (decide (other = connection_id)) as [->|Hne]; [|by apply Hothers].
      apply (Hno ltac:(intros Hr; by apply Hd)).
  - intros Hres a Ha. destruct (Hyes Hres) as [_ (ci & c & Hc & Hu & Hid & -> & ->)]. rewrite <- Hid in Ha.
    by apply (session_members m' ci c a).
Qed.

Lemma observe_joins_the_announced_session_witness :
  exists snapshot m', airplay_session_manager_observe demo_registry 4 (demo_observe (bytes "A-1")) =
      (AIRPLAY_SESSION_OBSERVE_OK, snapshot, m') /\
    (forall other a, announced m' other a <->
       if bool_decide (other = 4 /\ AIRPLAY_SESSION_OBSERVE_OK = AIRPLAY_SESSION_OBSERVE_OK)
       then Some (bytes "A-1") = Some a \/ Some (bytes "A-1") = None /\ announced demo_registry other a
       else announced demo_registry other a).
Proof.
  destruct (airplay_session_manager_observe demo_registry 4 (demo_observe (bytes "A-1"))) as [[result snapshot] m'] eqn:E.
  assert (result = AIRPLAY_SESSION_OBSERVE_OK) as ->.
  { apply (f_equal (fun x => x.1.1)) in E. vm_compute in E. by symmetry. }
  exists snapshot, m'. split; [done|].
  apply (observe_joins_the_announced_session demo_registry 4 _ _ _ _ demo_registry_ok E).
Defined.

(** ** Closing *)

(** The registry after a close. *)
Lemma close_facts m cid r m' :
  registry_ok m -> airplay_session_manager_close m cid = (Some r, m') ->
  exists ci c, connections m !! ci = Some c /\ c_used c = true /\ c_connection_id c = cid /\
    connections m' = alter (fun _ => zero_connection) ci (connections m) /\
    ((c_logical_session_bound c = false /\ r = mkCloseResult cid (c_logical_session_id c) false false 0 /\
      logical_sessions m' = logical_sessions m) \/
     exists li l g, c_logical_session_bound c = true /\ logical_sessions m !! li = Some l /\ l_used l = true /\
       l_logical_session_id l = c_logical_session_id c /\ 0 < l_connection_count l /\
       let last := l_connection_count l =? 1 in
       r = mkCloseResult cid (c_logical_session_id c) true last
         (if last && l_transport_terminated l && (0 <? l_media_reference_count l) then c_logical_session_id c else 0) /\
       logical_sessions m' = alter g li (logical_sessions m) /\
       g l = (if last && (l_media_reference_count l =? 0) then zero_logical else { l with l_connection_count ::= Z.pred })).
Proof.
  intros Hm H. destruct (Z.eqb_spec cid 0) as [->|Hcid]; [done|]. destruct (find_connection m cid) as [ci|] eqn:Hf.
  2: { unfold airplay_session_manager_close in H. by rewrite (proj2 (Z.eqb_neq cid 0) Hcid), Hf in H. }
  destruct (found_connection m cid ci Hf) as (c & Hc & Hat & Hcu & Hci). exists ci, c. destruct (c_logical_session_bound c) eqn:Hb.
  - destruct (bound_session m ci c (proj1 Hm) Hc Hcu Hb) as (li & l & Hfl & Hl & Hlu & Hlid & Hpos & _).
    rewrite (close_bound m ci li c l cid (proj1 Hm)) in H by done. injection H as <- <-.
    do 4 (split; [done|]). right. exists li, l, (fun l' => let k := { l' with l_connection_count ::= Z.pred } in
      if l_connection_count l =? 1 then release_logical_if_unreferenced k else k).
    do 5 (split; [done|]). split; [done|]. split; [done|]. cbv zeta. unfold release_logical_if_unreferenced.
    change (l_connection_count { l with l_connection_count ::= Z.pred }) with (Z.pred (l_connection_count l)).
    change (l_media_reference_count { l with l_connection_count ::= Z.pred }) with (l_media_reference_count l).
    destruct (Z.eqb_spec (l_connection_count l) 1) as [E|]; [|done]. by rewrite (proj2 (Z.eqb_eq (Z.pred _) 0)) by lia.
  - unfold airplay_session_manager_close in H. rewrite (proj2 (Z.eqb_neq cid 0) Hcid), Hf, Hat, Hb in H.
    injection H as <- <-. do 4 (split; [done|]). by left.
Qed.

(** Of the connections of a session one is left exactly when the count is one. *)
Lemma alone_iff m ci c li l :
  registry_core m -> connections m !! ci = Some c -> c_used c = true -> c_logical_session_bound c = true ->
  logical_sessions m !! li = Some l -> l_used l = true -> l_logical_session_id l = c_logical_session_id c ->
  l_connection_count l = 1 <->
  (forall j d, connections m !! j = Some d -> bound_to (c_logical_session_id c) d = true -> j = ci).
Proof.
  intros Hm Hc Hu Hb Hl Hlu Hlid. destruct (session_facts m li l Hm Hl Hlu) as (_ & _ & Hct & _).
  rewrite Hlid in Hct. pose proof (count_alter (bound_to (c_logical_session_id c)) (fun _ => zero_connection) ci _ c Hc) as Ha.
  cbv beta in Ha. change (bound_to (c_logical_session_id c) zero_connection) with false in Ha. unfold bound_to at 3 in Ha. rewrite Hu, Hb, Z.eqb_refl in Ha.
  cbn [andb Z.b2z] in Ha. pose proof (count_pos (bound_to (c_logical_session_id c)) (alter (fun _ => zero_connection) ci (connections m))) as Hp.
  pose proof (count_bounds (bound_to (c_logical_session_id c)) (alter (fun _ => zero_connection) ci (connections m))) as Hbd.
  split.
  - intros H1 j d Hd Hdb. destruct (decide (j = ci)) as [|Hne]; [done|exfalso].
    enough (0 < count (bound_to (c_logical_session_id c)) (alter (fun _ => zero_connection) ci (connections m))) by lia.
    apply Hp. exists j, d. split; [apply alter_lookup; by right|done].
  - intros Hall. destruct (decide (0 < count (bound_to (c_logical_session_id c)) (alter (fun _ => zero_connection) ci (connections m))))
      as [Hgt|]; [|lia]. exfalso. apply Hp in Hgt as (j & d & [(-> & x & Hx & ->)|[Hne Hd]]%alter_lookup & Hdb); [done|].
    by apply Hne, (Hall j d).
Qed.

(** Closing a connection tells whether it was the last of its session.  It ends
    the announcement of that connection only; it reports the last connection exactly
    when nobody else has announced the same identifier; and it reports a session whose
    media must be ended exactly when that connection was the last one and the session,
    whose transport was torn down before, is still kept by its media. *)
Theorem close_reports_the_last_connection m connection_id r m' :
  registry_ok m -> airplay_session_manager_close m connection_id = (Some r, m') ->
  (forall other a, announced m' other a <-> other <> connection_id /\ announced m other a) /\
  (r_last_logical_connection r = true <->
     exists a, announced m connection_id a /\ forall other, announced m other a -> other = connection_id) /\
  (r_terminal_media_session_id r <> 0 <-> r_last_logical_connection r = true /\
     exists li l, logical_sessions m' !! li = Some l /\ l_used l = true /\
       l_logical_session_id l = r_logical_session_id r /\ l_transport_terminated l = true).
Proof.
  intros Hm Hcl. pose proof (close_ok m connection_id Hm) as Hm'. rewrite Hcl in Hm'. cbn [snd] in Hm'.
  destruct (close_facts m connection_id r m' Hm Hcl) as (ci & c & Hc & Hu & Hid & Hcs & Hcase).
  assert (Hgone : forall a, ~ announced m' connection_id a).
  { intros a (i & d & li & l & Hd & Hdu & Hdid & _). rewrite Hcs in Hd. apply alter_lookup in Hd as [(-> & x & Hx & ->)|[Hne Hd]]; [done|].
    apply Hne. apply (ok_connection_ids m (proj1 Hm) i ci d c); auto. congruence. }
  split.
  - intros other a. destruct (decide (other = connection_id)) as [->|Hne].
    { split; [intros Ha; by destruct (Hgone a)|by intros []]. }
    rewrite (announced_other m m' ci other (proj1 Hm) (proj1 Hm')); [tauto| |].
    + exists (fun _ => zero_connection). split; [done|]. intros x Hx. assert (x = c) as -> by congruence. split; [congruence|done].
    + destruct Hcase as [(_ & _ & Hls)|(li & l & g & Hb & Hl & Hlu & Hlid & Hpos & _ & Hls & Hg)].
      * exists 0%nat, id. rewrite alter_id. split; [done|]. by intros.
      * exists li, g. split; [done|]. intros x Hx _ j d Hj Hd Hdu Hdb Hdl. assert (x = l) as -> by congruence.
        assert (Hnot : l_connection_count l <> 1).
        { intros H1. apply Hj. eapply (alone_iff m ci c li l); try done; [apply Hm|].
          unfold bound_to. rewrite Hdu, Hdb, Hdl, Hlid. apply Z.eqb_refl. }
        rewrite (proj2 (Z.eqb_neq _ 1) Hnot) in Hg. rewrite Hg. done.
  - destruct Hcase as [(Hb & -> & Hls)|(li & l & g & Hb & Hl & Hlu & Hlid & Hpos & -> & Hls & Hg)].
    { cbn. split; split; try done; [|by intros []]. intros (a & (i & d & lj & k & Hd & Hdu & Hdid & Hdb & _) & _).
      assert (i = ci) as -> by (apply (ok_connection_ids m (proj1 Hm) i ci d c); auto; congruence). congruence. }
    destruct (session_facts m li l (proj1 Hm) Hl Hlu) as (Hrange & _ & _ & Hmed & _).
    assert (Hann : announced m connection_id (l_apple_session_id l)) by (exists ci, c, li, l; split_and!; congruence).
    assert (Hlast : (l_connection_count l =? 1) = true <->
      exists a, announced m connection_id a /\ forall other, announced m other a -> other = connection_id).
    { rewrite Z.eqb_eq, (alone_iff m ci c li l (proj1 Hm) Hc Hu Hb Hl Hlu Hlid). rewrite <- Hid in Hann |- *.
      pose proof (session_members m ci c _ Hm Hc Hu Hann) as [_ Hmem]. split.
      - intros Hall. exists (l_apple_session_id l). split; [done|]. intros other Hother.
        apply Hmem in Hother as (j & d & Hd & Hdu & <- & Hdb & Hdl).
        assert (j = ci) as -> by (apply (Hall j d Hd); unfold bound_to; rewrite Hdu, Hdb, Hdl; apply Z.eqb_refl). congruence.
      - intros (a & Ha & Hall) j d Hd Hdb.
        rewrite (announced_unique m _ a (l_apple_session_id l) (proj1 Hm) Ha Hann) in Hall. unfold bound_to in Hdb. bool_cases.
        apply (ok_connection_ids m (proj1 Hm) j ci d c); try done. apply Hall, Hmem. exists j, d.
        split_and!; try done. by apply Z.eqb_eq. }
    split; [exact Hlast|]. cbn [r_terminal_media_session_id r_last_logical_connection r_logical_session_id].
    assert (Hsl : logical_sessions m' !! li = Some (g l)) by (rewrite Hls; apply alter_lookup; left; split; [done|by exists l]).
    destruct (l_connection_count l =? 1) eqn:Hone; cbn [andb]; cycle 1.
    { split; [done|]. by intros []. }
    cbn [andb] in Hg. destruct (Z.eqb_spec (l_media_reference_count l) 0) as [H0|H0].
    + rewrite (proj2 (Z.ltb_ge 0 (l_media_reference_count l))) by lia. rewrite andb_false_r. split; [done|]. intros [_ (lj & k & Hk & Hku & Hkid & _)].
      exfalso. rewrite Hls in Hk. apply alter_lookup in Hk as [(-> & x & Hx & ->)|[Hne Hk]].
      * assert (x = l) as -> by congruence. by rewrite Hg in Hku.
      * apply Hne. apply (ok_session_ids m (proj1 Hm) lj li k l); auto. left. congruence.
    + rewrite (proj2 (Z.ltb_lt 0 (l_media_reference_count l))) by lia. rewrite andb_true_r. split.
      * destruct (l_transport_terminated l) eqn:Ht; [|done]. intros _. split; [done|]. exists li, (g l). split; [done|]. rewrite Hg. by split_and!.
      * intros [_ (lj & k & Hk & Hku & Hkid & Hkt)]. rewrite <- Hlid in Hkid.
        assert (lj = li) as ->.
        { apply (ok_session_ids m' (proj1 Hm') lj li k (g l)); try done; rewrite Hg; [done|]. left. done. }
        assert (k = g l) as -> by congruence. rewrite Hg in Hkt.
        change (l_transport_terminated l = true) in Hkt. rewrite Hkt. unfold FIRST_LOGICAL_ID in Hrange. lia.
Qed.

Lemma close_reports_the_last_connection_witness :
  exists r m', airplay_session_manager_close demo_registry 3 = (Some r, m') /\ r_last_logical_connection r = true /\
    forall other a, announced m' other a <-> other <> 3 /\ announced demo_registry other a.
Proof.
  destruct (airplay_session_manager_close demo_registry 3) as [[r|] m'] eqn:E;
    [|exfalso; apply (f_equal (fun x => bool_decide (is_Some x.1))) in E; vm_compute in E; discriminate E].
  exists r, m'. split; [done|]. split; [|apply (close_reports_the_last_connection demo_registry 3 r m' demo_registry_ok E)].
  apply (f_equal (fun x => match x.1 with Some r => r_last_logical_connection r | None => false end)) in E.
  vm_compute in E. by symmetry.
Defined.
