(* ===== verification/MirrorAudio.v ===== *)
(** * Reordering of mirrored audio (protocol/airplay/mirror/audio.c)

    RTP packets go to a window of 64 slots and leave it in the order of their
    sequence numbers.  [packet] is the buffer of a datagram; every read of it and of
    the slots is checked.  mbedtls is an argument: [setkey] says whether a key is
    accepted and [crypt_cbc] decrypts.  [recording] tells what the recording flag is
    when a frame is reached, which another thread may set at any time. *)

From S2P Require Import Prelude Buffers.

Definition AIRPLAY_MIRROR_AUDIO_RTP_HEADER_SIZE : nat := 12.
Definition AIRPLAY_MIRROR_AUDIO_MAX_PACKET : Z := 32 * 1024.
Definition AIRPLAY_MIRROR_AUDIO_WINDOW : nat := 64.
Definition AIRPLAY_AUDIO_REORDER_THRESHOLD : Z := 3.
Definition AIRPLAY_CRYPTO_AES_BLOCK_SIZE : Z := 16.
Definition UINT16_MAX : Z := 65535.

(** The conversion to [int16_t]. *)
Definition i16 (z : Z) : Z := if u16 z <=? 32767 then u16 z else u16 z - 65536.

Definition is_u16 (z : Z) : Prop := 0 <= z < 65536.

(** ** Formats *)

(* src: source/protocol/airplay/mirror/audio.h AirPlayMirrorAudioCodec *)
Inductive AirPlayMirrorAudioCodec :=
  | AIRPLAY_MIRROR_AUDIO_CODEC_INVALID
  | AIRPLAY_MIRROR_AUDIO_CODEC_AAC
  | AIRPLAY_MIRROR_AUDIO_CODEC_ALAC.

(* src: source/protocol/airplay/mirror/audio.h AirPlayMirrorAudioFormat *)
Record AirPlayMirrorAudioFormat := mkFormat {
  codec : AirPlayMirrorAudioCodec;
  compression_type : Z;
  sample_rate : Z;
  channels : Z;
  samples_per_frame : Z;
  codec_config : list Z
}.

Definition alac : list Z :=
  [0x00; 0x00; 0x00; 0x24; 0x61; 0x6c; 0x61; 0x63; 0x00; 0x00; 0x00; 0x00; 0x00; 0x00; 0x01; 0x60;
   0x00; 0x10; 0x28; 0x0a; 0x0e; 0x02; 0x00; 0xff; 0x00; 0x00; 0x00; 0x00; 0x00; 0x00; 0x00; 0x00;
   0x00; 0x00; 0xac; 0x44].
Definition aac_lc : list Z := [0x12; 0x10].
Definition aac_eld : list Z := [0xf8; 0xe8; 0x50; 0x00].

(* src: source/protocol/airplay/mirror/audio.c airplay_mirror_audio_format *)
Definition airplay_mirror_audio_format (compression_type samples_per_frame sample_rate : Z)
    : option AirPlayMirrorAudioFormat :=
  let sample_rate := if sample_rate =? 0 then 44100 else sample_rate in
  let or_default n := if samples_per_frame =? 0 then n else samples_per_frame in
  let finish codec config samples_per_frame :=
    if negb (sample_rate =? 44100) || (samples_per_frame =? 0) then None
    else Some (mkFormat codec compression_type sample_rate 2 samples_per_frame config) in
  if compression_type =? 2 then
    if negb (or_default 352 =? 352) then None else finish AIRPLAY_MIRROR_AUDIO_CODEC_ALAC alac (or_default 352)
  else if compression_type =? 4 then finish AIRPLAY_MIRROR_AUDIO_CODEC_AAC aac_lc (or_default 1024)
  else if compression_type =? 8 then finish AIRPLAY_MIRROR_AUDIO_CODEC_AAC aac_eld (or_default 480)
  else None.

(** ** State *)

(** The size of a slot's data is their length. *)
(* src: source/protocol/airplay/mirror/audio.c AirPlayAudioSlot *)
Record AirPlayAudioSlot := mkSlot {
  slot_data : list Z;
  slot_sequence : Z;
  slot_timestamp : Z;
  filled : bool
}.
Definition empty_slot : AirPlayAudioSlot := mkSlot [] 0 0 false.

(* src: source/protocol/airplay/mirror/audio.h AirPlayMirrorAudioFrame *)
Record AirPlayMirrorAudioFrame := mkFrame {
  frame_data : list Z;
  frame_sequence : Z;
  rtp_timestamp : Z;
  frame_discontinuity : bool
}.

(** The part that packets change.  The sockets, ports and counters of datagrams
    belong to the receiving thread. *)
(* src: source/protocol/airplay/mirror/audio.c AirPlayMirrorAudio *)
Record AirPlayMirrorAudio := mkAudio {
  slots : list AirPlayAudioSlot;
  buffered : Z;
  expected_sequence : Z;
  sequence_ready : bool;
  discontinuity : bool;
  frames_emitted : Z
}.
#[export] Instance eta_AirPlayMirrorAudio : Eta AirPlayMirrorAudio := fun a =>
  mkAudio (slots a) (buffered a) (expected_sequence a) (sequence_ready a) (discontinuity a) (frames_emitted a).

(** What [airplay_mirror_audio_create] starts from. *)
Definition created_audio : AirPlayMirrorAudio :=
  mkAudio (repeat empty_slot AIRPLAY_MIRROR_AUDIO_WINDOW) 0 0 false false 0.

(** [--] of a [size_t]. *)
Definition dec64 (x : Z) : Z := u64 (x - 1).

(** ** Packets *)

(* src: source/protocol/airplay/mirror/audio.c read_be16 *)
Definition read_be16 (data : list Z) (at_ : nat) : outcome Z :=
  b0 ← checked (data !! at_); b1 ← checked (data !! S at_);
  Done (Z.lor (u16 (Z.shiftl b0 8)) b1).

(* src: source/protocol/airplay/mirror/audio.c read_be32 *)
Definition read_be32 (data : list Z) (at_ : nat) : outcome Z :=
  b0 ← checked (data !! at_); b1 ← checked (data !! (at_ + 1)%nat);
  b2 ← checked (data !! (at_ + 2)%nat); b3 ← checked (data !! (at_ + 3)%nat);
  Done (Z.lor (Z.lor (Z.lor (u32 (Z.shiftl b0 24)) (Z.shiftl b1 16)) (Z.shiftl b2 8)) b3).

(* src: source/protocol/airplay/mirror/audio.c read_be64 *)
Definition read_be64 (data : list Z) (at_ : nat) : outcome Z :=
  high ← read_be32 data at_; low ← read_be32 data (at_ + 4); Done (Z.lor (Z.shiftl high 32) low).

(** The slot of a sequence number. *)
Definition slot_index (sequence : Z) : nat := Z.to_nat (sequence `mod` 64).
Definition set_slot (a : AirPlayMirrorAudio) (sequence : Z) (s : AirPlayAudioSlot) : AirPlayMirrorAudio :=
  { a with slots ::= <[slot_index sequence := s]> }.

(* src: source/protocol/airplay/mirror/audio.c audio_slots_clear *)
Definition audio_slots_clear (a : AirPlayMirrorAudio) : AirPlayMirrorAudio :=
  { a with slots := repeat empty_slot AIRPLAY_MIRROR_AUDIO_WINDOW; buffered := 0 }.

Section audio.
Context (recording : Z -> bool).

(** The frames that leave the window, each with whether it is given to the callback. *)
Definition emitted : Type := list (AirPlayMirrorAudioFrame * bool).

(** Every round empties a slot. *)
(* src: source/protocol/airplay/mirror/audio.c audio_emit_ready *)
Fixpoint audio_emit_ready (fuel : nat) (a : AirPlayMirrorAudio) : outcome (AirPlayMirrorAudio * emitted) :=
  match fuel with
  | O => Stuck
  | S fuel' =>
      if negb (sequence_ready a) then Done (a, [])
      else
        slot ← checked (slots a !! slot_index (expected_sequence a));
        if negb (filled slot) || negb (slot_sequence slot =? expected_sequence a) then Done (a, [])
        else
          let frame := mkFrame (slot_data slot) (slot_sequence slot) (slot_timestamp slot) (discontinuity a) in
          let delivered := recording (slot_sequence slot) in
          let a := { a with discontinuity := false } in
          let a := if delivered then { a with frames_emitted ::= inc } else a in
          let a := { set_slot a (expected_sequence a) empty_slot with
                     buffered ::= dec64; expected_sequence ::= (fun x => u16 (x + 1)) } in
          '(a, frames) ← audio_emit_ready fuel' a;
          Done (a, (frame, delivered) :: frames)
  end.

Definition EMIT_FUEL : nat := S AIRPLAY_MIRROR_AUDIO_WINDOW.

(** The loop over the slots. *)
(* src: source/protocol/airplay/mirror/audio.c 201-214 audio_skip_gap_if_needed *)
Definition nearest_slot (expected : Z) (l : list AirPlayAudioSlot) : Z * Z :=
  fold_left (fun '(nearest, nearest_distance) slot =>
    if negb (filled slot) then (nearest, nearest_distance)
    else
      let distance := u16 (slot_sequence slot - expected) in
      if distance <? nearest_distance then (slot_sequence slot, distance) else (nearest, nearest_distance))
    l (0, UINT16_MAX).

(* src: source/protocol/airplay/mirror/audio.c audio_skip_gap_if_needed *)
Definition audio_skip_gap_if_needed (a : AirPlayMirrorAudio) : AirPlayMirrorAudio :=
  if buffered a <? AIRPLAY_AUDIO_REORDER_THRESHOLD then a
  else
    let '(nearest, nearest_distance) := nearest_slot (expected_sequence a) (slots a) in
    if negb (nearest_distance =? UINT16_MAX) && negb (nearest_distance =? 0)
    then { a with expected_sequence := nearest; discontinuity := true } else a.

Context (setkey : list Z -> bool) (crypt_cbc : list Z -> list Z -> list Z -> option (list Z)).

(* src: source/protocol/airplay/security/crypto.c airplay_crypto_aes_cbc_decrypt *)
Definition airplay_crypto_aes_cbc_decrypt (key iv input : list Z) : option (list Z) :=
  if negb (size input `mod` AIRPLAY_CRYPTO_AES_BLOCK_SIZE =? 0) then None
  else if negb (setkey key) then None
  else if negb (size input =? 0) then crypt_cbc key iv input else Some [].

Context (key iv : list Z) (alloc : Z -> bool).

Definition empty_marker : list Z := [0x00; 0x68; 0x34; 0x00].

(** The payload of a packet, decrypted up to its last whole block. *)
(* src: source/protocol/airplay/mirror/audio.c 271-285 airplay_mirror_audio_process_packet *)
Definition packet_payload (payload : list Z) : option (list Z) :=
  if negb (alloc (size payload)) then None
  else
    let encrypted_size := Z.to_nat (size payload / AIRPLAY_CRYPTO_AES_BLOCK_SIZE * AIRPLAY_CRYPTO_AES_BLOCK_SIZE) in
    plain ← airplay_crypto_aes_cbc_decrypt key iv (take encrypted_size payload);
    Some (plain ++ drop encrypted_size payload).

(** The packet is put into its slot: [None] when the slot has it already or it
    cannot be decrypted. *)
(* src: source/protocol/airplay/mirror/audio.c 261-291 airplay_mirror_audio_process_packet *)
Definition insert_packet (a : AirPlayMirrorAudio) (sequence timestamp : Z) (payload : list Z)
    : outcome (bool * bool * AirPlayMirrorAudio) :=
  slot ← checked (slots a !! slot_index sequence);
  if filled slot && (slot_sequence slot =? sequence) then Done (true, false, a)
  else
    let a :=
      if filled slot then
        { set_slot a sequence empty_slot with buffered ::= dec64; discontinuity := true }
      else a in
    match packet_payload payload with
    | None => Done (false, false, a)
    | Some data =>
        Done (true, true, { set_slot a sequence (mkSlot data sequence timestamp true) with buffered ::= inc })
    end.

(** A packet that carries audio: the result, the state and the frames that left. *)
(* src: source/protocol/airplay/mirror/audio.c 247-295 airplay_mirror_audio_process_packet *)
Definition accept_packet (a : AirPlayMirrorAudio) (sequence timestamp : Z) (payload : list Z)
    : outcome (bool * AirPlayMirrorAudio * emitted) :=
  let a :=
    if negb (sequence_ready a) then { a with expected_sequence := sequence; sequence_ready := true } else a in
  let distance := i16 (sequence - expected_sequence a) in
  if distance <? 0 then Done (true, a, [])
  else
    let a :=
      if Z.of_nat AIRPLAY_MIRROR_AUDIO_WINDOW <=? u16 distance then
        { audio_slots_clear a with expected_sequence := sequence; discontinuity := true }
      else a in
    '(result, inserted, a) ← insert_packet a sequence timestamp payload;
    if negb inserted then Done (result, a, [])
    else
      '(a, frames1) ← audio_emit_ready EMIT_FUEL a;
      let a := audio_skip_gap_if_needed a in
      '(a, frames2) ← audio_emit_ready EMIT_FUEL a;
      Done (true, a, frames1 ++ frames2).

(* src: source/protocol/airplay/mirror/audio.c airplay_mirror_audio_process_packet *)
Definition airplay_mirror_audio_process_packet (a : AirPlayMirrorAudio) (packet : list Z)
    : outcome (bool * AirPlayMirrorAudio * emitted) :=
  if (size packet <? Z.of_nat AIRPLAY_MIRROR_AUDIO_RTP_HEADER_SIZE) || (AIRPLAY_MIRROR_AUDIO_MAX_PACKET <? size packet)
  then Done (false, a, [])
  else
    b0 ← checked (packet !! 0%nat); b1 ← checked (packet !! 1%nat);
    if negb (Z.shiftr b0 6 =? 2) || negb (Z.land b1 0x7f =? 96) then Done (false, a, [])
    else
      let payload := drop AIRPLAY_MIRROR_AUDIO_RTP_HEADER_SIZE packet in
      if bool_decide (payload = []) || bool_decide (payload = empty_marker) then Done (true, a, [])
      else
        sequence ← read_be16 packet 2;
        timestamp ← read_be32 packet 4;
        accept_packet a sequence timestamp payload.

(** The synchronisation that a control packet carries, as an event. *)
(* src: source/protocol/airplay/mirror/audio.c airplay_mirror_audio_process_control_packet *)
Definition airplay_mirror_audio_process_control_packet (a : AirPlayMirrorAudio) (packet : list Z)
    : outcome (bool * AirPlayMirrorAudio * emitted * option (Z * Z)) :=
  if size packet <? 4 then Done (false, a, [], None)
  else
    b0 ← checked (packet !! 0%nat);
    if negb (Z.shiftr b0 6 =? 2) then Done (false, a, [], None)
    else
      b1 ← checked (packet !! 1%nat);
      let packet_type := Z.land b1 0x7f in
      if packet_type =? 0x56 then
        if negb (4 + Z.of_nat AIRPLAY_MIRROR_AUDIO_RTP_HEADER_SIZE <=? size packet) then Done (false, a, [], None)
        else
          '(result, a, frames) ← airplay_mirror_audio_process_packet a (drop 4 packet);
          Done (result, a, frames, None)
      else if negb (packet_type =? 0x54) || (size packet <? 20) then Done (false, a, [], None)
      else
        rtp ← read_be32 packet 4;
        ntp ← read_be64 packet 8;
        if ntp =? 0 then Done (false, a, [], None) else Done (true, a, [], Some (rtp, ntp)).
End audio.

(** ** Mirrored audio leaves the window in order

    The invariant of the window of slots, what leaves it, and that packets which
    arrive a little out of order are put back in order. *)

(** ** The window *)

(** The distance of a sequence number from the expected one. *)
Definition ahead (expected sequence : Z) : Z := u16 (sequence - expected).

Definition slot_ok (expected : Z) (i : nat) (s : AirPlayAudioSlot) : Prop :=
  if filled s then is_u16 (slot_sequence s) /\ slot_index (slot_sequence s) = i /\ ahead expected (slot_sequence s) < 64
  else s = empty_slot.

Record window_ok (a : AirPlayMirrorAudio) : Prop := {
  ok_slots : length (slots a) = AIRPLAY_MIRROR_AUDIO_WINDOW;
  ok_expected : is_u16 (expected_sequence a);
  ok_slot : forall i s, slots a !! i = Some s -> slot_ok (expected_sequence a) i s;
  ok_buffered : buffered a = count filled (slots a)
}.

(** The slot that holds a sequence number. *)
Definition holds (a : AirPlayMirrorAudio) (sequence : Z) (s : AirPlayAudioSlot) : Prop :=
  slots a !! slot_index sequence = Some s /\ filled s = true /\ slot_sequence s = sequence.

Lemma slot_index_bound sequence : (slot_index sequence < 64)%nat.
Proof. unfold slot_index. lia. Qed.

Lemma slot_index_inj e s t :
  is_u16 s -> is_u16 t -> ahead e s < 64 -> ahead e t < 64 -> slot_index s = slot_index t -> s = t.
Proof. unfold slot_index, ahead, u16, is_u16. intros. lia. Qed.

Lemma slot_lookup a sequence : window_ok a -> exists s, slots a !! slot_index sequence = Some s.
Proof.
  intros Ha. apply lookup_lt_is_Some. rewrite (ok_slots a Ha). apply slot_index_bound.
Qed.

Lemma holds_facts a sequence s : window_ok a -> holds a sequence s ->
  is_u16 sequence /\ ahead (expected_sequence a) sequence < 64.
Proof.
  intros Ha (Hs & Hf & <-). pose proof (ok_slot a Ha _ s Hs) as Hok. unfold slot_ok in Hok. rewrite Hf in Hok. tauto.
Qed.

Lemma filled_holds a i s : window_ok a -> slots a !! i = Some s -> filled s = true -> holds a (slot_sequence s) s.
Proof.
  intros Ha Hs Hf. pose proof (ok_slot a Ha i s Hs) as Hok. unfold slot_ok in Hok. rewrite Hf in Hok.
  destruct Hok as (_ & Hi & _). by split_and!; [rewrite Hi|..].
Qed.

Lemma buffered_bounds a : window_ok a -> 0 <= buffered a <= 64.
Proof.
  intros Ha. rewrite (ok_buffered a Ha). pose proof (count_bounds filled (slots a)) as H. unfold size in H.
  rewrite (ok_slots a Ha) in H. unfold AIRPLAY_MIRROR_AUDIO_WINDOW in H. lia.
Qed.

Lemma buffered_zero a : window_ok a -> buffered a = 0 <-> forall sequence s, ~ holds a sequence s.
Proof.
  intros Ha. rewrite (ok_buffered a Ha). pose proof (count_bounds filled (slots a)). split.
  - intros H0 sequence s (Hs & Hf & _). enough (0 < count filled (slots a)) by lia. apply count_pos. by eexists _, _.
  - intros Hn. destruct (decide (0 < count filled (slots a))) as [Hp|]; [|lia]. apply count_pos in Hp as (i & s & Hs & Hf).
    by destruct (Hn (slot_sequence s) s); apply (filled_holds a i).
Qed.

(** ** One frame leaves *)

Definition frame_of (a : AirPlayMirrorAudio) (s : AirPlayAudioSlot) : AirPlayMirrorAudioFrame :=
  mkFrame (slot_data s) (slot_sequence s) (slot_timestamp s) (discontinuity a).

Definition emit_one (delivered : bool) (a : AirPlayMirrorAudio) : AirPlayMirrorAudio :=
  let a := { a with discontinuity := false } in
  let a := if delivered then { a with frames_emitted ::= inc } else a in
  { set_slot a (expected_sequence a) empty_slot with buffered ::= dec64; expected_sequence ::= (fun x => u16 (x + 1)) }.

Lemma emit_one_fields delivered a :
  slots (emit_one delivered a) = <[slot_index (expected_sequence a) := empty_slot]> (slots a) /\
  buffered (emit_one delivered a) = dec64 (buffered a) /\
  expected_sequence (emit_one delivered a) = u16 (expected_sequence a + 1) /\
  sequence_ready (emit_one delivered a) = sequence_ready a /\ discontinuity (emit_one delivered a) = false.
Proof. unfold emit_one. by destruct delivered. Qed.

Lemma emit_one_ok delivered a s :
  window_ok a -> holds a (expected_sequence a) s ->
  window_ok (emit_one delivered a) /\ buffered (emit_one delivered a) = buffered a - 1 /\
  forall sequence t, holds (emit_one delivered a) sequence t <-> holds a sequence t /\ sequence <> expected_sequence a.
Proof.
  intros Ha Hs. pose proof (buffered_bounds a Ha) as Hbd. destruct (emit_one_fields delivered a) as (E1 & E2 & E3 & _ & _).
  assert (Hpos : 0 < buffered a).
  { rewrite (ok_buffered a Ha). apply count_pos. destruct Hs as (Hs & Hf & _). by eexists _, _. }
  assert (Hb : buffered (emit_one delivered a) = buffered a - 1) by (rewrite E2; unfold dec64; width_lia).
  pose proof (ok_expected a Ha) as He. split; [constructor|split; [done|]].
  - rewrite E1, length_insert. apply (ok_slots a Ha).
  - rewrite E3. unfold is_u16, u16. lia.
  - intros i t Ht. rewrite E1 in Ht. apply list_lookup_insert_Some in Ht as [(<- & <- & _)|[Hne Ht]]; [done|].
    pose proof (ok_slot a Ha i t Ht) as Hok. unfold slot_ok in *. destruct (filled t) eqn:Hf; [|done].
    destruct Hok as (H1 & H2 & H3). split; [done|split; [done|]]. rewrite E3.
    assert (Hdiff : slot_sequence t <> expected_sequence a) by (intros Heq; apply Hne; by rewrite <- H2, Heq).
    unfold ahead, u16, is_u16 in *. lia.
  - destruct Hs as (Hs & Hf & _). rewrite Hb, E1, (count_insert _ _ _ s _ Hs), Hf, (ok_buffered a Ha). cbn. lia.
  - intros sequence t. unfold holds. rewrite E1. destruct Hs as (Hs & _ & _).
    assert (Hlt : (slot_index (expected_sequence a) < length (slots a))%nat) by (eapply lookup_lt_Some; exact Hs).
    split.
    + intros (Ht & Hf & Hseq). apply list_lookup_insert_Some in Ht as [(_ & <- & _)|[Hne Ht]]; [done|].
      split; [done|]. intros ->. by apply Hne.
    + intros [(Ht & Hf & Hseq) Hne]. split_and!; try done. rewrite list_lookup_insert_ne; [done|]. intros Heq. apply Hne.
      assert (Hh : holds a sequence t) by (by split_and!). destruct (holds_facts a sequence t Ha Hh) as [Hu Hw].
      apply (slot_index_inj (expected_sequence a)); try done. unfold ahead, u16. lia.
Qed.

(** ** The frames that are ready leave *)

(** What leaves a window: the frames from the expected one on. *)
Record leaves (a a' : AirPlayMirrorAudio) (frames : emitted) : Prop := {
  leaves_window : window_ok a';
  leaves_ready : sequence_ready a' = true;
  leaves_expected : expected_sequence a' = u16 (expected_sequence a + size frames);
  leaves_buffered : buffered a' = buffered a - size frames;
  leaves_settled : forall s, ~ holds a' (expected_sequence a') s;
  leaves_frames : forall k f d, frames !! k = Some (f, d) ->
    frame_sequence f = u16 (expected_sequence a + Z.of_nat k) /\
    frame_discontinuity f = (if decide (k = 0%nat) then discontinuity a else false) /\
    exists s, holds a (frame_sequence f) s /\ frame_data f = slot_data s /\ rtp_timestamp f = slot_timestamp s;
  leaves_discontinuity : discontinuity a' = match frames with [] => discontinuity a | _ => false end;
  leaves_holds : forall sequence s, holds a' sequence s <->
    holds a sequence s /\ size frames <= ahead (expected_sequence a) sequence
}.

Lemma not_held a : window_ok a -> forall s, slots a !! slot_index (expected_sequence a) = Some s ->
  negb (filled s) || negb (slot_sequence s =? expected_sequence a) = true -> forall t, ~ holds a (expected_sequence a) t.
Proof.
  intros Ha s Hs Hb t (Ht & Hf & Hq). assert (t = s) as -> by congruence. rewrite Hf in Hb. cbn in Hb.
  apply negb_true_iff, Z.eqb_neq in Hb. done.
Qed.

Lemma leaves_nil a : window_ok a -> sequence_ready a = true -> (forall s, ~ holds a (expected_sequence a) s) -> leaves a a [].
Proof.
  intros Ha Hr Hn. constructor; try done.
  - change (size (@nil (AirPlayMirrorAudioFrame * bool))) with 0. pose proof (ok_expected a Ha). unfold is_u16, u16 in *. lia.
  - change (size (@nil (AirPlayMirrorAudioFrame * bool))) with 0. lia.
  - intros sequence s. change (size (@nil (AirPlayMirrorAudioFrame * bool))) with 0. unfold ahead, u16.
    split; [|tauto]. intros H. split; [done|]. lia.
Qed.

Lemma leaves_cons a a' s delivered frames :
  window_ok a -> holds a (expected_sequence a) s -> leaves (emit_one delivered a) a' frames ->
  leaves a a' ((frame_of a s, delivered) :: frames).
Proof.
  intros Ha Hs [L1 L2 L3 L4 L5 L6 L7 L8]. destruct (emit_one_ok delivered a s Ha Hs) as (Hw & Hb & Hh).
  destruct (emit_one_fields delivered a) as (E1 & E2 & E3 & E4 & E5). pose proof (ok_expected a Ha) as He.
  constructor; try done.
  - rewrite L3, E3, size_cons. unfold u16. lia.
  - rewrite L4, Hb, size_cons. lia.
  - intros [|k] f d Hk.
    + cbn in Hk. injection Hk as <- <-. cbn. destruct Hs as (Hs & Hf & Hq). split; [|split; [done|]].
      * rewrite Hq. unfold is_u16, u16 in *. lia.
      * exists s. rewrite Hq. by split_and!.
    + cbn in Hk. destruct (L6 k f d Hk) as (F1 & F2 & t & Ht & F3 & F4). split; [|split].
      * rewrite F1, E3. unfold u16. lia.
      * rewrite F2, E5. destruct (decide (S k = 0%nat)); [done|]. by destruct (decide (k = 0%nat)).
      * exists t. split; [|done]. by apply Hh.
  - rewrite L7, E5. by destruct frames.
  - intros sequence t. rewrite L8, Hh, size_cons, E3. pose proof (size_nonneg frames). split.
    + intros [[Ht Hne] Hle]. split; [done|]. destruct (holds_facts a sequence t Ha Ht) as [Hu Hwin].
      unfold ahead, u16, is_u16 in *. lia.
    + intros [Ht Hle]. destruct (holds_facts a sequence t Ha Ht) as [Hu Hwin].
      assert (Hne : sequence <> expected_sequence a) by (intros ->; unfold ahead, u16 in *; lia).
      split; [done|]. unfold ahead, u16, is_u16 in *. lia.
Qed.

Lemma emit_step recording fuel a s : sequence_ready a = true -> holds a (expected_sequence a) s ->
  audio_emit_ready recording (S fuel) a =
    ('(a', frames) ← audio_emit_ready recording fuel (emit_one (recording (slot_sequence s)) a);
     Done (a', (frame_of a s, recording (slot_sequence s)) :: frames)).
Proof.
  intros Hr (Hs & Hf & Hq). cbn [audio_emit_ready]. rewrite Hr. cbn [negb]. rewrite Hs. cbn [checked mbind outcome_bind].
  rewrite Hf, Hq, Z.eqb_refl. cbn [negb orb]. unfold emit_one, frame_of. rewrite Hq. by destruct (recording _).
Qed.

Lemma emit_spec recording fuel a :
  window_ok a -> sequence_ready a = true -> buffered a < Z.of_nat fuel ->
  exists a' frames, audio_emit_ready recording fuel a = Done (a', frames) /\ leaves a a' frames.
Proof.
  revert a. induction fuel as [|fuel IH]; intros a Ha Hr Hf; [pose proof (buffered_bounds a Ha); lia|].
  destruct (slot_lookup a (expected_sequence a) Ha) as [s Hs].
  destruct (negb (filled s) || negb (slot_sequence s =? expected_sequence a)) eqn:Hb.
  { exists a, []. split; [|by apply leaves_nil, (not_held a Ha s Hs)]. cbn [audio_emit_ready]. rewrite Hr, Hs. cbn [negb checked mbind outcome_bind].
    by rewrite Hb. }
  apply orb_false_iff in Hb as [Hfs%negb_false_iff Hq%negb_false_iff%Z.eqb_eq].
  assert (Hh : holds a (expected_sequence a) s) by (by split_and!). rewrite (emit_step _ _ _ s Hr Hh).
  set (d := recording (slot_sequence s)). destruct (emit_one_ok d a s Ha Hh) as (Hw & Hbf & _).
  destruct (emit_one_fields d a) as (_ & _ & _ & E4 & _).
  destruct (IH (emit_one d a) Hw ltac:(congruence) ltac:(lia)) as (a' & frames & E & Hl).
  rewrite E. eexists a', _. split; [done|]. by apply leaves_cons.
Qed.

Lemma leaves_again a a' a'' frames frames' : leaves a a' frames -> leaves a' a'' frames' -> frames' = [] /\ sequence_ready a'' = true.
Proof.
  intros L L'. split; [|by apply L']. destruct frames' as [|[f d] frames']; [done|].
  destruct (leaves_frames _ _ _ L' 0%nat f d eq_refl) as (Hf & _ & s & Hs & _). exfalso.
  apply (leaves_settled _ _ _ L s). pose proof (ok_expected a' (leaves_window _ _ _ L)) as Hu.
  replace (frame_sequence f) with (expected_sequence a') in Hs; [done|]. rewrite Hf. unfold u16, is_u16 in *. lia.
Qed.

Lemma leaves_last a a' frames f d : leaves a a' (frames ++ [(f, d)]) -> expected_sequence a' = u16 (frame_sequence f + 1).
Proof.
  intros L. rewrite (leaves_expected _ _ _ L), size_app. change (size [(f, d)]) with 1.
  destruct (leaves_frames _ _ _ L (length frames) f d) as [-> _]; [apply lookup_at|]. unfold u16, size. lia.
Qed.

(** ** A gap is skipped *)

Definition nearest_step (expected : Z) (acc : Z * Z) (s : AirPlayAudioSlot) : Z * Z :=
  if negb (filled s) then acc
  else if ahead expected (slot_sequence s) <? acc.2 then (slot_sequence s, ahead expected (slot_sequence s)) else acc.

Lemma nearest_fold expected l : nearest_slot expected l = fold_left (nearest_step expected) l (0, UINT16_MAX).
Proof. unfold nearest_slot. generalize (0, UINT16_MAX). induction l as [|s l IH]; intros [n d]; [done|]. cbn. by rewrite IH. Qed.

Lemma nearest_min expected l : forall acc,
  let r := fold_left (nearest_step expected) l acc in
  (r = acc \/ exists s, s ∈ l /\ filled s = true /\ r = (slot_sequence s, ahead expected (slot_sequence s))) /\
  r.2 <= acc.2 /\ forall s, s ∈ l -> filled s = true -> r.2 <= ahead expected (slot_sequence s).
Proof.
  induction l as [|s l IH]; intros acc; cbn [fold_left].
  - split; [by left|]. split; [done|]. by intros s ?%elem_of_nil.
  - specialize (IH (nearest_step expected acc s)). cbv zeta in *. destruct IH as (H1 & H2 & H3).
    assert (Hs : (nearest_step expected acc s).2 <= acc.2 /\
      (filled s = true -> (nearest_step expected acc s).2 <= ahead expected (slot_sequence s)) /\
      (nearest_step expected acc s = acc \/
       filled s = true /\ nearest_step expected acc s = (slot_sequence s, ahead expected (slot_sequence s)))).
    { unfold nearest_step. destruct (filled s); cbn [negb]; [|split; [done|split; [done|by left]]].
      destruct (Z.ltb_spec (ahead expected (slot_sequence s)) acc.2); cbn [snd];
        (split; [lia|split; [intros _; lia|]]); [by right|by left]. }
    destruct Hs as (S1 & S2 & S3). split; [|split; [lia|]].
    + destruct H1 as [->|(t & Ht & Hf & ->)]; [|right; exists t; split; [by right|done]].
      destruct S3 as [->|[Hf ->]]; [by left|right]. exists s. split; [by left|done].
    + intros t [->|Ht]%elem_of_cons Hf; [specialize (S2 Hf); lia|by apply H3].
Qed.

(** What skipping does to a window whose expected packet is missing. *)
Lemma skip_spec a :
  window_ok a -> sequence_ready a = true -> (forall s, ~ holds a (expected_sequence a) s) ->
  let a' := audio_skip_gap_if_needed a in
  window_ok a' /\ sequence_ready a' = true /\ buffered a' = buffered a /\
  (forall sequence s, holds a' sequence s <-> holds a sequence s) /\
  ((buffered a < 3 /\ a' = a) \/
   (3 <= buffered a /\ discontinuity a' = true /\ exists s, holds a' (expected_sequence a') s)).
Proof.
  intros Ha Hr Hn. unfold audio_skip_gap_if_needed, AIRPLAY_AUDIO_REORDER_THRESHOLD.
  destruct (Z.ltb_spec (buffered a) 3) as [Hb|Hb].
  { cbv zeta. split; [done|]. split; [done|]. split; [done|]. split; [done|]. left. done. }
  rewrite nearest_fold. destruct (nearest_min (expected_sequence a) (slots a) (0, UINT16_MAX)) as (H1 & _ & H3).
  destruct (fold_left _ _ _) as [n d] eqn:E. cbn [snd] in *.
  assert (Hp : 0 < count filled (slots a)) by (rewrite <- (ok_buffered a Ha); lia).
  apply count_pos in Hp as (i & s0 & Hs0 & Hf0). pose proof (filled_holds a i s0 Ha Hs0 Hf0) as Hh0.
  destruct (holds_facts _ _ _ Ha Hh0) as [_ Hw0].
  assert (Hd : d < 64) by (specialize (H3 s0 (list_elem_of_lookup_2 _ _ _ Hs0) Hf0); lia).
  destruct H1 as [[= -> ->]|(s & [j Hs]%list_elem_of_lookup & Hf & [= -> ->])]; [unfold UINT16_MAX in Hd; lia|].
  pose proof (filled_holds a j s Ha Hs Hf) as Hh. destruct (holds_facts _ _ _ Ha Hh) as [Hu Hw].
  assert (Hne : slot_sequence s <> expected_sequence a) by (intros Heq; rewrite Heq in Hh; by apply (Hn s)).
  pose proof (ok_expected a Ha) as He.
  assert (Hpos : 0 < ahead (expected_sequence a) (slot_sequence s)) by (unfold ahead, u16, is_u16 in *; lia).
  unfold UINT16_MAX. rewrite (proj2 (Z.eqb_neq _ _)), (proj2 (Z.eqb_neq _ _)) by lia. cbn [negb andb]. cbv zeta.
  split; [|split; [done|]; split; [done|]; split; [done|]; right; split; [done|]; split; [done|]; by exists s].
  constructor; cbn; [apply (ok_slots a Ha)|done| |apply (ok_buffered a Ha)].
  intros k t Ht. pose proof (ok_slot a Ha k t Ht) as Hok. unfold slot_ok in *. destruct (filled t) eqn:Hft; [|done].
  destruct Hok as (K1 & K2 & K3). split; [done|split; [done|]].
  specialize (H3 t (list_elem_of_lookup_2 _ _ _ Ht) Hft). unfold ahead, u16, is_u16 in *. lia.
Qed.

(** ** A packet enters *)

Section accept.
Context (setkey : list Z -> bool) (crypt_cbc : list Z -> list Z -> list Z -> option (list Z)).
Context (key iv : list Z) (alloc : Z -> bool).

Local Abbreviation insert_packet := (insert_packet setkey crypt_cbc key iv alloc).
Local Abbreviation packet_payload := (packet_payload setkey crypt_cbc key iv alloc).

(** [a'] is [a] with a slot filled. *)
Record enters (a a' : AirPlayMirrorAudio) (sequence : Z) (slot : AirPlayAudioSlot) : Prop := {
  enters_window : window_ok a';
  enters_free : forall s, ~ holds a sequence s;
  enters_expected : expected_sequence a' = expected_sequence a;
  enters_ready : sequence_ready a' = sequence_ready a;
  enters_discontinuity : discontinuity a' = discontinuity a;
  enters_buffered : buffered a' = buffered a + 1;
  enters_holds : forall q s, holds a' q s <-> holds a q s \/ (q = sequence /\ s = slot)
}.

Lemma fill_slot a sequence slot :
  window_ok a -> is_u16 sequence -> ahead (expected_sequence a) sequence < 64 -> (forall s, ~ holds a sequence s) ->
  filled slot = true -> slot_sequence slot = sequence ->
  enters a { set_slot a sequence slot with buffered ::= inc } sequence slot.
Proof.
  intros Ha Hu Hw Hn Hf Hq. destruct (slot_lookup a sequence Ha) as [s Hs].
  assert (Hlt : (slot_index sequence < length (slots a))%nat) by (by eapply lookup_lt_Some).
  assert (Hfree : filled s = false).
  { destruct (filled s) eqn:Hfs; [|done]. exfalso. pose proof (filled_holds a _ s Ha Hs Hfs) as Hh.
    destruct (holds_facts _ _ _ Ha Hh) as [Hu' Hw']. pose proof (ok_slot a Ha _ s Hs) as Hok. unfold slot_ok in Hok.
    rewrite Hfs in Hok. destruct Hok as (_ & Hi & _).
    rewrite (slot_index_inj (expected_sequence a) (slot_sequence s) sequence) in Hh by done. by apply (Hn s). }
  assert (Hb : inc (buffered a) = buffered a + 1) by (pose proof (buffered_bounds a Ha); unfold inc; width_lia).
  constructor; try done.
  - constructor; cbn.
    + rewrite length_insert. apply (ok_slots a Ha).
    + apply (ok_expected a Ha).
    + intros i t Ht. apply list_lookup_insert_Some in Ht as [(<- & <- & _)|[_ Ht]]; [|by apply (ok_slot a Ha)].
      unfold slot_ok. rewrite Hf, Hq. done.
    + rewrite (count_insert _ _ _ s) by done. rewrite Hfree, Hf, Hb, (ok_buffered a Ha). cbn. lia.
  - intros q t. unfold holds. cbn. split.
    + intros (Ht & Hft & Hqt). apply list_lookup_insert_Some in Ht as [(_ & <- & _)|[_ Ht]]; [right|by left].
      split; [congruence|done].
    + intros [(Ht & Hft & Hqt)|[-> ->]]; [|split; [by apply list_lookup_insert_eq|done]].
      split; [|done]. rewrite list_lookup_insert_ne; [done|]. intros Heq. rewrite <- Heq in Ht. congruence.
Qed.

Lemma insert_spec a sequence timestamp payload :
  window_ok a -> is_u16 sequence -> ahead (expected_sequence a) sequence < 64 ->
  ((exists r, insert_packet a sequence timestamp payload = Done (r, false, a)) /\
     ((exists s, holds a sequence s) \/ packet_payload payload = None)) \/
  (exists a' data, insert_packet a sequence timestamp payload = Done (true, true, a') /\
     packet_payload payload = Some data /\ enters a a' sequence (mkSlot data sequence timestamp true)).
Proof.
  intros Ha Hu Hw. unfold MirrorAudio.insert_packet. destruct (slot_lookup a sequence Ha) as [s Hs].
  rewrite Hs. cbn [checked mbind outcome_bind]. destruct (filled s) eqn:Hf; cbn [andb].
  - pose proof (filled_holds a _ s Ha Hs Hf) as Hh. destruct (holds_facts _ _ _ Ha Hh) as [Hu' Hw'].
    pose proof (ok_slot a Ha _ s Hs) as Hok. unfold slot_ok in Hok. rewrite Hf in Hok. destruct Hok as (_ & Hi & _).
    rewrite (slot_index_inj (expected_sequence a) (slot_sequence s) sequence) in Hh |- * by done. rewrite Z.eqb_refl.
    left. split; [by eexists|]. left. by exists s.
  - destruct (packet_payload payload) as [data|]; [right|left; split; [by eexists|by right]].
    eexists _, data. split; [done|split; [done|]]. apply fill_slot; try done.
    intros t (Ht & Hft & _). congruence.
Qed.
End accept.

Lemma emit_settled recording fuel a :
  window_ok a -> sequence_ready a = true -> (forall s, ~ holds a (expected_sequence a) s) ->
  audio_emit_ready recording (S fuel) a = Done (a, []).
Proof.
  intros Ha Hr Hn. destruct (slot_lookup a (expected_sequence a) Ha) as [s Hs].
  cbn [audio_emit_ready]. rewrite Hr, Hs. cbn [negb checked mbind outcome_bind].
  destruct (filled s) eqn:Hf; [|done]. destruct (Z.eqb_spec (slot_sequence s) (expected_sequence a)) as [Hq|]; [|done].
  destruct (Hn s). by split_and!.
Qed.

(** What follows the insertion: the frames that are ready leave, a gap is skipped when three wait behind it. *)
Lemma drain_spec recording a :
  window_ok a -> sequence_ready a = true -> buffered a <= 3 ->
  exists a1 frames1 a2 frames2,
    audio_emit_ready recording EMIT_FUEL a = Done (a1, frames1) /\ leaves a a1 frames1 /\
    audio_emit_ready recording EMIT_FUEL (audio_skip_gap_if_needed a1) = Done (a2, frames2) /\
    leaves (audio_skip_gap_if_needed a1) a2 frames2 /\ buffered a2 <= 2 /\
    (buffered a - size frames1 < 3 -> a2 = a1 /\ frames2 = []).
Proof.
  intros Ha Hr Hb. destruct (emit_spec recording EMIT_FUEL a Ha Hr) as (a1 & f1 & E1 & L1); [unfold EMIT_FUEL, AIRPLAY_MIRROR_AUDIO_WINDOW; lia|].
  pose proof (leaves_buffered _ _ _ L1) as Hb1. pose proof (size_nonneg f1).
  destruct (skip_spec a1) as (Hw & Hr' & Hbs & _ & Hcase); [by apply L1..|]. cbv zeta in *.
  destruct (emit_spec recording EMIT_FUEL (audio_skip_gap_if_needed a1) Hw Hr') as (a2 & f2 & E2 & L2).
  { pose proof (buffered_bounds _ Hw). unfold EMIT_FUEL, AIRPLAY_MIRROR_AUDIO_WINDOW. lia. }
  exists a1, f1, a2, f2. split; [done|split; [done|split; [done|split; [done|]]]].
  pose proof (leaves_buffered _ _ _ L2) as Hb2. pose proof (size_nonneg f2). split.
  - destruct Hcase as [[Hlt _]|(_ & _ & s & Hs)]; [lia|]. enough (size f2 <> 0) by lia. intros Hz.
    destruct f2; [|rewrite size_cons in Hz; pose proof (size_nonneg f2); lia].
    pose proof (leaves_expected _ _ _ L2) as He. change (size []) with 0 in He. pose proof (ok_expected _ Hw).
    apply (leaves_settled _ _ _ L2 s). apply (leaves_holds _ _ _ L2).
    replace (expected_sequence a2) with (expected_sequence (audio_skip_gap_if_needed a1)) by (unfold u16, is_u16 in *; lia).
    split; [done|]. change (size []) with 0. unfold ahead, u16. lia.
  - intros Hlt. destruct Hcase as [[_ Hsame]|[Hge _]]; [|lia]. rewrite Hsame in E2, L2.
    unfold EMIT_FUEL in E2. rewrite emit_settled in E2; [by injection E2 as <- <-|by apply L1..].
Qed.

(** ** Every packet *)

(** Frames follow each other, except where the discontinuity is announced; [next] is
    the number after the last frame that left. *)
Fixpoint continuous (next : option Z) (frames : emitted) : Prop :=
  match frames with
  | [] => True
  | (f, _) :: frames' =>
      (frame_discontinuity f = true \/ forall n, next = Some n -> frame_sequence f = n) /\
      continuous (Some (u16 (frame_sequence f + 1))) frames'
  end.

Fixpoint after (next : option Z) (frames : emitted) : option Z :=
  match frames with
  | [] => next
  | (f, _) :: frames' => after (Some (u16 (frame_sequence f + 1))) frames'
  end.

Lemma continuous_app next l l' : continuous next (l ++ l') <-> continuous next l /\ continuous (after next l) l'.
Proof. revert next. induction l as [|[f d] l IH]; intros next; cbn; [tauto|]. rewrite IH. tauto. Qed.

Lemma after_app next l l' : after next (l ++ l') = after (after next l) l'.
Proof. revert next. induction l as [|[f d] l IH]; intros next; cbn; [done|]. apply IH. Qed.

Definition joined (next : option Z) (a : AirPlayMirrorAudio) : Prop :=
  discontinuity a = true \/ forall n, next = Some n -> expected_sequence a = n.

Lemma numbered_continuous expected marked (frames : emitted) : forall next,
  is_u16 expected ->
  (forall k f d, frames !! k = Some (f, d) ->
     frame_sequence f = u16 (expected + Z.of_nat k) /\ (k = 0%nat -> marked = true -> frame_discontinuity f = true)) ->
  (marked = true \/ forall n, next = Some n -> expected = n) ->
  continuous next frames /\
  after next frames = match frames with [] => next | _ => Some (u16 (expected + size frames)) end.
Proof.
  revert expected marked. induction frames as [|[f d] frames IH]; intros expected marked next He Hf Hj; [done|].
  cbn [continuous after]. destruct (Hf 0%nat f d eq_refl) as [Hq Hm]. rewrite Z.add_0_r in Hq.
  assert (Hq' : frame_sequence f = expected) by (rewrite Hq; unfold u16, is_u16 in *; lia).
  destruct (IH (u16 (expected + 1)) false (Some (u16 (frame_sequence f + 1)))) as [Hc Ha].
  - unfold u16, is_u16. lia.
  - intros k g e Hk. destruct (Hf (S k) g e Hk) as [-> _]. split; [unfold u16; lia|done].
  - right. intros n [= <-]. by rewrite Hq'.
  - split; [split; [|done]|].
    + destruct Hj as [Hj|Hj]; [left; by apply Hm|right]. intros n Hn. rewrite Hq'. by apply Hj.
    + rewrite Ha, Hq', size_cons. destruct frames as [|g frames]; [change (size (@nil (AirPlayMirrorAudioFrame * bool))) with 0|];
        f_equal; unfold u16; lia.
Qed.

Lemma leaves_continuous a a' frames next :
  window_ok a -> leaves a a' frames -> joined next a ->
  continuous next frames /\ joined (after next frames) a'.
Proof.
  intros Ha L Hj. destruct (numbered_continuous (expected_sequence a) (discontinuity a) frames next (ok_expected a Ha)) as [Hc Hn].
  - intros k f d Hk. destruct (leaves_frames _ _ _ L k f d Hk) as (Hq & Hd & _). split; [done|]. intros ->. by rewrite Hd.
  - exact Hj.
  - split; [done|]. unfold joined. rewrite (leaves_discontinuity _ _ _ L), (leaves_expected _ _ _ L), Hn. destruct frames as [|g frames].
    + destruct Hj as [Hj|Hj]; [by left|right]. intros n Hn'. rewrite <- (Hj n Hn').
      change (size (@nil (AirPlayMirrorAudioFrame * bool))) with 0. pose proof (ok_expected a Ha). unfold u16, is_u16 in *. lia.
    + right. by intros n [= <-].
Qed.

(** The state between two packets. *)
Record audio_ok (next : option Z) (from : AirPlayAudioSlot -> Prop) (a : AirPlayMirrorAudio) : Prop := {
  audio_window : window_ok a;
  audio_buffered : buffered a <= 2;
  audio_settled : forall s, ~ holds a (expected_sequence a) s;
  audio_idle : sequence_ready a = false -> next = None /\ buffered a = 0;
  audio_joined : joined next a;
  audio_from : forall q s, holds a q s -> from s
}.

Definition slot_of (f : AirPlayMirrorAudioFrame) : AirPlayAudioSlot :=
  mkSlot (frame_data f) (frame_sequence f) (rtp_timestamp f) true.

Lemma leaves_from a a' frames (from : AirPlayAudioSlot -> Prop) :
  leaves a a' frames -> (forall q s, holds a q s -> from s) ->
  Forall (fun fd => from (slot_of fd.1)) frames /\ forall q s, holds a' q s -> from s.
Proof.
  intros L Hf. split.
  - apply Forall_lookup. intros k [f d] Hk. destruct (leaves_frames _ _ _ L k f d Hk) as (_ & _ & s & Hs & E1 & E2).
    unfold slot_of. cbn. rewrite E1, E2. destruct s as [data q t fl]. cbn. pose proof (Hf _ _ Hs) as Hfs.
    destruct Hs as (_ & Hfl & Hq). cbn in Hfl, Hq. by rewrite <- Hfl, <- Hq.
  - intros q s Hs. apply (Hf q). by apply (leaves_holds _ _ _ L).
Qed.

Lemma window_clear a expected : is_u16 expected ->
  window_ok { audio_slots_clear a with expected_sequence := expected; discontinuity := true } /\
  forall q s, ~ holds { audio_slots_clear a with expected_sequence := expected; discontinuity := true } q s.
Proof.
  intros He. split.
  - constructor; [done|done| |symmetry; by apply count_repeat]. intros i s ->%lookup_repeat. done.
  - intros q s (->%lookup_repeat & Hf & _). done.
Qed.

Section packets.
Context (recording : Z -> bool) (setkey : list Z -> bool) (crypt_cbc : list Z -> list Z -> list Z -> option (list Z)).
Context (key iv : list Z) (alloc : Z -> bool).

Local Abbreviation packet_payload := (packet_payload setkey crypt_cbc key iv alloc).
Local Abbreviation accept_packet := (accept_packet recording setkey crypt_cbc key iv alloc).
Local Abbreviation process_packet := (airplay_mirror_audio_process_packet recording setkey crypt_cbc key iv alloc).

(** A packet in the window is inserted, and what is ready leaves. *)
Lemma enter_and_drain next from a sequence timestamp payload :
  audio_ok next from a -> sequence_ready a = true -> is_u16 sequence -> ahead (expected_sequence a) sequence < 64 ->
  (forall data, packet_payload payload = Some data -> from (mkSlot data sequence timestamp true)) ->
  exists r a' frames,
    ('(result, inserted, a) ← insert_packet setkey crypt_cbc key iv alloc a sequence timestamp payload;
     if negb inserted then Done (result, a, [])
     else
       '(a, frames1) ← audio_emit_ready recording EMIT_FUEL a;
       '(a, frames2) ← audio_emit_ready recording EMIT_FUEL (audio_skip_gap_if_needed a);
       Done (true, a, frames1 ++ frames2)) = Done (r, a', frames) /\
    audio_ok (after next frames) from a' /\ continuous next frames /\ Forall (fun fd => from (slot_of fd.1)) frames.
Proof.
  intros Ha Hr Hu Hw Hp. destruct Ha as [Hwin Hb Hs Hi Hj Hf].
  destruct (insert_spec setkey crypt_cbc key iv alloc a sequence timestamp payload Hwin Hu Hw) as [[[r E] _]|(a1 & data & E & Hd & He)];
    rewrite E; cbn [mbind outcome_bind negb].
  { exists r, a, []. split; [done|]. cbn. by split_and!. }
  destruct He as [E1 _ E3 E4 E5 E6 E7]. assert (Hf1 : forall q s, holds a1 q s -> from s).
  { intros q s [Hq|[-> ->]]%E7; [by apply (Hf q)|by apply Hp]. }
  assert (Hj1 : joined next a1) by (unfold joined; by rewrite E3, E5).
  destruct (drain_spec recording a1) as (b1 & f1 & b2 & f2 & D1 & L1 & D2 & L2 & Hb2 & _); [done|congruence|lia|].
  rewrite D1. cbn [mbind outcome_bind]. rewrite D2. cbn [mbind outcome_bind].
  destruct (leaves_continuous _ _ _ next E1 L1 Hj1) as [C1 J1]. destruct (leaves_from _ _ _ from L1 Hf1) as [F1 Fh1].
  destruct (skip_spec b1) as (Hw' & Hr' & _ & Hh' & Hc); [by apply L1..|]. cbv zeta in *.
  assert (J1' : joined (after next f1) (audio_skip_gap_if_needed b1)).
  { destruct Hc as [[_ ->]|(_ & Hd' & _)]; [done|by left]. }
  destruct (leaves_continuous _ _ _ _ Hw' L2 J1') as [C2 J2].
  destruct (leaves_from _ _ _ from L2) as [F2 Fh2]; [intros q s; rewrite Hh'; apply Fh1|].
  eexists true, b2, (f1 ++ f2). split; [done|]. rewrite after_app, continuous_app, Forall_app. split; [|done].
  constructor; try done; try by apply L2. rewrite (leaves_ready _ _ _ L2). done.
Qed.

Lemma accept_ok next from a sequence timestamp payload :
  audio_ok next from a -> is_u16 sequence ->
  (forall data, packet_payload payload = Some data -> from (mkSlot data sequence timestamp true)) ->
  exists r a' frames, accept_packet a sequence timestamp payload = Done (r, a', frames) /\
    audio_ok (after next frames) from a' /\ continuous next frames /\ Forall (fun fd => from (slot_of fd.1)) frames.
Proof.
  intros Ha Hu Hp. unfold MirrorAudio.accept_packet. cbv zeta.
  set (a1 := if negb (sequence_ready a) then _ else a).
  assert (Ha1 : audio_ok next from a1 /\ sequence_ready a1 = true).
  { subst a1. destruct Ha as [Hw Hb Hs Hi Hj Hf]. destruct (sequence_ready a) eqn:Hr; cbn [negb].
    - split; [|done]. constructor; try done. by rewrite Hr.
    - destruct (Hi eq_refl) as [-> Hz]. pose proof (proj1 (buffered_zero a Hw) Hz) as Hno. split; [|done].
      constructor; [|done|intros s; apply (Hno sequence s)|done|right; done|exact Hf].
      constructor; cbn; [apply (ok_slots a Hw)|done| |apply (ok_buffered a Hw)].
      intros i s Hs'. pose proof (ok_slot a Hw i s Hs') as Hok. unfold slot_ok in *.
      destruct (filled s) eqn:Hfs; [|done]. destruct (Hno (slot_sequence s) s). by apply (filled_holds a i). }
  destruct Ha1 as [Ha1 Hr1]. clearbody a1. pose proof (ok_expected a1 (audio_window _ _ _ Ha1)) as He.
  destruct (Z.ltb_spec (i16 (sequence - expected_sequence a1)) 0) as [Hd|Hd].
  { exists true, a1, []. by split_and!. }
  assert (Hahead : u16 (i16 (sequence - expected_sequence a1)) = ahead (expected_sequence a1) sequence).
  { unfold ahead, i16, u16, is_u16 in *. destruct (Z.leb_spec ((sequence - expected_sequence a1) `mod` 65536) 32767); lia. }
  rewrite Hahead. change (Z.of_nat AIRPLAY_MIRROR_AUDIO_WINDOW) with 64.
  destruct (Z.leb_spec 64 (ahead (expected_sequence a1) sequence)) as [Hfar|Hnear]; [|by apply enter_and_drain].
  destruct (window_clear a1 sequence Hu) as [Hw Hno].
  apply enter_and_drain; try done; [|cbn; unfold ahead, u16; rewrite Z.sub_diag; done].
  constructor; [done|cbn; lia|apply Hno|cbn; by rewrite Hr1|by left|]. intros q s H. by destruct (Hno q s).
Qed.

(** A packet that carries audio. *)
Record carries (packet : list Z) (sequence timestamp : Z) (payload : list Z) : Prop := {
  carries_size : 12 <= size packet <= AIRPLAY_MIRROR_AUDIO_MAX_PACKET;
  carries_type : exists b0 b1, packet !! 0%nat = Some b0 /\ packet !! 1%nat = Some b1 /\ Z.shiftr b0 6 = 2 /\ Z.land b1 0x7f = 96;
  carries_sequence : read_be16 packet 2 = Done sequence;
  carries_timestamp : read_be32 packet 4 = Done timestamp;
  carries_payload : payload = drop 12 packet /\ payload <> [] /\ payload <> empty_marker
}.

Lemma process_carries a packet sequence timestamp payload : carries packet sequence timestamp payload ->
  process_packet a packet = accept_packet a sequence timestamp payload.
Proof.
  intros [Hsz (b0 & b1 & H0 & H1 & Ht0 & Ht1) Hq Ht (-> & Hp1 & Hp2)]. unfold airplay_mirror_audio_process_packet.
  change (Z.of_nat AIRPLAY_MIRROR_AUDIO_RTP_HEADER_SIZE) with 12.
  rewrite (proj2 (Z.ltb_ge _ _)), (proj2 (Z.ltb_ge _ _)) by lia. cbn [orb]. rewrite H0, H1. cbn [checked mbind outcome_bind].
  rewrite Ht0, Ht1. cbn [Z.eqb Pos.eqb negb orb]. unfold AIRPLAY_MIRROR_AUDIO_RTP_HEADER_SIZE.
  rewrite !bool_decide_eq_false_2 by done. cbn [orb]. by rewrite Hq, Ht.
Qed.

Lemma process_cases a packet :
  (exists sequence timestamp payload, carries packet sequence timestamp payload) \/
  (exists r, process_packet a packet = Done (r, a, [])).
Proof.
  unfold airplay_mirror_audio_process_packet.
  change (Z.of_nat AIRPLAY_MIRROR_AUDIO_RTP_HEADER_SIZE) with 12.
  destruct (Z.ltb_spec (size packet) 12) as [|H12]; [by right; eexists|]. destruct (Z.ltb_spec AIRPLAY_MIRROR_AUDIO_MAX_PACKET (size packet)) as [|Hmax]; [by right; eexists|].
  cbn [orb]. assert (Hat : forall k, (k < 12)%nat -> exists b, packet !! k = Some b).
  { intros k Hk. apply lookup_lt_is_Some. unfold size in H12. lia. }
  destruct (Hat 0%nat) as [b0 H0]; [lia|]. destruct (Hat 1%nat) as [b1 H1]; [lia|]. rewrite H0, H1. cbn [checked mbind outcome_bind].
  destruct (Z.eqb_spec (Z.shiftr b0 6) 2) as [Ht0|]; [|by right; eexists]. destruct (Z.eqb_spec (Z.land b1 0x7f) 96) as [Ht1|]; [|by right; eexists].
  cbn [negb orb]. unfold AIRPLAY_MIRROR_AUDIO_RTP_HEADER_SIZE.
  destruct (bool_decide_reflect (drop 12 packet = [])) as [|Hp1]; [by right; eexists|].
  destruct (bool_decide_reflect (drop 12 packet = empty_marker)) as [|Hp2]; [by right; eexists|]. left.
  assert (Hq : exists q, read_be16 packet 2 = Done q).
  { unfold read_be16. destruct (Hat 2%nat) as [c2 ->]; [lia|]. destruct (Hat 3%nat) as [c3 ->]; [lia|]. by eexists. }
  assert (Ht : exists t, read_be32 packet 4 = Done t).
  { unfold read_be32. destruct (Hat 4%nat) as [c4 ->]; [lia|]. destruct (Hat (4 + 1)%nat) as [c5 ->]; [lia|].
    destruct (Hat (4 + 2)%nat) as [c6 ->]; [lia|]. destruct (Hat (4 + 3)%nat) as [c7 ->]; [lia|]. by eexists. }
  destruct Hq as [q Hq], Ht as [t Ht]. exists q, t, (drop 12 packet). constructor; try done. by exists b0, b1.
Qed.
End packets.

(** ** A stream *)

(** A datagram from the data port or the control port. *)
Inductive datagram :=
  | Audio_data (packet : list Z)
  | Audio_control (packet : list Z).

Definition datagram_bytes (d : datagram) : list Z := match d with Audio_data p | Audio_control p => p end.

(** A datagram with what the recording flag and the allocator are when it is processed. *)
Record arrival := mkArrival { arrived : datagram; arrival_recording : Z -> bool; arrival_alloc : Z -> bool }.

Section stream.
Context (setkey : list Z -> bool) (crypt_cbc : list Z -> list Z -> list Z -> option (list Z)) (key iv : list Z).

Definition receive (a : AirPlayMirrorAudio) (x : arrival) : outcome (AirPlayMirrorAudio * emitted) :=
  match arrived x with
  | Audio_data packet =>
      '(_, a, frames) ← airplay_mirror_audio_process_packet (arrival_recording x) setkey crypt_cbc key iv (arrival_alloc x) a packet;
      Done (a, frames)
  | Audio_control packet =>
      '(_, a, frames, _) ← airplay_mirror_audio_process_control_packet (arrival_recording x) setkey crypt_cbc key iv (arrival_alloc x) a packet;
      Done (a, frames)
  end.

Fixpoint receive_all (a : AirPlayMirrorAudio) (l : list arrival) : outcome (AirPlayMirrorAudio * emitted) :=
  match l with
  | [] => Done (a, [])
  | x :: l' =>
      '(a, frames) ← receive a x;
      '(a, frames') ← receive_all a l';
      Done (a, frames ++ frames')
  end.

(** The frame holds what a packet of [l] carried, decrypted; a control packet has its
    audio packet after four bytes. *)
Definition genuine (l : list arrival) (s : AirPlayAudioSlot) : Prop :=
  exists x payload, x ∈ l /\
    carries (match arrived x with Audio_data p => p | Audio_control p => drop 4 p end) (slot_sequence s) (slot_timestamp s) payload /\
    packet_payload setkey crypt_cbc key iv (arrival_alloc x) payload = Some (slot_data s).

Lemma read_be16_u16 packet at_ v : Forall is_byte packet -> read_be16 packet at_ = Done v -> is_u16 v.
Proof.
  intros Hb H. unfold read_be16 in H. done_inv. apply (Forall_lookup_1 _ _ _ _ Hb) in E, E0. unfold is_byte in *.
  subst v. assert (E16 : u16 (Z.shiftl a 8) = Z.shiftl a 8) by (rewrite Z.shiftl_mul_pow2 by lia; unfold u16; lia).
  rewrite E16, lor_shiftl by lia. unfold is_u16. lia.
Qed.

Lemma packet_ok next l x a packet :
  audio_ok next (genuine l) a -> x ∈ l -> Forall is_byte packet ->
  packet = (match arrived x with Audio_data p => p | Audio_control p => drop 4 p end) ->
  exists r a' frames,
    airplay_mirror_audio_process_packet (arrival_recording x) setkey crypt_cbc key iv (arrival_alloc x) a packet = Done (r, a', frames) /\
    audio_ok (after next frames) (genuine l) a' /\ continuous next frames /\ Forall (fun fd => genuine l (slot_of fd.1)) frames.
Proof.
  intros Ha Hx Hb Hp.
  destruct (process_cases (arrival_recording x) setkey crypt_cbc key iv (arrival_alloc x) a packet) as [(q & t & pl & Hc)|[r E]].
  - rewrite (process_carries _ _ _ _ _ _ _ _ _ _ _ Hc). apply accept_ok; [done|by apply (read_be16_u16 packet 2), Hc|].
    intros data Hd. exists x, pl. by rewrite <- Hp.
  - exists r, a, []. split; [done|]. by split_and!.
Qed.

Lemma receive_ok next l x a :
  audio_ok next (genuine l) a -> x ∈ l -> Forall is_byte (datagram_bytes (arrived x)) ->
  exists a' frames, receive a x = Done (a', frames) /\
    audio_ok (after next frames) (genuine l) a' /\ continuous next frames /\ Forall (fun fd => genuine l (slot_of fd.1)) frames.
Proof.
  intros Ha Hx Hb. assert (Hsame : audio_ok (after next []) (genuine l) a /\ continuous next [] /\ Forall (fun fd => genuine l (slot_of fd.1)) ([] : emitted)) by by split_and!.
  unfold receive. destruct (arrived x) as [p|p] eqn:Harr; cbn in Hb.
  - destruct (packet_ok next l x a p Ha Hx Hb) as (r & a' & frames & E & H); [by rewrite Harr|].
    rewrite E. by exists a', frames.
  - unfold airplay_mirror_audio_process_control_packet. destruct (Z.ltb_spec (size p) 4) as [|H4]; [by exists a, []|].
    assert (Hat : forall k, Z.of_nat k < size p -> exists b, p !! k = Some b) by (intros k Hk; apply lookup_lt_is_Some; unfold size in Hk; lia).
    destruct (Hat 0%nat) as [b0 ->]; [lia|]. cbn [checked mbind outcome_bind]. destruct (negb _); [by exists a, []|].
    destruct (Hat 1%nat) as [b1 ->]; [lia|]. cbn [checked mbind outcome_bind]. destruct (Z.eqb_spec (Z.land b1 0x7f) 0x56) as [_|_].
    + destruct (negb _); [by exists a, []|].
      destruct (packet_ok next l x a (drop 4 p) Ha Hx) as (r & a' & frames & E & H); [by apply Forall_drop|by rewrite Harr|].
      rewrite E. by exists a', frames.
    + destruct (Z.ltb_spec (size p) 20) as [|H20]; [rewrite orb_true_r; by exists a, []|]. destruct (negb _ || false); [by exists a, []|].
      assert (H32 : forall k, (k <= 16)%nat -> exists v, read_be32 p k = Done v).
      { intros k Hk. unfold read_be32. destruct (Hat k) as [c0 ->]; [lia|]. destruct (Hat (k + 1)%nat) as [c1 ->]; [lia|].
        destruct (Hat (k + 2)%nat) as [c2 ->]; [lia|]. destruct (Hat (k + 3)%nat) as [c3 ->]; [lia|]. by eexists. }
      unfold read_be64. destruct (H32 4%nat) as [v1 ->]; [lia|]. destruct (H32 8%nat) as [v2 ->]; [lia|].
      destruct (H32 (8 + 4)%nat) as [v3 ->]; [lia|]. cbn [mbind outcome_bind]. destruct (_ =? 0); by exists a, [].
Qed.

Lemma receive_all_ok l rest : forall next a,
  audio_ok next (genuine l) a -> rest ⊆ l -> Forall (fun x => Forall is_byte (datagram_bytes (arrived x))) rest ->
  exists a' frames, receive_all a rest = Done (a', frames) /\
    audio_ok (after next frames) (genuine l) a' /\ continuous next frames /\ Forall (fun fd => genuine l (slot_of fd.1)) frames.
Proof.
  induction rest as [|x rest IH]; intros next a Ha Hsub Hb.
  - exists a, []. split; [done|]. by split_and!.
  - apply Forall_cons in Hb as [Hbx Hb]. destruct (receive_ok next l x a Ha) as (a1 & f1 & E1 & Ha1 & C1 & F1); [by apply Hsub; left|done|].
    destruct (IH _ a1 Ha1) as (a2 & f2 & E2 & Ha2 & C2 & F2); [intros y Hy; by apply Hsub; right|done|].
    exists a2, (f1 ++ f2). cbn [receive_all]. rewrite E1. cbn [mbind outcome_bind]. rewrite E2. split; [done|].
    rewrite after_app, continuous_app, Forall_app. done.
Qed.

Lemma created_audio_ok from : audio_ok None from created_audio.
Proof.
  assert (Hw : window_ok created_audio).
  { constructor; [done|done| |reflexivity]. intros i s ->%lookup_repeat. done. }
  assert (Hno : forall q s, ~ holds created_audio q s) by by apply buffered_zero.
  constructor; [done|done|apply Hno|done|by right|]. intros q s H. by destruct (Hno q s).
Qed.
End stream.

(** C20: Whatever datagrams arrive on the audio ports, in whatever order, and whether or
    not memory runs out, recording stops or a packet cannot be decrypted: no access is
    out of bounds, at most two packets wait in the window between two datagrams, every
    frame that leaves carries the sequence number, the time stamp and the decrypted
    payload of one packet that arrived, and each frame has the sequence number after
    the one before it unless it is marked as a discontinuity. *)
Theorem mirrored_audio_stays_in_order setkey crypt_cbc key iv l :
  Forall (fun x => Forall is_byte (datagram_bytes (arrived x))) l ->
  exists a frames, receive_all setkey crypt_cbc key iv created_audio l = Done (a, frames) /\
    buffered a <= 2 /\ continuous None frames /\ Forall (fun fd => genuine setkey crypt_cbc key iv l (slot_of fd.1)) frames.
Proof.
  intros Hb. destruct (receive_all_ok setkey crypt_cbc key iv l l None created_audio (created_audio_ok _)) as (a & frames & E & Ha & Hc & Hf); [done|done|].
  exists a, frames. split; [done|]. split; [apply Ha|done].
Qed.

Lemma mirrored_audio_stays_in_order_witness :
  let packet n := [0x80; 0x60; 0; n; 0; 0; 0; 1; 0; 0; 0; 0; 7] in
  let l := (fun d => mkArrival d (fun _ => true) (fun _ => true)) <$>
    [Audio_data (packet 1); Audio_data (packet 3); Audio_control ([0x80; 0xd6; 0; 0] ++ packet 4); Audio_data (packet 5)] in
  exists a frames, receive_all (fun _ => true) (fun _ _ x => Some x) [] [] created_audio l = Done (a, frames) /\
    buffered a <= 2 /\ continuous None frames /\
    Forall (fun fd => genuine (fun _ => true) (fun _ _ x => Some x) [] [] l (slot_of fd.1)) frames.
Proof.
  cbv zeta. apply mirrored_audio_stays_in_order. repeat constructor; done.
Defined.
