(* ===== verification/MirrorAudioReorder.v ===== *)
(** * Reordered audio is put back in order

    Packets that arrive a little out of order leave the window in the order they were
    sent, and nothing is marked as lost. *)

From S2P Require Import Prelude Buffers MirrorAudio.

(** Of the packets [P], numbered from 0 on, at most two are later than a missing one,
    and none is 64 or more ahead of it. *)
Definition fits (P : list nat) : Prop :=
  forall m, m ∉ P -> count (fun k => m <? k)%nat P <= 2 /\ forall k, k ∈ P -> (k < m + 64)%nat.

(** This is so at every moment. *)
Definition orderly (arrivals : list nat) : Prop := forall p, fits (take p arrivals).

(** ** Counting the packets from a number on *)

Lemma count_from m (l : list nat) : NoDup l ->
  count (fun k => m <=? k)%nat l = count (fun k => m <? k)%nat l + Z.b2z (bool_decide (m ∈ l)).
Proof.
  induction l as [|x l IH]; intros Hl; [done|]. apply NoDup_cons in Hl as [Hx Hl]. cbn [count]. rewrite (IH Hl).
  destruct (decide (m = x)) as [->|Hne].
  - rewrite (bool_decide_eq_true_2 (x ∈ x :: l)) by left. rewrite bool_decide_eq_false_2 by done.
    rewrite Nat.leb_refl, Nat.ltb_irrefl. cbn. lia.
  - assert (E : bool_decide (m ∈ x :: l) = bool_decide (m ∈ l)) by (apply bool_decide_ext; rewrite elem_of_cons; tauto).
    rewrite E. destruct (Nat.leb_spec m x), (Nat.ltb_spec m x); cbn; lia.
Qed.

Lemma count_ltb m (l : list nat) : count (fun k => m <? k)%nat l = count (fun k => S m <=? k)%nat l.
Proof. reflexivity. Qed.

Lemma count_above m n (l : list nat) : NoDup l -> (forall j, (m <= j < m + n)%nat -> j ∈ l) ->
  count (fun k => m <=? k)%nat l = Z.of_nat n + count (fun k => m + n <=? k)%nat l.
Proof.
  intros Hl. revert m. induction n as [|n IH]; intros m Hin; [by rewrite Nat.add_0_r|].
  rewrite count_from, bool_decide_eq_true_2 by (done || (apply Hin; lia)). rewrite count_ltb, IH.
  - replace (S m + n)%nat with (m + S n)%nat by lia. cbn. lia.
  - intros j Hj. apply Hin. lia.
Qed.

Lemma count_app {A} (P : A -> bool) l l' : count P (l ++ l') = count P l + count P l'.
Proof. induction l as [|x l IH]; cbn [app count]; [done|]. rewrite IH. lia. Qed.

(** ** The window follows the packets *)

Section reorder.
Context (setkey : list Z -> bool) (crypt_cbc : list Z -> list Z -> list Z -> option (list Z)) (key iv : list Z).
Context (recording : Z -> bool) (alloc : Z -> bool).
Context (first : Z) (timestamp : nat -> Z) (payload data : nat -> list Z).
Hypothesis decrypted : forall k, packet_payload setkey crypt_cbc key iv alloc (payload k) = Some (data k).

Definition number (k : nat) : Z := u16 (first + Z.of_nat k).
Definition sent_slot (k : nat) : AirPlayAudioSlot := mkSlot (data k) (number k) (timestamp k) true.
Definition sent_frame (k : nat) : AirPlayMirrorAudioFrame := mkFrame (data k) (number k) (timestamp k) false.

(** [a] after the packets [P], of which those below [m] have left. *)
Record holding (P : list nat) (m : nat) (a : AirPlayMirrorAudio) : Prop := {
  up_window : window_ok a;
  up_ready : sequence_ready a = true;
  up_plain : discontinuity a = false;
  up_expected : expected_sequence a = number m;
  up_left : forall j, (j < m)%nat -> j ∈ P;
  up_holds : forall q s, holds a q s <-> exists k, k ∈ P /\ (m <= k)%nat /\ q = number k /\ s = sent_slot k;
  up_buffered : buffered a = count (fun k => m <=? k)%nat P
}.

Definition caught_up (P : list nat) (m : nat) (a : AirPlayMirrorAudio) : Prop := holding P m a /\ m ∉ P.

Lemma number_inj m j k : (m <= j < m + 64)%nat -> (m <= k < m + 64)%nat -> number j = number k -> j = k.
Proof. unfold number, u16. lia. Qed.

Lemma number_ahead m k : (m <= k < m + 64)%nat -> ahead (number m) (number k) = Z.of_nat (k - m).
Proof. unfold ahead, number, u16. lia. Qed.

Lemma number_i16 m k : (m <= k < m + 64)%nat -> i16 (number k - number m) = Z.of_nat (k - m).
Proof.
  intros H. unfold i16. fold (ahead (number m) (number k)). rewrite (number_ahead m k H).
  by rewrite (proj2 (Z.leb_le _ _)) by lia.
Qed.

Lemma number_u16 k : is_u16 (number k).
Proof. unfold number, is_u16, u16. lia. Qed.


(** What leaves a window that holds the packets [P] from [m] on. *)
Lemma leaves_sent P m a a' frames :
  holding P m a -> (forall k, k ∈ P -> (k < m + 64)%nat) -> NoDup P -> leaves a a' frames ->
  (length frames <= 64)%nat ->
  fst <$> frames = sent_frame <$> seq m (length frames) /\
  buffered a' = count (fun k => m + length frames <? k)%nat P /\
  caught_up P (m + length frames) a'.
Proof.
  intros [Hw Hr Hd He Hl Hh Hb] Hfar Hnd L Hlen.
  assert (Hfr : forall k f d, frames !! k = Some (f, d) -> (m + k)%nat ∈ P /\ f = sent_frame (m + k)).
  { intros k f d Hk. destruct (leaves_frames _ _ _ L k f d Hk) as (Hq & Hdis & s & Hs & E1 & E2).
    apply Hh in Hs as (j & Hj & Hm & Hqj & ->). pose proof (lookup_lt_Some _ _ _ Hk) as Hkl.
    assert (j = m + k)%nat as ->.
    { apply (number_inj m); [specialize (Hfar j Hj); lia|lia|]. rewrite <- Hqj, Hq, He. unfold number, u16. lia. }
    split; [done|]. destruct f as [fd fq ft fdis]. cbn in *. unfold sent_frame. rewrite E1, E2, Hqj, Hdis, Hd.
    f_equal. by destruct (decide (k = 0%nat)). }
  assert (Hin : forall j, (m <= j < m + length frames)%nat -> j ∈ P).
  { intros j Hj. destruct (lookup_lt_is_Some_2 frames (j - m)) as [[f d] Hk]; [lia|].
    destruct (Hfr _ _ _ Hk) as [H _]. by replace (m + (j - m))%nat with j in H by lia. }
  assert (He' : expected_sequence a' = number (m + length frames)).
  { rewrite (leaves_expected _ _ _ L), He. unfold number, u16, size. lia. }
  assert (Hh' : forall q s, holds a' q s <-> exists k, k ∈ P /\ (m + length frames <= k)%nat /\ q = number k /\ s = sent_slot k).
  { intros q s. rewrite (leaves_holds _ _ _ L), Hh. split.
    - intros [(k & Hk & Hm & -> & ->) Hs]. exists k. split; [done|split; [|done]].
      rewrite He, (number_ahead m k) in Hs by (specialize (Hfar k Hk); lia). unfold size in Hs. lia.
    - intros (k & Hk & Hm & -> & ->). split; [exists k; split; [done|split; [lia|done]]|].
      rewrite He, (number_ahead m k) by (specialize (Hfar k Hk); lia). unfold size. lia. }
  assert (Hnext : (m + length frames)%nat ∉ P).
  { intros Hk. apply (leaves_settled _ _ _ L (sent_slot (m + length frames))). apply Hh'. exists (m + length frames)%nat.
    by split_and!. }
  assert (Hb' : buffered a' = count (fun k => m + length frames <=? k)%nat P).
  { rewrite (leaves_buffered _ _ _ L), Hb, (count_above m (length frames) P Hnd Hin). unfold size. lia. }
  split; [|split].
  - apply list_eq. intros k. transitivity (fst <$> frames !! k); [apply list_lookup_fmap|].
    transitivity (sent_frame <$> seq m (length frames) !! k); [|symmetry; apply list_lookup_fmap].
    destruct (frames !! k) as [[f d]|] eqn:Hk.
    + rewrite lookup_seq_lt by (by eapply lookup_lt_Some). destruct (Hfr k f d Hk) as [_ Hfe]. cbn. by rewrite Hfe.
    + by rewrite lookup_seq_ge by (by apply lookup_ge_None).
  - rewrite Hb', count_from, bool_decide_eq_false_2 by done. cbn [Z.b2z]. lia.
  - split; [|done]. constructor; try done; try by apply L.
    + rewrite (leaves_discontinuity _ _ _ L), Hd. by destruct frames.
    + intros j Hj. destruct (decide (j < m)%nat) as [Hjm|]; [by apply Hl|]. apply Hin. lia.
Qed.

(** The next packet arrives. *)
Lemma accept_sent P m a k :
  caught_up P m a -> k ∉ P -> NoDup P -> fits P -> fits (P ++ [k]) ->
  exists a' m' frames,
    accept_packet recording setkey crypt_cbc key iv alloc a (number k) (timestamp k) (payload k) = Done (true, a', frames) /\
    fst <$> frames = sent_frame <$> seq m (m' - m) /\ (m <= m')%nat /\ caught_up (P ++ [k]) m' a'.
Proof.
  intros [[Hw Hr Hd He Hl Hh Hb] Hm] Hk Hnd Hp Hpk.
  assert (Hmk : (m <= k)%nat) by (destruct (decide (m <= k)%nat); [done|]; destruct Hk; apply Hl; lia).
  assert (Hfar : forall i, i ∈ P ++ [k] -> (i < m + 64)%nat).
  { intros i Hi. destruct (decide (m = k)) as [->|Hne].
    - apply elem_of_app in Hi as [Hi| ->%list_elem_of_singleton]; [by apply (proj2 (Hp k Hk))|lia].
    - apply (proj2 (Hpk m ltac:(rewrite elem_of_app, list_elem_of_singleton; tauto))). done. }
  assert (Hkf : (m <= k < m + 64)%nat) by (specialize (Hfar k ltac:(rewrite elem_of_app, list_elem_of_singleton; tauto)); lia).
  assert (Hb2 : buffered a <= 2).
  { rewrite Hb, count_from, bool_decide_eq_false_2 by done. cbn [Z.b2z]. pose proof (proj1 (Hp m Hm)). lia. }
  unfold accept_packet. rewrite Hr. cbn [negb]. cbv zeta. rewrite He, (number_i16 m k Hkf).
  rewrite (proj2 (Z.ltb_ge _ _)) by lia. change (Z.of_nat AIRPLAY_MIRROR_AUDIO_WINDOW) with 64.
  rewrite (proj2 (Z.leb_gt _ _)) by (unfold u16; lia).
  destruct (insert_spec setkey crypt_cbc key iv alloc a (number k) (timestamp k) (payload k) Hw (number_u16 k))
    as [[_ [[s Hs]|Hn]]|(a1 & d & E & Hdec & En)].
  { rewrite He, number_ahead by done. lia. }
  { exfalso. apply Hh in Hs as (j & Hj & Hmj & Hq & _). apply Hk.
    rewrite (number_inj m k j); [done|done| |done]. split; [done|]. apply Hfar. rewrite elem_of_app. by left. }
  { by rewrite decrypted in Hn. }
  rewrite decrypted in Hdec. injection Hdec as <-. rewrite E. cbn [mbind outcome_bind negb].
  destruct En as [E1 _ E3 E4 E5 E6 E7].
  assert (Hopen : holding (P ++ [k]) m a1).
  { constructor; [done|congruence|congruence|congruence| | |].
    - intros j Hj. rewrite elem_of_app. left. by apply Hl.
    - intros q s. rewrite E7, Hh. split.
      + intros [(j & Hj & H)|[-> ->]]; [exists j|exists k]; rewrite elem_of_app, ?list_elem_of_singleton; tauto.
      + intros (j & [Hj| ->%list_elem_of_singleton]%elem_of_app & Hmj & -> & ->); [left; by exists j|by right].
    - rewrite count_app, E6, Hb. cbn [count]. rewrite (proj2 (Nat.leb_le _ _)) by lia. cbn. lia. }
  destruct (drain_spec recording a1) as (b1 & f1 & b2 & f2 & D1 & L1 & D2 & L2 & _ & Hsame); [done|congruence|lia|].
  rewrite D1. cbn [mbind outcome_bind]. rewrite D2. cbn [mbind outcome_bind].
  assert (Hlen : (length f1 <= 64)%nat).
  { pose proof (leaves_buffered _ _ _ L1) as H1. pose proof (buffered_bounds _ (leaves_window _ _ _ L1)). unfold size in H1. lia. }
  assert (Hnd' : NoDup (P ++ [k])).
  { apply NoDup_app. split; [done|]. split; [by intros x Hx ->%list_elem_of_singleton|apply NoDup_singleton]. }
  destruct (leaves_sent _ m a1 b1 f1 Hopen Hfar Hnd' L1 Hlen) as (Hf & Hcount & Hup).
  destruct Hsame as [-> ->].
  { rewrite <- (leaves_buffered _ _ _ L1), Hcount. destruct Hup as [_ Hup]. pose proof (proj1 (Hpk _ Hup)). lia. }
  eexists b1, (m + length f1)%nat, f1. rewrite app_nil_r. split; [done|].
  replace (m + length f1 - m)%nat with (length f1) by lia. split; [done|split; [lia|done]].
Qed.

Context (sent : nat -> list Z).
Hypothesis carried : forall k, carries (sent k) (number k) (timestamp k) (payload k).

Definition sent_arrival (k : nat) : arrival := mkArrival (Audio_data (sent k)) recording alloc.

Lemma receive_sent a k :
  receive setkey crypt_cbc key iv a (sent_arrival k) =
    ('(_, a, frames) ← accept_packet recording setkey crypt_cbc key iv alloc a (number k) (timestamp k) (payload k);
     Done (a, frames)).
Proof. unfold receive, sent_arrival. cbn [arrived arrival_recording arrival_alloc]. by rewrite (process_carries _ _ _ _ _ _ _ _ _ _ _ (carried k)). Qed.

Lemma receive_rest rest : forall P m a,
  caught_up P m a -> NoDup (P ++ rest) -> (forall p, fits (P ++ take p rest)) ->
  exists a' m' frames, receive_all setkey crypt_cbc key iv a (sent_arrival <$> rest) = Done (a', frames) /\
    fst <$> frames = sent_frame <$> seq m (m' - m) /\ (m <= m')%nat /\ caught_up (P ++ rest) m' a'.
Proof.
  induction rest as [|k rest IH]; intros P m a Ha Hnd Hfit.
  - exists a, m, []. rewrite Nat.sub_diag, app_nil_r. by split_and!.
  - assert (Hk : k ∉ P) by (intros Hk; apply NoDup_app in Hnd as (_ & Hd & _); apply (Hd k Hk); left).
    assert (Hp : fits P) by (pose proof (Hfit 0%nat) as H; by rewrite take_0, app_nil_r in H).
    destruct (accept_sent P m a k Ha Hk) as (a1 & m1 & f1 & E1 & F1 & M1 & Ha1);
      [by apply NoDup_app in Hnd as (? & _)|done|exact (Hfit 1%nat)|].
    destruct (IH (P ++ [k]) m1 a1 Ha1) as (a2 & m2 & f2 & E2 & F2 & M2 & Ha2).
    { by rewrite <- app_assoc. }
    { intros p. rewrite <- app_assoc. exact (Hfit (S p)). }
    exists a2, m2, (f1 ++ f2). cbn [fmap list_fmap receive_all]. rewrite receive_sent, E1. cbn [mbind outcome_bind]. rewrite E2.
    split; [done|]. split; [|split; [lia|by rewrite <- app_assoc in Ha2]].
    rewrite fmap_app, F1, F2, <- fmap_app. f_equal. replace m1 with (m + (m1 - m))%nat at 2 by lia. rewrite <- seq_app. f_equal. lia.
Qed.

(** The first packet starts the count. *)
Definition started : AirPlayMirrorAudio := { created_audio with expected_sequence := number 0; sequence_ready := true }.

Lemma started_up : caught_up [] 0 started.
Proof.
  assert (Hno : forall q s, ~ holds started q s).
  { intros q s (->%lookup_repeat & Hf & _). done. }
  split; [|by apply not_elem_of_nil]. constructor; try done.
  - constructor; [done|apply number_u16| |reflexivity]. intros i s ->%lookup_repeat. done.
  - lia.
  - intros q s. split; [by intros H; destruct (Hno q s)|]. by intros (k & Hk%elem_of_nil & _).
Qed.

Lemma receive_orderly arrivals n :
  head arrivals = Some 0%nat -> arrivals ≡ₚ seq 0 n -> orderly arrivals ->
  exists a frames, receive_all setkey crypt_cbc key iv created_audio (sent_arrival <$> arrivals) = Done (a, frames) /\
    fst <$> frames = sent_frame <$> seq 0 n.
Proof.
  intros H0 Hperm Hord. destruct (receive_rest arrivals [] 0 started started_up) as (a & m & frames & E & F & _ & Ha).
  - cbn. rewrite Hperm. apply NoDup_seq.
  - exact Hord.
  - exists a, frames. split.
    + rewrite <- E. destruct arrivals as [|k rest]; [done|]. injection H0 as ->. cbn [fmap list_fmap receive_all].
      rewrite !receive_sent. done.
    + rewrite F, Nat.sub_0_r. do 2 f_equal. destruct Ha as [Ha Hm]. cbn in Ha, Hm.
      assert (H1 : ~ (m < n)%nat) by (intros Hlt; apply Hm; rewrite Hperm; apply elem_of_seq; lia).
      assert (H2 : ~ (n < m)%nat).
      { intros Hlt. pose proof (up_left _ _ _ Ha n Hlt) as Hn. rewrite Hperm in Hn. apply elem_of_seq in Hn. lia. }
      lia.
Qed.
End reorder.

(** C19: Packets that are overtaken by at most two later ones, and none by one that is 64
    or more ahead of it, leave the window in the order they were sent, the first packet
    being the first to arrive: every frame has the number, the time stamp and the
    decrypted payload of its packet, across the wrap of the sequence number, and none
    is missing, doubled or marked as a discontinuity. *)
Theorem reordered_audio_is_restored setkey crypt_cbc key iv recording alloc first timestamp payload data sent arrivals n :
  (forall k, packet_payload setkey crypt_cbc key iv alloc (payload k) = Some (data k)) ->
  (forall k, carries (sent k) (number first k) (timestamp k) (payload k)) ->
  head arrivals = Some 0%nat -> arrivals ≡ₚ seq 0 n -> orderly arrivals ->
  exists a frames,
    receive_all setkey crypt_cbc key iv created_audio (sent_arrival recording alloc sent <$> arrivals) = Done (a, frames) /\
    fst <$> frames = sent_frame first timestamp data <$> seq 0 n.
Proof. intros. by eapply receive_orderly. Qed.

(** ** An example *)

(** Decides [fits] of packets below [n]. *)
Definition fits_below (n : nat) (P : list nat) : bool :=
  forallb (fun m => bool_decide (m ∈ P) ||
    ((count (fun k => m <? k)%nat P <=? 2) && forallb (fun k => k <? m + 64)%nat P)) (seq 0 n).

Lemma fits_below_fits n P : Forall (fun k => k < n)%nat P -> fits_below n P = true -> fits P.
Proof.
  intros Hn H m Hm. rewrite Forall_forall in Hn. destruct (decide (m < n)%nat) as [Hlt|Hge].
  - unfold fits_below in H. rewrite forallb_forall in H. specialize (H m). rewrite bool_decide_eq_false_2 in H by done.
    cbn [orb] in H. destruct (andb_true_iff (count (fun k => m <? k)%nat P <=? 2) (forallb (fun k => k <? m + 64)%nat P)) as [Hand _].
    destruct Hand as [H1 H2]; [apply H, in_seq; lia|]. split; [by apply Z.leb_le|]. intros k Hk. rewrite forallb_forall in H2.
    apply Nat.ltb_lt, H2. by apply list_elem_of_In.
  - split; [|intros k Hk; specialize (Hn k Hk); lia].
    assert (E : count (fun k => m <? k)%nat P = 0); [|lia].
    destruct (decide (0 < count (fun k => m <? k)%nat P)) as [Hp|Hp].
    + apply count_pos in Hp as (i & k & Hk%list_elem_of_lookup_2 & Hlt%Nat.ltb_lt). specialize (Hn k Hk). lia.
    + pose proof (count_bounds (fun k => m <? k)%nat P). lia.
Qed.

Definition orderly_below (n : nat) (arrivals : list nat) : bool :=
  forallb (fun p => fits_below n (take p arrivals)) (seq 0 (S (length arrivals))).

Lemma orderly_below_orderly n arrivals :
  Forall (fun k => k < n)%nat arrivals -> orderly_below n arrivals = true -> orderly arrivals.
Proof.
  intros Hn H p. unfold orderly_below in H. rewrite forallb_forall in H.
  apply (fits_below_fits n); [by apply Forall_take|]. destruct (decide (p <= length arrivals)%nat) as [Hle|Hgt].
  - apply H, in_seq. lia.
  - rewrite take_ge by lia. rewrite <- (firstn_all arrivals). apply H, in_seq. lia.
Qed.

(** A cipher that complements every byte, and packets of 17 bytes from number 65533 on. *)
Definition complement (_ _ l : list Z) : option (list Z) := Some (map (fun b => 255 - b) l).
Definition demo_payload (k : nat) : list Z := repeat (u8 (Z.of_nat k)) 17.
Definition demo_data (k : nat) : list Z := repeat (255 - u8 (Z.of_nat k)) 16 ++ [u8 (Z.of_nat k)].
Definition demo_packet (k : nat) : list Z :=
  [0x80; 0x60] ++ be16 (number 65533 k) ++ [0; 0; 0; 1; 0; 0; 0; 0] ++ demo_payload k.

Lemma demo_carries k : carries (demo_packet k) (number 65533 k) 1 (demo_payload k).
Proof.
  constructor; [done|by exists 0x80, 0x60| |done|by split_and!].
  unfold demo_packet, be16, read_be16. cbn [app lookup list_lookup checked mbind outcome_bind]. f_equal.
  assert (Hu : 0 <= number 65533 k < 65536) by (unfold number, u16; lia). rewrite <- (be16_value (number 65533 k) Hu) at 3.
  f_equal. unfold u16. rewrite Z.shiftl_mul_pow2 by lia. unfold u8. lia.
Qed.

Lemma reordered_audio_is_restored_witness :
  exists a frames,
    receive_all (fun _ => true) complement [] [] created_audio
      (sent_arrival (fun _ => true) (fun _ => true) demo_packet <$> [0; 2; 3; 1; 5; 4; 6]%nat) = Done (a, frames) /\
    fst <$> frames = sent_frame 65533 (fun _ => 1) demo_data <$> seq 0 7.
Proof.
  apply (reordered_audio_is_restored (fun _ => true) complement [] [] (fun _ => true) (fun _ => true) 65533 (fun _ => 1)
    demo_payload demo_data demo_packet [0; 2; 3; 1; 5; 4; 6]%nat 7).
  - done.
  - apply demo_carries.
  - done.
  - by apply (bool_decide_unpack _).
  - apply (orderly_below_orderly 7); [by repeat constructor|by vm_compute].
Defined.
