(* ===== verification/MirrorVideo.v ===== *)
(** * Mirrored video (protocol/airplay/mirror/video.c)

    A decoder configuration (avcC) gives the parameter sets; an access unit is a
    sequence of NAL units with their lengths.  Both are rewritten with start codes.
    Reads of the input and writes to the output buffers are checked; [alloc] tells
    whether [malloc] gives a buffer of a size. *)

From S2P Require Import Prelude Buffers MirrorAudio.

(* src: source/protocol/airplay/mirror/video.h AIRPLAY_MIRROR_VIDEO_MAX_CONFIG *)
Definition AIRPLAY_MIRROR_VIDEO_MAX_CONFIG : Z := 64 * 1024.
(* src: source/protocol/airplay/mirror/video.h AIRPLAY_MIRROR_VIDEO_MAX_ACCESS_UNIT *)
Definition AIRPLAY_MIRROR_VIDEO_MAX_ACCESS_UNIT : Z := 8 * 1024 * 1024.

(* src: source/protocol/airplay/mirror/video.h AirPlayMirrorVideoResult *)
Inductive AirPlayMirrorVideoResult :=
  | AIRPLAY_MIRROR_VIDEO_OK
  | AIRPLAY_MIRROR_VIDEO_DROPPED
  | AIRPLAY_MIRROR_VIDEO_INVALID
  | AIRPLAY_MIRROR_VIDEO_NO_MEMORY.

(* src: source/protocol/airplay/mirror/video.h AirPlayMirrorAccessUnit *)
Record AirPlayMirrorAccessUnit := mkUnit {
  unit_data : list Z;
  unit_timestamp : Z;
  unit_config_generation : Z;
  unit_keyframe : bool
}.

(** The sizes are the lengths of the lists.  The generation is kept in an integer of
    at least 32 bits of which only the low 32 are ever looked at. *)
(* src: source/protocol/airplay/mirror/video.c AirPlayMirrorVideo *)
Record AirPlayMirrorVideo := mkVideo {
  video_config : list Z;
  config_generation : Z;
  config_timestamp : Z;
  last_timestamp : Z;
  has_last_timestamp : bool;
  waiting_for_keyframe : bool;
  config_ok : Z;
  config_failures : Z;
  access_units_ok : Z;
  access_units_dropped : Z;
  access_units_invalid : Z;
  access_units_no_memory : Z;
  access_unit_bytes : Z;
  keyframes : Z
}.
#[export] Instance eta_AirPlayMirrorVideo : Eta AirPlayMirrorVideo := fun v =>
  mkVideo (video_config v) (config_generation v) (config_timestamp v) (last_timestamp v) (has_last_timestamp v)
    (waiting_for_keyframe v) (config_ok v) (config_failures v) (access_units_ok v) (access_units_dropped v)
    (access_units_invalid v) (access_units_no_memory v) (access_unit_bytes v) (keyframes v).

Definition start_code : list Z := [0; 0; 0; 1].

(** Writes after the bytes [output] that a buffer of [capacity] bytes holds already. *)
Definition put (capacity : Z) (output bytes : list Z) : outcome (list Z) :=
  if size output + size bytes <=? capacity then Done (output ++ bytes) else Stuck.

(** ** Parameter sets *)

(* src: source/protocol/airplay/mirror/video.c append_nal *)
Definition append_nal (capacity : Z) (output nal : list Z) : outcome (list Z) :=
  ensure (negb ((size nal =? 0) || (capacity <? size output) || (capacity - size output <? size nal + size start_code)));;
  first ← checked (nal !! 0%nat);
  ensure (Z.land first 0x80 =? 0);;
  output ← put capacity output start_code;
  put capacity output nal.

(** The loop over the sets of one kind. *)
(* src: source/protocol/airplay/mirror/video.c 70-84 parse_parameter_sets *)
Fixpoint parse_sets (count : nat) (nal_type : Z) (avcc : list Z) (input_offset : nat) (output : list Z)
    : outcome (nat * list Z) :=
  match count with
  | O => Done (input_offset, output)
  | S count' =>
      ensure (input_offset + 2 <=? length avcc)%nat;;
      nal_size ← read_be16 avcc input_offset;
      let input_offset := (input_offset + 2)%nat in
      ensure (negb ((nal_size =? 0) || (size avcc <? Z.of_nat input_offset + nal_size)));;
      first ← checked (avcc !! input_offset);
      ensure (Z.land first 0x1f =? nal_type);;
      nal ← checked (buf_read input_offset (Z.to_nat nal_size) avcc);
      output ← append_nal AIRPLAY_MIRROR_VIDEO_MAX_CONFIG output nal;
      parse_sets count' nal_type avcc (input_offset + Z.to_nat nal_size) output
  end.

(* src: source/protocol/airplay/mirror/video.c parse_parameter_sets *)
Definition parse_parameter_sets (avcc : list Z) : outcome (list Z) :=
  ensure (7 <=? length avcc)%nat;;
  version ← checked (avcc !! 0%nat);
  ensure (version =? 1);;
  length_size ← checked (avcc !! 4%nat);
  ensure (Z.land length_size 0x03 =? 3);;
  sets ← checked (avcc !! 5%nat);
  let sps_count := Z.land sets 0x1f in
  ensure (negb (sps_count =? 0));;
  '(input_offset, output) ← parse_sets (Z.to_nat sps_count) 7 avcc 6 [];
  ensure (negb (length avcc <=? input_offset)%nat);;
  pps_count ← checked (avcc !! input_offset);
  ensure (negb (pps_count =? 0));;
  '(_, output) ← parse_sets (Z.to_nat pps_count) 8 avcc (S input_offset) output;
  Done output.

(** ** Access units *)

(* src: source/protocol/airplay/mirror/video.c 196-214 inspect_access_unit *)
Fixpoint inspect_loop (fuel : nat) (payload : list Z) (offset : nat) (output_size : Z) (keyframe : bool)
    : outcome (Z * bool) :=
  match fuel with
  | O => Stuck
  | S fuel' =>
      if negb (offset <? length payload)%nat then Done (output_size, keyframe)
      else
        ensure (negb (size payload - Z.of_nat offset <? 4));;
        nal_size ← read_be32 payload offset;
        let offset := (offset + 4)%nat in
        ensure (negb ((nal_size =? 0) || (size payload - Z.of_nat offset <? nal_size) ||
                      (AIRPLAY_MIRROR_VIDEO_MAX_ACCESS_UNIT - output_size <? nal_size + 4)));;
        first ← checked (payload !! offset);
        ensure (Z.land first 0x80 =? 0);;
        let nal_type := Z.land first 0x1f in
        inspect_loop fuel' payload (offset + Z.to_nat nal_size) (output_size + (nal_size + 4))
          (if nal_type =? 5 then true else keyframe)
  end.

(* src: source/protocol/airplay/mirror/video.c inspect_access_unit *)
Definition inspect_access_unit (payload : list Z) : outcome (Z * bool) :=
  ensure (negb ((size payload =? 0) || (AIRPLAY_MIRROR_VIDEO_MAX_ACCESS_UNIT <? size payload)));;
  inspect_loop (S (length payload)) payload 0 0 false.

(** [output] are the bytes written to the buffer of [capacity] bytes. *)
(* src: source/protocol/airplay/mirror/video.c write_access_unit *)
Fixpoint write_access_unit (fuel : nat) (payload : list Z) (input_offset : nat) (capacity : Z) (output : list Z)
    : outcome (list Z) :=
  match fuel with
  | O => Stuck
  | S fuel' =>
      if negb (input_offset <? length payload)%nat then Done output
      else
        nal_size ← read_be32 payload input_offset;
        let input_offset := (input_offset + 4)%nat in
        output ← put capacity output start_code;
        nal ← checked (if nal_size <=? size payload then buf_read input_offset (Z.to_nat nal_size) payload else None);
        output ← put capacity output nal;
        write_access_unit fuel' payload (input_offset + Z.to_nat nal_size) capacity output
  end.

(** ** Operations *)

(* src: source/protocol/airplay/mirror/video.c airplay_mirror_video_create *)
Definition airplay_mirror_video_create : AirPlayMirrorVideo := mkVideo [] 0 0 0 false true 0 0 0 0 0 0 0 0.

(* src: source/protocol/airplay/mirror/video.c airplay_mirror_video_reset *)
Definition airplay_mirror_video_reset (video : AirPlayMirrorVideo) : AirPlayMirrorVideo :=
  { video with has_last_timestamp := false; last_timestamp := 0; waiting_for_keyframe := true }.

(* src: source/protocol/airplay/mirror/video.c airplay_mirror_video_process_config *)
Definition airplay_mirror_video_process_config (video : AirPlayMirrorVideo) (avcc : list Z) (timestamp : Z)
    : outcome (AirPlayMirrorVideoResult * AirPlayMirrorVideo) :=
  match (if AIRPLAY_MIRROR_VIDEO_MAX_CONFIG <? size avcc then Refused else parse_parameter_sets avcc) with
  | Stuck => Stuck
  | Refused => Done (AIRPLAY_MIRROR_VIDEO_INVALID, { video with config_failures ::= inc })
  | Done parsed =>
      let video :=
        if bool_decide (parsed = video_config video) then video
        else
          let generation := u32 (config_generation video + 1) in
          { video with video_config := parsed;
                       config_generation := if generation =? 0 then u32 (generation + 1) else generation;
                       waiting_for_keyframe := true } in
      Done (AIRPLAY_MIRROR_VIDEO_OK, { video with config_timestamp := timestamp; config_ok ::= inc })
  end.

(** The unit that is given to the callback. *)
(* src: source/protocol/airplay/mirror/video.c airplay_mirror_video_process_access_unit *)
Definition airplay_mirror_video_process_access_unit (alloc : Z -> bool) (video : AirPlayMirrorVideo)
    (payload : list Z) (timestamp : Z)
    : outcome (AirPlayMirrorVideoResult * AirPlayMirrorVideo * option AirPlayMirrorAccessUnit) :=
  match inspect_access_unit payload with
  | Stuck => Stuck
  | Refused => Done (AIRPLAY_MIRROR_VIDEO_INVALID, { video with access_units_invalid ::= inc }, None)
  | Done (annexb_size, keyframe) =>
      if bool_decide (video_config video = []) ||
         (has_last_timestamp video && (timestamp <? last_timestamp video)) ||
         (waiting_for_keyframe video && negb keyframe)
      then Done (AIRPLAY_MIRROR_VIDEO_DROPPED, { video with access_units_dropped ::= inc }, None)
      else
        let prefix := if (keyframe : bool) then video_config video else [] in
        if AIRPLAY_MIRROR_VIDEO_MAX_ACCESS_UNIT - size prefix <? annexb_size
        then Done (AIRPLAY_MIRROR_VIDEO_INVALID, { video with access_units_invalid ::= inc }, None)
        else
          let capacity := size prefix + annexb_size in
          if negb (alloc capacity)
          then Done (AIRPLAY_MIRROR_VIDEO_NO_MEMORY, { video with access_units_no_memory ::= inc }, None)
          else
            output ← put capacity [] prefix;
            output ← write_access_unit (S (length payload)) payload 0 capacity output;
            let access_unit := mkUnit output timestamp (config_generation video) keyframe in
            let video :=
              { video with waiting_for_keyframe := false; has_last_timestamp := true; last_timestamp := timestamp;
                           access_units_ok ::= inc;
                           access_unit_bytes ::= (fun n => u64 (n + size output)) } in
            let video := if keyframe then { video with keyframes ::= inc } else video in
            Done (AIRPLAY_MIRROR_VIDEO_OK, video, Some access_unit)
  end.

(** ** Access units and parameter sets become Annex B streams

    The grammars that mirrored video is accepted by, and what is made of it. *)

(** ** Numbers in the input *)

Definition be32_of (b0 b1 b2 b3 : Z) : Z := b0 * 16777216 + b1 * 65536 + b2 * 256 + b3.

Lemma be32_of_bytes b0 b1 b2 b3 : is_byte b0 -> is_byte b1 -> is_byte b2 -> is_byte b3 ->
  be32 (be32_of b0 b1 b2 b3) = [b0; b1; b2; b3] /\ is_u32 (be32_of b0 b1 b2 b3).
Proof.
  unfold is_byte, be32, be32_of, is_u32, UINT32_MAX, u8. intros. rewrite !Z.shiftr_div_pow2 by lia.
  change (2 ^ 24) with 16777216. change (2 ^ 16) with 65536. change (2 ^ 8) with 256. split; [|lia].
  repeat f_equal; lia.
Qed.

Lemma lor_bytes b0 b1 b2 b3 : is_byte b0 -> is_byte b1 -> is_byte b2 -> is_byte b3 ->
  Z.lor (Z.lor (Z.lor (u32 (Z.shiftl b0 24)) (Z.shiftl b1 16)) (Z.shiftl b2 8)) b3 = be32_of b0 b1 b2 b3.
Proof.
  unfold is_byte, be32_of. intros.
  assert (E0 : u32 (Z.shiftl b0 24) = Z.shiftl b0 24).
  { rewrite Z.shiftl_mul_pow2 by lia. apply u32_id. unfold is_u32, UINT32_MAX. change (2 ^ 24) with 16777216. lia. }
  rewrite E0, (Z.shiftl_mul_pow2 b1) by lia. rewrite lor_shiftl by (change (2 ^ 24) with 16777216; change (2 ^ 16) with 65536; lia).
  replace (b0 * 2 ^ 24 + b1 * 2 ^ 16) with (Z.shiftl (b0 * 256 + b1) 16) by (rewrite Z.shiftl_mul_pow2 by lia; lia).
  rewrite (Z.shiftl_mul_pow2 b2), lor_shiftl by (change (2 ^ 8) with 256; change (2 ^ 16) with 65536; lia).
  replace ((b0 * 256 + b1) * 2 ^ 16 + b2 * 2 ^ 8) with (Z.shiftl (b0 * 65536 + b1 * 256 + b2) 8) by (rewrite Z.shiftl_mul_pow2 by lia; lia).
  rewrite lor_shiftl by (change (2 ^ 8) with 256; lia). change (2 ^ 8) with 256. lia.
Qed.

Lemma read_be32_app pre v post : is_u32 v -> read_be32 (pre ++ be32 v ++ post) (length pre) = Done v.
Proof.
  intros Hv. pose proof (be32_bytes v) as Hb. unfold be32 in *.
  set (b0 := u8 (Z.shiftr v 24)) in *. set (b1 := u8 (Z.shiftr v 16)) in *.
  set (b2 := u8 (Z.shiftr v 8)) in *. set (b3 := u8 v) in *.
  apply Forall_cons in Hb as [H0 Hb]. apply Forall_cons in Hb as [H1 Hb]. apply Forall_cons in Hb as [H2 Hb].
  apply Forall_cons in Hb as [H3 _]. unfold read_be32. cbn [app].
  assert (Hat : forall k (x : Z), (b0 :: b1 :: b2 :: b3 :: post) !! k = Some x ->
    (pre ++ b0 :: b1 :: b2 :: b3 :: post) !! (length pre + k)%nat = Some x).
  { intros k x Hk. rewrite lookup_app_r by lia. by replace (length pre + k - length pre)%nat with k by lia. }
  rewrite <- (Nat.add_0_r (length pre)) at 1. rewrite (Hat 0%nat b0), (Hat 1%nat b1), (Hat 2%nat b2), (Hat 3%nat b3) by done.
  cbn [checked mbind outcome_bind]. rewrite lor_bytes by done. f_equal.
  subst b0 b1 b2 b3. unfold be32_of, u8, is_u32, UINT32_MAX in *. rewrite !Z.shiftr_div_pow2 by lia.
  change (2 ^ 24) with 16777216. change (2 ^ 16) with 65536. change (2 ^ 8) with 256. lia.
Qed.

Lemma read_be16_app pre v post : is_u16 v -> read_be16 (pre ++ be16 v ++ post) (length pre) = Done v.
Proof.
  intros Hv. unfold read_be16, be16. cbn [app]. rewrite lookup_at, lookup_next. cbn [checked mbind outcome_bind].
  unfold is_u16 in Hv. rewrite <- (be16_value v Hv) at 3. do 2 f_equal. unfold u16. rewrite Z.shiftl_mul_pow2 by lia.
  change (2 ^ 8) with 256. unfold u8. lia.
Qed.

(** The first bytes of an input are a number. *)
Lemma split_be32 l : Forall is_byte l -> (4 <= length l)%nat -> exists v rest, l = be32 v ++ rest /\ is_u32 v.
Proof.
  intros Hb Hl. destruct l as [|b0 [|b1 [|b2 [|b3 rest]]]]; cbn in Hl; try lia.
  apply Forall_cons in Hb as [H0 Hb]. apply Forall_cons in Hb as [H1 Hb]. apply Forall_cons in Hb as [H2 Hb].
  apply Forall_cons in Hb as [H3 _]. destruct (be32_of_bytes b0 b1 b2 b3) as [E Hu]; [done..|].
  exists (be32_of b0 b1 b2 b3), rest. by rewrite E.
Qed.

Lemma split_be16 l : Forall is_byte l -> (2 <= length l)%nat -> exists v rest, l = be16 v ++ rest /\ is_u16 v.
Proof.
  intros Hb Hl. destruct l as [|b0 [|b1 rest]]; cbn in Hl; try lia.
  apply Forall_cons in Hb as [H0 Hb]. apply Forall_cons in Hb as [H1 _]. unfold is_byte in *.
  exists (b0 * 256 + b1), rest. unfold be16, is_u16. cbn [app]. rewrite Z.shiftr_div_pow2 by lia. change (2 ^ 8) with 256.
  split; [|lia]. unfold u8. f_equal; [lia|f_equal; lia].
Qed.

(** ** The grammar of an access unit *)

(** A NAL unit: not empty, and its forbidden bit is clear. *)
Definition nal_ok (nal : list Z) : Prop := exists b rest, nal = b :: rest /\ Z.land b 0x80 = 0.

Definition nal_type (nal : list Z) : Z := match nal with b :: _ => Z.land b 0x1f | [] => 0 end.
Definition is_idr (nal : list Z) : bool := nal_type nal =? 5.

(** NAL units with their lengths, and with start codes. *)
Fixpoint lengthed (nals : list (list Z)) : list Z :=
  match nals with [] => [] | nal :: nals' => be32 (size nal) ++ nal ++ lengthed nals' end.
Fixpoint annexb (nals : list (list Z)) : list Z :=
  match nals with [] => [] | nal :: nals' => start_code ++ nal ++ annexb nals' end.

Definition access_unit_of (nals : list (list Z)) (payload : list Z) : Prop :=
  nals <> [] /\ Forall nal_ok nals /\ payload = lengthed nals /\ size payload <= AIRPLAY_MIRROR_VIDEO_MAX_ACCESS_UNIT.

Lemma size_be32 v : size (be32 v) = 4.
Proof. done. Qed.

Lemma size_annexb nals : size (annexb nals) = size (lengthed nals).
Proof. induction nals as [|nal nals IH]; [done|]. cbn [annexb lengthed]. rewrite !size_app, IH. done. Qed.

Lemma nal_first nal : nal_ok nal -> exists b rest, nal = b :: rest /\ Z.land b 0x80 = 0 /\ is_idr nal = (Z.land b 0x1f =? 5).
Proof. intros (b & rest & -> & H). by exists b, rest. Qed.

Lemma nal_size_pos nal : nal_ok nal -> 1 <= size nal.
Proof. intros (b & rest & -> & _). rewrite size_cons. pose proof (size_nonneg rest). lia. Qed.

Lemma inspect_stop fuel payload offset out key : (length payload <= offset)%nat ->
  inspect_loop (S fuel) payload offset out key = Done (out, key).
Proof. intros H. cbn [inspect_loop]. by rewrite (proj2 (Nat.ltb_ge _ _)) by done. Qed.

(** One round of the loop on a unit that is there. *)
Lemma inspect_nal fuel pre nal rest out key :
  nal_ok nal -> size (pre ++ be32 (size nal) ++ nal ++ rest) <= AIRPLAY_MIRROR_VIDEO_MAX_ACCESS_UNIT -> out = size pre ->
  inspect_loop (S fuel) (pre ++ be32 (size nal) ++ nal ++ rest) (length pre) out key =
  inspect_loop fuel ((pre ++ be32 (size nal) ++ nal) ++ rest) (length (pre ++ be32 (size nal) ++ nal))
    (size (pre ++ be32 (size nal) ++ nal)) (key || is_idr nal).
Proof.
  intros Hn Hmax ->. destruct (nal_first nal Hn) as (b & tail & Hnal & Hb & Hidr). pose proof (nal_size_pos nal Hn) as Hpos.
  rewrite !size_app, size_be32 in Hmax. pose proof (size_nonneg rest). pose proof (size_nonneg pre).
  assert (Hu : is_u32 (size nal)) by (unfold is_u32, UINT32_MAX, AIRPLAY_MIRROR_VIDEO_MAX_ACCESS_UNIT in *; lia).
  cbn [inspect_loop].
  assert (Hlt : (length pre <? length (pre ++ be32 (size nal) ++ nal ++ rest))%nat = true).
  { apply Nat.ltb_lt. rewrite !length_app. cbn. lia. }
  rewrite Hlt. cbn [negb]. rewrite (proj2 (Z.ltb_ge _ _)) by (rewrite !size_app, size_be32; unfold size at 1 3; unfold size in *; lia).
  cbn [ensure negb mbind outcome_bind]. rewrite read_be32_app by done. cbn [mbind outcome_bind]. cbv zeta.
  rewrite (proj2 (Z.eqb_neq _ _)) by lia.
  rewrite (proj2 (Z.ltb_ge _ _)) by (rewrite !size_app, size_be32; unfold size in *; lia).
  rewrite (proj2 (Z.ltb_ge _ _)) by lia. cbn [orb negb ensure mbind outcome_bind].
  assert (Hfirst : (pre ++ be32 (size nal) ++ nal ++ rest) !! (length pre + 4)%nat = Some b).
  { rewrite app_assoc. replace (length pre + 4)%nat with (length (pre ++ be32 (size nal))) by by rewrite length_app.
    rewrite Hnal. apply lookup_at. }
  rewrite Hfirst. cbn [checked mbind outcome_bind]. rewrite Hb. cbn [Z.eqb ensure mbind outcome_bind].
  f_equal.
  - by rewrite <- !app_assoc.
  - rewrite !length_app. unfold size. cbn. lia.
  - rewrite !size_app, size_be32. lia.
  - rewrite Hidr. destruct (Z.land b 0x1f =? 5); [by rewrite orb_true_r|by rewrite orb_false_r].
Qed.

Lemma inspect_units nals : forall pre fuel key,
  Forall nal_ok nals -> size (pre ++ lengthed nals) <= AIRPLAY_MIRROR_VIDEO_MAX_ACCESS_UNIT -> (length nals < fuel)%nat ->
  inspect_loop fuel (pre ++ lengthed nals) (length pre) (size pre) key =
    Done (size (pre ++ lengthed nals), key || existsb is_idr nals).
Proof.
  induction nals as [|nal nals IH]; intros pre fuel key Hn Hmax Hf; (destruct fuel as [|fuel]; [cbn in Hf; lia|]).
  - cbn [lengthed]. rewrite app_nil_r in *. rewrite inspect_stop by done. by rewrite orb_false_r.
  - apply Forall_cons in Hn as [Hnal Hn]. cbn [lengthed] in *. rewrite inspect_nal by done.
    replace (pre ++ be32 (size nal) ++ nal ++ lengthed nals) with ((pre ++ be32 (size nal) ++ nal) ++ lengthed nals) in *
      by by rewrite <- !app_assoc.
    rewrite IH by (done || cbn in Hf; lia). cbn [existsb]. by rewrite orb_assoc.
Qed.

(** What the loop accepts is a sequence of units. *)
Lemma inspect_total fuel : forall pre rest key,
  Forall is_byte rest -> size (pre ++ rest) <= AIRPLAY_MIRROR_VIDEO_MAX_ACCESS_UNIT -> (length rest < fuel)%nat ->
  (exists nals, Forall nal_ok nals /\ rest = lengthed nals) \/
  inspect_loop fuel (pre ++ rest) (length pre) (size pre) key = Refused.
Proof.
  induction fuel as [|fuel IH]; intros pre rest key Hb Hmax Hf; [lia|].
  destruct rest as [|r0 rest0]; [left; by exists []|]. set (rest := r0 :: rest0) in *.
  assert (Hlt : (length pre <? length (pre ++ rest))%nat = true) by (apply Nat.ltb_lt; rewrite length_app; subst rest; cbn; lia).
  destruct (decide (4 <= length rest)%nat) as [H4|H4].
  2: { right. cbn [inspect_loop]. rewrite Hlt. cbn [negb]. rewrite (proj2 (Z.ltb_lt _ _)); [done|]. rewrite size_app. unfold size. lia. }
  destruct (split_be32 rest Hb H4) as (v & tail & Hrest & Hv).
  assert (Hread : read_be32 (pre ++ rest) (length pre) = Done v) by (rewrite Hrest; by apply read_be32_app).
  assert (Hsz : size rest = 4 + size tail) by (rewrite Hrest, size_app; done).
  destruct (decide (1 <= v <= size tail)) as [Hvr|Hvr].
  2: { right. cbn [inspect_loop]. rewrite Hlt. cbn [negb]. rewrite (proj2 (Z.ltb_ge _ _)) by (rewrite size_app; unfold size in *; lia).
    cbn [negb ensure mbind outcome_bind]. rewrite Hread. cbn [mbind outcome_bind]. cbv zeta. unfold is_u32 in Hv.
    destruct (Z.eqb_spec v 0) as [|Hv0]; [done|]. cbn [orb]. rewrite (proj2 (Z.ltb_lt _ _)); [done|]. rewrite size_app, Hsz. unfold size in *. lia. }
  set (nal := take (Z.to_nat v) tail). set (after := drop (Z.to_nat v) tail).
  assert (Hnt : tail = nal ++ after) by (symmetry; apply take_drop).
  assert (Hns : size nal = v) by (unfold size; subst nal; rewrite length_take; unfold size in Hvr; lia).
  destruct nal as [|b nal0] eqn:Enal; [change (size (@nil Z)) with 0 in Hns; lia|].
  destruct (decide (Z.land b 0x80 = 0)) as [Hfb|Hfb].
  - assert (Hok : nal_ok (b :: nal0)) by by exists b, nal0.
    assert (Heq : pre ++ rest = pre ++ be32 (size (b :: nal0)) ++ (b :: nal0) ++ after) by by rewrite Hrest, Hns, Hnt.
    destruct (IH (pre ++ be32 (size (b :: nal0)) ++ b :: nal0) after (key || is_idr (b :: nal0))) as [(nals & Hn & Ha)|Hr].
    + subst after. apply Forall_drop. rewrite Hrest in Hb. by apply Forall_app in Hb as [_ Hb].
    + rewrite <- !app_assoc. rewrite <- Heq. done.
    + rewrite Hrest, Hnt, !length_app in Hf. cbn in Hf. lia.
    + left. exists ((b :: nal0) :: nals). split; [by constructor|]. cbn [lengthed]. rewrite <- Ha, Hrest, Hns, Hnt. done.
    + right. rewrite Heq. rewrite inspect_nal; [exact Hr|done|by rewrite <- Heq|done].
  - right. cbn [inspect_loop]. rewrite Hlt. cbn [negb]. rewrite (proj2 (Z.ltb_ge _ _)) by (rewrite size_app; unfold size in *; lia).
    cbn [negb ensure mbind outcome_bind]. rewrite Hread. cbn [mbind outcome_bind]. cbv zeta. unfold is_u32 in Hv.
    destruct (negb _); [|done]. cbn [ensure mbind outcome_bind].
    assert (Hfirst : (pre ++ rest) !! (length pre + 4)%nat = Some b).
    { rewrite Hrest, Hnt, app_assoc. replace (length pre + 4)%nat with (length (pre ++ be32 v)) by by rewrite length_app. apply lookup_at. }
    rewrite Hfirst. cbn [checked mbind outcome_bind]. by rewrite (proj2 (Z.eqb_neq _ _) Hfb).
Qed.

Lemma lengthed_length nals : (length nals <= length (lengthed nals))%nat.
Proof. induction nals as [|nal nals IH]; [done|]. cbn [lengthed length]. rewrite !length_app. cbn. lia. Qed.

Lemma inspect_accepts nals payload : access_unit_of nals payload ->
  inspect_access_unit payload = Done (size payload, existsb is_idr nals).
Proof.
  intros (Hne & Hok & -> & Hmax). unfold inspect_access_unit. destruct nals as [|nal nals]; [done|].
  assert (Hpos : 0 < size (lengthed (nal :: nals))).
  { cbn [lengthed]. rewrite !size_app, size_be32. pose proof (size_nonneg nal). pose proof (size_nonneg (lengthed nals)). lia. }
  rewrite (proj2 (Z.eqb_neq _ _)), (proj2 (Z.ltb_ge _ _)) by lia. cbn [orb negb ensure mbind outcome_bind].
  pose proof (inspect_units (nal :: nals) [] (S (length (lengthed (nal :: nals)))) false Hok) as H.
  refine (H Hmax _). pose proof (lengthed_length (nal :: nals)). lia.
Qed.

Lemma inspect_refuses payload : Forall is_byte payload -> (forall nals, ~ access_unit_of nals payload) ->
  inspect_access_unit payload = Refused.
Proof.
  intros Hb Hno. unfold inspect_access_unit. destruct (Z.eqb_spec (size payload) 0) as [|Hne]; [done|].
  destruct (Z.ltb_spec AIRPLAY_MIRROR_VIDEO_MAX_ACCESS_UNIT (size payload)) as [|Hmax]; [done|].
  cbn [orb negb ensure mbind outcome_bind].
  destruct (inspect_total (S (length payload)) [] payload false Hb) as [(nals & Hok & Heq)|Hr]; [done|lia| |exact Hr].
  destruct (Hno nals). split; [|done]. intros ->. by rewrite Heq in Hne.
Qed.

Lemma put_done capacity output bytes : size output + size bytes <= capacity -> put capacity output bytes = Done (output ++ bytes).
Proof. intros H. unfold put. by rewrite (proj2 (Z.leb_le _ _) H). Qed.

Lemma write_units nals : forall pre fuel capacity output,
  Forall nal_ok nals -> size (pre ++ lengthed nals) <= AIRPLAY_MIRROR_VIDEO_MAX_ACCESS_UNIT -> (length nals < fuel)%nat ->
  size output + size (lengthed nals) <= capacity ->
  write_access_unit fuel (pre ++ lengthed nals) (length pre) capacity output = Done (output ++ annexb nals).
Proof.
  induction nals as [|nal nals IH]; intros pre fuel capacity output Hok Hmax Hf Hcap; (destruct fuel as [|fuel]; [cbn in Hf; lia|]);
    cbn [write_access_unit].
  - cbn [lengthed annexb]. rewrite !app_nil_r. by rewrite Nat.ltb_irrefl.
  - apply Forall_cons in Hok as [Hnal Hok]. cbn [lengthed annexb] in *. pose proof (nal_size_pos nal Hnal) as Hpos.
    pose proof (size_nonneg (lengthed nals)). pose proof (size_nonneg pre). rewrite !size_app, size_be32 in Hcap.
    assert (Hu : is_u32 (size nal)).
    { rewrite !size_app, size_be32 in Hmax. unfold is_u32, UINT32_MAX, AIRPLAY_MIRROR_VIDEO_MAX_ACCESS_UNIT in *. lia. }
    rewrite (proj2 (Nat.ltb_lt _ _)) by (rewrite !length_app; cbn; lia). cbn [negb].
    rewrite read_be32_app by done. cbn [mbind outcome_bind]. cbv zeta.
    rewrite put_done by (change (size start_code) with 4; lia). cbn [mbind outcome_bind].
    rewrite (proj2 (Z.leb_le _ _)) by (rewrite !size_app, size_be32; lia).
    assert (Hr : buf_read (length pre + 4) (Z.to_nat (size nal)) (pre ++ be32 (size nal) ++ nal ++ lengthed nals) = Some nal).
    { unfold size at 1. rewrite Nat2Z.id, app_assoc. replace (length pre + 4)%nat with (length (pre ++ be32 (size nal))) by by rewrite length_app.
      apply buf_read_app. }
    rewrite Hr. cbn [checked mbind outcome_bind]. rewrite put_done by (rewrite size_app; change (size start_code) with 4; lia).
    cbn [mbind outcome_bind].
    replace (pre ++ be32 (size nal) ++ nal ++ lengthed nals) with ((pre ++ be32 (size nal) ++ nal) ++ lengthed nals) in *
      by by rewrite <- !app_assoc.
    replace (length pre + 4 + Z.to_nat (size nal))%nat with (length (pre ++ be32 (size nal) ++ nal)).
    2: { rewrite !length_app. unfold size. cbn. lia. }
    rewrite IH; [by rewrite <- !app_assoc|done|done|cbn in Hf; lia|]. rewrite !size_app. change (size start_code) with 4. lia.
Qed.

(** ** The grammar of a configuration *)

(** Parameter sets with 16-bit lengths. *)
Fixpoint lengthed16 (sets : list (list Z)) : list Z :=
  match sets with [] => [] | set :: sets' => be16 (size set) ++ set ++ lengthed16 sets' end.

Definition set_ok (type : Z) (set : list Z) : Prop := nal_ok set /\ nal_type set = type /\ size set < 65536.

(** avcC: the header, the sequence and the picture parameter sets, then anything. *)
Definition config_of (sps pps : list (list Z)) (avcc : list Z) : Prop :=
  exists profile compatibility level lengths sets rest,
    avcc = [1; profile; compatibility; level; lengths; sets] ++ lengthed16 sps ++ [size pps] ++ lengthed16 pps ++ rest /\
    Z.land lengths 3 = 3 /\ Z.land sets 31 = size sps /\ sps <> [] /\ pps <> [] /\
    Forall (set_ok 7) sps /\ Forall (set_ok 8) pps /\
    size (annexb sps ++ annexb pps) <= AIRPLAY_MIRROR_VIDEO_MAX_CONFIG.

Lemma append_nal_ok capacity output nal : nal_ok nal -> 0 <= capacity - size output ->
  append_nal capacity output nal = 
    if size output + 4 + size nal <=? capacity then Done (output ++ start_code ++ nal) else Refused.
Proof.
  intros (b & rest & -> & Hb) Hc. unfold append_nal. change (size start_code) with 4. pose proof (size_nonneg rest).
  rewrite size_cons. rewrite (proj2 (Z.eqb_neq _ _)), (proj2 (Z.ltb_ge _ _)) by lia. cbn [orb].
  destruct (Z.leb_spec (size output + 4 + (1 + size rest)) capacity) as [Hle|Hgt].
  - rewrite (proj2 (Z.ltb_ge _ _)) by lia. cbn [negb ensure mbind outcome_bind lookup list_lookup checked].
    rewrite Hb. cbn [Z.eqb ensure mbind outcome_bind]. rewrite put_done by (change (size start_code) with 4; lia).
    cbn [mbind outcome_bind]. rewrite put_done by (rewrite size_app, size_cons; change (size start_code) with 4; lia).
    by rewrite <- app_assoc.
  - by rewrite (proj2 (Z.ltb_lt _ _)) by lia.
Qed.

Lemma parse_set count type pre set rest output :
  set_ok type set -> size output <= AIRPLAY_MIRROR_VIDEO_MAX_CONFIG ->
  parse_sets (S count) type (pre ++ be16 (size set) ++ set ++ rest) (length pre) output =
    if size output + 4 + size set <=? AIRPLAY_MIRROR_VIDEO_MAX_CONFIG
    then parse_sets count type ((pre ++ be16 (size set) ++ set) ++ rest) (length (pre ++ be16 (size set) ++ set)) (output ++ start_code ++ set)
    else Refused.
Proof.
  intros (Hnal & Ht & Hs) Hc. pose proof (nal_size_pos set Hnal) as Hpos. pose proof (nal_first set Hnal) as (b & tail & Hset & _ & _).
  assert (Hu : is_u16 (size set)) by (unfold is_u16; lia). cbn [parse_sets].
  rewrite (proj2 (Nat.leb_le _ _)) by (rewrite !length_app; cbn; lia). cbn [ensure mbind outcome_bind].
  rewrite read_be16_app by done. cbn [mbind outcome_bind]. cbv zeta.
  rewrite (proj2 (Z.eqb_neq _ _)) by lia. rewrite (proj2 (Z.ltb_ge _ _)).
  2: { rewrite !size_app. change (size (be16 (size set))) with 2. pose proof (size_nonneg rest). unfold size at 1 3. unfold size in *. lia. }
  cbn [orb negb ensure mbind outcome_bind].
  assert (Hpre : (length pre + 2)%nat = length (pre ++ be16 (size set))) by by rewrite length_app.
  assert (Hfirst : (pre ++ be16 (size set) ++ set ++ rest) !! (length pre + 2)%nat = Some b).
  { rewrite app_assoc, Hpre, Hset. apply lookup_at. }
  rewrite Hfirst. cbn [checked mbind outcome_bind]. assert (Hb : Z.land b 0x1f = type) by by rewrite <- Ht, Hset.
  rewrite Hb, Z.eqb_refl. cbn [ensure mbind outcome_bind].
  assert (Hr : buf_read (length pre + 2) (Z.to_nat (size set)) (pre ++ be16 (size set) ++ set ++ rest) = Some set).
  { unfold size at 1. rewrite Nat2Z.id, app_assoc, Hpre. apply buf_read_app. }
  rewrite Hr. cbn [checked mbind outcome_bind]. rewrite append_nal_ok by (done || lia).
  destruct (_ <=? _); [|done]. cbn [mbind outcome_bind]. f_equal; [by rewrite <- !app_assoc|].
  rewrite !length_app. unfold size. cbn. lia.
Qed.

Lemma parse_sets_app sets : forall type pre rest output,
  Forall (set_ok type) sets -> size (output ++ annexb sets) <= AIRPLAY_MIRROR_VIDEO_MAX_CONFIG ->
  parse_sets (length sets) type (pre ++ lengthed16 sets ++ rest) (length pre) output =
    Done (length (pre ++ lengthed16 sets), output ++ annexb sets).
Proof.
  induction sets as [|set sets IH]; intros type pre rest output Hok Hfit.
  - cbn [parse_sets length lengthed16 annexb]. by rewrite !app_nil_r.
  - apply Forall_cons in Hok as [Hset Hok]. cbn [annexb lengthed16 length] in *.
    rewrite !size_app in Hfit. change (size start_code) with 4 in Hfit. pose proof (size_nonneg (annexb sets)). pose proof (size_nonneg set).
    rewrite <- !app_assoc, parse_set by (done || lia). rewrite (proj2 (Z.leb_le _ _)) by lia.
    rewrite IH; [|done|rewrite !size_app; change (size start_code) with 4; lia]. by rewrite <- !app_assoc.
Qed.

Lemma parse_sets_total type count : forall pre rest output,
  Forall is_byte rest -> size output <= AIRPLAY_MIRROR_VIDEO_MAX_CONFIG ->
  (exists sets post, length sets = count /\ Forall (set_ok type) sets /\ rest = lengthed16 sets ++ post /\
     size (output ++ annexb sets) <= AIRPLAY_MIRROR_VIDEO_MAX_CONFIG) \/
  parse_sets count type (pre ++ rest) (length pre) output = Refused.
Proof.
  induction count as [|count IH]; intros pre rest output Hb Hc.
  - left. exists [], rest. cbn [annexb]. by rewrite app_nil_r.
  - destruct (decide (2 <= length rest)%nat) as [H2|H2].
    2: { right. cbn [parse_sets]. rewrite (proj2 (Nat.leb_gt _ _)); [done|]. rewrite length_app. lia. }
    destruct (split_be16 rest Hb H2) as (v & tail & -> & Hv). unfold is_u16 in Hv.
    assert (Hread : read_be16 (pre ++ be16 v ++ tail) (length pre) = Done v) by by apply read_be16_app.
    assert (Hlen : (length pre + 2 <=? length (pre ++ be16 v ++ tail))%nat = true) by (apply Nat.leb_le; rewrite !length_app; cbn; lia).
    destruct (decide (1 <= v <= size tail)) as [Hvr|Hvr].
    2: { right. cbn [parse_sets]. rewrite Hlen. cbn [ensure mbind outcome_bind]. rewrite Hread. cbn [mbind outcome_bind]. cbv zeta.
      destruct (Z.eqb_spec v 0) as [|Hv0]; [done|]. rewrite (proj2 (Z.ltb_lt _ _)); [done|]. rewrite !size_app.
      change (size (be16 v)) with 2. unfold size in *. lia. }
    set (nal := take (Z.to_nat v) tail). set (after := drop (Z.to_nat v) tail).
    assert (Hnt : tail = nal ++ after) by (symmetry; apply take_drop).
    assert (Hns : size nal = v) by (unfold size; subst nal; rewrite length_take; unfold size in Hvr; lia).
    clearbody nal after. subst tail. destruct nal as [|b nal]; [change (size (@nil Z)) with 0 in Hns; lia|].
    assert (Hfirst : (pre ++ be16 v ++ (b :: nal) ++ after) !! (length pre + 2)%nat = Some b).
    { rewrite app_assoc. replace (length pre + 2)%nat with (length (pre ++ be16 v)) by by rewrite length_app. apply lookup_at. }
    assert (Hrd : buf_read (length pre + 2) (Z.to_nat v) (pre ++ be16 v ++ (b :: nal) ++ after) = Some (b :: nal)).
    { rewrite <- Hns. unfold size at 1. rewrite Nat2Z.id, app_assoc.
      replace (length pre + 2)%nat with (length (pre ++ be16 (size (b :: nal)))) by by rewrite length_app. apply buf_read_app. }
    assert (Hgen : forall (P : Prop), (Z.land b 0x1f = type -> Z.land b 0x80 = 0 -> P) ->
      P \/ parse_sets (S count) type (pre ++ be16 v ++ (b :: nal) ++ after) (length pre) output = Refused).
    { intros P HP. cbn [parse_sets]. rewrite Hlen. cbn [ensure mbind outcome_bind]. rewrite Hread. cbn [mbind outcome_bind]. cbv zeta.
      destruct (negb _); [|by right]. cbn [ensure mbind outcome_bind]. rewrite Hfirst. cbn [checked mbind outcome_bind].
      destruct (Z.eqb_spec (Z.land b 0x1f) type) as [Ht|]; [|by right]. cbn [ensure mbind outcome_bind]. rewrite Hrd.
      cbn [checked mbind outcome_bind]. destruct (Z.eqb_spec (Z.land b 0x80) 0) as [Hf|Hf]; [left; by apply HP|right].
      unfold append_nal. destruct (negb _); [|done]. cbn [ensure mbind outcome_bind lookup list_lookup checked].
      by rewrite (proj2 (Z.eqb_neq _ _) Hf). }
    destruct (Hgen (set_ok type (b :: nal))) as [Hok|Hr]; [|clear Hgen|by right].
    { intros Ht Hf. split; [by exists b, nal|]. split; [done|lia]. }
    assert (Hstep := parse_set count type pre (b :: nal) after output Hok Hc). rewrite Hns in Hstep.
    destruct (Z.leb_spec (size output + 4 + v) AIRPLAY_MIRROR_VIDEO_MAX_CONFIG) as [Hfit|Hfit]; [|by right].
    destruct (IH (pre ++ be16 v ++ b :: nal) after (output ++ start_code ++ b :: nal)) as [(sets & post & Hl & Hsets & -> & Hfits)|Hr].
    + apply Forall_app in Hb as [_ Hb]. by apply Forall_app in Hb as [_ Hb].
    + rewrite !size_app, Hns. change (size start_code) with 4. lia.
    + left. exists ((b :: nal) :: sets), post. split; [cbn; by rewrite Hl|]. split; [by constructor|].
      cbn [lengthed16 annexb]. rewrite Hns. split; [by rewrite <- !app_assoc|]. by rewrite <- !app_assoc in Hfits.
    + right. by rewrite Hstep.
Qed.

Lemma size_nat {A} (l : list A) : Z.to_nat (size l) = length l.
Proof. unfold size. lia. Qed.

Lemma parse_config sps pps avcc : config_of sps pps avcc ->
  parse_parameter_sets avcc = Done (annexb sps ++ annexb pps).
Proof.
  intros (p & c & l & ls & n & rest & -> & Hls & Hn & Hs & Hp & Hsok & Hpok & Hfit).
  pose proof (size_nonneg (annexb pps)) as H0. rewrite size_app in Hfit. unfold parse_parameter_sets.
  set (head := [1; p; c; l; ls; n]).
  assert (Hlen : (7 <=? length (head ++ lengthed16 sps ++ [size pps] ++ lengthed16 pps ++ rest))%nat = true).
  { apply Nat.leb_le. rewrite !length_app. cbn. lia. }
  rewrite Hlen. cbn [ensure mbind outcome_bind]. change ((head ++ ?x) !! 0%nat) with (Some 1).
  change ((head ++ ?x) !! 4%nat) with (Some ls). change ((head ++ ?x) !! 5%nat) with (Some n).
  cbn [checked mbind outcome_bind]. cbn [Z.eqb Pos.eqb ensure mbind outcome_bind]. rewrite Hls.
  cbn [Z.eqb Pos.eqb ensure mbind outcome_bind]. cbv zeta. rewrite Hn.
  rewrite (proj2 (Z.eqb_neq _ _)) by (destruct sps; [done|rewrite size_cons; pose proof (size_nonneg sps); lia]).
  cbn [negb ensure mbind outcome_bind]. rewrite size_nat.
  pose proof (parse_sets_app sps 7 head ([size pps] ++ lengthed16 pps ++ rest) [] Hsok) as E1. rewrite app_nil_l in E1.
  change (length head) with 6%nat in E1. rewrite E1 by lia. cbn [mbind outcome_bind].
  rewrite app_assoc. rewrite (proj2 (Nat.leb_gt _ _)) by (rewrite !length_app; cbn; lia). cbn [negb ensure mbind outcome_bind].
  cbn [app]. rewrite lookup_at. cbn [checked mbind outcome_bind].
  rewrite (proj2 (Z.eqb_neq _ _)) by (destruct pps; [done|rewrite size_cons; pose proof (size_nonneg pps); lia]).
  cbn [negb ensure mbind outcome_bind]. rewrite size_nat.
  pose proof (parse_sets_app pps 8 ((head ++ lengthed16 sps) ++ [size pps]) rest (annexb sps) Hpok) as E2.
  rewrite <- !app_assoc in E2. cbn [app] in E2.
  replace (S (length (head ++ lengthed16 sps))) with (length (head ++ lengthed16 sps ++ [size pps])).
  2: { rewrite !length_app. cbn. lia. }
  rewrite <- !app_assoc. rewrite E2; [done|]. by rewrite size_app.
Qed.

Lemma parse_total avcc : Forall is_byte avcc ->
  (exists sps pps, config_of sps pps avcc) \/ parse_parameter_sets avcc = Refused.
Proof.
  intros Hb. destruct (decide (7 <= length avcc)%nat) as [H7|H7].
  2: { right. unfold parse_parameter_sets. by rewrite (proj2 (Nat.leb_gt _ _)) by lia. }
  destruct avcc as [|v [|p [|c [|l [|ls [|n tail]]]]]]; cbn in H7; try lia.
  set (head := [v; p; c; l; ls; n]). change (v :: p :: c :: l :: ls :: n :: tail) with (head ++ tail) in *.
  assert (Hlen : (7 <=? length (head ++ tail))%nat = true) by (apply Nat.leb_le; rewrite length_app; cbn; lia).
  unfold parse_parameter_sets. rewrite Hlen. cbn [ensure mbind outcome_bind]. change ((head ++ tail) !! 0%nat) with (Some v).
  change ((head ++ tail) !! 4%nat) with (Some ls). change ((head ++ tail) !! 5%nat) with (Some n).
  cbn [checked mbind outcome_bind]. destruct (Z.eqb_spec v 1) as [->|]; [|by right]. cbn [ensure mbind outcome_bind].
  destruct (Z.eqb_spec (Z.land ls 3) 3) as [Hls|]; [|by right]. cbn [ensure mbind outcome_bind]. cbv zeta.
  destruct (Z.eqb_spec (Z.land n 31) 0) as [|Hn]; [by right|]. cbn [negb ensure mbind outcome_bind].
  apply Forall_app in Hb as [Hbh Hbt].
  assert (Hn31 : 0 < Z.land n 31) by (change 31 with (Z.ones 5) in *; rewrite Z.land_ones in * by lia; lia).
  destruct (parse_sets_total 7 (Z.to_nat (Z.land n 31)) head tail [] Hbt) as [(sps & post & Hls1 & Hsps & -> & Hf1)|Hr]; [done| |].
  2: { right. change 6%nat with (length head). by rewrite Hr. }
  rewrite app_nil_l in Hf1. apply Forall_app in Hbt as [_ Hbp]. pose proof (parse_sets_app sps 7 head post [] Hsps) as E1.
  rewrite app_nil_l in E1. change 6%nat with (length head). rewrite <- Hls1, E1 by done. cbn [mbind outcome_bind]. rewrite app_assoc.
  destruct post as [|m post]; [right; rewrite app_nil_r, (proj2 (Nat.leb_le _ _)) by done; done|].
  rewrite (proj2 (Nat.leb_gt _ _)) by (rewrite !length_app; cbn; lia). cbn [negb ensure mbind outcome_bind].
  rewrite lookup_at. cbn [checked mbind outcome_bind]. destruct (Z.eqb_spec m 0) as [|Hm]; [by right|]. cbn [negb ensure mbind outcome_bind].
  apply Forall_cons in Hbp as [Hbm Hbp]. unfold is_byte in Hbm.
  destruct (parse_sets_total 8 (Z.to_nat m) ((head ++ lengthed16 sps) ++ [m]) post (annexb sps) Hbp Hf1) as [(pps & rest & Hlp & Hpps & -> & Hf2)|Hr].
  - left. exists sps, pps, p, c, l, ls, n, rest. assert (size pps = m) as -> by (unfold size; lia).
    split; [by rewrite <- !app_assoc|]. split; [done|]. split; [unfold size; lia|].
    split; [by intros ->; cbn in Hls1; lia|]. split; [by intros ->; cbn in Hlp; lia|]. done.
  - right. rewrite <- !app_assoc in Hr. cbn [app] in Hr.
    replace (S (length (head ++ lengthed16 sps))) with (length (head ++ lengthed16 sps ++ [m])) by (rewrite !length_app; cbn; lia).
    rewrite <- app_assoc. cbn [app]. rewrite !app_assoc in Hr |- *. by rewrite Hr.
Qed.
