(* ===== verification/MirrorVideoStream.v ===== *)
(** * The stream of mirrored video can be decoded

    What each operation does, and what the callback gets over any run. *)

From S2P Require Import Prelude Buffers MirrorAudio MirrorVideo.

Definition unit_key (nals : list (list Z)) : bool := existsb is_idr nals.

(** A keyframe starts with the parameter sets. *)
Definition unit_bytes (config : list Z) (nals : list (list Z)) : list Z :=
  (if unit_key nals then config else []) ++ annexb nals.

(** The reasons to drop a valid unit: no configuration, a time stamp that goes back, or
    a keyframe that is waited for. *)
Definition drops (video : AirPlayMirrorVideo) (nals : list (list Z)) (timestamp : Z) : bool :=
  bool_decide (video_config video = []) || (has_last_timestamp video && (timestamp <? last_timestamp video)) ||
  (waiting_for_keyframe video && negb (unit_key nals)).

Definition unit_of (video : AirPlayMirrorVideo) (nals : list (list Z)) (timestamp : Z) : AirPlayMirrorAccessUnit :=
  mkUnit (unit_bytes (video_config video) nals) timestamp (config_generation video) (unit_key nals).

Lemma size_unit_bytes config nals :
  size (unit_bytes config nals) = size (if unit_key nals then config else []) + size (lengthed nals).
Proof. unfold unit_bytes. by rewrite size_app, size_annexb. Qed.

Lemma process_unit_spec alloc video payload timestamp :
  Forall is_byte payload ->
  (forall nals, access_unit_of nals payload ->
     let bytes := unit_bytes (video_config video) nals in
     airplay_mirror_video_process_access_unit alloc video payload timestamp = Done
       (if drops video nals timestamp then
          (AIRPLAY_MIRROR_VIDEO_DROPPED, { video with access_units_dropped ::= inc }, None)
        else if AIRPLAY_MIRROR_VIDEO_MAX_ACCESS_UNIT <? size bytes then
          (AIRPLAY_MIRROR_VIDEO_INVALID, { video with access_units_invalid ::= inc }, None)
        else if negb (alloc (size bytes)) then
          (AIRPLAY_MIRROR_VIDEO_NO_MEMORY, { video with access_units_no_memory ::= inc }, None)
        else
          (AIRPLAY_MIRROR_VIDEO_OK,
           { video with waiting_for_keyframe := false; has_last_timestamp := true; last_timestamp := timestamp;
                        access_units_ok ::= inc; access_unit_bytes ::= (fun n => u64 (n + size bytes));
                        keyframes ::= (if unit_key nals then inc else id) },
           Some (unit_of video nals timestamp)))) /\
  ((forall nals, ~ access_unit_of nals payload) ->
     airplay_mirror_video_process_access_unit alloc video payload timestamp =
       Done (AIRPLAY_MIRROR_VIDEO_INVALID, { video with access_units_invalid ::= inc }, None)).
Proof.
  intros Hb. split.
  - intros nals Hu. cbv zeta. pose proof Hu as (_ & Hok & Hp & Hmax). unfold airplay_mirror_video_process_access_unit.
    rewrite (inspect_accepts nals payload Hu). fold (unit_key nals). change (bool_decide _ || _ || _) with (drops video nals timestamp).
    destruct (drops video nals timestamp); [done|]. cbv zeta.
    rewrite size_unit_bytes, <- Hp. set (prefix := if unit_key nals then video_config video else []).
    assert (Hc : (AIRPLAY_MIRROR_VIDEO_MAX_ACCESS_UNIT - size prefix <? size payload) =
                 (AIRPLAY_MIRROR_VIDEO_MAX_ACCESS_UNIT <? size prefix + size payload)).
    { destruct (Z.ltb_spec (AIRPLAY_MIRROR_VIDEO_MAX_ACCESS_UNIT - size prefix) (size payload)),
        (Z.ltb_spec AIRPLAY_MIRROR_VIDEO_MAX_ACCESS_UNIT (size prefix + size payload)); lia. }
    rewrite Hc. destruct (AIRPLAY_MIRROR_VIDEO_MAX_ACCESS_UNIT <? size prefix + size payload); [done|].
    destruct (negb (alloc (size prefix + size payload))); [done|].
    rewrite put_done by (change (size (@nil Z)) with 0; pose proof (size_nonneg payload); lia). cbn [mbind outcome_bind app].
    pose proof (write_units nals [] (S (length payload)) (size prefix + size payload) prefix Hok) as Hw.
    cbn [app length] in Hw. rewrite <- Hp in Hw. rewrite Hw; [|lia|rewrite Hp; pose proof (lengthed_length nals); lia|lia].
    cbn [mbind outcome_bind]. rewrite size_app, size_annexb, <- Hp. unfold unit_of, unit_bytes. fold prefix.
    subst prefix. by destruct (unit_key nals).
  - intros Hno. unfold airplay_mirror_video_process_access_unit. by rewrite inspect_refuses.
Qed.

Lemma process_config_spec video avcc timestamp : Forall is_byte avcc ->
  (exists sps pps, size avcc <= AIRPLAY_MIRROR_VIDEO_MAX_CONFIG /\ config_of sps pps avcc /\
     airplay_mirror_video_process_config video avcc timestamp = Done (AIRPLAY_MIRROR_VIDEO_OK,
       let parsed := annexb sps ++ annexb pps in
       let generation := u32 (config_generation video + 1) in
       let video :=
         if bool_decide (parsed = video_config video) then video
         else { video with video_config := parsed;
                           config_generation := if generation =? 0 then u32 (generation + 1) else generation;
                           waiting_for_keyframe := true } in
       { video with config_timestamp := timestamp; config_ok ::= inc })) \/
  airplay_mirror_video_process_config video avcc timestamp = Done (AIRPLAY_MIRROR_VIDEO_INVALID, { video with config_failures ::= inc }).
Proof.
  intros Hb. unfold airplay_mirror_video_process_config.
  destruct (Z.ltb_spec AIRPLAY_MIRROR_VIDEO_MAX_CONFIG (size avcc)) as [|Hs]; [by right|].
  destruct (parse_total avcc Hb) as [(sps & pps & Hc)|Hr]; [left; exists sps, pps|right; by rewrite Hr].
  by rewrite (parse_config sps pps avcc Hc).
Qed.

Lemma annexb_nonempty nals : nals <> [] -> annexb nals <> [].
Proof. by destruct nals. Qed.

(** ** A run *)

Inductive video_op :=
  | Op_config (avcc : list Z) (timestamp : Z)
  | Op_unit (alloc : Z -> bool) (payload : list Z) (timestamp : Z)
  | Op_reset.

Definition video_op_bytes (op : video_op) : list Z :=
  match op with Op_config avcc _ => avcc | Op_unit _ payload _ => payload | Op_reset => [] end.

Definition video_step (video : AirPlayMirrorVideo) (op : video_op) : outcome (AirPlayMirrorVideo * list AirPlayMirrorAccessUnit) :=
  match op with
  | Op_config avcc timestamp =>
      '(_, video) ← airplay_mirror_video_process_config video avcc timestamp; Done (video, [])
  | Op_unit alloc payload timestamp =>
      '(_, video, delivered) ← airplay_mirror_video_process_access_unit alloc video payload timestamp;
      Done (video, match delivered with Some u => [u] | None => [] end)
  | Op_reset => Done (airplay_mirror_video_reset video, [])
  end.

Fixpoint video_run (video : AirPlayMirrorVideo) (ops : list video_op) : outcome (AirPlayMirrorVideo * list AirPlayMirrorAccessUnit) :=
  match ops with
  | [] => Done (video, [])
  | op :: ops' =>
      '(video, units) ← video_step video op;
      '(video, units') ← video_run video ops';
      Done (video, units ++ units')
  end.

(** A unit that is no keyframe follows one of the same configuration that is no later. *)
Fixpoint decodable (before : option (Z * Z)) (units : list AirPlayMirrorAccessUnit) : Prop :=
  match units with
  | [] => True
  | u :: units' =>
      (unit_keyframe u = true \/
       exists timestamp, before = Some (unit_config_generation u, timestamp) /\ timestamp <= unit_timestamp u) /\
      decodable (Some (unit_config_generation u, unit_timestamp u)) units'
  end.

Fixpoint last_unit (before : option (Z * Z)) (units : list AirPlayMirrorAccessUnit) : option (Z * Z) :=
  match units with
  | [] => before
  | u :: units' => last_unit (Some (unit_config_generation u, unit_timestamp u)) units'
  end.

(** The Annex B form of the parameter sets of a configuration of [ops]. *)
Definition configured (ops : list video_op) (config : list Z) : Prop :=
  exists avcc timestamp sps pps, Op_config avcc timestamp ∈ ops /\ config_of sps pps avcc /\ config = annexb sps ++ annexb pps.

(** What a delivered unit is made of. *)
Definition made_of (ops : list video_op) (u : AirPlayMirrorAccessUnit) : Prop :=
  exists alloc payload nals config,
    Op_unit alloc payload (unit_timestamp u) ∈ ops /\ access_unit_of nals payload /\ configured ops config /\
    unit_keyframe u = unit_key nals /\ unit_data u = unit_bytes config nals /\
    size (unit_data u) <= AIRPLAY_MIRROR_VIDEO_MAX_ACCESS_UNIT /\ unit_config_generation u <> 0.

Record video_ok (ops : list video_op) (before : option (Z * Z)) (video : AirPlayMirrorVideo) : Prop := {
  video_configured : video_config video <> [] -> configured ops (video_config video) /\ config_generation video <> 0;
  video_waiting : waiting_for_keyframe video = false ->
    has_last_timestamp video = true /\ before = Some (config_generation video, last_timestamp video)
}.

Lemma unit_grammar payload : Forall is_byte payload ->
  (exists nals, access_unit_of nals payload) \/ (forall nals, ~ access_unit_of nals payload).
Proof.
  intros Hb. destruct (Z.eqb_spec (size payload) 0) as [H0|H0].
  { right. intros nals (Hne & _ & -> & _). destruct nals as [|nal nals]; [done|]. cbn [lengthed] in H0.
    rewrite !size_app, size_be32 in H0. pose proof (size_nonneg nal). pose proof (size_nonneg (lengthed nals)). lia. }
  destruct (Z.leb_spec (size payload) AIRPLAY_MIRROR_VIDEO_MAX_ACCESS_UNIT) as [Hmax|Hmax].
  2: { right. intros nals (_ & _ & _ & H). lia. }
  destruct (inspect_total (S (length payload)) [] payload false Hb) as [(nals & Hok & Heq)|Hr]; [done|lia|left|right].
  - exists nals. split; [|done]. intros ->. by rewrite Heq in H0.
  - intros nals Hu. pose proof (inspect_accepts nals payload Hu) as Ha. unfold inspect_access_unit in Ha.
    rewrite (proj2 (Z.eqb_neq _ _)), (proj2 (Z.ltb_ge _ _)) in Ha by lia. cbn [orb negb ensure mbind outcome_bind] in Ha.
    change (S (length payload)) with (S (length payload)) in Hr. cbn [app length] in Hr. change (size []) with 0 in Hr. congruence.
Qed.

Lemma video_step_ok ops before video op :
  video_ok ops before video -> op ∈ ops -> Forall is_byte (video_op_bytes op) ->
  exists video' units, video_step video op = Done (video', units) /\
    video_ok ops (last_unit before units) video' /\ decodable before units /\ Forall (made_of ops) units.
Proof.
  intros [Hc Hw] Hop Hb. destruct op as [avcc ts|alloc payload ts|]; cbn [video_step video_op_bytes] in *.
  - destruct (process_config_spec video avcc ts Hb) as [(sps & pps & Hs & Hcfg & E)|E]; rewrite E; cbn [mbind outcome_bind].
    + eexists _, []. split; [done|]. split; [|done]. cbv zeta. destruct (bool_decide_reflect (annexb sps ++ annexb pps = video_config video)) as [He|He].
      * constructor; cbn; [exact Hc|exact Hw].
      * constructor; cbn; [|done]. intros _. split; [by exists avcc, ts, sps, pps|].
        destruct (Z.eqb_spec (u32 (config_generation video + 1)) 0) as [->|Hn]; [done|exact Hn].
    + eexists _, []. split; [done|]. split; [|done]. constructor; cbn; [exact Hc|exact Hw].
  - assert (Hskip : forall video', video_config video' = video_config video -> config_generation video' = config_generation video ->
      has_last_timestamp video' = has_last_timestamp video -> last_timestamp video' = last_timestamp video ->
      waiting_for_keyframe video' = waiting_for_keyframe video ->
      video_ok ops (last_unit before []) video' /\ decodable before [] /\ Forall (made_of ops) []).
    { intros video' E1 E2 E3 E4 E5. split; [|done]. constructor; cbn; rewrite ?E1, ?E2, ?E3, ?E4, ?E5; done. }
    destruct (process_unit_spec alloc video payload ts Hb) as [Hacc Hrej].
    destruct (unit_grammar payload Hb) as [[nals Hu]|Hno].
    2: { rewrite (Hrej Hno). eexists _, []. split; [done|]. by apply Hskip. }
    rewrite (Hacc nals Hu). destruct (drops video nals ts) eqn:Hd; [eexists _, []; split; [done|]; by apply Hskip|].
    destruct (Z.ltb_spec AIRPLAY_MIRROR_VIDEO_MAX_ACCESS_UNIT (size (unit_bytes (video_config video) nals))) as [|Hsz];
      [eexists _, []; split; [done|]; by apply Hskip|].
    destruct (negb (alloc _)); [eexists _, []; split; [done|]; by apply Hskip|].
    unfold drops in Hd. apply orb_false_iff in Hd as [Hd Hd3]. apply orb_false_iff in Hd as [Hd1 Hd2].
    apply bool_decide_eq_false in Hd1. destruct (Hc Hd1) as [Hcfg Hgen].
    eexists _, [unit_of video nals ts]. split; [done|]. split; [|split].
    + constructor; cbn; [done|]. done.
    + cbn. split; [|done]. destruct (unit_key nals); [by left|right]. destruct (waiting_for_keyframe video); [done|].
      destruct (Hw eq_refl) as [Hl ->]. exists (last_timestamp video). split; [done|]. rewrite Hl in Hd2. cbn in Hd2.
      by apply Z.ltb_ge in Hd2.
    + constructor; [|done]. by exists alloc, payload, nals, (video_config video).
  - eexists _, []. split; [done|]. split; [|done]. constructor; cbn; [exact Hc|done].
Qed.

Lemma video_run_ok ops rest : forall before video,
  video_ok ops before video -> rest ⊆ ops -> Forall (fun op => Forall is_byte (video_op_bytes op)) rest ->
  exists video' units, video_run video rest = Done (video', units) /\ decodable before units /\ Forall (made_of ops) units.
Proof.
  induction rest as [|op rest IH]; intros before video Hv Hsub Hb; [by exists video, []|].
  apply Forall_cons in Hb as [Hbo Hb].
  destruct (video_step_ok ops before video op Hv) as (v1 & u1 & E1 & Hv1 & D1 & M1); [by apply Hsub; left|done|].
  destruct (IH _ v1 Hv1) as (v2 & u2 & E2 & D2 & M2); [intros x Hx; by apply Hsub; right|done|].
  exists v2, (u1 ++ u2). cbn [video_run]. rewrite E1. cbn [mbind outcome_bind]. rewrite E2. split; [done|]. split; [|by apply Forall_app].
  clear - D1 D2. revert before D1 D2. induction u1 as [|u u1 IH]; intros before D1 D2; [done|].
  destruct D1 as [Hu D1]. split; [done|]. by apply IH.
Qed.

(** C24: Whatever bytes a sender gives as configurations and access units, and whenever the
    stream is reset or memory runs out: no access is out of bounds; every unit the
    callback gets is a keyframe, or has the configuration generation of the unit before
    it and a time stamp that is not earlier; its bytes are the NAL units of an access
    unit that was sent, a keyframe's after the parameter sets of a configuration that
    was sent; it has at most 8 MiB and its generation is not 0. *)
Theorem mirrored_video_is_decodable ops :
  Forall (fun op => Forall is_byte (video_op_bytes op)) ops ->
  exists video units, video_run airplay_mirror_video_create ops = Done (video, units) /\
    decodable None units /\ Forall (made_of ops) units.
Proof. intros Hb. apply video_run_ok; [|done|done]. by constructor. Qed.

(** An access unit is accepted exactly when it is a sequence of NAL units with
    32-bit lengths, none empty and none with the forbidden bit, of at most 8 MiB.  An
    accepted one is dropped for the three reasons the code has; otherwise the callback
    gets the same NAL units with start codes, after the parameter sets when one of them
    is an IDR slice, unless that is larger than 8 MiB or there is no memory.  No read
    or write is out of bounds, and exactly one counter of results goes up. *)
Theorem access_unit_becomes_annexb alloc video payload timestamp :
  Forall is_byte payload ->
  (forall nals, access_unit_of nals payload ->
     let bytes := unit_bytes (video_config video) nals in
     airplay_mirror_video_process_access_unit alloc video payload timestamp = Done
       (if drops video nals timestamp then
          (AIRPLAY_MIRROR_VIDEO_DROPPED, { video with access_units_dropped ::= inc }, None)
        else if AIRPLAY_MIRROR_VIDEO_MAX_ACCESS_UNIT <? size bytes then
          (AIRPLAY_MIRROR_VIDEO_INVALID, { video with access_units_invalid ::= inc }, None)
        else if negb (alloc (size bytes)) then
          (AIRPLAY_MIRROR_VIDEO_NO_MEMORY, { video with access_units_no_memory ::= inc }, None)
        else
          (AIRPLAY_MIRROR_VIDEO_OK,
           { video with waiting_for_keyframe := false; has_last_timestamp := true; last_timestamp := timestamp;
                        access_units_ok ::= inc; access_unit_bytes ::= (fun n => u64 (n + size bytes));
                        keyframes ::= (if unit_key nals then inc else id) },
           Some (unit_of video nals timestamp)))) /\
  ((forall nals, ~ access_unit_of nals payload) ->
     airplay_mirror_video_process_access_unit alloc video payload timestamp =
       Done (AIRPLAY_MIRROR_VIDEO_INVALID, { video with access_units_invalid ::= inc }, None)).
Proof. apply process_unit_spec. Qed.

(** ** Examples *)

Definition demo_avcc : list Z := [1; 100; 0; 31; 255; 225; 0; 3; 0x67; 100; 0; 1; 0; 2; 0x68; 1; 99].
Definition demo_idr : list Z := [0; 0; 0; 2; 0x65; 1; 0; 0; 0; 1; 0x06].
Definition demo_slice : list Z := [0; 0; 0; 2; 0x41; 9].

Lemma access_unit_becomes_annexb_witness :
  let video := { airplay_mirror_video_create with video_config := [0; 0; 0; 1; 0x67]; config_generation := 1 } in
  let nals := [[0x65; 1]; [0x06]] in
  access_unit_of nals demo_idr /\
  exists video', airplay_mirror_video_process_access_unit (fun _ => true) video demo_idr 5 =
    Done (AIRPLAY_MIRROR_VIDEO_OK, video', Some (mkUnit [0; 0; 0; 1; 0x67; 0; 0; 0; 1; 0x65; 1; 0; 0; 0; 1; 6] 5 1 true)).
Proof.
  cbv zeta. assert (Hu : access_unit_of [[0x65; 1]; [0x06]] demo_idr).
  { split; [done|]. split; [|done]. constructor; [by exists 0x65, [1]|]. constructor; [by exists 6, []|done]. }
  split; [exact Hu|]. eexists.
  refine (eq_trans (proj1 (access_unit_becomes_annexb (fun _ => true) _ demo_idr 5 _) [[0x65; 1]; [0x06]] Hu) _).
  - by repeat constructor.
  - reflexivity.
Defined.

Lemma mirrored_video_is_decodable_witness :
  let ops := [Op_unit (fun _ => true) demo_slice 1; Op_config demo_avcc 2; Op_unit (fun _ => true) demo_slice 3;
              Op_unit (fun _ => true) demo_idr 4; Op_unit (fun _ => true) demo_slice 5] in
  exists video units, video_run airplay_mirror_video_create ops = Done (video, units) /\
    decodable None units /\ Forall (made_of ops) units.
Proof. cbv zeta. apply mirrored_video_is_decodable. by repeat constructor. Defined.

(** The slice before the configuration and the one before the keyframe are dropped. *)
Example mirrored_video_demo :
  snd <$> (match video_run airplay_mirror_video_create
     [Op_unit (fun _ => true) demo_slice 1; Op_config demo_avcc 2; Op_unit (fun _ => true) demo_slice 3;
      Op_unit (fun _ => true) demo_idr 4; Op_unit (fun _ => true) demo_slice 5] with Done r => Some r | _ => None end) =
  Some [mkUnit ([0; 0; 0; 1; 0x67; 100; 0] ++ [0; 0; 0; 1; 0x68; 1] ++ [0; 0; 0; 1; 0x65; 1; 0; 0; 0; 1; 6]) 4 1 true;
        mkUnit [0; 0; 0; 1; 0x41; 9] 5 1 false].
Proof. vm_compute. reflexivity. Qed.
