(* ===== verification/StreamRing.v ===== *)
(** * The ring of a stream bridge (protocol/airplay/media/stream_bridge.c)

    The muxer writes bytes to a ring and the player reads them; each waits on a
    condition variable for the other.  A critical section under [ring_mutex] is one
    step; [pthread_cond_wait] is the step to sleep and, after a wake-up, a new try.
    Accesses to the ring are checked.  Offsets are below the capacity of a ring that
    was allocated, so that their sums do not wrap. *)

From S2P Require Import Prelude Buffers.

(** The part of [AirPlayStreamBridge] that [ring_mutex] protects. *)
(* src: source/protocol/airplay/media/stream_bridge.c 36-64 AirPlayStreamBridge *)
Record bridge_ring := mkRing {
  ring : list Z;
  capacity : nat;
  read_offset : nat;
  write_offset : nat;
  buffered : nat;
  bytes_written : Z;
  bytes_read : Z;
  reader_claimed : bool;
  eof : bool;
  cancelled : bool;
  first_write_observed : bool;
  first_read_observed : bool
}.
#[export] Instance eta_bridge_ring : Eta bridge_ring := fun b =>
  mkRing (ring b) (capacity b) (read_offset b) (write_offset b) (buffered b) (bytes_written b) (bytes_read b)
    (reader_claimed b) (eof b) (cancelled b) (first_write_observed b) (first_read_observed b).

(** A new ring; the contents of the memory are arbitrary. *)
Definition new_ring (memory : list Z) : bridge_ring :=
  mkRing memory (length memory) 0 0 0 0 0 false false false false false.

(** The result of a write: the number of bytes or an error of libav. *)
Inductive write_result :=
  | Wrote (n : nat)
  | Averror_exit
  | Averror_einval.

(** ** Critical sections *)

(* src: source/protocol/airplay/media/stream_bridge.c 174-176 bridge_avio_write *)
Definition write_waits (b : bridge_ring) (input : list Z) : bool :=
  negb (cancelled b) && (capacity b - buffered b <? length input)%nat.

(* src: source/protocol/airplay/media/stream_bridge.c 177-198 bridge_avio_write *)
Definition write_locked (b : bridge_ring) (input : list Z) : outcome (write_result * bridge_ring) :=
  if cancelled b then Done (Averror_exit, b)
  else
    let n := length input in
    let first := (capacity b - write_offset b)%nat in
    let first := if (n <? first)%nat then n else first in
    ring1 ← checked (buf_write (write_offset b) (take first input) (ring b));
    ring2 ← checked (buf_write 0 (drop first input) ring1);
    Done (Wrote n, { b with ring := ring2;
                            write_offset := ((write_offset b + n) mod capacity b)%nat;
                            buffered ::= (fun x => x + n)%nat;
                            bytes_written ::= (fun x => u64 (x + Z.of_nat n));
                            first_write_observed := true }).

(* src: source/protocol/airplay/media/stream_bridge.c 791-793 airplay_stream_bridge_read *)
Definition read_waits (b : bridge_ring) : bool :=
  (buffered b =? 0)%nat && negb (eof b) && negb (cancelled b).

(** The result, and the bytes written to [output]. *)
(* src: source/protocol/airplay/media/stream_bridge.c 794-821 airplay_stream_bridge_read *)
Definition read_locked (b : bridge_ring) (output_size : nat) : outcome (Z * list Z * bridge_ring) :=
  if cancelled b then Done (-1, [], b)
  else if (buffered b =? 0)%nat && eof b then Done (0, [], b)
  else
    let amount := if (output_size <? buffered b)%nat then output_size else buffered b in
    let first := (capacity b - read_offset b)%nat in
    let first := if (amount <? first)%nat then amount else first in
    output1 ← checked (buf_read (read_offset b) first (ring b));
    output2 ← checked (buf_read 0 (amount - first) (ring b));
    Done (Z.of_nat amount, output1 ++ output2,
          { b with read_offset := ((read_offset b + amount) mod capacity b)%nat;
                   buffered ::= (fun x => x - amount)%nat;
                   bytes_read ::= (fun x => u64 (x + Z.of_nat amount));
                   first_read_observed := true }).

(* src: source/protocol/airplay/media/stream_bridge.c 762-766 airplay_stream_bridge_finish *)
Definition finish_ring (b : bridge_ring) : bridge_ring := { b with eof := negb (cancelled b) }.

(* src: source/protocol/airplay/media/stream_bridge.c airplay_stream_bridge_cancel *)
Definition cancel_ring (b : bridge_ring) : bridge_ring := { b with cancelled := true }.

(* src: source/protocol/airplay/media/stream_bridge.c airplay_stream_bridge_claim_reader *)
Definition airplay_stream_bridge_claim_reader (b : bridge_ring) : bool * bridge_ring :=
  if negb (reader_claimed b) && negb (cancelled b) then (true, { b with reader_claimed := true }) else (false, b).

(* src: source/protocol/airplay/media/stream_bridge.c airplay_stream_bridge_release_reader *)
Definition airplay_stream_bridge_release_reader (b : bridge_ring) : bridge_ring := { b with reader_claimed := false }.

(** ** Threads *)

(** Where a thread is: outside, about to lock the mutex, or asleep. *)
Inductive ring_thread :=
  | Outside
  | Writing (input : list Z)
  | Writer_asleep (input : list Z)
  | Reading (output_size : nat)
  | Reader_asleep (output_size : nat).

(* src: source/protocol/airplay/media/stream_bridge.c 146-163 bridge_cond_wake_all *)
Definition wake_readers (t : ring_thread) : ring_thread :=
  match t with Reader_asleep n => Reading n | _ => t end.
(* src: source/protocol/airplay/media/stream_bridge.c 146-163 bridge_cond_wake_all *)
Definition wake_writers (t : ring_thread) : ring_thread :=
  match t with Writer_asleep input => Writing input | _ => t end.

(** The ring, the threads, and all bytes that were written and read so far. *)
Record ring_system := mkSystem {
  the_ring : bridge_ring;
  threads : list ring_thread;
  all_written : list Z;
  all_read : list Z
}.

Inductive ring_event :=
  | Call_write (thread : nat) (input : list Z)
  | Call_read (thread : nat) (output_size : nat)
  | Try (thread : nat)
  | Spurious (thread : nat)
  | Call_finish
  | Call_cancel
  | Call_claim
  | Call_release.

(** A thread has the mutex: it sleeps, or does its work and returns. *)
(* src: source/protocol/airplay/media/stream_bridge.c 171-199 bridge_avio_write *)
Definition try_write (s : ring_system) (i : nat) (input : list Z) : outcome ring_system :=
  let b := the_ring s in
  if write_waits b input then Done (mkSystem b (<[i := Writer_asleep input]> (threads s)) (all_written s) (all_read s))
  else
    '(result, b') ← write_locked b input;
    match result with
    | Wrote _ => Done (mkSystem b' (wake_readers <$> <[i := Outside]> (threads s)) (all_written s ++ input) (all_read s))
    | _ => Done (mkSystem b' (<[i := Outside]> (threads s)) (all_written s) (all_read s))
    end.

(* src: source/protocol/airplay/media/stream_bridge.c 788-822 airplay_stream_bridge_read *)
Definition try_read (s : ring_system) (i : nat) (output_size : nat) : outcome ring_system :=
  let b := the_ring s in
  if read_waits b then Done (mkSystem b (<[i := Reader_asleep output_size]> (threads s)) (all_written s) (all_read s))
  else
    '(result, output, b') ← read_locked b output_size;
    Done (mkSystem b' ((if 0 <? result then wake_writers else id) <$> <[i := Outside]> (threads s))
            (all_written s) (all_read s ++ output)).

(** An event that cannot happen is refused. *)
Definition ring_step (s : ring_system) (e : ring_event) : outcome ring_system :=
  let b := the_ring s in
  let with_thread i t := Done (mkSystem b (<[i := t]> (threads s)) (all_written s) (all_read s)) in
  let with_ring b' f := Done (mkSystem b' (f <$> threads s) (all_written s) (all_read s)) in
  match e with
  | Call_write i input =>
      match threads s !! i with
      | Some Outside =>
          if (length input =? 0)%nat || (capacity b <? length input)%nat then Done s else with_thread i (Writing input)
      | _ => Refused
      end
  | Call_read i output_size =>
      match threads s !! i with
      | Some Outside => if (output_size =? 0)%nat then Done s else with_thread i (Reading output_size)
      | _ => Refused
      end
  | Try i =>
      match threads s !! i with
      | Some (Writing input) => try_write s i input
      | Some (Reading n) => try_read s i n
      | _ => Refused
      end
  | Spurious i =>
      match threads s !! i with
      | Some (Writer_asleep input) => with_thread i (Writing input)
      | Some (Reader_asleep n) => with_thread i (Reading n)
      | _ => Refused
      end
  | Call_finish => with_ring (finish_ring b) (wake_readers ∘ wake_writers)
  | Call_cancel => with_ring (cancel_ring b) (wake_readers ∘ wake_writers)
  | Call_claim => with_ring (airplay_stream_bridge_claim_reader b).2 id
  | Call_release => with_ring (airplay_stream_bridge_release_reader b) id
  end.

(** A run; the events that are refused change nothing. *)
Fixpoint ring_run (s : ring_system) (events : list ring_event) : outcome ring_system :=
  match events with
  | [] => Done s
  | e :: events' =>
      match ring_step s e with
      | Done s' => ring_run s' events'
      | Refused => ring_run s events'
      | Stuck => Stuck
      end
  end.

Definition new_system (memory : list Z) (n : nat) : ring_system := mkSystem (new_ring memory) (repeat Outside n) [] [].

(** ** The ring of a stream bridge is a queue of bytes

    What is read is what was written, in order, and no thread sleeps while it could
    go on. *)

Local Open Scope nat_scope.

(** Splits the comparisons of the goal. *)
Ltac goal_cases :=
  repeat match goal with
  | |- context [decide ?P] => lazymatch P with context [decide _] => fail | _ => destruct (decide P) end
  end; try lia; try (exfalso; lia).

Lemma mod_once x c : x < 2 * c -> x `mod` c = if decide (x < c) then x else x - c.
Proof.
  intros H. destruct (decide (x < c)) as [Hlt|Hge]; [by apply Nat.mod_small|].
  rewrite <- (Nat.mod_small (x - c) c) by lia. rewrite <- (Nat.Div0.mod_add (x - c) 1 c). f_equal. lia.
Qed.

Lemma buf_write_lookup off l buf buf' j : buf_write off l buf = Some buf' ->
  buf' !! j = if decide (off <= j < off + length l) then l !! (j - off) else buf !! j.
Proof.
  unfold buf_write. destruct (Nat.leb_spec (off + length l) (length buf)) as [Hle|]; [|done]. intros [= <-].
  assert (Ht : length (take off buf) = off) by (rewrite length_take; lia).
  destruct (decide (off <= j < off + length l)) as [Hin|Hout].
  - rewrite lookup_app_r, Ht by lia. by rewrite lookup_app_l by lia.
  - destruct (decide (j < off)) as [Hlt|Hge]; [rewrite lookup_app_l, lookup_take_lt by lia; done|].
    rewrite lookup_app_r, Ht by lia. rewrite lookup_app_r by lia. rewrite lookup_drop. f_equal. lia.
Qed.

Lemma buf_write_some off l buf : off + length l <= length buf ->
  exists buf', buf_write off l buf = Some buf' /\ length buf' = length buf.
Proof. intros H. destruct (buf_write_spec off l buf H) as (buf' & E & Hl & _). by exists buf'. Qed.

(** ** The bytes in the ring *)

Record ring_ok (b : bridge_ring) : Prop := {
  ok_length : length (ring b) = capacity b;
  ok_read : read_offset b < capacity b;
  ok_buffered : buffered b <= capacity b;
  ok_write : write_offset b = (read_offset b + buffered b) `mod` capacity b
}.

(** The bytes that were written and not yet read. *)
Definition contents (b : bridge_ring) : list Z := take (buffered b) (drop (read_offset b) (ring b ++ ring b)).

Lemma length_contents b : ring_ok b -> length (contents b) = buffered b.
Proof. intros [H1 H2 H3 _]. unfold contents. rewrite length_take, length_drop, length_app. lia. Qed.

Lemma contents_lookup b k : ring_ok b -> k < buffered b -> contents b !! k = ring b !! ((read_offset b + k) `mod` capacity b).
Proof.
  intros [H1 H2 H3 _] Hk. unfold contents. rewrite lookup_take_lt, lookup_drop, mod_once by lia.
  destruct (decide (read_offset b + k < capacity b)); [by rewrite lookup_app_l by lia|].
  rewrite lookup_app_r by lia. f_equal. lia.
Qed.

Lemma contents_eq b l : ring_ok b -> length l = buffered b ->
  (forall k, k < buffered b -> ring b !! ((read_offset b + k) `mod` capacity b) = l !! k) -> contents b = l.
Proof.
  intros Hb Hl H. apply list_eq. intros k. destruct (decide (k < buffered b)) as [Hk|Hk].
  - rewrite contents_lookup by done. by apply H.
  - rewrite !lookup_ge_None_2 by (rewrite ?length_contents by done; lia). done.
Qed.

(** ** Writing *)

Lemma write_spec b input : ring_ok b -> cancelled b = false -> length input <= capacity b - buffered b ->
  exists b', write_locked b input = Done (Wrote (length input), b') /\ ring_ok b' /\ contents b' = contents b ++ input /\
    capacity b' = capacity b /\ buffered b' = buffered b + length input /\ eof b' = eof b /\ cancelled b' = false /\
    bytes_written b' = u64 (bytes_written b + size input) /\ bytes_read b' = bytes_read b.
Proof.
  intros Hb Hc Hn. pose proof Hb as [H1 H2 H3 H4]. rewrite mod_once in H4 by lia. unfold write_locked. rewrite Hc. cbv zeta.
  set (n := length input) in *. set (w := write_offset b).
  assert (Hw' : w = if decide (read_offset b + buffered b < capacity b) then read_offset b + buffered b
                    else read_offset b + buffered b - capacity b) by done.
  assert (Hw : w < capacity b) by (subst w; rewrite H4; destruct (decide _); lia).
  set (first := if n <? capacity b - w then n else capacity b - w).
  assert (Hfirst : first <= n /\ w + first <= capacity b /\ (first = n \/ w + first = capacity b)).
  { subst first. destruct (Nat.ltb_spec n (capacity b - w)); lia. }
  assert (Hl1 : length (take first input) = first) by (rewrite length_take; lia).
  assert (Hl2 : length (drop first input) = n - first) by (rewrite length_drop; done).
  destruct (buf_write_some w (take first input) (ring b)) as (r1 & E1 & L1); [lia|].
  destruct (buf_write_some 0 (drop first input) r1) as (r2 & E2 & L2); [lia|].
  rewrite E1. cbn [checked mbind outcome_bind]. rewrite E2. cbn [checked mbind outcome_bind].
  eexists. split; [done|]. match goal with |- context [ring_ok ?x] => set (b' := x) end.
  assert (Hat : forall j, j < capacity b -> r2 !! j =
    let d := if decide (w <= j) then j - w else j + capacity b - w in if decide (d < n) then input !! d else ring b !! j).
  { intros j Hj. cbv zeta. rewrite (buf_write_lookup _ _ _ _ j E2), (buf_write_lookup _ _ _ _ j E1), Hl1, Hl2.
    destruct (decide (0 <= j < 0 + (n - first))) as [Hd|Hd].
    - rewrite lookup_drop. destruct (decide (w <= j)) as [Hwj|Hwj]; [lia|]. rewrite decide_True by lia. f_equal. lia.
    - destruct (decide (w <= j < w + first)) as [He|He].
      + rewrite lookup_take_lt by lia. rewrite (decide_True _ _ (proj1 He)), decide_True by lia. done.
      + destruct (decide (w <= j)) as [Hwj|Hwj]; rewrite decide_False by lia; done. }
  assert (Hok : ring_ok b').
  { constructor; cbn; [lia|done|fold n; lia|]. fold w n. rewrite !mod_once by lia.
    destruct (decide (read_offset b + buffered b < capacity b)); goal_cases. }
  split; [done|]. split; [|split; [done|split; [done|split; [done|split; [exact Hc|done]]]]].
  apply contents_eq; [done|rewrite length_app, length_contents by done; done|].
  intros k Hk. cbn in Hk |- *. fold n in Hk. rewrite mod_once by lia.
  rewrite Hat by goal_cases. cbv zeta.
  destruct (decide (k < buffered b)) as [Hkb|Hkb].
  - rewrite lookup_app_l by (rewrite length_contents by done; lia). rewrite contents_lookup, mod_once by (done || lia).
    destruct (decide (read_offset b + buffered b < capacity b)); goal_cases; done.
  - rewrite lookup_app_r, length_contents by (rewrite ?length_contents by done; (done || lia)).
    destruct (decide (read_offset b + buffered b < capacity b)); goal_cases; f_equal; lia.
Qed.

(** ** Reading *)

Lemma read_spec b n : ring_ok b -> cancelled b = false -> 0 < n -> 0 < buffered b ->
  exists b', let amount := min n (buffered b) in
    read_locked b n = Done (Z.of_nat amount, take amount (contents b), b') /\ ring_ok b' /\
    contents b' = drop amount (contents b) /\ capacity b' = capacity b /\ buffered b' = buffered b - amount /\
    eof b' = eof b /\ cancelled b' = false /\ bytes_read b' = u64 (bytes_read b + Z.of_nat amount) /\
    bytes_written b' = bytes_written b.
Proof.
  intros Hb Hc Hn Hpos. pose proof Hb as [H1 H2 H3 H4]. unfold read_locked. rewrite Hc.
  rewrite (proj2 (Nat.eqb_neq _ _)) by lia. cbn [andb]. cbv zeta.
  assert (Ha : (if n <? buffered b then n else buffered b) = min n (buffered b)) by (destruct (Nat.ltb_spec n (buffered b)); lia).
  rewrite Ha. set (amount := min n (buffered b)). assert (Ham : 0 < amount <= buffered b) by lia.
  set (first := if amount <? capacity b - read_offset b then amount else capacity b - read_offset b).
  assert (Hfirst : first <= amount /\ read_offset b + first <= capacity b /\ (first = amount \/ read_offset b + first = capacity b)).
  { subst first. destruct (Nat.ltb_spec amount (capacity b - read_offset b)); lia. }
  destruct (buf_read_spec (read_offset b) first (ring b)) as [E1 L1]; [lia|].
  destruct (buf_read_spec 0 (amount - first) (ring b)) as [E2 L2]; [lia|]. rewrite E1. cbn [checked mbind outcome_bind].
  rewrite E2. cbn [checked mbind outcome_bind]. eexists. split; [do 3 f_equal|].
  - apply list_eq. intros k. destruct (decide (k < amount)) as [Hk|Hk].
    + rewrite lookup_take_lt, contents_lookup, mod_once by (done || lia). destruct (decide (k < first)) as [Hkf|Hkf].
      * rewrite lookup_app_l, lookup_take_lt, lookup_drop by lia. by rewrite decide_True by lia.
      * rewrite lookup_app_r, L1, lookup_take_lt, lookup_drop by lia. rewrite decide_False by lia. f_equal. lia.
    + rewrite !lookup_ge_None_2; [done| |].
      * rewrite length_take. lia.
      * rewrite length_app, L1, L2. lia.
  - match goal with |- context [ring_ok ?x] => set (b' := x) end.
    assert (Hok : ring_ok b').
    { constructor; cbn; [done| |lia|].
      - rewrite mod_once by lia. goal_cases.
      - rewrite H4, !(mod_once (read_offset b + _)) by lia. rewrite mod_once by goal_cases.
        goal_cases. }
    split; [done|]. split; [|done]. apply contents_eq; [done|rewrite length_drop, length_contents by done; done|].
    intros k Hk. cbn in Hk |- *. rewrite lookup_drop, contents_lookup by (done || lia). f_equal.
    rewrite !(mod_once (read_offset b + _)) by lia. rewrite mod_once by goal_cases.
    goal_cases.
Qed.

(** ** Threads *)

(** What a thread waits for has not happened. *)
Definition thread_ok (b : bridge_ring) (t : ring_thread) : Prop :=
  match t with
  | Outside => True
  | Writing input => 0 < length input <= capacity b
  | Writer_asleep input => 0 < length input <= capacity b /\ write_waits b input = true
  | Reading n => 0 < n
  | Reader_asleep n => 0 < n /\ read_waits b = true
  end.

Record system_ok (s : ring_system) : Prop := {
  system_ring : ring_ok (the_ring s);
  system_bytes : all_written s = all_read s ++ contents (the_ring s);
  system_written : bytes_written (the_ring s) = u64 (size (all_written s));
  system_read : bytes_read (the_ring s) = u64 (size (all_read s));
  system_threads : Forall (thread_ok (the_ring s)) (threads s)
}.

Lemma thread_ok_wake b b' t : capacity b' = capacity b -> thread_ok b t ->
  thread_ok b' ((wake_readers ∘ wake_writers) t).
Proof. intros Hc. destruct t; cbn; rewrite ?Hc; tauto. Qed.

Lemma thread_ok_mono b b' (f : ring_thread -> ring_thread) :
  capacity b' = capacity b ->
  (forall input, write_waits b input = true -> f (Writer_asleep input) = Writing input \/ (f (Writer_asleep input) = Writer_asleep input /\ write_waits b' input = true)) ->
  (forall n, read_waits b = true -> f (Reader_asleep n) = Reading n \/ (f (Reader_asleep n) = Reader_asleep n /\ read_waits b' = true)) ->
  (forall t, match t with Writer_asleep _ | Reader_asleep _ => True | _ => f t = t end) ->
  forall t, thread_ok b t -> thread_ok b' (f t).
Proof.
  intros Hc Hw Hr Ho t Ht. destruct t as [|input|input|n|n]; cbn in Ht.
  - rewrite (Ho Outside). done.
  - rewrite (Ho (Writing input)). cbn. by rewrite Hc.
  - destruct Ht as [Hl Hs]. destruct (Hw input Hs) as [->|[-> H]]; cbn; rewrite Hc; done.
  - rewrite (Ho (Reading n)). done.
  - destruct Ht as [Hl Hs]. destruct (Hr n Hs) as [->|[-> H]]; done.
Qed.

Lemma threads_insert b (l : list ring_thread) i t : Forall (thread_ok b) l -> thread_ok b t -> Forall (thread_ok b) (<[i := t]> l).
Proof. intros Hl Ht. by apply Forall_insert. Qed.

Lemma try_write_ok s i input : system_ok s -> 0 < length input <= capacity (the_ring s) ->
  exists s', try_write s i input = Done s' /\ system_ok s' /\ capacity (the_ring s') = capacity (the_ring s).
Proof.
  intros [Hr Hb Hw Hrd Ht] Hl. unfold try_write. cbv zeta. destruct (write_waits (the_ring s) input) eqn:Hwait.
  { eexists. split; [done|]. split; [|done]. constructor; cbn; [done..|]. apply threads_insert; [done|]. cbn. done. }
  unfold write_waits in Hwait. destruct (cancelled (the_ring s)) eqn:Hc.
  { unfold write_locked. rewrite Hc. cbn [mbind outcome_bind]. eexists. split; [done|]. split; [|done].
    constructor; cbn; [done..|]. by apply threads_insert. }
  cbn [negb andb] in Hwait. apply Nat.ltb_ge in Hwait.
  destruct (write_spec (the_ring s) input Hr Hc Hwait) as (b' & E & Hok & Hcont & Hcap & Hbuf & Heof & Hcan & Hcount & Hread).
  rewrite E. cbn [mbind outcome_bind]. eexists. split; [done|]. split; [|done]. constructor; cbn; [done| | |by rewrite Hread|].
  - by rewrite Hcont, Hb, app_assoc.
  - rewrite Hcount, Hw, size_app. unfold u64. by rewrite Zplus_mod_idemp_l.
  - apply Forall_fmap. eapply Forall_impl; [by apply (threads_insert (the_ring s) _ i Outside)|]. apply thread_ok_mono; [done| | |].
    + intros l Hls. right. split; [done|]. unfold write_waits in *. rewrite Hcan, Hcap, Hbuf. rewrite Hc in Hls. cbn in *.
      apply Nat.ltb_lt in Hls. apply Nat.ltb_lt. lia.
    + intros n _. by left.
    + by intros [].
Qed.

(** A read that returns 0 is at the end of the stream. *)
Lemma read_end b n : ring_ok b -> read_waits b = false -> 0 < n ->
  exists result output b', read_locked b n = Done (result, output, b') /\ (result = 0%Z -> eof b = true /\ contents b = []).
Proof.
  intros Hr Hwait Hn. unfold read_waits in Hwait. destruct (cancelled b) eqn:Hc.
  { unfold read_locked. rewrite Hc. by eexists _, _, _. }
  destruct (Nat.eqb_spec (buffered b) 0) as [H0|H0].
  - cbn in Hwait. destruct (eof b) eqn:He; [|done]. unfold read_locked. rewrite Hc, He, H0. cbn.
    eexists _, _, _. split; [done|]. intros _. split; [done|]. apply nil_length_inv. by rewrite length_contents.
  - destruct (read_spec b n Hr Hc Hn) as (b' & E & _); [lia|]. cbv zeta in E. rewrite E. eexists _, _, _. split; [done|]. lia.
Qed.

Lemma try_read_ok s i n : system_ok s -> 0 < n ->
  exists s', try_read s i n = Done s' /\ system_ok s' /\ capacity (the_ring s') = capacity (the_ring s).
Proof.
  intros [Hr Hb Hw Hrd Ht] Hn. unfold try_read. cbv zeta. destruct (read_waits (the_ring s)) eqn:Hwait.
  { eexists. split; [done|]. split; [|done]. constructor; cbn; [done..|]. apply threads_insert; [done|]. cbn. done. }
  unfold read_waits in Hwait.
  assert (Hsame : forall result : Z, (result <= 0)%Z -> exists s',
    Done (mkSystem (the_ring s) ((if (0 <? result)%Z then wake_writers else id) <$> <[i := Outside]> (threads s))
      (all_written s) (all_read s ++ [])) = Done s' /\ system_ok s' /\ capacity (the_ring s') = capacity (the_ring s)).
  { intros result Hres. rewrite (proj2 (Z.ltb_ge _ _) Hres), app_nil_r, list_fmap_id. eexists. split; [done|]. split; [|done].
    constructor; cbn; [done..|]. by apply threads_insert. }
  destruct (cancelled (the_ring s)) eqn:Hc.
  { unfold read_locked. rewrite Hc. cbn [mbind outcome_bind]. apply Hsame. lia. }
  destruct (Nat.eqb_spec (buffered (the_ring s)) 0) as [H0|H0].
  { cbn in Hwait. destruct (eof (the_ring s)) eqn:He; [|done]. unfold read_locked. rewrite Hc, He, H0. cbn [Nat.eqb andb mbind outcome_bind].
    apply Hsame. lia. }
  destruct (read_spec (the_ring s) n Hr Hc Hn) as (b' & E & Hok & Hcont & Hcap & Hbuf & Heof & Hcan & Hcount & Hwr); [lia|].
  cbv zeta in *. rewrite E. cbn [mbind outcome_bind]. set (amount := min n (buffered (the_ring s))) in *.
  rewrite (proj2 (Z.ltb_lt _ _)) by lia. eexists. split; [done|]. split; [|done]. constructor; cbn; [done| |by rewrite Hwr| |].
  - by rewrite Hcont, <- app_assoc, take_drop.
  - rewrite Hcount, Hrd, size_app. unfold u64. rewrite Zplus_mod_idemp_l. do 2 f_equal. unfold size. rewrite length_take, length_contents by done.
    f_equal. lia.
  - apply Forall_fmap. eapply Forall_impl; [by apply (threads_insert (the_ring s) _ i Outside)|]. apply thread_ok_mono; [done| | |].
    + intros l _. by left.
    + intros k Hs. exfalso. unfold read_waits in Hs. destruct (Nat.eqb_spec (buffered (the_ring s)) 0); done.
    + by intros [].
Qed.

Lemma system_same_ring s b' f :
  system_ok s -> ring_ok b' -> contents b' = contents (the_ring s) -> bytes_written b' = bytes_written (the_ring s) ->
  bytes_read b' = bytes_read (the_ring s) -> (forall t, thread_ok (the_ring s) t -> thread_ok b' (f t)) ->
  system_ok (mkSystem b' (f <$> threads s) (all_written s) (all_read s)).
Proof.
  intros [Hr Hb Hw Hrd Ht] Hok Hc E1 E2 Hf. constructor; cbn; [done|by rewrite Hc|by rewrite E1|by rewrite E2|].
  apply Forall_fmap. by eapply Forall_impl.
Qed.

Lemma ring_step_ok s e : system_ok s ->
  match ring_step s e with
  | Done s' => system_ok s' /\ capacity (the_ring s') = capacity (the_ring s)
  | Refused => True
  | Stuck => False
  end.
Proof.
  intros Hs. pose proof Hs as [Hr Hb Hw Hrd Ht].
  assert (Hset : forall i t, thread_ok (the_ring s) t ->
    system_ok (mkSystem (the_ring s) (<[i := t]> (threads s)) (all_written s) (all_read s)) /\ capacity (the_ring s) = capacity (the_ring s)).
  { intros i t Hok. split; [|done]. constructor; cbn; [done..|]. by apply threads_insert. }
  assert (Hat : forall i t, threads s !! i = Some t -> thread_ok (the_ring s) t) by (intros i t Hi; by apply (Forall_lookup_1 _ _ _ _ Ht Hi)).
  destruct e as [i input|i n|i|i| | | |]; cbn [ring_step].
  - destruct (threads s !! i) as [[]|] eqn:Hi; try done.
    destruct (Nat.eqb_spec (length input) 0) as [|H0]; [done|]. destruct (Nat.ltb_spec (capacity (the_ring s)) (length input)); [done|].
    apply Hset. cbn. lia.
  - destruct (threads s !! i) as [[]|] eqn:Hi; try done. destruct (Nat.eqb_spec n 0) as [|H0]; [done|]. apply Hset. cbn. lia.
  - destruct (threads s !! i) as [[|input| |n|]|] eqn:Hi; try done; pose proof (Hat i _ Hi) as Hok; cbn in Hok.
    + destruct (try_write_ok s i input Hs Hok) as (s' & -> & H). done.
    + destruct (try_read_ok s i n Hs Hok) as (s' & -> & H). done.
  - destruct (threads s !! i) as [[| |input| |n]|] eqn:Hi; try done; pose proof (Hat i _ Hi) as Hok; cbn in Hok; apply Hset; cbn; tauto.
  - split; [|done]. apply system_same_ring; [done|by destruct Hr; constructor|done|done|done|]. intros t. by apply thread_ok_wake.
  - split; [|done]. apply system_same_ring; [done|by destruct Hr; constructor|done|done|done|]. intros t. by apply thread_ok_wake.
  - unfold airplay_stream_bridge_claim_reader. destruct (negb _ && negb _); (split; [|done]); (apply system_same_ring; [done|by destruct Hr; constructor|done|done|done|by intros []]).
  - split; [|done]. apply system_same_ring; [done|by destruct Hr; constructor|done|done|done|]. by intros [].
Qed.

Lemma ring_run_ok events : forall s, system_ok s ->
  exists s', ring_run s events = Done s' /\ system_ok s' /\ capacity (the_ring s') = capacity (the_ring s).
Proof.
  induction events as [|e events IH]; intros s Hs; [by exists s|]. cbn [ring_run]. pose proof (ring_step_ok s e Hs) as H.
  destruct (ring_step s e) as [s1| |]; [|by apply IH|done]. destruct H as [H1 Hc1]. destruct (IH s1 H1) as (s2 & E & H2 & Hc2).
  exists s2. by rewrite Hc2.
Qed.

Lemma new_system_ok memory n : memory <> [] -> system_ok (new_system memory n).
Proof.
  intros Hm. assert (Hl : 0 < length memory) by (destruct memory; [done|cbn; lia]).
  constructor; cbn; [|done..|].
  - constructor; cbn; [done|done|lia|by rewrite Nat.Div0.mod_0_l].
  - apply Forall_forall. intros t Ht. apply list_elem_of_In, repeat_spec in Ht. by subst t.
Qed.

(** C21: However the muxer, the player and the other threads interleave, no access leaves
    the ring; the bytes that were read, followed by the at most [capacity] bytes in the
    ring, are the bytes that were written, in order; the counters hold both totals
    modulo 2^64; and a read returns 0 only when the writer has finished and every byte
    that was written has been read. *)
Theorem bridge_is_a_byte_queue memory n events :
  memory <> [] ->
  exists s, ring_run (new_system memory n) events = Done s /\
    all_written s = all_read s ++ contents (the_ring s) /\ length (contents (the_ring s)) <= length memory /\
    bytes_written (the_ring s) = u64 (size (all_written s)) /\ bytes_read (the_ring s) = u64 (size (all_read s)) /\
    forall output_size output b', read_waits (the_ring s) = false -> 0 < output_size ->
      read_locked (the_ring s) output_size = Done (0%Z, output, b') -> eof (the_ring s) = true /\ all_read s = all_written s.
Proof.
  intros Hm. destruct (ring_run_ok events _ (new_system_ok memory n Hm)) as (s & E & [Hr Hb Hw Hrd _] & Hc).
  exists s. split; [done|]. split; [done|]. split; [|split; [done|split; [done|]]].
  - rewrite length_contents by done. cbn in Hc. rewrite <- Hc. apply (ok_buffered _ Hr).
  - intros k output b' Hwait Hk Hread. destruct (read_end (the_ring s) k Hr Hwait Hk) as (r & o & b2 & E2 & H).
    rewrite E2 in Hread. injection Hread as -> -> ->. destruct (H eq_refl) as [He Hcont]. by rewrite Hb, Hcont, app_nil_r.
Qed.

(** C22: No wake-up is lost: in every state that is reached, a thread that sleeps waits for
    something that has not happened.  A sleeping writer has not the room it needs and a
    sleeping reader has nothing to read, so that the two never sleep at the same time;
    nobody sleeps once the bridge is cancelled, and no reader sleeps once the writer has
    finished. *)
Theorem no_wakeup_is_lost memory n events s i j :
  memory <> [] -> ring_run (new_system memory n) events = Done s ->
  (forall input, threads s !! i = Some (Writer_asleep input) ->
     cancelled (the_ring s) = false /\ capacity (the_ring s) < buffered (the_ring s) + length input) /\
  (forall k, threads s !! i = Some (Reader_asleep k) ->
     cancelled (the_ring s) = false /\ eof (the_ring s) = false /\ buffered (the_ring s) = 0) /\
  (forall input k, threads s !! i = Some (Writer_asleep input) -> threads s !! j <> Some (Reader_asleep k)).
Proof.
  intros Hm Hrun. destruct (ring_run_ok events _ (new_system_ok memory n Hm)) as (s' & E & [Hr _ _ _ Ht] & _).
  rewrite E in Hrun. injection Hrun as ->. pose proof (ok_buffered _ Hr).
  assert (Hwriter : forall x input, threads s !! x = Some (Writer_asleep input) ->
    cancelled (the_ring s) = false /\ 0 < length input <= capacity (the_ring s) /\ capacity (the_ring s) < buffered (the_ring s) + length input).
  { intros x input Hx. pose proof (Forall_lookup_1 _ _ _ _ Ht Hx) as [Hl Hwait]. apply andb_true_iff in Hwait as [Hc Hf].
    apply negb_true_iff in Hc. apply Nat.ltb_lt in Hf. lia || (split; [done|split; [done|lia]]). }
  assert (Hreader : forall x k, threads s !! x = Some (Reader_asleep k) ->
    cancelled (the_ring s) = false /\ eof (the_ring s) = false /\ buffered (the_ring s) = 0).
  { intros x k Hx. pose proof (Forall_lookup_1 _ _ _ _ Ht Hx) as [_ Hwait]. unfold read_waits in Hwait.
    apply andb_true_iff in Hwait as [Hwait Hc]. apply andb_true_iff in Hwait as [H0 He].
    apply negb_true_iff in Hc, He. by apply Nat.eqb_eq in H0. }
  split; [|split].
  - intros input Hx. by destruct (Hwriter i input Hx) as (? & _ & ?).
  - intros k Hx. by apply (Hreader i k).
  - intros input k Hx Hy. destruct (Hwriter i input Hx) as (_ & Hl & Hf). destruct (Hreader j k Hy) as (_ & _ & H0). lia.
Qed.

(** ** An example: a ring of four bytes, written around its end while a writer waits *)

Definition demo_events : list ring_event :=
  [Call_write 0 [1; 2; 3]%Z; Try 0; Call_write 0 [4; 5]%Z; Try 0; Call_read 1 2; Try 1; Try 0; Call_read 1 9; Try 1;
   Call_read 1 1; Try 1; Call_finish; Try 1].

Lemma bridge_is_a_byte_queue_witness :
  exists s, ring_run (new_system [0; 0; 0; 0]%Z 2) demo_events = Done s /\
    all_written s = all_read s ++ contents (the_ring s) /\ length (contents (the_ring s)) <= 4 /\
    bytes_written (the_ring s) = u64 (size (all_written s)) /\ bytes_read (the_ring s) = u64 (size (all_read s)) /\
    forall output_size output b', read_waits (the_ring s) = false -> 0 < output_size ->
      read_locked (the_ring s) output_size = Done (0%Z, output, b') -> eof (the_ring s) = true /\ all_read s = all_written s.
Proof. by apply (bridge_is_a_byte_queue [0; 0; 0; 0]%Z 2 demo_events). Defined.

Example demo_read : all_read <$> (match ring_run (new_system [0; 0; 0; 0]%Z 2) demo_events with Done s => Some s | _ => None end) = Some [1; 2; 3; 4; 5]%Z.
Proof. vm_compute. reflexivity. Qed.

(** The second writer sleeps: two of four bytes are free for its three. *)
Lemma no_wakeup_is_lost_witness :
  exists s, ring_run (new_system [0; 0; 0; 0]%Z 2) [Call_write 0 [1; 2]%Z; Try 0; Call_write 1 [3; 4; 5]%Z; Try 1] = Done s /\
    threads s !! 1 = Some (Writer_asleep [3; 4; 5]%Z) /\ capacity (the_ring s) < buffered (the_ring s) + 3.
Proof.
  eexists. split; [reflexivity|]. split; [reflexivity|].
  refine (proj2 (proj1 (no_wakeup_is_lost [0; 0; 0; 0]%Z 2 [Call_write 0 [1; 2]%Z; Try 0; Call_write 1 [3; 4; 5]%Z; Try 1] _ 1 1 _ _) [3; 4; 5]%Z _));
    [discriminate|reflexivity|reflexivity].
Defined.
