(* ===== verification/StreamBridge.v ===== *)
(** * Stream bridges (protocol/airplay/media/stream_bridge.c)

    Video units and audio frames are muxed into a Matroska stream.  An operation holds
    [mux_mutex] throughout, and is one function here.  libav is an argument: [libav]
    says how each of its calls ends; what it is asked to write is the log of
    [muxed].  The bytes it produces go through the ring of StreamRing.v. *)

From S2P Require Import Prelude Buffers MirrorAudio MirrorVideo StreamRing MirrorClock.

(* src: source/protocol/airplay/media/stream_bridge.h AIRPLAY_STREAM_BRIDGE_DEFAULT_CAPACITY *)
Definition AIRPLAY_STREAM_BRIDGE_DEFAULT_CAPACITY : Z := 2 * 1024 * 1024.
(* src: source/protocol/airplay/media/stream_bridge.h AIRPLAY_STREAM_BRIDGE_MIN_CAPACITY *)
Definition AIRPLAY_STREAM_BRIDGE_MIN_CAPACITY : Z := 16 * 1024.
Definition AIRPLAY_MIRROR_AUDIO_CODEC_CONFIG_MAX : Z := 36.
Definition INT_MAX : Z := INT32_MAX.

(* src: source/protocol/airplay/media/stream_bridge.h AirPlayStreamBridgeProfile *)
Inductive AirPlayStreamBridgeProfile :=
  | AIRPLAY_STREAM_BRIDGE_PROFILE_AUDIO_ONLY
  | AIRPLAY_STREAM_BRIDGE_PROFILE_VIDEO_AUDIO.
#[export] Instance AirPlayStreamBridgeProfile_eq : EqDecision AirPlayStreamBridgeProfile.
Proof. solve_decision. Defined.

(** ** libav *)

(** How the calls of one operation end: whether memory is there, what the parser finds
    (what it consumes, width and height), whether the header, the packet and the
    trailer are written, the index of a new stream, and the change of time base. *)
Record libav := mkLibav {
  av_input : bool;
  av_parsed : Z * Z * Z;
  av_extradata : bool;
  av_header : bool;
  av_packet : bool;
  av_written : bool;
  av_trailer : bool;
  av_stream : option Z;
  av_rescale : Z -> Z
}.

Record AVPacket := mkPacket {
  packet_stream : Z;
  packet_data : list Z;
  packet_pts : Z;
  packet_duration : Z;
  packet_key : bool;
  packet_generation : Z
}.

(** A call that writes to the container, and whether it succeeds. *)
Inductive muxed :=
  | Muxed_header (ok : bool)
  | Muxed_video (p : AVPacket) (ok : bool)
  | Muxed_audio (p : AVPacket) (ok : bool)
  | Muxed_trailer (ok : bool).

(** ** State *)

(** The part that [mux_mutex] protects, and the ring.  The dimensions are those of the
    codec parameters of the video stream. *)
(* src: source/protocol/airplay/media/stream_bridge.c 36-75 AirPlayStreamBridge *)
Record AirPlayStreamBridge := mkBridge {
  references : Z;
  the_bridge_ring : bridge_ring;
  video_packets : Z;
  video_bytes : Z;
  video_push_failures : Z;
  audio_packets : Z;
  audio_bytes : Z;
  audio_push_failures : Z;
  video_config_generation : Z;
  mux_finished : bool;
  header_written : bool;
  first_video_attempt_observed : bool;
  clock : AirPlayMirrorClock;
  profile : AirPlayStreamBridgeProfile;
  stream_index : Z;
  audio_stream_index : Z;
  audio_frame_duration : Z;
  bridge_last_pts : Z;
  video_width : Z;
  video_height : Z;
  video_extradata : list Z;
  audio_extradata : list Z
}.
#[export] Instance eta_AirPlayStreamBridge : Eta AirPlayStreamBridge := fun b =>
  mkBridge (references b) (the_bridge_ring b) (video_packets b) (video_bytes b) (video_push_failures b) (audio_packets b) (audio_bytes b)
    (audio_push_failures b) (video_config_generation b) (mux_finished b) (header_written b)
    (first_video_attempt_observed b) (clock b) (profile b) (stream_index b) (audio_stream_index b)
    (audio_frame_duration b) (bridge_last_pts b) (video_width b) (video_height b) (video_extradata b) (audio_extradata b).

Definition bridge_cancelled (b : AirPlayStreamBridge) : bool := cancelled (the_bridge_ring b).

(** ** Creation and references *)

(** [memory] is the ring that [malloc] gives for a capacity; the other allocations
    succeed when [allocated] is true. *)
(* src: source/protocol/airplay/media/stream_bridge.c airplay_stream_bridge_create_profile *)
Definition airplay_stream_bridge_create_profile (av : libav) (memory : Z -> option (list Z)) (allocated : bool)
    (capacity : Z) (profile : AirPlayStreamBridgeProfile) : option AirPlayStreamBridge :=
  let capacity := if capacity =? 0 then AIRPLAY_STREAM_BRIDGE_DEFAULT_CAPACITY else capacity in
  if capacity <? AIRPLAY_STREAM_BRIDGE_MIN_CAPACITY then None
  else
    ring ← memory capacity;
    clock ← airplay_mirror_clock_create allocated;
    let audio_only := bool_decide (profile = AIRPLAY_STREAM_BRIDGE_PROFILE_AUDIO_ONLY) in
    let clock := airplay_mirror_clock_set_audio_only audio_only clock in
    let bridge := mkBridge 1 (new_ring ring) 0 0 0 0 0 0 0 false false false clock profile (-1) (-1) 0 (-1) 0 0 [] [] in
    if audio_only then Some bridge
    else index ← av_stream av; Some { bridge with stream_index := index }.

(* src: source/protocol/airplay/media/stream_bridge.c airplay_stream_bridge_create *)
Definition airplay_stream_bridge_create (av : libav) (memory : Z -> option (list Z)) (allocated : bool)
    (capacity : Z) : option AirPlayStreamBridge :=
  airplay_stream_bridge_create_profile av memory allocated capacity AIRPLAY_STREAM_BRIDGE_PROFILE_VIDEO_AUDIO.

(* src: source/protocol/airplay/media/stream_bridge.c airplay_stream_bridge_retain *)
Definition airplay_stream_bridge_retain (b : AirPlayStreamBridge) : AirPlayStreamBridge :=
  { b with references ::= (fun x => u32 (x + 1)) }.

(** [None]: it was the last reference and the bridge is destroyed. *)
(* src: source/protocol/airplay/media/stream_bridge.c airplay_stream_bridge_release *)
Definition airplay_stream_bridge_release (b : AirPlayStreamBridge) : option AirPlayStreamBridge :=
  if references b =? 1 then None else Some { b with references ::= (fun x => u32 (x - 1)) }.

(* src: source/protocol/airplay/media/stream_bridge.c airplay_stream_bridge_cancel *)
Definition airplay_stream_bridge_cancel (b : AirPlayStreamBridge) : AirPlayStreamBridge :=
  { b with the_bridge_ring ::= cancel_ring }.

(** ** Video *)

(* src: source/protocol/airplay/media/stream_bridge.c bridge_ensure_header *)
Definition bridge_ensure_header (av : libav) (b : AirPlayStreamBridge) : bool * AirPlayStreamBridge * list muxed :=
  if header_written b then (true, b, [])
  else if negb (av_header av) then (false, b, [Muxed_header false])
  else (true, { b with header_written := true }, [Muxed_header true]).

(* src: source/protocol/airplay/media/stream_bridge.c bridge_configure_video_stream *)
Definition bridge_configure_video_stream (av : libav) (b : AirPlayStreamBridge) (data : list Z)
    : bool * AirPlayStreamBridge :=
  if stream_index b <? 0 then (false, b)
  else if (0 <? video_width b) && (0 <? video_height b) then (true, b)
  else if negb (av_input av) then (false, b)
  else
    let '(consumed, width, height) := av_parsed av in
    if (consumed <? 0) || (width <=? 0) || (height <=? 0) then (false, b)
    else if negb (av_extradata av) then (false, b)
    else (true, { b with video_extradata := data; video_width := width; video_height := height }).

(** The result of an operation: whether it succeeds, the bridge, the calls that wrote. *)
Definition bridge_result : Type := bool * AirPlayStreamBridge * list muxed.

(** [cleanup] of a video unit that is not pushed. *)
Definition video_failed (b : AirPlayStreamBridge) (log : list muxed) : outcome bridge_result :=
  Done (false, { b with video_push_failures ::= inc }, log).

(** From the allocation of the packet on. *)
(* src: source/protocol/airplay/media/stream_bridge.c 496-550 airplay_stream_bridge_push_video *)
Definition write_video (av : libav) (now : Z) (b : AirPlayStreamBridge) (u : AirPlayMirrorAccessUnit) (log : list muxed)
    : outcome bridge_result :=
  if negb (av_packet av) then video_failed b log
  else
    '(clock_result, mapped, clock') ← checked (airplay_mirror_clock_map_video (unit_timestamp u) now (clock b));
    let b := { b with clock := clock' } in
    match clock_result with
    | AIRPLAY_MIRROR_CLOCK_OUT_OF_RANGE | AIRPLAY_MIRROR_CLOCK_WAITING_FOR_SYNC => video_failed b log
    | _ =>
        if bridge_last_pts b =? INT64_MAX then video_failed b log
        else
          pts ← checked mapped;
          let pts := av_rescale av pts in
          pts ← checked (if pts <=? bridge_last_pts b then chk64 (bridge_last_pts b + 1) else Some pts);
          let p := mkPacket (stream_index b) (unit_data u) pts 0 (unit_keyframe u) (unit_config_generation u) in
          if negb (av_written av) then video_failed b (log ++ [Muxed_video p false])
          else
            Done (true, { b with bridge_last_pts := pts; video_config_generation := unit_config_generation u;
                                 video_packets ::= inc;
                                 video_bytes ::= (fun x => u64 (x + size (unit_data u))) },
                  log ++ [Muxed_video p true])
    end.

(* src: source/protocol/airplay/media/stream_bridge.c airplay_stream_bridge_push_video *)
Definition airplay_stream_bridge_push_video (av : libav) (now : Z) (b : AirPlayStreamBridge) (u : AirPlayMirrorAccessUnit)
    : outcome bridge_result :=
  if negb (bool_decide (profile b = AIRPLAY_STREAM_BRIDGE_PROFILE_VIDEO_AUDIO)) || (size (unit_data u) =? 0) ||
     (INT_MAX <? size (unit_data u))
  then video_failed b []
  else if mux_finished b || bridge_cancelled b then video_failed b []
  else if (unit_config_generation u <? video_config_generation b) ||
          ((video_config_generation b <? unit_config_generation u) && negb (unit_keyframe u))
  then video_failed b []
  else
    let b := { b with first_video_attempt_observed := true } in
    let '(configured, b) := bridge_configure_video_stream av b (unit_data u) in
    if negb configured then video_failed b []
    else
      let '(ready, b, log) := bridge_ensure_header av b in
      if negb ready then video_failed b log else write_video av now b u log.

(** ** Audio *)

(* src: source/protocol/airplay/media/stream_bridge.c bridge_configure_audio_locked *)
Definition bridge_configure_audio_locked (av : libav) (b : AirPlayStreamBridge) (format : AirPlayMirrorAudioFormat)
    : bool * AirPlayStreamBridge :=
  let known := match codec format with AIRPLAY_MIRROR_AUDIO_CODEC_INVALID => false | _ => true end in
  let config_size := size (codec_config format) in
  if negb known || (MirrorAudio.sample_rate format =? 0) || (channels format =? 0) || (config_size =? 0) ||
     (AIRPLAY_MIRROR_AUDIO_CODEC_CONFIG_MAX <? config_size)
  then (false, b)
  else if header_written b || mux_finished b || bridge_cancelled b || (0 <=? audio_stream_index b) then (false, b)
  else
    let '(accepted, clock') := airplay_mirror_clock_set_audio_rate (MirrorAudio.sample_rate format) (clock b) in
    let b := { b with clock := clock' } in
    if negb accepted then (false, b)
    else if negb (av_extradata av) then (false, b)
    else
      match av_stream av with
      | None => (false, b)
      | Some index =>
          (true, { b with audio_extradata := codec_config format; audio_stream_index := index;
                          audio_frame_duration :=
                            Z.quot (samples_per_frame format * AIRPLAY_MIRROR_CLOCK_TIME_BASE) (MirrorAudio.sample_rate format) })
      end.

(* src: source/protocol/airplay/media/stream_bridge.c airplay_stream_bridge_configure_audio *)
Definition airplay_stream_bridge_configure_audio (av : libav) (b : AirPlayStreamBridge) (format : AirPlayMirrorAudioFormat)
    : bool * AirPlayStreamBridge :=
  bridge_configure_audio_locked av b format.

(* src: source/protocol/airplay/media/stream_bridge.c airplay_stream_bridge_has_audio *)
Definition airplay_stream_bridge_has_audio (b : AirPlayStreamBridge) : bool := 0 <=? audio_stream_index b.

(* src: source/protocol/airplay/media/stream_bridge.c airplay_stream_bridge_sync_video_timeline *)
Definition airplay_stream_bridge_sync_video_timeline (audio video : AirPlayStreamBridge) : bool * AirPlayStreamBridge :=
  let timeline := airplay_mirror_clock_get_video_timeline (clock video) in
  let audio := { audio with clock ::= airplay_mirror_clock_set_audio_only false } in
  match timeline with
  | Some timeline => (true, { audio with clock ::= airplay_mirror_clock_set_video_timeline timeline })
  | None => (false, audio)
  end.

Definition audio_failed (b : AirPlayStreamBridge) (log : list muxed) : outcome bridge_result :=
  Done (false, { b with audio_push_failures ::= inc }, log).

(* src: source/protocol/airplay/media/stream_bridge.c airplay_stream_bridge_push_audio *)
Definition airplay_stream_bridge_push_audio (av : libav) (now : Z) (b : AirPlayStreamBridge) (frame : AirPlayMirrorAudioFrame)
    : outcome bridge_result :=
  if (size (frame_data frame) =? 0) || (INT_MAX <? size (frame_data frame)) then audio_failed b []
  else if (audio_stream_index b <? 0) || mux_finished b || bridge_cancelled b then audio_failed b []
  else if negb (header_written b) && (0 <=? stream_index b) && ((video_width b <=? 0) || (video_height b <=? 0))
  then Done (true, b, [])
  else
    let '(ready, b, log) := bridge_ensure_header av b in
    if negb ready then audio_failed b log
    else
      '(clock_result, mapped, clock') ← checked (airplay_mirror_clock_map_audio (rtp_timestamp frame) now (clock b));
      let b := { b with clock := clock' } in
      match clock_result with
      | AIRPLAY_MIRROR_CLOCK_WAITING_FOR_SYNC | AIRPLAY_MIRROR_CLOCK_OUT_OF_RANGE => Done (true, b, log)
      | AIRPLAY_MIRROR_CLOCK_DISCONTINUITY => audio_failed b log
      | AIRPLAY_MIRROR_CLOCK_OK =>
          if negb (av_packet av) then audio_failed b log
          else
            pts ← checked mapped;
            let duration := av_rescale av (audio_frame_duration b) in
            let duration := if duration <? 1 then 1 else duration in
            let p := mkPacket (audio_stream_index b) (frame_data frame) (av_rescale av pts) duration false 0 in
            if negb (av_written av) then audio_failed b (log ++ [Muxed_audio p false])
            else
              Done (true, { b with audio_packets ::= inc; audio_bytes ::= (fun x => u64 (x + size (frame_data frame))) },
                    log ++ [Muxed_audio p true])
      end.

(* src: source/protocol/airplay/media/stream_bridge.c airplay_stream_bridge_update_audio_sync *)
Definition airplay_stream_bridge_update_audio_sync (b : AirPlayStreamBridge) (rtp ntp : Z) : outcome (bool * AirPlayStreamBridge) :=
  if ntp =? 0 then Done (false, b)
  else if mux_finished b || bridge_cancelled b then Done (false, b)
  else
    '(result, clock') ← checked (airplay_mirror_clock_update_audio_sync rtp ntp (clock b));
    Done (match result with AIRPLAY_MIRROR_CLOCK_OK | AIRPLAY_MIRROR_CLOCK_DISCONTINUITY => true | _ => false end,
          { b with clock := clock' }).

(** ** The end *)

(* src: source/protocol/airplay/media/stream_bridge.c airplay_stream_bridge_finish *)
Definition airplay_stream_bridge_finish (av : libav) (b : AirPlayStreamBridge) : bridge_result :=
  let '(ok, b, log) :=
    if negb (mux_finished b) && negb (bridge_cancelled b) then
      if (0 <=? stream_index b) || (0 <=? audio_stream_index b) then
        let '(ready, b, log) := bridge_ensure_header av b in
        if ready then (av_trailer av, { b with mux_finished := true }, log ++ [Muxed_trailer (av_trailer av)])
        else (false, { b with mux_finished := true }, log)
      else (false, { b with mux_finished := true }, [])
    else (negb (bridge_cancelled b), b, []) in
  (ok, { b with the_bridge_ring ::= finish_ring }, log).

(* src: source/protocol/airplay/media/stream_bridge.h AirPlayStreamBridgeStats *)
Record AirPlayStreamBridgeStats := mkBridgeStats {
  stats_capacity : nat;
  stats_buffered : nat;
  stats_bytes_written : Z;
  stats_bytes_read : Z;
  stats_video_packets : Z;
  stats_video_bytes : Z;
  stats_video_push_failures : Z;
  stats_audio_packets : Z;
  stats_audio_bytes : Z;
  stats_audio_push_failures : Z;
  stats_video_config_generation : Z;
  stats_profile : AirPlayStreamBridgeProfile;
  stats_clock : AirPlayMirrorClockStats;
  stats_eof : bool;
  stats_cancelled : bool;
  stats_reader_claimed : bool
}.

(* src: source/protocol/airplay/media/stream_bridge.c airplay_stream_bridge_get_stats *)
Definition airplay_stream_bridge_get_stats (b : AirPlayStreamBridge) : AirPlayStreamBridgeStats :=
  let r := the_bridge_ring b in
  mkBridgeStats (capacity r) (buffered r) (bytes_written r) (bytes_read r) (video_packets b) (video_bytes b)
    (video_push_failures b) (audio_packets b) (audio_bytes b) (audio_push_failures b) (video_config_generation b)
    (profile b) (airplay_mirror_clock_get_stats (clock b)) (eof r) (cancelled r) (reader_claimed r).
