(* ===== verification/StreamBridgeLog.v ===== *)
(** * What a stream bridge writes

    The container is written in order: its header, packets, its trailer; and video
    packets have increasing presentation times. *)

From S2P Require Import Prelude Buffers MirrorAudio MirrorVideo StreamRing MirrorClock MirrorClockSafety StreamBridge.

(** ** The container *)

Inductive phase := Fresh | Open | Closed.

Definition container_step (ph : phase) (m : muxed) : option phase :=
  match ph, m with
  | Fresh, Muxed_header ok => Some (if ok then Open else Fresh)
  | Open, (Muxed_video _ _ | Muxed_audio _ _) => Some Open
  | Open, Muxed_trailer _ => Some Closed
  | _, _ => None
  end.

(** The phase after a log, [None] when it is out of order. *)
Fixpoint container_run (ph : phase) (log : list muxed) : option phase :=
  match log with [] => Some ph | m :: log' => ph' ← container_step ph m; container_run ph' log' end.

Lemma container_app ph log log' :
  container_run ph (log ++ log') = (ph' ← container_run ph log; container_run ph' log').
Proof. revert ph. induction log as [|m log IH]; intros ph; [done|]. cbn. destruct (container_step ph m); [apply IH|done]. Qed.

(** The packets that were written. *)
Definition videos (log : list muxed) : list AVPacket :=
  omap (fun m => match m with Muxed_video p true => Some p | _ => None end) log.
Definition audios (log : list muxed) : list AVPacket :=
  omap (fun m => match m with Muxed_audio p true => Some p | _ => None end) log.

Definition total_bytes (l : list AVPacket) : Z := foldr (fun p n => size (packet_data p) + n) 0 l.

Lemma total_bytes_app l l' : total_bytes (l ++ l') = total_bytes l + total_bytes l'.
Proof. unfold total_bytes. induction l as [|p l IH]; cbn [app foldr]; [done|]. rewrite IH. lia. Qed.

(** Every packet is later than the one before it, and a new configuration generation is
    a higher one that starts with a keyframe. *)
Fixpoint video_chain (pts generation : Z) (l : list AVPacket) : Prop :=
  match l with
  | [] => True
  | p :: l' =>
      pts < packet_pts p /\
      (packet_generation p = generation \/ (generation < packet_generation p /\ packet_key p = true)) /\
      video_chain (packet_pts p) (packet_generation p) l'
  end.

Fixpoint chain_end (pts generation : Z) (l : list AVPacket) : Z * Z :=
  match l with [] => (pts, generation) | p :: l' => chain_end (packet_pts p) (packet_generation p) l' end.

Lemma chain_app pts generation l l' :
  video_chain pts generation (l ++ l') <->
  video_chain pts generation l /\ video_chain (chain_end pts generation l).1 (chain_end pts generation l).2 l'.
Proof. revert pts generation. induction l as [|p l IH]; intros pts generation; cbn; [tauto|]. rewrite IH. tauto. Qed.

Lemma chain_end_app pts generation l l' :
  chain_end pts generation (l ++ l') = chain_end (chain_end pts generation l).1 (chain_end pts generation l).2 l'.
Proof. revert pts generation. induction l as [|p l IH]; intros pts generation; cbn; [by destruct (chain_end _ _ _)|]. apply IH. Qed.

(** ** Runs *)

Inductive bridge_op :=
  | Push_video (av : libav) (now : Z) (u : AirPlayMirrorAccessUnit)
  | Push_audio (av : libav) (now : Z) (frame : AirPlayMirrorAudioFrame)
  | Configure_audio (av : libav) (format : AirPlayMirrorAudioFormat)
  | Update_sync (rtp ntp : Z)
  | Sync_timeline (video : AirPlayStreamBridge)
  | Finish (av : libav)
  | Cancel.

Definition bridge_step (b : AirPlayStreamBridge) (op : bridge_op) : outcome (AirPlayStreamBridge * list muxed) :=
  match op with
  | Push_video av now u => '(_, b, log) ← airplay_stream_bridge_push_video av now b u; Done (b, log)
  | Push_audio av now frame => '(_, b, log) ← airplay_stream_bridge_push_audio av now b frame; Done (b, log)
  | Configure_audio av format => Done ((airplay_stream_bridge_configure_audio av b format).2, [])
  | Update_sync rtp ntp => '(_, b) ← airplay_stream_bridge_update_audio_sync b rtp ntp; Done (b, [])
  | Sync_timeline video => Done ((airplay_stream_bridge_sync_video_timeline b video).2, [])
  | Finish av => let '(_, b, log) := airplay_stream_bridge_finish av b in Done (b, log)
  | Cancel => Done (airplay_stream_bridge_cancel b, [])
  end.

Fixpoint bridge_run (b : AirPlayStreamBridge) (ops : list bridge_op) : outcome (AirPlayStreamBridge * list muxed) :=
  match ops with
  | [] => Done (b, [])
  | op :: ops' =>
      '(b, log) ← bridge_step b op;
      '(b, log') ← bridge_run b ops';
      Done (b, log ++ log')
  end.

(** The time stamps are in one half of their range, local times below 2^62 us, libav gives
    64-bit time stamps, and a bridge whose timeline is taken over has a clock that was
    called at most [m] times. *)
Definition bridge_op_ok (lo m : Z) (op : bridge_op) : Prop :=
  match op with
  | Push_video av now u => in_window lo (unit_timestamp u) /\ time_ok now /\ forall z, is_i64 (av_rescale av z)
  | Push_audio _ now _ => time_ok now
  | Update_sync _ ntp => in_window lo ntp
  | Sync_timeline video => clock_reached lo m (clock video)
  | _ => True
  end.

(** A written video packet holds a unit that was pushed. *)
Definition pushed (ops : list bridge_op) (p : AVPacket) : Prop :=
  exists av now u, Push_video av now u ∈ ops /\ packet_data p = unit_data u /\
    packet_generation p = unit_config_generation u /\ packet_key p = unit_keyframe u.

Definition phase_of (b : AirPlayStreamBridge) (ph : phase) : Prop :=
  match ph with
  | Fresh => header_written b = false
  | Open => header_written b = true
  | Closed => mux_finished b = true
  end.

Record bridge_ok (lo k : Z) (ops : list bridge_op) (b : AirPlayStreamBridge) (log : list muxed) : Prop := {
  bridge_clock : clock_inv lo k (clock b);
  bridge_phase : exists ph, container_run Fresh log = Some ph /\ phase_of b ph;
  bridge_chain : video_chain (-1) 0 (videos log);
  bridge_end : chain_end (-1) 0 (videos log) = (bridge_last_pts b, video_config_generation b);
  bridge_pts : is_i64 (bridge_last_pts b);
  bridge_video_packets : video_packets b = u64 (size (videos log));
  bridge_video_bytes : video_bytes b = u64 (total_bytes (videos log));
  bridge_audio_packets : audio_packets b = u64 (size (audios log));
  bridge_audio_bytes : audio_bytes b = u64 (total_bytes (audios log));
  bridge_pushed : Forall (pushed ops) (videos log)
}.

(** The fields that only a written packet changes. *)
Definition same_media (b b' : AirPlayStreamBridge) : Prop :=
  bridge_last_pts b' = bridge_last_pts b /\ video_config_generation b' = video_config_generation b /\
  video_packets b' = video_packets b /\ video_bytes b' = video_bytes b /\
  audio_packets b' = audio_packets b /\ audio_bytes b' = audio_bytes b.

Lemma videos_app l l' : videos (l ++ l') = videos l ++ videos l'.
Proof. apply omap_app. Qed.
Lemma audios_app l l' : audios (l ++ l') = audios l ++ audios l'.
Proof. apply omap_app. Qed.

(** No packet was written. *)
Lemma ok_quiet lo k k' ops b log b' l :
  bridge_ok lo k ops b log -> clock_inv lo k' (clock b') -> same_media b b' -> videos l = [] -> audios l = [] ->
  (forall ph, phase_of b ph -> exists ph', container_run ph l = Some ph' /\ phase_of b' ph') ->
  bridge_ok lo k' ops b' (log ++ l).
Proof.
  intros [Hc (ph & Hph & Hpo) Hch He Hp V1 V2 A1 A2 Hpu] Hc' (E1 & E2 & E3 & E4 & E5 & E6) Hv Ha Hphase.
  destruct (Hphase ph Hpo) as (ph' & Hr & Hpo').
  constructor; rewrite ?videos_app, ?audios_app, ?Hv, ?Ha, ?app_nil_r, ?E1, ?E2, ?E3, ?E4, ?E5, ?E6; try done.
  exists ph'. split; [|done]. by rewrite container_app, Hph.
Qed.

Lemma ok_same lo k k' ops b log b' :
  bridge_ok lo k ops b log -> k <= k' -> clock b' = clock b -> same_media b b' -> header_written b' = header_written b ->
  mux_finished b' = mux_finished b -> bridge_ok lo k' ops b' log.
Proof.
  intros Hok Hk Hc Hm Hh Hf. rewrite <- (app_nil_r log). apply (ok_quiet lo k k' ops b log b' [] Hok); try done.
  - rewrite Hc. apply (clock_inv_mono lo k); [apply Hok|done].
  - intros ph Hph. exists ph. split; [done|]. unfold phase_of in *. by rewrite Hh, Hf.
Qed.

Lemma ok_clock lo k k' ops b log c :
  bridge_ok lo k ops b log -> clock_inv lo k' c -> bridge_ok lo k' ops { b with clock := c } log.
Proof.
  intros Hok Hc. rewrite <- (app_nil_r log). apply (ok_quiet lo k k' ops b log _ [] Hok); try done.
  intros ph Hph. by exists ph.
Qed.

(** What a step must show of the result of an operation. *)
Definition result_ok (lo k : Z) (ops : list bridge_op) (log : list muxed) (r : outcome bridge_result) : Prop :=
  exists ok b' l, r = Done (ok, b', l) /\ bridge_ok lo k ops b' (log ++ l).

Lemma video_failed_ok lo k ops b log l : bridge_ok lo k ops b (log ++ l) -> result_ok lo k ops log (video_failed b l).
Proof. intros Hok. eexists _, _, _. split; [done|]. by apply (ok_same lo k k ops b). Qed.

Lemma audio_failed_ok lo k ops b log l : bridge_ok lo k ops b (log ++ l) -> result_ok lo k ops log (audio_failed b l).
Proof. intros Hok. eexists _, _, _. split; [done|]. by apply (ok_same lo k k ops b). Qed.

Lemma ensure_header_ok lo k ops av b log :
  bridge_ok lo k ops b log -> mux_finished b = false ->
  exists ready b' l, bridge_ensure_header av b = (ready, b', l) /\ bridge_ok lo k ops b' (log ++ l) /\
    clock b' = clock b /\ mux_finished b' = false /\ (ready = true -> header_written b' = true) /\
    bridge_last_pts b' = bridge_last_pts b /\ video_config_generation b' = video_config_generation b /\
    the_bridge_ring b' = the_bridge_ring b.
Proof.
  intros Hok Hf. unfold bridge_ensure_header. destruct (header_written b) eqn:Hh.
  { eexists _, _, []. rewrite app_nil_r. done. }
  assert (Hphase : forall ph, phase_of b ph -> ph = Fresh).
  { intros [] Hph; [done|cbn in Hph; congruence..]. }
  destruct (av_header av); cbn [negb]; eexists _, _, _; (split; [done|]); (split; [|done]);
    apply (ok_quiet lo k k ops b log _ _ Hok); try done; try apply Hok; intros ph Hph; rewrite (Hphase ph Hph).
  - by exists Open.
  - by exists Fresh.
Qed.

Lemma ok_mono lo k k' ops b log : bridge_ok lo k ops b log -> k <= k' -> bridge_ok lo k' ops b log.
Proof. intros Hok Hk. by apply (ok_same lo k k' ops b log b Hok). Qed.

(** A packet that could not be written. *)
Lemma ok_unwritten lo k ops b log m :
  bridge_ok lo k ops b log -> header_written b = true -> mux_finished b = false ->
  (exists p, m = Muxed_video p false \/ m = Muxed_audio p false) -> bridge_ok lo k ops b (log ++ [m]).
Proof.
  intros Hok Hh Hf (p & Hm).
  assert (Hphase : forall ph, phase_of b ph -> ph = Open).
  { intros [] Hph; [cbn in Hph; congruence|done|cbn in Hph; congruence]. }
  destruct Hm as [-> | ->]; (apply (ok_quiet lo k k ops b log b _ Hok); try done; [apply Hok|]); intros ph Hph; rewrite (Hphase ph Hph); by exists Open.
Qed.

Lemma write_video_ok lo k ops av now b u log l :
  bridge_ok lo k ops b (log ++ l) -> k < max_calls -> header_written b = true -> mux_finished b = false ->
  in_window lo (unit_timestamp u) -> time_ok now -> (forall z, is_i64 (av_rescale av z)) ->
  pushed ops (mkPacket 0 (unit_data u) 0 0 (unit_keyframe u) (unit_config_generation u)) ->
  (unit_config_generation u = video_config_generation b \/
   (video_config_generation b < unit_config_generation u /\ unit_keyframe u = true)) ->
  result_ok lo (k + 1) ops log (write_video av now b u l).
Proof.
  intros Hok Hk Hh Hf Hw Ht Hav Hpu Hgen. unfold write_video.
  destruct (av_packet av); cbn [negb]; [|apply video_failed_ok; apply (ok_mono lo k); [done|lia]].
  destruct (map_video_step lo k (clock b) (unit_timestamp u) now (bridge_clock _ _ _ _ _ Hok) Hk Hw Ht) as (r & out & c' & E & Hc' & Hout).
  rewrite E. cbn [checked mbind outcome_bind]. cbv zeta.
  pose proof (ok_clock lo k (k + 1) ops b (log ++ l) c' Hok Hc') as Hok'.
  assert (Hres : out <> None \/ r = AIRPLAY_MIRROR_CLOCK_OUT_OF_RANGE).
  { clear - E. unfold airplay_mirror_clock_map_video in E. destruct (unit_timestamp u =? 0); [injection E as <- <- <-; by right|].
    destruct (place_video _ _) as [[[r0 p0] c0]|]; [|done]. cbn [mbind option_bind] in E.
    destruct (update_jitter _ _ _) as [a|]; [|done]. cbn [mbind option_bind] in E.
    destruct (update_skew _) as [c1|]; [|done]. injection E as <- <- <-. by left. }
  assert (Hgo : forall pts, out = Some pts -> result_ok lo (k + 1) ops log
    (if bridge_last_pts { b with clock := c' } =? INT64_MAX then video_failed { b with clock := c' } l
     else pts ← checked out;
       pts ← checked (if av_rescale av pts <=? bridge_last_pts { b with clock := c' }
                      then chk64 (bridge_last_pts { b with clock := c' } + 1) else Some (av_rescale av pts));
       let p := mkPacket (stream_index { b with clock := c' }) (unit_data u) pts 0 (unit_keyframe u) (unit_config_generation u) in
       if negb (av_written av) then video_failed { b with clock := c' } (l ++ [Muxed_video p false])
       else Done (true, { { b with clock := c' } with bridge_last_pts := pts; video_config_generation := unit_config_generation u;
                          video_packets ::= inc; video_bytes ::= (fun x => u64 (x + size (unit_data u))) }, l ++ [Muxed_video p true]))).
  { intros pts ->. change (bridge_last_pts { b with clock := c' }) with (bridge_last_pts b).
    pose proof (bridge_pts _ _ _ _ _ Hok) as Hi. destruct (Z.eqb_spec (bridge_last_pts b) INT64_MAX) as [|Hmax]; [by apply video_failed_ok|].
    cbn [checked mbind outcome_bind].
    assert (Hpts : exists pts', (if av_rescale av pts <=? bridge_last_pts b then chk64 (bridge_last_pts b + 1) else Some (av_rescale av pts)) = Some pts' /\
      bridge_last_pts b < pts' /\ is_i64 pts').
    { destruct (Z.leb_spec (av_rescale av pts) (bridge_last_pts b)) as [Hle|Hgt]; [|by exists (av_rescale av pts)].
      unfold is_i64 in *. exists (bridge_last_pts b + 1). rewrite chk64_some by (unfold is_i64; lia). split; [done|lia]. }
    destruct Hpts as (pts' & -> & Hlt & Hi'). cbn [checked mbind outcome_bind]. cbv zeta.
    destruct (av_written av); cbn [negb].
    2: { apply video_failed_ok. rewrite app_assoc. apply ok_unwritten; try done. eexists. by left. }
    eexists _, _, _. split; [done|]. rewrite app_assoc. set (p := mkPacket _ _ pts' _ _ _).
    destruct Hok' as [Hc (ph & Hph & Hpo) Hch He Hp V1 V2 A1 A2 Hpush]. cbn in He, V1, V2, A1, A2, Hpo.
    assert (Hopen : ph = Open). { destruct ph; cbn in Hpo; [congruence|done|congruence]. }
    constructor; rewrite ?(videos_app (log ++ l)), ?(audios_app (log ++ l)); change (videos [Muxed_video p true]) with [p]; change (audios [Muxed_video p true]) with (@nil AVPacket).
    - done.
    - exists Open. split; [by rewrite container_app, Hph, Hopen|]. done.
    - apply chain_app. split; [done|]. rewrite He. cbn. done.
    - rewrite chain_end_app, He. done.
    - done.
    - cbn. rewrite V1, size_app. change (size [p]) with 1. unfold inc, u64. by rewrite Zplus_mod_idemp_l.
    - cbn. rewrite V2, total_bytes_app. cbn. rewrite Z.add_0_r. unfold u64. by rewrite Zplus_mod_idemp_l.
    - by rewrite app_nil_r.
    - by rewrite app_nil_r.
    - apply Forall_app. split; [done|]. constructor; [|done]. exact Hpu. }
  destruct r; [..|by apply video_failed_ok]; [|by apply video_failed_ok|]; (destruct out as [pts|]; [by apply (Hgo pts)|by destruct Hres]).
Qed.

Lemma push_video_ok lo k ops av now b u log :
  bridge_ok lo k ops b log -> k < max_calls -> in_window lo (unit_timestamp u) /\ time_ok now /\ (forall z, is_i64 (av_rescale av z)) -> Push_video av now u ∈ ops ->
  result_ok lo (k + 1) ops log (airplay_stream_bridge_push_video av now b u).
Proof.
  intros Hok Hk (Hw & Ht & Hav) Hin. unfold airplay_stream_bridge_push_video.
  assert (Hok0 : bridge_ok lo (k + 1) ops b (log ++ [])) by (rewrite app_nil_r; apply (ok_mono lo k); [done|lia]).
  destruct (_ || _); [by apply video_failed_ok|].
  destruct (mux_finished b || bridge_cancelled b) eqn:Hfc; [by apply video_failed_ok|]. apply orb_false_iff in Hfc as [Hf _].
  destruct ((unit_config_generation u <? video_config_generation b) || _) eqn:Hg; [by apply video_failed_ok|].
  apply orb_false_iff in Hg as [Hg1 Hg2]. apply Z.ltb_ge in Hg1. cbv zeta.
  set (b0 := { b with first_video_attempt_observed := true }).
  assert (Hconf : exists r b1, bridge_configure_video_stream av b0 (unit_data u) = (r, b1) /\
    (forall k', k <= k' -> bridge_ok lo k' ops b1 log) /\ mux_finished b1 = false /\ video_config_generation b1 = video_config_generation b).
  { unfold bridge_configure_video_stream.
    assert (Hb0 : forall k', k <= k' -> bridge_ok lo k' ops b0 log) by (intros k' Hk'; by apply (ok_same lo k k' ops b)).
    assert (Hkeep : forall r0 : bool, exists r b1, (r0, b0) = (r, b1) /\ (forall k', k <= k' -> bridge_ok lo k' ops b1 log) /\
      mux_finished b1 = false /\ video_config_generation b1 = video_config_generation b).
    { intros r0. exists r0, b0. split; [done|]. split; [exact Hb0|]. split; [exact Hf|done]. }
    destruct (stream_index b0 <? 0); [apply Hkeep|]. destruct ((0 <? video_width b0) && (0 <? video_height b0)); [apply Hkeep|]. destruct (negb (av_input av)); [apply Hkeep|].
    destruct (av_parsed av) as [[consumed width] height].
    destruct ((consumed <? 0) || (width <=? 0) || (height <=? 0)); [apply Hkeep|].
    destruct (negb (av_extradata av)); [apply Hkeep|]. eexists true, _. split; [done|]. split; [|split; [exact Hf|done]].
    intros k' Hk'. by apply (ok_same lo k k' ops b). }
  destruct Hconf as (r & b1 & -> & Hok1 & Hf1 & Hg1'). destruct r; cbn [negb].
  2: { apply video_failed_ok. rewrite app_nil_r. apply Hok1. lia. }
  destruct (ensure_header_ok lo k ops av b1 log (Hok1 k ltac:(lia)) Hf1) as (ready & b2 & l & -> & Hok2 & Hc2 & Hf2 & Hh2 & _ & Hg2' & _).
  destruct ready; cbn [negb]; [|apply video_failed_ok; apply (ok_mono lo k); [done|lia]].
  apply (write_video_ok lo k ops av now b2 u log l Hok2 Hk (Hh2 eq_refl) Hf2 Hw Ht Hav); [by exists av, now, u|].
  rewrite Hg2', Hg1'. destruct (Z.ltb_spec (video_config_generation b) (unit_config_generation u)) as [Hlt|Hge]; [right|left; lia].
  cbn in Hg2. split; [done|]. by destruct (unit_keyframe u).
Qed.

Lemma map_audio_some rtp now c r out c' :
  airplay_mirror_clock_map_audio rtp now c = Some (r, out, c') -> r = AIRPLAY_MIRROR_CLOCK_OK -> exists pts, out = Some pts.
Proof.
  unfold airplay_mirror_clock_map_audio. intros H ->. destruct (_ =? 0); [done|]. destruct (_ || _); [done|].
  destruct (predict_audio _ _) as [pts|]; [|done]. cbn [mbind option_bind] in H.
  destruct (if pts <? 0 then Some true else _) as [[]|]; [done| |done]. cbn [mbind option_bind] in H.
  destruct (chk64 _) as [next|]; [|done]. cbn [mbind option_bind] in H. destruct (update_jitter _ _ _) as [a|]; [|done].
  cbn [mbind option_bind] in H. destruct (update_skew _) as [c1|]; [|done]. injection H as <- <-. by eexists.
Qed.

Lemma push_audio_ok lo k ops av now b frame log :
  bridge_ok lo k ops b log -> k < max_calls -> time_ok now ->
  result_ok lo (k + 1) ops log (airplay_stream_bridge_push_audio av now b frame).
Proof.
  intros Hok Hk Ht. unfold airplay_stream_bridge_push_audio.
  assert (Hok0 : bridge_ok lo (k + 1) ops b (log ++ [])) by (rewrite app_nil_r; apply (ok_mono lo k); [done|lia]).
  destruct (_ || _); [by apply audio_failed_ok|].
  destruct (_ || mux_finished b || bridge_cancelled b) eqn:Hfc; [by apply audio_failed_ok|].
  apply orb_false_iff in Hfc as [Hfc _]. apply orb_false_iff in Hfc as [_ Hf].
  destruct (_ && _); [by eexists _, _, _|].
  destruct (ensure_header_ok lo k ops av b log Hok Hf) as (ready & b2 & l & -> & Hok2 & Hc2 & Hf2 & Hh2 & _).
  destruct ready; cbn [negb]; [|apply audio_failed_ok; apply (ok_mono lo k); [done|lia]].
  destruct (map_audio_step lo k (clock b2) (rtp_timestamp frame) now (bridge_clock _ _ _ _ _ Hok2) Hk Ht) as (r & out & c' & E & Hc' & _).
  rewrite E. cbn [checked mbind outcome_bind]. cbv zeta.
  pose proof (ok_clock lo k (k + 1) ops b2 (log ++ l) c' Hok2 Hc') as Hok3.
  destruct r; [|by eexists _, _, _|by apply audio_failed_ok|by eexists _, _, _].
  destruct (av_packet av); cbn [negb]; [|by apply audio_failed_ok].
  destruct (map_audio_some _ _ _ _ _ _ E eq_refl) as [pts ->]. cbn [checked mbind outcome_bind].
  set (p := mkPacket _ _ _ _ _ _). specialize (Hh2 eq_refl).
  destruct (av_written av); cbn [negb].
  2: { apply audio_failed_ok. rewrite app_assoc. apply ok_unwritten; try done. eexists. by right. }
  eexists _, _, _. split; [done|]. rewrite app_assoc.
  destruct Hok3 as [Hc (ph & Hph & Hpo) Hch He Hp V1 V2 A1 A2 Hpush]. cbn in He, V1, V2, A1, A2, Hpo.
  assert (Hopen : ph = Open). { destruct ph; cbn in Hpo; [congruence|done|congruence]. }
  constructor; rewrite ?(videos_app (log ++ l)), ?(audios_app (log ++ l)); change (audios [Muxed_audio p true]) with [p];
    change (videos [Muxed_audio p true]) with (@nil AVPacket); rewrite ?app_nil_r; try done.
  - exists Open. split; [by rewrite container_app, Hph, Hopen|]. done.
  - cbn. rewrite A1, size_app. change (size [p]) with 1. unfold inc, u64. by rewrite Zplus_mod_idemp_l.
  - cbn. rewrite A2, total_bytes_app. cbn. rewrite Z.add_0_r. unfold u64. by rewrite Zplus_mod_idemp_l.
Qed.

Lemma configure_audio_ok lo k ops av b format log :
  bridge_ok lo k ops b log -> k < max_calls ->
  bridge_ok lo (k + 1) ops (airplay_stream_bridge_configure_audio av b format).2 log.
Proof.
  intros Hok Hk. assert (Hsame : bridge_ok lo (k + 1) ops b log) by (apply (ok_mono lo k); [done|lia]).
  unfold airplay_stream_bridge_configure_audio, bridge_configure_audio_locked. destruct (_ || _); [done|]. destruct (_ || _); [done|].
  pose proof (clock_op_step lo k (clock b) (OpRate (MirrorAudio.sample_rate format)) (bridge_clock _ _ _ _ _ Hok) Hk I) as (outs & c' & E & Hc' & _).
  cbn in E. destruct (airplay_mirror_clock_set_audio_rate _ _) as [accepted c1]. injection E as _ ->. cbn [snd].
  pose proof (ok_clock lo k (k + 1) ops b log c' Hok Hc') as Hok1. cbv zeta. destruct (negb accepted); [done|].
  destruct (negb (av_extradata av)); [done|]. destruct (av_stream av); [|done]. by apply (ok_same lo (k + 1) (k + 1) ops { b with clock := c' }).
Qed.

Lemma finish_ok lo k ops av b log :
  bridge_ok lo k ops b log -> let '(_, b', l) := airplay_stream_bridge_finish av b in bridge_ok lo k ops b' (log ++ l).
Proof.
  intros Hok. unfold airplay_stream_bridge_finish.
  assert (Hring : forall b1 l, bridge_ok lo k ops b1 l -> bridge_ok lo k ops { b1 with the_bridge_ring ::= finish_ring } l).
  { intros b1 l H1. by apply (ok_same lo k k ops b1). }
  destruct (negb (mux_finished b) && negb (bridge_cancelled b)) eqn:Hfc; [|rewrite app_nil_r; by apply Hring].
  apply andb_true_iff in Hfc as [Hf%negb_true_iff _].
  assert (Hfin : forall b1 l m, bridge_ok lo k ops b1 (log ++ l) -> mux_finished b1 = false ->
    (m = [] \/ exists ok, m = [Muxed_trailer ok] /\ header_written b1 = true) ->
    bridge_ok lo k ops { b1 with mux_finished := true } (log ++ l ++ m)).
  { intros b1 l m H1 Hf1 Hm. rewrite app_assoc.
    apply (ok_quiet lo k k ops b1 (log ++ l) _ m H1); [apply H1|done|by destruct Hm as [->|(? & -> & _)]|by destruct Hm as [->|(? & -> & _)]|].
    intros ph Hph. destruct Hm as [->|(ok & -> & Hh)].
    - exists ph. split; [done|]. by destruct ph.
    - destruct ph; cbn in Hph; [congruence| |congruence]. by exists Closed. }
  destruct (_ || _).
  - destruct (ensure_header_ok lo k ops av b log Hok Hf) as (ready & b2 & l & E & Hok2 & Hc2 & Hf2 & Hh2 & _). rewrite E. destruct ready.
    + apply Hring. apply Hfin; [done|done|]. right. eexists. split; [done|]. by apply Hh2.
    + apply Hring. rewrite <- (app_nil_r l). apply Hfin; [done|done|]. by left.
  - apply Hring. rewrite <- (app_nil_r log) in Hok. apply (Hfin b [] [] Hok Hf). by left.
Qed.

Lemma update_sync_ok lo k ops b rtp ntp log :
  bridge_ok lo k ops b log -> k < max_calls -> in_window lo ntp ->
  exists r b', airplay_stream_bridge_update_audio_sync b rtp ntp = Done (r, b') /\ bridge_ok lo (k + 1) ops b' log.
Proof.
  intros Hok Hk Hw. assert (Hsame : bridge_ok lo (k + 1) ops b log) by (apply (ok_mono lo k); [done|lia]).
  unfold airplay_stream_bridge_update_audio_sync. destruct (ntp =? 0); [by eexists _, _|]. destruct (_ || _); [by eexists _, _|].
  destruct (sync_ok lo k (clock b) rtp ntp (bridge_clock _ _ _ _ _ Hok) ltac:(lia) Hw) as (r & c' & E & Hc' & _). rewrite E.
  cbn [checked mbind outcome_bind]. eexists _, _. split; [done|]. apply (ok_clock lo k); [done|]. apply (clock_inv_mono lo k); [done|lia].
Qed.

Lemma sync_timeline_ok lo m k ops b video log :
  bridge_ok lo k ops b log -> m <= k -> k < max_calls -> clock_reached lo m (clock video) ->
  bridge_ok lo (k + 1) ops (airplay_stream_bridge_sync_video_timeline b video).2 log.
Proof.
  intros Hok Hm Hk Hv. unfold airplay_stream_bridge_sync_video_timeline. cbv zeta.
  destruct (clock_op_step lo k (clock b) (OpAudioOnly false) (bridge_clock _ _ _ _ _ Hok) Hk I) as (outs & c1 & E & Hc1 & _). injection E as _ <-.
  apply clock_reached_inv in Hv; [|lia]. pose proof (clock_inv_mono lo m k _ Hv Hm) as Hvk.
  destruct (airplay_mirror_clock_get_video_timeline (clock video)) as [t|] eqn:Et; cbn [snd]; [|by apply (ok_clock lo k)].
  apply (get_timeline_ok lo k) in Et; [|done].
  apply (ok_clock lo k (k + 1) ops b log (airplay_mirror_clock_set_video_timeline t (airplay_mirror_clock_set_audio_only false (clock b))) Hok).
  apply set_timeline_inv; [|done]. destruct (bridge_clock _ _ _ _ _ Hok). by split.
Qed.

Lemma bridge_step_ok lo m k ops b op log :
  bridge_ok lo k ops b log -> m <= k -> k < max_calls -> bridge_op_ok lo m op -> op ∈ ops ->
  exists b' l, bridge_step b op = Done (b', l) /\ bridge_ok lo (k + 1) ops b' (log ++ l).
Proof.
  intros Hok Hm Hk Ho Hin. destruct op as [av now u|av now frame|av format|rtp ntp|video|av|]; cbn [bridge_step].
  - destruct (push_video_ok lo k ops av now b u log Hok Hk Ho Hin) as (r & b' & l & -> & H). by exists b', l.
  - destruct (push_audio_ok lo k ops av now b frame log Hok Hk Ho) as (r & b' & l & -> & H). by exists b', l.
  - eexists _, []. split; [done|]. rewrite app_nil_r. by apply configure_audio_ok.
  - destruct (update_sync_ok lo k ops b rtp ntp log Hok Hk Ho) as (r & b' & -> & H). exists b', []. by rewrite app_nil_r.
  - eexists _, []. split; [done|]. rewrite app_nil_r. by apply (sync_timeline_ok lo m).
  - pose proof (finish_ok lo k ops av b log Hok) as H. destruct (airplay_stream_bridge_finish av b) as [[r b'] l].
    exists b', l. split; [done|]. apply (ok_mono lo k); [done|lia].
  - eexists _, []. split; [done|]. rewrite app_nil_r. apply (ok_same lo k (k + 1) ops b); try done. lia.
Qed.

Lemma bridge_run_ok lo m ops rest : forall k b log,
  bridge_ok lo k ops b log -> m <= k -> k + size rest <= max_calls -> Forall (bridge_op_ok lo m) rest -> rest ⊆ ops ->
  exists b' l, bridge_run b rest = Done (b', l) /\ bridge_ok lo (k + size rest) ops b' (log ++ l).
Proof.
  induction rest as [|op rest IH]; intros k b log Hok Hm Hk Ho Hsub.
  { exists b, []. split; [done|]. rewrite app_nil_r. change (size []) with 0. by rewrite Z.add_0_r. }
  apply Forall_cons in Ho as [Hop Ho]. rewrite size_cons in *. pose proof (size_nonneg rest).
  destruct (bridge_step_ok lo m k ops b op log Hok Hm ltac:(lia) Hop) as (b1 & l1 & E1 & Hok1); [by apply Hsub; left|].
  destruct (IH (k + 1) b1 (log ++ l1) Hok1 ltac:(lia) ltac:(lia) Ho) as (b2 & l2 & E2 & Hok2); [intros x Hx; by apply Hsub; right|].
  exists b2, (l1 ++ l2). cbn [bridge_run]. rewrite E1. cbn [mbind outcome_bind]. rewrite E2. split; [done|].
  rewrite app_assoc. by replace (k + (1 + size rest)) with (k + 1 + size rest) by lia.
Qed.

(** ** Cancellation *)

Lemma cancelled_step b op b' l : bridge_cancelled b = true -> bridge_step b op = Done (b', l) -> l = [] /\ bridge_cancelled b' = true.
Proof.
  intros Hc. destruct op as [av now u|av now frame|av format|rtp ntp|video|av|]; cbn [bridge_step].
  - unfold airplay_stream_bridge_push_video. rewrite Hc, orb_true_r. destruct (_ || _ || _); unfold video_failed; cbn; by intros [= <- <-].
  - unfold airplay_stream_bridge_push_audio. rewrite Hc, orb_true_r. destruct (_ || _); unfold audio_failed; cbn; by intros [= <- <-].
  - unfold airplay_stream_bridge_configure_audio, bridge_configure_audio_locked. rewrite Hc, orb_true_r. cbn [orb].
    destruct (_ || _); by intros [= <- <-].
  - unfold airplay_stream_bridge_update_audio_sync. rewrite Hc, orb_true_r. destruct (ntp =? 0); by intros [= <- <-].
  - unfold airplay_stream_bridge_sync_video_timeline. cbv zeta. destruct (airplay_mirror_clock_get_video_timeline _); by intros [= <- <-].
  - unfold airplay_stream_bridge_finish. rewrite Hc, andb_false_r. by intros [= <- <-].
  - by intros [= <- <-].
Qed.

Lemma cancelled_run ops : forall b b' l, bridge_cancelled b = true -> bridge_run b ops = Done (b', l) -> l = [].
Proof.
  induction ops as [|op ops IH]; intros b b' l Hc H; cbn [bridge_run] in H; [by injection H as _ <-|].
  apply bind_done in H as ([b1 l1] & E1 & H). apply bind_done in H as ([b2 l2] & E2 & H). injection H as _ <-.
  destruct (cancelled_step b op b1 l1 Hc E1) as [-> Hc1]. by apply (IH b1 b2 l2).
Qed.

(** A bridge as [airplay_stream_bridge_create_profile] makes it. *)
Definition created (b : AirPlayStreamBridge) : Prop :=
  exists av memory allocated capacity profile,
    airplay_stream_bridge_create_profile av memory allocated capacity profile = Some b.

Lemma created_bridge_ok lo m ops b : 0 <= m -> created b -> bridge_ok lo m ops b [].
Proof.
  intros Hm (av & memory & allocated & cap & prof & H). unfold airplay_stream_bridge_create_profile in H. cbv zeta in H.
  destruct (_ <? _); [done|]. destruct (memory _) as [r|]; [|done]. cbn [mbind option_bind] in H.
  destruct allocated; [|done]. cbn [airplay_mirror_clock_create mbind option_bind] in H.
  assert (Hb : exists index c, b = mkBridge 1 (new_ring r) 0 0 0 0 0 0 0 false false false c prof index (-1) 0 (-1) 0 0 [] [] /\ clock_inv lo m c).
  { set (c := airplay_mirror_clock_set_audio_only _ _) in H. assert (Hc : clock_inv lo m c) by (split; cbn; (done || lia)).
    destruct (bool_decide _); [injection H as <-; by exists (-1), c|]. destruct (av_stream av) as [index|]; [|done].
    injection H as <-. by exists index, c. }
  destruct Hb as (index & c & -> & Hc). constructor; try done. by exists Fresh.
Qed.

(** C23: Whatever libav's calls give and whatever is pushed, for up to ten million
    operations (less the [m] calls behind the timelines of other bridges that are taken
    over) with time stamps in one half of their range and local times below 2^62
    microseconds: nothing overflows and
    nothing unset is read; the header is written before any packet and once, and
    nothing follows the trailer; the video packets that are written have strictly
    increasing presentation times, a new configuration generation is a higher one and
    starts with a keyframe, and each packet holds a unit that was pushed; and the
    statistics count exactly the packets and bytes that were written. *)
Theorem bridge_writes_a_valid_stream lo m b ops :
  created b -> Forall (bridge_op_ok lo m) ops -> 0 <= m -> m + size ops <= max_calls ->
  exists b' log, bridge_run b ops = Done (b', log) /\
    is_Some (container_run Fresh log) /\ video_chain (-1) 0 (videos log) /\ Forall (pushed ops) (videos log) /\
    let s := airplay_stream_bridge_get_stats b' in
    stats_video_packets s = u64 (size (videos log)) /\ stats_video_bytes s = u64 (total_bytes (videos log)) /\
    stats_audio_packets s = u64 (size (audios log)) /\ stats_audio_bytes s = u64 (total_bytes (audios log)).
Proof.
  intros Hc Ho Hm Hn. destruct (bridge_run_ok lo m ops ops m b [] (created_bridge_ok lo m ops b Hm Hc)) as (b' & log & E & Hok); [done|done|done|done|].
  cbn [app] in Hok. exists b', log. split; [done|]. destruct (bridge_phase _ _ _ _ _ Hok) as (ph & Hph & _).
  split; [by exists ph|]. split; [apply Hok|]. split; [apply Hok|]. split; [apply Hok|]. split; [apply Hok|]. split; apply Hok.
Qed.

(** A bridge that was cancelled writes nothing more. *)
Theorem cancelled_bridge_is_silent b ops ops' b' log :
  bridge_run b (ops ++ Cancel :: ops') = Done (b', log) ->
  exists b1, bridge_run b ops = Done (b1, log).
Proof.
  revert b log. induction ops as [|op ops IH]; intros b log H; cbn [app bridge_run] in *.
  - cbn [bridge_step mbind outcome_bind] in H. apply bind_done in H as ([b2 l2] & E & H). injection H as _ <-.
    apply cancelled_run in E; [|done]. subst l2. by exists b.
  - apply bind_done in H as ([b1 l1] & E1 & H). apply bind_done in H as ([b2 l2] & E2 & H). injection H as <- <-.
    destruct (IH b1 l2 E2) as (b3 & E3). exists b3. rewrite E1. cbn [mbind outcome_bind]. by rewrite E3.
Qed.

(** ** An example *)

Definition demo_av : libav := mkLibav true (10, 1280, 720) true true true true true (Some 0) (fun z => z `mod` 1000000).
Definition demo_bridge : AirPlayStreamBridge :=
  mkBridge 1 (new_ring (repeat 0 (Z.to_nat 16384))) 0 0 0 0 0 0 0 false false false
    { clock_zero with stats -> st_generation := 1 } AIRPLAY_STREAM_BRIDGE_PROFILE_VIDEO_AUDIO 0 (-1) 0 (-1) 0 0 [] [].
Definition demo_unit (ntp generation : Z) (key : bool) : AirPlayMirrorAccessUnit := mkUnit [0; 0; 0; 1; 0x65] ntp generation key.

(** A keyframe, a late unit, a unit of a new generation without a keyframe, the end, and
    a unit after it. *)
Definition demo_ops : list bridge_op :=
  [Push_video demo_av 1000 (demo_unit 4294967296 1 true); Push_video demo_av 2000 (demo_unit 4294967200 1 false);
   Push_video demo_av 3000 (demo_unit 8589934592 2 false); Finish demo_av; Push_video demo_av 4000 (demo_unit 8589934592 2 true)].

Lemma demo_created : created demo_bridge.
Proof.
  exists demo_av, (fun n => Some (repeat 0 (Z.to_nat n))), true, 16384, AIRPLAY_STREAM_BRIDGE_PROFILE_VIDEO_AUDIO.
  unfold airplay_stream_bridge_create_profile. cbv zeta. cbn [Z.eqb]. unfold AIRPLAY_STREAM_BRIDGE_MIN_CAPACITY.
  rewrite bool_decide_eq_false_2 by done. reflexivity.
Qed.

Lemma demo_ops_ok : Forall (bridge_op_ok 0 0) demo_ops.
Proof.
  repeat constructor; unfold in_window, time_ok; cbn; try lia; unfold is_i64, INT64_MAX; cbn; lia.
Qed.

Lemma bridge_writes_a_valid_stream_witness :
  exists b' log, bridge_run demo_bridge demo_ops = Done (b', log) /\
    is_Some (container_run Fresh log) /\ video_chain (-1) 0 (videos log) /\ Forall (pushed demo_ops) (videos log) /\
    let s := airplay_stream_bridge_get_stats b' in
    stats_video_packets s = u64 (size (videos log)) /\ stats_video_bytes s = u64 (total_bytes (videos log)) /\
    stats_audio_packets s = u64 (size (audios log)) /\ stats_audio_bytes s = u64 (total_bytes (audios log)).
Proof. apply (bridge_writes_a_valid_stream 0 0); [apply demo_created|apply demo_ops_ok|done|by vm_compute]. Defined.

Example demo_log : snd <$> (match bridge_run demo_bridge demo_ops with Done r => Some r | _ => None end) =
  let packet pts key := mkPacket 0 [0; 0; 0; 1; 0x65] pts 0 key 1 in
  Some [Muxed_header true; Muxed_video (packet 0 true) true; Muxed_video (packet 1 false) true; Muxed_trailer true].
Proof. vm_compute. reflexivity. Qed.

Lemma cancelled_bridge_is_silent_witness :
  exists b1, bridge_run demo_bridge (take 1 demo_ops) =
    Done (b1, [Muxed_header true; Muxed_video (mkPacket 0 [0; 0; 0; 1; 0x65] 0 0 true 1) true]).
Proof.
  destruct (bridge_run demo_bridge (take 1 demo_ops ++ Cancel :: drop 1 demo_ops)) as [[b' log]| |] eqn:E; [|vm_compute in E; discriminate..].
  assert (El : log = [Muxed_header true; Muxed_video (mkPacket 0 [0; 0; 0; 1; 0x65] 0 0 true 1) true]).
  { enough (H : match bridge_run demo_bridge (take 1 demo_ops ++ Cancel :: drop 1 demo_ops) with Done (_, l) => l | _ => [] end =
      [Muxed_header true; Muxed_video (mkPacket 0 [0; 0; 0; 1; 0x65] 0 0 true 1) true]) by by rewrite E in H. vm_compute. reflexivity. }
  subst log. apply (cancelled_bridge_is_silent demo_bridge (take 1 demo_ops) (drop 1 demo_ops) b' _ E).
Defined.
