(* ===== verification/SoapWriter.v ===== *)
(** * Writing SOAP responses (protocol/dlna/control/soap_writer.c, util/size.h)

    A growing buffer of at most 96 KiB.  [output_text] are the characters that were
    written; the buffer holds them with a terminating NUL.  [alloc] tells whether
    [realloc] gives a size. *)

From S2P Require Import Prelude Buffers CText.

Definition SIZE_MAX : Z := UINT64_MAX.

(** ** Sizes *)

(* src: source/util/size.h nxcast_size_add *)
Definition nxcast_size_add (left right : Z) : option Z :=
  if SIZE_MAX - left <? right then None else Some (left + right).

(* src: source/util/size.h nxcast_size_multiply *)
Definition nxcast_size_multiply (left right : Z) : option Z :=
  if negb (left =? 0) && (SIZE_MAX / left <? right) then None else Some (left * right).

(** The loop that doubles; 64 rounds double from 1 past every [size_t]. *)
(* src: source/util/size.h 42-50 nxcast_size_grow *)
Fixpoint grow_loop (fuel : nat) (capacity required limit : Z) : option (option Z) :=
  match fuel with
  | O => None
  | S fuel' =>
      if capacity <? required then
        let capacity := if limit / 2 <? capacity then limit else capacity * 2 in
        if (capacity <? required) && (capacity =? limit) then Some None else grow_loop fuel' capacity required limit
      else Some (Some capacity)
  end.

Definition GROW_FUEL : nat := 66.

(** [None] would be a loop that does not end. *)
(* src: source/util/size.h nxcast_size_grow *)
Definition nxcast_size_grow (current required initial limit : Z) : option (option Z) :=
  if (initial =? 0) || (limit <? current) || (limit <? required) then Some None
  else if required <=? current then Some (Some current)
  else
    let capacity := if 0 <? current then current else initial in
    if limit <? capacity then Some None else grow_loop GROW_FUEL capacity required limit.

(** ** The output of an action *)

(* src: source/protocol/dlna/control/handler.h SOAP_HANDLER_OUTPUT_MAX *)
Definition SOAP_HANDLER_OUTPUT_MAX : Z := 98304.
(* src: source/protocol/dlna/control/soap_writer.c SOAP_WRITER_INITIAL_CAP *)
Definition SOAP_WRITER_INITIAL_CAP : Z := 512.

(* src: source/protocol/dlna/control/handler.h SoapActionOutput *)
Record SoapActionOutput := mkOutput {
  success : bool;
  fault_code : Z;
  fault_description : option cstring;
  output_text : cstring;
  output_cap : Z
}.
#[export] Instance eta_SoapActionOutput : Eta SoapActionOutput := fun o =>
  mkOutput (success o) (fault_code o) (fault_description o) (output_text o) (output_cap o).
Definition output_zero : SoapActionOutput := mkOutput false 0 None [] 0.

Section writer.
Context (alloc : Z -> bool).

(** Refused when there is no room. *)
(* src: source/protocol/dlna/control/soap_writer.c soap_writer_reserve *)
Definition soap_writer_reserve (out : SoapActionOutput) (extra : Z) : outcome SoapActionOutput :=
  ensure (negb (output_cap out <? size (output_text out)));;
  match nxcast_size_add (size (output_text out)) extra ≫= (fun needed => nxcast_size_add needed 1) with
  | None => Refused
  | Some needed =>
      ensure (negb (SOAP_HANDLER_OUTPUT_MAX <? needed));;
      if needed <=? output_cap out then Done out
      else
        match nxcast_size_grow (output_cap out) needed SOAP_WRITER_INITIAL_CAP SOAP_HANDLER_OUTPUT_MAX with
        | None => Stuck
        | Some None => Refused
        | Some (Some new_cap) => ensure (alloc new_cap);; Done { out with output_cap := new_cap }
        end
  end.

(** The characters and their NUL are written behind those that are there. *)
Definition write_at_end (out : SoapActionOutput) (text : cstring) : outcome SoapActionOutput :=
  if size (output_text out) + size text + 1 <=? output_cap out
  then Done { out with output_text ::= (fun t => t ++ text) } else Stuck.

(* src: source/protocol/dlna/control/soap_writer.c soap_writer_clear *)
Definition soap_writer_clear (out : SoapActionOutput) : SoapActionOutput := { out with output_text := [] }.

(* src: source/protocol/dlna/control/soap_writer.c soap_writer_dispose *)
Definition soap_writer_dispose (out : SoapActionOutput) : SoapActionOutput := { out with output_text := []; output_cap := 0 }.

(** An operation of the writer returns whether it succeeded, and the output. *)
Definition written : Type := outcome (bool * SoapActionOutput).

(* src: source/protocol/dlna/control/soap_writer.c soap_writer_append_len *)
Definition soap_writer_append_len (out : SoapActionOutput) (text : cstring) : written :=
  match soap_writer_reserve out (size text) with
  | Stuck => Stuck
  | Refused => Done (false, out)
  | Done out => out ← write_at_end out text; Done (true, out)
  end.

(* src: source/protocol/dlna/control/soap_writer.c soap_writer_append_raw *)
Definition soap_writer_append_raw (out : SoapActionOutput) (text : option cstring) : written :=
  match text with None => Done (true, out) | Some text => soap_writer_append_len out text end.

(** [text] is what the format and its arguments make. *)
(* src: source/protocol/dlna/control/soap_writer.c soap_writer_appendf *)
Definition soap_writer_appendf (out : SoapActionOutput) (text : cstring) : written :=
  match soap_writer_reserve out (size text) with
  | Stuck => Stuck
  | Refused => Done (false, out)
  | Done out => out ← write_at_end out text; Done (true, out)
  end.

(** The characters that XML escapes. *)
(* src: source/protocol/dlna/control/soap_writer.c 144-165 soap_writer_append_escaped *)
Definition xml_replacement (c : Z) : cstring :=
  if c =? 38 then bytes "&amp;"
  else if c =? 60 then bytes "&lt;"
  else if c =? 62 then bytes "&gt;"
  else if c =? 34 then bytes "&quot;"
  else if c =? 39 then bytes "&apos;"
  else [c].

(* src: source/protocol/dlna/control/soap_writer.c 139-171 soap_writer_append_escaped *)
Fixpoint append_escaped_loop (out : SoapActionOutput) (value : cstring) : written :=
  match value with
  | [] => Done (true, out)
  | c :: value' =>
      '(ok, out) ← soap_writer_append_raw out (Some (xml_replacement c));
      if negb ok then Done (false, out) else append_escaped_loop out value'
  end.

(* src: source/protocol/dlna/control/soap_writer.c soap_writer_append_escaped *)
Definition soap_writer_append_escaped (out : SoapActionOutput) (text : option cstring) : written :=
  let value := default [] text in
  match nxcast_size_multiply (size value) 6 with
  | None => Done (false, out)
  | Some worst_case =>
      match soap_writer_reserve out worst_case with
      | Stuck => Stuck
      | Refused => Done (false, out)
      | Done out => append_escaped_loop out value
      end
  end.

(* src: source/protocol/dlna/control/soap_writer.c soap_writer_open_tag *)
Definition soap_writer_open_tag (out : SoapActionOutput) (tag : cstring) : written :=
  soap_writer_appendf out (bytes "<" ++ tag ++ bytes ">").

(* src: source/protocol/dlna/control/soap_writer.c soap_writer_close_tag *)
Definition soap_writer_close_tag (out : SoapActionOutput) (tag : cstring) : written :=
  soap_writer_appendf out (bytes "</" ++ tag ++ bytes ">").

(** [a && b] of two operations. *)
Definition and_then (a : written) (b : SoapActionOutput -> written) : written :=
  '(ok, out) ← a; if (ok : bool) then b out else Done (false, out).

(* src: source/protocol/dlna/control/soap_writer.c soap_writer_element_text *)
Definition soap_writer_element_text (out : SoapActionOutput) (tag : cstring) (text : option cstring) : written :=
  and_then (soap_writer_open_tag out tag) (fun out =>
  and_then (soap_writer_append_escaped out text) (fun out =>
  soap_writer_close_tag out tag)).

(* src: source/protocol/dlna/control/soap_writer.c soap_writer_element_raw *)
Definition soap_writer_element_raw (out : SoapActionOutput) (tag : cstring) (raw_text : option cstring) : written :=
  and_then (soap_writer_open_tag out tag) (fun out =>
  and_then (soap_writer_append_raw out (Some (default [] raw_text))) (fun out =>
  soap_writer_close_tag out tag)).

(** [%ld] *)
Definition format_ld (value : Z) : cstring := if value <? 0 then bytes "-" ++ format_u (- value) else format_u value.

(* src: source/protocol/dlna/control/soap_writer.c soap_writer_element_int *)
Definition soap_writer_element_int (out : SoapActionOutput) (tag : cstring) (value : Z) : written :=
  and_then (soap_writer_open_tag out tag) (fun out =>
  and_then (soap_writer_appendf out (format_ld value)) (fun out =>
  soap_writer_close_tag out tag)).
End writer.
