(* ===== verification/SoapXml.v ===== *)
(** * Reading SOAP requests (protocol/dlna/control/handler.c)

    Arguments are found in the text of a request without a parse of its XML: the first
    element with the local name of the argument, up to the next closing tag of that
    name.  [alloc] tells whether [malloc] gives a size. *)

From S2P Require Import Prelude Buffers CText SoapWriter.

Notation ch_lt := 60.
Notation ch_gt := 62.
Notation ch_slash := 47.
Notation ch_colon := 58.

(* src: source/protocol/dlna/control/handler.h SoapActionContext *)
Record SoapActionContext := mkContext {
  service_name : cstring;
  action_name : cstring;
  body : cstring;
  request : cstring
}.

(* src: source/protocol/dlna/control/handler.c soap_handler_clip_for_log_alloc *)
Definition soap_handler_clip_for_log_alloc (input : cstring) (max_len : Z) : cstring :=
  if size input <=? max_len then input
  else if max_len <=? 3 then []
  else take (Z.to_nat (max_len - 3)) input ++ bytes "...".

(** ** Character references *)

(** The reference that the text starts with: its character and its length. *)
(* src: source/protocol/dlna/control/handler.c 91-120 xml_decode_in_place *)
Definition reference (src : cstring) : option (Z * nat) :=
  if has_prefix src (bytes "&amp;") then Some (38, 5%nat)
  else if has_prefix src (bytes "&lt;") then Some (60, 4%nat)
  else if has_prefix src (bytes "&gt;") then Some (62, 4%nat)
  else if has_prefix src (bytes "&quot;") then Some (34, 6%nat)
  else if has_prefix src (bytes "&apos;") then Some (39, 6%nat)
  else None.

(** In place: the result is never ahead of what is read. *)
(* src: source/protocol/dlna/control/handler.c xml_decode_in_place *)
Fixpoint xml_decode (fuel : nat) (src : cstring) : cstring :=
  match fuel with
  | O => []
  | S fuel' =>
      match src with
      | [] => []
      | c :: src' =>
          match (if c =? 38 then reference src else None) with
          | Some (decoded, n) => decoded :: xml_decode fuel' (drop n src)
          | None => c :: xml_decode fuel' src'
          end
      end
  end.
Definition xml_decode_in_place (value : cstring) : cstring := xml_decode (S (length value)) value.

(* src: source/protocol/dlna/control/handler.c trim_whitespace_in_place *)
Definition trim_whitespace_in_place (value : cstring) : cstring := trim isspace value.

(** [used] characters are in the buffer of [out_size]; false when the next ones do not
    fit. *)
(* src: source/protocol/dlna/control/handler.c 157-196 soap_handler_xml_escape *)
Fixpoint xml_escape_loop (out : cstring) (out_size : Z) (value : cstring) : option cstring :=
  match value with
  | [] => Some out
  | c :: value' =>
      let replacement := xml_replacement c in
      if out_size <=? size out + size replacement then None
      else xml_escape_loop (out ++ replacement) out_size value'
  end.

(* src: source/protocol/dlna/control/handler.c soap_handler_xml_escape *)
Definition soap_handler_xml_escape (value : option cstring) (out_size : Z) : option cstring :=
  if out_size =? 0 then None
  else match value with None => Some [] | Some value => xml_escape_loop [] out_size value end.

Section handler.
Context (alloc : Z -> bool).

(* src: source/protocol/dlna/control/handler.c soap_handler_xml_escape_alloc *)
Definition soap_handler_xml_escape_alloc (value : option cstring) : option cstring :=
  let input := default [] value in
  let out_size := u64 (size input * 6 + 1) in
  if negb (alloc out_size) then None else soap_handler_xml_escape (Some input) out_size.

(** ** Elements *)

(** The part of a name behind its prefix. *)
Definition local_name (name : cstring) : cstring :=
  match memchr ch_colon name with Some i => drop (S i) name | None => name end.

Definition name_is (name tag : cstring) : bool :=
  (length (local_name name) =? length tag)%nat && has_prefix_nocase (local_name name) tag.

Definition in_open_name (c : Z) : bool := negb (isspace c) && negb (c =? ch_gt) && negb (c =? ch_slash).
Definition in_close_name (c : Z) : bool := negb (isspace c) && negb (c =? ch_gt).

(** The value up to the closing tag; [before] is the text that was scanned. *)
(* src: source/protocol/dlna/control/handler.c 325-367 soap_handler_extract_xml_value_alloc *)
Fixpoint find_close (fuel : nat) (tag before scan : cstring) : option (option cstring) :=
  match fuel with
  | O => None
  | S fuel' =>
      match strstr_at scan [ch_lt; ch_slash] with
      | None => Some None
      | Some i =>
          let after := drop (i + 2) scan in
          let name := (span in_close_name (skip isspace after)).1 in
          if negb (bool_decide (name = [])) && name_is name tag then Some (Some (before ++ take i scan))
          else find_close fuel' tag (before ++ take (i + 2) scan) after
      end
  end.

(** The inner [None] is a false result, the outer one a loop that does not end. *)
(* src: source/protocol/dlna/control/handler.c 276-372 soap_handler_extract_xml_value_alloc *)
Fixpoint find_element (fuel : nat) (tag cursor : cstring) : option (option cstring) :=
  match fuel with
  | O => None
  | S fuel' =>
      match strchr ch_lt cursor with
      | Some (_ :: after) =>
          if bool_decide (head after = Some ch_slash \/ head after = Some 63 \/ head after = Some 33)
          then find_element fuel' tag after
          else
            let '(name, name_end) := span in_open_name (skip isspace after) in
            if bool_decide (name = []) then find_element fuel' tag after
            else if negb (name_is name tag) then find_element fuel' tag name_end
            else
              match memchr ch_gt name_end with
              | None => Some None
              | Some i =>
                  let value_start := drop (S i) name_end in
                  if bool_decide (last (take i name_end) = Some ch_slash) then find_element fuel' tag value_start
                  else
                    match find_close (S (length value_start)) tag [] value_start with
                    | None => None
                    | Some (Some value) => Some (Some value)
                    | Some None => find_element fuel' tag value_start
                    end
              end
      | _ => Some None
      end
  end.

(* src: source/protocol/dlna/control/handler.c soap_handler_extract_xml_value_alloc *)
Definition soap_handler_extract_xml_value_alloc (xml tag : cstring) : outcome cstring :=
  match find_element (S (length xml)) tag xml with
  | None => Stuck
  | Some None => Refused
  | Some (Some value) =>
      ensure (alloc (size value + 1));; Done (trim_whitespace_in_place (xml_decode_in_place value))
  end.

(** ** Results *)

(* src: source/protocol/dlna/control/handler.c soap_handler_set_fault *)
Definition soap_handler_set_fault (out : SoapActionOutput) (code : Z) (description : cstring) : SoapActionOutput :=
  soap_writer_clear { out with success := false; fault_code := code; fault_description := Some description }.

(** [xml] is not the buffer of [out] itself. *)
(* src: source/protocol/dlna/control/handler.c soap_handler_set_success *)
Definition soap_handler_set_success (out : SoapActionOutput) (xml : option cstring) : outcome SoapActionOutput :=
  let out := { out with success := true; fault_code := 0; fault_description := None } in
  match xml with
  | None => Done out
  | Some xml =>
      '(ok, out) ← soap_writer_append_raw alloc (soap_writer_clear out) (Some xml);
      Done (if (ok : bool) then out
            else soap_writer_clear { out with success := false; fault_code := 501; fault_description := Some (bytes "Action Failed") })
  end.

(** ** Arguments *)

(* src: source/protocol/dlna/control/handler.c soap_handler_require_arg_alloc *)
Definition soap_handler_require_arg_alloc (ctx : SoapActionContext) (out : SoapActionOutput) (arg_name : cstring)
    : outcome (option cstring * SoapActionOutput) :=
  match soap_handler_extract_xml_value_alloc (body ctx) arg_name with
  | Stuck => Stuck
  | Refused => Done (None, soap_handler_set_fault out 402 (bytes "Invalid Args"))
  | Done value => Done (Some value, out)
  end.

(* src: source/protocol/dlna/control/handler.c soap_handler_try_arg_alloc *)
Definition soap_handler_try_arg_alloc (ctx : SoapActionContext) (arg_name : cstring) : outcome cstring :=
  soap_handler_extract_xml_value_alloc (body ctx) arg_name.

Definition in_blank (c : Z) : bool := (c =? 32) || (c =? 9).

(** The lines of a request, up to an empty one. *)
(* src: source/protocol/dlna/control/handler.c 448-493 soap_handler_try_http_header_alloc *)
Fixpoint find_header (fuel : nat) (header cursor : cstring) : option (option cstring) :=
  match fuel with
  | O => None
  | S fuel' =>
      match cursor with
      | [] => Some None
      | _ =>
          let line_end := strstr_at cursor [13; 10] in
          let line_len := default (length cursor) line_end in
          if (line_len =? 0)%nat then Some None
          else if (length header + 1 <? line_len)%nat && has_prefix_nocase cursor header &&
                  bool_decide (cursor !! length header = Some ch_colon)
          then
            let value_start := skip in_blank (drop (length header + 1) cursor) in
            let offset := (length cursor - length value_start)%nat in
            Some (Some (take (line_len - offset) value_start))
          else match line_end with None => Some None | Some i => find_header fuel' header (drop (i + 2) cursor) end
      end
  end.

(* src: source/protocol/dlna/control/handler.c soap_handler_try_http_header_alloc *)
Definition soap_handler_try_http_header_alloc (ctx : SoapActionContext) (header_name : cstring) : outcome cstring :=
  match find_header (S (length (request ctx))) header_name (request ctx) with
  | None => Stuck
  | Some None => Refused
  | Some (Some line) =>
      ensure (alloc (size line + 1));;
      let value := trim_whitespace_in_place line in
      ensure (negb (bool_decide (value = [])));; Done value
  end.
End handler.
