(* ===== verification/SoapText.v ===== *)
(** * SOAP text is written within bounds and read back

    The writer of responses never leaves its buffer; character references are a round
    trip; and an argument that was written is found again. *)

From S2P Require Import Prelude Buffers CText SoapWriter SoapXml.

(** ** Growing *)

Lemma grow_loop_S n capacity required limit : grow_loop (S n) capacity required limit =
  if capacity <? required then
    let capacity := if limit / 2 <? capacity then limit else capacity * 2 in
    if (capacity <? required) && (capacity =? limit) then Some None else grow_loop n capacity required limit
  else Some (Some capacity).
Proof. reflexivity. Qed.

Lemma grow_loop_ends n : forall capacity required limit,
  0 < capacity <= limit -> required <= limit -> required <= capacity * 2 ^ Z.of_nat n ->
  exists c, grow_loop (S n) capacity required limit = Some (Some c) /\ required <= c <= limit.
Proof.
  induction n as [|n IH]; intros capacity required limit Hc Hr Hn; rewrite grow_loop_S; cbv zeta.
  - change (2 ^ Z.of_nat 0) with 1 in Hn. rewrite (proj2 (Z.ltb_ge _ _)) by lia. exists capacity. split; [done|lia].
  - destruct (Z.ltb_spec capacity required) as [Hlt|Hge]; [|exists capacity; split; [done|lia]].
    rewrite Nat2Z.inj_succ, Z.pow_succ_r in Hn by lia.
    destruct (Z.ltb_spec (limit / 2) capacity) as [Hbig|Hsmall].
    + rewrite (proj2 (Z.ltb_ge limit required)) by lia. cbn [andb].
      pose proof (Z.pow_pos_nonneg 2 (Z.of_nat n) ltac:(lia) ltac:(lia)). apply IH; [lia|lia|nia].
    + assert (Hand : (capacity * 2 <? required) && (capacity * 2 =? limit) = false).
      { destruct (Z.ltb_spec (capacity * 2) required); [|done]. cbn [andb]. apply Z.eqb_neq. lia. }
      rewrite Hand. apply IH; [lia|lia|nia].
Qed.

Lemma grow_spec current required initial limit :
  0 <= current <= limit -> 0 < initial <= limit -> required <= limit <= SIZE_MAX ->
  exists c, nxcast_size_grow current required initial limit = Some (Some c) /\ required <= c <= limit /\ current <= c.
Proof.
  intros Hc Hi Hr. unfold nxcast_size_grow.
  rewrite (proj2 (Z.eqb_neq _ _)), (proj2 (Z.ltb_ge _ _)), (proj2 (Z.ltb_ge _ _)) by lia. cbn [orb].
  destruct (Z.leb_spec required current); [exists current; split; [done|lia]|].
  set (capacity := if 0 <? current then current else initial).
  assert (Hcap : 0 < capacity <= limit) by (unfold capacity; destruct (Z.ltb_spec 0 current); lia).
  rewrite (proj2 (Z.ltb_ge _ _)) by lia. unfold GROW_FUEL.
  destruct (grow_loop_ends 65 capacity required limit Hcap ltac:(lia)) as (c & E & Hb).
  - change (2 ^ Z.of_nat 65) with 36893488147419103232. unfold SIZE_MAX, UINT64_MAX in Hr. lia.
  - exists c. split; [done|lia].
Qed.

(** ** The writer *)

(** The characters and their NUL fit in the buffer. *)
Definition writer_ok (out : SoapActionOutput) : Prop :=
  0 <= output_cap out <= SOAP_HANDLER_OUTPUT_MAX /\
  (output_cap out = 0 /\ output_text out = [] \/ size (output_text out) + 1 <= output_cap out).

Lemma zero_writer_ok : writer_ok output_zero.
Proof. split; [by vm_compute|by left]. Qed.

(** An operation that appends [text], or a prefix of it when it fails; it succeeds when
    [need] more characters are allowed and there is memory. *)
Definition appends (alloc : Z -> bool) (out : SoapActionOutput) (need : Z) (text : cstring) (r : written) : Prop :=
  exists ok out' t, r = Done (ok, out') /\ writer_ok out' /\ output_text out' = output_text out ++ t /\
    t `prefix_of` text /\ (ok = true -> t = text) /\ output_cap out <= output_cap out' /\
    success out' = success out /\ fault_code out' = fault_code out /\ fault_description out' = fault_description out /\
    ((forall n, alloc n = true) -> ok = false -> SOAP_HANDLER_OUTPUT_MAX < size (output_text out) + need + 1).

Lemma reserve_spec alloc out extra : writer_ok out -> 0 <= extra ->
  (soap_writer_reserve alloc out extra = Refused /\
     ((forall n, alloc n = true) -> SOAP_HANDLER_OUTPUT_MAX < size (output_text out) + extra + 1)) \/
  exists cap, soap_writer_reserve alloc out extra = Done { out with output_cap := cap } /\
    output_cap out <= cap <= SOAP_HANDLER_OUTPUT_MAX /\ size (output_text out) + extra + 1 <= cap.
Proof.
  intros [Hcap Htext] He. pose proof (size_nonneg (output_text out)) as Hs.
  assert (Hle : size (output_text out) <= output_cap out) by (destruct Htext as [[H0 ->]|]; [change (size (@nil Z)) with 0|]; lia).
  unfold soap_writer_reserve. rewrite (proj2 (Z.ltb_ge _ _)) by lia. cbn [negb ensure mbind outcome_bind].
  unfold nxcast_size_add, SIZE_MAX, UINT64_MAX, SOAP_HANDLER_OUTPUT_MAX in *.
  destruct (Z.ltb_spec (18446744073709551615 - size (output_text out)) extra) as [Ho|Ho]; [left; split; [done|lia]|].
  cbn [mbind option_bind].
  destruct (Z.ltb_spec (18446744073709551615 - (size (output_text out) + extra)) 1) as [Ho2|Ho2]; [left; split; [done|lia]|].
  destruct (Z.ltb_spec 98304 (size (output_text out) + extra + 1)) as [Hm|Hm]; [left; split; [done|lia]|].
  cbn [negb ensure mbind outcome_bind].
  destruct (Z.leb_spec (size (output_text out) + extra + 1) (output_cap out)) as [Hfit|Hfit].
  { right. exists (output_cap out). split; [by destruct out|lia]. }
  destruct (grow_spec (output_cap out) (size (output_text out) + extra + 1) SOAP_WRITER_INITIAL_CAP 98304) as (c & -> & Hc & Hcc);
    [lia|unfold SOAP_WRITER_INITIAL_CAP; lia|unfold SIZE_MAX, UINT64_MAX; lia|].
  destruct (alloc c) eqn:Ha; cbn [ensure mbind outcome_bind]; [right; exists c; split; [done|lia]|left; split; [done|]].
  intros Hall. by rewrite Hall in Ha.
Qed.

Lemma append_len_ok alloc out text : writer_ok out -> appends alloc out (size text) text (soap_writer_append_len alloc out text).
Proof.
  intros Hok. pose proof (size_nonneg text). unfold soap_writer_append_len.
  destruct (reserve_spec alloc out (size text) Hok ltac:(lia)) as [[-> Hno]|(cap & -> & Hcap & Hfit)].
  - exists false, out, []. rewrite app_nil_r. split; [done|]. split; [done|]. split; [done|].
    split; [apply prefix_nil|]. split; [done|]. split; [lia|]. do 3 (split; [done|]). by intros Ha _; apply Hno.
  - unfold write_at_end. cbn [output_text output_cap]. rewrite (proj2 (Z.leb_le _ _)) by (cbn; lia). cbn [mbind outcome_bind].
    eexists true, _, text. split; [done|]. destruct Hok as [Hc0 _]. split.
    { split; cbn; [lia|]. right. rewrite size_app. lia. }
    split; [done|]. split; [done|]. split; [done|]. split; [cbn; lia|]. done.
Qed.

Lemma append_raw_ok alloc out text : writer_ok out -> appends alloc out (size text) text (soap_writer_append_raw alloc out (Some text)).
Proof. apply append_len_ok. Qed.

Lemma appendf_ok alloc out text : writer_ok out -> appends alloc out (size text) text (soap_writer_appendf alloc out text).
Proof. apply append_len_ok. Qed.

Lemma and_then_ok alloc out need1 need2 text1 text2 r k :
  appends alloc out need1 text1 r -> size text1 <= need1 -> 0 <= need2 ->
  (forall out', writer_ok out' -> output_text out' = output_text out ++ text1 -> appends alloc out' need2 text2 (k out')) ->
  appends alloc out (need1 + need2) (text1 ++ text2) (and_then r k).
Proof.
  intros (ok & out1 & t & -> & Hok1 & Ht & Hpre & Htrue & Hcap & E1 & E2 & E3 & Hall) Hn Hn2 Hk. unfold and_then. cbn [mbind outcome_bind].
  destruct ok.
  - specialize (Htrue eq_refl). subst t.
    destruct (Hk out1 Hok1 Ht) as (ok2 & out2 & t2 & -> & Hok2 & Ht2 & Hpre2 & Htrue2 & Hcap2 & F1 & F2 & F3 & Hall2).
    exists ok2, out2, (text1 ++ t2). split; [done|]. split; [done|]. split; [by rewrite Ht2, Ht, app_assoc|].
    split; [by apply prefix_app|]. split; [by intros H%Htrue2; rewrite H|]. split; [lia|].
    do 3 (split; [congruence|]). intros Ha Hf. specialize (Hall2 Ha Hf). rewrite Ht, size_app in Hall2. lia.
  - exists false, out1, t. split; [done|]. split; [done|]. split; [done|]. split; [by apply prefix_app_r|]. split; [done|]. split; [done|].
    do 3 (split; [done|]). intros Ha Hf. specialize (Hall Ha Hf). lia.
Qed.

(** The escaped form of a text. *)
Definition escaped (value : cstring) : cstring := value ≫= xml_replacement.

Ltac replacement_cases c :=
  unfold xml_replacement;
  destruct (Z.eqb_spec c 38) as [->|]; [|destruct (Z.eqb_spec c 60) as [->|]; [|destruct (Z.eqb_spec c 62) as [->|];
    [|destruct (Z.eqb_spec c 34) as [->|]; [|destruct (Z.eqb_spec c 39) as [->|]]]]].

Lemma replacement_size c : 1 <= size (xml_replacement c) <= 6.
Proof. replacement_cases c; by vm_compute. Qed.

Lemma escaped_size value : size (escaped value) <= 6 * size value.
Proof.
  induction value as [|c value IH]; [done|]. change (escaped (c :: value)) with (xml_replacement c ++ escaped value).
  rewrite size_app, size_cons. pose proof (replacement_size c). lia.
Qed.

Lemma replacement_no_lt c : ch_lt ∉ xml_replacement c.
Proof. replacement_cases c; first [apply (bool_decide_unpack _); by vm_compute|set_solver]. Qed.

Lemma escaped_no_lt value : ch_lt ∉ escaped value.
Proof.
  induction value as [|c value IH]; [apply not_elem_of_nil|]. change (escaped (c :: value)) with (xml_replacement c ++ escaped value).
  rewrite not_elem_of_app. split; [apply replacement_no_lt|done].
Qed.

(** ** Appending escaped text *)

Lemma appends_weaken alloc out need need' text r : need <= need' -> appends alloc out need text r -> appends alloc out need' text r.
Proof.
  intros Hn (ok & out' & t & E & H1 & H2 & H3 & H4 & H5 & H6 & H7 & H8 & H9). exists ok, out', t. do 8 (split; [done|]).
  split; [done|]. intros Ha Hf. specialize (H9 Ha Hf). lia.
Qed.

Lemma escaped_loop_ok alloc value : forall out, writer_ok out ->
  appends alloc out (size (escaped value)) (escaped value) (append_escaped_loop alloc out value).
Proof.
  induction value as [|c value IH]; intros out Hok.
  - exists true, out, []. rewrite app_nil_r. do 3 (split; [done|]). split; [apply prefix_nil|]. split; [done|]. split; [lia|]. done.
  - change (escaped (c :: value)) with (xml_replacement c ++ escaped value). rewrite size_app.
    replace (append_escaped_loop alloc out (c :: value)) with
      (and_then (soap_writer_append_raw alloc out (Some (xml_replacement c))) (fun out => append_escaped_loop alloc out value)).
    + apply and_then_ok; [by apply append_raw_ok|lia|apply size_nonneg|]. intros out' Hok' _. by apply IH.
    + cbn [append_escaped_loop]. unfold and_then.
      destruct (soap_writer_append_raw alloc out (Some (xml_replacement c))) as [[[] o]| |]; done.
Qed.

Lemma append_escaped_ok alloc out value : writer_ok out ->
  appends alloc out (6 * size value) (escaped value) (soap_writer_append_escaped alloc out (Some value)).
Proof.
  intros Hok. pose proof (size_nonneg value) as Hs. unfold soap_writer_append_escaped. change (default [] (Some value)) with value. cbv zeta.
  assert (Hfail : ((forall n, alloc n = true) -> SOAP_HANDLER_OUTPUT_MAX < size (output_text out) + 6 * size value + 1) ->
    appends alloc out (6 * size value) (escaped value) (Done (false, out))).
  { intros Hno. exists false, out, []. rewrite app_nil_r. do 3 (split; [done|]). split; [apply prefix_nil|]. split; [done|].
    split; [lia|]. do 3 (split; [done|]). intros Ha _. by apply Hno. }
  unfold nxcast_size_multiply.
  match goal with |- context [if ?b then None else Some _] => destruct b eqn:Ho end.
  { apply Hfail. intros _. apply andb_true_iff in Ho as [Hz Ho]. apply negb_true_iff, Z.eqb_neq in Hz. apply Z.ltb_lt in Ho.
    unfold SIZE_MAX, UINT64_MAX, SOAP_HANDLER_OUTPUT_MAX in *. pose proof (size_nonneg (output_text out)).
    destruct (Z.le_gt_cases (size value * 6) 18446744073709551615) as [Hle|]; [|lia].
    pose proof (Z.div_le_lower_bound 18446744073709551615 (size value) 6 ltac:(lia) Hle). lia. }
  destruct (reserve_spec alloc out (size value * 6) Hok ltac:(lia)) as [[E Hno]|(cap & E & Hcap & Hfit)]; rewrite E.
  - apply Hfail. intros Ha. specialize (Hno Ha). lia.
  - destruct (escaped_loop_ok alloc value { out with output_cap := cap }) as (ok & out' & t & -> & H1 & H2 & H3 & H4 & H5 & H6 & H7 & H8 & H9).
    + split; cbn; [destruct Hok; lia|]. right. lia.
    + exists ok, out', t. cbn in *. split; [done|]. split; [done|]. split; [done|]. split; [done|]. split; [done|]. split; [lia|].
      do 3 (split; [done|]). intros Ha Hf. specialize (H9 Ha Hf). pose proof (escaped_size value). lia.
Qed.

Lemma tag_sizes tag : size (bytes "<" ++ tag ++ bytes ">") = size tag + 2 /\ size (bytes "</" ++ tag ++ bytes ">") = size tag + 3.
Proof.
  rewrite !size_app. change (size (bytes "<")) with 1. change (size (bytes "</")) with 2. change (size (bytes ">")) with 1. lia.
Qed.

Lemma element_text_ok alloc out tag text : writer_ok out ->
  appends alloc out (2 * size tag + 5 + 6 * size text) (bytes "<" ++ tag ++ bytes ">" ++ escaped text ++ bytes "</" ++ tag ++ bytes ">")
    (soap_writer_element_text alloc out tag (Some text)).
Proof.
  intros Hok. unfold soap_writer_element_text, soap_writer_open_tag, soap_writer_close_tag.
  pose proof (size_nonneg text). pose proof (size_nonneg tag). pose proof (escaped_size text).
  destruct (tag_sizes tag) as [E1 E2].
  replace (bytes "<" ++ tag ++ bytes ">" ++ escaped text ++ bytes "</" ++ tag ++ bytes ">")
    with ((bytes "<" ++ tag ++ bytes ">") ++ escaped text ++ bytes "</" ++ tag ++ bytes ">") by by rewrite <- !app_assoc.
  apply (appends_weaken _ _ ((size tag + 2) + (6 * size text + (size tag + 3)))); [lia|].
  apply and_then_ok; [rewrite <- E1; by apply appendf_ok|lia|lia|]. intros out1 Hok1 _.
  apply and_then_ok; [by apply append_escaped_ok|lia|lia|]. intros out2 Hok2 _. rewrite <- E2. by apply appendf_ok.
Qed.

(** Writing an element of a response, for every state of the memory: it never
    writes outside its buffer nor loops for ever; the buffer stays within 96 KiB and holds
    the text and its NUL; a success appends exactly the element with its escaped text,
    a failure a prefix of it; and with memory it fails only when the reserve of six
    characters per character would pass 96 KiB. *)
Theorem response_element_is_bounded alloc out tag text : writer_ok out ->
  exists ok out' t, soap_writer_element_text alloc out tag (Some text) = Done (ok, out') /\ writer_ok out' /\
    output_text out' = output_text out ++ t /\
    t `prefix_of` bytes "<" ++ tag ++ bytes ">" ++ escaped text ++ bytes "</" ++ tag ++ bytes ">" /\
    (ok = true -> t = bytes "<" ++ tag ++ bytes ">" ++ escaped text ++ bytes "</" ++ tag ++ bytes ">") /\
    ((forall n, alloc n = true) -> ok = false ->
       SOAP_HANDLER_OUTPUT_MAX < size (output_text out) + (2 * size tag + 5 + 6 * size text) + 1).
Proof.
  intros Hok. destruct (element_text_ok alloc out tag text Hok) as (ok & out' & t & H1 & H2 & H3 & H4 & H5 & _ & _ & _ & _ & H6).
  by exists ok, out', t.
Qed.

Lemma response_element_is_bounded_witness :
  exists ok out' t, soap_writer_element_text (fun _ => true) output_zero (bytes "A") (Some (bytes "1&2")) = Done (ok, out') /\ writer_ok out' /\
    output_text out' = output_text output_zero ++ t /\
    t `prefix_of` bytes "<" ++ bytes "A" ++ bytes ">" ++ escaped (bytes "1&2") ++ bytes "</" ++ bytes "A" ++ bytes ">" /\
    (ok = true -> t = bytes "<" ++ bytes "A" ++ bytes ">" ++ escaped (bytes "1&2") ++ bytes "</" ++ bytes "A" ++ bytes ">") /\
    ((forall n : Z, true = true) -> ok = false ->
       SOAP_HANDLER_OUTPUT_MAX < size (output_text output_zero) + (2 * size (bytes "A") + 5 + 6 * size (bytes "1&2")) + 1).
Proof. apply response_element_is_bounded. split; [by vm_compute|by left]. Defined.

(** ** Character references *)

(** One escaped character is decoded in one step. *)
Lemma decode_replacement fuel c rest : xml_decode (S fuel) (xml_replacement c ++ rest) = c :: xml_decode fuel rest.
Proof.
  replacement_cases c; try (cbn; by rewrite ?drop_0). cbn. by rewrite (proj2 (Z.eqb_neq c 38)) by done.
Qed.

Lemma decode_escaped value : forall fuel, (length value < fuel)%nat -> xml_decode fuel (escaped value) = value.
Proof.
  induction value as [|c value IH]; intros [|fuel] Hf; cbn [length] in Hf; [lia|done|lia|].
  change (escaped (c :: value)) with (xml_replacement c ++ escaped value). rewrite decode_replacement, IH; [done|lia].
Qed.

Lemma escaped_longer value : (length value <= length (escaped value))%nat.
Proof. induction value as [|c value IH]; [done|]. change (escaped (c :: value)) with (xml_replacement c ++ escaped value).
  rewrite length_app. pose proof (replacement_size c) as H. unfold size in H. cbn. lia. Qed.

(** C0: Decoding the character references of an escaped text gives the text back,
    whatever it holds. *)
Theorem escape_roundtrip value : xml_decode_in_place (escaped value) = value.
Proof. apply decode_escaped. pose proof (escaped_longer value). lia. Qed.

(** ** Finding an argument *)

(** The name of an argument. *)
Definition argument_name (tag : cstring) : Prop :=
  tag <> [] /\ Forall (fun c => in_open_name c = true /\ c <> ch_lt /\ c <> ch_colon /\ c <> 33 /\ c <> 63) tag.

(** Markup that is not of the element [tag]: what stands behind a [<]. *)
Definition other_markup (tag m : cstring) : Prop :=
  ch_lt ∉ m /\ ch_gt ∈ m /\
  (bool_decide (head m = Some ch_slash \/ head m = Some 63 \/ head m = Some 33) = true \/
   name_is (span in_open_name (skip isspace m)).1 tag = false).

(** The text in front of an argument: characters, then markup of other elements. *)
Definition markup (pieces : list cstring) : cstring := pieces ≫= cons ch_lt.

Lemma span_within p (l1 l2 : cstring) : Exists (fun x => p x = false) l1 -> span p (l1 ++ l2) = ((span p l1).1, (span p l1).2 ++ l2).
Proof.
  induction l1 as [|x l1 IH]; intros H; [by inversion H|]. cbn. destruct (p x) eqn:Hp; [|done].
  apply Exists_cons in H as [H|H]; [congruence|]. rewrite IH by done. by destruct (span p l1).
Qed.

Lemma skip_within p (l1 l2 : cstring) : Exists (fun x => p x = false) l1 -> skip p (l1 ++ l2) = skip p l1 ++ l2.
Proof. intros H. unfold skip. by rewrite span_within. Qed.

Lemma skip_suffix p (l : cstring) : exists l1, Forall (fun x => p x = true) l1 /\ l = l1 ++ skip p l.
Proof.
  induction l as [|x l (l1 & Hf & E)]; [by exists []|]. unfold skip. cbn. destruct (p x) eqn:Hp; [|by exists []].
  unfold skip in E. destruct (span p l) as [a b]. cbn in *. exists (x :: l1). split; [by constructor|]. cbn. by rewrite <- E.
Qed.

Lemma gt_not_space : isspace ch_gt = false.
Proof. done. Qed.

Lemma gt_after_skip m : ch_gt ∈ m -> ch_gt ∈ skip isspace m.
Proof.
  intros H. destruct (skip_suffix isspace m) as (l1 & Hf & E). rewrite E in H. apply elem_of_app in H as [H|H]; [|done].
  rewrite Forall_forall in Hf. by specialize (Hf _ H).
Qed.

Lemma gt_stops p m : p ch_gt = false -> ch_gt ∈ m -> Exists (fun x => p x = false) m.
Proof. intros Hp H. apply Exists_exists. by exists ch_gt. Qed.

Lemma find_element_S fuel tag cursor : find_element (S fuel) tag cursor =
  match strchr ch_lt cursor with
  | Some (_ :: after) =>
      if bool_decide (head after = Some ch_slash \/ head after = Some 63 \/ head after = Some 33)
      then find_element fuel tag after
      else
        let '(name, name_end) := span in_open_name (skip isspace after) in
        if bool_decide (name = []) then find_element fuel tag after
        else if negb (name_is name tag) then find_element fuel tag name_end
        else
          match memchr ch_gt name_end with
          | None => Some None
          | Some i =>
              let value_start := drop (S i) name_end in
              if bool_decide (last (take i name_end) = Some ch_slash) then find_element fuel tag value_start
              else
                match find_close (S (length value_start)) tag [] value_start with
                | None => None
                | Some (Some value) => Some (Some value)
                | Some None => find_element fuel tag value_start
                end
          end
  | _ => Some None
  end.
Proof. reflexivity. Qed.

(** Text without markup holds no element. *)
Lemma find_nothing fuel tag text : ch_lt ∉ text -> find_element (S fuel) tag text = Some None.
Proof. intros H. rewrite find_element_S. by rewrite strchr_none. Qed.

(** Markup of another element is passed over. *)
Lemma pass_other fuel tag text m rest : ch_lt ∉ text -> other_markup tag m ->
  exists text', ch_lt ∉ text' /\ find_element (S fuel) tag (text ++ (ch_lt :: m) ++ rest) = find_element fuel tag (text' ++ rest).
Proof.
  intros Ht (Hlt & Hgt & Hother). rewrite find_element_S, <- app_comm_cons, strchr_app by done.
  assert (Hhead : head (m ++ rest) = head m) by (destruct m; [by apply elem_of_nil in Hgt|done]). rewrite Hhead.
  destruct (bool_decide _) eqn:Hb; [by exists m|]. destruct Hother as [|Hname]; [done|].
  rewrite skip_within by by apply gt_stops. rewrite span_within by (apply gt_stops; [done|by apply gt_after_skip]).
  destruct (bool_decide ((span in_open_name (skip isspace m)).1 = [])); [by exists m|].
  rewrite Hname. cbn [negb]. eexists. split; [|done].
  destruct (span_app in_open_name (skip isspace m)) as [_ E]. destruct (skip_suffix isspace m) as (l1 & _ & E1).
  rewrite E1, E in Hlt. rewrite !not_elem_of_app in Hlt. tauto.
Qed.

Lemma pass_markup fuel tag pieces : Forall (other_markup tag) pieces -> forall text rest, ch_lt ∉ text ->
  exists text', ch_lt ∉ text' /\
    find_element (length pieces + fuel) tag (text ++ markup pieces ++ rest) = find_element fuel tag (text' ++ rest).
Proof.
  induction 1 as [|m pieces Hm Hp IH]; intros text rest Ht; [by exists text|].
  change (markup (m :: pieces)) with ((ch_lt :: m) ++ markup pieces). rewrite <- app_assoc. cbn [length Nat.add].
  destruct (pass_other (length pieces + fuel) tag text m (markup pieces ++ rest) Ht Hm) as (text1 & Ht1 & ->). by apply IH.
Qed.

Lemma name_is_itself tag : argument_name tag -> name_is tag tag = true.
Proof.
  intros [_ Hf]. unfold name_is, local_name.
  rewrite memchr_none by (intros Hin; rewrite Forall_forall in Hf; by destruct (Hf _ Hin) as (_ & _ & Hne & _)).
  rewrite Nat.eqb_refl. unfold has_prefix_nocase. by rewrite firstn_all, bool_decide_eq_true_2.
Qed.

Lemma argument_name_span p tag c rest : argument_name tag -> (forall x, in_open_name x = true -> p x = true) -> p c = false ->
  span p (tag ++ c :: rest) = (tag, c :: rest).
Proof.
  intros [_ Hf] Hp Hc. apply span_stop; [|done]. eapply Forall_impl; [apply Hf|]. intros x Hx. apply Hp. apply Hx.
Qed.

Lemma argument_name_skip tag rest : argument_name tag -> skip isspace (tag ++ rest) = tag ++ rest.
Proof.
  intros [Hne Hf]. apply skip_none. destruct tag as [|x tag]; [done|]. apply Forall_cons in Hf as [[Hx _] _].
  unfold in_open_name in Hx. cbn [app]. by destruct (isspace x).
Qed.

Lemma close_found fuel tag value rest : argument_name tag -> ch_lt ∉ value ->
  find_close (S fuel) tag [] (value ++ ch_lt :: ch_slash :: tag ++ ch_gt :: rest) = Some (Some value).
Proof.
  intros Htag Hv. cbn [find_close]. rewrite strstr_two by done.
  assert (Ed : drop (length value + 2) (value ++ ch_lt :: ch_slash :: tag ++ ch_gt :: rest) = tag ++ ch_gt :: rest).
  { rewrite drop_app_ge by lia. by replace (length value + 2 - length value)%nat with 2%nat by lia. }
  rewrite Ed, argument_name_skip, (argument_name_span in_close_name) by (done || (intros x; unfold in_open_name, in_close_name; by destruct (isspace x), (x =? ch_gt))).
  cbn [fst]. rewrite bool_decide_eq_false_2 by apply Htag. rewrite name_is_itself by done. cbn [negb andb app].
  by rewrite take_app_length.
Qed.

(** The first element of the name is found. *)
Lemma element_found fuel tag text value rest : argument_name tag -> ch_lt ∉ text -> ch_lt ∉ value ->
  find_element (S fuel) tag (text ++ ch_lt :: tag ++ ch_gt :: value ++ ch_lt :: ch_slash :: tag ++ ch_gt :: rest) = Some (Some value).
Proof.
  intros Htag Ht Hv. rewrite find_element_S, strchr_app by done.
  rewrite bool_decide_eq_false_2.
  2:{ destruct Htag as [Hne Hf]. destruct tag as [|x tag]; [done|]. apply Forall_cons in Hf as [(Hx & H1 & H2 & H3 & H4) _]. cbn.
      intros [E|[E|E]]; injection E as E; subst x; done. }
  rewrite argument_name_skip, argument_name_span by done. rewrite bool_decide_eq_false_2 by apply Htag.
  rewrite name_is_itself by done. cbn [negb memchr]. change (ch_gt =? ch_gt) with true. cbv iota zeta. cbn [drop take last].
  rewrite bool_decide_eq_false_2, drop_0 by done. by rewrite close_found.
Qed.

Lemma markup_length pieces : (length pieces <= length (markup pieces))%nat.
Proof.
  induction pieces as [|m pieces IH]; [done|]. change (markup (m :: pieces)) with ((ch_lt :: m) ++ markup pieces). rewrite length_app. cbn. lia.
Qed.

Lemma written_argument_is_read_back alloc tag text pieces value rest : (forall n, alloc n = true) ->
  argument_name tag -> ch_lt ∉ text -> Forall (other_markup tag) pieces ->
  soap_handler_extract_xml_value_alloc alloc
    (text ++ markup pieces ++ (bytes "<" ++ tag ++ bytes ">" ++ escaped value ++ bytes "</" ++ tag ++ bytes ">") ++ rest) tag
  = Done (trim isspace value).
Proof.
  intros Ha Htag Ht Hp. unfold soap_handler_extract_xml_value_alloc.
  set (element := bytes "<" ++ tag ++ bytes ">" ++ escaped value ++ bytes "</" ++ tag ++ bytes ">").
  assert (Eel : element ++ rest = ch_lt :: tag ++ ch_gt :: escaped value ++ ch_lt :: ch_slash :: tag ++ ch_gt :: rest).
  { unfold element. by rewrite <- !app_assoc. }
  assert (exists fuel, S (length (text ++ markup pieces ++ element ++ rest)) = (length pieces + S fuel)%nat) as [fuel ->].
  { exists (length (text ++ markup pieces ++ element ++ rest) - length pieces)%nat. pose proof (markup_length pieces). rewrite !length_app. lia. }
  destruct (pass_markup (S fuel) tag pieces Hp text (element ++ rest) Ht) as (text' & Ht' & ->).
  rewrite Eel, element_found by (done || apply escaped_no_lt). rewrite Ha. cbn [ensure mbind outcome_bind].
  unfold xml_decode_in_place, trim_whitespace_in_place. rewrite decode_escaped; [done|]. pose proof (escaped_longer value). lia.
Qed.

(** An argument that the writer wrote is read back: when an element of a response was
    written behind other text and markup, whatever its value holds, then extracting the
    argument of that name from the text gives the value without the spaces at its ends. *)
Theorem soap_argument_roundtrip alloc out out' tag text pieces value rest :
  (forall n, alloc n = true) -> argument_name tag -> ch_lt ∉ text -> Forall (other_markup tag) pieces ->
  writer_ok out -> output_text out = text ++ markup pieces ->
  soap_writer_element_text alloc out tag (Some value) = Done (true, out') ->
  soap_handler_extract_xml_value_alloc alloc (output_text out' ++ rest) tag = Done (trim isspace value).
Proof.
  intros Ha Htag Ht Hp Hok Htext E.
  destruct (element_text_ok alloc out tag value Hok) as (ok & o & t & E' & _ & Ho & _ & Hall & _).
  pose proof (eq_trans (eq_sym E') E) as Eq. injection Eq as -> ->. rewrite Ho, (Hall eq_refl), Htext, <- !app_assoc.
  by pose proof (written_argument_is_read_back alloc tag text pieces value rest Ha Htag Ht Hp) as H; rewrite <- !app_assoc in H.
Qed.

Definition all_memory (_ : Z) : bool := true.
Definition sample_header : cstring := bytes "<u:Response xmlns='u'>".
Definition sample_out : SoapActionOutput := mkOutput true 0 None sample_header 512.

Lemma soap_argument_roundtrip_witness :
  exists out', soap_writer_element_text all_memory sample_out (bytes "Title") (Some (bytes " a<b & 'c' ")) = Done (true, out') /\
    soap_handler_extract_xml_value_alloc all_memory (output_text out' ++ bytes "</u:Response>") (bytes "Title") = Done (bytes "a<b & 'c'").
Proof.
  eexists. split; [vm_compute; reflexivity|].
  apply (soap_argument_roundtrip all_memory sample_out _ (bytes "Title") [] [bytes "u:Response xmlns='u'>"]
    (bytes " a<b & 'c' ") (bytes "</u:Response>")); [done| | | | |done|vm_compute; reflexivity].
  - split; [done|]. repeat constructor; by vm_compute.
  - apply not_elem_of_nil.
  - constructor; [|constructor]. split; [|split]; [apply (bool_decide_unpack _); by vm_compute..|right; by vm_compute].
  - split; [by vm_compute|right; by vm_compute].
Defined.

(** A request without the element has a fault instead of the argument. *)
Theorem missing_argument_is_a_fault alloc ctx out tag text pieces :
  ch_lt ∉ text -> Forall (other_markup tag) pieces -> body ctx = text ++ markup pieces ->
  soap_handler_require_arg_alloc alloc ctx out tag = Done (None, soap_handler_set_fault out 402 (bytes "Invalid Args")).
Proof.
  intros Ht Hp Hb. unfold soap_handler_require_arg_alloc, soap_handler_extract_xml_value_alloc. rewrite Hb.
  assert (exists fuel, S (length (text ++ markup pieces)) = (length pieces + S fuel)%nat) as [fuel ->].
  { exists (length (text ++ markup pieces) - length pieces)%nat. pose proof (markup_length pieces). rewrite !length_app. lia. }
  destruct (pass_markup (S fuel) tag pieces Hp text [] Ht) as (text' & Ht' & E). rewrite app_nil_r in E. rewrite E.
  by rewrite app_nil_r, find_nothing.
Qed.

(** ** The searches end *)

Lemma strstr_at_bound text needle i : strstr_at text needle = Some i -> (i + length needle <= length text)%nat.
Proof.
  revert i. induction text as [|x text IH]; intros i H; cbn [strstr_at] in H; case_bool_decide as Hb.
  - injection H as <-. rewrite <- Hb at 1. rewrite length_take. lia.
  - done.
  - injection H as <-. rewrite <- Hb at 1. rewrite length_take. lia.
  - apply fmap_Some in H as (j & Hj & ->). specialize (IH _ Hj). cbn. lia.
Qed.

Lemma find_close_ends fuel : forall tag before scan, (length scan < fuel)%nat -> find_close fuel tag before scan <> None.
Proof.
  induction fuel as [|fuel IH]; intros tag before scan Hf; [lia|]. cbn [find_close].
  destruct (strstr_at scan [ch_lt; ch_slash]) as [i|] eqn:Hi; [|done]. apply strstr_at_bound in Hi. cbn [length] in Hi.
  match goal with |- context [if ?b then Some _ else _] => destruct b end; [done|]. apply IH. rewrite length_drop. lia.
Qed.

Lemma span_length p (l : cstring) : (length (span p l).2 <= length l)%nat.
Proof. destruct (span_app p l) as [_ E]. rewrite E at 2. rewrite length_app. lia. Qed.

Lemma skip_length p (l : cstring) : (length (skip p l) <= length l)%nat.
Proof. apply span_length. Qed.

Lemma strchr_length c l x after : strchr c l = Some (x :: after) -> (length after < length l)%nat.
Proof.
  unfold strchr. intros H. apply bind_Some in H as (i & Hi & H). injection H as H. apply memchr_some in Hi as [Hi _].
  pose proof (f_equal length H) as Hl. rewrite length_drop in Hl. cbn in Hl. lia.
Qed.

Lemma find_element_ends fuel : forall tag cursor, (length cursor < fuel)%nat -> find_element fuel tag cursor <> None.
Proof.
  induction fuel as [|fuel IH]; intros tag cursor Hf; [lia|]. rewrite find_element_S.
  destruct (strchr ch_lt cursor) as [[|x after]|] eqn:Hc; try done. apply strchr_length in Hc.
  destruct (bool_decide _); [apply IH; lia|].
  pose proof (span_length in_open_name (skip isspace after)) as Hs. pose proof (skip_length isspace after).
  destruct (span in_open_name (skip isspace after)) as [nm rest]. cbn [snd] in Hs.
  destruct (bool_decide (nm = [])); [apply IH; lia|]. destruct (negb (name_is nm tag)); [apply IH; lia|].
  destruct (memchr ch_gt rest) as [i|]; [|done]. cbv zeta.
  destruct (bool_decide _); [apply IH; rewrite length_drop; lia|].
  destruct (find_close _ tag [] (drop (S i) rest)) as [[v|]|] eqn:E; [done|apply IH; rewrite length_drop; lia|].
  exfalso. revert E. apply find_close_ends. lia.
Qed.

Lemma extract_ends alloc xml tag : soap_handler_extract_xml_value_alloc alloc xml tag <> Stuck.
Proof.
  unfold soap_handler_extract_xml_value_alloc.
  destruct (find_element _ tag xml) as [[v|]|] eqn:E; [by destruct (alloc _)|done|]. by apply find_element_ends in E; [|lia].
Qed.

Lemma find_header_ends fuel : forall header cursor, (length cursor < fuel)%nat -> find_header fuel header cursor <> None.
Proof.
  induction fuel as [|fuel IH]; intros header cursor Hf; [lia|]. cbn [find_header]. destruct cursor as [|x cursor]; [done|].
  cbv zeta. destruct (_ =? 0)%nat; [done|]. destruct (_ && _ && _); [done|].
  destruct (strstr_at (x :: cursor) [13; 10]) as [i|] eqn:Hi; [|done]. apply strstr_at_bound in Hi. apply IH.
  rewrite length_drop. cbn [length] in *. lia.
Qed.

(** ** Other elements *)

Lemma element_raw_ok alloc out tag raw : writer_ok out ->
  appends alloc out (2 * size tag + 5 + size raw) (bytes "<" ++ tag ++ bytes ">" ++ raw ++ bytes "</" ++ tag ++ bytes ">")
    (soap_writer_element_raw alloc out tag (Some raw)).
Proof.
  intros Hok. unfold soap_writer_element_raw, soap_writer_open_tag, soap_writer_close_tag.
  pose proof (size_nonneg raw). pose proof (size_nonneg tag). destruct (tag_sizes tag) as [E1 E2].
  replace (bytes "<" ++ tag ++ bytes ">" ++ raw ++ bytes "</" ++ tag ++ bytes ">")
    with ((bytes "<" ++ tag ++ bytes ">") ++ raw ++ bytes "</" ++ tag ++ bytes ">") by by rewrite <- !app_assoc.
  apply (appends_weaken _ _ ((size tag + 2) + (size raw + (size tag + 3)))); [lia|].
  apply and_then_ok; [rewrite <- E1; by apply appendf_ok|lia|lia|]. intros out1 Hok1 _.
  apply and_then_ok; [by apply append_raw_ok|lia|lia|]. intros out2 Hok2 _. rewrite <- E2. by apply appendf_ok.
Qed.

Lemma element_int_ok alloc out tag value : writer_ok out ->
  appends alloc out (2 * size tag + 5 + size (format_ld value)) (bytes "<" ++ tag ++ bytes ">" ++ format_ld value ++ bytes "</" ++ tag ++ bytes ">")
    (soap_writer_element_int alloc out tag value).
Proof. apply element_raw_ok. Qed.
