(* ===== verification/PlayerTypes.v ===== *)
(** * Media, events and snapshots of the player (player/types.c)

    The strings of these structures are owned copies.  A copy that runs out of memory
    leaves its destination as it was; [alloc] tells whether [malloc] gives a size. *)

From S2P Require Import Prelude Buffers CText CoordData.

(* src: source/player/types.h PlayerEventType *)
Inductive PlayerEventType :=
| PLAYER_EVENT_STATE_CHANGED
| PLAYER_EVENT_POSITION_CHANGED
| PLAYER_EVENT_DURATION_CHANGED
| PLAYER_EVENT_VOLUME_CHANGED
| PLAYER_EVENT_MUTE_CHANGED
| PLAYER_EVENT_URI_CHANGED
| PLAYER_EVENT_ERROR.

#[export] Instance event_type_eq_dec : EqDecision PlayerEventType.
Proof. solve_decision. Defined.

(* src: source/player/types.h PlayerMedia *)
Record PlayerMedia := mkMedia { m_uri : option cstring; m_metadata : option cstring }.
Definition media_zero : PlayerMedia := mkMedia None None.

#[export] Instance media_eq_dec : EqDecision PlayerMedia.
Proof. solve_decision. Defined.

(* src: source/player/types.h PlayerEvent *)
Record PlayerEvent := mkEvent {
  ev_type : PlayerEventType;
  ev_state : PlayerState;
  ev_position_ms : Z;
  ev_duration_ms : Z;
  ev_volume : Z;
  ev_mute : bool;
  ev_seekable : bool;
  ev_error_code : Z;
  ev_uri : option cstring
}.
#[export] Instance eta_PlayerEvent : Eta PlayerEvent := fun e =>
  mkEvent (ev_type e) (ev_state e) (ev_position_ms e) (ev_duration_ms e) (ev_volume e) (ev_mute e) (ev_seekable e)
    (ev_error_code e) (ev_uri e).

(* src: source/player/types.h PlayerSnapshot *)
Record PlayerSnapshot := mkPlayerSnapshot {
  has_media : bool;
  media : PlayerMedia;
  p_state : PlayerState;
  p_position_ms : Z;
  p_duration_ms : Z;
  p_volume : Z;
  p_mute : bool;
  p_seekable : bool
}.
#[export] Instance eta_PlayerSnapshot : Eta PlayerSnapshot := fun s =>
  mkPlayerSnapshot (has_media s) (media s) (p_state s) (p_position_ms s) (p_duration_ms s) (p_volume s) (p_mute s)
    (p_seekable s).
Definition player_snapshot_zero : PlayerSnapshot := mkPlayerSnapshot false media_zero PLAYER_STATE_IDLE 0 0 0 false false.

(* src: source/player/types.h PLAYER_DEFAULT_VOLUME *)
Definition PLAYER_DEFAULT_VOLUME : Z := 100.

(* src: source/player/types.c player_uri_is_screen_mirror *)
Definition player_uri_is_screen_mirror (screen_mirror_uri : cstring) (uri : option cstring) : bool :=
  bool_decide (uri = Some screen_mirror_uri).

(* src: source/player/types.c player_media_clear *)
Definition player_media_clear : PlayerMedia := media_zero.

(* src: source/player/types.c player_event_clear *)
Definition player_event_clear : PlayerEvent :=
  mkEvent PLAYER_EVENT_STATE_CHANGED PLAYER_STATE_IDLE 0 0 0 false false 0 None.

(* src: source/player/types.c player_snapshot_clear *)
Definition player_snapshot_clear : PlayerSnapshot := player_snapshot_zero.

Section memory.
Context (alloc : Z -> bool).

(** The outer [None] is a copy that failed. *)
(* src: source/player/types.c player_strdup_or_null *)
Definition player_strdup_or_null (value : option cstring) : option (option cstring) :=
  match value with
  | None => Some None
  | Some v => if alloc (size v + 1) then Some (Some v) else None
  end.

(* src: source/player/types.c player_media_set *)
Definition player_media_set (uri metadata : option cstring) : option PlayerMedia :=
  uri ← player_strdup_or_null uri;
  metadata ← player_strdup_or_null metadata;
  Some (mkMedia uri metadata).

(* src: source/player/types.c player_media_copy *)
Definition player_media_copy (m : option PlayerMedia) : option PlayerMedia :=
  match m with
  | None => Some media_zero
  | Some m =>
      uri ← player_strdup_or_null (m_uri m);
      metadata ← player_strdup_or_null (m_metadata m);
      Some (mkMedia uri metadata)
  end.

(* src: source/player/types.c player_event_copy *)
Definition player_event_copy (e : option PlayerEvent) : option PlayerEvent :=
  match e with
  | None => Some player_event_clear
  | Some e => uri ← player_strdup_or_null (ev_uri e); Some { e with ev_uri := uri }
  end.

(* src: source/player/types.c player_snapshot_copy *)
Definition player_snapshot_copy (s : PlayerSnapshot) : option PlayerSnapshot :=
  if has_media s then m ← player_media_copy (Some (media s)); Some { s with media := m }
  else Some { s with media := media_zero }.
End memory.

(** ** Copies *)

(** A copy is equal to what was copied. *)
Lemma strdup_copy alloc v v' : player_strdup_or_null alloc v = Some v' -> v' = v.
Proof. unfold player_strdup_or_null. destruct v as [v|]; [destruct (alloc _)|]; by intros [= <-]. Qed.

Lemma media_copy_equal alloc m m' : player_media_copy alloc (Some m) = Some m' -> m' = m.
Proof.
  cbn. intros H. apply bind_Some in H as (u & Hu%strdup_copy & H). apply bind_Some in H as (d & Hd%strdup_copy & H).
  injection H as <-. subst. by destruct m.
Qed.

Lemma media_copy_all m : player_media_copy (fun _ => true) (Some m) = Some m.
Proof. destruct m as [[u|] [d|]]; done. Qed.

Lemma snapshot_copy_equal alloc s s' : player_snapshot_copy alloc s = Some s' ->
  s' = { s with media := if has_media s then media s else media_zero }.
Proof.
  unfold player_snapshot_copy. destruct (has_media s); [|by intros [= <-]].
  intros H. apply bind_Some in H as (m & Hm%media_copy_equal & H). injection H as <-. by subst.
Qed.
