(* ===== verification/DlnaState.v ===== *)
(** * UPnP state variables (protocol/dlna/control/protocol_state.c)

    The variables are read from the service templates; the view is the copy of
    26 of them that the actions read.  [alloc] tells whether [malloc] gives a size;
    [template] is the content of a file of the templates. *)

From S2P Require Import Prelude Buffers CText CoordData SoapWriter.

(** ** Data *)

(* src: source/protocol/dlna/control/protocol_state.h DlnaProtocolService *)
Inductive DlnaProtocolService :=
| DLNA_PROTOCOL_SERVICE_AVTRANSPORT
| DLNA_PROTOCOL_SERVICE_RENDERINGCONTROL
| DLNA_PROTOCOL_SERVICE_CONNECTIONMANAGER.

(* src: source/protocol/dlna/control/protocol_state.h DlnaStateDataType *)
Inductive DlnaStateDataType :=
| DLNA_STATE_TYPE_BOOLEAN
| DLNA_STATE_TYPE_I2
| DLNA_STATE_TYPE_UI2
| DLNA_STATE_TYPE_I4
| DLNA_STATE_TYPE_UI4
| DLNA_STATE_TYPE_STRING.

#[export] Instance datatype_eq_dec : EqDecision DlnaStateDataType.
Proof. solve_decision. Defined.

(* src: source/protocol/dlna/control/protocol_state.h DlnaStateVariableView *)
Record DlnaStateVariable := mkVariable {
  name : cstring;
  service : DlnaProtocolService;
  send_events : bool;
  datatype : DlnaStateDataType;
  has_range : bool;
  minimum : Z;
  maximum : Z;
  step : Z;
  allowed_values : list cstring;
  string_value : option cstring;
  int_value : Z;
  bool_value : bool
}.
#[export] Instance eta_DlnaStateVariable : Eta DlnaStateVariable := fun v =>
  mkVariable (name v) (service v) (send_events v) (datatype v) (has_range v) (minimum v) (maximum v) (step v)
    (allowed_values v) (string_value v) (int_value v) (bool_value v).

(* src: source/protocol/dlna/control/protocol_state.h DlnaProtocolStateView *)
Record DlnaProtocolStateView := mkView {
  transport_state : cstring;
  transport_status : cstring;
  transport_play_speed : cstring;
  current_play_mode : cstring;
  av_transport_uri : cstring;
  av_transport_uri_metadata : cstring;
  next_av_transport_uri : cstring;
  next_av_transport_uri_metadata : cstring;
  current_track_uri : cstring;
  current_track_metadata : cstring;
  current_track_title : cstring;
  current_media_duration : cstring;
  current_track_duration : cstring;
  relative_time_position : cstring;
  absolute_time_position : cstring;
  current_track : Z;
  number_of_tracks : Z;
  relative_counter_position : Z;
  absolute_counter_position : Z;
  volume : Z;
  mute : bool;
  a_arg_type_direction : cstring;
  playback_storage_medium : cstring;
  source_protocol_info : cstring;
  sink_protocol_info : cstring;
  current_connection_ids : cstring
}.

(* src: source/protocol/dlna/control/protocol_state.c reset_state_view_defaults *)
Definition reset_state_view_defaults : DlnaProtocolStateView :=
  mkView [] [] [] [] [] [] [] [] [] [] [] [] [] [] [] 0 0 0 0 0 false [] [] [] [] [].

(** A bound variable is the position of its item; the items do not move any more. *)
(* src: source/protocol/dlna/control/protocol_state.c DlnaProtocolStateRefs *)
Record DlnaProtocolStateRefs := mkRefs {
  r_transport_state : option nat;
  r_transport_status : option nat;
  r_transport_play_speed : option nat;
  r_current_play_mode : option nat;
  r_av_transport_uri : option nat;
  r_av_transport_uri_metadata : option nat;
  r_next_av_transport_uri : option nat;
  r_next_av_transport_uri_metadata : option nat;
  r_current_track_uri : option nat;
  r_current_track_metadata : option nat;
  r_current_track_title : option nat;
  r_current_media_duration : option nat;
  r_current_track_duration : option nat;
  r_relative_time_position : option nat;
  r_absolute_time_position : option nat;
  r_current_track : option nat;
  r_number_of_tracks : option nat;
  r_relative_counter_position : option nat;
  r_absolute_counter_position : option nat;
  r_volume : option nat;
  r_mute : option nat;
  r_a_arg_type_direction : option nat;
  r_playback_storage_medium : option nat;
  r_source_protocol_info : option nat;
  r_sink_protocol_info : option nat;
  r_current_connection_ids : option nat
}.
Definition refs_zero : DlnaProtocolStateRefs :=
  mkRefs None None None None None None None None None None None None None None None None None None None None None
    None None None None None.

(** [g_state_store], [g_refs], [g_state_view] and [g_state_initialized]. *)
(* src: source/protocol/dlna/control/protocol_state.c 47-102 DlnaProtocolStateStore *)
Record DlnaState := mkState {
  items : list DlnaStateVariable;
  capacity : Z;
  refs : DlnaProtocolStateRefs;
  view : DlnaProtocolStateView;
  initialized : bool
}.
#[export] Instance eta_DlnaState : Eta DlnaState := fun s =>
  mkState (items s) (capacity s) (refs s) (view s) (initialized s).

(* src: source/protocol/dlna/control/protocol_state.c clear_state_store *)
Definition clear_state_store : DlnaState := mkState [] 0 refs_zero reset_state_view_defaults false.

(** ** Reading text *)

(* src: source/protocol/dlna/control/protocol_state.c trim_in_place *)
Definition trim_in_place (value : cstring) : cstring :=
  trim (fun c => (c =? 32) || (c =? 9) || (c =? 13) || (c =? 10)) value.

Definition strcmp_equal (left right : cstring) : bool := bool_decide (left = right).

(* src: source/protocol/dlna/control/protocol_state.c parse_datatype *)
Definition parse_datatype (value : cstring) : DlnaStateDataType :=
  if strcmp_equal value (bytes "boolean") then DLNA_STATE_TYPE_BOOLEAN
  else if strcmp_equal value (bytes "i2") then DLNA_STATE_TYPE_I2
  else if strcmp_equal value (bytes "ui2") then DLNA_STATE_TYPE_UI2
  else if strcmp_equal value (bytes "i4") then DLNA_STATE_TYPE_I4
  else if strcmp_equal value (bytes "ui4") then DLNA_STATE_TYPE_UI4
  else DLNA_STATE_TYPE_STRING.

(* src: source/protocol/dlna/control/protocol_state.c parse_boolean_value *)
Definition parse_boolean_value (value : option cstring) : bool :=
  match value with
  | None => false
  | Some v => strcmp_equal v (bytes "1") || strcasecmp_equal v (bytes "true") || strcasecmp_equal v (bytes "yes")
  end.

Definition LONG_MAX : Z := 9223372036854775807.

(** The digits of [strtol], which stays at the end of the range of [long]. *)
Fixpoint strtol_digits (digits : list Z) (value : Z) : Z :=
  match digits with
  | c :: digits' => if isdigit c then strtol_digits digits' (value * 10 + (c - 48)) else value
  | [] => value
  end.

(** [strtol(text, NULL, 10)] *)
Definition strtol (text : cstring) : Z :=
  let text := skip isspace text in
  match text with
  | 45 :: rest => Z.max (- LONG_MAX - 1) (- strtol_digits rest 0)
  | 43 :: rest => Z.min LONG_MAX (strtol_digits rest 0)
  | _ => Z.min LONG_MAX (strtol_digits text 0)
  end.

(* src: source/protocol/dlna/control/protocol_state.c parse_int_value *)
Definition parse_int_value (value : option cstring) : Z :=
  match value with None | Some [] => 0 | Some v => i32 (strtol v) end.

Section memory.
Context (alloc : Z -> bool) (template : cstring -> option cstring).

(* src: source/protocol/dlna/control/protocol_state.c dup_range *)
Definition dup_range (text : cstring) : option cstring := if alloc (size text + 1) then Some text else None.

(** [scope] is the text from [scope_start] on, to the end of the string; [len] is where
    [scope_end] is. *)
(* src: source/protocol/dlna/control/protocol_state.c extract_tag_text_dup *)
Definition extract_tag_text_dup (scope : cstring) (len : nat) (tag : cstring) : option cstring :=
  let open_tag := bytes "<" ++ tag ++ bytes ">" in
  let close_tag := bytes "</" ++ tag ++ bytes ">" in
  if negb (alloc (size open_tag + 1) && alloc (size close_tag + 1)) then None
  else
    i ← strstr_at scope open_tag;
    if (len <=? i)%nat then None
    else
      let start := (i + length open_tag)%nat in
      j ← strstr_at (drop start scope) close_tag;
      if (len <? start + j)%nat then None
      else trim_in_place <$> dup_range (take j (drop start scope)).

Definition sendEvents_attribute : cstring := bytes "sendEvents=" ++ [34].

(** [text] starts at the tag, which ends at [tag_end]. *)
(* src: source/protocol/dlna/control/protocol_state.c extract_send_events_value *)
Definition extract_send_events_value (text : cstring) (tag_end : nat) : option bool :=
  match strstr_at text sendEvents_attribute with
  | None => Some false
  | Some attr =>
      if (tag_end <=? attr)%nat then Some false
      else
        let value_start := (attr + length sendEvents_attribute)%nat in
        n ← memchr 34 (drop value_start text);
        if (tag_end <? value_start + n)%nat then None
        else Some ((n =? 3)%nat && has_prefix_nocase (drop value_start text) (bytes "yes"))
  end.

(** ** The store *)

Definition sizeof_variable : Z := 80.
(* src: source/protocol/dlna/control/protocol_state.c DLNA_PROTOCOL_STATE_INITIAL_CAPACITY *)
Definition DLNA_PROTOCOL_STATE_INITIAL_CAPACITY : Z := 48.

(** The outer [None] is a loop that does not end. *)
(* src: source/protocol/dlna/control/protocol_state.c ensure_state_capacity *)
Definition ensure_state_capacity (s : DlnaState) (wanted : Z) : option (option DlnaState) :=
  if wanted <=? capacity s then Some (Some s)
  else
    match nxcast_size_grow (capacity s) wanted DLNA_PROTOCOL_STATE_INITIAL_CAPACITY (SIZE_MAX / sizeof_variable) with
    | None => None
    | Some None => Some None
    | Some (Some next_capacity) =>
        Some (match nxcast_size_multiply next_capacity sizeof_variable with
              | Some allocation_size => if alloc allocation_size then Some { s with capacity := next_capacity } else None
              | None => None
              end)
    end.

(** The position of the first variable of the name. *)
(* src: source/protocol/dlna/control/protocol_state.c find_state_variable_mutable *)
Fixpoint find_state_variable (vars : list DlnaStateVariable) (wanted : cstring) : option nat :=
  match vars with
  | [] => None
  | v :: vars' => if strcmp_equal (name v) wanted then Some 0%nat else S <$> find_state_variable vars' wanted
  end.

(* src: source/protocol/dlna/control/protocol_state.c set_state_string_value *)
Definition set_state_string_value (v : DlnaStateVariable) (value : option cstring) : option DlnaStateVariable :=
  if negb (bool_decide (datatype v = DLNA_STATE_TYPE_STRING)) then None
  else if alloc (size (default [] value) + 1) then Some { v with string_value := Some (default [] value) } else None.

(* src: source/protocol/dlna/control/protocol_state.c set_state_int_value *)
Definition set_state_int_value (value : Z) (v : DlnaStateVariable) : DlnaStateVariable :=
  { v with int_value := value; bool_value := negb (value =? 0) }.

(* src: source/protocol/dlna/control/protocol_state.c set_state_bool_value *)
Definition set_state_bool_value (value : bool) (v : DlnaStateVariable) : DlnaStateVariable :=
  { v with bool_value := value; int_value := if value then 1 else 0 }.

(* src: source/protocol/dlna/control/protocol_state.c string_or_empty *)
Definition string_or_empty (v : option DlnaStateVariable) : cstring :=
  match v with
  | None => []
  | Some v => if bool_decide (datatype v = DLNA_STATE_TYPE_STRING) then default [] (string_value v) else []
  end.

(* src: source/protocol/dlna/control/protocol_state.c int_or_zero *)
Definition int_or_zero (v : option DlnaStateVariable) : Z := match v with None => 0 | Some v => int_value v end.

(* src: source/protocol/dlna/control/protocol_state.c bool_or_false *)
Definition bool_or_false (v : option DlnaStateVariable) : bool := match v with None => false | Some v => bool_value v end.

(* src: source/protocol/dlna/control/protocol_state.c refresh_state_view *)
Definition state_view_of (r : DlnaProtocolStateRefs) (vars : list DlnaStateVariable) : DlnaProtocolStateView :=
  let at_ref (i : option nat) := i ≫= fun n => vars !! n in
  let str i := string_or_empty (at_ref i) in
  let int i := int_or_zero (at_ref i) in
  mkView (str (r_transport_state r)) (str (r_transport_status r)) (str (r_transport_play_speed r))
    (str (r_current_play_mode r)) (str (r_av_transport_uri r)) (str (r_av_transport_uri_metadata r))
    (str (r_next_av_transport_uri r)) (str (r_next_av_transport_uri_metadata r))
    (str (r_current_track_uri r)) (str (r_current_track_metadata r)) (str (r_current_track_title r))
    (str (r_current_media_duration r)) (str (r_current_track_duration r))
    (str (r_relative_time_position r)) (str (r_absolute_time_position r))
    (int (r_current_track r)) (int (r_number_of_tracks r))
    (int (r_relative_counter_position r)) (int (r_absolute_counter_position r))
    (int (r_volume r)) (bool_or_false (at_ref (r_mute r)))
    (str (r_a_arg_type_direction r)) (str (r_playback_storage_medium r))
    (str (r_source_protocol_info r)) (str (r_sink_protocol_info r)) (str (r_current_connection_ids r)).

(* src: source/protocol/dlna/control/protocol_state.c refresh_state_view *)
Definition refresh_state_view (s : DlnaState) : DlnaState := { s with view := state_view_of (refs s) (items s) }.

(** ** Loading *)

(** The values of the list, and the variable they are added to; [None] when memory
    runs out. *)
(* src: source/protocol/dlna/control/protocol_state.c 562-599 add_state_variable *)
Fixpoint add_allowed_values (fuel : nat) (block : cstring) (default_value : option cstring) (v : DlnaStateVariable)
    : option DlnaStateVariable :=
  match fuel with
  | O => None
  | S fuel' =>
      match strstr_at block (bytes "<allowedValue>") with
      | None => Some v
      | Some i =>
          let value_start := drop (i + length (bytes "<allowedValue>")) block in
          match strstr_at value_start (bytes "</allowedValue>") with
          | None => Some v
          | Some j =>
              allowed_value ← trim_in_place <$> dup_range (take j value_start);
              if negb (alloc (size allowed_value + 1) && alloc ((size (allowed_values v) + 1) * 8)) then None
              else
                let v := { v with allowed_values ::= (fun l => l ++ [allowed_value]) } in
                v ← (if bool_decide (datatype v = DLNA_STATE_TYPE_STRING) && bool_decide (default [] default_value = []) &&
                        strcmp_equal allowed_value (bytes "NOT_IMPLEMENTED")
                     then set_state_string_value v (Some allowed_value) else Some v);
                add_allowed_values fuel' (drop (j + length (bytes "</allowedValue>")) value_start) default_value v
          end
      end
  end.

(* src: source/protocol/dlna/control/protocol_state.c 601-619 add_state_variable *)
Definition set_default_value (default_value : option cstring) (v : DlnaStateVariable) : option DlnaStateVariable :=
  match datatype v with
  | DLNA_STATE_TYPE_BOOLEAN => Some (set_state_bool_value (parse_boolean_value default_value) v)
  | DLNA_STATE_TYPE_I2 | DLNA_STATE_TYPE_UI2 | DLNA_STATE_TYPE_I4 | DLNA_STATE_TYPE_UI4 =>
      Some (set_state_int_value (parse_int_value default_value) v)
  | DLNA_STATE_TYPE_STRING =>
      match string_value v with
      | Some _ => Some v
      | None => set_state_string_value v (Some (default [] default_value))
      end
  end.

(** [v] holds the name, the flags and the range; its values are still empty. *)
(* src: source/protocol/dlna/control/protocol_state.c add_state_variable *)
Definition add_state_variable (s : DlnaState) (v : DlnaStateVariable) (default_value allowed_block : option cstring)
    : option DlnaState :=
  if bool_decide (name v = []) then None
  else
    match find_state_variable (items s) (name v) with
    | Some _ => Some s
    | None =>
        required_capacity ← nxcast_size_add (size (items s)) 1;
        s ← mjoin (ensure_state_capacity s required_capacity);
        if negb (alloc (size (name v) + 1)) then None
        else
          v ← match allowed_block with
              | None => Some v
              | Some block => add_allowed_values (S (length block)) block default_value v
              end;
          v ← set_default_value default_value v;
          Some { s with items ::= (fun l => l ++ [v]) }
    end.

(** The block of a list of values, copied with its tags. *)
(* src: source/protocol/dlna/control/protocol_state.c 647-653 parse_state_variable_block *)
Definition find_allowed_block (scope : cstring) (len : nat) : option cstring :=
  i ← strstr_at scope (bytes "<allowedValueList>");
  if (len <=? i)%nat then None
  else
    j ← strstr_at (drop i scope) (bytes "</allowedValueList>");
    if (len <? i + j)%nat then None
    else dup_range (take (j + length (bytes "</allowedValueList>")) (drop i scope)).

(** Whether there is a range, and its bounds and step. *)
(* src: source/protocol/dlna/control/protocol_state.c 655-667 parse_state_variable_block *)
Definition find_range (scope : cstring) (len : nat) : bool * (option cstring * option cstring * option cstring) :=
  match strstr_at scope (bytes "<allowedValueRange>") with
  | None => (false, (None, None, None))
  | Some i =>
      if (len <=? i)%nat then (false, (None, None, None))
      else
        let block := drop i scope in
        match strstr_at block (bytes "</allowedValueRange>") with
        | None => (false, (None, None, None))
        | Some j =>
            if (len <? i + j)%nat then (false, (None, None, None))
            else
              let low := extract_tag_text_dup block j (bytes "minimum") in
              let high := match low with None => None | Some _ => extract_tag_text_dup block j (bytes "maximum") end in
              let stride := extract_tag_text_dup block j (bytes "step") in
              (bool_decide (is_Some low) && bool_decide (is_Some high), (low, high, stride))
        end
  end.

(** [text] starts at the block's tag, which ends at [tag_end]; the block ends at
    [block_end]. *)
(* src: source/protocol/dlna/control/protocol_state.c parse_state_variable_block *)
Definition parse_state_variable_block (s : DlnaState) (text : cstring) (block_end tag_end : nat)
    (svc : DlnaProtocolService) : option DlnaState :=
  events ← extract_send_events_value text tag_end;
  let scope := drop tag_end text in
  let len := (block_end - tag_end)%nat in
  n ← extract_tag_text_dup scope len (bytes "name");
  dt ← extract_tag_text_dup scope len (bytes "dataType");
  let default_value := extract_tag_text_dup scope len (bytes "defaultValue") in
  let allowed_block := find_allowed_block scope len in
  let '(ranged, (low, high, stride)) := find_range scope len in
  add_state_variable s
    (mkVariable n svc events (parse_datatype dt) ranged (parse_int_value low) (parse_int_value high)
       (parse_int_value stride) [] None 0 false)
    default_value allowed_block.

(* src: source/protocol/dlna/control/protocol_state.c 704-730 load_service_state_variables *)
Fixpoint load_blocks (fuel : nat) (s : DlnaState) (xml : cstring) (svc : DlnaProtocolService) : option DlnaState :=
  match fuel with
  | O => None
  | S fuel' =>
      match strstr_at xml (bytes "<stateVariable") with
      | None => Some s
      | Some i =>
          let cursor := drop i xml in
          tag_end ← memchr 62 cursor;
          j ← strstr_at (drop tag_end cursor) (bytes "</stateVariable>");
          let block_end := (tag_end + j)%nat in
          s ← parse_state_variable_block s cursor block_end tag_end svc;
          load_blocks fuel' s (drop (block_end + length (bytes "</stateVariable>")) cursor) svc
      end
  end.

(* src: source/protocol/dlna/control/protocol_state.c load_service_state_variables *)
Definition load_service_state_variables (s : DlnaState) (template_path : cstring) (svc : DlnaProtocolService)
    : option DlnaState :=
  xml ← template template_path;
  load_blocks (S (length xml)) s xml svc.
End memory.
