(* ===== verification/DlnaView.v ===== *)
(** * The UPnP state of the renderer (protocol/dlna/control/protocol_state.c)

    What the actions and the events of the player make of the state variables. *)

From S2P Require Import Prelude Buffers CText CoordData PlayerTypes SeekTarget SoapWriter DlnaState.

(* src: source/protocol/dlna/control/protocol_state.c DLNA_COUNTER_UNKNOWN *)
Definition DLNA_COUNTER_UNKNOWN : Z := 2147483647.

(* src: source/protocol/dlna/control/protocol_state.c should_apply_transport_state_from_renderer *)
Definition should_apply_transport_state_from_renderer (st : PlayerState) : bool :=
  match st with
  | PLAYER_STATE_PLAYING | PLAYER_STATE_PAUSED | PLAYER_STATE_STOPPED | PLAYER_STATE_IDLE | PLAYER_STATE_ERROR => true
  | PLAYER_STATE_LOADING | PLAYER_STATE_BUFFERING | PLAYER_STATE_SEEKING => false
  end.

(* src: source/protocol/dlna/control/protocol_state.c dlna_protocol_transport_state_from_renderer_state *)
Definition dlna_protocol_transport_state_from_renderer_state (st : PlayerState) : cstring :=
  match st with
  | PLAYER_STATE_PLAYING => bytes "PLAYING"
  | PLAYER_STATE_PAUSED => bytes "PAUSED_PLAYBACK"
  | PLAYER_STATE_LOADING | PLAYER_STATE_BUFFERING | PLAYER_STATE_SEEKING => bytes "TRANSITIONING"
  | PLAYER_STATE_IDLE | PLAYER_STATE_STOPPED => bytes "STOPPED"
  | PLAYER_STATE_ERROR => bytes "STOPPED"
  end.

(* src: source/protocol/dlna/control/protocol_state.c dlna_protocol_transport_status_from_renderer_state *)
Definition dlna_protocol_transport_status_from_renderer_state (st : PlayerState) : cstring :=
  if bool_decide (st = PLAYER_STATE_ERROR) then bytes "ERROR_OCCURRED" else bytes "OK".

(* src: source/protocol/dlna/control/protocol_state.c bind_state_refs *)
Definition state_refs_of (vars : list DlnaStateVariable) : DlnaProtocolStateRefs :=
  let find n := find_state_variable vars (bytes n) in
    mkRefs (find "TransportState"%string) (find "TransportStatus"%string) (find "TransportPlaySpeed"%string)
      (find "CurrentPlayMode"%string) (find "AVTransportURI"%string) (find "AVTransportURIMetaData"%string)
      (find "NextAVTransportURI"%string) (find "NextAVTransportURIMetaData"%string)
      (find "CurrentTrackURI"%string) (find "CurrentTrackMetaData"%string) (find "CurrentTrackTitle"%string)
      (find "CurrentMediaDuration"%string) (find "CurrentTrackDuration"%string)
      (find "RelativeTimePosition"%string) (find "AbsoluteTimePosition"%string)
      (find "CurrentTrack"%string) (find "NumberOfTracks"%string)
      (find "RelativeCounterPosition"%string) (find "AbsoluteCounterPosition"%string)
      (find "Volume"%string) (find "Mute"%string)
      (find "A_ARG_TYPE_Direction"%string) (find "PlaybackStorageMedium"%string)
      (find "SourceProtocolInfo"%string) (find "SinkProtocolInfo"%string) (find "CurrentConnectionIDs"%string).
(* src: source/protocol/dlna/control/protocol_state.c bind_state_refs *)
Definition bind_state_refs (s : DlnaState) : DlnaState := { s with refs := state_refs_of (items s) }.

(** The scan for an element [title], whatever its prefix. *)
Definition in_title_name (c : Z) : bool := negb (c =? 62) && negb (c =? 32) && negb (c =? 9) && negb (c =? 47).

Section memory.
Context (alloc : Z -> bool) (template : cstring -> option cstring).

(** ** Setting a variable *)

(* src: source/protocol/dlna/control/protocol_state.c set_state_string_by_name *)
Definition set_state_string_by_name (n : cstring) (value : option cstring) (s : DlnaState) : bool * DlnaState :=
  match find_state_variable (items s) n with
  | None => (false, s)
  | Some i =>
      match items s !! i ≫= fun v => set_state_string_value alloc v value with
      | None => (false, s)
      | Some v => (true, refresh_state_view { s with items ::= <[i := v]> })
      end
  end.

(* src: source/protocol/dlna/control/protocol_state.c set_state_int_by_name *)
Definition set_state_int_by_name (n : cstring) (value : Z) (s : DlnaState) : DlnaState :=
  match find_state_variable (items s) n with
  | None => s
  | Some i => refresh_state_view { s with items ::= alter (set_state_int_value value) i }
  end.

(* src: source/protocol/dlna/control/protocol_state.c set_state_bool_by_name *)
Definition set_state_bool_by_name (n : cstring) (value : bool) (s : DlnaState) : DlnaState :=
  match find_state_variable (items s) n with
  | None => s
  | Some i => refresh_state_view { s with items ::= alter (set_state_bool_value value) i }
  end.

(** A call whose result is not used. *)
Definition set_string (n : string) (value : option cstring) (s : DlnaState) : DlnaState :=
  (set_state_string_by_name (bytes n) value s).2.

(** ** Start *)

(* src: source/protocol/dlna/control/protocol_state.c 14-42 DLNA_FALLBACK_SINK_PROTOCOL_INFO *)
Definition DLNA_FALLBACK_SINK_PROTOCOL_INFO : cstring := bytes
  "http-get:*:audio/mpeg:*,http-get:*:audio/mp4:*,http-get:*:audio/x-m4a:*,http-get:*:audio/aac:*,http-get:*:audio/flac:*,http-get:*:audio/x-flac:*,http-get:*:audio/wav:*,http-get:*:audio/x-wav:*,http-get:*:audio/ogg:*,http-get:*:audio/vnd.dlna.adts:*,http-get:*:audio/x-mpegurl:*,http-get:*:audio/mpegurl:*,http-get:*:video/mp4:*,http-get:*:video/x-m4v:*,http-get:*:video/mpeg:*,http-get:*:video/mp2t:*,http-get:*:video/quicktime:*,http-get:*:video/webm:*,http-get:*:video/x-matroska:*,http-get:*:video/x-msvideo:*,http-get:*:video/vnd.dlna.mpeg-tts:*,http-get:*:video/m3u8:*,http-get:*:video/flv:*,http-get:*:video/x-flv:*,http-get:*:application/vnd.apple.mpegurl:*,http-get:*:application/x-mpegURL:*".

(* src: source/protocol/dlna/control/protocol_state.c load_sink_protocol_info_csv *)
Definition load_sink_protocol_info_csv : option cstring :=
  match template (bytes "SinkProtocolInfo.csv") with
  | None => if alloc (size DLNA_FALLBACK_SINK_PROTOCOL_INFO + 1) then Some DLNA_FALLBACK_SINK_PROTOCOL_INFO else None
  | Some csv => Some (trim_in_place csv)
  end.

(** The calls up to the first that fails. *)
Fixpoint set_strings (values : list (string * cstring)) (s : DlnaState) : bool * DlnaState :=
  match values with
  | [] => (true, s)
  | (n, value) :: values' =>
      let '(ok, s) := set_state_string_by_name (bytes n) (Some value) s in
      if ok then set_strings values' s else (false, s)
  end.

(* src: source/protocol/dlna/control/protocol_state.c apply_macast_defaults *)
Definition apply_macast_defaults (s : DlnaState) : option DlnaState :=
  sink_protocol_info ← load_sink_protocol_info_csv;
  let '(ok, s) := set_strings
    [("CurrentPlayMode"%string, bytes "NORMAL");
     ("TransportPlaySpeed"%string, bytes "1");
     ("TransportStatus"%string, bytes "OK");
     ("TransportState"%string, bytes "STOPPED");
     ("CurrentMediaDuration"%string, bytes "00:00:00");
     ("CurrentTrackDuration"%string, bytes "00:00:00");
     ("RelativeTimePosition"%string, bytes "00:00:00");
     ("AbsoluteTimePosition"%string, bytes "00:00:00");
     ("A_ARG_TYPE_Direction"%string, bytes "Output");
     ("CurrentConnectionIDs"%string, bytes "0");
     ("PlaybackStorageMedium"%string, bytes "NONE");
     ("SourceProtocolInfo"%string, []);
     ("SinkProtocolInfo"%string, sink_protocol_info)] s in
  if negb ok then None
  else
    let s := set_state_int_by_name (bytes "RelativeCounterPosition") DLNA_COUNTER_UNKNOWN s in
    let s := set_state_int_by_name (bytes "AbsoluteCounterPosition") DLNA_COUNTER_UNKNOWN s in
    let s := set_state_int_by_name (bytes "CurrentTrack") 0 s in
    let s := set_state_int_by_name (bytes "NumberOfTracks") 0 s in
    let s := set_state_int_by_name (bytes "Volume") PLAYER_DEFAULT_VOLUME s in
    Some (set_state_bool_by_name (bytes "Mute") false s).

Definition service_templates : list (cstring * DlnaProtocolService) :=
  [(bytes "AVTransport.xml", DLNA_PROTOCOL_SERVICE_AVTRANSPORT);
   (bytes "RenderingControl.xml", DLNA_PROTOCOL_SERVICE_RENDERINGCONTROL);
   (bytes "ConnectionManager.xml", DLNA_PROTOCOL_SERVICE_CONNECTIONMANAGER)].

Fixpoint load_templates (l : list (cstring * DlnaProtocolService)) (s : DlnaState) : option DlnaState :=
  match l with
  | [] => Some s
  | (path, svc) :: l' => s ← load_service_state_variables alloc template s path svc; load_templates l' s
  end.

(* src: source/protocol/dlna/control/protocol_state.c dlna_protocol_state_init *)
Definition dlna_protocol_state_init : DlnaState :=
  match load_templates service_templates clear_state_store with
  | None => clear_state_store
  | Some s =>
      match apply_macast_defaults (bind_state_refs s) with
      | None => clear_state_store
      | Some s => { refresh_state_view s with initialized := true }
      end
  end.

(* src: source/protocol/dlna/control/protocol_state.c dlna_protocol_state_reset *)
Definition dlna_protocol_state_reset : DlnaState := clear_state_store.

(* src: source/protocol/dlna/control/protocol_state.c dlna_protocol_state_find_variable *)
Definition dlna_protocol_state_find_variable (s : DlnaState) (n : cstring) : option DlnaStateVariable :=
  find_state_variable (items s) n ≫= fun i => items s !! i.

(** ** Titles and times *)

(* src: source/protocol/dlna/control/protocol_state.c 847-901 protocol_extract_title_alloc *)
Fixpoint find_title (fuel : nat) (cursor : cstring) : option (option cstring) :=
  match fuel with
  | O => None
  | S fuel' =>
      match strchr 60 cursor with
      | Some (_ :: after) =>
          if bool_decide (head after = Some 47 \/ head after = Some 63 \/ head after = Some 33) then find_title fuel' after
          else
            let '(nm, name_end) := span in_title_name after in
            if bool_decide (nm = []) then find_title fuel' after
            else
              let local := match memchr 58 nm with Some i => drop (S i) nm | None => nm end in
              if negb ((length local =? 5)%nat && has_prefix_nocase local (bytes "title")) then find_title fuel' after
              else
                Some (i ← memchr 62 name_end;
                      let value := drop (S i) name_end in
                      n ← strstr_at value (bytes "</");
                      if (n =? 0)%nat then None
                      else if alloc (Z.of_nat n + 1) then Some (take n value) else None)
      | _ => Some None
      end
  end.

(** The inner [None] is NULL. *)
(* src: source/protocol/dlna/control/protocol_state.c protocol_extract_title_alloc *)
Definition protocol_extract_title_alloc (metadata : option cstring) : option cstring :=
  match metadata with None => None | Some m => mjoin (find_title (S (length m)) m) end.

(* src: source/protocol/dlna/control/protocol_state.c dlna_protocol_format_hhmmss_alloc *)
Definition dlna_protocol_format_hhmmss_alloc (value_ms : Z) : option cstring :=
  let value_ms := if value_ms <? 0 then 0 else value_ms in
  let total_seconds := Z.quot value_ms 1000 in
  let hour := Z.quot total_seconds 3600 in
  let minute := Z.quot (Z.rem total_seconds 3600) 60 in
  let second := Z.rem total_seconds 60 in
  let text := format_02d hour ++ 58 :: format_02d minute ++ 58 :: format_02d second in
  if alloc (size text + 1) then Some text else None.

(** ** What the actions change *)

Definition non_empty (value : option cstring) : bool := negb (bool_decide (default [] value = [])).

(* src: source/protocol/dlna/control/protocol_state.c dlna_protocol_state_apply_set_uri *)
Definition dlna_protocol_state_apply_set_uri (uri metadata : option cstring) (s : DlnaState) : DlnaState :=
  if negb (initialized s) then s
  else
    let s := set_string "AVTransportURI" uri s in
    let s := set_string "AVTransportURIMetaData" metadata s in
    let s := set_string "CurrentTrackURI" uri s in
    let s := set_string "CurrentTrackMetaData" metadata s in
    let s := set_string "PlaybackStorageMedium" (Some (if non_empty uri then bytes "NETWORK" else bytes "NONE")) s in
    let s := set_string "CurrentTrackTitle" (Some (default [] (protocol_extract_title_alloc metadata))) s in
    let s := set_state_int_by_name (bytes "CurrentTrack") (if non_empty uri then 1 else 0) s in
    let s := set_state_int_by_name (bytes "NumberOfTracks") (if non_empty uri then 1 else 0) s in
    let s := set_string "RelativeTimePosition" (Some (bytes "00:00:00")) s in
    let s := set_string "AbsoluteTimePosition" (Some (bytes "00:00:00")) s in
    let s := set_string "TransportState" (Some (bytes "PAUSED_PLAYBACK")) s in
    set_string "TransportStatus" (Some (bytes "OK")) s.

(* src: source/protocol/dlna/control/protocol_state.c dlna_protocol_state_apply_play *)
Definition dlna_protocol_state_apply_play (s : DlnaState) : DlnaState :=
  if negb (initialized s) then s
  else set_string "TransportStatus" (Some (bytes "OK")) (set_string "TransportState" (Some (bytes "PLAYING")) s).

(* src: source/protocol/dlna/control/protocol_state.c dlna_protocol_state_apply_pause *)
Definition dlna_protocol_state_apply_pause (s : DlnaState) : DlnaState :=
  if negb (initialized s) then s
  else set_string "TransportStatus" (Some (bytes "OK")) (set_string "TransportState" (Some (bytes "PAUSED_PLAYBACK")) s).

(* src: source/protocol/dlna/control/protocol_state.c dlna_protocol_state_apply_stop *)
Definition dlna_protocol_state_apply_stop (s : DlnaState) : DlnaState :=
  if negb (initialized s) then s
  else set_string "TransportStatus" (Some (bytes "OK")) (set_string "TransportState" (Some (bytes "STOPPED")) s).

(* src: source/protocol/dlna/control/protocol_state.c dlna_protocol_state_apply_seek_target *)
Definition dlna_protocol_state_apply_seek_target (target : option cstring) (s : DlnaState) : DlnaState :=
  if negb (initialized s) then s
  else
    let target := Some (default (bytes "00:00:00") target) in
    set_string "AbsoluteTimePosition" target (set_string "RelativeTimePosition" target s).

Definition if_initialized (f : DlnaState -> DlnaState) (s : DlnaState) : DlnaState := if initialized s then f s else s.

(* src: source/protocol/dlna/control/protocol_state.c dlna_protocol_state_set_transport_status *)
Definition dlna_protocol_state_set_transport_status (status : option cstring) : DlnaState -> DlnaState :=
  if_initialized (set_string "TransportStatus" status).
(* src: source/protocol/dlna/control/protocol_state.c dlna_protocol_state_set_transport_speed *)
Definition dlna_protocol_state_set_transport_speed (speed : option cstring) : DlnaState -> DlnaState :=
  if_initialized (set_string "TransportPlaySpeed" speed).
(* src: source/protocol/dlna/control/protocol_state.c dlna_protocol_state_set_current_play_mode *)
Definition dlna_protocol_state_set_current_play_mode (play_mode : option cstring) : DlnaState -> DlnaState :=
  if_initialized (set_string "CurrentPlayMode" play_mode).
(* src: source/protocol/dlna/control/protocol_state.c dlna_protocol_state_set_source_protocol_info *)
Definition dlna_protocol_state_set_source_protocol_info (value : option cstring) : DlnaState -> DlnaState :=
  if_initialized (set_string "SourceProtocolInfo" value).
(* src: source/protocol/dlna/control/protocol_state.c dlna_protocol_state_set_sink_protocol_info *)
Definition dlna_protocol_state_set_sink_protocol_info (value : option cstring) : DlnaState -> DlnaState :=
  if_initialized (set_string "SinkProtocolInfo" value).
(* src: source/protocol/dlna/control/protocol_state.c dlna_protocol_state_set_connection_ids *)
Definition dlna_protocol_state_set_connection_ids (value : option cstring) : DlnaState -> DlnaState :=
  if_initialized (set_string "CurrentConnectionIDs" value).

(* src: source/protocol/dlna/control/protocol_state.c dlna_protocol_state_set_transport_timing *)
Definition dlna_protocol_state_set_transport_timing (duration_ms position_ms : Z) (s : DlnaState) : DlnaState :=
  if negb (initialized s) then s
  else
    match dlna_protocol_format_hhmmss_alloc duration_ms, dlna_protocol_format_hhmmss_alloc position_ms with
    | Some duration, Some position =>
        let s := set_string "CurrentMediaDuration" (Some duration) s in
        let s := set_string "CurrentTrackDuration" (Some duration) s in
        let s := set_string "RelativeTimePosition" (Some position) s in
        set_string "AbsoluteTimePosition" (Some position) s
    | _, _ => s
    end.

Definition apply_renderer_state (st : PlayerState) (s : DlnaState) : DlnaState :=
  if should_apply_transport_state_from_renderer st then
    let s := set_string "TransportState" (Some (dlna_protocol_transport_state_from_renderer_state st)) s in
    set_string "TransportStatus" (Some (dlna_protocol_transport_status_from_renderer_state st)) s
  else s.

(** [snapshot] is what [renderer_get_snapshot] gave. *)
(* src: source/protocol/dlna/control/protocol_state.c dlna_protocol_state_sync_from_renderer *)
Definition dlna_protocol_state_sync_from_renderer (snapshot : option PlayerSnapshot) (s : DlnaState) : DlnaState :=
  if negb (initialized s) then s
  else
    match snapshot with
    | None => s
    | Some snapshot =>
        let s := dlna_protocol_state_set_transport_timing (p_duration_ms snapshot) (p_position_ms snapshot) s in
        let s := set_state_int_by_name (bytes "Volume") (p_volume snapshot) s in
        let s := set_state_bool_by_name (bytes "Mute") (p_mute snapshot) s in
        if negb (has_media snapshot) then s else apply_renderer_state (p_state snapshot) s
    end.

(* src: source/protocol/dlna/control/protocol_state.c dlna_protocol_state_on_renderer_event *)
Definition dlna_protocol_state_on_renderer_event (event : PlayerEvent) (s : DlnaState) : DlnaState :=
  if negb (initialized s) then s
  else
    match ev_type event with
    | PLAYER_EVENT_STATE_CHANGED => apply_renderer_state (ev_state event) s
    | PLAYER_EVENT_POSITION_CHANGED =>
        match dlna_protocol_format_hhmmss_alloc (ev_position_ms event) with
        | None => s
        | Some hhmmss =>
            set_string "AbsoluteTimePosition" (Some hhmmss) (set_string "RelativeTimePosition" (Some hhmmss) s)
        end
    | PLAYER_EVENT_DURATION_CHANGED =>
        match dlna_protocol_format_hhmmss_alloc (ev_duration_ms event) with
        | None => s
        | Some hhmmss =>
            set_string "CurrentTrackDuration" (Some hhmmss) (set_string "CurrentMediaDuration" (Some hhmmss) s)
        end
    | PLAYER_EVENT_VOLUME_CHANGED => set_state_int_by_name (bytes "Volume") (ev_volume event) s
    | PLAYER_EVENT_MUTE_CHANGED => set_state_bool_by_name (bytes "Mute") (ev_mute event) s
    | PLAYER_EVENT_URI_CHANGED => s
    | PLAYER_EVENT_ERROR =>
        set_string "TransportStatus" (Some (bytes "ERROR_OCCURRED")) (set_string "TransportState" (Some (bytes "STOPPED")) s)
    end.
End memory.
