(* ===== verification/PlayerCommands.v ===== *)
(** * Commands of the player (player/player.h)

    What the protocols and the user interface ask the player to do, and the answers. *)

From S2P Require Import Prelude Buffers CText Ownership.

(* src: source/player/player.h PlayerCommandKind *)
Inductive PlayerCommandKind :=
| PLAYER_COMMAND_OPEN
| PLAYER_COMMAND_PLAY
| PLAYER_COMMAND_PAUSE
| PLAYER_COMMAND_STOP
| PLAYER_COMMAND_STOP_ANY
| PLAYER_COMMAND_SEEK_TARGET
| PLAYER_COMMAND_SEEK_MS
| PLAYER_COMMAND_SET_VOLUME
| PLAYER_COMMAND_SET_MUTE
| PLAYER_COMMAND_SHOW_OSD
| PLAYER_COMMAND_RELEASE_LEASE.

#[export] Instance player_kind_eq_dec : EqDecision PlayerCommandKind.
Proof. solve_decision. Defined.

(* src: source/player/player.h PlayerCommandSource *)
Inductive PlayerCommandSource :=
| PLAYER_COMMAND_SOURCE_APP
| PLAYER_COMMAND_SOURCE_UI
| PLAYER_COMMAND_SOURCE_DLNA
| PLAYER_COMMAND_SOURCE_IPTV
| PLAYER_COMMAND_SOURCE_AIRPLAY_VIDEO
| PLAYER_COMMAND_SOURCE_AIRPLAY_MIRROR.

#[export] Instance player_source_eq_dec : EqDecision PlayerCommandSource.
Proof. solve_decision. Defined.

(** [None] for the kind or the source is a value outside the enumeration. *)
(* src: source/player/player.h PlayerCommandRequest *)
Record PlayerCommandRequest := mkRequest {
  req_kind : option PlayerCommandKind;
  req_source : option PlayerCommandSource;
  req_lease : PlayerOwnershipLease;
  req_uri : option cstring;
  req_metadata : option cstring;
  req_text : option cstring;
  req_value : Z;
  req_flag : bool
}.

(* src: source/player/player.h PlayerCommandStatus *)
Inductive PlayerCommandStatus :=
| PLAYER_COMMAND_STATUS_ACCEPTED
| PLAYER_COMMAND_STATUS_EXECUTED
| PLAYER_COMMAND_STATUS_EXECUTION_FAILED
| PLAYER_COMMAND_STATUS_INVALID
| PLAYER_COMMAND_STATUS_NOT_RUNNING
| PLAYER_COMMAND_STATUS_QUEUE_FULL
| PLAYER_COMMAND_STATUS_NO_MEMORY
| PLAYER_COMMAND_STATUS_TIMEOUT
| PLAYER_COMMAND_STATUS_SHUTTING_DOWN
| PLAYER_COMMAND_STATUS_STALE.

#[export] Instance player_status_eq_dec : EqDecision PlayerCommandStatus.
Proof. solve_decision. Defined.

(* src: source/player/core/session.c player_command_status_succeeded *)
Definition player_command_status_succeeded (status : PlayerCommandStatus) : bool :=
  match status with PLAYER_COMMAND_STATUS_ACCEPTED | PLAYER_COMMAND_STATUS_EXECUTED => true | _ => false end.

(* src: source/player/core/session.c player_command_status_name *)
Definition player_command_status_name (status : option PlayerCommandStatus) : string :=
  match status with
  | Some PLAYER_COMMAND_STATUS_ACCEPTED => "accepted"
  | Some PLAYER_COMMAND_STATUS_EXECUTED => "executed"
  | Some PLAYER_COMMAND_STATUS_EXECUTION_FAILED => "execution-failed"
  | Some PLAYER_COMMAND_STATUS_INVALID => "invalid"
  | Some PLAYER_COMMAND_STATUS_NOT_RUNNING => "not-running"
  | Some PLAYER_COMMAND_STATUS_QUEUE_FULL => "queue-full"
  | Some PLAYER_COMMAND_STATUS_NO_MEMORY => "no-memory"
  | Some PLAYER_COMMAND_STATUS_TIMEOUT => "timeout"
  | Some PLAYER_COMMAND_STATUS_SHUTTING_DOWN => "shutting-down"
  | Some PLAYER_COMMAND_STATUS_STALE => "stale"
  | None => "unknown"
  end.
