(* ===== verification/ControllerSession.v ===== *)
(** * Whether a controller is still there (protocol/dlna/control/controller_session.c)

    A controller that polls often enough arms a timeout.  The functions are taken one
    after the other; each counter is an atomic variable of the source. *)

From S2P Require Import Prelude.

(* src: source/protocol/dlna/control/controller_session.c DLNA_CONTROLLER_ARM_POLL_COUNT *)
Definition DLNA_CONTROLLER_ARM_POLL_COUNT : Z := 4.
(* src: source/protocol/dlna/control/controller_session.c DLNA_CONTROLLER_ARM_WINDOW_MS *)
Definition DLNA_CONTROLLER_ARM_WINDOW_MS : Z := 3000.

(* src: source/protocol/dlna/control/controller_session.c 13-17 g_last_poll_ms, g_poll_count, g_armed, g_timeout_consumed, g_home_requested *)
Record ControllerSession := mkController {
  last_poll_ms : Z;
  poll_count : Z;
  armed : bool;
  timeout_consumed : bool;
  home_requested : bool
}.
#[export] Instance eta_ControllerSession : Eta ControllerSession := fun c =>
  mkController (last_poll_ms c) (poll_count c) (armed c) (timeout_consumed c) (home_requested c).
Definition controller_zero : ControllerSession := mkController 0 0 false false false.

(* src: source/protocol/dlna/control/controller_session.c controller_session_reset_tracking *)
Definition controller_session_reset_tracking (c : ControllerSession) : ControllerSession :=
  { c with timeout_consumed := false; armed := false; poll_count := 0; last_poll_ms := 0 }.

(* src: source/protocol/dlna/control/controller_session.c dlna_controller_session_reset *)
Definition dlna_controller_session_reset (c : ControllerSession) : ControllerSession :=
  { controller_session_reset_tracking c with home_requested := false }.

(* src: source/protocol/dlna/control/controller_session.c dlna_controller_session_note_poll_at *)
Definition dlna_controller_session_note_poll_at (now_ms : Z) (c : ControllerSession) : bool * ControllerSession :=
  if armed c then (false, { c with last_poll_ms := now_ms })
  else
    let count :=
      if (0 <? poll_count c) && (last_poll_ms c <=? now_ms) && (u64 (now_ms - last_poll_ms c) <=? DLNA_CONTROLLER_ARM_WINDOW_MS)
      then inc32 (poll_count c) else 1 in
    let c := { c with last_poll_ms := now_ms; poll_count := count } in
    if count <? DLNA_CONTROLLER_ARM_POLL_COUNT then (false, c)
    else (true, { c with armed := true; timeout_consumed := false }).

(* src: source/protocol/dlna/control/controller_session.c dlna_controller_session_refresh_at *)
Definition dlna_controller_session_refresh_at (now_ms : Z) (c : ControllerSession) : ControllerSession :=
  if armed c then { c with last_poll_ms := now_ms } else c.

(* src: source/protocol/dlna/control/controller_session.c dlna_controller_session_request_home *)
Definition dlna_controller_session_request_home (c : ControllerSession) : ControllerSession :=
  { controller_session_reset_tracking c with home_requested := true }.

(* src: source/protocol/dlna/control/controller_session.c dlna_controller_session_consume_home_request *)
Definition dlna_controller_session_consume_home_request (c : ControllerSession) : bool * ControllerSession :=
  if home_requested c then (true, { c with home_requested := false }) else (false, c).

(* src: source/protocol/dlna/control/controller_session.c dlna_controller_session_allow_home_retry *)
Definition dlna_controller_session_allow_home_retry (c : ControllerSession) : ControllerSession :=
  { c with home_requested := true }.

(* src: source/protocol/dlna/control/controller_session.c dlna_controller_session_consume_timeout_at *)
Definition dlna_controller_session_consume_timeout_at (now_ms timeout_ms : Z) (eligible : bool) (c : ControllerSession)
    : bool * ControllerSession :=
  if negb eligible then (false, controller_session_reset_tracking c)
  else if (timeout_ms =? 0) || negb (armed c) then (false, c)
  else if (now_ms <? last_poll_ms c) || (u64 (now_ms - last_poll_ms c) <? timeout_ms) then (false, c)
  else if timeout_consumed c then (false, c)
  else (true, { c with timeout_consumed := true }).

(* src: source/protocol/dlna/control/controller_session.c dlna_controller_session_allow_timeout_retry *)
Definition dlna_controller_session_allow_timeout_retry (c : ControllerSession) : ControllerSession :=
  if armed c then { c with timeout_consumed := false } else c.
