(* ===== verification/DlnaActions.v ===== *)
(** * AVTransport actions (protocol/dlna/control/action/avtransport.c)

    An action reads its arguments, asks the coordinator for the player and the player to
    act, changes the state variables and writes its response.  The coordinator, the
    player and the clock are the interface [ControlPlatform]: every answer they can
    give is allowed.  Logging and tracing are left out. *)

From S2P Require Import Prelude Buffers CText Ownership CoordData PlayerTypes PlayerCommands SeekTarget SoapWriter SoapXml DlnaState DlnaView ControllerSession.

(** What the actions call in protocol_coordinator.c, player.h and the clock. *)
Class ControlPlatform (E : Type) := {
  media_begin : PlayerMediaOwner -> Z -> E -> option ProtocolMediaTransaction * E;
  media_wait_resources : PlayerOwnershipLease -> Z -> E -> bool * E;
  media_abort : ProtocolMediaTransaction -> E -> E;
  media_end : ProtocolMediaTransaction -> E -> E;
  media_release : PlayerOwnershipLease -> E -> bool * E;
  media_guard_begin : PlayerMediaOwner -> Z -> E -> option ProtocolMediaGuard * E;
  media_unowned_or_owner_guard_begin : PlayerMediaOwner -> Z -> E -> option ProtocolMediaGuard * E;
  media_guard_end : ProtocolMediaGuard -> E -> E;
  media_current : E -> option PlayerOwnershipLease * E;
  submit_command_wait : PlayerCommandRequest -> Z -> E -> PlayerCommandStatus * E;
  get_snapshot : E -> option PlayerSnapshot * E;
  (** the single getters of renderer.h *)
  get_values : E -> PlayerSnapshot * E;
  now_ms : E -> Z * E
}.

(* src: source/protocol/dlna/control/action/avtransport.c DLNA_PLAYER_OWNER_TOKEN *)
Definition DLNA_PLAYER_OWNER_TOKEN : Z := 1.
(* src: source/protocol/dlna/control/action/avtransport.c DLNA_PLAYER_COMMAND_TIMEOUT_MS *)
Definition DLNA_PLAYER_COMMAND_TIMEOUT_MS : Z := 750.
(* src: source/protocol/dlna/control/action/avtransport.c DLNA_RESOURCE_TRANSITION_TIMEOUT_MS *)
Definition DLNA_RESOURCE_TRANSITION_TIMEOUT_MS : Z := 6000.

(** The output of the action, the static variables, and the environment. *)
Record DlnaWorld (E : Type) := mkWorld {
  w_out : SoapActionOutput;
  w_state : DlnaState;
  w_session : ControllerSession;
  w_env : E
}.
Arguments mkWorld {E} _ _ _ _.
Arguments w_out {E} _.
Arguments w_state {E} _.
Arguments w_session {E} _.
Arguments w_env {E} _.

(** A computation on the world. *)
Definition action (E A : Type) : Type := DlnaWorld E -> outcome (A * DlnaWorld E).
#[export] Instance action_ret {E} : MRet (action E) := fun A a w => Done (a, w).
#[export] Instance action_bind {E} : MBind (action E) := fun A B k m w => '(a, w) ← m w; k a w.

Section primitives.
Context {E : Type}.

Definition with_env (w : DlnaWorld E) (e : E) : DlnaWorld E := mkWorld (w_out w) (w_state w) (w_session w) e.
Definition with_out (w : DlnaWorld E) (o : SoapActionOutput) : DlnaWorld E := mkWorld o (w_state w) (w_session w) (w_env w).

Definition platform {A} (f : E -> A * E) : action E A := fun w => let '(a, e) := f (w_env w) in Done (a, with_env w e).
Definition platform_do (f : E -> E) : action E unit := fun w => Done (tt, with_env w (f (w_env w))).
Definition change_state (f : DlnaState -> DlnaState) : action E unit :=
  fun w => Done (tt, mkWorld (w_out w) (f (w_state w)) (w_session w) (w_env w)).
Definition change_session (f : ControllerSession -> ControllerSession) : action E unit :=
  fun w => Done (tt, mkWorld (w_out w) (w_state w) (f (w_session w)) (w_env w)).
Definition read_view : action E DlnaProtocolStateView := fun w => Done (view (w_state w), w).
Definition output (f : SoapActionOutput -> SoapActionOutput) : action E unit := fun w => Done (tt, with_out w (f (w_out w))).
Definition writing {A} (f : SoapActionOutput -> outcome (A * SoapActionOutput)) : action E A :=
  fun w => '(a, o) ← f (w_out w); Done (a, with_out w o).
(** A call that gives a value or fails. *)
Definition try_call {A} (m : outcome A) : action E (option A) :=
  fun w => match m with Done a => Done (Some a, w) | Refused => Done (None, w) | Stuck => Stuck end.

Definition fault (code : Z) (description : string) : action E bool :=
  _ ← output (fun o => soap_handler_set_fault o code (bytes description)); mret false.

(** [a && b] *)
Definition andM (a b : action E bool) : action E bool := ok ← a; if (ok : bool) then b else mret false.
End primitives.
Infix "&&&" := andM (at level 40, left associativity).

(** [if (!call) return false;] *)
Notation "x ⇐ m ; k" := (o ← m; match o with None => mret false | Some x => k end)
  (at level 20, m at level 100, k at level 200, only parsing).

Section avtransport.
Context {E : Type} `{!ControlPlatform E} (alloc : Z -> bool) (exclusive : bool)
  (parse_numeric_seconds_ms : list Z -> option Z).

(** ** The player *)

(* src: source/protocol/dlna/control/action/avtransport.c avtransport_note_controller_poll *)
Definition avtransport_note_controller_poll : action E unit :=
  now ← platform now_ms;
  change_session (fun c => (dlna_controller_session_note_poll_at now c).2).

(* src: source/protocol/dlna/control/action/avtransport.c avtransport_refresh_controller *)
Definition avtransport_refresh_controller : action E unit :=
  now ← platform now_ms;
  change_session (dlna_controller_session_refresh_at now).

(* src: source/protocol/dlna/control/action/avtransport.c avtransport_submit_leased_command *)
Definition avtransport_submit_leased_command (l : PlayerOwnershipLease) (kind : PlayerCommandKind)
    (text : option cstring) (value : Z) : action E bool :=
  status ← platform (submit_command_wait
    (mkRequest (Some kind) (Some PLAYER_COMMAND_SOURCE_DLNA) l None None text value false) DLNA_PLAYER_COMMAND_TIMEOUT_MS);
  mret (player_command_status_succeeded status).

(* src: source/protocol/dlna/control/action/avtransport.c avtransport_submit_owned_command *)
Definition avtransport_submit_owned_command (kind : PlayerCommandKind) (text : option cstring) (value : Z) : action E bool :=
  guard ⇐ platform (media_guard_begin PLAYER_MEDIA_OWNER_DLNA DLNA_PLAYER_OWNER_TOKEN);
  submitted ← avtransport_submit_leased_command (guard_lease guard) kind text value;
  _ ← platform_do (media_guard_end guard);
  mret submitted.

(* src: source/protocol/dlna/control/action/avtransport.c avtransport_submit_play_command *)
Definition avtransport_submit_play_command : action E bool :=
  guard ← platform (media_guard_begin PLAYER_MEDIA_OWNER_DLNA DLNA_PLAYER_OWNER_TOKEN);
  match guard with
  | Some guard =>
      submitted ← avtransport_submit_leased_command (guard_lease guard) PLAYER_COMMAND_PLAY None 0;
      _ ← platform_do (media_guard_end guard);
      mret submitted
  | None =>
      transaction ⇐ platform (media_begin PLAYER_MEDIA_OWNER_DLNA DLNA_PLAYER_OWNER_TOKEN);
      ready ← platform (media_wait_resources (transaction_lease transaction) DLNA_RESOURCE_TRANSITION_TIMEOUT_MS);
      if negb ready then
        _ ← platform_do (media_abort transaction); mret false
      else
        submitted ← avtransport_submit_leased_command (transaction_lease transaction) PLAYER_COMMAND_PLAY None 0;
        _ ← platform_do (if (submitted : bool) then media_end transaction else media_abort transaction);
        mret submitted
  end.

(* src: source/protocol/dlna/control/action/avtransport.c avtransport_submit_stop_and_release *)
Definition avtransport_submit_stop_and_release : action E bool :=
  if exclusive then
    guard ← platform (media_guard_begin PLAYER_MEDIA_OWNER_DLNA DLNA_PLAYER_OWNER_TOKEN);
    match guard with
    | None => current ← platform media_current; mret (bool_decide (current = None))
    | Some guard =>
        submitted ← avtransport_submit_leased_command (guard_lease guard) PLAYER_COMMAND_STOP None 0;
        _ ← platform_do (media_guard_end guard);
        _ ← (if (submitted : bool) then _ ← platform (media_release (guard_lease guard)); mret tt else mret tt);
        mret submitted
    end
  else avtransport_submit_owned_command PLAYER_COMMAND_STOP None 0.

(* src: source/protocol/dlna/control/action/avtransport.c avtransport_run_owned_seek_ms *)
Definition avtransport_run_owned_seek_ms (position_ms : Z) : action E bool :=
  avtransport_submit_owned_command PLAYER_COMMAND_SEEK_MS None position_ms.

(* src: source/protocol/dlna/control/action/avtransport.c avtransport_run_owned_seek_target *)
Definition avtransport_run_owned_seek_target (target : cstring) : action E bool :=
  avtransport_submit_owned_command PLAYER_COMMAND_SEEK_TARGET (Some target) 0.

(* src: source/protocol/dlna/control/action/avtransport.c avtransport_get_snapshot *)
Definition avtransport_get_snapshot : action E PlayerSnapshot :=
  guard ← platform (media_guard_begin PLAYER_MEDIA_OWNER_DLNA DLNA_PLAYER_OWNER_TOKEN);
  v ← read_view;
  let present := negb (bool_decide (av_transport_uri v = [])) in
  match guard with
  | None =>
      mret { player_snapshot_zero with has_media := present;
             p_state := if present then PLAYER_STATE_STOPPED else PLAYER_STATE_IDLE }
  | Some guard =>
      snapshot ← platform get_snapshot;
      match snapshot with
      | Some snapshot => _ ← platform_do (media_guard_end guard); mret snapshot
      | None =>
          values ← platform get_values;
          _ ← platform_do (media_guard_end guard);
          mret { values with media := media_zero; has_media := present }
      end
  end.

(** Bits: play, stop, pause, seek. *)
(* src: source/protocol/dlna/control/action/avtransport.c avtransport_current_actions *)
Definition avtransport_current_actions (snapshot : PlayerSnapshot) : Z :=
  if negb (has_media snapshot) then 0
  else
    match p_state snapshot with
    | PLAYER_STATE_STOPPED | PLAYER_STATE_PAUSED =>
        Z.lor (Z.lor (Z.shiftl 1 0) (Z.shiftl 1 1)) (if p_seekable snapshot then Z.shiftl 1 3 else 0)
    | PLAYER_STATE_BUFFERING | PLAYER_STATE_LOADING | PLAYER_STATE_SEEKING => Z.shiftl 1 1
    | PLAYER_STATE_PLAYING =>
        Z.lor (Z.lor (Z.shiftl 1 1) (Z.shiftl 1 2)) (if p_seekable snapshot then Z.shiftl 1 3 else 0)
    | PLAYER_STATE_IDLE | PLAYER_STATE_ERROR => 0
    end.

(** The text with one more action, when its bit is set. *)
(* src: source/protocol/dlna/control/action/avtransport.c 223-231 avtransport_format_actions_alloc *)
Definition add_action (actions : Z) (bit : Z) (word : string) (out : cstring) : option cstring :=
  if Z.testbit actions bit then
    let next := out ++ (if bool_decide (out = []) then [] else bytes ",") ++ bytes word in
    if alloc (size next + 1) then Some next else None
  else Some out.

(* src: source/protocol/dlna/control/action/avtransport.c avtransport_format_actions_alloc *)
Definition avtransport_format_actions_alloc (actions : Z) : option cstring :=
  if negb (alloc 1) then None
  else
    out ← add_action actions 0 "Play" [];
    out ← add_action actions 1 "Stop" out;
    out ← add_action actions 2 "Pause" out;
    add_action actions 3 "Seek" out.

(* src: source/protocol/dlna/control/action/avtransport.c avtransport_normalize_seek_target_alloc *)
Definition avtransport_normalize_seek_target_alloc (target : cstring) : option cstring :=
  match player_seek_target_parse_ms parse_numeric_seconds_ms (Some target) with
  | Some position_ms =>
      text ← player_seek_target_format_hhmmss_alloc position_ms true;
      if alloc (size text + 1) then Some text else None
  | None => if alloc (size target + 1) then Some target else None
  end.

(** ** Arguments and elements *)

Definition require_arg (ctx : SoapActionContext) (name : string) : action E (option cstring) :=
  writing (fun out => soap_handler_require_arg_alloc alloc ctx out (bytes name)).

Definition try_arg (ctx : SoapActionContext) (name : string) : action E (option cstring) :=
  try_call (soap_handler_try_arg_alloc alloc ctx (bytes name)).

(** The argument, or a copy of its default. *)
Definition arg_or (ctx : SoapActionContext) (name value : string) : action E (option cstring) :=
  found ← try_arg ctx name;
  match found with
  | Some v => mret (Some v)
  | None =>
      if alloc (size (bytes value) + 1) then mret (Some (bytes value))
      else _ ← fault 501 "Action Failed"; mret None
  end.

(* src: source/protocol/dlna/control/action/avtransport.c avtransport_try_instance_id *)
Definition avtransport_try_instance_id (ctx : SoapActionContext) : action E (option cstring) := arg_or ctx "InstanceID" "0".

(* src: source/protocol/dlna/control/action/avtransport.c avtransport_escape_alloc *)
Definition avtransport_escape_alloc (value : cstring) : action E (option cstring) :=
  match soap_handler_xml_escape_alloc alloc (Some value) with
  | None => _ ← fault 501 "Action Failed"; mret None
  | Some escaped => mret (Some escaped)
  end.

(** An element, or a fault. *)
Definition or_fault (write : SoapActionOutput -> written) : action E bool :=
  ok ← writing write;
  if (ok : bool) then mret true else fault 501 "Action Failed".

(* src: source/protocol/dlna/control/action/avtransport.c avtransport_write_text_element *)
Definition avtransport_write_text_element (tag : string) (value : cstring) : action E bool :=
  or_fault (fun out => soap_writer_element_text alloc out (bytes tag) (Some value)).
(* src: source/protocol/dlna/control/action/avtransport.c avtransport_write_raw_element *)
Definition avtransport_write_raw_element (tag : string) (value : cstring) : action E bool :=
  or_fault (fun out => soap_writer_element_raw alloc out (bytes tag) (Some value)).
(* src: source/protocol/dlna/control/action/avtransport.c avtransport_write_int_element *)
Definition avtransport_write_int_element (tag : string) (value : Z) : action E bool :=
  or_fault (fun out => soap_writer_element_int alloc out (bytes tag) value).

Definition clear_output : action E unit := output soap_writer_clear.
Definition succeed (xml : option cstring) : action E bool :=
  _ ← writing (fun out => out ← soap_handler_set_success alloc out xml; Done (tt, out)); mret true.

(** ** Tracks *)

(** [strtol] took all of the text and the number is in range. *)
(* src: source/protocol/dlna/control/action/avtransport.c parse_track_number *)
Definition parse_track_number (value : cstring) : option Z :=
  let text := skip isspace value in
  let digits := match text with 45 :: r | 43 :: r => r | _ => text end in
  let track := strtol value in
  let consumed_all := if bool_decide ((span isdigit digits).1 = []) then bool_decide (value = []) else bool_decide ((span isdigit digits).2 = []) in
  if negb consumed_all || (track <? 1) || (2147483647 <? track) then None else Some track.

(* src: source/protocol/dlna/control/action/avtransport.c avtransport_seek_track_number *)
Definition avtransport_seek_track_number (target : cstring) : action E bool :=
  v ← read_view;
  match parse_track_number target with
  | None => fault 711 "Illegal seek target"
  | Some track =>
      if (number_of_tracks v <=? 0) || (number_of_tracks v <? track) then fault 711 "Illegal seek target"
      else if negb (track =? current_track v) then fault 711 "Illegal seek target"
      else
        sought ← avtransport_run_owned_seek_ms 0;
        if negb sought then fault 701 "Transition not available"
        else
          _ ← change_state (dlna_protocol_state_apply_seek_target alloc (Some (bytes "00:00:00")));
          _ ← change_state (dlna_protocol_state_set_transport_status alloc (Some (bytes "OK")));
          mret true
  end.

(** There is one track: no track is next or previous. *)
(* src: source/protocol/dlna/control/action/avtransport.c avtransport_track_nav *)
Definition avtransport_track_nav (ctx : SoapActionContext) (delta : Z) : action E bool :=
  v ← read_view;
  _ ⇐ avtransport_try_instance_id ctx;
  if bool_decide (av_transport_uri v = []) then fault 701 "Transition not available"
  else
    let target_track := i32 (current_track v + delta) in
    if (number_of_tracks v <=? 0) || (target_track <? 1) || (number_of_tracks v <? target_track)
    then fault 711 "Illegal seek target"
    else fault 701 "Transition not available".

(** ** Actions *)

(* src: source/protocol/dlna/control/action/avtransport.c avtransport_set_uri *)
Definition avtransport_set_uri (ctx : SoapActionContext) : action E bool :=
  _ ⇐ require_arg ctx "InstanceID";
  uri ⇐ require_arg ctx "CurrentURI";
  metadata ⇐ arg_or ctx "CurrentURIMetaData" "";
  begun ← platform (media_begin PLAYER_MEDIA_OWNER_DLNA DLNA_PLAYER_OWNER_TOKEN);
  match begun with
  | None => fault 501 "Action Failed"
  | Some transaction =>
      ready ← platform (media_wait_resources (transaction_lease transaction) DLNA_RESOURCE_TRANSITION_TIMEOUT_MS);
      if negb ready then
        _ ← platform_do (media_abort transaction); fault 501 "Action Failed"
      else
        status ← platform (submit_command_wait
          (mkRequest (Some PLAYER_COMMAND_OPEN) (Some PLAYER_COMMAND_SOURCE_DLNA) (transaction_lease transaction)
             (Some uri) (Some metadata) None 0 false) DLNA_PLAYER_COMMAND_TIMEOUT_MS);
        if negb (player_command_status_succeeded status) then
          _ ← platform_do (media_abort transaction); fault 501 "Action Failed"
        else
          _ ← platform_do (media_end transaction);
          _ ← change_session dlna_controller_session_reset;
          _ ← change_state (dlna_protocol_state_apply_set_uri alloc (Some uri) (Some metadata));
          succeed (Some [])
  end.

(* src: source/protocol/dlna/control/action/avtransport.c avtransport_play *)
Definition avtransport_play (ctx : SoapActionContext) : action E bool :=
  v ← read_view;
  _ ⇐ require_arg ctx "InstanceID";
  speed ⇐ require_arg ctx "Speed";
  if bool_decide (av_transport_uri v = []) then fault 701 "Transition not available"
  else
    played ← (if exclusive then avtransport_submit_play_command
              else avtransport_submit_owned_command PLAYER_COMMAND_PLAY None 0);
    if negb played then fault 704 "Playing failed"
    else
      _ ← change_state (dlna_protocol_state_set_transport_speed alloc (Some speed));
      _ ← change_state (dlna_protocol_state_apply_play alloc);
      _ ← avtransport_refresh_controller;
      succeed (Some []).

(* src: source/protocol/dlna/control/action/avtransport.c avtransport_pause *)
Definition avtransport_pause (ctx : SoapActionContext) : action E bool :=
  v ← read_view;
  _ ⇐ require_arg ctx "InstanceID";
  if bool_decide (av_transport_uri v = []) then fault 701 "Transition not available"
  else
    paused ← avtransport_submit_owned_command PLAYER_COMMAND_PAUSE None 0;
    if negb paused then fault 701 "Transition not available"
    else
      _ ← change_state (dlna_protocol_state_apply_pause alloc);
      _ ← avtransport_refresh_controller;
      succeed (Some []).

(* src: source/protocol/dlna/control/action/avtransport.c avtransport_stop *)
Definition avtransport_stop (ctx : SoapActionContext) : action E bool :=
  _ ⇐ require_arg ctx "InstanceID";
  stopped ← avtransport_submit_stop_and_release;
  if negb stopped then fault 701 "Transition not available"
  else
    _ ← change_state (dlna_protocol_state_apply_stop alloc);
    _ ← change_session dlna_controller_session_request_home;
    succeed (Some []).

(* src: source/protocol/dlna/control/action/avtransport.c avtransport_get_transport_info *)
Definition avtransport_get_transport_info (ctx : SoapActionContext) : action E bool :=
  _ ⇐ avtransport_try_instance_id ctx;
  v ← read_view;
  _ ← clear_output;
  ok ← avtransport_write_text_element "CurrentTransportState" (transport_state v) &&&
       avtransport_write_text_element "CurrentTransportStatus" (transport_status v) &&&
       avtransport_write_text_element "CurrentSpeed" (transport_play_speed v);
  if negb ok then mret false
  else
    done ← succeed None;
    _ ← avtransport_note_controller_poll;
    mret done.

(* src: source/protocol/dlna/control/action/avtransport.c avtransport_get_device_capabilities *)
Definition avtransport_get_device_capabilities (ctx : SoapActionContext) : action E bool :=
  _ ⇐ avtransport_try_instance_id ctx;
  _ ← clear_output;
  ok ← avtransport_write_text_element "PlayMedia" (bytes "NETWORK") &&&
       avtransport_write_text_element "RecMedia" (bytes "NOT_IMPLEMENTED") &&&
       avtransport_write_text_element "RecQualityModes" (bytes "NOT_IMPLEMENTED");
  if negb ok then mret false else succeed None.

(* src: source/protocol/dlna/control/action/avtransport.c avtransport_get_transport_settings *)
Definition avtransport_get_transport_settings (ctx : SoapActionContext) : action E bool :=
  _ ⇐ avtransport_try_instance_id ctx;
  v ← read_view;
  _ ← clear_output;
  ok ← avtransport_write_text_element "PlayMode" (current_play_mode v) &&&
       avtransport_write_text_element "RecQualityMode" (bytes "NOT_IMPLEMENTED");
  if negb ok then mret false else succeed None.

(* src: source/protocol/dlna/control/action/avtransport.c avtransport_get_current_transport_actions *)
Definition avtransport_get_current_transport_actions (ctx : SoapActionContext) : action E bool :=
  _ ⇐ avtransport_try_instance_id ctx;
  snapshot ← avtransport_get_snapshot;
  match avtransport_format_actions_alloc (avtransport_current_actions snapshot) with
  | None => fault 501 "Action Failed"
  | Some action_list =>
      _ ← clear_output;
      ok ← avtransport_write_text_element "Actions" action_list;
      if negb ok then mret false else succeed None
  end.

(* src: source/protocol/dlna/control/action/avtransport.c avtransport_get_media_info *)
Definition avtransport_get_media_info (ctx : SoapActionContext) : action E bool :=
  _ ⇐ avtransport_try_instance_id ctx;
  snapshot ← avtransport_get_snapshot;
  _ ← change_state (dlna_protocol_state_set_transport_timing alloc (p_duration_ms snapshot) (p_position_ms snapshot));
  v ← read_view;
  escaped_uri ← avtransport_escape_alloc (av_transport_uri v);
  escaped_metadata ← avtransport_escape_alloc (av_transport_uri_metadata v);
  match escaped_uri, escaped_metadata with
  | Some escaped_uri, Some escaped_metadata =>
      _ ← clear_output;
      ok ← avtransport_write_int_element "NrTracks" (number_of_tracks v) &&&
           avtransport_write_text_element "MediaDuration" (current_media_duration v) &&&
           avtransport_write_raw_element "CurrentURI" escaped_uri &&&
           avtransport_write_raw_element "CurrentURIMetaData" escaped_metadata &&&
           avtransport_write_text_element "NextURI" (next_av_transport_uri v) &&&
           avtransport_write_text_element "NextURIMetaData" (next_av_transport_uri_metadata v) &&&
           avtransport_write_text_element "PlayMedium" (playback_storage_medium v) &&&
           avtransport_write_text_element "RecordMedium" (bytes "NOT_IMPLEMENTED") &&&
           avtransport_write_text_element "WriteStatus" (bytes "NOT_IMPLEMENTED");
      if negb ok then mret false else succeed None
  | _, _ => mret false
  end.

(* src: source/protocol/dlna/control/action/avtransport.c avtransport_get_position_info *)
Definition avtransport_get_position_info (ctx : SoapActionContext) : action E bool :=
  _ ⇐ avtransport_try_instance_id ctx;
  snapshot ← avtransport_get_snapshot;
  _ ← change_state (dlna_protocol_state_set_transport_timing alloc (p_duration_ms snapshot) (p_position_ms snapshot));
  v ← read_view;
  escaped_uri ← avtransport_escape_alloc (current_track_uri v);
  escaped_metadata ← avtransport_escape_alloc (current_track_metadata v);
  match escaped_uri, escaped_metadata with
  | Some escaped_uri, Some escaped_metadata =>
      _ ← clear_output;
      ok ← avtransport_write_int_element "Track" (current_track v) &&&
           avtransport_write_text_element "TrackDuration" (current_track_duration v) &&&
           avtransport_write_raw_element "TrackMetaData" escaped_metadata &&&
           avtransport_write_raw_element "TrackURI" escaped_uri &&&
           avtransport_write_text_element "RelTime" (relative_time_position v) &&&
           avtransport_write_text_element "AbsTime" (absolute_time_position v) &&&
           avtransport_write_int_element "RelCount" (relative_counter_position v) &&&
           avtransport_write_int_element "AbsCount" (absolute_counter_position v);
      if negb ok then mret false
      else
        done ← succeed None;
        _ ← avtransport_note_controller_poll;
        mret done
  | _, _ => mret false
  end.

(* src: source/protocol/dlna/control/action/avtransport.c avtransport_seek *)
Definition avtransport_seek (ctx : SoapActionContext) : action E bool :=
  v ← read_view;
  _ ⇐ avtransport_try_instance_id ctx;
  unit ⇐ arg_or ctx "Unit" "REL_TIME";
  target ⇐ arg_or ctx "Target" "00:00:00";
  if negb (strcasecmp_equal unit (bytes "REL_TIME")) && negb (strcasecmp_equal unit (bytes "ABS_TIME")) &&
     negb (strcasecmp_equal unit (bytes "TRACK_NR"))
  then fault 710 "Seek mode not supported"
  else if bool_decide (av_transport_uri v = []) then fault 701 "Transition not available"
  else if strcasecmp_equal unit (bytes "TRACK_NR") then
    ok ← avtransport_seek_track_number target;
    if negb ok then mret false
    else _ ← avtransport_refresh_controller; succeed (Some [])
  else
    let effective_target := default target (avtransport_normalize_seek_target_alloc target) in
    sought ← avtransport_run_owned_seek_target effective_target;
    if negb sought then fault 701 "Transition not available"
    else
      _ ← change_state (dlna_protocol_state_apply_seek_target alloc (Some effective_target));
      _ ← change_state (dlna_protocol_state_set_transport_status alloc (Some (bytes "OK")));
      _ ← avtransport_refresh_controller;
      succeed (Some []).

(* src: source/protocol/dlna/control/action/avtransport.c avtransport_next *)
Definition avtransport_next (ctx : SoapActionContext) : action E bool := avtransport_track_nav ctx 1.
(* src: source/protocol/dlna/control/action/avtransport.c avtransport_previous *)
Definition avtransport_previous (ctx : SoapActionContext) : action E bool := avtransport_track_nav ctx (-1).

(* src: source/protocol/dlna/control/action/avtransport.c avtransport_set_play_mode *)
Definition avtransport_set_play_mode (ctx : SoapActionContext) : action E bool :=
  _ ⇐ avtransport_try_instance_id ctx;
  play_mode ⇐ require_arg ctx "NewPlayMode";
  if negb (strcasecmp_equal play_mode (bytes "NORMAL")) then fault 712 "Play mode not supported"
  else
    _ ← change_state (dlna_protocol_state_set_current_play_mode alloc (Some (bytes "NORMAL")));
    _ ← avtransport_refresh_controller;
    succeed (Some []).
End avtransport.
