(* ===== verification/DlnaControl.v ===== *)
(** * RenderingControl and ConnectionManager actions, and the route table

    protocol/dlna/control/action/renderingcontrol.c, connectionmanager.c and soap_router.c:
    which handler an action of a service has. *)

From S2P Require Import Prelude Buffers CText Ownership CoordData PlayerTypes PlayerCommands SeekTarget SoapWriter SoapXml DlnaState DlnaView ControllerSession DlnaActions.

(* src: source/protocol/dlna/control/action/renderingcontrol.c RENDERINGCONTROL_OWNER_TOKEN *)
Definition RENDERINGCONTROL_OWNER_TOKEN : Z := 1.
(* src: source/protocol/dlna/control/action/renderingcontrol.c RENDERINGCONTROL_COMMAND_TIMEOUT_MS *)
Definition RENDERINGCONTROL_COMMAND_TIMEOUT_MS : Z := 750.

(* src: source/protocol/dlna/control/soap_router.c 10-12 g_serviceTypeAvTransport *)
Definition serviceTypeAvTransport : cstring := bytes "urn:schemas-upnp-org:service:AVTransport:1".
Definition serviceTypeRenderingControl : cstring := bytes "urn:schemas-upnp-org:service:RenderingControl:1".
Definition serviceTypeConnectionManager : cstring := bytes "urn:schemas-upnp-org:service:ConnectionManager:1".

(* src: source/protocol/dlna/control/soap_router.c soap_router_service_type_from_name *)
Definition soap_router_service_type_from_name (service_name : cstring) : option cstring :=
  if strcasecmp_equal service_name (bytes "AVTransport") then Some serviceTypeAvTransport
  else if strcasecmp_equal service_name (bytes "RenderingControl") then Some serviceTypeRenderingControl
  else if strcasecmp_equal service_name (bytes "ConnectionManager") then Some serviceTypeConnectionManager
  else None.

Section control.
Context {E : Type} `{!ControlPlatform E} (alloc : Z -> bool) (exclusive : bool)
  (parse_numeric_seconds_ms : list Z -> option Z).

(** ** RenderingControl *)

(* src: source/protocol/dlna/control/action/renderingcontrol.c renderingcontrol_submit *)
Definition renderingcontrol_submit (kind : PlayerCommandKind) (value : Z) (flag : bool) : action E bool :=
  guard ⇐ platform (media_unowned_or_owner_guard_begin PLAYER_MEDIA_OWNER_DLNA RENDERINGCONTROL_OWNER_TOKEN);
  let lease := guard_lease guard in
  _ ← platform_do (media_guard_end guard);
  let submit (source : PlayerCommandSource) (l : PlayerOwnershipLease) : action E bool :=
    status ← platform (submit_command_wait (mkRequest (Some kind) (Some source) l None None None value flag)
      RENDERINGCONTROL_COMMAND_TIMEOUT_MS);
    mret (player_command_status_succeeded status) in
  if exclusive then
    if owner_eqb (owner lease) PLAYER_MEDIA_OWNER_DLNA then submit PLAYER_COMMAND_SOURCE_DLNA lease
    else submit PLAYER_COMMAND_SOURCE_UI lease_zero
  else if owner_eqb (owner lease) PLAYER_MEDIA_OWNER_NONE then
    transaction ⇐ platform (media_begin PLAYER_MEDIA_OWNER_DLNA RENDERINGCONTROL_OWNER_TOKEN);
    ok ← submit PLAYER_COMMAND_SOURCE_DLNA (transaction_lease transaction);
    _ ← platform_do (if (ok : bool) then media_end transaction else media_abort transaction);
    mret ok
  else submit PLAYER_COMMAND_SOURCE_DLNA lease.

(** One element, or a fault. *)
Definition respond (write : SoapActionOutput -> written) : action E bool :=
  _ ← clear_output;
  ok ← writing write;
  if (ok : bool) then succeed alloc None else fault 501 "Action Failed".

(** A change that the player made, or a fault. *)
Definition changed_or_fault (change : action E bool) : action E bool :=
  changed ← change;
  if (changed : bool) then succeed alloc (Some []) else fault 501 "Action Failed".

(* src: source/protocol/dlna/control/action/renderingcontrol.c renderingcontrol_get_brightness *)
Definition renderingcontrol_get_brightness (ctx : SoapActionContext) : action E bool :=
  _ ⇐ require_arg alloc ctx "InstanceID";
  respond (fun out => soap_writer_element_int alloc out (bytes "CurrentBrightness") 100).

(* src: source/protocol/dlna/control/action/renderingcontrol.c renderingcontrol_get_volume *)
Definition renderingcontrol_get_volume (ctx : SoapActionContext) : action E bool :=
  v ← read_view;
  _ ⇐ require_arg alloc ctx "InstanceID";
  _ ⇐ require_arg alloc ctx "Channel";
  respond (fun out => soap_writer_element_int alloc out (bytes "CurrentVolume") (volume v)).

(* src: source/protocol/dlna/control/action/renderingcontrol.c renderingcontrol_set_volume *)
Definition renderingcontrol_set_volume (ctx : SoapActionContext) : action E bool :=
  _ ⇐ require_arg alloc ctx "InstanceID";
  _ ⇐ require_arg alloc ctx "Channel";
  desired ⇐ require_arg alloc ctx "DesiredVolume";
  let vol := strtol desired in
  let vol := if vol <? 0 then 0 else vol in
  let vol := if 100 <? vol then 100 else vol in
  changed_or_fault (renderingcontrol_submit PLAYER_COMMAND_SET_VOLUME vol false).

(* src: source/protocol/dlna/control/action/renderingcontrol.c renderingcontrol_list_presets *)
Definition renderingcontrol_list_presets (ctx : SoapActionContext) : action E bool :=
  _ ⇐ require_arg alloc ctx "InstanceID";
  respond (fun out => soap_writer_element_text alloc out (bytes "CurrentPresetNameList") (Some (bytes "FactoryDefaults"))).

(* src: source/protocol/dlna/control/action/renderingcontrol.c renderingcontrol_select_preset *)
Definition renderingcontrol_select_preset (ctx : SoapActionContext) : action E bool :=
  _ ⇐ require_arg alloc ctx "InstanceID";
  preset_name ⇐ require_arg alloc ctx "PresetName";
  if negb (strcasecmp_equal preset_name (bytes "FactoryDefaults")) then fault 402 "Invalid Args"
  else
    changed_or_fault
      (renderingcontrol_submit PLAYER_COMMAND_SET_VOLUME PLAYER_DEFAULT_VOLUME false &&&
       renderingcontrol_submit PLAYER_COMMAND_SET_MUTE 0 false).

(* src: source/protocol/dlna/control/action/renderingcontrol.c renderingcontrol_get_mute *)
Definition renderingcontrol_get_mute (ctx : SoapActionContext) : action E bool :=
  v ← read_view;
  _ ⇐ require_arg alloc ctx "InstanceID";
  _ ⇐ require_arg alloc ctx "Channel";
  respond (fun out => soap_writer_element_int alloc out (bytes "CurrentMute") (if mute v then 1 else 0)).

(* src: source/protocol/dlna/control/action/renderingcontrol.c renderingcontrol_set_mute *)
Definition renderingcontrol_set_mute (ctx : SoapActionContext) : action E bool :=
  _ ⇐ require_arg alloc ctx "InstanceID";
  _ ⇐ require_arg alloc ctx "Channel";
  desired ⇐ require_arg alloc ctx "DesiredMute";
  changed_or_fault (renderingcontrol_submit PLAYER_COMMAND_SET_MUTE 0 (negb (strcmp_equal desired (bytes "0")))).

(** ** ConnectionManager *)

(* src: source/protocol/dlna/control/action/connectionmanager.c connectionmanager_get_protocol_info *)
Definition connectionmanager_get_protocol_info (ctx : SoapActionContext) : action E bool :=
  v ← read_view;
  match soap_handler_xml_escape_alloc alloc (Some (source_protocol_info v)),
        soap_handler_xml_escape_alloc alloc (Some (sink_protocol_info v)) with
  | Some escaped_source, Some escaped_sink =>
      _ ← clear_output;
      ok ← writing (fun out => soap_writer_element_raw alloc out (bytes "Source") (Some escaped_source)) &&&
           writing (fun out => soap_writer_element_raw alloc out (bytes "Sink") (Some escaped_sink));
      if (ok : bool) then succeed alloc None else fault 501 "Action Failed"
  | _, _ => fault 501 "Action Failed"
  end.

(* src: source/protocol/dlna/control/action/connectionmanager.c connectionmanager_get_current_connection_ids *)
Definition connectionmanager_get_current_connection_ids (ctx : SoapActionContext) : action E bool :=
  v ← read_view;
  respond (fun out => soap_writer_element_text alloc out (bytes "ConnectionIDs") (Some (current_connection_ids v))).

(* src: source/protocol/dlna/control/action/connectionmanager.c connectionmanager_get_current_connection_info *)
Definition connectionmanager_get_current_connection_info (ctx : SoapActionContext) : action E bool :=
  v ← read_view;
  connection_id ⇐ require_arg alloc ctx "ConnectionID";
  if negb (strtol connection_id =? 0) then fault 706 "No Such Connection"
  else
    match soap_handler_xml_escape_alloc alloc (Some (sink_protocol_info v)) with
    | None => fault 501 "Action Failed"
    | Some escaped_protocol_info =>
        _ ← clear_output;
        ok ← writing (fun out => soap_writer_element_int alloc out (bytes "RcsID") 0) &&&
             writing (fun out => soap_writer_element_int alloc out (bytes "AVTransportID") 0) &&&
             writing (fun out => soap_writer_element_raw alloc out (bytes "ProtocolInfo") (Some escaped_protocol_info)) &&&
             writing (fun out => soap_writer_element_text alloc out (bytes "PeerConnectionManager") (Some [])) &&&
             writing (fun out => soap_writer_element_int alloc out (bytes "PeerConnectionID") (-1)) &&&
             writing (fun out => soap_writer_element_text alloc out (bytes "Direction") (Some (a_arg_type_direction v))) &&&
             writing (fun out => soap_writer_element_text alloc out (bytes "Status") (Some (bytes "OK")));
        if (ok : bool) then succeed alloc None else fault 501 "Action Failed"
    end.

(** ** Routes *)

(* src: source/protocol/dlna/control/soap_router.c SoapRouteEntry *)
Record SoapRouteEntry := mkRoute {
  route_service : cstring;
  route_type : cstring;
  route_action : cstring;
  route_handler : SoapActionContext -> action E bool
}.

(* src: source/protocol/dlna/control/soap_router.c g_routes *)
Definition g_routes : list SoapRouteEntry :=
  let av := mkRoute (bytes "AVTransport") serviceTypeAvTransport in
  let rc := mkRoute (bytes "RenderingControl") serviceTypeRenderingControl in
  let cm := mkRoute (bytes "ConnectionManager") serviceTypeConnectionManager in
  [av (bytes "SetAVTransportURI") (avtransport_set_uri alloc);
   av (bytes "Play") (avtransport_play alloc exclusive);
   av (bytes "Pause") (avtransport_pause alloc);
   av (bytes "Stop") (avtransport_stop alloc exclusive);
   av (bytes "GetDeviceCapabilities") (avtransport_get_device_capabilities alloc);
   av (bytes "GetTransportInfo") (avtransport_get_transport_info alloc);
   av (bytes "GetTransportSettings") (avtransport_get_transport_settings alloc);
   av (bytes "GetCurrentTransportActions") (avtransport_get_current_transport_actions alloc);
   av (bytes "GetMediaInfo") (avtransport_get_media_info alloc);
   av (bytes "GetPositionInfo") (avtransport_get_position_info alloc);
   av (bytes "Seek") (avtransport_seek alloc parse_numeric_seconds_ms);
   av (bytes "Next") (avtransport_next alloc);
   av (bytes "Previous") (avtransport_previous alloc);
   av (bytes "SetPlayMode") (avtransport_set_play_mode alloc);
   rc (bytes "GetBrightness") renderingcontrol_get_brightness;
   rc (bytes "GetVolume") renderingcontrol_get_volume;
   rc (bytes "SetVolume") renderingcontrol_set_volume;
   rc (bytes "GetMute") renderingcontrol_get_mute;
   rc (bytes "SetMute") renderingcontrol_set_mute;
   rc (bytes "ListPresets") renderingcontrol_list_presets;
   rc (bytes "SelectPreset") renderingcontrol_select_preset;
   cm (bytes "GetProtocolInfo") connectionmanager_get_protocol_info;
   cm (bytes "GetCurrentConnectionIDs") connectionmanager_get_current_connection_ids;
   cm (bytes "GetCurrentConnectionInfo") connectionmanager_get_current_connection_info].

Definition find_route (service_name action_name : cstring) : option SoapRouteEntry :=
  head (filter (fun r => strcasecmp_equal service_name (route_service r) && strcasecmp_equal action_name (route_action r)) g_routes).

(** The service type and the action name of the response, and whether the handler
    returned true. *)
(* src: source/protocol/dlna/control/soap_router.c soap_router_route_action *)
Definition soap_router_route_action (ctx : SoapActionContext) : action E (option cstring * cstring * bool) :=
  match find_route (service_name ctx) (action_name ctx) with
  | Some r => ok ← route_handler r ctx; mret (Some (route_type r), route_action r, ok)
  | None =>
      ok ← fault 401 "Invalid Action";
      mret (soap_router_service_type_from_name (service_name ctx), action_name ctx, ok)
  end.
End control.
