(* ===== verification/DlnaServer.v ===== *)
(** * SOAP over HTTP (protocol/dlna/control/soap_server.c)

    From the text of an HTTP request to the text of the response.  In the texts below an
    apostrophe stands for a double quote.  Logging is left out. *)

From S2P Require Import Prelude Buffers CText Ownership CoordData PlayerTypes PlayerCommands SoapWriter SoapXml DlnaState DlnaView ControllerSession DlnaActions DlnaControl.

(** ** Requests *)

(* src: source/protocol/dlna/control/soap_server.c starts_with *)
Definition starts_with (value prefix : cstring) : bool := has_prefix value prefix.

Definition control_prefix : cstring := bytes "/upnp/control/".

(* src: source/protocol/dlna/control/soap_server.c is_macast_control_path *)
Definition is_macast_control_path (path : cstring) : bool :=
  match path with
  | 47 :: name =>
      match memchr 47 name with
      | None | Some O => false
      | Some i => strcmp_equal (drop i name) (bytes "/action")
      end
  | _ => false
  end.

(* src: source/protocol/dlna/control/soap_server.c trim_whitespace *)
Definition trim_whitespace (value : cstring) : cstring := trim isspace value.

(* src: source/protocol/dlna/control/soap_server.c is_blank_text *)
Definition is_blank_text (value : cstring) : bool := forallb isspace value.

(* src: source/protocol/dlna/control/soap_server.c unquote *)
Definition unquote (value : cstring) : cstring :=
  let value := trim_whitespace value in
  match value with
  | 34 :: rest => if bool_decide (last rest = Some 34) then removelast rest else value
  | _ => value
  end.

(* src: source/protocol/dlna/control/soap_server.c find_body *)
Definition find_body (request : cstring) : option cstring :=
  i ← strstr_at request (crlf ++ crlf); Some (drop (i + 4) request).

(* src: source/protocol/dlna/control/soap_server.c parse_service_name_from_path_alloc *)
Definition parse_service_name (path : cstring) : option cstring :=
  if starts_with path control_prefix then
    let name := (span (fun c => negb ((c =? 32) || (c =? 63) || (c =? 13) || (c =? 10))) (drop (length control_prefix) path)).1 in
    if bool_decide (name = []) then None else Some name
  else if is_macast_control_path path then
    Some (span (fun c => negb (c =? 47)) (drop 1 path)).1
  else None.

(** ** Responses *)

Section server.
Context {E : Type} `{!ControlPlatform E} (alloc : Z -> bool) (exclusive : bool)
  (parse_numeric_seconds_ms : list Z -> option Z) (server_info : cstring).

(* src: source/protocol/dlna/control/soap_server.c get_header_value_alloc *)
Definition get_header_value_alloc (request header : cstring) : outcome cstring :=
  match find_header (S (length request)) header request with
  | None => Stuck
  | Some None => Refused
  | Some (Some line) => ensure (alloc (size line + 1));; Done (trim_whitespace line)
  end.

(* src: source/protocol/dlna/control/soap_server.c parse_action_name_alloc *)
Definition parse_action_name_alloc (soap_action_header : cstring) : option cstring :=
  if negb (alloc (size soap_action_header + 1)) then None
  else
    match after_last 35 (unquote soap_action_header) with
    | None | Some [] => None
    | Some name => if alloc (size name + 1) then Some name else None
    end.

(* src: source/protocol/dlna/control/soap_server.c parse_service_name_from_path_alloc *)
Definition parse_service_name_from_path_alloc (path : cstring) : option cstring :=
  name ← parse_service_name path; if alloc (size name + 1) then Some name else None.

(** [None] when the response does not fit. *)
(* src: source/protocol/dlna/control/soap_server.c build_http_response *)
Definition build_http_response (status : Z) (status_text content_type body : cstring) (response_size : Z) : option cstring :=
  if response_size =? 0 then None
  else
    let text :=
      bytes "HTTP/1.1 " ++ format_ld status ++ bytes " " ++ status_text ++ crlf ++
      bytes "Content-Type: " ++ content_type ++ crlf ++
      bytes "Content-Length: " ++ format_u (size body) ++ crlf ++
      bytes "Server: " ++ server_info ++ crlf ++
      bytes "Connection: close" ++ crlf ++ crlf ++ body in
    if response_size <=? size text then None else Some text.

Definition envelope_open : cstring := quoted
  "<?xml version='1.0' encoding='utf-8'?><s:Envelope xmlns:s='http://schemas.xmlsoap.org/soap/envelope/' s:encodingStyle='http://schemas.xmlsoap.org/soap/encoding/'><s:Body>".
Definition envelope_close : cstring := bytes "</s:Body></s:Envelope>".
Definition text_xml : cstring := quoted "text/xml; charset='utf-8'".
Definition text_plain : cstring := quoted "text/plain; charset='utf-8'".

Definition success_body (service_type action_name response_args : cstring) : cstring :=
  envelope_open ++ bytes "<u:" ++ action_name ++ quoted "Response xmlns:u='" ++ service_type ++ quoted "'>" ++
  response_args ++ bytes "</u:" ++ action_name ++ bytes "Response>" ++ envelope_close.

(* src: source/protocol/dlna/control/soap_server.c build_soap_success *)
Definition build_soap_success (service_type : option cstring) (action_name response_args : cstring) (response_size : Z)
    : option cstring :=
  match service_type with
  | None => None
  | Some service_type =>
      let body_capacity := size response_args + 512 in
      let body := success_body service_type action_name response_args in
      if negb (alloc body_capacity) then None
      else if body_capacity <=? size body then None
      else build_http_response 200 (bytes "OK") text_xml body response_size
  end.

Definition fault_body (fault_code : Z) (description : cstring) : cstring :=
  envelope_open ++
  quoted "<s:Fault><faultcode>s:Client</faultcode><faultstring>UPnPError</faultstring><detail><UPnPError xmlns='urn:schemas-upnp-org:control-1-0'><errorCode>" ++
  format_ld fault_code ++ bytes "</errorCode><errorDescription>" ++ description ++
  bytes "</errorDescription></UPnPError></detail></s:Fault>" ++ envelope_close.

(* src: source/protocol/dlna/control/soap_server.c build_soap_fault *)
Definition build_soap_fault (fault_code : Z) (fault_description : option cstring) (response_size : Z) : option cstring :=
  let description := default (bytes "Action Failed") fault_description in
  let body_capacity := size description + 512 in
  let body := fault_body fault_code description in
  if negb (alloc body_capacity) then None
  else if body_capacity <=? size body then None
  else build_http_response 500 (bytes "Internal Server Error") text_xml body response_size.

(** ** The server *)

Definition sizeof_route_result : Z := 72.

(** The action is called and its result becomes the response. *)
(* src: source/protocol/dlna/control/soap_server.c 690-779 soap_server_try_handle_http *)
Definition call_action (ctx : SoapActionContext) (response_size : Z) : action E (option cstring) :=
  if negb (alloc sizeof_route_result) then mret None
  else
    _ ← output (fun _ => output_zero);
    '(service_type, action_name, handled_ok) ← soap_router_route_action alloc exclusive parse_numeric_seconds_ms ctx;
    out ← (fun w => Done (w_out w, w));
    _ ← output soap_writer_dispose;
    mret (if handled_ok && success out
          then build_soap_success service_type action_name (output_text out) response_size
          else build_soap_fault (if 0 <? fault_code out then fault_code out else 501) 
                 (Some (default (bytes "Action Failed") (fault_description out))) response_size).

Definition invalid_args (response_size : Z) : option cstring := build_soap_fault 402 (Some (bytes "Invalid Args")) response_size.

(** [None] is false: the path is not a control path, or no response was built. *)
(* src: source/protocol/dlna/control/soap_server.c soap_server_try_handle_http *)
Definition soap_server_try_handle_http (running : bool) (method : option cstring) (path : cstring)
    (request : option cstring) (response_size : Z) : action E (option cstring) :=
  if negb (starts_with path control_prefix) && negb (is_macast_control_path path) then mret None
  else if negb running then
    mret (build_http_response 503 (bytes "Service Unavailable") text_plain (bytes "SOAP module is not running") response_size)
  else if negb (strcasecmp_equal (default [] method) (bytes "POST")) then
    mret (build_http_response 405 (bytes "Method Not Allowed") text_plain (bytes "SOAP control requires POST") response_size)
  else
    match request with
    | None => mret (invalid_args response_size)
    | Some request =>
        match parse_service_name_from_path_alloc path with
        | None => mret (invalid_args response_size)
        | Some service_name =>
            header ← try_call (get_header_value_alloc request (bytes "SOAPACTION"));
            match header with
            | None => mret (invalid_args response_size)
            | Some soap_action_header =>
                match parse_action_name_alloc soap_action_header with
                | None => mret (invalid_args response_size)
                | Some action_name =>
                    let body := default [] (find_body request) in
                    if is_blank_text body then mret (invalid_args response_size)
                    else call_action (mkContext service_name action_name body request) response_size
                end
            end
        end
    end.
End server.

(** ** Start and stop *)

(** [snapshot] is what the renderer gives when the module starts. *)
(* src: source/protocol/dlna/control/handler.c soap_handler_init *)
Definition soap_handler_init (alloc : Z -> bool) (template : cstring -> option cstring) (snapshot : option PlayerSnapshot)
    : DlnaState :=
  dlna_protocol_state_sync_from_renderer alloc snapshot (dlna_protocol_state_init alloc template).

(* src: source/protocol/dlna/control/handler.c soap_handler_shutdown *)
Definition soap_handler_shutdown : DlnaState := dlna_protocol_state_reset.

(** [current] is the lease in force; events of media of other owners are not shown. *)
(* src: source/protocol/dlna/control/handler.c soap_handler_on_renderer_event *)
Definition soap_handler_on_renderer_event (alloc : Z -> bool) (current : option PlayerOwnershipLease) (event : PlayerEvent)
    (s : DlnaState) : DlnaState :=
  match current with
  | Some l =>
      if negb (owner_eqb (owner l) PLAYER_MEDIA_OWNER_DLNA) || negb (token l =? 1) then s
      else dlna_protocol_state_on_renderer_event alloc event s
  | None => dlna_protocol_state_on_renderer_event alloc event s
  end.

(** Whether the module runs, and the state variables. *)
(* src: source/protocol/dlna/control/soap_server.c soap_server_start *)
Definition soap_server_start (alloc : Z -> bool) (template : cstring -> option cstring) (snapshot : option PlayerSnapshot)
    (running : bool) (s : DlnaState) : bool * DlnaState :=
  if running then (true, s) else (true, soap_handler_init alloc template snapshot).

(* src: source/protocol/dlna/control/soap_server.c soap_server_stop *)
Definition soap_server_stop (running : bool) (s : DlnaState) : bool * DlnaState :=
  if running then (false, soap_handler_shutdown) else (false, s).
