(* ===== verification/DlnaStateFacts.v ===== *)
(** * The view always shows the state variables

    What a change of a variable does, and the invariant of the UPnP state. *)

From S2P Require Import Prelude Buffers CText CoordData PlayerTypes SoapWriter DlnaState DlnaView.

#[local] Arguments bytes : simpl never.

(** ** Names *)

Lemma find_ext vars vars' n : map name vars = map name vars' -> find_state_variable vars n = find_state_variable vars' n.
Proof.
  revert vars'. induction vars as [|v vars IH]; intros [|v' vars'] H; try done. injection H as Hn H.
  cbn. by rewrite Hn, (IH _ H).
Qed.

Lemma find_some vars n i : find_state_variable vars n = Some i -> exists v, vars !! i = Some v /\ name v = n.
Proof.
  revert i. induction vars as [|v vars IH]; intros i H; [done|]. cbn in H. unfold strcmp_equal in H. case_bool_decide as Hn.
  - injection H as <-. by exists v.
  - apply fmap_Some in H as (j & Hj & ->). by apply IH.
Qed.

Lemma map_insert_same {A B} (f : A -> B) (l : list A) (i : nat) x y : l !! i = Some x -> f y = f x -> map f (<[i := y]> l) = map f l.
Proof.
  intros Hi Hf. apply list_eq. intros j. rewrite !list_lookup_fmap. destruct (decide (i = j)) as [<-|Hne].
  - rewrite list_lookup_insert_eq by by eapply lookup_lt_Some. rewrite Hi. cbn. by rewrite Hf.
  - by rewrite list_lookup_insert_ne.
Qed.

Lemma alter_insert {A} (f : A -> A) (l : list A) (i : nat) x : l !! i = Some x -> alter f i l = <[i := f x]> l.
Proof. revert i. induction l as [|y l IH]; intros [|i] H; try done; cbn in *; [by injection H as ->|f_equal; by apply IH]. Qed.

(** ** States *)

(** The variable of a name. *)
Definition variable (s : DlnaState) (n : string) : option DlnaStateVariable := dlna_protocol_state_find_variable s (bytes n).

(** The references are those of the names, and the view is refreshed. *)
Definition bound (s : DlnaState) : Prop := refs s = state_refs_of (items s) /\ view s = state_view_of (refs s) (items s).

(** The types that the service templates declare. *)
Definition upnp_strings : list string :=
  ["TransportState"; "TransportStatus"; "TransportPlaySpeed"; "CurrentPlayMode"; "AVTransportURI"; "AVTransportURIMetaData";
   "NextAVTransportURI"; "NextAVTransportURIMetaData"; "CurrentTrackURI"; "CurrentTrackMetaData"; "CurrentTrackTitle";
   "CurrentMediaDuration"; "CurrentTrackDuration"; "RelativeTimePosition"; "AbsoluteTimePosition"; "A_ARG_TYPE_Direction";
   "PlaybackStorageMedium"; "SourceProtocolInfo"; "SinkProtocolInfo"; "CurrentConnectionIDs"]%string.

(** A change of some variables: the names and the types stay. *)
Definition same_shape (s s' : DlnaState) : Prop :=
  map name (items s') = map name (items s) /\ map datatype (items s') = map datatype (items s) /\
  refs s' = refs s /\ initialized s' = initialized s /\ (bound s -> bound s').

Lemma same_shape_refl s : same_shape s s.
Proof. by split_and!. Qed.

Lemma same_shape_trans s s' s'' : same_shape s s' -> same_shape s' s'' -> same_shape s s''.
Proof. intros (H1 & H2 & H3 & H4 & H5) (K1 & K2 & K3 & K4 & K5). split_and!; [congruence..|tauto]. Qed.

#[export] Instance same_shape_preorder : PreOrder same_shape.
Proof. split; [exact same_shape_refl|exact same_shape_trans]. Qed.

Lemma refs_ext vars vars' : map name vars' = map name vars -> state_refs_of vars' = state_refs_of vars.
Proof. intros H. unfold state_refs_of. f_equal; by apply find_ext. Qed.

(** The item at [i] is replaced by one of the same name and type. *)
Lemma replace_shape s i v v' : items s !! i = Some v -> name v' = name v -> datatype v' = datatype v ->
  same_shape s (refresh_state_view { s with items ::= <[i := v']> }).
Proof.
  intros Hi Hn Hd. assert (Hnames : map name (<[i := v']> (items s)) = map name (items s)) by by eapply map_insert_same.
  split_and!; [done|by eapply map_insert_same|done|done|]. intros [Hb _]. split; [|done].
  change (refs s = state_refs_of (<[i := v']> (items s))). by rewrite (refs_ext (items s)).
Qed.

Lemma replace_variable s i n v v' m : find_state_variable (items s) (bytes n) = Some i -> items s !! i = Some v ->
  name v' = name v ->
  variable (refresh_state_view { s with items ::= <[i := v']> }) m = if bool_decide (bytes n = bytes m) then Some v' else variable s m.
Proof.
  intros Hf Hi Hn. unfold variable, dlna_protocol_state_find_variable.
  change (items (refresh_state_view _)) with (<[i := v']> (items s)).
  rewrite (find_ext (<[i := v']> (items s)) (items s)) by by eapply map_insert_same.
  case_bool_decide as Hm.
  - rewrite <- Hm, Hf. cbn. by rewrite list_lookup_insert_eq by by eapply lookup_lt_Some.
  - destruct (find_state_variable (items s) (bytes m)) as [j|] eqn:Hj; [|done]. cbn.
    rewrite list_lookup_insert_ne; [done|]. intros <-.
    destruct (find_some _ _ _ Hf) as (x & Hx & Hxn). destruct (find_some _ _ _ Hj) as (y & Hy & Hyn). congruence.
Qed.

(** ** Setting *)

Section memory.
Context (alloc : Z -> bool).

Lemma set_string_value_some v value v' : set_state_string_value alloc v value = Some v' ->
  datatype v = DLNA_STATE_TYPE_STRING /\ v' = { v with string_value := Some (default [] value) }.
Proof. unfold set_state_string_value. case_bool_decide; [|done]. cbn. destruct (alloc _); by intros [= <-]. Qed.

Lemma set_string_by_name_spec n value s ok s' : set_state_string_by_name alloc (bytes n) value s = (ok, s') ->
  same_shape s s' /\
  (forall m, variable s' m =
     if ok && bool_decide (bytes n = bytes m) then (fun v => { v with string_value := Some (default [] value) }) <$> variable s m
     else variable s m) /\
  (ok = true -> exists v, variable s n = Some v /\ datatype v = DLNA_STATE_TYPE_STRING).
Proof.
  unfold set_state_string_by_name. intros H. destruct (find_state_variable (items s) (bytes n)) as [i|] eqn:Hf.
  2:{ injection H as <- <-. split; [apply same_shape_refl|done]. }
  destruct (items s !! i) as [v|] eqn:Hi; cbn [mbind option_bind] in H.
  2:{ injection H as <- <-. split; [apply same_shape_refl|done]. }
  destruct (set_state_string_value alloc v value) as [v'|] eqn:Hv.
  2:{ injection H as <- <-. split; [apply same_shape_refl|done]. }
  injection H as <- <-. apply set_string_value_some in Hv as [Hd ->]. split; [by eapply replace_shape|]. split.
  - intros m. rewrite (replace_variable s i n v _ m Hf Hi) by done. cbn [andb]. case_bool_decide as Hm; [|done].
    unfold variable, dlna_protocol_state_find_variable. rewrite <- Hm, Hf. cbn. by rewrite Hi.
  - intros _. exists v. split; [|done]. unfold variable, dlna_protocol_state_find_variable. rewrite Hf. cbn. done.
Qed.

End memory.

(** A change in place of the variable of a name. *)
Definition change_by_name (f : DlnaStateVariable -> DlnaStateVariable) (n : cstring) (s : DlnaState) : DlnaState :=
  match find_state_variable (items s) n with
  | None => s
  | Some i => refresh_state_view { s with items ::= alter f i }
  end.

Lemma change_by_name_spec f n s : (forall v, name (f v) = name v) -> (forall v, datatype (f v) = datatype v) ->
  same_shape s (change_by_name f (bytes n) s) /\
  forall m, variable (change_by_name f (bytes n) s) m =
    if bool_decide (bytes n = bytes m) then f <$> variable s m else variable s m.
Proof.
  intros Hname Htype. unfold change_by_name. destruct (find_state_variable (items s) (bytes n)) as [i|] eqn:Hf.
  - destruct (find_some _ _ _ Hf) as (v & Hi & Hv).
    assert (E : refresh_state_view { s with items ::= alter f i } = refresh_state_view { s with items ::= <[i := f v]> }).
    { rsimpl. by rewrite (alter_insert _ _ _ _ Hi). }
    rewrite E. split; [by eapply (replace_shape s i v)|]. intros m.
    rewrite (replace_variable s i n v _ m Hf Hi) by done. case_bool_decide as Hm; [|done].
    unfold variable, dlna_protocol_state_find_variable. rewrite <- Hm, Hf. cbn. by rewrite Hi.
  - split; [apply same_shape_refl|]. intros m. case_bool_decide as Hm; [|done].
    unfold variable, dlna_protocol_state_find_variable. by rewrite <- Hm, Hf.
Qed.

Lemma set_int_spec n value s :
  same_shape s (set_state_int_by_name (bytes n) value s) /\
  forall m, variable (set_state_int_by_name (bytes n) value s) m =
    if bool_decide (bytes n = bytes m) then set_state_int_value value <$> variable s m else variable s m.
Proof. by apply (change_by_name_spec (set_state_int_value value)). Qed.

Lemma set_bool_spec n value s :
  same_shape s (set_state_bool_by_name (bytes n) value s) /\
  forall m, variable (set_state_bool_by_name (bytes n) value s) m =
    if bool_decide (bytes n = bytes m) then set_state_bool_value value <$> variable s m else variable s m.
Proof. by apply (change_by_name_spec (set_state_bool_value value)). Qed.

(** ** Values *)

Definition string_of (s : DlnaState) (n : string) : cstring := string_or_empty (variable s n).
Definition int_of (s : DlnaState) (n : string) : Z := int_or_zero (variable s n).


(** Setting a string: the value of that variable may become the new one, and nothing else
    changes. *)
Lemma set_string_values alloc n value s ok s' : set_state_string_by_name alloc (bytes n) value s = (ok, s') ->
  same_shape s s' /\ (forall m, int_of s' m = int_of s m) /\
  forall m, string_of s' m = if ok && bool_decide (bytes n = bytes m) then default [] value else string_of s m.
Proof.
  intros H. apply set_string_by_name_spec in H as (Hsh & Hv & Hok). split; [done|]. unfold int_of, string_of.
  split; intros m; rewrite Hv; destruct ok; cbn [andb]; try done; case_bool_decide as Hm; try done.
  - by destruct (variable s m).
  - destruct (Hok eq_refl) as (v & Hvar & Hd). unfold variable in Hvar. rewrite Hm in Hvar. fold (variable s m) in Hvar.
    rewrite Hvar. cbn. by rewrite bool_decide_eq_true_2.
Qed.

Lemma set_int_values n value s :
  let s' := set_state_int_by_name (bytes n) value s in
  same_shape s s' /\ (forall m, string_of s' m = string_of s m) /\
  forall m, int_of s' m = if bool_decide (bytes n = bytes m) && bool_decide (is_Some (variable s m)) then value else int_of s m.
Proof.
  cbv zeta. destruct (set_int_spec n value s) as [Hsh Hv]. split; [done|]. unfold int_of, string_of.
  split; intros m; rewrite Hv; case_bool_decide as Hm; try done; by destruct (variable s m).
Qed.

Lemma set_bool_values n value s m : bytes n <> bytes m ->
  let s' := set_state_bool_by_name (bytes n) value s in
  same_shape s s' /\ (forall m, string_of s' m = string_of s m) /\ int_of s' m = int_of s m.
Proof.
  intros Hm. cbv zeta. destruct (set_bool_spec n value s) as [Hsh Hv]. split; [done|]. unfold int_of, string_of. split.
  - intros k. rewrite Hv. case_bool_decide as Hk; [|done]. by destruct (variable s k).
  - rewrite Hv. by rewrite bool_decide_eq_false_2.
Qed.

(** ** The invariant *)

(** The values of the service templates for the variables that have a list of them. *)
Definition allowed_table : list (string * list string) :=
  [("TransportState", ["STOPPED"; "PAUSED_PLAYBACK"; "PLAYING"; "TRANSITIONING"; "NO_MEDIA_PRESENT"]);
   ("TransportStatus", ["OK"; "ERROR_OCCURRED"]);
   ("CurrentPlayMode", ["NORMAL"; "REPEAT_ONE"; "REPEAT_ALL"; "SHUFFLE"; "SHUFFLE_NOREPEAT"]);
   ("PlaybackStorageMedium", ["NONE"; "UNKNOWN"; "CD-DA"; "HDD"; "NETWORK"]);
   ("A_ARG_TYPE_Direction", ["Input"; "Output"])]%string.

Definition value_allowed (n : string) (value : cstring) : Prop :=
  forall l, (n, l) ∈ allowed_table -> value ∈ map bytes l.

Record upnp_ok (s : DlnaState) : Prop := {
  ok_bound : bound s;
  ok_allowed : forall n l, (n, l) ∈ allowed_table -> string_of s n ∈ map bytes l;
  ok_track_range : 0 <= int_of s "CurrentTrack" <= 1 /\ 0 <= int_of s "NumberOfTracks" <= 1
}.

Definition value_allowedb (n : string) (value : cstring) : bool :=
  forallb (fun '(m, l) => negb (String.eqb n m) || existsb (fun x => bool_decide (value = bytes x)) l) allowed_table.

Lemma value_allowed_spec n value : value_allowedb n value = true -> value_allowed n value.
Proof.
  intros H l Hl. apply forallb_forall with (x := (n, l)) in H; [|by apply list_elem_of_In].
  rewrite String.eqb_refl in H. apply existsb_exists in H as (x & Hx & E). apply bool_decide_eq_true in E as ->.
  apply list_elem_of_In, in_map, Hx.
Qed.

Lemma bytes_inj a b : bytes a = bytes b -> a = b.
Proof.
  revert b. induction a as [|c a IH]; intros [|d b] H; try done. injection H as Hc H. f_equal; [|by apply IH].
  rewrite <- (Ascii.ascii_N_embedding c), <- (Ascii.ascii_N_embedding d). f_equal. lia.
Qed.

(** A change that keeps the invariant. *)
Definition keeps_ok (f : DlnaState -> DlnaState) : Prop := forall s, upnp_ok s -> upnp_ok (f s) /\ initialized (f s) = initialized s.

Lemma keeps_comp f g : keeps_ok f -> keeps_ok g -> keeps_ok (fun s => g (f s)).
Proof. intros Hf Hg s H. destruct (Hf s H) as [H1 E1]. destruct (Hg _ H1) as [H2 E2]. split; [done|congruence]. Qed.

Lemma keeps_id : keeps_ok (fun s => s).
Proof. by intros s H. Qed.

Lemma keeps_string alloc n value : value_allowed n (default [] value) -> keeps_ok (set_string alloc n value).
Proof.
  intros Hv s [Hb Hall Hr]. unfold set_string. destruct (set_state_string_by_name alloc (bytes n) value s) as [ok s'] eqn:E.
  apply set_string_values in E as (Hsh & Hint & Hstr). cbn [snd]. split; [|apply Hsh]. split.
  - by apply Hsh.
  - intros m l Hl. rewrite Hstr. destruct ok; cbn [andb]; [|by apply Hall]. case_bool_decide as Hm; [|by apply Hall].
    apply bytes_inj in Hm as <-. by apply Hv.
  - by rewrite !Hint.
Qed.

Lemma keeps_int n value : bytes n <> bytes "CurrentTrack" /\ bytes n <> bytes "NumberOfTracks" \/ 0 <= value <= 1 ->
  keeps_ok (set_state_int_by_name (bytes n) value).
Proof.
  intros Hv s [Hb Hall Hr]. destruct (set_int_values n value s) as (Hsh & Hstr & Hint). split; [|apply Hsh]. split.
  - by apply Hsh.
  - intros m l Hl. rewrite Hstr. by apply Hall.
  - rewrite !Hint. destruct Hv as [[H1 H2]|Hv]; [by rewrite (bool_decide_eq_false_2 _ H1), (bool_decide_eq_false_2 _ H2)|].
    split; match goal with |- _ <= (if ?b then _ else _) <= _ => destruct b end; tauto || lia.
Qed.

Lemma keeps_bool n value : bytes n <> bytes "CurrentTrack" /\ bytes n <> bytes "NumberOfTracks" ->
  keeps_ok (set_state_bool_by_name (bytes n) value).
Proof.
  intros [H1 H2] s [Hb Hall Hr]. destruct (set_bool_values n value s _ H1) as (Hsh & Hstr & Hint).
  destruct (set_bool_values n value s _ H2) as (_ & _ & Hint2). split; [|apply Hsh]. split.
  - by apply Hsh.
  - intros m l Hl. rewrite Hstr. by apply Hall.
  - by rewrite Hint, Hint2.
Qed.

(** A state that was reached from [s] by changes that keep the invariant. *)
Definition step_ok (s x : DlnaState) : Prop := upnp_ok x /\ initialized x = initialized s.

Lemma step_keeps f s x : keeps_ok f -> step_ok s x -> step_ok s (f x).
Proof. intros Hf [H E]. destruct (Hf x H) as [H1 E1]. split; [done|congruence]. Qed.

(** Decides that a value is allowed or that a number is in range, and applies the rules
    for the setters. *)
Ltac allowed := first [by apply value_allowed_spec | by left | right; lia | by split].
Ltac setters :=
  repeat first
    [ assumption
    | apply (step_keeps (set_string _ _ _)); [apply keeps_string; allowed|]
    | apply (step_keeps (set_state_int_by_name _ _)); [apply keeps_int; allowed|]
    | apply (step_keeps (set_state_bool_by_name _ _)); [apply keeps_bool; allowed|] ].

Lemma keeps_from f : (forall s x, step_ok s x -> step_ok s (f x)) -> keeps_ok f.
Proof. intros H s Hs. by apply (H s). Qed.

(** An operation, from its definition: nothing happens before the start. *)
Ltac operation op :=
  apply keeps_from; intros s x H; unfold op, if_initialized;
  destruct (initialized x); [|done]; cbn [negb]; cbv zeta.

Create HintDb keeps.

Section operations.
Context (alloc : Z -> bool).

Lemma keeps_set_uri uri metadata : keeps_ok (dlna_protocol_state_apply_set_uri alloc uri metadata).
Proof. operation dlna_protocol_state_apply_set_uri. destruct (non_empty uri); setters.
Qed.

Lemma keeps_play : keeps_ok (dlna_protocol_state_apply_play alloc).
Proof. operation dlna_protocol_state_apply_play. setters. Qed.

Lemma keeps_pause : keeps_ok (dlna_protocol_state_apply_pause alloc).
Proof. operation dlna_protocol_state_apply_pause. setters. Qed.

Lemma keeps_apply_stop : keeps_ok (dlna_protocol_state_apply_stop alloc).
Proof. operation dlna_protocol_state_apply_stop. setters. Qed.

Lemma keeps_seek_target target : keeps_ok (dlna_protocol_state_apply_seek_target alloc target).
Proof. operation dlna_protocol_state_apply_seek_target. setters. Qed.

Lemma keeps_status_ok : keeps_ok (dlna_protocol_state_set_transport_status alloc (Some (bytes "OK"))).
Proof. operation dlna_protocol_state_set_transport_status. setters. Qed.

Lemma keeps_speed speed : keeps_ok (dlna_protocol_state_set_transport_speed alloc speed).
Proof. operation dlna_protocol_state_set_transport_speed. setters. Qed.

Lemma keeps_play_mode : keeps_ok (dlna_protocol_state_set_current_play_mode alloc (Some (bytes "NORMAL"))).
Proof. operation dlna_protocol_state_set_current_play_mode. setters. Qed.

Lemma keeps_timing duration position : keeps_ok (dlna_protocol_state_set_transport_timing alloc duration position).
Proof. operation dlna_protocol_state_set_transport_timing.
  destruct (dlna_protocol_format_hhmmss_alloc alloc duration), (dlna_protocol_format_hhmmss_alloc alloc position); try done.
  cbv zeta. setters.
Qed.

Lemma keeps_renderer_state st : keeps_ok (apply_renderer_state alloc st).
Proof. apply keeps_from. intros s x H. unfold apply_renderer_state. destruct st; cbn [should_apply_transport_state_from_renderer]; cbv zeta; setters. Qed.

Lemma keeps_sync_from_renderer snapshot : keeps_ok (dlna_protocol_state_sync_from_renderer alloc snapshot).
Proof. operation dlna_protocol_state_sync_from_renderer.
  destruct snapshot as [snapshot|]; [|done]. cbv zeta.
  assert (H' : step_ok s (set_state_bool_by_name (bytes "Mute") (p_mute snapshot) (set_state_int_by_name (bytes "Volume")
    (p_volume snapshot) (dlna_protocol_state_set_transport_timing alloc (p_duration_ms snapshot) (p_position_ms snapshot) x)))).
  { setters. by apply (step_keeps (dlna_protocol_state_set_transport_timing alloc _ _)), H; apply keeps_timing. }
  destruct (has_media snapshot); [|done]. cbn [negb]. by apply step_keeps; [apply keeps_renderer_state|].
Qed.

Lemma keeps_event event : keeps_ok (dlna_protocol_state_on_renderer_event alloc event).
Proof. operation dlna_protocol_state_on_renderer_event.
  destruct (ev_type event); try (by setters).
  - by apply step_keeps; [apply keeps_renderer_state|].
  - destruct (dlna_protocol_format_hhmmss_alloc alloc (ev_position_ms event)); [|done]. setters.
  - destruct (dlna_protocol_format_hhmmss_alloc alloc (ev_duration_ms event)); [|done]. setters.
Qed.

(** ** Start *)

Lemma set_strings_values values : forall s s', set_strings alloc values s = (true, s') -> NoDup (values.*1) ->
  same_shape s s' /\ (forall m, int_of s' m = int_of s m) /\
  (forall m, m ∉ values.*1 -> string_of s' m = string_of s m) /\
  forall n v, (n, v) ∈ values -> string_of s' n = v.
Proof.
  induction values as [|[n v] values IH]; intros s s' H Hnd.
  - injection H as <-. split; [apply same_shape_refl|]. split; [done|]. split; [done|]. intros n v Hin. by apply elem_of_nil in Hin.
  - cbn [set_strings] in H. destruct (set_state_string_by_name alloc (bytes n) (Some v) s) as [ok s1] eqn:E.
    destruct ok; [|done]. apply set_string_values in E as (Hsh & Hint & Hstr). cbn [fmap list_fmap fst] in *. apply NoDup_cons in Hnd as [Hn Hnd].
    destruct (IH s1 s' H Hnd) as (Hsh' & Hint' & Hother & Hvals). cbn [andb default] in Hstr.
    split; [by etransitivity|]. split; [intros m; by rewrite Hint', Hint|]. split.
    + intros m Hm. rewrite Hother by set_solver. rewrite Hstr. case_bool_decide as Hb; [|done]. apply bytes_inj in Hb. set_solver.
    + intros m w Hin. apply elem_of_cons in Hin as [Heq|Hin]; [|by apply Hvals].
      injection Heq as -> ->. rewrite Hother by done. rewrite Hstr. by rewrite bool_decide_eq_true_2.
Qed.
End operations.
#[export] Hint Resolve keeps_set_uri keeps_play keeps_pause keeps_apply_stop keeps_seek_target keeps_status_ok keeps_speed
  keeps_play_mode keeps_timing keeps_sync_from_renderer keeps_event : keeps.

Lemma int_of_zero n s : int_of (set_state_int_by_name (bytes n) 0 s) n = 0.
Proof.
  destruct (set_int_values n 0 s) as (_ & _ & ->). rewrite bool_decide_eq_true_2 by done. cbn [andb]. case_bool_decide as H; [done|].
  unfold int_of. destruct (variable s n); [|done]. by destruct H.
Qed.

Lemma int_of_other n m value s : bytes n <> bytes m -> int_of (set_state_int_by_name (bytes n) value s) m = int_of s m.
Proof. intros H. destruct (set_int_values n value s) as (_ & _ & ->). by rewrite bool_decide_eq_false_2. Qed.

(** The state after a start: all the variables of the defaults were there. *)
Lemma defaults_ok alloc template s s' : bound s -> apply_macast_defaults alloc template s = Some s' -> upnp_ok s'.
Proof.
  intros Hb H. unfold apply_macast_defaults in H. apply bind_Some in H as (sink & _ & H).
  match type of H with context [set_strings alloc ?l s] => set (values := l) in H end.
  destruct (set_strings alloc values s) as [ok s1] eqn:E. destruct ok; [|done]. cbn [negb] in H. injection H as <-.
  apply set_strings_values in E as (Hsh & _ & _ & Hvals); [|unfold values; apply (bool_decide_unpack _); by vm_compute].
  set (tracks := set_state_int_by_name (bytes "NumberOfTracks") 0 (set_state_int_by_name (bytes "CurrentTrack") 0
    (set_state_int_by_name (bytes "AbsoluteCounterPosition") DLNA_COUNTER_UNKNOWN
    (set_state_int_by_name (bytes "RelativeCounterPosition") DLNA_COUNTER_UNKNOWN s1)))).
  assert (Hstr : forall m, string_of tracks m = string_of s1 m).
  { intros m. unfold tracks. by rewrite !(fun n v s => proj1 (proj2 (set_int_values n v s))). }
  assert (Hshape : same_shape s tracks).
  { unfold tracks. etransitivity; [exact Hsh|]. do 4 (etransitivity; [apply set_int_values|]). reflexivity. }
  assert (Hok : upnp_ok tracks).
  { split; [by apply Hshape| |].
    - intros n l Hl. rewrite Hstr. unfold allowed_table in Hl.
      repeat (apply elem_of_cons in Hl as [[= -> ->]|Hl]); [..|by apply elem_of_nil in Hl];
        (erewrite Hvals; [|unfold values; repeat first [by left | right]]; apply (bool_decide_unpack _); by vm_compute).
    - unfold tracks. rewrite int_of_zero, (int_of_other "NumberOfTracks" "CurrentTrack"), int_of_zero by done. lia. }
  apply (keeps_bool "Mute"); [by split|]. by apply (keeps_int "Volume"); [left; split|].
Qed.

(** The first variable that is set refreshes the view. *)
Lemma set_string_refresh alloc n value s :
  set_state_string_by_name alloc n value (refresh_state_view s) = set_state_string_by_name alloc n value s \/
  (set_state_string_by_name alloc n value (refresh_state_view s)).1 = false /\ (set_state_string_by_name alloc n value s).1 = false.
Proof.
  unfold set_state_string_by_name. change (items (refresh_state_view s)) with (items s).
  destruct (find_state_variable (items s) n) as [i|]; [|by right].
  destruct (items s !! i ≫= fun v => set_state_string_value alloc v value) as [v|]; [by left|by right].
Qed.

Lemma defaults_refresh alloc template s :
  apply_macast_defaults alloc template s = apply_macast_defaults alloc template (refresh_state_view s).
Proof.
  unfold apply_macast_defaults. destruct (load_sink_protocol_info_csv alloc template) as [sink|]; [|done].
  cbn [mbind option_bind set_strings].
  destruct (set_string_refresh alloc (bytes "CurrentPlayMode") (Some (bytes "NORMAL")) s) as [E|[E1 E2]]; [by rewrite E|].
  destruct (set_state_string_by_name alloc (bytes "CurrentPlayMode") (Some (bytes "NORMAL")) s) as [ok x].
  destruct (set_state_string_by_name alloc (bytes "CurrentPlayMode") (Some (bytes "NORMAL")) (refresh_state_view s)) as [ok' x'].
  cbn in E1, E2. by subst ok ok'.
Qed.

(** [dlna_protocol_state_init] gives a consistent state, or the empty one. *)
Lemma init_ok alloc template : let s := dlna_protocol_state_init alloc template in
  s = clear_state_store \/ initialized s = true /\ upnp_ok s.
Proof.
  cbv zeta. unfold dlna_protocol_state_init.
  destruct (load_templates alloc template service_templates clear_state_store) as [s|]; [|by left]. rewrite defaults_refresh.
  destruct (apply_macast_defaults alloc template (refresh_state_view (bind_state_refs s))) as [s'|] eqn:E; [|by left].
  right. split; [done|]. apply defaults_ok in E as [[Hr Hv] Hall Ht]; [|done].
  assert (Evar : forall m, variable { refresh_state_view s' with initialized := true } m = variable s' m) by done.
  split; [done| |].
  - intros n l Hl. unfold string_of. rewrite Evar. by apply Hall.
  - unfold int_of. by rewrite !Evar.
Qed.
