(* ===== verification/DlnaSafety.v ===== *)
(** * Requests are handled safely

    Every action, with every answer of the platform and every failure of the memory:
    nothing undefined happens, the state variables stay consistent, and the player is
    asked only under a lease that was granted. *)

From S2P Require Import Prelude Ownership CoordData CText Buffers SoapWriter SoapXml SoapText PlayerTypes DlnaState DlnaView PlayerCommands ControllerSession DlnaActions DlnaControl DlnaServer DlnaStateFacts.

(** ** Auditing what the actions ask of the player

    A platform that keeps a log of the calls, an automaton that reads the log, and rules
    to show that an action is total, keeps the state consistent and passes the audit. *)

#[local] Arguments bytes : simpl never.

(** ** The log *)

(** A request, or a call and its answer. *)
Inductive Call :=
| CRequest
| CBegin (t : option ProtocolMediaTransaction)
| CWait (l : PlayerOwnershipLease) (ready : bool)
| CAbort (t : ProtocolMediaTransaction)
| CEnd (t : ProtocolMediaTransaction)
| CRelease (l : PlayerOwnershipLease) (released : bool)
| CGuard (g : option ProtocolMediaGuard)
| CGuardEnd (g : ProtocolMediaGuard)
| CSubmit (r : PlayerCommandRequest) (status : PlayerCommandStatus)
| COther.

Section logging.
Context {E : Type} `{!ControlPlatform E}.

Definition logged {A} (call : A -> Call) (f : E -> A * E) (e : E * list Call) : A * (E * list Call) :=
  let '(a, e1) := f e.1 in (a, (e1, e.2 ++ [call a])).

Definition logged_do (call : Call) (f : E -> E) (e : E * list Call) : E * list Call := (f e.1, e.2 ++ [call]).

#[export] Instance logging_platform : ControlPlatform (E * list Call) := {
  media_begin ow tk := logged CBegin (media_begin ow tk);
  media_wait_resources l ms := logged (CWait l) (media_wait_resources l ms);
  media_abort t := logged_do (CAbort t) (media_abort t);
  media_end t := logged_do (CEnd t) (media_end t);
  media_release l := logged (CRelease l) (media_release l);
  media_guard_begin ow tk := logged CGuard (media_guard_begin ow tk);
  media_unowned_or_owner_guard_begin ow tk := logged CGuard (media_unowned_or_owner_guard_begin ow tk);
  media_guard_end g := logged_do (CGuardEnd g) (media_guard_end g);
  media_current := logged (fun _ => COther) media_current;
  submit_command_wait r ms := logged (CSubmit r) (submit_command_wait r ms);
  get_snapshot := logged (fun _ => COther) get_snapshot;
  get_values := logged (fun _ => COther) get_values;
  now_ms := logged (fun _ => COther) now_ms
}.
End logging.

(** ** The automaton *)

(** What was heard last: that the resources of a lease did not become ready, or the player's
    answer to a command of that kind under a lease. *)
Inductive Verdict :=
| NotReady (l : PlayerOwnershipLease)
| Answered (kind : option PlayerCommandKind) (l : PlayerOwnershipLease) (succeeded : bool).

#[export] Instance verdict_eq_dec : EqDecision Verdict.
Proof. solve_decision. Defined.

(** The player did what it was asked under the lease. *)
Definition obeyed (l : PlayerOwnershipLease) (v : option Verdict) : Prop :=
  match v with Some (Answered _ l' true) => l' = l | _ => False end.

(** It did not, or the resources were not ready. *)
Definition not_obeyed (l : PlayerOwnershipLease) (v : option Verdict) : Prop :=
  match v with Some (NotReady l') | Some (Answered _ l' false) => l' = l | _ => False end.

(** It stopped under the lease. *)
Definition stopped (l : PlayerOwnershipLease) (v : option Verdict) : Prop :=
  v = Some (Answered (Some PLAYER_COMMAND_STOP) l true).

#[export] Instance obeyed_decision l v : Decision (obeyed l v).
Proof. unfold obeyed. destruct v as [[|? ? []]|]; apply _. Defined.
#[export] Instance not_obeyed_decision l v : Decision (not_obeyed l v).
Proof. unfold not_obeyed. destruct v as [[|? ? []]|]; apply _. Defined.
#[export] Instance stopped_decision l v : Decision (stopped l v).
Proof. unfold stopped. apply _. Defined.

(** The transaction that is open, the leases that were granted, and what was heard last. *)
Record Audit := mkAudit {
  audit_open : option ProtocolMediaTransaction;
  audit_granted : list PlayerOwnershipLease;
  audit_verdict : option Verdict
}.
Definition audit_zero : Audit := mkAudit None [] None.

#[export] Instance transaction_eq_dec : EqDecision ProtocolMediaTransaction.
Proof. solve_decision. Defined.

(** [None] when the call is not allowed here. *)
Definition audit_step (c : Call) (a : Audit) : option Audit :=
  let '(mkAudit opened granted verdict) := a in
  match c with
  | CRequest =>
      (* what was granted to an earlier request does not count any more *)
      if bool_decide (opened = None) then Some audit_zero else None
  | CBegin None => Some a
  | CBegin (Some t) =>
      (* one transaction at a time *)
      if bool_decide (opened = None) then Some (mkAudit (Some t) (transaction_lease t :: granted) None) else None
  | CWait l ready =>
      if bool_decide (l ∈ granted) then Some (mkAudit opened granted (if ready then None else Some (NotReady l))) else None
  | CSubmit r status =>
      (* a command in the name of DLNA has a lease that was granted *)
      if negb (bool_decide (req_source r = Some PLAYER_COMMAND_SOURCE_DLNA)) || bool_decide (req_lease r ∈ granted)
      then Some (mkAudit opened granted (Some (Answered (req_kind r) (req_lease r) (player_command_status_succeeded status)))) else None
  | CEnd t =>
      (* the open transaction, when the player did what was asked under its lease *)
      if bool_decide (opened = Some t) && bool_decide (obeyed (transaction_lease t) verdict) then Some (mkAudit None granted verdict) else None
  | CAbort t =>
      (* the open transaction, when it did not *)
      if bool_decide (opened = Some t) && bool_decide (not_obeyed (transaction_lease t) verdict)
      then Some (mkAudit None (filter (.≠ transaction_lease t) granted) verdict) else None
  | CRelease l _ =>
      (* a lease that was granted, when the last thing that was heard is that the player
         stopped under it *)
      if bool_decide (l ∈ granted) && bool_decide (stopped l verdict)
      then Some (mkAudit opened (filter (.≠ l) granted) verdict) else None
  | CGuard None => Some a
  | CGuard (Some g) => Some (mkAudit opened (guard_lease g :: granted) verdict)
  | CGuardEnd g => if bool_decide (guard_lease g ∈ granted) then Some a else None
  | COther => Some a
  end.

Definition audit (log : list Call) : option Audit := foldl (fun a c => a ≫= audit_step c) (Some audit_zero) log.

Lemma audit_app log c : audit (log ++ [c]) = audit log ≫= audit_step c.
Proof. unfold audit. by rewrite foldl_app. Qed.

#[global] Arguments audit : simpl never.
#[global] Arguments audit_step : simpl never.

(** ** Worlds *)

(** The state before a start (or after a stop or a failed start), or a consistent one. *)
Definition state_good (s : DlnaState) : Prop := s = clear_state_store \/ initialized s = true /\ upnp_ok s.

(** A change of the state keeps it good. *)
Definition keeps_good (f : DlnaState -> DlnaState) : Prop := keeps_ok f /\ f clear_state_store = clear_state_store.

Lemma good_step f s : keeps_good f -> state_good s -> state_good (f s).
Proof.
  intros [Hk Hc] [->|[Hi Hok]]; [left; done|]. right. destruct (Hk s Hok) as [H E]. by rewrite E.
Qed.

Section rules.
Context {E : Type} `{!ControlPlatform E}.
Notation world := (DlnaWorld (E * list Call)).

Definition world_ok (w : world) : Prop := writer_ok (w_out w) /\ state_good (w_state w).

(** From a good world whose log was read to [a], the computation ends in a good world
    with [Q]. *)
Definition wpa {A} (m : action (E * list Call) A) (Q : A -> Audit -> Prop) (a : Audit) : Prop :=
  forall w, world_ok w -> audit (w_env w).2 = Some a ->
    exists x w' a', m w = Done (x, w') /\ world_ok w' /\ audit (w_env w').2 = Some a' /\ Q x a'.

Lemma wpa_ret {A} (x : A) Q a : Q x a -> wpa (mret x) Q a.
Proof. intros HQ w Hw Ha. by exists x, w, a. Qed.

Lemma wpa_bind {A B} (m : action _ A) (k : A -> action _ B) Q a :
  wpa m (fun x a => wpa (k x) Q a) a -> wpa (m ≫= k) Q a.
Proof.
  intros H w Hw Ha. destruct (H w Hw Ha) as (x & w1 & a1 & E1 & Hw1 & Ha1 & Hk).
  destruct (Hk w1 Hw1 Ha1) as (y & w2 & a2 & E2 & Hw2 & Ha2 & HQ). exists y, w2, a2. split; [|done].
  unfold mbind, action_bind. rewrite E1. exact E2.
Qed.

Lemma wpa_mono {A} (m : action _ A) (P Q : A -> Audit -> Prop) a :
  wpa m P a -> (forall x a', P x a' -> Q x a') -> wpa m Q a.
Proof. intros H HPQ w Hw Ha. destruct (H w Hw Ha) as (x & w' & a' & E' & Hw' & Ha' & HP). exists x, w', a'. auto. Qed.

(** *** The platform *)

Lemma wpa_logged {A} (call : A -> Call) (f : E -> A * E) Q a :
  (forall x, exists a', audit_step (call x) a = Some a' /\ Q x a') -> wpa (platform (logged call f)) Q a.
Proof.
  intros H [o s c [e log]] [Hw Hs] Ha. unfold platform, logged. cbn in *. destruct (f e) as [x e1].
  destruct (H x) as (a' & Hstep & HQ). exists x, (mkWorld o s c (e1, log ++ [call x])), a'. split; [done|]. split; [done|].
  split; [|done]. cbn. rewrite audit_app, Ha. cbn. done.
Qed.

Lemma wpa_logged_do (call : Call) (f : E -> E) Q a :
  (exists a', audit_step call a = Some a' /\ Q tt a') -> wpa (platform_do (logged_do call f)) Q a.
Proof.
  intros (a' & Hstep & HQ) [o s c [e log]] [Hw Hs] Ha. unfold platform_do, logged_do. cbn in *.
  exists tt, (mkWorld o s c (f e, log ++ [call])), a'. split; [done|]. split; [done|]. split; [|done]. cbn. rewrite audit_app, Ha. cbn. done.
Qed.

(** *** The static variables and the output *)

Lemma wpa_change_state f (Q : unit -> Audit -> Prop) a : keeps_good f -> Q tt a -> wpa (change_state f) Q a.
Proof.
  intros Hf HQ [o s c e] [Hw Hs] Ha. exists tt, (mkWorld o (f s) c e), a. split; [done|]. split; [|done]. split; [done|]. by apply good_step.
Qed.

Lemma wpa_change_session f (Q : unit -> Audit -> Prop) a : Q tt a -> wpa (change_session f) Q a.
Proof. intros HQ [o s c e] [Hw Hs] Ha. by exists tt, (mkWorld o s (f c) e), a. Qed.

Lemma wpa_read_view (Q : DlnaProtocolStateView -> Audit -> Prop) a : (forall v, Q v a) -> wpa read_view Q a.
Proof. intros HQ w Hw Ha. exists (view (w_state w)), w, a. done. Qed.

Lemma wpa_output f (Q : unit -> Audit -> Prop) a : (forall o, writer_ok o -> writer_ok (f o)) -> Q tt a -> wpa (output f) Q a.
Proof. intros Hf HQ [o s c e] [Hw Hs] Ha. exists tt, (mkWorld (f o) s c e), a. split; [done|]. split; [|done]. split; [by apply Hf|done]. Qed.

Lemma wpa_writing {A} (f : SoapActionOutput -> outcome (A * SoapActionOutput)) Q a :
  (forall o, writer_ok o -> exists x o', f o = Done (x, o') /\ writer_ok o') -> (forall x, Q x a) -> wpa (writing f) Q a.
Proof.
  intros Hf HQ [o s c e] [Hw Hs] Ha. destruct (Hf o Hw) as (x & o' & E' & Ho'). exists x, (mkWorld o' s c e), a.
  unfold writing. cbn in *. rewrite E'. cbn. split; [done|]. done.
Qed.

Lemma wpa_try_call {A} (m : outcome A) (Q : option A -> Audit -> Prop) a : m <> Stuck -> (forall x, Q x a) -> wpa (try_call m) Q a.
Proof.
  intros Hm HQ w Hw Ha. unfold try_call. destruct m as [x| |]; [|exists None|done].
  - by exists (Some x), w, a.
  - by exists w, a.
Qed.
End rules.

(** ** Requests are handled safely *)

#[local] Arguments bytes : simpl never.

(** ** The output *)

Lemma appends_total alloc out need text r : appends alloc out need text r -> exists ok out', r = Done (ok, out') /\ writer_ok out'.
Proof. intros (ok & out' & t & E & H & _). by exists ok, out'. Qed.

Lemma clear_writer_ok o : writer_ok o -> writer_ok (soap_writer_clear o).
Proof.
  intros [Hc Ht]. split; [done|]. change (size (output_text (soap_writer_clear o))) with 0. cbn.
  destruct Ht as [[H _]|H]; [by left|right]. pose proof (size_nonneg (output_text o)). lia.
Qed.

Lemma fault_writer_ok code d o : writer_ok o -> writer_ok (soap_handler_set_fault o code d).
Proof. intros H. unfold soap_handler_set_fault. by apply clear_writer_ok. Qed.

Lemma dispose_writer_ok o : writer_ok o -> writer_ok (soap_writer_dispose o).
Proof. intros H. split; [by vm_compute|by left]. Qed.

Lemma success_total alloc o xml : writer_ok o -> exists o', soap_handler_set_success alloc o xml = Done o' /\ writer_ok o'.
Proof.
  intros H. unfold soap_handler_set_success. destruct xml as [xml|]; [|by eexists].
  match goal with |- context [soap_writer_append_raw alloc ?x _] => assert (Hx : writer_ok x) by by apply clear_writer_ok end.
  edestruct appends_total as (ok & o' & E & Ho'); [by apply append_raw_ok|]. rewrite E. cbn.
  destruct ok; [by exists o'|]. eexists. split; [done|]. by apply clear_writer_ok.
Qed.

Lemma require_total alloc ctx o nm : writer_ok o ->
  exists x o', soap_handler_require_arg_alloc alloc ctx o nm = Done (x, o') /\ writer_ok o'.
Proof.
  intros H. unfold soap_handler_require_arg_alloc. pose proof (extract_ends alloc (body ctx) nm) as He.
  destruct (soap_handler_extract_xml_value_alloc alloc (body ctx) nm); [| |done]; do 2 eexists; split; [done|done|done|].
  by apply fault_writer_ok.
Qed.

(** ** State changes *)

Create HintDb good.

Lemma good_of f : keeps_ok f -> f clear_state_store = clear_state_store -> keeps_good f.
Proof. by split. Qed.

#[export] Hint Extern 1 (keeps_good _) => (apply good_of; [auto with keeps|reflexivity]) : good.

(** ** Actions *)

Section actions.
Context {E : Type} `{!ControlPlatform E} (alloc : Z -> bool) (exclusive : bool) (numeric : list Z -> option Z).
Notation act := (action (E * list Call)).

Lemma wpa_fault code d Q a : Q false a -> wpa (fault code d : act bool) Q a.
Proof.
  intros H. unfold fault. apply wpa_bind, wpa_output; [intros o Ho; by apply fault_writer_ok|]. by apply wpa_ret.
Qed.

Lemma wpa_succeed xml Q a : Q true a -> wpa (succeed alloc xml : act bool) Q a.
Proof.
  intros H. unfold succeed. apply wpa_bind, wpa_writing; [|intros; by apply wpa_ret].
  intros o Ho. destruct (success_total alloc o xml Ho) as (o' & -> & Ho'). by exists tt, o'.
Qed.

Lemma wpa_require ctx nm (Q : option cstring -> Audit -> Prop) a : (forall x, Q x a) -> wpa (require_arg alloc ctx nm : act _) Q a.
Proof. intros H. unfold require_arg. apply wpa_writing; [|done]. intros o Ho. by apply require_total. Qed.

Lemma wpa_try ctx nm (Q : option cstring -> Audit -> Prop) a : (forall x, Q x a) -> wpa (try_arg alloc ctx nm : act _) Q a.
Proof. intros H. unfold try_arg. apply wpa_try_call; [apply extract_ends|done]. Qed.

Lemma wpa_arg_or ctx nm v (Q : option cstring -> Audit -> Prop) a : (forall x, Q x a) -> wpa (arg_or alloc ctx nm v : act _) Q a.
Proof.
  intros H. unfold arg_or. apply wpa_bind, wpa_try. intros [x|]; [by apply wpa_ret|].
  destruct (alloc _); [by apply wpa_ret|]. apply wpa_bind, wpa_fault. by apply wpa_ret.
Qed.

Lemma wpa_or_fault write (Q : bool -> Audit -> Prop) a :
  (forall o, writer_ok o -> exists ok o', write o = Done (ok, o') /\ writer_ok o') -> (forall x, Q x a) ->
  wpa (or_fault write : act bool) Q a.
Proof.
  intros Hw H. unfold or_fault. apply wpa_bind, wpa_writing; [done|]. intros [|]; [by apply wpa_ret|by apply wpa_fault].
Qed.

Lemma text_total nm v o : writer_ok o ->
  exists ok o', soap_writer_element_text alloc o nm (Some v) = Done (ok, o') /\ writer_ok o'.
Proof. intros H. eapply appends_total. by apply element_text_ok. Qed.

Lemma raw_total nm v o : writer_ok o ->
  exists ok o', soap_writer_element_raw alloc o nm (Some v) = Done (ok, o') /\ writer_ok o'.
Proof. intros H. eapply appends_total. by apply element_raw_ok. Qed.

Lemma int_total nm v o : writer_ok o ->
  exists ok o', soap_writer_element_int alloc o nm v = Done (ok, o') /\ writer_ok o'.
Proof. intros H. eapply appends_total. by apply element_int_ok. Qed.

Lemma wpa_text nm v (Q : bool -> Audit -> Prop) a : (forall x, Q x a) -> wpa (avtransport_write_text_element alloc nm v : act bool) Q a.
Proof. intros H. apply wpa_or_fault; [|done]. intros o. apply text_total. Qed.
Lemma wpa_raw nm v (Q : bool -> Audit -> Prop) a : (forall x, Q x a) -> wpa (avtransport_write_raw_element alloc nm v : act bool) Q a.
Proof. intros H. apply wpa_or_fault; [|done]. intros o. apply raw_total. Qed.
Lemma wpa_int nm v (Q : bool -> Audit -> Prop) a : (forall x, Q x a) -> wpa (avtransport_write_int_element alloc nm v : act bool) Q a.
Proof. intros H. apply wpa_or_fault; [|done]. intros o. apply int_total. Qed.

Lemma wpa_and (m m' : act bool) (Q : bool -> Audit -> Prop) a :
  (forall x, Q x a) -> (forall P : bool -> Audit -> Prop, (forall x, P x a) -> wpa m P a) ->
  (forall P : bool -> Audit -> Prop, (forall x, P x a) -> wpa m' P a) -> wpa (m &&& m') Q a.
Proof. intros H H1 H2. unfold andM. apply wpa_bind, H1. intros [|]; [by apply H2|by apply wpa_ret]. Qed.

Lemma wpa_clear (Q : unit -> Audit -> Prop) a : Q tt a -> wpa (clear_output : act unit) Q a.
Proof. intros H. apply wpa_output; [|done]. intros o. apply clear_writer_ok. Qed.
(** *** The player *)

(** An action that leaves no transaction open. *)
Definition closed {A} (m : act A) : Prop :=
  forall (Q : A -> Audit -> Prop) gs v, (forall x gs' v', Q x (mkAudit None gs' v')) -> wpa m Q (mkAudit None gs v).

Lemma wpa_submit l (r : PlayerCommandRequest) ms (Q : PlayerCommandStatus -> Audit -> Prop) o gs v :
  req_lease r = l -> l ∈ gs -> (forall st, Q st (mkAudit o gs (Some (Answered (req_kind r) l (player_command_status_succeeded st))))) ->
  wpa (platform (submit_command_wait r ms) : act _) Q (mkAudit o gs v).
Proof.
  intros <- Hl H. apply wpa_logged. intros st. eexists. split; [|apply H]. unfold audit_step.
  by rewrite (bool_decide_eq_true_2 (req_lease r ∈ gs)), orb_true_r.
Qed.

Lemma wpa_submit_other (r : PlayerCommandRequest) ms (Q : PlayerCommandStatus -> Audit -> Prop) o gs v :
  req_source r <> Some PLAYER_COMMAND_SOURCE_DLNA ->
  (forall st, Q st (mkAudit o gs (Some (Answered (req_kind r) (req_lease r) (player_command_status_succeeded st))))) ->
  wpa (platform (submit_command_wait r ms) : act _) Q (mkAudit o gs v).
Proof.
  intros Hr H. apply wpa_logged. intros st. eexists. split; [|apply H]. unfold audit_step.
  by rewrite (bool_decide_eq_false_2 (req_source r = _)).
Qed.

Lemma wpa_guard ow tk (Q : option ProtocolMediaGuard -> Audit -> Prop) o gs v :
  Q None (mkAudit o gs v) -> (forall g, Q (Some g) (mkAudit o (guard_lease g :: gs) v)) ->
  wpa (platform (media_guard_begin ow tk) : act _) Q (mkAudit o gs v).
Proof. intros H1 H2. apply wpa_logged. intros [g|]; eexists; (split; [reflexivity|done]). Qed.

Lemma wpa_unowned_guard ow tk (Q : option ProtocolMediaGuard -> Audit -> Prop) o gs v :
  Q None (mkAudit o gs v) -> (forall g, Q (Some g) (mkAudit o (guard_lease g :: gs) v)) ->
  wpa (platform (media_unowned_or_owner_guard_begin ow tk) : act _) Q (mkAudit o gs v).
Proof. intros H1 H2. apply wpa_logged. intros [g|]; eexists; (split; [reflexivity|done]). Qed.

Lemma wpa_guard_end g (Q : unit -> Audit -> Prop) o gs v : guard_lease g ∈ gs -> Q tt (mkAudit o gs v) ->
  wpa (platform_do (media_guard_end g) : act _) Q (mkAudit o gs v).
Proof. intros Hg H. apply wpa_logged_do. eexists. split; [|apply H]. unfold audit_step. by rewrite bool_decide_eq_true_2. Qed.

Lemma wpa_begin ow tk (Q : option ProtocolMediaTransaction -> Audit -> Prop) gs v :
  Q None (mkAudit None gs v) -> (forall t, Q (Some t) (mkAudit (Some t) (transaction_lease t :: gs) None)) ->
  wpa (platform (media_begin ow tk) : act _) Q (mkAudit None gs v).
Proof. intros H1 H2. apply wpa_logged. intros [t|]; eexists; (split; [reflexivity|done]). Qed.

Lemma wpa_wait l ms (Q : bool -> Audit -> Prop) o gs v : l ∈ gs ->
  (forall b, Q b (mkAudit o gs (if b then None else Some (NotReady l)))) ->
  wpa (platform (media_wait_resources l ms) : act _) Q (mkAudit o gs v).
Proof. intros Hl H. apply wpa_logged. intros b. eexists. split; [|apply H]. unfold audit_step. by rewrite bool_decide_eq_true_2. Qed.

Lemma wpa_end t (Q : unit -> Audit -> Prop) gs v : obeyed (transaction_lease t) v -> Q tt (mkAudit None gs v) ->
  wpa (platform_do (media_end t) : act _) Q (mkAudit (Some t) gs v).
Proof.
  intros Hv H. apply wpa_logged_do. eexists. split; [|apply H]. unfold audit_step. by rewrite !bool_decide_eq_true_2.
Qed.

Lemma wpa_abort t (Q : unit -> Audit -> Prop) gs v : not_obeyed (transaction_lease t) v -> (forall gs', Q tt (mkAudit None gs' v)) ->
  wpa (platform_do (media_abort t) : act _) Q (mkAudit (Some t) gs v).
Proof.
  intros Hv H. apply wpa_logged_do. eexists. split; [|apply H]. unfold audit_step. by rewrite !bool_decide_eq_true_2.
Qed.

Lemma wpa_release l (Q : bool -> Audit -> Prop) o gs v : l ∈ gs -> stopped l v -> (forall b gs', Q b (mkAudit o gs' v)) ->
  wpa (platform (media_release l) : act _) Q (mkAudit o gs v).
Proof.
  intros Hl Hv H. apply wpa_logged. intros b. eexists. split; [|apply H]. unfold audit_step. by rewrite !bool_decide_eq_true_2.
Qed.

(** The calls that the audit does not look at. *)
Lemma wpa_other {A} (f : E -> A * E) (Q : A -> Audit -> Prop) a : (forall x, Q x a) ->
  wpa (platform (logged (fun _ => COther) f)) Q a.
Proof. intros H. apply wpa_logged. intros x. exists a. split; [by destruct a|done]. Qed.

(** Symbolic execution of an action that was unfolded. *)
Ltac member := first [by left | by right; left | set_solver].
Ltac exec :=
  repeat first
    [ assumption
    | match goal with
      | H : forall x gs v, ?Q x (mkAudit None gs v) |- ?Q _ (mkAudit None _ _) => apply H
      | H : forall x, ?P x ?a |- ?P _ ?a => apply H
      end
    | progress cbn [negb]
    | progress cbv beta iota zeta
    | match goal with
      | |- wpa (mbind _ _) _ _ => apply wpa_bind
      | |- wpa (mret _) _ _ => apply wpa_ret
      | |- wpa (fault _ _) _ _ => apply wpa_fault
      | |- wpa (succeed _ _) _ _ => apply wpa_succeed
      | |- wpa (require_arg _ _ _) _ _ => apply wpa_require; intros [?|]
      | |- wpa (arg_or _ _ _ _) _ _ => apply wpa_arg_or; intros [?|]
      | |- wpa (avtransport_try_instance_id _ _) _ _ => apply wpa_arg_or; intros [?|]
      | |- wpa clear_output _ _ => apply wpa_clear
      | |- wpa (andM _ _) _ _ => apply wpa_and; [intros ?|intros ? ?|intros ? ?]
      | |- wpa (avtransport_write_text_element _ _ _) _ _ => apply wpa_text; intros ?
      | |- wpa (avtransport_write_raw_element _ _ _) _ _ => apply wpa_raw; intros ?
      | |- wpa (avtransport_write_int_element _ _ _) _ _ => apply wpa_int; intros ?
      | |- wpa (writing (fun out => soap_writer_element_text _ out _ _)) _ _ => apply wpa_writing; [intros ?; apply text_total|intros ?]
      | |- wpa (writing (fun out => soap_writer_element_raw _ out _ _)) _ _ => apply wpa_writing; [intros ?; apply raw_total|intros ?]
      | |- wpa (writing (fun out => soap_writer_element_int _ out _ _)) _ _ => apply wpa_writing; [intros ?; apply int_total|intros ?]
      | |- wpa (platform (media_guard_begin _ _)) _ _ => apply wpa_guard; [|intros ?]
      | |- wpa (platform (media_unowned_or_owner_guard_begin _ _)) _ _ => apply wpa_unowned_guard; [|intros ?]
      | |- wpa (platform (media_begin _ _)) _ _ => apply wpa_begin; [|intros ?]
      | |- wpa (platform (media_wait_resources _ _)) _ _ => apply wpa_wait; [member|intros []]
      | |- wpa (platform (submit_command_wait _ _)) _ _ => eapply wpa_submit; [reflexivity|member|intros ?]
      | |- wpa (platform (submit_command_wait _ _)) _ _ => apply wpa_submit_other; [done|intros ?]
      | |- wpa (platform (media_release _)) _ _ => apply wpa_release; [member|reflexivity|intros ? ?]
      | |- wpa (platform media_current) _ _ => apply wpa_other; intros ?
      | |- wpa (platform get_snapshot) _ _ => apply wpa_other; intros ?
      | |- wpa (platform get_values) _ _ => apply wpa_other; intros ?
      | |- wpa (platform now_ms) _ _ => apply wpa_other; intros ?
      | |- wpa (platform_do (media_guard_end _)) _ _ => apply wpa_guard_end; [member|]
      | |- wpa (platform_do (media_end _)) _ (mkAudit _ _ (Some (Answered _ _ true))) => apply wpa_end; [reflexivity|]
      | |- wpa (platform_do (media_abort _)) _ (mkAudit _ _ (Some (Answered _ _ false))) => apply wpa_abort; [reflexivity|intros ?]
      | |- wpa (platform_do (media_abort _)) _ (mkAudit _ _ (Some (NotReady _))) => apply wpa_abort; [reflexivity|intros ?]
      | |- wpa (change_session _) _ _ => apply wpa_change_session
      | |- wpa (change_state _) _ _ => apply wpa_change_state; [auto with good|]
      | |- wpa read_view _ _ => apply wpa_read_view; intros ?
      | |- context [player_command_status_succeeded ?st] => destruct (player_command_status_succeeded st); cbn [negb]
      | |- wpa (platform_do (match ?b with _ => _ end)) _ _ => destruct b
      | |- wpa (match ?x with _ => _ end) _ _ => destruct x
      end ].

Ltac closing op := intros Q gs v HQ; unfold op; exec.

Lemma closed_note_poll : closed (avtransport_note_controller_poll : act unit).
Proof. closing @avtransport_note_controller_poll. Qed.

Lemma closed_refresh : closed (avtransport_refresh_controller : act unit).
Proof. closing @avtransport_refresh_controller. Qed.

Lemma closed_owned kind text value : closed (avtransport_submit_owned_command kind text value : act bool).
Proof. intros Q gs v HQ. unfold avtransport_submit_owned_command, avtransport_submit_leased_command. exec. Qed.

Lemma closed_play_command : closed (avtransport_submit_play_command : act bool).
Proof. intros Q gs v HQ. unfold avtransport_submit_play_command, avtransport_submit_leased_command. exec. Qed.

Lemma closed_stop_and_release : closed (avtransport_submit_stop_and_release exclusive : act bool).
Proof.
  intros Q gs v HQ. unfold avtransport_submit_stop_and_release, avtransport_submit_leased_command. destruct exclusive; [|by apply closed_owned].
  exec.
Qed.

Lemma closed_get_snapshot : closed (avtransport_get_snapshot : act PlayerSnapshot).
Proof. closing @avtransport_get_snapshot. Qed.

(** A closed part of an action. *)
Lemma closed_apply {A} (m : act A) (Q : A -> Audit -> Prop) gs v :
  closed m -> (forall x gs' v', Q x (mkAudit None gs' v')) -> wpa m Q (mkAudit None gs v).
Proof. intros H HQ. by apply H. Qed.

Lemma wpa_escape value (Q : option cstring -> Audit -> Prop) a : (forall x, Q x a) -> wpa (avtransport_escape_alloc alloc value : act _) Q a.
Proof. intros H. unfold avtransport_escape_alloc. destruct (soap_handler_xml_escape_alloc alloc (Some value)); exec. Qed.

Ltac exec_action :=
  exec;
  repeat (
    match goal with
    | |- wpa avtransport_note_controller_poll _ _ => apply (closed_apply _ _ _ _ closed_note_poll); intros
    | |- wpa avtransport_refresh_controller _ _ => apply (closed_apply _ _ _ _ closed_refresh); intros
    | |- wpa (avtransport_submit_owned_command _ _ _) _ _ => apply (closed_apply _ _ _ _ (closed_owned _ _ _)); intros
    | |- wpa (avtransport_run_owned_seek_ms _) _ _ => apply (closed_apply _ _ _ _ (closed_owned _ _ _)); intros
    | |- wpa (avtransport_run_owned_seek_target _) _ _ => apply (closed_apply _ _ _ _ (closed_owned _ _ _)); intros
    | |- wpa avtransport_submit_play_command _ _ => apply (closed_apply _ _ _ _ closed_play_command); intros
    | |- wpa (avtransport_submit_stop_and_release _) _ _ => apply (closed_apply _ _ _ _ closed_stop_and_release); intros
    | |- wpa (avtransport_escape_alloc _ _) _ _ => apply wpa_escape; intros [?|]
    | |- wpa avtransport_get_snapshot _ _ => apply (closed_apply _ _ _ _ closed_get_snapshot); intros
    end; exec).
Ltac closing op ::= intros Q gs v HQ; unfold op; exec_action.

Lemma closed_seek_track target : closed (avtransport_seek_track_number alloc target : act bool).
Proof. closing @avtransport_seek_track_number. Qed.

Lemma closed_track_nav ctx delta : closed (avtransport_track_nav alloc ctx delta : act bool).
Proof. closing @avtransport_track_nav. Qed.

Lemma closed_set_uri ctx : closed (avtransport_set_uri alloc ctx : act bool).
Proof. closing @avtransport_set_uri. Qed.

Lemma closed_play ctx : closed (avtransport_play alloc exclusive ctx : act bool).
Proof. closing @avtransport_play. Qed.

Lemma closed_pause ctx : closed (avtransport_pause alloc ctx : act bool).
Proof. closing @avtransport_pause. Qed.

Lemma closed_stop ctx : closed (avtransport_stop alloc exclusive ctx : act bool).
Proof. closing @avtransport_stop. Qed.

Lemma closed_transport_info ctx : closed (avtransport_get_transport_info alloc ctx : act bool).
Proof. closing @avtransport_get_transport_info. Qed.

Lemma closed_capabilities ctx : closed (avtransport_get_device_capabilities alloc ctx : act bool).
Proof. closing @avtransport_get_device_capabilities. Qed.

Lemma closed_settings ctx : closed (avtransport_get_transport_settings alloc ctx : act bool).
Proof. closing @avtransport_get_transport_settings. Qed.

Lemma closed_actions ctx : closed (avtransport_get_current_transport_actions alloc ctx : act bool).
Proof. closing @avtransport_get_current_transport_actions. Qed.

Lemma closed_media_info ctx : closed (avtransport_get_media_info alloc ctx : act bool).
Proof. closing @avtransport_get_media_info. Qed.

Lemma closed_position_info ctx : closed (avtransport_get_position_info alloc ctx : act bool).
Proof. closing @avtransport_get_position_info. Qed.

Lemma closed_seek ctx : closed (avtransport_seek alloc numeric ctx : act bool).
Proof.
  intros Q gs v HQ. unfold avtransport_seek. exec_action. apply closed_seek_track. intros [] gs' v'; exec_action.
Qed.

Lemma closed_play_mode ctx : closed (avtransport_set_play_mode alloc ctx : act bool).
Proof. closing @avtransport_set_play_mode. Qed.

(** *** RenderingControl and ConnectionManager *)

Lemma closed_rendering kind value flag : closed (renderingcontrol_submit exclusive kind value flag : act bool).
Proof. closing @renderingcontrol_submit. Qed.

Lemma closed_respond write :
  (forall o, writer_ok o -> exists ok o', write o = Done (ok, o') /\ writer_ok o') -> closed (respond alloc write : act bool).
Proof.
  intros Hw Q gs v HQ. unfold respond. exec. apply wpa_writing; [done|]. intros [|]; exec.
Qed.

Lemma closed_changed (m : act bool) : closed m -> closed (changed_or_fault alloc m).
Proof. intros Hm Q gs v HQ. unfold changed_or_fault. exec. apply Hm. intros [] gs' v'; exec. Qed.

Lemma closed_and (m m' : act bool) : closed m -> closed m' -> closed (m &&& m').
Proof. intros H H' Q gs v HQ. unfold andM. exec. apply H. intros [] gs1 v1; [by apply H'|exec]. Qed.

(** One of these, after the arguments were read. *)
Ltac control :=
  exec_action;
  try (match goal with
       | |- wpa (respond _ _) _ _ => apply closed_respond; [intros ?; first [apply text_total|apply int_total]|assumption]
       | |- wpa (changed_or_fault _ _) _ _ =>
           apply closed_changed; [repeat first [apply closed_rendering | apply closed_and]|assumption]
       end).

Ltac controlling op := intros Q gs v HQ; unfold op; control.

Lemma closed_get_brightness ctx : closed (renderingcontrol_get_brightness alloc ctx : act bool).
Proof. controlling @renderingcontrol_get_brightness. Qed.
Lemma closed_get_volume ctx : closed (renderingcontrol_get_volume alloc ctx : act bool).
Proof. controlling @renderingcontrol_get_volume. Qed.
Lemma closed_set_volume ctx : closed (renderingcontrol_set_volume alloc exclusive ctx : act bool).
Proof. controlling @renderingcontrol_set_volume. Qed.
Lemma closed_list_presets ctx : closed (renderingcontrol_list_presets alloc ctx : act bool).
Proof. controlling @renderingcontrol_list_presets. Qed.
Lemma closed_select_preset ctx : closed (renderingcontrol_select_preset alloc exclusive ctx : act bool).
Proof. controlling @renderingcontrol_select_preset. Qed.
Lemma closed_get_mute ctx : closed (renderingcontrol_get_mute alloc ctx : act bool).
Proof. controlling @renderingcontrol_get_mute. Qed.
Lemma closed_set_mute ctx : closed (renderingcontrol_set_mute alloc exclusive ctx : act bool).
Proof. controlling @renderingcontrol_set_mute. Qed.
Lemma closed_protocol_info ctx : closed (connectionmanager_get_protocol_info alloc ctx : act bool).
Proof. controlling @connectionmanager_get_protocol_info. Qed.
Lemma closed_connection_ids ctx : closed (connectionmanager_get_current_connection_ids alloc ctx : act bool).
Proof. controlling @connectionmanager_get_current_connection_ids. Qed.
Lemma closed_connection_info ctx : closed (connectionmanager_get_current_connection_info alloc ctx : act bool).
Proof. controlling @connectionmanager_get_current_connection_info. Qed.

(** *** The routes and the server *)

Lemma closed_route r ctx : r ∈ g_routes alloc exclusive numeric -> closed (route_handler r ctx : act bool).
Proof.
  intros Hr. unfold g_routes in Hr. cbv zeta in Hr.
  repeat (apply elem_of_cons in Hr as [->|Hr]); [..|by apply elem_of_nil in Hr]; cbn [route_handler].
  - apply closed_set_uri.
  - apply closed_play.
  - apply closed_pause.
  - apply closed_stop.
  - apply closed_capabilities.
  - apply closed_transport_info.
  - apply closed_settings.
  - apply closed_actions.
  - apply closed_media_info.
  - apply closed_position_info.
  - apply closed_seek.
  - apply closed_track_nav.
  - apply closed_track_nav.
  - apply closed_play_mode.
  - apply closed_get_brightness.
  - apply closed_get_volume.
  - apply closed_set_volume.
  - apply closed_get_mute.
  - apply closed_set_mute.
  - apply closed_list_presets.
  - apply closed_select_preset.
  - apply closed_protocol_info.
  - apply closed_connection_ids.
  - apply closed_connection_info.
Qed.

Lemma find_route_in sn an r : find_route (E := E * list Call) alloc exclusive numeric sn an = Some r -> r ∈ g_routes alloc exclusive numeric.
Proof.
  unfold find_route. intros H. apply head_Some_elem_of in H. by apply list_elem_of_filter in H as [_ H].
Qed.

Lemma closed_router ctx : closed (soap_router_route_action alloc exclusive numeric ctx : act _).
Proof.
  intros Q gs v HQ. unfold soap_router_route_action.
  destruct (find_route alloc exclusive numeric (service_name ctx) (action_name ctx)) as [r|] eqn:Hr.
  - exec. apply (closed_route r ctx); [by eapply find_route_in|]. intros. exec.
  - exec.
Qed.

Lemma closed_call_action info ctx n : closed (call_action alloc exclusive numeric info ctx n : act _).
Proof.
  intros Q gs v HQ. unfold call_action. exec.
  apply wpa_output; [intros; apply zero_writer_ok|]. exec. apply closed_router. intros [[st an] ok] gs' v'. exec.
  intros w Hw Ha. exists (w_out w), w, (mkAudit None gs' v'). split; [done|]. split; [done|]. split; [done|].
  exec. apply wpa_output; [apply dispose_writer_ok|]. exec.
Qed.

Lemma get_header_ends request header : get_header_value_alloc alloc request header <> Stuck.
Proof.
  unfold get_header_value_alloc. destruct (find_header _ header request) as [[l|]|] eqn:H; [by destruct (alloc _)|done|].
  by apply find_header_ends in H; [|lia].
Qed.

Lemma closed_server info running method path request n :
  closed (soap_server_try_handle_http alloc exclusive numeric info running method path request n : act _).
Proof.
  intros Q gs v HQ. unfold soap_server_try_handle_http. exec.
  apply wpa_try_call; [apply get_header_ends|]. intros x. exec. by apply closed_call_action.
Qed.
End actions.
