(* ===== verification/DlnaSystem.v ===== *)
(** * DLNA control as a whole

    The module is started and stopped, requests arrive, and the player reports events,
    in any order.  The memory may fail differently at every step. *)

From S2P Require Import Prelude Buffers CText Ownership CoordData CoordMedia PlayerTypes PlayerCommands SeekTarget SoapWriter SoapXml SoapText DlnaState DlnaView ControllerSession DlnaActions DlnaControl DlnaServer DlnaStateFacts DlnaSafety.

#[local] Arguments bytes : simpl never.

(** ** Steps *)

(** The static variables of the module, and the environment with the log. *)
Record DlnaModule (E : Type) := mkModule {
  d_running : bool;
  d_state : DlnaState;
  d_session : ControllerSession;
  d_env : E * list Call
}.
Arguments mkModule {E} _ _ _ _.
Arguments d_running {E} _.
Arguments d_state {E} _.
Arguments d_session {E} _.
Arguments d_env {E} _.

Section system.
Context {E : Type} `{!ControlPlatform E}.
Notation module := (DlnaModule E).

Definition module_start (e : E) : module := mkModule false clear_state_store controller_zero (e, []).

(** A request, from the state of the module. *)
Definition handle_request (alloc : Z -> bool) (exclusive : bool) (numeric : list Z -> option Z) (info : cstring)
    (method : option cstring) (path : cstring) (request : option cstring) (response_size : Z) (d : module)
    : outcome (option cstring * module) :=
  '(response, w) ← soap_server_try_handle_http alloc exclusive numeric info (d_running d) method path request response_size
    (mkWorld output_zero (d_state d) (d_session d) ((d_env d).1, (d_env d).2 ++ [CRequest]));
  Done (response, mkModule (d_running d) (w_state w) (w_session w) (w_env w)).

Inductive dlna_step : module -> module -> Prop :=
| step_start alloc template snapshot d running s :
    soap_server_start alloc template snapshot (d_running d) (d_state d) = (running, s) ->
    dlna_step d (mkModule running s (d_session d) (d_env d))
| step_stop d running s :
    soap_server_stop (d_running d) (d_state d) = (running, s) ->
    dlna_step d (mkModule running s (d_session d) (d_env d))
| step_request alloc exclusive numeric info method path request response_size d response d' :
    handle_request alloc exclusive numeric info method path request response_size d = Done (response, d') -> dlna_step d d'
| step_event alloc current event d :
    d_running d = true ->
    dlna_step d (mkModule (d_running d) (soap_handler_on_renderer_event alloc current event (d_state d)) (d_session d) (d_env d))
| step_session f d : dlna_step d (mkModule (d_running d) (d_state d) (f (d_session d)) (d_env d))
| step_platform e d : dlna_step d (mkModule (d_running d) (d_state d) (d_session d) (e, (d_env d).2)).

Definition dlna_reachable (d : module) : Prop := exists e, rtc dlna_step (module_start e) d.

(** ** The invariant *)

Definition module_ok (d : module) : Prop :=
  state_good (d_state d) /\ (d_running d = false -> d_state d = clear_state_store) /\
  exists a, audit (d_env d).2 = Some a /\ audit_open a = None.

Lemma stopped_request alloc exclusive numeric info method path request n d response d' : d_running d = false ->
  handle_request alloc exclusive numeric info method path request n d = Done (response, d') -> d_state d' = d_state d.
Proof.
  unfold handle_request. intros -> H. apply bind_done in H as ([x w'] & H & H'). injection H' as _ <-. cbn.
  unfold soap_server_try_handle_http in H. destruct (_ && _); by injection H as _ <-.
Qed.

(** Every request returns, and keeps the invariant. *)
Lemma request_ok alloc exclusive numeric info method path request n d : module_ok d ->
  exists response d', handle_request alloc exclusive numeric info method path request n d = Done (response, d') /\
    module_ok d' /\ d_running d' = d_running d.
Proof.
  intros (Hs & Hr & [o gs v] & Ha & Ho). cbn in Ho. subst o.
  destruct (closed_server alloc exclusive numeric info (d_running d) method path request n (fun _ a => audit_open a = None) [] None
    ltac:(done) (mkWorld output_zero (d_state d) (d_session d) ((d_env d).1, (d_env d).2 ++ [CRequest]))) as (x & w' & a' & E' & [Hw' Hs'] & Ha' & HQ);
    [split; [apply zero_writer_ok|done]|cbn; by rewrite audit_app, Ha|].
  assert (Eh : handle_request alloc exclusive numeric info method path request n d =
    Done (x, mkModule (d_running d) (w_state w') (w_session w') (w_env w'))) by (unfold handle_request; by rewrite E').
  exists x. eexists. split; [exact Eh|]. split; [|done]. split; [done|]. split; [|by exists a'].
  intros Hrun. apply stopped_request in Eh; [|exact Hrun]. cbn in *. rewrite Eh. by apply Hr.
Qed.

Lemma sync_good alloc snapshot : keeps_good (dlna_protocol_state_sync_from_renderer alloc snapshot).
Proof. auto with good. Qed.

Lemma step_keeps_ok d d' : dlna_step d d' -> module_ok d -> module_ok d'.
Proof.
  intros Hstep Hok. pose proof Hok as (Hs & Hr & Ha). destruct Hstep.
  - unfold soap_server_start in *. destruct (d_running d) eqn:Hrun; simplify_eq; split_and!; try done.
    cbn. apply good_step; [apply sync_good|]. destruct (init_ok alloc template) as [->|H]; [by left|by right].
  - unfold soap_server_stop in *. destruct (d_running d) eqn:Hrun; simplify_eq; split_and!; try done; cbn; try (by left); by apply Hr.
  - destruct (request_ok alloc exclusive numeric info method path request response_size d Hok) as (r & d1 & E1 & H1 & _). congruence.
  - split_and!; try done; cbn; [|congruence]. unfold soap_handler_on_renderer_event.
    destruct current as [l|]; [destruct (_ || _); [done|]|]; (apply good_step; [|done]); auto with good.
  - done.
  - done.
Qed.

Lemma dlna_reachable_ok d : dlna_reachable d -> module_ok d.
Proof.
  intros (e & H). assert (H0 : module_ok (module_start e)) by (split; [by left|]; split; [done|]; by exists audit_zero).
  revert H0. induction H as [|x y z Hxy _ IH]; [done|]. intros Hx. apply IH. by eapply step_keeps_ok.
Qed.
End system.

(** ** The view *)

Lemma view_strings s : bound s ->
  transport_state (view s) = string_of s "TransportState" /\
  transport_status (view s) = string_of s "TransportStatus" /\
  current_play_mode (view s) = string_of s "CurrentPlayMode" /\
  playback_storage_medium (view s) = string_of s "PlaybackStorageMedium" /\
  a_arg_type_direction (view s) = string_of s "A_ARG_TYPE_Direction" /\
  av_transport_uri (view s) = string_of s "AVTransportURI" /\
  av_transport_uri_metadata (view s) = string_of s "AVTransportURIMetaData" /\
  current_track_uri (view s) = string_of s "CurrentTrackURI" /\
  current_track (view s) = int_of s "CurrentTrack" /\
  number_of_tracks (view s) = int_of s "NumberOfTracks".
Proof. intros [Hr Hv]. rewrite Hv, Hr. by split_and!. Qed.

(** C31: In every state that starts, stops, requests and events of the player can lead to,
    with memory that fails at any time: every request returns; a module without variables
    - a stopped one, or one whose start found no templates or no memory - has the cleared
    state; and in one with variables the view shows them as they are: TransportState,
    TransportStatus, CurrentPlayMode, PlaybackStorageMedium and A_ARG_TYPE_Direction have
    one of the values that the service description lists for them, and CurrentTrack and
    NumberOfTracks are 0 or 1.  (TransportPlaySpeed has a list, too, but holds any text that
    a controller sends.) *)
Theorem upnp_state_stays_consistent `{!ControlPlatform E} (d : DlnaModule E) : dlna_reachable d ->
  (forall alloc exclusive numeric info method path request n, exists response d',
     handle_request alloc exclusive numeric info method path request n d = Done (response, d') /\ dlna_reachable d') /\
  (d_running d = false \/ initialized (d_state d) = false -> d_state d = clear_state_store) /\
  (initialized (d_state d) = true ->
    let v := view (d_state d) in
    v = state_view_of (state_refs_of (items (d_state d))) (items (d_state d)) /\
    transport_state v ∈ map bytes ["STOPPED"; "PAUSED_PLAYBACK"; "PLAYING"; "TRANSITIONING"; "NO_MEDIA_PRESENT"]%string /\
    transport_status v ∈ map bytes ["OK"; "ERROR_OCCURRED"]%string /\
    current_play_mode v ∈ map bytes ["NORMAL"; "REPEAT_ONE"; "REPEAT_ALL"; "SHUFFLE"; "SHUFFLE_NOREPEAT"]%string /\
    playback_storage_medium v ∈ map bytes ["NONE"; "UNKNOWN"; "CD-DA"; "HDD"; "NETWORK"]%string /\
    a_arg_type_direction v ∈ map bytes ["Input"; "Output"]%string /\
    0 <= current_track v <= 1 /\ 0 <= number_of_tracks v <= 1).
Proof.
  intros Hd. pose proof (dlna_reachable_ok d Hd) as Hok. split; [|split].
  - intros alloc exclusive numeric info method path request n.
    destruct (request_ok alloc exclusive numeric info method path request n d Hok) as (r & d' & E' & _).
    exists r, d'. split; [done|]. destruct Hd as (e & He). exists e. eapply rtc_r; [exact He|]. by eapply step_request.
  - intros [Hr|Hi]; [by apply Hok|]. destruct Hok as ([Hc|[Hi' _]] & _ & _); [done|congruence].
  - intros Hi. destruct Hok as ([Hc|[_ Hu]] & _ & _); [by rewrite Hc in Hi|]. destruct Hu as [Hb Hall Ht].
    cbv zeta.
    destruct (view_strings _ Hb) as (-> & -> & -> & -> & -> & _ & _ & _ & -> & ->). split; [destruct Hb as [<- ->]; done|].
    split_and!; try (apply Hall; repeat first [by left|right]); apply Ht.
Qed.

(** C30: What DLNA asks of the coordinator and the player, in every reachable state, over
    the whole log: a command in DLNA's name carries a lease that the coordinator granted
    during the same request and that was neither aborted nor released since; a transaction is
    begun only when none is open, is ended only after the player did what was asked
    under its lease, and is aborted only when the player did not or the lease's resources did
    not become ready; a lease is released only when the player's last answer was that it
    stopped under that very lease; and no transaction stays open. *)
Theorem player_is_asked_under_a_lease `{!ControlPlatform E} (d : DlnaModule E) : dlna_reachable d ->
  exists a, audit (d_env d).2 = Some a /\ audit_open a = None.
Proof. intros Hd. apply (dlna_reachable_ok d Hd). Qed.

(** ** An example *)

(** The player and the coordinator of the example: the register of media ownership, and
    the uri that was opened last; the player does what it is asked under a valid lease. *)
Record SamplePlayer := mkSample { sample_register : Register; sample_uri : option cstring }.

Definition sample_mode : Mode := mkMode false true false false false.

Definition on_register {A} (op : MediaOp) (result : MediaResult -> A) (p : SamplePlayer) : A * SamplePlayer :=
  let '(r, g) := media_spec sample_mode op (sample_register p) in (result r, mkSample g (sample_uri p)).

Definition as_guard (r : MediaResult) : option ProtocolMediaGuard := match r with ResGuard g => g | _ => None end.

#[export] Instance sample_platform : ControlPlatform SamplePlayer := {
  media_begin ow tk := on_register (MediaBegin ow tk) (fun r => match r with ResTransaction t => t | _ => None end);
  media_wait_resources l ms p := (true, p);
  media_abort t p := (on_register (MediaAbort (Some t)) (fun _ => tt) p).2;
  media_end t p := p;
  media_release l := on_register (MediaRelease (Some l)) (fun r => match r with ResReleased b => b | _ => false end);
  media_guard_begin ow tk := on_register (MediaGuard ow tk) as_guard;
  media_unowned_or_owner_guard_begin ow tk := on_register (MediaUnownedGuard ow tk) as_guard;
  media_guard_end g p := p;
  media_current := on_register MediaCurrent (fun r => match r with ResCurrent true l => Some l | _ => None end);
  submit_command_wait r ms p :=
    if in_force (req_lease r) (sample_register p)
    then (PLAYER_COMMAND_STATUS_EXECUTED,
          mkSample (sample_register p) (if bool_decide (req_kind r = Some PLAYER_COMMAND_OPEN) then req_uri r else sample_uri p))
    else (PLAYER_COMMAND_STATUS_STALE, p);
  get_snapshot p := (None, p);
  get_values p := (player_snapshot_zero, p);
  now_ms p := (0, p)
}.

Definition sample_variable (v : string * string) : cstring :=
  quoted "<stateVariable sendEvents='no'><name>" ++ bytes v.1 ++ bytes "</name><dataType>" ++ bytes v.2 ++ bytes "</dataType></stateVariable>".

(** Service templates with the variables that the module uses. *)
Definition sample_template (path : cstring) : option cstring :=
  if strcmp_equal path (bytes "AVTransport.xml") then
    Some (concat (map (fun n => sample_variable (n, "string"%string)) upnp_strings) ++
          concat (map sample_variable [("CurrentTrack", "ui4"); ("NumberOfTracks", "ui4"); ("RelativeCounterPosition", "i4");
            ("AbsoluteCounterPosition", "i4"); ("Volume", "ui2"); ("Mute", "boolean")]%string))
  else if strcmp_equal path (bytes "SinkProtocolInfo.csv") then None else Some [].

Definition soap_request (service action arguments : string) : cstring :=
  bytes "POST /upnp/control/" ++ bytes service ++ bytes " HTTP/1.1" ++ crlf ++
  quoted "SOAPACTION: 'urn:schemas-upnp-org:service:" ++ bytes service ++ bytes ":1#" ++ bytes action ++ [34] ++ crlf ++ crlf ++
  bytes "<s:Envelope><s:Body><u:" ++ bytes action ++ bytes ">" ++ bytes arguments ++ bytes "</u:" ++ bytes action ++ bytes "></s:Body></s:Envelope>".

Definition sample_start : DlnaModule SamplePlayer := module_start (mkSample (mkRegister lease_zero 0) None).
Definition sample_request (service action arguments : string) (d : DlnaModule SamplePlayer) : outcome (option cstring * DlnaModule SamplePlayer) :=
  handle_request all_memory false (fun _ => None) (bytes "Switch") (Some (bytes "POST"))
    (bytes "/upnp/control/" ++ bytes service) (Some (soap_request service action arguments)) 65536 d.

Definition sample_running : DlnaModule SamplePlayer :=
  let '(running, s) := soap_server_start all_memory sample_template None false clear_state_store in
  mkModule running s (d_session sample_start) (d_env sample_start).

Definition sample_opened : DlnaModule SamplePlayer :=
  match sample_request "AVTransport" "SetAVTransportURI"
    "<InstanceID>0</InstanceID><CurrentURI>http://host/a?b=1&amp;c=2</CurrentURI>" sample_running with
  | Done (_, d) => d
  | _ => sample_running
  end.

Lemma sample_opened_reachable : dlna_reachable sample_opened.
Proof.
  exists (mkSample (mkRegister lease_zero 0) None).
  apply rtc_l with sample_running.
  - apply (step_start all_memory sample_template None sample_start true). vm_compute. reflexivity.
  - apply rtc_once.
    eapply (step_request all_memory false (fun _ => None) (bytes "Switch") (Some (bytes "POST")) (bytes "/upnp/control/AVTransport")
      (Some (soap_request "AVTransport" "SetAVTransportURI" "<InstanceID>0</InstanceID><CurrentURI>http://host/a?b=1&amp;c=2</CurrentURI>")) 65536).
    vm_compute. reflexivity.
Qed.

(** It is stopped, and the lease given back. *)
Definition sample_released : DlnaModule SamplePlayer :=
  match handle_request all_memory true (fun _ => None) (bytes "Switch") (Some (bytes "POST")) (bytes "/upnp/control/AVTransport")
    (Some (soap_request "AVTransport" "Stop" "<InstanceID>0</InstanceID>")) 65536 sample_opened with
  | Done (_, d) => d
  | _ => sample_opened
  end.

Lemma sample_released_reachable : dlna_reachable sample_released.
Proof.
  destruct sample_opened_reachable as (e & H). exists e. eapply rtc_r; [exact H|].
  eapply (step_request all_memory true (fun _ => None) (bytes "Switch") (Some (bytes "POST")) (bytes "/upnp/control/AVTransport")
    (Some (soap_request "AVTransport" "Stop" "<InstanceID>0</InstanceID>")) 65536).
  vm_compute. reflexivity.
Qed.

(** A speed that the service description does not list. *)
Example any_speed_is_stored :
  match sample_request "AVTransport" "Play" "<InstanceID>0</InstanceID><Speed>99</Speed>" sample_opened with
  | Done (_, d) => transport_play_speed (view (d_state d))
  | _ => []
  end = bytes "99".
Proof. vm_compute. reflexivity. Qed.

Lemma upnp_state_stays_consistent_witness :
  initialized (d_state sample_opened) = true /\ transport_state (view (d_state sample_opened)) = bytes "PAUSED_PLAYBACK" /\
  (d_running sample_opened = false \/ initialized (d_state sample_opened) = false -> d_state sample_opened = clear_state_store).
Proof.
  split; [by vm_compute|]. split; [by vm_compute|]. apply (upnp_state_stays_consistent sample_opened), sample_opened_reachable.
Defined.

Lemma player_is_asked_under_a_lease_witness :
  last (d_env sample_released).2 = Some (CRelease (mkLease PLAYER_MEDIA_OWNER_DLNA 1 1) true) /\
  exists a, audit (d_env sample_released).2 = Some a /\ audit_open a = None.
Proof. split; [by vm_compute|]. apply (player_is_asked_under_a_lease sample_released), sample_released_reachable. Defined.
