(* ===== verification/DlnaReadback.v ===== *)
(** * What a controller reads back

    The response of an action is the list of its elements, and each of them is found again
    in the text of the HTTP response: a controller that set the uri of the media reads
    that uri. *)

From S2P Require Import Prelude Buffers CText Ownership CoordData CoordMedia PlayerTypes PlayerCommands SeekTarget SoapWriter SoapXml SoapText DlnaState DlnaView ControllerSession DlnaActions DlnaControl DlnaServer DlnaStateFacts DlnaSafety DlnaSystem.

#[local] Arguments bytes : simpl never.

(** ** The text of elements *)

(** An element: its tag and its escaped text. *)
Definition element (e : string * cstring) : cstring :=
  bytes "<" ++ bytes e.1 ++ bytes ">" ++ e.2 ++ bytes "</" ++ bytes e.1 ++ bytes ">".
Definition elements (l : list (string * cstring)) : cstring := l ≫= element.

(** The markup of an element, without the brackets that open it. *)
Definition pieces_of (e : string * cstring) : list cstring :=
  [bytes e.1 ++ bytes ">" ++ e.2; bytes "/" ++ bytes e.1 ++ bytes ">"].

Lemma element_markup e : element e = markup (pieces_of e).
Proof. unfold element, pieces_of, markup. cbn [mbind list_bind app]. rewrite app_nil_r, <- !app_assoc. done. Qed.

Lemma elements_markup l : elements l = markup (l ≫= pieces_of).
Proof.
  unfold elements, markup. induction l as [|e l IH]; [done|]. cbn [mbind list_bind] in *. rewrite bind_app, IH.
  f_equal. apply element_markup.
Qed.

Definition argument_nameb (tag : cstring) : bool :=
  negb (bool_decide (tag = [])) &&
  forallb (fun c => in_open_name c && negb (c =? ch_lt) && negb (c =? ch_colon) && negb (c =? 33) && negb (c =? 63)) tag.

Lemma argument_name_spec tag : argument_nameb tag = true -> argument_name tag.
Proof.
  intros H. apply andb_true_iff in H as [H1 H2]. apply negb_true_iff, bool_decide_eq_false in H1. split; [done|].
  apply Forall_forall. intros c Hc. apply forallb_forall with (x := c) in H2; [|by apply list_elem_of_In].
  rewrite !andb_true_iff, !negb_true_iff, !Z.eqb_neq in H2. tauto.
Qed.

(** Elements in front of the one that is looked for: other names, and no markup in their
    text. *)
Definition other_elements (tag : string) (l : list (string * cstring)) : Prop :=
  Forall (fun e => ch_lt ∉ e.2 /\ argument_nameb (bytes e.1) && negb (name_is (bytes e.1) (bytes tag)) = true) l.

Lemma other_pieces tag l : other_elements tag l -> Forall (other_markup (bytes tag)) (l ≫= pieces_of).
Proof.
  unfold other_elements. induction 1 as [|[n v] l [Hv Hn] Hl IH]; [done|]. cbn [mbind list_bind]. apply Forall_app. split; [|done].
  apply andb_true_iff in Hn as [Hn Hne]. apply argument_name_spec in Hn. apply negb_true_iff in Hne. cbn [fst snd] in *.
  assert (Hlt : ch_lt ∉ bytes n).
  { intros Hin. destruct Hn as [_ Hf]. rewrite Forall_forall in Hf. by destruct (Hf _ Hin) as (_ & Hx & _). }
  unfold pieces_of. cbn [fst snd]. constructor; [|constructor; [|constructor]]; (split; [|split]).
  - rewrite !not_elem_of_app. split; [done|]. split; [|done]. apply (bool_decide_unpack _). by vm_compute.
  - set_solver.
  - right. rewrite argument_name_skip by done. change (bytes ">" ++ v) with (ch_gt :: v). by rewrite (argument_name_span in_open_name).
  - rewrite !not_elem_of_app. split; [apply (bool_decide_unpack _); by vm_compute|]. split; [done|]. apply (bool_decide_unpack _). by vm_compute.
  - set_solver.
  - by left.
Qed.

(** The argument [tag] of a text with elements in front of it. *)
Lemma element_read_back alloc tag text pieces l value rest : (forall n, alloc n = true) -> argument_nameb (bytes tag) = true ->
  ch_lt ∉ text -> Forall (other_markup (bytes tag)) pieces -> other_elements tag l ->
  soap_handler_extract_xml_value_alloc alloc (text ++ markup pieces ++ elements l ++ element (tag, escaped value) ++ rest) (bytes tag)
  = Done (trim isspace value).
Proof.
  intros Ha Htag Ht Hp Hl. rewrite elements_markup, (app_assoc (markup pieces)).
  assert (E : markup pieces ++ markup (l ≫= pieces_of) = markup (pieces ++ (l ≫= pieces_of))) by (unfold markup; by rewrite bind_app).
  rewrite E. apply written_argument_is_read_back; [done|by apply argument_name_spec|done|].
  apply Forall_app. split; [done|by apply other_pieces].
Qed.

(** ** The elements of a response *)

Section actions.
Context {E : Type} `{!ControlPlatform E} (alloc : Z -> bool).
Notation act := (action E).

Lemma action_bind_done {A B} (m : act A) (k : A -> act B) w y w2 :
  (m ≫= k) w = Done (y, w2) -> exists x w1, m w = Done (x, w1) /\ k x w1 = Done (y, w2).
Proof. unfold mbind at 1, action_bind. intros H. apply bind_done in H as ([x w1] & H1 & H2). by exists x, w1. Qed.

(** A computation that appends elements when it gives true, and changes nothing but the
    output. *)
Definition writes (m : act bool) (l : list (string * cstring)) : Prop :=
  forall w x w', writer_ok (w_out w) -> m w = Done (x, w') ->
    w' = with_out w (w_out w') /\ writer_ok (w_out w') /\
    (x = true -> output_text (w_out w') = output_text (w_out w) ++ elements l).

Lemma writes_and m m' l l' : writes m l -> writes m' l' -> writes (m &&& m') (l ++ l').
Proof.
  intros H H' w x w' Hw E1. unfold andM in E1. apply action_bind_done in E1 as (b & w1 & E1 & E2).
  destruct (H w b w1 Hw E1) as (Ew1 & Hw1 & Ht1). destruct b.
  - destruct (H' w1 x w' Hw1 E2) as (Ew2 & Hw2 & Ht2). split; [rewrite Ew2 at 1; by rewrite Ew1 at 1|]. split; [done|].
    intros Hx. rewrite Ht2, Ht1 by done. unfold elements. by rewrite bind_app, app_assoc.
  - injection E2 as <- <-. done.
Qed.

Lemma writes_or_fault write need e : (forall o, writer_ok o -> appends alloc o need (element e) (write o)) -> writes (or_fault write) [e].
Proof.
  intros Hwr w x w' Hw E1. unfold or_fault in E1. apply action_bind_done in E1 as (b & w1 & E1 & E2).
  unfold writing in E1. destruct (Hwr (w_out w) Hw) as (ok & o' & t & Eo & Ho' & Ht & _ & Htrue & _). rewrite Eo in E1.
  cbn in E1. injection E1 as <- <-. destruct ok.
  - injection E2 as <- <-. split; [done|]. split; [done|]. intros _. cbn. rewrite Ht, Htrue by done.
    unfold elements. cbn. by rewrite app_nil_r.
  - unfold fault in E2. apply action_bind_done in E2 as (u & w2 & E2 & E3). injection E2 as _ <-. injection E3 as <- <-.
    split; [done|]. split; [by apply fault_writer_ok|done].
Qed.

Lemma writes_text tag v : writes (avtransport_write_text_element alloc tag v) [(tag, escaped v)].
Proof. eapply writes_or_fault. intros o Ho. by apply element_text_ok. Qed.
Lemma writes_raw tag v : writes (avtransport_write_raw_element alloc tag v) [(tag, v)].
Proof. eapply writes_or_fault. intros o Ho. by apply element_raw_ok. Qed.
Lemma writes_int tag v : writes (avtransport_write_int_element alloc tag v) [(tag, format_ld v)].
Proof. eapply writes_or_fault. intros o Ho. by apply element_int_ok. Qed.

(** A computation that changes nothing but the environment and the session. *)
Definition outside {A} (m : act A) : Prop :=
  forall w x w', m w = Done (x, w') -> w_out w' = w_out w /\ w_state w' = w_state w.

Lemma outside_platform {A} (f : E -> A * E) : outside (platform f).
Proof. intros w x w'. unfold platform. destruct (f (w_env w)). by intros [= <- <-]. Qed.
Lemma outside_platform_do f : outside (platform_do (E := E) f).
Proof. by intros w x w' [= <- <-]. Qed.
Lemma outside_view : outside (read_view (E := E)).
Proof. by intros w x w' [= <- <-]. Qed.
Lemma outside_ret {A} (a : A) : outside (mret (M := act) a).
Proof. by intros w x w' [= <- <-]. Qed.
Lemma outside_session f : outside (change_session (E := E) f).
Proof. by intros w x w' [= <- <-]. Qed.
Lemma outside_bind {A B} (m : act A) (k : A -> act B) : outside m -> (forall x, outside (k x)) -> outside (m ≫= k).
Proof.
  intros H Hk w x w' E1. apply action_bind_done in E1 as (y & w1 & E1 & E2).
  destruct (H _ _ _ E1) as [H1 H2]. destruct (Hk _ _ _ _ E2) as [H3 H4]. split; congruence.
Qed.

Lemma outside_snapshot : outside (avtransport_get_snapshot (E := E)).
Proof.
  unfold avtransport_get_snapshot.
  repeat first [apply outside_bind; [|intros ?] | apply outside_platform | apply outside_platform_do | apply outside_view | apply outside_ret
    | match goal with |- outside (match ?x with _ => _ end) => destruct x end].
Qed.

(** The escaped text of a value, unless memory runs out. *)
Lemma xml_escape_loop_text value : forall out n r, xml_escape_loop out n value = Some r -> r = out ++ escaped value.
Proof.
  induction value as [|c value IH]; intros out n r H; cbn [xml_escape_loop] in H.
  - injection H as <-. by rewrite app_nil_r.
  - destruct (n <=? _); [done|]. apply IH in H as ->. by rewrite <- app_assoc.
Qed.

Lemma escape_text value r : soap_handler_xml_escape_alloc alloc (Some value) = Some r -> r = escaped value.
Proof.
  unfold soap_handler_xml_escape_alloc, soap_handler_xml_escape. destruct (negb _); [done|]. destruct (_ =? 0); [done|].
  by intros ->%xml_escape_loop_text.
Qed.

Lemma escape_done value (w : DlnaWorld E) x w' : avtransport_escape_alloc alloc value w = Done (Some x, w') -> w' = w /\ x = escaped value.
Proof.
  unfold avtransport_escape_alloc. destruct (soap_handler_xml_escape_alloc alloc (Some value)) as [e|] eqn:He.
  - intros [= <- <-]. split; [done|]. by apply escape_text.
  - intros H. apply action_bind_done in H as (b & w1 & _ & H). done.
Qed.

Lemma instance_done ctx (w : DlnaWorld E) x w' : avtransport_try_instance_id alloc ctx w = Done (Some x, w') -> w' = w.
Proof.
  unfold avtransport_try_instance_id, arg_or. intros H. apply action_bind_done in H as (y & w1 & E1 & E2).
  assert (w1 = w) as ->.
  { unfold try_arg, try_call in E1. destruct (soap_handler_try_arg_alloc alloc ctx _); congruence. }
  destruct y; [by injection E2|]. destruct (alloc _); [by injection E2|]. apply action_bind_done in E2 as (b & w2 & _ & H). done.
Qed.

(** [xml] NULL: the output is as it was. *)
Lemma succeed_done (w : DlnaWorld E) x w' : succeed alloc None w = Done (x, w') ->
  x = true /\ w_state w' = w_state w /\ output_text (w_out w') = output_text (w_out w).
Proof.
  unfold succeed. intros H. apply action_bind_done in H as (u & w1 & E1 & E2). injection E2 as <- <-.
  unfold writing in E1. cbn in E1. by injection E1 as _ <-.
Qed.
End actions.

(** What GetMediaInfo answers. *)
Definition media_info_elements (v : DlnaProtocolStateView) : list (string * cstring) :=
  [("NrTracks", format_ld (number_of_tracks v)); ("MediaDuration", escaped (current_media_duration v));
   ("CurrentURI", escaped (av_transport_uri v)); ("CurrentURIMetaData", escaped (av_transport_uri_metadata v));
   ("NextURI", escaped (next_av_transport_uri v)); ("NextURIMetaData", escaped (next_av_transport_uri_metadata v));
   ("PlayMedium", escaped (playback_storage_medium v)); ("RecordMedium", escaped (bytes "NOT_IMPLEMENTED"));
   ("WriteStatus", escaped (bytes "NOT_IMPLEMENTED"))]%string.

Lemma media_info_done `{!ControlPlatform E} alloc ctx (w w' : DlnaWorld E) : writer_ok (w_out w) ->
  avtransport_get_media_info alloc ctx w = Done (true, w') ->
  exists duration position,
    w_state w' = dlna_protocol_state_set_transport_timing alloc duration position (w_state w) /\
    output_text (w_out w') = elements (media_info_elements (view (w_state w'))).
Proof.
  intros Hw H. unfold avtransport_get_media_info in H.
  apply action_bind_done in H as (id & w1 & E1 & H). destruct id as [id|]; [|done]. apply instance_done in E1 as ->.
  apply action_bind_done in H as (sn & w2 & E2 & H). apply outside_snapshot in E2 as [Eo Es].
  apply action_bind_done in H as (u & w3 & E3 & H). injection E3 as _ <-.
  apply action_bind_done in H as (v & w4 & E4 & H). injection E4 as <- <-.
  apply action_bind_done in H as (eu & w5 & E5 & H). apply action_bind_done in H as (em & w6 & E6 & H).
  destruct eu as [eu|]; [|done]. destruct em as [em|]; [|done].
  apply escape_done in E5 as [-> ->]. apply escape_done in E6 as [-> ->].
  apply action_bind_done in H as (u' & w7 & E7 & H). injection E7 as _ <-.
  apply action_bind_done in H as (ok & w8 & E8 & H). destruct ok; [|done]. cbn [negb] in H.
  apply succeed_done in H as (_ & Hs & Ht). exists (p_duration_ms sn), (p_position_ms sn).
  match type of E8 with _ ?w0 = _ => set (w7 := w0) in * end.
  assert (Hw7 : writer_ok (w_out w7)) by (apply clear_writer_ok; cbn; by rewrite Eo).
  match type of E8 with ?m _ = _ => eassert (Hwr : writes m _) end.
  { repeat (eapply writes_and; [|first [apply writes_text|apply writes_raw]]). apply writes_int. }
  destruct (Hwr _ _ _ Hw7 E8) as (Ew8 & Hw8 & Ht8). rewrite Hs, Ht, Ht8, Ew8 by done. cbn. by rewrite Es.
Qed.

(** ** The uri *)

Definition declared (s : DlnaState) (n : string) : Prop := exists v, variable s n = Some v /\ datatype v = DLNA_STATE_TYPE_STRING.

Lemma shape_declared s s' n : same_shape s s' -> declared s n -> declared s' n.
Proof.
  intros (Hn & Hd & _) (v & Hv & Ht). unfold declared, variable, dlna_protocol_state_find_variable in *.
  rewrite (find_ext _ _ _ Hn). destruct (find_state_variable (items s) (bytes n)) as [i|]; [|done]. cbn in *.
  assert (H : (datatype <$> items s' !! i) = Some DLNA_STATE_TYPE_STRING).
  { rewrite <- list_lookup_fmap. change (datatype <$> items s') with (map datatype (items s')). rewrite Hd.
    change (map datatype (items s)) with (datatype <$> items s). rewrite list_lookup_fmap, Hv. cbn. by rewrite Ht. }
  destruct (items s' !! i) as [v'|]; [|done]. cbn in H. exists v'. split; [done|congruence].
Qed.

Section memory.
Context (alloc : Z -> bool) (Hall : forall n, alloc n = true).

(** With memory, a declared string is set, and no other string changes. *)
Lemma set_string_declared n value s m : declared s n ->
  same_shape s (set_string alloc n value s) /\
  string_of (set_string alloc n value s) m = if bool_decide (n = m) then default [] value else string_of s m.
Proof.
  intros (v & Hv & Hd). unfold set_string. destruct (set_state_string_by_name alloc (bytes n) value s) as [ok s'] eqn:E.
  assert (ok = true) as ->.
  { unfold variable, dlna_protocol_state_find_variable in Hv. unfold set_state_string_by_name in E.
    destruct (find_state_variable (items s) (bytes n)) as [i|]; [|done]. cbn in Hv. rewrite Hv in E. cbn [mbind option_bind] in E.
    unfold set_state_string_value in E. rewrite bool_decide_eq_true_2, Hall in E by done. by injection E. }
  apply set_string_values in E as (Hsh & _ & Hstr). split; [done|]. cbn [snd]. rewrite Hstr. cbn [andb].
  case_bool_decide as Hb; [apply bytes_inj in Hb|]; case_bool_decide; try done; subst; done.
Qed.

(** A variable that is not among the names is not changed by a list of settings, nor by
    settings that fail. *)
Lemma set_string_other n value s m : n <> m -> same_shape s (set_string alloc n value s) /\ string_of (set_string alloc n value s) m = string_of s m.
Proof.
  intros Hne. unfold set_string. destruct (set_state_string_by_name alloc (bytes n) value s) as [ok s'] eqn:E.
  apply set_string_values in E as (Hsh & _ & Hstr). split; [done|]. cbn [snd]. rewrite Hstr.
  destruct ok; [|done]. cbn [andb]. case_bool_decide as Hb; [by apply bytes_inj in Hb|done].
Qed.

(** [f] keeps the names and types, and the value of [n]. *)
Definition leaves (n : string) (f : DlnaState -> DlnaState) : Prop := forall s, same_shape s (f s) /\ string_of (f s) n = string_of s n.

Lemma leaves_trans n s x f : leaves n f -> same_shape s x /\ string_of x n = string_of s n ->
  same_shape s (f x) /\ string_of (f x) n = string_of s n.
Proof. intros Hf [H1 H2]. destruct (Hf x) as [H3 H4]. split; [by etransitivity|congruence]. Qed.

Lemma leaves_string n m value : m <> n -> leaves n (set_string alloc m value).
Proof. intros H s. by apply set_string_other. Qed.

Lemma leaves_int n m value : leaves n (set_state_int_by_name (bytes m) value).
Proof. intros s. destruct (set_int_values m value s) as (H1 & H2 & _). done. Qed.

Ltac left_alone :=
  repeat first
    [ apply (leaves_trans _ _ _ (set_string _ _ _)); [by apply leaves_string|]
    | apply (leaves_trans _ _ _ (set_state_int_by_name _ _)); [apply leaves_int|] ].

Lemma leaves_timing n duration position :
  n ∉ ["CurrentMediaDuration"; "CurrentTrackDuration"; "RelativeTimePosition"; "AbsoluteTimePosition"]%string ->
  leaves n (dlna_protocol_state_set_transport_timing alloc duration position).
Proof.
  intros Hn s. unfold dlna_protocol_state_set_transport_timing. destruct (initialized s); [|done]. cbn [negb].
  destruct (dlna_protocol_format_hhmmss_alloc alloc duration), (dlna_protocol_format_hhmmss_alloc alloc position); try done.
  cbv zeta. repeat (apply leaves_trans; [apply leaves_string; set_solver|]). done.
Qed.

(** The uri after [SetAVTransportURI]. *)
Lemma set_uri_value uri metadata s : initialized s = true -> declared s "AVTransportURI" ->
  same_shape s (dlna_protocol_state_apply_set_uri alloc (Some uri) metadata s) /\
  string_of (dlna_protocol_state_apply_set_uri alloc (Some uri) metadata s) "AVTransportURI" = uri.
Proof.
  intros Hi Hd. unfold dlna_protocol_state_apply_set_uri. rewrite Hi. cbn [negb]. cbv zeta.
  destruct (set_string_declared "AVTransportURI" (Some uri) s "AVTransportURI" Hd) as [Hsh Hv].
  rewrite bool_decide_eq_true_2 in Hv by done. cbn [default] in Hv.
  set (s1 := set_string alloc "AVTransportURI" (Some uri) s) in *.
  match goal with |- same_shape s ?x /\ _ => assert (H : same_shape s1 x /\ string_of x "AVTransportURI" = string_of s1 "AVTransportURI") by (left_alone; done) end.
  destruct H as [H1 H2]. split; [by etransitivity|by rewrite H2].
Qed.
End memory.

(** ** A request that succeeds *)

(** The response is one of an action that succeeded. *)
Definition ok_response (response : cstring) : Prop := has_prefix response (bytes "HTTP/1.1 200 ") = true.

(** The service, the action and the body that a request has. *)
Definition request_context (alloc : Z -> bool) (path request : cstring) : option SoapActionContext :=
  service ← parse_service_name_from_path_alloc alloc path;
  match get_header_value_alloc alloc request (bytes "SOAPACTION") with
  | Done header => action ← parse_action_name_alloc alloc header; Some (mkContext service action (default [] (find_body request)) request)
  | _ => None
  end.

Definition asks (ctx : SoapActionContext) (service action : string) : Prop :=
  strcasecmp_equal (service_name ctx) (bytes service) = true /\ strcasecmp_equal (action_name ctx) (bytes action) = true.

Lemma http_response_text info status text content body n r : build_http_response info status text content body n = Some r ->
  r = bytes "HTTP/1.1 " ++ format_ld status ++ bytes " " ++ text ++ crlf ++ bytes "Content-Type: " ++ content ++ crlf ++
      bytes "Content-Length: " ++ format_u (size body) ++ crlf ++ bytes "Server: " ++ info ++ crlf ++
      bytes "Connection: close" ++ crlf ++ crlf ++ body.
Proof. unfold build_http_response. destruct (n =? 0); [done|]. cbv zeta. destruct (n <=? _); [done|]. by intros [= <-]. Qed.

Lemma not_ok_response info status text content body n r : build_http_response info status text content body n = Some r ->
  status ∈ [500; 503; 405] -> ~ ok_response r.
Proof.
  intros ->%http_response_text Hs. unfold ok_response.
  repeat (apply elem_of_cons in Hs as [->|Hs]); [by vm_compute..|by apply elem_of_nil in Hs].
Qed.

Lemma fault_not_ok alloc info code d n r : build_soap_fault alloc info code d n = Some r -> ~ ok_response r.
Proof.
  unfold build_soap_fault. destruct (negb _); [done|]. destruct (_ <=? _); [done|]. intros H. eapply not_ok_response; [exact H|]. by left.
Qed.

Section server.
Context {E : Type} `{!ControlPlatform E} (alloc : Z -> bool) (exclusive : bool) (numeric : list Z -> option Z) (info : cstring).

Lemma ok_request running method path request n (w w' : DlnaWorld E) r :
  soap_server_try_handle_http alloc exclusive numeric info running method path (Some request) n w = Done (Some r, w') -> ok_response r ->
  exists ctx, request_context alloc path request = Some ctx /\
    call_action alloc exclusive numeric info ctx n w = Done (Some r, w').
Proof.
  intros H Hr. unfold soap_server_try_handle_http in H. destruct (_ && _); [done|]. destruct (negb running).
  { injection H as H <-. by destruct (not_ok_response _ _ _ _ _ _ _ H ltac:(by right; left)). }
  destruct (negb _). { injection H as H <-. by destruct (not_ok_response _ _ _ _ _ _ _ H ltac:(by right; right; left)). }
  assert (Hbad : forall w1, invalid_args alloc info n = Some r -> w1 = w' -> False) by (intros w1 Hx _; by apply fault_not_ok in Hx).
  unfold request_context. destruct (parse_service_name_from_path_alloc alloc path) as [sn|]; [|injection H as H E1; by destruct (Hbad _ H E1)].
  apply action_bind_done in H as (h & w1 & E1 & H). unfold try_call in E1.
  destruct (get_header_value_alloc alloc request (bytes "SOAPACTION")) as [hd| |]; [|injection E1 as <- <-; injection H as H E1; by destruct (Hbad _ H E1)|done].
  injection E1 as <- <-. cbn [mbind option_bind].
  destruct (parse_action_name_alloc alloc hd) as [an|]; [|injection H as H E1; by destruct (Hbad _ H E1)]. cbv zeta in H.
  destruct (is_blank_text _); [injection H as H E1; by destruct (Hbad _ H E1)|]. by eexists.
Qed.

(** The response of an action that succeeded holds what the action wrote. *)
Lemma ok_call ctx n (w w' : DlnaWorld E) r route : call_action alloc exclusive numeric info ctx n w = Done (Some r, w') -> ok_response r ->
  find_route alloc exclusive numeric (service_name ctx) (action_name ctx) = Some route ->
  exists w1, route_handler route ctx (with_out w output_zero) = Done (true, w1) /\ success (w_out w1) = true /\
    w_state w' = w_state w1 /\
    exists head, r = bytes "HTTP/1.1 200 OK" ++ crlf ++ bytes "Content-Type: " ++ text_xml ++ crlf ++ bytes "Content-Length: " ++ head ++ crlf ++
      bytes "Server: " ++ info ++ crlf ++ bytes "Connection: close" ++ crlf ++ crlf ++
      success_body (route_type route) (route_action route) (output_text (w_out w1)) /\ ch_lt ∉ head.
Proof.
  intros H Hr Hroute. unfold call_action in H. destruct (negb _); [done|].
  apply action_bind_done in H as (u & w0 & E0 & H). injection E0 as _ <-.
  apply action_bind_done in H as ([[st an] ok] & w1 & E1 & H). unfold soap_router_route_action in E1. rewrite Hroute in E1.
  apply action_bind_done in E1 as (ok' & w1' & E1 & E2). injection E2 as <- <- <- <-.
  apply action_bind_done in H as (out & w2 & E2 & H). injection E2 as <- <-.
  apply action_bind_done in H as (u2 & w3 & E3 & H). injection E3 as _ <-. injection H as H <-.
  destruct (ok' && success (w_out w1')) eqn:Hok; [|by apply fault_not_ok in H].
  apply andb_true_iff in Hok as [-> Hsuccess]. exists w1'. split; [exact E1|]. split; [done|]. split; [done|].
  unfold build_soap_success in H. destruct (negb _); [done|]. destruct (_ <=? _); [done|]. apply http_response_text in H as ->.
  eexists (format_u _). split; [reflexivity|]. apply digits_without; [apply decimal_digits, size_nonneg|]. by right.
Qed.
End server.

(** ** From one request to the next *)

Lemma route_of {E} `{!ControlPlatform E} alloc exclusive numeric ctx service action (r : SoapRouteEntry (E := E)) :
  asks ctx service action ->
  find_route (E := E) alloc exclusive numeric (bytes service) (bytes action) = Some r ->
  find_route (E := E) alloc exclusive numeric (service_name ctx) (action_name ctx) = Some r.
Proof.
  intros [H1 H2] <-. unfold strcasecmp_equal in *. apply bool_decide_eq_true in H1, H2. unfold find_route, strcasecmp_equal.
  by rewrite H1, H2.
Qed.

(** What SetAVTransportURI does when it succeeds. *)
Lemma set_uri_done `{!ControlPlatform E} alloc ctx (w w' : DlnaWorld E) : avtransport_set_uri alloc ctx w = Done (true, w') ->
  exists uri metadata, soap_handler_extract_xml_value_alloc alloc (body ctx) (bytes "CurrentURI") = Done uri /\
    w_state w' = dlna_protocol_state_apply_set_uri alloc (Some uri) (Some metadata) (w_state w).
Proof.
  assert (Hreq : forall nm x (w1 w2 : DlnaWorld E), require_arg alloc ctx nm w1 = Done (Some x, w2) ->
    w_state w2 = w_state w1 /\ soap_handler_extract_xml_value_alloc alloc (body ctx) (bytes nm) = Done x).
  { intros nm x w1 w2 H. unfold require_arg, writing, soap_handler_require_arg_alloc in H.
    destruct (soap_handler_extract_xml_value_alloc alloc (body ctx) (bytes nm)); [|done|done]. by injection H as -> <-. }
  assert (Hfault : forall code d (w1 w2 : DlnaWorld E), fault code d w1 = Done (true, w2) -> False).
  { intros code d w1 w2 H. unfold fault in H. by apply action_bind_done in H as (u & w3 & _ & H). }
  assert (Hdefault : forall nm v x (w1 w2 : DlnaWorld E), arg_or alloc ctx nm v w1 = Done (Some x, w2) -> w_state w2 = w_state w1).
  { intros nm v x w1 w2 H. unfold arg_or in H. apply action_bind_done in H as (y & w3 & E1 & H). unfold try_arg, try_call in E1.
    assert (w3 = w1) as -> by (destruct (soap_handler_try_arg_alloc alloc ctx (bytes nm)); congruence).
    destruct y; [by injection H as _ <-|]. destruct (alloc _); [by injection H as _ <-|].
    by apply action_bind_done in H as (u & w4 & _ & H). }
  intros H. unfold avtransport_set_uri in H.
  apply action_bind_done in H as (id & w1 & E1 & H). destruct id as [id|]; [|done]. apply Hreq in E1 as [E1 _].
  apply action_bind_done in H as (uri & w2 & E2 & H). destruct uri as [uri|]; [|done]. apply Hreq in E2 as [E2 Huri].
  apply action_bind_done in H as (md & w3 & E3 & H). destruct md as [md|]; [|done]. apply Hdefault in E3.
  apply action_bind_done in H as (t & w4 & E4 & H). apply outside_platform in E4 as [_ E4].
  destruct t as [t|]; [|by apply Hfault in H].
  apply action_bind_done in H as (rd & w5 & E5 & H). apply outside_platform in E5 as [_ E5].
  destruct (negb rd); [apply action_bind_done in H as (u & w6 & _ & H); by apply Hfault in H|].
  apply action_bind_done in H as (st & w6 & E6 & H). apply outside_platform in E6 as [_ E6].
  destruct (negb _); [apply action_bind_done in H as (u & w7 & _ & H); by apply Hfault in H|].
  apply action_bind_done in H as (u1 & w7 & E7 & H). apply outside_platform_do in E7 as [_ E7].
  apply action_bind_done in H as (u2 & w8 & E8 & H). apply outside_session in E8 as [_ E8].
  apply action_bind_done in H as (u3 & w9 & E9 & H). injection E9 as _ <-.
  unfold succeed in H. apply action_bind_done in H as (u4 & w10 & E10 & H). injection H as <-.
  unfold writing in E10. apply bind_done in E10 as ([u5 o] & _ & E10). injection E10 as _ <-.
  exists uri, md. split; [done|]. cbn. congruence.
Qed.

(** The values in front of the uri hold no markup. *)
Lemma front_elements v : other_elements "CurrentURI" [("NrTracks", format_ld (number_of_tracks v)); ("MediaDuration", escaped (current_media_duration v))]%string.
Proof.
  constructor; [|constructor; [|constructor]]; (split; [|by vm_compute]); cbn [snd]; [|apply escaped_no_lt].
  unfold format_ld. destruct (Z.ltb_spec (number_of_tracks v) 0).
  - rewrite not_elem_of_app. split; [apply (bool_decide_unpack _); by vm_compute|].
    apply digits_without; [apply decimal_digits; lia|by right].
  - apply digits_without; [apply decimal_digits; lia|by right].
Qed.

(** The envelope's own markup. *)
Definition envelope_pieces (service_type action : cstring) : list cstring :=
  [quoted "?xml version='1.0' encoding='utf-8'?>";
   quoted "s:Envelope xmlns:s='http://schemas.xmlsoap.org/soap/envelope/' s:encodingStyle='http://schemas.xmlsoap.org/soap/encoding/'>";
   bytes "s:Body>";
   bytes "u:" ++ action ++ quoted "Response xmlns:u='" ++ service_type ++ quoted "'>"].

Lemma success_body_markup service_type action args :
  success_body service_type action args =
  markup (envelope_pieces service_type action) ++ args ++ bytes "</u:" ++ action ++ bytes "Response>" ++ envelope_close.
Proof. unfold success_body, envelope_pieces, markup. cbn [mbind list_bind]. rewrite app_nil_r, <- !app_assoc, <- !app_comm_cons, <- !app_assoc. reflexivity. Qed.

Lemma envelope_other : Forall (other_markup (bytes "CurrentURI")) (envelope_pieces serviceTypeAvTransport (bytes "GetMediaInfo")).
Proof.
  repeat constructor; try (apply (bool_decide_unpack _); by vm_compute); first [left; by vm_compute | right; by vm_compute].
Qed.

Lemma skip_head p (l : cstring) : match skip p l with [] => True | x :: _ => p x = false end.
Proof. induction l as [|x l IH]; [done|]. unfold skip in *. cbn. destruct (p x) eqn:Hp; [|done]. by destruct (span p l). Qed.

Lemma trim_idempotent p (l : cstring) : trim p (trim p l) = trim p l.
Proof.
  unfold trim at 2 3. set (r := skip p (rev l)). set (m := skip p (rev r)).
  destruct (skip_suffix p (rev r)) as (l1 & _ & E). fold m in E.
  assert (Er : r = rev m ++ rev l1) by (rewrite <- rev_app_distr, <- E; by rewrite rev_involutive).
  pose proof (skip_head p (rev l)) as Hr. fold r in Hr. pose proof (skip_head p (rev r)) as Hm. fold m in Hm.
  destruct m as [|x m'] eqn:Em; [done|]. rewrite <- Em in *. unfold trim.
  rewrite (skip_none p (rev m)).
  - rewrite rev_involutive. apply skip_none. by rewrite Em.
  - destruct (rev m) as [|y q]; [done|]. rewrite Er in Hr. done.
Qed.

(** C32: A controller reads back the uri that it set: after SetAVTransportURI was answered
    with success, the answer of the next GetMediaInfo that succeeds, read the way arguments
    are read, gives exactly the uri that the first request carried, whatever its
    characters.  The memory holds out, and the service description declares the variable. *)
Theorem controller_reads_back_its_uri {E} `{!ControlPlatform E} alloc exclusive numeric info
    method1 path1 request1 n1 response1 ctx1 method2 path2 request2 n2 response2 ctx2 (d d1 d2 : DlnaModule E) :
  (forall n, alloc n = true) -> ch_lt ∉ info -> dlna_reachable d -> initialized (d_state d) = true ->
  declared (d_state d) "AVTransportURI" ->
  handle_request alloc exclusive numeric info method1 path1 (Some request1) n1 d = Done (Some response1, d1) ->
  ok_response response1 -> request_context alloc path1 request1 = Some ctx1 -> asks ctx1 "AVTransport" "SetAVTransportURI" ->
  handle_request alloc exclusive numeric info method2 path2 (Some request2) n2 d1 = Done (Some response2, d2) ->
  ok_response response2 -> request_context alloc path2 request2 = Some ctx2 -> asks ctx2 "AVTransport" "GetMediaInfo" ->
  exists uri, soap_handler_extract_xml_value_alloc alloc (body ctx1) (bytes "CurrentURI") = Done uri /\
    soap_handler_extract_xml_value_alloc alloc response2 (bytes "CurrentURI") = Done uri.
Proof.
  intros Hall Hinfo Hd Hi Hdecl H1 Hok1 Hctx1 Ha1 H2 Hok2 Hctx2 Ha2.
  pose proof (dlna_reachable_ok d Hd) as ([Hc|[_ [Hb _ _]]] & _ & _); [by rewrite Hc in Hi|].
  unfold handle_request in H1, H2. apply bind_done in H1 as ([r1 w1] & H1 & E1). injection E1 as -> <-.
  apply bind_done in H2 as ([r2 w2] & H2 & E2). injection E2 as -> <-.
  destruct (ok_request _ _ _ _ _ _ _ _ _ _ _ _ H1 Hok1) as (c1 & Hc1 & H1'). rewrite Hctx1 in Hc1. injection Hc1 as <-.
  destruct (ok_request _ _ _ _ _ _ _ _ _ _ _ _ H2 Hok2) as (c2 & Hc2 & H2'). rewrite Hctx2 in Hc2. injection Hc2 as <-.
  destruct (ok_call _ _ _ _ _ _ _ _ _ _ H1' Hok1 (route_of _ _ _ _ _ _ _ Ha1 eq_refl)) as (x1 & Hx1 & _ & Hs1 & _).
  destruct (ok_call _ _ _ _ _ _ _ _ _ _ H2' Hok2 (route_of _ _ _ _ _ _ _ Ha2 eq_refl)) as (x2 & Hx2 & _ & _ & head & Hr2 & Hhead).
  apply set_uri_done in Hx1 as (uri & metadata & Huri & Hst). cbn in Hst. exists uri. split; [done|].
  apply media_info_done in Hx2 as (du & po & Hst2 & Htext); [|apply zero_writer_ok]. cbn in Hst2. rewrite Hs1, Hst in Hst2.
  destruct (set_uri_value alloc Hall uri (Some metadata) _ Hi Hdecl) as [Hsh Hval].
  destruct (leaves_timing alloc Hall "AVTransportURI" du po ltac:(set_solver)
    (dlna_protocol_state_apply_set_uri alloc (Some uri) (Some metadata) (d_state d))) as [Hsh2 Hval2].
  assert (Hb2 : bound (w_state x2)) by (rewrite Hst2; by apply Hsh2, Hsh).
  assert (Huri2 : av_transport_uri (view (w_state x2)) = uri).
  { destruct (view_strings _ Hb2) as (_ & _ & _ & _ & _ & -> & _). rewrite Hst2. congruence. }
  set (v := view (w_state x2)) in *.
  assert (Htrim : trim isspace uri = uri).
  { unfold soap_handler_extract_xml_value_alloc in Huri. destruct (find_element _ _ _) as [[value|]|]; try done.
    rewrite Hall in Huri. injection Huri as <-. apply trim_idempotent. }
  assert (Hr : response2 = (bytes "HTTP/1.1 200 OK" ++ crlf ++ bytes "Content-Type: " ++ text_xml ++ crlf ++
      bytes "Content-Length: " ++ head ++ crlf ++ bytes "Server: " ++ info ++ crlf ++ bytes "Connection: close" ++ crlf ++ crlf) ++
    markup (envelope_pieces serviceTypeAvTransport (bytes "GetMediaInfo")) ++
    elements [("NrTracks", format_ld (number_of_tracks v)); ("MediaDuration", escaped (current_media_duration v))]%string ++
    element ("CurrentURI"%string, escaped uri) ++
    (elements (drop 3 (media_info_elements v)) ++ bytes "</u:" ++ bytes "GetMediaInfo" ++ bytes "Response>" ++ envelope_close)).
  { rewrite Hr2. cbn [route_type route_action]. rewrite success_body_markup, Htext, <- Huri2. unfold elements.
    cbn [media_info_elements mbind list_bind drop]. rewrite <- !app_assoc. reflexivity. }
  rewrite Hr. transitivity (Done (trim isspace uri)); [|by rewrite Htrim].
  apply element_read_back; [done|by vm_compute| |apply envelope_other|apply front_elements].
  rewrite !not_elem_of_app. split_and!; try done; apply (bool_decide_unpack _); by vm_compute.
Qed.

(** What the sample controller sends, what it is answered, and the text of an answer. *)
Definition set_request : cstring :=
  soap_request "AVTransport" "SetAVTransportURI" "<InstanceID>0</InstanceID><CurrentURI>http://host/a?b=1&amp;c=2</CurrentURI>".
Definition info_request : cstring := soap_request "AVTransport" "GetMediaInfo" "<InstanceID>0</InstanceID>".
Definition sample_transport : cstring := bytes "/upnp/control/AVTransport".
Definition context_of (request : cstring) : SoapActionContext :=
  default (mkContext [] [] [] []) (request_context all_memory sample_transport request).
Definition answer_to (request : cstring) (d : DlnaModule SamplePlayer) : cstring * DlnaModule SamplePlayer :=
  match handle_request all_memory false (fun _ => None) (bytes "Switch") (Some (bytes "POST")) sample_transport (Some request) 65536 d with
  | Done (Some r, d') => (r, d')
  | _ => ([], d)
  end.

Lemma sample_running_reachable : dlna_reachable sample_running.
Proof.
  exists (mkSample (mkRegister lease_zero 0) None). apply rtc_once.
  apply (step_start all_memory sample_template None sample_start true). vm_compute. reflexivity.
Qed.

Lemma controller_reads_back_its_uri_witness :
  (answer_to info_request sample_opened).1 <> [] /\
  exists uri, soap_handler_extract_xml_value_alloc all_memory (body (context_of set_request)) (bytes "CurrentURI") = Done uri /\
    soap_handler_extract_xml_value_alloc all_memory (answer_to info_request sample_opened).1 (bytes "CurrentURI") = Done uri.
Proof.
  split; [by vm_compute|].
  apply (controller_reads_back_its_uri all_memory false (fun _ => None) (bytes "Switch")
    (Some (bytes "POST")) sample_transport set_request 65536 (answer_to set_request sample_running).1 (context_of set_request)
    (Some (bytes "POST")) sample_transport info_request 65536 (answer_to info_request sample_opened).1 (context_of info_request)
    sample_running sample_opened (answer_to info_request sample_opened).2).
  - done.
  - apply (bool_decide_unpack _); by vm_compute.
  - apply sample_running_reachable.
  - by vm_compute.
  - eexists. split; vm_compute; reflexivity.
  - vm_compute. reflexivity.
  - vm_compute. reflexivity.
  - vm_compute. reflexivity.
  - split; vm_compute; reflexivity.
  - vm_compute. reflexivity.
  - vm_compute. reflexivity.
  - vm_compute. reflexivity.
  - split; vm_compute; reflexivity.
Defined.
