(* ===== verification/PlayerBackend.v ===== *)
(** * The interface of a player backend (player/backend.h)

    A backend is a table of functions over its own static variables, the state [B].  Each
    function gives its answer, the events that it passed to the event sink while it ran,
    in order, and the state afterwards.  An entry that may be NULL is an option. *)

From S2P Require Import Prelude Buffers CText CoordData PlayerTypes.

(** A call of a function of the backend; [Stuck] is behaviour that C does not define. *)
Definition bcall (B A : Type) : Type := B -> outcome (A * list PlayerEvent * B).

#[export] Instance bcall_ret B : MRet (bcall B) := fun A a b => Done (a, [], b).
#[export] Instance bcall_bind B : MBind (bcall B) := fun A C k m b =>
  '(a, events, b) ← m b;
  '(c, later, b) ← k a b;
  Done (c, events ++ later, b).

(* src: source/player/player.h PlayerBackendType *)
Inductive PlayerBackendType :=
| PLAYER_BACKEND_AUTO
| PLAYER_BACKEND_MOCK
| PLAYER_BACKEND_LIBMPV.

#[export] Instance backend_type_eq_dec : EqDecision PlayerBackendType.
Proof. solve_decision. Defined.

(** Pointers of the graphics libraries are only passed on; they are numbers. *)
(* src: source/player/backend.h BackendOps *)
Record BackendOps (B : Type) := mkBackendOps {
  bk_name : option string;
  bk_available : option (bcall B bool);
  bk_init : option (bcall B bool);
  bk_deinit : option (bcall B unit);
  bk_set_event_sink : option (bool -> bcall B unit);
  bk_set_media : option (PlayerMedia -> bcall B bool);
  bk_play : option (bcall B bool);
  bk_pause : option (bcall B bool);
  bk_stop : option (bcall B bool);
  bk_seek_target : option (cstring -> bcall B bool);
  bk_seek_ms : option (Z -> bcall B bool);
  bk_set_volume : option (Z -> bcall B bool);
  bk_set_mute : option (bool -> bcall B bool);
  bk_show_osd : option (cstring -> Z -> bcall B bool);
  bk_pump_events : option (Z -> bcall B bool);
  bk_wakeup : option (bcall B unit);
  bk_render_supported : option (bcall B bool);
  bk_render_ready : option (bcall B bool);
  bk_render_attach_gl : option (Z -> Z -> bcall B bool);
  bk_render_attach_sw : option (bcall B bool);
  bk_render_attach_dk3d : option (Z -> bcall B bool);
  bk_render_detach : option (bcall B unit);
  bk_render_frame_gl : option (Z -> Z -> Z -> bool -> bcall B bool);
  bk_render_frame_sw : option (Z -> Z -> Z -> Z -> bcall B bool);
  bk_render_frame_dk3d : option (Z -> bcall B bool);
  bk_get_position_ms : option (bcall B Z);
  bk_get_duration_ms : option (bcall B Z);
  bk_get_volume : option (bcall B Z);
  bk_get_mute : option (bcall B bool);
  bk_is_seekable : option (bcall B bool);
  bk_get_state : option (bcall B PlayerState)
}.
Arguments bk_name {B} _.
Arguments bk_available {B} _.
Arguments bk_init {B} _.
Arguments bk_deinit {B} _.
Arguments bk_set_event_sink {B} _.
Arguments bk_set_media {B} _.
Arguments bk_play {B} _.
Arguments bk_pause {B} _.
Arguments bk_stop {B} _.
Arguments bk_seek_target {B} _.
Arguments bk_seek_ms {B} _.
Arguments bk_set_volume {B} _.
Arguments bk_set_mute {B} _.
Arguments bk_show_osd {B} _.
Arguments bk_pump_events {B} _.
Arguments bk_wakeup {B} _.
Arguments bk_render_supported {B} _.
Arguments bk_render_ready {B} _.
Arguments bk_render_attach_gl {B} _.
Arguments bk_render_attach_sw {B} _.
Arguments bk_render_attach_dk3d {B} _.
Arguments bk_render_detach {B} _.
Arguments bk_render_frame_gl {B} _.
Arguments bk_render_frame_sw {B} _.
Arguments bk_render_frame_dk3d {B} _.
Arguments bk_get_position_ms {B} _.
Arguments bk_get_duration_ms {B} _.
Arguments bk_get_volume {B} _.
Arguments bk_get_mute {B} _.
Arguments bk_is_seekable {B} _.
Arguments bk_get_state {B} _.

(** What a pointer to a table points to. *)
Inductive BackendRef := MockOps | LibmpvOps.

(** The tables of the program, and what libmpv.c offers besides its own: the bridges of a
    mirrored stream. *)
Record Backends (B : Type) := mkBackends {
  mock_backend : BackendOps B;
  libmpv_backend : BackendOps B;
  set_airplay_stream_bridge : option Z -> bcall B bool;
  set_airplay_audio_bridge : option Z -> bcall B bool
}.
Arguments mock_backend {B} _.
Arguments libmpv_backend {B} _.
Arguments set_airplay_stream_bridge {B} _.
Arguments set_airplay_audio_bridge {B} _.

Definition table {B} (bks : Backends B) (r : BackendRef) : BackendOps B :=
  match r with MockOps => mock_backend bks | LibmpvOps => libmpv_backend bks end.

(** ** Specifications of calls *)

(** [m] does nothing undefined, and its answer, events and state satisfy [Q]. *)
Definition bwp {B A} (m : bcall B A) (Q : A -> list PlayerEvent -> B -> Prop) (b : B) : Prop :=
  safe (m b) (fun r => Q r.1.1 r.1.2 r.2).

Lemma bwp_ret {B A} (a : A) (Q : A -> list PlayerEvent -> B -> Prop) b : Q a [] b -> bwp (mret a) Q b.
Proof. done. Qed.

Lemma bwp_bind {B A C} (m : bcall B A) (k : A -> bcall B C) (Q : C -> list PlayerEvent -> B -> Prop) b :
  bwp m (fun a es => bwp (k a) (fun c es' => Q c (es ++ es'))) b -> bwp (m ≫= k) Q b.
Proof.
  unfold bwp, mbind, bcall_bind. cbn. destruct (m b) as [[[a es] b1]| |]; cbn; try done.
  destruct (k a b1) as [[[c es'] b2]| |]; cbn; done.
Qed.

Lemma bwp_mono {B A} (m : bcall B A) (Q Q' : A -> list PlayerEvent -> B -> Prop) b :
  bwp m Q b -> (forall a es b', Q a es b' -> Q' a es b') -> bwp m Q' b.
Proof. unfold bwp. intros H HQ. eapply safe_mono; [exact H|]. intros [[a es] b']. apply HQ. Qed.
