(* ===== verification/MockBackend.v ===== *)
(** * The mock backend (player/backend/mock.c)

    A player without a decoder: its position follows the clock between an anchor and the
    duration.  The readings of the clock are given in advance, one for each time that the
    clock is read.  [int] arithmetic that overflows is undefined; the conversion of the
    elapsed time to [int] wraps.  Log lines and sleeping are left out. *)

From S2P Require Import Prelude Buffers CText CoordData PlayerTypes SeekTarget PlayerBackend.

(* src: source/player/backend/mock.c 14-26 g_state, g_position_ms, g_media, g_play_anchor_ms *)
Record Mock := mkMock {
  mk_event_sink : bool;
  mk_state : PlayerState;
  mk_position_ms : Z;
  mk_duration_ms : Z;
  mk_volume : Z;
  mk_mute : bool;
  mk_seekable : bool;
  mk_has_media : bool;
  mk_media : PlayerMedia;
  mk_play_anchor_ms : Z;
  mk_play_anchor_monotonic_ms : Z;
  mk_clock : nat -> Z;
  mk_reads : nat
}.
#[export] Instance eta_Mock : Eta Mock := fun m =>
  mkMock (mk_event_sink m) (mk_state m) (mk_position_ms m) (mk_duration_ms m) (mk_volume m) (mk_mute m) (mk_seekable m)
    (mk_has_media m) (mk_media m) (mk_play_anchor_ms m) (mk_play_anchor_monotonic_ms m) (mk_clock m) (mk_reads m).

Definition mock_zero (clock : nat -> Z) : Mock :=
  mkMock false PLAYER_STATE_IDLE 0 0 PLAYER_DEFAULT_VOLUME false false false media_zero 0 0 clock 0.

Definition mock_get : bcall Mock Mock := fun m => Done (m, [], m).
Definition mock_do (f : Mock -> Mock) : bcall Mock unit := fun m => Done (tt, [], f m).
Definition mock_checked {A} (o : option A) : bcall Mock A := fun m => match o with Some a => Done (a, [], m) | None => Stuck end.
Definition chk32 (z : Z) : option Z := if (- INT32_MAX - 1 <=? z) && (z <=? INT32_MAX) then Some z else None.

(* src: source/player/backend/mock.c monotonic_time_ms *)
Definition monotonic_time_ms : bcall Mock Z := fun m => Done (mk_clock m (mk_reads m), [], { m with mk_reads ::= S }).

Section mock.
Context (alloc : Z -> bool) (parse_numeric_seconds_ms : list Z -> option Z).

(* src: source/player/backend/mock.c emit_event *)
Definition emit_event (type : PlayerEventType) (error_code : Z) : bcall Mock unit := fun m =>
  if negb (mk_event_sink m) then Done (tt, [], m)
  else
    let uri := if mk_has_media m then default None (player_strdup_or_null alloc (m_uri (mk_media m))) else None in
    Done (tt, [mkEvent type (mk_state m) (mk_position_ms m) (mk_duration_ms m) (mk_volume m) (mk_mute m) (mk_seekable m)
                 error_code uri], m).

Definition emit_if (b : bool) (type : PlayerEventType) : bcall Mock unit := if b then emit_event type 0 else mret tt.

(** Whether playback reached the end, and the new position. *)
(* src: source/player/backend/mock.c 66-71 refresh_position *)
Definition position_at (m : Mock) (position : Z) : Z * bool :=
  if (0 <? mk_duration_ms m) && (mk_duration_ms m <=? position) then (mk_duration_ms m, true) else (position, false).

(* src: source/player/backend/mock.c refresh_position *)
Definition refresh_position (emit_events : bool) : bcall Mock unit :=
  m ← mock_get;
  if negb (bool_decide (mk_state m = PLAYER_STATE_PLAYING)) then mret tt
  else
    now_ms ← monotonic_time_ms;
    _ ← mock_do (fun m => if mk_play_anchor_monotonic_ms m <=? 0 then { m with mk_play_anchor_monotonic_ms := now_ms } else m);
    m ← mock_get;
    elapsed ← mock_checked (chk64 (now_ms - mk_play_anchor_monotonic_ms m));
    let elapsed_ms := if elapsed <? 0 then 0 else elapsed in
    new_position ← mock_checked (chk32 (mk_play_anchor_ms m + i32 elapsed_ms));
    let '(new_position, finished) := position_at m new_position in
    _ ← (if negb (new_position =? mk_position_ms m) then
           _ ← mock_do (fun m => { m with mk_position_ms := new_position });
           emit_if emit_events PLAYER_EVENT_POSITION_CHANGED
         else mret tt);
    if (finished : bool) then
      _ ← mock_do (fun m => { m with mk_state := PLAYER_STATE_STOPPED; mk_play_anchor_ms := mk_position_ms m;
                                     mk_play_anchor_monotonic_ms := now_ms });
      emit_if emit_events PLAYER_EVENT_STATE_CHANGED
    else mret tt.

(* src: source/player/backend/mock.c mock_init *)
Definition mock_init : bcall Mock bool :=
  now ← monotonic_time_ms;
  _ ← mock_do (fun m =>
    { m with mk_media := media_zero; mk_has_media := false; mk_state := PLAYER_STATE_IDLE; mk_position_ms := 0; mk_duration_ms := 0;
             mk_volume := PLAYER_DEFAULT_VOLUME; mk_mute := false; mk_seekable := false; mk_play_anchor_ms := 0;
             mk_play_anchor_monotonic_ms := now });
  _ ← emit_event PLAYER_EVENT_STATE_CHANGED 0;
  _ ← emit_event PLAYER_EVENT_VOLUME_CHANGED 0;
  _ ← emit_event PLAYER_EVENT_MUTE_CHANGED 0;
  mret true.

(* src: source/player/backend/mock.c mock_deinit *)
Definition mock_deinit : bcall Mock unit := mock_do (fun m => { m with mk_media := player_media_clear }).

(* src: source/player/backend/mock.c mock_set_event_sink *)
Definition mock_set_event_sink (sink : bool) : bcall Mock unit := mock_do (fun m => { m with mk_event_sink := sink }).

(* src: source/player/backend/mock.c mock_set_media *)
Definition mock_set_media (media : PlayerMedia) : bcall Mock bool :=
  if bool_decide (m_uri media = None) || bool_decide (m_uri media = Some []) then mret false
  else
    match player_media_copy alloc (Some media) with
    | None => mret false
    | Some copy =>
        now ← monotonic_time_ms;
        _ ← mock_do (fun m =>
          { m with mk_media := copy; mk_has_media := true; mk_state := PLAYER_STATE_PAUSED; mk_position_ms := 0;
                   mk_duration_ms := 5 * 60 * 1000; mk_seekable := true; mk_play_anchor_ms := 0;
                   mk_play_anchor_monotonic_ms := now });
        _ ← emit_event PLAYER_EVENT_URI_CHANGED 0;
        _ ← emit_event PLAYER_EVENT_DURATION_CHANGED 0;
        _ ← emit_event PLAYER_EVENT_POSITION_CHANGED 0;
        _ ← emit_event PLAYER_EVENT_STATE_CHANGED 0;
        mret true
    end.

(** The state, with the anchor at the position now. *)
(* src: source/player/backend/mock.c 157-159 mock_play *)
Definition anchor_in (state : PlayerState) : bcall Mock unit :=
  _ ← mock_do (fun m => { m with mk_state := state; mk_play_anchor_ms := mk_position_ms m });
  now ← monotonic_time_ms;
  mock_do (fun m => { m with mk_play_anchor_monotonic_ms := now }).

(* src: source/player/backend/mock.c mock_play *)
Definition mock_play : bcall Mock bool :=
  m ← mock_get;
  if negb (mk_has_media m) then mret false
  else
    _ ← refresh_position false;
    _ ← anchor_in PLAYER_STATE_PLAYING;
    _ ← emit_event PLAYER_EVENT_STATE_CHANGED 0;
    mret true.

(* src: source/player/backend/mock.c mock_pause *)
Definition mock_pause : bcall Mock bool :=
  m ← mock_get;
  if negb (mk_has_media m) || bool_decide (mk_state m = PLAYER_STATE_STOPPED) || bool_decide (mk_state m = PLAYER_STATE_IDLE)
  then mret false
  else
    _ ← refresh_position true;
    _ ← anchor_in PLAYER_STATE_PAUSED;
    _ ← emit_event PLAYER_EVENT_STATE_CHANGED 0;
    mret true.

(* src: source/player/backend/mock.c mock_stop *)
Definition mock_stop : bcall Mock bool :=
  m ← mock_get;
  if negb (mk_has_media m) then mret false
  else
    _ ← mock_do (fun m => { m with mk_position_ms := 0 });
    _ ← anchor_in PLAYER_STATE_STOPPED;
    _ ← emit_event PLAYER_EVENT_POSITION_CHANGED 0;
    _ ← emit_event PLAYER_EVENT_STATE_CHANGED 0;
    mret true.

(* src: source/player/backend/mock.c mock_seek_ms *)
Definition mock_seek_ms (position_ms : Z) : bcall Mock bool :=
  m ← mock_get;
  if negb (mk_has_media m) || (position_ms <? 0) then mret false
  else
    let position_ms := if (0 <? mk_duration_ms m) && (mk_duration_ms m <? position_ms) then mk_duration_ms m else position_ms in
    _ ← mock_do (fun m => { m with mk_position_ms := position_ms });
    _ ← anchor_in (mk_state m);
    _ ← emit_event PLAYER_EVENT_POSITION_CHANGED 0;
    mret true.

(* src: source/player/backend/mock.c mock_seek_target *)
Definition mock_seek_target (target : cstring) : bcall Mock bool :=
  match player_seek_target_parse_ms parse_numeric_seconds_ms (Some target) with
  | None => mret false
  | Some position_ms => mock_seek_ms position_ms
  end.

(* src: source/player/backend/mock.c mock_set_volume *)
Definition mock_set_volume (volume : Z) : bcall Mock bool :=
  let volume := if volume <? 0 then 0 else volume in
  let volume := if 100 <? volume then 100 else volume in
  _ ← mock_do (fun m => { m with mk_volume := volume });
  _ ← emit_event PLAYER_EVENT_VOLUME_CHANGED 0;
  mret true.

(* src: source/player/backend/mock.c mock_set_mute *)
Definition mock_set_mute (mute : bool) : bcall Mock bool :=
  _ ← mock_do (fun m => { m with mk_mute := mute });
  _ ← emit_event PLAYER_EVENT_MUTE_CHANGED 0;
  mret true.

(* src: source/player/backend/mock.c mock_show_osd *)
Definition mock_show_osd (text : cstring) (duration_ms : Z) : bcall Mock bool := mret true.

(* src: source/player/backend/mock.c mock_pump_events *)
Definition mock_pump_events (timeout_ms : Z) : bcall Mock bool :=
  before ← mock_get;
  _ ← refresh_position true;
  m ← mock_get;
  mret (negb (mk_position_ms before =? mk_position_ms m) || negb (bool_decide (mk_state before = mk_state m))).

(* src: source/player/backend/mock.c mock_render_ready *)
Definition mock_render_ready : bcall Mock bool :=
  m ← mock_get;
  mret (mk_has_media m && negb (bool_decide (mk_state m ∈ [PLAYER_STATE_LOADING; PLAYER_STATE_IDLE; PLAYER_STATE_STOPPED; PLAYER_STATE_ERROR]))).

(* src: source/player/backend/mock.c mock_get_position_ms *)
Definition mock_get_position_ms : bcall Mock Z := _ ← refresh_position false; m ← mock_get; mret (mk_position_ms m).

(* src: source/player/backend/mock.c mock_get_state *)
Definition mock_get_state : bcall Mock PlayerState := _ ← refresh_position false; m ← mock_get; mret (mk_state m).

(* src: source/player/backend/mock.c mock_get_duration_ms *)
Definition mock_get_duration_ms : bcall Mock Z := m ← mock_get; mret (mk_duration_ms m).

(* src: source/player/backend/mock.c mock_get_volume *)
Definition mock_get_volume : bcall Mock Z := m ← mock_get; mret (mk_volume m).

(* src: source/player/backend/mock.c mock_get_mute *)
Definition mock_get_mute : bcall Mock bool := m ← mock_get; mret (mk_mute m).

(* src: source/player/backend/mock.c mock_is_seekable *)
Definition mock_is_seekable : bcall Mock bool := m ← mock_get; mret (mk_seekable m).

(** The mock does not draw. *)
(* src: source/player/backend/mock.c 271-293 mock_render_supported, mock_render_attach_gl, mock_render_attach_sw, mock_render_attach_dk3d *)
Definition mock_no_rendering : bcall Mock bool := mret false.

(* src: source/player/backend/mock.c g_mock_ops *)
Definition g_mock_ops : BackendOps Mock :=
  mkBackendOps Mock (Some "mock"%string) None (Some mock_init) (Some mock_deinit) (Some mock_set_event_sink)
    (Some mock_set_media) (Some mock_play) (Some mock_pause) (Some mock_stop) (Some mock_seek_target) (Some mock_seek_ms)
    (Some mock_set_volume) (Some mock_set_mute) (Some mock_show_osd) (Some mock_pump_events) (Some (mret tt))
    (Some mock_no_rendering) (Some mock_render_ready) (Some (fun _ _ => mock_no_rendering)) (Some mock_no_rendering)
    (Some (fun _ => mock_no_rendering)) (Some (mret tt)) (Some (fun _ _ _ _ => mock_no_rendering))
    (Some (fun _ _ _ _ => mock_no_rendering)) (Some (fun _ => mock_no_rendering))
    (Some mock_get_position_ms) (Some mock_get_duration_ms) (Some mock_get_volume)
    (Some mock_get_mute) (Some mock_is_seekable) (Some mock_get_state).
End mock.
