(* ===== verification/PlayerSession.v ===== *)
(** * The player (player/core/session.c)

    The player keeps the current media and a snapshot of the backend for its readers, and
    hands every command to the media actor, whose callbacks drive the backend.  Callbacks
    run on the worker of the actor, the only thread that writes the media and the snapshot
    while the player is initialized.  The events that a call of the backend emits are
    delivered when it returns: their delivery does not reach back into the backend.  The
    media actor is reached through the commands it is given and its answers.  Log lines
    and traces are left out. *)

From S2P Require Import Prelude Prog Ownership Buffers CText CoordData PlayerTypes PlayerCommands PlayerBackend MediaActor.

(** [g_media_actor] says whether there is one; [pl_backend] are the variables of the
    backends, and [pl_delivered] the events that the registered callback was given. *)
(* src: source/player/core/session.c 24-35 g_backend, g_initialized, g_event_callback, g_current_media, g_snapshot *)
Record Player (B : Type) := mkPlayer {
  g_backend : option BackendRef;
  g_backend_type : PlayerBackendType;
  g_initialized : bool;
  g_event_callback : bool;
  g_has_current_media : bool;
  g_current_media : PlayerMedia;
  g_snapshot : PlayerSnapshot;
  g_player_sync_ready : bool;
  g_media_actor : bool;
  pl_backend : B;
  pl_own : Ownership;
  pl_delivered : list PlayerEvent
}.
Arguments mkPlayer {B} _ _ _ _ _ _ _ _ _ _ _ _.
Arguments g_backend {B} _.
Arguments g_backend_type {B} _.
Arguments g_initialized {B} _.
Arguments g_event_callback {B} _.
Arguments g_has_current_media {B} _.
Arguments g_current_media {B} _.
Arguments g_snapshot {B} _.
Arguments g_player_sync_ready {B} _.
Arguments g_media_actor {B} _.
Arguments pl_backend {B} _.
Arguments pl_own {B} _.
Arguments pl_delivered {B} _.
#[export] Instance eta_Player {B} : Eta (Player B) := fun p =>
  mkPlayer (g_backend p) (g_backend_type p) (g_initialized p) (g_event_callback p) (g_has_current_media p) (g_current_media p)
    (g_snapshot p) (g_player_sync_ready p) (g_media_actor p) (pl_backend p) (pl_own p) (pl_delivered p).

#[export] Instance HasOwnership_player {B} : HasOwnership (Player B).
Proof. refine {| get_own p := pl_own p; put_own o p := { p with pl_own := o } |}; by intros; destruct w || intros []. Defined.

(** A computation of the player. *)
Definition sess (B A : Type) : Type := Player B -> outcome (A * Player B).
#[export] Instance sess_ret {B} : MRet (sess B) := fun A a p => Done (a, p).
#[export] Instance sess_bind {B} : MBind (sess B) := fun A C k m p => '(a, p) ← m p; k a p.

Section primitives.
Context {B : Type}.
Definition get_player : sess B (Player B) := fun p => Done (p, p).
Definition change (f : Player B -> Player B) : sess B unit := fun p => Done (tt, f p).
(** The code between locking and unlocking [g_player_mutex]. *)
Definition locked {A} (f : Player B -> A * Player B) : sess B A := fun p => Done (f p).
(** A function of ownership.c. *)
Definition owned {A} (m : prog (Player B) A) : sess B A := fun p => match run m p with Some r => Done r | None => Stuck end.
End primitives.

Section session.
Context {B : Type} (alloc : Z -> bool) (bks : Backends B).
Implicit Type p : Player B.

(** ** Media and snapshot *)

(* src: source/player/core/session.c player_ensure_sync_primitives *)
Definition player_ensure_sync_primitives p : Player B := { p with g_player_sync_ready := true }.

(* src: source/player/core/session.c player_sync_snapshot_media_locked *)
Definition player_sync_snapshot_media_locked p : bool * Player B :=
  let p := { p with g_snapshot -> media := player_media_clear } in
  if negb (g_has_current_media p) then (true, p)
  else
    match player_media_copy alloc (Some (g_current_media p)) with
    | None => (false, p)
    | Some m => (true, { p with g_snapshot -> media := m })
    end.

(* src: source/player/core/session.c player_reset_snapshot_locked *)
Definition player_reset_snapshot_locked p : Player B :=
  { p with g_snapshot := player_snapshot_clear; g_snapshot -> p_state := PLAYER_STATE_IDLE;
           g_snapshot -> p_volume := PLAYER_DEFAULT_VOLUME }.

(* src: source/player/core/session.c player_store_media_locked *)
Definition player_store_media_locked (has_media' : bool) (media' : option PlayerMedia) p : bool * Player B :=
  let current := match media' with
                 | Some m => if has_media' then player_media_copy alloc (Some m) else Some media_zero
                 | None => Some media_zero
                 end in
  match current with
  | None => (false, p)
  | Some current =>
      let p := { p with g_current_media := current; g_has_current_media := has_media'; g_snapshot -> has_media := has_media' } in
      match player_sync_snapshot_media_locked p with
      | (true, p) => (true, p)
      | (false, p) => (false, { p with g_snapshot -> has_media := false })
      end
  end.

(* src: source/player/core/session.c player_apply_event_locked *)
Definition player_apply_event_locked (event : PlayerEvent) p : Player B :=
  let p := { p with g_snapshot -> p_state := ev_state event; g_snapshot -> p_position_ms := ev_position_ms event;
                    g_snapshot -> p_duration_ms := ev_duration_ms event; g_snapshot -> p_volume := ev_volume event;
                    g_snapshot -> p_mute := ev_mute event; g_snapshot -> p_seekable := ev_seekable event } in
  if g_has_current_media p then (player_sync_snapshot_media_locked { p with g_snapshot -> has_media := true }).2
  else
    { p with g_snapshot -> has_media := false; g_snapshot -> media := player_media_clear;
             g_snapshot -> p_state := PLAYER_STATE_IDLE; g_snapshot -> p_position_ms := 0;
             g_snapshot -> p_duration_ms := 0; g_snapshot -> p_seekable := false }.

(** The callback gets a copy; when there is no memory for it, one without the uri. *)
(* src: source/player/core/session.c player_emit_from_backend *)
Definition player_emit_from_backend (event : PlayerEvent) p : Player B :=
  let p := player_apply_event_locked event p in
  let forwarded := default { event with ev_uri := None } (player_event_copy alloc (Some event)) in
  if g_event_callback p then { p with pl_delivered ::= fun l => l ++ [forwarded] } else p.

(** ** Calls of the backend *)

Definition call_backend {A} (f : bcall B A) : sess B A := fun p =>
  '(a, events, b) ← f (pl_backend p);
  Done (a, foldl (fun p e => player_emit_from_backend e p) { p with pl_backend := b } events).

(** [f ? f() : other] *)
Definition call_or {A} (f : option (bcall B A)) (other : A) : sess B A :=
  match f with Some f => call_backend f | None => mret other end.

(** The table that is in use. *)
Definition ops_of p : option (BackendOps B) := table bks <$> g_backend p.
Definition field {A} (get : BackendOps B -> option A) p : option A := ops_of p ≫= get.

(* src: source/player/core/session.c backend_available *)
Definition backend_available (backend : option BackendRef) : sess B bool :=
  match backend with None => mret false | Some r => call_or (bk_available (table bks r)) true end.

(* src: source/player/core/session.c backend_ops_from_type *)
Definition backend_ops_from_type (type : PlayerBackendType) : sess B BackendRef :=
  match type with
  | PLAYER_BACKEND_MOCK => mret MockOps
  | PLAYER_BACKEND_LIBMPV => mret LibmpvOps
  | PLAYER_BACKEND_AUTO => available ← backend_available (Some LibmpvOps); mret (if (available : bool) then LibmpvOps else MockOps)
  end.

(* src: source/player/core/session.c backend_name_from_type *)
Definition backend_name_from_type (type : PlayerBackendType) : sess B string :=
  backend ← backend_ops_from_type type; mret (default "unknown"%string (bk_name (table bks backend))).

(* src: source/player/core/session.c player_read_backend_snapshot *)
Definition player_read_backend_snapshot : sess B (option PlayerSnapshot) :=
  p ← get_player;
  state ← call_or (field bk_get_state p) PLAYER_STATE_IDLE;
  position ← call_or (field bk_get_position_ms p) 0;
  duration ← call_or (field bk_get_duration_ms p) 0;
  volume ← call_or (field bk_get_volume p) PLAYER_DEFAULT_VOLUME;
  mute ← call_or (field bk_get_mute p) false;
  seekable ← call_or (field bk_is_seekable p) false;
  locked (fun p =>
    if g_has_current_media p then
      match player_media_copy alloc (Some (g_current_media p)) with
      | None => (None, p)
      | Some m => (Some (mkPlayerSnapshot true m state position duration volume mute seekable), p)
      end
    else (Some (mkPlayerSnapshot false media_zero PLAYER_STATE_IDLE 0 0 volume mute false), p)).

(* src: source/player/core/session.c player_refresh_cached_snapshot_from_backend *)
Definition player_refresh_cached_snapshot_from_backend : sess B unit :=
  snapshot ← player_read_backend_snapshot;
  match snapshot with
  | None => mret tt
  | Some s => locked (fun p => (tt, { p with g_snapshot := s }))
  end.

Definition wakeup (ops : BackendOps B) : sess B unit := call_or (bk_wakeup ops) tt.

(** [refreshes]: all but one of the callers read the backend again after a success. *)
(* src: source/player/core/session.c player_run_backend_flag *)
Definition run_backend (refreshes : bool) (fn : option (bcall B bool)) : sess B bool :=
  p ← get_player;
  match g_initialized p, ops_of p, fn with
  | true, Some ops, Some fn =>
      ok ← call_backend fn;
      _ ← (if ok && refreshes then player_refresh_cached_snapshot_from_backend else mret tt);
      _ ← (if (ok : bool) then wakeup ops else mret tt);
      mret ok
  | _, _, _ => mret false
  end.

(* src: source/player/core/session.c player_run_backend_bool *)
Definition player_run_backend_bool (fn : option (bcall B bool)) : sess B bool := run_backend true fn.

(* src: source/player/core/session.c player_run_backend_int *)
Definition player_run_backend_int (fn : option (Z -> bcall B bool)) (value : Z) : sess B bool :=
  run_backend true (fn ≫= fun f => Some (f value)).

(* src: source/player/core/session.c player_run_backend_string *)
Definition player_run_backend_string (fn : option (cstring -> bcall B bool)) (value : option cstring) : sess B bool :=
  run_backend true (f ← fn; v ← value; Some (f v)).

(* src: source/player/core/session.c player_run_backend_string_int *)
Definition player_run_backend_string_int (fn : option (cstring -> Z -> bcall B bool)) (text : option cstring) (value : Z) : sess B bool :=
  run_backend false (f ← fn; t ← text; Some (f t value)).

(* src: source/player/core/session.c player_run_backend_flag *)
Definition player_run_backend_flag (fn : option (bool -> bcall B bool)) (value : bool) : sess B bool :=
  run_backend true (fn ≫= fun f => Some (f value)).

(** ** The callbacks of the actor *)

(* src: source/player/core/session.c player_actor_initialize *)
Definition player_actor_initialize : sess B bool :=
  p ← get_player;
  match g_initialized p, ops_of p with
  | true, Some ops =>
      let set_event_sink sink := call_or (bk_set_event_sink ops ≫= fun f => Some (f sink)) tt in
      _ ← set_event_sink true;
      ok ← call_or (bk_init ops) true;
      if negb ok then _ ← set_event_sink false; mret false
      else _ ← player_refresh_cached_snapshot_from_backend; mret true
  | _, _ => mret false
  end.

(* src: source/player/core/session.c player_actor_finalize *)
Definition player_actor_finalize : sess B unit :=
  p ← get_player;
  match ops_of p with
  | None => mret tt
  | Some ops =>
      _ ← call_or (bk_set_event_sink ops ≫= fun f => Some (f false)) tt;
      call_or (bk_deinit ops) tt
  end.

(* src: source/player/core/session.c player_owner_from_actor_producer *)
Definition player_owner_from_actor_producer (producer : MediaActorProducer) : PlayerMediaOwner :=
  match producer with
  | MEDIA_ACTOR_PRODUCER_DLNA => PLAYER_MEDIA_OWNER_DLNA
  | MEDIA_ACTOR_PRODUCER_IPTV => PLAYER_MEDIA_OWNER_IPTV
  | MEDIA_ACTOR_PRODUCER_AIRPLAY_VIDEO => PLAYER_MEDIA_OWNER_AIRPLAY_VIDEO
  | MEDIA_ACTOR_PRODUCER_AIRPLAY_MIRROR => PLAYER_MEDIA_OWNER_AIRPLAY_MIRROR
  | _ => PLAYER_MEDIA_OWNER_NONE
  end.

(** The lease that a command carries. *)
(* src: source/player/core/session.c 411-413 player_validate_actor_command *)
Definition command_lease (command : MediaActorCommand) : PlayerOwnershipLease :=
  mkLease (player_owner_from_actor_producer (producer command)) (session_token command) (MediaActor.generation command).

(* src: source/player/core/session.c player_validate_actor_command *)
Definition player_validate_actor_command (command : MediaActorCommand) : sess B bool :=
  if owner_eqb (player_owner_from_actor_producer (producer command)) PLAYER_MEDIA_OWNER_NONE then mret true
  else owned (player_ownership_validate (Some (command_lease command))).

(** The media that was current, if it could be copied, and that the snapshot shows the new
    media as loading. *)
(* src: source/player/core/session.c 1005-1033 player_execute_set_media *)
Definition set_media_begin (media' : PlayerMedia) : sess B (option (bool * option PlayerMedia)) :=
  locked (fun p =>
    match (if g_has_current_media p then player_media_copy alloc (Some (g_current_media p)) else Some media_zero) with
    | None => (None, p)
    | Some previous =>
        match player_store_media_locked true (Some media') p with
        | (false, p') => (None, p')
        | (true, p') =>
            (Some (g_has_current_media p, if g_has_current_media p then Some previous else None),
             { p' with g_snapshot -> p_state := PLAYER_STATE_LOADING; g_snapshot -> p_position_ms := 0;
                       g_snapshot -> p_duration_ms := 0; g_snapshot -> p_seekable := false })
        end
    end).

Definition blank (uri : option cstring) : bool := bool_decide (uri = None) || bool_decide (uri = Some []).

(* src: source/player/core/session.c player_execute_set_media *)
Definition player_execute_set_media (media' : PlayerMedia) : sess B bool :=
  p ← get_player;
  match g_initialized p, ops_of p, field bk_set_media p with
  | true, Some ops, Some set_media =>
      if blank (m_uri media') then mret false
      else
        begun ← set_media_begin media';
        match begun with
        | None => mret false
        | Some (previous_has_media, previous_media) =>
            ok ← call_backend (set_media media');
            if negb ok then
              _ ← locked (player_store_media_locked previous_has_media previous_media);
              mret false
            else
              _ ← player_refresh_cached_snapshot_from_backend;
              _ ← wakeup ops;
              mret true
        end
  | _, _, _ => mret false
  end.

(* src: source/player/core/session.c player_execute_actor_command *)
Definition player_execute_actor_command (command : MediaActorCommand) : sess B bool :=
  p ← get_player;
  match ops_of p with
  | None => mret false
  | Some ops =>
      match kind command with
      | Some MEDIA_ACTOR_COMMAND_OPEN =>
          opened ← player_execute_set_media (mkMedia (text command) (metadata command));
          if negb opened then mret false
          else if negb (flag command) then mret true else player_run_backend_bool (bk_play ops)
      | Some MEDIA_ACTOR_COMMAND_PLAY => player_run_backend_bool (bk_play ops)
      | Some MEDIA_ACTOR_COMMAND_PAUSE => player_run_backend_bool (bk_pause ops)
      | Some MEDIA_ACTOR_COMMAND_STOP | Some MEDIA_ACTOR_COMMAND_STOP_ANY | Some MEDIA_ACTOR_COMMAND_QUIESCE =>
          player_run_backend_bool (bk_stop ops)
      | Some MEDIA_ACTOR_COMMAND_SEEK_TARGET => player_run_backend_string (bk_seek_target ops) (text command)
      | Some MEDIA_ACTOR_COMMAND_SEEK_MS => player_run_backend_int (bk_seek_ms ops) (value command)
      | Some MEDIA_ACTOR_COMMAND_SET_VOLUME => player_run_backend_int (bk_set_volume ops) (value command)
      | Some MEDIA_ACTOR_COMMAND_SET_MUTE => player_run_backend_flag (bk_set_mute ops) (flag command)
      | Some MEDIA_ACTOR_COMMAND_SHOW_OSD => player_run_backend_string_int (bk_show_osd ops) (text command) (value command)
      | Some MEDIA_ACTOR_COMMAND_BIND_STREAM =>
          if flag command then call_backend (set_airplay_audio_bridge bks (opaque command))
          else call_backend (set_airplay_stream_bridge bks (opaque command))
      | Some MEDIA_ACTOR_COMMAND_RELEASE_LEASE => owned (player_ownership_release (Some (command_lease command)))
      | Some MEDIA_ACTOR_COMMAND_SHUTDOWN => mret true
      | None => mret false
      end
  end.

(* src: source/player/core/session.c player_actor_pump_events *)
Definition player_actor_pump_events (timeout_ms : Z) : sess B unit :=
  p ← get_player; _ ← call_or (field bk_pump_events p ≫= fun f => Some (f timeout_ms)) false; mret tt.

(* src: source/player/core/session.c player_actor_wakeup *)
Definition player_actor_wakeup : sess B unit := p ← get_player; call_or (field bk_wakeup p) tt.

(** ** Requests *)

(* src: source/player/core/session.c player_actor_kind *)
Definition player_actor_kind (kind : PlayerCommandKind) : MediaActorCommandKind :=
  match kind with
  | PLAYER_COMMAND_OPEN => MEDIA_ACTOR_COMMAND_OPEN
  | PLAYER_COMMAND_PLAY => MEDIA_ACTOR_COMMAND_PLAY
  | PLAYER_COMMAND_PAUSE => MEDIA_ACTOR_COMMAND_PAUSE
  | PLAYER_COMMAND_STOP => MEDIA_ACTOR_COMMAND_STOP
  | PLAYER_COMMAND_STOP_ANY => MEDIA_ACTOR_COMMAND_STOP_ANY
  | PLAYER_COMMAND_SEEK_TARGET => MEDIA_ACTOR_COMMAND_SEEK_TARGET
  | PLAYER_COMMAND_SEEK_MS => MEDIA_ACTOR_COMMAND_SEEK_MS
  | PLAYER_COMMAND_SET_VOLUME => MEDIA_ACTOR_COMMAND_SET_VOLUME
  | PLAYER_COMMAND_SET_MUTE => MEDIA_ACTOR_COMMAND_SET_MUTE
  | PLAYER_COMMAND_SHOW_OSD => MEDIA_ACTOR_COMMAND_SHOW_OSD
  | PLAYER_COMMAND_RELEASE_LEASE => MEDIA_ACTOR_COMMAND_RELEASE_LEASE
  end.

(** A value outside the enumeration has no producer. *)
(* src: source/player/core/session.c player_actor_producer *)
Definition player_actor_producer (source : option PlayerCommandSource) : MediaActorProducer :=
  match source with
  | Some PLAYER_COMMAND_SOURCE_APP => MEDIA_ACTOR_PRODUCER_APP
  | Some PLAYER_COMMAND_SOURCE_UI => MEDIA_ACTOR_PRODUCER_UI
  | Some PLAYER_COMMAND_SOURCE_DLNA => MEDIA_ACTOR_PRODUCER_DLNA
  | Some PLAYER_COMMAND_SOURCE_IPTV => MEDIA_ACTOR_PRODUCER_IPTV
  | Some PLAYER_COMMAND_SOURCE_AIRPLAY_VIDEO => MEDIA_ACTOR_PRODUCER_AIRPLAY_VIDEO
  | Some PLAYER_COMMAND_SOURCE_AIRPLAY_MIRROR => MEDIA_ACTOR_PRODUCER_AIRPLAY_MIRROR
  | None => MEDIA_ACTOR_PRODUCER_UNKNOWN
  end.

(* src: source/player/core/session.c player_source_owner *)
Definition player_source_owner (source : option PlayerCommandSource) : PlayerMediaOwner :=
  match source with
  | Some PLAYER_COMMAND_SOURCE_DLNA => PLAYER_MEDIA_OWNER_DLNA
  | Some PLAYER_COMMAND_SOURCE_IPTV => PLAYER_MEDIA_OWNER_IPTV
  | Some PLAYER_COMMAND_SOURCE_AIRPLAY_VIDEO => PLAYER_MEDIA_OWNER_AIRPLAY_VIDEO
  | Some PLAYER_COMMAND_SOURCE_AIRPLAY_MIRROR => PLAYER_MEDIA_OWNER_AIRPLAY_MIRROR
  | _ => PLAYER_MEDIA_OWNER_NONE
  end.

(* src: source/player/core/session.c player_command_status_from_actor *)
Definition player_command_status_from_actor (status : MediaActorSubmitStatus) : PlayerCommandStatus :=
  match status with
  | MEDIA_ACTOR_SUBMIT_ACCEPTED => PLAYER_COMMAND_STATUS_ACCEPTED
  | MEDIA_ACTOR_SUBMIT_EXECUTED => PLAYER_COMMAND_STATUS_EXECUTED
  | MEDIA_ACTOR_SUBMIT_EXECUTION_FAILED => PLAYER_COMMAND_STATUS_EXECUTION_FAILED
  | MEDIA_ACTOR_SUBMIT_INVALID => PLAYER_COMMAND_STATUS_INVALID
  | MEDIA_ACTOR_SUBMIT_NOT_RUNNING => PLAYER_COMMAND_STATUS_NOT_RUNNING
  | MEDIA_ACTOR_SUBMIT_QUEUE_FULL => PLAYER_COMMAND_STATUS_QUEUE_FULL
  | MEDIA_ACTOR_SUBMIT_NO_MEMORY => PLAYER_COMMAND_STATUS_NO_MEMORY
  | MEDIA_ACTOR_SUBMIT_TIMEOUT => PLAYER_COMMAND_STATUS_TIMEOUT
  | MEDIA_ACTOR_SUBMIT_SHUTTING_DOWN => PLAYER_COMMAND_STATUS_SHUTTING_DOWN
  | MEDIA_ACTOR_SUBMIT_STALE => PLAYER_COMMAND_STATUS_STALE
  end.

(* src: source/player/core/session.c player_command_request_valid *)
Definition player_command_request_valid (request : option PlayerCommandRequest) : bool :=
  match request with
  | None => false
  | Some r =>
      match req_kind r with
      | None => false
      | Some k =>
          if bool_decide (player_actor_producer (req_source r) = MEDIA_ACTOR_PRODUCER_UNKNOWN) then false
          else if bool_decide (k = PLAYER_COMMAND_OPEN) && blank (req_uri r) then false
          else if (bool_decide (k = PLAYER_COMMAND_SEEK_TARGET) || bool_decide (k = PLAYER_COMMAND_SHOW_OSD)) &&
                  bool_decide (req_text r = None) then false
          else
            let expected_owner := player_source_owner (req_source r) in
            if owner_eqb expected_owner PLAYER_MEDIA_OWNER_NONE then
              negb (bool_decide (k = PLAYER_COMMAND_STOP)) || bool_decide (req_source r = Some PLAYER_COMMAND_SOURCE_APP) ||
              bool_decide (req_source r = Some PLAYER_COMMAND_SOURCE_UI)
            else if bool_decide (k = PLAYER_COMMAND_STOP_ANY) then false
            else owner_eqb (owner (req_lease r)) expected_owner && negb (Ownership.generation (req_lease r) =? 0)
      end
  end.

Definition command_zero (k : option MediaActorCommandKind) (who : MediaActorProducer) : MediaActorCommand :=
  mkCommand 0 k who 0 0 None None 0 false None false false.

(* src: source/player/core/session.c 677-686 player_submit_command *)
Definition actor_command (r : PlayerCommandRequest) : MediaActorCommand :=
  { command_zero (player_actor_kind <$> req_kind r) (player_actor_producer (req_source r)) with
      session_token := token (req_lease r); MediaActor.generation := Ownership.generation (req_lease r);
      text := if bool_decide (req_kind r = Some PLAYER_COMMAND_OPEN) then req_uri r else req_text r;
      metadata := req_metadata r; value := req_value r; flag := req_flag r }.

(** Up to the call of the actor: the status, or the command that the actor is given. *)
(* src: source/player/core/session.c 663-686 player_submit_command *)
Definition submit_begin (request : option PlayerCommandRequest) : sess B (PlayerCommandStatus + MediaActorCommand) :=
  if negb (player_command_request_valid request) then mret (inl PLAYER_COMMAND_STATUS_INVALID)
  else
    match request with
    | None => mret (inl PLAYER_COMMAND_STATUS_INVALID)
    | Some r =>
        valid ← (if owner_eqb (player_source_owner (req_source r)) PLAYER_MEDIA_OWNER_NONE then mret true
                 else owned (player_ownership_validate (Some (req_lease r))));
        if negb valid then mret (inl PLAYER_COMMAND_STATUS_STALE)
        else
          p ← get_player;
          mret (if negb (g_initialized p) || negb (g_media_actor p) then inl PLAYER_COMMAND_STATUS_NOT_RUNNING
                else inr (actor_command r))
    end.

(** [submit] are media_actor_submit_wait with the timeout, or media_actor_submit_async. *)
(* src: source/player/core/session.c player_submit_command *)
Definition player_submit_command (submit : MediaActorCommand -> sess B MediaActorSubmitStatus) (request : option PlayerCommandRequest)
    : sess B PlayerCommandStatus :=
  begun ← submit_begin request;
  match begun with
  | inl status => mret status
  | inr command => status ← submit command; mret (player_command_status_from_actor status)
  end.

(* src: source/player/core/session.c player_submit_airplay_bridge *)
Definition bridge_begin (bridge : option Z) (lease : option PlayerOwnershipLease) (audio : bool)
    : sess B (PlayerCommandStatus + MediaActorCommand) :=
  match lease with
  | None => mret (inl PLAYER_COMMAND_STATUS_INVALID)
  | Some l =>
      if negb (owner_eqb (owner l) PLAYER_MEDIA_OWNER_AIRPLAY_MIRROR) || (Ownership.generation l =? 0)
      then mret (inl PLAYER_COMMAND_STATUS_INVALID)
      else
        valid ← owned (player_ownership_validate (Some l));
        if negb valid then mret (inl PLAYER_COMMAND_STATUS_STALE)
        else
          p ← get_player;
          mret (if negb (g_initialized p) || negb (g_media_actor p) then inl PLAYER_COMMAND_STATUS_NOT_RUNNING
                else inr (mkCommand 0 (Some MEDIA_ACTOR_COMMAND_BIND_STREAM) MEDIA_ACTOR_PRODUCER_AIRPLAY_MIRROR (token l)
                            (Ownership.generation l) None None 0 audio bridge true true))
  end.

(** ** The calls of the application *)

(* src: source/player/core/session.c player_actor_submit_wait *)
Definition player_actor_submit_wait (submit : MediaActorCommand -> sess B MediaActorSubmitStatus) (command : MediaActorCommand)
    : sess B bool :=
  p ← get_player;
  if negb (g_initialized p) || negb (g_media_actor p) then mret false
  else status ← submit command; mret (bool_decide (status = MEDIA_ACTOR_SUBMIT_EXECUTED)).

Definition app_command (k : MediaActorCommandKind) : MediaActorCommand := command_zero (Some k) MEDIA_ACTOR_PRODUCER_APP.

Section calls.
Context (submit : MediaActorCommand -> sess B MediaActorSubmitStatus).

(* src: source/player/core/session.c player_set_media *)
Definition player_set_media (media' : option PlayerMedia) : sess B bool :=
  match media' with
  | None => mret false
  | Some m =>
      if blank (m_uri m) then mret false
      else player_actor_submit_wait submit
             { app_command MEDIA_ACTOR_COMMAND_OPEN with text := m_uri m; metadata := m_metadata m }
  end.

(* src: source/player/core/session.c player_set_uri *)
Definition player_set_uri (uri metadata' : option cstring) : sess B bool :=
  if blank uri then mret false
  else
    match player_media_set alloc uri metadata' with
    | None => mret false
    | Some m => player_set_media (Some m)
    end.

(* src: source/player/core/session.c player_play *)
Definition player_play : sess B bool := player_actor_submit_wait submit (app_command MEDIA_ACTOR_COMMAND_PLAY).

(* src: source/player/core/session.c player_pause *)
Definition player_pause : sess B bool := player_actor_submit_wait submit (app_command MEDIA_ACTOR_COMMAND_PAUSE).

(* src: source/player/core/session.c player_stop *)
Definition player_stop : sess B bool := player_actor_submit_wait submit (app_command MEDIA_ACTOR_COMMAND_STOP_ANY).

(* src: source/player/core/session.c player_seek_target *)
Definition player_seek_target (target : option cstring) : sess B bool :=
  if bool_decide (target = None) then mret false
  else player_actor_submit_wait submit { app_command MEDIA_ACTOR_COMMAND_SEEK_TARGET with text := target }.

(* src: source/player/core/session.c player_seek_ms *)
Definition player_seek_ms (position_ms : Z) : sess B bool :=
  player_actor_submit_wait submit { app_command MEDIA_ACTOR_COMMAND_SEEK_MS with value := position_ms }.

(* src: source/player/core/session.c player_set_volume *)
Definition player_set_volume (volume : Z) : sess B bool :=
  player_actor_submit_wait submit { app_command MEDIA_ACTOR_COMMAND_SET_VOLUME with value := volume }.

(* src: source/player/core/session.c player_set_mute *)
Definition player_set_mute (mute : bool) : sess B bool :=
  player_actor_submit_wait submit { app_command MEDIA_ACTOR_COMMAND_SET_MUTE with flag := mute }.

(* src: source/player/core/session.c player_show_osd *)
Definition player_show_osd (osd : option cstring) (duration_ms : Z) : sess B bool :=
  if bool_decide (osd = None) then mret false
  else player_actor_submit_wait submit { app_command MEDIA_ACTOR_COMMAND_SHOW_OSD with text := osd; value := duration_ms }.
End calls.

(** ** Configuration, start and end *)

(* src: source/player/core/session.c player_set_backend *)
Definition player_set_backend (type : PlayerBackendType) : sess B bool :=
  p ← get_player;
  if g_initialized p then mret false
  else _ ← change (fun p => { p with g_backend_type := type; g_backend := None }); mret true.

(* src: source/player/core/session.c player_get_backend *)
Definition player_get_backend : sess B PlayerBackendType := p ← get_player; mret (g_backend_type p).

(* src: source/player/core/session.c player_get_backend_name *)
Definition player_get_backend_name : sess B string :=
  p ← get_player;
  match field bk_name p with Some name => mret name | None => backend_name_from_type (g_backend_type p) end.

(* src: source/player/core/session.c player_set_event_callback *)
Definition player_set_event_callback (callback : bool) : sess B unit :=
  change (fun p => { player_ensure_sync_primitives p with g_event_callback := callback }).

(* src: source/player/core/session.c 854-870 player_init *)
Definition player_actor_config : MediaActorConfig := mkActorConfig 64 4 8 10 true true true true true true true.

(** Up to the call of media_actor_start: the answer of player_init, or the actor to start. *)
(* src: source/player/core/session.c 872-905 player_init *)
Definition player_init_begin (actor_allocated : bool) : sess B (bool + MediaActor) :=
  p ← get_player;
  if g_initialized p then mret (inl true)
  else
    _ ← change player_ensure_sync_primitives;
    _ ← locked (fun p => (tt, player_reset_snapshot_locked
                               { p with g_has_current_media := false; g_current_media := player_media_clear }));
    p ← get_player;
    backend ← backend_ops_from_type (g_backend_type p);
    available ← backend_available (Some backend);
    if negb available then _ ← change (fun p => { p with g_backend := None }); mret (inl false)
    else
      match media_actor_create (Some player_actor_config) actor_allocated with
      | None => _ ← change (fun p => { p with g_backend := None }); mret (inl false)
      | Some actor =>
          _ ← change (fun p => { p with g_backend := Some backend; g_media_actor := true; g_initialized := true });
          mret (inr actor)
      end.

(** When the actor did not start, which is then destroyed. *)
(* src: source/player/core/session.c 906-914 player_init *)
Definition player_init_failed : sess B bool :=
  _ ← change (fun p => { p with g_initialized := false; g_media_actor := false; g_backend := None });
  mret false.

(** The callbacks of the functions of the application that wait see the player as it is
    when the actor was stopped and destroyed. *)
(* src: source/player/core/session.c 952-964 player_deinit *)
Definition player_deinit_finish : sess B unit :=
  _ ← change (fun p => { p with g_media_actor := false });
  _ ← locked (fun p => (tt, player_reset_snapshot_locked (player_store_media_locked false None p).2));
  _ ← change (fun p => { p with g_backend := None; g_initialized := false });
  owned player_ownership_reset.

(** [stop] is media_actor_stop followed by media_actor_destroy. *)
(* src: source/player/core/session.c player_deinit *)
Definition player_deinit (stop : sess B unit) : sess B unit :=
  p ← get_player;
  if negb (g_initialized p) then owned player_ownership_reset
  else _ ← (if g_media_actor p then stop else mret tt); player_deinit_finish.

(** ** Video, for the thread that draws *)

(* src: source/player/core/session.c player_video_supported *)
Definition player_video_supported (health : option MediaActorHealth) : sess B bool :=
  p ← get_player;
  match g_initialized p, ops_of p, g_media_actor p, health with
  | true, Some ops, true, Some h =>
      let both {X Y} (a : option X) (b : option Y) := bool_decide (is_Some a) && bool_decide (is_Some b) in
      if negb (ready h) then mret false
      else if negb (both (bk_render_attach_gl ops) (bk_render_frame_gl ops)) &&
              negb (both (bk_render_attach_sw ops) (bk_render_frame_sw ops)) &&
              negb (both (bk_render_attach_dk3d ops) (bk_render_frame_dk3d ops)) then mret false
      else call_or (bk_render_supported ops) true
  | _, _, _, _ => mret false
  end.

(* src: source/player/core/session.c player_video_render_ready *)
Definition player_video_render_ready (health : option MediaActorHealth) : sess B bool :=
  supported ← player_video_supported health;
  if negb supported then mret false
  else
    p ← get_player;
    match field bk_render_ready p with
    | Some ready => call_backend ready
    | None =>
        match field bk_get_state p with
        | None => mret false
        | Some get_state => state ← call_backend get_state; mret (negb (bool_decide (state = PLAYER_STATE_LOADING)))
        end
    end.

(** A call that the backend has for drawing. *)
Definition video_call (health : option MediaActorHealth) (get : BackendOps B -> option (bcall B bool)) : sess B bool :=
  supported ← player_video_supported health;
  p ← get_player;
  if (supported : bool) then call_or (field get p) false else mret false.

(* src: source/player/core/session.c player_video_attach_gl *)
Definition player_video_attach_gl (health : option MediaActorHealth) (get_proc_address ctx : Z) : sess B bool :=
  video_call health (fun ops => bk_render_attach_gl ops ≫= fun f => Some (f get_proc_address ctx)).
(* src: source/player/core/session.c player_video_attach_sw *)
Definition player_video_attach_sw (health : option MediaActorHealth) : sess B bool := video_call health bk_render_attach_sw.
(* src: source/player/core/session.c player_video_attach_dk3d *)
Definition player_video_attach_dk3d (health : option MediaActorHealth) (init : Z) : sess B bool :=
  video_call health (fun ops => bk_render_attach_dk3d ops ≫= fun f => Some (f init)).
(* src: source/player/core/session.c player_video_detach *)
Definition player_video_detach : sess B unit :=
  p ← get_player; if g_initialized p then call_or (field bk_render_detach p) tt else mret tt.
(* src: source/player/core/session.c player_video_render_gl *)
Definition player_video_render_gl (health : option MediaActorHealth) (fbo width height : Z) (flip_y : bool) : sess B bool :=
  video_call health (fun ops => bk_render_frame_gl ops ≫= fun f => Some (f fbo width height flip_y)).
(* src: source/player/core/session.c player_video_render_sw *)
Definition player_video_render_sw (health : option MediaActorHealth) (pixels width height stride : Z) : sess B bool :=
  video_call health (fun ops => bk_render_frame_sw ops ≫= fun f => Some (f pixels width height stride)).
(* src: source/player/core/session.c player_video_render_dk3d *)
Definition player_video_render_dk3d (health : option MediaActorHealth) (frame : Z) : sess B bool :=
  video_call health (fun ops => bk_render_frame_dk3d ops ≫= fun f => Some (f frame)).

(** ** Readers *)

(* src: source/player/core/session.c player_get_position_ms *)
Definition player_get_position_ms : sess B Z := locked (fun p => (p_position_ms (g_snapshot p), p)).
(* src: source/player/core/session.c player_get_duration_ms *)
Definition player_get_duration_ms : sess B Z := locked (fun p => (p_duration_ms (g_snapshot p), p)).
(* src: source/player/core/session.c player_get_volume *)
Definition player_get_volume : sess B Z := locked (fun p => (p_volume (g_snapshot p), p)).
(* src: source/player/core/session.c player_get_mute *)
Definition player_get_mute : sess B bool := locked (fun p => (p_mute (g_snapshot p), p)).
(* src: source/player/core/session.c player_is_seekable *)
Definition player_is_seekable : sess B bool := locked (fun p => (p_seekable (g_snapshot p), p)).
(* src: source/player/core/session.c player_get_state *)
Definition player_get_state : sess B PlayerState := locked (fun p => (p_state (g_snapshot p), p)).

(* src: source/player/core/session.c player_get_current_media *)
Definition player_get_current_media : sess B (option PlayerMedia) :=
  locked (fun p => (if g_has_current_media p then player_media_copy alloc (Some (g_current_media p)) else None, p)).

(* src: source/player/core/session.c player_get_snapshot *)
Definition player_get_snapshot : sess B (option PlayerSnapshot) := locked (fun p => (player_snapshot_copy alloc (g_snapshot p), p)).
End session.

(** The variables before player_init. *)
Definition player_zero {B} (b : B) : Player B :=
  mkPlayer None PLAYER_BACKEND_AUTO false false false media_zero player_snapshot_zero false false b ownership_zero [].
