(* ===== verification/PlayerSystem.v ===== *)
(** * The player and its actor (player/core/session.c with player/core/media_actor.c)

    The calls of the player together with the steps of its actor: the worker's callbacks
    are those of the player, and every thread may submit commands, use the leases and
    wake the backend up at any time.  [player_init] and [player_deinit] are called by one
    thread, and no other call of the player is running when the actor is destroyed.  A
    registered event callback does not submit commands. *)

From S2P Require Import Prelude Prog Ownership CoordData MediaActor MediaActorSystem CText Buffers PlayerTypes PlayerCommands PlayerBackend PlayerSession.

(** ** What the player's callbacks leave alone (player/core/session.c)

    Every callback keeps the backend, the actor and the mode of the player, and, as long as
    there is memory, the snapshot shows exactly the current media.  [grows] is that relation
    between the player before and after; it composes, so each callback is a few lines. *)

Section frame.
Context {B : Type} (alloc : Z -> bool) (bks : Backends B).
Implicit Type p : Player B.

(** The snapshot shows the current media, or none when there is none. *)
Definition media_shown p : Prop :=
  has_media (g_snapshot p) = g_has_current_media p /\
  media (g_snapshot p) = (if g_has_current_media p then g_current_media p else media_zero).

Record grows p p' : Prop := {
  gr_backend : g_backend p' = g_backend p;
  gr_type : g_backend_type p' = g_backend_type p;
  gr_initialized : g_initialized p' = g_initialized p;
  gr_actor : g_media_actor p' = g_media_actor p;
  gr_media : (forall n, alloc n = true) -> media_shown p -> media_shown p'
}.

Lemma grows_refl p : grows p p.
Proof. by split. Qed.

Lemma grows_trans p1 p2 p3 : grows p1 p2 -> grows p2 p3 -> grows p1 p3.
Proof. intros [] []. split; [congruence..|]. auto. Qed.

(** [m] only goes where [grows] leads. *)
Definition framed {A} (m : sess B A) : Prop := forall p a p', m p = Done (a, p') -> grows p p'.

Lemma framed_ret {A} (a : A) : framed (mret a).
Proof. intros p x p' [= _ <-]. apply grows_refl. Qed.

Lemma framed_bind {A C} (m : sess B A) (k : A -> sess B C) : framed m -> (forall a, framed (k a)) -> framed (m ≫= k).
Proof.
  intros Hm Hk p c p' H. unfold mbind, sess_bind in H. apply bind_done in H as ([a p1] & H1 & H2).
  eapply grows_trans; [by eapply Hm|by eapply Hk].
Qed.

(** What comes after reading the player may use that it was read. *)
Lemma framed_read {A} (k : Player B -> sess B A) : (forall p, framed (k p)) -> framed (p ← get_player; k p).
Proof. intros H. apply framed_bind; [|done]. intros p a p' [= _ <-]. apply grows_refl. Qed.

Lemma framed_locked {A} (f : Player B -> A * Player B) : (forall p, grows p (f p).2) -> framed (locked f).
Proof. intros Hf p a p' H. unfold locked in H. injection H as H. specialize (Hf p). by rewrite H in Hf. Qed.

Lemma framed_owned {A} (m : prog (Player B) A) :
  (forall p, match run m p with Some (_, p') => exists o, p' = { p with pl_own := o } | None => True end) -> framed (owned m).
Proof.
  intros Hm p a p' H. unfold owned in H. specialize (Hm p). destruct (run m p) as [[x q]|]; [|done].
  injection H as -> ->. destruct Hm as [o ->]. by split.
Qed.

(** ** Media and events *)

Lemma copy_all m : (forall n, alloc n = true) -> player_media_copy alloc (Some m) = Some m.
Proof.
  intros Ha. destruct m as [u d]. unfold player_media_copy, player_strdup_or_null. cbn.
  destruct u as [u|], d as [d|]; cbn; by rewrite ?Ha.
Qed.

Lemma sync_grows p : grows p (player_sync_snapshot_media_locked alloc p).2 /\
  ((forall n, alloc n = true) -> has_media (g_snapshot p) = g_has_current_media p ->
   (player_sync_snapshot_media_locked alloc p).1 = true /\ media_shown (player_sync_snapshot_media_locked alloc p).2).
Proof.
  unfold player_sync_snapshot_media_locked. cbv zeta. rproj.
  destruct (g_has_current_media p) eqn:Hh; cbn [negb].
  - destruct (player_media_copy alloc (Some (g_current_media p))) as [m|] eqn:Hm; cbn [fst snd].
    + apply media_copy_equal in Hm as ->. split.
      * split; [done..|]. intros _ [H1 H2]. split; rproj; by rewrite Hh in *.
      * intros _ H. split; [done|]. split; rproj; by rewrite Hh in *.
    + split.
      * split; [done..|]. intros Ha. by rewrite copy_all in Hm.
      * intros Ha. by rewrite copy_all in Hm.
  - cbn [fst snd]. split.
    + split; [done..|]. intros _ [H1 H2]. split; rproj; by rewrite Hh in *.
    + intros _ H. split; [done|]. split; rproj; by rewrite Hh in *.
Qed.

(** Storing changes the media, and the snapshot with it. *)
Lemma store_grows has_media' media' p : grows p (player_store_media_locked alloc has_media' media' p).2.
Proof.
  unfold player_store_media_locked. cbv zeta.
  destruct (match media' with Some m => if has_media' then player_media_copy alloc (Some m) else Some media_zero
            | None => Some media_zero end) as [current|] eqn:Hc; [|apply grows_refl].
  set (p1 := upd _ _ _). destruct (sync_grows p1) as [Hg Hs].
  destruct (player_sync_snapshot_media_locked alloc p1) as [[] p2] eqn:E; cbn [fst snd] in *.
  - destruct Hg as [H1 H2 H3 H4 _]. split; [done..|]. intros Ha _. apply Hs; done.
  - destruct Hg as [H1 H2 H3 H4 _]. split; [done..|]. intros Ha _. by destruct (Hs Ha eq_refl).
Qed.

Lemma apply_event_grows event p : grows p (player_apply_event_locked alloc event p).
Proof.
  unfold player_apply_event_locked. cbv zeta. rproj. destruct (g_has_current_media p) eqn:Hh.
  - set (p1 := upd _ _ _). destruct (sync_grows p1) as [Hg Hs].
    eapply grows_trans; [|exact Hg]. split; [done..|]. intros _ [H1 H2]. split; unfold p1; rproj; by rewrite Hh in *.
  - split; [done..|]. intros _ [H1 H2]. split; rproj; by rewrite Hh.
Qed.

Lemma emit_grows event p : grows p (player_emit_from_backend alloc event p).
Proof.
  unfold player_emit_from_backend. cbv zeta. pose proof (apply_event_grows event p) as H.
  destruct (g_event_callback _); [|done]. eapply grows_trans; [exact H|]. by split.
Qed.

Lemma framed_call {A} (f : bcall B A) : framed (call_backend alloc f).
Proof.
  intros p a p' H. unfold call_backend in H. apply bind_done in H as ([[x es] b] & _ & H). injection H as _ <-.
  assert (H0 : grows p { p with pl_backend := b }) by by split.
  generalize dependent ({ p with pl_backend := b }). induction es as [|e es IH]; intros q Hq; [done|].
  apply IH. eapply grows_trans; [exact Hq|apply emit_grows].
Qed.

Lemma framed_call_or {A} (f : option (bcall B A)) other : framed (call_or alloc f other).
Proof. destruct f; [apply framed_call|apply framed_ret]. Qed.

(** ** The callbacks *)

Create HintDb player.
Hint Resolve framed_ret framed_call framed_call_or grows_refl store_grows : player.

(** One step of a proof that a computation is framed. *)
Ltac framed_step :=
  match goal with
  | |- framed (get_player ≫= _) => apply framed_read; intros ?
  | |- framed (_ ≫= _) => apply framed_bind; [|intros ?]
  | |- framed (locked _) => apply framed_locked; intros ?; cbn beta
  | |- framed (if ?b then _ else _) => destruct b
  | |- framed (match ?x with _ => _ end) => destruct x
  | |- framed _ => solve [auto with player]
  end.
Ltac framed := repeat framed_step.

Lemma read_snapshot_framed : framed (player_read_backend_snapshot alloc bks).
Proof.
  unfold player_read_backend_snapshot. framed. destruct (g_has_current_media _); [|apply grows_refl].
  destruct (player_media_copy alloc _); apply grows_refl.
Qed.

(** The snapshot that is read shows the media that is current. *)
Lemma read_snapshot_shows p s p' : player_read_backend_snapshot alloc bks p = Done (Some s, p') ->
  has_media s = g_has_current_media p' /\ media s = (if g_has_current_media p' then g_current_media p' else media_zero).
Proof.
  unfold player_read_backend_snapshot. intros H. unfold mbind, sess_bind in H.
  do 7 (apply bind_done in H as ([? ?] & _ & H)). unfold locked in H.
  destruct (g_has_current_media _) eqn:Hh; [|injection H as <- <-; by rewrite Hh].
  destruct (player_media_copy _ _) as [m|] eqn:Hm; [|done]. injection H as <- <-. apply media_copy_equal in Hm as ->. by rewrite Hh.
Qed.

Lemma refresh_framed : framed (player_refresh_cached_snapshot_from_backend alloc bks).
Proof.
  intros p u p' H. unfold player_refresh_cached_snapshot_from_backend in H.
  unfold mbind, sess_bind in H. apply bind_done in H as ([s p1] & H1 & H).
  pose proof (read_snapshot_framed _ _ _ H1) as G. destruct s as [s|]; [|by injection H as _ <-].
  apply read_snapshot_shows in H1 as [E1 E2]. unfold locked in H. injection H as _ <-.
  eapply grows_trans; [exact G|]. split; [done..|]. intros _ _. split; rproj; done.
Qed.
Hint Resolve refresh_framed : player.

Lemma run_backend_framed refreshes fn : framed (run_backend alloc bks refreshes fn).
Proof. unfold run_backend, wakeup. framed. Qed.
Hint Resolve run_backend_framed : player.

Lemma validate_framed command : framed (player_validate_actor_command command).
Proof.
  unfold player_validate_actor_command. framed. apply framed_owned. intros p.
  unfold player_ownership_validate. destruct (_ || _); cbn; [by exists (pl_own p); destruct p|].
  unfold put_own. cbn. by eexists.
Qed.

Lemma release_framed command : framed (owned (player_ownership_release (Some (command_lease command)))).
Proof. apply framed_owned. intros p. cbn. by eexists. Qed.

Lemma set_media_begin_framed m : framed (set_media_begin alloc m).
Proof.
  unfold set_media_begin. framed.
  destruct (if g_has_current_media _ then _ else _) as [previous|]; [|apply grows_refl].
  pose proof (store_grows true (Some m) p) as G. destruct (player_store_media_locked alloc true (Some m) p) as [[] p'] eqn:E; cbn [snd] in *; [|done].
  eapply grows_trans; [exact G|]. by split.
Qed.
Hint Resolve validate_framed release_framed set_media_begin_framed : player.

Lemma execute_set_media_framed m : framed (player_execute_set_media alloc bks m).
Proof. unfold player_execute_set_media, wakeup. framed. apply store_grows. Qed.
Hint Resolve execute_set_media_framed : player.

Lemma execute_framed command : framed (player_execute_actor_command alloc bks command).
Proof.
  unfold player_execute_actor_command, player_run_backend_bool, player_run_backend_int, player_run_backend_string,
    player_run_backend_string_int, player_run_backend_flag. framed.
Qed.

Lemma initialize_framed : framed (player_actor_initialize alloc bks).
Proof. unfold player_actor_initialize. cbv zeta. framed. Qed.

Lemma finalize_framed : framed (player_actor_finalize alloc bks).
Proof. unfold player_actor_finalize. framed. Qed.

Lemma pump_framed timeout : framed (player_actor_pump_events alloc bks timeout).
Proof. unfold player_actor_pump_events. framed. Qed.

Lemma wakeup_framed : framed (player_actor_wakeup alloc bks).
Proof. unfold player_actor_wakeup. framed. Qed.

(** ** Submitting *)

Lemma validate_lease_framed l : framed (owned (player_ownership_validate (Some l))).
Proof.
  apply framed_owned. intros p. unfold player_ownership_validate. destruct (_ || _); cbn; [by exists (pl_own p); destruct p|]. by eexists.
Qed.
Hint Resolve validate_lease_framed : player.

Lemma submit_begin_framed request : framed (submit_begin request).
Proof. unfold submit_begin. framed. Qed.

Lemma bridge_begin_framed bridge lease audio : framed (bridge_begin bridge lease audio).
Proof. unfold bridge_begin. framed. Qed.
End frame.

(** ** The player and its actor (player/core/session.c with player/core/media_actor.c) *)

(** Where the thread is that calls player_init and player_deinit. *)
Inductive Phase := PhaseIdle | PhaseCreated | PhaseStarting | PhaseFailing | PhaseStopping.

(** [ps_validated] is what the validate callback answered for the command that the worker
    holds, with the lease that was current then; [ps_backend_up] says that the backend was
    initialized and not yet finalized; [ps_executed] lists the commands that were executed,
    each with the lease that was current when it was validated.  The last two are only
    observed. *)
Record PlayerSys (B : Type) := mkPlayerSys {
  ps_player : Player B;
  ps_actor : option System;
  ps_phase : Phase;
  ps_validated : option (bool * PlayerOwnershipLease);
  ps_backend_up : bool;
  ps_executed : list (MediaActorCommand * PlayerOwnershipLease)
}.
Arguments mkPlayerSys {B} _ _ _ _ _ _.
Arguments ps_player {B} _.
Arguments ps_actor {B} _.
Arguments ps_phase {B} _.
Arguments ps_validated {B} _.
Arguments ps_backend_up {B} _.
Arguments ps_executed {B} _.
#[export] Instance eta_PlayerSys {B} : Eta (PlayerSys B) := fun s =>
  mkPlayerSys (ps_player s) (ps_actor s) (ps_phase s) (ps_validated s) (ps_backend_up s) (ps_executed s).

(** The steps of the actor that call nothing of the player. *)
Inductive inner_step : System -> System -> Prop :=
| inner_wait_finish i a : i ∈ waiters a -> inner_step a (wait_finish_step i a).2
| inner_activate a : inner_step a { a with actor := (media_actor_activate (actor a)).2 }
| inner_quiesce a : inner_step a { a with actor := media_actor_quiesce (actor a) }
| inner_thread_created a : starter a = StarterBegun -> worker a = WorkerNone ->
    inner_step a { a with starter := StarterCreated; worker := WorkerCreated }
| inner_thread_main a : worker a = WorkerCreated ->
    inner_step a { a with actor -> worker_identity_valid := true; worker := WorkerInitializing }
| inner_init_failed a : worker a = WorkerInitFailed ->
    inner_step a { a with actor -> worker_identity_valid := false; worker := WorkerExited }
| inner_loop processed now a : worker a = WorkerLoop processed -> inner_step a (loop_step processed now a)
| inner_finish_reject a : worker a = WorkerFinishing -> inner_step a { reject_step a with worker := WorkerFinalizing }.

Lemma inner_is_step a a' : inner_step a a' -> actor_step a a'.
Proof. destruct 1; [by constructor..|by apply step_loop|by constructor]. Qed.

Section system.
Context {B : Type} (alloc : Z -> bool) (bks : Backends B).

(** A request that reached the actor is submitted to it. *)
Definition submitted_to (r : PlayerCommandStatus + MediaActorCommand) (wait : bool) (m : Allocations) (a : option System) : option System :=
  match r with inl _ => a | inr c => submit_step (Some c) wait m <$> a end.

Inductive player_step : PlayerSys B -> PlayerSys B -> Prop :=
(** the calls of other threads *)
| step_request request wait m r p s :
    submit_begin request (ps_player s) = Done (r, p) ->
    player_step s { s with ps_player := p; ps_actor := submitted_to r wait m (ps_actor s) }
| step_bridge bridge lease audio m r p s :
    bridge_begin bridge lease audio (ps_player s) = Done (r, p) ->
    player_step s { s with ps_player := p; ps_actor := submitted_to r false m (ps_actor s) }
| step_application c m a s :
    producer c = MEDIA_ACTOR_PRODUCER_APP -> g_initialized (ps_player s) = true -> ps_actor s = Some a ->
    player_step s { s with ps_actor := Some (submit_step (Some c) true m a) }
| step_wakeup p s :
    player_actor_wakeup alloc bks (ps_player s) = Done (tt, p) -> player_step s { s with ps_player := p }
| step_ownership op s :
    player_step s { s with ps_player -> pl_own := own_after op (pl_own (ps_player s)) }
| step_set_backend type r p s :
    player_set_backend type (ps_player s) = Done (r, p) -> player_step s { s with ps_player := p }
| step_set_callback callback p s :
    player_set_event_callback callback (ps_player s) = Done (tt, p) -> player_step s { s with ps_player := p }
(** player_init *)
| step_init_begin allocated r p s :
    ps_phase s = PhaseIdle -> player_init_begin alloc bks allocated (ps_player s) = Done (r, p) ->
    player_step s
      match r with
      | inl _ => { s with ps_player := p }
      | inr a => { s with ps_player := p; ps_actor := Some (system_init a); ps_phase := PhaseCreated }
      end
| step_init_start now a b s :
    ps_phase s = PhaseCreated -> ps_actor s = Some a -> start_locked now (actor a) = (None, b) ->
    player_step s { s with ps_actor := Some { a with actor := b; starter := StarterBegun }; ps_phase := PhaseStarting }
| step_init_done a s :
    ps_phase s = PhaseStarting -> ps_actor s = Some a -> starter a = StarterCreated ->
    player_step s { s with ps_actor := Some { a with actor := (start_finish_locked true (actor a)).2; starter := StarterNone };
                           ps_phase := PhaseIdle }
| step_init_no_thread a s :
    ps_phase s = PhaseStarting -> ps_actor s = Some a -> starter a = StarterBegun ->
    player_step s { s with ps_actor := Some { a with actor := (start_finish_locked false (actor a)).2; starter := StarterNone };
                           ps_phase := PhaseFailing }
| step_init_failed r p s :
    ps_phase s = PhaseFailing -> player_init_failed (ps_player s) = Done (r, p) ->
    player_step s { s with ps_player := p; ps_actor := None; ps_phase := PhaseIdle }
(** player_deinit *)
| step_deinit_begin a s :
    ps_phase s = PhaseIdle -> ps_actor s = Some a -> join_in_progress (actor a) = false ->
    player_step s { s with ps_actor := Some { a with actor := (stop_begin_locked (actor a)).2 }; ps_phase := PhaseStopping }
| step_deinit_finish a p s :
    ps_phase s = PhaseStopping -> ps_actor s = Some a -> join_in_progress (actor a) = true -> worker a = WorkerExited ->
    player_deinit_finish alloc (ps_player s) = Done (tt, p) ->
    player_step s { s with ps_player := p; ps_actor := None; ps_phase := PhaseIdle }
(** the worker *)
| step_inner a a' s :
    ps_actor s = Some a -> inner_step a a' -> player_step s { s with ps_actor := Some a' }
| step_callback_initialize ok p now a s :
    ps_actor s = Some a -> worker a = WorkerInitializing -> directs a = [] ->
    player_actor_initialize alloc bks (ps_player s) = Done (ok, p) ->
    player_step s { s with ps_player := p; ps_actor := Some (initialized_step ok now a); ps_backend_up := ok }
| step_callback_validate i k r v p a s :
    ps_actor s = Some a -> worker a = WorkerExecuting i k -> ps_validated s = None ->
    requests (heap a) !! i = Some r -> player_validate_actor_command (command r) (ps_player s) = Done (v, p) ->
    player_step s { s with ps_player := p; ps_validated := Some (v, g_current (pl_own (ps_player s))) }
| step_callback_stale i k lease now a s :
    ps_actor s = Some a -> worker a = WorkerExecuting i k -> directs a = [] -> ps_validated s = Some (false, lease) ->
    player_step s { s with ps_actor := Some (executed_step i k false false now a); ps_validated := None }
| step_callback_execute i k r lease ok p now a s :
    ps_actor s = Some a -> worker a = WorkerExecuting i k -> directs a = [] -> ps_validated s = Some (true, lease) ->
    requests (heap a) !! i = Some r ->
    player_execute_actor_command alloc bks (command r) (ps_player s) = Done (ok, p) ->
    player_step s { s with ps_player := p; ps_actor := Some (executed_step i k true ok now a); ps_validated := None;
                           ps_executed ::= fun l => l ++ [(command r, lease)] }
| step_callback_pump k timeout p now a s :
    ps_actor s = Some a -> worker a = WorkerPump k -> directs a = [] ->
    player_actor_pump_events alloc bks timeout (ps_player s) = Done (tt, p) ->
    player_step s { s with ps_player := p; ps_actor := Some (pump_step now a) }
| step_callback_finalize p now a s :
    ps_actor s = Some a -> worker a = WorkerFinalizing -> directs a = [] ->
    player_actor_finalize alloc bks (ps_player s) = Done (tt, p) ->
    player_step s { s with ps_player := p; ps_backend_up := false;
                           ps_actor := Some { a with actor := finish_worker_locked now (actor a); worker := WorkerExited } }.

Definition sys_init (b : B) : PlayerSys B := mkPlayerSys (player_zero b) None PhaseIdle None false [].

Definition player_reachable (s : PlayerSys B) : Prop := exists b, rtc player_step (sys_init b) s.
End system.
