(* ===== verification/PlayerSafety.v ===== *)
(** * What the player asks of its backend (player/core/session.c)

    Invariants of [PlayerSystem]: its actor is one of [MediaActorSystem], the backend is up
    whenever a command is executed, and each command that was executed carried the lease
    that was current when it was validated. *)

From S2P Require Import Prelude Prog Ownership Buffers CText CoordData PlayerTypes PlayerCommands PlayerBackend MediaActor MediaActorSystem MediaActorInvariant PlayerSession PlayerSystem.

(** ** Commands in the heap *)

(** The requests of [h] are still those of [h0], as far as there are any: their commands
    are the same. *)
Definition steady (h0 h : Heap) : Prop :=
  (next_rid h0 <= next_rid h)%nat /\
  forall (j : rid) r, (j < next_rid h0)%nat -> requests h !! j = Some r ->
    exists r0, requests h0 !! j = Some r0 /\ command r0 = command r.

Lemma steady_refl h : steady h h.
Proof. split; [done|]. intros j r _ H. by exists r. Qed.

Lemma steady_update h0 h (i : rid) f : steady h0 h ->
  (forall r, command (f r) = command r) \/ (next_rid h0 <= i)%nat -> steady h0 (heap_update i f h).
Proof.
  intros [Hn H] Hf. unfold heap_update. destruct (requests h !! i) as [r|] eqn:Hi; [|done].
  split; [done|]. rproj. intros j r' Hj. destruct (decide (i = j)) as [<-|Hne].
  - rewrite lookup_insert_eq. intros [= <-]. destruct Hf as [Hf|]; [|lia]. rewrite Hf. by apply H.
  - rewrite lookup_insert_ne by done. by apply H.
Qed.

Lemma steady_free h0 h i : steady h0 h -> steady h0 (request_free i h).
Proof.
  intros [Hn H]. unfold request_free. destruct i as [i|]; [|done]. destruct (requests h !! i); [|done]. cbv zeta.
  split; [done|]. rproj. intros j r' Hj Hl. apply lookup_delete_Some in Hl as [_ Hl]. by apply H.
Qed.

Lemma steady_free_list h0 l h : steady h0 h -> steady h0 (request_free_list l h).
Proof. revert h. induction l as [|i l IH]; intros h H; [done|]. apply IH. by apply (steady_free h0 h (Some i)). Qed.

Lemma steady_complete h0 h i st : steady h0 h -> steady h0 (request_complete_locked i st h).2.
Proof.
  intros H. unfold request_complete_locked. cbv zeta. set (f := fun r => _).
  assert (H1 : steady h0 (heap_update i f h)) by by (apply steady_update; [|left]).
  by destruct (requests (heap_update i f h) !! i).
Qed.

Lemma steady_reject h0 fuel fl a h : steady h0 h -> steady h0 (reject_pending fuel fl a h).2.
Proof.
  revert fl a h. induction fuel as [|fuel IH]; intros fl a h H; [done|]. cbn.
  destruct (queue_pop_locked a) as [[i|] a1]; [|done].
  pose proof (steady_complete h0 h i MEDIA_ACTOR_SUBMIT_SHUTTING_DOWN H) as H1.
  destruct (request_complete_locked i MEDIA_ACTOR_SUBMIT_SHUTTING_DOWN h) as [freed h2]. by apply IH.
Qed.

Lemma steady_reject_and_free h0 a h : steady h0 h -> steady h0 (reject_and_free a h).2.
Proof.
  intros H. unfold reject_and_free, actor_reject_pending_locked. pose proof (steady_reject h0 (queue_count a) [] a h H) as H1.
  destruct (reject_pending _ _ _ _) as [[fl a1] h1]. by apply steady_free_list.
Qed.

Lemma steady_submit cmd wait m a h : steady h (actor_submit cmd wait m a h).2.
Proof.
  unfold actor_submit. destruct (negb _); [apply steady_refl|]. destruct cmd as [c|]; [|apply steady_refl].
  destruct (request_create c m h) as [[i|] h1] eqn:Hc.
  2: { unfold request_create, heap_alloc in Hc. repeat case_match; simplify_eq; apply steady_refl. }
  destruct (request_create_spec _ _ _ _ _ Hc) as (r & -> & Hr & Hn & _).
  assert (H1 : steady h h1).
  { split; [lia|]. rewrite Hr. intros j r' Hj. rewrite lookup_insert_ne by lia. intros Hl. by exists r'. }
  clear Hc Hr Hn. unfold submit_locked. destruct (negb _); [by apply steady_free|]. destruct (_ || _); [by apply steady_free|].
  assert (Ht : steady h (replaceable_tail c wait a h1).2).
  { unfold replaceable_tail. repeat case_match; cbn [snd]; done. }
  destruct (replaceable_tail c wait a h1) as [[[tail old]|] h2]; cbn [snd] in Ht.
  - assert (H3 : steady h (heap_update (next_rid h) (stamp (inc (last_command_id (health a))) 1) h2)) by (apply steady_update; auto).
    apply (steady_complete h _ old MEDIA_ACTOR_SUBMIT_ACCEPTED) in H3.
    destruct (request_complete_locked old _ _) as [f h3]. by apply steady_free.
  - destruct (queue_full_for _ _); [by apply steady_free|]. apply steady_update; auto.
Qed.

Lemma steady_wait_finish i a h : steady h (wait_finish_locked i a h).2.
Proof.
  unfold wait_finish_locked. destruct (requests h !! i) as [r|]; [|exact (steady_refl h)].
  set (refs := if 0 <? references r then references r - 1 else references r). set (f := fun r0 : MediaActorRequest => { r0 with references := refs }).
  assert (H : steady h (heap_update i f h)) by (apply steady_update; [apply steady_refl|by left]).
  destruct (if completed r then _ else _) as [st a1]. cbn [snd]. destruct (refs =? 0); [by apply steady_free|done].
Qed.

Lemma inner_steady a a' : inner_step a a' -> steady (heap a) (heap a').
Proof.
  destruct 1; try apply steady_refl.
  - unfold wait_finish_step. pose proof (steady_wait_finish i (actor a) (heap a)) as H1.
    by destruct (wait_finish_locked i (actor a) (heap a)) as [[st b] h].
  - unfold loop_step. destruct (_ <=? _)%nat; [apply steady_refl|]. unfold worker_fetch_locked.
    repeat case_match; simplify_eq; exact (steady_refl (heap a)).
  - unfold reject_step. pose proof (steady_reject_and_free (heap a) (actor a) (heap a) (steady_refl _)) as H1.
    by destruct (reject_and_free (actor a) (heap a)) as [b h].
Qed.

Lemma submit_steady cmd wait m a : steady (heap a) (heap (submit_step cmd wait m a)).
Proof.
  unfold submit_step. pose proof (steady_submit cmd wait m (actor a) (heap a)) as H.
  destruct (actor_submit cmd wait m (actor a) (heap a)) as [[r b] h]. by destruct r.
Qed.

(** ** The configuration of the actor *)

Lemma pop_config a i b : queue_pop_locked a = (i, b) -> config b = config a.
Proof. unfold queue_pop_locked. destruct (_ =? _)%nat; by intros [= _ <-]. Qed.

Lemma reject_config fuel fl a h : config (reject_pending fuel fl a h).1.2 = config a.
Proof.
  revert fl a h. induction fuel as [|fuel IH]; intros fl a h; [done|]. cbn.
  destruct (queue_pop_locked a) as [[i|] b] eqn:E; apply pop_config in E; [|done].
  destruct (request_complete_locked _ _ _) as [freed h2]. by rewrite IH.
Qed.

Lemma reject_step_config a : config (actor (reject_step a)) = config (actor a).
Proof.
  unfold reject_step, reject_and_free, actor_reject_pending_locked.
  pose proof (reject_config (queue_count (actor a)) [] (actor a) (heap a)) as H.
  by destruct (reject_pending _ _ _ _) as [[fl b] h].
Qed.

Lemma submit_config cmd wait m a : config (actor (submit_step cmd wait m a)) = config (actor a).
Proof.
  assert (H : config (actor_submit cmd wait m (actor a) (heap a)).1.2 = config (actor a)).
  { unfold actor_submit, submit_locked. repeat (case_match; simplify_eq; cbn [fst snd]; try done).
    by destruct (queue_push_fields r { actor a with health -> last_command_id := inc (last_command_id (health (actor a)));
                                                   health -> submitted ::= inc }) as [-> _]. }
  unfold submit_step. destruct (actor_submit cmd wait m (actor a) (heap a)) as [[r b] h]. by destruct r.
Qed.

Lemma executed_config i k v ok now a : config (actor (executed_step i k v ok now a)) = config (actor a).
Proof.
  unfold executed_step, actor_execute_request, execute_finished. cbv zeta.
  destruct (requests (heap a) !! i) as [r|]; [|done]. destruct (request_complete_locked i _ (heap a)) as [freed h1].
  by destruct (negb _ || _), ok.
Qed.

Lemma initialized_config ok now a : config (actor (initialized_step ok now a)) = config (actor a).
Proof.
  unfold initialized_step, actor_initialize_worker, initialize_finished, reject_and_free, actor_reject_pending_locked. cbv zeta.
  destruct (negb (negb _ || ok)) eqn:E; cbn [negb]; [|done].
  match goal with |- context [reject_pending ?n [] ?b ?h] => pose proof (reject_config n [] b h) as H; destruct (reject_pending n [] b h) as [[fl c] h2] end.
  done.
Qed.

Lemma inner_config a a' : inner_step a a' -> config (actor a') = config (actor a).
Proof.
  destruct 1; try done.
  - unfold wait_finish_step, wait_finish_locked. repeat (case_match; simplify_eq; cbn [snd]; try done).
  - unfold media_actor_activate. cbv zeta. by destruct (_ && _).
  - unfold loop_step. destruct (_ <=? _)%nat; [done|]. unfold worker_fetch_locked.
    repeat case_match; simplify_eq; try done; cbn; by eapply pop_config.
  - apply reject_step_config.
Qed.

(** ** The worker *)

(** Between the end of initialize and the end of finalize. *)
Definition alive (w : Worker) : bool :=
  match w with WorkerLoop _ | WorkerExecuting _ _ | WorkerPump _ | WorkerFinishing | WorkerFinalizing => true | _ => false end.

Lemma submit_threads cmd wait m a :
  worker (submit_step cmd wait m a) = worker a /\ starter (submit_step cmd wait m a) = starter a /\
  directs (submit_step cmd wait m a) = directs a.
Proof. unfold submit_step. destruct (actor_submit _ _ _ _ _) as [[r b] h]. by destruct r. Qed.

(** What an inner step does to the threads. *)
Lemma inner_threads a a' : inner_step a a' ->
  alive (worker a') = alive (worker a) /\
  (worker a' = worker a \/ (forall i k, worker a <> WorkerExecuting i k)) /\
  (starter a' = starter a \/ (starter a = StarterBegun /\ starter a' = StarterCreated)) /\
  (worker a = WorkerNone -> starter a <> StarterBegun -> worker a' = WorkerNone).
Proof.
  destruct 1.
  - unfold wait_finish_step. destruct (wait_finish_locked _ _ _) as [[st b] h]. cbn. rproj. tauto.
  - tauto.
  - tauto.
  - rproj. rewrite H0. split_and!; [done|by right|by right|done].
  - rproj. rewrite H. split_and!; [done|by right|by left|done].
  - rproj. rewrite H. split_and!; [done|by right|by left|done].
  - rewrite H. unfold loop_step. destruct (_ <=? _)%nat; [rproj; split_and!; try done; [by right|by left]|].
    destruct (worker_fetch_locked _ _ _) as [[f b] h]. rproj. split_and!; [by destruct f|by right|by left|done].
  - rproj. rewrite H. unfold reject_step. destruct (reject_and_free _ _). rproj. split_and!; [done|by right|by left|done].
Qed.

(** ** The invariant *)

(** The lease is the one that the command needs, if it needs one. *)
Definition entitled (c : MediaActorCommand) (lease : PlayerOwnershipLease) : Prop :=
  player_owner_from_actor_producer (producer c) = PLAYER_MEDIA_OWNER_NONE \/ command_lease c = lease.

Section safety.
Context {B : Type} (alloc : Z -> bool) (bks : Backends B).
Implicit Type s : PlayerSys B.

Definition phase_ok s : Prop :=
  match ps_phase s, ps_actor s with
  | PhaseIdle, None => True
  | PhaseIdle, Some a => starter a = StarterNone
  | PhaseCreated, Some a => starter a = StarterNone /\ worker a = WorkerNone
  | PhaseStarting, Some a => starter a <> StarterNone
  | PhaseFailing, Some a => starter a = StarterNone /\ worker a = WorkerNone
  | PhaseStopping, Some a => starter a = StarterNone
  | _, None => False
  end.

Record sys_ok s : Prop := {
  so_actor a : ps_actor s = Some a -> reachable player_actor_config a /\ config (actor a) = player_actor_config;
  so_exists : g_media_actor (ps_player s) = bool_decide (is_Some (ps_actor s));
  so_initialized : g_initialized (ps_player s) = g_media_actor (ps_player s);
  so_backend : g_initialized (ps_player s) = true -> is_Some (g_backend (ps_player s));
  so_up : ps_backend_up s = match ps_actor s with Some a => alive (worker a) | None => false end;
  so_phase : phase_ok s;
  so_shown : (forall n, alloc n = true) -> media_shown (ps_player s);
  so_executed : Forall (fun e => entitled e.1 e.2) (ps_executed s);
  so_validated : match ps_validated s with
                 | None => True
                 | Some (v, lease) => exists a i k, ps_actor s = Some a /\ worker a = WorkerExecuting i k /\
                     (i < next_rid (heap a))%nat /\
                     (v = true -> forall r, requests (heap a) !! i = Some r -> entitled (command r) lease)
                 end
}.

Lemma init_sys_ok b : sys_ok (sys_init b).
Proof. by split. Qed.

(** Only the player changes, and only as [grows] allows. *)
Lemma keeps_player s p : sys_ok s -> grows alloc (ps_player s) p -> sys_ok { s with ps_player := p }.
Proof.
  intros [H1 H2 H3 H4 H5 H6 H7 H8 H9] [G1 G2 G3 G4 G5]. split; try done; rproj; rewrite ?G1, ?G2, ?G3, ?G4; auto.
Qed.

(** The actor takes a step that leaves the worker where it is. *)
Lemma keeps_actor s a a' : sys_ok s -> ps_actor s = Some a ->
  actor_step a a' -> config (actor a') = config (actor a) -> steady (heap a) (heap a') -> inner_step a a' \/ 
  (worker a' = worker a /\ starter a' = starter a) ->
  sys_ok { s with ps_actor := Some a' }.
Proof.
  intros [H1 H2 H3 H4 H5 H6 H7 H8 H9] Ha Hstep Hc Hs Ht.
  assert (T : alive (worker a') = alive (worker a) /\ (worker a' = worker a \/ (forall i k, worker a <> WorkerExecuting i k)) /\
    (starter a' = starter a \/ (starter a = StarterBegun /\ starter a' = StarterCreated)) /\
    (worker a = WorkerNone -> starter a <> StarterBegun -> worker a' = WorkerNone)).
  { destruct Ht as [Ht|[E1 E2]]; [by apply inner_threads|]. rewrite E1, E2. tauto. }
  destruct T as (T1 & T2 & T3 & T4). destruct (H1 a Ha) as [(b & Hb & Hr) Hcfg].
  split; rproj; try done.
  - intros x [= <-]. split; [|congruence]. exists b. split; [done|]. by eapply rtc_r.
  - by rewrite H2, Ha.
  - by rewrite H5, Ha, T1.
  - revert H6. unfold phase_ok. rproj. rewrite Ha. destruct (ps_phase s).
    + intros E. destruct T3 as [->|[E' _]]; [done|congruence].
    + intros [E E']. split; [destruct T3 as [->|[? _]]; [done|congruence]|]. apply T4; congruence.
    + intros E. destruct T3 as [->|[_ ->]]; done.
    + intros [E E']. split; [destruct T3 as [->|[? _]]; [done|congruence]|]. apply T4; congruence.
    + intros E. destruct T3 as [->|[E' _]]; [done|congruence].
  - destruct (ps_validated s) as [[v l]|]; [|done]. destruct H9 as (x & i & k & Ex & Ew & Ei & Hv).
    rewrite Ha in Ex. injection Ex as <-. destruct Hs as [Hn Hs]. exists a', i, k.
    split; [done|]. split; [destruct T2 as [->|T2]; [done|by destruct (T2 i k)]|]. split; [lia|].
    intros Hv1 r Hr1. destruct (Hs i r Ei Hr1) as (r0 & Hr0 & <-). by apply Hv.
Qed.

(** A callback of the worker: the player and the actor change together, and the command
    that was held is done with. *)
Lemma keeps_worker s a a' p up log : sys_ok s -> ps_actor s = Some a -> grows alloc (ps_player s) p ->
  actor_step a a' -> config (actor a') = config (actor a) -> starter a' = starter a ->
  up = alive (worker a') -> Forall (fun e => entitled e.1 e.2) log -> (worker a = WorkerNone -> worker a' = WorkerNone) ->
  sys_ok (mkPlayerSys p (Some a') (ps_phase s) None up log).
Proof.
  intros [H1 H2 H3 H4 H5 H6 H7 H8 H9] Ha [G1 G2 G3 G4 G5] Hstep Hc Hst Hup Hlog Hw.
  destruct (H1 a Ha) as [(b & Hb & Hr) Hcfg].
  split; cbn; rewrite ?G1, ?G2, ?G3, ?G4; try done; auto.
  - intros x [= <-]. split; [|congruence]. exists b. split; [done|]. by eapply rtc_r.
  - by rewrite H2, Ha.
  - revert H6. unfold phase_ok. cbn. rewrite Ha, Hst. destruct (ps_phase s); tauto.
Qed.

(** Outside of a command nothing is validated. *)
Lemma not_validated s a : sys_ok s -> ps_actor s = Some a -> (forall i k, worker a <> WorkerExecuting i k) -> ps_validated s = None.
Proof.
  intros [H1 H2 H3 H4 H5 H6 H7 H8 H9] Ha Hw. destruct (ps_validated s) as [[v l]|]; [|done].
  destruct H9 as (x & i & k & Ex & Ew & _). rewrite Ha in Ex. injection Ex as <-. by destruct (Hw i k).
Qed.

(** A request that reaches the actor. *)
Lemma keeps_submitted s p r wait m : sys_ok s -> grows alloc (ps_player s) p ->
  sys_ok { s with ps_player := p; ps_actor := submitted_to r wait m (ps_actor s) }.
Proof.
  intros Hs Hg. pose proof (keeps_player s p Hs Hg) as Hs1.
  destruct r as [st|c]; cbn [submitted_to].
  - by destruct s.
  - destruct (ps_actor s) as [a|] eqn:Ha; cbn; [|destruct s; cbn in *; by subst].
    apply (keeps_actor { s with ps_player := p } a); [done|by rproj|apply MediaActorSystem.step_submit|apply submit_config|apply submit_steady|right].
    destruct (submit_threads (Some c) wait m a) as (-> & -> & _). done.
Qed.

(** ** Start and end *)

Lemma ops_from_type_framed type : framed alloc (backend_ops_from_type alloc bks type).
Proof. unfold backend_ops_from_type, backend_available. destruct type; [|apply framed_ret..]. apply framed_bind; [apply framed_call_or|intros []; apply framed_ret]. Qed.

Lemma available_framed (r : option BackendRef) : framed alloc (backend_available alloc bks r).
Proof. unfold backend_available. destruct r; [apply framed_call_or|apply framed_ret]. Qed.

Lemma init_begin_result allocated r (p p' : Player B) : player_init_begin alloc bks allocated p = Done (r, p') ->
  (p' = p /\ r = inl true) \/
  (g_initialized p = false /\ ((forall n, alloc n = true) -> media_shown p') /\
   match r with
   | inl _ => g_initialized p' = false /\ g_media_actor p' = g_media_actor p
   | inr a => media_actor_create (Some player_actor_config) true = Some a /\ g_initialized p' = true /\
              g_media_actor p' = true /\ is_Some (g_backend p')
   end).
Proof.
  unfold player_init_begin. intros H. unfold mbind, sess_bind in H.
  apply bind_done in H as ([q0 p0] & E0 & H). injection E0 as <- <-.
  destruct (g_initialized p) eqn:Hi; [left; by injection H as <- <-|right; split; [done|]].
  do 2 (apply bind_done in H as ([[] ?] & E & H); injection E as <-).
  apply bind_done in H as ([q1 p1] & E & H). injection E as <- <-.
  set (p1 := player_reset_snapshot_locked _) in H.
  assert (Hm : media_shown p1) by done.
  apply bind_done in H as ([ops p2] & E2 & H). apply ops_from_type_framed in E2 as [_ _ I2 A2 M2].
  apply bind_done in H as ([av p3] & E3 & H). apply available_framed in E3 as [_ _ I3 A3 M3].
  destruct av; cbn [negb] in H.
  - destruct (media_actor_create (Some player_actor_config) allocated) as [a|] eqn:Ha; injection H as <- <-.
    + split; [intros Hal; by apply M3, M2|]. destruct allocated; [|done]. by split_and!.
    + split; [intros Hal; by apply M3, M2|]. rproj. by rewrite I3, I2, A3, A2.
  - injection H as <- <-. split; [intros Hal; by apply M3, M2|]. rproj. by rewrite I3, I2, A3, A2.
Qed.

Lemma reset_shown (p : Player B) : g_has_current_media p = false -> media_shown (player_reset_snapshot_locked p).
Proof. intros H. split; unfold player_reset_snapshot_locked; rproj; by rewrite H. Qed.

Lemma store_none (p : Player B) : g_has_current_media (player_store_media_locked alloc false None p).2 = false.
Proof.
  unfold player_store_media_locked, player_sync_snapshot_media_locked. cbv zeta. rproj. cbn [negb fst snd]. by rproj.
Qed.

Lemma shown_same (p q : Player B) : g_has_current_media q = g_has_current_media p -> g_current_media q = g_current_media p ->
  g_snapshot q = g_snapshot p -> media_shown p -> media_shown q.
Proof. unfold media_shown. by intros -> -> ->. Qed.

Lemma deinit_finish_result (p p' : Player B) : player_deinit_finish alloc p = Done (tt, p') ->
  g_initialized p' = false /\ g_media_actor p' = false /\ media_shown p'.
Proof.
  set (p1 := { p with g_media_actor := false }). intros H.
  change (owned player_ownership_reset { player_reset_snapshot_locked (player_store_media_locked alloc false None p1).2 with
            g_backend := None; g_initialized := false } = Done (tt, p')) in H.
  pose proof (store_none p1) as Hn. destruct (store_grows alloc false None p1) as [_ _ _ Ha _].
  generalize dependent (player_store_media_locked alloc false None p1).2. intros p2 H Hn Ha.
  pose proof (reset_shown p2 Hn) as Hs. assert (Ha3 : g_media_actor (player_reset_snapshot_locked p2) = false) by done.
  generalize dependent (player_reset_snapshot_locked p2). intros p3 H Hs Ha3.
  set (p4 := { p3 with g_backend := None; g_initialized := false }) in H.
  unfold owned, player_ownership_reset in H. cbn in H. injection H as <-.
  split; [done|]. split; [exact Ha3|]. by apply (shown_same p3).
Qed.

(** The actor is started or stopped by the thread of player_init and player_deinit. *)
Lemma keeps_phase s a a' ph : sys_ok s -> ps_actor s = Some a -> actor_step a a' -> config (actor a') = config (actor a) ->
  heap a' = heap a -> worker a' = worker a -> phase_ok { s with ps_actor := Some a'; ps_phase := ph } ->
  sys_ok { s with ps_actor := Some a'; ps_phase := ph }.
Proof.
  intros [H1 H2 H3 H4 H5 H6 H7 H8 H9] Ha Hstep Hc Hh Hw Hp. destruct (H1 a Ha) as [(b & Hb & Hr) Hcfg].
  split; rproj; try done.
  - intros x [= <-]. split; [|congruence]. exists b. split; [done|]. by eapply rtc_r.
  - by rewrite H2, Ha.
  - by rewrite H5, Ha, Hw.
  - destruct (ps_validated s) as [[v l]|]; [|done]. destruct H9 as (x & i & k & Ex & Ew & Ei & Hv).
    rewrite Ha in Ex. injection Ex as <-. exists a', i, k. by rewrite Hh, Hw.
Qed.

Lemma keeps_destroyed s a p : sys_ok s -> ps_actor s = Some a -> alive (worker a) = false ->
  g_initialized p = false -> g_media_actor p = false -> ((forall n, alloc n = true) -> media_shown p) ->
  sys_ok { s with ps_player := p; ps_actor := None; ps_phase := PhaseIdle }.
Proof.
  intros Hok Ha Hw Hi Hp Hm. pose proof (not_validated s a Hok Ha) as Hv.
  destruct Hok as [H1 H2 H3 H4 H5 H6 H7 H8 H9]. split; rproj; rewrite ?Hi, ?Hp, ?H5, ?Ha; try done.
  rewrite Hv; [done|]. intros i k E. by rewrite E in Hw.
Qed.

(** The lemmas that the rules of the lifecycle need of a phase. *)
Lemma phase_actor s a : sys_ok s -> ps_actor s = Some a ->
  match ps_phase s with
  | PhaseIdle | PhaseStopping => starter a = StarterNone
  | PhaseCreated | PhaseFailing => starter a = StarterNone /\ worker a = WorkerNone
  | PhaseStarting => starter a <> StarterNone
  end.
Proof. intros [_ _ _ _ _ H _ _ _] Ha. revert H. unfold phase_ok. rewrite Ha. by destruct (ps_phase s). Qed.

Lemma executed_threads i k v ok now a :
  starter (executed_step i k v ok now a) = starter a /\ worker (executed_step i k v ok now a) = WorkerLoop (S k).
Proof. unfold executed_step. by destruct (actor_execute_request _ _ _ _ _ _). Qed.

(** What the validate callback says is what the register of leases says. *)
Lemma validated_entitled (c : MediaActorCommand) (p p' : Player B) :
  player_validate_actor_command c p = Done (true, p') -> entitled c (g_current (pl_own p)).
Proof.
  unfold player_validate_actor_command. destruct (owner_eqb _ _) eqn:Ho; [left; by apply owner_eqb_spec|].
  intros H. right. unfold owned, player_ownership_validate in H. destruct (_ || _); [done|]. cbn in H.
  destruct (lease_equal (command_lease c) (g_current (ownership_init (pl_own p)))) eqn:E; [|done].
  rewrite ownership_init_current in E. by apply lease_equal_spec.
Qed.

(** ** Every step *)

Lemma step_sys_ok s s' : player_step alloc bks s s' -> sys_ok s -> sys_ok s'.
Proof.
  intros Hstep Hok. pose proof Hok as [H1 H2 H3 H4 H5 H6 H7 H8 H9].
  destruct Hstep as [request wait m r p s H|bridge lease audio m r p s H|c m a s Hc Hi Ha|p s H|op s|type r p s H|callback p s H
    |allocated r p s Hph H|now a b s Hph Ha Hst|a s Hph Ha Hst|a s Hph Ha Hst|r p s Hph H|a s Hph Ha Hj|a p s Hph Ha Hj Hw H
    |a a' s Ha Hin|ok p now a s Ha Hw Hd H|i k r v p a s Ha Hw Hv Hr H|i k lease now a s Ha Hw Hd Hv
    |i k r lease ok p now a s Ha Hw Hd Hv Hr H|k timeout p now a s Ha Hw Hd H|p now a s Ha Hw Hd H].
  - apply keeps_submitted; [done|]. by eapply submit_begin_framed.
  - apply keeps_submitted; [done|]. by eapply bridge_begin_framed.
  - apply (keeps_actor s a); [done|done|apply MediaActorSystem.step_submit|apply submit_config|apply submit_steady|right].
    destruct (submit_threads (Some c) true m a) as (-> & -> & _). done.
  - apply keeps_player; [done|]. by eapply wakeup_framed.
  - apply (keeps_player s { ps_player s with pl_own := own_after op (pl_own (ps_player s)) }); [done|]. by split.
  - unfold player_set_backend, mbind, sess_bind in H. apply bind_done in H as ([q p0] & E & H). injection E as <- <-.
    destruct (g_initialized (ps_player s)) eqn:Hi.
    + injection H as _ <-. by destruct s.
    + injection H as _ <-. split; rproj; try done; auto; by rewrite Hi.
  - injection H as <-. apply (keeps_player s (upd _ _ _)); [done|]. by split.
  - destruct (init_begin_result _ _ _ _ H) as [[-> ->]|(Hi & Hm & Hr)]; [by destruct s|].
    destruct r as [b|a].
    + destruct Hr as [Hi' Ha']. assert (E : g_media_actor (ps_player s) = false) by congruence.
      split; rproj; try done; [by rewrite Ha'|congruence|by rewrite Hi'].
    + destruct Hr as (Ha & Hi' & Ha' & Hb). assert (E : ps_actor s = None).
      { rewrite <- H3, Hi in *. destruct (ps_actor s); [|done]. rewrite bool_decide_eq_true_2 in H2; [congruence|by eexists]. }
      split; rproj; try done.
      * intros x [= <-]. split; [exists a; by split|]. by injection Ha as <-.
      * congruence.
      * by rewrite H5, E.
      * destruct (ps_validated s) as [[v l]|]; [|done]. destruct H9 as (x & ? & ? & Ex & _). congruence.
  - pose proof (phase_actor s a Hok Ha) as Hp. rewrite Hph in Hp. destruct Hp as [E1 E2].
    pose proof (MediaActorSystem.step_start now a E1) as St. rewrite Hst in St.
    apply (keeps_phase s a); try done. unfold start_locked in Hst. cbv zeta in Hst.
    destruct (running _); [done|]. destruct (_ || _); [done|]. by injection Hst as <-.
  - apply (keeps_phase s a); try done. by apply step_start_finished.
  - apply (keeps_phase s a); [done..|by apply step_start_failed|done|done|done|]. split; [done|]. rproj.
    destruct (H1 a Ha) as [Hr _]. destruct (reachable_inv _ _ Hr) as [q [_ _ [Hc _] _ _]].
    rewrite Hst in Hc. by destruct Hc.
  - unfold player_init_failed, mbind, sess_bind in H. injection H as _ <-.
    assert (Ha : exists a, ps_actor s = Some a /\ worker a = WorkerNone).
    { revert H6. unfold phase_ok. rewrite Hph. destruct (ps_actor s) as [a|]; [|done]. intros [_ ?]. by exists a. }
    destruct Ha as (a & Ha & Hw). apply (keeps_destroyed s a); try done. by rewrite Hw.
  - pose proof (phase_actor s a Hok Ha) as Hp. rewrite Hph in Hp.
    apply (keeps_phase s a); [done..|by apply MediaActorSystem.step_stop_begin| |done|done|done].
    unfold stop_begin_locked. by destruct (negb _).
  - destruct (deinit_finish_result _ _ H) as (E1 & E2 & E3). apply (keeps_destroyed s a); try done. by rewrite Hw.
  - apply (keeps_actor s a); [done|done|by apply inner_is_step|by apply inner_config|by apply inner_steady|by left].
  - assert (Hv : ps_validated s = None) by (apply (not_validated s a); [done|done|by rewrite Hw]).
    pose proof (keeps_worker s a (initialized_step ok now a) p ok (ps_executed s) Hok Ha (initialize_framed alloc bks _ _ _ H)) as K.
    rewrite <- Hv in K. apply K; clear K; [by apply step_initialized|apply initialized_config| | |done|by rewrite Hw].
    + unfold initialized_step. by destruct (actor_initialize_worker _ _ _ _) as [[[] ?] ?].
    + destruct (H1 a Ha) as [_ Hcfg]. unfold initialized_step, actor_initialize_worker. rewrite Hcfg. cbn [has_initialize player_actor_config negb orb].
      destruct ok; cbn [negb]; [done|]. by destruct (reject_and_free _ _).
  - pose proof (validate_framed alloc _ _ _ _ H) as G. pose proof (keeps_player s p Hok G) as Hok1.
    destruct Hok1 as [K1 K2 K3 K4 K5 K6 K7 K8 _]. split; rproj; try done.
    destruct (H1 a Ha) as [Hreach _]. destruct (reachable_inv _ _ Hreach) as [q [[_ Hm] _ _ _ _]].
    exists a, i, k. split_and!; [done|done|by eapply mo_fresh|]. intros -> r' Hr'. rewrite Hr in Hr'. injection Hr' as <-.
    by eapply validated_entitled.
  - assert (E : { s with ps_actor := Some (executed_step i k false false now a); ps_validated := None } =
      mkPlayerSys (ps_player s) (Some (executed_step i k false false now a)) (ps_phase s) None (ps_backend_up s) (ps_executed s)) by done.
    rewrite E. apply (keeps_worker s a); [done|done|apply grows_refl|by apply step_executed|apply executed_config| | |done|by rewrite Hw].
    + apply executed_threads.
    + rewrite H5, Ha, Hw. by destruct (executed_threads i k false false now a) as [_ ->].
  - rewrite Hv in H9. destruct H9 as (x & i' & k' & Ex & Ew & Ei & Hent). rewrite Ha in Ex. injection Ex as <-.
    rewrite Hw in Ew. injection Ew as <- <-.
    apply (keeps_worker s a _ p (ps_backend_up s) (ps_executed s ++ [(command r, lease)])); [done|done|by eapply execute_framed| | | | | |by rewrite Hw].
    + by apply step_executed.
    + apply executed_config.
    + apply executed_threads.
    + rewrite H5, Ha, Hw. by destruct (executed_threads i k true ok now a) as [_ ->].
    + apply Forall_app. split; [done|]. constructor; [|done]. by apply Hent.
  - assert (Hv : ps_validated s = None) by (apply (not_validated s a); [done|done|by rewrite Hw]).
    pose proof (keeps_worker s a (pump_step now a) p (ps_backend_up s) (ps_executed s) Hok Ha (pump_framed alloc bks _ _ _ _ H)) as K.
    rewrite <- Hv in K. apply K; clear K; [by eapply step_pump|done|done| |done|by rewrite Hw]. by rewrite H5, Ha, Hw.
  - assert (Hv : ps_validated s = None) by (apply (not_validated s a); [done|done|by rewrite Hw]).
    set (a' := { a with actor := finish_worker_locked now (actor a); worker := WorkerExited }).
    pose proof (keeps_worker s a a' p false (ps_executed s) Hok Ha (finalize_framed alloc bks _ _ _ H)) as K.
    rewrite <- Hv in K. apply K; clear K; [by apply step_finalized|done|done|done|done|by rewrite Hw].
Qed.
End safety.
