(* ===== verification/PlayerRun.v ===== *)
(** * Runs of the player (player/core/session.c on player/backend/mock.c)

    The theorems about the player and its actor together, and a run on the mock backend in
    which a controller opens a stream and plays it. *)

From S2P Require Import Prelude Prog Ownership Buffers CText CoordData PlayerTypes PlayerCommands PlayerBackend MediaActor MediaActorSystem MediaActorInvariant PlayerSession PlayerSystem PlayerSafety MockBackend.
#[local] Arguments bytes : simpl never.

Lemma player_reachable_ok {B} alloc bks (s : PlayerSys B) :
  player_reachable alloc bks s -> sys_ok alloc s.
Proof.
  intros [b Hs]. pose proof (init_sys_ok alloc b) as H0. revert H0.
  induction Hs as [s|s s1 s2 Hstep _ IH]; intros H; [done|]. apply IH. by eapply step_sys_ok.
Qed.

(** ** A run on the mock backend *)

Definition all_memory : Z -> bool := fun _ => true.
Definition demo_ops : BackendOps Mock := g_mock_ops all_memory (fun _ => None).
Definition demo_backends : Backends Mock := mkBackends Mock demo_ops demo_ops (fun _ => mret false) (fun _ => mret false).
Definition demo_step : PlayerSys Mock -> PlayerSys Mock -> Prop := player_step all_memory demo_backends.
Definition demo_reachable : PlayerSys Mock -> Prop := player_reachable all_memory demo_backends.
Definition demo_request : PlayerCommandRequest :=
  PlayerCommands.mkRequest (Some PLAYER_COMMAND_OPEN) (Some PLAYER_COMMAND_SOURCE_DLNA) (mkLease PLAYER_MEDIA_OWNER_DLNA 1 1)
    (Some (bytes "http://host/a")) None None 0 true.

Definition demo_after {A} (m : sess Mock A) (s : PlayerSys Mock) : option (A * Player Mock) :=
  match m (ps_player s) with Done r => Some r | _ => None end.
Definition demo_player {A} (m : sess Mock A) (s : PlayerSys Mock) : PlayerSys Mock :=
  match demo_after m s with Some (_, p) => { s with ps_player := p } | None => s end.
Definition demo_actor (f : System -> System) (s : PlayerSys Mock) : PlayerSys Mock := { s with ps_actor ::= fmap f }.

Ltac demo := vm_compute; reflexivity.

(** Each state of the run is the one before it after a step of the player. *)
Definition demo0 : PlayerSys Mock := sys_init (mock_zero (fun n => 1000 + 10 * Z.of_nat n)).
Definition demo1 := demo_player (player_set_backend PLAYER_BACKEND_MOCK) demo0.
Definition demo2 := { demo1 with ps_player -> pl_own := own_after (OpClaim PLAYER_MEDIA_OWNER_DLNA 1) (pl_own (ps_player demo1)) }.
Definition demo_created : MediaActor := mkActor player_actor_config (replicate 64 None) 0 0 false false false false false false false health_zero 0 0.
Definition demo3 := { demo_player (player_init_begin all_memory demo_backends true) demo2 with
                      ps_actor := Some (system_init demo_created); ps_phase := PhaseCreated }.
Definition demo4 := { demo_actor (fun a => { a with actor := (start_locked 5 (actor a)).2; starter := StarterBegun }) demo3 with
                      ps_phase := PhaseStarting }.
Definition demo5 := demo_actor (fun a => { a with starter := StarterCreated; worker := WorkerCreated }) demo4.
Definition demo6 := { demo_actor (fun a => { a with actor := (start_finish_locked true (actor a)).2; starter := StarterNone }) demo5 with
                      ps_phase := PhaseIdle }.
Definition demo7 := demo_actor (fun a => { a with actor -> worker_identity_valid := true; worker := WorkerInitializing }) demo6.
Definition demo8 := { demo_actor (initialized_step true 6) (demo_player (player_actor_initialize all_memory demo_backends) demo7) with
                      ps_backend_up := true }.
Definition demo9 := demo_actor (fun a => { a with actor := (media_actor_activate (actor a)).2 }) demo8.
Definition demo10 := demo_actor (submit_step (Some (actor_command demo_request)) false (mkAllocations true true true)) demo9.
Definition demo11 := demo_actor (loop_step 0 7) demo10.
Definition demo12 := { demo11 with ps_validated := Some (true, mkLease PLAYER_MEDIA_OWNER_DLNA 1 1) }.
Definition demo_opened : PlayerSys Mock :=
  { demo_actor (executed_step 0%nat 0%nat true true 8)
      (demo_player (player_execute_actor_command all_memory demo_backends (actor_command demo_request)) demo12) with
    ps_validated := None; ps_executed := [({ actor_command demo_request with command_id := 1 }, mkLease PLAYER_MEDIA_OWNER_DLNA 1 1)] }.

(** The actor of a state, and what it executes. *)
Definition demo_system (s : PlayerSys Mock) : System := default (system_init demo_created) (ps_actor s).
Definition demo_command (s : PlayerSys Mock) : MediaActorRequest :=
  default (MediaActor.mkRequest (command_zero None MEDIA_ACTOR_PRODUCER_UNKNOWN) MEDIA_ACTOR_SUBMIT_ACCEPTED false false 0)
    (requests (heap (demo_system s)) !! 0%nat).

(** The next state is the result of the rule. *)
Ltac demo_by t rule := match goal with |- demo_step ?s ?s' => replace s' with t by demo; apply rule; try demo end.

Lemma demo_start_steps : rtc demo_step demo0 demo6.
Proof.
  eapply rtc_l with demo1; [demo_by ({ demo0 with ps_player := ps_player demo1 }) (step_set_backend all_memory demo_backends PLAYER_BACKEND_MOCK true (ps_player demo1) demo0)|].
  eapply rtc_l with demo2; [apply (step_ownership _ _ (OpClaim PLAYER_MEDIA_OWNER_DLNA 1))|].
  eapply rtc_l with demo3.
  { demo_by ({ demo2 with ps_player := ps_player demo3; ps_actor := Some (system_init demo_created); ps_phase := PhaseCreated })
      (step_init_begin all_memory demo_backends true (inr demo_created) (ps_player demo3) demo2). }
  eapply rtc_l with demo4.
  { demo_by ({ demo3 with ps_actor := Some { demo_system demo3 with actor := actor (demo_system demo4); starter := StarterBegun }; ps_phase := PhaseStarting })
      (step_init_start all_memory demo_backends 5 (demo_system demo3) (actor (demo_system demo4)) demo3). }
  eapply rtc_l with demo5.
  { demo_by ({ demo4 with ps_actor := Some { demo_system demo4 with starter := StarterCreated; worker := WorkerCreated } })
      (step_inner all_memory demo_backends (demo_system demo4) { demo_system demo4 with starter := StarterCreated; worker := WorkerCreated } demo4).
    apply inner_thread_created; demo. }
  apply rtc_once.
  demo_by ({ demo5 with ps_actor := Some { demo_system demo5 with actor := (start_finish_locked true (actor (demo_system demo5))).2; starter := StarterNone };
                        ps_phase := PhaseIdle })
    (step_init_done all_memory demo_backends (demo_system demo5) demo5).
Qed.

Lemma demo_worker_steps : rtc demo_step demo6 demo_opened.
Proof.
  eapply rtc_l with demo7.
  { demo_by ({ demo6 with ps_actor := Some { demo_system demo6 with actor -> worker_identity_valid := true; worker := WorkerInitializing } })
      (step_inner all_memory demo_backends (demo_system demo6) { demo_system demo6 with actor -> worker_identity_valid := true; worker := WorkerInitializing } demo6).
    apply inner_thread_main; demo. }
  eapply rtc_l with demo8.
  { demo_by ({ demo7 with ps_player := ps_player demo8; ps_actor := Some (initialized_step true 6 (demo_system demo7)); ps_backend_up := true })
      (step_callback_initialize all_memory demo_backends true (ps_player demo8) 6 (demo_system demo7) demo7). }
  eapply rtc_l with demo9.
  { demo_by ({ demo8 with ps_actor := Some { demo_system demo8 with actor := (media_actor_activate (actor (demo_system demo8))).2 } })
      (step_inner all_memory demo_backends (demo_system demo8) { demo_system demo8 with actor := (media_actor_activate (actor (demo_system demo8))).2 } demo8).
    apply inner_activate. }
  eapply rtc_l with demo10.
  { demo_by ({ demo9 with ps_player := ps_player demo10; ps_actor := submitted_to (inr (actor_command demo_request)) false (mkAllocations true true true) (ps_actor demo9) })
      (step_request all_memory demo_backends (Some demo_request) false (mkAllocations true true true) (inr (actor_command demo_request)) (ps_player demo10) demo9). }
  eapply rtc_l with demo11.
  { demo_by ({ demo10 with ps_actor := Some (loop_step 0 7 (demo_system demo10)) })
      (step_inner all_memory demo_backends (demo_system demo10) (loop_step 0 7 (demo_system demo10)) demo10). apply inner_loop. demo. }
  eapply rtc_l with demo12.
  { demo_by ({ demo11 with ps_player := ps_player demo11; ps_validated := Some (true, g_current (pl_own (ps_player demo11))) })
      (step_callback_validate all_memory demo_backends 0%nat 0%nat (demo_command demo11) true (ps_player demo11) (demo_system demo11) demo11). }
  apply rtc_once.
  demo_by ({ demo12 with ps_player := ps_player demo_opened; ps_actor := Some (executed_step 0%nat 0%nat true true 8 (demo_system demo12)); ps_validated := None;
                         ps_executed ::= fun l => l ++ [(command (demo_command demo12), mkLease PLAYER_MEDIA_OWNER_DLNA 1 1)] })
    (step_callback_execute all_memory demo_backends 0%nat 0%nat (demo_command demo12) (mkLease PLAYER_MEDIA_OWNER_DLNA 1 1) true (ps_player demo_opened) 8
       (demo_system demo12) demo12).
Qed.

Lemma demo_opened_reachable : demo_reachable demo_opened.
Proof. eexists. etrans; [exact demo_start_steps|exact demo_worker_steps]. Qed.

(** ** Opening *)

Section open.
Context {B : Type} (alloc : Z -> bool) (bks : Backends B) (Hall : forall n, alloc n = true).
Implicit Type p : Player B.

(** Storing with enough memory. *)
Lemma store_done has_media' m p : exists p', player_store_media_locked alloc has_media' m p = (true, p') /\
  g_has_current_media p' = has_media' /\ g_current_media p' = (if has_media' then default media_zero m else media_zero) /\
  media_shown p' /\ p_state (g_snapshot p') = p_state (g_snapshot p) /\ pl_backend p' = pl_backend p.
Proof using Hall.
  unfold player_store_media_locked. cbv zeta.
  assert (E : match m with Some x => if has_media' then player_media_copy alloc (Some x) else Some media_zero | None => Some media_zero end
              = Some (if has_media' then default media_zero m else media_zero)).
  { destruct m as [m|], has_media'; try done. by apply copy_all. }
  rewrite E. unfold player_sync_snapshot_media_locked. cbv zeta. rproj. destruct has_media'; cbn [negb].
  - rewrite copy_all by done. eexists. split; [done|]. by repeat split.
  - eexists. split; [done|]. by repeat split.
Qed.

(** Events leave the current media alone. *)
Definition same_media p p' : Prop :=
  g_has_current_media p' = g_has_current_media p /\ g_current_media p' = g_current_media p.

Lemma sync_media p : same_media p (player_sync_snapshot_media_locked alloc p).2.
Proof.
  unfold player_sync_snapshot_media_locked. cbv zeta. destruct (negb _); [done|]. by destruct (player_media_copy _ _).
Qed.

Lemma apply_event_media event p : same_media p (player_apply_event_locked alloc event p).
Proof.
  unfold player_apply_event_locked. cbv zeta. destruct (g_has_current_media _); [|done].
  match goal with |- same_media _ (player_sync_snapshot_media_locked alloc ?q).2 => exact (sync_media q) end.
Qed.

Lemma emit_media event p : same_media p (player_emit_from_backend alloc event p).
Proof.
  unfold player_emit_from_backend. cbv zeta. pose proof (apply_event_media event p) as H. by destruct (g_event_callback _).
Qed.

Lemma emit_all_media es p : let p' := foldl (fun p e => player_emit_from_backend alloc e p) p es in
  same_media p p'.
Proof.
  cbv zeta. revert p. induction es as [|e es IH]; intros p; [done|]. cbn [foldl].
  destruct (IH (player_emit_from_backend alloc e p)) as [E1 E2], (emit_media e p) as [E3 E4]. split; congruence.
Qed.
End open.

(** C35: An OPEN that the backend refuses changes nothing of the media: the current media
    is the one from before, and the snapshot shows it, whatever events the backend emitted
    meanwhile.  But the rest of the snapshot is not put back: when there was no event, the
    state stays LOADING, also when there is no media at all.  The memory holds out. *)
Theorem refused_open_keeps_the_media {B} (alloc : Z -> bool) (bks : Backends B) media' p ops set_media es b :
  (forall n, alloc n = true) -> media_shown p ->
  g_initialized p = true -> ops_of bks p = Some ops -> bk_set_media ops = Some set_media -> blank (m_uri media') = false ->
  set_media media' (pl_backend p) = Done (false, es, b) ->
  exists p', player_execute_set_media alloc bks media' p = Done (false, p') /\ media_shown p' /\
    g_has_current_media p' = g_has_current_media p /\
    (g_has_current_media p = true -> g_current_media p' = g_current_media p) /\
    (es = [] -> p_state (g_snapshot p') = PLAYER_STATE_LOADING).
Proof.
  intros Hall Hm Hi Hops Hset Hb Hcall.
  unfold player_execute_set_media, mbind, sess_bind. cbn [outcome_bind get_player].
  change (match ?m with Done a => ?f a | Refused => Refused | Stuck => Stuck end) with (m ≫= f).
  unfold get_player. cbn [mbind outcome_bind]. rewrite Hi. unfold field. rewrite Hops. cbn [mbind option_bind]. rewrite Hset, Hb.
  unfold set_media_begin, locked. cbn [mbind outcome_bind].
  assert (E1 : (if g_has_current_media p then player_media_copy alloc (Some (g_current_media p)) else Some media_zero) =
    Some (if g_has_current_media p then g_current_media p else media_zero)) by (destruct (g_has_current_media p); [by apply copy_all|done]).
  rewrite E1. destruct (store_done alloc Hall true (Some media') p) as (p1 & -> & _ & _ & _ & _ & Hb1).
  unfold call_backend. set (p2 := { p1 with g_snapshot -> p_state := PLAYER_STATE_LOADING; g_snapshot -> p_position_ms := 0;
    g_snapshot -> p_duration_ms := 0; g_snapshot -> p_seekable := false }).
  change (pl_backend p2) with (pl_backend p1). rewrite Hb1, Hcall. cbn [mbind outcome_bind].
  set (p3 := foldl _ _ es).
  destruct (store_done alloc Hall (g_has_current_media p)
    (if g_has_current_media p then Some (if g_has_current_media p then g_current_media p else media_zero) else None) p3)
    as (p4 & E4 & Hh4 & Hc4 & Hm4 & Hs4 & _).
  exists p4. cbn [negb]. rewrite E4. split; [done|]. split; [done|]. split; [done|]. split.
  - intros E. rewrite Hc4. by rewrite E.
  - intros ->. rewrite Hs4. done.
Qed.

(** The mock without memory refuses everything. *)
Lemma refused_open_keeps_the_media_witness :
  let mute := g_mock_ops (fun _ => false) (fun _ => None) in
  let bks := mkBackends Mock mute mute (fun _ => mret false) (fun _ => mret false) in
  exists p', player_execute_set_media all_memory bks (mkMedia (Some (bytes "http://host/b")) None) (ps_player demo_opened) = Done (false, p') /\
    media_shown p' /\ g_has_current_media p' = true /\
    (true = true -> g_current_media p' = mkMedia (Some (bytes "http://host/a")) None) /\
    (@nil PlayerEvent = [] -> p_state (g_snapshot p') = PLAYER_STATE_LOADING).
Proof.
  intros mute bks.
  apply (refused_open_keeps_the_media all_memory bks (mkMedia (Some (bytes "http://host/b")) None) (ps_player demo_opened) mute
    (mock_set_media (fun _ => false)) [] (pl_backend (ps_player demo_opened))); try done; vm_compute; repeat split.
Defined.

(** C33: Whatever the threads of the program do, a command with an owner is executed only
    if it carried the lease that was current when it was validated; the actor of the player
    is one of [MediaActorSystem]; and its worker is between the callbacks initialize and
    finalize only while the backend is up and the player is initialized. *)
Theorem commands_run_under_their_lease {B} (alloc : Z -> bool) (bks : Backends B) (s : PlayerSys B) :
  player_reachable alloc bks s ->
  (forall c lease, (c, lease) ∈ ps_executed s -> entitled c lease) /\
  (forall a, ps_actor s = Some a -> reachable player_actor_config a /\
     (alive (worker a) = true -> ps_backend_up s = true /\ g_initialized (ps_player s) = true /\ is_Some (g_backend (ps_player s)))) /\
  (ps_actor s = None -> ps_backend_up s = false /\ g_initialized (ps_player s) = false).
Proof.
  intros Hs. destruct (player_reachable_ok alloc bks s Hs) as [H1 H2 H3 H4 H5 _ _ H8 _]. split_and!.
  - intros c lease Hin. rewrite Forall_forall in H8. exact (H8 _ Hin).
  - intros a Ha. split; [by apply H1|]. intros Hw. rewrite H5, Ha in *.
    assert (E : g_initialized (ps_player s) = true) by (rewrite H3, H2; by apply bool_decide_eq_true_2). auto.
  - intros Ha. rewrite H5, H3, H2, Ha. done.
Qed.

Lemma commands_run_under_their_lease_witness :
  length (ps_executed demo_opened) = 1%nat /\
  (forall c lease, (c, lease) ∈ ps_executed demo_opened -> entitled c lease) /\
  (forall a, ps_actor demo_opened = Some a -> reachable player_actor_config a /\
     (alive (worker a) = true -> ps_backend_up demo_opened = true /\ g_initialized (ps_player demo_opened) = true /\
        is_Some (g_backend (ps_player demo_opened)))) /\
  (ps_actor demo_opened = None -> ps_backend_up demo_opened = false /\ g_initialized (ps_player demo_opened) = false).
Proof.
  split; [demo|]. apply (commands_run_under_their_lease all_memory demo_backends demo_opened demo_opened_reachable).
Defined.

(** C34: The snapshot that readers get shows exactly the current media, at any time between
    the callbacks and calls of any number of threads: it has media when there is one, and
    then the same.  The memory holds out. *)
Theorem snapshot_shows_the_current_media {B} (alloc : Z -> bool) (bks : Backends B) (s : PlayerSys B) :
  (forall n, alloc n = true) -> player_reachable alloc bks s ->
  exists snapshot, player_get_snapshot alloc (ps_player s) = Done (Some snapshot, ps_player s) /\
    player_get_current_media alloc (ps_player s) = Done (if has_media snapshot then Some (media snapshot) else None, ps_player s).
Proof.
  intros Hall Hs. destruct (player_reachable_ok alloc bks s Hs) as [_ _ _ _ _ _ Hm _ _]. destruct (Hm Hall) as [Hh Hc].
  unfold player_get_snapshot, player_get_current_media, locked, player_snapshot_copy. rewrite Hh.
  destruct (g_has_current_media (ps_player s)) eqn:E.
  - rewrite Hc. rewrite copy_all by done. eexists. split; [done|]. rproj. by rewrite Hh.
  - eexists. split; [done|]. rproj. by rewrite Hh.
Qed.

Lemma snapshot_shows_the_current_media_witness :
  g_has_current_media (ps_player demo_opened) = true /\
  exists snapshot, player_get_snapshot all_memory (ps_player demo_opened) = Done (Some snapshot, ps_player demo_opened) /\
    player_get_current_media all_memory (ps_player demo_opened) =
      Done (if has_media snapshot then Some (media snapshot) else None, ps_player demo_opened).
Proof.
  split; [demo|]. by apply (snapshot_shows_the_current_media all_memory demo_backends demo_opened (fun _ => eq_refl)), demo_opened_reachable.
Defined.

