(* ===== verification/CachePolicy.v ===== *)
(** * The cache policy of a uri (player/cache_policy.c) *)

From S2P Require Import Prelude Buffers CText PlayerTypes.

(* src: source/player/cache_policy.h PlayerCachePolicyKind *)
Inductive PlayerCachePolicyKind :=
| PLAYER_CACHE_POLICY_NETWORK
| PLAYER_CACHE_POLICY_DIRECT_MP4
| PLAYER_CACHE_POLICY_AIRPLAY_REMOTE_HLS
| PLAYER_CACHE_POLICY_AIRPLAY_MIRROR.

(* src: source/player/cache_policy.h PlayerCachePolicy *)
Record PlayerCachePolicy := mkPolicy {
  policy_kind : PlayerCachePolicyKind;
  configure_cache : bool;
  cache_enabled : bool;
  forward_mib : Z;
  backward_mib : Z;
  readahead_secs : Z;
  disable_http_persistence : bool
}.

(* src: source/player/types.h PLAYER_SCREEN_MIRROR_URI *)
Definition PLAYER_LIBMPV_AIRPLAY_URI : cstring := bytes "airplay://mirror".

(* src: source/player/cache_policy.h NXCAST_MEDIA_CACHE_FORWARD_MIB *)
Definition NXCAST_MEDIA_CACHE_FORWARD_MIB : Z := 20.
(* src: source/player/cache_policy.h NXCAST_MEDIA_CACHE_BACKWARD_MIB *)
Definition NXCAST_MEDIA_CACHE_BACKWARD_MIB : Z := 10.
(* src: source/player/cache_policy.h NXCAST_MEDIA_CACHE_READAHEAD_SECS *)
Definition NXCAST_MEDIA_CACHE_READAHEAD_SECS : Z := 20.

(* src: source/player/cache_policy.c is_local_airplay_hls_uri *)
Definition is_local_airplay_hls_uri (uri : option cstring) : bool :=
  match uri with
  | None => false
  | Some uri =>
      if negb (has_prefix uri (bytes "http://127.0.0.1:")) then false
      else match strchr 47 (drop 17 uri) with None => false | Some path => has_prefix path (bytes "/airplay-hls/") end
  end.

(** The uri up to its query or fragment. *)
Definition before_query (uri : cstring) : cstring := (span (fun c => negb ((c =? 63) || (c =? 35))) uri).1.

(* src: source/player/cache_policy.c is_direct_mp4_uri *)
Definition is_direct_mp4_uri (uri : option cstring) : bool :=
  match uri with
  | None | Some [] => false
  | Some uri =>
      let path := before_query uri in
      (4 <=? length path)%nat && has_prefix_nocase (drop (length path - 4) uri) (bytes ".mp4")
  end.

(* src: source/player/cache_policy.c player_cache_policy_for_uri *)
Definition player_cache_policy_for_uri (uri : option cstring) : PlayerCachePolicy :=
  if bool_decide (uri = Some PLAYER_LIBMPV_AIRPLAY_URI) then mkPolicy PLAYER_CACHE_POLICY_AIRPLAY_MIRROR true false 0 0 0 false
  else if is_local_airplay_hls_uri uri then
    mkPolicy PLAYER_CACHE_POLICY_AIRPLAY_REMOTE_HLS true true NXCAST_MEDIA_CACHE_FORWARD_MIB NXCAST_MEDIA_CACHE_BACKWARD_MIB
      NXCAST_MEDIA_CACHE_READAHEAD_SECS true
  else if is_direct_mp4_uri uri then mkPolicy PLAYER_CACHE_POLICY_DIRECT_MP4 true true 8 2 2 false
  else mkPolicy PLAYER_CACHE_POLICY_NETWORK false true 0 0 0 false.

(* src: source/player/cache_policy.c player_cache_policy_name *)
Definition player_cache_policy_name (kind : option PlayerCachePolicyKind) : string :=
  match kind with
  | Some PLAYER_CACHE_POLICY_NETWORK => "network-default"
  | Some PLAYER_CACHE_POLICY_DIRECT_MP4 => "direct-mp4-fast"
  | Some PLAYER_CACHE_POLICY_AIRPLAY_REMOTE_HLS => "airplay-reverse-hls"
  | Some PLAYER_CACHE_POLICY_AIRPLAY_MIRROR => "airplay-mirror-low-latency"
  | None => "unknown"
  end.

(** The whole text of the options. *)
Definition cache_options (policy : PlayerCachePolicy) (paused : bool) : cstring :=
  bytes "pause=" ++ bytes (if paused then "yes" else "no") ++
  (if negb (configure_cache policy) then []
   else if negb (cache_enabled policy) then bytes ",cache=no"
   else bytes ",cache=yes,cache-pause-initial=no,demuxer-readahead-secs=" ++ format_u (readahead_secs policy) ++
        bytes ",demuxer-max-bytes=" ++ format_u (forward_mib policy) ++ bytes "MiB,demuxer-max-back-bytes=" ++
        format_u (backward_mib policy) ++ bytes "MiB" ++
        (if disable_http_persistence policy then bytes ",demuxer-lavf-o=http_persistent=no" else [])).

(** [snprintf] into a buffer of the size: what is written, and whether it is all. *)
(* src: source/player/cache_policy.c player_cache_policy_format_options *)
Definition player_cache_policy_format_options (policy : option PlayerCachePolicy) (paused : bool) (output_size : Z) : bool * cstring :=
  match policy with
  | None => (false, [])
  | Some policy =>
      if output_size =? 0 then (false, [])
      else
        let text := cache_options policy paused in
        (size text <? output_size, take (Z.to_nat (output_size - 1)) text)
  end.

(** Options that are reported complete are the whole text, and a buffer of 192 bytes is
    large enough for every policy of a uri. *)
Lemma format_options_complete policy paused output_size : 0 <= output_size ->
  (player_cache_policy_format_options (Some policy) paused output_size).1 = true ->
  (player_cache_policy_format_options (Some policy) paused output_size).2 = cache_options policy paused.
Proof.
  unfold player_cache_policy_format_options. intros H0. destruct (Z.eqb_spec output_size 0); [done|]. cbn.
  intros H%Z.ltb_lt. apply take_ge. unfold size in H. lia.
Qed.

Lemma policy_options_fit uri paused : size (cache_options (player_cache_policy_for_uri uri) paused) < 192.
Proof.
  unfold player_cache_policy_for_uri. destruct (bool_decide _); [by destruct paused|].
  destruct (is_local_airplay_hls_uri uri); [by destruct paused|]. destruct (is_direct_mp4_uri uri); by destruct paused.
Qed.
