(* ===== verification/IptvUrl.v ===== *)
(** * Resolving the urls of playlists (iptv/url.c)

    A reference is resolved against the url of its playlist into a buffer.  The result is
    the text in the buffer, which is empty when the function fails; a NULL buffer is one of
    size 0. *)

From S2P Require Import Prelude Buffers CText SoapWriter.

(* src: source/iptv/url.c url_is_remote *)
Definition url_is_remote (url : option cstring) : bool :=
  match url with
  | None => false
  | Some url => has_prefix_nocase url (bytes "http://") || has_prefix_nocase url (bytes "https://")
  end.

Definition scheme_char (c : Z) : bool := isalnum c || (c =? 43) || (c =? 45) || (c =? 46).

(* src: source/iptv/url.c url_has_uri_scheme *)
Definition url_has_uri_scheme (url : option cstring) : bool :=
  match url with
  | None | Some [] => false
  | Some url =>
      if has_prefix_nocase url (bytes "sdmc:/") then true
      else
        match strstr_at url (bytes "://") with
        | None | Some O => false
        | Some separator => forallb scheme_char (take separator url)
        end
  end.

(* src: source/iptv/url.c url_write_parts *)
Definition url_write_parts (output_size : Z) (first second third : cstring) : bool * cstring :=
  if output_size =? 0 then (false, [])
  else
    match nxcast_size_add (size first) (size second) ≫= fun total => nxcast_size_add total (size third) with
    | None => (false, [])
    | Some total => if output_size <=? total then (false, []) else (true, first ++ second ++ third)
    end.

(* src: source/iptv/url.c url_copy *)
Definition url_copy (output_size : Z) (value : cstring) : bool * cstring := url_write_parts output_size value [] [].

(** [strpbrk(url, "?#")], or the end: how much is before it. *)
Definition url_end (url : cstring) : cstring := (span (fun c => negb ((c =? 63) || (c =? 35))) url).1.

(* src: source/iptv/url.c iptv_url_resolve *)
Definition iptv_url_resolve (base reference : option cstring) (output_size : Z) : bool * cstring :=
  if output_size =? 0 then (false, [])
  else
    match reference with
    | None | Some [] => (false, [])
    | Some reference =>
        if url_has_uri_scheme (Some reference) then url_copy output_size reference
        else
          match base with
          | None | Some [] => url_copy output_size reference
          | Some base =>
              let slash := bool_decide (reference !! 0%nat = Some 47) in
              if url_is_remote (Some base) then
                let scheme_end := default 0%nat (strstr_at base (bytes "://")) in
                let authority_start := (scheme_end + 3)%nat in
                let located := url_end (drop authority_start base) in
                if slash && bool_decide (reference !! 1%nat = Some 47) then
                  url_write_parts output_size (take scheme_end base) (bytes ":") reference
                else if slash then
                  let prefix_size := (authority_start + default (length located) (memchr 47 located))%nat in
                  url_write_parts output_size (take prefix_size base) reference []
                else
                  let prefix_size := (authority_start + default (length located) (last_index 47 located))%nat in
                  url_write_parts output_size (take prefix_size base) (bytes "/") reference
              else if slash then url_copy output_size reference
              else
                match last_index 47 (url_end base) with
                | None => url_copy output_size reference
                | Some last_slash => url_write_parts output_size (take last_slash base) (bytes "/") reference
                end
          end
    end.

(** ** Lemmas *)

(** What is written fits with its NUL, and is all of it or nothing. *)
Lemma write_parts_spec n a b c : 0 <= n -> n <= SIZE_MAX -> (url_write_parts n a b c).1 = true <-> size (a ++ b ++ c) < n.
Proof.
  intros H0 Hn. unfold url_write_parts, nxcast_size_add. rewrite !size_app.
  pose proof (size_nonneg a). pose proof (size_nonneg b). pose proof (size_nonneg c).
  destruct (Z.eqb_spec n 0); cbn; [split; [done|lia]|].
  destruct (Z.ltb_spec (SIZE_MAX - size a) (size b)); cbn; [split; [done|lia]|].
  destruct (Z.ltb_spec (SIZE_MAX - (size a + size b)) (size c)); cbn; [split; [done|lia]|].
  destruct (Z.leb_spec n (size a + size b + size c)); cbn; split; (done || lia).
Qed.

Lemma write_parts_text n a b c :
  url_write_parts n a b c = (true, a ++ b ++ c) \/ url_write_parts n a b c = (false, []).
Proof. unfold url_write_parts. repeat case_match; auto. Qed.

Lemma resolve_parts base reference n : exists a b c, iptv_url_resolve base reference n = url_write_parts n a b c \/ iptv_url_resolve base reference n = (false, []).
Proof.
  unfold iptv_url_resolve, url_copy. destruct (n =? 0); [exists [], [], []; by right|].
  destruct reference as [[|r0 r]|]; [exists [], [], []; by right| |exists [], [], []; by right].
  destruct (url_has_uri_scheme _); [by repeat eexists; left|].
  destruct base as [[|b0 b]|]; [by repeat eexists; left| |by repeat eexists; left].
  cbv zeta. destruct (url_is_remote _); [destruct (_ && _); [|destruct (bool_decide _)]; by repeat eexists; left|].
  destruct (bool_decide _); [by repeat eexists; left|]. destruct (last_index _ _); by repeat eexists; left.
Qed.

(** A remote url taken apart. *)
Record remote_url (scheme authority path tail : cstring) : Prop := {
  ru_scheme : map tolower scheme = bytes "http" \/ map tolower scheme = bytes "https";
  ru_authority : Forall (fun c => c <> 47 /\ c <> 63 /\ c <> 35) authority;
  ru_path : Forall (fun c => c <> 63 /\ c <> 35) path /\ (path = [] \/ exists p, path = 47 :: p);
  ru_tail : match tail with [] => True | c :: _ => c = 63 \/ c = 35 end
}.

Definition url_of (scheme authority path tail : cstring) : cstring := scheme ++ bytes "://" ++ authority ++ path ++ tail.

(** The directory of a path: up to its last slash. *)
Definition directory (path : cstring) : cstring := take (default 0%nat (last_index 47 path)) path.

Lemma strstr_first c needle l1 l2 : c ∉ l1 -> strstr_at (l1 ++ (c :: needle) ++ l2) (c :: needle) = Some (length l1).
Proof.
  induction l1 as [|x l1 IH]; intros H; cbn [app strstr_at length].
  - rewrite bool_decide_eq_true_2; [done|]. cbn [length take]. f_equal. apply (take_app_length needle l2).
  - rewrite bool_decide_eq_false_2; [|intros Heq; cbn in Heq; set_solver]. cbn [app] in IH. by rewrite IH by set_solver.
Qed.

Lemma last_index_app_some c l1 l2 i : last_index c l2 = Some i -> last_index c (l1 ++ l2) = Some (length l1 + i)%nat.
Proof. intros H. induction l1 as [|x l1 IH]; [done|]. cbn. by rewrite IH. Qed.

Lemma last_index_is_some c l : c ∈ l -> is_Some (last_index c l).
Proof.
  induction l as [|x l IH]; intros H; [by apply not_elem_of_nil in H|]. cbn.
  destruct (last_index c l) eqn:E; [by eexists|]. apply elem_of_cons in H as [->|H]; [rewrite Z.eqb_refl; by eexists|].
  by destruct (IH H).
Qed.

Lemma write_parts_exact n a b c : 0 <= n <= SIZE_MAX ->
  url_write_parts n a b c = if size (a ++ b ++ c) <? n then (true, a ++ b ++ c) else (false, []).
Proof.
  intros [H0 H1]. pose proof (write_parts_spec n a b c H0 H1) as H.
  destruct (write_parts_text n a b c) as [E|E]; rewrite E in *; cbn in H.
  - rewrite (proj2 (Z.ltb_lt _ _)); [done|]. by apply H.
  - destruct (Z.ltb_spec (size (a ++ b ++ c)) n); [|done]. by apply H in H2.
Qed.

(** The characters of a scheme are letters. *)
Lemma scheme_no_colon scheme : map tolower scheme = bytes "http" \/ map tolower scheme = bytes "https" -> 58 ∉ scheme.
Proof.
  intros H Hin. assert (Hl : tolower 58 ∈ map tolower scheme) by (apply list_elem_of_fmap; by eexists).
  destruct H as [H|H]; rewrite H in Hl; revert Hl; apply (bool_decide_unpack _); by vm_compute.
Qed.

Lemma url_is_remote_of scheme rest : map tolower scheme = bytes "http" \/ map tolower scheme = bytes "https" ->
  url_is_remote (Some (scheme ++ bytes "://" ++ rest)) = true.
Proof.
  intros H. unfold url_is_remote, has_prefix_nocase. apply orb_true_iff.
  assert (E : forall k, (length scheme + 3 = k)%nat -> map tolower (take k (scheme ++ bytes "://" ++ rest)) = map tolower scheme ++ bytes "://").
  { intros k <-. rewrite (app_assoc scheme), take_app_le by (rewrite length_app; cbn; lia).
    rewrite take_ge by (rewrite length_app; cbn; lia). by rewrite map_app. }
  destruct H as [H|H]; [left|right]; apply bool_decide_eq_true_2.
  - rewrite E; [by rewrite H|]. apply (f_equal length) in H. rewrite length_map in H. by rewrite H.
  - rewrite E; [by rewrite H|]. apply (f_equal length) in H. rewrite length_map in H. by rewrite H.
Qed.

(** C40: A reference without a scheme is resolved against a remote url by the parts of the
    url: ["//..."] keeps its scheme, ["/..."] its scheme and authority, and any other
    reference its directory; query and fragment of the url are dropped.  The result is
    exactly that text when it fits into the buffer with its NUL, and otherwise the function
    fails and leaves an empty buffer. *)
Theorem reference_resolved_by_parts scheme authority path tail reference n :
  remote_url scheme authority path tail -> reference <> [] -> url_has_uri_scheme (Some reference) = false ->
  0 <= n <= SIZE_MAX ->
  let target :=
    if bool_decide (take 2 reference = bytes "//") then scheme ++ bytes ":" ++ reference
    else if bool_decide (take 1 reference = bytes "/") then scheme ++ bytes "://" ++ authority ++ reference
    else scheme ++ bytes "://" ++ authority ++ directory path ++ bytes "/" ++ reference in
  iptv_url_resolve (Some (url_of scheme authority path tail)) (Some reference) n =
  if size target <? n then (true, target) else (false, []).
Proof.
  intros [Hs Ha [Hp1 Hp2] Ht] Hr Hsch Hn. cbv zeta.
  set (base := url_of scheme authority path tail).
  assert (Hbase : exists b0 b, base = b0 :: b).
  { unfold base, url_of. destruct scheme; [by destruct Hs|]. by repeat eexists. }
  unfold iptv_url_resolve. destruct (Z.eqb_spec n 0) as [->|Hn0].
  { destruct (Z.ltb_spec (size (if bool_decide (take 2 reference = bytes "//") then scheme ++ bytes ":" ++ reference
      else if bool_decide (take 1 reference = bytes "/") then scheme ++ bytes "://" ++ authority ++ reference
      else scheme ++ bytes "://" ++ authority ++ directory path ++ bytes "/" ++ reference)) 0) as [H|]; [|done].
    by pose proof (size_nonneg (if bool_decide (take 2 reference = bytes "//") then scheme ++ bytes ":" ++ reference
      else if bool_decide (take 1 reference = bytes "/") then scheme ++ bytes "://" ++ authority ++ reference
      else scheme ++ bytes "://" ++ authority ++ directory path ++ bytes "/" ++ reference)) as H0; lia. }
  destruct reference as [|r0 r]; [done|]. cbv beta iota.
  destruct (url_has_uri_scheme _) eqn:Escheme at 1; [by pose proof (eq_trans (eq_sym Escheme) Hsch)|]. clear Escheme.
  destruct Hbase as (b0 & b & Eb). rewrite Eb. cbv beta iota zeta. rewrite <- Eb. clear b0 b Eb.
  unfold base, url_of. rewrite url_is_remote_of by done.
  assert (Estr : strstr_at (scheme ++ bytes "://" ++ authority ++ path ++ tail) (bytes "://") = Some (length scheme)).
  { apply (strstr_first 58 (bytes "//")). by apply scheme_no_colon. }
  rewrite Estr. change (default 0%nat (Some (length scheme))) with (length scheme).
  assert (Edrop : drop (length scheme + 3) (scheme ++ bytes "://" ++ authority ++ path ++ tail) = authority ++ path ++ tail).
  { rewrite <- drop_drop, drop_app_length. done. }
  rewrite Edrop.
  assert (Eend : url_end (authority ++ path ++ tail) = authority ++ path).
  { unfold url_end. rewrite app_assoc, span_stop; [done| |].
    - apply Forall_app. split; [eapply Forall_impl; [exact Ha|]|eapply Forall_impl; [exact Hp1|]]; cbn; intros c Hc;
        apply negb_true_iff, orb_false_iff; rewrite !Z.eqb_neq; tauto.
    - destruct tail as [|c t]; [done|]. apply negb_false_iff, orb_true_iff. rewrite !Z.eqb_eq. tauto. }
  rewrite Eend.
  assert (Etake : forall k, take (length scheme + 3 + (length authority + k)) (scheme ++ bytes "://" ++ authority ++ path ++ tail) =
    scheme ++ bytes "://" ++ authority ++ take k (path ++ tail)).
  { intros k. rewrite <- !Nat.add_assoc, take_app_add. f_equal. rewrite (take_app_add (bytes "://") _ (length authority + k)). f_equal. by rewrite take_app_add. }
  assert (Hnot : 47 ∉ authority) by (intros H; rewrite Forall_forall in Ha; by destruct (Ha _ H)).
  change (bytes "//") with [47; 47]. change (bytes "/") with [47].
  destruct (Z.eq_dec r0 47) as [->|Hr0].
  - rewrite (bool_decide_eq_true_2 (((47 :: r) !! 0%nat) = Some 47)) by done. cbn [andb].
    rewrite (bool_decide_eq_true_2 (take 1 (47 :: r) = [47])) by done.
    destruct (decide (r !! 0%nat = Some 47)) as [H2|H2].
    + rewrite (bool_decide_eq_true_2 ((47 :: r) !! 1%nat = Some 47)) by done.
      rewrite (bool_decide_eq_true_2 (take 2 (47 :: r) = [47; 47])) by (destruct r as [|z r]; [done|]; by injection H2 as ->).
      rewrite take_app_length. by apply write_parts_exact.
    + rewrite (bool_decide_eq_false_2 ((47 :: r) !! 1%nat = Some 47)) by done.
      rewrite (bool_decide_eq_false_2 (take 2 (47 :: r) = [47; 47])) by (destruct r as [|z r]; [done|]; intros E; apply H2; by injection E as ->).
      assert (Em : default (length (authority ++ path)) (memchr 47 (authority ++ path)) = length authority).
      { destruct Hp2 as [->|[q ->]]; [|by rewrite memchr_app]. rewrite app_nil_r. by rewrite memchr_none. }
      rewrite Em, <- (Nat.add_0_r (length authority)), Etake, take_0, app_nil_r, write_parts_exact by done.
      by rewrite app_nil_r, <- !app_assoc.
  - rewrite (bool_decide_eq_false_2 (((r0 :: r) !! 0%nat) = Some 47)) by (intros E; by injection E). cbn [andb].
    rewrite (bool_decide_eq_false_2 (take 2 (r0 :: r) = [47; 47])) by (intros E; by injection E).
    rewrite (bool_decide_eq_false_2 (take 1 (r0 :: r) = [47])) by (intros E; by injection E).
    assert (Em : default (length (authority ++ path)) (last_index 47 (authority ++ path)) = (length authority + default 0%nat (last_index 47 path))%nat).
    { destruct Hp2 as [->|[q ->]].
      - rewrite app_nil_r, last_index_none by done. cbn. lia.
      - destruct (last_index_is_some 47 (47 :: q)) as [i Hi]; [by left|]. by rewrite (last_index_app_some _ _ _ i), Hi. }
    rewrite Em, Etake.
    assert (Ed : take (default 0%nat (last_index 47 path)) (path ++ tail) = directory path).
    { unfold directory. destruct (last_index 47 path) as [i|] eqn:Ei; [|done]. cbn [default]. apply take_app_le.
      clear -Ei. revert i Ei. induction path as [|x l IH]; intros i Ei; [done|]. cbn in Ei.
      destruct (last_index 47 l) as [j|]; [injection Ei as <-; cbn; specialize (IH j eq_refl); unfold id in *; lia|].
      destruct (x =? 47); [|done]. injection Ei as <-. cbn. lia. }
    rewrite Ed, write_parts_exact by done. by rewrite <- !app_assoc.
Qed.

(** A segment of a live playlist. *)
Lemma reference_resolved_by_parts_witness :
  let target := bytes "http://tv.example/live/seg-1.ts" in
  iptv_url_resolve (Some (url_of (bytes "http") (bytes "tv.example") (bytes "/live/index.m3u8") (bytes "?k=/a"))) (Some (bytes "seg-1.ts")) 64 =
  if size target <? 64 then (true, target) else (false, []).
Proof.
  apply (reference_resolved_by_parts (bytes "http") (bytes "tv.example") (bytes "/live/index.m3u8") (bytes "?k=/a") (bytes "seg-1.ts") 64).
  - split.
    + left. by vm_compute.
    + vm_compute. repeat constructor; discriminate.
    + split; [vm_compute; repeat constructor; discriminate|]. right. by eexists.
    + by left.
  - done.
  - by vm_compute.
  - by split.
Defined.
