(* ===== verification/PlayerUi.v ===== *)
(** * Timeline and layout of the user interface (player/ui/timeline.c, player/ui/layout.c)

    The texts of the timeline, and where the progress bar is drawn and touched.  [int] and
    [long long] arithmetic is checked: [None] is an overflow. *)

From S2P Require Import Prelude Buffers CText CoordData PlayerTypes SeekTarget.

Definition chk_int (z : Z) : option Z := if (- INT32_MAX - 1 <=? z) && (z <=? INT32_MAX) then Some z else None.

Lemma chk_int_some z : - INT32_MAX - 1 <= z <= INT32_MAX -> chk_int z = Some z.
Proof. unfold chk_int. intros [H1%Z.leb_le H2%Z.leb_le]. by rewrite H1, H2. Qed.

(* src: source/player/ui/timeline.c clamp_int *)
Definition clamp_int (value min_value max_value : Z) : Z :=
  if value <? min_value then min_value else if max_value <? value then max_value else value.

Lemma clamp_bounds v lo hi : lo <= hi -> lo <= clamp_int v lo hi <= hi.
Proof. unfold clamp_int. destruct (Z.ltb_spec v lo); [lia|]. destruct (Z.ltb_spec hi v); lia. Qed.

Lemma clamp_inside v lo hi : lo <= v <= hi -> clamp_int v lo hi = v.
Proof. unfold clamp_int. destruct (Z.ltb_spec v lo); [lia|]. destruct (Z.ltb_spec hi v); lia. Qed.

Lemma clamp_mono v w lo hi : lo <= hi -> v <= w -> clamp_int v lo hi <= clamp_int w lo hi.
Proof.
  unfold clamp_int. intros H1 H2. destruct (Z.ltb_spec v lo), (Z.ltb_spec w lo); try lia;
    destruct (Z.ltb_spec hi v), (Z.ltb_spec hi w); lia.
Qed.

(** ** Timeline *)

(** [snprintf] into a buffer of the size. *)
Definition printed (out_size : Z) (text : cstring) : cstring := take (Z.to_nat (out_size - 1)) text.

(* src: source/player/ui/timeline.c player_ui_timeline_format_time *)
Definition player_ui_timeline_format_time (position_ms out_size : Z) : cstring :=
  let position_ms := if position_ms <? 0 then 0 else position_ms in
  let total_seconds := position_ms ÷ 1000 in
  let hour := total_seconds ÷ 3600 in
  let minute := Z.rem (total_seconds ÷ 60) 60 in
  let second := Z.rem total_seconds 60 in
  printed out_size
    (if 0 <? hour then format_02d hour ++ bytes ":" ++ format_02d minute ++ bytes ":" ++ format_02d second
     else format_02d minute ++ bytes ":" ++ format_02d second).

(* src: source/player/ui/timeline.c player_ui_timeline_progress_permille *)
Definition player_ui_timeline_progress_permille (snapshot : option PlayerSnapshot) : option Z :=
  match snapshot with
  | None => Some 0
  | Some s =>
      if negb (has_media s) || (p_duration_ms s <=? 0) then Some 0
      else
        product ← chk64 (p_position_ms s * 1000);
        sum ← chk64 (product + p_duration_ms s ÷ 2);
        Some (clamp_int (i32 (sum ÷ p_duration_ms s)) 0 1000)
  end.

(* src: source/player/ui/timeline.c PLAYER_UI_PROGRESS_CELLS *)
Definition PLAYER_UI_PROGRESS_CELLS : Z := 18.

(** How many of the cells are filled. *)
(* src: source/player/ui/timeline.c 61-66 build_progress_bar *)
Definition filled_cells (position_ms duration_ms : Z) : option Z :=
  if 0 <? duration_ms then
    let position_ms := clamp_int position_ms 0 duration_ms in
    product ← chk64 (position_ms * PLAYER_UI_PROGRESS_CELLS);
    sum ← chk64 (product + duration_ms ÷ 2);
    Some (clamp_int (i32 (sum ÷ duration_ms)) 0 PLAYER_UI_PROGRESS_CELLS)
  else Some 0.

(** One character as long as more than one byte remains. *)
(* src: source/player/ui/timeline.c build_progress_bar *)
Definition build_progress_bar (position_ms duration_ms out_size : Z) : option cstring :=
  filled ← filled_cells position_ms duration_ms;
  Some (printed out_size (bytes "[" ++ replicate (Z.to_nat filled) 61 ++
          replicate (Z.to_nat (PLAYER_UI_PROGRESS_CELLS - filled)) 45 ++ bytes "]")).

(* src: source/player/ui/timeline.c player_ui_timeline_describe *)
Definition player_ui_timeline_describe (snapshot : option PlayerSnapshot) (out_size : Z) : option cstring :=
  match snapshot with
  | None => Some []
  | Some s =>
      if negb (has_media s) then Some []
      else
        let position_text := player_ui_timeline_format_time (p_position_ms s) 16 in
        if 0 <? p_duration_ms s then
          let duration_text := player_ui_timeline_format_time (p_duration_ms s) 16 in
          progress_bar ← build_progress_bar (p_position_ms s) (p_duration_ms s) (PLAYER_UI_PROGRESS_CELLS + 3);
          Some (printed out_size (progress_bar ++ bytes "  " ++ position_text ++ bytes " / " ++ duration_text))
        else Some (printed out_size position_text)
  end.

(** ** Layout *)

(* src: source/player/ui/layout.h PlayerUiLayout *)
Record PlayerUiLayout := mkLayout {
  pad_x : Z;
  bottom_y : Z;
  bottom_height : Z;
  progress_x : Z;
  progress_y : Z;
  progress_width : Z;
  progress_height : Z;
  progress_hit_y : Z;
  progress_hit_height : Z;
  title_y : Z;
  info_y : Z;
  hints_y : Z
}.

(* src: source/player/ui/layout.c PLAYER_UI_PROGRESS_HIT_SLOP *)
Definition PLAYER_UI_PROGRESS_HIT_SLOP : Z := 48.

(** The layout and whether it can be used. *)
(* src: source/player/ui/layout.c player_ui_layout_compute *)
Definition player_ui_layout_compute (display_width display_height : Z) : option (PlayerUiLayout * bool) :=
  if (display_width <=? 0) || (display_height <=? 0) then None
  else
    let pad := clamp_int (display_width ÷ 32) 28 56 in
    let height := clamp_int (display_height ÷ 5) 136 164 in
    let bottom := display_height - height in
    let bar_height := clamp_int (display_height ÷ 180) 3 6 in
    let bar_y := bottom + clamp_int (height ÷ 6) 18 24 in
    let width := display_width - pad - pad in
    let hit_y := clamp_int (bar_y - PLAYER_UI_PROGRESS_HIT_SLOP) 0 display_height in
    let hit_bottom := bar_y + bar_height + PLAYER_UI_PROGRESS_HIT_SLOP in
    let hit_height := clamp_int hit_bottom hit_y display_height - hit_y in
    Some (mkLayout pad bottom height pad bar_y width bar_height hit_y hit_height (bar_y - 40) (bar_y + bar_height + 18)
            (display_height - clamp_int (display_height ÷ 18) 34 44),
          (0 <? width) && (0 <? bar_height) && (0 <? hit_height)).

(* src: source/player/ui/layout.c player_ui_layout_progress_hit_test *)
Definition player_ui_layout_progress_hit_test (layout : option PlayerUiLayout) (x y : Z) : bool :=
  match layout with
  | None => false
  | Some l =>
      (progress_x l <=? x) && (x <=? progress_x l + progress_width l) &&
      (progress_hit_y l <=? y) && (y <=? progress_hit_y l + progress_hit_height l)
  end.

(* src: source/player/ui/layout.c player_ui_layout_progress_target_ms *)
Definition player_ui_layout_progress_target_ms (layout : option PlayerUiLayout) (x duration_ms : Z) : option Z :=
  match layout with
  | None => Some 0
  | Some l =>
      if (progress_width l <=? 0) || (duration_ms <=? 0) then Some 0
      else
        right ← chk_int (progress_x l + progress_width l);
        let clamped_x := clamp_int x (progress_x l) right in
        offset ← chk_int (clamped_x - progress_x l);
        product ← chk64 (offset * duration_ms);
        sum ← chk64 (product + progress_width l ÷ 2);
        Some (clamp_int (i32 (sum ÷ progress_width l)) 0 duration_ms)
  end.

(** ** Lemmas *)

(** Rounding [offset / width] of [total]. *)
Definition rounded (offset total width : Z) : Z := (offset * total + width / 2) / width.

Lemma rounded_bounds offset total width : 0 < width -> 0 <= offset <= width -> 0 <= total -> 0 <= rounded offset total width <= total.
Proof.
  intros Hw Ho Ht. unfold rounded. assert (Hh : 0 <= width / 2 < width) by lia. split.
  - apply Z.div_pos; [|lia]. nia.
  - apply Z.lt_succ_r, Z.div_lt_upper_bound; [lia|]. nia.
Qed.

Lemma rounded_mono offset offset' total width : 0 < width -> offset <= offset' -> 0 <= total ->
  rounded offset total width <= rounded offset' total width.
Proof. intros Hw Ho Ht. unfold rounded. apply Z.div_le_mono; [done|]. nia. Qed.

Lemma rounded_zero total width : 0 < width -> rounded 0 total width = 0.
Proof. intros Hw. unfold rounded. apply Z.div_small. lia. Qed.

Lemma rounded_full total width : 0 < width -> rounded width total width = total.
Proof.
  intros Hw. unfold rounded. rewrite (Z.mul_comm width total), Z.div_add_l by lia. rewrite (Z.div_small (width / 2) width) by lia. lia.
Qed.

(** A layout that can be used, with the numbers of the code in the range of [int]. *)
Record usable (l : PlayerUiLayout) : Prop := {
  us_x : 0 <= progress_x l;
  us_width : 0 < progress_width l;
  us_right : progress_x l + progress_width l <= INT32_MAX
}.

Lemma computed_usable w h l : w <= INT32_MAX -> player_ui_layout_compute w h = Some (l, true) -> usable l.
Proof.
  unfold player_ui_layout_compute. intros Hw H. destruct (_ || _) eqn:E; [done|]. apply orb_false_iff in E as [E1%Z.leb_gt E2%Z.leb_gt].
  injection H as <- Hu. apply andb_true_iff in Hu as [[Hu _]%andb_true_iff _]. apply Z.ltb_lt in Hu.
  pose proof (clamp_bounds (w ÷ 32) 28 56 ltac:(lia)). by split; cbn; lia.
Qed.

(** The target of a touch is the rounded share of the duration. *)
Lemma target_value l x duration : usable l -> 0 < duration <= INT32_MAX ->
  player_ui_layout_progress_target_ms (Some l) x duration =
  Some (rounded (clamp_int x (progress_x l) (progress_x l + progress_width l) - progress_x l) duration (progress_width l)).
Proof.
  intros [U1 U2 U3] Hd. unfold player_ui_layout_progress_target_ms. rewrite (proj2 (orb_false_iff _ _)) by (split; apply Z.leb_gt; lia).
  pose proof (clamp_bounds x (progress_x l) (progress_x l + progress_width l) ltac:(lia)) as Hc. unfold INT32_MAX in *.
  rewrite chk_int_some by (unfold INT32_MAX; lia). cbn [mbind option_bind]. cbv zeta.
  set (o := clamp_int x _ _ - progress_x l). assert (Ho : 0 <= o <= progress_width l) by (unfold o; lia).
  rewrite (chk_int_some o) by (unfold INT32_MAX; lia). cbn [mbind option_bind].
  assert (Hp : 0 <= o * duration <= 2147483647 * 2147483647) by nia.
  rewrite chk64_some by (unfold is_i64, INT64_MAX; lia). cbn [mbind option_bind].
  assert (Hq : progress_width l ÷ 2 = progress_width l / 2) by (apply Z.quot_div_nonneg; lia).
  rewrite Hq, chk64_some by (unfold is_i64, INT64_MAX; lia). cbn [mbind option_bind].
  rewrite Z.quot_div_nonneg by lia. fold (rounded o duration (progress_width l)).
  pose proof (rounded_bounds o duration (progress_width l) ltac:(lia) ltac:(lia) ltac:(lia)) as Hr.
  assert (Hi : i32 (rounded o duration (progress_width l)) = rounded o duration (progress_width l)).
  { generalize dependent (rounded o duration (progress_width l)). intros r Hr. width_lia. }
  rewrite Hi, clamp_inside by lia. done.
Qed.

(** A touch on the progress bar of a layout seeks inside of the media: the arithmetic
    does not overflow, the target is between 0 and the duration, 0 at the left end of the
    bar and the duration at its right end, and a touch further to the right never seeks to
    an earlier position. *)
Theorem touch_seeks_inside_the_media w h l duration x :
  w <= INT32_MAX -> player_ui_layout_compute w h = Some (l, true) -> 0 < duration <= INT32_MAX ->
  exists target, player_ui_layout_progress_target_ms (Some l) x duration = Some target /\ 0 <= target <= duration /\
    (x <= progress_x l -> target = 0) /\ (progress_x l + progress_width l <= x -> target = duration) /\
    (forall x' target', x <= x' -> player_ui_layout_progress_target_ms (Some l) x' duration = Some target' -> target <= target').
Proof.
  intros Hw Hl Hd. pose proof (computed_usable w h l Hw Hl) as Hu. pose proof Hu as [U1 U2 U3].
  rewrite target_value by done. eexists. split; [done|].
  pose proof (clamp_bounds x (progress_x l) (progress_x l + progress_width l) ltac:(lia)) as Hc. split_and!.
  - apply rounded_bounds; lia.
  - apply rounded_bounds; lia.
  - intros Hx. replace (clamp_int x _ _) with (progress_x l); [rewrite Z.sub_diag; by apply rounded_zero|].
    unfold clamp_int. destruct (Z.ltb_spec x (progress_x l)); [done|]. destruct (Z.ltb_spec (progress_x l + progress_width l) x); lia.
  - intros Hx. replace (clamp_int x _ _) with (progress_x l + progress_width l).
    + rewrite Z.add_simpl_l. by apply rounded_full.
    + unfold clamp_int. destruct (Z.ltb_spec x (progress_x l)); [lia|]. destruct (Z.ltb_spec (progress_x l + progress_width l) x); lia.
  - intros x' target' Hx. rewrite target_value by done. intros [= <-].
    pose proof (clamp_mono x x' (progress_x l) (progress_x l + progress_width l) ltac:(lia) Hx).
    apply rounded_mono; lia.
Qed.

Lemma touch_seeks_inside_the_media_witness :
  exists l, player_ui_layout_compute 1280 720 = Some (l, true) /\
  exists target, player_ui_layout_progress_target_ms (Some l) 640 300000 = Some target /\ 0 <= target <= 300000 /\
    (640 <= progress_x l -> target = 0) /\ (progress_x l + progress_width l <= 640 -> target = 300000) /\
    (forall x' target', 640 <= x' -> player_ui_layout_progress_target_ms (Some l) x' 300000 = Some target' -> target <= target').
Proof.
  eexists. split; [vm_compute; reflexivity|].
  apply (touch_seeks_inside_the_media 1280 720 _ 300000 640); [by apply Z.leb_le|vm_compute; reflexivity|by split; [apply Z.ltb_lt|apply Z.leb_le]].
Defined.

(** ** The progress bar *)

Lemma filled_value position duration : 0 < duration <= INT32_MAX ->
  filled_cells position duration = Some (rounded (clamp_int position 0 duration) PLAYER_UI_PROGRESS_CELLS duration).
Proof.
  intros Hd. unfold filled_cells. rewrite (proj2 (Z.ltb_lt _ _)) by lia. cbv zeta. unfold INT32_MAX in *.
  pose proof (clamp_bounds position 0 duration ltac:(lia)) as Hc. set (c := clamp_int position 0 duration) in *.
  unfold PLAYER_UI_PROGRESS_CELLS. rewrite chk64_some by (unfold is_i64, INT64_MAX; lia). cbn [mbind option_bind].
  assert (Hq : duration ÷ 2 = duration / 2) by (apply Z.quot_div_nonneg; lia).
  rewrite Hq, chk64_some by (unfold is_i64, INT64_MAX; lia). cbn [mbind option_bind].
  rewrite Z.quot_div_nonneg by lia. fold (rounded c 18 duration).
  pose proof (rounded_bounds c 18 duration ltac:(lia) ltac:(lia) ltac:(lia)) as Hr.
  assert (Hi : i32 (rounded c 18 duration) = rounded c 18 duration).
  { generalize dependent (rounded c 18 duration). intros r Hr. width_lia. }
  by rewrite Hi, clamp_inside by lia.
Qed.

(** The bar always has its brackets and its cells: twenty characters, which the buffer of
    [player_ui_timeline_describe] holds. *)
Lemma progress_bar_whole position duration : duration <= INT32_MAX -> 
  exists filled, 0 <= filled <= PLAYER_UI_PROGRESS_CELLS /\
    build_progress_bar position duration (PLAYER_UI_PROGRESS_CELLS + 3) =
    Some (bytes "[" ++ replicate (Z.to_nat filled) 61 ++ replicate (Z.to_nat (PLAYER_UI_PROGRESS_CELLS - filled)) 45 ++ bytes "]").
Proof.
  intros Hd. assert (H : exists filled, filled_cells position duration = Some filled /\ 0 <= filled <= PLAYER_UI_PROGRESS_CELLS).
  { destruct (Z.ltb_spec 0 duration).
    - rewrite filled_value by lia. eexists. split; [done|].
      pose proof (clamp_bounds position 0 duration ltac:(lia)). apply rounded_bounds; unfold PLAYER_UI_PROGRESS_CELLS; lia.
    - exists 0. split; [|done]. unfold filled_cells. by rewrite (proj2 (Z.ltb_ge _ _)). }
  destruct H as (filled & Hf & Hb). exists filled. split; [done|]. unfold build_progress_bar. rewrite Hf. cbn [mbind option_bind].
  f_equal. unfold printed. apply take_ge. rewrite !length_app, !length_replicate. cbn [bytes length]. unfold PLAYER_UI_PROGRESS_CELLS in *. lia.
Qed.
