(* ===== verification/EventServer.v ===== *)
(** * DLNA event subscriptions (protocol/dlna/control/event_server.c)

    Controllers subscribe to a service over HTTP; when the player reports a change, the
    worker sends a NOTIFY to every subscriber of the service.  Here are the texts of
    requests, responses and notifications and each critical section of the server.  The
    sockets are parameters: what every call of a socket gives is an argument.  Waking the
    worker is left out, since it may run at any time; so are logging and diagnostics. *)

From S2P Require Import Prelude Buffers CText PlayerTypes SoapWriter SoapXml DlnaState DlnaServer.

#[local] Arguments bytes : simpl never.

(* src: source/protocol/dlna/control/event_server.c EVENT_MAX_SUBSCRIPTIONS *)
Definition EVENT_MAX_SUBSCRIPTIONS : nat := 8.
(* src: source/protocol/dlna/control/event_server.c EVENT_DEFAULT_TIMEOUT_SECONDS *)
Definition EVENT_DEFAULT_TIMEOUT_SECONDS : Z := 1800.
(* src: source/protocol/dlna/control/event_server.c EVENT_MIN_TIMEOUT_SECONDS *)
Definition EVENT_MIN_TIMEOUT_SECONDS : Z := 60.
(* src: source/protocol/dlna/control/event_server.c EVENT_MAX_TIMEOUT_SECONDS *)
Definition EVENT_MAX_TIMEOUT_SECONDS : Z := 3600.

(** The services; [None] where the code has [EVENT_SERVICE_INVALID]. *)
(* src: source/protocol/dlna/control/event_server.c EventService *)
Inductive EventService :=
| EVENT_SERVICE_AVTRANSPORT
| EVENT_SERVICE_RENDERINGCONTROL
| EVENT_SERVICE_CONNECTIONMANAGER.

#[export] Instance event_service_eq_dec : EqDecision EventService.
Proof. solve_decision. Defined.

(** An active subscription: when the mutex is free its four strings are there. *)
(* src: source/protocol/dlna/control/event_server.c EventSubscription *)
Record EventSubscription := mkSubscription {
  es_service : EventService;
  es_sid : cstring;
  es_callback_url : cstring;
  es_callback_host : cstring;
  es_callback_port : Z;
  es_callback_path : cstring;
  es_seq : Z;
  es_expiry_ms : Z
}.
#[export] Instance eta_EventSubscription : Eta EventSubscription := fun e =>
  mkSubscription (es_service e) (es_sid e) (es_callback_url e) (es_callback_host e) (es_callback_port e)
    (es_callback_path e) (es_seq e) (es_expiry_ms e).

(* src: source/protocol/dlna/control/event_server.c EventNotifyTarget *)
Record EventNotifyTarget := mkTarget {
  nt_service : EventService;
  nt_sid : cstring;
  nt_callback_host : cstring;
  nt_callback_port : Z;
  nt_callback_path : cstring;
  nt_seq : Z
}.

(** The static variables under the mutex.  A slot that is not active is zero: [None]. *)
(* src: source/protocol/dlna/control/event_server.c 70-81 EventSubscription *)
Record EventServer := mkEventServer {
  g_subscriptions : list (option EventSubscription);
  g_avtransport_state_dirty : bool;
  g_renderingcontrol_dirty : bool;
  g_connectionmanager_dirty : bool;
  g_next_sid : Z;
  g_thread_started : bool;
  g_stop_requested : bool
}.
#[export] Instance eta_EventServer : Eta EventServer := fun e =>
  mkEventServer (g_subscriptions e) (g_avtransport_state_dirty e) (g_renderingcontrol_dirty e)
    (g_connectionmanager_dirty e) (g_next_sid e) (g_thread_started e) (g_stop_requested e).

Definition no_subscriptions : list (option EventSubscription) := repeat None EVENT_MAX_SUBSCRIPTIONS.
Definition event_server_zero : EventServer := mkEventServer no_subscriptions false false false 1 false false.

(** ** Requests *)

(* src: source/protocol/dlna/control/event_server.c event_service_name *)
Definition event_service_name (service : EventService) : cstring :=
  match service with
  | EVENT_SERVICE_AVTRANSPORT => bytes "AVTransport"
  | EVENT_SERVICE_RENDERINGCONTROL => bytes "RenderingControl"
  | EVENT_SERVICE_CONNECTIONMANAGER => bytes "ConnectionManager"
  end.

Definition event_prefix : cstring := bytes "/upnp/event/".

(** The name of a service in a path. *)
(* src: source/protocol/dlna/control/event_server.c 242-257 event_service_from_path *)
Definition event_path_name (path : cstring) : cstring :=
  if has_prefix path event_prefix then
    (span (fun c => negb ((c =? 32) || (c =? 63) || (c =? 13) || (c =? 10))) (drop (length event_prefix) path)).1
  else
    match path with
    | 47 :: service =>
        match memchr 47 service with
        | Some i => if strcmp_equal (drop i service) (bytes "/event") then take i service else []
        | None => []
        end
    | _ => []
    end.

(* src: source/protocol/dlna/control/event_server.c event_service_from_path *)
Definition event_service_from_path (path : cstring) : option EventService :=
  let name := event_path_name path in
  if bool_decide (name = []) then None
  else if strcasecmp_equal name (bytes "AVTransport") then Some EVENT_SERVICE_AVTRANSPORT
  else if strcasecmp_equal name (bytes "RenderingControl") then Some EVENT_SERVICE_RENDERINGCONTROL
  else if strcasecmp_equal name (bytes "ConnectionManager") then Some EVENT_SERVICE_CONNECTIONMANAGER
  else None.

Definition in_blank_end (c : Z) : bool := (c =? 32) || (c =? 9) || (c =? 13) || (c =? 10).

(* src: source/protocol/dlna/control/event_server.c event_trim_in_place *)
Definition event_trim_in_place (value : cstring) : cstring := skip in_blank (rev (skip in_blank_end (rev value))).

(** [strtol(text, &end_ptr, 10)]: the value and the rest of the text. *)
Definition strtol_end (text : cstring) : Z * cstring :=
  let number := skip isspace text in
  let digits := match number with 45 :: rest | 43 :: rest => rest | _ => number end in
  match digits with
  | c :: _ => if isdigit c then (strtol text, skip isdigit digits) else (0, text)
  | [] => (0, text)
  end.

Section memory.
Context (alloc : Z -> bool).

(* src: source/protocol/dlna/control/event_server.c event_get_header_value_alloc *)
Definition event_get_header_value_alloc (request header : cstring) : outcome cstring :=
  match find_header (S (length request)) header request with
  | None => Stuck
  | Some None => Refused
  | Some (Some line) =>
      ensure (alloc (size line + 1));;
      let value := event_trim_in_place line in
      if bool_decide (value = []) then Refused else Done value
  end.

(** A header that is there, or [None]. *)
Definition try_header (request : cstring) (header : string) : outcome (option cstring) :=
  match event_get_header_value_alloc request (bytes header) with
  | Done value => Done (Some value)
  | Refused => Done None
  | Stuck => Stuck
  end.

(* src: source/protocol/dlna/control/event_server.c 360-383 event_parse_timeout_seconds *)
Definition timeout_of_text (timeout : cstring) : outcome Z :=
  if strcasecmp_equal timeout (bytes "infinite") then Done EVENT_MAX_TIMEOUT_SECONDS
  else
    let value := if has_prefix_nocase timeout (bytes "Second-") then drop 7 timeout else timeout in
    let '(seconds, rest) := strtol_end value in
    ensure (bool_decide (rest = []) && (0 <? seconds));;
    let seconds := if seconds <? EVENT_MIN_TIMEOUT_SECONDS then EVENT_MIN_TIMEOUT_SECONDS else seconds in
    Done (if EVENT_MAX_TIMEOUT_SECONDS <? seconds then EVENT_MAX_TIMEOUT_SECONDS else seconds).

(* src: source/protocol/dlna/control/event_server.c event_parse_timeout_seconds *)
Definition event_parse_timeout_seconds (request : cstring) : outcome Z :=
  timeout ← try_header request "TIMEOUT";
  match timeout with None => Done EVENT_DEFAULT_TIMEOUT_SECONDS | Some timeout => timeout_of_text timeout end.

(* src: source/protocol/dlna/control/handler.c soap_handler_strdup_printf *)
Definition soap_handler_strdup_printf (text : cstring) : option cstring := if alloc (size text + 1) then Some text else None.

Definition strdup (text : cstring) : option cstring := if alloc (size text + 1) then Some text else None.

Record EventCallback := mkCallback {
  cb_normalized : cstring;
  cb_host : cstring;
  cb_port : Z;
  cb_path : cstring
}.

(** The text between [<] and [>], which may be left out together. *)
(* src: source/protocol/dlna/control/event_server.c 411-418 event_parse_callback_url *)
Definition strip_brackets (value : cstring) : outcome cstring :=
  match value with
  | 60 :: rest =>
      ensure (negb (size value <? 3) && bool_decide (last value = Some 62));;
      Done (removelast rest)
  | _ => Done value
  end.

(** The port at the colon, if there is one; the number must end where the path starts. *)
(* src: source/protocol/dlna/control/event_server.c 450-467 event_parse_callback_url *)
Definition parse_port (after_host path_start : cstring) : outcome Z :=
  match after_host with
  | 58 :: text =>
      let '(parsed_port, rest) := strtol_end text in
      ensure (bool_decide (length rest = length path_start) && negb (parsed_port <=? 0) && negb (65535 <? parsed_port));;
      Done parsed_port
  | _ => Done 80
  end.

Definition some_or_refused {A} (o : option A) : outcome A := match o with Some a => Done a | None => Refused end.

(* src: source/protocol/dlna/control/event_server.c event_parse_callback_url *)
Definition event_parse_callback_url (header_value : cstring) : outcome EventCallback :=
  value ← some_or_refused (strdup header_value);
  value ← strip_brackets (event_trim_in_place value);
  ensure (has_prefix_nocase value (bytes "http://"));;
  let url := drop 7 value in
  let '(authority, path_start) := span (fun c => negb (c =? 47)) url in
  let '(host, after_host) := span (fun c => negb (c =? 58)) authority in
  ensure (negb (bool_decide (host = [])));;
  host ← some_or_refused (strdup host);
  port ← parse_port (after_host ++ path_start) path_start;
  path ← some_or_refused (strdup (match path_start with [] => bytes "/" | _ => path_start end));
  normalized ← some_or_refused (soap_handler_strdup_printf (bytes "http://" ++ host ++ bytes ":" ++ format_u port ++ path));
  Done (mkCallback normalized host port path).
End memory.

(** ** Responses and notifications *)

Section texts.
Context (alloc : Z -> bool) (server_info : cstring).

(** [None] when the response does not fit. *)
(* src: source/protocol/dlna/control/event_server.c event_build_response *)
Definition event_build_response (status : Z) (status_text extra_headers body : cstring) (response_size : Z) : option cstring :=
  if response_size =? 0 then None
  else
    let text :=
      bytes "HTTP/1.1 " ++ format_ld status ++ bytes " " ++ status_text ++ crlf ++
      bytes "Content-Type: " ++ text_xml ++ crlf ++
      bytes "Content-Length: " ++ format_u (size body) ++ crlf ++
      bytes "Server: " ++ server_info ++ crlf ++
      extra_headers ++
      bytes "Connection: close" ++ crlf ++ crlf ++ body in
    if response_size <=? size text then None else Some text.

(* src: source/protocol/dlna/control/event_server.c event_append_val_element *)
Definition event_append_val_element (out : SoapActionOutput) (tag : string) (value : cstring) : written :=
  and_then (soap_writer_appendf alloc out (bytes "<" ++ bytes tag ++ quoted " val='")) (fun out =>
  and_then (soap_writer_append_escaped alloc out (Some value)) (fun out =>
  soap_writer_append_raw alloc out (Some (quoted "'/>")))).

Definition append_raw (text : string) (out : SoapActionOutput) : written := soap_writer_append_raw alloc out (Some (quoted text)).

(* src: source/protocol/dlna/control/event_server.c event_build_avtransport_last_change *)
Definition event_build_avtransport_last_change (state : DlnaProtocolStateView) (out : SoapActionOutput) : written :=
  and_then (append_raw "<Event xmlns='urn:schemas-upnp-org:metadata-1-0/AVT/'><InstanceID val='0'>" out) (fun out =>
  and_then (event_append_val_element out "TransportState" (transport_state state)) (fun out =>
  and_then (event_append_val_element out "TransportStatus" (transport_status state)) (fun out =>
  and_then (soap_writer_appendf alloc out (quoted "<CurrentTrack val='" ++ format_ld (current_track state) ++ quoted "'/>")) (fun out =>
  and_then (soap_writer_appendf alloc out (quoted "<NumberOfTracks val='" ++ format_ld (number_of_tracks state) ++ quoted "'/>")) (fun out =>
  and_then (event_append_val_element out "CurrentMediaDuration" (current_media_duration state)) (fun out =>
  and_then (event_append_val_element out "CurrentTrackDuration" (current_track_duration state)) (fun out =>
  append_raw "</InstanceID></Event>" out))))))).

(* src: source/protocol/dlna/control/event_server.c event_build_renderingcontrol_last_change *)
Definition event_build_renderingcontrol_last_change (state : DlnaProtocolStateView) (out : SoapActionOutput) : written :=
  and_then (append_raw "<Event xmlns='urn:schemas-upnp-org:metadata-1-0/RCS/'><InstanceID val='0'>" out) (fun out =>
  and_then (soap_writer_appendf alloc out (quoted "<Volume channel='Master' val='" ++ format_ld (volume state) ++ quoted "'/>")) (fun out =>
  and_then (soap_writer_appendf alloc out (quoted "<Mute channel='Master' val='" ++ format_ld (if mute state then 1 else 0) ++ quoted "'/>")) (fun out =>
  append_raw "</InstanceID></Event>" out))).

(** The change is built in an output of its own and then quoted. *)
(* src: source/protocol/dlna/control/event_server.c 649-652 event_build_propertyset *)
Definition append_last_change (build : SoapActionOutput -> written) (out : SoapActionOutput) : written :=
  '(ok, last_change) ← build output_zero;
  if negb ok then Done (false, out)
  else
    and_then (append_raw "<e:property><LastChange>" out) (fun out =>
    and_then (soap_writer_append_escaped alloc out (Some (output_text last_change))) (fun out =>
    append_raw "</LastChange></e:property>" out)).

(* src: source/protocol/dlna/control/event_server.c 646-668 event_build_propertyset *)
Definition append_service_properties (state : DlnaProtocolStateView) (service : EventService) (out : SoapActionOutput) : written :=
  match service with
  | EVENT_SERVICE_AVTRANSPORT => append_last_change (event_build_avtransport_last_change state) out
  | EVENT_SERVICE_RENDERINGCONTROL => append_last_change (event_build_renderingcontrol_last_change state) out
  | EVENT_SERVICE_CONNECTIONMANAGER =>
      and_then (append_raw "<e:property><CurrentConnectionIDs>" out) (fun out =>
      and_then (soap_writer_append_escaped alloc out (Some (current_connection_ids state))) (fun out =>
      append_raw "</CurrentConnectionIDs></e:property>" out))
  end.

(* src: source/protocol/dlna/control/event_server.c event_build_propertyset *)
Definition event_build_propertyset (state : DlnaProtocolStateView) (service : EventService) (out : SoapActionOutput) : written :=
  let out := soap_writer_clear out in
  '(ok, out) ← append_raw "<?xml version='1.0' encoding='utf-8'?><e:propertyset xmlns:e='urn:schemas-upnp-org:event-1-0'>" out;
  if negb ok then Done (false, out)
  else
    '(ok, out) ← append_service_properties state service out;
    if negb ok then Done (false, soap_writer_clear out)
    else append_raw "</e:propertyset>" out.

(* src: source/protocol/dlna/control/event_server.c 763-790 event_send_notify *)
Definition notify_request (target : EventNotifyTarget) (body : cstring) : option cstring :=
  let request_cap := size body + 1024 in
  let text :=
    bytes "NOTIFY " ++ nt_callback_path target ++ bytes " HTTP/1.1" ++ crlf ++
    bytes "HOST: " ++ nt_callback_host target ++ bytes ":" ++ format_u (nt_callback_port target) ++ crlf ++
    bytes "CONTENT-TYPE: " ++ text_xml ++ crlf ++
    bytes "CONTENT-LENGTH: " ++ format_u (size body) ++ crlf ++
    bytes "SERVER: " ++ server_info ++ crlf ++
    bytes "NT: upnp:event" ++ crlf ++
    bytes "NTS: upnp:propchange" ++ crlf ++
    bytes "SID: " ++ nt_sid target ++ crlf ++
    bytes "SEQ: " ++ format_u (nt_seq target) ++ crlf ++
    bytes "CONNECTION: close" ++ crlf ++ crlf ++ body in
  if negb (alloc request_cap) then None else if request_cap <=? size text then None else Some text.

(** What one call of [send] gives, and whether the worker may go on before it. *)
Inductive SendResult := SendCount (n : nat) | SendInterrupted | SendFailed.

(** The rounds of the loop, one for each result; what was sent. *)
(* src: source/protocol/dlna/control/event_server.c event_send_all *)
Fixpoint event_send_all (rounds : list (bool * SendResult)) (buf sent : cstring) : bool * cstring :=
  match buf with
  | [] => (true, sent)
  | _ =>
      match rounds with
      | (true, SendCount (S n)) :: rounds => event_send_all rounds (drop (S n) buf) (sent ++ take (S n) buf)
      | (true, SendInterrupted) :: rounds => event_send_all rounds buf sent
      | _ => (false, sent)
      end
  end.

(** What the sockets and the stop flag give to one delivery. *)
Record NotifyEnv := mkNotifyEnv {
  ne_stopped_at_start : bool;
  ne_socket_opens : bool;
  ne_stopped_after_socket : bool;
  ne_host_is_ipv4 : bool;
  ne_connects : bool;
  ne_stopped_after_connect : bool;
  ne_sends : list (bool * SendResult)
}.

(** Whether everything was sent, and what was. *)
(* src: source/protocol/dlna/control/event_server.c event_send_notify *)
Definition event_send_notify (env : NotifyEnv) (state : DlnaProtocolStateView) (target : EventNotifyTarget) (service : EventService)
    : outcome (bool * cstring) :=
  if ne_stopped_at_start env then Done (false, [])
  else
    '(built, body) ← event_build_propertyset state service output_zero;
    if negb built || negb (ne_socket_opens env) || ne_stopped_after_socket env || negb (ne_host_is_ipv4 env) ||
       negb (ne_connects env) || ne_stopped_after_connect env
    then Done (false, [])
    else
      match notify_request target (output_text body) with
      | None => Done (false, [])
      | Some request => Done (event_send_all (ne_sends env) request [])
      end.
End texts.

(** ** The table of subscriptions *)

(* src: source/protocol/dlna/control/event_server.c event_prune_expired_locked *)
Definition event_prune_expired_locked (now_ms : Z) (s : EventServer) : EventServer :=
  { s with g_subscriptions ::=
      map (fun slot => slot ≫= fun sub => if es_expiry_ms sub <=? now_ms then None else Some sub) }.

Definition slot_has_sid (sid : cstring) (slot : option EventSubscription) : bool :=
  match slot with Some sub => strcasecmp_equal (es_sid sub) sid | None => false end.

(* src: source/protocol/dlna/control/event_server.c event_find_subscription_by_sid_locked *)
Definition event_find_subscription_by_sid_locked (sid : cstring) (s : EventServer) : option nat :=
  if bool_decide (sid = []) then None else find_entry (slot_has_sid sid) (g_subscriptions s).

Definition slot_is_free (slot : option EventSubscription) : bool := match slot with Some _ => false | None => true end.

(* src: source/protocol/dlna/control/event_server.c event_find_free_subscription_locked *)
Definition event_find_free_subscription_locked (s : EventServer) : option nat := find_entry slot_is_free (g_subscriptions s).

(* src: source/protocol/dlna/control/event_server.c event_mark_dirty_locked *)
Definition event_mark_dirty_locked (service : EventService) (s : EventServer) : EventServer :=
  match service with
  | EVENT_SERVICE_AVTRANSPORT => { s with g_avtransport_state_dirty := true }
  | EVENT_SERVICE_RENDERINGCONTROL => { s with g_renderingcontrol_dirty := true }
  | EVENT_SERVICE_CONNECTIONMANAGER => { s with g_connectionmanager_dirty := true }
  end.

(** ** The worker *)

Section worker.
Context (alloc : Z -> bool).

(** The copy for one subscriber; [None] when there is no memory for it. *)
(* src: source/protocol/dlna/control/event_server.c 843-856 event_collect_targets_locked *)
Definition notify_target (sub : EventSubscription) : option EventNotifyTarget :=
  sid ← strdup alloc (es_sid sub);
  host ← strdup alloc (es_callback_host sub);
  path ← strdup alloc (es_callback_path sub);
  Some (mkTarget (es_service sub) sid host (es_callback_port sub) path (es_seq sub)).

(** A subscriber's number advances even when the copy failed. *)
(* src: source/protocol/dlna/control/event_server.c 837-858 event_collect_targets_locked *)
Fixpoint collect_slots (service : EventService) (slots : list (option EventSubscription))
    : list EventNotifyTarget * list (option EventSubscription) :=
  match slots with
  | [] => ([], [])
  | slot :: slots' =>
      let '(targets, rest) := collect_slots service slots' in
      match slot with
      | Some sub =>
          if bool_decide (es_service sub = service)
          then (match notify_target sub with Some t => t :: targets | None => targets end,
                Some { sub with es_seq ::= inc32 } :: rest)
          else (targets, slot :: rest)
      | None => (targets, slot :: rest)
      end
  end.

(** There are as many targets as slots, so none is left out. *)
(* src: source/protocol/dlna/control/event_server.c event_collect_targets_locked *)
Definition event_collect_targets_locked (now_ms : Z) (service : EventService) (s : EventServer)
    : list EventNotifyTarget * EventServer :=
  let s := event_prune_expired_locked now_ms s in
  let '(targets, slots) := collect_slots service (g_subscriptions s) in
  (targets, { s with g_subscriptions := slots }).

(** A service whose flag is up is collected, and the flag lowered. *)
Definition collect_if (due : bool) (service : EventService) (clear : EventServer -> EventServer) (now_ms : EventService -> Z)
    (s : EventServer) : list (EventNotifyTarget * EventService) * EventServer :=
  if due then
    let '(targets, s) := event_collect_targets_locked (now_ms service) service s in (map (fun t => (t, service)) targets, clear s)
  else ([], s).

(** One critical section of the worker, once a flag is up: the notifications it will
    send, in their order.  [now_ms] is the time at which each service is collected. *)
(* src: source/protocol/dlna/control/event_server.c 898-922 event_thread_main *)
Definition event_worker_collect (now_ms : EventService -> Z) (s : EventServer) : list (EventNotifyTarget * EventService) * EventServer :=
  let avt_due := g_avtransport_state_dirty s in
  let rc_due := g_renderingcontrol_dirty s in
  let cm_due := g_connectionmanager_dirty s in
  let '(avt, s) := collect_if avt_due EVENT_SERVICE_AVTRANSPORT (fun s => { s with g_avtransport_state_dirty := false }) now_ms s in
  let '(rc, s) := collect_if rc_due EVENT_SERVICE_RENDERINGCONTROL (fun s => { s with g_renderingcontrol_dirty := false }) now_ms s in
  let '(cm, s) := collect_if cm_due EVENT_SERVICE_CONNECTIONMANAGER (fun s => { s with g_connectionmanager_dirty := false }) now_ms s in
  (avt ++ rc ++ cm, s).
End worker.

(** The worker goes on when it is to stop or there is something to send. *)
(* src: source/protocol/dlna/control/event_server.c 884-890 event_thread_main *)
Definition event_worker_wakes (s : EventServer) : bool :=
  g_stop_requested s || g_avtransport_state_dirty s || g_renderingcontrol_dirty s || g_connectionmanager_dirty s.

(** ** Start and stop *)

Definition clear_events (s : EventServer) : EventServer :=
  { s with g_subscriptions := no_subscriptions; g_avtransport_state_dirty := false;
           g_renderingcontrol_dirty := false; g_connectionmanager_dirty := false }.

(** [thread] tells whether the thread could be created and started. *)
(* src: source/protocol/dlna/control/event_server.c event_server_start *)
Definition event_server_start (thread : bool) (s : EventServer) : bool * EventServer :=
  if g_thread_started s then (true, s)
  else
    let s := { clear_events s with g_stop_requested := false } in
    if thread then (true, { s with g_thread_started := true }) else (false, s).

(** The critical section before the wait for the worker; false when there is none. *)
(* src: source/protocol/dlna/control/event_server.c 1001-1011 event_server_stop *)
Definition event_stop_begin (s : EventServer) : bool * EventServer :=
  if g_thread_started s then (true, { s with g_stop_requested := true }) else (false, s).

(** The critical section behind it. *)
(* src: source/protocol/dlna/control/event_server.c 1027-1034 event_server_stop *)
Definition event_stop_finish (s : EventServer) : EventServer := clear_events { s with g_thread_started := false }.

(** ** Requests to the server *)

(** [%08u] *)
Definition format_08u (n : Z) : cstring := let digits := format_u n in repeat 48 (8 - length digits)%nat ++ digits.

Definition event_sid (n : Z) : cstring := bytes "uuid:nxcast-evt-" ++ format_08u n.

Section requests.
Context (alloc : Z -> bool) (server_info : cstring).
Notation respond := (event_build_response server_info).

Definition sid_headers (sid : cstring) (timeout_seconds : Z) : cstring :=
  bytes "SID: " ++ sid ++ crlf ++ bytes "TIMEOUT: Second-" ++ format_ld timeout_seconds ++ crlf.

Definition expiry_from (now_ms timeout_seconds : Z) : Z := u64 (now_ms + timeout_seconds * 1000).

(** Each request gives the response, or [None] when none could be built, and the server. *)
Definition reply : Type := outcome (option cstring * EventServer).

(* src: source/protocol/dlna/control/event_server.c 1061-1086 event_handle_subscribe *)
Definition event_renew (sid : cstring) (timeout_seconds now_ms response_size : Z) (s : EventServer) : option cstring * EventServer :=
  match event_find_subscription_by_sid_locked sid s with
  | None => (respond 412 (bytes "Precondition Failed") [] [] response_size, s)
  | Some slot_index =>
      let s' := { s with g_subscriptions ::=
        alter (fmap (fun sub : EventSubscription => { sub with es_expiry_ms := expiry_from now_ms timeout_seconds })) slot_index } in
      let found := default [] ((g_subscriptions s !! slot_index) ≫= fun slot => es_sid <$> slot) in
      (headers ← soap_handler_strdup_printf alloc (sid_headers found timeout_seconds);
       respond 200 (bytes "OK") headers [] response_size, s')
  end.

(** [None] when there is no memory for the strings. *)
(* src: source/protocol/dlna/control/event_server.c 1124-1144 event_handle_subscribe *)
Definition new_subscription (service : EventService) (callback : EventCallback) (number expiry_ms : Z) : option EventSubscription :=
  sid ← soap_handler_strdup_printf alloc (event_sid number);
  url ← strdup alloc (cb_normalized callback);
  host ← strdup alloc (cb_host callback);
  path ← strdup alloc (cb_path callback);
  Some (mkSubscription service sid url host (cb_port callback) path 0 expiry_ms).

(** A slot is taken; an expired subscription keeps its own. *)
(* src: source/protocol/dlna/control/event_server.c 1111-1165 event_handle_subscribe *)
Definition event_grant (service : EventService) (callback : EventCallback) (timeout_seconds now_ms response_size : Z) (s : EventServer)
    : option cstring * EventServer :=
  match event_find_free_subscription_locked s with
  | None => (respond 503 (bytes "Service Unavailable") [] [] response_size, s)
  | Some slot_index =>
      let number := g_next_sid s in
      let s := { s with g_next_sid ::= inc32 } in
      match new_subscription service callback number (expiry_from now_ms timeout_seconds) with
      | None => (respond 503 (bytes "Service Unavailable") [] [] response_size, s)
      | Some sub =>
          let s := event_mark_dirty_locked service { s with g_subscriptions ::= <[slot_index := Some sub]> } in
          (headers ← soap_handler_strdup_printf alloc (sid_headers (es_sid sub) timeout_seconds);
           respond 200 (bytes "OK") headers [] response_size, s)
      end
  end.

(* src: source/protocol/dlna/control/event_server.c event_handle_subscribe *)
Definition event_handle_subscribe (request : cstring) (service : EventService) (now_ms response_size : Z) (s : EventServer) : reply :=
  match event_parse_timeout_seconds alloc request with
  | Stuck => Stuck
  | Refused => Done (respond 400 (bytes "Bad Request") [] [] response_size, s)
  | Done timeout_seconds =>
      sid ← try_header alloc request "SID";
      match sid with
      | Some sid => Done (event_renew sid timeout_seconds now_ms response_size s)
      | None =>
          callback ← try_header alloc request "CALLBACK";
          nt ← (if callback then try_header alloc request "NT" else Done None);
          match callback, nt with
          | Some callback, Some nt =>
              if negb (strcasecmp_equal nt (bytes "upnp:event"))
              then Done (respond 412 (bytes "Precondition Failed") [] [] response_size, s)
              else
                match event_parse_callback_url alloc callback with
                | Stuck => Stuck
                | Refused => Done (respond 412 (bytes "Precondition Failed") [] [] response_size, s)
                | Done callback => Done (event_grant service callback timeout_seconds now_ms response_size s)
                end
          | _, _ => Done (respond 400 (bytes "Bad Request") [] [] response_size, s)
          end
      end
  end.

(* src: source/protocol/dlna/control/event_server.c event_handle_unsubscribe *)
Definition event_handle_unsubscribe (request : cstring) (response_size : Z) (s : EventServer) : reply :=
  sid ← try_header alloc request "SID";
  Done (match sid with
        | None => (respond 400 (bytes "Bad Request") [] [] response_size, s)
        | Some sid =>
            match event_find_subscription_by_sid_locked sid s with
            | None => (respond 412 (bytes "Precondition Failed") [] [] response_size, s)
            | Some slot_index =>
                (respond 200 (bytes "OK") [] [] response_size, { s with g_subscriptions ::= <[slot_index := None]> })
            end
        end).

(** [None] is also what a path of no service gives: another handler is asked. *)
(* src: source/protocol/dlna/control/event_server.c event_server_try_handle_http *)
Definition event_server_try_handle_http (method path : cstring) (request : option cstring) (now_ms response_size : Z) (s : EventServer)
    : reply :=
  match event_service_from_path path with
  | None => Done (None, s)
  | Some service =>
      if strcasecmp_equal method (bytes "SUBSCRIBE") then
        match request with None => Done (None, s) | Some request => event_handle_subscribe request service now_ms response_size s end
      else if strcasecmp_equal method (bytes "UNSUBSCRIBE") then
        match request with None => Done (None, s) | Some request => event_handle_unsubscribe request response_size s end
      else Done (respond 405 (bytes "Method Not Allowed") [] [] response_size, s)
  end.
End requests.

(* src: source/protocol/dlna/control/event_server.c event_server_on_renderer_event *)
Definition event_server_on_renderer_event (event : PlayerEventType) (s : EventServer) : EventServer :=
  match event with
  | PLAYER_EVENT_STATE_CHANGED | PLAYER_EVENT_URI_CHANGED | PLAYER_EVENT_DURATION_CHANGED | PLAYER_EVENT_ERROR =>
      event_mark_dirty_locked EVENT_SERVICE_AVTRANSPORT s
  | PLAYER_EVENT_POSITION_CHANGED => s
  | PLAYER_EVENT_VOLUME_CHANGED | PLAYER_EVENT_MUTE_CHANGED => event_mark_dirty_locked EVENT_SERVICE_RENDERINGCONTROL s
  end.
