(* ===== verification/EventSystem.v ===== *)
(** * The event server under all interleavings

    Requests, player events, the worker and start and stop in any order.  Every
    subscriber gets the numbers 0, 1, 2, ... and nothing is sent twice or out of order;
    what is refused changes nothing; a new subscriber gets its first event. *)

From S2P Require Import Prelude Buffers CText PlayerTypes SoapWriter SoapXml SoapText DlnaState DlnaServer EventServer.

#[local] Arguments bytes : simpl never.

(** ** Collecting *)

Definition sids (slots : list (option EventSubscription)) : list cstring := omap (fmap es_sid) slots.

(** The SID and the number of a notification. *)
Definition label (p : EventNotifyTarget * EventService) : cstring * Z := (nt_sid p.1, nt_seq p.1).

(** The numbers of one SID. *)
Definition seqs (sid : cstring) (labels : list (cstring * Z)) : list Z := omap (fun l : cstring * Z => if bool_decide (l.1 = sid) then Some l.2 else None) labels.

Lemma seqs_app sid l1 l2 : seqs sid (l1 ++ l2) = seqs sid l1 ++ seqs sid l2.
Proof. apply omap_app. Qed.

Lemma notify_target_all sub : notify_target all_memory sub =
  Some (mkTarget (es_service sub) (es_sid sub) (es_callback_host sub) (es_callback_port sub) (es_callback_path sub) (es_seq sub)).
Proof. reflexivity. Qed.

Lemma notify_target_some alloc sub t : notify_target alloc sub = Some t -> notify_target all_memory sub = Some t.
Proof.
  rewrite notify_target_all. unfold notify_target, strdup. by destruct (alloc _), (alloc _), (alloc _).
Qed.

(** Memory only decides which copies are made. *)
Lemma collect_slots_memory alloc service slots :
  (collect_slots alloc service slots).1 `sublist_of` (collect_slots all_memory service slots).1 /\
  (collect_slots alloc service slots).2 = (collect_slots all_memory service slots).2.
Proof.
  induction slots as [|slot slots [IH1 IH2]]; [done|]. cbn [collect_slots].
  destruct (collect_slots alloc service slots) as [ts r], (collect_slots all_memory service slots) as [ts' r']. cbn in IH1, IH2. subst r'.
  destruct slot as [sub|]; [|done]. destruct (bool_decide _); [|done]. cbn. split; [|done].
  destruct (notify_target alloc sub) as [t|] eqn:E.
  - apply notify_target_some in E. rewrite notify_target_all in E. injection E as <-. by constructor.
  - by constructor.
Qed.

Lemma sids_in sub slots : Some sub ∈ slots -> es_sid sub ∈ sids slots.
Proof. intros H. apply list_elem_of_omap. by exists (Some sub). Qed.

Definition active_like (slots : list (option EventSubscription)) (sid : cstring) (number : Z) : Prop :=
  forall sub, Some sub ∈ slots -> es_sid sub = sid -> es_seq sub = number.

Definition collected (service : EventService) (slot : option EventSubscription) : option EventNotifyTarget :=
  sub ← slot; if bool_decide (es_service sub = service) then notify_target all_memory sub else None.

Definition advanced (service : EventService) (slot : option EventSubscription) : option EventSubscription :=
  sub ← slot; if bool_decide (es_service sub = service) then Some { sub with es_seq ::= inc32 } else Some sub.

Lemma collect_slots_eq service slots :
  collect_slots all_memory service slots = (omap (collected service) slots, map (advanced service) slots).
Proof.
  induction slots as [|slot slots IH]; [done|]. cbn [collect_slots]. rewrite IH.
  destruct slot as [sub|]; [|done]. cbn. by destruct (bool_decide _).
Qed.

Definition number_of (service : EventService) (sid : cstring) (slot : option EventSubscription) : option Z :=
  sub ← slot; if bool_decide (es_service sub = service /\ es_sid sub = sid) then Some (es_seq sub) else None.

Lemma seqs_collected service sid slots :
  seqs sid (map (fun t => label (t, service)) (omap (collected service) slots)) = omap (number_of service sid) slots.
Proof.
  induction slots as [|slot slots IH]; [done|]. destruct slot as [sub|]; [|done]. cbn. repeat case_bool_decide; cbn; rewrite ?IH.
  all: try case_bool_decide; try naive_solver. by f_equal.
Qed.

Lemma sids_advanced service slots : sids (map (advanced service) slots) = sids slots.
Proof. induction slots as [|[sub|] slots IH]; [done| |done]. cbn. destruct (bool_decide _); cbn; by f_equal. Qed.

Lemma number_of_none service sid slots : sid ∉ sids slots -> omap (number_of service sid) slots = [].
Proof.
  induction slots as [|[sub|] slots IH]; [done| |done]. cbn. intros H. apply not_elem_of_cons in H as [H1 H2].
  rewrite bool_decide_eq_false_2 by naive_solver. by apply IH.
Qed.

Lemma sid_split sid slots : NoDup (sids slots) ->
  sid ∉ sids slots \/ exists l1 sub l2, slots = l1 ++ Some sub :: l2 /\ es_sid sub = sid /\ sid ∉ sids l1 /\ sid ∉ sids l2.
Proof.
  intros Hnd. destruct (decide (sid ∈ sids slots)) as [Hin|]; [right|by left].
  apply list_elem_of_omap in Hin as ([sub|] & Hin & E); [|done]. injection E as E.
  apply list_elem_of_split in Hin as (l1 & l2 & ->). exists l1, sub, l2. do 2 (split; [done|]).
  unfold sids in Hnd. rewrite omap_app in Hnd. cbn in Hnd. apply NoDup_app in Hnd as (_ & H1 & H2).
  apply NoDup_cons in H2 as [H2 _]. rewrite <- E. split; [|done]. intros Hin. apply (H1 _ Hin). by left.
Qed.

(** What one collection does to the numbers of one SID: nothing, or one step. *)
Lemma collect_numbers service sid slots : NoDup (sids slots) ->
  (omap (number_of service sid) slots = [] /\
    forall number, active_like slots sid number -> active_like (map (advanced service) slots) sid number) \/
  exists sub, Some sub ∈ slots /\ es_sid sub = sid /\ omap (number_of service sid) slots = [es_seq sub] /\
    active_like (map (advanced service) slots) sid (inc32 (es_seq sub)).
Proof.
  intros Hnd. destruct (sid_split sid slots Hnd) as [Hno|(l1 & sub & l2 & -> & Hsid & Hl1 & Hl2)].
  - left. split; [by apply number_of_none|]. intros number _ sub Hin E. exfalso. apply Hno.
    rewrite <- (sids_advanced service), <- E. by apply sids_in.
  - assert (Honly : active_like (map (advanced service) (l1 ++ Some sub :: l2)) sid
      (if bool_decide (es_service sub = service) then inc32 (es_seq sub) else es_seq sub)).
    { intros sub' Hin E. rewrite map_app in Hin. cbn [map] in Hin. apply elem_of_app in Hin as [Hin|[Hin|Hin]%elem_of_cons].
      - exfalso. apply Hl1. rewrite <- (sids_advanced service), <- E. by apply sids_in.
      - cbn in Hin. by destruct (bool_decide _); injection Hin as ->.
      - exfalso. apply Hl2. rewrite <- (sids_advanced service), <- E. by apply sids_in. }
    rewrite omap_app. cbn. rewrite (number_of_none _ _ _ Hl1), (number_of_none _ _ _ Hl2).
    assert (Hmem : Some sub ∈ l1 ++ Some sub :: l2) by (apply elem_of_app; right; by left).
    case_bool_decide as Hs; case_bool_decide as Hs'; try naive_solver.
    left. split; [done|]. intros number H sub' Hin E. rewrite (Honly sub' Hin E). by apply (H sub).
Qed.

(** ** The system *)

Record EventSystem := mkSystem {
  y_server : EventServer;
  y_pending : option (list (EventNotifyTarget * EventService));
  y_drawn : Z;
  y_given : list (cstring * Z);
  y_attempted : list (cstring * Z)
}.

(** [y_pending] is what the worker still has to send, [None] without a worker; [y_drawn]
    counts the SIDs drawn; [y_given] are the numbers given so far, each with its SID, and
    [y_attempted] those whose delivery was begun. *)
Definition system_start : EventSystem := mkSystem event_server_zero None 0 [] [].

Inductive event_step : EventSystem -> EventSystem -> Prop :=
| step_request alloc info method path request now_ms response_size x response s :
    event_server_try_handle_http alloc info method path request now_ms response_size (y_server x) = Done (response, s) ->
    event_step x (mkSystem s (y_pending x) (y_drawn x + u32 (g_next_sid s - g_next_sid (y_server x))) (y_given x) (y_attempted x))
| step_player event x :
    event_step x (mkSystem (event_server_on_renderer_event event (y_server x)) (y_pending x) (y_drawn x) (y_given x) (y_attempted x))
| step_start thread x started s :
    event_server_start thread (y_server x) = (started, s) ->
    event_step x (mkSystem s (if g_thread_started (y_server x) then y_pending x else if thread then Some [] else None)
      (y_drawn x) (y_given x) (y_attempted x))
| step_collect alloc now_ms x targets s :
    y_pending x = Some [] -> event_worker_wakes (y_server x) = true -> g_stop_requested (y_server x) = false ->
    event_worker_collect alloc now_ms (y_server x) = (targets, s) ->
    event_step x (mkSystem s (Some targets) (y_drawn x)
      (y_given x ++ map label (event_worker_collect all_memory now_ms (y_server x)).1) (y_attempted x))
| step_send p rest x :
    y_pending x = Some (p :: rest) -> g_stop_requested (y_server x) = false ->
    event_step x (mkSystem (y_server x) (Some rest) (y_drawn x) (y_given x) (y_attempted x ++ [label p]))
| step_give_up l x :
    y_pending x = Some l -> g_stop_requested (y_server x) = true ->
    event_step x (mkSystem (y_server x) None (y_drawn x) (y_given x) (y_attempted x))
| step_stop_begin x s :
    event_stop_begin (y_server x) = (true, s) ->
    event_step x (mkSystem s (y_pending x) (y_drawn x) (y_given x) (y_attempted x))
| step_stop_finish x :
    y_pending x = None -> g_stop_requested (y_server x) = true -> g_thread_started (y_server x) = true ->
    event_step x (mkSystem (event_stop_finish (y_server x)) None (y_drawn x) (y_given x) (y_attempted x)).

Definition event_reachable (x : EventSystem) : Prop := rtc event_step system_start x.

(** ** SIDs *)

Lemma zeros_value k l : decimal_value (repeat 48 k ++ l) = decimal_value l.
Proof. unfold decimal_value. rewrite foldl_app. f_equal. induction k as [|k IH]; [done|]. exact IH. Qed.

Lemma event_sid_inj n m : is_u32 n -> is_u32 m -> event_sid n = event_sid m -> n = m.
Proof.
  unfold event_sid, format_08u, is_u32, UINT32_MAX. intros Hn Hm H%app_inv_head. apply (f_equal decimal_value) in H.
  rewrite !zeros_value in H. unfold format_u in H.
  destruct (decimal_spec 20 n) as (_ & _ & En & _); [lia..|]. destruct (decimal_spec 20 m) as (_ & _ & Em & _); [lia..|]. congruence.
Qed.

(** The SIDs drawn so far. *)
Definition issued (drawn : Z) (sid : cstring) : Prop := exists j, 0 <= j < drawn /\ sid = event_sid (u32 (1 + j)).

Lemma next_sid_fresh drawn : 0 <= drawn < 2 ^ 32 -> ~ issued drawn (event_sid (u32 (1 + drawn))).
Proof.
  intros Hd (j & Hj & E). apply event_sid_inj in E; [|apply u32_range..]. unfold u32 in E. lia.
Qed.

Lemma issued_mono drawn drawn' sid : drawn <= drawn' -> issued drawn sid -> issued drawn' sid.
Proof. intros H (j & Hj & E). exists j. split; [lia|done]. Qed.

(** ** The numbering *)

Definition first_numbers (k : nat) : list Z := map u32 (seqZ 0 (Z.of_nat k)).

Lemma first_numbers_S k : first_numbers (S k) = first_numbers k ++ [u32 (Z.of_nat k)].
Proof. unfold first_numbers. by rewrite seqZ_S, map_app. Qed.

(** Every SID was given an initial run of numbers, and a subscription goes on from there. *)
Definition numbered (drawn : Z) (slots : list (option EventSubscription)) (given : list (cstring * Z)) : Prop :=
  NoDup (sids slots) /\ (forall sub, Some sub ∈ slots -> issued drawn (es_sid sub)) /\
  forall sid, exists k : nat, seqs sid given = first_numbers k /\ (k <> 0%nat -> issued drawn sid) /\ active_like slots sid (u32 (Z.of_nat k)).

(** A slot that was emptied or kept, perhaps with another expiry. *)
Definition kept (slot slot' : option EventSubscription) : Prop :=
  match slot' with None => True | Some sub' => exists sub, slot = Some sub /\ es_sid sub' = es_sid sub /\ es_seq sub' = es_seq sub end.

Lemma kept_refl slots : Forall2 kept slots slots.
Proof. apply Forall_Forall2_diag, Forall_true. intros [sub|]; [by exists sub|done]. Qed.

Lemma kept_sids slots slots' : Forall2 kept slots slots' -> sids slots' `sublist_of` sids slots.
Proof.
  induction 1 as [|slot [sub'|] slots slots' H _ IH]; [done| |].
  - destruct H as (sub & -> & E & _). cbn. rewrite E. by constructor.
  - destruct slot; cbn; [by constructor|done].
Qed.

Lemma kept_in slots slots' sub' : Forall2 kept slots slots' -> Some sub' ∈ slots' ->
  exists sub, Some sub ∈ slots /\ es_sid sub' = es_sid sub /\ es_seq sub' = es_seq sub.
Proof.
  intros H Hin. apply list_elem_of_lookup in Hin as [i Hi]. destruct (Forall2_lookup_r _ _ _ _ _ H Hi) as (slot & Hs & (sub & -> & E)).
  exists sub. split; [by eapply list_elem_of_lookup_2|done].
Qed.

Lemma numbered_kept drawn slots slots' given : Forall2 kept slots slots' -> numbered drawn slots given -> numbered drawn slots' given.
Proof.
  intros Hk (Hnd & Hi & Hn). split; [eapply sublist_NoDup; [done|by apply kept_sids]|]. split.
  - intros sub' H. destruct (kept_in _ _ _ Hk H) as (sub & Hin & -> & _). by apply Hi.
  - intros sid. destruct (Hn sid) as (k & Hg & Hd & Ha). exists k. split_and!; [done..|].
    intros sub' H E. destruct (kept_in _ _ _ Hk H) as (sub & Hin & Es & ->). apply Ha; [done|congruence].
Qed.

Lemma numbered_cleared drawn slots given : numbered drawn slots given -> numbered drawn no_subscriptions given.
Proof.
  intros (_ & _ & Hn). assert (Hno : forall sub, Some sub ∉ no_subscriptions).
  { intros sub [i Hi]%list_elem_of_lookup. by apply lookup_repeat in Hi. }
  split; [apply NoDup_nil_2|]. split; [by intros sub H%Hno|]. intros sid. destruct (Hn sid) as (k & Hg & Hd & _).
  exists k. split_and!; [done..|]. by intros sub H%Hno.
Qed.

Lemma numbered_drawn drawn drawn' slots given : drawn <= drawn' -> numbered drawn slots given -> numbered drawn' slots given.
Proof.
  intros H (Hnd & Hi & Hn). split; [done|]. split; [intros sub Hin; eapply issued_mono; [done|by apply Hi]|].
  intros sid. destruct (Hn sid) as (k & Hg & Hd & Ha). exists k. split_and!; [done| |done]. intros Hk. eapply issued_mono; [done|by apply Hd].
Qed.

(** A subscription with the SID drawn now takes a free slot. *)
Lemma numbered_new drawn slots given i sub : 0 <= drawn < 2 ^ 32 -> slots !! i = Some None ->
  es_sid sub = event_sid (u32 (1 + drawn)) -> es_seq sub = 0 ->
  numbered drawn slots given -> numbered (drawn + 1) (<[i := Some sub]> slots) given.
Proof.
  intros Hd Hfree Hsid Hseq (Hnd & Hi & Hn).
  assert (Hfresh : ~ issued drawn (es_sid sub)) by (rewrite Hsid; by apply next_sid_fresh).
  assert (Hnew : issued (drawn + 1) (es_sid sub)) by (exists drawn; split; [lia|done]).
  assert (Hin : forall sub', Some sub' ∈ <[i := Some sub]> slots -> sub' = sub \/ Some sub' ∈ slots).
  { intros sub' [j Hj]%list_elem_of_lookup. apply list_lookup_insert_Some in Hj as [(_ & [= ->] & _)|[_ Hj]]; [by left|right].
    by eapply list_elem_of_lookup_2. }
  split; [|split].
  - destruct (list_elem_of_split_length _ _ _ Hfree) as (l1 & l2 & -> & ->). rewrite insert_app_r_alt, Nat.sub_diag by lia.
    cbn. unfold sids in *. rewrite omap_app in *. cbn in *. apply NoDup_app in Hnd as (H1 & H2 & H3).
    apply NoDup_app. split_and!; [done| |].
    + intros x Hx [->|Hx2]%elem_of_cons; [|by apply (H2 x)]. apply list_elem_of_omap in Hx as ([s|] & Hs & [= E]).
      apply Hfresh. rewrite <- E. apply Hi, elem_of_app. by left.
    + apply NoDup_cons. split; [|done]. intros Hx. apply list_elem_of_omap in Hx as ([s|] & Hs & [= E]).
      apply Hfresh. rewrite <- E. apply Hi, elem_of_app. right. by right.
  - intros sub' [->|H]%Hin; [done|]. eapply issued_mono; [|by apply Hi]. lia.
  - intros sid. destruct (Hn sid) as (k & Hg & Hk & Ha). exists k. split_and!; [done| |].
    + intros H. eapply issued_mono; [|by apply Hk]. lia.
    + intros sub' [->|H]%Hin E; [|by apply Ha]. rewrite Hseq. destruct k as [|k]; [done|]. exfalso. apply Hfresh. rewrite E. by apply Hk.
Qed.

Lemma numbered_collect drawn slots given service : numbered drawn slots given ->
  numbered drawn (map (advanced service) slots) (given ++ map (fun t => label (t, service)) (omap (collected service) slots)).
Proof.
  intros (Hnd & Hi & Hn). split; [by rewrite sids_advanced|]. split.
  - intros sub' Hin. apply sids_in in Hin. rewrite sids_advanced in Hin. apply list_elem_of_omap in Hin as ([sub|] & Hin & [= <-]). by apply Hi.
  - intros sid. destruct (Hn sid) as (k & Hg & Hd & Ha). rewrite seqs_app, Hg, seqs_collected.
    destruct (collect_numbers service sid slots Hnd) as [[-> Hkeep]|(sub & Hin & Hsid & -> & Hnext)].
    + exists k. rewrite app_nil_r. split_and!; [done..|by apply Hkeep].
    + exists (S k). rewrite first_numbers_S, (Ha sub Hin Hsid). split_and!; [done|intros _; rewrite <- Hsid; by apply Hi|].
      intros sub' H E. rewrite (Hnext sub' H E), (Ha sub Hin Hsid). unfold inc32. rewrite Nat2Z.inj_succ. unfold u32. lia.
Qed.

(** ** Requests *)

Lemma try_header_done alloc request header : exists o, try_header alloc request header = Done o.
Proof.
  unfold try_header, event_get_header_value_alloc. generalize (find_header_ends (S (length request)) (bytes header) request (Nat.lt_succ_diag_r _)).
  destruct (find_header _ _ _) as [[line|]|]; intros H; [|by exists None|done].
  destruct (alloc _); cbn; [|by exists None]. case_bool_decide; by eexists.
Qed.

(** The timeouts granted are between a minute and an hour. *)
Lemma timeout_bounds alloc request : safe (event_parse_timeout_seconds alloc request) (fun seconds => 60 <= seconds <= 3600).
Proof.
  unfold event_parse_timeout_seconds. destruct (try_header_done alloc request "TIMEOUT") as [o ->]. cbn [mbind outcome_bind].
  destruct o as [timeout|]; [|by vm_compute]. unfold timeout_of_text. destruct (strcasecmp_equal _ _); [by vm_compute|].
  destruct (strtol_end _) as [seconds rest]. destruct (bool_decide _ && _); cbn [ensure mbind outcome_bind safe]; [|done].
  unfold EVENT_MIN_TIMEOUT_SECONDS, EVENT_MAX_TIMEOUT_SECONDS.
  destruct (Z.ltb_spec seconds 60); [by vm_compute|]. by destruct (Z.ltb_spec 3600 seconds).
Qed.

Lemma some_or_refused_safe {A} (o : option A) : safe (some_or_refused o) (fun _ => True).
Proof. by destruct o. Qed.

Lemma ensure_safe b : safe (ensure b) (fun _ => True).
Proof. by destruct b. Qed.

Lemma ensured_safe {A} b (k : outcome A) : safe k (fun _ => True) -> safe (ensure b;; k) (fun _ => True).
Proof. by destruct b. Qed.

Lemma bracket_safe value : safe (strip_brackets value) (fun _ => True).
Proof.
  unfold strip_brackets. destruct value as [|c rest]; [done|]. destruct (decide (c = 60)) as [->|]; [by apply ensured_safe|].
  by repeat (case_match; try done).
Qed.

Lemma port_safe after_host path_start : safe (parse_port after_host path_start) (fun _ => True).
Proof.
  unfold parse_port. destruct after_host as [|c text]; [done|]. destruct (decide (c = 58)) as [->|].
  - destruct (strtol_end text) as [p rest]. by apply ensured_safe.
  - by repeat (case_match; try done).
Qed.

Lemma callback_safe alloc header_value : safe (event_parse_callback_url alloc header_value) (fun _ => True).
Proof.
  unfold event_parse_callback_url. eapply safe_bind; [apply some_or_refused_safe|intros value _].
  eapply safe_bind; [apply bracket_safe|intros value' _]. apply ensured_safe.
  destruct (span _ _) as [authority path_start]. destruct (span _ authority) as [host after_host]. apply ensured_safe.
  eapply safe_bind; [apply some_or_refused_safe|intros host' _]. eapply safe_bind; [apply port_safe|intros port _].
  eapply safe_bind; [apply some_or_refused_safe|intros path _]. by eapply safe_bind; [apply some_or_refused_safe|].
Qed.

Definition refusals : list (Z * string) :=
  [(400, "Bad Request"); (405, "Method Not Allowed"); (412, "Precondition Failed"); (503, "Service Unavailable")].

Lemma found_subscription sid s i : event_find_subscription_by_sid_locked sid s = Some i ->
  exists sub, g_subscriptions s !! i = Some (Some sub).
Proof.
  unfold event_find_subscription_by_sid_locked. destruct (bool_decide _); [done|]. intros ([sub|] & Hs & Hsid)%find_entry_some; [|done]. by exists sub.
Qed.

(** What a request comes to. *)
Inductive answers (alloc : Z -> bool) (info : cstring) (n : Z) (s : EventServer) : option cstring -> EventServer -> Prop :=
| answers_nothing : answers alloc info n s None s
| answers_refused status text s' : (status, text) ∈ refusals -> (s' = s \/ s' = { s with g_next_sid ::= inc32 }) ->
    answers alloc info n s (event_build_response info status (bytes text) [] [] n) s'
| answers_renewed sid seconds now_ms : event_find_subscription_by_sid_locked sid s <> None -> 60 <= seconds <= 3600 ->
    answers alloc info n s (event_renew alloc info sid seconds now_ms n s).1 (event_renew alloc info sid seconds now_ms n s).2
| answers_removed i sub : g_subscriptions s !! i = Some (Some sub) ->
    answers alloc info n s (event_build_response info 200 (bytes "OK") [] [] n) { s with g_subscriptions ::= <[i := None]> }
| answers_granted service callback seconds now_ms i sub :
    event_find_free_subscription_locked s = Some i -> 60 <= seconds <= 3600 ->
    new_subscription alloc service callback (g_next_sid s) (expiry_from now_ms seconds) = Some sub ->
    answers alloc info n s (event_grant alloc info service callback seconds now_ms n s).1 (event_grant alloc info service callback seconds now_ms n s).2.

Lemma refused_answer alloc info n s status text : (status, text) ∈ refusals -> answers alloc info n s (event_build_response info status (bytes text) [] [] n) s.
Proof. intros H. apply (answers_refused _ _ _ _ status text); [done|by left]. Qed.

Lemma grant_answers alloc info service callback seconds now_ms n s : 60 <= seconds <= 3600 ->
  answers alloc info n s (event_grant alloc info service callback seconds now_ms n s).1 (event_grant alloc info service callback seconds now_ms n s).2.
Proof.
  intros Hs. destruct (event_find_free_subscription_locked s) as [i|] eqn:Ef.
  - destruct (new_subscription alloc service callback (g_next_sid s) (expiry_from now_ms seconds)) as [sub|] eqn:En; [by eapply answers_granted|].
    unfold event_grant. rewrite Ef, En. apply (answers_refused _ _ _ _ 503 "Service Unavailable"); [|by right]. apply (bool_decide_unpack _). by vm_compute.
  - unfold event_grant. rewrite Ef. apply refused_answer. apply (bool_decide_unpack _). by vm_compute.
Qed.

#[local] Hint Extern 1 ((_, _) ∈ refusals) => (apply (bool_decide_unpack _); by vm_compute) : core.
#[local] Hint Resolve refused_answer grant_answers : core.

Lemma subscribe_answers alloc info request service now_ms n s :
  exists response s', event_handle_subscribe alloc info request service now_ms n s = Done (response, s') /\ answers alloc info n s response s'.
Proof.
  unfold event_handle_subscribe. pose proof (timeout_bounds alloc request) as Ht.
  destruct (event_parse_timeout_seconds alloc request) as [seconds| |]; [|eexists _, _; split; [done|auto]|done].
  destruct (try_header_done alloc request "SID") as [sid ->]. cbn [mbind outcome_bind]. destruct sid as [sid|].
  { destruct (event_find_subscription_by_sid_locked sid s) as [i|] eqn:Ef.
    - eexists _, _. split; [by rewrite (surjective_pairing (event_renew _ _ _ _ _ _ _))|]. apply answers_renewed; [by rewrite Ef|exact Ht].
    - unfold event_renew. rewrite Ef. eexists _, _. split; [done|auto]. }
  destruct (try_header_done alloc request "CALLBACK") as [callback ->]. cbn [mbind outcome_bind].
  destruct callback as [callback|]; [|eexists _, _; split; [done|auto]].
  destruct (try_header_done alloc request "NT") as [nt ->]. cbn [mbind outcome_bind].
  destruct nt as [nt|]; [|eexists _, _; split; [done|auto]]. destruct (strcasecmp_equal _ _); cbn [negb]; [|eexists _, _; split; [done|auto]].
  pose proof (callback_safe alloc callback) as Hc. destruct (event_parse_callback_url alloc callback); [|eexists _, _; split; [done|auto]|done].
  eexists _, _. split; [by rewrite (surjective_pairing (event_grant _ _ _ _ _ _ _ _))|auto].
Qed.

Lemma request_answers alloc info method path request now_ms n s :
  exists response s', event_server_try_handle_http alloc info method path request now_ms n s = Done (response, s') /\
    answers alloc info n s response s'.
Proof.
  unfold event_server_try_handle_http. destruct (event_service_from_path path) as [service|]; [|by eexists _, _; split; [done|constructor]].
  destruct (strcasecmp_equal _ _); [destruct request; [apply subscribe_answers|by eexists _, _; split; [done|constructor]]|].
  destruct (strcasecmp_equal _ _); [destruct request as [request|]; [|by eexists _, _; split; [done|constructor]]|].
  - unfold event_handle_unsubscribe. destruct (try_header_done alloc request "SID") as [[sid|] ->]; cbn [mbind outcome_bind];
      [|eexists _, _; split; [done|auto]].
    destruct (event_find_subscription_by_sid_locked sid s) as [i|] eqn:Ef; eexists _, _; (split; [done|]); [|auto].
    apply found_subscription in Ef as (sub & Hi). by apply (answers_removed _ _ _ _ i sub).
  - eexists _, _. split; [done|auto].
Qed.










(** ** Every subscriber's notifications are numbered *)

Lemma kept_alter f i slots : (forall sub, es_sid (f sub) = es_sid sub /\ es_seq (f sub) = es_seq sub) ->
  Forall2 kept slots (alter (fmap f) i slots).
Proof.
  intros Hf. revert i. induction slots as [|slot slots IH]; intros i; [constructor|]. destruct i as [|i].
  - change (alter (fmap f) 0%nat (slot :: slots)) with ((f <$> slot) :: slots). constructor; [|apply kept_refl].
    destruct slot as [sub|]; cbn; [|done]. exists sub. split; [done|apply Hf].
  - change (alter (fmap f) (S i) (slot :: slots)) with (slot :: alter (fmap f) i slots). constructor; [|apply IH].
    destruct slot as [sub|]; [by exists sub|done].
Qed.

Lemma kept_removed i slots : Forall2 kept slots (<[i := None]> slots).
Proof.
  revert i. induction slots as [|slot slots IH]; intros i; [constructor|]. destruct i as [|i]; cbn.
  - constructor; [done|apply kept_refl].
  - constructor; [|apply IH]. destruct slot as [sub|]; [by exists sub|done].
Qed.

Lemma kept_pruned now_ms slots : Forall2 kept slots
  (map (fun slot : option EventSubscription => slot ≫= fun sub => if es_expiry_ms sub <=? now_ms then None else Some sub) slots).
Proof.
  induction slots as [|slot slots IH]; [constructor|]. cbn. constructor; [|exact IH]. destruct slot as [sub|]; cbn; [|done].
  destruct (_ <=? _); [done|by exists sub].
Qed.

Lemma new_subscription_some alloc service callback number expiry_ms sub :
  new_subscription alloc service callback number expiry_ms = Some sub ->
  sub = mkSubscription service (event_sid number) (cb_normalized callback) (cb_host callback) (cb_port callback) (cb_path callback) 0 expiry_ms.
Proof.
  unfold new_subscription, soap_handler_strdup_printf, strdup.
  intros H. simplify_option_eq. by repeat (case_match; simplify_eq).
Qed.

Lemma mark_subscriptions service s : g_subscriptions (event_mark_dirty_locked service s) = g_subscriptions s /\
  g_next_sid (event_mark_dirty_locked service s) = g_next_sid s /\ g_thread_started (event_mark_dirty_locked service s) = g_thread_started s /\
  g_stop_requested (event_mark_dirty_locked service s) = g_stop_requested s.
Proof. by destruct service. Qed.

(** What an answer does to the table. *)
Lemma answer_effect alloc info n s response s' : answers alloc info n s response s' ->
  Forall2 kept (g_subscriptions s) (g_subscriptions s') /\ (g_next_sid s' = g_next_sid s \/ g_next_sid s' = inc32 (g_next_sid s)) \/
  exists i sub, g_subscriptions s !! i = Some None /\ g_subscriptions s' = <[i := Some sub]> (g_subscriptions s) /\
    es_sid sub = event_sid (g_next_sid s) /\ es_seq sub = 0 /\ g_next_sid s' = inc32 (g_next_sid s).
Proof.
  destruct 1 as [|status t s' Hin [->| ->]|sid seconds now' Hf _|i _ _|service callback seconds now' i sub Hf _ Hn].
  - left. split; [apply kept_refl|by left].
  - left. split; [apply kept_refl|by left].
  - left. split; [apply kept_refl|by right].
  - left. unfold event_renew. destruct (event_find_subscription_by_sid_locked sid s) as [j|]; [|done]. split; [|by left].
    cbn [g_subscriptions snd]. by apply kept_alter.
  - left. split; [apply kept_removed|by left].
  - right. unfold event_grant. rewrite Hf, Hn. cbn [snd]. exists i, sub. destruct (mark_subscriptions service
      (upd g_subscriptions <[i := Some sub]> (upd g_next_sid inc32 s))) as (-> & -> & _).
    apply new_subscription_some in Hn as ->. split_and!; try done.
    apply find_entry_some in Hf as (slot & Hs & Hfree). by destruct slot.
Qed.

Definition system_ok (x : EventSystem) : Prop :=
  0 <= y_drawn x /\ g_next_sid (y_server x) = u32 (1 + y_drawn x) /\
  (y_drawn x <= 2 ^ 32 -> numbered (y_drawn x) (g_subscriptions (y_server x)) (y_given x)) /\
  (y_attempted x ++ map label (default [] (y_pending x))) `sublist_of` y_given x.

Lemma request_step_ok alloc info n x response s : answers alloc info n (y_server x) response s -> system_ok x ->
  system_ok (mkSystem s (y_pending x) (y_drawn x + u32 (g_next_sid s - g_next_sid (y_server x))) (y_given x) (y_attempted x)).
Proof.
  intros H%answer_effect (Hd & Hnext & Hnum & Hlog). destruct H as [[Hk Hs]|(i & sub & Hi & Hsub & Hsid & Hseq & Hs)].
  - destruct Hs as [Hs|Hs]; (split; cbn; [|split; [|split; [|done]]]); rewrite ?Hs, ?Hnext; unfold inc32.
    + pose proof (u32_range (u32 (1 + y_drawn x) - u32 (1 + y_drawn x))). unfold is_u32 in *. lia.
    + rewrite Z.sub_diag. change (u32 0) with 0. f_equal. lia.
    + rewrite Z.sub_diag. change (u32 0) with 0. rewrite Z.add_0_r. intros Hb. eapply numbered_kept; [done|by apply Hnum].
    + pose proof (u32_range (u32 (u32 (1 + y_drawn x) + 1) - u32 (1 + y_drawn x))). unfold is_u32 in *. lia.
    + unfold u32. lia.
    + replace (u32 (u32 (u32 (1 + y_drawn x) + 1) - u32 (1 + y_drawn x))) with 1 by (unfold u32; lia).
      intros Hb. eapply numbered_kept; [done|]. eapply numbered_drawn; [|apply Hnum]; lia.
  - assert (E : u32 (g_next_sid s - g_next_sid (y_server x)) = 1) by (rewrite Hs, Hnext; unfold inc32, u32; lia).
    split; cbn; [|split; [|split; [|done]]]; rewrite E; [lia|rewrite Hs, Hnext; unfold inc32, u32; lia|].
    intros Hb. rewrite Hsub. apply numbered_new; [lia|done|by rewrite Hsid, Hnext|done|apply Hnum; lia].
Qed.

Lemma collect_targets_eq alloc now_ms service s : exists slots,
  Forall2 kept (g_subscriptions s) slots /\
  (event_collect_targets_locked alloc now_ms service s).1 `sublist_of` omap (collected service) slots /\
  event_collect_targets_locked all_memory now_ms service s = (omap (collected service) slots, { s with g_subscriptions := map (advanced service) slots }) /\
  (event_collect_targets_locked alloc now_ms service s).2 = { s with g_subscriptions := map (advanced service) slots }.
Proof.
  unfold event_collect_targets_locked. set (slots := g_subscriptions (event_prune_expired_locked now_ms s)). exists slots.
  split; [apply kept_pruned|]. destruct (collect_slots_memory alloc service slots) as [H1 H2]. rewrite collect_slots_eq in *.
  destruct (collect_slots alloc service slots) as [ts r]. cbn in *. by subst r.
Qed.

(** One service: the numbers are given whatever the memory. *)
Lemma collect_if_ok alloc due service clear now_ms s : (forall s, g_subscriptions (clear s) = g_subscriptions s) ->
  map label (collect_if alloc due service clear now_ms s).1 `sublist_of` map label (collect_if all_memory due service clear now_ms s).1 /\
  (collect_if alloc due service clear now_ms s).2 = (collect_if all_memory due service clear now_ms s).2 /\
  forall drawn given, numbered drawn (g_subscriptions s) given ->
    numbered drawn (g_subscriptions (collect_if all_memory due service clear now_ms s).2)
      (given ++ map label (collect_if all_memory due service clear now_ms s).1).
Proof.
  intros Hclear. unfold collect_if. destruct due; [|split_and!; [done|done|]; intros; cbn; by rewrite app_nil_r].
  destruct (collect_targets_eq alloc (now_ms service) service s) as (slots & Hk & Hsub & -> & E2).
  destruct (event_collect_targets_locked alloc (now_ms service) service s) as [ts s']. cbn in Hsub, E2 |- *. subst s'. split_and!.
  - apply fmap_sublist. cbn. by apply fmap_sublist.
  - done.
  - intros drawn given Hn. cbn. rewrite Hclear. cbn. rewrite map_map. apply numbered_collect. by eapply numbered_kept.
Qed.

Lemma worker_collect_ok alloc now_ms s :
  map label (event_worker_collect alloc now_ms s).1 `sublist_of` map label (event_worker_collect all_memory now_ms s).1 /\
  (event_worker_collect alloc now_ms s).2 = (event_worker_collect all_memory now_ms s).2 /\
  forall drawn given, numbered drawn (g_subscriptions s) given ->
    numbered drawn (g_subscriptions (event_worker_collect alloc now_ms s).2) (given ++ map label (event_worker_collect all_memory now_ms s).1).
Proof.
  unfold event_worker_collect.
  destruct (collect_if_ok alloc (g_avtransport_state_dirty s) EVENT_SERVICE_AVTRANSPORT (fun s => { s with g_avtransport_state_dirty := false }) now_ms s ltac:(done)) as (A1 & A2 & A3).
  destruct (collect_if alloc _ EVENT_SERVICE_AVTRANSPORT _ _ _) as [avt s1], (collect_if all_memory _ EVENT_SERVICE_AVTRANSPORT _ _ _) as [avt' s1'].
  cbn in A1, A2, A3. subst s1'.
  destruct (collect_if_ok alloc (g_renderingcontrol_dirty s) EVENT_SERVICE_RENDERINGCONTROL (fun s => { s with g_renderingcontrol_dirty := false }) now_ms s1 ltac:(done)) as (B1 & B2 & B3).
  destruct (collect_if alloc _ EVENT_SERVICE_RENDERINGCONTROL _ _ _) as [rc s2], (collect_if all_memory _ EVENT_SERVICE_RENDERINGCONTROL _ _ _) as [rc' s2'].
  cbn in B1, B2, B3. subst s2'.
  destruct (collect_if_ok alloc (g_connectionmanager_dirty s) EVENT_SERVICE_CONNECTIONMANAGER (fun s => { s with g_connectionmanager_dirty := false }) now_ms s2 ltac:(done)) as (C1 & C2 & C3).
  destruct (collect_if alloc _ EVENT_SERVICE_CONNECTIONMANAGER _ _ _) as [cm s3], (collect_if all_memory _ EVENT_SERVICE_CONNECTIONMANAGER _ _ _) as [cm' s3'].
  cbn in C1, C2, C3. subst s3'. cbn. rewrite !map_app. split_and!; [by repeat apply sublist_app|done|].
  intros drawn given Hn. rewrite !app_assoc. by apply C3, B3, A3.
Qed.

Lemma collect_if_next alloc due service clear now_ms s : (forall s, g_next_sid (clear s) = g_next_sid s) ->
  g_next_sid (collect_if alloc due service clear now_ms s).2 = g_next_sid s.
Proof.
  intros Hc. unfold collect_if, event_collect_targets_locked. destruct due; [|done]. destruct (collect_slots _ _ _). cbn. by rewrite Hc.
Qed.

Lemma worker_collect_next alloc now_ms s : g_next_sid (event_worker_collect alloc now_ms s).2 = g_next_sid s.
Proof.
  unfold event_worker_collect. destruct (collect_if alloc _ EVENT_SERVICE_AVTRANSPORT _ _ _) as [avt s1] eqn:E1.
  destruct (collect_if alloc _ EVENT_SERVICE_RENDERINGCONTROL _ _ _) as [rc s2] eqn:E2.
  destruct (collect_if alloc _ EVENT_SERVICE_CONNECTIONMANAGER _ _ _) as [cm s3] eqn:E3. cbn.
  apply (f_equal snd) in E1, E2, E3. cbn in E1, E2, E3. subst s3 s2 s1. by rewrite !collect_if_next.
Qed.

Lemma step_system_ok x y : event_step x y -> system_ok x -> system_ok y.
Proof.
  intros Hstep Hok. pose proof Hok as (Hd & Hnext & Hnum & Hlog).
  destruct Hstep as [alloc info method path request now_ms n x response s H|event x|thread x started s H|alloc now_ms x targets s Hp _ _ H|p rest x Hp _|l x Hp _|x s H|x Hp _ _].
  - destruct (request_answers alloc info method path request now_ms n (y_server x)) as (r & s' & E & Ha).
    assert (Es : (r, s') = (response, s)) by congruence. injection Es as -> ->. by eapply request_step_ok.
  - unfold system_ok. cbn. destruct event; cbn; try done.
  - unfold event_server_start in H. destruct (g_thread_started (y_server x)); [by injection H as _ <-|].
    destruct thread; injection H as _ <-.
    all: split; [done|split; [done|split; [intros Hb; cbn; by eapply numbered_cleared, Hnum|]]]; cbn.
    all: rewrite app_nil_r; etrans; [apply sublist_inserts_r, reflexivity|exact Hlog].
  - destruct (worker_collect_ok alloc now_ms (y_server x)) as (H1 & H2 & H3). rewrite H in H1, H2, H3. cbn in H1, H2, H3.
    pose proof (worker_collect_next alloc now_ms (y_server x)) as Hn. rewrite H in Hn. cbn in Hn.
    split_and!; cbn; [done|congruence|intros Hb; by apply H3, Hnum|]. rewrite Hp in Hlog. cbn in Hlog. rewrite app_nil_r in Hlog. by apply sublist_app.
  - rewrite Hp in Hlog. split_and!; [done..|]. cbn in *. by rewrite <- app_assoc.
  - split_and!; [done..|]. cbn. rewrite app_nil_r. etrans; [apply sublist_inserts_r, reflexivity|exact Hlog].
  - unfold event_stop_begin in H. destruct (g_thread_started (y_server x)); [|done]. by injection H as <-.
  - split_and!; [done|done| |by rewrite Hp in Hlog]. intros Hb. cbn. by eapply numbered_cleared, Hnum.
Qed.

Lemma event_reachable_ok x : event_reachable x -> system_ok x.
Proof.
  intros H. assert (H0 : system_ok system_start).
  { split_and!; [done|done| |done]. intros _. split; [apply NoDup_nil_2|]. split.
    - intros sub [i Hi]%list_elem_of_lookup. by apply lookup_repeat in Hi.
    - intros sid. exists 0%nat. split_and!; [done|done|]. intros sub [i Hi]%list_elem_of_lookup. by apply lookup_repeat in Hi. }
  revert H0. unfold event_reachable in H. induction H as [|x y z Hxy _ IH]; [done|]. intros Hx. apply IH. by eapply step_system_ok.
Qed.

(** C36: However requests, player events, starts, stops and the worker interleave and
    wherever memory runs out, as long as fewer than 2^32 SIDs were drawn: the numbers
    given to the notifications of one subscription are 0, 1, 2, ... without a gap, and the
    notifications whose delivery was begun are among them, each at most once and all in
    the order in which they were given their numbers. *)
Theorem notifications_are_numbered x : event_reachable x -> y_drawn x <= 2 ^ 32 ->
  (forall sid, exists k : nat, seqs sid (y_given x) = map u32 (seqZ 0 (Z.of_nat k))) /\ y_attempted x `sublist_of` y_given x.
Proof.
  intros (_ & _ & Hnum & Hlog)%event_reachable_ok Hd. destruct (Hnum Hd) as (_ & _ & Hn). split.
  - intros sid. destruct (Hn sid) as (k & Hg & _). by exists k.
  - etrans; [apply sublist_inserts_r, reflexivity|exact Hlog].
Qed.

(** ** The first event *)












(** Subscriptions that expired keep their slots until events are collected: a table full
    of them makes the server refuse. *)
Lemma expired_table_refuses alloc info service callback seconds now_ms n s :
  (forall slot, slot ∈ g_subscriptions s -> exists sub, slot = Some sub /\ es_expiry_ms sub <= now_ms) ->
  event_grant alloc info service callback seconds now_ms n s = (event_build_response info 503 (bytes "Service Unavailable") [] [] n, s).
Proof.
  intros Hfull. unfold event_grant. destruct (event_find_free_subscription_locked s) as [i|] eqn:Ef; [|done].
  apply find_entry_some in Ef as (slot & Hi & Hfree). apply list_elem_of_lookup_2 in Hi. by apply Hfull in Hi as (sub & -> & _).
Qed.

(** ** A run *)

Definition lines (l : list string) : cstring := l ≫= fun x => bytes x ++ crlf.

Definition subscribe_request : cstring := lines
  ["SUBSCRIBE /upnp/event/AVTransport HTTP/1.1"; "HOST: 192.168.1.4:49152"; "CALLBACK: <http://192.168.1.9:8058/event/7>"; "NT: upnp:event"; "TIMEOUT: Second-300"; ""]%string.

Definition event_path : cstring := bytes "/upnp/event/AVTransport".
Definition demo_info : cstring := bytes "Switch UPnP/1.0".

Definition demo_ask (now_ms : Z) (s : EventServer) : option cstring * EventServer :=
  match event_server_try_handle_http all_memory demo_info (bytes "SUBSCRIBE") event_path (Some subscribe_request) now_ms 2048 s with
  | Done r => r
  | _ => (None, s)
  end.

Definition demo_started : EventServer := (event_server_start true event_server_zero).2.
Definition demo_one : EventServer := (demo_ask 1000 demo_started).2.
Definition demo_two : EventServer := (demo_ask 2000 demo_one).2.

(** The worker collects three times: for the new subscribers and for two changes. *)
Definition demo_round (s : EventServer) : list (EventNotifyTarget * EventService) * EventServer := event_worker_collect all_memory (fun _ => 3000) s.
Definition demo_changed (s : EventServer) : EventServer := event_server_on_renderer_event PLAYER_EVENT_STATE_CHANGED s.
Definition demo_first := demo_round demo_two.
Definition demo_second := demo_round (demo_changed demo_first.2).


Definition demo_given1 : list (cstring * Z) := map label demo_first.1.
Definition demo_given2 : list (cstring * Z) := demo_given1 ++ map label demo_second.1.

(** The states of the run. *)
Definition demo_a := mkSystem demo_started (Some []) 0 [] [].
Definition demo_b := mkSystem demo_one (Some []) 1 [] [].
Definition demo_c := mkSystem demo_two (Some []) 2 [] [].
Definition demo_d := mkSystem demo_first.2 (Some demo_first.1) 2 demo_given1 [].
Definition demo_e := mkSystem demo_first.2 (Some (drop 1 demo_first.1)) 2 demo_given1 (take 1 demo_given1).
Definition demo_f := mkSystem demo_first.2 (Some []) 2 demo_given1 demo_given1.
Definition demo_g := mkSystem (demo_changed demo_first.2) (Some []) 2 demo_given1 demo_given1.
Definition demo_h := mkSystem demo_second.2 (Some demo_second.1) 2 demo_given2 demo_given1.
Definition demo_sent := mkSystem demo_second.2 (Some (drop 1 demo_second.1)) 2 demo_given2 (take 3 demo_given2).

Lemma request_to now_ms x y : demo_ask now_ms (y_server x) = ((demo_ask now_ms (y_server x)).1, y_server y) ->
  event_server_try_handle_http all_memory demo_info (bytes "SUBSCRIBE") event_path (Some subscribe_request) now_ms 2048 (y_server x) =
    Done (demo_ask now_ms (y_server x)) ->
  y = mkSystem (y_server y) (y_pending x) (y_drawn x + u32 (g_next_sid (y_server y) - g_next_sid (y_server x))) (y_given x) (y_attempted x) ->
  event_step x y.
Proof. intros E H ->. rewrite E in H. by eapply step_request. Qed.

Lemma send_to p rest x y : y_pending x = Some (p :: rest) -> g_stop_requested (y_server x) = false ->
  y = mkSystem (y_server x) (Some rest) (y_drawn x) (y_given x) (y_attempted x ++ [label p]) -> event_step x y.
Proof. intros Hp Hs ->. by apply step_send. Qed.

Lemma demo_requests : event_step demo_a demo_b /\ event_step demo_b demo_c.
Proof. split; [apply (request_to 1000)|apply (request_to 2000)]; vm_compute; reflexivity. Qed.

Lemma demo_collects : event_step demo_c demo_d /\ event_step demo_g demo_h.
Proof.
  split; [apply (step_collect all_memory (fun _ => 3000) demo_c demo_first.1 demo_first.2)|
    apply (step_collect all_memory (fun _ => 3000) demo_g demo_second.1 demo_second.2)]; vm_compute; reflexivity.
Qed.

Definition no_target : EventNotifyTarget * EventService := (mkTarget EVENT_SERVICE_AVTRANSPORT [] [] 0 [] 0, EVENT_SERVICE_AVTRANSPORT).

Lemma demo_sends : event_step demo_d demo_e /\ event_step demo_e demo_f /\ event_step demo_h demo_sent.
Proof.
  split_and!; [apply (send_to (nth 0 demo_first.1 no_target) (drop 1 demo_first.1))|apply (send_to (nth 1 demo_first.1 no_target) [])|
    apply (send_to (nth 0 demo_second.1 no_target) (drop 1 demo_second.1))]; vm_compute; reflexivity.
Qed.

Lemma demo_reachable : event_reachable demo_sent.
Proof.
  destruct demo_requests as [H1 H2], demo_collects as [H3 H4], demo_sends as (H5 & H6 & H7).
  apply (rtc_l _ _ demo_a); [exact (step_start true system_start true demo_started eq_refl)|].
  apply (rtc_l _ _ demo_b); [done|]. apply (rtc_l _ _ demo_c); [done|]. apply (rtc_l _ _ demo_d); [done|].
  apply (rtc_l _ _ demo_e); [done|]. apply (rtc_l _ _ demo_f); [done|].
  apply (rtc_l _ _ demo_g); [exact (step_player PLAYER_EVENT_STATE_CHANGED demo_f)|]. apply (rtc_l _ _ demo_h); [done|]. by apply rtc_once.
Qed.

Lemma notifications_are_numbered_witness : length (y_attempted demo_sent) = 3%nat /\
  (forall sid, exists k : nat, seqs sid (y_given demo_sent) = map u32 (seqZ 0 (Z.of_nat k))) /\ y_attempted demo_sent `sublist_of` y_given demo_sent.
Proof. split; [by vm_compute|]. apply notifications_are_numbered; [apply demo_reachable|by vm_compute]. Defined.



(** ** What a notification says *)

(** An operation of the writer that adds [text] when it succeeds. *)
Definition adds (text : cstring) (op : SoapActionOutput -> written) : Prop :=
  forall out, writer_ok out -> exists ok out', op out = Done (ok, out') /\ writer_ok out' /\
    (ok = true -> output_text out' = output_text out ++ text).

Lemma appends_adds alloc text need op : (forall out, writer_ok out -> appends alloc out (need out) text (op out)) -> adds text op.
Proof.
  intros H out Hok. destruct (H out Hok) as (ok & out' & t & E & Hok' & Ht & _ & Htrue & _). exists ok, out'. split_and!; [done|done|].
  intros E1. by rewrite Ht, (Htrue E1).
Qed.

Lemma adds_then text1 text2 a b : adds text1 a -> adds text2 b -> adds (text1 ++ text2) (fun out => and_then (a out) b).
Proof.
  intros Ha Hb out Hok. destruct (Ha out Hok) as (ok & out1 & E1 & Hok1 & Ht1). unfold and_then. rewrite E1. cbn [mbind outcome_bind].
  destruct ok; [|by exists false, out1]. destruct (Hb out1 Hok1) as (ok2 & out2 & -> & Hok2 & Ht2). exists ok2, out2. split_and!; [done|done|].
  intros E. by rewrite (Ht2 E), (Ht1 eq_refl), app_assoc.
Qed.

Lemma adds_raw alloc text : adds (quoted text) (append_raw alloc text).
Proof. eapply (appends_adds alloc _ (fun _ => _)). intros out Hok. by apply append_raw_ok. Qed.

Lemma adds_format alloc text : adds text (fun out => soap_writer_appendf alloc out text).
Proof. eapply (appends_adds alloc _ (fun _ => _)). intros out Hok. by apply appendf_ok. Qed.

Lemma adds_escaped alloc text : adds (escaped text) (fun out => soap_writer_append_escaped alloc out (Some text)).
Proof. eapply (appends_adds alloc _ (fun _ => _)). intros out Hok. by apply append_escaped_ok. Qed.

(** An empty element whose value is an attribute. *)
Definition val_element (e : string * cstring) : cstring := bytes "<" ++ quoted e.1 ++ quoted " val='" ++ e.2 ++ quoted "'/>".

(** The elements of the document that tells of a change. *)
Definition change_elements (state : DlnaProtocolStateView) (service : EventService) : list (string * cstring) :=
  match service with
  | EVENT_SERVICE_AVTRANSPORT =>
      [("TransportState", escaped (transport_state state)); ("TransportStatus", escaped (transport_status state));
       ("CurrentTrack", format_ld (current_track state)); ("NumberOfTracks", format_ld (number_of_tracks state));
       ("CurrentMediaDuration", escaped (current_media_duration state)); ("CurrentTrackDuration", escaped (current_track_duration state))]
  | EVENT_SERVICE_RENDERINGCONTROL =>
      [("Volume channel='Master'", format_ld (volume state)); ("Mute channel='Master'", format_ld (if mute state then 1 else 0))]
  | EVENT_SERVICE_CONNECTIONMANAGER => []
  end%string.

Definition event_open (service : EventService) : cstring :=
  quoted "<Event xmlns='urn:schemas-upnp-org:metadata-1-0/" ++
  bytes (match service with EVENT_SERVICE_AVTRANSPORT => "AVT" | EVENT_SERVICE_RENDERINGCONTROL => "RCS" | _ => "" end) ++
  quoted "/'><InstanceID val='0'>".

Definition change_document (state : DlnaProtocolStateView) (service : EventService) : cstring :=
  event_open service ++ (change_elements state service ≫= val_element) ++ bytes "</InstanceID></Event>".

Lemma adds_eq text text' op : adds text op -> text = text' -> adds text' op.
Proof. by intros H <-. Qed.

Ltac adds_parts :=
  repeat first [apply adds_raw|apply adds_format|apply adds_escaped|match goal with H : _ |- _ => apply H end|eapply adds_then].

Lemma adds_val alloc tag value : bytes tag = quoted tag -> adds (val_element (tag, escaped value)) (fun out => event_append_val_element alloc out tag value).
Proof.
  intros Htag. eapply adds_eq; [unfold event_append_val_element; fold (append_raw alloc "'/>"); adds_parts; apply (adds_raw alloc "'/>")|].
  unfold val_element. cbn [fst snd]. by rewrite Htag, <- !app_assoc.
Qed.

Lemma adds_avtransport alloc state : adds (change_document state EVENT_SERVICE_AVTRANSPORT) (event_build_avtransport_last_change alloc state).
Proof.
  pose proof (fun tag value H => adds_val alloc tag value H) as Hval.
  eapply adds_eq; [unfold event_build_avtransport_last_change; adds_parts; reflexivity|].
  unfold change_document, change_elements. cbn [mbind list_bind]. unfold val_element, event_open. cbn [fst snd]. rewrite app_nil_r, <- !app_assoc. reflexivity.
Qed.

Lemma adds_renderingcontrol alloc state : adds (change_document state EVENT_SERVICE_RENDERINGCONTROL) (event_build_renderingcontrol_last_change alloc state).
Proof.
  eapply adds_eq; [unfold event_build_renderingcontrol_last_change; adds_parts|].
  unfold change_document, change_elements. cbn [mbind list_bind]. unfold val_element, event_open. cbn [fst snd]. rewrite app_nil_r, <- !app_assoc. reflexivity.
Qed.

Lemma adds_last_change alloc build document : adds document build ->
  adds (quoted "<e:property><LastChange>" ++ escaped document ++ quoted "</LastChange></e:property>") (append_last_change alloc build).
Proof.
  intros Hb out Hok. destruct (Hb output_zero zero_writer_ok) as (ok & change & E & _ & Ht). unfold append_last_change. rewrite E. cbn [mbind outcome_bind].
  destruct ok; cbn [negb]; [|by exists false, out]. rewrite (Ht eq_refl). cbn [output_text output_zero app].
  revert out Hok. change (adds (quoted "<e:property><LastChange>" ++ escaped document ++ quoted "</LastChange></e:property>")
    (fun out => and_then (append_raw alloc "<e:property><LastChange>" out) (fun out =>
      and_then (soap_writer_append_escaped alloc out (Some document)) (fun out => append_raw alloc "</LastChange></e:property>" out)))).
  adds_parts.
Qed.

(** The properties of a service, as text. *)
Definition property_text (state : DlnaProtocolStateView) (service : EventService) : cstring :=
  match service with
  | EVENT_SERVICE_CONNECTIONMANAGER =>
      quoted "<e:property><CurrentConnectionIDs>" ++ escaped (current_connection_ids state) ++ quoted "</CurrentConnectionIDs></e:property>"
  | _ => quoted "<e:property><LastChange>" ++ escaped (change_document state service) ++ quoted "</LastChange></e:property>"
  end.

Definition propertyset_open : string := "<?xml version='1.0' encoding='utf-8'?><e:propertyset xmlns:e='urn:schemas-upnp-org:event-1-0'>".

Lemma adds_properties alloc state service : adds (property_text state service) (append_service_properties alloc state service).
Proof.
  destruct service; [apply adds_last_change, adds_avtransport|apply adds_last_change, adds_renderingcontrol|].
  unfold append_service_properties, property_text. adds_parts.
Qed.

Lemma propertyset_built alloc state service : exists ok out, event_build_propertyset alloc state service output_zero = Done (ok, out) /\
  (ok = true -> output_text out = quoted propertyset_open ++ property_text state service ++ bytes "</e:propertyset>").
Proof.
  unfold event_build_propertyset. change (soap_writer_clear output_zero) with output_zero. fold propertyset_open.
  destruct (adds_raw alloc propertyset_open output_zero zero_writer_ok) as (ok & out & -> & Hok & Ht). cbn [mbind outcome_bind].
  destruct ok; cbn [negb]; [|by eexists _, _]. specialize (Ht eq_refl).
  destruct (adds_properties alloc state service out Hok) as (ok & out2 & -> & Hok2 & Ht2). cbn [mbind outcome_bind].
  destruct ok; cbn [negb]; [|by eexists _, _]. specialize (Ht2 eq_refl).
  destruct (adds_raw alloc "</e:propertyset>" out2 Hok2) as (ok & out3 & -> & _ & Ht3). exists ok, out3. split; [done|].
  intros E. rewrite (Ht3 E), Ht2, Ht. cbn [output_text output_zero app]. by rewrite <- !app_assoc.
Qed.

Lemma send_all_sent rounds : forall buf sent, (event_send_all rounds buf sent).1 = true -> (event_send_all rounds buf sent).2 = sent ++ buf.
Proof.
  induction rounds as [|[go r] rounds IH]; intros buf sent H; destruct buf as [|c buf]; cbn [event_send_all fst snd] in H |- *; rewrite ?app_nil_r; try done.
  destruct go; [|done]. destruct r as [[|n]| |]; [done| |by apply IH|done].
  rewrite (IH _ _ H), <- app_assoc. by rewrite firstn_skipn.
Qed.

Lemma document_trimmed state service : service <> EVENT_SERVICE_CONNECTIONMANAGER ->
  trim isspace (change_document state service) = change_document state service.
Proof.
  intros Hs. unfold trim. rewrite (skip_none isspace (rev (change_document state service))).
  - rewrite rev_involutive. apply skip_none. by destruct service.
  - unfold change_document. rewrite !rev_app_distr. reflexivity.
Qed.

Lemma change_is_extracted state service : service <> EVENT_SERVICE_CONNECTIONMANAGER ->
  soap_handler_extract_xml_value_alloc all_memory (quoted propertyset_open ++ property_text state service ++ bytes "</e:propertyset>") (bytes "LastChange")
  = Done (change_document state service).
Proof.
  intros Hs.
  pose proof (written_argument_is_read_back all_memory (bytes "LastChange") []
    [quoted "?xml version='1.0' encoding='utf-8'?>"; quoted "e:propertyset xmlns:e='urn:schemas-upnp-org:event-1-0'>"; bytes "e:property>"]
    (change_document state service) (bytes "</e:property></e:propertyset>")) as H.
  rewrite document_trimmed in H by done. rewrite <- H; [|done|..]; clear H.
  - apply (f_equal (fun xml => soap_handler_extract_xml_value_alloc all_memory xml (bytes "LastChange"))). replace (property_text state service) with
      (quoted "<e:property><LastChange>" ++ escaped (change_document state service) ++ quoted "</LastChange></e:property>") by (destruct service; [reflexivity|reflexivity|done]).
    generalize (escaped (change_document state service)). intros text. rewrite <- !app_assoc. reflexivity.
  - split; [done|]. apply (bool_decide_unpack _). by vm_compute.
  - apply not_elem_of_nil.
  - unfold other_markup. repeat constructor; try (apply (bool_decide_unpack _); by vm_compute); first [left; by vm_compute|right; by vm_compute].
Qed.

(** C39: Sending a notification of AVTransport or RenderingControl ends, and when all of it
    was sent it is the NOTIFY request for the subscriber whose body, read by extracting
    LastChange, gives the document with the values of the state variables at the time. *)
Theorem notification_reports_the_change alloc info env state target service : service <> EVENT_SERVICE_CONNECTIONMANAGER ->
  exists ok sent, event_send_notify alloc info env state target service = Done (ok, sent) /\
    (ok = true -> exists body, notify_request alloc info target body = Some sent /\
      soap_handler_extract_xml_value_alloc all_memory body (bytes "LastChange") = Done (change_document state service)).
Proof.
  intros Hs. unfold event_send_notify. destruct (ne_stopped_at_start env); [by exists false, []|].
  destruct (propertyset_built alloc state service) as (ok & out & -> & Ht). cbn [mbind outcome_bind].
  destruct ok; [|by exists false, []]. destruct (_ || _); [by exists false, []|].
  destruct (notify_request alloc info target (output_text out)) as [request|] eqn:Er; [|by exists false, []].
  destruct (event_send_all (ne_sends env) request []) as [ok sent] eqn:Es. exists ok, sent. split; [done|]. intros ->.
  pose proof (send_all_sent (ne_sends env) request []) as H. rewrite Es in H. specialize (H eq_refl). cbn in H. subst sent.
  exists (output_text out). split; [done|]. rewrite (Ht eq_refl). by apply change_is_extracted.
Qed.

Definition demo_env : NotifyEnv := mkNotifyEnv false true false true true false [(true, SendCount 100); (true, SendInterrupted); (true, SendCount 4000)].
Definition demo_target : EventNotifyTarget := (nth 0 demo_second.1 no_target).1.

Lemma notification_reports_the_change_witness :
  (if event_send_notify all_memory demo_info demo_env reset_state_view_defaults demo_target EVENT_SERVICE_AVTRANSPORT is Done (true, _) then True else False) /\
  exists ok sent, event_send_notify all_memory demo_info demo_env reset_state_view_defaults demo_target EVENT_SERVICE_AVTRANSPORT = Done (ok, sent) /\
    (ok = true -> exists body, notify_request all_memory demo_info demo_target body = Some sent /\
      soap_handler_extract_xml_value_alloc all_memory body (bytes "LastChange") = Done (change_document reset_state_view_defaults EVENT_SERVICE_AVTRANSPORT)).
Proof. split; [by vm_compute|]. by apply notification_reports_the_change. Defined.


(** A response of 64 bytes: the subscription is granted, and its subscriber hears nothing. *)
Example confirmation_is_lost :
  match event_server_try_handle_http all_memory demo_info (bytes "SUBSCRIBE") event_path (Some subscribe_request) 1000 64 demo_started with
  | Done (None, s') => count slot_is_free (g_subscriptions s') - count slot_is_free (g_subscriptions demo_started)
  | _ => 0
  end = -1.
Proof. vm_compute. reflexivity. Qed.

