(* ===== verification/RemoteHls.v ===== *)
(** * Remote playlists (protocol/airplay/media/remote_hls.c)

    A controller that plays HLS from a source only it can reach hands over the playlists
    one after the other: the receiver asks for the master playlist, registers the media
    playlists it names, asks for each of them, and serves all of them, rewritten, to the
    player on a local port.  The functions under the mutex are steps of the record
    [AirPlayRemoteHls]; tracing is left out.  [alloc] tells whether [malloc] gives a
    size.  In the texts below an apostrophe stands for a double quote. *)

From S2P Require Import Prelude CText Buffers SoapWriter Plist PlistDecode Rtsp RtspResponse.

#[local] Arguments bytes : simpl never.

(* src: source/protocol/airplay/media/remote_hls.h AIRPLAY_REMOTE_HLS_URL_MAX *)
Definition AIRPLAY_REMOTE_HLS_URL_MAX : Z := 4095.
(* src: source/protocol/airplay/media/remote_hls.h AIRPLAY_REMOTE_HLS_APPLE_SESSION_MAX *)
Definition AIRPLAY_REMOTE_HLS_APPLE_SESSION_MAX : Z := 128.
(* src: source/protocol/airplay/media/remote_hls.h AIRPLAY_REMOTE_HLS_LOCAL_URL_MAX *)
Definition AIRPLAY_REMOTE_HLS_LOCAL_URL_MAX : Z := 255.
(* src: source/protocol/airplay/media/remote_hls.c AIRPLAY_REMOTE_HLS_MAX_PLAYLIST_BYTES *)
Definition AIRPLAY_REMOTE_HLS_MAX_PLAYLIST_BYTES : Z := 512 * 1024.
(* src: source/protocol/airplay/media/remote_hls.c AIRPLAY_REMOTE_HLS_MAX_REWRITTEN_BYTES *)
Definition AIRPLAY_REMOTE_HLS_MAX_REWRITTEN_BYTES : Z := AIRPLAY_RTSP_MAX_RESPONSE_BODY_BYTES.
(* src: source/protocol/airplay/media/remote_hls.c AIRPLAY_REMOTE_HLS_MAX_MEDIA_PLAYLISTS *)
Definition AIRPLAY_REMOTE_HLS_MAX_MEDIA_PLAYLISTS : nat := 16.
(* src: source/protocol/airplay/media/remote_hls.c AIRPLAY_REMOTE_HLS_TOKEN_MAX *)
Definition AIRPLAY_REMOTE_HLS_TOKEN_MAX : Z := 31.
(* src: source/protocol/airplay/media/remote_hls.c AIRPLAY_REMOTE_HLS_LOCAL_PREFIX *)
Definition AIRPLAY_REMOTE_HLS_LOCAL_PREFIX : cstring := bytes "/airplay-hls/".
(* src: source/protocol/airplay/media/remote_hls.c AIRPLAY_REMOTE_HLS_CONTENT_TYPE *)
Definition AIRPLAY_REMOTE_HLS_CONTENT_TYPE : cstring := bytes "application/vnd.apple.mpegurl".

(* src: source/protocol/airplay/media/remote_hls.h AirPlayRemoteHlsEvent *)
Record AirPlayRemoteHlsEvent := mkHlsEvent { he_request_id : Z; he_apple_session_id : cstring; he_body : cstring }.
Definition event_zero : AirPlayRemoteHlsEvent := mkHlsEvent 0 [] [].

(* src: source/protocol/airplay/media/remote_hls.h AirPlayRemoteHlsActionKind *)
Inductive AirPlayRemoteHlsActionKind :=
| AIRPLAY_REMOTE_HLS_ACTION_ACK
| AIRPLAY_REMOTE_HLS_ACTION_REQUEST_NEXT
| AIRPLAY_REMOTE_HLS_ACTION_READY.

(* src: source/protocol/airplay/media/remote_hls.h AirPlayRemoteHlsActionResult *)
Inductive AirPlayRemoteHlsActionResult :=
| RESULT_OK
| RESULT_BAD_CONTENT_TYPE
| RESULT_INVALID_ARGUMENT
| RESULT_PLIST_DECODE
| RESULT_BAD_SHAPE
| RESULT_BAD_STATUS
| RESULT_BAD_REQUEST_ID
| RESULT_BAD_URL_OR_DATA
| RESULT_BAD_PLAYLIST
| RESULT_SESSION_MISMATCH
| RESULT_REQUEST_MISMATCH
| RESULT_URL_MISMATCH
| RESULT_REWRITE_FAILED
| RESULT_BAD_STATE.

(* src: source/protocol/airplay/media/remote_hls.h AirPlayRemoteHlsAction *)
Record AirPlayRemoteHlsAction := mkAction {
  ha_kind : AirPlayRemoteHlsActionKind;
  ha_generation : Z;
  ha_event : AirPlayRemoteHlsEvent;
  ha_playback_url : cstring
}.
Definition action_zero : AirPlayRemoteHlsAction := mkAction AIRPLAY_REMOTE_HLS_ACTION_ACK 0 event_zero [].
#[export] Instance eta_action : Eta AirPlayRemoteHlsAction := fun a =>
  mkAction (ha_kind a) (ha_generation a) (ha_event a) (ha_playback_url a).

(** A playlist that is not there is a null pointer. *)
(* src: source/protocol/airplay/media/remote_hls.c AirPlayRemoteHlsMedia *)
Record AirPlayRemoteHlsMedia := mkMedia { hm_source_url : cstring; hm_playlist : option (list Z); hm_served : bool }.
#[export] Instance eta_hls_media : Eta AirPlayRemoteHlsMedia := fun m => mkMedia (hm_source_url m) (hm_playlist m) (hm_served m).
Definition hls_media_zero : AirPlayRemoteHlsMedia := mkMedia [] None false.

(* src: source/protocol/airplay/media/remote_hls.c AirPlayRemoteHls *)
Record AirPlayRemoteHls := mkHls {
  hls_session_id : Z;
  hls_generation : Z;
  hls_next_request_id : Z;
  hls_expected_request_id : Z;
  hls_control_port : Z;
  hls_pending_media_index : nat;
  hls_media_count : nat;
  hls_token : cstring;
  hls_apple_session_id : cstring;
  hls_master_source : cstring;
  hls_expected_url : cstring;
  hls_playback_url : cstring;
  hls_master_playlist : option (list Z);
  hls_media : list AirPlayRemoteHlsMedia;
  hls_master_variant_count : Z;
  hls_master_filtered_variant_count : Z;
  hls_master_audio_count : Z;
  hls_active : bool;
  hls_expecting_master : bool;
  hls_master_served : bool
}.
#[export] Instance eta_hls : Eta AirPlayRemoteHls := fun h =>
  mkHls (hls_session_id h) (hls_generation h) (hls_next_request_id h) (hls_expected_request_id h) (hls_control_port h)
    (hls_pending_media_index h) (hls_media_count h) (hls_token h) (hls_apple_session_id h) (hls_master_source h)
    (hls_expected_url h) (hls_playback_url h) (hls_master_playlist h) (hls_media h) (hls_master_variant_count h)
    (hls_master_filtered_variant_count h) (hls_master_audio_count h) (hls_active h) (hls_expecting_master h) (hls_master_served h).

(** [airplay_remote_hls_create] gives this record, and every reset. *)
(* src: source/protocol/airplay/media/remote_hls.c hls_reset_locked *)
Definition hls_reset_locked : AirPlayRemoteHls :=
  mkHls 0 0 0 0 0 0 0 [] [] [] [] [] None (repeat hls_media_zero AIRPLAY_REMOTE_HLS_MAX_MEDIA_PLAYLISTS) 0 0 0 false false false.

(** ** Texts *)

(** Into an array of [output_size]. *)
(* src: source/protocol/airplay/media/remote_hls.c hls_copy *)
Definition hls_copy (output_size : Z) (input : cstring) : outcome cstring :=
  ensure (negb (output_size <=? size input));; Done input.

Definition visible (c : Z) : bool := (0x21 <=? c) && (c <=? 0x7e).

(* src: source/protocol/airplay/media/remote_hls.c hls_text_safe *)
Definition hls_text_safe (text : cstring) (maximum : Z) : bool :=
  negb (bool_decide (text = [])) && forallb visible text && (size text <=? maximum).

(** ** The growing buffer *)

(** [hb_capacity] is 0 as long as there is no memory; otherwise one more byte than that
    was allocated. *)
(* src: source/protocol/airplay/media/remote_hls.c AirPlayRemoteHlsBuffer *)
Record AirPlayRemoteHlsBuffer := mkBuffer { hb_data : list Z; hb_capacity : Z; hb_limit : Z }.
Definition buffer_of (limit : Z) : AirPlayRemoteHlsBuffer := mkBuffer [] 0 limit.

(** The loop that doubles; 64 rounds double past every [size_t]. *)
(* src: source/protocol/airplay/media/remote_hls.c 151-159 hls_buffer_reserve *)
Fixpoint reserve_loop (fuel : nat) (capacity required limit : Z) : outcome Z :=
  match fuel with
  | O => Stuck
  | S fuel' =>
      if capacity <? required
      then if limit / 2 <? capacity then Done limit else reserve_loop fuel' (capacity * 2) required limit
      else Done capacity
  end.
Definition RESERVE_FUEL : nat := 66.

Section memory.
Context (alloc : Z -> bool).

(* src: source/protocol/airplay/media/remote_hls.c hls_buffer_reserve *)
Definition hls_buffer_reserve (buffer : AirPlayRemoteHlsBuffer) (additional : Z) : outcome AirPlayRemoteHlsBuffer :=
  ensure (negb (hb_limit buffer - size (hb_data buffer) <? additional));;
  let required := size (hb_data buffer) + additional in
  if required <=? hb_capacity buffer then Done buffer
  else
    capacity ← reserve_loop RESERVE_FUEL (if hb_capacity buffer =? 0 then 256 else hb_capacity buffer) required (hb_limit buffer);
    ensure (negb ((capacity <? required) || (hb_limit buffer <? capacity)));;
    ensure (alloc (capacity + 1));;
    Done (mkBuffer (hb_data buffer) capacity (hb_limit buffer)).

(** The terminating zero is written even when nothing is appended: without memory that
    is a write through a null pointer. *)
(* src: source/protocol/airplay/media/remote_hls.c hls_buffer_append *)
Definition hls_buffer_append (buffer : AirPlayRemoteHlsBuffer) (text : list Z) : outcome AirPlayRemoteHlsBuffer :=
  buffer ← hls_buffer_reserve buffer (size text);
  if (hb_capacity buffer =? 0) || (hb_capacity buffer <? size (hb_data buffer) + size text) then Stuck
  else Done (mkBuffer (hb_data buffer ++ text) (hb_capacity buffer) (hb_limit buffer)).

(* src: source/protocol/airplay/media/remote_hls.c hls_buffer_append_text *)
Definition hls_buffer_append_text (buffer : AirPlayRemoteHlsBuffer) (text : cstring) : outcome AirPlayRemoteHlsBuffer :=
  hls_buffer_append buffer text.

(* src: source/protocol/airplay/media/remote_hls.c 209-228 hls_xml_append_escaped *)
Definition xml_entity (c : Z) : option cstring :=
  if c =? 38 then Some (bytes "&amp;")
  else if c =? 60 then Some (bytes "&lt;")
  else if c =? 62 then Some (bytes "&gt;")
  else if c =? 34 then Some (bytes "&quot;")
  else if c =? 39 then Some (bytes "&apos;")
  else None.

(** [pending] is the text from [start] to [cursor]. *)
(* src: source/protocol/airplay/media/remote_hls.c 205-238 hls_xml_append_escaped *)
Fixpoint xml_append_from (buffer : AirPlayRemoteHlsBuffer) (pending text : cstring) : outcome AirPlayRemoteHlsBuffer :=
  match text with
  | [] => hls_buffer_append buffer pending
  | c :: text' =>
      match xml_entity c with
      | Some replacement =>
          buffer ← hls_buffer_append buffer pending;
          buffer ← hls_buffer_append_text buffer replacement;
          xml_append_from buffer [] text'
      | None => xml_append_from buffer (pending ++ [c]) text'
      end
  end.

(* src: source/protocol/airplay/media/remote_hls.c hls_xml_append_escaped *)
Definition hls_xml_append_escaped (buffer : AirPlayRemoteHlsBuffer) (text : cstring) : outcome AirPlayRemoteHlsBuffer :=
  xml_append_from buffer [] text.

Definition event_prefix : cstring :=
  quoted "<?xml version='1.0' encoding='UTF-8'?>" ++ [10] ++
  quoted "<!DOCTYPE plist PUBLIC '-//Apple//DTD PLIST 1.0//EN' 'http://www.apple.com/DTDs/PropertyList-1.0.dtd'>" ++ [10] ++
  quoted "<plist version='1.0'><dict><key>sessionID</key><integer>1</integer><key>type</key><string>unhandledURLRequest</string><key>request</key><dict><key>FCUP_Response_ClientInfo</key><integer>1</integer><key>FCUP_Response_ClientRef</key><integer>40030004</integer><key>FCUP_Response_RequestID</key><integer>".
Definition event_request_url : cstring := bytes "</integer><key>FCUP_Response_URL</key><string>".
Definition event_headers : cstring :=
  bytes "</string><key>sessionID</key><integer>1</integer><key>FCUP_Response_Headers</key><dict><key>X-Playback-Session-Id</key><string>".
Definition event_suffix : cstring :=
  bytes "</string><key>User-Agent</key><string>AppleCoreMedia/1.0.0.11B554a (Apple TV; U; CPU OS 7_0_4 like Mac OS X; en_us)</string></dict></dict></dict></plist>" ++ [10].

(* src: source/protocol/airplay/media/remote_hls.c hls_build_event_body *)
Definition hls_build_event_body (url : cstring) (request_id : Z) (apple_session_id : cstring) : outcome cstring :=
  let output := buffer_of (64 * 1024) in
  output ← hls_buffer_append_text output event_prefix;
  output ← hls_buffer_append_text output (format_u request_id);
  output ← hls_buffer_append_text output event_request_url;
  output ← hls_xml_append_escaped output url;
  output ← hls_buffer_append_text output event_headers;
  output ← hls_xml_append_escaped output apple_session_id;
  output ← hls_buffer_append_text output event_suffix;
  Done (hb_data output).
End memory.

(** ** Urls *)

(* src: source/protocol/airplay/media/remote_hls.c airplay_remote_hls_locator_supported *)
Definition airplay_remote_hls_locator_supported (locator : cstring) : bool :=
  hls_text_safe locator AIRPLAY_REMOTE_HLS_URL_MAX &&
  negb (has_prefix_nocase locator (bytes "http://") || has_prefix_nocase locator (bytes "https://")) &&
  match strstr_at locator (bytes "/master.m3u8") with
  | None => false
  | Some master =>
      match locator !! (master + 12)%nat with
      | None => true
      | Some c => (c =? 63) || (c =? 35)
      end
  end.

Definition scheme_mark (c : Z) : bool := isalnum c || (c =? 43) || (c =? 45) || (c =? 46).

(* src: source/protocol/airplay/media/remote_hls.c hls_has_scheme *)
Definition hls_has_scheme (uri : cstring) : bool :=
  match uri with
  | c :: rest =>
      isalpha c &&
      match span (fun x => negb (x =? 58)) rest with
      | (name, _ :: _) => forallb scheme_mark name
      | (_, []) => false
      end
  | [] => false
  end.

(** [snprintf] to the buffer of a url: the text must fit. *)
Definition url_fits (text : cstring) : outcome cstring :=
  ensure ((0 <? size text) && (size text <=? AIRPLAY_REMOTE_HLS_URL_MAX));; Done text.

Definition not_query (c : Z) : bool := negb ((c =? 63) || (c =? 35)).

(* src: source/protocol/airplay/media/remote_hls.c hls_resolve_uri *)
Definition hls_resolve_uri (base reference : cstring) : outcome cstring :=
  ensure (hls_text_safe base AIRPLAY_REMOTE_HLS_URL_MAX && hls_text_safe reference AIRPLAY_REMOTE_HLS_URL_MAX);;
  if hls_has_scheme reference then hls_copy (AIRPLAY_REMOTE_HLS_URL_MAX + 1) reference
  else
    let scheme_end := strstr_at base (bytes "://") in
    let slash := bool_decide (reference !! 0%nat = Some 47) in
    if slash && bool_decide (reference !! 1%nat = Some 47) then
      match scheme_end with
      | None => Refused
      | Some scheme_end => url_fits (take scheme_end base ++ bytes ":" ++ reference)
      end
    else
      match scheme_end, slash with
      | Some scheme_end, true =>
          let authority_end :=
            match memchr 47 (drop (scheme_end + 3) base) with
            | Some i => (scheme_end + 3 + i)%nat
            | None => length (span not_query base).1
            end in
          url_fits (take authority_end base ++ reference)
      | _, _ =>
          match last_index 47 base with
          | None => Refused
          | Some directory_end => url_fits (take directory_end base ++ bytes "/" ++ reference)
          end
      end.

(** A suffix of a playlist, at the end or in front of a query or a fragment. *)
(* src: source/protocol/airplay/media/remote_hls.c hls_uri_span_is_playlist *)
Fixpoint hls_uri_span_is_playlist (uri : list Z) : bool :=
  match uri with
  | [] => false
  | _ :: uri' =>
      (has_prefix uri (bytes ".m3u8") && match drop 5 uri with [] => true | c :: _ => (c =? 63) || (c =? 35) end) ||
      hls_uri_span_is_playlist uri'
  end.

(** ** Playlists *)

Definition bom : list Z := [0xef; 0xbb; 0xbf].

(* src: source/protocol/airplay/media/remote_hls.c hls_playlist_valid *)
Definition hls_playlist_valid (playlist : list Z) : bool :=
  if (size playlist <? 7) || (AIRPLAY_REMOTE_HLS_MAX_PLAYLIST_BYTES <? size playlist) then false
  else
    let text := if has_prefix playlist bom then drop 3 playlist else playlist in
    has_prefix text (bytes "#EXTM3U") &&
    forallb (fun c => (0x20 <=? c) || (c =? 13) || (c =? 10) || (c =? 9)) text.

(** The lines of a playlist: each up to its newline, without a carriage return at its
    end.  There is a line for every newline, and one for what is behind the last. *)
Fixpoint split_lines (fuel : nat) (text : list Z) : list (list Z) :=
  match fuel, text with
  | O, _ | _, [] => []
  | S fuel', _ =>
      let '(line, rest) := span (fun c => negb (c =? 10)) text in
      (if bool_decide (last line = Some 13) then removelast line else line) :: split_lines fuel' (drop 1 rest)
  end.
Definition playlist_lines (text : list Z) : list (list Z) := split_lines (length text) text.

(** The value of the first [URI] attribute: the text in front of it, the value, and the
    text from its closing quote on. *)
(* src: source/protocol/airplay/media/remote_hls.c hls_find_uri_attribute *)
Definition hls_find_uri_attribute (line : list Z) : option (list Z * list Z * list Z) :=
  index ← strstr_at line (quoted "URI='");
  let '(value, rest) := span (fun c => negb (c =? 34)) (drop (index + 5) line) in
  match value, rest with
  | [], _ | _, [] => None
  | _, _ => Some (take (index + 5) line, value, rest)
  end.

(* src: source/protocol/airplay/media/remote_hls.c HlsVideoCodec *)
Inductive HlsVideoCodec := HLS_VIDEO_CODEC_UNKNOWN | HLS_VIDEO_CODEC_H264 | HLS_VIDEO_CODEC_OTHER.

#[export] Instance codec_eq_dec : EqDecision HlsVideoCodec.
Proof. solve_decision. Defined.

(* src: source/protocol/airplay/media/remote_hls.c hls_span_contains_case *)
Definition hls_span_contains_case (text : list Z) (needle : string) : bool :=
  match find_nocase text (bytes needle) with Some _ => true | None => false end.

(* src: source/protocol/airplay/media/remote_hls.c hls_stream_video_codec *)
Definition hls_stream_video_codec (line : list Z) : HlsVideoCodec :=
  match find_nocase line (quoted "CODECS='") with
  | None => HLS_VIDEO_CODEC_UNKNOWN
  | Some at_marker =>
      match span (fun c => negb (c =? 34)) (drop 8 at_marker) with
      | (_, []) => HLS_VIDEO_CODEC_UNKNOWN
      | (codecs, _ :: _) =>
          if existsb (hls_span_contains_case codecs) ["avc1"; "avc3"]%string then HLS_VIDEO_CODEC_H264
          else if existsb (hls_span_contains_case codecs) ["vp09"; "vp9"; "av01"; "hvc1"; "hev1"]%string
          then HLS_VIDEO_CODEC_OTHER else HLS_VIDEO_CODEC_UNKNOWN
      end
  end.

Definition stream_inf : list Z := bytes "#EXT-X-STREAM-INF:".
Definition media_tag : list Z := bytes "#EXT-X-MEDIA:".

(* src: source/protocol/airplay/media/remote_hls.c hls_master_has_h264_variant *)
Definition hls_master_has_h264_variant (playlist : list Z) : bool :=
  existsb (fun line => has_prefix line stream_inf && bool_decide (hls_stream_video_codec line = HLS_VIDEO_CODEC_H264))
    (playlist_lines playlist).

Section rewriting.
Context (alloc : Z -> bool).
Notation append := (hls_buffer_append alloc).

(** The index of the media of a url, which may be a new one.  A new url fits: it was
    resolved into an array of the same size. *)
(* src: source/protocol/airplay/media/remote_hls.c hls_register_media_locked *)
Definition hls_register_media_locked (hls : AirPlayRemoteHls) (base reference : cstring) : outcome (nat * AirPlayRemoteHls) :=
  resolved ← hls_resolve_uri base reference;
  match find_entry (fun m => bool_decide (hm_source_url m = resolved)) (take (hls_media_count hls) (hls_media hls)) with
  | Some index => Done (index, hls)
  | None =>
      ensure (negb (AIRPLAY_REMOTE_HLS_MAX_MEDIA_PLAYLISTS <=? hls_media_count hls)%nat);;
      let index := hls_media_count hls in
      Done (index, { hls with hls_media_count ::= S; hls_media ::= alter (fun m => { m with hm_source_url := resolved }) index })
  end.

Definition local_media_uri (index : nat) : cstring := bytes "media/" ++ format_u (Z.of_nat index) ++ bytes ".m3u8".

(* src: source/protocol/airplay/media/remote_hls.c hls_append_local_media_uri *)
Definition hls_append_local_media_uri (output : AirPlayRemoteHlsBuffer) (index : nat) : outcome AirPlayRemoteHlsBuffer :=
  ensure (size (local_media_uri index) <? 32);; append output (local_media_uri index).

(** What the loop over the lines keeps: the output, whether the uri of the next variant
    is kept, and the media. *)
Record MasterLoop := mkLoop { ml_output : AirPlayRemoteHlsBuffer; ml_keep_next : bool; ml_hls : AirPlayRemoteHls }.

(** Whether a step succeeded; what it did to the media stays when it did not. *)
Definition loop_step : Type := outcome (bool * MasterLoop).

Definition extend (loop : MasterLoop) (output : outcome AirPlayRemoteHlsBuffer) : loop_step :=
  match output with
  | Done output => Done (true, mkLoop output (ml_keep_next loop) (ml_hls loop))
  | Refused => Done (false, loop)
  | Stuck => Stuck
  end.

Definition newline (output : AirPlayRemoteHlsBuffer) : outcome AirPlayRemoteHlsBuffer := append output [10].

(** [before], the local uri that takes the place of [uri], [after] and the end of the
    line; the media is registered.  Nothing is appended around a line that is a uri. *)
(* src: source/protocol/airplay/media/remote_hls.c 745-791 hls_rewrite_master_locked *)
Definition append_local (around : option (list Z * list Z)) (uri : list Z) (loop : MasterLoop) : loop_step :=
  if AIRPLAY_REMOTE_HLS_URL_MAX <? size uri then Done (false, loop)
  else
    match hls_register_media_locked (ml_hls loop) (hls_master_source (ml_hls loop)) uri with
    | Stuck => Stuck
    | Refused => Done (false, loop)
    | Done (media_index, hls) =>
        let loop := mkLoop (ml_output loop) (ml_keep_next loop) hls in
        extend loop
          (output ← match around with Some (before, _) => append (ml_output loop) before | None => Done (ml_output loop) end;
           output ← hls_append_local_media_uri output media_index;
           output ← match around with Some (_, after) => append output after | None => Done output end;
           newline output)
    end.

Definition append_line (line : list Z) (loop : MasterLoop) : loop_step :=
  extend loop (output ← append (ml_output loop) line; newline output).

(** The counters of a line; false when the line is left out. *)
(* src: source/protocol/airplay/media/remote_hls.c 724-738 hls_rewrite_master_locked *)
Definition count_line (prefer_h264 : bool) (line : list Z) (loop : MasterLoop) : MasterLoop * bool :=
  if has_prefix line stream_inf then
    let keep := negb prefer_h264 || negb (bool_decide (hls_stream_video_codec line = HLS_VIDEO_CODEC_OTHER)) in
    let hls := { ml_hls loop with hls_master_variant_count ::= inc32 } in
    (mkLoop (ml_output loop) keep (if keep then hls else { hls with hls_master_filtered_variant_count ::= inc32 }), keep)
  else if has_prefix line media_tag then
    (mkLoop (ml_output loop) (ml_keep_next loop) { ml_hls loop with hls_master_audio_count ::= inc32 }, true)
  else (loop, true).

(* src: source/protocol/airplay/media/remote_hls.c 706-797 hls_rewrite_master_locked *)
Definition rewrite_master_line (prefer_h264 : bool) (line : list Z) (loop : MasterLoop) : loop_step :=
  let '(loop, kept) := count_line prefer_h264 line loop in
  if negb kept then Done (true, loop)
  else if bool_decide (head line = Some 35) then
    match hls_find_uri_attribute line with
    | Some (before, uri, after) =>
        if hls_uri_span_is_playlist uri then append_local (Some (before, after)) uri loop else append_line line loop
    | None => append_line line loop
    end
  else if negb (bool_decide (line = [])) && hls_uri_span_is_playlist line then
    if negb (ml_keep_next loop) then Done (true, mkLoop (ml_output loop) true (ml_hls loop))
    else append_local None line loop
  else append_line line loop.

Fixpoint rewrite_master_lines (prefer_h264 : bool) (lines : list (list Z)) (loop : MasterLoop) : loop_step :=
  match lines with
  | [] => Done (true, loop)
  | line :: lines' =>
      '(ok, loop) ← rewrite_master_line prefer_h264 line loop;
      if (ok : bool) then rewrite_master_lines prefer_h264 lines' loop else Done (false, loop)
  end.

(* src: source/protocol/airplay/media/remote_hls.c hls_rewrite_master_locked *)
Definition hls_rewrite_master_locked (hls : AirPlayRemoteHls) (playlist : list Z) : outcome (option (list Z) * AirPlayRemoteHls) :=
  '(ok, loop) ← rewrite_master_lines (hls_master_has_h264_variant playlist) (playlist_lines playlist)
    (mkLoop (buffer_of AIRPLAY_REMOTE_HLS_MAX_REWRITTEN_BYTES) true hls);
  Done (if (ok : bool) then Some (hb_data (ml_output loop)) else None, ml_hls loop).

(** ** Condensed playlists *)

(** The value of a quoted attribute; [None] also without memory. *)
(* src: source/protocol/airplay/media/remote_hls.c hls_dup_quoted_attribute *)
Definition hls_dup_quoted_attribute (line : cstring) (name : string) : option cstring :=
  let pattern := bytes name ++ quoted "='" in
  start ← strstr_at line pattern;
  match span (fun c => negb (c =? 34)) (drop (start + length pattern) line) with
  | (value, _ :: _) => if alloc (size value + 1) then Some value else None
  | (_, []) => None
  end.

Definition condensed_marker : cstring := bytes "#YT-EXT-CONDENSED-URL".

Record Condensed := mkCondensed { cd_base : cstring; cd_params : cstring; cd_prefix : cstring }.

(** Refused when an attribute is missing; [None] when the playlist is not condensed. *)
(* src: source/protocol/airplay/media/remote_hls.c 857-880 hls_expand_condensed *)
Definition condensed_header (copy : cstring) : outcome (option Condensed) :=
  match strstr_at copy condensed_marker with
  | None => Done None
  | Some at_header =>
      let header := (span (fun c => negb (c =? 10)) (drop at_header copy)).1 in
      match hls_dup_quoted_attribute header "BASE-URI", hls_dup_quoted_attribute header "PARAMS", hls_dup_quoted_attribute header "PREFIX" with
      | Some base, Some params, Some prefix =>
          ensure (negb (bool_decide (base = [])) && negb (bool_decide (prefix = [])));; Done (Some (mkCondensed base params prefix))
      | _, _, _ => Refused
      end
  end.

(** One parameter and its value in each round, up to the end of the parameters. *)
(* src: source/protocol/airplay/media/remote_hls.c 914-937 hls_expand_condensed *)
Fixpoint expand_params (fuel : nat) (param value : cstring) (output : AirPlayRemoteHlsBuffer) : outcome AirPlayRemoteHlsBuffer :=
  match fuel with
  | O => Stuck
  | S fuel' =>
      match param with
      | [] => Done output
      | _ =>
          let '(name, param_rest) := span (fun c => negb (c =? 44)) param in
          let last_param := bool_decide (param_rest = []) in
          let '(text, value_rest) := if last_param then (value, []) else span (fun c => negb (c =? 47)) value in
          ensure (negb (bool_decide (name = [])) && (last_param || negb (bool_decide (value_rest = []))) && negb (bool_decide (text = [])));;
          output ← append output (bytes "/");
          output ← append output name;
          output ← append output (bytes "/");
          output ← append output text;
          expand_params fuel' (drop 1 param_rest) (drop 1 value_rest) output
      end
  end.

(* src: source/protocol/airplay/media/remote_hls.c 892-945 hls_expand_condensed *)
Definition expand_line (c : Condensed) (line : list Z) (output : AirPlayRemoteHlsBuffer) : outcome AirPlayRemoteHlsBuffer :=
  output ←
    (if negb (bool_decide (line = [])) && negb (bool_decide (head line = Some 35)) then
       match strstr_at line (cd_prefix c) with
       | Some prefix_at =>
           let value := drop (prefix_at + length (cd_prefix c)) line in
           output ← append output (take prefix_at line);
           output ← append output (cd_base c);
           output ← (if bool_decide (cd_params c = []) then append output value else Done output);
           expand_params (S (length (cd_params c))) (cd_params c) value output
       | None => append output line
       end
     else append output line);
  newline output.

(** The loops over the lines of a playlist. *)
Fixpoint for_lines (write : list Z -> AirPlayRemoteHlsBuffer -> outcome AirPlayRemoteHlsBuffer) (lines : list (list Z))
    (output : AirPlayRemoteHlsBuffer) : outcome AirPlayRemoteHlsBuffer :=
  match lines with
  | [] => Done output
  | line :: lines' => output ← write line output; for_lines write lines' output
  end.

(** [strtok_r] with newlines: the runs of other characters, without a carriage return at
    their end. *)
Fixpoint split_tokens (fuel : nat) (text : cstring) : list cstring :=
  match fuel, text with
  | O, _ | _, [] => []
  | S fuel', _ =>
      let '(token, rest) := span (fun c => negb (c =? 10)) text in
      let tokens := split_tokens fuel' (drop 1 rest) in
      match token with [] => tokens | _ => (if bool_decide (last token = Some 13) then removelast token else token) :: tokens end
  end.

(* src: source/protocol/airplay/media/remote_hls.c hls_expand_condensed *)
Definition hls_expand_condensed (playlist : list Z) : outcome (list Z) :=
  ensure (alloc (size playlist + 1));;
  let copy := cstr_of playlist in
  condensed ← condensed_header copy;
  match condensed with
  | None => Done playlist
  | Some c =>
      output ← for_lines (expand_line c) (split_tokens (length copy) copy) (buffer_of AIRPLAY_REMOTE_HLS_MAX_REWRITTEN_BYTES);
      Done (hb_data output)
  end.

(** ** Media playlists *)

(* src: source/protocol/airplay/media/remote_hls.c hls_append_resolved_media_uri *)
Definition hls_append_resolved_media_uri (output : AirPlayRemoteHlsBuffer) (base : cstring) (uri : list Z) : outcome AirPlayRemoteHlsBuffer :=
  ensure (forallb visible uri);;
  if has_prefix_nocase uri (bytes "http://") || has_prefix_nocase uri (bytes "https://") then append output uri
  else
    match strstr_at base (bytes "://") with
    | None => append output uri
    | Some scheme =>
        let slash := bool_decide (head uri = Some 47) in
        let authority_end := match memchr 47 (drop (scheme + 3) base) with Some i => (scheme + 3 + i)%nat | None => length base end in
        if slash && bool_decide (uri !! 1%nat = Some 47) then
          output ← append output (take (scheme + 1) base); append output uri
        else if slash then
          output ← append output (take authority_end base); append output uri
        else
          let path_end := match last_index 47 base with
                          | Some i => if (i <? authority_end)%nat then length base else i
                          | None => length base
                          end in
          output ← append output (take path_end base);
          output ← append output (bytes "/");
          append output uri
    end.

(* src: source/protocol/airplay/media/remote_hls.c 1028-1072 hls_rewrite_media *)
Definition rewrite_media_line (source_url : cstring) (line : list Z) (output : AirPlayRemoteHlsBuffer) : outcome AirPlayRemoteHlsBuffer :=
  output ←
    (if bool_decide (head line = Some 35) then
       match hls_find_uri_attribute line with
       | Some (before, uri, after) =>
           output ← append output before;
           output ← hls_append_resolved_media_uri output source_url uri;
           append output after
       | None => append output line
       end
     else if negb (bool_decide (line = [])) then hls_append_resolved_media_uri output source_url line
     else Done output);
  newline output.

(* src: source/protocol/airplay/media/remote_hls.c hls_rewrite_media *)
Definition hls_rewrite_media (source_url : cstring) (playlist : list Z) : outcome (list Z) :=
  expanded ← hls_expand_condensed playlist;
  output ← for_lines (rewrite_media_line source_url) (playlist_lines expanded) (buffer_of AIRPLAY_REMOTE_HLS_MAX_REWRITTEN_BYTES);
  Done (hb_data output).

(** ** The session *)

(** The event, when it could be built, and the state. *)
(* src: source/protocol/airplay/media/remote_hls.c hls_prepare_event_locked *)
Definition hls_prepare_event_locked (hls : AirPlayRemoteHls) (url : cstring) : outcome (option AirPlayRemoteHlsEvent * AirPlayRemoteHls) :=
  if negb (hls_active hls) then Done (None, hls)
  else
    let request_id := inc32 (hls_next_request_id hls) in
    let request_id := if request_id =? 0 then inc32 request_id else request_id in
    let hls := { hls with hls_next_request_id := request_id } in
    match hls_copy (AIRPLAY_REMOTE_HLS_URL_MAX + 1) url with
    | Done expected_url =>
        let hls := { hls with hls_expected_url := expected_url } in
        match hls_build_event_body alloc url request_id (hls_apple_session_id hls) with
        | Done event_body =>
            Done (Some (mkHlsEvent request_id (hls_apple_session_id hls) event_body), { hls with hls_expected_request_id := request_id })
        | Refused => Done (None, hls)
        | Stuck => Stuck
        end
    | Refused => Done (None, hls)
    | Stuck => Stuck
    end.

Definition hls_token_of (session_id generation : Z) : cstring := format_hex 16 session_id ++ bytes "-" ++ format_hex 8 generation.

Definition playback_url_of (control_port : Z) (token : cstring) : cstring :=
  bytes "http://127.0.0.1:" ++ format_u control_port ++ AIRPLAY_REMOTE_HLS_LOCAL_PREFIX ++ token ++ bytes "/master.m3u8".

(** Whether the text and its terminating zero fit in an array of that size. *)
Definition fits (text : cstring) (array_size : Z) : bool := size text <? array_size.

(** The event, when the session was begun. *)
(* src: source/protocol/airplay/media/remote_hls.c airplay_remote_hls_begin *)
Definition airplay_remote_hls_begin (hls : AirPlayRemoteHls) (session_id generation control_port : Z)
    (apple_session_id locator : cstring) : outcome (option AirPlayRemoteHlsEvent * AirPlayRemoteHls) :=
  if (session_id =? 0) || (generation =? 0) || (control_port =? 0) ||
     negb (hls_text_safe apple_session_id AIRPLAY_REMOTE_HLS_APPLE_SESSION_MAX) ||
     negb (airplay_remote_hls_locator_supported locator)
  then Done (None, hls)
  else
    let token := hls_token_of session_id generation in
    let playback_url := playback_url_of control_port token in
    if fits token (AIRPLAY_REMOTE_HLS_TOKEN_MAX + 1) && fits apple_session_id (AIRPLAY_REMOTE_HLS_APPLE_SESSION_MAX + 1) &&
       fits locator (AIRPLAY_REMOTE_HLS_URL_MAX + 1) && fits playback_url (AIRPLAY_REMOTE_HLS_LOCAL_URL_MAX + 1)
    then
      let hls := { hls_reset_locked with
        hls_session_id := session_id; hls_generation := generation; hls_control_port := control_port; hls_active := true;
        hls_expecting_master := true; hls_token := token; hls_apple_session_id := apple_session_id; hls_master_source := locator;
        hls_playback_url := playback_url } in
      '(event, hls) ← hls_prepare_event_locked hls locator;
      Done (event, match event with Some _ => hls | None => hls_reset_locked end)
    else Done (None, hls_reset_locked).

(* src: source/protocol/airplay/media/remote_hls.c hls_get_uint *)
Definition hls_get_uint (dict : option AirPlayPlistValue) (key : cstring) : option Z := airplay_plist_get_uint (airplay_plist_dict_get dict key).

(** What a controller hands over: the number of the request, its url and the playlist. *)
Record PlaylistResponse := mkPlaylistResponse { pr_request_id : Z; pr_url : cstring; pr_playlist : list Z }.

(** A message is refused, acknowledged ([None]) or carries a playlist.  The status code
    is only traced. *)
(* src: source/protocol/airplay/media/remote_hls.c 1124-1183 airplay_remote_hls_handle_action *)
Definition parse_action (body : list Z) : outcome (AirPlayRemoteHlsActionResult + option PlaylistResponse) :=
  match airplay_plist_decode alloc (Some body) (size body) with
  | Undefined => Stuck
  | Fails _ => Done (inl RESULT_PLIST_DECODE)
  | Returns root =>
      match root with
      | PlistDict _ =>
          let root := Some root in
          let params := airplay_plist_dict_get root (bytes "params") in
          match airplay_plist_get_string (airplay_plist_dict_get root (bytes "type")), params with
          | Some type, Some (PlistDict _) =>
              if negb (bool_decide (type = bytes "unhandledURLResponse")) then Done (inr None)
              else
                match hls_get_uint params (bytes "FCUP_Response_RequestID") with
                | Some request_id =>
                    if (request_id =? 0) || (UINT32_MAX <? request_id) then Done (inl RESULT_BAD_REQUEST_ID)
                    else
                      match airplay_plist_get_string (airplay_plist_dict_get params (bytes "FCUP_Response_URL")),
                            airplay_plist_get_data (airplay_plist_dict_get params (bytes "FCUP_Response_Data")) with
                      | Some url, Some playlist =>
                          if negb (hls_playlist_valid playlist) then Done (inl RESULT_BAD_PLAYLIST)
                          else Done (inr (Some (mkPlaylistResponse request_id url playlist)))
                      | _, _ => Done (inl RESULT_BAD_URL_OR_DATA)
                      end
                | None => Done (inl RESULT_BAD_REQUEST_ID)
                end
          | _, _ => Done (inl RESULT_BAD_SHAPE)
          end
      | _ => Done (inl RESULT_PLIST_DECODE)
      end
  end.

(** A master playlist, or a media playlist in its place. *)
(* src: source/protocol/airplay/media/remote_hls.c 1205-1236 airplay_remote_hls_handle_action *)
Definition accept_master (hls : AirPlayRemoteHls) (playlist : list Z) : outcome (bool * AirPlayRemoteHls) :=
  '(rewritten, hls) ← hls_rewrite_master_locked { hls with hls_media_count := 0%nat } playlist;
  match rewritten with
  | None => Done (false, hls)
  | Some rewritten =>
      match (if (hls_media_count hls =? 0)%nat then hls_rewrite_media (hls_master_source hls) playlist else Done rewritten) with
      | Done rewritten =>
          Done (true, { hls with hls_master_playlist := Some rewritten; hls_expecting_master := false; hls_pending_media_index := 0%nat })
      | Refused => Done (false, hls)
      | Stuck => Stuck
      end
  end.

(** The playlist of the pending media; there is one. *)
(* src: source/protocol/airplay/media/remote_hls.c 1253-1266 airplay_remote_hls_handle_action *)
Definition accept_media (hls : AirPlayRemoteHls) (media : AirPlayRemoteHlsMedia) (playlist : list Z) : outcome (bool * AirPlayRemoteHls) :=
  match hls_rewrite_media (hm_source_url media) playlist with
  | Done rewritten =>
      Done (true, { hls with
        hls_media ::= alter (fun m => { m with hm_playlist := Some rewritten }) (hls_pending_media_index hls);
        hls_pending_media_index ::= S })
  | Refused => Done (false, hls)
  | Stuck => Stuck
  end.

(** The next playlist is asked for, or playback can begin. *)
(* src: source/protocol/airplay/media/remote_hls.c 1268-1295 airplay_remote_hls_handle_action *)
Definition next_action (hls : AirPlayRemoteHls) (action : AirPlayRemoteHlsAction)
    : outcome (AirPlayRemoteHlsActionResult * AirPlayRemoteHlsAction * AirPlayRemoteHls) :=
  if (hls_pending_media_index hls <? hls_media_count hls)%nat then
    media ← checked (hls_media hls !! hls_pending_media_index hls);
    '(event, hls) ← hls_prepare_event_locked hls (hm_source_url media);
    match event with
    | None => Done (RESULT_REWRITE_FAILED, action, hls)
    | Some event => Done (RESULT_OK, { action with ha_kind := AIRPLAY_REMOTE_HLS_ACTION_REQUEST_NEXT; ha_event := event }, hls)
    end
  else
    match hls_copy (AIRPLAY_REMOTE_HLS_LOCAL_URL_MAX + 1) (hls_playback_url hls) with
    | Done playback_url =>
        Done (RESULT_OK, { action with ha_kind := AIRPLAY_REMOTE_HLS_ACTION_READY; ha_playback_url := playback_url },
              { hls with hls_expected_request_id := 0; hls_expected_url := [] })
    | Refused => Done (RESULT_BAD_STATE, action, hls)
    | Stuck => Stuck
    end.

(** The critical section. *)
(* src: source/protocol/airplay/media/remote_hls.c 1185-1298 airplay_remote_hls_handle_action *)
Definition accept_playlist (hls : AirPlayRemoteHls) (session_id : Z) (response : PlaylistResponse)
    : outcome (AirPlayRemoteHlsActionResult * AirPlayRemoteHlsAction * AirPlayRemoteHls) :=
  if negb (hls_active hls) || negb (hls_session_id hls =? session_id) then Done (RESULT_SESSION_MISMATCH, action_zero, hls)
  else if negb (hls_expected_request_id hls =? pr_request_id response) then Done (RESULT_REQUEST_MISMATCH, action_zero, hls)
  else if negb (bool_decide (hls_expected_url hls = pr_url response)) then Done (RESULT_URL_MISMATCH, action_zero, hls)
  else
    let action := { action_zero with ha_generation := hls_generation hls } in
    if hls_expecting_master hls then
      '(accepted, hls) ← accept_master hls (pr_playlist response);
      if (accepted : bool) then next_action hls action else Done (RESULT_REWRITE_FAILED, action, hls)
    else if (hls_media_count hls <=? hls_pending_media_index hls)%nat then Done (RESULT_BAD_STATE, action, hls)
    else
      media ← checked (hls_media hls !! hls_pending_media_index hls);
      '(accepted, hls) ← accept_media hls media (pr_playlist response);
      if (accepted : bool) then next_action hls action else Done (RESULT_REWRITE_FAILED, action, hls).

(** The result, the action, and the state. *)
(* src: source/protocol/airplay/media/remote_hls.c airplay_remote_hls_handle_action *)
Definition airplay_remote_hls_handle_action (hls : AirPlayRemoteHls) (session_id : Z) (body : list Z)
    : outcome (AirPlayRemoteHlsActionResult * AirPlayRemoteHlsAction * AirPlayRemoteHls) :=
  if (session_id =? 0) || bool_decide (body = []) then Done (RESULT_INVALID_ARGUMENT, action_zero, hls)
  else
    parsed ← parse_action body;
    match parsed with
    | inl result => Done (result, action_zero, hls)
    | inr None => Done (RESULT_OK, action_zero, hls)
    | inr (Some response) => accept_playlist hls session_id response
    end.

(** ** Serving *)

(* src: source/protocol/airplay/media/remote_hls.c airplay_remote_hls_is_local_uri *)
Definition airplay_remote_hls_is_local_uri (uri : cstring) : bool := has_prefix uri AIRPLAY_REMOTE_HLS_LOCAL_PREFIX.

Definition local_master (token : cstring) : cstring := AIRPLAY_REMOTE_HLS_LOCAL_PREFIX ++ token ++ bytes "/master.m3u8".
Definition local_media (token : cstring) (index : nat) : cstring :=
  AIRPLAY_REMOTE_HLS_LOCAL_PREFIX ++ token ++ bytes "/media/" ++ format_u (Z.of_nat index) ++ bytes ".m3u8".

Definition names (uri expected : cstring) : bool := fits expected (AIRPLAY_REMOTE_HLS_LOCAL_URL_MAX + 1) && bool_decide (uri = expected).

(** The playlist of a local uri; what is served the first time is marked. *)
(* src: source/protocol/airplay/media/remote_hls.c 1339-1382 airplay_remote_hls_serve *)
Definition serve_playlist (hls : AirPlayRemoteHls) (uri : cstring) : option (list Z) * AirPlayRemoteHls :=
  if names uri (local_master (hls_token hls)) then
    match hls_master_playlist hls with
    | Some playlist => (Some playlist, { hls with hls_master_served := true })
    | None => (None, hls)
    end
  else
    match find_entry (fun index => names uri (local_media (hls_token hls) index)) (seq 0 (hls_media_count hls)) with
    | None => (None, hls)
    | Some index =>
        match hls_media hls !! index ≫= hm_playlist with
        | Some playlist => (Some playlist, { hls with hls_media ::= alter (fun m => { m with hm_served := true }) index })
        | None => (None, hls)
        end
    end.

(** Whether the request was handled, and the response, when it could be built. *)
(* src: source/protocol/airplay/media/remote_hls.c airplay_remote_hls_serve *)
Definition airplay_remote_hls_serve (hls : AirPlayRemoteHls) (request : AirPlayRtspRequest) (response : AirPlayRtspResponse)
    : bool * outcome AirPlayRtspResponse * AirPlayRemoteHls :=
  if negb (airplay_remote_hls_is_local_uri (uri request)) then (false, Done response, hls)
  else
    let response := { response with close_connection := true } in
    if negb (bool_decide (method request = bytes "GET")) then (true, airplay_rtsp_response_set_status response 405, hls)
    else if negb (hls_active hls) then (true, airplay_rtsp_response_set_status response 404, hls)
    else
      let '(playlist, hls) := serve_playlist hls (uri request) in
      match playlist with
      | None => (true, airplay_rtsp_response_set_status response 404, hls)
      | Some playlist =>
          (true,
           response ← airplay_rtsp_response_set_body alloc response playlist (Some AIRPLAY_REMOTE_HLS_CONTENT_TYPE);
           airplay_rtsp_response_add_header response (bytes "Cache-Control") (bytes "no-store"),
           hls)
      end.

(** An argument of 0 stands for any session or generation. *)
(* src: source/protocol/airplay/media/remote_hls.c airplay_remote_hls_reset *)
Definition airplay_remote_hls_reset (hls : AirPlayRemoteHls) (session_id generation : Z) : AirPlayRemoteHls :=
  if ((session_id =? 0) || (hls_session_id hls =? session_id)) && ((generation =? 0) || (hls_generation hls =? generation))
  then hls_reset_locked else hls.
End rewriting.
