(* ===== verification/RemoteHlsText.v ===== *)
(** * Remote playlists are complete, safe and faithful

    What the controller is asked for and what the player is served: the growing buffer;
    the rewritten lines; and the session as a step relation with its invariant. *)

From S2P Require Import Prelude CText Buffers SoapWriter Plist PlistDecode Rtsp RtspResponse RemoteHls.

#[local] Arguments bytes : simpl never.

(** ** The buffer *)

Definition buffer_ok (b : AirPlayRemoteHlsBuffer) : Prop :=
  0 <= hb_capacity b <= hb_limit b /\ 256 <= hb_limit b <= 2 ^ 32 /\ size (hb_data b) <= hb_capacity b.

(** There is memory. *)
Definition live (b : AirPlayRemoteHlsBuffer) : Prop := buffer_ok b /\ hb_capacity b <> 0.

Lemma buffer_of_ok limit : 256 <= limit <= 2 ^ 32 -> buffer_ok (buffer_of limit).
Proof. intros H. unfold buffer_ok. cbn. change (size (@nil Z)) with 0. lia. Qed.

Lemma reserve_loop_ends n : forall capacity required limit, 0 < capacity <= limit -> required <= limit ->
  required <= capacity * 2 ^ Z.of_nat n ->
  exists c, reserve_loop (S n) capacity required limit = Done c /\ required <= c <= limit /\ capacity <= c.
Proof.
  induction n as [|n IH]; intros capacity required limit Hc Hr Hn; cbn [reserve_loop].
  - change (2 ^ Z.of_nat 0) with 1 in Hn. rewrite (proj2 (Z.ltb_ge _ _)) by lia. exists capacity. split; [done|lia].
  - destruct (Z.ltb_spec capacity required); [|exists capacity; split; [done|lia]].
    destruct (Z.ltb_spec (limit / 2) capacity); [exists limit; split; [done|lia]|].
    rewrite Nat2Z.inj_succ, Z.pow_succ_r in Hn by lia.
    destruct (IH (capacity * 2) required limit) as (c & E & Hb); [lia|lia|lia|]. exists c. split; [exact E|lia].
Qed.

Definition fits_in (b : AirPlayRemoteHlsBuffer) (text : list Z) : bool := size (hb_data b) + size text <=? hb_limit b.

(** Appending refuses, or appends; it is undefined only when nothing is appended to a
    buffer without memory. *)
Lemma append_spec alloc b text : buffer_ok b -> (hb_capacity b <> 0 \/ text <> []) ->
  (hls_buffer_append alloc b text = Refused /\ ((forall n, alloc n = true) -> fits_in b text = false)) \/
  exists b', hls_buffer_append alloc b text = Done b' /\ live b' /\ hb_data b' = hb_data b ++ text /\ hb_limit b' = hb_limit b /\ fits_in b text = true.
Proof.
  intros (Hcap & Hlim & Hdata) Htext. unfold hls_buffer_append, hls_buffer_reserve, fits_in.
  pose proof (size_nonneg (hb_data b)) as Hs. pose proof (size_nonneg text) as Ht.
  destruct (Z.ltb_spec (hb_limit b - size (hb_data b)) (size text)) as [Hno|Hfit]; cbn [negb ensure mbind outcome_bind].
  { left. split; [done|]. intros _. apply Z.leb_gt. lia. }
  assert (Hpos : 0 < size (hb_data b) + size text \/ hb_capacity b <> 0).
  { destruct Htext as [?|Htext]; [by right|left]. destruct text as [|c text]; [done|]. rewrite size_cons in *. pose proof (size_nonneg text). lia. }
  destruct (Z.leb_spec (size (hb_data b) + size text) (hb_capacity b)) as [Hroom|Hgrow].
  - right. cbn [mbind outcome_bind]. rewrite (proj2 (Z.eqb_neq (hb_capacity b) 0)), (proj2 (Z.ltb_ge _ _)) by lia. cbn [orb].
    eexists. split; [done|]. split; [|split_and!; [done|done|by apply Z.leb_le; lia]]. split; [|cbn; lia]. unfold buffer_ok. cbn. rewrite size_app. lia.
  - unfold RESERVE_FUEL. destruct (reserve_loop_ends 65 (if hb_capacity b =? 0 then 256 else hb_capacity b) (size (hb_data b) + size text) (hb_limit b)) as (c & -> & Hc & Hc0).
    { destruct (Z.eqb_spec (hb_capacity b) 0); lia. }
    { lia. }
    { change (2 ^ Z.of_nat 65) with 36893488147419103232. destruct (Z.eqb_spec (hb_capacity b) 0); lia. }
    cbn [mbind outcome_bind]. rewrite !(proj2 (Z.ltb_ge _ _)) by lia. cbn [orb negb ensure mbind outcome_bind].
    destruct (alloc (c + 1)) eqn:Ha; cbn [ensure mbind outcome_bind]; [|left; split; [done|intros Hall; by rewrite Hall in Ha]].
    right. cbn [hb_capacity hb_data]. rewrite (proj2 (Z.eqb_neq c 0)), (proj2 (Z.ltb_ge _ _)) by lia. cbn [orb].
    eexists. split; [done|]. split; [|split_and!; [done|done|by apply Z.leb_le; lia]]. split; [|cbn; lia]. unfold buffer_ok. cbn. rewrite size_app. lia.
Qed.

(** An operation that adds [text] to a buffer with memory, when it fits and there is
    memory for it. *)
Definition grows_by (text : list Z) (b : AirPlayRemoteHlsBuffer) (m : outcome AirPlayRemoteHlsBuffer) (all : Prop) : Prop :=
  (m = Refused /\ (all -> fits_in b text = false)) \/
  exists b', m = Done b' /\ live b' /\ hb_data b' = hb_data b ++ text /\ hb_limit b' = hb_limit b /\ fits_in b text = true.

Lemma grows_append alloc b text : buffer_ok b -> (hb_capacity b <> 0 \/ text <> []) ->
  grows_by text b (hls_buffer_append alloc b text) (forall n, alloc n = true).
Proof. apply append_spec. Qed.

Lemma grows_bind b text1 text2 m k all : grows_by text1 b m all ->
  (forall b', live b' -> grows_by text2 b' (k b') all) -> grows_by (text1 ++ text2) b (m ≫= k) all.
Proof.
  intros [[-> H]|(b1 & -> & Hl1 & Hd1 & E1 & F1)] Hk; cbn [mbind outcome_bind].
  - left. split; [done|]. intros Ha. specialize (H Ha). unfold fits_in in *. apply Z.leb_gt in H. apply Z.leb_gt. rewrite size_app.
    pose proof (size_nonneg text2). lia.
  - destruct (Hk b1 Hl1) as [[-> H]|(b2 & -> & Hl2 & Hd2 & E2 & F2)].
    + left. split; [done|]. intros Ha. specialize (H Ha). unfold fits_in in *. rewrite Hd1, E1, size_app in H. rewrite size_app, Z.add_assoc. done.
    + right. exists b2. split_and!; [done|done|by rewrite Hd2, Hd1, app_assoc|congruence|].
      unfold fits_in in *. rewrite Hd1, E1, size_app in F2. by rewrite size_app, Z.add_assoc.
Qed.

(** The same for an operation that may refuse its input. *)
Definition writes (o : option (list Z)) (b : AirPlayRemoteHlsBuffer) (m : outcome AirPlayRemoteHlsBuffer) (all : Prop) : Prop :=
  match o with None => m = Refused | Some text => grows_by text b m all end.

Lemma writes_bind b o1 o2 m k all : writes o1 b m all -> (forall b', live b' -> writes o2 b' (k b') all) ->
  writes (text1 ← o1; text2 ← o2; Some (text1 ++ text2)) b (m ≫= k) all.
Proof.
  destruct o1 as [text1|]; cbn [writes mbind option_bind]; [|by intros ->]. intros Hm Hk. destruct o2 as [text2|]; cbn [mbind option_bind writes].
  - by eapply grows_bind.
  - destruct Hm as [[-> _]|(b1 & -> & Hl & _)]; [done|]. by apply Hk.
Qed.

Lemma writes_append alloc b text : buffer_ok b -> (hb_capacity b <> 0 \/ text <> []) ->
  writes (Some text) b (hls_buffer_append alloc b text) (forall n, alloc n = true).
Proof. apply grows_append. Qed.

Lemma writes_live alloc b text : live b -> writes (Some text) b (hls_buffer_append alloc b text) (forall n, alloc n = true).
Proof. intros [H1 H2]. apply grows_append; [done|by left]. Qed.

Lemma live_ok b : live b -> buffer_ok b.
Proof. by intros []. Qed.

#[local] Hint Resolve live_ok writes_live : hls.

(** The lines of a text. *)
Definition lines_text (lines : list (list Z)) : list Z := lines ≫= fun line => line ++ [10].

Definition line_text (o : option (list Z)) : option (list Z) := (fun text => text ++ [10]) <$> o.

Lemma writes_cons (f : list Z -> option (list Z)) op all line lines b : writes (line_text (f line)) b (op line b) all ->
  (forall b', live b' -> lines <> [] -> writes (lines_text <$> mapM f lines) b' (for_lines op lines b') all) ->
  writes (lines_text <$> mapM f (line :: lines)) b (for_lines op (line :: lines) b) all.
Proof.
  intros Hop Hk. cbn [mapM for_lines]. destruct (f line) as [text|]; cbn [line_text fmap option_fmap option_map writes mbind option_bind] in *; [|by rewrite Hop].
  destruct (decide (lines = [])) as [->|Hne].
  - cbn. unfold lines_text. cbn [mbind list_bind]. rewrite app_nil_r.
    destruct Hop as [[-> H]|(b1 & -> & H)]; cbn; [by left|right; by exists b1].
  - destruct (mapM f lines) as [texts|]; cbn [fmap option_fmap option_map writes mbind option_bind] in *.
    + change (lines_text (text :: texts)) with ((text ++ [10]) ++ lines_text texts). eapply grows_bind; [done|]. intros b' Hb'. by apply Hk.
    + destruct Hop as [[-> _]|(b1 & -> & Hl & _)]; [done|]. by apply Hk.
Qed.

(** A loop over lines, each of which becomes [f line]. *)
Lemma writes_lines f op all : (forall line b, live b -> writes (line_text (f line)) b (op line b) all) ->
  forall lines b, live b -> lines <> [] -> writes (lines_text <$> mapM f lines) b (for_lines op lines b) all.
Proof.
  intros Hop lines. induction lines as [|line lines IH]; intros b Hb Hne; [done|]. apply writes_cons; [by apply Hop|]. intros b' Hb'. by apply IH.
Qed.

(** ** Media playlists, line by line *)

(** A uri as the player sees it: absolute, when the url of the playlist is. *)
Definition absolute_uri (base : cstring) (uri : list Z) : option (list Z) :=
  if negb (forallb visible uri) then None
  else Some
    (if has_prefix_nocase uri (bytes "http://") || has_prefix_nocase uri (bytes "https://") then uri
     else
       match strstr_at base (bytes "://") with
       | None => uri
       | Some scheme =>
           let authority_end := match memchr 47 (drop (scheme + 3) base) with Some i => (scheme + 3 + i)%nat | None => length base end in
           let slash := bool_decide (head uri = Some 47) in
           if slash && bool_decide (uri !! 1%nat = Some 47) then take (scheme + 1) base ++ uri
           else if slash then take authority_end base ++ uri
           else
             let path_end := match last_index 47 base with
                             | Some i => if (i <? authority_end)%nat then length base else i
                             | None => length base
                             end in
             take path_end base ++ bytes "/" ++ uri
       end).

(** A line of a media playlist: its uri is made absolute. *)
Definition media_line (base : cstring) (line : list Z) : option (list Z) :=
  if bool_decide (head line = Some 35) then
    match hls_find_uri_attribute line with
    | Some (before, uri, after) => text ← absolute_uri base uri; Some (before ++ text ++ after)
    | None => Some line
    end
  else match line with [] => Some [] | _ => absolute_uri base line end.

Lemma strstr_at_take text needle i : strstr_at text needle = Some i -> take (length needle) (drop i text) = needle.
Proof.
  revert i. induction text as [|x text IH]; intros i H; cbn [strstr_at] in H; case_bool_decide as Hb.
  - by injection H as <-.
  - done.
  - by injection H as <-.
  - apply fmap_Some in H as (j & Hj & ->). exact (IH j Hj).
Qed.

Lemma strstr_at_length text needle i : strstr_at text needle = Some i -> (i + length needle <= length text)%nat.
Proof.
  intros H. pose proof (f_equal length (strstr_at_take _ _ _ H)) as E. rewrite length_take, length_drop in E.
  destruct (decide (needle = [])) as [->|Hne]; [|destruct needle; [done|]; cbn [length] in *; lia].
  clear E. cbn. revert i H. induction text as [|x text IH]; intros i H; cbn [strstr_at] in H; [injection H as <-; done|].
  rewrite bool_decide_eq_true_2 in H by done. injection H as <-. cbn. lia.
Qed.

Lemma take_nonempty {A} n (l : list A) : (0 < n)%nat -> l <> [] -> take n l <> [].
Proof. destruct n, l; [lia..|done|]. cbn. done. Qed.

Lemma absolute_writes alloc base uri b : buffer_ok b -> uri <> [] ->
  writes (absolute_uri base uri) b (hls_append_resolved_media_uri alloc b base uri) (forall n, alloc n = true).
Proof.
  intros Hb Hu. unfold absolute_uri, hls_append_resolved_media_uri. destruct (forallb visible uri); [|done]. cbn [negb ensure mbind outcome_bind].
  destruct (_ || _); [by apply writes_append; [|right]|].
  destruct (strstr_at base (bytes "://")) as [scheme|] eqn:Es; [|by apply writes_append; [|right]].
  apply strstr_at_length in Es. change (length (bytes "://")) with 3%nat in Es. assert (Hbase : base <> []) by (destruct base; [cbn in Es; lia|done]).
  cbv zeta. set (ae := match memchr 47 (drop (scheme + 3) base) with Some i => (scheme + 3 + i)%nat | None => length base end).
  assert (Hae : (0 < ae)%nat) by (unfold ae; destruct (memchr _ _); [lia|destruct base; [done|cbn; lia]]).
  assert (Htwo : forall n rest, (0 < n)%nat -> writes (Some (take n base ++ rest)) b
    (output ← hls_buffer_append alloc b (take n base); hls_buffer_append alloc output rest) (forall n, alloc n = true)).
  { intros n rest Hn. eapply grows_bind; [apply grows_append; [done|right; by apply take_nonempty]|]. intros b' Hb'. by apply writes_live. }
  destruct (_ && _); [apply Htwo; lia|]. destruct (bool_decide _); [by apply Htwo|].
  eapply grows_bind; [apply grows_append; [done|right; apply take_nonempty; [|done]]|].
  - destruct (last_index 47 base) as [i|]; [destruct (Nat.ltb_spec i ae); [|lia]|]; destruct base; cbn; [done|lia|done|lia].
  - intros b' Hb'. apply (grows_bind _ (bytes "/") uri); [by apply writes_live|]. intros b2 Hb2. by apply writes_live.
Qed.

Lemma find_uri_spec line before uri after : hls_find_uri_attribute line = Some (before, uri, after) ->
  before <> [] /\ uri <> [] /\ after <> [] /\ line = before ++ uri ++ after.
Proof.
  unfold hls_find_uri_attribute. intros H. apply bind_Some in H as (i & Hi & H).
  destruct (span (fun c => negb (c =? 34)) (drop (i + 5) line)) as [value rest] eqn:Es. apply strstr_at_length in Hi.
  change (length (quoted "URI='")) with 5%nat in Hi.
  destruct value as [|v value]; [done|]. destruct rest as [|r rest]; [done|]. injection H as <- <- <-. split_and!; try done.
  - apply take_nonempty; [lia|]. intros ->. cbn in Hi. lia.
  - destruct (span_app (fun c => negb (c =? 34)) (drop (i + 5) line)) as [_ E]. rewrite Es in E. cbn [fst snd] in E. rewrite <- E. by rewrite take_drop.
Qed.

(** Every line is followed by a newline. *)
Lemma newline_writes alloc b o m : writes o b m (forall n, alloc n = true) ->
  writes (line_text o) b (output ← m; newline alloc output) (forall n, alloc n = true).
Proof.
  destruct o as [text|]; cbn [line_text fmap option_fmap option_map writes]; [|by intros ->]. intros H. eapply grows_bind; [done|].
  intros b' Hb'. by apply writes_live.
Qed.

Lemma media_line_writes alloc base line b : buffer_ok b ->
  writes (line_text (media_line base line)) b (rewrite_media_line alloc base line b) (forall n, alloc n = true).
Proof.
  intros Hb. unfold media_line, rewrite_media_line. destruct (bool_decide (head line = Some 35)) eqn:Eh.
  - apply newline_writes. assert (Hl : line <> []) by (intros ->; by apply bool_decide_eq_true in Eh).
    destruct (hls_find_uri_attribute line) as [[[before uri] after]|] eqn:Ef; [|by apply writes_append; [|right]].
    apply find_uri_spec in Ef as (H1 & H2 & H3 & _).
    assert (E : (text ← absolute_uri base uri; Some (before ++ text ++ after)) =
      (text1 ← Some before; text2 ← (text1 ← absolute_uri base uri; text2 ← Some after; Some (text1 ++ text2)); Some (text1 ++ text2))).
    { cbn. by destruct (absolute_uri base uri). }
    rewrite E. apply writes_bind; [by apply writes_append; [|right]|]. intros b' Hb'.
    apply writes_bind; [apply absolute_writes; auto with hls|]. intros b2 Hb2. by apply writes_live.
  - destruct line as [|c line]; cbn [negb].
    + rewrite bool_decide_eq_true_2 by done. cbn [negb]. cbn [line_text fmap option_fmap option_map mbind outcome_bind app].
      apply writes_append; [done|by right].
    + rewrite bool_decide_eq_false_2 by done. cbn [negb]. apply newline_writes. by apply absolute_writes.
Qed.

(** The lines of a text that is not empty. *)
Lemma split_lines_nonempty text : text <> [] -> playlist_lines text <> [].
Proof. unfold playlist_lines. destruct text as [|c text]; [done|]. intros _. cbn [length split_lines]. by destruct (span _ _). Qed.

Definition rewritten_limit : Z := AIRPLAY_REMOTE_HLS_MAX_REWRITTEN_BYTES.

(** Lines that fit in a rewritten playlist. *)
Definition bounded (lines : option (list (list Z))) : outcome (list Z) :=
  match lines with
  | Some lines => ensure (size (lines_text lines) <=? rewritten_limit);; Done (lines_text lines)
  | None => Refused
  end.

Lemma bounded_writes (alloc : Z -> bool) o m : writes (lines_text <$> o) (buffer_of rewritten_limit) m (forall n, alloc n = true) ->
  ((output ← m; Done (hb_data output)) = Refused \/ (output ← m; Done (hb_data output)) = bounded o) /\
  ((forall n, alloc n = true) -> (output ← m; Done (hb_data output)) = bounded o).
Proof.
  destruct o as [lines|]; cbn [fmap option_fmap option_map writes bounded].
  - unfold grows_by. change (fits_in (buffer_of rewritten_limit) (lines_text lines)) with (size (lines_text lines) <=? rewritten_limit).
    intros [[-> H]|(b' & -> & _ & Hd & _ & Hf)]; cbn [mbind outcome_bind].
    + split; [by left|]. intros Ha. by rewrite (H Ha).
    + rewrite Hf, Hd. cbn. split; [by right|done].
  - intros ->. by split; [left|].
Qed.

(** ** Condensed playlists, line by line *)

(** The parameters with their values; the fuel of the code is enough. *)
Fixpoint params_text (fuel : nat) (param value : cstring) : option (list Z) :=
  match fuel with
  | O => None
  | S fuel' =>
      match param with
      | [] => Some []
      | _ =>
          let '(name, param_rest) := span (fun c => negb (c =? 44)) param in
          let last_param := bool_decide (param_rest = []) in
          let '(text, value_rest) := if last_param then (value, []) else span (fun c => negb (c =? 47)) value in
          if negb (bool_decide (name = [])) && (last_param || negb (bool_decide (value_rest = []))) && negb (bool_decide (text = [])) then
            rest ← params_text fuel' (drop 1 param_rest) (drop 1 value_rest);
            Some (bytes "/" ++ name ++ bytes "/" ++ text ++ rest)
          else None
      end
  end.

(** A line of a condensed playlist with its url written out. *)
Definition full_line (c : Condensed) (line : list Z) : option (list Z) :=
  if negb (bool_decide (line = [])) && negb (bool_decide (head line = Some 35)) then
    match strstr_at line (cd_prefix c) with
    | Some prefix_at =>
        let value := drop (prefix_at + length (cd_prefix c)) line in
        rest ← params_text (S (length (cd_params c))) (cd_params c) value;
        Some (take prefix_at line ++ cd_base c ++ (if bool_decide (cd_params c = []) then value else []) ++ rest)
    | None => Some line
    end
  else Some line.

Lemma grows_nothing b (all : Prop) : live b -> grows_by [] b (Done b) all.
Proof.
  intros Hb. right. exists b. split_and!; [done|done|by rewrite app_nil_r|done|]. destruct Hb as [(H1 & H2 & H3) _]. unfold fits_in.
  change (size (@nil Z)) with 0. apply Z.leb_le. lia.
Qed.

Lemma params_writes alloc fuel : forall param value b, (length param < fuel)%nat -> live b ->
  writes (params_text fuel param value) b (expand_params alloc fuel param value b) (forall n, alloc n = true).
Proof.
  induction fuel as [|fuel IH]; intros param value b Hf Hb; [lia|]. cbn [params_text expand_params].
  destruct param as [|p param]; [by apply grows_nothing|].
  destruct (span (fun c => negb (c =? 44)) (p :: param)) as [name param_rest] eqn:Es.
  destruct (if bool_decide (param_rest = []) then (value, []) else span (fun c => negb (c =? 47)) value) as [text value_rest].
  destruct (_ && _ && _); [|done]. cbn [ensure mbind outcome_bind].
  assert (Hlen : (length (drop 1 param_rest) < fuel)%nat).
  { destruct (span_app (fun c => negb (c =? 44)) (p :: param)) as [_ E]. rewrite Es in E. cbn [fst snd] in E.
    apply (f_equal length) in E. rewrite length_app in E. rewrite length_drop. cbn [length] in E, Hf.
    destruct name; cbn [length] in E; [|lia]. destruct param_rest; cbn [length] in *; lia. }
  assert (E : forall o : option (list Z), (rest ← o; Some (bytes "/" ++ name ++ bytes "/" ++ text ++ rest)) =
    (t1 ← Some (bytes "/"); r1 ← (t2 ← Some name; r2 ← (t3 ← Some (bytes "/"); r3 ← (t4 ← Some text; r4 ← o; Some (t4 ++ r4)); Some (t3 ++ r3)); Some (t2 ++ r2)); Some (t1 ++ r1))) by by intros [].
  rewrite E. repeat (apply writes_bind; [by apply writes_live|intros ? ?]). by apply IH.
Qed.

Lemma full_line_writes alloc c line b : buffer_ok b ->
  (hb_capacity b <> 0 \/ line <> [] /\ (head line = Some 35 \/ has_prefix line (cd_prefix c) = false)) ->
  writes (line_text (full_line c line)) b (expand_line alloc c line b) (forall n, alloc n = true).
Proof.
  intros Hb Hfirst. unfold full_line, expand_line. apply newline_writes.
  assert (Hplain : writes (Some line) b (hls_buffer_append alloc b line) (forall n, alloc n = true)).
  { apply writes_append; [done|]. destruct Hfirst as [?|[? _]]; [by left|by right]. }
  destruct (negb (bool_decide (line = [])) && negb (bool_decide (head line = Some 35))) eqn:Eu; [|done].
  destruct (strstr_at line (cd_prefix c)) as [i|] eqn:Ei; [|done]. cbv zeta.
  set (value := drop (i + length (cd_prefix c)) line).
  assert (E : forall o : option (list Z),
    (rest ← o; Some (take i line ++ cd_base c ++ (if bool_decide (cd_params c = []) then value else []) ++ rest)) =
    (t1 ← Some (take i line); r1 ← (t2 ← Some (cd_base c); r2 ← (t3 ← Some (if bool_decide (cd_params c = []) then value else []); r3 ← o; Some (t3 ++ r3)); Some (t2 ++ r2)); Some (t1 ++ r1))) by by intros [].
  rewrite E. apply writes_bind.
  { apply writes_append; [done|]. destruct Hfirst as [?|[Hl Hno]]; [by left|right]. apply take_nonempty; [|done].
    destruct i as [|i]; [exfalso|lia]. apply strstr_at_take in Ei. rewrite drop_0 in Ei. apply andb_true_iff in Eu as [_ Eu].
    destruct Hno as [Hh|Hp]; [by rewrite bool_decide_eq_true_2 in Eu|]. unfold has_prefix in Hp. rewrite bool_decide_eq_true_2 in Hp; done. }
  intros b1 Hb1. apply writes_bind; [by apply writes_live|]. intros b2 Hb2. apply writes_bind.
  - case_bool_decide; [by apply writes_live|by apply grows_nothing].
  - intros b3 Hb3. apply params_writes; [lia|done].
Qed.

(** ** The reference *)

(** The playlist with its urls written out. *)
Definition full_playlist (playlist : list Z) : outcome (list Z) :=
  c ← condensed_header (fun _ => true) (cstr_of playlist);
  match c with
  | None => Done playlist
  | Some c => bounded (mapM (full_line c) (split_tokens (length (cstr_of playlist)) (cstr_of playlist)))
  end.

(** What the player is given for a media playlist. *)
Definition local_playlist (source_url : cstring) (playlist : list Z) : outcome (list Z) :=
  full ← full_playlist playlist; bounded (mapM (media_line source_url) (playlist_lines full)).

(** Only the memory may make the difference. *)
Definition same_or_refused {A} (alloc : Z -> bool) (m reference : outcome A) : Prop :=
  (m = Refused \/ m = reference) /\ ((forall n, alloc n = true) -> m = reference).

Lemma same_bind {A B} alloc (m reference : outcome A) (k k' : A -> outcome B) : same_or_refused alloc m reference ->
  (forall a, reference = Done a -> same_or_refused alloc (k a) (k' a)) -> same_or_refused alloc (m ≫= k) (reference ≫= k').
Proof.
  intros [[->| ->] Hall] Hk.
  - split; [by left|]. intros Ha. specialize (Hall Ha). by rewrite <- Hall.
  - destruct reference as [a| |]; cbn [mbind outcome_bind]; [by apply Hk|by split; [left|]|by split; [right|]].
Qed.

Lemma same_refl {A} alloc (m : outcome A) : same_or_refused alloc m m.
Proof. split; [by right|done]. Qed.

Lemma attribute_same (alloc : Z -> bool) line name : hls_dup_quoted_attribute alloc line name = None \/
  hls_dup_quoted_attribute alloc line name = hls_dup_quoted_attribute (fun _ => true) line name.
Proof.
  unfold hls_dup_quoted_attribute. destruct (strstr_at line _) as [i|]; cbn [mbind option_bind]; [|by left].
  destruct (span _ _) as [value [|c rest]]; [by left|]. destruct (alloc _); [by right|by left].
Qed.

Lemma attribute_all (alloc : Z -> bool) line name : (forall n, alloc n = true) ->
  hls_dup_quoted_attribute alloc line name = hls_dup_quoted_attribute (fun _ => true) line name.
Proof.
  intros Ha. unfold hls_dup_quoted_attribute. destruct (strstr_at line _); [|done]. cbn [mbind option_bind].
  destruct (span _ _) as [v [|c r]]; [done|]. by rewrite Ha.
Qed.

Lemma header_same (alloc : Z -> bool) copy : same_or_refused alloc (condensed_header alloc copy) (condensed_header (fun _ => true) copy).
Proof.
  unfold condensed_header. destruct (strstr_at copy condensed_marker) as [i|]; [|apply same_refl]. cbv zeta.
  set (header := (span _ _).1). split.
  - destruct (attribute_same alloc header "BASE-URI") as [->|E1]; [by left|].
    destruct (attribute_same alloc header "PARAMS") as [->|E2]; [left; by destruct (hls_dup_quoted_attribute alloc header "BASE-URI")|].
    destruct (attribute_same alloc header "PREFIX") as [->|E3]; [left; by destruct (hls_dup_quoted_attribute alloc header "BASE-URI"), (hls_dup_quoted_attribute alloc header "PARAMS")|].
    right. by rewrite E1, E2, E3.
  - intros Ha. by rewrite !(attribute_all alloc) by done.
Qed.

(** A playlist that may be handed over starts with a tag, unless there is a byte order
    mark in front of it. *)
Lemma valid_starts playlist : hls_playlist_valid playlist = true -> has_prefix playlist bom = false -> exists rest, playlist = 35 :: rest.
Proof.
  unfold hls_playlist_valid. intros H Hb. rewrite Hb in H. destruct (_ || _); [done|]. apply andb_true_iff in H as [H _].
  apply bool_decide_eq_true in H. destruct playlist as [|c rest]; [done|]. exists rest. by injection H as ->.
Qed.

Lemma tokens_start rest : exists token tokens, split_tokens (length (cstr_of (35 :: rest))) (cstr_of (35 :: rest)) = token :: tokens /\ head token = Some 35.
Proof.
  change (cstr_of (35 :: rest)) with (35 :: cstr_of rest). cbn [length split_tokens span].
  change (negb (35 =? 10)) with true. cbv iota. destruct (span _ (cstr_of rest)) as [token rest'].
  eexists _, _. split; [done|]. case_bool_decide as Hlast; [|done]. destruct token as [|c token]; [done|]. done.
Qed.

Lemma expand_same (alloc : Z -> bool) playlist : hls_playlist_valid playlist = true -> has_prefix playlist bom = false ->
  same_or_refused alloc (hls_expand_condensed alloc playlist) (full_playlist playlist).
Proof.
  intros Hv Hb. destruct (valid_starts _ Hv Hb) as [rest ->]. unfold hls_expand_condensed, full_playlist.
  destruct (alloc (size (35 :: rest) + 1)) eqn:Ea; cbn [ensure mbind outcome_bind]; [|split; [by left|intros Ha; by rewrite Ha in Ea]].
  cbv zeta. apply same_bind; [apply header_same|]. intros [c|] _; [|apply same_refl].
  destruct (tokens_start rest) as (token & tokens & -> & Hhead). apply bounded_writes. apply writes_cons.
  - apply full_line_writes; [by apply buffer_of_ok; vm_compute|]. right. split; [by intros ->|by left].
  - intros b' Hb' Hne. apply writes_lines; [|done|done]. intros line b Hl. apply full_line_writes; [by apply live_ok|left; apply Hl].
Qed.

Lemma full_nonempty playlist full : playlist <> [] -> full_playlist playlist = Done full -> hls_playlist_valid playlist = true ->
  has_prefix playlist bom = false -> full <> [].
Proof.
  intros Hne H Hv Hb. destruct (valid_starts _ Hv Hb) as [rest ->]. unfold full_playlist in H.
  apply bind_done in H as (c & _ & H). destruct c as [c|]; [|by injection H as <-].
  destruct (tokens_start rest) as (token & tokens & E & _). rewrite E in H. unfold bounded in H. cbn [mapM] in H.
  destruct (full_line c token) as [line|]; [|done]. cbn [mbind option_bind] in H. destruct (mapM (full_line c) tokens) as [lines|]; [|done].
  cbn [mbind option_bind mret option_ret] in H. apply bind_done in H as (u & _ & H). injection H as <-. by destruct line.
Qed.

Lemma media_rewrite_same alloc source_url playlist : hls_playlist_valid playlist = true -> has_prefix playlist bom = false ->
  same_or_refused alloc (hls_rewrite_media alloc source_url playlist) (local_playlist source_url playlist).
Proof.
  intros Hv Hb. unfold hls_rewrite_media, local_playlist. apply same_bind; [by apply expand_same|]. intros full Hfull.
  apply full_nonempty in Hfull; [|by destruct (valid_starts _ Hv Hb) as [rest ->]|done|done].
  apply split_lines_nonempty in Hfull. apply bounded_writes. destruct (playlist_lines full) as [|line lines]; [done|]. apply writes_cons.
  - apply media_line_writes. apply buffer_of_ok. by vm_compute.
  - intros b' Hb' Hne. apply writes_lines; [|done|done]. intros line' b Hl. apply media_line_writes. by apply live_ok.
Qed.

Lemma local_playlist_ends source_url playlist : local_playlist source_url playlist <> Stuck.
Proof.
  unfold local_playlist, full_playlist, condensed_header.
  assert (Hb : forall o, bounded o <> Stuck) by (intros [lines|]; [unfold bounded; by destruct (_ <=? _)|done]).
  destruct (strstr_at _ _) as [i|]; cbn [mbind outcome_bind]; [|apply Hb]. cbv zeta.
  do 3 (destruct (hls_dup_quoted_attribute _ _ _); [|done]).
  destruct (_ && _); [|done]. cbn [ensure mbind outcome_bind]. destruct (bounded _) eqn:E; [apply Hb|done|by apply Hb in E].
Qed.

(** C27: What the player is served for a media playlist.  For every playlist that is
    accepted from a controller and has no byte order mark, and wherever memory runs out:
    the rewriting ends without an access outside of its buffers, and it is refused or
    gives the text of the reference - the urls of a condensed playlist written out, then
    line by line the uris made absolute and everything else as it was, at most 4 MiB.
    With enough memory it is the reference. *)
Theorem media_playlist_is_rewritten alloc source_url playlist : hls_playlist_valid playlist = true -> has_prefix playlist bom = false ->
  same_or_refused alloc (hls_rewrite_media alloc source_url playlist) (local_playlist source_url playlist).
Proof. apply media_rewrite_same. Qed.

Definition text_lines (l : list string) : list Z := l ≫= fun x => quoted x ++ [10].

Definition condensed_playlist : list Z := text_lines
  ["#EXTM3U"; "#YT-EXT-CONDENSED-URL:BASE-URI='http://v.example/seg',PARAMS='n,len',PREFIX='@'"; "#EXTINF:5,"; "@1/4k"; "#EXTINF:5,"; "part/two.ts"]%string.

Lemma media_playlist_is_rewritten_witness :
  local_playlist (bytes "mlhls://host/dir/720.m3u8") condensed_playlist = Done (text_lines
    ["#EXTM3U"; "#YT-EXT-CONDENSED-URL:BASE-URI='http://v.example/seg',PARAMS='n,len',PREFIX='@'"; "#EXTINF:5,"; "http://v.example/seg/n/1/len/4k"; "#EXTINF:5,";
     "mlhls://host/dir/part/two.ts"]%string) /\
  same_or_refused (fun n => n <? 4096) (hls_rewrite_media (fun n => n <? 4096) (bytes "mlhls://host/dir/720.m3u8") condensed_playlist)
    (local_playlist (bytes "mlhls://host/dir/720.m3u8") condensed_playlist).
Proof. split; [by vm_compute|]. apply media_playlist_is_rewritten; by vm_compute. Defined.

(** With a byte order mark as the prefix of a condensed playlist, nothing is appended to a
    buffer that has no memory yet: a null pointer is written through. *)
Definition marked_playlist : list Z := bom ++ bytes "#EXTM3U" ++ [10] ++ quoted "#YT-EXT-CONDENSED-URL:BASE-URI='u',PARAMS='',PREFIX='" ++ bom ++ quoted "'" ++ [10].

Lemma marked_playlist_crashes : hls_playlist_valid marked_playlist = true /\ hls_rewrite_media (fun _ => true) (bytes "x://h/master.m3u8") marked_playlist = Stuck.
Proof. by vm_compute. Qed.

(** Any other media playlist with a byte order mark is refused. *)
Lemma marked_playlist_refused : let playlist := bom ++ text_lines ["#EXTM3U"; "#EXTINF:5,"; "one.ts"]%string in
  hls_playlist_valid playlist = true /\ hls_rewrite_media (fun _ => true) (bytes "x://h/v.m3u8") playlist = Refused.
Proof. by vm_compute. Qed.
