(* ===== verification/RemoteHlsSession.v ===== *)
(** * A remote session: what is asked for and what is served

    Sessions begin, controllers hand over playlists, the player fetches them, sessions are
    reset, in any order and with any failures of the memory.  When playback is announced
    everything the player will ask for is there. *)

From S2P Require Import Prelude CText Buffers SoapWriter Plist PlistEncode PlistDecode PlistSafety Rtsp RtspResponse RemoteHls RemoteHlsText.

#[local] Arguments bytes : simpl never.

(** ** Registering media *)

(** What registering and counting leave alone. *)
Definition rest_of (h : AirPlayRemoteHls) : AirPlayRemoteHls :=
  { h with hls_media_count := 0%nat; hls_media := []; hls_master_variant_count := 0; hls_master_filtered_variant_count := 0;
           hls_master_audio_count := 0 }.

(** Media are only added, and no playlist changes. *)
Definition registers (h h' : AirPlayRemoteHls) : Prop :=
  rest_of h' = rest_of h /\ (hls_media_count h <= hls_media_count h')%nat /\
  (hls_media_count h <= AIRPLAY_REMOTE_HLS_MAX_MEDIA_PLAYLISTS -> hls_media_count h' <= AIRPLAY_REMOTE_HLS_MAX_MEDIA_PLAYLISTS)%nat /\
  length (hls_media h') = length (hls_media h) /\
  forall i m', hls_media h' !! i = Some m' -> exists m, hls_media h !! i = Some m /\ hm_playlist m' = hm_playlist m /\
    ((i < hls_media_count h)%nat -> hm_source_url m' = hm_source_url m).

Lemma registers_refl h : registers h h.
Proof. split_and!; try done. intros i m' H. by exists m'. Qed.

Lemma registers_trans h1 h2 h3 : registers h1 h2 -> registers h2 h3 -> registers h1 h3.
Proof.
  intros (R1 & C1 & M1 & L1 & P1) (R2 & C2 & M2 & L2 & P2). split_and!; [congruence|lia|auto|congruence|].
  intros i m3 H3. destruct (P2 i m3 H3) as (m2 & H2 & E2 & S2). destruct (P1 i m2 H2) as (m1 & H1 & E1 & S1).
  exists m1. split_and!; [done|congruence|]. intros Hi. rewrite S2, S1; [done|done|lia].
Qed.

(** The url [uri] of the master playlist is the media of index [i]. *)
Definition registered (h : AirPlayRemoteHls) (uri : list Z) (i : nat) : Prop :=
  (i < hls_media_count h)%nat /\ exists m, hls_media h !! i = Some m /\ hls_resolve_uri (hls_master_source h) uri = Done (hm_source_url m).

Lemma rest_source h h' : rest_of h' = rest_of h -> hls_master_source h' = hls_master_source h.
Proof. intros H. apply (f_equal hls_master_source) in H. exact H. Qed.

Lemma registered_mono h h' uri i : registers h h' -> (hls_media_count h' <= length (hls_media h'))%nat -> registered h uri i -> registered h' uri i.
Proof.
  intros (R & C & _ & L & P) Hlen (Hi & m & Hm & E). split; [lia|].
  destruct (lookup_lt_is_Some_2 (hls_media h') i ltac:(lia)) as [m' Hm']. exists m'. split; [done|].
  destruct (P i m' Hm') as (m0 & H0 & _ & S). rewrite (rest_source _ _ R), S by done. congruence.
Qed.

Lemma ensured {A} b (k : outcome A) : safe k (fun _ => True) -> safe (ensure b;; k) (fun _ => True).
Proof. by destruct b. Qed.

Lemma url_fits_safe text : safe (url_fits text) (fun _ => True).
Proof. by apply ensured. Qed.

Lemma resolve_safe base reference : safe (hls_resolve_uri base reference) (fun _ => True).
Proof.
  unfold hls_resolve_uri. apply ensured. destruct (hls_has_scheme reference); [by apply ensured|]. cbv zeta.
  destruct (_ && _); [destruct (strstr_at _ _); [apply url_fits_safe|done]|].
  destruct (strstr_at _ _) as [i|]; [destruct (bool_decide _); [apply url_fits_safe|]|]; (destruct (last_index 47 base); [apply url_fits_safe|done]).
Qed.

Lemma register_media_spec h uri : (hls_media_count h <= AIRPLAY_REMOTE_HLS_MAX_MEDIA_PLAYLISTS)%nat ->
  length (hls_media h) = AIRPLAY_REMOTE_HLS_MAX_MEDIA_PLAYLISTS ->
  safe (hls_register_media_locked h (hls_master_source h) uri) (fun p => registers h p.2 /\ registered p.2 uri p.1).
Proof.
  intros Hc Hl. unfold hls_register_media_locked. destruct (hls_resolve_uri (hls_master_source h) uri) as [resolved| |] eqn:Er; [|done|].
  - cbn [mbind outcome_bind]. destruct (find_entry _ _) as [i|] eqn:Ef.
    + apply find_entry_some in Ef as (m & Hm & Hu). apply lookup_take_Some in Hm as [Hm Hi]. apply bool_decide_eq_true in Hu.
      cbn. split; [apply registers_refl|]. split; [done|]. exists m. split; [done|]. by rewrite Hu.
    + destruct (Nat.leb_spec AIRPLAY_REMOTE_HLS_MAX_MEDIA_PLAYLISTS (hls_media_count h)) as [|Hlt]; [done|]. cbn [negb ensure mbind outcome_bind safe].
      cbv zeta. set (i := hls_media_count h) in *. cbn [fst snd]. split.
      * split_and!; cbn; try done; [unfold i; lia|by rewrite length_alter|]. intros j m' Hm'.
        apply alter_lookup in Hm' as [(-> & m & Hm & ->)|[Hne Hm]]; [exists m; split_and!; [done|done|intros Hx; exfalso; unfold i in *; lia]|by exists m'].
      * destruct (lookup_lt_is_Some_2 (hls_media h) i ltac:(lia)) as [m Hm]. split; [cbn; lia|].
        exists { m with hm_source_url := resolved }. split; [|exact Er]. cbn. apply alter_lookup. left. split; [done|]. by exists m.
  - pose proof (resolve_safe (hls_master_source h) uri) as H. by rewrite Er in H.
Qed.

(** ** The lines of a master playlist *)

(** The uri of a playlist in a line, with the text around it. *)
Definition local_reference (line : list Z) : option (list Z * list Z * list Z) :=
  if bool_decide (head line = Some 35) then
    match hls_find_uri_attribute line with
    | Some (before, uri, after) => if hls_uri_span_is_playlist uri then Some (before, uri, after) else None
    | None => None
    end
  else if negb (bool_decide (line = [])) && hls_uri_span_is_playlist line then Some ([], line, []) else None.

(** [line'] is what the player reads for [line]: the same, or the uri of a playlist is the
    local uri of the registered media. *)
Definition localized (h : AirPlayRemoteHls) (p : list Z * list Z) : Prop :=
  match local_reference p.1 with
  | None => p.2 = p.1
  | Some (before, uri, after) => exists i, registered h uri i /\ p.2 = before ++ local_media_uri i ++ after
  end.

(** Whether a line is kept, and whether the uri of the variant it announces will be. *)
Definition line_fate (prefer_h264 keep_next : bool) (line : list Z) : bool * bool :=
  if has_prefix line stream_inf then
    let keep := negb prefer_h264 || negb (bool_decide (hls_stream_video_codec line = HLS_VIDEO_CODEC_OTHER)) in (keep, keep)
  else if negb (bool_decide (head line = Some 35)) && negb (bool_decide (line = [])) && hls_uri_span_is_playlist line && negb keep_next
  then (false, true)
  else (true, keep_next).

(** The lines that are kept: without the variants in other codecs when there is one in
    H.264. *)
Fixpoint kept_lines (prefer_h264 keep_next : bool) (lines : list (list Z)) : list (list Z) :=
  match lines with
  | [] => []
  | line :: lines' =>
      let '(kept, keep_next) := line_fate prefer_h264 keep_next line in
      if kept then line :: kept_lines prefer_h264 keep_next lines' else kept_lines prefer_h264 keep_next lines'
  end.

Definition table_ok (h : AirPlayRemoteHls) : Prop :=
  (hls_media_count h <= AIRPLAY_REMOTE_HLS_MAX_MEDIA_PLAYLISTS)%nat /\ length (hls_media h) = AIRPLAY_REMOTE_HLS_MAX_MEDIA_PLAYLISTS.

Lemma registers_table h h' : registers h h' -> table_ok h -> table_ok h'.
Proof. intros (_ & _ & M & L & _) [Hc Hl]. split; [auto|congruence]. Qed.

Lemma localized_mono h h' p : registers h h' -> table_ok h' -> localized h p -> localized h' p.
Proof.
  intros Hr [Hc Hl] H. unfold localized in *. destruct (local_reference p.1) as [[[before uri] after]|]; [|done].
  destruct H as (i & Hi & E). exists i. split; [|done]. eapply registered_mono; [done|lia|done].
Qed.

Definition loop_ok (l : MasterLoop) : Prop := buffer_ok (ml_output l) /\ table_ok (ml_hls l).

(** What a step did: it ended, and when it succeeded the buffer has grown by [text]. *)
Definition advances (l : MasterLoop) (text : AirPlayRemoteHls -> list Z -> Prop) (r : loop_step) : Prop :=
  exists ok l', r = Done (ok, l') /\ loop_ok l' /\ registers (ml_hls l) (ml_hls l') /\ ml_keep_next l' = ml_keep_next l /\
    (ok = true -> hb_capacity (ml_output l') <> 0 /\ exists t, text (ml_hls l') t /\ hb_data (ml_output l') = hb_data (ml_output l) ++ t).

Lemma extend_advances l text m all : loop_ok l -> grows_by text (ml_output l) m all -> advances l (fun _ t => t = text) (extend l m).
Proof.
  intros [Hb Ht] [[-> _]|(b & -> & [Hb' Hc] & Hd & _)]; cbn [extend].
  - exists false, l. split_and!; try done. apply registers_refl.
  - eexists true, _. split; [done|]. split; [by split|]. split; [apply registers_refl|]. split; [done|]. intros _. split; [done|]. by exists text.
Qed.

Section master.
Context (alloc : Z -> bool).

Lemma append_line_advances line l : loop_ok l -> (hb_capacity (ml_output l) <> 0 \/ line <> []) ->
  advances l (fun _ t => t = line ++ [10]) (append_line alloc line l).
Proof.
  intros Hl Hne. eapply extend_advances; [done|]. eapply grows_bind; [apply grows_append; [apply Hl|done]|]. intros b Hb. by apply writes_live.
Qed.

Lemma local_uri_fits i : (i < 16)%nat -> (size (local_media_uri i) <? 32) = true /\ local_media_uri i <> [].
Proof. intros Hi. do 16 (destruct i as [|i]; [by vm_compute|]). lia. Qed.

Lemma advances_registers l h (P Q : AirPlayRemoteHls -> list Z -> Prop) r : registers (ml_hls l) h ->
  advances (mkLoop (ml_output l) (ml_keep_next l) h) P r -> (forall h' t, registers h h' -> table_ok h' -> P h' t -> Q h' t) -> advances l Q r.
Proof.
  intros Hr (ok & l' & -> & Hok & Hr' & Hk & Hdone) HPQ. exists ok, l'. split; [done|]. split; [done|]. split; [by eapply registers_trans|]. split; [done|].
  intros E. destruct (Hdone E) as (Hc & t & Ht & Hd). split; [done|]. exists t. split; [by apply HPQ; [| apply Hok|]|done].
Qed.

Lemma append_local_advances around uri l : loop_ok l -> (match around with Some (before, _) => before <> [] | None => True end) ->
  advances l (fun h t => exists i, registered h uri i /\ t = (match around with Some (before, _) => before | None => [] end) ++ local_media_uri i ++
    (match around with Some (_, after) => after | None => [] end) ++ [10]) (append_local alloc around uri l).
Proof.
  intros [Hb [Hc Hl]] Hne. unfold append_local. destruct (AIRPLAY_REMOTE_HLS_URL_MAX <? size uri).
  { exists false, l. split_and!; try done. apply registers_refl. }
  pose proof (register_media_spec (ml_hls l) uri Hc Hl) as Hreg.
  destruct (hls_register_media_locked (ml_hls l) (hls_master_source (ml_hls l)) uri) as [[i h]| |]; [|exists false, l; split_and!; try done; apply registers_refl|done].
  cbn [safe fst snd] in Hreg. destruct Hreg as [Hr Hi]. assert (Ht : table_ok h) by (by eapply registers_table).
  assert (Hi16 : (i < 16)%nat) by (destruct Hi as [Hi _], Ht as [Hc' _]; unfold AIRPLAY_REMOTE_HLS_MAX_MEDIA_PLAYLISTS in Hc'; lia).
  destruct (local_uri_fits i Hi16) as [Hfit Hlne].
  set (before := match around with Some (before, _) => before | None => [] end). set (after := match around with Some (_, after) => after | None => [] end).
  apply (advances_registers _ h (fun _ t => t = before ++ local_media_uri i ++ after ++ [10])); [done| |].
  - assert (Hlocal : forall b, buffer_ok b -> grows_by (local_media_uri i) b (hls_append_local_media_uri alloc b i) (forall n, alloc n = true)).
    { intros b Hb'. unfold hls_append_local_media_uri. rewrite Hfit. cbn [ensure mbind outcome_bind]. apply grows_append; [done|by right]. }
    eapply (extend_advances (mkLoop (ml_output l) (ml_keep_next l) h)); [by split|]. destruct around as [[bf af]|]; cbn [ml_output].
    + apply grows_bind; [apply grows_append; [done|by right]|]. intros b1 Hb1. apply grows_bind; [by apply Hlocal, live_ok|]. intros b2 Hb2.
      apply grows_bind; [by apply writes_live|]. intros b3 Hb3. by apply writes_live.
    + cbn [mbind outcome_bind]. apply (grows_bind _ (local_media_uri i) [10]); [by apply Hlocal|]. intros b2 Hb2. cbn [mbind outcome_bind]. by apply writes_live.
  - intros h' t Hr' [Hc' Hl'] ->. exists i. split; [|done]. eapply registered_mono; [done|lia|done].
Qed.
End master.

Section master_lines.
Context (alloc : Z -> bool).

(** One line: it is left out, or it is written as the player reads it. *)
Definition line_done (line : list Z) (kept : bool) (keep_next : bool) (l : MasterLoop) (r : loop_step) : Prop :=
  exists ok l', r = Done (ok, l') /\ loop_ok l' /\ registers (ml_hls l) (ml_hls l') /\
    (ok = true -> ml_keep_next l' = keep_next /\
      if kept then hb_capacity (ml_output l') <> 0 /\
        exists line', localized (ml_hls l') (line, line') /\ hb_data (ml_output l') = hb_data (ml_output l) ++ line' ++ [10]
      else ml_output l' = ml_output l).

Lemma advances_done line keep_next l h (P : AirPlayRemoteHls -> list Z -> Prop) r :
  registers (ml_hls l) h -> advances (mkLoop (ml_output l) keep_next h) P r ->
  (forall h' t, P h' t -> exists line', localized h' (line, line') /\ t = line' ++ [10]) -> line_done line true keep_next l r.
Proof.
  intros Hr (ok & l' & -> & Hok & Hr' & Hk & Hdone) HP. exists ok, l'. split; [done|]. split; [done|]. split; [by eapply registers_trans|].
  intros E. destruct (Hdone E) as (Hc & t & Ht & Hd). split; [done|]. split; [done|]. destruct (HP _ _ Ht) as (line' & Hl & ->). by exists line'.
Qed.

Lemma count_line_fate prefer line l : let '(l', kept) := count_line prefer line l in
  registers (ml_hls l) (ml_hls l') /\ ml_output l' = ml_output l /\
  (has_prefix line stream_inf = true -> line_fate prefer (ml_keep_next l) line = (kept, ml_keep_next l')) /\
  (has_prefix line stream_inf = false -> kept = true /\ ml_keep_next l' = ml_keep_next l).
Proof.
  unfold count_line, line_fate. destruct (has_prefix line stream_inf) eqn:Es.
  - cbn. split; [|done]. destruct (negb prefer || _); (split_and!; try done; intros i m' H; by exists m').
  - destruct (has_prefix line media_tag); [|split_and!; try done; apply registers_refl].
    cbn. split; [|done]. split_and!; try done. intros i m' H. by exists m'.
Qed.

Lemma stream_inf_head line : has_prefix line stream_inf = true -> head line = Some 35.
Proof. intros H. apply bool_decide_eq_true in H. destruct line as [|c line]; [done|]. by injection H as ->. Qed.

Lemma line_advances prefer line l : loop_ok l ->
  (hb_capacity (ml_output l) <> 0 \/ line <> []) ->
  line_done line (line_fate prefer (ml_keep_next l) line).1 (line_fate prefer (ml_keep_next l) line).2 l (rewrite_master_line alloc prefer line l).
Proof.
  intros Hl Hne. unfold rewrite_master_line. pose proof (count_line_fate prefer line l) as Hcount.
  destruct (count_line prefer line l) as [l1 kept]. destruct Hcount as (Hr & Hout & Hyes & Hno).
  assert (Hl1 : loop_ok l1) by (split; [rewrite Hout; apply Hl|eapply registers_table; [done|apply Hl]]).
  assert (Hne1 : hb_capacity (ml_output l1) <> 0 \/ line <> []) by by rewrite Hout.
  assert (Eta1 : l1 = mkLoop (ml_output l) (ml_keep_next l1) (ml_hls l1)) by (rewrite <- Hout; by destruct l1).
  assert (Hplain : local_reference line = None -> line_done line true (ml_keep_next l1) l (append_line alloc line l1)).
  { intros Hlr. rewrite Eta1. eapply advances_done; [done|apply append_line_advances; [by rewrite <- Eta1|by rewrite <- Eta1]|].
    intros h' t ->. exists line. split; [|done]. unfold localized. cbn. by rewrite Hlr. }
  assert (Hlocal : forall around before uri after, local_reference line = Some (before, uri, after) ->
    around = Some (before, after) /\ before <> [] \/ around = None /\ before = [] /\ after = [] ->
    line_done line true (ml_keep_next l1) l (append_local alloc around uri l1)).
  { intros around before uri after Hlr Ha. eapply (advances_done _ _ _ (ml_hls l1)); [done| |].
    - rewrite <- Eta1. apply append_local_advances; [done|]. by destruct Ha as [[-> ?]|(-> & _)].
    - intros h' t (i & Hi & ->). exists (before ++ local_media_uri i ++ after). split.
      + unfold localized. cbn. rewrite Hlr. by exists i.
      + destruct Ha as [[-> _]|(-> & -> & ->)]; cbn [app]; by rewrite <- ?app_assoc. }
  assert (Htag : head line = Some 35 -> line_done line true (ml_keep_next l1) l
    (match hls_find_uri_attribute line with
     | Some (before, uri, after) => if hls_uri_span_is_playlist uri then append_local alloc (Some (before, after)) uri l1 else append_line alloc line l1
     | None => append_line alloc line l1
     end)).
  { intros Hhead. assert (Elr : local_reference line = match hls_find_uri_attribute line with
      | Some (before, uri, after) => if hls_uri_span_is_playlist uri then Some (before, uri, after) else None | None => None end)
      by (unfold local_reference; by rewrite bool_decide_eq_true_2).
    destruct (hls_find_uri_attribute line) as [[[before uri] after]|] eqn:Ef; [|by apply Hplain].
    destruct (hls_uri_span_is_playlist uri); [|by apply Hplain]. apply find_uri_spec in Ef as (Hb & _). eapply Hlocal; [done|by left]. }
  destruct (has_prefix line stream_inf) eqn:Es.
  - rewrite (Hyes eq_refl). cbn [fst snd]. pose proof (stream_inf_head _ Es) as Hhead. destruct kept; cbn [negb]; [|by exists true, l1].
    rewrite bool_decide_eq_true_2 by done. by apply Htag.
  - destruct (Hno eq_refl) as [-> Hk]. cbn [negb]. unfold line_fate. rewrite Es, <- Hk.
    destruct (bool_decide (head line = Some 35)) eqn:Eh; cbn [negb andb]; [apply Htag; by apply bool_decide_eq_true in Eh|].
    destruct (negb (bool_decide (line = [])) && hls_uri_span_is_playlist line) eqn:Eu.
    + destruct (ml_keep_next l1) eqn:Ek; cbn [negb andb fst snd].
      * eapply (Hlocal None [] line []); [unfold local_reference; by rewrite Eh, Eu|by right].
      * exists true, (mkLoop (ml_output l1) true (ml_hls l1)). split; [done|]. split; [exact Hl1|]. split; [exact Hr|]. intros _. by split.
    + cbn [andb fst snd]. apply Hplain. unfold local_reference. by rewrite Eh, Eu.
Qed.

(** All the lines. *)
Lemma lines_advance prefer lines : forall l, loop_ok l ->
  (hb_capacity (ml_output l) <> 0 \/ match lines with line :: _ => line <> [] /\ has_prefix line stream_inf = false /\ ml_keep_next l = true | [] => True end) ->
  exists ok l', rewrite_master_lines alloc prefer lines l = Done (ok, l') /\ loop_ok l' /\ registers (ml_hls l) (ml_hls l') /\
    (ok = true -> exists kept, map fst kept = kept_lines prefer (ml_keep_next l) lines /\ Forall (localized (ml_hls l')) kept /\
      hb_data (ml_output l') = hb_data (ml_output l) ++ lines_text (map snd kept)).
Proof.
  induction lines as [|line lines IH]; intros l Hl Hne; cbn [rewrite_master_lines kept_lines].
  { exists true, l. split_and!; try done; [apply registers_refl|]. intros _. exists []. split_and!; [done|constructor|by rewrite app_nil_r]. }
  destruct (line_advances prefer line l Hl) as (ok & l1 & -> & Hl1 & Hr1 & Hdone); [destruct Hne as [?|(? & _)]; [by left|by right]|].
  cbn [mbind outcome_bind]. destruct ok; [|by exists false, l1]. destruct (Hdone eq_refl) as [Hk1 Hkept].
  destruct (line_fate prefer (ml_keep_next l) line) as [kept keep] eqn:Ef. cbn [fst snd] in Hk1, Hkept.
  assert (Hlive : kept = true \/ kept = false /\ hb_capacity (ml_output l) <> 0).
  { destruct kept; [by left|right]. split; [done|]. destruct Hne as [?|(_ & Hs & Hkn)]; [done|exfalso].
    unfold line_fate in Ef. rewrite Hs, Hkn in Ef. by rewrite andb_false_r in Ef. }
  destruct (IH l1 Hl1) as (ok & l2 & -> & Hl2 & Hr2 & Hdone2).
  { left. destruct Hlive as [->|[-> Hc]]; [apply Hkept|by rewrite Hkept]. }
  exists ok, l2. split; [done|]. split; [done|]. split; [by eapply registers_trans|]. intros E.
  destruct (Hdone2 E) as (rest & Hm & Hf & Hd). rewrite Hk1 in Hm. destruct kept.
  - destruct Hkept as (_ & line' & Hloc & Hd1). exists ((line, line') :: rest). cbn [map fst snd]. split_and!; [by f_equal| |].
    + constructor; [|done]. eapply localized_mono; [done|apply Hl2|done].
    + rewrite Hd, Hd1. change (lines_text (line' :: map snd rest)) with ((line' ++ [10]) ++ lines_text (map snd rest)). by rewrite !app_assoc.
  - exists rest. split_and!; [done|done|by rewrite Hd, Hkept].
Qed.
End master_lines.

(** ** Asking for a playlist *)

Lemma append_safe alloc b text : live b -> safe (hls_buffer_append alloc b text) live.
Proof. intros Hb. destruct (writes_live alloc b text Hb) as [[-> _]|(b' & -> & H & _)]; done. Qed.

Lemma xml_safe alloc text : forall b pending, live b -> safe (xml_append_from alloc b pending text) live.
Proof.
  induction text as [|c text IH]; intros b pending Hb; cbn [xml_append_from]; [by apply append_safe|].
  destruct (xml_entity c); [|by apply IH]. eapply safe_bind; [by apply append_safe|]. intros b1 Hb1.
  eapply safe_bind; [by apply append_safe|]. intros b2 Hb2. by apply IH.
Qed.

Lemma event_body_safe alloc url request_id apple : safe (hls_build_event_body alloc url request_id apple) (fun _ => True).
Proof.
  unfold hls_build_event_body. cbv zeta. eapply (safe_bind _ _ live).
  { destruct (grows_append alloc (buffer_of (64 * 1024)) event_prefix) as [[E _]|(b & E & H & _)].
    - apply buffer_of_ok. by vm_compute.
    - right. by vm_compute.
    - unfold hls_buffer_append_text. by rewrite E.
    - unfold hls_buffer_append_text. by rewrite E. }
  intros b1 H1. eapply safe_bind; [by apply append_safe|]. intros b2 H2. eapply safe_bind; [by apply append_safe|]. intros b3 H3.
  eapply safe_bind; [by apply xml_safe|]. intros b4 H4. eapply safe_bind; [by apply append_safe|]. intros b5 H5.
  eapply safe_bind; [by apply xml_safe|]. intros b6 H6. by eapply safe_bind; [apply append_safe|].
Qed.

(** What asking leaves alone. *)
Definition but_question (h : AirPlayRemoteHls) : AirPlayRemoteHls :=
  { h with hls_next_request_id := 0; hls_expected_request_id := 0; hls_expected_url := [] }.

Lemma prepare_spec alloc h url : hls_active h = true ->
  safe (hls_prepare_event_locked alloc h url) (fun p => but_question p.2 = but_question h /\
    match p.1 with
    | Some event => hls_expected_request_id p.2 = he_request_id event /\ he_request_id event <> 0
    | None => hls_expected_request_id p.2 = hls_expected_request_id h
    end).
Proof.
  intros Ha. unfold hls_prepare_event_locked. rewrite Ha. cbn [negb]. cbv zeta.
  set (id := if inc32 (hls_next_request_id h) =? 0 then inc32 (inc32 (hls_next_request_id h)) else inc32 (hls_next_request_id h)).
  assert (Hid : id <> 0).
  { unfold id. destruct (Z.eqb_spec (inc32 (hls_next_request_id h)) 0) as [->|]; [by vm_compute|done]. }
  unfold hls_copy. destruct (negb _); cbn [ensure mbind outcome_bind]; [|by split].
  pose proof (event_body_safe alloc url id (hls_apple_session_id h)) as Hs. cbn [hls_apple_session_id upd].
  change (hls_apple_session_id (upd hls_expected_url (fun _ => url) (upd hls_next_request_id (fun _ => id) h))) with (hls_apple_session_id h).
  destruct (hls_build_event_body alloc url id (hls_apple_session_id h)); [by split|by split|done].
Qed.

(** ** The invariant *)

(** [text] was made of a playlist that was handed over for [source_url]. *)
Definition media_text (source_url : cstring) (text : list Z) : Prop :=
  exists alloc playlist, hls_playlist_valid playlist = true /\ hls_rewrite_media alloc source_url playlist = Done text.

(** [text] was made of a master playlist: its lines are kept and its playlists are the
    local ones of the registered media; or it names no playlist and is played itself. *)
Definition master_text (h : AirPlayRemoteHls) (text : list Z) : Prop :=
  (hls_media_count h = 0%nat /\ media_text (hls_master_source h) text) \/
  (0 < hls_media_count h)%nat /\ exists playlist kept, hls_playlist_valid playlist = true /\
    map fst kept = kept_lines (hls_master_has_h264_variant playlist) true (playlist_lines playlist) /\
    Forall (localized h) kept /\ text = lines_text (map snd kept).

(** The playlists that were handed over are there, the others are not. *)
Definition progress_ok (h : AirPlayRemoteHls) : Prop :=
  if hls_expecting_master h then hls_master_playlist h = None /\ (forall i m, hls_media h !! i = Some m -> hm_playlist m = None) /\
    hls_expected_request_id h <> 0
  else
    (exists text, hls_master_playlist h = Some text /\ master_text h text) /\
    (hls_pending_media_index h <= hls_media_count h)%nat /\
    (forall i m, hls_media h !! i = Some m ->
      if (i <? hls_pending_media_index h)%nat then exists text, hm_playlist m = Some text /\ media_text (hm_source_url m) text
      else hm_playlist m = None) /\
    (hls_expected_request_id h = 0 -> hls_pending_media_index h = hls_media_count h).

Record session_ok (h : AirPlayRemoteHls) : Prop := {
  so_table : table_ok h;
  so_idle : hls_active h = false -> h = hls_reset_locked;
  so_token : hls_active h = true -> hls_token h = hls_token_of (hls_session_id h) (hls_generation h);
  so_url : hls_active h = true -> hls_playback_url h = playback_url_of (hls_control_port h) (hls_token h) /\
    fits (hls_playback_url h) (AIRPLAY_REMOTE_HLS_LOCAL_URL_MAX + 1) = true;
  so_progress : hls_active h = true -> progress_ok h
}.

Lemma reset_ok : session_ok hls_reset_locked.
Proof. split; try done. split; [cbn; unfold AIRPLAY_REMOTE_HLS_MAX_MEDIA_PLAYLISTS; lia|done]. Qed.

Lemma only_question h h' : but_question h' = but_question h ->
  h' = { h with hls_next_request_id := hls_next_request_id h'; hls_expected_request_id := hls_expected_request_id h';
                hls_expected_url := hls_expected_url h' }.
Proof. intros Hq. destruct h, h'. unfold but_question in Hq. injection Hq. intros. by subst. Qed.

(** The media keep their sources. *)
Definition same_sources (h h' : AirPlayRemoteHls) : Prop :=
  hls_media_count h' = hls_media_count h /\ hls_master_source h' = hls_master_source h /\
  forall j m, hls_media h !! j = Some m -> exists m', hls_media h' !! j = Some m' /\ hm_source_url m' = hm_source_url m.

Lemma alter_sources (f : AirPlayRemoteHlsMedia -> AirPlayRemoteHlsMedia) (i : nat) (l : list AirPlayRemoteHlsMedia) : (forall m, hm_source_url (f m) = hm_source_url m) ->
  forall (j : nat) m, l !! j = Some m -> exists m', alter f i l !! j = Some m' /\ hm_source_url m' = hm_source_url m.
Proof.
  intros Hf j m Hj. destruct (decide (j = i)) as [->|Hne].
  - exists (f m). split; [|done]. apply alter_lookup. left. split; [done|]. by exists m.
  - exists m. split; [|done]. apply alter_lookup. by right.
Qed.

Lemma localized_same h h' p : same_sources h h' -> localized h p -> localized h' p.
Proof.
  intros (Hc & Hs & Hm) Hl. unfold localized in *. destruct (local_reference p.1) as [[[before uri] after]|]; [|done].
  destruct Hl as (i & (Hi & m & Hmi & Hr) & E). destruct (Hm i m Hmi) as (m' & Hm' & Eu). exists i. split; [|done].
  split; [by rewrite Hc|]. exists m'. split; [done|]. by rewrite Hs, Eu.
Qed.

Lemma master_text_same h h' text : same_sources h h' -> master_text h text -> master_text h' text.
Proof.
  intros Hs [[E Ht]|(Hpos & playlist & kept & Hv & Hk & Hf & Htext)]; pose proof Hs as (Hc & Hm & _).
  - left. rewrite Hc, Hm. by split.
  - right. rewrite Hc. split; [done|]. exists playlist, kept. split_and!; [done|done| |done]. eapply Forall_impl; [exact Hf|]. intros p. by apply localized_same.
Qed.

(** Asking keeps the invariant. *)
Lemma asked_ok h h' : but_question h' = but_question h -> hls_active h = true ->
  (hls_expected_request_id h' <> 0 \/ hls_expected_request_id h' = hls_expected_request_id h) -> session_ok h -> session_ok h'.
Proof.
  intros Hq Ha Hid [Ht Hi Htok Hurl Hp].
  pose proof (only_question _ _ Hq) as E.
  revert Hid E. generalize (hls_next_request_id h') (hls_expected_request_id h') (hls_expected_url h'). intros a id c Hid ->.
  specialize (Hp Ha). split; [exact Ht|intros Hf; exfalso; change (hls_active h = false) in Hf; congruence|exact Htok|exact Hurl|intros _].
  unfold progress_ok in *. cbn [upd].
  change (hls_expecting_master (upd hls_expected_url (fun _ => c) (upd hls_expected_request_id (fun _ => id) (upd hls_next_request_id (fun _ => a) h)))) with (hls_expecting_master h).
  destruct (hls_expecting_master h).
  - destruct Hp as (H1 & H2 & H3). split_and!; [exact H1|exact H2|]. destruct Hid as [?| ->]; [done|exact H3].
  - destruct Hp as (H1 & H2 & H3 & H4). split_and!; [exact H1|exact H2|exact H3|]. intros E. destruct Hid as [?|E2]; [done|]. apply H4. cbn in E. congruence.
Qed.

(** ** Playlists that are handed over *)

Lemma span_skip p (l1 l2 : cstring) : forallb p l1 = true -> span p (l1 ++ l2) = (l1 ++ (span p l2).1, (span p l2).2).
Proof.
  induction l1 as [|x l1 IH]; cbn [forallb span app]; [by destruct (span p l2)|]. intros [Hx H]%andb_true_iff. by rewrite Hx, IH.
Qed.

(** No playlist starts with an empty line, or with a variant. *)
Lemma first_line playlist : hls_playlist_valid playlist = true ->
  exists line lines, playlist_lines playlist = line :: lines /\ line <> [] /\ has_prefix line stream_inf = false.
Proof.
  intros Hv. assert (exists start rest, playlist = start ++ rest /\ (start = bytes "#EXTM3U" \/ start = bom ++ bytes "#EXTM3U")) as (start & rest & -> & Hstart).
  { unfold hls_playlist_valid in Hv. destruct (_ || _); [done|]. destruct (has_prefix playlist bom) eqn:Hb; apply andb_true_iff in Hv as [Hv _]; apply bool_decide_eq_true in Hv.
    - apply bool_decide_eq_true in Hb. exists (bom ++ bytes "#EXTM3U"), (drop 7 (drop 3 playlist)). split; [|by right].
      rewrite <- Hv at 1. rewrite <- Hb at 1. change (length bom) with 3%nat. by rewrite <- app_assoc, !take_drop.
    - exists (bytes "#EXTM3U"), (drop 7 playlist). split; [|by left]. rewrite <- Hv at 1. by rewrite take_drop. }
  clear Hv. unfold playlist_lines.
  assert (Hlen : exists n, length (start ++ rest) = S n) by (destruct Hstart as [-> | ->]; by eexists). destruct Hlen as [n ->].
  assert (Hspan : exists tail rest', span (fun c => negb (c =? 10)) (start ++ rest) = (start ++ tail, rest')).
  { eexists _, _. apply span_skip. by destruct Hstart as [-> | ->]; vm_compute. }
  destruct Hspan as (tail & rest' & Hspan). cbn [split_lines]. destruct (start ++ rest) eqn:Er; [by destruct Hstart as [-> | ->]|]. rewrite Hspan.
  eexists _, _. split; [done|]. case_bool_decide as Hlast.
  - assert (tail <> []) by (intros ->; rewrite app_nil_r in Hlast; by destruct Hstart as [-> | ->]).
    rewrite removelast_app by done. by destruct Hstart as [-> | ->].
  - by destruct Hstart as [-> | ->].
Qed.

Lemma rewrite_ends alloc url playlist : hls_playlist_valid playlist = true -> has_prefix playlist bom = false ->
  hls_rewrite_media alloc url playlist <> Stuck.
Proof. intros Hv Hb. destruct (media_rewrite_same alloc url playlist Hv Hb) as [[-> | ->] _]; [done|apply local_playlist_ends]. Qed.

Lemma rest_fields h h' : rest_of h' = rest_of h ->
  hls_active h' = hls_active h /\ hls_token h' = hls_token h /\ hls_session_id h' = hls_session_id h /\ hls_generation h' = hls_generation h /\
  hls_control_port h' = hls_control_port h /\ hls_playback_url h' = hls_playback_url h /\ hls_expecting_master h' = hls_expecting_master h /\
  hls_master_playlist h' = hls_master_playlist h /\ hls_expected_request_id h' = hls_expected_request_id h /\ hls_master_source h' = hls_master_source h.
Proof. intros H. destruct h, h'. unfold rest_of in H. injection H. intros. by subst. Qed.

(** The record without what a session makes progress in. *)
Lemma session_ok_with h h' : session_ok h -> table_ok h' -> hls_active h = true -> hls_active h' = true ->
  hls_token h' = hls_token h -> hls_session_id h' = hls_session_id h -> hls_generation h' = hls_generation h ->
  hls_control_port h' = hls_control_port h -> hls_playback_url h' = hls_playback_url h -> progress_ok h' -> session_ok h'.
Proof.
  intros [Ht Hi Htok Hurl Hp] Ht' Ha Ha' E1 E2 E3 E4 E5 Hp'. split; [done|by rewrite Ha'|by rewrite E1, E2, E3; auto|by rewrite E5, E4, E1; auto|done].
Qed.

(** What holds afterwards; only a playlist with a byte order mark gets stuck. *)
Definition safe_or {A} (marked : bool) (m : outcome A) (Q : A -> Prop) : Prop :=
  match m with Done a => Q a | Refused => True | Stuck => marked = true end.

Lemma safe_or_bind {A B} marked (m : outcome A) (k : A -> outcome B) (P : A -> Prop) (Q : B -> Prop) :
  safe_or marked m P -> (forall a, P a -> safe_or marked (k a) Q) -> safe_or marked (m ≫= k) Q.
Proof. destruct m; cbn; auto. Qed.

Lemma safe_or_intro {A} marked (m : outcome A) (Q : A -> Prop) :
  (marked = false -> m <> Stuck) -> (forall a, m = Done a -> Q a) -> safe_or marked m Q.
Proof. intros Hs Hq. destruct m; cbn; auto. destruct marked; [done|by destruct (Hs eq_refl)]. Qed.

Lemma safe_safe_or {A} marked (m : outcome A) (Q : A -> Prop) : safe m Q -> safe_or marked m Q.
Proof. by destruct m. Qed.

(** A session goes on: it is the same one, and waits for the same answer. *)
Definition goes_on (h h' : AirPlayRemoteHls) : Prop :=
  session_ok h' /\ hls_active h' = true /\ hls_expected_request_id h' = hls_expected_request_id h.

Lemma master_accepted alloc h playlist : session_ok h -> hls_active h = true -> hls_expecting_master h = true -> hls_playlist_valid playlist = true ->
  safe_or (has_prefix playlist bom) (accept_master alloc h playlist) (fun p => goes_on h p.2 /\ (p.1 = true -> hls_expecting_master p.2 = false)).
Proof.
  intros Hok Ha He Hv. unfold accept_master, hls_rewrite_master_locked. set (h0 := { h with hls_media_count := 0%nat }).
  pose proof (so_table _ Hok) as [Hc Hl].
  assert (Hloop : loop_ok (mkLoop (buffer_of AIRPLAY_REMOTE_HLS_MAX_REWRITTEN_BYTES) true h0)).
  { split; [by apply buffer_of_ok; vm_compute|]. split; [cbn; unfold AIRPLAY_REMOTE_HLS_MAX_MEDIA_PLAYLISTS; lia|exact Hl]. }
  destruct (first_line _ Hv) as (line & lines & Elines & Hne & Hinf).
  destruct (lines_advance alloc (hls_master_has_h264_variant playlist) (playlist_lines playlist) _ Hloop) as (ok & l' & -> & Hl' & Hr & Hdone); [right; by rewrite Elines|].
  cbn [mbind outcome_bind ml_hls] in *. pose proof (so_progress _ Hok Ha) as Hp. unfold progress_ok in Hp. rewrite He in Hp. destruct Hp as (Hm & Hnone & Hid).
  set (h1 := ml_hls l') in *. pose proof (proj1 Hr) as Hrest. destruct (rest_fields h0 h1 Hrest) as (F1 & F2 & F3 & F4 & F5 & F6 & F7 & F8 & F9 & F10).
  assert (Hnone1 : forall i m, hls_media h1 !! i = Some m -> hm_playlist m = None).
  { intros i m' Hm'. destruct Hr as (_ & _ & _ & _ & P). destruct (P i m' Hm') as (m & Hm0 & -> & _). by apply (Hnone i). }
  assert (Hfail : goes_on h h1).
  { split; [|split; [by rewrite F1|exact F9]]. apply (session_ok_with h); try done; [apply Hl'|by rewrite F1|].
    unfold progress_ok. rewrite F7. change (hls_expecting_master h0) with (hls_expecting_master h). rewrite He. split_and!; [by rewrite F8|done|by rewrite F9]. }
  destruct ok; [|by split]. set (again := if (hls_media_count h1 =? 0)%nat then _ else _).
  assert (Hagain : safe_or (has_prefix playlist bom) again (master_text h1)).
  { destruct (Hdone eq_refl) as (kept & Hk1 & Hk2 & Hk3). unfold again. destruct (Nat.eqb_spec (hls_media_count h1) 0) as [E0|E0].
    - apply safe_or_intro; [intros Hb; by apply rewrite_ends|]. intros text Htext. left. split; [done|]. by exists alloc, playlist.
    - right. split; [lia|]. exists playlist, kept. by split_and!. }
  destruct again as [text| |]; [|by split|done]. split; [|done]. split; [|split; [exact (eq_trans F1 Ha)|exact F9]].
  apply (session_ok_with h); try done; [apply Hl'|exact (eq_trans F1 Ha)|]. unfold progress_ok. cbn [upd]. split_and!.
  - by exists text.
  - cbn. lia.
  - intros i m Hm'. exact (Hnone1 i m Hm').
  - intros E. exfalso. apply Hid. exact (eq_trans (eq_sym F9) E).
Qed.

Lemma media_accepted alloc h media playlist : session_ok h -> hls_active h = true -> hls_expecting_master h = false ->
  (hls_pending_media_index h < hls_media_count h)%nat -> hls_media h !! hls_pending_media_index h = Some media ->
  hls_expected_request_id h <> 0 -> hls_playlist_valid playlist = true ->
  safe_or (has_prefix playlist bom) (accept_media alloc h media playlist) (fun p => goes_on h p.2 /\ hls_expecting_master p.2 = false).
Proof.
  intros Hok Ha He Hpend Hm Hid Hv. unfold accept_media. pose proof (rewrite_ends alloc (hm_source_url media) playlist Hv) as Hends.
  destruct (hls_rewrite_media alloc (hm_source_url media) playlist) as [text| |] eqn:Et; [|done|by destruct (has_prefix playlist bom); [|destruct Hends]].
  pose proof (so_table _ Hok) as [Hc Hl]. pose proof (so_progress _ Hok Ha) as Hp. unfold progress_ok in Hp. rewrite He in Hp.
  destruct Hp as (Hmaster & Hle & Hmedia & Hzero). set (i := hls_pending_media_index h) in *.
  split; [|exact He]. split; [|by split]. apply (session_ok_with h); try done.
  { split; [exact Hc|]. cbn. by rewrite length_alter. }
  unfold progress_ok. cbn [upd hls_expecting_master snd]. rewrite He. split_and!.
  - destruct Hmaster as (master & Hmaster & Htext). exists master. split; [exact Hmaster|].
    eapply master_text_same; [|exact Htext]. split_and!; [done|done|]. by apply alter_sources.
  - cbn. fold i. lia.
  - cbn. fold i. intros j m' Hm'. apply alter_lookup in Hm' as [(-> & m & Hj & ->)|[Hne Hj]].
    + rewrite Nat.leb_refl. exists text. split; [done|]. exists alloc, playlist. split; [done|]. rewrite Hm in Hj. by injection Hj as <-.
    + specialize (Hmedia j m' Hj). destruct (Nat.ltb_spec j i), (Nat.leb_spec j i); try done; lia.
  - intros E. destruct (Hid E).
Qed.

(** Playback is announced when everything was handed over. *)
Definition announced (action : AirPlayRemoteHlsAction) (h : AirPlayRemoteHls) : Prop :=
  ha_kind action = AIRPLAY_REMOTE_HLS_ACTION_READY ->
  hls_active h = true /\ hls_expecting_master h = false /\ hls_pending_media_index h = hls_media_count h /\ ha_playback_url action = hls_playback_url h.

Definition acted (p : AirPlayRemoteHlsActionResult * AirPlayRemoteHlsAction * AirPlayRemoteHls) : Prop :=
  session_ok p.2 /\ announced p.1.2 p.2.

Lemma acted_quiet result action h : session_ok h -> ha_kind action <> AIRPLAY_REMOTE_HLS_ACTION_READY -> acted (result, action, h).
Proof. by split. Qed.

Lemma answered_ok h : session_ok h -> hls_active h = true -> hls_expecting_master h = false -> hls_pending_media_index h = hls_media_count h ->
  session_ok { h with hls_expected_request_id := 0; hls_expected_url := [] }.
Proof.
  intros Hok Ha He Hp. apply (session_ok_with h); try done; [apply Hok|]. pose proof (so_progress _ Hok Ha) as H. unfold progress_ok in *.
  cbn [upd hls_expecting_master]. rewrite He in *. by destruct H as (? & ? & ? & ?).
Qed.

Lemma next_acts alloc marked h action : session_ok h -> hls_active h = true -> hls_expecting_master h = false -> ha_kind action <> AIRPLAY_REMOTE_HLS_ACTION_READY ->
  safe_or marked (next_action alloc h action) acted.
Proof.
  intros Hok Ha He Hk. unfold next_action. pose proof (so_progress _ Hok Ha) as Hp. unfold progress_ok in Hp. rewrite He in Hp. destruct Hp as (_ & Hle & _ & _).
  destruct (Nat.ltb_spec (hls_pending_media_index h) (hls_media_count h)) as [Hlt|Hge].
  - destruct (so_table _ Hok) as [Hc Hl]. destruct (lookup_lt_is_Some_2 (hls_media h) (hls_pending_media_index h) ltac:(lia)) as [m ->].
    cbn [checked mbind outcome_bind]. eapply safe_or_bind; [apply safe_safe_or, prepare_spec; exact Ha|]. intros [event h'] [Hq Hid]. cbn [fst snd] in *.
    assert (session_ok h') by (apply (asked_ok h); [done|done|destruct event as [e|]; [left; destruct Hid as [-> ?]; done|by right]|done]).
    destruct event; by apply acted_quiet.
  - unfold hls_copy. destruct (negb _); cbn [ensure mbind outcome_bind]; [|by apply acted_quiet]. split; [by apply answered_ok; [| | |lia]|]. intros _. by split_and!; [| |cbn; lia|].
Qed.

Lemma playlist_acts alloc h session_id response : session_ok h -> pr_request_id response <> 0 -> hls_playlist_valid (pr_playlist response) = true ->
  safe_or (has_prefix (pr_playlist response) bom) (accept_playlist alloc h session_id response) acted.
Proof.
  intros Hok Hid Hv. unfold accept_playlist. destruct (_ || _) eqn:E1; [by apply acted_quiet|]. apply orb_false_iff in E1 as [Ha _]. apply negb_false_iff in Ha.
  destruct (Z.eqb_spec (hls_expected_request_id h) (pr_request_id response)) as [E2|]; cbn [negb]; [|by apply acted_quiet].
  destruct (negb _); [by apply acted_quiet|]. cbv zeta. destruct (hls_expecting_master h) eqn:He.
  - eapply safe_or_bind; [by apply master_accepted|]. intros [ok h'] [(Hok' & Ha' & _) Hm]. cbn [fst snd] in *. destruct ok; [|by apply acted_quiet]. apply next_acts; auto.
  - destruct (Nat.leb_spec (hls_media_count h) (hls_pending_media_index h)) as [|Hlt]; [by apply acted_quiet|].
    destruct (so_table _ Hok) as [Hc Hl]. destruct (lookup_lt_is_Some_2 (hls_media h) (hls_pending_media_index h) ltac:(lia)) as [m Hm].
    rewrite Hm. cbn [checked mbind outcome_bind]. eapply safe_or_bind; [apply media_accepted; (done || congruence)|]. intros [ok h'] [(Hok' & Ha' & _) He']. cbn [fst snd] in *.
    destruct ok; [|by apply acted_quiet]. by apply next_acts.
Qed.

(** A playlist with a byte order mark. *)
Definition marked (alloc : Z -> bool) (body : list Z) : bool :=
  match parse_action alloc body with Done (inr (Some response)) => has_prefix (pr_playlist response) bom | _ => false end.

Lemma parse_safe alloc body : Forall is_byte body -> safe (parse_action alloc body) (fun r =>
  match r with inr (Some response) => pr_request_id response <> 0 /\ hls_playlist_valid (pr_playlist response) = true | _ => True end).
Proof.
  intros Hb. unfold parse_action. pose proof (decode_spec alloc body (size body) Hb ltac:(lia)) as Hd.
  destruct (airplay_plist_decode alloc (Some body) (size body)) as [root| |]; [|done|done]. clear Hd. destruct root; try done. cbv zeta.
  destruct (airplay_plist_get_string _) as [type|]; [|done]. destruct (airplay_plist_dict_get _ _) as [[]|]; try done.
  destruct (negb _); [done|]. destruct (hls_get_uint _ _) as [id|]; [|done]. destruct (Z.eqb_spec id 0) as [|Hid]; [done|]. cbn [orb].
  destruct (_ <? _); [done|]. destruct (airplay_plist_get_string _); [|done]. destruct (airplay_plist_get_data _) as [playlist|]; [|done].
  by destruct (hls_playlist_valid playlist) eqn:Hv.
Qed.

Lemma action_acts alloc h session_id body : session_ok h -> Forall is_byte body ->
  safe_or (marked alloc body) (airplay_remote_hls_handle_action alloc h session_id body) acted.
Proof.
  intros Hok Hb. unfold airplay_remote_hls_handle_action, marked. destruct (_ || _); [by apply acted_quiet|].
  pose proof (parse_safe alloc body Hb) as Hp. destruct (parse_action alloc body) as [[result|[response|]]| |]; [by apply acted_quiet| |by apply acted_quiet|done|done].
  destruct Hp as [Hid Hv]. by apply playlist_acts.
Qed.

Lemma begun_ok alloc h session_id generation port apple locator event h' : session_ok h ->
  airplay_remote_hls_begin alloc h session_id generation port apple locator = Done (event, h') -> session_ok h'.
Proof.
  intros Hok. unfold airplay_remote_hls_begin. destruct (_ || _); [by intros [= _ <-]|]. cbv zeta.
  destruct (_ && _) eqn:Hfits; [|intros [= _ <-]; apply reset_ok]. apply andb_true_iff in Hfits as [_ Hfits].
  set (h0 := upd _ _ _). intros H. apply bind_done in H as ([event' h1] & H & H1). injection H1 as <- <-.
  destruct event' as [e|]; [|apply reset_ok]. pose proof (prepare_spec alloc h0 locator eq_refl) as Hs. rewrite H in Hs. destruct Hs as [Hq [Hid Hne]].
  cbn [fst snd] in *. rewrite (only_question _ _ Hq). split; try done.
  - split; [cbn; unfold AIRPLAY_REMOTE_HLS_MAX_MEDIA_PLAYLISTS; lia|done].
  - intros _. unfold progress_ok. cbn. split_and!; [done| |by rewrite Hid].
    intros i m Hm. do 16 (destruct i as [|i]; [by injection Hm as <-|]). done.
Qed.

Lemma served_ok h uri : session_ok h -> hls_active h = true -> session_ok (serve_playlist h uri).2.
Proof.
  intros Hok Ha. unfold serve_playlist. destruct (names _ _).
  - destruct (hls_master_playlist h); [|done]. apply (session_ok_with h); try done; [apply Hok|]. exact (so_progress _ Hok Ha).
  - destruct (find_entry _ _) as [i|]; [|done]. destruct (hls_media h !! i ≫= hm_playlist); [|done]. cbn [snd].
    pose proof (so_table _ Hok) as [Hc Hl]. apply (session_ok_with h); try done; [split; [exact Hc|cbn; by rewrite length_alter]|].
    pose proof (so_progress _ Hok Ha) as Hp. unfold progress_ok in *. cbn [upd hls_expecting_master].
    assert (Hnew : forall (P : nat -> AirPlayRemoteHlsMedia -> Prop), (forall j m, hls_media h !! j = Some m -> P j m) -> (forall j m, P j m -> P j { m with hm_served := true }) ->
      forall j m, alter (fun m => { m with hm_served := true }) i (hls_media h) !! j = Some m -> P j m).
    { intros P HP Hs j m' Hm'. apply alter_lookup in Hm' as [(-> & m & Hm & ->)|[_ Hm]]; auto. }
    destruct (hls_expecting_master h).
    + destruct Hp as (H1 & H2 & H3). split_and!; [exact H1| |exact H3]. cbn. by apply (Hnew (fun _ m => hm_playlist m = None)).
    + destruct Hp as ((text & H1 & Htext) & H2 & H3 & H4). split_and!; [|exact H2| |exact H4].
      * exists text. split; [exact H1|]. eapply master_text_same; [|exact Htext]. split_and!; [done|done|]. by apply alter_sources.
      * cbn. apply (Hnew (fun j m => if (j <? hls_pending_media_index h)%nat then exists text, hm_playlist m = Some text /\ media_text (hm_source_url m) text else hm_playlist m = None)); [exact H3|].
        intros j m. by destruct (j <? _)%nat.
Qed.

(** ** Runs *)

(** The calls, with any failures of the memory. *)
Inductive hls_step (h : AirPlayRemoteHls) : AirPlayRemoteHls -> Prop :=
| step_begin alloc session_id generation port apple locator event h' :
    airplay_remote_hls_begin alloc h session_id generation port apple locator = Done (event, h') -> hls_step h h'
| step_action alloc session_id body result action h' : Forall is_byte body ->
    airplay_remote_hls_handle_action alloc h session_id body = Done (result, action, h') -> hls_step h h'
| step_serve alloc request response handled response' h' :
    airplay_remote_hls_serve alloc h request response = (handled, response', h') -> hls_step h h'
| step_reset session_id generation : hls_step h (airplay_remote_hls_reset h session_id generation).

Definition hls_reachable : AirPlayRemoteHls -> Prop := rtc hls_step hls_reset_locked.

Lemma hls_step_ok h h' : hls_step h h' -> session_ok h -> session_ok h'.
Proof.
  intros [] Hok.
  - by eapply begun_ok.
  - pose proof (action_acts alloc h session_id body Hok H) as Ha. rewrite H0 in Ha. apply Ha.
  - revert H. unfold airplay_remote_hls_serve. destruct (negb _); [by intros [= _ _ <-]|]. cbv zeta. destruct (negb _); [by intros [= _ _ <-]|].
    destruct (hls_active h) eqn:Hact; cbn [negb]; [|by intros [= _ _ <-]]. pose proof (served_ok h (uri request) Hok Hact) as Hs.
    destruct (serve_playlist h (uri request)) as [[playlist|] h1]; by intros [= _ _ <-].
  - unfold airplay_remote_hls_reset. destruct (_ && _); [apply reset_ok|done].
Qed.

Lemma hls_reachable_ok h : hls_reachable h -> session_ok h.
Proof.
  unfold hls_reachable. pose proof reset_ok as Hok. revert Hok. generalize hls_reset_locked. intros h0 Hok H. revert Hok. induction H as [|h1 h2 h3 Hs _ IH]; [done|]. intros Hok. apply IH. by eapply hls_step_ok.
Qed.

(** ** What the player finds *)

(** The uri the player resolves against the url of the master playlist. *)
Definition player_uri (token name : cstring) : cstring := AIRPLAY_REMOTE_HLS_LOCAL_PREFIX ++ token ++ bytes "/" ++ name.

Lemma master_uri token : local_master token = player_uri token (bytes "master.m3u8").
Proof. done. Qed.

Lemma media_uri token i : local_media token i = player_uri token (local_media_uri i).
Proof. done. Qed.

Lemma player_uri_inj token name name' : player_uri token name = player_uri token name' -> name = name'.
Proof. unfold player_uri. by intros H%app_inv_head%app_inv_head%app_inv_head. Qed.

Lemma media_uri_inj i j : (i < 16)%nat -> (j < 16)%nat -> local_media_uri i = local_media_uri j -> i = j.
Proof.
  intros Hi Hj H. assert (Hnd : NoDup (map local_media_uri (seq 0 16))) by (apply (bool_decide_unpack _); by vm_compute).
  eapply (NoDup_lookup _ i j (local_media_uri i) Hnd); rewrite list_lookup_fmap, lookup_seq_lt by done; [done|]. cbn. by rewrite H.
Qed.

Lemma local_uri_len i : (i < 16)%nat -> size (local_media_uri i) <= 13.
Proof. intros Hi. do 16 (destruct i as [|i]; [by vm_compute|]). lia. Qed.

Lemma media_not_master i : local_media_uri i = bytes "master.m3u8" -> False.
Proof. intros H. apply (f_equal (fun l => nth 1 l 0)) in H. by vm_compute in H. Qed.

Lemma player_fits port token name : size name <= 16 -> fits (playback_url_of port token) (AIRPLAY_REMOTE_HLS_LOCAL_URL_MAX + 1) = true ->
  fits (player_uri token name) (AIRPLAY_REMOTE_HLS_LOCAL_URL_MAX + 1) = true.
Proof.
  unfold fits, playback_url_of, player_uri, size. rewrite !Z.ltb_lt, !length_app. change (length (bytes "/master.m3u8")) with 12%nat.
  change (length (bytes "http://127.0.0.1:")) with 17%nat. change (length (bytes "/")) with 1%nat. lia.
Qed.

Lemma master_served h text : session_ok h -> hls_active h = true -> hls_master_playlist h = Some text ->
  (serve_playlist h (player_uri (hls_token h) (bytes "master.m3u8"))).1 = Some text.
Proof.
  intros Hok Ha Hm. unfold serve_playlist, names. destruct (so_url _ Hok Ha) as [E Hf]. rewrite E in Hf. rewrite master_uri.
  rewrite (player_fits _ _ (bytes "master.m3u8") ltac:(done) Hf), bool_decide_eq_true_2 by done. cbn [andb]. by rewrite Hm.
Qed.

Lemma media_served h i m text : session_ok h -> hls_active h = true -> (i < hls_media_count h)%nat -> hls_media h !! i = Some m -> hm_playlist m = Some text ->
  (serve_playlist h (player_uri (hls_token h) (local_media_uri i))).1 = Some text.
Proof.
  intros Hok Ha Hi Hm Ht. destruct (so_url _ Hok Ha) as [E Hf]. rewrite E in Hf. destruct (so_table _ Hok) as [Hc _]. unfold AIRPLAY_REMOTE_HLS_MAX_MEDIA_PLAYLISTS in Hc.
  unfold serve_playlist, names. rewrite master_uri. rewrite (bool_decide_eq_false_2 (_ = player_uri _ (bytes "master.m3u8"))), andb_false_r; [|by intros H%player_uri_inj%media_not_master].
  rewrite (find_entry_unique _ _ i i).
  - rewrite Hm. cbn [mbind option_bind]. by rewrite Ht.
  - rewrite lookup_seq_lt; [done|lia].
  - rewrite media_uri, bool_decide_eq_true_2, andb_true_r by done. eapply player_fits; [|exact Hf]. pose proof (local_uri_len i ltac:(lia)). lia.
  - intros j k [-> Hj]%lookup_seq. rewrite andb_true_iff. intros [_ H%bool_decide_eq_true]. rewrite media_uri in H. apply player_uri_inj, media_uri_inj in H; lia.
Qed.

(** Everything the player will ask for is there. *)
Definition complete (h : AirPlayRemoteHls) : Prop :=
  (exists text, (serve_playlist h (player_uri (hls_token h) (bytes "master.m3u8"))).1 = Some text /\ master_text h text) /\
  forall i, (i < hls_media_count h)%nat -> exists m text, hls_media h !! i = Some m /\
    (serve_playlist h (player_uri (hls_token h) (local_media_uri i))).1 = Some text /\ media_text (hm_source_url m) text.

Lemma ready_complete h : session_ok h -> hls_active h = true -> hls_expecting_master h = false -> hls_pending_media_index h = hls_media_count h -> complete h.
Proof.
  intros Hok Ha He Hp. pose proof (so_progress _ Hok Ha) as Hprog. unfold progress_ok in Hprog. rewrite He in Hprog. destruct Hprog as ((text & Hm & Ht) & _ & Hmedia & _).
  split; [exists text; split; [by apply master_served|done]|]. intros i Hi. destruct (so_table _ Hok) as [Hc Hl].
  destruct (lookup_lt_is_Some_2 (hls_media h) i ltac:(lia)) as [m Hmi]. pose proof (Hmedia i m Hmi) as Hi'. rewrite Hp in Hi'.
  rewrite (proj2 (Nat.ltb_lt _ _) Hi) in Hi'. destruct Hi' as (text' & Ht' & Hmt). exists m, text'. split_and!; [done|by eapply media_served|done].
Qed.

(** C26: A controller can hand over playlists in any order, late, twice or not at all.  For
    every state that calls lead to, whatever memory was there, and any bytes it sends:
    the handling ends without an access outside of a buffer, unless the playlist has a
    byte order mark, and when it announces playback, the announced url is that of the
    master playlist, which is served: its lines are kept, without the variants in other
    codecs, and each playlist they name is the local uri of the media with that url; and
    for each of the media the rewritten playlist that was handed over for its url is
    served at its local uri. *)
Theorem ready_session_is_complete alloc h session_id body : hls_reachable h -> Forall is_byte body ->
  safe_or (marked alloc body) (airplay_remote_hls_handle_action alloc h session_id body) (fun '(_, action, h') =>
    ha_kind action = AIRPLAY_REMOTE_HLS_ACTION_READY ->
    ha_playback_url action = bytes "http://127.0.0.1:" ++ format_u (hls_control_port h') ++ player_uri (hls_token h') (bytes "master.m3u8") /\ complete h').
Proof.
  intros Hr Hb. pose proof (action_acts alloc h session_id body (hls_reachable_ok h Hr) Hb) as H.
  destruct (airplay_remote_hls_handle_action alloc h session_id body) as [[[result action] h']| |]; [|done|done].
  destruct H as [Hok Hann]. intros Hk. destruct (Hann Hk) as (Ha & He & Hp & Hurl). cbn [snd fst] in *. split; [|by apply ready_complete].
  rewrite Hurl. by destruct (so_url _ Hok Ha) as [-> _].
Qed.

(** ** An example *)

Definition handed_over (request_id : Z) (url : string) (playlist : list Z) : list Z :=
  match airplay_plist_encode (fun _ => true) (Some (PlistDict [(bytes "type", PlistString (bytes "unhandledURLResponse"));
    (bytes "params", PlistDict [(bytes "FCUP_Response_RequestID", PlistUint request_id); (bytes "FCUP_Response_URL", PlistString (bytes url));
      (bytes "FCUP_Response_Data", PlistData playlist)])])) with
  | Returns body => body
  | _ => []
  end.

Definition demo_master : list Z := text_lines ["#EXTM3U"; "#EXT-X-STREAM-INF:CODECS='vp09'"; "vp9.m3u8"; "#EXT-X-STREAM-INF:CODECS='avc1'"; "/720.m3u8?q"]%string.
Definition demo_media : list Z := text_lines ["#EXTM3U"; "#EXTINF:5,"; "one.ts"]%string.

(** The state after a call. *)
Definition after {A} (h : AirPlayRemoteHls) (m : outcome (A * AirPlayRemoteHls)) : AirPlayRemoteHls :=
  match m with Done (_, h') => h' | _ => h end.

Lemma after_begin alloc h session_id generation port apple locator :
  rtc hls_step h (after h (airplay_remote_hls_begin alloc h session_id generation port apple locator)).
Proof.
  destruct (airplay_remote_hls_begin alloc h session_id generation port apple locator) as [[event h']| |] eqn:E; [|apply rtc_refl..].
  apply rtc_once. by eapply step_begin.
Qed.

Lemma after_action alloc h session_id body : Forall is_byte body ->
  rtc hls_step h (after h (airplay_remote_hls_handle_action alloc h session_id body)).
Proof.
  intros Hb. destruct (airplay_remote_hls_handle_action alloc h session_id body) as [[[result action] h']| |] eqn:E; [|apply rtc_refl..].
  apply rtc_once. by eapply step_action.
Qed.

Definition plenty (n : Z) : bool := true.
Definition demo_begun : AirPlayRemoteHls :=
  after hls_reset_locked (airplay_remote_hls_begin plenty hls_reset_locked 7 1 7000 (bytes "A-1") (bytes "mlhls://host/a/master.m3u8")).
Definition demo_question : list Z := handed_over 1 "mlhls://host/a/master.m3u8" demo_master.
Definition demo_asking : AirPlayRemoteHls := after demo_begun (airplay_remote_hls_handle_action plenty demo_begun 7 demo_question).
Definition demo_answer : list Z := handed_over 2 "mlhls://host/720.m3u8?q" demo_media.

Lemma bytes_checked l : forallb (fun b => (0 <=? b) && (b <? 256)) l = true -> Forall is_byte l.
Proof.
  rewrite forallb_forall, Forall_forall. intros H x Hx. apply list_elem_of_In, H, andb_true_iff in Hx as [?%Z.leb_le ?%Z.ltb_lt]. by split.
Qed.

Lemma ready_session_is_complete_witness :
  (match airplay_remote_hls_handle_action plenty demo_asking 7 demo_answer with
   | Done (result, action, h) =>
       result = RESULT_OK /\ ha_kind action = AIRPLAY_REMOTE_HLS_ACTION_READY /\ hls_media_count h = 1%nat /\
       (serve_playlist h (player_uri (hls_token h) (bytes "master.m3u8"))).1 =
         Some (text_lines ["#EXTM3U"; "#EXT-X-STREAM-INF:CODECS='avc1'"; "media/0.m3u8"]%string) /\
       (serve_playlist h (player_uri (hls_token h) (bytes "media/0.m3u8"))).1 =
         Some (text_lines ["#EXTM3U"; "#EXTINF:5,"; "mlhls://host/one.ts"]%string)
   | _ => False
   end) /\
  safe_or (marked plenty demo_answer) (airplay_remote_hls_handle_action plenty demo_asking 7 demo_answer) (fun '(_, action, h') =>
    ha_kind action = AIRPLAY_REMOTE_HLS_ACTION_READY ->
    ha_playback_url action = bytes "http://127.0.0.1:" ++ format_u (hls_control_port h') ++ player_uri (hls_token h') (bytes "master.m3u8") /\ complete h').
Proof.
  split; [vm_compute; by repeat split|]. apply ready_session_is_complete; [|apply bytes_checked; by vm_compute].
  unfold hls_reachable. transitivity demo_begun; [apply after_begin|]. apply after_action, bytes_checked. by vm_compute.
Defined.

(** A playlist with a byte order mark that is handed over. *)
Lemma marked_action_crashes :
  marked plenty (handed_over 1 "mlhls://host/a/master.m3u8" marked_playlist) = true /\
  airplay_remote_hls_handle_action plenty demo_begun 7 (handed_over 1 "mlhls://host/a/master.m3u8" marked_playlist) = Stuck.
Proof. by vm_compute. Qed.
